(* ===== verification/_CoqProject ===== *)
-Q . S2P
Prelude.v
PyDict.v
Json.v
PyFloat.v
PyRegex.v
Endpoint.v
NodeModel.v
Registry.v
Routing.v
Auth.v
AuthStore.v
Planner.v
PlannerMatching.v
Breaker.v
HealthChecker.v
Dialects.v
SystemMessages.v
Failover.v
Etcd.v
Watcher.v
RelaunchRecovery.v
ProvisionerOps.v
Relaunch.v
Provisioner.v
Background.v
EtcdWire.v
Quads.v
VllmFit.v
Catalog.v
Claims.v
Reconciler.v
PlacementPass.v
Lifecycle.v
Enforcer.v
LogBuffer.v
LogStore.v
Recorder.v
RemoteLogs.v
Recovery.v
Setup.v
Scripts.v
FileSystem.v
Generations.v
LlamaFit.v
Sessions.v
Login.v
Fleet.v
