(* ===== verification/Prelude.v ===== *)
(** * QIIP gateway: verification library

    QIIP is an inference gateway.  It discovers GPU nodes in etcd, routes
    OpenAI- and Anthropic-style requests to them with failover, checks their
    health, authenticates callers, places model profiles on free hosts, and
    provisions those hosts over SSH.  This library models the decision-making
    Python code of the gateway ([src/inference_proxy]) and of the tools it runs
    on the hosts ([src/common]) as executable definitions and proves what keeps
    it correct.  Only the definitions say what the code does; network calls, the
    clock, randomness and the behaviour of other threads are arguments.

    ** Parts and how they interact

    - The discovery watcher turns etcd snapshots and watch events into registry
      entries and lease observations; the lease manager keeps etcd leases alive
      for nodes the health checker vouches for.
    - The registry is the shared table of nodes.  Routing picks a node from it
      within the caller's scope, counts in-flight requests and removes drained
      nodes; the health checker and the breakers move nodes in and out of
      rotation.
    - A request is authenticated, scoped, and forwarded by the failover loops,
      which reserve and release nodes and record breaker outcomes and metrics.
    - The identity store keeps users, API tokens, set-up links and usage counts
      in SQL tables shared by all workers; sign-in routes and browser sessions
      build on it, and viewer roles decide what the node list shows.
    - The placement reconciler claims free hosts in etcd, asks the planner how
      to split them between the catalog's profiles, and provisions them.
    - Everything that changes a host (placement, the QUADS schedule enforcer,
      recovery of relaunches that a crash interrupted) goes through the host
      lifecycle coordinator, a queue of leases per host, or through guarded
      writes to etcd; provisioning output goes to readers through the log
      buffer.
    - The provisioner runs setup and start scripts on hosts in background tasks,
      plans the memory of a launch, verifies it from the server's log, and
      relaunches, hands over and tears down nodes.  Failures are classified and
      retried within a budget.
    - On the host the recorder runs a command under the host lock and keeps its
      output; the gateway mirrors that log page by page into its own store and
      asks for live work before it changes the host.  The generation tool seals
      bundles and runtimes and switches between generations with atomic links.

    ** Files

    - [Prelude]: results of Python calls that may raise, string and list
      functions of Python, automation, shared lemmas.
    - [PyDict], [Json], [PyFloat], [PyRegex]: insertion-ordered dictionaries;
      JSON documents and the values stored in etcd; binary64 arithmetic;
      regular expressions with a matcher and its specification.
    - [NodeModel]: [models/node.py].  Pydantic models are records, a constructor
      call is [M_validate].
    - [Registry]: [discovery/registry.py].  State [NodeRegistry]; one definition
      per method.
    - [Routing]: [routing/connection_tracker.py], [routing/request_metrics.py],
      [routing/node_selector.py], [routing/drain_cleanup.py], and the step
      relation on worlds of reservations used for interleavings.
    - [Auth]: [auth/scopes.py], [auth/allowlist.py], [auth/signin_policy.py],
      [auth/dependencies.py].
    - [AuthStore]: [auth/store.py].  The tables are lists of rows, a method is a
      transaction on them, and what other workers commit in between is an
      argument.
    - [Sessions]: [auth/session.py] and the viewer checks of
      [config/dependencies.py].  [Login]: the identity providers, [api/auth.py]
      and the token endpoints of [api/profile.py] and [api/admin_tokens.py].
    - [Fleet]: [services/unified_nodes.py], [api/fleet.py] and the node list of
      [api/admin.py].
    - [Planner], [PlannerMatching]: [placement/planner.py] and the theory of its
      augmenting-path search.
    - [Breaker]: [resilience/circuit_breaker.py]; breakers are heap objects.
    - [HealthChecker]: [resilience/health_checker.py], a whole probe cycle.
    - [Dialects]: [api/errors.py], [api/dialects.py].
    - [SystemMessages]: [api/system_messages.py].
    - [Failover]: the request loops of [api/routes.py], with [proxy/client.py].
    - [Etcd]: [discovery/etcd_client.py] over the class [Etcd] (the server's
      calls) with [EtcdLaws] (its documented guarantees) and the instance
      [MapStore]; [discovery/node_leases.py].
    - [EtcdWire]: the JSON parsing of [discovery/etcd_client.py]: base64 fields,
      range replies, the watch stream.
    - [Watcher]: [discovery/watcher.py], [discovery/serializer.py].
    - [RelaunchRecovery]: [discovery/relaunch_recovery.py] and the start-up
      passes of the watcher and [main.py] that run it.
    - [ProvisionerOps], [Relaunch], [Provisioner], [Background]: the operations
      of [provisioning/provisioner.py] on shared state, the relaunch
      transaction, registration, hand-over and teardown, and the table of
      background tasks.  A coroutine is a computation on a [World]; at every
      await other tasks run and it may be cancelled.
    - [Quads]: [quads/models.py], [quads/client.py], [quads/poller.py].
    - [VllmFit]: [provisioning/vllm_fit.py], memory planning of vLLM launches.
    - [LlamaFit]: [provisioning/llamacpp_profile.py] and the verification of
      llama.cpp launches in [provisioning/provisioner.py].
    - [Catalog]: [placement/catalog.py].
    - [Claims]: [placement/claims.py], [placement/suspensions.py].
    - [Reconciler]: the claim life cycle of [placement/reconciler.py].
    - [PlacementPass]: the whole pass of [placement/reconciler.py] (candidates,
      policy, readiness, launches, report) and the placement settings.
    - [Lifecycle]: [provisioning/lifecycle.py], as a step relation on the
      coordinator's table of locks and on the threads that use it.
    - [Enforcer]: [quads/schedule_enforcer.py] against the class
      [LeaseService], whose laws [Lifecycle] discharges.
    - [LogBuffer]: [provisioning/log_buffer.py].
    - [LogStore]: [provisioning/log_store.py], tables with their triggers.
    - [Recorder]: [common/provision-logs.py], with the descriptors and the
      [flock] that the kernel keeps for its host lock.  [RemoteLogs]:
      [provisioning/remote_logs.py] and the host reconciliation of the
      provisioner.
    - [Recovery]: [provisioning/recovery.py].  [Setup]: the setup runs of the
      provisioner.  [Scripts]: the command lines and environments it sends.
    - [FileSystem], [Generations]: [common/generations.py] over a file system on
      which every changing call may fail or be the last one.
    - [Endpoint]: [models/endpoint.py], with what it uses of [urllib.parse] and
      [ipaddress].

    ** What the theorems show

    - Requests: [failover_spec] describes every attempt and the reply of a
      request and the return of its reservations, [stream_reservations] that of
      streams and [stream_cancel_leaks] when they are not; [metrics_exact], [list_models_public],
      [stream_usage_latest] describe what is recorded and listed.
    - Routing: [select_spec]; [reservation_accounting] (connection counts under
      every interleaving); [sweep_drains_exactly].
    - Callers: [routing_isolation], [scope_noninterference],
      [pickable_matches_routing], [authenticate_spec], [allowlist_fail_closed],
      [allowlist_windows]; [admin_gate_exact], [session_refines_identity],
      [basic_roundtrip] and [fleet_email_exact] for sessions; [callback_spec],
      [local_login_spec], [mint_gate] and [demotion_immediate] for the routes;
      [unified_exact], [fleet_private] and [fleet_matches_picker] for what a
      viewer sees.
    - Identities: [store_invariant] (the tables' keys and references under every
      operation), [revocation_final], [token_identity_stable],
      [create_token_spec], [personal_token_spec], [config_token_stable],
      [upsert_spec], [setup_link_spec], [usage_accounting],
      [leaderboard_exact].
    - Health: [breaker_trips_exactly], [half_open_single_probe],
      [protected_statuses_survive], [demotion_after_threshold],
      [recovery_needs_inference].
    - Discovery: [watch_converges], [snapshot_authoritative], [replay_is_noop],
      [prefix_range_exact], [lease_adoption_safe]; [wire_roundtrip] and
      [replies_checked] for the wire format; [recovery_fail_closed] and
      [recovery_writes_guarded] for relaunches found after a restart;
      [endpoint_policy_exact] and [origin_canonical] for backend addresses.
    - Placement: [apportion_spec], [apportion_largest_remainder],
      [plan_placements_total], [plan_placements_sound],
      [plan_placements_maximum]; [claim_single_winner], [suspension_intent],
      [launch_guarded], [people_left_alone], [heartbeat_ownership];
      [pass_starts_safely], [pass_fails_closed], [pass_leaves_people] and
      [candidates_exact] for the pass as a whole;
      [builtin_catalog_launches], [launch_request_exact], [resolution_exact].
    - Hosts: [lifecycle_refines_queue] (the lock table implements a queue per
      host) and [lifecycle_next_served]; [enforcer_pass_exact],
      [enforcer_exclusive], [failed_teardown_retried], [retry_backoff];
      [poller_snapshot].
    - Provisioning: [relaunch_safe] (whatever fails or is cancelled, as long as
      nobody else puts the node back) and [relaunch_restores],
      [teardown_gate], [teardown_complete], [owner_handover],
      [adoption_verified], [capacity_respected], [cancel_inspected_only];
      [plan_fits_memory], [explicit_kept], [retry_progress] and [plan_returns]
      for memory plans; [launch_verified] and [newest_launch_only] for launch
      evidence; [permanent_never_retried], [plan_id_order_independent],
      [setup_retries_justified], [markers_recorded], [script_command_exact] and
      [plan_covers_setup] for setup.
    - On the host: [framing_lossless], [host_exclusive], [probe_exact] for the
      recorder; [activation_whole], [rollback_resumes] and [publish_whole] for
      generations, at every interruption and under every failing call.
    - Logs: [buffer_refines_log] (the buffer is the newest part of the whole
      log), [closed_log_ends_readers], [generations_closed];
      [store_accounting], [replay_idempotent], [paging_complete],
      [resumable_exact] and [retention_exact] for the store; [collect_exact]
      and [reconcile_fences] for mirroring and fencing.
    - Data: [request_validate_spec]; [inline_keeps_prefix] and
      [inline_functional] for system messages.
    - Behaviour that contradicts the code's intent, as concrete runs:
      [forget_breaks_drain],
      [lost_adoption_reply_deletes_node], [blocked_retry_corrupts_claim],
      [gap_hides_entries], [create_failure_strands_readers],
      [reregistered_host_not_enforced], [inline_raises],
      [poisoned_record_blocks_discovery], [late_outage_raises],
      [config_backfill_race], [expiring_session_unfiltered],
      [colliding_ids_hide_node], [nonobject_task_fails_list],
      [identical_retry], [recorded_failure_undoes_relaunch],
      [lost_commit_reply_routes_dead_node],
      [failed_teardown_loses_relaunch_state],
      [overlapping_launch_starts_twice], [late_failure_swaps_back],
      [partial_target_accepted], [pruned_survivor_unreported],
      [second_phase_let_through].

    ** Modelling conventions

    A method that holds a lock for its whole body is one atomic step.  A thread
    or coroutine that waits hands control to a function argument that may change
    the shared state arbitrarily; theorems either hold for all such functions or
    say what they need of them.  A raised exception is [Err] or [None].
    Unbounded Python integers are [Z]; times are integers in one fixed unit.
    Text is ASCII where the code looks at its characters.  The numbers of a JSON
    document are integers; fractions are not represented.

    Recursion is structural.  The searches that are not take fuel that cannot
    run out: [take_host] the number of hosts plus one, because each nested call
    marks one more host visited ([plan_placements_total]); the matcher's
    repetitions the length of the text left, because every round beyond the
    least number consumes a character; cutting output into records the number of
    bytes plus one.  The request loops, [reconcile_loop] and the setup retries
    recurse on the budget the code counts down, the collection of a log on the
    128 pages the code allows.  The retry of a lost race in [config_loop] takes
    fuel for its rounds; [config_token_stable] shows that no round is repeated
    unless another worker interferes.  A path lookup follows at most 40 links,
    the kernel's limit.

    ** Not modelled

    - Transport and storage: HTTP clients and servers, SSH, SQLite's engine,
      subprocesses and signals, TLS, the Redfish and LLMFit commands, downloads
      and directory scans of the model cache.  Their answers are arguments where
      modelled code uses them.
    - The remaining FastAPI handlers and HTML templates of the dashboard,
      onboarding and administration pages: they pass values between modelled
      components and the browser.
    - A watch batch whose handling raises part-way; what has been applied of it
      is repeated from the revision before it.
    - Settings classes (field declarations with defaults), dependency injection,
      the plugin loader, logging set-up and process start-up.
    - Shell scripts, which are not Python; the recorder's event loop over pipes;
      the builder of llama.cpp artifacts; development and packaging tools. *)

From stdpp Require Export base option list gmap strings sorting.
From Stdlib Require Export ZArith Lia.
From Stdlib Require Import Ascii DecimalString.

(** ** Scopes and fallible computations *)

Declare Scope py_scope.
Delimit Scope py_scope with py.

(** A Python call that returns or raises.  The payload of [Err] is what the
    caller can observe of the exception. *)
Inductive result (E A : Type) : Type :=
| Ok (a : A)
| Err (e : E).
Arguments Ok {E A} a.
Arguments Err {E A} e.

Definition rbind {E A B} (x : result E A) (k : A -> result E B) : result E B :=
  match x with Ok a => k a | Err e => Err e end.

Definition is_ok {E A} (x : result E A) : bool :=
  match x with Ok _ => true | Err _ => false end.

(** [raise_if c e] is the Python statement [if c: raise e]. *)
Definition raise_if {E} (c : bool) (e : E) : result E unit :=
  if c then Err e else Ok tt.

Notation "'let?' x ':=' c 'in' k" := (rbind c (fun x => k))
  (at level 10, x pattern, c at level 100, k at level 200) : py_scope.
Notation "c ';?' k" := (rbind c (fun _ => k))
  (at level 100, right associativity) : py_scope.
Open Scope py_scope.

(** [or_default o d] is [o if o is not None else d]. *)
Definition or_default {A} (o : option A) (d : A) : A :=
  match o with Some a => a | None => d end.

Definition is_none {A} (o : option A) : bool :=
  match o with Some _ => false | None => true end.
Definition is_some {A} (o : option A) : bool := negb (is_none o).

(** ** Automation *)

Create HintDb qiip discriminated.

(** Case analysis on every [match]/[if] of the goal and hypotheses, then the
    usual clean-up. *)
Ltac case_all :=
  repeat (case_match || case_bool_decide || case_decide); simplify_eq/=.

(** Turns boolean equations into propositions. *)
Ltac bool_to_prop :=
  repeat match goal with
  | H : andb _ _ = true |- _ => apply andb_prop in H as [? ?]
  | H : andb _ _ = false |- _ => apply andb_false_iff in H
  | H : orb _ _ = false |- _ => apply orb_false_elim in H as [? ?]
  | H : orb _ _ = true |- _ => apply orb_true_iff in H
  | H : negb _ = true |- _ => apply negb_true_iff in H
  | H : negb _ = false |- _ => apply negb_false_iff in H
  | H : bool_decide _ = true |- _ => apply bool_decide_eq_true in H
  | H : bool_decide _ = false |- _ => apply bool_decide_eq_false in H
  | H : (_ <=? _)%Z = true |- _ => apply Z.leb_le in H
  | H : (_ <=? _)%Z = false |- _ => apply Z.leb_gt in H
  | H : (_ <? _)%Z = true |- _ => apply Z.ltb_lt in H
  | H : (_ <? _)%Z = false |- _ => apply Z.ltb_ge in H
  | H : (_ =? _)%Z = true |- _ => apply Z.eqb_eq in H
  | H : (_ =? _)%Z = false |- _ => apply Z.eqb_neq in H
  end.

(** Opens every fallible step of a hypothesis [rbind .. = Ok _]. *)
Lemma rbind_Ok {E A B} (x : result E A) (k : A -> result E B) b :
  rbind x k = Ok b <-> exists a, x = Ok a /\ k a = Ok b.
Proof.
  destruct x as [a|e]; cbn; split; [by eauto| |done|]; intros (? & ? & ?); congruence.
Qed.

Lemma raise_if_Ok {E} (c : bool) (e : E) u : raise_if c e = Ok u <-> c = false.
Proof. by destruct c, u. Qed.

Lemma raise_bind {E A} (c : bool) (e : E) (k : result E A) a :
  rbind (raise_if c e) (fun _ => k) = Ok a <-> c = false /\ k = Ok a.
Proof. destruct c; cbn; naive_solver. Qed.

Ltac inv_ok :=
  repeat match goal with
  | H : rbind _ _ = Ok _ |- _ =>
      let a := fresh "a" in let Ha := fresh "Ha" in
      apply rbind_Ok in H as (a & Ha & H)
  | H : raise_if _ _ = Ok _ |- _ => apply raise_if_Ok in H
  | H : Ok _ = Ok _ |- _ => injection H as H
  | H : Err _ = Ok _ |- _ => discriminate H
  end.

(** ** Python strings

    A [str] is a [string] of 8-bit characters; the code compares, lower-cases
    and slices host names, e-mail addresses and etcd keys, all of which are
    ASCII. *)

Definition ascii_lower (a : Ascii.ascii) : Ascii.ascii :=
  let n := Ascii.nat_of_ascii a in
  if (Nat.leb 65 n && Nat.leb n 90)%bool then Ascii.ascii_of_nat (n + 32) else a.

Fixpoint py_lower (s : string) : string :=
  match s with
  | EmptyString => EmptyString
  | String a s => String (ascii_lower a) (py_lower s)
  end.

(** [s.startswith(p)] *)
Definition startswith (s p : string) : bool := String.prefix p s.

(** [s.endswith(suffix)] *)
Fixpoint endswith (s suffix : string) : bool :=
  bool_decide (s = suffix) || match s with EmptyString => false | String _ s => endswith s suffix end.

Fixpoint drop_chars (n : nat) (s : string) : string :=
  match n, s with
  | O, _ => s
  | S n, String _ s => drop_chars n s
  | S _, EmptyString => EmptyString
  end.

(** [s.removeprefix(p)] *)
Definition removeprefix (p s : string) : string :=
  if startswith s p then drop_chars (String.length p) s else s.

(** The truth value of a [str]. *)
Definition str_truthy (s : string) : bool := negb (bool_decide (s = "")).

(** [str.strip()]: ASCII white space is tab to carriage return, the four
    separators 0x1c-0x1f and the blank. *)
Definition is_space (a : Ascii.ascii) : bool :=
  let n := Ascii.nat_of_ascii a in
  (Nat.leb 9 n && Nat.leb n 13) || (Nat.leb 28 n && Nat.leb n 32).

Fixpoint lstrip (s : string) : string :=
  match s with
  | EmptyString => EmptyString
  | String a s' => if is_space a then lstrip s' else s
  end.

Fixpoint rstrip_with (f : Ascii.ascii -> bool) (s : string) : string :=
  match s with
  | EmptyString => EmptyString
  | String a s =>
      match rstrip_with f s with
      | EmptyString => if f a then EmptyString else String a EmptyString
      | s' => String a s'
      end
  end.

Definition py_strip (s : string) : string := rstrip_with is_space (lstrip s).

Fixpoint has_char (c : Ascii.ascii) (s : string) : bool :=
  match s with
  | EmptyString => false
  | String a s => bool_decide (a = c) || has_char c s
  end.

(** [s.partition(c)] at the first [c]: [(head, found, tail)] *)
Fixpoint partition (c : Ascii.ascii) (s : string) : string * bool * string :=
  match s with
  | EmptyString => (EmptyString, false, EmptyString)
  | String a s' =>
      if bool_decide (a = c) then (EmptyString, true, s')
      else let '(h, b, t) := partition c s' in (String a h, b, t)
  end.

(** [s.rsplit(c, 1)] at the last [c]; [None] when [c] does not occur (the
    Python list then has one element). *)
Fixpoint rsplit1 (c : Ascii.ascii) (s : string) : option (string * string) :=
  match s with
  | EmptyString => None
  | String a s' =>
      match rsplit1 c s' with
      | Some (h, t) => Some (String a h, t)
      | None => if bool_decide (a = c) then Some (EmptyString, s') else None
      end
  end.

Lemma rsplit1_None c s : rsplit1 c s = None <-> has_char c s = false.
Proof.
  induction s as [|a s IH]; cbn; [done|]. destruct (rsplit1 c s) as [[h t]|].
  - split; [done|]. intros H. bool_to_prop. by apply IH in H0.
  - case_bool_decide; cbn; [done|]. exact IH.
Qed.

Lemma rsplit1_Some c s h t : rsplit1 c s = Some (h, t) ->
  s = h +:+ String c t /\ has_char c t = false.
Proof.
  revert h t. induction s as [|a s IH]; cbn; intros h t; [done|].
  destruct (rsplit1 c s) as [[h' t']|] eqn:Hr.
  - intros [= <- <-]. destruct (IH h' t' eq_refl) as [-> ?]. done.
  - case_bool_decide; [|done]. intros [= <- <-]. subst. split; [done|]. by apply rsplit1_None.
Qed.

Lemma ascii_lower_idemp a : ascii_lower (ascii_lower a) = ascii_lower a.
Proof. destruct a as [[] [] [] [] [] [] [] []]; vm_compute; reflexivity. Qed.

Lemma py_lower_idemp s : py_lower (py_lower s) = py_lower s.
Proof. induction s as [|a s IH]; cbn; [done|]. by rewrite ascii_lower_idemp, IH. Qed.

Lemma prefix_refl p : startswith p p = true.
Proof.
  unfold startswith. induction p as [|a p IH]; [done|]. cbn. by destruct (Ascii.ascii_dec a a).
Qed.

Lemma string_length_app s t : String.length (s +:+ t) = (String.length s + String.length t)%nat.
Proof. induction s as [|a s IH]; [done|]. change (S (String.length (s +:+ t)) = S (String.length s + String.length t)). by rewrite IH. Qed.

Lemma append_nil_r s : s +:+ "" = s.
Proof. induction s as [|a s IH]; [done|]. change (String a (s +:+ "") = String a s). by rewrite IH. Qed.

Lemma append_assoc a b c : (a +:+ b) +:+ c = a +:+ (b +:+ c).
Proof. induction a as [|x a IH]; [done|]. change (String x ((a +:+ b) +:+ c) = String x (a +:+ (b +:+ c))). by rewrite IH. Qed.

Lemma prefix_app p s : String.prefix p (p +:+ s) = true.
Proof.
  induction p as [|a p IH]; [by destruct s|].
  change (String a p +:+ s) with (String a (p +:+ s)).
  cbn [String.prefix]. destruct (Ascii.ascii_dec a a); [done|congruence].
Qed.

Lemma drop_chars_app p s : drop_chars (String.length p) (p +:+ s) = s.
Proof. induction p as [|a p IH]; cbn; [by destruct s|]. done. Qed.

Lemma removeprefix_app p s : removeprefix p (p +:+ s) = s.
Proof. unfold removeprefix, startswith. by rewrite prefix_app, drop_chars_app. Qed.

Lemma removeprefix_prefix p s : startswith s p = true -> p +:+ removeprefix p s = s.
Proof.
  unfold removeprefix. intros Hp. rewrite Hp. revert s Hp. unfold startswith.
  induction p as [|a p IH]; intros [|b s]; cbn; try done. destruct (Ascii.ascii_dec a b) as [->|]; [|done].
  intros Hp. rewrite <- (IH s Hp) at 2. done.
Qed.

(** ** Text as integers, parts and lines *)

(** Underscores between digits go. *)
Fixpoint drop_underscores (digit_before : bool) (s : string) : option string :=
  match s with
  | EmptyString => Some ""
  | String c s =>
      if bool_decide (c = "_"%char) then
        match s with
        | String d _ => if digit_before && negb (bool_decide (d = "_"%char)) then drop_underscores false s else None
        | EmptyString => None
        end
      else String c <$> drop_underscores true s
  end.

Definition digits (s : string) : option Z :=
  t ← drop_underscores false s;
  d ← NilZero.uint_of_string t;
  Some (Z.of_N (N.of_uint d)).

(** [int(s)] for a text of ASCII characters *)
Definition py_int (s : string) : option Z :=
  match py_strip s with
  | String "-"%char s => Z.opp <$> digits s
  | String "+"%char s => digits s
  | s => digits s
  end.

(** [str(n)] of a natural number *)
Definition py_str (n : N) : string := NilZero.string_of_uint (N.to_uint n).

(** [s.split(c)] after the part [cur] *)
Fixpoint py_split (c : Ascii.ascii) (s cur : string) : list string :=
  match s with
  | EmptyString => [cur]
  | String a s => if bool_decide (a = c) then cur :: py_split c s "" else py_split c s (cur +:+ String a "")
  end.

(** [splitlines()]; a line break of two characters, and the end of the text,
    leave an empty line, which callers drop. *)
Definition is_break (c : Ascii.ascii) : bool := let n := Ascii.nat_of_ascii c in Nat.leb 10 n && Nat.leb n 13 || Nat.leb 28 n && Nat.leb n 30.
Fixpoint splitlines (s cur : string) : list string :=
  match s with
  | EmptyString => [cur]
  | String c s => if is_break c then cur :: splitlines s "" else splitlines s (cur +:+ String c "")
  end.
(** ** List sorting: [list.sort(key=f)] and [sorted(l, key=f)]

    Python's sort is stable; insertion from the right keeps equal keys in
    their original order. *)

Section sort_by.
Context {A : Type} (le : A -> A -> bool).

Fixpoint insert_by (x : A) (l : list A) : list A :=
    match l with
    | [] => [x]
    | y :: l => if le x y then x :: y :: l else y :: insert_by x l
    end.

Definition sort_by (l : list A) : list A := foldr insert_by [] l.

Lemma insert_by_perm x l : insert_by x l ≡ₚ x :: l.
Proof.
    induction l as [|y l IH]; cbn; [done|]. case_match; [done|].
    rewrite IH. by apply Permutation_swap.
Qed.

Lemma sort_by_perm l : sort_by l ≡ₚ l.
Proof. induction l as [|x l IH]; cbn; [done|]. by rewrite insert_by_perm, IH. Qed.

Hypothesis le_total : forall x y, le x y = false -> le y x = true.
Hypothesis le_trans : forall x y z, le x y = true -> le y z = true -> le x z = true.

Lemma insert_by_sorted x l :
    StronglySorted (fun a b => le a b = true) l ->
    StronglySorted (fun a b => le a b = true) (insert_by x l).
Proof.
    induction l as [|y l IH]; cbn; intros Hs; [by repeat constructor|].
    inversion Hs as [|? ? Hl Hy]; subst. destruct (le x y) eqn:Hxy.
    - constructor; [done|]. constructor; [done|].
      eapply Forall_impl; [exact Hy|]. intros z Hz. by eapply le_trans.
    - constructor; [by apply IH|].
      apply (Forall_impl (fun a => le y a = true) _ (insert_by x l)); [|done].
      rewrite insert_by_perm. constructor; [by apply le_total|done].
Qed.

Lemma sort_by_sorted l : StronglySorted (fun a b => le a b = true) (sort_by l).
Proof. induction l as [|x l IH]; cbn; [constructor|]. by apply insert_by_sorted. Qed.
End sort_by.

(** [min(l, key=f)]-style arguments: the head of a sorted list is minimal. *)
Lemma sorted_head_min {A} (le : A -> A -> bool) x l y :
  StronglySorted (fun a b => le a b = true) (x :: l) -> y ∈ x :: l -> y = x \/ le x y = true.
Proof.
  intros Hs Hy. inversion Hs as [|? ? _ Hf]; subst. apply elem_of_cons in Hy as [->|Hy]; [by left|].
  right. rewrite Forall_forall in Hf. by apply Hf.
Qed.

#[export] Instance list_filter_perm {A} (f : A -> bool) : Proper (Permutation ==> Permutation) (List.filter f).
Proof.
  induction 1 as [|x l l' _ IH|x y l|l1 l2 l3 _ IH1 _ IH2]; cbn; [done| | |by etrans].
  - destruct (f x); by rewrite IH.
  - destruct (f x), (f y); try done. apply Permutation_swap.
Qed.

(** The order of [str]. *)
Lemma string_leb_trans (a b c : string) : String.leb a b = true -> String.leb b c = true -> String.leb a c = true.
Proof.
  unfold String.leb. revert b c. induction a as [|x a IH]; intros [|y b] [|z c]; cbn; try done.
  unfold Ascii.compare. repeat (match goal with |- context [N.compare ?u ?v] => destruct (N.compare_spec u v) end);
    try done; try lia; try congruence. apply IH.
Qed.

Lemma string_leb_total (a b : string) : String.leb a b = false -> String.leb b a = true.
Proof. intros H. destruct (String.leb_total a b); congruence. Qed.

(** A sorted list is determined by its elements when the order separates them. *)
Lemma sorted_perm_unique {A} (R : A -> A -> Prop) l l' :
  StronglySorted R l -> StronglySorted R l' -> l ≡ₚ l' ->
  (forall x y, x ∈ l -> y ∈ l -> R x y -> R y x -> x = y) -> l = l'.
Proof.
  intros Hl. revert l'. induction Hl as [|x l Hl IH Hx]; intros l' Hl' Hp HR.
  - by apply Permutation_nil_l in Hp.
  - destruct Hl' as [|y l' Hl' Hy]; [by apply Permutation_nil_r in Hp|].
    assert (x = y) as <-.
    { rewrite Forall_forall in Hx, Hy.
      assert (y ∈ x :: l) as Hyx by (rewrite Hp; left). assert (x ∈ y :: l') as Hxy by (rewrite <- Hp; left).
      apply elem_of_cons in Hyx as [Hyx|Hyx]; [done|]. apply elem_of_cons in Hxy as [Hxy|Hxy]; [done|].
      apply HR; [left|by right|by apply Hx|by apply Hy]. }
    f_equal. apply IH; [done|by apply Permutation_cons_inv in Hp|]. intros u v Hu Hv. apply HR; by right.
Qed.

(** Sorting by a key that separates the elements forgets their order. *)
Lemma sort_by_key_perm {A} (key : A -> string) (l l' : list A) : l ≡ₚ l' -> NoDup (key <$> l) ->
  sort_by (fun a b => String.leb (key a) (key b)) l = sort_by (fun a b => String.leb (key a) (key b)) l'.
Proof.
  intros Hp Hnd. set (le := fun a b => String.leb (key a) (key b)).
  assert (forall m, StronglySorted (fun a b => le a b = true) (sort_by le m)) as Hs.
  { apply sort_by_sorted; unfold le; [intros x y; apply string_leb_total|intros x y z; apply string_leb_trans]. }
  eapply sorted_perm_unique; [apply Hs|apply Hs|by rewrite !sort_by_perm|].
  intros x y Hx Hy H1 H2. rewrite sort_by_perm in Hx, Hy. unfold le in *.
  pose proof (String.leb_antisym _ _ H1 H2) as Hk.
  apply list_elem_of_split in Hx as (l1 & l2 & ->). rewrite fmap_app, fmap_cons in Hnd.
  apply NoDup_app in Hnd as (_ & Hn1 & [Hn2 _]%NoDup_cons).
  apply elem_of_app in Hy as [Hy|[Hy|Hy]%elem_of_cons]; [|done|].
  - destruct (Hn1 (key y)); [by apply list_elem_of_fmap_2|]. rewrite <- Hk. left.
  - destruct Hn2. rewrite Hk. by apply list_elem_of_fmap_2.
Qed.

Lemma filter_filter_andb {A} (f g : A -> bool) l :
  List.filter f (List.filter g l) = List.filter (fun x => g x && f x) l.
Proof.
  induction l as [|x l IH]; cbn; [done|]. destruct (g x); cbn; [|done].
  destruct (f x); by rewrite IH.
Qed.

Lemma filter_true_id {A} (f : A -> bool) l :
  (forall x, x ∈ l -> f x = true) -> List.filter f l = l.
Proof.
  induction l as [|x l IH]; cbn; intros H; [done|].
  rewrite (H x) by set_solver. rewrite IH; [done|]. set_solver.
Qed.

Lemma elem_of_filter_bool {A} (f : A -> bool) l x :
  x ∈ List.filter f l <-> x ∈ l /\ f x = true.
Proof. by rewrite !list_elem_of_In, filter_In. Qed.

Lemma existsb_elem {A} (f : A -> bool) l :
  existsb f l = true <-> exists x, x ∈ l /\ f x = true.
Proof. rewrite existsb_exists. by setoid_rewrite list_elem_of_In. Qed.

Lemma filter_sublist_bool {A} (f : A -> bool) l : List.filter f l `sublist_of` l.
Proof. induction l as [|x l IH]; cbn; [constructor|]. case_match; by constructor. Qed.
