(* ===== verification/PyDict.v ===== *)
(** * Python dictionaries

    A [dict] keeps its keys in insertion order: assigning to a present key
    changes the value in place, assigning to an absent key appends.  The
    gateway exposes that order (the node list of the registry, the model list
    of [/v1/models], the health-check cycle), so dictionaries whose order is
    observable are association lists here; the others are [gmap]s. *)

From S2P Require Import Prelude.

Section dict.
Context {K V : Type} `{!EqDecision K}.
Implicit Types (k : K) (v : V) (d : list (K * V)).

  (** [d.get(k)] *)
Fixpoint dget k d : option V :=
    match d with
    | [] => None
    | (k', v) :: d => if decide (k = k') then Some v else dget k d
    end.

  (** [d[k] = v] *)
Fixpoint dset k v d : list (K * V) :=
    match d with
    | [] => [(k, v)]
    | (k', v') :: d =>
        if decide (k = k') then (k, v) :: d else (k', v') :: dset k v d
    end.

  (** [d.pop(k, None)] without its result *)
Fixpoint dpop k d : list (K * V) :=
    match d with
    | [] => []
    | (k', v) :: d => if decide (k = k') then dpop k d else (k', v) :: dpop k d
    end.

  (** [k in d] *)
Definition dmem k d : bool := is_some (dget k d).

Definition dkeys d : list K := d.*1.
Definition dvalues d : list V := d.*2.

  (** A dictionary never holds a key twice. *)
Definition dwf d : Prop := NoDup (dkeys d).

Lemma dget_dset k k' v d :
    dget k (dset k' v d) = if decide (k = k') then Some v else dget k d.
Proof.
    induction d as [|[k0 v0] d IH]; cbn; [done|].
    destruct (decide (k' = k0)) as [->|Hne]; cbn.
    - by case_decide.
    - rewrite IH. repeat case_decide; congruence.
Qed.

Lemma dget_dset_eq k v d : dget k (dset k v d) = Some v.
Proof. rewrite dget_dset. by case_decide. Qed.

Lemma dget_dset_ne k k' v d : k <> k' -> dget k (dset k' v d) = dget k d.
Proof. intros. rewrite dget_dset. by case_decide. Qed.

Lemma dget_dpop k k' d :
    dget k (dpop k' d) = if decide (k = k') then None else dget k d.
Proof.
    induction d as [|[k0 v0] d IH]; cbn; [by case_decide|].
    destruct (decide (k' = k0)) as [->|Hne]; cbn; rewrite IH;
      repeat case_decide; congruence.
Qed.

Lemma dget_dpop_eq k d : dget k (dpop k d) = None.
Proof. rewrite dget_dpop. by case_decide. Qed.

Lemma dget_dpop_ne k k' d : k <> k' -> dget k (dpop k' d) = dget k d.
Proof. intros. rewrite dget_dpop. by case_decide. Qed.

Lemma dget_Some_in k v d : dget k d = Some v -> (k, v) ∈ d.
Proof.
    induction d as [|[k0 v0] d IH]; cbn; [done|].
    case_decide; intros; simplify_eq; set_solver.
Qed.

Lemma dget_None_keys k d : dget k d = None <-> k ∉ dkeys d.
Proof.
    induction d as [|[k0 v0] d IH]; cbn; [set_solver|].
    case_decide; [set_solver|]. rewrite IH. set_solver.
Qed.

Lemma dwf_in_dget k v d : dwf d -> (k, v) ∈ d -> dget k d = Some v.
Proof.
    unfold dwf. induction d as [|[k0 v0] d IH]; cbn; [set_solver|].
    intros [Hk Hd]%NoDup_cons [Heq|Hin]%elem_of_cons.
    - simplify_eq. by case_decide.
    - case_decide as Hkk; [|by apply IH].
      subst. exfalso. apply Hk. apply list_elem_of_fmap. by exists (k0, v).
Qed.

Lemma dwf_values v d : dwf d -> v ∈ dvalues d <-> exists k, dget k d = Some v.
Proof.
    intros Hwf. unfold dvalues. rewrite list_elem_of_fmap. split.
    - intros ([k v'] & -> & Hin). exists k. by apply dwf_in_dget.
    - intros [k Hk]. exists (k, v). split; [done|]. by apply dget_Some_in.
Qed.

Lemma dkeys_dset k v d :
    dkeys (dset k v d) = if decide (k ∈ dkeys d) then dkeys d else dkeys d ++ [k].
Proof.
    induction d as [|[k0 v0] d IH]; cbn; [case_decide; set_solver|].
    destruct (decide (k = k0)) as [->|Hne]; cbn.
    - rewrite decide_True by set_solver. done.
    - fold (dkeys d) (dkeys (dset k v d)). rewrite IH. repeat case_decide; set_solver.
Qed.

Lemma dwf_nil : dwf [].
Proof. apply NoDup_nil_2. Qed.

Lemma dwf_dset k v d : dwf d -> dwf (dset k v d).
Proof.
    unfold dwf. rewrite dkeys_dset. case_decide; [done|].
    intros. apply NoDup_app. split; [done|]. split; [set_solver|]. apply NoDup_singleton.
Qed.

Lemma elem_of_dkeys_dpop k k' d : k ∈ dkeys (dpop k' d) <-> k ∈ dkeys d /\ k <> k'.
Proof.
    induction d as [|[k0 v0] d IH]; cbn; [set_solver|].
    case_decide; cbn; fold (dkeys d) (dkeys (dpop k' d)); rewrite ?elem_of_cons, IH;
      naive_solver.
Qed.

Lemma dwf_dpop k d : dwf d -> dwf (dpop k d).
Proof.
    unfold dwf. induction d as [|[k0 v0] d IH]; cbn; [done|].
    intros [Hk Hd]%NoDup_cons. case_decide; [by apply IH|]. cbn. apply NoDup_cons.
    split; [|by apply IH]. fold (dkeys (dpop k d)). rewrite elem_of_dkeys_dpop. naive_solver.
Qed.

Lemma dset_dset k v v' d : dset k v (dset k v' d) = dset k v d.
Proof.
    induction d as [|[k0 v0] d IH]; cbn; [by case_decide|].
    destruct (decide (k = k0)) as [->|]; cbn; [by case_decide|].
    rewrite decide_False by done. by rewrite IH.
Qed.

Lemma dset_id k v d : dget k d = Some v -> dset k v d = d.
Proof.
    induction d as [|[k0 v0] d IH]; cbn; [done|].
    case_decide; intros; simplify_eq; [done|]. by rewrite IH.
Qed.

Lemma elem_of_dkeys k d : k ∈ dkeys d <-> is_Some (dget k d).
Proof.
    rewrite <- not_eq_None_Some, dget_None_keys.
    split; [tauto|]. intros H. by destruct (decide (k ∈ dkeys d)).
Qed.
End dict.

#[export] Hint Resolve dwf_nil dwf_dset dwf_dpop : qiip.
#[export] Hint Rewrite @dget_dset_eq @dget_dpop_eq @dset_dset : qiip.
