(* ===== verification/Json.v ===== *)
(** * JSON documents

    What [json.loads] returns and what the gateway stores in etcd.  A stored
    value is either the text of a document ([json.dumps] of it) or bytes that
    are not JSON, for which [json.loads] raises.  Numbers are integers: fractions, which
    some documents carry (durations, percentages), [NaN] and the infinities are
    not represented. *)

From S2P Require Import Prelude PyDict.

Inductive json :=
| JNull
| JBool (b : bool)
| JNum (z : Z)
| JStr (s : string)
| JList (l : list json)
| JObj (d : list (string * json)).

Inductive blob :=
| JsonText (j : json)
| OtherBytes (b : string).

(** [json.loads(value)]; [None] is the exception. *)
Definition loads (b : blob) : option json :=
  match b with JsonText j => Some j | OtherBytes _ => None end.

(** [json.dumps(j)] *)
Definition dumps (j : json) : blob := JsonText j.

Fixpoint json_eqb (a b : json) : bool :=
  match a, b with
  | JNull, JNull => true
  | JBool a, JBool b => Bool.eqb a b
  | JNum a, JNum b => Z.eqb a b
  | JStr a, JStr b => bool_decide (a = b)
  | JList a, JList b =>
      (fix go (a b : list json) : bool :=
         match a, b with
         | [], [] => true
         | x :: a, y :: b => json_eqb x y && go a b
         | _, _ => false
         end) a b
  | JObj a, JObj b =>
      (fix go (a b : list (string * json)) : bool :=
         match a, b with
         | [], [] => true
         | (k, x) :: a, (k', y) :: b => bool_decide (k = k') && json_eqb x y && go a b
         | _, _ => false
         end) a b
  | _, _ => false
  end.

(** Induction that reaches the members of arrays and objects. *)
Section json_ind_strong.
Context (P : json -> Prop).
Context (HNull : P JNull) (HBool : forall b, P (JBool b)) (HNum : forall z, P (JNum z))
  (HStr : forall s, P (JStr s)) (HList : forall l, Forall P l -> P (JList l))
  (HObj : forall d, Forall (fun kv => P (snd kv)) d -> P (JObj d)).

Fixpoint json_strong (j : json) : P j :=
  match j with
  | JNull => HNull
  | JBool b => HBool b
  | JNum z => HNum z
  | JStr s => HStr s
  | JList l =>
      HList l ((fix go l : Forall P l :=
                  match l with
                  | [] => List.Forall_nil _
                  | x :: l => List.Forall_cons _ x l (json_strong x) (go l)
                  end) l)
  | JObj d =>
      HObj d ((fix go d : Forall (fun kv => P (snd kv)) d :=
                 match d with
                 | [] => List.Forall_nil _
                 | kv :: d => List.Forall_cons _ kv d (json_strong (snd kv)) (go d)
                 end) d)
  end.
End json_ind_strong.

Lemma json_eqb_eq a b : json_eqb a b = true <-> a = b.
Proof.
  revert b. induction a as [|x|z|s|l IH|d IH] using json_strong; intros b; destruct b; try done; cbn [json_eqb].
  - rewrite Bool.eqb_true_iff. naive_solver.
  - rewrite Z.eqb_eq. naive_solver.
  - rewrite bool_decide_eq_true. naive_solver.
  - revert l0. induction IH as [|x l Hx _ IHl]; intros [|y k]; try done.
    rewrite andb_true_iff, Hx, IHl. naive_solver.
  - revert d0. induction IH as [|[k x] d Hx _ IHd]; intros [|[k' y] e]; try done.
    cbn [snd] in Hx. rewrite !andb_true_iff, bool_decide_eq_true, Hx, IHd. naive_solver.
Qed.

#[export] Instance json_eq_dec : EqDecision json.
Proof.
  refine (fun a b => match json_eqb a b as x return json_eqb a b = x -> _ with
                     | true => fun H => left (proj1 (json_eqb_eq a b) H)
                     | false => fun H => right _
                     end eq_refl).
  intros Heq. apply json_eqb_eq in Heq. congruence.
Defined.

#[export] Instance blob_eq_dec : EqDecision blob.
Proof. solve_decision. Defined.

(** [isinstance(j, dict)] and [d.get(k)] *)
Definition as_dict (j : json) : option (list (string * json)) :=
  match j with JObj d => Some d | _ => None end.

Lemma loads_dumps j : loads (dumps j) = Some j.
Proof. done. Qed.

(** A JSON value in a condition. *)
Definition truthy (j : json) : bool :=
  match j with
  | JNull => false
  | JBool b => b
  | JNum z => negb (z =? 0)%Z
  | JStr s => str_truthy s
  | JList l => match l with [] => false | _ => true end
  | JObj d => match d with [] => false | _ => true end
  end.
