(* ===== verification/PyFloat.v ===== *)
(** * Python floats

    A finite [float] is the rational number it stands for, and an operation is
    the exact result rounded to the nearest number with a 53-bit significand,
    ties to even ([rnd]).  The exponent range is not limited: the values of this
    code are many orders of magnitude away from overflow and from subnormal
    numbers.  Results are reduced fractions, so equal floats are equal terms. *)

From Stdlib Require Export QArith Qround Qabs Qpower.
From Stdlib Require Import Lqa.
From S2P Require Import Prelude.
Local Open Scope Z_scope.

Definition float : Type := Q.

(** ** Rounding *)

(** To the nearest integer, ties to even: [round(x)]. *)
Definition rhe (x : Q) : Z :=
  let f := Qfloor x in
  match Qcompare (x - inject_Z f) (1 # 2) with
  | Lt => f
  | Gt => f + 1
  | Eq => if Z.even f then f else f + 1
  end.

Definition pow2 (e : Z) : Q := Qpower 2 e.

(** The exponent of the leading bit. *)
Definition expo (x : Q) : Z :=
  let e := Z.log2 (Z.abs (Qnum x)) - Z.log2 (QDen x) in
  if Qle_bool (pow2 e) (Qabs x) then e else e - 1.

Definition rnd (x : Q) : float :=
  if Qnum x =? 0 then 0%Q
  else let g := pow2 (expo x - 52) in Qred (inject_Z (rhe (x / g)) * g).

(** ** Operations *)

(** [float(z)]; integers meet floats through it. *)
Definition of_int (z : Z) : float := rnd (inject_Z z).
Definition fadd (x y : float) : float := rnd (x + y).
Definition fsub (x y : float) : float := rnd (x - y).
Definition fmul (x y : float) : float := rnd (x * y).
Definition fdiv (x y : float) : float := rnd (x / y).
(** [a / b] on integers is correctly rounded. *)
Definition int_div (a b : Z) : float := rnd (inject_Z a / inject_Z b).
(** The literal [k / 100] and [round(x, 2)]. *)
Definition cents (k : Z) : float := rnd (k # 100).
Definition round2 (x : float) : float := rnd (rhe (x * 100) # 100).
Definition fmin (x y : float) : float := if negb (Qle_bool x y) then y else x.
Definition fmax (x y : float) : float := if negb (Qle_bool y x) then y else x.
Definition feqb (x y : float) : bool := Qeq_bool x y.
Definition fleb (x y : float) : bool := Qle_bool x y.
Definition fltb (x y : float) : bool := negb (Qle_bool y x).

(** ** Rounding to integers *)

#[export] Instance rhe_Proper : Proper (Qeq ==> eq) rhe.
Proof. intros x y H. unfold rhe. rewrite (Qfloor_comp _ _ H). by setoid_rewrite H. Qed.

Lemma rhe_spec x : (inject_Z (rhe x) - (1 # 2) <= x <= inject_Z (rhe x) + (1 # 2))%Q.
Proof.
  unfold rhe. pose proof (Qfloor_le x). pose proof (Qlt_floor x) as H1. rewrite inject_Z_plus in H1.
  change (inject_Z 1) with 1%Q in H1.
  destruct (Qcompare_spec (x - inject_Z (Qfloor x)) (1 # 2)) as [E|E|E]; [destruct (Z.even _)|..];
    rewrite ?inject_Z_plus; change (inject_Z 1) with 1%Q; split; lra.
Qed.

Lemma rhe_mono x y : (x <= y)%Q -> rhe x <= rhe y.
Proof.
  intros H. destruct (Z_lt_le_dec (rhe y) (rhe x)) as [Hlt|]; [exfalso|done].
  pose proof (rhe_spec x) as [Hx _]. pose proof (rhe_spec y) as [_ Hy].
  assert (inject_Z (rhe y) + 1 <= inject_Z (rhe x))%Q as Hle.
  { change 1%Q with (inject_Z 1). rewrite <- inject_Z_plus, <- Zle_Qle. lia. }
  assert (x == y)%Q as E by (apply Qle_antisym; lra). rewrite (rhe_Proper _ _ E) in Hlt. lia.
Qed.

Lemma rhe_int z : rhe (inject_Z z) = z.
Proof.
  unfold rhe. rewrite Qfloor_Z. destruct (Qcompare_spec (inject_Z z - inject_Z z) (1 # 2)) as [E|E|E]; [|done|].
  - exfalso. ring_simplify in E. done.
  - exfalso. ring_simplify in E. done.
Qed.

(** ** Powers of two *)

Lemma pow2_pos e : (0 < pow2 e)%Q.
Proof. apply Qpower_0_lt. done. Qed.

Lemma pow2_plus a b : (pow2 (a + b) == pow2 a * pow2 b)%Q.
Proof. apply Qpower_plus. done. Qed.

Lemma pow2_Z e : 0 <= e -> (pow2 e == inject_Z (2 ^ e))%Q.
Proof. intros H. unfold pow2. by rewrite Zpower_Qpower. Qed.

Lemma pow2_mono a b : a <= b -> (pow2 a <= pow2 b)%Q.
Proof. intros. apply Qpower_le_compat_l; [done|]. done. Qed.

Lemma pow2_neg e : (pow2 (- e) * pow2 e == 1)%Q.
Proof. rewrite <- pow2_plus. by rewrite Z.add_opp_diag_l. Qed.

(** ** Rounding to floats *)

Lemma log2_bounds z : 0 < z -> (pow2 (Z.log2 z) <= inject_Z z < pow2 (Z.log2 z + 1))%Q.
Proof.
  intros Hz. pose proof (Z.log2_spec z Hz) as [H1 H2]. pose proof (Z.log2_nonneg z).
  rewrite !pow2_Z by lia. rewrite <- Zle_Qle, <- Zlt_Qlt. replace (Z.log2 z + 1) with (Z.succ (Z.log2 z)) by lia. lia.
Qed.

Lemma Qnum_pos x : (0 < x)%Q -> 0 < Qnum x.
Proof. unfold Qlt. cbn. lia. Qed.

Lemma expo_spec x : (0 < x)%Q -> (pow2 (expo x) <= x < pow2 (expo x + 1))%Q.
Proof.
  intros Hx. pose proof (Qnum_pos x Hx) as Hn. unfold expo. rewrite (Z.abs_eq (Qnum x)) by lia.
  set (e := Z.log2 (Qnum x) - Z.log2 (QDen x)).
  assert (x * inject_Z (QDen x) == inject_Z (Qnum x))%Q as Hxd.
  { destruct x as [n d]. unfold Qeq. cbn. lia. }
  destruct (log2_bounds (Qnum x) Hn) as [Hn1 Hn2]. destruct (log2_bounds (QDen x) ltac:(lia)) as [Hd1 Hd2].
  pose proof (pow2_pos (Z.log2 (QDen x))) as Hp.
  assert (x < pow2 (e + 1))%Q as Hup.
  { apply (Qmult_lt_r _ _ (inject_Z (QDen x))); [lra|]. rewrite Hxd. eapply Qlt_le_trans; [exact Hn2|].
    replace (Z.log2 (Qnum x) + 1) with ((e + 1) + Z.log2 (QDen x)) by lia. rewrite pow2_plus.
    apply Qmult_le_l; [apply pow2_pos|done]. }
  assert (pow2 (e - 1) <= x)%Q as Hlow.
  { apply (Qmult_le_r _ _ (inject_Z (QDen x))); [lra|]. rewrite Hxd. eapply Qle_trans; [|exact Hn1].
    replace (Z.log2 (Qnum x)) with ((e - 1) + (Z.log2 (QDen x) + 1)) by lia. rewrite pow2_plus.
    apply Qmult_le_l; [apply pow2_pos|lra]. }
  rewrite (Qabs_pos x) by lra. destruct (Qle_bool (pow2 e) x) eqn:E.
  - apply Qle_bool_iff in E. done.
  - replace (e - 1 + 1) with e by lia. split; [done|]. apply Qnot_le_lt. rewrite <- Qle_bool_iff. congruence.
Qed.

Lemma expo_mono x y : (0 < x)%Q -> (x <= y)%Q -> expo x <= expo y.
Proof.
  intros Hx Hy. destruct (Z_lt_le_dec (expo y) (expo x)) as [H|]; [exfalso|done].
  destruct (expo_spec x Hx) as [H1 _]. destruct (expo_spec y ltac:(lra)) as [_ H2].
  pose proof (pow2_mono (expo y + 1) (expo x) ltac:(lia)). lra.
Qed.

#[export] Instance rnd_Proper : Proper (Qeq ==> eq) rnd.
Proof.
  intros x y H. unfold rnd. assert ((Qnum x =? 0) = (Qnum y =? 0)) as ->.
  { apply eq_true_iff_eq. rewrite !Z.eqb_eq. unfold Qeq in H. destruct x, y; cbn in *. nia. }
  case_match; [done|]. assert (expo x = expo y) as ->; [|by setoid_rewrite H].
  destruct (Qlt_le_dec 0 x) as [Hx|Hx].
  - apply Z.le_antisymm; apply expo_mono; lra.
  - assert (forall z, expo (Qabs z) = expo z) as Habs.
    { intros [n d]. unfold expo. cbn. by rewrite Z.abs_idemp. }
    assert (0 < Qabs x)%Q as Hx'.
    { apply Qnot_le_lt. intros Hle. rewrite Qabs_neg in Hle by done. assert (x == 0)%Q as E by lra.
      rewrite H in E. unfold Qeq in E. destruct y; cbn in *. bool_to_prop. lia. }
    rewrite <- (Habs x), <- (Habs y). apply Z.le_antisymm; apply expo_mono; rewrite <- ?H; lra.
Qed.

Lemma rnd_unfold x : (0 < x)%Q ->
  (rnd x == inject_Z (rhe (x / pow2 (expo x - 52))) * pow2 (expo x - 52))%Q.
Proof.
  intros Hx. pose proof (Qnum_pos x Hx). unfold rnd. rewrite (proj2 (Z.eqb_neq _ _)) by lia. apply Qred_correct.
Qed.

Lemma rnd_0 : rnd 0%Q = 0%Q.
Proof. done. Qed.

(** The significand before rounding. *)
Lemma significand x : (0 < x)%Q ->
  (inject_Z (2 ^ 52) <= x / pow2 (expo x - 52) < inject_Z (2 ^ 53))%Q /\ (x / pow2 (expo x - 52) * pow2 (expo x - 52) == x)%Q.
Proof.
  intros Hx. destruct (expo_spec x Hx) as [H1 H2]. pose proof (pow2_pos (expo x - 52)) as Hp. split.
  - split; [apply Qle_shift_div_l|apply Qlt_shift_div_r]; try done; rewrite <- pow2_Z, <- pow2_plus by lia.
    + by replace (52 + (expo x - 52)) with (expo x) by lia.
    + by replace (53 + (expo x - 52)) with (expo x + 1) by lia.
  - field. lra.
Qed.

Lemma rnd_bounds x : (0 < x)%Q -> (pow2 (expo x) <= rnd x <= pow2 (expo x + 1))%Q.
Proof.
  intros Hx. rewrite rnd_unfold by done. destruct (significand x Hx) as [[H1 H2] _]. pose proof (pow2_pos (expo x - 52)).
  set (m := (x / pow2 (expo x - 52))%Q) in *.
  assert (2 ^ 52 <= rhe m <= 2 ^ 53) as [Hm1 Hm2].
  { rewrite <- (rhe_int (2 ^ 52)), <- (rhe_int (2 ^ 53)) at 1. split; apply rhe_mono; lra. }
  replace (expo x) with (52 + (expo x - 52)) at 1 by lia. replace (expo x + 1) with (53 + (expo x - 52)) by lia.
  rewrite !pow2_plus, !(pow2_Z 52), !(pow2_Z 53) by lia.
  split; (apply Qmult_le_r; [done|]); by rewrite <- Zle_Qle.
Qed.

Lemma rnd_nonneg x : (0 <= x)%Q -> (0 <= rnd x)%Q.
Proof.
  intros Hx. destruct (Qlt_le_dec 0 x) as [H|H].
  - pose proof (rnd_bounds x H) as [Hb _]. pose proof (pow2_pos (expo x)). lra.
  - rewrite (rnd_Proper x 0%Q) by lra. done.
Qed.

Lemma rnd_mono x y : (0 <= x)%Q -> (x <= y)%Q -> (rnd x <= rnd y)%Q.
Proof.
  intros Hx Hxy. destruct (Qlt_le_dec 0 x) as [H|H]; cycle 1.
  { rewrite (rnd_Proper x 0%Q) by lra. apply rnd_nonneg. lra. }
  assert (0 < y)%Q as Hy by lra. pose proof (expo_mono x y H Hxy) as He.
  destruct (Z.eq_dec (expo x) (expo y)) as [E|E].
  - rewrite !rnd_unfold, E by done. pose proof (pow2_pos (expo y - 52)) as Hp. apply Qmult_le_r; [done|].
    rewrite <- Zle_Qle. apply rhe_mono. apply Qmult_le_r; [by apply Qinv_lt_0_compat|done].
  - pose proof (rnd_bounds x H) as [_ H1]. pose proof (rnd_bounds y Hy) as [H2 _].
    pose proof (pow2_mono (expo x + 1) (expo y) ltac:(lia)). lra.
Qed.

(** Integers of at most 53 bits are floats. *)
Lemma rnd_int z : 0 <= z <= 2 ^ 53 -> (rnd (inject_Z z) == inject_Z z)%Q.
Proof.
  intros [Hz1 Hz2]. destruct (Z.eq_dec z 0) as [->|Hne]; [done|].
  assert (0 < inject_Z z)%Q as Hp by (change 0%Q with (inject_Z 0); rewrite <- Zlt_Qlt; lia).
  rewrite rnd_unfold by done. set (e := expo (inject_Z z)). destruct (expo_spec (inject_Z z) Hp) as [H1 H2]. fold e in H1, H2.
  assert (e <= 53) as He.
  { destruct (Z_lt_le_dec 53 e) as [Hlt|]; [exfalso|done]. pose proof (pow2_mono 54 e ltac:(lia)) as Hm.
    rewrite pow2_Z in Hm by lia. assert (inject_Z (2 ^ 54) <= inject_Z z)%Q as Hle by lra. rewrite <- Zle_Qle in Hle. lia. }
  assert (exists m, inject_Z z / pow2 (e - 52) == inject_Z m)%Q as [m Hm].
  { pose proof (pow2_pos (e - 52)). destruct (Z_le_gt_dec e 52) as [Hle|Hgt].
    - exists (z * 2 ^ (52 - e)). rewrite inject_Z_mult, <- pow2_Z by lia. replace (52 - e) with (- (e - 52)) by lia.
      pose proof (pow2_neg (e - 52)). apply (Qmult_inj_r _ _ (pow2 (e - 52))); [lra|]. rewrite <- Qmult_assoc, pow2_neg. field. lra.
    - assert (e = 53) as E by lia. assert (z = 2 ^ 53) as ->.
      { rewrite E, pow2_Z, <- Zle_Qle in H1 by lia. lia. }
      exists (2 ^ 52). rewrite E. unfold Qeq. vm_compute. done. }
  rewrite (rhe_Proper _ _ Hm), rhe_int, <- Hm. pose proof (pow2_pos (e - 52)). field. lra.
Qed.

(** The relative error is at most half a unit in the last place. *)
Lemma rnd_error x : (0 <= x)%Q -> (x * (1 - pow2 (-53)) <= rnd x <= x * (1 + pow2 (-53)))%Q.
Proof.
  intros Hx. destruct (Qlt_le_dec 0 x) as [H|H]; cycle 1.
  { assert (x == 0)%Q as E by lra. rewrite (rnd_Proper x 0%Q E), E. rewrite rnd_0. lra. }
  rewrite rnd_unfold by done. destruct (significand x H) as [_ Hs]. set (g := pow2 (expo x - 52)) in *.
  set (m := (x / g)%Q) in *. pose proof (rhe_spec m) as [H1 H2]. pose proof (pow2_pos (expo x - 52)) as Hg. fold g in Hg.
  assert ((1 # 2) * g <= x * pow2 (-53))%Q as Hulp.
  { destruct (expo_spec x H) as [He _]. unfold g. replace (expo x - 52) with ((expo x + -53) + 1) by lia. rewrite !pow2_plus.
    change (pow2 1) with 2%Q. pose proof (pow2_pos (-53)). nra. }
  split; nra.
Qed.

Lemma rnd_nonpos x : (x <= 0)%Q -> (rnd x <= 0)%Q.
Proof.
  intros Hx. unfold rnd. case_match; [done|]. rewrite Qred_correct. pose proof (pow2_pos (expo x - 52)) as Hg.
  assert (rhe (x / pow2 (expo x - 52)) <= 0) as Hr.
  { rewrite <- (rhe_int 0). apply rhe_mono. apply Qle_shift_div_r; [done|]. change (inject_Z 0) with 0%Q. lra. }
  rewrite Zle_Qle in Hr. change (inject_Z 0) with 0%Q in Hr. nra.
Qed.

Lemma of_int_exact z : 0 <= z <= 2 ^ 53 -> (of_int z == inject_Z z)%Q.
Proof. apply rnd_int. Qed.

Lemma of_int_nonneg z : 0 <= z -> (0 <= of_int z)%Q.
Proof. intros H. apply rnd_nonneg. change 0%Q with (inject_Z 0). by rewrite <- Zle_Qle. Qed.

Lemma Qceiling_Z z : Qceiling (inject_Z z) = z.
Proof. unfold Qceiling. rewrite <- inject_Z_opp, Qfloor_Z. lia. Qed.

(** Products of an integer and a float grow with the float. *)
Lemma fmul_mono_r z u v : 0 <= z -> (0 <= u)%Q -> (u <= v)%Q -> (fmul (of_int z) u <= fmul (of_int z) v)%Q.
Proof. intros Hz Hu Huv. pose proof (of_int_nonneg z Hz). apply rnd_mono; nra. Qed.

(** Dividing by a rate and multiplying back exceeds the whole by less than a
    unit: rounding may not lose more than that. *)
Lemma quota_bound b c (k : float) : 0 < b < 2 ^ 53 -> (0 < k)%Q -> 0 <= c <= 2 ^ 53 ->
  c <= Qfloor (fdiv (of_int b) k) -> Qceiling (fmul k (of_int c)) <= b + 1.
Proof.
  intros Hb Hk Hc Hq. rewrite <- (Qceiling_Z (b + 1)). apply Qceiling_resp_le.
  assert (0 < inject_Z b)%Q as Hbq by (change 0%Q with (inject_Z 0); rewrite <- Zlt_Qlt; lia).
  assert (0 <= inject_Z c)%Q as Hcq by (change 0%Q with (inject_Z 0); rewrite <- Zle_Qle; lia).
  assert (inject_Z c <= rnd (inject_Z b / k))%Q as H1.
  { rewrite Zle_Qle in Hq. unfold fdiv in Hq. rewrite (rnd_Proper (of_int b / k)%Q (inject_Z b / k)%Q) in Hq
      by (rewrite of_int_exact by lia; done).
    pose proof (Qfloor_le (rnd (inject_Z b / k)%Q)). lra. }
  assert (0 <= inject_Z b / k)%Q as Hdiv by (apply Qle_shift_div_l; [done|]; lra).
  pose proof (rnd_error (inject_Z b / k)%Q Hdiv) as [_ H2].
  assert (inject_Z c * k <= inject_Z b * (1 + pow2 (-53)))%Q as H3.
  { assert (inject_Z b == inject_Z b / k * k)%Q as E by (field; lra). rewrite E. pose proof (pow2_pos (-53)). nra. }
  assert (inject_Z b * pow2 (-53) <= 1)%Q as H4.
  { pose proof (pow2_neg 53) as E. rewrite (pow2_Z 53) in E by lia. change (Z.opp 53) with (-53) in E.
    assert (inject_Z b <= inject_Z (2 ^ 53))%Q as Hle by (rewrite <- Zle_Qle; lia). pose proof (pow2_pos (-53)).
    nra. }
  rewrite <- (rnd_int (b + 1)) by lia. unfold fmul.
  rewrite (rnd_Proper (k * of_int c)%Q (inject_Z c * k)%Q) by (rewrite of_int_exact by lia; ring).
  apply rnd_mono; [nra|]. rewrite inject_Z_plus. change (inject_Z 1) with 1%Q. lra.
Qed.

(** ** Hundredths *)

Lemma cents_mono j k : 0 <= j <= k -> (cents j <= cents k)%Q.
Proof. intros H. apply rnd_mono; unfold Qle; cbn; lia. Qed.

Lemma int_div_cents k : int_div k 100 = cents k.
Proof. apply rnd_Proper. unfold Qeq. cbn. lia. Qed.

Definition cents_table : bool :=
  forallb (fun j => forallb (fun k => feqb (round2 (fsub (cents (Z.of_nat (j + k))) (cents (Z.of_nat j)))) (cents (Z.of_nat k)))
                      (seq 0 101)) (seq 0 6).

Lemma Qred_rnd x : Qred (rnd x) = rnd x.
Proof. unfold rnd. case_match; [done|]. apply Qred_complete, Qred_correct. Qed.

(** Subtracting a few cents and rounding to cents is exact. *)
Lemma cents_sub j k : 0 <= j <= 5 -> j <= k <= 100 -> round2 (fsub (cents k) (cents j)) = cents (k - j).
Proof.
  intros Hj Hk. assert (cents_table = true) as H by (vm_compute; reflexivity). unfold cents_table in H.
  rewrite List.forallb_forall in H. specialize (H (Z.to_nat j)). rewrite List.in_seq in H. specialize (H ltac:(lia)).
  rewrite List.forallb_forall in H. specialize (H (Z.to_nat (k - j))). rewrite List.in_seq in H. specialize (H ltac:(lia)).
  replace (Z.of_nat (Z.to_nat j + Z.to_nat (k - j))) with k in H by lia.
  rewrite !Z2Nat.id in H by lia. apply Qeq_bool_iff, Qred_complete in H. unfold round2, cents in *. by rewrite !Qred_rnd in H.
Qed.

(** ** Comparisons as propositions *)

Lemma fleb_false x y : fleb x y = false -> (y < x)%Q.
Proof. unfold fleb. intros H. apply Qnot_le_lt. rewrite <- Qle_bool_iff. by rewrite H. Qed.

Lemma fltb_true x y : fltb x y = true -> (x < y)%Q.
Proof. unfold fltb. intros H%negb_true_iff. by apply fleb_false. Qed.

Lemma fltb_false x y : fltb x y = false -> (y <= x)%Q.
Proof. unfold fltb. intros H%negb_false_iff. by apply Qle_bool_iff. Qed.
