(* ===== verification/PyRegex.v ===== *)
(** * Regular expressions

    What the code uses of Python's [re]: patterns in their own syntax
    ([compile]), the backtracking matcher with greedy and lazy repetition and
    captures ([search], [match_], [fullmatch], [finditer], [sub]), and a
    declarative reading of patterns ([Match]) that the matcher decides
    ([search_spec], [fullmatch_spec]).

    Text is a sequence of ASCII characters: the classes [\w], [\d] and [\s] and
    case folding are those of ASCII. *)

From Stdlib Require Import Ascii.
From stdpp Require Import pretty.
From S2P Require Import Prelude.
Local Open Scope nat_scope.

(** ** Characters *)

Definition code (a : ascii) : nat := nat_of_ascii a.
Definition in_range (lo hi : ascii) (a : ascii) : bool := (code lo <=? code a) && (code a <=? code hi).
Definition is_digit : ascii -> bool := in_range "0" "9".
Definition is_wordc (a : ascii) : bool := in_range "a" "z" a || in_range "A" "Z" a || is_digit a || Ascii.eqb a "_".
Definition newline : ascii := ascii_of_nat 10.
Definition ascii_upper (a : ascii) : ascii := if in_range "a" "z" a then ascii_of_nat (code a - 32) else a.

(** [re.IGNORECASE] *)
Definition fold_case (icase : bool) (f : ascii -> bool) (a : ascii) : bool :=
  f a || (icase && (f (ascii_lower a) || f (ascii_upper a))).

(** ** Patterns and their meaning *)

(** Text with a position in it: what is before, last character first, and what
    is after. *)
Definition zip : Type := list ascii * list ascii.

Inductive re :=
| Eps
| Chr (f : ascii -> bool)
| Cat (a b : re)
| Or (a b : re)
| Rep (lo : nat) (hi : option nat) (greedy : bool) (a : re)
| Group (name : string) (a : re)
| At (p : zip -> bool).

Definition at_most (n : nat) (hi : option nat) : bool := match hi with Some h => n <=? h | None => true end.

Inductive Match : re -> zip -> zip -> Prop :=
| MEps s : Match Eps s s
| MChr f b a l : f a = true -> Match (Chr f) (b, a :: l) (a :: b, l)
| MCat r1 r2 s1 s2 s3 : Match r1 s1 s2 -> Match r2 s2 s3 -> Match (Cat r1 r2) s1 s3
| MOrL r1 r2 s s' : Match r1 s s' -> Match (Or r1 r2) s s'
| MOrR r1 r2 s s' : Match r2 s s' -> Match (Or r1 r2) s s'
| MRep lo hi g r n s s' : lo <= n -> at_most n hi = true -> Times r n s s' -> Match (Rep lo hi g r) s s'
| MGroup x r s s' : Match r s s' -> Match (Group x r) s s'
| MAt p s : p s = true -> Match (At p) s s
with Times : re -> nat -> zip -> zip -> Prop :=
| TZero r s : Times r 0 s s
| TMore r n s1 s2 s3 : Match r s1 s2 -> Times r n s2 s3 -> Times r (S n) s1 s3.

Scheme Match_mut := Induction for Match Sort Prop
with Times_mut := Induction for Times Sort Prop.

(** ** The matcher *)

Definition caps : Type := list (string * string).

(** The text between two positions. *)
Definition between (s s' : zip) : string :=
  String.string_of_list_ascii (rev (take (length (fst s') - length (fst s)) (fst s'))).

Section matcher.
Context {R : Type}.

(** Repetition of what [one] matches, [n] times so far; iterations beyond [lo]
    must consume something, which bounds them by the text that is left. *)
Fixpoint rep_loop (one : zip -> caps -> (zip -> caps -> option R) -> option R) (lo : nat) (hi : option nat) (greedy : bool)
  (k : zip -> caps -> option R) (fuel n : nat) (s : zip) (c : caps) {struct fuel} : option R :=
  let more :=
    match fuel with
    | O => None
    | S fuel =>
        if at_most (S n) hi then
          one s c (fun s' c' =>
            if (n <? lo) || (length (snd s') <? length (snd s)) then rep_loop one lo hi greedy k fuel (S n) s' c' else None)
        else None
    end in
  if n <? lo then more
  else if greedy then match more with Some x => Some x | None => k s c end
  else match k s c with Some x => Some x | None => more end.

(** Continuation-passing: [k] is what has to match after [r]. *)
Fixpoint run (r : re) (s : zip) (c : caps) (k : zip -> caps -> option R) {struct r} : option R :=
  match r with
  | Eps => k s c
  | Chr f => match snd s with a :: l => if f a then k (a :: fst s, l) c else None | [] => None end
  | Cat a b => run a s c (fun s c => run b s c k)
  | Or a b => match run a s c k with Some x => Some x | None => run b s c k end
  | Group x a => run a s c (fun s' c' => k s' ((x, between s s') :: c'))
  | At p => if p s then k s c else None
  | Rep lo hi greedy a => rep_loop (run a) lo hi greedy k (lo + length (snd s)) 0 s c
  end.
End matcher.

(** A match object: where it starts and ends, and its groups. *)
Record re_match := mkMatch { m_start : zip; m_end : zip; m_groups : caps }.

Definition m_text (m : re_match) : string := between (m_start m) (m_end m).
Definition group (x : string) (m : re_match) : option string :=
  snd <$> find (fun kv => bool_decide (fst kv = x)) (m_groups m).

Definition text_of (s : string) : zip := ([], String.list_ascii_of_string s).

Definition match_at (r : re) (s : zip) : option re_match := run r s [] (fun s' c => Some (mkMatch s s' c)).

(** The leftmost match at or after a position. *)
Fixpoint search_from (r : re) (b l : list ascii) : option re_match :=
  match match_at r (b, l) with
  | Some m => Some m
  | None => match l with a :: l => search_from r (a :: b) l | [] => None end
  end.

Definition search (r : re) (s : string) : option re_match := search_from r [] (String.list_ascii_of_string s).
Definition match_ (r : re) (s : string) : option re_match := match_at r (text_of s).
Definition fullmatch (r : re) (s : string) : option re_match :=
  run r (text_of s) [] (fun s' c => match snd s' with [] => Some (mkMatch (text_of s) s' c) | _ => None end).

(** [finditer]: each match starts where the last one ended; an empty match
    moves on by one character. *)
Fixpoint iter_from (fuel : nat) (r : re) (s : zip) : list re_match :=
  match fuel with
  | O => []
  | S fuel =>
      match search_from r (fst s) (snd s) with
      | None => []
      | Some m =>
          m :: (if length (snd (m_end m)) <? length (snd (m_start m)) then iter_from fuel r (m_end m)
                else match snd (m_end m) with a :: l => iter_from fuel r (a :: fst (m_end m), l) | [] => [] end)
      end
  end.

Definition finditer (r : re) (s : string) : list re_match := iter_from (S (String.length s)) r (text_of s).

(** [sub] with a function from the match to its replacement. *)
Definition sub (r : re) (f : re_match -> string) (s : string) : string :=
  let step m '(acc, pos) := (acc +:+ between pos (m_start m) +:+ f m, m_end m) in
  let '(acc, pos) := foldl (fun a m => step m a) ("", text_of s) (finditer r s) in
  acc +:+ String.string_of_list_ascii (snd pos).

(** ** Pattern syntax *)

Definition word_at (o : option ascii) : bool := match o with Some a => is_wordc a | None => false end.
Definition boundary (s : zip) : bool := xorb (word_at (head (fst s))) (word_at (head (snd s))).
Definition bol (multi : bool) (s : zip) : bool := match fst s with [] => true | a :: _ => multi && Ascii.eqb a newline end.
Definition eol (multi : bool) (s : zip) : bool :=
  match snd s with [] => true | [a] => Ascii.eqb a newline | a :: _ => multi && Ascii.eqb a newline end.

(** Classes named by a backslash and a letter. *)
Definition escape_class (a : ascii) : option (ascii -> bool) :=
  if Ascii.eqb a "d" then Some is_digit
  else if Ascii.eqb a "D" then Some (fun x => negb (is_digit x))
  else if Ascii.eqb a "w" then Some is_wordc
  else if Ascii.eqb a "W" then Some (fun x => negb (is_wordc x))
  else if Ascii.eqb a "s" then Some is_space
  else if Ascii.eqb a "S" then Some (fun x => negb (is_space x))
  else None.

Definition escape_char (a : ascii) : ascii :=
  if Ascii.eqb a "n" then newline
  else if Ascii.eqb a "r" then ascii_of_nat 13
  else if Ascii.eqb a "t" then ascii_of_nat 9
  else a.

(** The items of a bracket class up to its closing bracket. *)
Fixpoint class_items (fuel : nat) (l : list ascii) (f : ascii -> bool) : option ((ascii -> bool) * list ascii) :=
  match fuel with
  | O => None
  | S fuel =>
      match l with
      | [] => None
      | "]" :: l => Some (f, l)
      | "\" :: a :: l =>
          class_items fuel l (fun x => f x || match escape_class a with Some g => g x | None => Ascii.eqb x (escape_char a) end)
      | a :: "-" :: "]" :: l => Some (fun x => f x || Ascii.eqb x a || Ascii.eqb x "-", l)
      | a :: "-" :: b :: l => class_items fuel l (fun x => f x || in_range a b x)
      | a :: l => class_items fuel l (fun x => f x || Ascii.eqb x a)
      end
  end%char.

Fixpoint number (l : list ascii) (acc : nat) (seen : bool) : option nat * list ascii :=
  match l with
  | a :: l' => if is_digit a then number l' (10 * acc + (code a - 48)) true else (if seen then Some acc else None, l)
  | [] => (if seen then Some acc else None, l)
  end.

(** A quantifier, if the text starts with one. *)
Definition quantifier (l : list ascii) : option (nat * option nat * list ascii) :=
  match l with
  | "*" :: l => Some (0, None, l)
  | "+" :: l => Some (1, None, l)
  | "?" :: l => Some (0, Some 1, l)
  | "{" :: l =>
      match number l 0 false with
      | (Some n, "}" :: l) => Some (n, Some n, l)
      | (lo, "," :: l) => match number l 0 false with (hi, "}" :: l) => Some (default 0 lo, hi, l) | _ => None end
      | _ => None
      end
  | _ => None
  end%char.

(** An open group: the alternatives before the current one, the current
    sequence, last first, and what to make of them. *)
Record frame := mkFrame { alts : list re; cur : list re; wrap : option string }.

Fixpoint seq_of (l : list re) : re := match l with [] => Eps | [r] => r | r :: l => Cat (seq_of l) r end.
Definition close (f : frame) : re :=
  let body := foldl (fun b a => Or a b) (seq_of (cur f)) (alts f) in
  match wrap f with Some x => Group x body | None => body end.
Definition push (r : re) (f : frame) : frame := mkFrame (alts f) (r :: cur f) (wrap f).

Fixpoint until (c : ascii) (l : list ascii) : string * list ascii :=
  match l with
  | [] => ("", [])
  | a :: l => if Ascii.eqb a c then ("", l) else let '(s, r) := until c l in (String a s, r)
  end.

Section parser.
Context (icase multi : bool).

Definition chr (f : ascii -> bool) : re := Chr (fold_case icase f).

(** An atom that is not a group. *)
Definition atom (l : list ascii) : option (re * list ascii) :=
  match l with
  | [] => None
  | "\" :: "b" :: l => Some (At boundary, l)
  | "\" :: a :: l => Some (match escape_class a with Some f => Chr f | None => chr (Ascii.eqb (escape_char a)) end, l)
  | "[" :: "^" :: l =>
      match class_items (length l) l (fun _ => false) with
      | Some (f, l) => Some (Chr (fun a => negb (fold_case icase f a)), l) | None => None end
  | "[" :: l => match class_items (length l) l (fun _ => false) with Some (f, l) => Some (chr f, l) | None => None end
  | "." :: l => Some (Chr (fun a => negb (Ascii.eqb a newline)), l)
  | "^" :: l => Some (At (bol multi), l)
  | "$" :: l => Some (At (eol multi), l)
  | a :: l => Some (chr (Ascii.eqb a), l)
  end%char.

(** A quantifier after an atom or group. *)
Definition quantified (r : re) (l : list ascii) : re * list ascii :=
  match quantifier l with
  | Some (lo, hi, "?"%char :: l) => (Rep lo hi false r, l)
  | Some (lo, hi, l) => (Rep lo hi true r, l)
  | None => (r, l)
  end.

(** [n] counts the unnamed and named groups opened so far; [stack] holds the
    frames around [f]. *)
Fixpoint parse (fuel : nat) (n : nat) (f : frame) (stack : list frame) (l : list ascii) : option re :=
  match fuel with
  | O => None
  | S fuel =>
      match l with
      | [] => match stack with [] => Some (close f) | _ => None end
      | "(" :: "?" :: ":" :: l => parse fuel n (mkFrame [] [] None) (f :: stack) l
      | "(" :: "?" :: "P" :: "<" :: l => let '(x, l) := until ">" l in parse fuel (S n) (mkFrame [] [] (Some x)) (f :: stack) l
      | "(" :: l => parse fuel (S n) (mkFrame [] [] (Some (pretty (S n)))) (f :: stack) l
      | ")" :: l =>
          match stack with
          | [] => None
          | up :: stack => let '(r, l) := quantified (close f) l in parse fuel n (push r up) stack l
          end
      | "|" :: l => parse fuel n (mkFrame (seq_of (cur f) :: alts f) [] (wrap f)) stack l
      | _ =>
          match atom l with
          | None => None
          | Some (r, l) => let '(r, l) := quantified r l in parse fuel n (push r f) stack l
          end
      end
  end%char.
End parser.

(** [re.compile(pattern, flags)]; a malformed pattern, which raises at import,
    is one that never matches. *)
Definition compile (icase multi : bool) (pattern : string) : re :=
  let l := String.list_ascii_of_string pattern in
  default (Chr (fun _ => false)) (parse icase multi (S (length l)) 0 (mkFrame [] [] None) [] l).

Example compile_alternatives : (search (compile true false "curl: \((?:6|7|28)\)") "error: Curl: (28) x") <> None /\
  search (compile true false "curl: \((?:6|7|28)\)") "curl: (60) x" = None.
Proof. by vm_compute. Qed.

Example compile_groups : (m_groups <$> search (compile false false "a=(?P<x>[0-9]+),b=(\w*?)$") "--a=17,b=q_1") = Some [("2", "q_1"); ("x", "17")].
Proof. by vm_compute. Qed.

(** ** The matcher decides the declarative meaning *)

(** A match consumes a prefix of what is after. *)
Definition consumes (s s' : zip) : Prop := exists w, snd s = w ++ snd s' /\ fst s' = rev w ++ fst s.

Lemma consumes_trans s1 s2 s3 : consumes s1 s2 -> consumes s2 s3 -> consumes s1 s3.
Proof.
  intros (w & H1 & H2) (v & H3 & H4). exists (w ++ v). split; [by rewrite H1, H3, app_assoc|by rewrite H4, H2, rev_app_distr, app_assoc].
Qed.

Lemma Match_consumes r s s' : Match r s s' -> consumes s s'.
Proof.
  apply (Match_mut (fun r s s' _ => consumes s s') (fun r n s s' _ => consumes s s')); intros; eauto using consumes_trans; try by exists [].
  by exists [a].
Qed.

Lemma Match_length r s s' : Match r s s' -> length (snd s') < length (snd s) \/ s' = s.
Proof.
  intros (w & H1 & H2)%Match_consumes. destruct w as [|a w].
  - right. destruct s, s'. cbn in *. by subst.
  - left. rewrite H1. cbn. rewrite length_app. lia.
Qed.

Lemma at_most_mono n m hi : m <= n -> at_most n hi = true -> at_most m hi = true.
Proof. destruct hi as [h|]; cbn; [|done]. rewrite !Nat.leb_le. lia. Qed.

Lemma is_some_or {A} (x y : option A) : is_some (match x with Some a => Some a | None => y end) = is_some x || is_some y.
Proof. by destruct x. Qed.

Lemma bool_iff (a b : bool) (P : Prop) : (a = true <-> P) -> (b = true <-> P) -> a = b.
Proof. destruct a, b; naive_solver. Qed.

Section spec.
Context {R : Type}.

(** [one] finds exactly the continuations of [r] that the rest accepts. *)
Definition decides (r : re) (one : zip -> caps -> (zip -> caps -> option R) -> option R) : Prop :=
  forall s c k K, (forall s' c, Match r s s' -> is_some (k s' c) = K s') ->
    is_some (one s c k) = true <-> exists s', Match r s s' /\ K s' = true.

Section rep.
Context (r : re) (one : zip -> caps -> (zip -> caps -> option R) -> option R) (lo : nat) (hi : option nat) (g : bool).
Context (k : zip -> caps -> option R) (K : zip -> bool).
Hypothesis Hone : decides r one.

(** What the loop finds after [n] iterations, all and those after one more. *)
Definition rest_from (n : nat) (s : zip) : Prop :=
  exists m s', Times r m s s' /\ lo <= n + m /\ at_most (n + m) hi = true /\ K s' = true.
Definition allowed (n : nat) (s s' : zip) : bool := (n <? lo) || (length (snd s') <? length (snd s)).

(** Empty iterations beyond [lo] can be left out. *)
Lemma rest_from_cases n s : rest_from n s <->
  (lo <= n /\ at_most n hi = true /\ K s = true) \/
  (at_most (S n) hi = true /\ exists s2, Match r s s2 /\ allowed n s s2 = true /\ rest_from (S n) s2).
Proof.
  split.
  - intros (m & s' & Ht & Hlo & Hhi & HK). revert s Ht Hlo Hhi.
    induction m as [|m IH]; intros s1 Ht Hlo Hhi; inversion Ht as [|? ? ? s2 ? Hm Ht']; subst.
    + left. rewrite Nat.add_0_r in *. done.
    + assert (at_most (S n) hi = true) as Hat by (eapply at_most_mono; [|exact Hhi]; lia).
      destruct (allowed n s1 s2) eqn:Ha.
      { right. split; [done|]. exists s2. split_and!; [done..|]. exists m, s'. replace (S n + m) with (n + S m) by lia. done. }
      unfold allowed in Ha. apply orb_false_iff in Ha as [Hn Hl]. apply Nat.ltb_ge in Hn, Hl.
      destruct (Match_length _ _ _ Hm) as [| ->]; [lia|]. apply IH; [done|lia|]. eapply at_most_mono; [|exact Hhi]; lia.
  - intros [(Hlo & Hhi & HK)|(Hat & s2 & Hm & Ha & m & s' & Ht & Hlo & Hhi & HK)].
    + exists 0, s. rewrite Nat.add_0_r. split_and!; [constructor|done..].
    + exists (S m), s'. replace (n + S m) with (S n + m) by lia. split_and!; [by econstructor|done..].
Qed.

Lemma rep_loop_spec fuel n s c : (forall m s' c, Times r m s s' -> lo <= n + m -> at_most (n + m) hi = true -> is_some (k s' c) = K s') ->
  (lo - n) + length (snd s) <= fuel -> at_most n hi = true ->
  is_some (rep_loop one lo hi g k fuel n s c) = true <-> rest_from n s.
Proof.
  revert n s c. induction fuel as [|fuel IH]; intros n s c Hk Hfuel Hn; rewrite rest_from_cases.
  - assert (snd s = []) as Hs by (destruct (snd s); cbn in *; [done|lia]). cbn [rep_loop]. destruct (Nat.ltb_spec n lo); [lia|].
    replace (is_some (if g then k s c else match k s c with Some x => Some x | None => None end)) with (K s)
      by (rewrite <- (Hk 0 s c (TZero _ _)); rewrite ?Nat.add_0_r; [destruct g, (k s c); done|lia|done]).
    split; [auto|]. intros [(_ & _ & HKs)|(_ & s2 & _ & Ha & _)]; [done|]. unfold allowed in Ha. rewrite Hs in Ha. apply orb_true_iff in Ha. rewrite !Nat.ltb_lt in Ha. cbn in Ha. lia.
  - set (more := if at_most (S n) hi then one s c (fun s' c' => if allowed n s s' then rep_loop one lo hi g k fuel (S n) s' c' else None) else None).
    assert (is_some more = true <-> at_most (S n) hi = true /\ exists s2, Match r s s2 /\ allowed n s s2 = true /\ rest_from (S n) s2) as Hmore.
    { unfold more. destruct (at_most (S n) hi) eqn:Hat; [|by split; [|intros [? _]]].
      assert (forall s' c', Match r s s' -> allowed n s s' = true -> is_some (rep_loop one lo hi g k fuel (S n) s' c') = true <-> rest_from (S n) s') as Hrec.
      { intros s' c' Hm Ha. apply IH; [|pose proof (Match_length _ _ _ Hm) as Hl; unfold allowed in Ha; apply orb_true_iff in Ha; rewrite !Nat.ltb_lt in Ha; destruct Hl as [| ->]; lia|done].
        intros m s'' c'' Ht Hlo Hhi. apply (Hk (S m)); [by econstructor|lia|]. by replace (n + S m) with (S n + m) by lia. }
      rewrite (Hone _ _ _ (fun s' => allowed n s s' && is_some (rep_loop one lo hi g k fuel (S n) s' []))).
      2:{ intros s' c' Hm. destruct (allowed n s s') eqn:Ha; [|done]. cbn [andb]. eapply bool_iff; by apply Hrec. }
      split.
      - intros (s' & Hm & [Ha Hr]%andb_true_iff). split; [done|]. exists s'. split_and!; [done..|]. by apply (Hrec s' []).
      - intros [_ (s' & Hm & Ha & Hr)]. exists s'. split; [done|]. rewrite Ha. by apply Hrec. }
    cbn [rep_loop]. change (if at_most (S n) hi then one s c _ else None) with more. rewrite <- Hmore.
    destruct (Nat.ltb_spec n lo) as [Hlt|Hge].
    + split; [auto|]. intros [(? & _)|?]; [lia|done].
    + assert (is_some (k s c) = K s) as HK by (apply (Hk 0); [constructor|lia|by rewrite Nat.add_0_r]).
      destruct g; rewrite is_some_or, orb_true_iff, HK; naive_solver.
Qed.
End rep.

Lemma run_spec r : decides r (run r).
Proof.
  induction r as [|f|a IHa b IHb|a IHa b IHb|lo hi g a IHa|x a IHa|p]; intros s c k K Hk; cbn [run].
  - rewrite (Hk s c (MEps s)). split; [intros HK; exists s; split; [constructor|done]|]. intros (s' & Hm & HK). by inversion Hm; subst.
  - destruct s as [before [|a l]]; cbn; [split; [done|]; intros (s' & Hm & _); inversion Hm|].
    destruct (f a) eqn:Hf; [|split; [done|]; intros (s' & Hm & _); inversion Hm; congruence].
    rewrite (Hk (a :: before, l) c (MChr _ _ _ _ Hf)). split; [intros HK; eexists; split; [by constructor|done]|]. intros (s' & Hm & HK). by inversion Hm; subst.
  - assert (forall s2 c', Match a s s2 -> is_some (run b s2 c' k) = true <-> exists s', Match b s2 s' /\ K s' = true) as Hb.
    { intros s2 c' Hm. apply IHb. intros s' c'' Hm'. apply Hk. by econstructor. }
    rewrite (IHa _ _ _ (fun s2 => is_some (run b s2 [] k))).
    + split.
      * intros (s2 & Hm & Hr). apply (Hb s2 []) in Hr as (s' & Hm' & HK); [|done]. exists s'. split; [by econstructor|done].
      * intros (s' & Hm & HK). inversion Hm as [| |? ? ? s2 ? Hm1 Hm2| | | | |]; subst. exists s2. split; [done|]. apply Hb; [done|]. by exists s'.
    + intros s2 c' Hm. eapply bool_iff; by apply Hb.
  - rewrite is_some_or, orb_true_iff, (IHa s c k K (fun s' c' Hm => Hk s' c' (MOrL _ _ _ _ Hm))), (IHb s c k K (fun s' c' Hm => Hk s' c' (MOrR _ _ _ _ Hm))).
    split.
    + intros [(s' & Hm & HK)|(s' & Hm & HK)]; exists s'; (split; [|done]); [by apply MOrL|by apply MOrR].
    + intros (s' & Hm & HK). inversion Hm; subst; [left|right]; by exists s'.
  - destruct (at_most 0 hi) eqn:H0; [|by destruct hi].
    assert (forall s', Match (Rep lo hi g a) s s' <-> exists m, Times a m s s' /\ lo <= m /\ at_most m hi = true) as Hrep.
    { intros s'. split; [intros Hm; inversion Hm; subst; eauto|]. intros (m & Ht & Hl & Ha). by econstructor. }
    rewrite (rep_loop_spec a (run a) lo hi g k K IHa); [|intros m s' c' Ht Hl Ha; apply Hk, Hrep; eauto|lia|done].
    unfold rest_from. setoid_rewrite Hrep. naive_solver.
  - rewrite (IHa _ _ _ K); [|intros s' c' Hm; apply Hk; by constructor]. split; intros (s' & Hm & HK); exists s'; (split; [|done]); [by constructor|by inversion Hm].
  - destruct (p s) eqn:Hp; [|split; [done|]; intros (s' & Hm & _); inversion Hm; congruence].
    rewrite (Hk s c (MAt _ _ Hp)). split; [intros HK; exists s; split; [by constructor|done]|]. intros (s' & Hm & HK). by inversion Hm; subst.
Qed.
End spec.

Definition found (r : re) (t : string) : bool := is_some (search r t).

Lemma match_at_spec r s : is_some (match_at r s) = true <-> exists s', Match r s s'.
Proof.
  unfold match_at. rewrite (run_spec r s [] _ (fun _ => true)); [|done]. naive_solver.
Qed.

Lemma search_from_spec r b l : is_some (search_from r b l) = true <->
  exists u v s', l = u ++ v /\ Match r (rev u ++ b, v) s'.
Proof.
  revert b. induction l as [|a l IH]; intros b; cbn [search_from]; rewrite is_some_or, orb_true_iff, match_at_spec.
  - split; [intros [(s' & Hm)|]; [by exists [], [], s'|done]|]. intros (u & v & s' & [-> ->]%eq_sym%app_eq_nil & Hm). left. by exists s'.
  - rewrite IH. split.
    + intros [(s' & Hm)|(u & v & s' & -> & Hm)]; [by exists [], (a :: l), s'|]. exists (a :: u), v, s'. split; [done|]. cbn. by rewrite <- app_assoc.
    + intros (u & v & s' & He & Hm). destruct u as [|a' u]; cbn in *; [subst; left; by exists s'|]. injection He as <- ->. right. exists u, v, s'.
      rewrite <- app_assoc in Hm. done.
Qed.

(** [search] succeeds exactly when the pattern matches somewhere in the text. *)
Lemma search_spec r t : found r t = true <->
  exists u v s', String.list_ascii_of_string t = u ++ v /\ Match r (rev u, v) s'.
Proof. unfold found, search. rewrite search_from_spec. setoid_rewrite app_nil_r. done. Qed.

(** [fullmatch] succeeds exactly when the pattern matches the whole text. *)
Lemma fullmatch_spec r t : is_some (fullmatch r t) = true <-> exists s', Match r (text_of t) s' /\ snd s' = [].
Proof.
  unfold fullmatch. rewrite (run_spec r _ [] _ (fun s' => match snd s' with [] => true | _ => false end)); [|by intros [? [|]] ?].
  split; intros (s' & Hm & He); exists s'; (split; [done|]); destruct s' as [? [|]]; done.
Qed.

(** What a class or a literal matches. *)
Lemma Match_chr f s s' : Match (Chr f) s s' <-> exists a, snd s = a :: snd s' /\ fst s' = a :: fst s /\ f a = true.
Proof.
  split; [intros Hm; inversion Hm; subst; by exists a|]. intros (a & H1 & H2 & Hf). destruct s as [b l], s' as [b' l']. cbn in *. subst. by constructor.
Qed.

(** ** Alternatives and literals *)

Fixpoint alternatives (l : list re) : re :=
  match l with [] => Chr (fun _ => false) | [r] => r | r :: l => Or r (alternatives l) end.

Lemma Match_alternatives r l s s' : r ∈ l -> Match r s s' -> Match (alternatives l) s s'.
Proof.
  induction l as [|x l IH]; intros Hin Hm; [by apply not_elem_of_nil in Hin|]. apply elem_of_cons in Hin as [->|Hin].
  - destruct l; [done|by apply MOrL].
  - destruct l as [|y l]; [by apply not_elem_of_nil in Hin|]. apply MOrR. by apply IH.
Qed.

(** The pattern of a text without special characters, in any case. *)
Definition literal (l : list ascii) : re := seq_of (rev (List.map (fun a => chr true (Ascii.eqb a)) l)).

Lemma Match_literal l w b rest : List.map ascii_lower w = l -> Match (literal l) (b, w ++ rest) (rev w ++ b, rest).
Proof.
  intros <-. revert rest. induction w as [|x w IH] using rev_ind; intros rest; [constructor|].
  unfold literal in *. rewrite map_app, map_app, rev_app_distr, <- app_assoc. cbn [List.map rev app].
  assert (Match (chr true (Ascii.eqb (ascii_lower x))) (rev w ++ b, x :: rest) (x :: rev w ++ b, rest)) as Hx.
  { constructor. unfold fold_case. cbn. rewrite (Ascii.eqb_refl (ascii_lower x)). by rewrite orb_true_r. }
  rewrite rev_unit. cbn [app]. destruct (rev (List.map (fun a => chr true (Ascii.eqb a)) (List.map ascii_lower w))) as [|r l] eqn:He.
  - destruct w as [|y w]; [exact Hx|]. apply (f_equal length) in He. rewrite length_rev, !length_map in He. done.
  - change (Match (Cat (seq_of (r :: l)) (chr true (Ascii.eqb (ascii_lower x)))) (b, w ++ x :: rest) (x :: rev w ++ b, rest)).
    eapply MCat; [|exact Hx]. apply (IH (x :: rest)).
Qed.

Lemma list_ascii_app a b : String.list_ascii_of_string (a +:+ b) = String.list_ascii_of_string a ++ String.list_ascii_of_string b.
Proof. induction a as [|c a IH]; [done|]. change (String c a +:+ b) with (String c (a +:+ b)). cbn. by rewrite IH. Qed.

Lemma list_ascii_lower s : List.map ascii_lower (String.list_ascii_of_string s) = String.list_ascii_of_string (py_lower s).
Proof. induction s as [|c s IH]; cbn; [done|]. by rewrite IH. Qed.

(** A text that contains the literal in some spelling is found by any set of
    alternatives that has it. *)
Lemma found_literal l r u w v phrase : r ∈ l -> r = literal (String.list_ascii_of_string phrase) -> py_lower w = phrase ->
  found (alternatives l) (u +:+ w +:+ v) = true.
Proof.
  intros Hin -> Hw. apply search_spec. rewrite !list_ascii_app.
  eexists (String.list_ascii_of_string u), (String.list_ascii_of_string w ++ String.list_ascii_of_string v), _. split; [done|].
  eapply Match_alternatives; [done|]. apply Match_literal. by rewrite list_ascii_lower, Hw.
Qed.
