(* ===== verification/Endpoint.v ===== *)
(** * Backend endpoints ([inference_proxy/models/endpoint.py])

    Parsing a backend address into a canonical origin, and the policy that says
    which origins the gateway may contact.  What the code uses of [urllib.parse]
    and [ipaddress] is modelled with it: splitting a URL, the host and port of its
    network location, the values and texts of IPv4 and IPv6 addresses, and
    networks.  Python 3.12 and later versions differ in the text of an IPv6
    address that stands for an IPv4 address; [dotted] says which of the two
    forms [str] gives.  Text is ASCII. *)

From Stdlib Require Import Ascii.
From S2P Require Import Prelude PyRegex.
Local Open Scope Z_scope.

(** ** Characters and texts *)

Fixpoint all_chars (f : ascii -> bool) (s : string) : bool :=
  match s with EmptyString => true | String a s => f a && all_chars f s end.
Fixpoint filter_chars (f : ascii -> bool) (s : string) : string :=
  match s with EmptyString => EmptyString | String a s => if f a then String a (filter_chars f s) else filter_chars f s end.
(** [s.lstrip(chars)] *)
Fixpoint lstrip_with (f : ascii -> bool) (s : string) : string :=
  match s with EmptyString => EmptyString | String a s' => if f a then lstrip_with f s' else s end.
(** The text before the first character that satisfies [f], and the rest. *)
Fixpoint break_at (f : ascii -> bool) (s : string) : string * string :=
  match s with
  | EmptyString => (EmptyString, EmptyString)
  | String a s' => if f a then (EmptyString, s) else let '(h, t) := break_at f s' in (String a h, t)
  end.
(** [p in s] *)
Fixpoint contains_text (p s : string) : bool :=
  startswith s p || match s with EmptyString => false | String _ s => contains_text p s end.

Definition is_alpha (a : ascii) : bool := in_range "a" "z" a || in_range "A" "Z" a.
Definition is_hexdigit (a : ascii) : bool := is_digit a || in_range "a" "f" a || in_range "A" "F" a.
Definition is_ascii (a : ascii) : bool := (code a <=? 127)%nat.
(** [s.isascii() and s.isdigit()] *)
Definition digits_only (s : string) : bool := str_truthy s && all_chars is_digit s.

(** ** Numbers *)

Definition digit_value (a : ascii) : Z :=
  let n := Z.of_nat (code a) in if is_digit a then n - 48 else if in_range "a" "f" a then n - 87 else n - 55.
(** [int(s, base)] of digits *)
Fixpoint number_in (base : Z) (s : string) (acc : Z) : Z :=
  match s with EmptyString => acc | String a s => number_in base s (acc * base + digit_value a) end.
(** [str(n)] and [hex(n)] of a natural number below [base ^ fuel] *)
Definition digit_char (n : Z) : ascii := ascii_of_nat (Z.to_nat (if n <? 10 then n + 48 else n + 87)).
Fixpoint text_in (base : Z) (fuel : nat) (n : Z) (acc : string) : string :=
  match fuel with
  | O => acc
  | S fuel => let acc := String (digit_char (n mod base)) acc in if n / base =? 0 then acc else text_in base fuel (n / base) acc
  end.
Definition octet_text (n : Z) : string := text_in 10 3 n "".
Definition hextet_text (n : Z) : string := text_in 16 4 n "".
Definition port_text (n : Z) : string := text_in 10 5 n "".

(** ** Addresses ([ipaddress]) *)

Inductive address := V4 (n : Z) | V6 (n : Z) (scope : option string).
#[export] Instance address_eq_dec : EqDecision address.
Proof. solve_decision. Defined.
Definition version (a : address) : Z := match a with V4 _ => 4 | V6 _ _ => 6 end.
Definition ip_value (a : address) : Z := match a with V4 n => n | V6 n _ => n end.
Definition width (v : Z) : Z := if v =? 4 then 32 else 128.

Definition parse_octet (s : string) : option Z :=
  if negb (digits_only s) then None
  else if (3 <? String.length s)%nat then None
  else if negb (bool_decide (s = "0")) && startswith s "0" then None
  else let n := number_in 10 s 0 in if 255 <? n then None else Some n.

Definition parse_v4 (s : string) : option Z :=
  match py_split "." s "" with
  | [a; b; c; d] =>
      match parse_octet a, parse_octet b, parse_octet c, parse_octet d with
      | Some a, Some b, Some c, Some d => Some (((a * 256 + b) * 256 + c) * 256 + d)
      | _, _, _, _ => None
      end
  | _ => None
  end.

Definition parse_hextet (s : string) : option Z :=
  if negb (str_truthy s && all_chars is_hexdigit s) || (4 <? String.length s)%nat then None else Some (number_in 16 s 0).

Definition join_hextets (l : list (option Z)) : option Z :=
  foldl (fun acc h => match acc, h with Some a, Some h => Some (a * 65536 + h) | _, _ => None end) (Some 0) l.

(** The inner positions, from [i], of empty parts. *)
Fixpoint empty_at (i : nat) (parts : list string) : list nat :=
  match parts with [] => [] | p :: parts => if str_truthy p then empty_at (S i) parts else i :: empty_at (S i) parts end.

(** At most one run of zeros is left out, at [::]. *)
Definition parse_parts (parts : list string) : option Z :=
  let n := length parts in
  let first := str_truthy (List.hd "" parts) in
  let last := str_truthy (List.last parts "") in
  if (9 <? n)%nat then None
  else
    match empty_at 1 (removelast (List.tl parts)) with
    | _ :: _ :: _ => None
    | [i] =>
        let hi := if first then i else (i - 1)%nat in
        let lo := if last then (n - i - 1)%nat else (n - i - 2)%nat in
        if negb first && negb (hi =? 0)%nat then None
        else if negb last && negb (lo =? 0)%nat then None
        else if (8 <? hi + lo + 1)%nat then None
        else join_hextets (List.map parse_hextet (firstn hi parts) ++ repeat (Some 0) (8 - (hi + lo)) ++ List.map parse_hextet (skipn (n - lo) parts))
    | [] => if (n =? 8)%nat && first && last then join_hextets (List.map parse_hextet parts) else None
    end.

(** An IPv4 address at the end stands for the last two numbers. *)
Definition parse_v6 (s : string) : option Z :=
  let parts := py_split ":" s "" in
  if (length parts <? 3)%nat then None
  else
    let last := List.last parts "" in
    if has_char "." last then
      match parse_v4 last with
      | Some n => parse_parts (removelast parts ++ [hextet_text (n / 65536); hextet_text (n mod 65536)])
      | None => None
      end
    else parse_parts parts.

(** [IPv6Address(s)]: a scope follows the first percent sign. *)
Definition parse_scoped (s : string) : option address :=
  if has_char "/" s then None
  else
    let '(addr, found, scope) := partition "%" s in
    if found && (negb (str_truthy scope) || has_char "%" scope) then None
    else (fun n => V6 n (if found then Some scope else None)) <$> parse_v6 addr.

(** [ip_address(s)] *)
Definition ip_address (s : string) : option address :=
  match parse_v4 s with Some n => Some (V4 n) | None => parse_scoped s end.

Definition v4_text (n : Z) : string :=
  octet_text (n / 16777216) +:+ "." +:+ octet_text (n / 65536 mod 256) +:+ "." +:+ octet_text (n / 256 mod 256) +:+ "." +:+ octet_text (n mod 256).

Definition hextets (n : Z) : list Z := List.map (fun i => n / 2 ^ (16 * i) mod 65536) [7; 6; 5; 4; 3; 2; 1; 0].

(** The first longest run of ["0"]: its start and length. *)
Record scan := mkScan { best : nat * nat; here : nat * nat }.
Fixpoint longest_run (i : nat) (l : list string) (s : scan) : nat * nat :=
  match l with
  | [] => best s
  | h :: l =>
      if bool_decide (h = "0") then
        let start := if (snd (here s) =? 0)%nat then i else fst (here s) in
        let len := S (snd (here s)) in
        longest_run (S i) l (mkScan (if (snd (best s) <? len)%nat then (start, len) else best s) (start, len))
      else longest_run (S i) l (mkScan (best s) (0, 0)%nat)
  end.

(** [_compress_hextets] *)
Definition compress_hextets (l : list string) : list string :=
  let '(start, len) := longest_run 0 l (mkScan (0, 0)%nat (0, 0)%nat) in
  if (1 <? len)%nat then
    (if (start =? 0)%nat then [""] else []) ++ firstn start l ++ [""] ++ skipn (start + len) l ++ (if (start + len =? length l)%nat then [""] else [])
  else l.

Definition v6_text (n : Z) : string := String.concat ":" (compress_hextets (List.map hextet_text (hextets n))).

Section addresses.
Variable dotted : bool.

(** [str(address)] *)
Definition address_text (a : address) : string :=
  match a with
  | V4 n => v4_text n
  | V6 n scope =>
      (if dotted && (n / 2 ^ 32 =? 65535) then v6_text (n / 2 ^ 32) +:+ ":" +:+ v4_text (n mod 2 ^ 32) else v6_text n)
      +:+ match scope with Some s => "%" +:+ s | None => "" end
  end.
End addresses.

(** ** Networks ([ipaddress]) *)

Record network := mkNetwork { net_version : Z; net_prefix : Z; net_value : Z }.

Definition netmask (v p : Z) : Z := Z.shiftl (Z.ones p) (width v - p).

(** [address in network], for addresses of the same version *)
Definition in_network (a : address) (n : network) : bool :=
  (version a =? net_version n) && (Z.land (ip_value a) (netmask (net_version n) (net_prefix n)) =? net_value n).

Definition prefix_digits (v : Z) (s : string) : option Z :=
  if digits_only s then let n := number_in 10 s 0 in if n <=? width v then Some n else None else None.

Fixpoint trailing_zeros (p : positive) : Z := match p with xO p => 1 + trailing_zeros p | _ => 0 end.
(** [_prefix_from_ip_int]: ones, then zeros *)
Definition prefix_of_mask (n : Z) : option Z :=
  let zeros := match n with Zpos p => trailing_zeros p | _ => 32 end in
  if Z.shiftr n zeros =? Z.ones (32 - zeros) then Some (32 - zeros) else None.

(** [IPv4Network._make_netmask]: a prefix length, a netmask or a host mask *)
Definition prefix_v4 (s : string) : option Z :=
  match prefix_digits 4 s with
  | Some p => Some p
  | None =>
      match parse_v4 s with
      | Some n => match prefix_of_mask n with Some p => Some p | None => prefix_of_mask (Z.lxor n (Z.ones 32)) end
      | None => None
      end
  end.

Definition make_network (v p n : Z) : network := mkNetwork v p (Z.land n (netmask v p)).

(** [IPv4Network((addr, mask), strict=False)] and [IPv6Network] *)
Definition network_v4 (addr : string) (mask : option string) : option network :=
  n ← parse_v4 addr; p ← match mask with None => Some 32 | Some m => prefix_v4 m end; Some (make_network 4 p n).
Definition network_v6 (addr : string) (mask : option string) : option network :=
  a ← parse_scoped addr; p ← match mask with None => Some 128 | Some m => prefix_digits 6 m end; Some (make_network 6 p (ip_value a)).

(** [ip_network(rule, strict=False)] *)
Definition ip_network (rule : string) : option network :=
  let network addr mask := match network_v4 addr mask with Some n => Some n | None => network_v6 addr mask end in
  match py_split "/" rule "" with [a] => network a None | [a; m] => network a (Some m) | _ => None end.

(** ** URLs ([urllib.parse]) *)

Record SplitResult := mkSplit { scheme : string; netloc : string; path : string; query : string; fragment : string }.

(** What [url.lstrip] drops, and the characters removed everywhere. *)
Definition c0_or_space (a : ascii) : bool := (code a <=? 32)%nat.
Definition unsafe_byte (a : ascii) : bool := bool_decide (code a ∈ [9; 10; 13]%nat).
Definition scheme_char (a : ascii) : bool := is_alpha a || is_digit a || bool_decide (a ∈ ["+"; "-"; "."]%char).
Definition netloc_end (a : ascii) : bool := bool_decide (a ∈ ["/"; "?"; "#"]%char).

(** [netloc.rpartition('@')[2]] *)
Definition after_at (s : string) : string := match rsplit1 "@" s with Some (_, t) => t | None => s end.

(** An address of a later version: [v], hexadecimal digits, a dot and text. *)
Definition ip_future (s : string) : bool :=
  let '(version, rest) := break_at (fun a => negb (is_hexdigit a)) (drop_chars 1 s) in
  str_truthy version && match rest with String "." t => str_truthy t && negb (has_char newline t) | _ => false end%char.

Definition check_bracketed_host (s : string) : bool :=
  if startswith s "v" then ip_future s else match ip_address s with Some (V6 _ _) => true | _ => false end.

Definition check_bracketed_netloc (s : string) : bool :=
  let '(before, found, bracketed) := partition "[" (after_at s) in
  if found then
    let '(host, _, port) := partition "]" bracketed in
    negb (str_truthy before) && (negb (str_truthy port) || startswith port ":") && check_bracketed_host host
  else let '(host, _, _) := partition ":" (after_at s) in check_bracketed_host host.

(** [urlsplit(url)]; [None] is a [ValueError]. *)
Definition urlsplit (url : string) : option SplitResult :=
  let url := filter_chars (fun a => negb (unsafe_byte a)) (lstrip_with c0_or_space url) in
  let '(head, found, rest) := partition ":" url in
  let starts := match head with String a _ => is_alpha a | EmptyString => false end in
  let '(scheme, url) := if found && starts && all_chars scheme_char head then (py_lower head, rest) else ("", url) in
  let '(netloc, url) := if startswith url "//" then break_at netloc_end (drop_chars 2 url) else ("", url) in
  let opens := has_char "[" netloc in
  let closes := has_char "]" netloc in
  if xorb opens closes || (opens && negb (check_bracketed_netloc netloc)) then None
  else
    let '(url, _, fragment) := partition "#" url in
    let '(path, _, query) := partition "?" url in
    Some (mkSplit scheme netloc path query fragment).

Definition hostinfo (s : string) : string * string :=
  let '(_, found, bracketed) := partition "[" (after_at s) in
  if found then
    let '(host, _, rest) := partition "]" bracketed in
    let '(_, _, port) := partition ":" rest in (host, port)
  else let '(host, _, port) := partition ":" (after_at s) in (host, port).

(** [parsed.hostname]: the scope keeps its case. *)
Definition hostname (s : string) : option string :=
  let '(host, _) := hostinfo s in
  if str_truthy host then
    let '(name, found, zone) := partition "%" host in
    Some (py_lower name +:+ (if found then "%" else "") +:+ zone)
  else None.

(** [parsed.port]: absent, a number, or a [ValueError] ([None]). *)
Definition port_of (s : string) : option (option Z) :=
  let '(_, port) := hostinfo s in
  if str_truthy port then
    if digits_only port then let n := number_in 10 port 0 in if n <=? 65535 then Some (Some n) else None else None
  else Some None.

(** ** Endpoints *)

(** The messages; [PathNotAbsolute] is the plain [ValueError] of
    [build_backend_url]. *)
Inductive EndpointValidationError :=
| InvalidEndpoint | UnsupportedScheme | MissingHost | CredentialsNotAllowed | MissingPort | InvalidPort | PathNotAllowed | QueryNotAllowed
| InvalidName (context : string) | InvalidNetworkRule | InvalidPortRule | PortNotAllowed | HostNotAllowed
| InvalidNodeHostname | AddressNotAllowed | NodeHostnameNotAllowed
| PathNotAbsolute.

Record ParsedEndpoint := mkEndpoint { ep_scheme : string; host : string; port : Z }.

(** [ParsedEndpoint.origin] *)
Definition origin (e : ParsedEndpoint) : string :=
  let rendered_host := if has_char ":" (host e) then "[" +:+ host e +:+ "]" else host e in
  ep_scheme e +:+ "://" +:+ rendered_host +:+ ":" +:+ port_text (port e).

Definition _HOST_LABEL : re := compile false false "[a-z0-9](?:[a-z0-9-]{0,61}[a-z0-9])?".

Definition is_dot (a : ascii) : bool := bool_decide (a = "."%char).

Definition _normalize_dns_name (value context : string) : result EndpointValidationError string :=
  let hostname := rstrip_with is_dot (py_lower value) in
  raise_if (negb (str_truthy hostname) || (253 <? String.length hostname)%nat) (InvalidName context) ;?
  raise_if (negb (all_chars is_ascii hostname)) (InvalidName context) ;?
  raise_if (existsb (fun label => is_none (fullmatch _HOST_LABEL label)) (py_split "." hostname "")) (InvalidName context) ;?
  Ok hostname.

Section endpoints.
Variable dotted : bool.

(** An address in its own text, anything else as a name. *)
Definition normalized_host (host : string) : result EndpointValidationError string :=
  match ip_address host with
  | Some a => Ok (address_text dotted a)
  | None => _normalize_dns_name host "backend hostname"
  end.

Definition parse_endpoint (value : string) : result EndpointValidationError ParsedEndpoint :=
  raise_if (negb (str_truthy value) || negb (bool_decide (value = py_strip value))) InvalidEndpoint ;?
  let candidate := if contains_text "://" value then value else "http://" +:+ value in
  match urlsplit candidate with
  | None => Err InvalidEndpoint
  | Some parsed =>
      match port_of (netloc parsed) with
      | None => Err InvalidEndpoint
      | Some port =>
          let scheme := py_lower (scheme parsed) in
          raise_if (negb (bool_decide (scheme ∈ ["http"; "https"]))) UnsupportedScheme ;?
          match hostname (netloc parsed) with
          | None => Err MissingHost
          | Some host =>
              raise_if (negb (str_truthy (netloc parsed))) MissingHost ;?
              raise_if (has_char "@" (netloc parsed)) CredentialsNotAllowed ;?
              match port with
              | None => Err MissingPort
              | Some port =>
                  raise_if (negb ((1 <=? port) && (port <=? 65535))) InvalidPort ;?
                  raise_if (negb (bool_decide (path parsed ∈ [""; "/"]))) PathNotAllowed ;?
                  raise_if (str_truthy (query parsed) || str_truthy (fragment parsed)) QueryNotAllowed ;?
                  let? normalized_host := normalized_host host in
                  Ok (mkEndpoint scheme normalized_host port)
              end
          end
      end
  end.

(** ** The policy *)

Record EndpointPolicy := mkPolicy {
  allowed_hosts : gset string;
  allowed_host_suffixes : list string;
  allowed_networks : list network;
  allowed_ports : gset Z }.

(** A configured port: in Python a [bool] is an [int] too. *)
Inductive PortRule := PortInt (n : Z) | PortBool (b : bool).

Fixpoint host_rules (rules : list string) (exact suffixes : gset string) : result EndpointValidationError (gset string * gset string) :=
  match rules with
  | [] => Ok (exact, suffixes)
  | rule :: rules =>
      if startswith rule "*." then
        let? name := _normalize_dns_name (drop_chars 2 rule) "host allowlist rule" in
        host_rules rules exact ({["." +:+ name]} ∪ suffixes)
      else
        let? name := _normalize_dns_name rule "host allowlist rule" in
        host_rules rules ({[name]} ∪ exact) suffixes
  end.

Fixpoint network_rules (rules : list string) (networks : list network) : result EndpointValidationError (list network) :=
  match rules with
  | [] => Ok networks
  | rule :: rules => match ip_network rule with Some n => network_rules rules (networks ++ [n]) | None => Err InvalidNetworkRule end
  end.

Fixpoint port_rules (rules : list PortRule) (ports : gset Z) : result EndpointValidationError (gset Z) :=
  match rules with
  | [] => Ok ports
  | PortBool _ :: _ => Err InvalidPortRule
  | PortInt n :: rules => raise_if (negb ((1 <=? n) && (n <=? 65535))) InvalidPortRule ;? port_rules rules ({[n]} ∪ ports)
  end.

Definition from_values (hosts networks : list string) (ports : list PortRule) : result EndpointValidationError EndpointPolicy :=
  let? (exact_hosts, suffixes) := host_rules hosts ∅ ∅ in
  let? networks := network_rules networks [] in
  let? ports := port_rules ports ∅ in
  Ok (mkPolicy exact_hosts (sort_by String.leb (elements suffixes)) networks ports).

Definition _host_allowed (p : EndpointPolicy) (host : string) : bool :=
  match ip_address host with
  | None => bool_decide (host ∈ allowed_hosts p) || existsb (fun suffix => endswith host suffix && negb (bool_decide (host = drop_chars 1 suffix))) (allowed_host_suffixes p)
  | Some address => existsb (fun network => (version address =? net_version network) && in_network address network) (allowed_networks p)
  end.

Definition normalize (p : EndpointPolicy) (value : string) : result EndpointValidationError string :=
  let? endpoint := parse_endpoint value in
  raise_if (negb (bool_decide (port endpoint ∈ allowed_ports p))) PortNotAllowed ;?
  raise_if (negb (_host_allowed p (host endpoint))) HostNotAllowed ;?
  Ok (origin endpoint).

Definition normalize_hostname (p : EndpointPolicy) (value : string) : result EndpointValidationError string :=
  raise_if (negb (str_truthy value) || negb (bool_decide (value = py_strip value))) InvalidNodeHostname ;?
  let candidate := rstrip_with is_dot (py_lower value) in
  match ip_address candidate with
  | Some _ => Err AddressNotAllowed
  | None =>
      let? hostname := _normalize_dns_name value "node hostname" in
      raise_if (negb (_host_allowed p hostname)) NodeHostnameNotAllowed ;?
      Ok hostname
  end.

Definition build_backend_url (endpoint path : string) : result EndpointValidationError string :=
  raise_if (negb (startswith path "/") || startswith path "//") PathNotAbsolute ;?
  let? e := parse_endpoint endpoint in
  Ok (origin e +:+ path).
End endpoints.

(** ** Lemmas on texts *)

Lemma all_chars_app f s t : all_chars f (s +:+ t) = all_chars f s && all_chars f t.
Proof. induction s as [|a s IH]; [done|]. change (f a && all_chars f (s +:+ t) = f a && all_chars f s && all_chars f t). by rewrite IH, andb_assoc. Qed.

Lemma has_char_app c s t : has_char c (s +:+ t) = has_char c s || has_char c t.
Proof. induction s as [|a s IH]; [done|]. change (bool_decide (a = c) || has_char c (s +:+ t) = bool_decide (a = c) || has_char c s || has_char c t). by rewrite IH, orb_assoc. Qed.

Lemma all_chars_impl f g s : (forall a, f a = true -> g a = true) -> all_chars f s = true -> all_chars g s = true.
Proof. intros H. induction s as [|a s IH]; cbn; [done|]. intros Hs. bool_to_prop. by rewrite H, IH. Qed.

Lemma all_chars_and f g s : all_chars (fun a => f a && g a) s = all_chars f s && all_chars g s.
Proof. induction s as [|a s IH]; cbn; [done|]. rewrite IH. by destruct (f a), (g a), (all_chars f s), (all_chars g s). Qed.

Lemma all_chars_no_char f c s : all_chars f s = true -> f c = false -> has_char c s = false.
Proof. intros Hs Hc. induction s as [|a s IH]; cbn in *; [done|]. bool_to_prop. rewrite IH by done. rewrite bool_decide_eq_false_2; [done|]. congruence. Qed.

Lemma no_char_all c s : has_char c s = false <-> all_chars (fun a => negb (bool_decide (a = c))) s = true.
Proof. induction s as [|a s IH]; cbn; [done|]. case_bool_decide; cbn; [done|exact IH]. Qed.

Lemma str_truthy_app_r s t : str_truthy t = true -> str_truthy (s +:+ t) = true.
Proof. by destruct s. Qed.

Lemma filter_chars_all f s : all_chars f s = true -> filter_chars f s = s.
Proof. induction s as [|a s IH]; cbn; [done|]. intros H. bool_to_prop. by rewrite H, IH. Qed.

Lemma filter_chars_app f s t : filter_chars f (s +:+ t) = filter_chars f s +:+ filter_chars f t.
Proof.
  induction s as [|a s IH]; [done|]. change (String a s +:+ t) with (String a (s +:+ t)). cbn [filter_chars].
  destruct (f a); [|done]. by rewrite IH.
Qed.

Lemma filter_chars_true f s : all_chars f (filter_chars f s) = true.
Proof. induction s as [|a s IH]; cbn; [done|]. destruct (f a) eqn:E; cbn; [by rewrite E|done]. Qed.

Lemma partition_none c s : has_char c s = false -> partition c s = (s, false, "").
Proof. induction s as [|a s IH]; cbn; [done|]. intros H. bool_to_prop. rewrite bool_decide_eq_false_2 by done. by rewrite IH. Qed.

Lemma partition_at c s t : has_char c s = false -> partition c (s +:+ String c t) = (s, true, t).
Proof.
  induction s as [|a s IH]; [intros _; change ("" +:+ String c t) with (String c t); cbn; by rewrite bool_decide_eq_true_2|]. change (String a s +:+ String c t) with (String a (s +:+ String c t)).
  cbn. intros H. bool_to_prop. rewrite bool_decide_eq_false_2 by done. by rewrite IH.
Qed.

Lemma partition_spec c s h b t : partition c s = (h, b, t) ->
  has_char c h = false /\ if b then s = h +:+ String c t else s = h /\ t = "".
Proof.
  revert h b t. induction s as [|a s IH]; cbn; intros h b t; [by intros [= <- <- <-]|]. case_bool_decide as Ha.
  - intros [= <- <- <-]. by subst.
  - destruct (partition c s) as [[h' b'] t']. intros [= <- <- <-]. destruct (IH _ _ _ eq_refl) as [H1 H2]. split.
    + cbn. rewrite H1. by rewrite bool_decide_eq_false_2.
    + destruct b'; [by rewrite H2|]. by destruct H2 as [-> ->].
Qed.

Lemma break_at_none f s : all_chars (fun a => negb (f a)) s = true -> break_at f s = (s, "").
Proof. induction s as [|a s IH]; cbn; [done|]. intros H. bool_to_prop. by rewrite H, IH. Qed.

Lemma break_at_app f s t : all_chars (fun a => negb (f a)) s = true -> (t = "" \/ exists a u, t = String a u /\ f a = true) -> break_at f (s +:+ t) = (s, t).
Proof.
  intros Hs Ht. induction s as [|a s IH]; cbn in *.
  - destruct Ht as [->|(a & u & -> & Ha)]; [done|]. change ("" +:+ String a u) with (String a u). cbn. by rewrite Ha.
  - bool_to_prop. change (String a s +:+ t) with (String a (s +:+ t)). cbn. by rewrite H, IH.
Qed.

Lemma break_at_spec f s h t : break_at f s = (h, t) -> s = h +:+ t /\ all_chars (fun a => negb (f a)) h = true.
Proof.
  revert h t. induction s as [|a s IH]; cbn; intros h t; [by intros [= <- <-]|]. destruct (f a) eqn:Ha; [by intros [= <- <-]|].
  destruct (break_at f s) as [h' t']. intros [= <- <-]. destruct (IH _ _ eq_refl) as [-> Hh]. split; [done|]. cbn. by rewrite Ha.
Qed.

Lemma contains_text_app p s t : contains_text p (s +:+ (p +:+ t)) = true.
Proof.
  assert (forall u, startswith u p = true -> contains_text p u = true) as Hs by (intros [|a u] H; cbn [contains_text]; by rewrite H).
  induction s as [|a s IH]; [exact (Hs _ (prefix_app p t))|].
  change (String a s +:+ (p +:+ t)) with (String a (s +:+ (p +:+ t))). cbn. by rewrite IH, orb_true_r.
Qed.

Lemma rstrip_with_keep f s t : str_truthy t = true -> all_chars (fun a => negb (f a)) t = true -> rstrip_with f (s +:+ t) = s +:+ t.
Proof.
  intros Ht Hf. assert (rstrip_with f t = t) as E.
  { clear s. induction t as [|a t IH]; [done|]. cbn in *. bool_to_prop. destruct t as [|b t]; cbn; [by rewrite H|]. cbn in *. rewrite IH; done. }
  induction s as [|a s IH]; [done|]. change (String a s +:+ t) with (String a (s +:+ t)). cbn. rewrite IH.
  destruct (s +:+ t) eqn:Es; [|done]. by destruct s, t.
Qed.

Lemma rstrip_with_idemp f s : rstrip_with f (rstrip_with f s) = rstrip_with f s.
Proof.
  induction s as [|a s IH]; [done|]. cbn. destruct (rstrip_with f s) eqn:E; [destruct (f a) eqn:Ha; cbn; by rewrite ?Ha|].
  change (rstrip_with f (String a (String a0 s0)) = String a (String a0 s0)). cbn [rstrip_with]. cbn [rstrip_with] in IH. by rewrite IH.
Qed.

(** [s.split(c)] and [c.join(parts)] *)
Lemma split_part c s t cur : has_char c s = false -> py_split c (s +:+ t) cur = py_split c t (cur +:+ s).
Proof.
  revert cur. induction s as [|a s IH]; cbn; intros cur H; [by rewrite append_nil_r|]. bool_to_prop.
  change (String a s +:+ t) with (String a (s +:+ t)). cbn. rewrite bool_decide_eq_false_2 by done. rewrite IH by done. by rewrite append_assoc.
Qed.

Lemma split_concat c l : l <> [] -> Forall (fun s => has_char c s = false) l -> py_split c (String.concat (String c "") l) "" = l.
Proof.
  intros Hl H. induction H as [|s l Hs Hf IH]; [done|]. destruct l as [|s' l].
  - cbn. rewrite <- (append_nil_r s) at 1. by rewrite split_part.
  - change (String.concat (String c "") (s :: s' :: l)) with (s +:+ String c (String.concat (String c "") (s' :: l))).
    rewrite split_part by done. cbn [py_split]. rewrite bool_decide_eq_true_2 by done. by rewrite IH.
Qed.

Lemma concat_split c s cur : String.concat (String c "") (py_split c s cur) = cur +:+ s.
Proof.
  revert cur. induction s as [|a s IH]; intros cur; cbn [py_split]; [cbn; by rewrite append_nil_r|].
  case_bool_decide as Ha.
  - subst a. specialize (IH ""). destruct (py_split c s "") as [|p l] eqn:E; [|].
    { exfalso. clear -E. assert (forall cur, py_split c s cur <> []) as H; [|by apply (H "")]. clear. induction s as [|a s IH]; intros cur; cbn; [done|]. case_bool_decide; [done|apply IH]. }
    change (String.concat (String c "") (cur :: p :: l)) with (cur +:+ String c (String.concat (String c "") (p :: l))). by rewrite IH.
  - rewrite IH. by rewrite append_assoc.
Qed.

Lemma split_no_char c s cur : has_char c cur = false -> Forall (fun p => has_char c p = false) (py_split c s cur).
Proof.
  revert cur. induction s as [|a s IH]; intros cur H; cbn; [by constructor|]. case_bool_decide; [constructor; [done|by apply IH]|].
  apply IH. rewrite has_char_app, H. cbn. by rewrite bool_decide_eq_false_2.
Qed.

Lemma all_chars_concat f c l : f c = true -> Forall (fun s => all_chars f s = true) l -> all_chars f (String.concat (String c "") l) = true.
Proof.
  intros Hc H. induction H as [|s l Hs Hf IH]; [done|]. destruct l as [|s' l]; [by cbn|].
  change (String.concat (String c "") (s :: s' :: l)) with (s +:+ String c (String.concat (String c "") (s' :: l))).
  rewrite all_chars_app, Hs. cbn [all_chars andb]. by rewrite Hc, IH.
Qed.

(** Facts about one character, by trying all of them. *)
Lemma every_char (P : ascii -> bool) : forallb P (List.map ascii_of_nat (seq 0 256)) = true -> forall a, P a = true.
Proof.
  intros H a. rewrite forallb_forall in H. apply H. apply in_map_iff. exists (nat_of_ascii a). split; [apply ascii_nat_embedding|].
  apply in_seq. pose proof (nat_ascii_bounded a). lia.
Qed.
Ltac from_chars :=
  let a := fresh "a" in let Ha := fresh "Ha" in let H := fresh "H" in
  match goal with |- forall a, @?f a = true -> @?g a = true =>
    intros a Ha; pose proof (every_char (fun a => implb (f a) (g a)) ltac:(vm_compute; reflexivity) a) as H; cbn beta in H; rewrite Ha in H; exact H
  end.

Lemma lower_char_keeps (c : ascii) : ascii_lower c = c -> in_range "a" "z" c = false -> forall a, bool_decide (ascii_lower a = c) = bool_decide (a = c).
Proof.
  intros Hc Hr a. apply bool_decide_ext. split; [|by intros ->]. intros E.
  pose proof (every_char (fun a => Ascii.eqb (ascii_lower a) a || in_range "a" "z" (ascii_lower a)) ltac:(vm_compute; reflexivity) a) as H. cbn beta in H.
  bool_to_prop. destruct H as [H|H]; [apply Ascii.eqb_eq in H; congruence|congruence].
Qed.

Lemma has_char_lower c s : ascii_lower c = c -> in_range "a" "z" c = false -> has_char c (py_lower s) = has_char c s.
Proof. intros Hc Hr. induction s as [|a s IH]; cbn; [done|]. by rewrite lower_char_keeps, IH. Qed.

Lemma all_chars_lower f s : (forall a, f a = true -> f (ascii_lower a) = true) -> all_chars f s = true -> all_chars f (py_lower s) = true.
Proof. intros Hf. induction s as [|a s IH]; cbn; [done|]. intros H. bool_to_prop. by rewrite Hf, IH. Qed.

Lemma lower_app s t : py_lower (s +:+ t) = py_lower s +:+ py_lower t.
Proof. induction s as [|a s IH]; [done|]. change (String a s +:+ t) with (String a (s +:+ t)). cbn. by rewrite IH. Qed.

Lemma lower_same s : all_chars (fun a => bool_decide (ascii_lower a = a)) s = true -> py_lower s = s.
Proof. induction s as [|a s IH]; cbn; [done|]. intros H. bool_to_prop. by rewrite H, IH. Qed.

Lemma lower_rstrip s : py_lower (rstrip_with is_dot s) = rstrip_with is_dot (py_lower s).
Proof.
  induction s as [|a s IH]; [done|]. cbn. rewrite <- IH. destruct (rstrip_with is_dot s); cbn.
  - unfold is_dot. rewrite (lower_char_keeps "." eq_refl eq_refl). by case_bool_decide.
  - done.
Qed.

(** ** Numbers and their texts *)

Lemma digit_char_facts d : 0 <= d < 16 -> digit_value (digit_char d) = d /\ is_hexdigit (digit_char d) = true /\ ascii_lower (digit_char d) = digit_char d.
Proof.
  intros Hd. assert (forallb (fun d => (digit_value (digit_char d) =? d) && is_hexdigit (digit_char d) && Ascii.eqb (ascii_lower (digit_char d)) (digit_char d))
    (List.map Z.of_nat (seq 0 16)) = true) as H by (vm_compute; reflexivity).
  rewrite forallb_forall in H. specialize (H d). ospecialize (H _); [apply in_map_iff; exists (Z.to_nat d); rewrite in_seq; lia|].
  bool_to_prop. split_and!; [done|done|by apply Ascii.eqb_eq].
Qed.

Lemma digit_char_digit d : 0 <= d < 10 -> is_digit (digit_char d) = true.
Proof.
  intros Hd. assert (forallb (fun d => is_digit (digit_char d)) (List.map Z.of_nat (seq 0 10)) = true) as H by (vm_compute; reflexivity).
  rewrite forallb_forall in H. apply H. apply in_map_iff. exists (Z.to_nat d). rewrite in_seq. lia.
Qed.

Section text_in_facts.
Variables (base : Z).
Hypothesis Hbase : 1 < base <= 16.

Lemma text_in_value fuel n acc : (0 < fuel)%nat -> 0 <= n < base ^ Z.of_nat fuel -> number_in base (text_in base fuel n acc) 0 = number_in base acc n.
Proof.
  revert n acc. induction fuel as [|fuel IH]; intros n acc Hf Hn; [lia|]. cbn [text_in].
  assert (0 <= n mod base < base) as Hm by (apply Z.mod_pos_bound; lia). assert (n = base * (n / base) + n mod base) as Hdiv by (apply Z.div_mod; lia).
  rewrite Nat2Z.inj_succ, Z.pow_succ_r in Hn by lia. assert (0 <= n / base) by (apply Z.div_pos; lia). assert (n / base < base ^ Z.of_nat fuel) by (apply Z.div_lt_upper_bound; lia).
  destruct (digit_char_facts (n mod base) ltac:(lia)) as (Hd & _ & _). destruct (Z.eqb_spec (n / base) 0) as [E|E].
  - cbn [number_in]. rewrite Hd. f_equal. lia.
  - destruct fuel as [|fuel]; [cbn in *; lia|]. rewrite IH by lia. cbn [number_in]. rewrite Hd. f_equal. lia.
Qed.

Lemma text_in_chars f fuel n acc : (forall d, 0 <= d < base -> f (digit_char d) = true) -> all_chars f acc = true -> all_chars f (text_in base fuel n acc) = true.
Proof.
  intros Hf. revert n acc. induction fuel as [|fuel IH]; intros n acc Ha; [done|]. cbn [text_in].
  assert (all_chars f (String (digit_char (n mod base)) acc) = true) as H by (cbn; rewrite Hf, Ha by (apply Z.mod_pos_bound; lia); done).
  destruct (n / base =? 0); [done|]. by apply IH.
Qed.

Lemma text_in_truthy fuel n acc : (0 < fuel)%nat \/ str_truthy acc = true -> str_truthy (text_in base fuel n acc) = true.
Proof. revert n acc. induction fuel as [|fuel IH]; intros n acc H; cbn [text_in]; [destruct H; [lia|done]|]. destruct (n / base =? 0); [done|]. apply IH. by right. Qed.

Lemma text_in_length fuel n acc : (String.length (text_in base fuel n acc) <= fuel + String.length acc)%nat.
Proof. revert n acc. induction fuel as [|fuel IH]; intros n acc; cbn [text_in]; [lia|]. destruct (n / base =? 0); [cbn; lia|]. etrans; [apply IH|cbn; lia]. Qed.

Lemma number_in_bound s acc : 0 <= acc -> all_chars (fun a => (0 <=? digit_value a) && (digit_value a <? base)) s = true ->
  0 <= number_in base s acc < (acc + 1) * base ^ Z.of_nat (String.length s).
Proof.
  revert acc. induction s as [|a s IH]; intros acc Ha; cbn [number_in all_chars String.length]; intros H; [cbn; lia|]. bool_to_prop.
  destruct (IH (acc * base + digit_value a) ltac:(nia) ltac:(done)) as [H2 H3]. split; [done|]. eapply Z.lt_le_trans; [exact H3|].
  rewrite Nat2Z.inj_succ, Z.pow_succ_r by lia. assert (0 < base ^ Z.of_nat (String.length s)) by (apply Z.pow_pos_nonneg; lia). nia.
Qed.
End text_in_facts.

Lemma octet_text_parse n : 0 <= n < 256 -> parse_octet (octet_text n) = Some n /\ all_chars is_digit (octet_text n) = true.
Proof.
  intros Hn. assert (forallb (fun n => match parse_octet (octet_text n) with Some m => m =? n | None => false end && all_chars is_digit (octet_text n)) (List.map Z.of_nat (seq 0 256)) = true) as H by (vm_compute; reflexivity).
  rewrite forallb_forall in H. specialize (H n). ospecialize (H _); [apply in_map_iff; exists (Z.to_nat n); rewrite in_seq; lia|].
  bool_to_prop. split; [|done]. destruct (parse_octet (octet_text n)); [|done]. f_equal. lia.
Qed.

Lemma is_digit_cases a : is_digit a = true -> exists d, 0 <= d < 10 /\ a = digit_char d.
Proof.
  intros Ha. exists (digit_value a). pose proof (every_char (fun a => negb (is_digit a) || (Ascii.eqb a (digit_char (digit_value a)) && (0 <=? digit_value a) && (digit_value a <? 10)))
    ltac:(vm_compute; reflexivity) a) as H. cbn beta in H. rewrite Ha in H. cbn [negb orb] in H. bool_to_prop. split; [lia|]. by apply Ascii.eqb_eq.
Qed.

(** The text of an octet is the only one that is read as it. *)
Lemma parse_octet_text s n : parse_octet s = Some n -> 0 <= n < 256 /\ octet_text n = s.
Proof.
  unfold parse_octet. intros H. case_match; [done|]. bool_to_prop. unfold digits_only in *. bool_to_prop.
  destruct ((3 <? String.length s)%nat) eqn:Hlen; [done|]. apply Nat.ltb_ge in Hlen.
  assert (0 <= number_in 10 s 0) as Hpos.
  { apply (number_in_bound 10 ltac:(lia)); [done|]. eapply all_chars_impl; [|done]. from_chars. }
  assert (exists ds, s = foldr (fun d s => String (digit_char d) s) "" ds /\ Forall (fun d => 0 <= d < 10) ds /\ length ds = String.length s) as (ds & -> & Hds & Hl).
  { clear -H1. induction s as [|a s IH]; [by exists []|]. cbn in H1. bool_to_prop. destruct IH as (ds & -> & ? & ?); [done|]. apply is_digit_cases in H as (d & ? & ->).
    exists (d :: ds). cbn. split_and!; [done|by constructor|lia]. }
  assert (forallb (fun ds => let s := foldr (fun d s => String (digit_char d) s) "" ds in (negb (bool_decide (s = "0")) && startswith s "0") || (String.eqb s "") || (255 <? number_in 10 s 0) || String.eqb (octet_text (number_in 10 s 0)) s)
     (let ds := List.map Z.of_nat (seq 0 10) in [[]] ++ List.map (fun a => [a]) ds ++ List.map (fun '(a, b) => [a; b]) (list_prod ds ds) ++ List.map (fun '(a, (b, c)) => [a; b; c]) (list_prod ds (list_prod ds ds))) = true) as Hall by (vm_compute; reflexivity).
  rewrite forallb_forall in Hall. specialize (Hall ds).
  assert (forall d, 0 <= d < 10 -> In d (List.map Z.of_nat (seq 0 10))) as Hin by (intros d Hd; apply in_map_iff; exists (Z.to_nat d); rewrite in_seq; lia).
  ospecialize (Hall _).
  { rewrite <- Hl in Hlen. cbv zeta. rewrite !in_app_iff, !in_map_iff. destruct ds as [|a [|b [|c [|]]]]; cbn in Hlen; rewrite ?Forall_cons in Hds; destruct_and?; [left; by left| | | |lia]; right.
    - left. exists a. split; [done|]. by apply Hin.
    - right. left. exists (a, b). split; [done|]. apply in_prod; by apply Hin.
    - right. right. exists (a, (b, c)). split; [done|]. repeat apply in_prod; by apply Hin. }
  cbv zeta in Hall. case_match; [done|]. case_match; [done|]. injection H as <-. cbn [orb] in Hall. split; [bool_to_prop; lia|].
  destruct (String.eqb_spec (foldr (fun d s => String (digit_char d) s) "" ds) "") as [E|_]; [by rewrite E in H0|]. cbn [orb] in Hall. by apply String.eqb_eq.
Qed.

(** ** IPv4 addresses *)

Lemma v4_text_concat n : v4_text n = String.concat "." [octet_text (n / 16777216); octet_text (n / 65536 mod 256); octet_text (n / 256 mod 256); octet_text (n mod 256)].
Proof. reflexivity. Qed.

Lemma parse_v4_text n : 0 <= n < 2 ^ 32 -> parse_v4 (v4_text n) = Some n.
Proof.
  intros Hn. rewrite v4_text_concat. unfold parse_v4.
  assert (0 <= n / 16777216 < 256) as B0 by (split; [apply Z.div_pos|apply Z.div_lt_upper_bound]; lia).
  pose proof (Z.mod_pos_bound (n / 65536) 256 eq_refl) as B1. pose proof (Z.mod_pos_bound (n / 256) 256 eq_refl) as B2. pose proof (Z.mod_pos_bound n 256 eq_refl) as B3.
  destruct (octet_text_parse _ B0) as [P0 D0], (octet_text_parse _ B1) as [P1 D1], (octet_text_parse _ B2) as [P2 D2], (octet_text_parse _ B3) as [P3 D3].
  rewrite (split_concat "."); [|done|repeat constructor; by eapply all_chars_no_char]. rewrite P0, P1, P2, P3. f_equal.
  pose proof (Z.div_mod n 256 ltac:(lia)). pose proof (Z.div_mod (n / 256) 256 ltac:(lia)). pose proof (Z.div_mod (n / 65536) 256 ltac:(lia)).
  assert (n / 256 / 256 = n / 65536) as E1 by (by rewrite Z.div_div). assert (n / 65536 / 256 = n / 16777216) as E2 by (by rewrite Z.div_div). lia.
Qed.

Lemma parse_v4_Some s n : parse_v4 s = Some n -> 0 <= n < 2 ^ 32 /\ v4_text n = s.
Proof.
  unfold parse_v4. pose proof (concat_split "." s "") as Hs. change ("" +:+ s) with s in Hs. destruct (py_split "." s "") as [|a [|b [|c [|d [|]]]]]; try done.
  destruct (parse_octet a) as [x|] eqn:Ea; [|done]. destruct (parse_octet b) as [y|] eqn:Eb; [|done]. destruct (parse_octet c) as [z|] eqn:Ec; [|done]. destruct (parse_octet d) as [w|] eqn:Ed; [|done].
  apply parse_octet_text in Ea as [? <-], Eb as [? <-], Ec as [? <-], Ed as [? <-]. intros [= <-]. split; [lia|]. rewrite <- Hs, v4_text_concat. 
  assert ((((x * 256 + y) * 256 + z) * 256 + w) / 16777216 = x) as -> by (symmetry; apply (Z.div_unique _ _ _ ((y * 256 + z) * 256 + w)); lia).
  assert ((((x * 256 + y) * 256 + z) * 256 + w) / 65536 = x * 256 + y) as -> by (symmetry; apply (Z.div_unique _ _ _ (z * 256 + w)); lia).
  assert ((((x * 256 + y) * 256 + z) * 256 + w) / 256 = (x * 256 + y) * 256 + z) as -> by (symmetry; apply (Z.div_unique _ _ _ w); lia).
  assert ((x * 256 + y) mod 256 = y) as -> by (symmetry; apply (Z.mod_unique _ _ x); lia).
  assert (((x * 256 + y) * 256 + z) mod 256 = z) as -> by (symmetry; apply (Z.mod_unique _ _ (x * 256 + y)); lia).
  by assert ((((x * 256 + y) * 256 + z) * 256 + w) mod 256 = w) as -> by (symmetry; apply (Z.mod_unique _ _ ((x * 256 + y) * 256 + z)); lia).
Qed.

Definition v4_char (a : ascii) : bool := is_digit a || is_dot a.
Lemma v4_text_chars n : 0 <= n < 2 ^ 32 -> all_chars v4_char (v4_text n) = true.
Proof.
  intros Hn. rewrite v4_text_concat. apply (all_chars_concat v4_char "."); [done|].
  assert (forall m, 0 <= m < 256 -> all_chars v4_char (octet_text m) = true) as H.
  { intros m Hm. destruct (octet_text_parse m Hm) as [_ D]. eapply all_chars_impl; [|exact D]. intros a Ha. unfold v4_char. by rewrite Ha. }
  repeat constructor; apply H; try (apply Z.mod_pos_bound; lia). split; [apply Z.div_pos|apply Z.div_lt_upper_bound]; lia.
Qed.

(** ** IPv6 addresses *)

Definition hextet_range (h : Z) : Prop := 0 <= h < 65536.

Lemma hextet_text_facts h : hextet_range h ->
  parse_hextet (hextet_text h) = Some h /\ str_truthy (hextet_text h) = true /\ all_chars (fun a => is_hexdigit a && bool_decide (ascii_lower a = a)) (hextet_text h) = true /\ (hextet_text h = "0" -> h = 0).
Proof.
  intros Hh. assert (number_in 16 (hextet_text h) 0 = h) as Hv by (apply (text_in_value 16); [lia..|exact Hh]).
  assert (all_chars (fun a => is_hexdigit a && bool_decide (ascii_lower a = a)) (hextet_text h) = true) as Hc.
  { apply text_in_chars; [lia| |done]. intros d Hd. destruct (digit_char_facts d) as (_ & -> & ?); [lia|]. by rewrite bool_decide_eq_true_2. }
  assert (str_truthy (hextet_text h) = true) as Ht by (apply text_in_truthy; left; lia). split_and!; [|done|done|by intros E; rewrite E in Hv].
  unfold parse_hextet. rewrite Ht. assert (all_chars is_hexdigit (hextet_text h) = true) as -> by (rewrite all_chars_and in Hc; by bool_to_prop).
  pose proof (text_in_length 16 4 h "") as Hl. fold (hextet_text h) in Hl. cbn [negb andb orb]. replace (4 <? String.length (hextet_text h))%nat with false by (symmetry; apply Nat.ltb_ge; exact Hl). by rewrite Hv.
Qed.

(** A run found by the scan consists of zeros. *)
Definition zeros (l : list string) (r : nat * nat) : Prop := (fst r + snd r <= length l)%nat /\ forall k, (fst r <= k < fst r + snd r)%nat -> l !! k = Some "0".

Lemma longest_run_zeros l pre s : zeros (pre ++ l) (best s) -> (snd (here s) = 0%nat \/ zeros (pre ++ l) (here s) /\ (fst (here s) + snd (here s))%nat = length pre) ->
  zeros (pre ++ l) (longest_run (length pre) l s).
Proof.
  revert pre s. induction l as [|h l IH]; intros pre s Hb Hh; [done|]. cbn [longest_run].
  assert (S (length pre) = length (pre ++ [h])) as -> by (rewrite length_app; cbn; lia). rewrite cons_middle, app_assoc in *. case_bool_decide as E.
  - assert (zeros ((pre ++ [h]) ++ l) (if (snd (here s) =? 0)%nat then length pre else fst (here s), S (snd (here s))) /\
      ((if (snd (here s) =? 0)%nat then length pre else fst (here s)) + S (snd (here s)))%nat = length (pre ++ [h])) as [Hz Hn].
    { rewrite <- app_assoc. rewrite length_app. cbn [length app]. unfold zeros in *. cbn [fst snd]. destruct (Nat.eqb_spec (snd (here s)) 0) as [E0|E0].
      - rewrite E0. split; [|lia]. rewrite length_app. cbn. split; [lia|]. intros k Hk. assert (k = length pre) as -> by lia. rewrite list_lookup_middle; by subst.
      - destruct Hh as [?|[Hz Hn]]; [done|]. split; [|lia]. rewrite length_app. cbn. split; [lia|]. intros k Hk. destruct (decide (k = length pre)) as [->|]; [rewrite list_lookup_middle; by subst|].
        rewrite <- app_assoc in Hz. apply Hz. lia. }
    apply IH; [|by right]. cbn [best]. by destruct (_ <? _)%nat.
  - apply IH; [done|by left].
Qed.

Lemma longest_run_spec l : zeros l (longest_run 0 l (mkScan (0, 0) (0, 0))%nat).
Proof. apply (longest_run_zeros l []); [|by left]. split; cbn; [lia|]. intros k Hk. lia. Qed.

Lemma join_hextets_8 a b c d e f g h : join_hextets (List.map Some [a; b; c; d; e; f; g; h]) =
  Some (((((((a * 65536 + b) * 65536 + c) * 65536 + d) * 65536 + e) * 65536 + f) * 65536 + g) * 65536 + h).
Proof. reflexivity. Qed.

(** A text that is read as a number, and is not empty. *)
Definition spells (s : string) (h : Z) : Prop := parse_hextet s = Some h /\ str_truthy s = true /\ (s = "0" -> h = 0).

(** Leaving out a run of zeros does not change the number. *)
Lemma compressed_parts s0 s1 s2 s3 s4 s5 s6 s7 h0 h1 h2 h3 h4 h5 h6 h7 :
  spells s0 h0 -> spells s1 h1 -> spells s2 h2 -> spells s3 h3 -> spells s4 h4 -> spells s5 h5 -> spells s6 h6 -> spells s7 h7 ->
  let l := [s0; s1; s2; s3; s4; s5; s6; s7] in let parts := compress_hextets l in
  parse_parts parts = join_hextets (List.map Some [h0; h1; h2; h3; h4; h5; h6; h7]) /\ (3 <= length parts)%nat /\ Forall (fun p => p = "" \/ In p l) parts.
Proof.
  intros (P0 & T0 & Z0) (P1 & T1 & Z1) (P2 & T2 & Z2) (P3 & T3 & Z3) (P4 & T4 & Z4) (P5 & T5 & Z5) (P6 & T6 & Z6) (P7 & T7 & Z7) l. unfold compress_hextets.
  pose proof (longest_run_spec l) as Hz. destruct (longest_run 0 _ _) as [st len]. destruct Hz as [Hlen Hz]. cbn [fst snd length l] in *.
  assert (Forall (fun p => p = "" \/ In p l) l) as HP by (apply Forall_forall; intros p Hp; right; by apply list_elem_of_In).
  destruct (1 <? len)%nat eqn:E1.
  - apply Nat.ltb_lt in E1. split; [|split].
    + pose proof (fun H => Z0 (inj Some _ _ (Hz 0%nat H))) as Q0. pose proof (fun H => Z1 (inj Some _ _ (Hz 1%nat H))) as Q1. pose proof (fun H => Z2 (inj Some _ _ (Hz 2%nat H))) as Q2. pose proof (fun H => Z3 (inj Some _ _ (Hz 3%nat H))) as Q3.
      pose proof (fun H => Z4 (inj Some _ _ (Hz 4%nat H))) as Q4. pose proof (fun H => Z5 (inj Some _ _ (Hz 5%nat H))) as Q5. pose proof (fun H => Z6 (inj Some _ _ (Hz 6%nat H))) as Q6. pose proof (fun H => Z7 (inj Some _ _ (Hz 7%nat H))) as Q7.
      clear Hz Z0 Z1 Z2 Z3 Z4 Z5 Z6 Z7 HP.
      destruct st as [|[|[|[|[|[|[|]]]]]]]; [..|lia]; destruct len as [|[|[|[|[|[|[|[|[|]]]]]]]]]; try lia;
      cbn [app firstn skipn Nat.eqb Nat.add l]; unfold parse_parts; cbn [List.hd List.last List.tl removelast length Nat.ltb Nat.leb app empty_at];
      rewrite ?T0, ?T1, ?T2, ?T3, ?T4, ?T5, ?T6, ?T7; change (str_truthy "") with false; cbn; rewrite ?P0, ?P1, ?P2, ?P3, ?P4, ?P5, ?P6, ?P7;
      try (rewrite Q0 by lia); try (rewrite Q1 by lia); try (rewrite Q2 by lia); try (rewrite Q3 by lia); try (rewrite Q4 by lia); try (rewrite Q5 by lia); try (rewrite Q6 by lia); try (rewrite Q7 by lia); reflexivity.
    + rewrite !length_app, length_take, length_drop. cbn [length l]. destruct (Nat.eqb_spec st 0), (Nat.eqb_spec (st + len) 8); cbn; lia.
    + assert (Forall (fun p => p = "" \/ In p l) [""]) as H1 by (constructor; [by left|done]). rewrite !Forall_app. split_and!; [by destruct (_ =? _)%nat|by apply Forall_take|done|by apply Forall_drop|by destruct (_ =? _)%nat].
  - split; [|split; [cbn; lia|done]]. unfold parse_parts. cbn [List.hd List.last List.tl removelast length Nat.ltb Nat.leb app empty_at l].
    rewrite T0, T1, T2, T3, T4, T5, T6, T7. cbn. by rewrite P0, P1, P2, P3, P4, P5, P6, P7.
Qed.

Lemma hextet_spells h : hextet_range h -> spells (hextet_text h) h.
Proof. intros H. destruct (hextet_text_facts h H) as (? & ? & _ & ?). by split_and!. Qed.

Lemma hextets_value n : 0 <= n < 2 ^ 128 -> join_hextets (List.map Some (hextets n)) = Some n.
Proof.
  intros Hn. unfold hextets. etransitivity; [apply join_hextets_8|]. f_equal.
  change (2 ^ (16 * 0)) with 1. rewrite Z.div_1_r.
  assert (forall i j, 0 <= i -> j = i + 1 -> n / 2 ^ (16 * i) = 65536 * (n / 2 ^ (16 * j)) + (n / 2 ^ (16 * i)) mod 65536) as Hdm.
  { intros i j Hi ->. rewrite (Z.div_mod (n / 2 ^ (16 * i)) 65536) at 1 by lia. do 2 f_equal. rewrite Z.div_div by lia. f_equal. change 65536 with (2 ^ 16). rewrite <- Z.pow_add_r by lia. f_equal. lia. }
  assert (n / 2 ^ (16 * 8) = 0) as E8 by (apply Z.div_small; exact Hn).
  pose proof (Hdm 0 1 ltac:(lia) eq_refl) as E0. pose proof (Hdm 1 2 ltac:(lia) eq_refl) as E1. pose proof (Hdm 2 3 ltac:(lia) eq_refl) as E2. pose proof (Hdm 3 4 ltac:(lia) eq_refl) as E3. pose proof (Hdm 4 5 ltac:(lia) eq_refl) as E4. pose proof (Hdm 5 6 ltac:(lia) eq_refl) as E5. pose proof (Hdm 6 7 ltac:(lia) eq_refl) as E6. pose proof (Hdm 7 8 ltac:(lia) eq_refl) as E7.
  change (2 ^ (16 * 0)) with 1 in E0. rewrite Z.div_1_r in E0. clear Hdm Hn. revert E0 E1 E2 E3 E4 E5 E6 E7 E8.
  generalize (n / 2 ^ (16 * 1)) (n / 2 ^ (16 * 2)) (n / 2 ^ (16 * 3)) (n / 2 ^ (16 * 4)) (n / 2 ^ (16 * 5)) (n / 2 ^ (16 * 6)) (n / 2 ^ (16 * 7)) (n / 2 ^ (16 * 8)).
  intros x1 x2 x3 x4 x5 x6 x7 x8. generalize (n mod 65536) (x1 mod 65536) (x2 mod 65536) (x3 mod 65536) (x4 mod 65536) (x5 mod 65536) (x6 mod 65536) (x7 mod 65536). intros m0 m1 m2 m3 m4 m5 m6 m7. lia.
Qed.

Lemma hextets_range n : Forall hextet_range (hextets n).
Proof. apply Forall_forall. intros h Hh. apply list_elem_of_In, in_map_iff in Hh as (i & <- & _). by apply Z.mod_pos_bound. Qed.

Definition v6_char (a : ascii) : bool := is_hexdigit a && bool_decide (ascii_lower a = a) || bool_decide (a = ":"%char) || is_dot a.

(** The parts a number is written in. *)
Lemma written_parts n : 0 <= n < 2 ^ 128 -> exists parts, v6_text n = String.concat ":" parts /\ py_split ":" (v6_text n) "" = parts /\ parse_parts parts = Some n /\ (3 <= length parts)%nat /\
  Forall (fun p => p = "" \/ all_chars (fun a => is_hexdigit a && bool_decide (ascii_lower a = a)) p = true) parts.
Proof.
  intros Hn. pose proof (hextets_range n) as Hr. pose proof (hextets_value n Hn) as Hv. unfold v6_text. eexists. split; [reflexivity|].
  destruct (hextets n) as [|h0 [|h1 [|h2 [|h3 [|h4 [|h5 [|h6 [|h7 [|]]]]]]]]] eqn:E; try done. rewrite !Forall_cons in Hr. destruct Hr as (R0 & R1 & R2 & R3 & R4 & R5 & R6 & R7 & _).
  destruct (compressed_parts _ _ _ _ _ _ _ _ _ _ _ _ _ _ _ _ (hextet_spells _ R0) (hextet_spells _ R1) (hextet_spells _ R2) (hextet_spells _ R3) (hextet_spells _ R4) (hextet_spells _ R5) (hextet_spells _ R6) (hextet_spells _ R7)) as (H1 & H2 & H3).
  cbn [List.map]. remember (compress_hextets _) as parts eqn:Ep. clear Ep.
  assert (Forall (fun p => p = "" \/ all_chars (fun a => is_hexdigit a && bool_decide (ascii_lower a = a)) p = true) parts) as Hp.
  { eapply Forall_impl; [exact H3|]. intros p [->|Hp]; [by left|right]. cbn [In] in Hp. destruct Hp as [<-|[<-|[<-|[<-|[<-|[<-|[<-|[<-|[]]]]]]]]]; by apply hextet_text_facts. }
  split_and!; [|by rewrite H1|done|done]. apply (split_concat ":"); [by destruct parts; cbn in H2; [lia|]|].
  eapply Forall_impl; [exact Hp|]. intros p [->|Hc]; [done|]. by eapply all_chars_no_char.
Qed.

Lemma last_Forall {A} (P : A -> Prop) l d : P d -> Forall P l -> P (List.last l d).
Proof. intros Hd. induction 1 as [|x l Hx Hl IH]; cbn; [done|]. by destruct l. Qed.

Lemma parse_v6_text n : 0 <= n < 2 ^ 128 -> parse_v6 (v6_text n) = Some n.
Proof.
  intros Hn. destruct (written_parts n Hn) as (parts & _ & Hs & Hp & Hl & Hc). unfold parse_v6. rewrite Hs.
  replace (length parts <? 3)%nat with false by (symmetry; apply Nat.ltb_ge; lia).
  assert (has_char "." (List.last parts "") = false) as ->; [|done]. apply (last_Forall (fun p => has_char "." p = false)); [done|]. eapply Forall_impl; [exact Hc|]. intros p [->|H]; [done|]. by eapply all_chars_no_char.
Qed.

Lemma v6_text_chars n : 0 <= n < 2 ^ 128 -> all_chars v6_char (v6_text n) = true /\ has_char ":" (v6_text n) = true.
Proof.
  intros Hn. destruct (written_parts n Hn) as (parts & -> & _ & _ & Hl & Hc). split.
  - apply all_chars_concat; [done|]. eapply Forall_impl; [exact Hc|]. intros p [->|H]; [done|]. eapply all_chars_impl; [|exact H]. intros a Ha. unfold v6_char. by rewrite Ha.
  - destruct parts as [|p [|q parts]]; cbn in Hl; try lia. change (String.concat ":" (p :: q :: parts)) with (p +:+ String ":" (String.concat ":" (q :: parts))). rewrite has_char_app. cbn. by rewrite bool_decide_eq_true_2, orb_true_r.
Qed.

(** An IPv4-mapped address in its dotted form. *)
Lemma parse_v6_mapped n : 0 <= n -> n / 2 ^ 32 = 65535 -> parse_v6 (v6_text (n / 2 ^ 32) +:+ ":" +:+ v4_text (n mod 2 ^ 32)) = Some n.
Proof.
  intros Hn Hm. rewrite Hm. pose proof (Z.mod_pos_bound n (2 ^ 32) eq_refl) as Hb. pose proof (Z.div_mod n (2 ^ 32) ltac:(lia)) as Hd. rewrite Hm in Hd. remember (n mod 2 ^ 32) as m eqn:Em. clear Em.
  change (v6_text 65535 +:+ ":" +:+ v4_text m) with (String.concat ":" [""; ""; "ffff"; v4_text m]).
  pose proof (v4_text_chars m Hb) as Hc. unfold parse_v6. rewrite (split_concat ":"); [|done|]. 2:{ repeat constructor. eapply all_chars_no_char; [exact Hc|done]. }
  cbn [length Nat.ltb Nat.leb List.last]. assert (has_char "." (v4_text m) = true) as ->. { unfold v4_text. rewrite has_char_app, (has_char_app "." "."). change (has_char "." ".") with true. by rewrite orb_true_r. }
  rewrite parse_v4_text by done. cbn [removelast app].
  assert (hextet_range (m / 65536)) as R1 by (split; [apply Z.div_pos; lia|apply Z.div_lt_upper_bound; lia]). assert (hextet_range (m mod 65536)) as R2 by (by apply Z.mod_pos_bound).
  destruct (hextet_spells _ R1) as (P1 & T1 & _), (hextet_spells _ R2) as (P2 & T2 & _). pose proof (Z.div_mod m 65536 ltac:(lia)) as Hmm.
  remember (hextet_text (m / 65536)) as s1. remember (hextet_text (m mod 65536)) as s2. unfold parse_parts. cbn [List.hd List.last List.tl removelast length Nat.ltb Nat.leb app empty_at].
  change (str_truthy "") with false. change (str_truthy "ffff") with true. rewrite T1, T2. cbn [negb andb Nat.eqb Nat.sub Nat.add Nat.ltb Nat.leb firstn skipn List.map repeat app].
  change (parse_hextet "ffff") with (Some 65535). rewrite P1, P2. cbn [join_hextets foldl]. f_equal. lia.
Qed.

(** ** Values are in range *)

Lemma parse_hextet_range s h : parse_hextet s = Some h -> hextet_range h.
Proof.
  unfold parse_hextet. case_match eqn:E; [done|]. intros [= <-]. bool_to_prop. bool_to_prop. apply Nat.ltb_ge in H0.
  destruct (number_in_bound 16 ltac:(lia) s 0 ltac:(lia)) as [H2 H3].
  { eapply all_chars_impl; [|exact H1]. from_chars. }
  split; [done|]. eapply Z.lt_le_trans; [exact H3|]. change 65536 with (1 * 16 ^ 4). apply Z.mul_le_mono_nonneg_l; [lia|]. apply Z.pow_le_mono_r; lia.
Qed.

Lemma join_range l n : Forall (fun o => forall h, o = Some h -> hextet_range h) l -> join_hextets l = Some n -> 0 <= n < 65536 ^ Z.of_nat (length l).
Proof.
  unfold join_hextets. revert n. induction l as [|o l IH] using rev_ind; intros n Hf Hn; [injection Hn as <-; cbn; lia|].
  rewrite foldl_app in Hn. cbn in Hn. apply Forall_app in Hf as [Hf Ho]. rewrite Forall_singleton in Ho. destruct (foldl _ _ l) as [a|]; [|done]. destruct o as [h|]; [|done]. injection Hn as <-.
  destruct (IH a Hf eq_refl). destruct (Ho h eq_refl). rewrite length_app. cbn [length]. rewrite Nat2Z.inj_add, Z.pow_add_r by lia. change (65536 ^ Z.of_nat 1) with 65536. nia.
Qed.

Lemma parsed_hextets l : Forall (fun o => forall h, o = Some h -> hextet_range h) (List.map parse_hextet l).
Proof. apply Forall_forall. intros o Ho h ->. apply list_elem_of_In, in_map_iff in Ho as (s & Hs & _). by eapply parse_hextet_range. Qed.

Lemma parse_parts_range parts n : parse_parts parts = Some n -> 0 <= n < 2 ^ 128.
Proof.
  assert (forall l, Forall (fun o => forall h, o = Some h -> hextet_range h) l -> (length l <= 8)%nat -> join_hextets l = Some n -> 0 <= n < 2 ^ 128) as Hj.
  { intros l Hl Hle Hn. apply join_range in Hn; [|done]. split; [lia|]. eapply Z.lt_le_trans; [apply Hn|]. change (2 ^ 128) with (65536 ^ 8). apply Z.pow_le_mono_r; lia. }
  unfold parse_parts. case_match; [done|]. case_match; [|case_match; [|done]].
  - case_match eqn:E8; [|done]. bool_to_prop. apply Nat.eqb_eq in H1. apply Hj; [apply parsed_hextets|rewrite length_map; lia].
  - repeat match goal with |- (if ?b then None else _) = _ -> _ => destruct b eqn:?; [done|] end. match goal with H : (8 <? ?x + 1)%nat = false |- _ => apply Nat.ltb_ge in H end. apply Hj.
    + rewrite !Forall_app. split_and!; [apply parsed_hextets| |apply parsed_hextets]. apply Forall_forall. intros o Ho. apply list_elem_of_In, repeat_spec in Ho as ->. intros h [= <-]. done.
    + rewrite !length_app, !length_map, repeat_length, length_take, length_drop. lia.
Qed.

Lemma parse_v6_range s n : parse_v6 s = Some n -> 0 <= n < 2 ^ 128.
Proof. unfold parse_v6. intros H. repeat (case_match; try done); by eapply parse_parts_range. Qed.

(** ** Addresses and their texts *)

Definition address_ok (a : address) : Prop :=
  match a with
  | V4 n => 0 <= n < 2 ^ 32
  | V6 n scope => 0 <= n < 2 ^ 128 /\ match scope with Some s => str_truthy s = true /\ has_char "%" s = false /\ has_char "/" s = false | None => True end
  end.

Lemma ip_address_ok s a : ip_address s = Some a -> address_ok a.
Proof.
  unfold ip_address. destruct (parse_v4 s) as [n|] eqn:E4; [intros [= <-]; apply (parse_v4_Some s n E4)|]. unfold parse_scoped.
  destruct (has_char "/" s) eqn:Hs; [done|]. destruct (partition "%" s) as [[addr found] scope] eqn:Ep. apply partition_spec in Ep as [_ Hp].
  destruct (found && _) eqn:Ef; [done|]. destruct (parse_v6 addr) as [n|] eqn:E6; [|done]. cbn. intros [= <-]. split; [by eapply parse_v6_range|].
  destruct found; [|done]. cbn in Ef. apply orb_false_elim in Ef as [Hn Hc]. split_and!; [by apply negb_false_iff|done|]. subst s. rewrite has_char_app in Hs. apply orb_false_elim in Hs as [_ Hs]. cbn in Hs. apply (orb_false_elim _ _ Hs).
Qed.

Section address_texts.
Variable dotted : bool.

(** The text before the scope. *)
Definition v6_body (n : Z) : string := if dotted && (n / 2 ^ 32 =? 65535) then v6_text (n / 2 ^ 32) +:+ ":" +:+ v4_text (n mod 2 ^ 32) else v6_text n.

Lemma v6_body_facts n : 0 <= n < 2 ^ 128 -> parse_v6 (v6_body n) = Some n /\ all_chars v6_char (v6_body n) = true /\ has_char ":" (v6_body n) = true.
Proof.
  intros Hn. unfold v6_body. destruct (dotted && _) eqn:E.
  - bool_to_prop. split_and!; [apply parse_v6_mapped; [lia|done]| |].
    + rewrite !all_chars_app. assert (0 <= n / 2 ^ 32 < 2 ^ 128) as Hd by lia. rewrite (proj1 (v6_text_chars _ Hd)). change (all_chars v6_char ":") with true. cbn [andb].
      eapply all_chars_impl; [|apply v4_text_chars; by apply Z.mod_pos_bound]. from_chars.
    + rewrite has_char_app, (has_char_app ":" ":"). change (has_char ":" ":") with true. by rewrite orb_true_r.
  - split; [by apply parse_v6_text|by apply v6_text_chars].
Qed.

Lemma v6_body_no c n : 0 <= n < 2 ^ 128 -> v6_char c = false -> has_char c (v6_body n) = false.
Proof. intros Hn Hc. eapply all_chars_no_char; [by apply v6_body_facts|done]. Qed.

Lemma v4_no_colon s : has_char ":" s = true -> parse_v4 s = None.
Proof.
  intros Hs. destruct (parse_v4 s) as [n|] eqn:E; [|done]. apply parse_v4_Some in E as [Hn <-]. by rewrite (all_chars_no_char v4_char) in Hs by (by apply v4_text_chars || done).
Qed.

(** The text of an address is read as that address. *)
Lemma ip_address_text a : address_ok a -> ip_address (address_text dotted a) = Some a.
Proof.
  destruct a as [n|n scope]; cbn; [intros Hn; unfold ip_address; by rewrite parse_v4_text|]. intros [Hn Hs]. fold (v6_body n). destruct (v6_body_facts n Hn) as (Hp & _ & Hc).
  unfold ip_address. rewrite v4_no_colon by (by rewrite has_char_app, Hc). unfold parse_scoped. rewrite has_char_app, (v6_body_no "/") by done. destruct scope as [s|].
  - destruct Hs as (Ht & H1 & H2). change ("%" +:+ s) with (String "%" s). cbn [has_char orb]. rewrite bool_decide_eq_false_2, H2 by done. cbn [orb]. rewrite partition_at by (by apply v6_body_no). rewrite Ht, H1. cbn. by rewrite Hp.
  - rewrite append_nil_r. cbn [has_char orb]. rewrite partition_none by (by apply v6_body_no). cbn. by rewrite Hp.
Qed.
End address_texts.

(** ** Names *)

Definition name_char (a : ascii) : bool := in_range "a" "z" a || is_digit a || bool_decide (a = "-"%char) || is_dot a.
Definition label_char (a : ascii) : bool := in_range "a" "z" a || is_digit a || bool_decide (a = "-"%char).

(** A pattern all of whose character classes lie in [P] matches only such text. *)
Fixpoint only (P : ascii -> bool) (r : re) : bool :=
  match r with
  | Eps | At _ => true
  | Chr f => forallb (fun a => implb (f a) (P a)) (List.map ascii_of_nat (seq 0 256))
  | Cat a b | Or a b => only P a && only P b
  | Rep _ _ _ a | Group _ a => only P a
  end.

Lemma Match_only P r s s' : Match r s s' -> only P r = true -> exists w, snd s = w ++ snd s' /\ forallb P w = true.
Proof.
  intros HM. induction HM using Match_mut with (P0 := fun r n s s' _ => only P r = true -> exists w, snd s = w ++ snd s' /\ forallb P w = true); cbn [only snd]; intros Ho; bool_to_prop; try (by exists []); eauto.
  - exists [a]. split; [done|]. cbn. pose proof (every_char _ Ho a) as H. cbn beta in H. rewrite e in H. cbn in H. by rewrite H.
  - destruct (IHHM1 ltac:(done)) as (w1 & -> & H1), (IHHM2 ltac:(done)) as (w2 & -> & H2). exists (w1 ++ w2). by rewrite app_assoc, forallb_app, H1, H2.
  - destruct (IHHM ltac:(done)) as (w1 & -> & H1), (IHHM0 ltac:(done)) as (w2 & -> & H2). exists (w1 ++ w2). by rewrite app_assoc, forallb_app, H1, H2.
Qed.

Lemma all_chars_list f s : all_chars f s = forallb f (String.list_ascii_of_string s).
Proof. induction s as [|a s IH]; cbn; [done|]. by rewrite IH. Qed.

Lemma label_chars s : is_none (fullmatch _HOST_LABEL s) = false -> all_chars label_char s = true /\ str_truthy s = true.
Proof.
  intros H. split.
  - assert (is_some (fullmatch _HOST_LABEL s) = true) as Hs by (unfold is_some; by rewrite H). apply fullmatch_spec in Hs as (s' & HM & Hn).
    destruct (Match_only label_char _ _ _ HM ltac:(vm_compute; reflexivity)) as (w & Hw & Hp). rewrite Hn, app_nil_r in Hw. rewrite all_chars_list. cbn in Hw. by rewrite Hw.
  - destruct s; [by vm_compute in H|done].
Qed.

(** A normal name is in its normal form, and consists of name characters. *)
Lemma normalize_dns_name_Ok v context h : _normalize_dns_name v context = Ok h ->
  h = rstrip_with is_dot (py_lower v) /\ str_truthy h = true /\ all_chars name_char h = true /\ startswith h "." = false /\ forall context', _normalize_dns_name h context' = Ok h.
Proof.
  unfold _normalize_dns_name. intros H. apply raise_bind in H as [H1 H]. apply raise_bind in H as [H2 H]. apply raise_bind in H as [H3 H]. injection H as H. set (n := rstrip_with is_dot (py_lower v)) in *. subst h.
  apply orb_false_elim in H1 as [Ht Hl]. apply negb_false_iff in Ht, H2.
  assert (Forall (fun p => all_chars label_char p = true /\ str_truthy p = true) (py_split "." n "")) as HL.
  { apply Forall_forall. intros p Hp. apply label_chars. destruct (is_none _) eqn:E; [|done]. rewrite <- H3. symmetry. apply existsb_exists. exists p. split; [by apply list_elem_of_In|done]. }
  split_and!; [done|done| | |].
  - pose proof (concat_split "." n "") as Hc. change ("" +:+ n) with n in Hc. rewrite <- Hc. apply all_chars_concat; [done|]. eapply Forall_impl; [exact HL|]. intros p [Hp _]. eapply all_chars_impl; [|exact Hp]. intros a Ha. unfold name_char, label_char in *. by rewrite Ha.
  - destruct n as [|a n]; [done|]. unfold startswith. cbn [String.prefix]. destruct (ascii_dec "." a) as [<-|]; [|done]. exfalso. cbn [py_split] in HL. rewrite bool_decide_eq_true_2 in HL by done. apply Forall_cons in HL as [[_ H] _]. done.
  - intros context'. assert (rstrip_with is_dot (py_lower n) = n) as ->. { subst n. by rewrite lower_rstrip, rstrip_with_idemp, py_lower_idemp. } by rewrite Ht, Hl, H2, H3.
Qed.

(** ** Splitting an origin *)

(** The characters of a network location; of a host in it. *)
Definition netloc_char (a : ascii) : bool := negb (netloc_end a) && negb (unsafe_byte a).
Definition host_char (a : ascii) : bool := netloc_char a && negb (bool_decide (a = "@"%char)) && negb (bool_decide (a = "]"%char)).

Definition http_scheme (s : string) : Prop := s = "http" \/ s = "https".

Definition brackets_ok (s : string) : bool := negb (xorb (has_char "[" s) (has_char "]" s) || (has_char "[" s && negb (check_bracketed_netloc s))).

(** An absolute URL with nothing, or a path, after its network location. *)
Lemma urlsplit_http sch n rest : http_scheme sch -> all_chars netloc_char n = true -> rest = "" \/ startswith rest "/" = true -> brackets_ok n = true ->
  exists path query fragment, urlsplit (sch +:+ "://" +:+ n +:+ rest) = Some (mkSplit sch n path query fragment) /\ (rest = "" -> path = "" /\ query = "" /\ fragment = "").
Proof.
  intros Hs Hn Hr Hb. unfold netloc_char in Hn. rewrite all_chars_and in Hn. apply andb_prop in Hn as [Hend Hsafe].
  set (f := fun a => negb (unsafe_byte a)).
  assert (filter_chars f (lstrip_with c0_or_space (sch +:+ "://" +:+ n +:+ rest)) = sch +:+ "://" +:+ (n +:+ filter_chars f rest)) as E1.
  { transitivity (sch +:+ "://" +:+ filter_chars f (n +:+ rest)); [by destruct Hs as [->| ->]|]. by rewrite filter_chars_app, (filter_chars_all f n). }
  assert (partition ":" (sch +:+ "://" +:+ (n +:+ filter_chars f rest)) = (sch, true, "//" +:+ (n +:+ filter_chars f rest))) as E2 by (by destruct Hs as [->| ->]).
  assert (break_at netloc_end (n +:+ filter_chars f rest) = (n, filter_chars f rest)) as E3.
  { apply break_at_app; [done|]. destruct Hr as [->|Hr]; [by left|right]. unfold startswith in Hr. destruct rest as [|a rest]; cbn [String.prefix] in Hr; [done|]. destruct (ascii_dec "/" a) as [<-|]; [|done]. by exists "/"%char, (filter_chars f rest). }
  unfold urlsplit. fold f. rewrite E1, E2.
  assert ((true && match sch with "" => false | String a _ => is_alpha a end && all_chars scheme_char sch) = true) as -> by (by destruct Hs as [->| ->]).
  assert (py_lower sch = sch) as -> by (by destruct Hs as [->| ->]). cbv iota beta.
  change (startswith ("//" +:+ (n +:+ filter_chars f rest)) "//") with (startswith (n +:+ filter_chars f rest) "").
  assert (startswith (n +:+ filter_chars f rest) "" = true) as -> by apply (prefix_app "" (n +:+ filter_chars f rest)).
  change (drop_chars 2 ("//" +:+ (n +:+ filter_chars f rest))) with (n +:+ filter_chars f rest). rewrite E3. unfold brackets_ok in Hb. apply negb_true_iff in Hb. rewrite Hb.
  destruct (partition "#" (filter_chars f rest)) as [[u b] fr] eqn:Ep. destruct (partition "?" u) as [[pa b'] qu] eqn:Eq. exists pa, qu, fr. split; [done|].
  intros ->. cbn in Ep. injection Ep as <- <- <-. cbn in Eq. by injection Eq as <- <- <-.
Qed.

Lemma urlsplit_netloc u r : urlsplit u = Some r -> all_chars netloc_char (netloc r) = true /\ brackets_ok (netloc r) = true.
Proof.
  unfold urlsplit. set (f := fun a => negb (unsafe_byte a)). pose proof (filter_chars_true f (lstrip_with c0_or_space u)) as Hf. remember (filter_chars f _) as url eqn:Eu. clear Eu.
  destruct (partition ":" url) as [[h b] t] eqn:Ep. apply partition_spec in Ep as [_ Ep].
  set (c := b && _ && _). assert (exists sch u2, (if c then (py_lower h, t) else ("", url)) = (sch, u2) /\ all_chars f u2 = true) as (sch & u2 & -> & Hu2).
  { destruct c eqn:Ec; [|by eexists _, _]. subst c. destruct b; [|done]. eexists _, _. split; [done|]. subst url. rewrite all_chars_app in Hf. apply andb_prop in Hf as [_ Hf]. cbn in Hf. apply (andb_prop _ _ Hf). }
  assert (exists n u3, (if startswith u2 "//" then break_at netloc_end (drop_chars 2 u2) else ("", u2)) = (n, u3) /\ all_chars netloc_char n = true) as (n & u3 & -> & Hn).
  { destruct (startswith u2 "//") eqn:E2; [|by eexists _, _]. destruct (break_at netloc_end (drop_chars 2 u2)) as [n u3] eqn:E3. eexists _, _. split; [done|]. apply break_at_spec in E3 as [E3 Hn].
    pose proof (removeprefix_prefix _ _ E2) as Hr. unfold removeprefix in Hr. rewrite E2 in Hr. cbn [String.length] in Hr. rewrite E3 in Hr. rewrite <- Hr, !all_chars_app in Hu2. unfold netloc_char. rewrite all_chars_and, Hn.
    apply andb_prop in Hu2 as [_ Hu2]. apply (andb_prop _ _ Hu2). }
  destruct (xorb _ _ || _) eqn:Eb; [done|]. destruct (partition "#" u3) as [[? ?] ?]. destruct (partition "?" s) as [[? ?] ?]. intros [= <-]. cbn. split; [done|]. unfold brackets_ok. by rewrite Eb.
Qed.

Lemma after_at_none s : has_char "@" s = false -> after_at s = s.
Proof. intros H. unfold after_at. by rewrite (proj2 (rsplit1_None _ _) H). Qed.

Lemma hostname_chars n h : all_chars netloc_char n = true -> brackets_ok n = true -> has_char "@" n = false -> hostname n = Some h -> all_chars host_char h = true.
Proof.
  intros Hn Hb Hat. assert (all_chars (fun a => netloc_char a && negb (bool_decide (a = "@"%char))) n = true) as H1 by (rewrite all_chars_and, Hn; cbn; by apply no_char_all).
  assert (forall s, all_chars (fun a => netloc_char a && negb (bool_decide (a = "@"%char))) s = true -> has_char "]" s = false -> all_chars host_char s = true) as Hh.
  { intros s Hs Hc. unfold host_char. rewrite all_chars_and, Hs. by apply no_char_all. }
  unfold hostname, hostinfo. rewrite after_at_none by done.
  assert (all_chars host_char (fst (let '(_, found, bracketed) := partition "[" n in if found then let '(host, _, rest) := partition "]" bracketed in let '(_, _, port) := partition ":" rest in (host, port) else let '(host, _, port) := partition ":" n in (host, port))) = true) as Hc.
  { destruct (partition "[" n) as [[pre b] t] eqn:Ep. pose proof (partition_spec _ _ _ _ _ Ep) as [Hnone Hp]. destruct b.
    - destruct (partition "]" t) as [[ho b] t2] eqn:E2. apply partition_spec in E2 as [Hclose Ht]. destruct (partition ":" t2) as [[? ?] ?]. cbn. apply Hh; [|done]. subst n. rewrite all_chars_app in H1. apply andb_prop in H1 as [_ H1]. cbn in H1. apply andb_prop in H1 as [_ H1].
      destruct b; [|destruct Ht as [-> _]; done]. subst t. rewrite all_chars_app in H1. apply (andb_prop _ _ H1).
    - destruct Hp as [Hp _]. subst pre. unfold brackets_ok in Hb. rewrite Hnone in Hb. destruct (has_char "]" n) eqn:Hcl; [done|]. destruct (partition ":" n) as [[ho b] t2] eqn:E2. apply partition_spec in E2 as [_ Ht]. cbn. specialize (Hh n H1 Hcl).
      destruct b; [|destruct Ht as [<- _]; done]. subst n. rewrite all_chars_app in Hh. apply (andb_prop _ _ Hh). }
  destruct (let '(_, found, bracketed) := partition "[" n in _) as [ho po]. cbn [fst] in Hc. destruct (str_truthy ho); [|done].
  destruct (partition "%" ho) as [[name b] zone] eqn:E3. apply partition_spec in E3 as [_ E3]. intros [= <-]. rewrite !all_chars_app.
  assert (forall s, all_chars host_char s = true -> all_chars host_char (py_lower s) = true) as Hlow.
  { intros s. apply all_chars_lower. from_chars. }
  destruct b; [|destruct E3 as [<- ->]; by rewrite Hlow]. subst ho. rewrite all_chars_app in Hc. apply andb_prop in Hc as [Hc1 Hc2]. cbn [all_chars] in Hc2. rewrite Hlow by done. apply andb_prop in Hc2 as [_ ->]. done.
Qed.

(** ** Reading an origin back *)

Lemma port_text_facts p : 1 <= p <= 65535 -> number_in 10 (port_text p) 0 = p /\ str_truthy (port_text p) = true /\ all_chars is_digit (port_text p) = true.
Proof.
  intros Hp. split_and!; [apply (text_in_value 10); lia|apply text_in_truthy; left; lia|].
  apply text_in_chars; [lia| |done]. apply digit_char_digit.
Qed.

Section reading.
Variable dotted : bool.

(** What an accepted host text is written as between the scheme and the port. *)
Definition rendered (h : string) : string := if has_char ":" h then "[" +:+ h +:+ "]" else h.

(** A host that a reader finds again in its rendered form. *)
Definition readable (h : string) : Prop := forall p, 1 <= p <= 65535 -> let n := rendered h +:+ ":" +:+ port_text p in
  all_chars netloc_char n = true /\ has_char "@" n = false /\ brackets_ok n = true /\ hostname n = Some h /\ port_of n = Some (Some p).

Lemma parse_rendered sch h p : http_scheme sch -> 1 <= p <= 65535 -> readable h ->
  parse_endpoint dotted (origin (mkEndpoint sch h p)) = let? nh := normalized_host dotted h in Ok (mkEndpoint sch nh p).
Proof.
  intros Hs Hp Hr. destruct (Hr p Hp) as (Hn & Hat & Hb & Hh & Hport). unfold origin. cbn [host ep_scheme port]. fold (rendered h).
  set (n := rendered h +:+ ":" +:+ port_text p) in *. destruct (port_text_facts p Hp) as (_ & Ht & Hd).
  destruct (urlsplit_http sch n "" Hs Hn (or_introl eq_refl) Hb) as (pa & qu & fr & Hu & Hrest). destruct (Hrest eq_refl) as (-> & -> & ->). rewrite append_nil_r in Hu.
  assert (py_strip (sch +:+ "://" +:+ n) = sch +:+ "://" +:+ n) as Hstrip.
  { unfold py_strip. assert (lstrip (sch +:+ "://" +:+ n) = sch +:+ "://" +:+ n) as -> by (by destruct Hs as [->| ->]).
    replace (sch +:+ "://" +:+ n) with ((sch +:+ "://" +:+ rendered h +:+ ":") +:+ port_text p) by (unfold n; by rewrite !append_assoc).
    apply rstrip_with_keep; [done|]. eapply all_chars_impl; [|exact Hd]. from_chars. }
  assert (str_truthy (sch +:+ "://" +:+ n) = true) as Hne by (by destruct Hs as [->| ->]).
  unfold parse_endpoint. rewrite Hstrip, Hne, bool_decide_eq_true_2 by done. cbn [negb orb raise_if rbind].
  rewrite contains_text_app, Hu. cbn [netloc scheme path query fragment]. rewrite Hport, Hh.
  assert (py_lower sch = sch) as -> by (by destruct Hs as [->| ->]). rewrite bool_decide_eq_true_2 by (destruct Hs as [->| ->]; repeat constructor). cbn [negb raise_if rbind].
  assert (str_truthy n = true) as -> by (apply str_truthy_app_r; by apply str_truthy_app_r). rewrite Hat. cbn [negb raise_if rbind].
  assert ((1 <=? p) && (p <=? 65535) = true) as -> by (apply andb_true_intro; split; apply Z.leb_le; lia). rewrite bool_decide_eq_true_2 by constructor. reflexivity.
Qed.

Lemma port_of_text n h p : 1 <= p <= 65535 -> hostinfo n = (h, port_text p) -> port_of n = Some (Some p).
Proof.
  intros Hp Hn. destruct (port_text_facts p Hp) as (Hv & Ht & Hd). unfold port_of, digits_only. rewrite Hn, Ht, Hd, Hv. cbn [andb]. by replace (p <=? 65535) with true by (symmetry; apply Z.leb_le; lia).
Qed.

Lemma port_text_no c p : 1 <= p <= 65535 -> is_digit c = false -> has_char c (port_text p) = false.
Proof. intros Hp Hc. eapply all_chars_no_char; [by apply port_text_facts|done]. Qed.

Lemma port_text_netloc p : 1 <= p <= 65535 -> all_chars netloc_char (":" +:+ port_text p) = true.
Proof. intros Hp. rewrite all_chars_app. change (all_chars netloc_char ":") with true. cbn [andb]. eapply all_chars_impl; [|by apply port_text_facts]. from_chars. Qed.

(** Names and IPv4 addresses. *)
Lemma plain_readable h : str_truthy h = true -> all_chars name_char h = true -> readable h.
Proof.
  intros Ht Hc p Hp. unfold rendered. assert (forall c, name_char c = false -> has_char c h = false) as Hno by (intros c; by apply all_chars_no_char). rewrite (Hno ":"%char) by done.
  set (n := h +:+ ":" +:+ port_text p). assert (forall c, name_char c = false -> is_digit c = false -> c <> ":"%char -> has_char c n = false) as Hn.
  { intros c H1 H2 H3. unfold n. rewrite !has_char_app, Hno, port_text_no by done. cbn. by rewrite bool_decide_eq_false_2 by congruence. }
  assert (has_char "@" n = false) as Hat by by apply Hn. assert (has_char "[" n = false) as Ho by by apply Hn. assert (has_char "]" n = false) as Hcl by by apply Hn.
  assert (hostinfo n = (h, port_text p)) as Hi.
  { unfold hostinfo. rewrite after_at_none, partition_none by done. unfold n. change (":" +:+ port_text p) with (String ":" (port_text p)). by rewrite partition_at by (by apply Hno). }
  split_and!; [|done|unfold brackets_ok; by rewrite Ho, Hcl| |by eapply port_of_text].
  - unfold n. rewrite all_chars_app, port_text_netloc by done. rewrite andb_true_r. eapply all_chars_impl; [|exact Hc]. from_chars.
  - unfold hostname. rewrite Hi, Ht. rewrite partition_none by (by apply Hno). rewrite !append_nil_r. f_equal. apply lower_same. eapply all_chars_impl; [|exact Hc]. from_chars.
Qed.

(** IPv6 addresses, in brackets. *)
Lemma v6_readable n scope : address_ok (V6 n scope) -> all_chars host_char (default "" scope) = true -> readable (address_text dotted (V6 n scope)).
Proof.
  intros Hok Hsc p Hp. pose proof (ip_address_text dotted _ Hok) as Hip. destruct Hok as [Hn Hs]. cbn [address_text] in *. fold (v6_body dotted n) in *.
  destruct (v6_body_facts dotted n Hn) as (_ & Hc & Hcol). set (tail := match scope with Some s => "%" +:+ s | None => "" end) in *. set (h := v6_body dotted n +:+ tail) in *.
  assert (all_chars host_char h = true) as Hh.
  { unfold h. rewrite all_chars_app. apply andb_true_intro. split; [eapply all_chars_impl; [|exact Hc]; from_chars|]. destruct scope as [s|]; [|done]. unfold tail. by rewrite all_chars_app. }
  assert (forall c, host_char c = false -> has_char c h = false) as Hno by (intros c; by apply all_chars_no_char).
  assert (str_truthy (v6_body dotted n) = true) as Hbt by (by destruct (v6_body dotted n)).
  assert (has_char ":" h = true) as Hcolon by (unfold h; by rewrite has_char_app, Hcol). unfold rendered. rewrite Hcolon. set (N := ("[" +:+ h +:+ "]") +:+ ":" +:+ port_text p).
  assert (has_char "@" N = false) as Hat. { unfold N. rewrite !has_char_app, (Hno "@"%char), port_text_no by done. reflexivity. }
  assert (N = String "[" (h +:+ String "]" (":" +:+ port_text p))) as HN. { unfold N. change ("[" +:+ h +:+ "]") with (String "[" (h +:+ "]")). change (String "[" (h +:+ "]") +:+ (":" +:+ port_text p)) with (String "[" ((h +:+ "]") +:+ (":" +:+ port_text p))). by rewrite append_assoc. }
  assert (partition "[" N = ("", true, h +:+ String "]" (":" +:+ port_text p))) as P1 by (rewrite HN; apply (partition_at "[" ""); done).
  assert (partition "]" (h +:+ String "]" (":" +:+ port_text p)) = (h, true, ":" +:+ port_text p)) as P2 by (apply partition_at; by apply Hno).
  assert (partition ":" (":" +:+ port_text p) = ("", true, port_text p)) as P3 by apply (partition_at ":" "" (port_text p) eq_refl).
  assert (hostinfo N = (h, port_text p)) as Hi by (unfold hostinfo; by rewrite after_at_none, P1, P2, P3 by done).
  split_and!; [|done| | |by eapply port_of_text].
  - unfold N. rewrite !all_chars_app. assert (all_chars netloc_char h = true) as -> by (eapply all_chars_impl; [|exact Hh]; from_chars). pose proof (port_text_netloc p Hp) as Hpn. rewrite all_chars_app in Hpn. rewrite Hpn. reflexivity.
  - unfold brackets_ok. assert (has_char "[" N = true) as -> by (by rewrite HN). assert (has_char "]" N = true) as ->. { rewrite HN. cbn [has_char]. rewrite has_char_app. cbn [has_char]. rewrite (bool_decide_eq_true_2 ("]"%char = "]"%char)) by done. by rewrite !orb_true_r. }
    unfold check_bracketed_netloc. rewrite after_at_none, P1, P2 by done. unfold check_bracketed_host. rewrite Hip.
    assert (startswith h "v" = false) as ->. { unfold h. destruct (v6_body dotted n) as [|a b]; [done|]. unfold startswith. change (String a b +:+ tail) with (String a (b +:+ tail)). cbn [String.prefix]. destruct (ascii_dec "v" a) as [<-|]; [|done]. by cbn in Hc. }
    change (startswith (":" +:+ port_text p) ":") with (startswith (port_text p) ""). assert (startswith (port_text p) "" = true) as -> by apply (prefix_app "" (port_text p)). by rewrite orb_true_r.
  - unfold hostname. rewrite Hi. assert (str_truthy h = true) as -> by (unfold h; by destruct (v6_body dotted n)).
    assert (has_char "%" (v6_body dotted n) = false) as Hpc by (by apply v6_body_no).
    assert (py_lower (v6_body dotted n) = v6_body dotted n) as Hlow. { apply lower_same. eapply all_chars_impl; [|exact Hc]. from_chars. }
    unfold h, tail. destruct scope as [s|].
    + change ("%" +:+ s) with (String "%" s). rewrite partition_at by done. by rewrite Hlow.
    + rewrite append_nil_r, partition_none by done. by rewrite Hlow, !append_nil_r.
Qed.
End reading.

(** ** Every accepted endpoint is readable *)

Lemma parse_v6_colon s n : parse_v6 s = Some n -> has_char ":" s = true.
Proof.
  unfold parse_v6. destruct (has_char ":" s) eqn:E; [done|]. pose proof (split_part ":" s "" "" E) as Hs. rewrite append_nil_r in Hs. rewrite Hs. done.
Qed.

Section accepted.
Variable dotted : bool.

Lemma name_normal h : _normalize_dns_name h "backend hostname" = Ok h -> all_chars name_char h = true -> normalized_host dotted h = Ok h.
Proof.
  intros Hd Hc. unfold normalized_host. destruct (ip_address h) as [a|] eqn:E; [|done]. f_equal. unfold ip_address in E. destruct (parse_v4 h) as [n|] eqn:E4; [injection E as <-; apply (parse_v4_Some h n E4)|].
  exfalso. unfold parse_scoped in E. rewrite (all_chars_no_char name_char "/"), partition_none in E by (done || by apply (all_chars_no_char name_char)). cbn [andb] in E.
  destruct (parse_v6 h) as [n|] eqn:E6; [|done]. apply parse_v6_colon in E6. by rewrite (all_chars_no_char name_char) in E6.
Qed.

Lemma ip_address_scope s n scope : ip_address s = Some (V6 n scope) -> all_chars host_char s = true -> all_chars host_char (default "" scope) = true.
Proof.
  unfold ip_address. destruct (parse_v4 s); [done|]. unfold parse_scoped. destruct (has_char "/" s); [done|]. destruct (partition "%" s) as [[addr b] sc] eqn:Ep. destruct (b && _); [done|]. destruct (parse_v6 addr); [|done].
  intros [= _ <-] Hs. destruct b; [|done]. apply partition_spec in Ep as [_ ->]. rewrite all_chars_app in Hs. apply andb_prop in Hs as [_ Hs]. cbn in Hs. apply (andb_prop _ _ Hs).
Qed.

Lemma normalized_readable h nh : normalized_host dotted h = Ok nh -> all_chars host_char h = true -> readable nh /\ normalized_host dotted nh = Ok nh.
Proof.
  unfold normalized_host at 1. destruct (ip_address h) as [a|] eqn:Ea; intros H Hc.
  - injection H as <-. pose proof (ip_address_ok _ _ Ea) as Hok. split; [|unfold normalized_host; by rewrite ip_address_text]. destruct a as [n|n scope].
    + apply plain_readable; [by apply str_truthy_app_r|]. eapply all_chars_impl; [|by apply v4_text_chars]. from_chars.
    + apply v6_readable; [done|]. by eapply ip_address_scope.
  - apply normalize_dns_name_Ok in H as (_ & Ht & Hn & _ & Hd). split; [by apply plain_readable|]. by apply name_normal.
Qed.

Lemma parse_endpoint_Ok v e : parse_endpoint dotted v = Ok e ->
  http_scheme (ep_scheme e) /\ 1 <= port e <= 65535 /\ exists h, all_chars host_char h = true /\ normalized_host dotted h = Ok (host e).
Proof.
  unfold parse_endpoint. intros H. apply raise_bind in H as [_ H]. destruct (urlsplit _) as [r|] eqn:Eu; [|done]. destruct (port_of (netloc r)) as [po|]; [|done]. apply raise_bind in H as [Hs H].
  destruct (hostname (netloc r)) as [h|] eqn:Eh; [|done]. apply raise_bind in H as [_ H]. apply raise_bind in H as [Hat H]. destruct po as [p|]; [|done]. apply raise_bind in H as [Hp H]. do 2 (apply raise_bind in H as [_ H]).
  apply rbind_Ok in H as (nh & Hnh & H). injection H as <-. cbn. apply urlsplit_netloc in Eu as [Hn Hb]. split_and!; [|bool_to_prop; lia..|].
  - apply negb_false_iff, bool_decide_eq_true in Hs. apply list_elem_of_In in Hs. destruct Hs as [<-|[<-|[]]]; [by left|by right].
  - exists h. split; [|done]. by eapply hostname_chars.
Qed.

Lemma accepted_readable v e : parse_endpoint dotted v = Ok e -> http_scheme (ep_scheme e) /\ 1 <= port e <= 65535 /\ readable (host e) /\ normalized_host dotted (host e) = Ok (host e).
Proof. intros H. destruct (parse_endpoint_Ok v e H) as (Hs & Hp & h & Hc & Hn). destruct (normalized_readable h _ Hn Hc) as [H1 H2]. exact (conj Hs (conj Hp (conj H1 H2))). Qed.
End accepted.

(** C19: An accepted endpoint has one canonical origin.  Parsing the origin of an
    accepted endpoint gives the same scheme, host and port again, for names,
    IPv4 and IPv6 addresses with or without a scope; and whatever path is
    appended to it, the URL that is requested splits into that scheme, that host
    and that port, without credentials. *)
Theorem origin_canonical dotted v e : parse_endpoint dotted v = Ok e ->
  parse_endpoint dotted (origin e) = Ok e /\
  forall path u, build_backend_url dotted v path = Ok u -> exists r, urlsplit u = Some r /\ scheme r = ep_scheme e /\
    hostname (netloc r) = Some (host e) /\ port_of (netloc r) = Some (Some (port e)) /\ has_char "@" (netloc r) = false.
Proof.
  intros H. destruct (accepted_readable dotted v e H) as (Hs & Hp & Hr & Hn). destruct e as [sch h p]. cbn [ep_scheme host port] in *. split; [by rewrite parse_rendered, Hn|].
  intros path u Hu. unfold build_backend_url in Hu. apply raise_bind in Hu as [Hpath Hu]. rewrite H in Hu. injection Hu as <-. apply orb_false_elim in Hpath as [Hpath _]. apply negb_false_iff in Hpath.
  destruct (Hr p Hp) as (H1 & H2 & H3 & H4 & H5). 
  assert (origin (mkEndpoint sch h p) +:+ path = sch +:+ "://" +:+ (rendered h +:+ ":" +:+ port_text p) +:+ path) as -> by (unfold origin; cbn [ep_scheme host port]; fold (rendered h); by rewrite !append_assoc).
  destruct (urlsplit_http sch _ path Hs H1 (or_intror Hpath) H3) as (pa & qu & fr & -> & _). eexists. split; [done|]. cbn. by split_and!.
Qed.

(** ** What a policy allows, in terms of the configuration *)

Definition name_rule (rule h : string) : Prop :=
  startswith rule "*." = false /\ _normalize_dns_name rule "host allowlist rule" = Ok h \/
  exists r base pre, rule = "*." +:+ r /\ _normalize_dns_name r "host allowlist rule" = Ok base /\ pre <> "" /\ h = pre +:+ "." +:+ base.

(** The leading bits of the address and of the network agree. *)
Definition network_rule (rule : string) (a : address) : Prop :=
  exists n, ip_network rule = Some n /\ version a = net_version n /\
    let k := width (version a) - net_prefix n in 0 <= net_prefix n <= width (version a) /\ ip_value a / 2 ^ k = net_value n / 2 ^ k.

Definition host_permitted (hosts networks : list string) (h : string) : Prop :=
  match ip_address h with
  | Some a => exists rule, rule ∈ networks /\ network_rule rule a
  | None => exists rule, rule ∈ hosts /\ name_rule rule h
  end.

Lemma land_netmask x p k : 0 <= p -> 0 <= k -> 0 <= x < 2 ^ (p + k) -> Z.land x (Z.shiftl (Z.ones p) k) = x / 2 ^ k * 2 ^ k.
Proof.
  intros Hp Hk Hx. rewrite <- Z.shiftr_div_pow2, <- Z.shiftl_mul_pow2 by done. apply Z.bits_inj'. intros i Hi. rewrite Z.land_spec. destruct (Z_lt_dec i k).
  - rewrite !Z.shiftl_spec_low by lia. by rewrite andb_false_r.
  - rewrite !Z.shiftl_spec, Z.shiftr_spec by lia. replace (i - k + k) with i by lia. destruct (Z_lt_dec (i - k) p); [rewrite Z.ones_spec_low by lia; apply andb_true_r|].
    rewrite Z.ones_spec_high by lia. rewrite andb_false_r. symmetry. destruct (decide (x = 0)) as [->|]; [apply Z.bits_0|]. apply Z.bits_above_log2; [lia|]. apply Z.log2_lt_pow2; [lia|]. eapply Z.lt_le_trans; [apply Hx|]. apply Z.pow_le_mono_r; lia.
Qed.

Lemma trailing_zeros_nonneg p : 0 <= trailing_zeros p.
Proof. induction p; cbn [trailing_zeros]; lia. Qed.

Lemma prefix_of_mask_bound n p : prefix_of_mask n = Some p -> 0 <= p <= 32.
Proof.
  unfold prefix_of_mask. case_match eqn:E; [|done]. intros [= <-]. apply Z.eqb_eq in E. destruct n as [|q|q]; [lia| |lia]. pose proof (trailing_zeros_nonneg q). split; [|lia].
  destruct (Z_le_dec 0 (32 - trailing_zeros q)); [done|]. exfalso. rewrite (Z.ones_equiv (32 - trailing_zeros q)), Z.pow_neg_r in E by lia. pose proof (proj2 (Z.shiftr_nonneg (Zpos q) (trailing_zeros q)) ltac:(lia)). cbn in *. lia.
Qed.

Lemma prefix_digits_bound v s p : prefix_digits v s = Some p -> 0 <= p <= width v.
Proof.
  unfold prefix_digits. case_match eqn:E; [|done]. case_match; [|done]. intros [= <-]. unfold digits_only in E. bool_to_prop. split; [|done]. apply (number_in_bound 10 ltac:(lia)); [done|].
  eapply all_chars_impl; [|eassumption]. from_chars.
Qed.

(** A configured network is the masked value of an address. *)
Lemma ip_network_Some rule n : ip_network rule = Some n -> exists m, n = make_network (net_version n) (net_prefix n) m /\ 0 <= net_prefix n <= width (net_version n) /\ 0 <= m < 2 ^ width (net_version n).
Proof.
  assert (forall addr mask n, network_v4 addr mask = Some n -> exists m, n = make_network 4 (net_prefix n) m /\ net_version n = 4 /\ 0 <= net_prefix n <= 32 /\ 0 <= m < 2 ^ 32) as H4.
  { intros addr mask x. unfold network_v4. destruct (parse_v4 addr) as [m|] eqn:E4; [|done]. cbn [mbind option_bind]. destruct (match mask with None => Some 32 | Some m => prefix_v4 m end) as [p|] eqn:Ep; [|done].
    intros [= <-]. exists m. cbn [net_prefix net_version make_network]. split; [done|]. split; [done|]. split; [|apply (parse_v4_Some _ _ E4)]. destruct mask as [s|]; [|injection Ep as <-; lia]. unfold prefix_v4 in Ep.
    destruct (prefix_digits 4 s) as [q|] eqn:Ed; [injection Ep as <-; apply (prefix_digits_bound 4 s q Ed)|]. destruct (parse_v4 s) as [w|]; [|done].
    destruct (prefix_of_mask w) as [q|] eqn:Em; [injection Ep as <-; apply (prefix_of_mask_bound _ _ Em)|apply (prefix_of_mask_bound _ _ Ep)]. }
  assert (forall addr mask n, network_v6 addr mask = Some n -> exists m, n = make_network 6 (net_prefix n) m /\ net_version n = 6 /\ 0 <= net_prefix n <= 128 /\ 0 <= m < 2 ^ 128) as H6.
  { intros addr mask x. unfold network_v6. destruct (parse_scoped addr) as [a|] eqn:E6; [|done]. cbn [mbind option_bind]. destruct (match mask with None => Some 128 | Some m => prefix_digits 6 m end) as [p|] eqn:Ep; [|done].
    intros [= <-]. exists (ip_value a). cbn [net_prefix net_version make_network]. split; [done|]. split; [done|]. split; [destruct mask as [s|]; [apply (prefix_digits_bound 6 s p Ep)|injection Ep as <-; lia]|].
    unfold parse_scoped in E6. destruct (has_char "/" addr); [done|]. destruct (partition "%" addr) as [[u b] t]. destruct (b && _); [done|]. destruct (parse_v6 u) as [w|] eqn:Ew; [|done]. injection E6 as <-. apply (parse_v6_range _ _ Ew). }
  assert (forall addr mask, match network_v4 addr mask with Some n => Some n | None => network_v6 addr mask end = Some n ->
    exists m, n = make_network (net_version n) (net_prefix n) m /\ 0 <= net_prefix n <= width (net_version n) /\ 0 <= m < 2 ^ width (net_version n)) as H.
  { intros addr mask. destruct (network_v4 addr mask) as [x|] eqn:E; [intros [= <-]; destruct (H4 _ _ _ E) as (m & Hm & -> & ?)|intros E'; destruct (H6 _ _ _ E') as (m & Hm & -> & ?)]; by exists m. }
  unfold ip_network. destruct (py_split "/" rule "") as [|a [|m [|]]]; [done|apply H|apply H|done].
Qed.

(** Membership compares the leading bits. *)
Lemma in_network_prefix rule n a : ip_network rule = Some n -> address_ok a -> in_network a n = true <-> network_rule rule a.
Proof.
  intros Hn Ha. destruct (ip_network_Some rule n Hn) as (m & Hm & Hp & Hb). unfold in_network, network_rule. rewrite andb_true_iff, !Z.eqb_eq. rewrite Hn.
  assert (0 <= ip_value a < 2 ^ width (version a)) as Hv by (destruct a; [exact Ha|apply Ha]).
  assert (version a = net_version n -> Z.land (ip_value a) (netmask (net_version n) (net_prefix n)) = net_value n <-> ip_value a / 2 ^ (width (version a) - net_prefix n) = net_value n / 2 ^ (width (version a) - net_prefix n)) as Hiff.
  { intros Hver. assert (net_value n = Z.land m (netmask (net_version n) (net_prefix n))) as Hnv by (rewrite Hm at 1; reflexivity). rewrite Hnv. clear Hnv Hm. rewrite Hver in *. unfold netmask. set (w := width (net_version n)) in *. remember (w - net_prefix n) as k eqn:Ek.
    assert (net_prefix n + k = w) as Hw by lia. assert (0 <= k) as Hk0 by lia. assert (0 < 2 ^ k) as Hk by (apply Z.pow_pos_nonneg; lia). rewrite !land_netmask by (rewrite ?Hw; done || lia). rewrite Z.div_mul by lia. nia. }
  split; [intros [Hver Hx]; exists n; split_and!; [done|done| | |by apply Hiff]; rewrite ?Hver; apply Hp|]. intros (n' & [= <-] & Hver & _ & Hx). split; [done|by apply Hiff].
Qed.

Lemma endswith_spec s t : endswith s t = true <-> exists pre, s = pre +:+ t.
Proof.
  split.
  - induction s as [|a s IH]; cbn [endswith]; intros H; apply orb_true_iff in H as [H|H]; [apply bool_decide_eq_true in H; by exists ""|done|apply bool_decide_eq_true in H; by exists ""|].
    destruct (IH H) as [pre ->]. by exists (String a pre).
  - intros [pre ->]. induction pre as [|a pre IH]; [change ("" +:+ t) with t; destruct t; cbn [endswith]; by rewrite bool_decide_eq_true_2|].
    change (String a pre +:+ t) with (String a (pre +:+ t)). cbn [endswith]. by rewrite IH, orb_true_r.
Qed.

(** What the rules of the configuration leave in a policy. *)
Lemma host_rules_Ok rules exact suffixes exact' suffixes' : host_rules rules exact suffixes = Ok (exact', suffixes') ->
  (forall h, h ∈ exact' <-> h ∈ exact \/ exists rule, rule ∈ rules /\ startswith rule "*." = false /\ _normalize_dns_name rule "host allowlist rule" = Ok h) /\
  (forall s, s ∈ suffixes' <-> s ∈ suffixes \/ exists r base, "*." +:+ r ∈ rules /\ _normalize_dns_name r "host allowlist rule" = Ok base /\ s = "." +:+ base).
Proof.
  revert exact suffixes. induction rules as [|rule rules IH]; intros exact suffixes; cbn [host_rules].
  - intros [= <- <-]. split; intros x; (split; [by left|]); [intros [?|(? & Hx & _)]|intros [?|(? & ? & Hx & _)]]; try done; by apply elem_of_nil in Hx.
  - destruct (startswith rule "*.") eqn:Es; intros H; apply rbind_Ok in H as (name & Hn & H); destruct (IH _ _ H) as [H1 H2]; clear IH H.
    + pose proof (removeprefix_prefix _ _ Es) as Hr. unfold removeprefix in Hr. rewrite Es in Hr. cbn [String.length] in Hr. split; [intros h; rewrite H1|intros s; rewrite H2].
      * split; (intros [?|(x & Hx & ?)]; [by left|right; exists x]); [split; [by right|done]|]. apply elem_of_cons in Hx as [->|Hx]; [destruct H; congruence|done].
      * rewrite elem_of_union, elem_of_singleton. split.
        -- intros [[->|?]|(r & base & Hx & ?)]; [right; exists (drop_chars 2 rule), name; rewrite Hr; split; [left|done]|by left|right; exists r, base; split; [by right|done]].
        -- intros [?|(r & base & Hx & Hb & ->)]; [by left; right|]. apply elem_of_cons in Hx as [Hx|Hx]; [|by right; exists r, base]. left. left. assert (drop_chars 2 rule = r) as E by (by rewrite <- Hx). rewrite E in Hn. congruence.
    + split; [intros h; rewrite H1, elem_of_union, elem_of_singleton|intros s; rewrite H2].
      * split; [intros [[->|?]|(x & Hx & ?)]; [right; exists rule; split; [left|done]|by left|right; exists x; split; [by right|done]]|].
        intros [?|(x & Hx & Hx2 & Hx3)]; [by left; right|]. apply elem_of_cons in Hx as [->|Hx]; [left; left; congruence|right; by exists x].
      * split; (intros [?|(r & base & Hx & ?)]; [by left|right; exists r, base]); [split; [by right|done]|]. apply elem_of_cons in Hx as [<-|Hx]; [|done]. by rewrite (prefix_app "*." r : startswith ("*." +:+ r) "*." = true) in Es.
Qed.

Lemma network_rules_Ok rules acc l : network_rules rules acc = Ok l -> forall n, n ∈ l <-> n ∈ acc \/ exists rule, rule ∈ rules /\ ip_network rule = Some n.
Proof.
  revert acc. induction rules as [|rule rules IH]; intros acc; cbn [network_rules].
  - intros [= <-] n. split; [by left|]. intros [?|(? & Hx & _)]; [done|]. by apply elem_of_nil in Hx.
  - destruct (ip_network rule) as [m|] eqn:E; [|done]. intros H n. rewrite (IH _ H), elem_of_app, list_elem_of_singleton. split.
    + intros [[?| ->]|(x & Hx & ?)]; [by left|right; exists rule; split; [left|done]|right; exists x; split; [by right|done]].
    + intros [?|(x & Hx & Hx2)]; [by left; left|]. apply elem_of_cons in Hx as [->|Hx]; [left; right; congruence|right; by exists x].
Qed.

Lemma port_rules_Ok rules acc s : port_rules rules acc = Ok s -> forall n, n ∈ s <-> n ∈ acc \/ PortInt n ∈ rules.
Proof.
  revert acc. induction rules as [|[m|b] rules IH]; intros acc; cbn [port_rules]; [|intros H; apply raise_bind in H as [_ H]|done].
  - intros [= <-] n. split; [by left|]. intros [?|Hx]; [done|]. by apply elem_of_nil in Hx.
  - intros n. rewrite (IH _ H), elem_of_union, elem_of_singleton, elem_of_cons. assert (PortInt n = PortInt m <-> n = m) as -> by (split; congruence). tauto.
Qed.

(** The suffix test of a normal name. *)
Lemma suffix_rule h base : startswith h "." = false ->
  (endswith h ("." +:+ base) && negb (bool_decide (h = drop_chars 1 ("." +:+ base)))) = true <-> exists pre, pre <> "" /\ h = pre +:+ "." +:+ base.
Proof.
  intros Hd. change (drop_chars 1 ("." +:+ base)) with base. rewrite andb_true_iff, endswith_spec, negb_true_iff, bool_decide_eq_false. split.
  - intros [[pre ->] _]. exists pre. split; [|done]. intros ->. by rewrite (prefix_app "." base : startswith ("" +:+ ("." +:+ base)) "." = true) in Hd.
  - intros (pre & Hp & ->). split; [by exists pre|]. intros E. apply (f_equal String.length) in E. rewrite !string_length_app in E. cbn in E. lia.
Qed.

Lemma host_allowed_spec hosts networks ports p h : from_values hosts networks ports = Ok p -> ip_address h <> None \/ startswith h "." = false ->
  _host_allowed p h = true <-> host_permitted hosts networks h.
Proof.
  unfold from_values. intros Hf Hh. apply rbind_Ok in Hf as ([exact suffixes] & Hr & Hf). apply rbind_Ok in Hf as (nets & Hn & Hf). apply rbind_Ok in Hf as (ps & _ & Hf). injection Hf as <-.
  apply host_rules_Ok in Hr as [Hex Hsu]. pose proof (network_rules_Ok _ _ _ Hn) as Hnets. unfold _host_allowed, host_permitted. destruct (ip_address h) as [a|] eqn:Ea; cbn [allowed_networks allowed_hosts allowed_host_suffixes].
  - apply ip_address_ok in Ea. rewrite existsb_exists. split.
    + intros (n & Hin & Hx). apply andb_prop in Hx as [_ Hx]. apply list_elem_of_In, Hnets in Hin as [Hin|(rule & Hin & Hrule)]; [by apply elem_of_nil in Hin|]. exists rule. split; [done|]. by apply (in_network_prefix rule n a).
    + intros (rule & Hin & Hx). pose proof Hx as (n & Hrule & Hver & _). exists n. split; [apply list_elem_of_In, Hnets; right; by exists rule|]. apply (in_network_prefix rule n a) in Hx; [|done..]. by rewrite Hx, Hver, Z.eqb_refl.
  - destruct Hh as [?|Hh]; [done|]. rewrite orb_true_iff, bool_decide_eq_true, existsb_exists. split.
    + intros [Hin|(s & Hin & Hs)].
      * apply Hex in Hin as [Hin|(rule & ? & ?)]; [by apply not_elem_of_empty in Hin|]. exists rule. split; [done|by left].
      * apply list_elem_of_In in Hin. rewrite sort_by_perm, elem_of_elements in Hin. apply Hsu in Hin as [Hin|(r & base & Hr & Hb & ->)]; [by apply not_elem_of_empty in Hin|].
        exists ("*." +:+ r). split; [done|]. right. apply suffix_rule in Hs as (pre & ? & ?); [|done]. by exists r, base, pre.
    + intros (rule & Hin & [[H1 H2]|(r & base & pre & -> & Hb & Hp & Hpre)]); [left; apply Hex; right; by exists rule|]. right. exists ("." +:+ base). split.
      * apply list_elem_of_In. rewrite sort_by_perm, elem_of_elements. apply Hsu. right. by exists r, base.
      * apply suffix_rule; [done|]. by exists pre.
Qed.

Lemma normal_no_dot dotted h nh : normalized_host dotted h = Ok nh -> ip_address nh <> None \/ startswith nh "." = false.
Proof.
  unfold normalized_host. destruct (ip_address h) as [a|] eqn:E; intros H.
  - injection H as <-. left. rewrite ip_address_text; [done|by eapply ip_address_ok].
  - right. apply normalize_dns_name_Ok in H as (_ & _ & _ & H & _). exact H.
Qed.

(** C18: The policy allows exactly what is configured.  With a policy built from
    lists of hosts, networks and ports: an endpoint is accepted, and replaced by
    its origin, exactly when it parses, its port is configured, and its host is
    an address whose leading bits are those of a configured network of the same
    version, or a name that is a configured host or lies properly below a
    configured wildcard; a node's host name is accepted, in its normal form,
    exactly when it is a valid name, not the text of an address, and allowed as
    such a name. *)
Theorem endpoint_policy_exact dotted hosts networks ports p : from_values hosts networks ports = Ok p ->
  (forall v o, normalize dotted p v = Ok o <->
     exists e, parse_endpoint dotted v = Ok e /\ o = origin e /\ PortInt (port e) ∈ ports /\ host_permitted hosts networks (host e)) /\
  (forall v h, normalize_hostname p v = Ok h <->
     v = py_strip v /\ _normalize_dns_name v "node hostname" = Ok h /\ ip_address h = None /\ exists rule, rule ∈ hosts /\ name_rule rule h).
Proof.
  intros Hf. assert (forall n, n ∈ allowed_ports p <-> PortInt n ∈ ports) as Hports.
  { pose proof Hf as Hf'. unfold from_values in Hf'. apply rbind_Ok in Hf' as ([ex su] & _ & Hf'). apply rbind_Ok in Hf' as (nets & _ & Hf'). apply rbind_Ok in Hf' as (ps & Hp & Hf'). injection Hf' as <-.
    intros n. cbn. rewrite (port_rules_Ok _ _ _ Hp). split; [intros [H|H]; [by apply not_elem_of_empty in H|done]|by right]. }
  split.
  - intros v o. unfold normalize. rewrite rbind_Ok. apply exist_proper. intros e. rewrite !raise_bind, !negb_false_iff, bool_decide_eq_true, Hports. split.
    + intros (He & H1 & H2 & H3). injection H3 as <-. destruct (parse_endpoint_Ok _ _ _ He) as (_ & _ & h & _ & Hn). by rewrite (host_allowed_spec _ _ _ _ _ Hf (normal_no_dot _ _ _ Hn)) in H2.
    + intros (He & -> & H1 & H2). destruct (parse_endpoint_Ok _ _ _ He) as (_ & _ & h & _ & Hn). by rewrite (host_allowed_spec _ _ _ _ _ Hf (normal_no_dot _ _ _ Hn)).
  - intros v h. unfold normalize_hostname. rewrite raise_bind, orb_false_iff, !negb_false_iff, bool_decide_eq_true. split.
    + intros [[_ Hv] H]. destruct (ip_address _) as [a|] eqn:Ea; [done|]. apply rbind_Ok in H as (h' & Hd & H). apply raise_bind in H as [Ha H]. injection H as ->. apply negb_false_iff in Ha.
      pose proof (normalize_dns_name_Ok _ _ _ Hd) as (-> & _ & _ & Hdot & _). rewrite (host_allowed_spec _ _ _ _ _ Hf (or_intror Hdot)) in Ha. unfold host_permitted in Ha. rewrite Ea in Ha. done.
    + intros (Hv & Hd & Hi & Hr). pose proof (normalize_dns_name_Ok _ _ _ Hd) as (Hh & Ht & _ & Hdot & _). split; [split; [|done]|].
      * destruct v; [by subst h|done].
      * rewrite <- Hh, Hi, Hd. cbn [rbind]. assert (_host_allowed p h = true) as ->; [|done]. apply (host_allowed_spec _ _ _ _ _ Hf (or_intror Hdot)). unfold host_permitted. by rewrite Hi.
Qed.

(** ** A configured policy *)

Definition ex_hosts : list string := ["gpu1.example.com"; "*.Lab.example.com."].
Definition ex_networks : list string := ["10.1.2.3/8"; "fd00::/8"].
Definition ex_ports : list PortRule := [PortInt 8000; PortInt 443].
Definition ex_policy : EndpointPolicy := match from_values ex_hosts ex_networks ex_ports with Ok p => p | Err _ => mkPolicy ∅ [] [] ∅ end.

Example policy_answers :
  List.map (normalize true ex_policy) ["GPU1.example.com.:8000/"; "10.255.0.1:443"; "https://[FD00:0:0:0::7]:443"; "lab.example.com:8000"; "11.0.0.1:443"; "gpu1.example.com:80"; "http://u@gpu1.example.com:8000"; "gpu1.example.com:8000/x"]
  = [Ok "http://gpu1.example.com:8000"; Ok "http://10.255.0.1:443"; Ok "https://[fd00::7]:443"; Err HostNotAllowed; Err HostNotAllowed; Err PortNotAllowed; Err CredentialsNotAllowed; Err PathNotAllowed] /\
  List.map (normalize_hostname ex_policy) ["a.lab.example.com"; "10.0.0.1."; "a.b"] = [Ok "a.lab.example.com"; Err AddressNotAllowed; Err NodeHostnameNotAllowed].
Proof. vm_compute. split; reflexivity. Qed.

Lemma endpoint_policy_exact_witness : host_permitted ex_hosts ex_networks "fd00::7" /\ (exists rule, rule ∈ ex_hosts /\ name_rule rule "a.b.lab.example.com") /\ ~ host_permitted ex_hosts ex_networks "11.0.0.1".
Proof.
  assert (from_values ex_hosts ex_networks ex_ports = Ok ex_policy) as Hp by (vm_compute; reflexivity). destruct (endpoint_policy_exact true ex_hosts ex_networks ex_ports ex_policy Hp) as [H1 H2]. split; [|split].
  - destruct (proj1 (H1 "https://[FD00:0:0:0::7]:443" "https://[fd00::7]:443") ltac:(vm_compute; reflexivity)) as (e & He & _ & _ & Hh). vm_compute in He. injection He as <-. exact Hh.
  - apply (H2 "A.b.lab.example.com"). vm_compute. reflexivity.
  - intros Hh. assert (normalize true ex_policy "11.0.0.1:443" = Ok "http://11.0.0.1:443") as E; [|vm_compute in E; discriminate E].
    apply H1. exists (mkEndpoint "http" "11.0.0.1" 443). split; [vm_compute; reflexivity|]. split; [reflexivity|]. split; [right; left|exact Hh].
Defined.

Lemma origin_canonical_witness : parse_endpoint false "[::ffff:10.0.0.1%eth0]:8000" = Ok (mkEndpoint "http" "::ffff:a00:1%eth0" 8000) /\
  parse_endpoint false "http://[::ffff:a00:1%eth0]:8000" = Ok (mkEndpoint "http" "::ffff:a00:1%eth0" 8000) /\
  exists r, urlsplit "http://[::ffff:a00:1%eth0]:8000/v1/models?x=//evil:1@h" = Some r /\ hostname (netloc r) = Some "::ffff:a00:1%eth0".
Proof.
  assert (parse_endpoint false "[::ffff:10.0.0.1%eth0]:8000" = Ok (mkEndpoint "http" "::ffff:a00:1%eth0" 8000)) as H by (vm_compute; reflexivity). destruct (origin_canonical false _ _ H) as [H1 H2].
  split; [exact H|split; [exact H1|]]. destruct (H2 "/v1/models?x=//evil:1@h" "http://[::ffff:a00:1%eth0]:8000/v1/models?x=//evil:1@h" ltac:(vm_compute; reflexivity)) as (r & Hr & _ & Hh & _). exists r. split; [exact Hr|exact Hh].
Defined.
