(* ===== verification/NodeModel.v ===== *)
(** * Node domain model ([inference_proxy/models/node.py])

    The enumerations and frozen pydantic models that describe an inference
    node, with the field constraints and the validators the classes declare.
    A pydantic model is a record; the constructor call [M(...)] is
    [M_validate], which runs the field constraints and then the validators in
    declaration order.  Python floats are rationals [Q]: every finite float
    is one, and the constraints reject NaN. *)

From S2P Require Import Prelude.
From Stdlib Require Import QArith Ascii.
Local Close Scope Q_scope.
Local Open Scope Z_scope.

(** ** Constants and enumerations *)

Definition LLAMACPP_CONTEXT_ALIGNMENT : Z := 256.
Definition LLAMACPP_MAX_AGGREGATE_CONTEXT : Z := 4294967040.
Definition LLAMACPP_MAX_SEQUENCES : Z := 256.

Definition SUPPORTED_VLLM_DTYPES : list string :=
  ["auto"; "half"; "float16"; "bfloat16"; "float"; "float32"].

Inductive InferenceEngine := VLLM | LLAMA_CPP.

Inductive NodeStatus :=
| AVAILABLE | HEALTHY | UNHEALTHY | DRAINING | RELAUNCHING | RELAUNCH_FAILED
| PROVISIONING | FAILED | UNKNOWN.

Inductive LlamaCppSizingMode := SIZING_AUTO | SIZING_CUSTOM | SIZING_PROFILE.
Inductive LlamaCppCacheType := F16 | Q8_0 | Q4_0.
Inductive LlamaCppFlashAttention := FLASH_AUTO | FLASH_ON.
Inductive LlamaCppSpeculativeType := DRAFT_MTP | DRAFT_DFLASH | DRAFT_MTP_ASSISTANT.

#[export] Instance InferenceEngine_eq : EqDecision InferenceEngine.
Proof. solve_decision. Defined.
#[export] Instance NodeStatus_eq : EqDecision NodeStatus.
Proof. solve_decision. Defined.
#[export] Instance LlamaCppSizingMode_eq : EqDecision LlamaCppSizingMode.
Proof. solve_decision. Defined.
#[export] Instance LlamaCppCacheType_eq : EqDecision LlamaCppCacheType.
Proof. solve_decision. Defined.
#[export] Instance LlamaCppFlashAttention_eq : EqDecision LlamaCppFlashAttention.
Proof. solve_decision. Defined.
#[export] Instance LlamaCppSpeculativeType_eq : EqDecision LlamaCppSpeculativeType.
Proof. solve_decision. Defined.

(** The wire value of each status ([NodeStatus.value]). *)
Definition status_value (s : NodeStatus) : string :=
  match s with
  | AVAILABLE => "available" | HEALTHY => "healthy" | UNHEALTHY => "unhealthy"
  | DRAINING => "draining" | RELAUNCHING => "relaunching"
  | RELAUNCH_FAILED => "relaunch_failed" | PROVISIONING => "provisioning"
  | FAILED => "failed" | UNKNOWN => "unknown"
  end.

Definition PLANNER_CACHE_TYPES : list LlamaCppCacheType := [F16; Q8_0].

(** ** Field constraints *)

Definition opt_all {A} (p : A -> bool) (o : option A) : bool :=
  match o with None => true | Some a => p a end.

Fixpoint str_all (p : Ascii.ascii -> bool) (s : string) : bool :=
  match s with EmptyString => true | String a s => p a && str_all p s end.

Definition code (a : Ascii.ascii) : nat := Ascii.nat_of_ascii a.
Definition in_range (lo hi : nat) (a : Ascii.ascii) : bool :=
  Nat.leb lo (code a) && Nat.leb (code a) hi.
Definition is_digit := in_range 48 57.
Definition is_lower := in_range 97 122.
Definition is_upper := in_range 65 90.
Definition is_char (c a : Ascii.ascii) : bool := Ascii.eqb c a.

Definition slen (s : string) : Z := Z.of_nat (String.length s).
Definition len_between (lo hi : Z) (s : string) : bool :=
  (lo <=? slen s) && (slen s <=? hi).

(** [^[0-9a-f]{n}$] *)
Definition is_hex (n : Z) (s : string) : bool :=
  (slen s =? n) && str_all (fun a => is_digit a || in_range 97 102 a) s.

(** [^[a-z0-9][a-z0-9._-]{0,63}$] *)
Definition is_profile_id (s : string) : bool :=
  match s with
  | EmptyString => false
  | String a r =>
      (is_lower a || is_digit a) && (slen r <=? 63) &&
      str_all (fun c => is_lower c || is_digit c || is_char "."%char c ||
                        is_char "_"%char c || is_char "-"%char c) r
  end.

(** [^[A-Za-z0-9][A-Za-z0-9 ._-]{1,127}$] *)
Definition is_gpu_name (s : string) : bool :=
  match s with
  | EmptyString => false
  | String a r =>
      (is_lower a || is_upper a || is_digit a) && len_between 1 127 r &&
      str_all (fun c => is_lower c || is_upper c || is_digit c || is_char " "%char c ||
                        is_char "."%char c || is_char "_"%char c || is_char "-"%char c) r
  end.

(** [^GPU-[0-9a-fA-F-]{8,64}$] *)
Definition is_gpu_uuid (s : string) : bool :=
  startswith s "GPU-" &&
  (let r := drop_chars 4 s in
   len_between 8 64 r &&
   str_all (fun c => is_digit c || in_range 97 102 c || in_range 65 70 c ||
                     is_char "-"%char c) r).

Definition q_ge (lo x : Q) : bool := Qle_bool lo x.
Definition q_le (hi x : Q) : bool := Qle_bool x hi.
Definition q_gt (lo x : Q) : bool := negb (Qle_bool x lo).

(** ** vLLM parameters *)

Record VllmParams := {
  vp_tensor_parallel_size : option Z;
  vp_max_model_len : option Z;
  vp_gpu_memory_utilization : option Q;
  vp_max_num_batched_tokens : option Z;
  vp_tool_call_parser : option string;
  vp_reasoning_parser : option string;
  vp_dtype : option string;
  vp_gpu_devices : option (list Z);
}.

Definition VllmParams_fields (p : VllmParams) : bool :=
  opt_all (Z.leb 1) (vp_tensor_parallel_size p) &&
  opt_all (Z.leb 1) (vp_max_model_len p) &&
  opt_all (fun u => q_gt 0%Q u && q_le 1%Q u) (vp_gpu_memory_utilization p) &&
  opt_all (Z.leb 1) (vp_max_num_batched_tokens p) &&
  opt_all (len_between 1 256) (vp_tool_call_parser p) &&
  opt_all (len_between 1 256) (vp_reasoning_parser p) &&
  opt_all (len_between 1 256) (vp_dtype p) &&
  opt_all (fun ds => 1 <=? Z.of_nat (length ds)) (vp_gpu_devices p).

Definition validate_dtype (value : option string) : result string (option string) :=
  match value with
  | None => Ok None
  | Some v =>
      if bool_decide (v ∈ SUPPORTED_VLLM_DTYPES) then Ok value
      else Err "unsupported vLLM dtype"
  end.

Definition validate_gpu_devices (value : option (list Z))
  : result string (option (list Z)) :=
  match value with
  | None => Ok None
  | Some ds =>
      if existsb (fun d => d <? 0) ds then Err "GPU device indices must be non-negative"
      else if negb (Nat.eqb (length (remove_dups ds)) (length ds))
      then Err "GPU device indices must be unique"
      else Ok value
  end.

Definition validate_tensor_parallel_fits_devices (p : VllmParams) : result string VllmParams :=
  match vp_gpu_devices p, vp_tensor_parallel_size p with
  | Some ds, Some n =>
      if Z.of_nat (length ds) <? n
      then Err "tensor_parallel_size exceeds the selected GPU device count"
      else Ok p
  | _, _ => Ok p
  end.

Definition VllmParams_validate (p : VllmParams) : result string VllmParams :=
  raise_if (negb (VllmParams_fields p)) "field constraint" ;?
  validate_dtype (vp_dtype p) ;?
  validate_gpu_devices (vp_gpu_devices p) ;?
  validate_tensor_parallel_fits_devices p.

(** ** llama.cpp launch contract *)

Record LlamaCppSampling := {
  sa_temperature : Q;
  sa_top_p : Q;
  sa_top_k : Z;
  sa_min_p : option Q;
  sa_presence_penalty : option Q;
}.

Definition LlamaCppSampling_fields (s : LlamaCppSampling) : bool :=
  q_ge 0%Q (sa_temperature s) && q_le 2%Q (sa_temperature s) &&
  q_gt 0%Q (sa_top_p s) && q_le 1%Q (sa_top_p s) &&
  (0 <=? sa_top_k s) && (sa_top_k s <=? 1000) &&
  opt_all (fun x => q_ge 0%Q x && q_le 1%Q x) (sa_min_p s) &&
  opt_all (fun x => q_ge (-2 # 1)%Q x && q_le 2%Q x) (sa_presence_penalty s).

Record LlamaCppProfileRuntime := {
  pr_profile_id : string;
  pr_profile_version : Z;
  pr_ubatch : Z;
  pr_required_free_mib : Z;
  pr_gpu_name : string;
  pr_gpu_min_total_mib : Z;
  pr_speculative_type : LlamaCppSpeculativeType;
  pr_speculative_draft_n_max : Z;
  pr_draft_cache_type : option LlamaCppCacheType;
  pr_draft_artifact_id : option string;
  pr_sampling : LlamaCppSampling;
  pr_disable_cuda_graphs : bool;
}.

Definition LlamaCppProfileRuntime_fields (r : LlamaCppProfileRuntime) : bool :=
  is_profile_id (pr_profile_id r) && (1 <=? pr_profile_version r) &&
  (32 <=? pr_ubatch r) && (pr_ubatch r <=? 4096) &&
  (1 <=? pr_required_free_mib r) &&
  is_gpu_name (pr_gpu_name r) && (1 <=? pr_gpu_min_total_mib r) &&
  (1 <=? pr_speculative_draft_n_max r) && (pr_speculative_draft_n_max r <=? 16) &&
  opt_all (is_hex 64) (pr_draft_artifact_id r) &&
  LlamaCppSampling_fields (pr_sampling r).

Definition validate_speculation (r : LlamaCppProfileRuntime)
  : result string LlamaCppProfileRuntime :=
  match pr_speculative_type r with
  | DRAFT_MTP =>
      raise_if (is_some (pr_draft_artifact_id r))
        "MTP drafts from the target file, not an artifact" ;?
      raise_if (is_none (pr_draft_cache_type r))
        "MTP profiles must state the draft cache type" ;?
      Ok r
  | DRAFT_MTP_ASSISTANT =>
      raise_if (is_none (pr_draft_artifact_id r))
        "MTP assistant profiles require a draft artifact" ;?
      raise_if (is_some (pr_draft_cache_type r))
        "an MTP assistant shares the target's KV cache" ;?
      Ok r
  | DRAFT_DFLASH =>
      raise_if (is_none (pr_draft_artifact_id r))
        "DFlash profiles require a draft artifact" ;?
      raise_if (is_some (pr_draft_cache_type r))
        "DFlash profiles use the default draft cache" ;?
      Ok r
  end.

Definition LlamaCppProfileRuntime_validate (r : LlamaCppProfileRuntime)
  : result string LlamaCppProfileRuntime :=
  raise_if (negb (LlamaCppProfileRuntime_fields r)) "field constraint" ;?
  validate_speculation r.

Record LlamaCppRuntimeRequest := {
  rq_sizing : LlamaCppSizingMode;
  rq_fit_target_mib : Z;
  rq_context_per_slot : option Z;
  rq_slots : option Z;
  rq_cache_type : option LlamaCppCacheType;
  rq_allow_estimator_overrun : bool;
  rq_profile : option LlamaCppProfileRuntime;
}.

Definition LlamaCppRuntimeRequest_fields (q : LlamaCppRuntimeRequest) : bool :=
  (1 <=? rq_fit_target_mib q) &&
  opt_all (Z.leb LLAMACPP_CONTEXT_ALIGNMENT) (rq_context_per_slot q) &&
  opt_all (fun n => (1 <=? n) && (n <=? LLAMACPP_MAX_SEQUENCES)) (rq_slots q).

Definition validate_sizing_policy (q : LlamaCppRuntimeRequest)
  : result string LlamaCppRuntimeRequest :=
  match rq_sizing q with
  | SIZING_AUTO =>
      if is_some (rq_context_per_slot q) || is_some (rq_slots q) ||
         is_some (rq_cache_type q) || rq_allow_estimator_overrun q ||
         is_some (rq_profile q)
      then Err "automatic llama.cpp sizing does not accept custom values"
      else Ok q
  | mode =>
      match rq_context_per_slot q, rq_slots q, rq_cache_type q with
      | Some ctx, Some slots, Some cache =>
          match mode with
          | SIZING_PROFILE =>
              raise_if (is_none (rq_profile q))
                "profile llama.cpp sizing requires a profile" ;?
              raise_if (negb (slots =? 1))
                "profile llama.cpp sizing serves exactly one slot" ;?
              raise_if (rq_allow_estimator_overrun q)
                "profile llama.cpp sizing has no estimator"
          | _ =>
              raise_if (is_some (rq_profile q))
                "custom llama.cpp sizing does not accept a profile" ;?
              raise_if (bool_decide (cache ∉ PLANNER_CACHE_TYPES))
                "custom llama.cpp sizing supports f16 or q8_0 KV"
          end ;?
          raise_if (negb (ctx mod LLAMACPP_CONTEXT_ALIGNMENT =? 0))
            "context_per_slot must be aligned to 256-token increments" ;?
          raise_if (LLAMACPP_MAX_AGGREGATE_CONTEXT <? ctx * slots)
            "context_per_slot * slots exceeds llama.cpp's aggregate context limit" ;?
          Ok q
      | _, _, _ => Err "sizing requires context_per_slot, slots, and cache_type"
      end
  end.

Definition LlamaCppRuntimeRequest_validate (q : LlamaCppRuntimeRequest)
  : result string LlamaCppRuntimeRequest :=
  raise_if (negb (LlamaCppRuntimeRequest_fields q)) "field constraint" ;?
  validate_sizing_policy q.

(** ** Verified runtime state *)

(** A [datetime]: aware values are instants, naive ones have no time zone. *)
Inductive datetime :=
| Aware (instant : Z)
| Naive (wall_clock : Z).

Definition require_timezone (field : string) (v : datetime) : result string datetime :=
  match v with
  | Aware _ => Ok v
  | Naive _ => Err (field +:+ " must include a timezone")
  end.

Record LlamaCppSpeculativeEffective := {
  se_type : LlamaCppSpeculativeType;
  se_draft_n_max : Z;
  se_draft_gpu_layers : option Z;
  se_draft_total_layers : option Z;
  se_draft_cache_type_k : option LlamaCppCacheType;
  se_draft_cache_type_v : option LlamaCppCacheType;
  se_draft_shares_target_cache : bool;
}.

Record LlamaCppRuntimeEffective := {
  le_train_context : Z;
  le_context_per_slot : Z;
  le_slot_context_limit : Z;
  le_slots : Z;
  le_aggregate_context : Z;
  le_cache_type_k : LlamaCppCacheType;
  le_cache_type_v : LlamaCppCacheType;
  le_flash_attn : LlamaCppFlashAttention;
  le_kv_unified : bool;
  le_gpu_layers : Z;
  le_total_layers : Z;
  le_estimator_overrun_used : bool;
  le_ubatch : option Z;
  le_speculative : option LlamaCppSpeculativeEffective;
}.

Record GPUState := {
  gs_index : Z; gs_total_mib : Z; gs_used_mib : Z; gs_free_mib : Z;
}.

Record LlamaCppRuntimeState := {
  ls_requested : LlamaCppRuntimeRequest;
  ls_effective : LlamaCppRuntimeEffective;
  ls_gpus : list GPUState;
  ls_observed_at : datetime;
}.

Definition GPUState_fields (g : GPUState) : bool :=
  (0 <=? gs_index g) && (1 <=? gs_total_mib g) && (0 <=? gs_used_mib g) &&
  (0 <=? gs_free_mib g).

Definition LlamaCppSpeculativeEffective_fields (s : LlamaCppSpeculativeEffective) : bool :=
  (1 <=? se_draft_n_max s) && opt_all (Z.leb 1) (se_draft_gpu_layers s) &&
  opt_all (Z.leb 1) (se_draft_total_layers s).

Definition LlamaCppRuntimeEffective_fields (e : LlamaCppRuntimeEffective) : bool :=
  (1 <=? le_train_context e) && (1 <=? le_context_per_slot e) &&
  (1 <=? le_slot_context_limit e) && (1 <=? le_slots e) && (le_slots e <=? 256) &&
  (1 <=? le_aggregate_context e) && (le_aggregate_context e <=? 4294967040) &&
  (1 <=? le_gpu_layers e) && (1 <=? le_total_layers e) &&
  opt_all (Z.leb 1) (le_ubatch e) &&
  opt_all LlamaCppSpeculativeEffective_fields (le_speculative e).

Definition LlamaCppRuntimeState_validate (s : LlamaCppRuntimeState)
  : result string LlamaCppRuntimeState :=
  let? _ := LlamaCppRuntimeRequest_validate (ls_requested s) in
  raise_if (negb (LlamaCppRuntimeEffective_fields (ls_effective s) &&
                  (1 <=? Z.of_nat (length (ls_gpus s))) &&
                  forallb GPUState_fields (ls_gpus s))) "field constraint" ;?
  require_timezone "observed_at" (ls_observed_at s) ;?
  Ok s.

Inductive VllmModelSelection := SELECTION_AUTO | SELECTION_EXPLICIT.

Record VllmRuntimeRequest := {
  vr_model : option string;
  vr_params : VllmParams;
}.

Record VllmRuntimeEffective := {
  ve_model : string;
  ve_model_selection : VllmModelSelection;
  ve_model_reason : string;
  ve_tensor_parallel_size : Z;
  ve_max_model_len : Z;
  ve_max_num_batched_tokens : Z;
  ve_gpu_memory_utilization : Q;
  ve_dtype : option string;
  ve_attention_backend : option string;
}.

Record VllmMemoryEstimate := {
  vm_weights_mib : Z;
  vm_weights_per_gpu_mib : Z;
  vm_kv_cache_mib : Z;
  vm_runtime_overhead_mib : Z;
  vm_reserve_mib : Z;
  vm_usable_budget_mib : Z;
  vm_free_per_gpu_mib : Z;
}.

Record VllmAdjustment := {
  va_field : string; va_previous : string; va_value : string; va_reason : string;
}.

Record VllmServingVerification := {
  vs_served_model : string;
  vs_runtime_version : string;
  vs_generation_id : option string;
  vs_runtime_path : option string;
  vs_model_revision : option string;
  vs_model_max_model_len : option Z;
  vs_process_id : Z;
  vs_process_age_seconds : Z;
  vs_task : string;
  vs_endpoint : string;
  vs_latency_ms : Q;
  vs_prompt_tokens : option Z;
  vs_completion_tokens : option Z;
  vs_finish_reason : option string;
  vs_verified_at : datetime;
}.

Record VllmRuntimeState := {
  vt_requested : VllmRuntimeRequest;
  vt_effective : VllmRuntimeEffective;
  vt_estimate : VllmMemoryEstimate;
  vt_adjustments : list VllmAdjustment;
  vt_attempt : Z;
  vt_reason : string;
  vt_approximate : bool;
  vt_gpus : list GPUState;
  vt_serving : option VllmServingVerification;
  vt_observed_at : datetime;
}.

Definition VllmRuntimeRequest_validate (q : VllmRuntimeRequest)
  : result string VllmRuntimeRequest :=
  raise_if (negb (opt_all (len_between 1 512) (vr_model q))) "field constraint" ;?
  VllmParams_validate (vr_params q) ;?
  Ok q.

Definition VllmRuntimeEffective_fields (e : VllmRuntimeEffective) : bool :=
  len_between 1 512 (ve_model e) && len_between 1 512 (ve_model_reason e) &&
  (1 <=? ve_tensor_parallel_size e) && (1 <=? ve_max_model_len e) &&
  (1 <=? ve_max_num_batched_tokens e) &&
  q_gt 0%Q (ve_gpu_memory_utilization e) && q_le 1%Q (ve_gpu_memory_utilization e).

Definition VllmMemoryEstimate_fields (m : VllmMemoryEstimate) : bool :=
  (0 <=? vm_weights_mib m) && (0 <=? vm_weights_per_gpu_mib m) &&
  (0 <=? vm_kv_cache_mib m) && (0 <=? vm_runtime_overhead_mib m) &&
  (0 <=? vm_reserve_mib m) && (0 <=? vm_usable_budget_mib m) &&
  (0 <=? vm_free_per_gpu_mib m).

Definition VllmAdjustment_fields (a : VllmAdjustment) : bool :=
  len_between 1 64 (va_field a) && (slen (va_previous a) <=? 64) &&
  (slen (va_value a) <=? 64) && len_between 1 64 (va_reason a).

Definition VllmServingVerification_validate (v : VllmServingVerification)
  : result string VllmServingVerification :=
  raise_if (negb (
    len_between 1 512 (vs_served_model v) && len_between 1 128 (vs_runtime_version v) &&
    opt_all (fun s => slen s <=? 64) (vs_generation_id v) &&
    opt_all (fun s => slen s <=? 1024) (vs_runtime_path v) &&
    opt_all (fun s => slen s <=? 128) (vs_model_revision v) &&
    opt_all (Z.leb 1) (vs_model_max_model_len v) &&
    (1 <=? vs_process_id v) && (0 <=? vs_process_age_seconds v) &&
    len_between 1 32 (vs_task v) && len_between 1 128 (vs_endpoint v) &&
    q_ge 0%Q (vs_latency_ms v) &&
    opt_all (Z.leb 0) (vs_prompt_tokens v) && opt_all (Z.leb 0) (vs_completion_tokens v) &&
    opt_all (fun s => slen s <=? 64) (vs_finish_reason v))) "field constraint" ;?
  require_timezone "verified_at" (vs_verified_at v) ;?
  Ok v.

Definition VllmRuntimeState_validate (s : VllmRuntimeState) : result string VllmRuntimeState :=
  let? _ := VllmRuntimeRequest_validate (vt_requested s) in
  raise_if (negb (
    VllmRuntimeEffective_fields (vt_effective s) &&
    VllmMemoryEstimate_fields (vt_estimate s) &&
    forallb VllmAdjustment_fields (vt_adjustments s) &&
    (0 <=? vt_attempt s) && len_between 1 512 (vt_reason s) &&
    (1 <=? Z.of_nat (length (vt_gpus s))) &&
    forallb GPUState_fields (vt_gpus s))) "field constraint" ;?
  match vt_serving s with
  | None => Ok tt
  | Some v => VllmServingVerification_validate v ;? Ok tt
  end ;?
  require_timezone "observed_at" (vt_observed_at s) ;?
  Ok s.

(** ** The node *)

Record NodeCapabilities := { cap_max_tokens : Z; cap_gpu_memory : string }.

Definition default_capabilities : NodeCapabilities :=
  {| cap_max_tokens := 4096; cap_gpu_memory := "" |}.

Record NodeGPU := {
  ng_index : Z; ng_uuid : string; ng_name : string; ng_total_mib : Z;
}.

Definition NodeGPU_fields (g : NodeGPU) : bool :=
  (0 <=? ng_index g) && is_gpu_uuid (ng_uuid g) && len_between 1 128 (ng_name g) &&
  (1 <=? ng_total_mib g).

Record NodePlacement := {
  np_profile_id : string; np_profile_version : Z; np_claim_id : string;
}.

Definition NodePlacement_fields (p : NodePlacement) : bool :=
  is_profile_id (np_profile_id p) && (1 <=? np_profile_version p) &&
  is_hex 32 (np_claim_id p).

Record Node := mkNode {
  node_id : string;
  name : string;
  endpoint : string;
  status : NodeStatus;
  model : string;
  engine : InferenceEngine;
  artifact_id : option string;
  llamacpp_runtime : option LlamaCppRuntimeState;
  vllm_runtime : option VllmRuntimeState;
  last_heartbeat : option datetime;
  capabilities : NodeCapabilities;
  active_connections : Z;
  managed : bool;
  self_setup : bool;
  admin_only : bool;
  owner : string;
  gpus : list NodeGPU;
  placement : option NodePlacement;
}.

Definition placement_is_managed (n : Node) : result string Node :=
  if is_some (placement n) && (negb (managed n) || str_truthy (owner n))
  then Err "automatic placements are managed and unowned"
  else Ok n.

Definition self_setup_is_unmanaged (n : Node) : result string Node :=
  if self_setup n && managed n then Err "self_setup nodes cannot be managed" else Ok n.

(** The constructor call [Node(...)]: nested models, field constraints, then
    the two [mode="after"] validators. *)
Definition Node_validate (n : Node) : result string Node :=
  raise_if (negb (opt_all (is_hex 64) (artifact_id n) && forallb NodeGPU_fields (gpus n) &&
                  opt_all NodePlacement_fields (placement n))) "field constraint" ;?
  match llamacpp_runtime n with
  | None => Ok tt | Some s => LlamaCppRuntimeState_validate s ;? Ok tt
  end ;?
  match vllm_runtime n with
  | None => Ok tt | Some s => VllmRuntimeState_validate s ;? Ok tt
  end ;?
  placement_is_managed n ;?
  self_setup_is_unmanaged n.

(** A node with every optional field at its default. *)
Definition Node_default (id ep : string) : Node :=
  {| node_id := id; name := ""; endpoint := ep; status := UNKNOWN; model := "";
     engine := VLLM; artifact_id := None; llamacpp_runtime := None;
     vllm_runtime := None; last_heartbeat := None;
     capabilities := default_capabilities; active_connections := 0;
     managed := false; self_setup := false; admin_only := false; owner := "";
     gpus := []; placement := None |}.

(** [node.model_copy(update={...})] for the fields the gateway updates.
    [model_copy] does not run validators. *)
Definition set_status (s : NodeStatus) (n : Node) : Node :=
  mkNode (node_id n) (name n) (endpoint n) s (model n) (engine n) (artifact_id n)
    (llamacpp_runtime n) (vllm_runtime n) (last_heartbeat n) (capabilities n)
    (active_connections n) (managed n) (self_setup n) (admin_only n) (owner n)
    (gpus n) (placement n).

Definition set_model (m : string) (n : Node) : Node :=
  mkNode (node_id n) (name n) (endpoint n) (status n) m (engine n) (artifact_id n)
    (llamacpp_runtime n) (vllm_runtime n) (last_heartbeat n) (capabilities n)
    (active_connections n) (managed n) (self_setup n) (admin_only n) (owner n)
    (gpus n) (placement n).

Definition set_llamacpp_runtime (r : option LlamaCppRuntimeState) (n : Node) : Node :=
  mkNode (node_id n) (name n) (endpoint n) (status n) (model n) (engine n) (artifact_id n)
    r (vllm_runtime n) (last_heartbeat n) (capabilities n)
    (active_connections n) (managed n) (self_setup n) (admin_only n) (owner n)
    (gpus n) (placement n).

(** ** What a validated record guarantees *)

(** The abstract contract of a managed llama.cpp launch request. *)
Definition sizing_ok (q : LlamaCppRuntimeRequest) : Prop :=
  1 <= rq_fit_target_mib q /\
  match rq_sizing q with
  | SIZING_AUTO =>
      rq_context_per_slot q = None /\ rq_slots q = None /\ rq_cache_type q = None /\
      rq_allow_estimator_overrun q = false /\ rq_profile q = None
  | mode =>
      exists ctx slots cache,
        rq_context_per_slot q = Some ctx /\ rq_slots q = Some slots /\
        rq_cache_type q = Some cache /\
        256 <= ctx /\ (256 | ctx) /\ 1 <= slots <= 256 /\
        ctx * slots <= LLAMACPP_MAX_AGGREGATE_CONTEXT /\
        match mode with
        | SIZING_PROFILE =>
            slots = 1 /\ rq_allow_estimator_overrun q = false /\
            exists p, rq_profile q = Some p
        | _ => rq_profile q = None /\ cache <> Q4_0
        end
  end.

Lemma bool_is_none {A} (o : option A) : is_none o = true <-> o = None.
Proof. by destruct o. Qed.
Lemma bool_is_some {A} (o : option A) : is_some o = true <-> is_Some o.
Proof. destruct o; split; done. Qed.

Lemma request_fields_spec q :
  LlamaCppRuntimeRequest_fields q = true <->
  1 <= rq_fit_target_mib q /\
  (forall c, rq_context_per_slot q = Some c -> 256 <= c) /\
  (forall n, rq_slots q = Some n -> 1 <= n <= 256).
Proof.
  unfold LlamaCppRuntimeRequest_fields, LLAMACPP_CONTEXT_ALIGNMENT, LLAMACPP_MAX_SEQUENCES.
  rewrite !andb_true_iff, Z.leb_le.
  destruct (rq_context_per_slot q), (rq_slots q); cbn;
    rewrite ?andb_true_iff, ?Z.leb_le; naive_solver.
Qed.

Lemma sizing_auto_spec q :
  rq_sizing q = SIZING_AUTO ->
  validate_sizing_policy q = Ok q <->
  rq_context_per_slot q = None /\ rq_slots q = None /\ rq_cache_type q = None /\
  rq_allow_estimator_overrun q = false /\ rq_profile q = None.
Proof.
  intros Hs. unfold validate_sizing_policy. rewrite Hs.
  destruct (rq_context_per_slot q), (rq_slots q), (rq_cache_type q),
    (rq_allow_estimator_overrun q), (rq_profile q); cbn; naive_solver.
Qed.

Lemma aligned_spec c : negb (c mod 256 =? 0) = false <-> (256 | c).
Proof. rewrite negb_false_iff, Z.eqb_eq. apply Z.mod_divide. lia. Qed.

Lemma planner_cache_spec c : bool_decide (c ∉ PLANNER_CACHE_TYPES) = false <-> c <> Q4_0.
Proof. by destruct c; vm_compute. Qed.

Lemma sizing_custom_spec q :
  rq_sizing q <> SIZING_AUTO ->
  validate_sizing_policy q = Ok q <->
  exists ctx slots cache,
    rq_context_per_slot q = Some ctx /\ rq_slots q = Some slots /\
    rq_cache_type q = Some cache /\ (256 | ctx) /\
    ctx * slots <= LLAMACPP_MAX_AGGREGATE_CONTEXT /\
    match rq_sizing q with
    | SIZING_PROFILE =>
        slots = 1 /\ rq_allow_estimator_overrun q = false /\
        exists p, rq_profile q = Some p
    | _ => rq_profile q = None /\ cache <> Q4_0
    end.
Proof.
  intros Hs. unfold validate_sizing_policy, LLAMACPP_CONTEXT_ALIGNMENT.
  destruct (rq_sizing q), (rq_context_per_slot q) as [ctx|], (rq_slots q) as [slots|],
    (rq_cache_type q) as [cache|]; try done; try (split; [done|naive_solver]).
  all: pose proof (aligned_spec ctx) as Hal; pose proof (planner_cache_spec cache) as Hpc;
    pose proof (Z.ltb_ge LLAMACPP_MAX_AGGREGATE_CONTEXT (ctx * slots)) as Hag.
  - destruct (rq_profile q), (bool_decide (cache ∉ _)), (negb (ctx mod 256 =? 0)),
      (LLAMACPP_MAX_AGGREGATE_CONTEXT <? ctx * slots); cbn; naive_solver.
  - destruct (rq_profile q), (slots =? 1) eqn:H1, (rq_allow_estimator_overrun q),
      (negb (ctx mod 256 =? 0)), (LLAMACPP_MAX_AGGREGATE_CONTEXT <? ctx * slots);
      apply Z.eqb_eq in H1 || apply Z.eqb_neq in H1; cbn; naive_solver.
Qed.

(** The request validator accepts exactly the requests that meet the
    sizing contract, on every sizing policy. *)
Theorem request_validate_spec (q : LlamaCppRuntimeRequest) :
  LlamaCppRuntimeRequest_validate q = Ok q <-> sizing_ok q.
Proof.
  unfold LlamaCppRuntimeRequest_validate, sizing_ok.
  rewrite raise_bind, negb_false_iff, request_fields_spec.
  destruct (decide (rq_sizing q = SIZING_AUTO)) as [Ha|Ha].
  - rewrite sizing_auto_spec, Ha by done. naive_solver.
  - rewrite sizing_custom_spec by done. destruct (rq_sizing q); naive_solver.
Qed.
