(* ===== verification/Registry.v ===== *)
(** * Node registry ([inference_proxy/discovery/registry.py])

    Every public method holds the registry's re-entrant lock for its whole
    body, so each method is one atomic step on the state below; concurrent
    callers are sequences of these steps.

    Removal listeners act on state outside the registry ([E]): the circuit
    breakers and the health checker's failure counters. *)

From S2P Require Import Prelude PyDict NodeModel.

Section registry.
Context {E : Type}.

  (** A listener gets the node id and its own state, and returns the new state
      and whether it raised. *)
Definition RemoveListener : Type := string -> E -> E * bool.

Record NodeRegistry := mkRegistry {
    _nodes : list (string * Node);
    _remove_listeners : list (nat * RemoveListener);
  }.

Definition empty_registry : NodeRegistry := mkRegistry [] [].

Definition set_nodes (d : list (string * Node)) (r : NodeRegistry) : NodeRegistry :=
    mkRegistry d (_remove_listeners r).

Definition _LIVENESS_STATUSES : list NodeStatus := [HEALTHY; UNHEALTHY; UNKNOWN].

Definition is_liveness (s : NodeStatus) : bool := bool_decide (s ∈ _LIVENESS_STATUSES).

  (** [node_with_status(node, status, llamacpp_runtime=...)] *)
Definition node_with_status (n : Node) (s : NodeStatus)
    (runtime : option (option LlamaCppRuntimeState)) : Node :=
    set_status s (match runtime with Some r => set_llamacpp_runtime r n | None => n end).

Definition get (r : NodeRegistry) (id : string) : option Node := dget id (_nodes r).
Definition get_all (r : NodeRegistry) : list Node := dvalues (_nodes r).

Definition add (n : Node) (r : NodeRegistry) : NodeRegistry :=
    set_nodes (dset (node_id n) n (_nodes r)) r.

  (** The listener handle stands for the identity of the bound method. *)
Definition register_remove_listener (h : nat) (f : RemoveListener) (r : NodeRegistry)
    : NodeRegistry :=
    mkRegistry (_nodes r) (_remove_listeners r ++ [(h, f)]).

Fixpoint remove_first (h : nat) (l : list (nat * RemoveListener)) :=
    match l with
    | [] => []
    | (h', f) :: l => if decide (h = h') then l else (h', f) :: remove_first h l
    end.

Definition unregister (h : nat) (r : NodeRegistry) : NodeRegistry :=
    mkRegistry (_nodes r) (remove_first h (_remove_listeners r)).

  (** The merge decision of [add_discovered]. *)
Definition merge_discovered (current : option Node) (n : Node) : Node :=
    match current with
    | Some c => if is_liveness (status c) && is_liveness (status n)
                then set_status (status c) n else n
    | None => n
    end.

Definition add_discovered (n : Node) (r : NodeRegistry) : NodeRegistry :=
    let n := merge_discovered (get r (node_id n)) n in
    set_nodes (dset (node_id n) n (_nodes r)) r.

Definition update_status (id : string) (new : NodeStatus)
    (allowed_from : list NodeStatus) (r : NodeRegistry) : NodeRegistry * bool :=
    match get r id with
    | None => (r, false)
    | Some n =>
        if bool_decide (status n ∈ allowed_from)
        then (set_nodes (dset id (set_status new n) (_nodes r)) r, true)
        else (r, false)
    end.

Definition drain (id : string) (r : NodeRegistry) : NodeRegistry * bool :=
    match get r id with
    | None => (r, false)
    | Some n => (set_nodes (dset id (set_status DRAINING n) (_nodes r)) r, true)
    end.

  (** [self._nodes.keys() - present_node_ids]; Python's result is a set. *)
Definition missing_ids (r : NodeRegistry) (present : list string) : list string :=
    List.filter (fun k => bool_decide (k ∉ present)) (dkeys (_nodes r)).

Definition reconcile_discovered (found : list (string * Node)) (present : list string)
    (r : NodeRegistry) : NodeRegistry * list string :=
    let r1 := fold_left (fun r n => add_discovered n r) (dvalues found) r in
    let missing := missing_ids r1 present in
    (fold_left (fun r id => fst (drain id r)) missing r1, missing).

  (** Runs every registered listener in order; one that raises is logged and
      does not stop the others. *)
Definition run_listeners (r : NodeRegistry) (id : string) (e : E) : E :=
    fold_left (fun e hf => fst (snd hf id e)) (_remove_listeners r) e.

Definition remove (id : string) (r : NodeRegistry) (e : E) : NodeRegistry * E :=
    match get r id with
    | None => (r, e)
    | Some _ => (set_nodes (dpop id (_nodes r)) r, run_listeners r id e)
    end.

  (** ** Invariant: unique keys, each naming the node it holds *)

Definition reg_wf (r : NodeRegistry) : Prop :=
    dwf (_nodes r) /\ (forall k n, get r k = Some n -> node_id n = k).
End registry.

Arguments NodeRegistry E : clear implicits.
Arguments RemoveListener E : clear implicits.
Arguments mkRegistry {E} _ _.

(** ** Lemmas *)

Section lemmas.
Context {E : Type}.
Implicit Types (r : NodeRegistry E) (n : Node) (id : string).

Lemma get_set_nodes d r k : get (set_nodes d r) k = dget k d.
Proof. done. Qed.

Lemma node_id_set_status s n : node_id (set_status s n) = node_id n.
Proof. done. Qed.

Lemma node_id_merge c n : node_id (merge_discovered c n) = node_id n.
Proof. unfold merge_discovered. case_all; done. Qed.

Lemma reg_wf_set id n r : reg_wf r -> node_id n = id ->
    reg_wf (set_nodes (dset id n (_nodes r)) r).
Proof.
    intros [Hd Hk] Hid. split; [cbn; by apply dwf_dset|].
    intros k m. rewrite get_set_nodes, dget_dset. case_decide; [naive_solver|]. apply Hk.
Qed.

Lemma reg_wf_empty : reg_wf (@empty_registry E).
Proof. split; [apply dwf_nil|]. by intros k n. Qed.

Lemma reg_wf_add n r : reg_wf r -> reg_wf (add n r).
Proof. intros. by apply reg_wf_set. Qed.

Lemma reg_wf_add_discovered n r : reg_wf r -> reg_wf (add_discovered n r).
Proof. intros. apply reg_wf_set; [done|]. by rewrite node_id_merge. Qed.

Lemma reg_wf_drain id r : reg_wf r -> reg_wf (fst (drain id r)).
Proof.
    intros Hr. unfold drain. destruct (get r id) as [n|] eqn:Hn; [|done].
    apply reg_wf_set; [done|]. cbn. by apply Hr.
Qed.

Lemma reg_wf_update_status id s al r : reg_wf r -> reg_wf (fst (update_status id s al r)).
Proof.
    intros Hr. unfold update_status. destruct (get r id) as [n|] eqn:Hn; [|done].
    case_match; [|done]. apply reg_wf_set; [done|]. cbn. by apply Hr.
Qed.

Lemma reg_wf_remove id r (e : E) : reg_wf r -> reg_wf (fst (remove id r e)).
Proof.
    intros Hr. unfold remove. destruct (get r id) as [n|] eqn:Hn; [|done].
    destruct Hr as [Hd Hk]. cbn [fst]. split; [cbn; by apply dwf_dpop|].
    intros k m. rewrite get_set_nodes, dget_dpop. case_decide; [done|]. apply Hk.
Qed.

Lemma get_add n r k : get (add n r) k = if decide (k = node_id n) then Some n else get r k.
Proof. unfold add. rewrite get_set_nodes, dget_dset. done. Qed.

Lemma get_add_discovered n r k :
    get (add_discovered n r) k =
    if decide (k = node_id n) then Some (merge_discovered (get r k) n) else get r k.
Proof.
    unfold add_discovered. rewrite get_set_nodes, dget_dset, node_id_merge.
    case_decide; by subst.
Qed.

Lemma get_drain id r k :
    get (fst (drain id r)) k =
    if decide (k = id) then set_status DRAINING <$> get r k else get r k.
Proof.
    unfold drain. destruct (get r id) as [n|] eqn:Hn; cbn [fst snd].
    - rewrite get_set_nodes, dget_dset. case_decide; [by subst; rewrite Hn|done].
    - case_decide; [by subst; rewrite Hn|done].
Qed.

Lemma get_update_status id s al r k :
    get (fst (update_status id s al r)) k =
    match get r k with
    | Some n => if decide (k = id /\ status n ∈ al) then Some (set_status s n) else Some n
    | None => None
    end.
Proof.
    unfold update_status. destruct (get r id) as [n|] eqn:Hn.
    - destruct (bool_decide (status n ∈ al)) eqn:Hal; bool_to_prop; cbn [fst snd].
      + rewrite get_set_nodes, dget_dset. case_decide; subst.
        * rewrite Hn. by rewrite decide_True.
        * fold (get r k). destruct (get r k); [|done]. rewrite decide_False by naive_solver. done.
      + destruct (get r k) eqn:Hk; [|done]. rewrite decide_False; [done|naive_solver].
    - destruct (get r k) eqn:Hk; cbn [fst snd]; rewrite Hk; [|done]. rewrite decide_False; [done|naive_solver].
Qed.

Lemma update_status_true id s al r :
    snd (update_status id s al r) = true <-> exists n, get r id = Some n /\ status n ∈ al.
Proof.
    unfold update_status. destruct (get r id) as [n|]; cbn; [|naive_solver].
    destruct (bool_decide (status n ∈ al)) eqn:H; bool_to_prop; cbn; naive_solver.
Qed.

Lemma get_remove id r (e : E) k :
    get (fst (remove id r e)) k = if decide (k = id) then None else get r k.
Proof.
    unfold remove. destruct (get r id) as [n|] eqn:Hn; cbn [fst snd].
    - rewrite get_set_nodes. apply dget_dpop.
    - case_decide; by subst.
Qed.

Lemma get_all_spec r n : reg_wf r -> n ∈ get_all r <-> get r (node_id n) = Some n.
Proof.
    intros [Hd Hk]. unfold get_all. rewrite (dwf_values n _ Hd). split.
    - intros [k Hg]. pose proof (Hk _ _ Hg). by subst.
    - eauto.
Qed.

Lemma NoDup_get_all r : reg_wf r -> NoDup (node_id <$> get_all r).
Proof.
    intros [Hd Hk]. unfold get_all, dvalues. rewrite <- list_fmap_compose.
    replace ((node_id ∘ snd) <$> _nodes r) with (dkeys (_nodes r)); [done|].
    unfold dkeys. apply list_fmap_ext. intros i [k n] Hi. cbn. symmetry. apply Hk.
    apply dwf_in_dget; [done|]. by eapply list_elem_of_lookup_2.
Qed.
End lemmas.

#[export] Hint Resolve reg_wf_empty reg_wf_add reg_wf_add_discovered reg_wf_drain
  reg_wf_update_status reg_wf_remove : qiip.

(** ** Snapshot reconciliation *)

Section reconcile.
Context {E : Type}.
Implicit Types (r : NodeRegistry E).

  (** A dictionary of nodes keyed by node id. *)
Definition keyed (d : list (string * Node)) : Prop :=
    dwf d /\ (forall k n, dget k d = Some n -> node_id n = k).

Lemma keyed_cons k n d : keyed ((k, n) :: d) -> node_id n = k /\ dget k d = None /\ keyed d.
Proof.
    intros [[Hk Hd]%NoDup_cons Hid]. split; [|split].
    - apply Hid. cbn. by case_decide.
    - by apply dget_None_keys.
    - split; [done|]. intros k' n' Hg. apply Hid. cbn. case_decide; [|done].
      subst. exfalso. apply Hk. apply elem_of_dkeys. eauto.
Qed.

  (** What one snapshot says about key [k], before missing keys are drained. *)
Definition snapshot_view (found : list (string * Node)) (r : NodeRegistry E) (k : string)
    : option Node :=
    match dget k found with
    | Some n => Some (merge_discovered (get r k) n)
    | None => get r k
    end.

Lemma get_fold_add_discovered found r k :
    keyed found ->
    get (fold_left (fun r n => add_discovered n r) (dvalues found) r) k =
    snapshot_view found r k.
Proof.
    unfold snapshot_view. revert r. induction found as [|[k0 n0] d IH]; intros r Hf; [done|].
    destruct (keyed_cons _ _ _ Hf) as (Hid & Hnone & Hd). cbn [dvalues fmap list_fmap fold_left dget snd].
    rewrite IH by done. rewrite get_add_discovered, Hid.
    case_decide; subst; [by rewrite Hnone|done].
Qed.

Lemma reg_wf_fold_add_discovered l r :
    reg_wf r -> reg_wf (fold_left (fun r n => add_discovered n r) l r).
Proof. revert r. induction l as [|n l IH]; intros r Hr; cbn; [done|]. eauto with qiip. Qed.

Lemma get_fold_drain ids r k :
    get (fold_left (fun r id => fst (drain id r)) ids r) k =
    if decide (k ∈ ids) then set_status DRAINING <$> get r k else get r k.
Proof.
    revert r. induction ids as [|i ids IH]; intros r; cbn [fold_left].
    - rewrite decide_False by set_solver. done.
    - rewrite IH, get_drain. destruct (decide (k = i)) as [->|]; repeat case_decide;
        try set_solver; by destruct (get r i).
Qed.

Lemma reg_wf_fold_drain ids r :
    reg_wf r -> reg_wf (fold_left (fun r id => fst (drain id r)) ids r).
Proof. revert r. induction ids as [|n l IH]; intros r Hr; cbn; [done|]. eauto with qiip. Qed.

Lemma elem_of_missing_ids r present k :
    k ∈ missing_ids r present <-> is_Some (get r k) /\ k ∉ present.
Proof.
    unfold missing_ids. rewrite list_elem_of_In, filter_In, <- list_elem_of_In, elem_of_dkeys.
    by rewrite bool_decide_eq_true.
Qed.

Lemma reconcile_lookup found present r k :
    keyed found ->
    get (fst (reconcile_discovered found present r)) k =
    (if decide (k ∈ present) then snapshot_view found r k
     else set_status DRAINING <$> snapshot_view found r k).
Proof.
    intros Hf. unfold reconcile_discovered. cbn [fst].
    rewrite get_fold_drain, get_fold_add_discovered by done.
    destruct (decide (k ∈ present)) as [Hp|Hp].
    - rewrite decide_False; [done|]. rewrite elem_of_missing_ids. tauto.
    - destruct (snapshot_view found r k) eqn:Hv.
      + rewrite decide_True; [done|]. rewrite elem_of_missing_ids, get_fold_add_discovered, Hv by done. eauto.
      + by case_decide.
Qed.

Lemma reconcile_missing found present r k :
    keyed found ->
    k ∈ snd (reconcile_discovered found present r) <->
    is_Some (snapshot_view found r k) /\ k ∉ present.
Proof.
    intros Hf. unfold reconcile_discovered. cbn [snd].
    by rewrite elem_of_missing_ids, get_fold_add_discovered.
Qed.

Lemma reg_wf_reconcile found present r :
    reg_wf r -> reg_wf (fst (reconcile_discovered found present r)).
Proof. intros. by apply reg_wf_fold_drain, reg_wf_fold_add_discovered. Qed.
End reconcile.

#[export] Hint Resolve reg_wf_reconcile : qiip.

(** One etcd snapshot converges the registry.  A parsed record replaces
    the local entry except that a local liveness verdict survives a discovered
    liveness status; a present but unparsable key is left as it was; every
    other key is kept and marked DRAINING, and exactly those keys are
    returned. *)
Theorem reconcile_discovered_spec {E} (found : list (string * Node)) (present : list string)
  (r : NodeRegistry E) :
  keyed found -> reg_wf r -> (forall k, is_Some (dget k found) -> k ∈ present) ->
  let r' := fst (reconcile_discovered found present r) in
  let missing := snd (reconcile_discovered found present r) in
  reg_wf r' /\
  (forall k n, dget k found = Some n ->
     get r' k = Some (match get r k with
                      | Some c => if is_liveness (status c) && is_liveness (status n)
                                  then set_status (status c) n else n
                      | None => n
                      end)) /\
  (forall k, dget k found = None -> k ∈ present -> get r' k = get r k) /\
  (forall k, k ∉ present -> get r' k = set_status DRAINING <$> get r k) /\
  (forall k, k ∈ missing <-> is_Some (get r k) /\ k ∉ present).
Proof.
  intros Hf Hr Hp r' missing. subst r' missing.
  assert (forall k, k ∉ present -> dget k found = None) as Hno.
  { intros k Hk. apply eq_None_not_Some. naive_solver. }
  split; [by apply reg_wf_reconcile|]. split; [|split; [|split]]; intros k.
  - intros n Hn. rewrite reconcile_lookup by done. rewrite decide_True by eauto.
    unfold snapshot_view. by rewrite Hn.
  - intros Hn Hk. rewrite reconcile_lookup, decide_True by done.
    unfold snapshot_view. by rewrite Hn.
  - intros Hk. rewrite reconcile_lookup, decide_False by done.
    unfold snapshot_view. by rewrite Hno.
  - rewrite reconcile_missing by done. unfold snapshot_view. split.
    + intros [Hs Hk]. by rewrite Hno in Hs.
    + intros [Hs Hk]. by rewrite Hno.
Qed.

Definition ex_a : Node := set_status UNHEALTHY (Node_default "a" "http://a:8000").
Definition ex_b : Node := set_status HEALTHY (Node_default "b" "http://b:8000").
Definition ex_a' : Node := set_status HEALTHY (Node_default "a" "http://a:9000").
Definition ex_reg : NodeRegistry unit := mkRegistry [("a", ex_a); ("b", ex_b)] [].

Lemma ex_reg_wf : reg_wf ex_reg.
Proof.
  split; [by vm_compute; repeat constructor; set_solver|].
  intros k n. cbn. repeat case_decide; naive_solver.
Qed.

Lemma reconcile_discovered_witness :
  let r' := fst (reconcile_discovered [("a", ex_a')] ["a"] ex_reg) in
  get r' "a" = Some (set_status UNHEALTHY ex_a') /\
  get r' "b" = Some (set_status DRAINING ex_b) /\
  (forall k, k ∈ snd (reconcile_discovered [("a", ex_a')] ["a"] ex_reg) <->
             is_Some (get ex_reg k) /\ k ∉ ["a"]).
Proof.
  destruct (reconcile_discovered_spec [("a", ex_a')] ["a"] ex_reg)
    as (_ & Hf & _ & Hm & Hi).
  - split; [by apply NoDup_singleton|]. intros k n. cbn. case_decide; naive_solver.
  - apply ex_reg_wf.
  - intros k [n Hn]. cbn in Hn. case_decide; [set_solver|done].
  - split; [by rewrite (Hf "a" ex_a')|]. split; [|exact Hi]. rewrite (Hm "b"); [done|set_solver].
Defined.
