(* ===== verification/Routing.v ===== *)
(** * Routing: connection counts, node selection and drain cleanup

    - [Tracker]: [inference_proxy/routing/connection_tracker.py]
    - [Metrics]: [inference_proxy/routing/request_metrics.py]
    - [Selector]: [inference_proxy/routing/node_selector.py] and
      [inference_proxy/routing/drain_cleanup.py]

    [random.choice] is the argument [pick]: the chosen element is the one at
    index [pick mod len], so every outcome is some [pick]. *)

From S2P Require Import Prelude PyDict NodeModel Registry.
Local Open Scope Z_scope.

Module Tracker.
Definition t : Type := gmap string Z.

Definition get (c : gmap string Z) (id : string) : Z := default 0 (c !! id).
Definition increment (id : string) (c : gmap string Z) : gmap string Z :=
    <[id := get c id + 1]> c.
Definition decrement (id : string) (c : gmap string Z) : gmap string Z :=
    let current := get c id in
    if 0 <? current then <[id := current - 1]> c else c.
Definition get_all (c : gmap string Z) : gmap string Z := c.
Definition remove (id : string) (c : gmap string Z) : gmap string Z := delete id c.

Lemma get_insert id k v c : get (<[id := v]> c) k = if decide (k = id) then v else get c k.
Proof. unfold get. rewrite lookup_insert. repeat case_decide; subst; done. Qed.

Lemma get_increment id k c :
    get (increment id c) k = get c k + (if decide (k = id) then 1 else 0).
Proof. unfold increment. rewrite get_insert. case_decide; subst; lia. Qed.

Lemma get_decrement id k c :
    get (decrement id c) k =
    if decide (k = id /\ 0 < get c k) then get c k - 1 else get c k.
Proof.
    unfold decrement. destruct (Z.ltb_spec 0 (get c id)).
    - rewrite get_insert. repeat case_decide; naive_solver lia.
    - case_decide; naive_solver lia.
Qed.

Lemma count_remove id k c : get (remove id c) k = if decide (k = id) then 0 else get c k.
Proof. unfold get, remove. rewrite lookup_delete. repeat case_decide; subst; done. Qed.
End Tracker.

Module Metrics.
Record RequestMetrics := {
    _total : Z; _per_node : gmap string Z; _per_model : gmap string Z;
  }.

Definition bump (k : string) (m : gmap string Z) : gmap string Z :=
    <[k := default 0 (m !! k) + 1]> m.

Definition record_request (id : string) (model : option string) (m : RequestMetrics) :=
    {| _total := _total m + 1;
       _per_node := bump id (_per_node m);
       _per_model := match model with
                     | Some mo => bump mo (_per_model m)
                     | None => _per_model m
                     end |}.

Definition record_node_attempt (id : string) (m : RequestMetrics) :=
    {| _total := _total m; _per_node := bump id (_per_node m); _per_model := _per_model m |}.
End Metrics.

Module Selector.
Section selector.
Context {E : Type}.
Implicit Types (r : NodeRegistry E) (c : gmap string Z).

Definition _in_scope (n : Node) (allowed : option (list string)) (own : option string) : bool :=
    if match allowed with Some ids => bool_decide (node_id n ∉ ids) | None => false end
    then false
    else if admin_only n && is_some own then false
    else negb (match own with
               | Some o => str_truthy (owner n) &&
                           negb (bool_decide (py_lower (owner n) = py_lower o))
               | None => false
               end).

  (** [healthy.sort(key=lambda n: tracker.get(n.node_id))] *)
Definition by_connections c (a b : Node) : bool :=
    Tracker.get c (node_id a) <=? Tracker.get c (node_id b).

  (** The tail of [_select_locked]: sort, collect the ties, choose one. *)
Definition choose c (pick : nat) (healthy : list Node) : option Node :=
    let sorted := sort_by (by_connections c) healthy in
    match sorted with
    | [] => None
    | first :: _ =>
        let min_connections := Tracker.get c (node_id first) in
        let tied := List.filter
          (fun n => Tracker.get c (node_id n) =? min_connections) sorted in
        tied !! (pick mod length tied)%nat
    end.

Definition _select_locked r c (pick : nat) (mdl : option string)
    (exclude : option (list string)) (allowed : option (list string))
    (own : option string) : option Node :=
    let nodes := get_all r in
    let healthy := List.filter (fun n => bool_decide (status n = HEALTHY)) nodes in
    match healthy with
    | [] => None
    | _ =>
    let healthy :=
      match exclude with
      | Some ((_ :: _) as ex) => List.filter (fun n => bool_decide (node_id n ∉ ex)) healthy
      | _ => healthy
      end in
    match healthy with
    | [] => None
    | _ =>
    let healthy :=
      if is_some allowed || is_some own
      then List.filter (fun n => _in_scope n allowed own) healthy else healthy in
    match healthy with
    | [] => None
    | _ =>
    let healthy :=
      match mdl with
      | Some m => List.filter (fun n => bool_decide (model n = m)) healthy
      | None => healthy
      end in
    match healthy with
    | [] => None
    | _ => choose c pick healthy
    end end end end.

  (** A node that a request with these filters may be routed to. *)
Definition eligible (mdl : option string) (exclude : option (list string))
    (allowed : option (list string)) (own : option string) (n : Node) : bool :=
    bool_decide (status n = HEALTHY) &&
    match exclude with Some ex => bool_decide (node_id n ∉ ex) | None => true end &&
    _in_scope n allowed own &&
    match mdl with Some m => bool_decide (model n = m) | None => true end.

Definition has_model r (m : string) (allowed : option (list string)) (own : option string)
    : bool :=
    let nodes := get_all r in
    let nodes := if is_some allowed || is_some own
                 then List.filter (fun n => _in_scope n allowed own) nodes else nodes in
    existsb (fun n => bool_decide (model n = m)) nodes.

  (** [sweep_drained_nodes]: the loop runs over the snapshot [get_all()]. *)
Definition sweep_step (acc : NodeRegistry E * gmap string Z * E * list string) (n : Node) :=
    let '(r, c, e, removed) := acc in
    if bool_decide (status n = DRAINING) && (Tracker.get c (node_id n) =? 0)
    then let '(r', e') := remove (node_id n) r e in
         (r', Tracker.remove (node_id n) c, e', removed ++ [node_id n])
    else acc.

Definition sweep_drained_nodes r c (e : E)
    : NodeRegistry E * gmap string Z * E * list string :=
    fold_left sweep_step (get_all r) (r, c, e, []).
End selector.
End Selector.

(** ** Selection lemmas *)

Module SelectorFacts.
Import Selector.

Section facts.
Context {E : Type}.
Implicit Types (r : NodeRegistry E) (c : gmap string Z).

Lemma in_scope_unrestricted n : _in_scope n None None = true.
Proof. unfold _in_scope. by destruct (admin_only n). Qed.

Lemma choose_nil c pick : choose c pick [] = None.
Proof. done. Qed.

  (** The chain of filters and early returns is one filter. *)
Lemma select_is_choose r c pick mdl exclude allowed own :
    _select_locked r c pick mdl exclude allowed own =
    choose c pick (List.filter (eligible mdl exclude allowed own) (get_all r)).
Proof.
    unfold _select_locked.
    set (h1 := List.filter (fun n => bool_decide (status n = HEALTHY)) (get_all r)).
    set (h2 := match exclude with Some ((_ :: _) as ex) => _ | _ => h1 end).
    set (h3 := if is_some allowed || is_some own then _ else h2).
    set (h4 := match mdl with Some m => _ | None => h3 end).
    assert (h4 = List.filter (eligible mdl exclude allowed own) (get_all r)) as Heq.
    { assert (h2 = List.filter (fun n => match exclude with
                 | Some ex => bool_decide (node_id n ∉ ex) | None => true end) h1) as H2.
      { unfold h2. destruct exclude as [[|x ex]|]; [|done|]; symmetry; apply filter_true_id;
          intros; [apply bool_decide_eq_true; set_solver|done]. }
      assert (h3 = List.filter (fun n => _in_scope n allowed own) h2) as H3.
      { unfold h3. destruct allowed, own; [done..|]. symmetry. apply filter_true_id.
        intros. apply in_scope_unrestricted. }
      assert (h4 = List.filter (fun n => match mdl with
                 | Some m => bool_decide (model n = m) | None => true end) h3) as H4.
      { unfold h4. destruct mdl; [done|]. symmetry. by apply filter_true_id. }
      rewrite H4, H3, H2. unfold h1. rewrite !filter_filter_andb.
      apply List.filter_ext. intros n. unfold eligible. by rewrite !andb_assoc. }
    rewrite <- Heq. clear Heq.
    assert (h1 = [] -> h4 = []) as E1.
    { unfold h4, h3, h2. intros ->. by destruct exclude as [[]|], allowed, own, mdl. }
    assert (h2 = [] -> h4 = []) as E2.
    { unfold h4, h3. intros ->. by destruct allowed, own, mdl. }
    assert (h3 = [] -> h4 = []) as E3.
    { unfold h4. intros ->. by destruct mdl. }
    destruct h1; [by rewrite E1|]. destruct h2; [by rewrite E2|].
    destruct h3; [by rewrite E3|]. by destruct h4.
Qed.

Lemma by_connections_total c x y : by_connections c x y = false -> by_connections c y x = true.
Proof. unfold by_connections. intros. bool_to_prop. apply Z.leb_le. lia. Qed.
Lemma by_connections_trans c x y z :
    by_connections c x y = true -> by_connections c y z = true -> by_connections c x z = true.
Proof. unfold by_connections. intros. bool_to_prop. apply Z.leb_le. lia. Qed.

  (** A least-connected member of [l]. *)
Definition least c (l : list Node) (n : Node) : Prop :=
    n ∈ l /\ forall m, m ∈ l -> Tracker.get c (node_id n) <= Tracker.get c (node_id m).

Lemma choose_spec c l :
    (forall pick, choose c pick l = None <-> l = []) /\
    (forall n, (exists pick, choose c pick l = Some n) <-> least c l n).
Proof.
    unfold choose, least. pose proof (sort_by_perm (by_connections c) l) as Hp.
    pose proof (sort_by_sorted (by_connections c) (by_connections_total c)
                  (by_connections_trans c) l) as Hs.
    destruct (sort_by (by_connections c) l) as [|f s].
    { apply Permutation_nil_l in Hp as <-. split; [done|]. intros n. split; [by intros [? [=]]|].
      intros [Hn _]. by apply not_elem_of_nil in Hn. }
    set (tied := List.filter _ (f :: s)).
    assert (forall m, m ∈ l -> Tracker.get c (node_id f) <= Tracker.get c (node_id m)) as Hmin.
    { intros m Hm. rewrite <- Hp in Hm.
      destruct (sorted_head_min _ _ _ _ Hs Hm) as [->|Hle]; [lia|]. by apply Z.leb_le in Hle. }
    assert (forall m, m ∈ tied <-> m ∈ l /\ Tracker.get c (node_id m) = Tracker.get c (node_id f)) as Ht.
    { intros m. unfold tied. by rewrite elem_of_filter_bool, Z.eqb_eq, Hp. }
    assert (f ∈ tied) as Hf by (rewrite Ht, <- Hp; set_solver).
    assert (0 < length tied)%nat as Hlen by (destruct tied; [by apply not_elem_of_nil in Hf|cbn; lia]).
    assert (forall i, (i mod length tied < length tied)%nat) as Hmod.
    { intros. apply Nat.mod_upper_bound. lia. }
    split.
    - intros pick. split; [|intros ->; by apply Permutation_nil_r in Hp].
      intros Hnone%lookup_ge_None. specialize (Hmod pick). lia.
    - intros n. split.
      + intros [pick Hn%list_elem_of_lookup_2]. apply Ht in Hn as [Hn Heq].
        split; [done|]. rewrite Heq. apply Hmin.
      + intros [Hn Hle]. assert (n ∈ tied) as Hi.
        { apply Ht. split; [done|]. specialize (Hmin n Hn).
          specialize (Hle f). rewrite <- Hp in Hle. specialize (Hle ltac:(set_solver)). lia. }
        apply list_elem_of_lookup_1 in Hi as [i Hi]. exists i.
        rewrite Nat.mod_small; [done|]. by eapply lookup_lt_Some.
Qed.
End facts.
End SelectorFacts.

(** Selection under every filter combination.  [None] exactly when no
    registered node is eligible (HEALTHY, not excluded, inside the caller's
    scope, serving the model); otherwise the nodes the random tie-break can
    return are exactly the eligible nodes with the fewest connections. *)
Theorem select_spec {E} (r : NodeRegistry E) (c : gmap string Z) mdl exclude allowed own :
  let ok n := Selector.eligible mdl exclude allowed own n = true in
  (forall pick, Selector._select_locked r c pick mdl exclude allowed own = None <->
     forall n, n ∈ get_all r -> ~ ok n) /\
  (forall n, (exists pick, Selector._select_locked r c pick mdl exclude allowed own = Some n) <->
     n ∈ get_all r /\ ok n /\
     forall m, m ∈ get_all r -> ok m ->
       Tracker.get c (node_id n) <= Tracker.get c (node_id m)).
Proof.
  intros ok. pose proof (SelectorFacts.choose_spec c
    (List.filter (Selector.eligible mdl exclude allowed own) (get_all r))) as [Hn Hs].
  split.
  - intros pick. rewrite SelectorFacts.select_is_choose, Hn. split.
    + intros Hnil n Hin Hok. assert (n ∈ []) as Hx; [|by apply not_elem_of_nil in Hx].
      rewrite <- Hnil. by apply elem_of_filter_bool.
    + intros Hall. apply elem_of_nil_inv. intros n [Hin Hok]%elem_of_filter_bool. by eapply Hall.
  - intros n. setoid_rewrite SelectorFacts.select_is_choose. rewrite Hs.
    unfold SelectorFacts.least, ok. setoid_rewrite elem_of_filter_bool. naive_solver.
Qed.

(** ** Reservations and interleavings

    A [NodeReservation] is a heap object with a [_released] flag; its handle
    is its index in [res].  [release()] has two critical sections: the first
    flips the flag under the reservation's own lock, the second calls
    [_selector._release] under the registry lock.  Other threads may run in
    between, so they are two actions; [pending] holds the node ids of the
    calls that are between the two. *)

Module Reservations.
Section world.
Context {E : Type}.

Record World := mkWorld {
    reg : NodeRegistry E;
    trk : gmap string Z;
    ext : E;
    res : list (Node * bool);
    pending : list string;
  }.

Definition select_and_reserve (pick : nat) (mdl : option string)
    (exclude allowed : option (list string)) (own : option string) (w : World)
    : World * option nat :=
    match Selector._select_locked (reg w) (trk w) pick mdl exclude allowed own with
    | None => (w, None)
    | Some n =>
        (mkWorld (reg w) (Tracker.increment (node_id n) (trk w)) (ext w)
           (res w ++ [(n, false)]) (pending w), Some (length (res w)))
    end.

  (** First critical section of [NodeReservation.release]. *)
Definition release_begin (h : nat) (w : World) : World :=
    match res w !! h with
    | Some (n, false) =>
        mkWorld (reg w) (trk w) (ext w) (<[h := (n, true)]> (res w)) (node_id n :: pending w)
    | _ => w
    end.

  (** [NodeSelector._release(node_id)] *)
Definition _release (id : string) (w : World) : World :=
    let c := Tracker.decrement id (trk w) in
    let '(r, c, e, _) := Selector.sweep_drained_nodes (reg w) c (ext w) in
    mkWorld r c e (res w) (pending w).

Fixpoint remove_one (id : string) (l : list string) : list string :=
    match l with
    | [] => []
    | x :: l => if decide (id = x) then l else x :: remove_one id l
    end.

  (** Second critical section, run by a thread that is in [pending]. *)
Definition release_end (id : string) (w : World) : World :=
    if decide (id ∈ pending w) then
      let w := _release id w in
      mkWorld (reg w) (trk w) (ext w) (res w) (remove_one id (pending w))
    else w.

  (** [release()] run without interruption. *)
Definition release (h : nat) (w : World) : World :=
    match res w !! h with
    | Some (n, false) => release_end (node_id n) (release_begin h w)
    | _ => w
    end.

Definition sweep (w : World) : World :=
    let '(r, c, e, _) := Selector.sweep_drained_nodes (reg w) (trk w) (ext w) in
    mkWorld r c e (res w) (pending w).

Definition with_reg (r : NodeRegistry E) (w : World) : World :=
    mkWorld r (trk w) (ext w) (res w) (pending w).

  (** Every atomic step of the threads that share the registry and tracker:
      request handlers, the etcd watcher, the health checker, the provisioner.
      [AForget] is [tracker.remove] as the provisioner calls it on its cleanup
      paths, whatever the count. *)
Inductive Action :=
  | AReserve (pick : nat) (mdl : option string) (exclude allowed : option (list string))
      (own : option string)
  | AReleaseBegin (h : nat)
  | AReleaseEnd (id : string)
  | ASweep
  | AAdd (n : Node)
  | AAddDiscovered (n : Node)
  | AReconcile (found : list (string * Node)) (present : list string)
  | ADrain (id : string)
  | AUpdateStatus (id : string) (new : NodeStatus) (allowed_from : list NodeStatus)
  | ARemove (id : string)
  | AForget (id : string).

Definition exec (a : Action) (w : World) : World :=
    match a with
    | AReserve pick mdl exclude allowed own =>
        fst (select_and_reserve pick mdl exclude allowed own w)
    | AReleaseBegin h => release_begin h w
    | AReleaseEnd id => release_end id w
    | ASweep => sweep w
    | AAdd n => with_reg (add n (reg w)) w
    | AAddDiscovered n => with_reg (add_discovered n (reg w)) w
    | AReconcile found present =>
        with_reg (fst (reconcile_discovered found present (reg w))) w
    | ADrain id => with_reg (fst (drain id (reg w))) w
    | AUpdateStatus id s al => with_reg (fst (update_status id s al (reg w))) w
    | ARemove id =>
        let '(r, e) := remove id (reg w) (ext w) in
        mkWorld r (trk w) e (res w) (pending w)
    | AForget id =>
        mkWorld (reg w) (Tracker.remove id (trk w)) (ext w) (res w) (pending w)
    end.

Definition run (l : list Action) (w : World) : World := fold_left (fun w a => exec a w) l w.

Definition initial (r : NodeRegistry E) (e : E) : World := mkWorld r ∅ e [] [].

  (** In-flight requests on node [id]: reservations not yet released plus
      releases that have not reached the registry yet. *)
Definition live (id : string) (l : list (Node * bool)) : Z :=
    Z.of_nat (length (List.filter
      (fun x => negb (snd x) && bool_decide (node_id (fst x) = id)) l)).
Definition pend (id : string) (l : list string) : Z :=
    Z.of_nat (length (List.filter (fun x => bool_decide (x = id)) l)).
Definition inflight (id : string) (w : World) : Z := live id (res w) + pend id (pending w).

Definition is_forget (a : Action) : bool :=
    match a with AForget _ => true | _ => false end.
End world.
Arguments World E : clear implicits.
End Reservations.

Module ReservationFacts.
Import Reservations.
Section facts.
Context {E : Type}.
Implicit Types (w : World E).

Lemma sweep_loop l (r : NodeRegistry E) c e rm :
    let '(r', c', e', rm') := fold_left Selector.sweep_step l (r, c, e, rm) in
    (forall k, Tracker.get c' k = Tracker.get c k) /\
    (reg_wf r -> reg_wf r') /\
    (forall k, get r' k =
       if existsb (fun n => bool_decide (node_id n = k) && bool_decide (status n = DRAINING) &&
                            (Tracker.get c k =? 0)) l
       then None else get r k).
Proof.
    revert r c e rm. induction l as [|n l IH]; intros r c e rm; cbn [fold_left]; [done|].
    unfold Selector.sweep_step at 2.
    destruct (bool_decide (status n = DRAINING) && (Tracker.get c (node_id n) =? 0)) eqn:Hd.
    - destruct (remove (node_id n) r e) as [r1 e1] eqn:Hr.
      specialize (IH r1 (Tracker.remove (node_id n) c) e1 (rm ++ [node_id n])).
      destruct (fold_left Selector.sweep_step l _) as [[[r' c'] e'] rm'].
      destruct IH as (Hc & Hwf & Hg). bool_to_prop.
      assert (forall k, Tracker.get (Tracker.remove (node_id n) c) k = Tracker.get c k) as Hsame.
      { intros k. rewrite Tracker.count_remove. case_decide; subst; lia. }
      split; [intros k; rewrite Hc; apply Hsame|]. split.
      { intros Hr0. apply Hwf. replace r1 with (fst (remove (node_id n) r e)) by by rewrite Hr.
        by apply reg_wf_remove. }
      intros k. rewrite Hg. cbn [existsb]. rewrite Hsame.
      replace r1 with (fst (remove (node_id n) r e)) by by rewrite Hr.
      rewrite get_remove. destruct (decide (k = node_id n)) as [->|Hne].
      + rewrite (bool_decide_eq_true_2 (node_id n = node_id n)), (bool_decide_eq_true_2 (status n = DRAINING)) by done.
        replace (Tracker.get c (node_id n) =? 0) with true by (symmetry; by apply Z.eqb_eq).
        cbn. by case_match.
      + rewrite (bool_decide_eq_false_2 (node_id n = k)) by done. done.
    - specialize (IH r c e rm). destruct (fold_left Selector.sweep_step l _) as [[[r' c'] e'] rm'].
      destruct IH as (Hc & Hwf & Hg). split; [done|]. split; [done|].
      intros k. rewrite Hg. cbn [existsb].
      replace (bool_decide (node_id n = k) && bool_decide (status n = DRAINING) &&
               (Tracker.get c k =? 0)) with false; [done|].
      symmetry. destruct (bool_decide (node_id n = k)) eqn:Hk; [|done].
      apply bool_decide_eq_true in Hk. subst. exact Hd.
Qed.

  (** [sweep_drained_nodes] removes exactly the DRAINING nodes with no
      connections and leaves every count as it was. *)
Lemma sweep_spec (r : NodeRegistry E) c e :
    reg_wf r ->
    let '(r', c', e', _) := Selector.sweep_drained_nodes r c e in
    (forall k, Tracker.get c' k = Tracker.get c k) /\ reg_wf r' /\
    (forall k, get r' k =
       match get r k with
       | Some n => if bool_decide (status n = DRAINING) && (Tracker.get c k =? 0)
                   then None else Some n
       | None => None
       end).
Proof.
    intros Hr. pose proof (sweep_loop (get_all r) r c e []) as H.
    unfold Selector.sweep_drained_nodes.
    destruct (fold_left _ _ _) as [[[r' c'] e'] rm']. destruct H as (Hc & Hwf & Hg).
    split; [done|]. split; [by apply Hwf|]. intros k. rewrite Hg.
    destruct (existsb _ _) eqn:He.
    - apply existsb_elem in He as (n & Hin & Hn). bool_to_prop. subst.
      apply get_all_spec in Hin; [|done]. rewrite Hin.
      rewrite bool_decide_eq_true_2 by done. by rewrite (proj2 (Z.eqb_eq _ _)).
    - destruct (get r k) as [n|] eqn:Hk; [|done].
      destruct (bool_decide (status n = DRAINING) && (Tracker.get c k =? 0)) eqn:Hb; [|done].
      exfalso. apply not_true_iff_false in He. apply He. apply existsb_elem.
      assert (node_id n = k) as <- by by apply Hr.
      exists n. split; [by apply get_all_spec|].
      by rewrite bool_decide_eq_true_2, <- andb_assoc.
Qed.

Lemma live_app id l l' : live id (l ++ l') = live id l + live id l'.
Proof. unfold live. rewrite List.filter_app, length_app. lia. Qed.

Lemma live_one id n : live id [(n, false)] = if decide (id = node_id n) then 1 else 0.
Proof. unfold live. cbn. case_bool_decide; case_decide; by try congruence. Qed.

Lemma live_cons id x l :
    live id (x :: l) = live id l +
    (if negb (snd x) && bool_decide (node_id (fst x) = id) then 1 else 0).
Proof. unfold live. cbn [List.filter]. case_match; cbn [length]; lia. Qed.

Lemma live_release id l h n :
    l !! h = Some (n, false) ->
    live id (<[h := (n, true)]> l) = live id l - (if decide (id = node_id n) then 1 else 0).
Proof.
    revert h. induction l as [|x l IH]; intros [|h] Hh; try done.
    - injection Hh as ->. change (<[0%nat := (n, true)]> ((n, false) :: l)) with ((n, true) :: l).
      rewrite !live_cons. cbn. case_bool_decide; case_decide; try congruence; lia.
    - change (<[S h := (n, true)]> (x :: l)) with (x :: <[h := (n, true)]> l).
      rewrite !live_cons, (IH h Hh). lia.
Qed.

Lemma pend_cons id x l : pend id (x :: l) = pend id l + (if decide (id = x) then 1 else 0).
Proof. unfold pend. cbn. case_bool_decide; case_decide; try congruence; cbn; lia. Qed.

Lemma pend_remove_one id x l :
    x ∈ l -> pend id (remove_one x l) = pend id l - (if decide (id = x) then 1 else 0).
Proof.
    induction l as [|y l IH]; [by intros ?%not_elem_of_nil|]. cbn. intros [->|Hx]%elem_of_cons.
    - rewrite decide_True by done. rewrite pend_cons. lia.
    - destruct (decide (x = y)) as [->|]; rewrite ?pend_cons; [lia|]. rewrite IH by done. lia.
Qed.

Lemma pend_pos id l : id ∈ l -> 0 < pend id l.
Proof.
    induction l as [|y l IH]; [by intros ?%not_elem_of_nil|]. intros [->|Hx]%elem_of_cons;
      rewrite pend_cons; [rewrite decide_True by done; unfold pend; lia|].
    specialize (IH Hx). case_decide; lia.
Qed.

Lemma live_nonneg id l : 0 <= live id l.
Proof. unfold live. lia. Qed.
Lemma pend_nonneg id l : 0 <= pend id l.
Proof. unfold pend. lia. Qed.

Definition inv_wf w : Prop := reg_wf (reg w).
  (** The tracker counts every in-flight request. *)
Definition exact w : Prop := forall id, Tracker.get (trk w) id = inflight id w.
  (** The tracker never counts a request that is not in flight. *)
Definition bounded w : Prop := forall id, 0 <= Tracker.get (trk w) id <= inflight id w.

Lemma exact_bounded w : exact w -> bounded w.
Proof.
    intros H id. rewrite H. unfold inflight.
    pose proof (live_nonneg id (res w)). pose proof (pend_nonneg id (pending w)). lia.
Qed.

  (** What every action other than [AForget] does to the counts: the change in
      the tracker is the change in the in-flight requests, up to the floor. *)
Lemma exec_counts a w : inv_wf w -> is_forget a = false -> bounded w ->
    inv_wf (exec a w) /\
    (forall id, Tracker.get (trk (exec a w)) id - Tracker.get (trk w) id =
                inflight id (exec a w) - inflight id w \/
                Tracker.get (trk w) id = 0 /\ Tracker.get (trk (exec a w)) id = 0 /\
                pend id (pending w) > 0).
Proof.
    intros Hw Ha Hb. destruct a; try discriminate; cbn [exec];
      try (split; [unfold inv_wf, with_reg in *; cbn [reg]; solve [auto with qiip]|intros id0; left; cbn; unfold inflight; cbn; lia]).
    - unfold select_and_reserve. case_match; cbn; [|split; [done|intros; left; lia]].
      split; [done|]. intros id. left. rewrite Tracker.get_increment. unfold inflight. cbn.
      rewrite live_app, live_one. case_decide; lia.
    - unfold release_begin. destruct (res w !! h) as [[n []]|] eqn:Hh; cbn;
        try (split; [done|intros; left; lia]).
      split; [done|]. intros id. left. unfold inflight. cbn.
      rewrite (live_release _ _ _ _ Hh), pend_cons. case_decide; lia.
    - unfold release_end. case_decide as Hp; [|split; [done|intros; left; lia]].
      unfold _release. pose proof (sweep_spec (reg w) (Tracker.decrement id (trk w)) (ext w) Hw) as Hs.
      destruct (Selector.sweep_drained_nodes _ _ _) as [[[r' c'] e'] rm]. destruct Hs as (Hc & Hwf & _).
      split; [done|]. intros k. cbn. unfold inflight. cbn.
      rewrite Hc, Tracker.get_decrement, (pend_remove_one _ _ _ Hp).
      pose proof (pend_pos _ _ Hp). destruct (Hb k).
      destruct (decide (k = id)) as [->|Hne]; [|rewrite decide_False by tauto; left; lia].
      destruct (Z.ltb_spec 0 (Tracker.get (trk w) id)).
      + rewrite decide_True by done. left. lia.
      + rewrite decide_False by lia. right. lia.
    - unfold sweep. pose proof (sweep_spec (reg w) (trk w) (ext w) Hw) as Hs.
      destruct (Selector.sweep_drained_nodes _ _ _) as [[[r' c'] e'] rm]. destruct Hs as (Hc & Hwf & _).
      split; [done|]. intros k. cbn. left. unfold inflight. cbn. rewrite Hc. lia.
    - destruct (remove id (reg w) (ext w)) as [r' e'] eqn:Hr. split.
      + unfold inv_wf. cbn. replace r' with (fst (remove id (reg w) (ext w))) by by rewrite Hr.
        by apply reg_wf_remove.
      + intros k. left. cbn. unfold inflight. cbn. lia.
Qed.

Lemma exec_exact a w : inv_wf w -> is_forget a = false -> exact w ->
    inv_wf (exec a w) /\ exact (exec a w).
Proof.
    intros Hw Ha He. destruct (exec_counts a w Hw Ha (exact_bounded _ He)) as [Hwf Hc].
    split; [done|]. intros id. specialize (He id). destruct (Hc id) as [|(Hz & Hz' & Hp)]; [lia|].
    unfold inflight in He. pose proof (live_nonneg id (res w)). lia.
Qed.

Lemma exec_bounded a w : inv_wf w -> bounded w -> inv_wf (exec a w) /\ bounded (exec a w).
Proof.
    intros Hw Hb. destruct (is_forget a) eqn:Ha.
    - destruct a; try discriminate. split; [done|]. intros k. cbn. rewrite Tracker.count_remove.
      unfold inflight. cbn. specialize (Hb k). unfold inflight in Hb.
      pose proof (live_nonneg k (res w)). pose proof (pend_nonneg k (pending w)). case_decide; lia.
    - destruct (exec_counts a w Hw Ha Hb) as [Hwf Hc]. split; [done|]. intros k.
      specialize (Hb k). destruct (Hc k) as [Heq|(Hz & Hz' & Hp)].
      + assert (0 <= Tracker.get (trk (exec a w)) k) as Hnn.
        { destruct a; cbn in *; try lia.
          - unfold select_and_reserve in *. case_match; cbn in *; [|lia].
            rewrite Tracker.get_increment in *. case_decide; lia.
          - unfold release_begin. repeat case_match; cbn; lia.
          - unfold release_end in *. case_decide; [|lia]. cbn in *. unfold _release in *.
            pose proof (sweep_spec (reg w) (Tracker.decrement id (trk w)) (ext w) Hw) as Hs.
            destruct (Selector.sweep_drained_nodes _ _ _) as [[[? ?] ?] ?].
            destruct Hs as (Hc' & _). cbn in *. rewrite Hc', Tracker.get_decrement. case_decide; lia.
          - unfold sweep in *. pose proof (sweep_spec (reg w) (trk w) (ext w) Hw) as Hs.
            destruct (Selector.sweep_drained_nodes _ _ _) as [[[? ?] ?] ?].
            destruct Hs as (Hc' & _). cbn in *. rewrite Hc'. lia.
          - destruct (remove id (reg w) (ext w)). cbn in *. lia. }
        lia.
      + unfold inflight. pose proof (live_nonneg k (res (exec a w))).
        pose proof (pend_nonneg k (pending (exec a w))). lia.
Qed.

Lemma run_exact l w : inv_wf w -> exact w -> forallb (fun a => negb (is_forget a)) l = true ->
    inv_wf (run l w) /\ exact (run l w).
Proof.
    revert w. induction l as [|a l IH]; intros w Hw He Hl; [done|]. cbn in Hl. bool_to_prop.
    destruct (exec_exact a w) as [??]; [done..|]. by apply IH.
Qed.

Lemma run_bounded l w : inv_wf w -> bounded w -> inv_wf (run l w) /\ bounded (run l w).
Proof.
    revert w. induction l as [|a l IH]; intros w Hw He; [done|].
    destruct (exec_bounded a w) as [??]; [done..|]. by apply IH.
Qed.

Lemma initial_exact r e : exact (initial r e : World E).
Proof. by intros id. Qed.
End facts.
End ReservationFacts.

(** ** Theorems *)

Import Reservations.

(** C2: connection accounting under every interleaving.  Whatever the request
    handlers, the etcd watcher, the health checker and status changes do, in
    any order, the tracker's count of a node is the number of reservations on
    it that are not yet released (releases in progress included). *)
Theorem reservation_accounting {E} (l : list Action) (r : NodeRegistry E) (e : E) :
  reg_wf r -> forallb (fun a => negb (is_forget a)) l = true ->
  let w := run l (initial r e) in
  reg_wf (reg w) /\ forall id, Tracker.get (trk w) id = live id (res w) + pend id (pending w).
Proof.
  intros Hr Hl. apply (ReservationFacts.run_exact l (initial r e)); try done.
Qed.

Definition ex_trace : list Action :=
  [AReserve 0 None None None None; ADrain "b"; AReserve 1 None None None None;
   AReleaseBegin 0; AReleaseBegin 0].

Lemma reservation_accounting_witness :
  let w := run ex_trace (initial ex_reg tt) in
  reg_wf (reg w) /\ Tracker.get (trk w) "b" = live "b" (res w) + pend "b" (pending w).
Proof.
  destruct (reservation_accounting ex_trace ex_reg tt) as [H1 H2]; [apply ex_reg_wf|done|].
  split; [exact H1|apply H2].
Defined.

(** Drain cleanup.  A sweep removes exactly the DRAINING nodes that no
    request is in flight on; every other registration, in particular a node
    with an unreleased reservation, is left as it was. *)
Theorem sweep_drains_exactly {E} (l : list Action) (r : NodeRegistry E) (e : E) :
  reg_wf r -> forallb (fun a => negb (is_forget a)) l = true ->
  let w := run l (initial r e) in
  forall k, get (reg (sweep w)) k =
    match get (reg w) k with
    | Some n => if decide (status n = DRAINING /\ inflight k w = 0) then None else Some n
    | None => None
    end.
Proof.
  intros Hr Hl w k. destruct (ReservationFacts.run_exact l (initial r e)) as [Hw He]; try done.
  fold w in Hw, He. unfold sweep.
  pose proof (ReservationFacts.sweep_spec (reg w) (trk w) (ext w) Hw) as Hs.
  destruct (Selector.sweep_drained_nodes _ _ _) as [[[r' c'] e'] rm]. destruct Hs as (_ & _ & Hg).
  cbn. rewrite Hg. destruct (get (reg w) k) as [n|]; [|done]. rewrite (He k).
  destruct (decide (status n = DRAINING /\ inflight k w = 0)) as [[Hd Hz]|Hn].
  - by rewrite bool_decide_eq_true_2, Hz.
  - case_bool_decide; [|done]. destruct (Z.eqb_spec (inflight k w) 0); naive_solver.
Qed.

Lemma sweep_drains_exactly_witness :
  let w := run ex_trace (initial ex_reg tt) in
  get (reg (sweep w)) "b" = get (reg w) "b" /\ is_Some (get (reg (sweep w)) "b").
Proof.
  pose proof (sweep_drains_exactly ex_trace ex_reg tt ex_reg_wf eq_refl "b") as H.
  cbv zeta in *. split; rewrite H; vm_compute; [reflexivity|eauto].
Defined.

(** The tracker never over-counts, even on the provisioner's cleanup
    paths that drop a node's counter outright: no request is counted twice or
    after its release. *)
Theorem counts_never_exceed_inflight {E} (l : list Action) (r : NodeRegistry E) (e : E) :
  reg_wf r ->
  let w := run l (initial r e) in
  forall id, 0 <= Tracker.get (trk w) id <= inflight id w.
Proof.
  intros Hr. apply (ReservationFacts.run_bounded l (initial r e)); [done|].
  apply ReservationFacts.exact_bounded, ReservationFacts.initial_exact.
Qed.

Lemma counts_never_exceed_inflight_witness :
  let w := run (ex_trace ++ [AForget "b"; AReleaseEnd "b"]) (initial ex_reg tt) in
  0 <= Tracker.get (trk w) "b" <= inflight "b" w.
Proof. apply (counts_never_exceed_inflight _ ex_reg tt). apply ex_reg_wf. Defined.

(** The cleanup order that loses a request: the node's counter is dropped with
    a request in flight, the node registers again under the same id and gets a
    second request, and the first request's release takes the second one's
    count. *)
Definition aba_trace : list Action :=
  [AReserve 0 None None None None; ARemove "b"; AForget "b"; AAddDiscovered ex_b;
   AReserve 0 None None None None; AReleaseBegin 0; AReleaseEnd "b"; ADrain "b"; ASweep].

(** After [cleanup_stale_node] forgets a counter that still covers a
    request, a later drain of the re-registered node does not wait: the node
    is removed while a reservation on it is unreleased. *)
Theorem forget_breaks_drain :
  let w := run aba_trace (initial ex_reg tt) in
  get (reg w) "b" = None /\ live "b" (res w) = 1.
Proof. vm_compute. done. Qed.
