(* ===== verification/Auth.v ===== *)
(** * Caller identity and scopes

    - [Scopes]: [inference_proxy/auth/scopes.py] over the identity models of
      [inference_proxy/auth/models.py]
    - [Allowlist]: [inference_proxy/auth/allowlist.py]
    - [Signin]: [inference_proxy/auth/signin_policy.py]
    - [Dependencies]: the token authentication of
      [inference_proxy/auth/dependencies.py]

    The token store is the argument [resolve_token], which [AuthStore] supplies;
    the HTTP fetch of the allowlist document and the clock readings are inputs. *)

From Stdlib Require Import Ascii.
From S2P Require Import Prelude PyDict NodeModel Registry Routing.
Local Open Scope Z_scope.

Record User := {
  user_pk : Z;
  google_sub : string;
  issuer : string;
  email : string;
  user_name : string;
  picture : string;
  is_admin : bool;
  user_created_at : Z;
  user_updated_at : Z;
}.

Record ApiToken := {
  token_pk : Z;
  token_user_id : Z;
  token_name : string;
  prefix : string;
  token_created_at : Z;
  last_used_at : option Z;
  revoked : bool;
  endpoint_scope : option (list string);
  model_scope : option (list string);
  purpose : option string;
}.

Record TokenAuth := { user : User; token : ApiToken }.

(** The settings this component reads ([settings.auth] and [settings.oauth]). *)
Record AuthSettings := {
  admin_only_tokens_full_access : list string;
  admin_only_tokens_full_access_by_issuer : list (string * list string);
  require_email_verification : bool;
  enforce_sso_whitelist : bool;
  enforce_api_tokens : bool;
  allowed_domains : list string;
}.

Definition GOOGLE_ISSUER : string := "https://accounts.google.com".

(** [any(item.lower() == normalized for item in items)] *)
Definition listed (normalized : string) (items : list string) : bool :=
  existsb (fun item => bool_decide (py_lower item = normalized)) items.

Module Scopes.
Definition is_full_access (mail iss : string) (s : AuthSettings) : bool :=
  let normalized := py_lower mail in
  if bool_decide (iss = GOOGLE_ISSUER) && listed normalized (admin_only_tokens_full_access s)
  then true
  else match dget iss (admin_only_tokens_full_access_by_issuer s) with
       | None => false
       | Some [] => false
       | Some per_issuer => listed normalized per_issuer
       end.

Definition has_admin_access (mail iss : string) (s : AuthSettings) (admin : bool) : bool :=
  is_full_access mail iss s || admin.

Definition allowed_node_ids (auth : option TokenAuth) (s : AuthSettings) : option (list string) :=
  match auth with None => None | Some a => endpoint_scope (token a) end.

Definition admin_caller (u : User) (s : AuthSettings) : bool :=
  has_admin_access (email u) (issuer u) s (is_admin u).

Definition scope_owner (auth : option TokenAuth) (s : AuthSettings) : option string :=
  match auth with
  | None => Some ""
  | Some a => if admin_caller (user a) s then None else Some (py_lower (email (user a)))
  end.

Definition auth_scope (auth : option TokenAuth) (s : AuthSettings)
  : option (list string) * option string :=
  match auth with
  | None => (None, Some "")
  | Some a =>
      let allowed := endpoint_scope (token a) in
      if admin_caller (user a) s then (allowed, None)
      else (allowed, Some (py_lower (email (user a))))
  end.

(** One round of the loop of [pickable_endpoints]. *)
Definition pickable (admin : bool) (mail : string) (n : Node) : bool :=
  if negb admin && admin_only n then false
  else admin || negb (str_truthy (owner n)) || bool_decide (py_lower (owner n) = mail).

Definition pickable_endpoints (user_email iss : string) (s : AuthSettings) (nodes : list Node)
  (admin : bool) : list string :=
  let admin := has_admin_access user_email iss s admin in
  let mail := py_lower user_email in
  sort_by String.leb (node_id <$> List.filter (pickable admin mail) nodes).
End Scopes.

(** ** The SSO allowlist *)

Module Allowlist.
Inductive AllowlistUnavailableError :=
| not_configured | temporarily_unavailable | fetch_timed_out | bad_status | too_large
| fetch_failed | invalid_json | malformed_email | default_domain_required.

Definition email_domain (mail : string) : string :=
  match rsplit1 "@"%char mail with
  | None => ""
  | Some (_, d) => py_lower (py_strip d)
  end.

(** [domains.setdefault(domain, set()).add(username)] *)
Definition add_user (domain username : string) (d : list (string * list string)) :=
  let users := default [] (dget domain d) in
  dset domain (if decide (username ∈ users) then users else users ++ [username]) d.

Definition flat_entry (default_domain : option string)
  (d : list (string * list string)) (entry : string)
  : result AllowlistUnavailableError (list (string * list string)) :=
  let name := py_lower (py_strip entry) in
  if negb (str_truthy name) then Ok d
  else match rsplit1 "@"%char name with
  | Some (username, domain) =>
      if negb (str_truthy domain) || negb (str_truthy username) then Err malformed_email
      else Ok (add_user domain username d)
  | None =>
      match default_domain with
      | Some dd => if str_truthy dd then Ok (add_user dd name d) else Err default_domain_required
      | None => Err default_domain_required
      end
  end.

Fixpoint flat_entries (default_domain : option string) (entries : list string)
  (d : list (string * list string))
  : result AllowlistUnavailableError (list (string * list string)) :=
  match entries with
  | [] => Ok d
  | e :: entries => let? d := flat_entry default_domain d e in flat_entries default_domain entries d
  end.

Definition _normalize_flat_entries (entries : list string) (default_domain : option string) :=
  flat_entries default_domain entries [].

(** A document that passed the [TypeAdapter]. *)
Inductive document :=
| DomainMap (d : list (string * list string))
| FlatList (l : list string).

(** The users of one domain: [frozenset(username.strip().lower() ...)]. *)
Definition clean_users (users : list string) : list string :=
  (fun u => py_lower (py_strip u)) <$> List.filter (fun u => str_truthy (py_strip u)) users.

(** [raw] is what [json.loads] returned; [None] when validation fails. *)
Definition _normalize_document (raw : option document) (default_domain : option string)
  : result AllowlistUnavailableError (list (string * list string)) :=
  match raw with
  | None => Err invalid_json
  | Some (FlatList l) => _normalize_flat_entries l default_domain
  | Some (DomainMap d) =>
      Ok (fold_left (fun acc du => dset (py_lower (py_strip (fst du))) (clean_users (snd du)) acc)
            (List.filter (fun du => str_truthy (py_strip (fst du))) d) [])
  end.

(** *** Freshness window

    Wall-clock times are microseconds; the server's local time is the wall
    clock plus a fixed offset. *)
Definition second : Z := 1000000.
Definition hour : Z := 3600 * second.
Definition day : Z := 24 * hour.

Inductive poll := Hourly | Daily (poll_time : option (Z * Z)).

Definition _next_refresh_at (utc_offset : Z) (p : poll) (now : Z) : Z :=
  let current := now + utc_offset in
  match p with
  | Daily None => now + 86400 * second
  | Daily (Some (h, m)) =>
      let boundary := current - current mod day + h * hour + m * 60 * second in
      let boundary := if boundary <=? current then boundary + day else boundary in
      boundary - utc_offset
  | Hourly =>
      let boundary := current - current mod hour in
      let boundary := if boundary <=? current then boundary + hour else boundary in
      boundary - utc_offset
  end.

Record SSOAllowlist := {
  _poll : poll;
  _utc_offset : Z;
  _default_domain : option string;
  _domains : list (string * list string);
  _extra_users : list string;
  _extra_domains : list string;
  _retry_after : Z;
  _next_refresh : Z;
  _loaded : bool;
}.

Definition _RETRY_COOLDOWN_SECONDS : Z := 30 * second.
Definition _MAX_ALLOWLIST_BYTES : Z := 1048576.

Definition _fresh (a : SSOAllowlist) (now : Z) : bool := _loaded a && (now <? _next_refresh a).

Definition _reject_during_cooldown (a : SSOAllowlist) (monotonic : Z)
  : result AllowlistUnavailableError unit :=
  raise_if (monotonic <? _retry_after a) temporarily_unavailable.

(** What the HTTP stream delivers: a response with its body in chunks and the
    decoded document, or an [httpx.HTTPError]. *)
Inductive stream :=
| StreamError
| StreamResponse (status_code : Z) (chunks : list Z) (body : option document).

(** The [async for chunk] loop: the accumulated size after every chunk. *)
Fixpoint read_body (size : Z) (chunks : list Z) : bool :=
  match chunks with
  | [] => true
  | c :: chunks => if _MAX_ALLOWLIST_BYTES <? size + c then false else read_body (size + c) chunks
  end.

Definition _fetch (a : SSOAllowlist) (s : stream)
  : result AllowlistUnavailableError (list (string * list string)) :=
  match s with
  | StreamError => Err fetch_failed
  | StreamResponse code chunks body =>
      raise_if (negb (code =? 200)) bad_status ;?
      raise_if (negb (read_body 0 chunks)) too_large ;?
      _normalize_document body (_default_domain a)
  end.

Definition set_retry (t : Z) (a : SSOAllowlist) : SSOAllowlist :=
  {| _poll := _poll a; _utc_offset := _utc_offset a; _default_domain := _default_domain a;
     _domains := _domains a; _extra_users := _extra_users a; _extra_domains := _extra_domains a;
     _retry_after := t; _next_refresh := _next_refresh a; _loaded := _loaded a |}.

Definition set_document (d : list (string * list string)) (now : Z) (a : SSOAllowlist)
  : SSOAllowlist :=
  {| _poll := _poll a; _utc_offset := _utc_offset a; _default_domain := _default_domain a;
     _domains := d; _extra_users := _extra_users a; _extra_domains := _extra_domains a;
     _retry_after := _retry_after a; _next_refresh := _next_refresh_at (_utc_offset a) (_poll a) now;
     _loaded := true |}.

(** The clock readings of one call, in program order, and what the fetch met:
    [None] is the [wait_for] timeout. *)
Record Env := {
  wall_first : Z; mono_first : Z;
  wall_locked : Z; mono_locked : Z;
  fetch : option stream;
  wall_after : Z; mono_after : Z;
}.

(** [_current]; [others] is what concurrent callers do to the shared cache
    while this one waits for the lock. *)
Definition _current (others : SSOAllowlist -> SSOAllowlist) (env : Env) (a : SSOAllowlist)
  : SSOAllowlist * result AllowlistUnavailableError (list (string * list string)) :=
  if _fresh a (wall_first env) then (a, Ok (_domains a))
  else match _reject_during_cooldown a (mono_first env) with
  | Err e => (a, Err e)
  | Ok _ =>
      let a := others a in
      if _fresh a (wall_locked env) then (a, Ok (_domains a))
      else match _reject_during_cooldown a (mono_locked env) with
      | Err e => (a, Err e)
      | Ok _ =>
          let failed e := (set_retry (mono_after env + _RETRY_COOLDOWN_SECONDS) a, Err e) in
          match fetch env with
          | None => failed fetch_timed_out
          | Some s =>
              match _fetch a s with
              | Err e => failed e
              | Ok d => let a := set_document d (wall_after env) a in (a, Ok (_domains a))
              end
          end
      end
  end.

Definition is_allowed (others : SSOAllowlist -> SSOAllowlist) (env : Env) (mail : string)
  (a : SSOAllowlist) : SSOAllowlist * result AllowlistUnavailableError bool :=
  let normalized := py_lower (py_strip mail) in
  if bool_decide (normalized ∈ _extra_users a) then (a, Ok true)
  else
    let domain := email_domain normalized in
    if negb (str_truthy domain) then (a, Ok false)
    else if bool_decide (domain ∈ _extra_domains a) then (a, Ok true)
    else
      let username := match rsplit1 "@"%char normalized with Some (u, _) => u | None => normalized end in
      let '(a, docs) := _current others env a in
      (a, let? docs := docs in
          Ok (match dget domain docs with
              | Some users => bool_decide (username ∈ users)
              | None => false
              end)).

(** [enforce_allowlist(email, allowlist)] *)
Definition enforce_allowlist (others : SSOAllowlist -> SSOAllowlist) (env : Env) (mail : string)
  (a : option SSOAllowlist) : option SSOAllowlist * result AllowlistUnavailableError bool :=
  match a with
  | None => (None, Err not_configured)
  | Some a => let '(a, r) := is_allowed others env mail a in (Some a, r)
  end.
End Allowlist.

(** ** Sign-in policy *)

Module Signin.
Inductive code := unverified_email | domain_not_allowed | allowlist_unavailable | not_whitelisted.

(** [gate] is the outcome of [enforce_allowlist] for this e-mail address. *)
Definition check_signin_policy (mail iss : string) (email_verified : bool) (s : AuthSettings)
  (gate : result Allowlist.AllowlistUnavailableError bool) : option code :=
  if require_email_verification s && negb email_verified then Some unverified_email
  else
    let domains := py_lower <$> allowed_domains s in
    if negb (bool_decide (domains = [])) &&
       negb (bool_decide (Allowlist.email_domain mail ∈ domains)) then Some domain_not_allowed
    else if enforce_sso_whitelist s && negb (Scopes.is_full_access mail iss s) then
      match gate with
      | Err _ => Some allowlist_unavailable
      | Ok allowed => if allowed then None else Some not_whitelisted
      end
    else None.
End Signin.

(** ** Token authentication *)

Module Dependencies.
Inductive ApiAuthError :=
| Invalid_API_token | Authentication_required | SSO_whitelist_unavailable | SSO_whitelist_denied.

(** The two headers the dependency reads; a missing header is [""]. *)
Record Headers := { authorization : string; x_api_key : string; x_qiip_require_token : string }.

Definition _presented_tokens (h : Headers) (accept_x_api_key : bool) : list string :=
  let '(scheme, _, raw_token) := partition " "%char (authorization h) in
  let tokens := if bool_decide (py_lower scheme = "bearer") && str_truthy (py_strip raw_token)
                then [py_strip raw_token] else [] in
  if accept_x_api_key then
    let api_key := py_strip (x_api_key h) in
    if str_truthy api_key && negb (bool_decide (api_key ∈ tokens)) then tokens ++ [api_key] else tokens
  else tokens.

Definition _requires_token (h : Headers) : bool :=
  bool_decide (py_lower (py_strip (x_qiip_require_token h)) ∈ ["1"; "true"]).

Section authenticate.
Context (resolve_token : string -> option TokenAuth).
Context (gate : string -> result Allowlist.AllowlistUnavailableError bool).
Context (s : AuthSettings).

Definition _enforce_sso_whitelist (auth : TokenAuth) : result ApiAuthError unit :=
  if negb (enforce_sso_whitelist s) then Ok tt
  else if Scopes.is_full_access (email (user auth)) (issuer (user auth)) s then Ok tt
  else match gate (email (user auth)) with
       | Err _ => Err SSO_whitelist_unavailable
       | Ok allowed => raise_if (negb allowed) SSO_whitelist_denied
       end.

(** The [for token in presented] loop: [None] when no token resolves. *)
Fixpoint resolve_first (presented : list string) : result ApiAuthError (option TokenAuth) :=
  match presented with
  | [] => Ok None
  | t :: presented =>
      match resolve_token t with
      | Some auth => _enforce_sso_whitelist auth ;? Ok (Some auth)
      | None => resolve_first presented
      end
  end.

Definition _authenticate (presented : list string) (required : bool)
  : result ApiAuthError (option TokenAuth) :=
  let? auth := resolve_first presented in
  match auth with
  | Some auth => Ok (Some auth)
  | None =>
      if required || enforce_api_tokens s then
        match presented with
        | [] => Err Authentication_required
        | _ => Err Invalid_API_token
        end
      else Ok None
  end.

Definition get_api_auth (h : Headers) : result ApiAuthError (option TokenAuth) :=
  _authenticate (_presented_tokens h false) (_requires_token h).

Definition get_messages_api_auth (h : Headers) : result ApiAuthError (option TokenAuth) :=
  _authenticate (_presented_tokens h true) (_requires_token h).
End authenticate.
End Dependencies.

(** ** What the scope filters guarantee *)

(** What a caller may be routed to: pinned tokens to their pin, everyone but
    administrators to unowned and own nodes that are not admin-only. *)
Definition may_use (auth : option TokenAuth) (s : AuthSettings) (n : Node) : Prop :=
  (forall a ids, auth = Some a -> endpoint_scope (token a) = Some ids -> node_id n ∈ ids) /\
  (match auth with
   | Some a => Scopes.admin_caller (user a) s = true \/
               (admin_only n = false /\
                (owner n = "" \/ py_lower (owner n) = py_lower (email (user a))))
   | None => admin_only n = false /\ owner n = ""
   end).

Lemma str_truthy_true s : str_truthy s = true <-> s <> "".
Proof. unfold str_truthy. rewrite negb_true_iff, bool_decide_eq_false. done. Qed.

Lemma str_truthy_false s : str_truthy s = false <-> s = "".
Proof. unfold str_truthy. by rewrite negb_false_iff, bool_decide_eq_true. Qed.

(** [_in_scope] in logical form. *)
Lemma in_scope_spec n allowed own :
  Selector._in_scope n allowed own = true <->
  (forall ids, allowed = Some ids -> node_id n ∈ ids) /\
  (forall o, own = Some o -> admin_only n = false /\
     (owner n = "" \/ py_lower (owner n) = py_lower o)).
Proof.
  unfold Selector._in_scope. split.
  - intros H. split.
    + intros ids ->. destruct (bool_decide (node_id n ∉ ids)) eqn:Hb; [done|].
      apply bool_decide_eq_false in Hb. destruct (decide (node_id n ∈ ids)); [done|tauto].
    + intros o ->. destruct (match allowed with Some _ => _ | None => _ end); [done|].
      cbn in H. destruct (admin_only n); [done|]. split; [done|]. cbn in H.
      apply negb_true_iff, andb_false_iff in H as [H|H]; [left; by apply str_truthy_false|right].
      bool_to_prop. done.
  - intros [Ha Ho]. assert (match allowed with Some ids => bool_decide (node_id n ∉ ids) | None => false end = false) as ->.
    { destruct allowed as [ids|]; [|done]. apply bool_decide_eq_false. intros Hn. by apply Hn, Ha. }
    destruct own as [o|]; cbn [is_some is_none negb andb]; [|by rewrite andb_false_r].
    destruct (Ho o eq_refl) as [-> Hown]. cbn. apply negb_true_iff, andb_false_iff.
    destruct Hown as [Hown|Hown]; [left; by apply str_truthy_false|right].
    rewrite bool_decide_true by done. done.
Qed.

Lemma auth_scope_in_scope auth s n :
  Selector._in_scope n (fst (Scopes.auth_scope auth s)) (snd (Scopes.auth_scope auth s)) = true <->
  may_use auth s n.
Proof.
  rewrite in_scope_spec. unfold may_use, Scopes.auth_scope. destruct auth as [a|]; cbn [fst snd].
  - destruct (Scopes.admin_caller (user a) s); cbn [fst snd].
    + split; [intros [H _]|intros [H _]]; (split; [|by auto || done]); intros; simplify_eq; eauto.
    + rewrite <- (py_lower_idemp (email (user a))). split.
      * intros [H1 H2]. split; [intros; simplify_eq; eauto|right].
        destruct (H2 _ eq_refl) as [? [?|Hx]]; split; auto. rewrite py_lower_idemp in Hx. auto.
      * intros [H1 [|[H2 H3]]]; [done|]. split; [eauto|]. intros o [= <-]. split; [done|].
        destruct H3 as [|Hx]; [by left|right]. by rewrite py_lower_idemp.
  - split.
    + intros [_ H]. split; [done|]. destruct (H "" eq_refl) as [? [?|Hx]]; [done|]. split; [done|].
      by destruct (owner n).
    + intros [_ [H1 H2]]. split; [done|]. intros o [= <-]. auto.
Qed.

Lemma select_eligible {E} (r : NodeRegistry E) c pick mdl exclude allowed own n :
  Selector._select_locked r c pick mdl exclude allowed own = Some n ->
  n ∈ get_all r /\ Selector.eligible mdl exclude allowed own n = true.
Proof.
  rewrite SelectorFacts.select_is_choose. intros H.
  destruct (SelectorFacts.choose_spec c (List.filter (Selector.eligible mdl exclude allowed own) (get_all r)))
    as [_ Hs].
  destruct (proj1 (Hs n)) as [Hin _]; [by exists pick|]. by apply elem_of_filter_bool in Hin.
Qed.

(** Sorting and the choice among ties only look at the counts of the members. *)
Lemma choose_ext c c' pick l :
  (forall n, n ∈ l -> Tracker.get c (node_id n) = Tracker.get c' (node_id n)) ->
  Selector.choose c pick l = Selector.choose c' pick l.
Proof.
  intros H. unfold Selector.choose.
  assert (forall k, (forall n, n ∈ k -> n ∈ l) ->
    sort_by (Selector.by_connections c) k = sort_by (Selector.by_connections c') k) as Hsort.
  { induction k as [|x k IH]; intros Hk; [done|].
    change (insert_by (Selector.by_connections c) x (sort_by (Selector.by_connections c) k) =
            insert_by (Selector.by_connections c') x (sort_by (Selector.by_connections c') k)).
    rewrite IH by set_solver.
    assert (forall j, (forall n, n ∈ j -> n ∈ l) ->
      insert_by (Selector.by_connections c) x j = insert_by (Selector.by_connections c') x j) as Hins.
    { induction j as [|y j IHj]; intros Hj; [done|]. cbn [insert_by].
      assert (Selector.by_connections c x y = Selector.by_connections c' x y) as ->.
      { unfold Selector.by_connections. rewrite !H; [done|apply Hj; set_solver|apply Hk; set_solver]. }
      case_match; [done|]. by rewrite IHj by set_solver. }
    apply Hins. intros n. rewrite sort_by_perm. set_solver. }
  rewrite Hsort by done. destruct (sort_by (Selector.by_connections c') l) as [|f s] eqn:Hs; [done|].
  assert (forall n, n ∈ f :: s -> Tracker.get c (node_id n) = Tracker.get c' (node_id n)) as Hfs.
  { intros n Hn. apply H. rewrite <- Hs, sort_by_perm in Hn. done. }
  rewrite (Hfs f) by set_solver.
  assert (List.filter (fun n => Tracker.get c (node_id n) =? Tracker.get c' (node_id f)) (f :: s) =
          List.filter (fun n => Tracker.get c' (node_id n) =? Tracker.get c' (node_id f)) (f :: s)) as ->; [|done].
  generalize (Tracker.get c' (node_id f)). intros z. clear Hs.
  induction (f :: s) as [|x k IH]; [done|]. cbn [List.filter]. rewrite (Hfs x) by set_solver.
  rewrite IH by (intros; apply Hfs; set_solver). done.
Qed.

(** C3: a request is only ever routed to a registered HEALTHY node its caller
    may use: an endpoint pin binds every token, administrators included, and
    nobody but an administrator reaches an admin-only node or a node that
    belongs to someone else. *)
Theorem routing_isolation {E} (r : NodeRegistry E) c pick mdl exclude auth s n :
  Selector._select_locked r c pick mdl exclude
    (fst (Scopes.auth_scope auth s)) (snd (Scopes.auth_scope auth s)) = Some n ->
  n ∈ get_all r /\ status n = HEALTHY /\ may_use auth s n.
Proof.
  intros [Hin He]%select_eligible. unfold Selector.eligible in He. bool_to_prop.
  split_and!; [done|done|]. by apply auth_scope_in_scope.
Qed.

(** Nodes outside a caller's scope cannot be observed through routing: two
    registries that show the caller the same nodes, with the same connection
    counts on them, route the request identically. *)
Theorem scope_noninterference {E} (r r' : NodeRegistry E) c c' pick mdl exclude auth s :
  let scope := Scopes.auth_scope auth s in
  let visible reg := List.filter (fun n => Selector._in_scope n (fst scope) (snd scope)) (get_all reg) in
  visible r = visible r' ->
  (forall n, n ∈ visible r -> Tracker.get c (node_id n) = Tracker.get c' (node_id n)) ->
  Selector._select_locked r c pick mdl exclude (fst scope) (snd scope) =
  Selector._select_locked r' c' pick mdl exclude (fst scope) (snd scope).
Proof.
  intros scope visible Hv Hc. rewrite !SelectorFacts.select_is_choose.
  assert (forall reg : NodeRegistry E,
    List.filter (Selector.eligible mdl exclude (fst scope) (snd scope)) (get_all reg) =
    List.filter (Selector.eligible mdl exclude (fst scope) (snd scope)) (visible reg)) as Hf.
  { intros reg. unfold visible. rewrite filter_filter_andb. apply List.filter_ext. intros n.
    unfold Selector.eligible. destruct (Selector._in_scope n _ _); [done|]. by rewrite andb_false_r. }
  rewrite (Hf r), (Hf r'), <- Hv. apply choose_ext.
  intros n [Hn _]%elem_of_filter_bool. by apply Hc.
Qed.

(** The endpoint picker offers exactly the node ids the router would let
    the same account reach without a pin, so the two authorization paths
    agree; and [allowed_node_ids] / [scope_owner] are the two halves of
    [auth_scope]. *)
Theorem pickable_matches_routing (a : TokenAuth) (s : AuthSettings) (nodes : list Node) :
  (forall id, id ∈ Scopes.pickable_endpoints (email (user a)) (issuer (user a)) s nodes (is_admin (user a)) <->
     exists n, n ∈ nodes /\ node_id n = id /\
       Selector._in_scope n None (snd (Scopes.auth_scope (Some a) s)) = true) /\
  (forall auth, Scopes.auth_scope auth s = (Scopes.allowed_node_ids auth s, Scopes.scope_owner auth s)).
Proof.
  split.
  - intros id. unfold Scopes.pickable_endpoints. rewrite sort_by_perm, list_elem_of_fmap.
    setoid_rewrite elem_of_filter_bool. unfold Scopes.auth_scope, Scopes.admin_caller.
    set (adm := Scopes.has_admin_access _ _ _ _).
    assert (forall n, Scopes.pickable adm (py_lower (email (user a))) n = true <->
      Selector._in_scope n None (if adm then None else Some (py_lower (email (user a)))) = true) as Hn.
    { intros n. rewrite in_scope_spec. unfold Scopes.pickable. destruct adm; cbn [negb andb orb].
      { split; [|done]. intros _. split; [done|]. done. }
      destruct (admin_only n).
      { split; [done|]. intros [_ H]. by destruct (H _ eq_refl). }
      rewrite orb_true_iff, negb_true_iff, str_truthy_false, bool_decide_eq_true. split.
      - intros H. split; [done|]. intros o [= <-]. split; [done|]. by rewrite py_lower_idemp.
      - intros [_ H]. destruct (H _ eq_refl) as [_ H']. by rewrite py_lower_idemp in H'. }
    replace (snd (if adm then (endpoint_scope (token a), None)
                  else (endpoint_scope (token a), Some (py_lower (email (user a))))))
      with (if adm then None else Some (py_lower (email (user a)))) by (by destruct adm).
    setoid_rewrite Hn. naive_solver.
  - intros [b|]; [|done]. unfold Scopes.auth_scope, Scopes.allowed_node_ids, Scopes.scope_owner.
    by destruct (Scopes.admin_caller (user b) s).
Qed.

(** ** The allowlist fails closed *)

Section allowlist_facts.
Import Allowlist.

Lemma current_origin others env a docs : snd (_current others env a) = Ok docs ->
  (_fresh a (wall_first env) = true /\ docs = _domains a) \/
  (_fresh (others a) (wall_locked env) = true /\ docs = _domains (others a)) \/
  (exists st, fetch env = Some st /\ _fetch (others a) st = Ok docs).
Proof.
  unfold _current. destruct (_fresh a (wall_first env)); [intros [= <-]; auto|].
  destruct (_reject_during_cooldown a _); [|done].
  destruct (_fresh (others a) (wall_locked env)); [intros [= <-]; auto|].
  destruct (_reject_during_cooldown (others a) _); [|done].
  destruct (fetch env) as [st|]; [|done]. destruct (_fetch (others a) st) eqn:Hf; [|done].
  cbn. intros [= <-]. eauto 6.
Qed.

Lemma next_refresh_window off p now :
  (forall h m, p = Daily (Some (h, m)) -> 0 <= h < 24 /\ 0 <= m < 60) ->
  now < _next_refresh_at off p now <= now + match p with Hourly => hour | Daily _ => day end.
Proof.
  intros Hp. unfold _next_refresh_at. destruct p as [|[[h m]|]].
  - pose proof (Z.mod_pos_bound (now + off) hour ltac:(done)).
    destruct (Z.leb_spec (now + off - (now + off) mod hour) (now + off)); lia.
  - destruct (Hp h m eq_refl) as [Hh Hm]. clear Hp.
    pose proof (Z.mod_pos_bound (now + off) day ltac:(done)).
    assert (0 <= h * hour + m * 60 * second < day) by (unfold day, hour, second; nia).
    destruct (Z.leb_spec (now + off - (now + off) mod day + h * hour + m * 60 * second) (now + off)); lia.
  - unfold day, hour, second. lia.
Qed.
End allowlist_facts.

(** The allowlist fails closed.  An address is admitted only by a local
    override or because its user is listed for its domain in a document that
    was inside its freshness window when it was consulted, or that this very
    call fetched, validated and normalized. *)
Theorem allowlist_fail_closed others env mail (a : Allowlist.SSOAllowlist) :
  snd (Allowlist.is_allowed others env mail a) = Ok true ->
  let normalized := py_lower (py_strip mail) in
  let domain := Allowlist.email_domain normalized in
  normalized ∈ Allowlist._extra_users a \/
  (domain <> "" /\ domain ∈ Allowlist._extra_domains a) \/
  (exists docs users username rest,
     normalized = username +:+ String "@"%char rest /\
     dget domain docs = Some users /\ username ∈ users /\
     ((Allowlist._fresh a (Allowlist.wall_first env) = true /\ docs = Allowlist._domains a) \/
      (Allowlist._fresh (others a) (Allowlist.wall_locked env) = true /\
       docs = Allowlist._domains (others a)) \/
      (exists st, Allowlist.fetch env = Some st /\ Allowlist._fetch (others a) st = Ok docs))).
Proof.
  unfold Allowlist.is_allowed. set (nm := py_lower (py_strip mail)). cbn zeta.
  destruct (bool_decide (nm ∈ Allowlist._extra_users a)) eqn:Hu; [bool_to_prop; auto|].
  destruct (str_truthy (Allowlist.email_domain nm)) eqn:Hd; [|done]. cbn [negb].
  apply str_truthy_true in Hd.
  destruct (bool_decide (Allowlist.email_domain nm ∈ Allowlist._extra_domains a)) eqn:Hx; [bool_to_prop; auto|].
  destruct (Allowlist._current others env a) as [a' [docs|e]] eqn:Hc; [|done]. cbn [snd rbind].
  destruct (dget (Allowlist.email_domain nm) docs) as [users|] eqn:Hg; [|done].
  intros [= Hin]. right; right. unfold Allowlist.email_domain in Hd.
  destruct (rsplit1 "@"%char nm) as [[u rest]|] eqn:Hr; [|done].
  apply bool_decide_eq_true in Hin. apply rsplit1_Some in Hr as [Hnm _].
  exists docs, users, u, rest. split_and!; [done|done|done|].
  apply (current_origin others env a docs). by rewrite Hc.
Qed.

(** The freshness window and the retry cooldown.  The next refresh is
    strictly in the future and at most one hour (one day) away, so a document
    is never served an interval after it was stored; while a failed fetch
    cools down every check that needs the document is refused, whatever the
    remote would answer. *)
Theorem allowlist_windows (a : Allowlist.SSOAllowlist) :
  (forall h m, Allowlist._poll a = Allowlist.Daily (Some (h, m)) -> 0 <= h < 24 /\ 0 <= m < 60) ->
  (forall docs stored now, Allowlist._fresh (Allowlist.set_document docs stored a) now = true ->
     now < stored + match Allowlist._poll a with Allowlist.Hourly => Allowlist.hour | _ => Allowlist.day end) /\
  (forall docs stored, Allowlist._fresh (Allowlist.set_document docs stored a) stored = true) /\
  (forall others env, Allowlist._fresh a (Allowlist.wall_first env) = false ->
     Allowlist.mono_first env < Allowlist._retry_after a ->
     Allowlist._current others env a = (a, Err Allowlist.temporarily_unavailable)).
Proof.
  intros Hp. split_and!.
  - intros docs stored now. unfold Allowlist._fresh, Allowlist.set_document. cbn.
    intros H%Z.ltb_lt. pose proof (next_refresh_window (Allowlist._utc_offset a) _ stored Hp). lia.
  - intros docs stored. unfold Allowlist._fresh, Allowlist.set_document. cbn. apply Z.ltb_lt.
    by apply next_refresh_window.
  - intros others env Hf Hm. unfold Allowlist._current, Allowlist._reject_during_cooldown. rewrite Hf.
    by rewrite (proj2 (Z.ltb_lt _ _) Hm).
Qed.

(** ** Token authentication *)

(** The first presented token that the store resolves. *)
Fixpoint first_resolved (resolve : string -> option TokenAuth) (l : list string) : option TokenAuth :=
  match l with
  | [] => None
  | t :: l => match resolve t with Some a => Some a | None => first_resolved resolve l end
  end.

Lemma resolve_first_spec resolve gate s l :
  Dependencies.resolve_first resolve gate s l =
  match first_resolved resolve l with
  | Some a => Dependencies._enforce_sso_whitelist gate s a ;? Ok (Some a)
  | None => Ok None
  end.
Proof. induction l as [|t l IH]; cbn; [done|]. by destruct (resolve t). Qed.

(** Authentication of a /v1 request.  The caller is the first presented
    token that resolves, and with the SSO whitelist enforced it is accepted
    only on the full-access list or with a positive allowlist answer; an
    unusable credential becomes anonymous only when neither the deployment nor
    the caller asked for a token. *)
Theorem authenticate_spec resolve gate s presented required :
  match Dependencies._authenticate resolve gate s presented required with
  | Ok (Some a) =>
      first_resolved resolve presented = Some a /\
      (enforce_sso_whitelist s = true ->
         Scopes.is_full_access (email (user a)) (issuer (user a)) s = true \/ gate (email (user a)) = Ok true)
  | Ok None =>
      first_resolved resolve presented = None /\ required = false /\ enforce_api_tokens s = false
  | Err Dependencies.Authentication_required => presented = [] /\ (required || enforce_api_tokens s) = true
  | Err Dependencies.Invalid_API_token =>
      presented <> [] /\ first_resolved resolve presented = None /\ (required || enforce_api_tokens s) = true
  | Err Dependencies.SSO_whitelist_denied =>
      exists a, first_resolved resolve presented = Some a /\ gate (email (user a)) = Ok false
  | Err Dependencies.SSO_whitelist_unavailable =>
      exists a e, first_resolved resolve presented = Some a /\ gate (email (user a)) = Err e
  end.
Proof.
  unfold Dependencies._authenticate. rewrite resolve_first_spec.
  destruct (first_resolved resolve presented) as [a|] eqn:Hf; cbn [rbind].
  - unfold Dependencies._enforce_sso_whitelist.
    destruct (enforce_sso_whitelist s); cbn [negb rbind]; [|by split].
    destruct (Scopes.is_full_access (email (user a)) _ s) eqn:Ha; cbn [rbind]; [by auto|].
    destruct (gate (email (user a))) as [[|]|e] eqn:Hg; cbn; eauto.
  - destruct (required || enforce_api_tokens s) eqn:Hr.
    + by destruct presented.
    + bool_to_prop. done.
Qed.

(** *** Witnesses *)

Definition ex_user : User :=
  {| user_pk := 1; google_sub := "s"; issuer := GOOGLE_ISSUER; email := "Alice@example.com";
     user_name := "Alice"; picture := ""; is_admin := false; user_created_at := 0; user_updated_at := 0 |}.
Definition ex_token : ApiToken :=
  {| token_pk := 1; token_user_id := 1; token_name := "t"; prefix := "p"; token_created_at := 0;
     last_used_at := None; revoked := false; endpoint_scope := None; model_scope := None; purpose := None |}.
Definition ex_auth : TokenAuth := {| user := ex_user; token := ex_token |}.
Definition ex_settings : AuthSettings :=
  {| admin_only_tokens_full_access := ["root@example.com"]; admin_only_tokens_full_access_by_issuer := [];
     require_email_verification := true; enforce_sso_whitelist := true; enforce_api_tokens := true;
     allowed_domains := ["example.com"] |}.

Definition with_owner (o : string) (n : Node) : Node :=
  mkNode (node_id n) (name n) (endpoint n) (status n) (model n) (engine n) (artifact_id n)
    (llamacpp_runtime n) (vllm_runtime n) (last_heartbeat n) (capabilities n)
    (active_connections n) (managed n) (self_setup n) (admin_only n) o (gpus n) (placement n).

(** Two healthy nodes; Alice owns one, somebody else the other. *)
Definition ex_mine : Node := with_owner "alice@example.com" (set_status HEALTHY (Node_default "mine" "http://m:1")).
Definition ex_theirs : Node := with_owner "bob@example.com" (set_status HEALTHY (Node_default "theirs" "http://t:1")).
Definition ex_fleet : NodeRegistry unit := mkRegistry [("theirs", ex_theirs); ("mine", ex_mine)] [].
Definition ex_fleet' : NodeRegistry unit := mkRegistry [("mine", ex_mine)] [].

Lemma routing_isolation_witness : may_use (Some ex_auth) ex_settings ex_mine.
Proof.
  apply (routing_isolation ex_fleet ∅ 0 None None (Some ex_auth) ex_settings ex_mine).
  vm_compute. reflexivity.
Defined.

Lemma scope_noninterference_witness :
  Selector._select_locked ex_fleet ∅ 0 None None None (Some "alice@example.com") =
  Selector._select_locked ex_fleet' ∅ 0 None None None (Some "alice@example.com").
Proof.
  apply (scope_noninterference ex_fleet ex_fleet' ∅ ∅ 0 None None (Some ex_auth) ex_settings);
    [vm_compute; reflexivity|intros; reflexivity].
Defined.

Definition ex_allowlist : Allowlist.SSOAllowlist :=
  {| Allowlist._poll := Allowlist.Hourly; Allowlist._utc_offset := 0; Allowlist._default_domain := None;
     Allowlist._domains := []; Allowlist._extra_users := []; Allowlist._extra_domains := [];
     Allowlist._retry_after := 5; Allowlist._next_refresh := 0; Allowlist._loaded := false |}.
Definition ex_env : Allowlist.Env :=
  {| Allowlist.wall_first := 10; Allowlist.mono_first := 10; Allowlist.wall_locked := 11;
     Allowlist.mono_locked := 11;
     Allowlist.fetch := Some (Allowlist.StreamResponse 200 [40]
       (Some (Allowlist.DomainMap [("Example.com", ["alice "])])));
     Allowlist.wall_after := 12; Allowlist.mono_after := 12 |}.

Lemma allowlist_fail_closed_witness :
  let normalized := "alice@example.com" in
  normalized ∈ Allowlist._extra_users ex_allowlist \/
  (Allowlist.email_domain normalized <> "" /\
   Allowlist.email_domain normalized ∈ Allowlist._extra_domains ex_allowlist) \/
  (exists docs users username rest,
     normalized = username +:+ String "@"%char rest /\
     dget (Allowlist.email_domain normalized) docs = Some users /\ username ∈ users /\
     ((Allowlist._fresh ex_allowlist 10 = true /\ docs = Allowlist._domains ex_allowlist) \/
      (Allowlist._fresh ex_allowlist 11 = true /\ docs = Allowlist._domains ex_allowlist) \/
      (exists st, Allowlist.fetch ex_env = Some st /\ Allowlist._fetch ex_allowlist st = Ok docs))).
Proof.
  apply (allowlist_fail_closed (fun a => a) ex_env " Alice@Example.com" ex_allowlist).
  vm_compute. reflexivity.
Defined.

Lemma allowlist_windows_witness :
  Allowlist._current (fun a => a) {| Allowlist.wall_first := 1; Allowlist.mono_first := 1;
    Allowlist.wall_locked := 1; Allowlist.mono_locked := 1; Allowlist.fetch := None;
    Allowlist.wall_after := 1; Allowlist.mono_after := 1 |} ex_allowlist =
  (ex_allowlist, Err Allowlist.temporarily_unavailable).
Proof.
  destruct (allowlist_windows ex_allowlist ltac:(intros h m [=])) as (_ & _ & H).
  apply H; [reflexivity|cbn; lia].
Defined.
