(* ===== verification/AuthStore.v ===== *)
(** * The identity store ([inference_proxy/auth/store.py])

    Users, API tokens, setup links and usage in SQLite.  A table is the list of
    its rows in the order of their ids; a statement computes the new table and
    fails with [IntegrityError] when a unique index would be violated; a
    rolled-back transaction leaves the tables as they were, and an error that
    escapes leaves the transaction open, with its earlier statements in place.
    A method holds the
    store's lock, so within one process it is atomic.  Another worker process
    shares the database: what it commits between two transactions of a method
    is the argument [others].

    SHA-256 and HMAC are arguments ([hash] and [mac], the latter with its
    URL-safe base64 text); where a theorem needs it, collisions are excluded.
    Times are integers; their ISO texts compare in the same order. *)

From S2P Require Import Prelude PyDict Json NodeModel Registry Routing Auth.
From stdpp Require Import pretty.
Local Open Scope Z_scope.

Definition TOKEN_PREFIX : string := "qiip_".

(** ** Tables *)

Record TokenRow := mkToken {
  t_id : Z;
  t_user_id : Z;
  t_name : string;
  t_hash : string;
  t_prefix : string;
  t_created_at : Z;
  t_last_used_at : option Z;
  t_revoked : bool;
  t_endpoint_scope : option blob;
  t_purpose : option string;
  t_model_scope : option blob;
  t_derive_nonce : option string;
}.

Record LinkRow := mkLink {
  l_hash : string; l_user_id : Z; l_token_id : Z; l_harness : string; l_models : blob; l_expires_at : Z;
}.

Record UsageRow := mkUsage {
  g_user_id : Z; g_token_id : option Z; g_model : string; g_endpoint : string;
  g_requests : Z; g_prompt : Z; g_completion : Z; g_total : Z; g_created_at : Z;
}.

(** [next_user] and [next_token] are the AUTOINCREMENT counters. *)
Record DB := mkDB {
  users : list User; tokens : list TokenRow; links : list LinkRow; usage : list UsageRow;
  next_user : Z; next_token : Z;
}.

Definition with_users (us : list User) (d : DB) : DB := mkDB us (tokens d) (links d) (usage d) (next_user d) (next_token d).
Definition with_tokens (ts : list TokenRow) (d : DB) : DB := mkDB (users d) ts (links d) (usage d) (next_user d) (next_token d).
Definition with_links (ls : list LinkRow) (d : DB) : DB := mkDB (users d) (tokens d) ls (usage d) (next_user d) (next_token d).

Inductive StoreError := AccountConflictError (mail : string) | IntegrityError | KeyError (id : Z) | RuntimeError.

(** ** Unique indexes *)

Definition _CONFIG_TOKEN_PURPOSE : string := "agent-config".
Definition _CONFIG_TOKEN_NAME : string := "agent-config".
Definition _PERSONAL_TOKEN_PURPOSE : string := "personal".

Definition active_for (p : string) (t : TokenRow) : bool := negb (t_revoked t) && bool_decide (t_purpose t = Some p).

(** [UNIQUE(token_hash)] and the partial indexes on [tokens(user_id)]. *)
Definition tokens_ok (ts : list TokenRow) : bool :=
  bool_decide (NoDup (t_hash <$> ts)) &&
  bool_decide (NoDup (t_user_id <$> List.filter (active_for _CONFIG_TOKEN_PURPOSE) ts)) &&
  bool_decide (NoDup (t_user_id <$> List.filter (active_for _PERSONAL_TOKEN_PURPOSE) ts)).

(** [UNIQUE(email)] and [UNIQUE(issuer, google_sub)]. *)
Definition users_ok (us : list User) : bool :=
  bool_decide (NoDup (email <$> us)) && bool_decide (NoDup ((fun u => (issuer u, google_sub u)) <$> us)).

Definition set_users (us : list User) (d : DB) : option DB := if users_ok us then Some (with_users us d) else None.
Definition set_tokens (ts : list TokenRow) (d : DB) : option DB := if tokens_ok ts then Some (with_tokens ts d) else None.

(** [UPDATE .. SET f WHERE p] *)
Definition update_where {A} (p : A -> bool) (f : A -> A) (l : list A) : list A := List.map (fun r => if p r then f r else r) l.

Definition insert_token (t : TokenRow) (d : DB) : option DB :=
  let ts := tokens d ++ [t] in
  if tokens_ok ts then Some (mkDB (users d) ts (links d) (usage d) (next_user d) (next_token d + 1)) else None.

(** ** Columns *)

Definition _dump_scopes (scopes : option (list string)) : option blob :=
  match scopes with None => None | Some l => Some (dumps (JList (List.map JStr l))) end.

Definition json_str (j : json) : option string := match j with JStr s => Some s | _ => None end.

Definition _load_scopes (raw : option blob) : option (list string) :=
  match raw with
  | None => None
  | Some b =>
      match loads b with
      | Some (JList l) => match mapM json_str l with Some ss => Some ss | None => Some [] end
      | _ => Some []
      end
  end.

Definition _token_from_row (t : TokenRow) : ApiToken :=
  {| token_pk := t_id t; token_user_id := t_user_id t; token_name := t_name t; Auth.prefix := t_prefix t;
     token_created_at := t_created_at t; last_used_at := t_last_used_at t; revoked := t_revoked t;
     endpoint_scope := _load_scopes (t_endpoint_scope t); model_scope := _load_scopes (t_model_scope t);
     purpose := t_purpose t |}.

Record CreatedToken := mkCreated { created : ApiToken; raw_token : string }.

Section store.
(** [hash]: the SHA-256 hex digest of a text; [mac secret text]: the unpadded
    URL-safe base64 of the HMAC-SHA-256. *)
Context (hash : string -> string) (mac : string -> string -> string).

Definition _derive_config_token (secret : string) (user_id : Z) (generation : nat) : string :=
  TOKEN_PREFIX +:+ mac secret ("qiip-agent-config-token-v1:" +:+ pretty user_id +:+ ":" +:+ pretty generation).

Definition _derive_personal_token (secret : string) (user_id : Z) (nonce : string) : string :=
  TOKEN_PREFIX +:+ mac secret ("qiip-personal-token-v1:" +:+ pretty user_id +:+ ":" +:+ nonce).

(** [raw[: len(TOKEN_PREFIX) + 8]] *)
Definition shown (raw : string) : string := String.substring 0 13 raw.

(** ** Users *)

Definition get_user (id : Z) (d : DB) : option User := List.find (fun u => user_pk u =? id) (users d).

Definition by_subject (iss sub : string) (u : User) : bool := bool_decide (issuer u = iss) && bool_decide (google_sub u = sub).

Definition rebind (sub iss nm pic : string) (now : Z) (u : User) : User :=
  {| user_pk := user_pk u; google_sub := sub; issuer := iss; email := email u; user_name := nm; picture := pic;
     is_admin := is_admin u; user_created_at := user_created_at u; user_updated_at := now |}.

Definition refresh (mail nm pic : string) (now : Z) (u : User) : User :=
  {| user_pk := user_pk u; google_sub := google_sub u; issuer := issuer u; email := mail; user_name := nm; picture := pic;
     is_admin := is_admin u; user_created_at := user_created_at u; user_updated_at := now |}.

(** [seen] is the store when the subject is looked up, [d] the store when the
    first write takes the database lock: other workers may have committed in
    between. *)
Definition upsert_google_user (seen : DB) (sub iss mail nm pic : string) (now : Z) (d : DB) : DB * result StoreError User :=
  let written : result StoreError DB :=
    match List.find (by_subject iss sub) (users seen) with
    | None =>
        let u := {| user_pk := next_user d; google_sub := sub; issuer := iss; email := mail; user_name := nm; picture := pic;
                    is_admin := false; user_created_at := now; user_updated_at := now |} in
        match set_users (users d ++ [u]) d with
        | Some d' => Ok (mkDB (users d') (tokens d') (links d') (usage d') (next_user d' + 1) (next_token d'))
        | None =>
            let mine u := bool_decide (email u = mail) && bool_decide (issuer u = iss) in
            match set_users (update_where mine (rebind sub iss nm pic now) (users d)) d with
            | None => Err IntegrityError
            | Some d' => if Nat.eqb (length (List.filter mine (users d))) 1 then Ok d' else Err (AccountConflictError mail)
            end
        end
    | Some _ =>
        match set_users (update_where (by_subject iss sub) (refresh mail nm pic now) (users d)) d with
        | Some d' => Ok d'
        | None => Err (AccountConflictError mail)
        end
    end in
  match written with
  | Err e => (d, Err e)
  | Ok d' => (d', match List.find (by_subject iss sub) (users d') with Some u => Ok u | None => Err RuntimeError end)
  end.

Definition set_admin (b : bool) (now : Z) (u : User) : User :=
  {| user_pk := user_pk u; google_sub := google_sub u; issuer := issuer u; email := email u; user_name := user_name u;
     picture := picture u; is_admin := b; user_created_at := user_created_at u; user_updated_at := now |}.

Definition set_user_admin (id : Z) (b : bool) (now : Z) (d : DB) : DB * bool :=
  (with_users (update_where (fun u => user_pk u =? id) (set_admin b now) (users d)) d,
   existsb (fun u => user_pk u =? id) (users d)).

(** ** Tokens *)

Definition revoke (t : TokenRow) : TokenRow :=
  mkToken (t_id t) (t_user_id t) (t_name t) (t_hash t) (t_prefix t) (t_created_at t) (t_last_used_at t) true
    (t_endpoint_scope t) (t_purpose t) (t_model_scope t) (t_derive_nonce t).
Definition mark_config (t : TokenRow) : TokenRow :=
  mkToken (t_id t) (t_user_id t) (t_name t) (t_hash t) (t_prefix t) (t_created_at t) (t_last_used_at t) (t_revoked t)
    (t_endpoint_scope t) (Some _CONFIG_TOKEN_PURPOSE) (t_model_scope t) (t_derive_nonce t).
Definition set_models (models : list string) (t : TokenRow) : TokenRow :=
  mkToken (t_id t) (t_user_id t) (t_name t) (t_hash t) (t_prefix t) (t_created_at t) (t_last_used_at t) (t_revoked t)
    (t_endpoint_scope t) (t_purpose t) (_dump_scopes (Some models)) (t_derive_nonce t).
Definition touch (now : Z) (t : TokenRow) : TokenRow :=
  mkToken (t_id t) (t_user_id t) (t_name t) (t_hash t) (t_prefix t) (t_created_at t) (Some now) (t_revoked t)
    (t_endpoint_scope t) (t_purpose t) (t_model_scope t) (t_derive_nonce t).

(** [raw] is what [_generate_token] drew. *)
Definition create_token (user_id : Z) (name : string) (scope : option (list string)) (raw : string) (now : Z) (d : DB)
  : DB * result StoreError CreatedToken :=
  match get_user user_id d with
  | None => (d, Err (KeyError user_id))
  | Some _ =>
      let t := mkToken (next_token d) user_id name (hash raw) (shown raw) now None false (_dump_scopes scope) None None None in
      match insert_token t d with
      | None => (d, Err IntegrityError)
      | Some d' => (d', Ok (mkCreated (_token_from_row t) raw))
      end
  end.

Definition list_tokens (user_id : Z) (d : DB) : list ApiToken :=
  List.map _token_from_row
    (sort_by (fun a b => (t_created_at b <? t_created_at a) || ((t_created_at a =? t_created_at b) && (t_id b <=? t_id a)))
      (List.filter (fun t => t_user_id t =? user_id) (tokens d))).

(** The number of changed rows tells whether a live token was revoked. *)
Definition revoke_where (p : TokenRow -> bool) (d : DB) : DB * bool :=
  let live t := p t && negb (t_revoked t) in
  (with_tokens (update_where live revoke (tokens d)) d, existsb live (tokens d)).

Definition revoke_token (user_id token_id : Z) (d : DB) : DB * bool :=
  revoke_where (fun t => (t_id t =? token_id) && (t_user_id t =? user_id)) d.

Definition revoke_any_token (token_id : Z) (d : DB) : DB * bool := revoke_where (fun t => t_id t =? token_id) d.

Definition resolve_token (d : DB) (raw : string) : option TokenAuth :=
  if negb (str_truthy raw) || negb (startswith raw TOKEN_PREFIX) then None
  else
    match List.find (fun t => bool_decide (t_hash t = hash raw) && negb (t_revoked t)) (tokens d) with
    | None => None
    | Some t => match get_user (t_user_id t) d with
                | None => None
                | Some u => Some {| user := u; token := _token_from_row t |}
                end
    end.

(** *** The reusable agent-config token *)

Definition config_row (user_id : Z) (t : TokenRow) : bool :=
  (t_user_id t =? user_id) &&
  (bool_decide (t_purpose t = Some _CONFIG_TOKEN_PURPOSE) ||
   (is_none (t_purpose t) && bool_decide (t_name t = _CONFIG_TOKEN_NAME))).

(** [_CONFIG_ROWS_SQL] *)
Definition config_rows (user_id : Z) (d : DB) : list TokenRow := List.filter (config_row user_id) (tokens d).

(** The first row, from index [n] on, that is the live key of its index. *)
Fixpoint scan_live (secret : string) (user_id : Z) (n : nat) (rows : list TokenRow) : option (TokenRow * string) :=
  match rows with
  | [] => None
  | row :: rows =>
      let candidate := _derive_config_token secret user_id n in
      if bool_decide (hash candidate = t_hash row) && negb (t_revoked row) then Some (row, candidate)
      else scan_live secret user_id (S n) rows
  end.

Definition backfill (row : TokenRow) (d : DB) : option DB :=
  set_tokens (update_where (fun t => t_id t =? t_id row) mark_config (tokens d)) d.

Definition revoke_marked (user_id : Z) (d : DB) : DB :=
  fst (revoke_where (fun t => (t_user_id t =? user_id) && bool_decide (t_purpose t = Some _CONFIG_TOKEN_PURPOSE)) d).

Definition config_token (user_id : Z) (raw : string) (now : Z) (d : DB) : TokenRow :=
  mkToken (next_token d) user_id _CONFIG_TOKEN_NAME (hash raw) (shown raw) now None false None (Some _CONFIG_TOKEN_PURPOSE) None None.

Context (others : nat -> DB -> DB).

(** The [while True] of a lost race; [None] when [fuel] rounds were not enough. *)
Fixpoint config_loop (fuel k : nat) (user_id : Z) (secret : string) (now : Z) (d : DB)
  : DB * option (result StoreError CreatedToken) :=
  match fuel with
  | O => (d, None)
  | S fuel =>
      let d := others k d in
      let fresh_rows := config_rows user_id d in
      let d := others (S k) d in
      match scan_live secret user_id 0 fresh_rows with
      | Some (row, raw) =>
          match backfill row d with
          | Some d' => (d', Some (Ok (mkCreated (_token_from_row row) raw)))
          | None => (d, Some (Err IntegrityError))
          end
      | None =>
          let raw := _derive_config_token secret user_id (length fresh_rows) in
          let t := config_token user_id raw now d in
          match insert_token t (revoke_marked user_id d) with
          | Some d' => (d', Some (Ok (mkCreated (_token_from_row t) raw)))
          | None => config_loop fuel (S (S k)) user_id secret now d
          end
      end
  end.

(** The index of a row in the history. *)
Fixpoint index_of (id : Z) (rows : list TokenRow) : nat :=
  match rows with
  | [] => 0
  | r :: rows => if t_id r =? id then 0 else S (index_of id rows)
  end.

Definition get_or_create_config_token (fuel : nat) (user_id : Z) (secret : string) (now : Z) (d : DB)
  : DB * option (result StoreError CreatedToken) :=
  match get_user user_id d with
  | None => (d, Some (Err (KeyError user_id)))
  | Some _ =>
      let rows := config_rows user_id d in
      let mint (d0 d1 : DB) :=                   (* d0: after a rollback, d1: inside the transaction *)
        match scan_live secret user_id 0 rows with
        | Some (row, raw) =>
            match backfill row d1 with
            | Some d' => (d', Some (Ok (mkCreated (_token_from_row row) raw)))
            | None => (d1, Some (Err IntegrityError))    (* escapes; the transaction stays open *)
            end
        | None =>
            let raw := _derive_config_token secret user_id (length rows) in
            let t := config_token user_id raw now d1 in
            match insert_token t d1 with
            | Some d' => (d', Some (Ok (mkCreated (_token_from_row t) raw)))
            | None => config_loop fuel 1 user_id secret now d0
            end
        end in
      match List.find (active_for _CONFIG_TOKEN_PURPOSE) (rev rows) with
      | Some active =>
          let raw := _derive_config_token secret user_id (index_of (t_id active) rows) in
          if bool_decide (hash raw = t_hash active) then (d, Some (Ok (mkCreated (_token_from_row active) raw)))
          else let d := others 0 d in mint d (revoke_marked user_id d)
      | None => let d := others 0 d in mint d d
      end
  end.

(** *** Personal tokens and setup links *)

Definition create_personal_token (user_id : Z) (name : string) (models : list string) (secret nonce : string) (now : Z) (d : DB)
  : DB * result StoreError CreatedToken :=
  let raw := _derive_personal_token secret user_id nonce in
  match get_user user_id d with
  | None => (d, Err (KeyError user_id))
  | Some _ =>
      let d1 := fst (revoke_where (fun t => t_user_id t =? user_id) d) in
      let d2 := with_links (List.filter (fun l => negb (l_user_id l =? user_id)) (links d1)) d1 in
      let t := mkToken (next_token d2) user_id name (hash raw) (shown raw) now None false None
                 (Some _PERSONAL_TOKEN_PURPOSE) (_dump_scopes (Some models)) (Some nonce) in
      match insert_token t d2 with
      | None => (d, Err IntegrityError)
      | Some d' => (d', Ok (mkCreated (_token_from_row t) raw))
      end
  end.

(** [ORDER BY (purpose = 'personal') DESC, id DESC LIMIT 1]; a comparison with
    NULL is NULL and sorts last. *)
Definition purpose_rank (t : TokenRow) : Z :=
  match t_purpose t with None => 0 | Some p => if bool_decide (p = _PERSONAL_TOKEN_PURPOSE) then 2 else 1 end.

Definition get_active_token (user_id : Z) (d : DB) : option ApiToken :=
  _token_from_row <$> List.hd_error
    (sort_by (fun a b => (purpose_rank b <? purpose_rank a) || ((purpose_rank a =? purpose_rank b) && (t_id b <=? t_id a)))
      (List.filter (fun t => (t_user_id t =? user_id) && negb (t_revoked t)) (tokens d))).

Definition set_token_models (user_id token_id : Z) (models : list string) (d : DB) : DB * bool :=
  let mine t := (t_id t =? token_id) && (t_user_id t =? user_id) && negb (t_revoked t) in
  (with_tokens (update_where mine (set_models models) (tokens d)) d, existsb mine (tokens d)).

Definition reveal_personal_token (token_id : Z) (secret : string) (d : DB) : option string :=
  match List.find (fun t => (t_id t =? token_id) && active_for _PERSONAL_TOKEN_PURPOSE t) (tokens d) with
  | None => None
  | Some t =>
      match t_derive_nonce t with
      | None => None
      | Some nonce =>
          if negb (str_truthy nonce) then None
          else let raw := _derive_personal_token secret (t_user_id t) nonce in
               if bool_decide (hash raw = t_hash t) then Some raw else None
      end
  end.

Definition create_setup_link (user_id token_id : Z) (harness : string) (models : list string) (ttl_seconds : Z)
  (link_id : string) (now : Z) (d : DB) : DB * result StoreError (string * Z) :=
  let expires := now + ttl_seconds * 1000000 in
  let kept := List.filter (fun l => negb (l_expires_at l <=? now)) (links d) in
  let l := mkLink (hash link_id) user_id token_id harness (dumps (JList (List.map JStr models))) expires in
  if bool_decide (hash link_id ∈ l_hash <$> kept) then (with_links kept d, Err IntegrityError)
  else (with_links (kept ++ [l]) d, Ok (link_id, expires)).

Record SetupLink := mkSetup { s_user_id : Z; s_token_id : Z; s_harness : string; s_models : option (list string); s_expires_at : Z }.

Definition resolve_setup_link (link_id : string) (now : Z) (d : DB) : option SetupLink :=
  let live l := bool_decide (l_hash l = hash link_id) && (now <? l_expires_at l) &&
    existsb (fun t => (t_id t =? l_token_id l) && negb (t_revoked t)) (tokens d) in
  (fun l => mkSetup (l_user_id l) (l_token_id l) (l_harness l) (_load_scopes (Some (l_models l))) (l_expires_at l))
    <$> List.find live (links d).

(** ** Usage *)

Definition record_usage (user_id token_id : Z) (model endpoint : string) (prompt completion total requests now : Z) (d : DB) : DB :=
  let u := mkUsage user_id (Some token_id) model endpoint requests prompt completion total now in
  mkDB (users d) (update_where (fun t => t_id t =? token_id) (touch now) (tokens d)) (links d) (usage d ++ [u])
    (next_user d) (next_token d).

Record UsageTotals := mkTotals { request_count : Z; prompt_tokens : Z; completion_tokens : Z; total_tokens : Z }.

Definition zsum_of (f : UsageRow -> Z) (l : list UsageRow) : Z := foldr Z.add 0 (List.map f l).

Definition totals_of (l : list UsageRow) : UsageTotals :=
  mkTotals (zsum_of g_requests l) (zsum_of g_prompt l) (zsum_of g_completion l) (zsum_of g_total l).

Definition usage_of (user_id : Z) (d : DB) : list UsageRow := List.filter (fun g => g_user_id g =? user_id) (usage d).

Definition get_usage_totals (user_id : Z) (d : DB) : UsageTotals := totals_of (usage_of user_id d).
Definition get_usage_totals_all (d : DB) : UsageTotals := totals_of (usage d).

(** [GROUP BY model ORDER BY model] *)
Definition get_usage_by_model (d : DB) : list (string * UsageTotals) :=
  List.map (fun m => (m, totals_of (List.filter (fun g => bool_decide (g_model g = m)) (usage d))))
    (sort_by String.leb (remove_dups (g_model <$> usage d))).

Record LeaderboardEntry := mkEntry {
  e_id : Z; e_email : string; e_name : string; e_token_count : Z; e_active_token_count : Z; e_totals : UsageTotals;
}.

Definition entry_of (d : DB) (u : User) : LeaderboardEntry :=
  let mine := List.filter (fun t => t_user_id t =? user_pk u) (tokens d) in
  mkEntry (user_pk u) (email u) (user_name u) (Z.of_nat (length mine))
    (Z.of_nat (length (List.filter (fun t => negb (t_revoked t)) mine))) (get_usage_totals (user_pk u) d).

(** [ORDER BY total_tokens DESC, request_count DESC, created_at ASC, id ASC] *)
Definition ranks_before (d : DB) (a b : User) : bool :=
  let ta := get_usage_totals (user_pk a) d in
  let tb := get_usage_totals (user_pk b) d in
  if negb (total_tokens ta =? total_tokens tb) then total_tokens tb <? total_tokens ta
  else if negb (request_count ta =? request_count tb) then request_count tb <? request_count ta
  else if negb (user_created_at a =? user_created_at b) then user_created_at a <? user_created_at b
  else user_pk a <=? user_pk b.

Definition list_leaderboard (include_admins : bool) (d : DB) : list LeaderboardEntry :=
  List.map (entry_of d) (sort_by (ranks_before d) (List.filter (fun u => include_admins || negb (is_admin u)) (users d))).
End store.

(** ** Histories *)

Section history.
Context (hash : string -> string) (mac : string -> string -> string).

Inductive Op :=
| Upsert (seen : DB) (sub iss mail nm pic : string) (now : Z)
| SetAdmin (id : Z) (b : bool) (now : Z)
| CreateToken (user_id : Z) (name : string) (scope : option (list string)) (raw : string) (now : Z)
| ConfigToken (others : nat -> DB -> DB) (fuel : nat) (user_id : Z) (secret : string) (now : Z)
| RevokeToken (user_id token_id : Z)
| RevokeAny (token_id : Z)
| PersonalToken (user_id : Z) (name : string) (models : list string) (secret nonce : string) (now : Z)
| SetModels (user_id token_id : Z) (models : list string)
| CreateLink (user_id token_id : Z) (harness : string) (models : list string) (ttl : Z) (link_id : string) (now : Z)
| RecordUsage (user_id token_id : Z) (model endpoint : string) (prompt completion total requests now : Z).

Definition run (op : Op) (d : DB) : DB :=
  match op with
  | Upsert seen sub iss mail nm pic now => fst (upsert_google_user seen sub iss mail nm pic now d)
  | SetAdmin id b now => fst (set_user_admin id b now d)
  | CreateToken u nm sc raw now => fst (create_token hash u nm sc raw now d)
  | ConfigToken others fuel u secret now => fst (get_or_create_config_token hash mac others fuel u secret now d)
  | RevokeToken u t => fst (revoke_token u t d)
  | RevokeAny t => fst (revoke_any_token t d)
  | PersonalToken u nm ms secret nonce now => fst (create_personal_token hash mac u nm ms secret nonce now d)
  | SetModels u t ms => fst (set_token_models u t ms d)
  | CreateLink u t h ms ttl link now => fst (create_setup_link hash u t h ms ttl link now d)
  | RecordUsage u t m e p c tot r now => record_usage u t m e p c tot r now d
  end.
End history.

Definition empty_db : DB := mkDB [] [] [] [] 1 1.

(** The invariant of the store. *)
Record store_ok (d : DB) : Prop := {
  ok_users : users_ok (users d) = true;
  ok_tokens : tokens_ok (tokens d) = true;
  ok_user_ids : NoDup (user_pk <$> users d) /\ Forall (fun u => user_pk u < next_user d) (users d);
  ok_token_ids : NoDup (t_id <$> tokens d) /\ Forall (fun t => t_id t < next_token d) (tokens d);
  ok_owner : Forall (fun t => t_user_id t ∈ user_pk <$> users d) (tokens d);
}.

Lemma empty_ok : store_ok empty_db.
Proof. split; cbn; try reflexivity; repeat constructor. Qed.

(** What a row keeps for ever: a token its identity, digest, owner and endpoint
    scope, and once revoked it stays revoked; an account its id, issuer and
    creation time, and its role unless [roles] allows a change. *)
Definition token_later (t t' : TokenRow) : Prop :=
  t_id t' = t_id t /\ t_user_id t' = t_user_id t /\ t_name t' = t_name t /\ t_hash t' = t_hash t /\
  t_endpoint_scope t' = t_endpoint_scope t /\ (t_revoked t = true -> t_revoked t' = true).

Definition user_later (roles : Z -> Prop) (u u' : User) : Prop :=
  user_pk u' = user_pk u /\ issuer u' = issuer u /\ user_created_at u' = user_created_at u /\
  (roles (user_pk u) \/ is_admin u' = is_admin u).

Definition rows_later {A} (R : A -> A -> Prop) (l l' : list A) : Prop := exists k, Forall2 R l (take (length l) l') /\ l' = take (length l) l' ++ k.

Record later (roles : Z -> Prop) (d d' : DB) : Prop := {
  later_users : rows_later (user_later roles) (users d) (users d');
  later_tokens : rows_later token_later (tokens d) (tokens d');
  later_next : next_user d <= next_user d' /\ next_token d <= next_token d';
}.

(** A transition that keeps the invariant and only moves forward. *)
Definition forward (roles : Z -> Prop) (d d' : DB) : Prop := store_ok d -> store_ok d' /\ later roles d d'.

Lemma rows_later_app {A} (R : A -> A -> Prop) l l' k : Forall2 R l l' -> rows_later R l (l' ++ k).
Proof.
  intros H. pose proof (Forall2_length _ _ _ H) as Hl. exists k.
  rewrite Hl, take_app_length. done.
Qed.

Lemma rows_later_inv {A} (R : A -> A -> Prop) l l' : rows_later R l l' -> exists l1 k, l' = l1 ++ k /\ Forall2 R l l1.
Proof. intros (k & H & Heq). by exists (take (length l) l'), k. Qed.

Lemma rows_later_trans {A} (R : A -> A -> Prop) l1 l2 l3 : Transitive R ->
  rows_later R l1 l2 -> rows_later R l2 l3 -> rows_later R l1 l3.
Proof.
  intros HR (m1 & k1 & -> & H1)%rows_later_inv (m2 & k2 & -> & H2)%rows_later_inv.
  apply Forall2_app_inv_l in H2 as (n1 & n2 & Hn1 & Hn2 & ->). rewrite <- app_assoc. apply rows_later_app.
  clear -HR H1 Hn1. revert n1 Hn1. induction H1; inversion 1; subst; constructor; [by etrans|auto].
Qed.

#[export] Instance token_later_trans : Transitive token_later.
Proof. intros a b c (?&?&?&?&?&?) (?&?&?&?&?&?). unfold token_later. split_and!; try congruence; auto. Qed.
#[export] Instance user_later_trans roles : Transitive (user_later roles).
Proof.
  intros a b c (H1&?&?&H2) (?&?&?&H3). unfold user_later. split_and!; try congruence.
  rewrite H1 in H3. destruct H2, H3; auto. right. congruence.
Qed.
#[export] Instance token_later_refl : Reflexive token_later.
Proof. by intros t. Qed.
#[export] Instance user_later_refl roles : Reflexive (user_later roles).
Proof. intros u. split_and!; auto. Qed.

Lemma rows_later_refl {A} (R : A -> A -> Prop) l : Reflexive R -> rows_later R l l.
Proof. intros HR. rewrite <- (app_nil_r l) at 2. apply rows_later_app. induction l; by constructor. Qed.

Lemma forward_refl roles d : forward roles d d.
Proof. intros H. split; [done|]. split; [apply rows_later_refl, _|apply rows_later_refl, _|lia]. Qed.

Lemma forward_trans roles d1 d2 d3 : forward roles d1 d2 -> forward roles d2 d3 -> forward roles d1 d3.
Proof.
  intros H1 H2 Hd. destruct (H1 Hd) as [Hd2 [Lu Lt [Ln1 Ln2]]]. destruct (H2 Hd2) as [Hd3 [Lu' Lt' [Ln1' Ln2']]].
  split; [done|]. split; [by eapply rows_later_trans; first apply _|by eapply rows_later_trans; first apply _|lia].
Qed.

Lemma update_where_later {A} (R : A -> A -> Prop) p f (l : list A) : Reflexive R -> (forall x, x ∈ l -> p x = true -> R x (f x)) ->
  Forall2 R l (update_where p f l).
Proof.
  intros HR. induction l as [|x l IH]; intros H; cbn; constructor.
  - destruct (p x) eqn:Hp; [apply H; [by left|done]|done].
  - apply IH. intros y Hy. apply H. by right.
Qed.

(** *** Keeping the indexes *)

Lemma Forall2_map_eq {A B} (f : A -> B) l l' : Forall2 (fun x x' => f x' = f x) l l' -> f <$> l' = f <$> l.
Proof. induction 1; cbn; congruence. Qed.

Lemma filter_later_sublist (p : TokenRow -> bool) l l' :
  Forall2 (fun t t' => t_user_id t' = t_user_id t /\ (p t' = true -> p t = true)) l l' ->
  (t_user_id <$> List.filter p l') `sublist_of` (t_user_id <$> List.filter p l).
Proof.
  induction 1 as [|t t' l l' [Hu Hp] _ IH]; cbn; [constructor|].
  destruct (p t') eqn:H'; [rewrite Hp by done; cbn; rewrite Hu; by constructor|]. destruct (p t); cbn; [by constructor|done].
Qed.

(** No row becomes the active key of a purpose. *)
Definition no_new_active (t t' : TokenRow) : Prop := forall p, active_for p t' = true -> active_for p t = true.

Lemma tokens_ok_later l l' : Forall2 token_later l l' -> Forall2 no_new_active l l' -> tokens_ok l = true -> tokens_ok l' = true.
Proof.
  intros H1 H2. unfold tokens_ok. rewrite !andb_true_iff, !bool_decide_eq_true.
  assert (t_hash <$> l' = t_hash <$> l) as -> by (apply Forall2_map_eq; eapply Forall2_impl; [exact H1|]; by intros t t' (?&?&?&?&_)).
  assert (forall p, (t_user_id <$> List.filter (active_for p) l') `sublist_of` (t_user_id <$> List.filter (active_for p) l)) as Hs.
  { intros p. apply filter_later_sublist. clear -H1 H2. revert H2. induction H1 as [|t t' l l' (?&?&_)]; inversion 1; subst; constructor; auto. }
  intros [[? ?] ?]. split_and!; [done|eapply sublist_NoDup; [|apply Hs]; done..].
Qed.

Lemma with_tokens_forward roles d ts : Forall2 token_later (tokens d) ts -> (tokens_ok (tokens d) = true -> tokens_ok ts = true) ->
  forward roles d (with_tokens ts d).
Proof.
  intros H Hok [H1 H2 H3 [H4 H4'] H5]. split.
  - split; cbn; [done|by apply Hok|done| |].
    + split.
      * assert (t_id <$> ts = t_id <$> tokens d) as ->; [|done]. apply Forall2_map_eq. eapply Forall2_impl; [exact H|]. by intros t t' (?&_).
      * rewrite Forall_forall in *. intros t' Ht'. apply list_elem_of_lookup in Ht' as [i Hi].
        destruct (Forall2_lookup_r _ _ _ _ _ H Hi) as (t & Ht & Hid & _). rewrite Hid. apply H4'. by eapply list_elem_of_lookup_2.
    + rewrite Forall_forall in *. intros t' Ht'. apply list_elem_of_lookup in Ht' as [i Hi].
      destruct (Forall2_lookup_r _ _ _ _ _ H Hi) as (t & Ht & _ & Hu & _). rewrite Hu. apply H5. by eapply list_elem_of_lookup_2.
  - split; cbn; [apply rows_later_refl, _| |lia]. rewrite <- (app_nil_r ts). by apply rows_later_app.
Qed.

(** An update that never activates a row. *)
Lemma update_tokens_forward roles d p f : (forall t, token_later t (f t) /\ no_new_active t (f t)) ->
  forward roles d (with_tokens (update_where p f (tokens d)) d).
Proof.
  intros Hf. apply with_tokens_forward.
  - apply update_where_later; [apply _|]. intros t _ _. apply Hf.
  - apply tokens_ok_later; apply update_where_later; try apply _; try (by intros t q).
    + intros t _ _. apply Hf.
    + intros t _ _. apply Hf.
Qed.

Lemma revoke_forward roles p d : forward roles d (fst (revoke_where p d)).
Proof. apply update_tokens_forward. intros t. split; [by split_and!|]. intros q. done. Qed.

Lemma set_tokens_forward roles d p f d' : (forall t, token_later t (f t)) ->
  set_tokens (update_where p f (tokens d)) d = Some d' -> forward roles d d'.
Proof.
  intros Hf. unfold set_tokens. destruct (tokens_ok _) eqn:Hok; [|done]. intros [= <-].
  apply with_tokens_forward; [|done]. apply update_where_later; [apply _|]. intros t _ _. apply Hf.
Qed.

Lemma insert_forward roles t d d' : t_id t = next_token d -> (t_user_id t ∈ user_pk <$> users d) ->
  insert_token t d = Some d' -> forward roles d d'.
Proof.
  intros Hid Hu. unfold insert_token. destruct (tokens_ok _) eqn:Hok; [|done]. intros [= <-] [H1 H2 H3 [H4 H4'] H5]. split.
  - split; cbn; [done|done|done| |].
    + split; [|apply Forall_app; split; [eapply Forall_impl; [exact H4'|cbn; lia]|constructor; [lia|constructor]]].
      rewrite fmap_app. apply NoDup_app. split_and!; [done| |apply NoDup_singleton].
      intros x (t' & -> & Ht')%list_elem_of_fmap Hx%list_elem_of_singleton. rewrite Forall_forall in H4'. specialize (H4' t' Ht'). lia.
    + apply Forall_app. split; [done|]. by constructor.
  - split; cbn; [apply rows_later_refl, _| |lia]. apply rows_later_app. induction (tokens d); by constructor.
Qed.

Lemma get_user_Some id d u : get_user id d = Some u -> u ∈ users d /\ user_pk u = id.
Proof. intros [Hin H]%find_some. split; [by apply list_elem_of_In|]. by bool_to_prop. Qed.

Lemma get_user_in id d u : get_user id d = Some u -> id ∈ user_pk <$> users d.
Proof. intros [Hin <-]%get_user_Some. by apply list_elem_of_fmap_2. Qed.

Lemma with_users_forward roles d us : Forall2 (user_later roles) (users d) us -> users_ok us = true ->
  forward roles d (with_users us d).
Proof.
  intros H Hok [H1 H2 [H3 H3'] H4 H5].
  assert (user_pk <$> us = user_pk <$> users d) as Hpk.
  { apply Forall2_map_eq. eapply Forall2_impl; [exact H|]. by intros u u' (?&_). }
  split.
  - split; cbn; [done|done| |done|by rewrite Hpk]. rewrite Hpk. split; [done|].
    rewrite Forall_forall in *. intros u' Hu'. apply list_elem_of_lookup in Hu' as [i Hi].
    destruct (Forall2_lookup_r _ _ _ _ _ H Hi) as (u & Hu & Hid & _). rewrite Hid. apply H3'. by eapply list_elem_of_lookup_2.
  - split; cbn; [|apply rows_later_refl, _|lia]. rewrite <- (app_nil_r us). by apply rows_later_app.
Qed.

Lemma upsert_forward roles seen sub iss mail nm pic now d : forward roles d (fst (upsert_google_user seen sub iss mail nm pic now d)).
Proof.
  unfold upsert_google_user, set_users. destruct (List.find _ (users seen)) as [u|] eqn:Hf.
  - destruct (users_ok _) eqn:Hok; [|apply forward_refl]. apply with_users_forward; [|done].
    apply update_where_later; [apply _|]. intros u0 _ _. split_and!; auto.
  - destruct (users_ok (users d ++ _)) eqn:Hok.
    + cbn [fst]. intros [H1 H2 [H3 H3'] H4 H5]. split.
      * split; cbn; [done|done| |done|].
        -- rewrite fmap_app. split; [|apply Forall_app; split; [eapply Forall_impl; [exact H3'|cbn; lia]|constructor; [cbn; lia|constructor]]].
           apply NoDup_app. split_and!; [done| |apply NoDup_singleton].
           intros x (u & -> & Hu)%list_elem_of_fmap Hx%list_elem_of_singleton. rewrite Forall_forall in H3'. specialize (H3' u Hu). cbn in Hx. lia.
        -- eapply Forall_impl; [exact H5|]. intros t Ht. rewrite fmap_app. set_solver.
      * split; cbn; [|apply rows_later_refl, _|lia]. apply rows_later_app. induction (users d); constructor; [apply user_later_refl|done].
    + destruct (users_ok (update_where _ _ _)) eqn:Hok'; [|apply forward_refl].
      destruct (Nat.eqb _ _); [|apply forward_refl]. apply with_users_forward; [|done].
      apply update_where_later; [apply _|]. intros u0 _ Hm. bool_to_prop. split_and!; cbn; auto.
Qed.

Lemma set_admin_forward id b now d : forward (eq id) d (fst (set_user_admin id b now d)).
Proof.
  intros Hd. apply with_users_forward; [| |done].
  - apply update_where_later; [apply _|]. intros u _ Hu. bool_to_prop. split_and!; auto.
  - destruct Hd as [H1 _ _ _ _]. unfold users_ok in *. rewrite andb_true_iff, !bool_decide_eq_true in *.
    assert (forall B (f : User -> B), (forall u, f (set_admin b now u) = f u) ->
      f <$> update_where (fun u => user_pk u =? id) (set_admin b now) (users d) = f <$> users d) as Hsame.
    { intros B f Hf. unfold update_where. generalize (users d) as l. induction l as [|u l IH]; cbn; [done|].
      rewrite IH. by destruct (user_pk u =? id); rewrite ?Hf. }
    by rewrite !Hsame.
Qed.

Lemma links_forward roles d ls : forward roles d (with_links ls d).
Proof. intros [H1 H2 H3 H4 H5]. split; [by split|]. split; cbn; [apply rows_later_refl, _|apply rows_later_refl, _|lia]. Qed.

Section forward.
Context (hash : string -> string) (mac : string -> string -> string).

Lemma backfill_forward roles row d d' : backfill row d = Some d' -> forward roles d d'.
Proof. apply set_tokens_forward. by intros t. Qed.

Lemma later_owner roles d d' id : later roles d d' -> id ∈ user_pk <$> users d -> id ∈ user_pk <$> users d'.
Proof.
  intros [(l1 & k & -> & H)%rows_later_inv _ _]. rewrite fmap_app. intros Hid. apply elem_of_app. left.
  assert (user_pk <$> l1 = user_pk <$> users d) as ->; [|done]. apply Forall2_map_eq. eapply Forall2_impl; [exact H|]. by intros u u' (?&_).
Qed.

Lemma mint_forward roles u raw now d d' : u ∈ user_pk <$> users d -> insert_token (config_token hash u raw now d) d = Some d' -> forward roles d d'.
Proof. intros Hu. by apply insert_forward. Qed.

(** Other workers only move the store forward. *)
Definition workers (roles : Z -> Prop) (others : nat -> DB -> DB) : Prop := forall k d, forward roles d (others k d).

Lemma config_loop_forward roles others fuel k u secret now d : workers roles others -> u ∈ user_pk <$> users d ->
  forward roles d (fst (config_loop hash mac others fuel k u secret now d)).
Proof.
  intros Ho. revert k d. induction fuel as [|fuel IH]; intros k d Hu; cbn [config_loop]; [apply forward_refl|].
  intros Hd. pose proof (Ho k d Hd) as [Hd1 L1]. pose proof (Ho (S k) _ Hd1) as [Hd2 L2].
  set (d2 := others (S k) (others k d)) in *.
  assert (forward roles d d2) as Hf by (eapply forward_trans; apply Ho).
  assert (u ∈ user_pk <$> users d2) as Hu2 by (eapply later_owner; [exact L2|]; by eapply later_owner).
  revert Hd. fold (forward roles d). destruct (scan_live _ _ _ _ _ _) as [[row raw]|].
  - destruct (backfill row d2) as [d3|] eqn:Hb; cbn [fst]; [|done]. eapply forward_trans; [exact Hf|by eapply backfill_forward].
  - destruct (insert_token _ _) as [d3|] eqn:Hi; cbn [fst].
    + eapply forward_trans; [exact Hf|]. eapply forward_trans; [apply revoke_forward|]. eapply mint_forward; [|exact Hi]. done.
    + eapply forward_trans; [exact Hf|]. by apply IH.
Qed.

Lemma config_forward roles others fuel u secret now d : workers roles others ->
  forward roles d (fst (get_or_create_config_token hash mac others fuel u secret now d)).
Proof.
  intros Ho. unfold get_or_create_config_token. destruct (get_user u d) as [usr|] eqn:Hg; [|apply forward_refl].
  apply get_user_in in Hg. pose proof (Ho 0%nat d) as Hf0.
  assert (forall d1, (d1 = others 0%nat d \/ d1 = revoke_marked u (others 0%nat d)) ->
    forward roles d (fst (match scan_live hash mac secret u 0 (config_rows u d) with
        | Some (row, raw) =>
            match backfill row d1 with
            | Some d' => (d', Some (Ok (mkCreated (_token_from_row row) raw)))
            | None => (d1, Some (Err IntegrityError))
            end
        | None =>
            let raw := _derive_config_token mac secret u (length (config_rows u d)) in
            let t := config_token hash u raw now d1 in
            match insert_token t d1 with
            | Some d' => (d', Some (Ok (mkCreated (_token_from_row t) raw)))
            | None => config_loop hash mac others fuel 1 u secret now (others 0%nat d)
            end
        end))) as Hmint.
  { intros d1 Hd1 Hok. assert (forward roles d d1) as Hf1.
    { destruct Hd1 as [->| ->]; [done|]. eapply forward_trans; [exact Hf0|apply revoke_forward]. }
    assert (u ∈ user_pk <$> users d1 /\ u ∈ user_pk <$> users (others 0%nat d)) as [Hu1 Hu0].
    { destruct (Hf1 Hok) as [_ L1]. destruct (Hf0 Hok) as [_ L0]. split; by eapply later_owner. }
    revert Hok. fold (forward roles d). destruct (scan_live _ _ _ _ _ _) as [[row raw]|].
    - destruct (backfill row d1) as [d2|] eqn:Hb; cbn [fst]; [|done]. eapply forward_trans; [exact Hf1|by eapply backfill_forward].
    - cbn zeta. destruct (insert_token _ _) as [d2|] eqn:Hi; cbn [fst].
      + eapply forward_trans; [exact Hf1|]. by eapply mint_forward.
      + eapply forward_trans; [exact Hf0|]. by apply config_loop_forward. }
  destruct (List.find _ _); [case_bool_decide; [apply forward_refl|]|]; apply Hmint; auto.
Qed.
End forward.

Section operations.
Context (hash : string -> string) (mac : string -> string -> string).

(** [roles] names the accounts whose role may change: those an administrator
    sets, here or in another worker. *)
Definition op_ok (roles : Z -> Prop) (op : Op) : Prop :=
  match op with
  | SetAdmin id _ _ => roles id
  | ConfigToken others _ _ _ _ => workers roles others
  | _ => True
  end.

Lemma forward_weaken (P Q : Z -> Prop) d d' : (forall i, P i -> Q i) -> forward P d d' -> forward Q d d'.
Proof.
  intros HPQ H Hd. destruct (H Hd) as [Hok [(l & k & Hl & Hu)%rows_later_inv Ht Hn]]. split; [done|]. split; [|done|done].
  rewrite Hl. apply rows_later_app. eapply Forall2_impl; [exact Hu|]. intros u u' (?&?&?&Hr). split_and!; try done.
  destruct Hr; auto.
Qed.

Lemma run_forward roles op d : op_ok roles op -> forward roles d (run hash mac op d).
Proof.
  destruct op; cbn [run op_ok]; intros Hop.
  - apply upsert_forward.
  - apply (forward_weaken (eq id)); [by intros ? <-|apply set_admin_forward].
  - unfold create_token. destruct (get_user user_id d) eqn:Hg; [|apply forward_refl]. apply get_user_in in Hg.
    destruct (insert_token _ _) eqn:Hi; [|apply forward_refl]. eapply insert_forward; [| |exact Hi]; done.
  - by apply config_forward.
  - apply revoke_forward.
  - apply revoke_forward.
  - unfold create_personal_token. destruct (get_user user_id d) eqn:Hg; [|apply forward_refl]. apply get_user_in in Hg.
    destruct (insert_token _ _) eqn:Hi; [|apply forward_refl].
    eapply forward_trans; [apply revoke_forward|]. eapply forward_trans; [apply links_forward|]. eapply insert_forward; [| |exact Hi]; done.
  - apply update_tokens_forward. intros t. split; [by split_and!|]. by intros q.
  - unfold create_setup_link. case_bool_decide; apply links_forward.
  - intros Hd. assert (forward roles d (with_tokens (update_where (fun t => t_id t =? token_id) (touch now) (tokens d)) d)) as Hf.
    { apply update_tokens_forward. intros t. split; [by split_and!|]. by intros q. }
    destruct (Hf Hd) as [[H1 H2 H3 H4 H5] [L1 L2 L3]]. split; by split.
Qed.

Definition run_all (ops : list Op) (d : DB) : DB := fold_left (fun d op => run hash mac op d) ops d.

Lemma run_all_forward roles ops d : Forall (op_ok roles) ops -> forward roles d (run_all ops d).
Proof.
  intros H. revert d. induction H as [|op ops Hop _ IH]; intros d; cbn; [apply forward_refl|].
  eapply forward_trans; [by apply run_forward|apply IH].
Qed.

End operations.

Lemma later_token roles d d' t : later roles d d' -> t ∈ tokens d -> exists t', t' ∈ tokens d' /\ token_later t t'.
Proof.
  intros [_ (l & k & -> & H)%rows_later_inv _] [i Hi]%list_elem_of_lookup.
  destruct (Forall2_lookup_l _ _ _ _ _ H Hi) as (t' & Ht' & HR). exists t'. split; [|done].
  apply elem_of_app. left. by eapply list_elem_of_lookup_2.
Qed.

Lemma later_user roles d d' u : later roles d d' -> u ∈ users d -> exists u', u' ∈ users d' /\ user_later roles u u'.
Proof.
  intros [(l & k & -> & H)%rows_later_inv _ _] [i Hi]%list_elem_of_lookup.
  destruct (Forall2_lookup_l _ _ _ _ _ H Hi) as (u' & Hu' & HR). exists u'. split; [|done].
  apply elem_of_app. left. by eapply list_elem_of_lookup_2.
Qed.

(** Ids and digests identify rows. *)
Lemma id_inj d t t' : store_ok d -> t ∈ tokens d -> t' ∈ tokens d -> t_id t = t_id t' -> t = t'.
Proof.
  intros [_ _ _ [Hnd _] _] [i Hi]%list_elem_of_lookup [j Hj]%list_elem_of_lookup Heq.
  assert (i = j) as ->; [|congruence]. eapply NoDup_lookup; [exact Hnd| |]; rewrite list_lookup_fmap; [by rewrite Hi|rewrite Hj; cbn; congruence].
Qed.

Lemma hash_inj d t t' : store_ok d -> t ∈ tokens d -> t' ∈ tokens d -> t_hash t = t_hash t' -> t = t'.
Proof.
  intros [_ Hok _ _ _] [i Hi]%list_elem_of_lookup [j Hj]%list_elem_of_lookup Heq.
  unfold tokens_ok in Hok. rewrite !andb_true_iff, !bool_decide_eq_true in Hok. destruct Hok as [[Hnd _] _].
  assert (i = j) as ->; [|congruence]. eapply NoDup_lookup; [exact Hnd| |]; rewrite list_lookup_fmap; [by rewrite Hi|rewrite Hj; cbn; congruence].
Qed.

Lemma pk_inj d u u' : store_ok d -> u ∈ users d -> u' ∈ users d -> user_pk u = user_pk u' -> u = u'.
Proof.
  intros [_ _ [Hnd _] _ _] [i Hi]%list_elem_of_lookup [j Hj]%list_elem_of_lookup Heq.
  assert (i = j) as ->; [|congruence]. eapply NoDup_lookup; [exact Hnd| |]; rewrite list_lookup_fmap; [by rewrite Hi|rewrite Hj; cbn; congruence].
Qed.

Lemma get_user_iff d id u : store_ok d -> get_user id d = Some u <-> u ∈ users d /\ user_pk u = id.
Proof.
  intros Hd. split; [apply get_user_Some|]. intros [Hin Hid]. unfold get_user.
  destruct (List.find _ (users d)) as [u'|] eqn:Hf.
  - apply get_user_Some in Hf as [Hin' Hid']. f_equal. eapply pk_inj; try done. congruence.
  - eapply find_none in Hf; [|by apply list_elem_of_In]. bool_to_prop. done.
Qed.

(** Exactly the live rows resolve, each to its owner. *)
Lemma resolve_iff hash d raw a : store_ok d -> resolve_token hash d raw = Some a <->
  startswith raw TOKEN_PREFIX = true /\ exists t u, t ∈ tokens d /\ t_hash t = hash raw /\ t_revoked t = false /\
    u ∈ users d /\ user_pk u = t_user_id t /\ a = {| user := u; token := _token_from_row t |}.
Proof.
  intros Hd. unfold resolve_token. destruct (startswith raw TOKEN_PREFIX) eqn:Hp; cbn [negb]; [|rewrite orb_true_r; naive_solver].
  assert (str_truthy raw = true) as -> by by destruct raw. cbn [negb orb].
  destruct (List.find _ (tokens d)) as [t|] eqn:Hf.
  - apply find_some in Hf as [Hin Hc]. apply list_elem_of_In in Hin. bool_to_prop.
    assert (forall t', t' ∈ tokens d -> t_hash t' = hash raw -> t' = t) as Huniq.
    { intros t' Ht' Hh. eapply hash_inj; try done. congruence. }
    destruct (get_user (t_user_id t) d) as [u|] eqn:Hg.
    + apply get_user_iff in Hg as [Hu Hid]; [|done]. split.
      * intros [= <-]. split; [done|]. exists t, u. done.
      * intros (_ & t' & u' & Ht' & Hh' & _ & Hu' & Hid' & ->). rewrite (Huniq t' Ht' Hh') in *.
        f_equal. f_equal. eapply pk_inj; try done. congruence.
    + split; [done|]. intros (_ & t' & u' & Ht' & Hh' & _ & Hu' & Hid' & _). rewrite (Huniq t' Ht' Hh') in *.
      assert (get_user (t_user_id t) d = Some u') by (by apply get_user_iff). congruence.
  - split; [done|]. intros (_ & t' & u' & Ht' & Hh' & Hr & _). eapply find_none in Hf; [|by apply list_elem_of_In].
    cbn in Hf. rewrite bool_decide_eq_true_2, Hr in Hf by done. done.
Qed.

(** A user has one active key per governed purpose. *)
Lemma active_inj d t t' p : store_ok d -> p ∈ [_CONFIG_TOKEN_PURPOSE; _PERSONAL_TOKEN_PURPOSE] -> t ∈ tokens d -> t' ∈ tokens d ->
  active_for p t = true -> active_for p t' = true -> t_user_id t = t_user_id t' -> t = t'.
Proof.
  intros [_ Hok _ _ _] Hp Ht Ht' Ha Ha' Heq. unfold tokens_ok in Hok. rewrite !andb_true_iff, !bool_decide_eq_true in Hok.
  assert (NoDup (t_user_id <$> List.filter (active_for p) (tokens d))) as Hnd.
  { apply elem_of_cons in Hp as [->|Hp%list_elem_of_singleton]; [apply Hok|subst p; apply Hok]. }
  assert (t ∈ List.filter (active_for p) (tokens d)) as [i Hi]%list_elem_of_lookup by by apply elem_of_filter_bool.
  assert (t' ∈ List.filter (active_for p) (tokens d)) as [j Hj]%list_elem_of_lookup by by apply elem_of_filter_bool.
  assert (i = j) as ->; [|congruence]. eapply NoDup_lookup; [exact Hnd| |]; rewrite list_lookup_fmap; [by rewrite Hi|rewrite Hj; cbn; congruence].
Qed.

(** C39: whatever the store is asked to do, and whatever other workers commit to
    the same database in between, emails, subjects per issuer, token digests
    and ids stay unique, a user has at most one active agent-config key and at
    most one active personal token, every token has an owner; and every row
    only moves forward: an account keeps its id, its issuer and, unless an
    administrator changes it, its role; a token keeps its digest, its owner
    and its endpoint scope, and stays revoked once it is. *)
Theorem store_invariant hash mac roles ops d : store_ok d -> Forall (op_ok roles) ops ->
  let d' := run_all hash mac ops d in
  store_ok empty_db /\ store_ok d' /\ later roles d d' /\
  (forall t t' p, p ∈ [_CONFIG_TOKEN_PURPOSE; _PERSONAL_TOKEN_PURPOSE] -> t ∈ tokens d' -> t' ∈ tokens d' ->
     active_for p t = true -> active_for p t' = true -> t_user_id t = t_user_id t' -> t = t').
Proof.
  intros Hd Hops. cbn zeta. destruct (run_all_forward hash mac roles ops d Hops Hd) as [Hok Hl].
  split; [exact empty_ok|]. split; [done|]. split; [done|].
  intros t t' p Hp. by apply active_inj.
Qed.

Lemma revoked_unresolvable hash mac roles ops d t raw : store_ok d -> Forall (op_ok roles) ops ->
  t ∈ tokens d -> t_hash t = hash raw -> t_revoked t = true ->
  resolve_token hash (run_all hash mac ops d) raw = None.
Proof.
  intros Hd Hops Ht Hh Hr. destruct (run_all_forward hash mac roles ops d Hops Hd) as [Hok Hl].
  destruct (later_token _ _ _ _ Hl Ht) as (t' & Ht' & _ & _ & _ & Hh' & _ & Hr').
  destruct (resolve_token hash (run_all hash mac ops d) raw) as [a|] eqn:Ha; [|done]. exfalso.
  apply resolve_iff in Ha as (_ & t2 & u & Ht2 & Hh2 & Hr2 & _); [|done].
  assert (t2 = t') as -> by (eapply hash_inj; try done; congruence). rewrite Hr' in Hr2 by done. done.
Qed.

(** C6: revocation is final.  Once the row with a token's digest is revoked, no
    sequence of operations, of this worker or of others, makes that token
    resolve again: not a later mint, not the agent-config key rotation, not a
    change of the account.  A request that presents only this token is refused
    on both API surfaces where the configuration enforces tokens or the request
    itself requires one, and is anonymous everywhere else. *)
Theorem revocation_final hash mac roles ops d t raw : store_ok d -> Forall (op_ok roles) ops ->
  t ∈ tokens d -> t_hash t = hash raw -> t_revoked t = true ->
  let resolve := resolve_token hash (run_all hash mac ops d) in
  resolve raw = None /\
  forall gate s h,
    let answer := if enforce_api_tokens s || Dependencies._requires_token h then Err Dependencies.Invalid_API_token else Ok None in
    (Dependencies._presented_tokens h false = [raw] -> Dependencies.get_api_auth resolve gate s h = answer) /\
    (Dependencies._presented_tokens h true = [raw] -> Dependencies.get_messages_api_auth resolve gate s h = answer).
Proof.
  intros Hd Hops Ht Hh Hr. pose proof (revoked_unresolvable hash mac roles ops d t raw Hd Hops Ht Hh Hr) as Hn. cbn zeta.
  split; [done|]. intros gate s h.
  split; intros Hp; [unfold Dependencies.get_api_auth|unfold Dependencies.get_messages_api_auth]; unfold Dependencies._authenticate; rewrite Hp;
    cbn [Dependencies.resolve_first]; rewrite Hn; cbn [rbind]; by rewrite (orb_comm (Dependencies._requires_token h)).
Qed.

(** A token never changes hands.  If a raw token resolves now and after any
    further operations, it is the same token row of the same account at the
    same issuer, with the same endpoint scope, and the account's role is the
    same unless it was set. *)
Theorem token_identity_stable hash mac roles ops d raw a a' : store_ok d -> Forall (op_ok roles) ops ->
  resolve_token hash d raw = Some a -> resolve_token hash (run_all hash mac ops d) raw = Some a' ->
  token_pk (token a') = token_pk (token a) /\ user_pk (user a') = user_pk (user a) /\ issuer (user a') = issuer (user a) /\
  endpoint_scope (token a') = endpoint_scope (token a) /\
  (roles (user_pk (user a)) \/ is_admin (user a') = is_admin (user a)).
Proof.
  intros Hd Hops Ha Ha'. destruct (run_all_forward hash mac roles ops d Hops Hd) as [Hok Hl].
  apply resolve_iff in Ha as (_ & t & u & Ht & Hh & _ & Hu & Hid & ->); [|done].
  apply resolve_iff in Ha' as (_ & t2 & u2 & Ht2 & Hh2 & _ & Hu2 & Hid2 & ->); [|done].
  destruct (later_token _ _ _ _ Hl Ht) as (t' & Ht' & Hi' & Hu' & _ & Hh' & He' & _).
  assert (t2 = t') as -> by (eapply hash_inj; try done; congruence).
  destruct (later_user _ _ _ _ Hl Hu) as (u' & Hin' & Hpk & Hiss & _ & Hrole).
  assert (u2 = u') as -> by (eapply pk_inj; try done; congruence). cbn. rewrite He'. by split_and!.
Qed.

(** ** Minting *)

Lemma load_dump (l : option (list string)) : _load_scopes (_dump_scopes l) = l.
Proof.
  destruct l as [l|]; [|done]. cbn. assert (mapM json_str (List.map JStr l) = Some l) as ->; [|done].
  induction l as [|x l IH]; cbn; [done|]. by rewrite IH.
Qed.

Lemma insert_token_eq t d d' : insert_token t d = Some d' -> tokens d' = tokens d ++ [t] /\ users d' = users d /\ links d' = links d.
Proof. unfold insert_token. destruct (tokens_ok _); [|done]. by intros [= <-]. Qed.

(** A row that was just inserted resolves. *)
Lemma inserted_resolves hash roles d d' t raw u : store_ok d -> forward roles d d' -> t ∈ tokens d' -> t_hash t = hash raw ->
  t_revoked t = false -> startswith raw TOKEN_PREFIX = true -> get_user (t_user_id t) d' = Some u ->
  resolve_token hash d' raw = Some {| user := u; token := _token_from_row t |}.
Proof.
  intros Hd Hf Ht Hh Hr Hp [Hu Hid]%get_user_Some. destruct (Hf Hd) as [Hok _]. apply resolve_iff; [done|].
  split; [done|]. exists t, u. done.
Qed.

Lemma update_where_in {A} p f (l : list A) x : x ∈ update_where p f l <-> exists y, y ∈ l /\ x = if p y then f y else y.
Proof.
  unfold update_where. rewrite list_elem_of_In, in_map_iff. setoid_rewrite list_elem_of_In. naive_solver.
Qed.

(** What minting a token gives.  On success the returned secret resolves to
    its account with the requested endpoint scope, and every token that
    resolved before still does; the store only ever holds the secret's digest
    and its first thirteen characters.  An unknown account is refused with
    nothing changed. *)
Theorem create_token_spec hash user_id name scope raw now d : store_ok d -> startswith raw TOKEN_PREFIX = true ->
  let '(d', r) := create_token hash user_id name scope raw now d in
  match r with
  | Ok c => raw_token c = raw /\ endpoint_scope (created c) = scope /\
      (exists u, get_user user_id d = Some u /\ resolve_token hash d' raw = Some {| user := u; token := created c |}) /\
      (forall raw' a, resolve_token hash d raw' = Some a -> resolve_token hash d' raw' = Some a)
  | Err (KeyError _) => d' = d /\ get_user user_id d = None
  | Err e => d' = d /\ e = IntegrityError /\ hash raw ∈ t_hash <$> tokens d
  end.
Proof.
  intros Hd Hp. unfold create_token. destruct (get_user user_id d) as [u|] eqn:Hu; [|done].
  set (t := mkToken _ _ _ _ _ _ _ _ _ _ _ _). destruct (insert_token t d) as [d'|] eqn:Hi.
  - destruct (insert_token_eq _ _ _ Hi) as (Ht & Hus & _).
    assert (forward (fun _ => False) d d') as Hf by (apply (insert_forward _ t); [done|by eapply get_user_in|done]).
    split; [done|]. split; [apply load_dump|]. split.
    + exists u. split; [done|]. assert (get_user (t_user_id t) d' = Some u) as Hu'.
      { unfold get_user in *. rewrite Hus. exact Hu. }
      eapply (inserted_resolves hash _ d d' t); try done. rewrite Ht. set_solver.
    + intros raw' a Ha. destruct (Hf Hd) as [Hok _]. apply resolve_iff in Ha as (Hp' & t' & u' & Ht' & Hh & Hr & Hu' & Hid & ->); [|done].
      apply resolve_iff; [done|]. split; [done|]. exists t', u'. rewrite Ht, Hus. split_and!; try done. set_solver.
  - split; [done|]. split; [done|]. unfold insert_token in Hi. destruct (tokens_ok (tokens d ++ [t])) eqn:Hok; [done|].
    destruct (decide (hash raw ∈ t_hash <$> tokens d)) as [|Hn]; [done|]. exfalso.
    assert (tokens_ok (tokens d ++ [t]) = true) as Hx; [|congruence]. destruct Hd as [_ Hok' _ _ _]. unfold tokens_ok in *.
    rewrite !andb_true_iff, !bool_decide_eq_true in *. rewrite !List.filter_app. cbn. rewrite !app_nil_r. destruct Hok' as [[? ?] ?].
    split_and!; try done. rewrite fmap_app. apply NoDup_app. split_and!; [done| |apply NoDup_singleton].
    intros x Hx Heq%list_elem_of_singleton. by subst x.
Qed.

(** A personal token replaces everything else.  When the onboarding flow
    mints one, the account's only live token is the new one, its old tokens no
    longer resolve and its pending setup links are gone, while other accounts
    are untouched; the secret can be derived again with the same session
    secret, and with another session secret only by a digest collision.  A
    refused mint changes nothing. *)
Theorem personal_token_spec hash mac user_id name models secret nonce now d : store_ok d -> str_truthy nonce = true ->
  let '(d', r) := create_personal_token hash mac user_id name models secret nonce now d in
  match r with
  | Ok c =>
      (forall t, t ∈ tokens d' -> t_user_id t = user_id -> t_revoked t = false -> _token_from_row t = created c) /\
      model_scope (created c) = Some models /\
      (exists u, get_user user_id d = Some u /\ resolve_token hash d' (raw_token c) = Some {| user := u; token := created c |}) /\
      (forall raw a, user_pk (user a) <> user_id -> resolve_token hash d raw = Some a -> resolve_token hash d' raw = Some a) /\
      Forall (fun l => l_user_id l <> user_id) (links d') /\
      reveal_personal_token hash mac (token_pk (created c)) secret d' = Some (raw_token c) /\
      (forall other raw, reveal_personal_token hash mac (token_pk (created c)) other d' = Some raw -> hash raw = hash (raw_token c))
  | Err e => d' = d
  end.
Proof.
  intros Hd Hn. unfold create_personal_token. destruct (get_user user_id d) as [u|] eqn:Hu; [|done].
  set (raw := _derive_personal_token mac secret user_id nonce). set (d2 := with_links _ _).
  set (t := mkToken _ _ _ _ _ _ _ _ _ _ _ _). destruct (insert_token t d2) as [d'|] eqn:Hi; [|done].
  destruct (insert_token_eq _ _ _ Hi) as (Ht & Hus & Hli).
  assert (forward (fun _ => False) d d') as Hf.
  { eapply forward_trans; [apply revoke_forward|]. eapply forward_trans; [apply links_forward|].
    apply (insert_forward _ t); [done|by eapply get_user_in|done]. }
  destruct (Hf Hd) as [Hok _].
  assert (forall t0, t0 ∈ tokens d' -> t_user_id t0 = user_id -> t_revoked t0 = false -> t0 = t) as Honly.
  { intros t0. rewrite Ht, elem_of_app, list_elem_of_singleton. intros [H0|H0]; [|done].
    cbn in H0. apply update_where_in in H0 as (y & Hy & ->). destruct (t_user_id y =? user_id) eqn:E; bool_to_prop; cbn.
    - destruct (t_revoked y) eqn:Er; cbn; [by rewrite Er|done].
    - by intros ?. }
  assert (forall b, reveal_personal_token hash mac (t_id t) b d' =
    if bool_decide (hash (_derive_personal_token mac b user_id nonce) = hash raw) then Some (_derive_personal_token mac b user_id nonce) else None) as Hrev.
  { intros b. unfold reveal_personal_token. destruct (List.find _ (tokens d')) as [t0|] eqn:Hfd.
    - apply find_some in Hfd as [H0 Hc]. apply list_elem_of_In in H0. bool_to_prop.
      assert (t0 = t) as ->; [|cbn [t_derive_nonce t]; by rewrite Hn].
      apply (id_inj d'); [done|done|rewrite Ht; set_solver|done].
    - exfalso. eapply find_none in Hfd; [|apply list_elem_of_In; rewrite Ht; apply elem_of_app; right; by left].
      cbn in Hfd. rewrite Z.eqb_refl in Hfd. done. }
  split_and!.
  - intros t0 H1 H2 H3. by rewrite (Honly t0 H1 H2 H3).
  - apply (load_dump (Some models)).
  - exists u. split; [done|]. assert (get_user (t_user_id t) d' = Some u) as Hu'.
    { unfold get_user in *. rewrite Hus. exact Hu. }
    eapply (inserted_resolves hash _ d d' t); try done; [rewrite Ht; set_solver|exact (Prelude.prefix_app TOKEN_PREFIX _)].
  - intros raw' a Ha Hr. apply resolve_iff in Hr as (Hp & t0 & u0 & H1 & H2 & H3 & H4 & H5 & ->); [|done]. cbn in Ha.
    apply resolve_iff; [done|]. split; [done|]. exists t0, u0. rewrite Ht, Hus. split_and!; try done. apply elem_of_app. left.
    apply update_where_in. exists t0. split; [done|]. destruct (Z.eqb_spec (t_user_id t0) user_id); [congruence|done].
  - rewrite Hli. cbn. apply Forall_forall. intros l [_ Hl]%elem_of_filter_bool. by bool_to_prop.
  - cbn [created token_pk _token_from_row raw_token]. rewrite Hrev. by rewrite bool_decide_eq_true_2.
  - intros b raw'. cbn [created token_pk _token_from_row raw_token]. rewrite Hrev. case_bool_decide; congruence.
Qed.

(** ** The agent-config key *)

Section config.
Context (hash : string -> string) (mac : string -> string -> string).
Context (user_id : Z) (secret : string).

Notation rows d := (config_rows user_id d).
Notation derive n := (_derive_config_token mac secret user_id n).

Lemma scan_live_spec n l row raw : scan_live hash mac secret user_id n l = Some (row, raw) ->
  exists i, l !! i = Some row /\ raw = derive (n + i)%nat /\ hash raw = t_hash row /\ t_revoked row = false.
Proof.
  revert n. induction l as [|r l IH]; intros n; cbn [scan_live]; [done|].
  destruct (bool_decide _ && _) eqn:Hc.
  - intros [= <- <-]. bool_to_prop. exists 0%nat. by rewrite Nat.add_0_r.
  - intros (i & Hi & -> & Hh & Hr)%IH. exists (S i). by replace (n + S i)%nat with (S n + i)%nat by lia.
Qed.

Lemma index_of_lookup l i id : NoDup (t_id <$> l) -> (t_id <$> l) !! i = Some id -> index_of id l = i.
Proof.
  revert i. induction l as [|r l IH]; intros i; [done|]. cbn [fmap list_fmap index_of]. intros [Hn Hnd]%NoDup_cons.
  destruct i as [|i]; cbn; [intros [= <-]; by rewrite Z.eqb_refl|]. intros Hi.
  destruct (Z.eqb_spec (t_id r) id) as [<-|]; [|f_equal; by apply IH]. exfalso. apply Hn. by eapply list_elem_of_lookup_2.
Qed.

Lemma config_rows_in d t : t ∈ rows d <-> t ∈ tokens d /\ config_row user_id t = true.
Proof. apply elem_of_filter_bool. Qed.

Lemma active_config t : active_for _CONFIG_TOKEN_PURPOSE t = true -> t_user_id t = user_id -> config_row user_id t = true.
Proof. unfold active_for, config_row. intros Ha <-. bool_to_prop. rewrite Z.eqb_refl, bool_decide_eq_true_2 by done. done. Qed.

Lemma config_row_user t : config_row user_id t = true -> t_user_id t = user_id.
Proof. unfold config_row. intros H. by apply andb_true_iff in H as [H%Z.eqb_eq _]. Qed.

Lemma sublist_ids (p : TokenRow -> bool) (l : list TokenRow) : NoDup (t_id <$> l) -> NoDup (t_id <$> List.filter p l).
Proof.
  induction l as [|t l IH]; cbn; [done|]. intros [Hn Hnd]%NoDup_cons. destruct (p t); [|by apply IH]. cbn. constructor; [|by apply IH].
  intros (t' & Heq & [Hin _]%elem_of_filter_bool)%list_elem_of_fmap. apply Hn. rewrite Heq. by apply list_elem_of_fmap_2.
Qed.

Lemma rows_ids d : store_ok d -> NoDup (t_id <$> rows d).
Proof. intros [_ _ _ [H _] _]. by apply sublist_ids. Qed.

(** Updates that leave [config_row] alone keep the ids of the history. *)
Lemma update_rows_ids p f d : (forall t, t ∈ tokens d -> p t = true -> config_row user_id (f t) = config_row user_id t /\ t_id (f t) = t_id t) ->
  t_id <$> List.filter (config_row user_id) (update_where p f (tokens d)) = t_id <$> rows d.
Proof.
  unfold config_rows. generalize (tokens d) as l. induction l as [|t l IH]; intros H; [done|]. cbn [update_where List.map List.filter].
  change (List.map (fun r => if p r then f r else r) l) with (update_where p f l).
  assert (config_row user_id (if p t then f t else t) = config_row user_id t /\ t_id (if p t then f t else t) = t_id t) as [-> Hid]
    by (destruct (p t) eqn:E; [apply H; [by left|done]|done]).
  specialize (IH ltac:(intros; apply H; [by right|done])). destruct (config_row user_id t); cbn; [by rewrite Hid, IH|done].
Qed.

(** A key that is found again: the active row sits at the index of its key. *)
Lemma config_hit fuel others now d u t n : store_ok d -> get_user user_id d = Some u -> t ∈ tokens d ->
  active_for _CONFIG_TOKEN_PURPOSE t = true -> t_user_id t = user_id -> (t_id <$> rows d) !! n = Some (t_id t) -> hash (derive n) = t_hash t ->
  get_or_create_config_token hash mac others fuel user_id secret now d = (d, Some (Ok (mkCreated (_token_from_row t) (derive n)))).
Proof.
  intros Hd Hu Ht Ha Hus Hn Hh. unfold get_or_create_config_token. rewrite Hu.
  destruct (List.find _ (rev (rows d))) as [t'|] eqn:Hf.
  - apply find_some in Hf as [Hin Ha']. apply in_rev, list_elem_of_In, config_rows_in in Hin as [Hin Hc]. apply config_row_user in Hc.
    assert (t' = t) as -> by (eapply (active_inj d t' t); [done|by left|done..|congruence]).
    rewrite (index_of_lookup _ n) by (by try apply rows_ids). by rewrite bool_decide_eq_true_2.
  - exfalso. eapply find_none in Hf; [|apply in_rev; rewrite rev_involutive; apply list_elem_of_In, config_rows_in; split; [exact Ht|by apply active_config]].
    congruence.
Qed.

(** *** Inside the transaction *)

Definition idle (d : DB) : Prop := forall t, t ∈ tokens d -> t_user_id t = user_id -> active_for _CONFIG_TOKEN_PURPOSE t = false.

Lemma revoke_marked_idle d : idle (revoke_marked user_id d).
Proof.
  intros t Ht. cbn in Ht. apply update_where_in in Ht as (y & Hy & ->).
  destruct (t_user_id y =? user_id) eqn:Hu; cbn; bool_to_prop; [|done]. unfold active_for.
  destruct (bool_decide (t_purpose y = Some _CONFIG_TOKEN_PURPOSE)) eqn:Hp; cbn; [destruct (t_revoked y) eqn:Hr; cbn; by rewrite ?Hr|].
  intros _. by rewrite Hp, andb_false_r.
Qed.

Lemma idle_revoke_marked d : idle d -> revoke_marked user_id d = d.
Proof.
  intros Hi. unfold revoke_marked, revoke_where. cbn [fst]. destruct d as [us ts ls us' nu nt]. unfold with_tokens. cbn in *. f_equal.
  unfold idle in Hi. cbn in Hi. induction ts as [|t ts IH]; cbn; [done|]. rewrite IH; [|intros; apply Hi; [by right|done]]. f_equal.
  destruct (t_user_id t =? user_id) eqn:Hu; cbn; [|done]. bool_to_prop. specialize (Hi t ltac:(by left) Hu). unfold active_for in Hi.
  destruct (bool_decide _), (t_revoked t); try done.
Qed.

(** The partial index only sees distinct owners. *)
Lemma owners_NoDup p (ts : list TokenRow) : NoDup (t_id <$> ts) ->
  (forall t t', t ∈ ts -> t' ∈ ts -> active_for p t = true -> active_for p t' = true -> t_user_id t = t_user_id t' -> t = t') ->
  NoDup (t_user_id <$> List.filter (active_for p) ts).
Proof.
  intros Hids Hinj. apply NoDup_fmap_2_strong; [|eapply NoDup_fmap_1, sublist_ids, Hids].
  intros t t' [Ht Ha]%elem_of_filter_bool [Ht' Ha']%elem_of_filter_bool. by apply Hinj.
Qed.

Lemma backfill_ok d row : store_ok d -> idle d -> row ∈ tokens d -> t_user_id row = user_id -> t_purpose row = None ->
  exists d', backfill row d = Some d' /\ tokens d' = update_where (fun t => t_id t =? t_id row) mark_config (tokens d) /\ users d' = users d.
Proof.
  intros Hd Hi Hrow Hu Hp. unfold backfill, set_tokens. set (ts := update_where _ _ _).
  assert (tokens_ok ts = true) as ->; [|by eexists].
  assert (t_id <$> ts = t_id <$> tokens d) as Hids.
  { apply Forall2_map_eq. unfold ts. apply update_where_later; [by intros ?|]. by intros t. }
  assert (t_hash <$> ts = t_hash <$> tokens d) as Hhash.
  { apply Forall2_map_eq. unfold ts. apply update_where_later; [by intros ?|]. by intros t. }
  pose proof Hd as [_ Hok _ [Hnd _] _].
  assert (forall t, t ∈ tokens d -> t_id t = t_id row -> t = row) as Huniq.
  { intros t Ht Heq. by apply (id_inj d). }
  unfold tokens_ok in *. rewrite !andb_true_iff, !bool_decide_eq_true in *. rewrite Hhash. destruct Hok as [[? _] _]. split_and!; [done|..].
  - apply owners_NoDup; [by rewrite Hids|].
    intros a b (y & Hy & ->)%update_where_in (z & Hz & ->)%update_where_in.
    destruct (Z.eqb_spec (t_id y) (t_id row)) as [Ey|Ey], (Z.eqb_spec (t_id z) (t_id row)) as [Ez|Ez].
    + by rewrite (Huniq y Hy Ey), (Huniq z Hz Ez).
    + intros _ Ha Heq. rewrite (Huniq y Hy Ey) in *. cbn in Heq. rewrite (Hi z Hz) in Ha by congruence. done.
    + intros Ha _ Heq. rewrite (Huniq z Hz Ez) in *. cbn in Heq. rewrite (Hi y Hy) in Ha by congruence. done.
    + intros Ha Hb Heq. eapply (active_inj d); try done. by left.
  - apply owners_NoDup; [by rewrite Hids|].
    assert (forall t, active_for _PERSONAL_TOKEN_PURPOSE (mark_config t) = true -> False) as Hm.
    { intros t. unfold active_for. cbn. by rewrite andb_false_r. }
    intros a b (y & Hy & ->)%update_where_in (z & Hz & ->)%update_where_in.
    destruct (t_id y =? t_id row), (t_id z =? t_id row); try (intros; exfalso; by eapply Hm).
    intros Ha Hb Heq. eapply (active_inj d); try done. right. by left.
Qed.

Lemma mint_ok d now raw : store_ok d -> idle d -> user_id ∈ user_pk <$> users d -> hash raw ∉ t_hash <$> tokens d ->
  exists d', insert_token (config_token hash user_id raw now d) d = Some d'.
Proof.
  intros Hd Hi Hu Hfresh. unfold insert_token. set (t := config_token _ _ _ _ _). assert (tokens_ok (tokens d ++ [t]) = true) as ->; [|by eexists].
  pose proof Hd as [_ Hok _ _ _]. unfold tokens_ok in *. rewrite !andb_true_iff, !bool_decide_eq_true in *. destruct Hok as [[Hh Hc] Hp].
  rewrite !List.filter_app, !fmap_app. cbn. rewrite app_nil_r. split_and!; [| |done].
  - apply NoDup_app. split_and!; [done| |apply NoDup_singleton]. intros x Hx Heq%list_elem_of_singleton. by subst x.
  - apply NoDup_app. split_and!; [done| |apply NoDup_singleton]. intros x Hx Heq%list_elem_of_singleton. subst x.
    apply list_elem_of_fmap in Hx as (t' & Hu' & [Hin Ha]%elem_of_filter_bool). cbn in Hu'. rewrite (Hi t' Hin) in Ha by done. done.
Qed.

(** What holds once the key sits in the table at its index. *)
Definition key_settled (raw : string) (d : DB) (u : User) : Prop :=
  (exists t, resolve_token hash d raw = Some {| user := u; token := t |}) /\
  (forall t, t ∈ tokens d -> t_user_id t = user_id -> active_for _CONFIG_TOKEN_PURPOSE t = true -> t_hash t = hash raw) /\
  (forall others fuel now, exists c, get_or_create_config_token hash mac others fuel user_id secret now d = (d, Some (Ok c)) /\ raw_token c = raw).

Lemma config_done d u t n : store_ok d -> get_user user_id d = Some u -> t ∈ tokens d ->
  active_for _CONFIG_TOKEN_PURPOSE t = true -> t_user_id t = user_id -> (t_id <$> rows d) !! n = Some (t_id t) -> hash (derive n) = t_hash t ->
  key_settled (derive n) d u.
Proof.
  intros Hd Hu Ht Ha Hus Hn Hh. split_and!.
  - exists (_token_from_row t). apply resolve_iff; [done|]. split; [exact (Prelude.prefix_app TOKEN_PREFIX _)|].
    apply get_user_Some in Hu as [Hin Hid]. exists t, u. unfold active_for in Ha. bool_to_prop. split_and!; try done. congruence.
  - intros t' Ht' Hus' Ha'. assert (t' = t) as -> by (eapply (active_inj d t' t); [done|by left|done..|congruence]). done.
  - intros others fuel now. eexists. split; [by apply (config_hit fuel others now d u t n)|done].
Qed.

Lemma config_transaction d u now : store_ok d -> get_user user_id d = Some u -> idle d ->
  forall l, t_id <$> l = t_id <$> rows d -> (forall i r, l !! i = Some r -> t_revoked r = false -> hash (derive i) = t_hash r -> r ∈ tokens d) ->
  hash (derive (length l)) ∉ t_hash <$> tokens d ->
  exists d' raw t, match scan_live hash mac secret user_id 0 l with
    | Some (row, raw) => match backfill row d with Some d' => Some (d', mkCreated (_token_from_row row) raw) | None => None end
    | None => let raw := derive (length l) in let t := config_token hash user_id raw now d in
              match insert_token t d with Some d' => Some (d', mkCreated (_token_from_row t) raw) | None => None end
    end = Some (d', mkCreated t raw) /\ key_settled raw d' u.
Proof.
  intros Hd Hu Hidle l Hl Hin Hfresh. pose proof (get_user_in _ _ _ Hu) as Hmem.
  destruct (scan_live hash mac secret user_id 0 l) as [[row raw]|] eqn:Hscan.
  - apply scan_live_spec in Hscan as (n & Hn & -> & Hh & Hr). cbn [Nat.add] in *.
    assert (row ∈ tokens d) as Hrow by (eapply Hin; done).
    assert ((t_id <$> rows d) !! n = Some (t_id row)) as Hidx by (rewrite <- Hl, list_lookup_fmap, Hn; done).
    assert (row ∈ rows d) as [_ Hc]%config_rows_in.
    { rewrite list_lookup_fmap in Hidx. destruct (rows d !! n) as [r|] eqn:Hr'; [|done]. injection Hidx as Hid.
      assert (r ∈ rows d) as Hrr by (by eapply list_elem_of_lookup_2). pose proof Hrr as [Hrd _]%config_rows_in.
      by rewrite <- (id_inj d r row Hd Hrd Hrow Hid). }
    pose proof (config_row_user _ Hc) as Hus.
    assert (t_purpose row = None) as Hp.
    { specialize (Hidle row Hrow Hus). unfold active_for in Hidle. rewrite Hr in Hidle. cbn in Hidle. unfold config_row in Hc. rewrite Hidle in Hc.
      destruct (t_purpose row); [|done]. cbn in Hc. by rewrite andb_false_r in Hc. }
    destruct (backfill_ok d row Hd Hidle Hrow Hus Hp) as (d' & Hb & Ht' & Hu'). rewrite Hb. eexists d', _, _. split; [done|].
    destruct (backfill_forward (fun _ => False) row d d' Hb Hd) as [Hd' _].
    apply (config_done d' u (mark_config row) n); try done.
    + unfold get_user in *. by rewrite Hu'.
    + rewrite Ht'. apply update_where_in. exists row. by rewrite Z.eqb_refl.
    + unfold active_for. cbn. by rewrite Hr.
    + unfold config_rows. rewrite Ht'. rewrite update_rows_ids; [done|]. intros t Ht Heq. split; [|done].
      assert (t = row) as ->; [|by rewrite Hc; unfold config_row; cbn; rewrite Hus, Z.eqb_refl].
      bool_to_prop. by apply (id_inj d).
  - cbn zeta. destruct (mint_ok d now (derive (length l)) Hd Hidle Hmem Hfresh) as (d' & Hi). rewrite Hi. eexists d', _, _. split; [done|].
    destruct (insert_token_eq _ _ _ Hi) as (Ht' & Hu' & _). destruct (mint_forward hash (fun _ => False) _ _ _ _ _ Hmem Hi Hd) as [Hd' _].
    apply (config_done d' u (config_token hash user_id (derive (length l)) now d) (length l)); try done.
    + unfold get_user in *. by rewrite Hu'.
    + rewrite Ht'. set_solver.
    + unfold config_rows. rewrite Ht', List.filter_app, fmap_app.
      assert (length l = length (t_id <$> List.filter (config_row user_id) (tokens d))) as Hlen by (by rewrite <- (length_fmap t_id l), Hl).
      rewrite lookup_app_r, Hlen, Nat.sub_diag by lia. cbn [List.filter]. unfold config_row at 1. cbn. by rewrite Z.eqb_refl.
Qed.
End config.

(** Minting inside an idle transaction [d1] on the snapshot of [d]. *)
Lemma config_mint hash mac fuel user_id secret now d u : get_user user_id d = Some u ->
  hash (_derive_config_token mac secret user_id (length (config_rows user_id d))) ∉ t_hash <$> tokens d ->
  forall d1, store_ok d1 -> users d1 = users d -> idle user_id d1 -> t_id <$> config_rows user_id d = t_id <$> config_rows user_id d1 ->
  (forall i r, config_rows user_id d !! i = Some r -> t_revoked r = false -> hash (_derive_config_token mac secret user_id i) = t_hash r -> r ∈ tokens d1) ->
  t_hash <$> tokens d1 = t_hash <$> tokens d ->
  exists d' c, match scan_live hash mac secret user_id 0 (config_rows user_id d) with
    | Some (row, raw) => match backfill row d1 with
        | Some d' => (d', Some (Ok (mkCreated (_token_from_row row) raw)))
        | None => (d1, Some (Err IntegrityError)) end
    | None => let raw := _derive_config_token mac secret user_id (length (config_rows user_id d)) in
        let t := config_token hash user_id raw now d1 in
        match insert_token t d1 with
        | Some d' => (d', Some (Ok (mkCreated (_token_from_row t) raw)))
        | None => config_loop hash mac (fun _ d => d) fuel 1 user_id secret now d end
    end = (d', Some (Ok c)) /\ key_settled hash mac user_id secret (raw_token c) d' u.
Proof.
  intros Hu Hfresh d1 Hd1 Hus Hidle Hids Hin Hh. assert (get_user user_id d1 = Some u) as Hu1 by (unfold get_user in *; by rewrite Hus).
  destruct (config_transaction hash mac user_id secret d1 u now Hd1 Hu1 Hidle (config_rows user_id d) Hids Hin) as (d' & raw & t & Heq & Hs);
    [by rewrite Hh|]. exists d', (mkCreated t raw). split; [|done].
  destruct (scan_live _ _ _ _ _ _) as [[row raw']|].
  - destruct (backfill row d1); [|done]. injection Heq as -> ->. by subst.
  - cbn zeta in *. destruct (insert_token _ d1); [|done]. injection Heq as -> ->. by subst.
Qed.

(** The agent-config key.  With no other worker interfering and no digest
    collision, asking for the key always succeeds: the returned secret
    resolves to the account, it is the only active agent-config key of the
    account (so keys from an earlier session secret no longer resolve), and
    asking again, with whatever interference, returns the same secret and
    changes nothing.  This holds for histories with revoked keys, keys from
    before the purpose marker and tokens that merely share the name. *)
Theorem config_token_stable hash mac fuel user_id secret now d u :
  store_ok d -> get_user user_id d = Some u ->
  hash (_derive_config_token mac secret user_id (length (config_rows user_id d))) ∉ t_hash <$> tokens d ->
  exists d' c, get_or_create_config_token hash mac (fun _ d => d) fuel user_id secret now d = (d', Some (Ok c)) /\
    (exists t, resolve_token hash d' (raw_token c) = Some {| user := u; token := t |}) /\
    (forall t, t ∈ tokens d' -> t_user_id t = user_id -> active_for _CONFIG_TOKEN_PURPOSE t = true -> t_hash t = hash (raw_token c)) /\
    (forall others fuel' now', exists c',
       get_or_create_config_token hash mac others fuel' user_id secret now' d' = (d', Some (Ok c')) /\ raw_token c' = raw_token c).
Proof.
  intros Hd Hu Hfresh.
  pose proof (config_mint hash mac fuel user_id secret now d u Hu Hfresh) as Hgo.
  unfold get_or_create_config_token at 1. rewrite Hu.
  destruct (List.find _ (rev (config_rows user_id d))) as [active|] eqn:Hf.
  - apply find_some in Hf as [Hin Ha]. apply in_rev, list_elem_of_In in Hin. pose proof Hin as [Hat Hc]%config_rows_in. pose proof (config_row_user _ _ Hc) as Hau.
    pose proof Hin as [n Hn]%list_elem_of_lookup.
    assert ((t_id <$> config_rows user_id d) !! n = Some (t_id active)) as Hidx by (rewrite list_lookup_fmap, Hn; done).
    rewrite (index_of_lookup _ n) by (by try apply rows_ids). case_bool_decide as Hm.
    + exists d, (mkCreated (_token_from_row active) (_derive_config_token mac secret user_id n)). split; [done|].
      by apply (config_done hash mac user_id secret d u active n).
    + destruct (Hgo (revoke_marked user_id d)) as (d' & c & Heq & Hs).
      * by apply (revoke_forward (fun _ => False)).
      * done.
      * apply revoke_marked_idle.
      * unfold config_rows at 2. cbn [revoke_marked revoke_where fst with_tokens tokens]. rewrite update_rows_ids; [done|]. by intros t _ _.
      * intros i r Hi Hr Hhash. assert (r ∈ config_rows user_id d) as [Hrd Hrc]%config_rows_in by (by eapply list_elem_of_lookup_2).
        apply update_where_in. exists r. split; [done|]. rewrite (config_row_user _ _ Hrc), Z.eqb_refl. cbn.
        destruct (bool_decide (t_purpose r = Some _CONFIG_TOKEN_PURPOSE)) eqn:Hp; [|done]. exfalso. apply Hm.
        assert (r = active) as ->.
        { eapply (active_inj d r active); try done; [by left|by unfold active_for; rewrite Hr, Hp|].
          rewrite Hau. by apply config_row_user. }
        assert (i = n) as <-; [|done]. eapply NoDup_lookup; [by apply (rows_ids user_id d)| |exact Hidx]. by rewrite list_lookup_fmap, Hi.
      * apply Forall2_map_eq, update_where_later; [by intros ?|]. by intros t.
      * exists d', c. split; [exact Heq|exact Hs].
  - destruct (Hgo d) as (d' & c & Heq & Hs); try done.
    + intros t Ht Htu. destruct (active_for _CONFIG_TOKEN_PURPOSE t) eqn:Ha; [|done]. exfalso.
      eapply find_none in Hf; [|apply in_rev; rewrite rev_involutive; apply list_elem_of_In, config_rows_in; split; [exact Ht|by apply active_config]]. congruence.
    + intros i r Hi _ _. assert (r ∈ config_rows user_id d) as [Hrd _]%config_rows_in by (by eapply list_elem_of_lookup_2). done.
    + exists d', c. split; [exact Heq|exact Hs].
Qed.

(** ** Accounts *)

Lemma keys_NoDup {B} (f : User -> B) us : NoDup (user_pk <$> us) ->
  NoDup (f <$> us) <-> forall u u', u ∈ us -> u' ∈ us -> f u = f u' -> u = u'.
Proof.
  intros Hpk. split.
  - intros Hnd u u' [i Hi]%list_elem_of_lookup [j Hj]%list_elem_of_lookup Heq. assert (i = j) as ->; [|congruence].
    eapply NoDup_lookup; [exact Hnd| |]; rewrite list_lookup_fmap; [by rewrite Hi|rewrite Hj; cbn; congruence].
  - intros H. apply NoDup_fmap_2_strong; [auto|by eapply NoDup_fmap_1].
Qed.

Definition subject_of (u : User) : string * string := (issuer u, google_sub u).

Lemma users_ok_iff us : NoDup (user_pk <$> us) -> users_ok us = true <->
  (forall u u', u ∈ us -> u' ∈ us -> email u = email u' -> u = u') /\ (forall u u', u ∈ us -> u' ∈ us -> subject_of u = subject_of u' -> u = u').
Proof. intros Hpk. unfold users_ok. rewrite andb_true_iff, !bool_decide_eq_true. by rewrite !keys_NoDup. Qed.

Lemma update_pks p (f : User -> User) us : (forall u, user_pk (f u) = user_pk u) -> user_pk <$> update_where p f us = user_pk <$> us.
Proof. intros Hf. apply Forall2_map_eq, update_where_later; [by intros ?|]. intros u _ _. apply Hf. Qed.

(** Updating one row [u0], the only one [p] selects, keeps the indexes when its
    new email and subject are not another row's. *)
Lemma update_one_ok p f us u0 : NoDup (user_pk <$> us) -> users_ok us = true -> (forall u, user_pk (f u) = user_pk u) ->
  (forall u, u ∈ us -> p u = true -> u = u0) ->
  users_ok (update_where p f us) = true <->
  (p u0 = true -> u0 ∈ us -> forall u, u ∈ us -> u <> u0 -> email u <> email (f u0) /\ subject_of u <> subject_of (f u0)).
Proof.
  intros Hpk Hok Hf Hp. rewrite users_ok_iff in Hok by done. destruct Hok as [He Hs].
  rewrite users_ok_iff by (by rewrite update_pks). split.
  - intros [He' Hs'] Hp0 Hin u Hu Hne.
    assert (p u = false) as Hpu by (destruct (p u) eqn:E; [exfalso; apply Hne; by apply Hp|done]).
    assert (u ∈ update_where p f us) as Hu1 by (apply update_where_in; exists u; by rewrite Hpu).
    assert (f u0 ∈ update_where p f us) as Hu2 by (apply update_where_in; exists u0; by rewrite Hp0).
    assert (u <> f u0) as Hnf.
    { intros ->. apply Hne. assert (user_pk (f u0) = user_pk u0) as Heq by apply Hf.
      apply (proj1 (keys_NoDup user_pk us Hpk) Hpk); done. }
    split; intros Heq; apply Hnf; auto.
  - intros H. assert (forall B (g : User -> B), (forall u u', u ∈ us -> u' ∈ us -> g u = g u' -> u = u') ->
      (p u0 = true -> u0 ∈ us -> forall u, u ∈ us -> u <> u0 -> g u <> g (f u0)) ->
      forall u u', u ∈ update_where p f us -> u' ∈ update_where p f us -> g u = g u' -> u = u') as Hgen.
    { intros B g Hg Hd u u' (y & Hy & ->)%update_where_in (z & Hz & ->)%update_where_in.
      destruct (p y) eqn:Ey, (p z) eqn:Ez; intros Heq.
      - by rewrite (Hp y Hy Ey), (Hp z Hz Ez).
      - pose proof (Hp y Hy Ey); subst y. exfalso. apply (Hd Ey Hy z Hz); [by intros ->; congruence|done].
      - pose proof (Hp z Hz Ez); subst z. exfalso. apply (Hd Ez Hz y Hy); [by intros ->; congruence|done].
      - by apply Hg. }
    split; apply Hgen; try done; intros Hp0 Hin u Hu Hne; by apply (H Hp0 Hin u Hu Hne).
Qed.

Lemma find_subject d iss sub u : store_ok d -> List.find (by_subject iss sub) (users d) = Some u <-> u ∈ users d /\ subject_of u = (iss, sub).
Proof.
  intros [Hok _ [Hpk _] _ _]. rewrite users_ok_iff in Hok by done. destruct Hok as [_ Hs].
  assert (forall u, by_subject iss sub u = true <-> subject_of u = (iss, sub)) as Hb.
  { intros v. unfold by_subject, subject_of. rewrite andb_true_iff, !bool_decide_eq_true. naive_solver. }
  split.
  - intros [Hin Hc]%find_some. split; [by apply list_elem_of_In|by apply Hb].
  - intros [Hin Hc]. destruct (List.find _ _) as [v|] eqn:Hf.
    + apply find_some in Hf as [Hv Hcv]. apply list_elem_of_In in Hv. f_equal. apply Hs; [done|done|]. rewrite Hc. by apply Hb.
    + eapply find_none in Hf; [|by apply list_elem_of_In]. apply Hb in Hc. congruence.
Qed.

Lemma find_subject_None d iss sub u : List.find (by_subject iss sub) (users d) = None -> u ∈ users d -> subject_of u <> (iss, sub).
Proof.
  intros Hf Hu Heq. eapply find_none in Hf; [|by apply list_elem_of_In]. unfold by_subject, subject_of in *. injection Heq as H1 H2.
  by rewrite !bool_decide_eq_true_2 in Hf.
Qed.

Lemma filter_one {A} (p : A -> bool) l x : NoDup l -> x ∈ l -> p x = true -> (forall y, y ∈ l -> p y = true -> y = x) -> length (List.filter p l) = 1%nat.
Proof.
  intros Hnd. induction Hnd as [|y l Hn Hnd IH]; [by intros ?%not_elem_of_nil|]. intros Hx Hp Hu. cbn. apply elem_of_cons in Hx as [->|Hx].
  - rewrite Hp. cbn. f_equal. assert (List.filter p l = []) as ->; [|done]. clear IH. induction l as [|z l IHl]; [done|]. cbn.
    destruct (p z) eqn:E; [|apply IHl; [set_solver|by inversion Hnd|intros; apply Hu; [set_solver|done]]].
    exfalso. apply Hn. rewrite <- (Hu z ltac:(set_solver) E). by left.
  - destruct (p y) eqn:E; [|by apply IH; [| |intros; apply Hu; [by right|done]]]. exfalso. apply Hn. by rewrite (Hu y ltac:(by left) E).
Qed.

Lemma mail_holder d mail : (exists u, u ∈ users d /\ email u = mail) \/ (forall u, u ∈ users d -> email u <> mail).
Proof.
  destruct (existsb (fun u => bool_decide (email u = mail)) (users d)) eqn:E.
  - left. apply existsb_elem in E as (u & Hu & H). bool_to_prop. eauto.
  - right. intros u Hu Hm. assert (existsb (fun u => bool_decide (email u = mail)) (users d) = true); [|congruence].
    apply existsb_elem. exists u. by rewrite bool_decide_eq_true_2.
Qed.

(** The address is held by an account that the subject cannot take over: one of
    another issuer, or any other one when the subject has an account. *)
Definition account_conflict (sub iss mail : string) (d : DB) : Prop :=
  exists u0, u0 ∈ users d /\ email u0 = mail /\ subject_of u0 <> (iss, sub) /\
    (issuer u0 <> iss \/ exists u1, u1 ∈ users d /\ subject_of u1 = (iss, sub)).

(** The look-up is current for the subject. *)
Definition lookup_current (sub iss : string) (seen d : DB) : Prop :=
  List.find (by_subject iss sub) (users seen) = List.find (by_subject iss sub) (users d).

(** What [upsert_google_user] may do to a store. *)
Definition upsert_outcome (sub iss mail : string) (d d' : DB) (r : result StoreError User) : Prop :=
  match r with
  | Ok u => store_ok d' /\ u ∈ users d' /\ subject_of u = (iss, sub) /\ email u = mail /\
      ((exists u0, u0 ∈ users d /\ user_pk u0 = user_pk u /\ is_admin u0 = is_admin u /\ issuer u0 = iss /\
         (google_sub u0 = sub \/ email u0 = mail)) \/
       ((forall u0, u0 ∈ users d -> email u0 <> mail /\ subject_of u0 <> (iss, sub)) /\ user_pk u = next_user d /\ is_admin u = false)) /\
      ~ account_conflict sub iss mail d
  | Err e => d' = d /\ e = AccountConflictError mail /\ account_conflict sub iss mail d
  end.

Lemma upsert_refreshes seen sub iss mail nm pic now d u0 : lookup_current sub iss seen d -> store_ok d -> u0 ∈ users d -> subject_of u0 = (iss, sub) ->
  let '(d', r) := upsert_google_user seen sub iss mail nm pic now d in upsert_outcome sub iss mail d d' r.
Proof.
  intros Hseen Hd Hin Hsub. pose proof (upsert_forward (fun _ => False) seen sub iss mail nm pic now d Hd) as [Hok _]. revert Hok.
  pose proof Hd as [Hus _ [Hpk _] _ _]. pose proof Hus as Hinj. rewrite users_ok_iff in Hinj by done. destruct Hinj as [He Hs].
  unfold upsert_outcome, upsert_google_user, set_users. rewrite Hseen, (proj2 (find_subject d iss sub u0 Hd)) by done.
  injection Hsub as Hiss Hgs.
  assert (forall u, u ∈ users d -> by_subject iss sub u = true -> u = u0) as Hp.
  { intros u Hu Hb. apply Hs; [done|done|]. unfold by_subject, subject_of in *. bool_to_prop. congruence. }
  assert (by_subject iss sub u0 = true) as Hp0 by (unfold by_subject; by rewrite !bool_decide_eq_true_2).
  pose proof (update_one_ok _ (refresh mail nm pic now) (users d) u0 Hpk Hus ltac:(done) Hp) as Hupd.
  destruct (users_ok (update_where _ _ _)) eqn:Hu'; cbn [fst].
  + intros Hok. assert (refresh mail nm pic now u0 ∈ update_where (by_subject iss sub) (refresh mail nm pic now) (users d)) as Hr
      by (apply update_where_in; exists u0; by rewrite Hp0).
    rewrite (proj2 (find_subject _ iss sub (refresh mail nm pic now u0) Hok)) by (split; [done|unfold subject_of; cbn; congruence]).
    split_and!; try done; [unfold subject_of; cbn; congruence|left; exists u0; split_and!; try done; by left|].
    intros (v & Hv & Hvm & Hvs & _). assert (v <> u0) as Hne by (intros ->; apply Hvs; unfold subject_of; congruence).
    assert (v ∈ update_where (by_subject iss sub) (refresh mail nm pic now) (users d)) as Hv'.
    { apply update_where_in. exists v. split; [done|]. destruct (by_subject iss sub v) eqn:E; [|done]. by rewrite (Hp v Hv E) in Hne. }
    destruct Hok as [Hus' _ [Hpk' _] _ _]. cbn in Hpk', Hus'. pose proof Hus' as Hinj'. rewrite users_ok_iff in Hinj' by done. destruct Hinj' as [He' _].
    pose proof (He' v (refresh mail nm pic now u0) Hv' Hr Hvm) as Heq. apply Hne. apply (pk_inj d v u0 Hd Hv Hin). by rewrite Heq.
  + intros _. split_and!; try done.
    assert (forall u, u ∈ users d -> email u = mail -> subject_of u = (iss, sub) -> u = u0) as Hme.
    { intros u Hu _ Heq. apply Hs; [done|done|]. rewrite Heq. unfold subject_of. congruence. }
    destruct (mail_holder d mail) as [(u & Hu & Hm)|Hn].
    * destruct (decide (subject_of u = (iss, sub))) as [Heq|]; [|exists u; split_and!; try done; right; exists u0; split; [done|unfold subject_of; congruence]]. exfalso. pose proof (Hme u Hu Hm Heq); subst u.
      assert (false = true); [|done]. apply Hupd. intros _ _ v Hv Hne. split; intros Hvv; apply Hne; [apply He; [done|done|cbn in Hvv; congruence]|by apply Hs].
    * exfalso. assert (false = true); [|done]. apply Hupd. intros _ _ v Hv Hne. split; [by apply Hn|]. intros Hvv. apply Hne. by apply Hs.
Qed.

Lemma upsert_inserts seen sub iss mail nm pic now d : lookup_current sub iss seen d -> store_ok d -> List.find (by_subject iss sub) (users d) = None ->
  let '(d', r) := upsert_google_user seen sub iss mail nm pic now d in upsert_outcome sub iss mail d d' r.
Proof.
  intros Hseen Hd Hf. pose proof (upsert_forward (fun _ => False) seen sub iss mail nm pic now d Hd) as [Hok _]. revert Hok.
  pose proof Hd as [Hus _ [Hpk _] _ _]. pose proof Hus as Hinj. rewrite users_ok_iff in Hinj by done. destruct Hinj as [He Hs].
  unfold upsert_outcome, upsert_google_user, set_users. rewrite Hseen, Hf.
  assert (forall u, u ∈ users d -> subject_of u <> (iss, sub)) as Hnew by (intros u; by apply find_subject_None).
  destruct (users_ok (users d ++ _)) eqn:Hu'; cbn [fst].
  + set (u := Build_User _ _ _ _ _ _ _ _ _) in *. intros Hok.
    assert (u ∈ users d ++ [u]) as Hin by set_solver.
    rewrite (proj2 (find_subject _ iss sub u Hok)) by (split; [exact Hin|done]).
    assert (forall v, v ∈ users d -> email v <> mail) as Hfree.
    { intros v Hv Hm. unfold users_ok in Hu'. rewrite andb_true_iff, !bool_decide_eq_true, fmap_app in Hu'. destruct Hu' as [Hnd _].
      apply NoDup_app in Hnd as (_ & Hnd & _). apply (Hnd mail); [rewrite <- Hm; by apply list_elem_of_fmap_2|by left]. }
    split_and!; try done; [|intros (v & Hv & Hm & _); by apply (Hfree v)]. right. split_and!; try done. intros v Hv. split; [by apply Hfree|by apply Hnew].
  + destruct (mail_holder d mail) as [(u0 & Hin & Hm)|Hn]; cycle 1.
    { exfalso. unfold users_ok in Hu', Hus. rewrite andb_true_iff, !bool_decide_eq_true in Hus. destruct Hus as [Hne Hns].
      rewrite andb_false_iff, !bool_decide_eq_false, !fmap_app in Hu'. destruct Hu' as [Hu'|Hu']; apply Hu', NoDup_app;
        (split_and!; [done| |apply NoDup_singleton]); intros x (v & -> & Hv)%list_elem_of_fmap Hx%list_elem_of_singleton; cbn in Hx;
        [by apply (Hn v)|by apply (Hnew v)]. }
    set (mine := fun u => bool_decide (email u = mail) && bool_decide (issuer u = iss)).
    assert (forall u, u ∈ users d -> mine u = true -> u = u0) as Hp.
    { intros u Hu Hmu. unfold mine in Hmu. bool_to_prop. apply He; [done|done|congruence]. }
    rewrite (proj2 (update_one_ok mine (rebind sub iss nm pic now) (users d) u0 Hpk Hus ltac:(done) Hp)); cycle 1.
    { intros _ _ v Hv Hne. split; [cbn; intros Heq; by apply Hne, He|by apply Hnew]. }
    destruct (decide (issuer u0 = iss)) as [Hi|Hi].
    * assert (mine u0 = true) as Hm0 by (unfold mine; by rewrite !bool_decide_eq_true_2).
      rewrite (filter_one mine (users d) u0) by (done || by eapply NoDup_fmap_1). cbn [Nat.eqb fst]. intros Hok.
      assert (rebind sub iss nm pic now u0 ∈ update_where mine (rebind sub iss nm pic now) (users d)) as Hr by (apply update_where_in; exists u0; by rewrite Hm0).
      rewrite (proj2 (find_subject _ iss sub (rebind sub iss nm pic now u0) Hok)) by (split; done).
      split_and!; try done; [left; exists u0; split_and!; try done; by right|].
      intros (v & Hv & Hvm & _ & [Hvi|(w & Hw & Hws)]); [|by apply (Hnew w)]. apply Hvi. by rewrite (He v u0 Hv Hin) by congruence.
    * assert (List.filter mine (users d) = []) as ->.
      { destruct (List.filter mine (users d)) as [|v l] eqn:E; [done|]. assert (v ∈ List.filter mine (users d)) as Hv by (rewrite E; by left).
        apply elem_of_filter_bool in Hv as [Hv Hmv]. pose proof (Hp v Hv Hmv); subst v. unfold mine in Hmv. bool_to_prop. done. }
      cbn. intros _. split_and!; try done. exists u0. split_and!; try done; [by apply Hnew|by left].
Qed.

Lemma upsert_cases seen sub iss mail nm pic now d : lookup_current sub iss seen d -> store_ok d ->
  let '(d', r) := upsert_google_user seen sub iss mail nm pic now d in upsert_outcome sub iss mail d d' r.
Proof.
  intros Hseen Hd. destruct (List.find (by_subject iss sub) (users d)) as [u0|] eqn:Hf; [|by apply upsert_inserts].
  apply find_subject in Hf as [Hin Hsub]; [|done]. by apply (upsert_refreshes _ _ _ _ _ _ _ _ u0).
Qed.

(** Signing in.  The account of an (issuer, subject) pair is refreshed, and
    an account that appears under a new subject of the same issuer is rebound
    by its email; both keep the account's id and role, and only an address
    nobody holds creates an account, without the administrator role.  An
    email that belongs to an account of another issuer, or that a refresh
    would take from another account, is refused with [AccountConflictError]
    and nothing changed; no other error can occur, as long as no other worker
    changes the subject's account between the look-up and the write. *)
Theorem upsert_spec seen sub iss mail nm pic now d : lookup_current sub iss seen d -> store_ok d ->
  let '(d', r) := upsert_google_user seen sub iss mail nm pic now d in
  match r with
  | Ok u => store_ok d' /\ u ∈ users d' /\ subject_of u = (iss, sub) /\ email u = mail /\
      ((exists u0, u0 ∈ users d /\ user_pk u0 = user_pk u /\ is_admin u0 = is_admin u /\ issuer u0 = iss /\
         (google_sub u0 = sub \/ email u0 = mail)) \/
       ((forall u0, u0 ∈ users d -> email u0 <> mail /\ subject_of u0 <> (iss, sub)) /\ user_pk u = next_user d /\ is_admin u = false)) /\
      ~ account_conflict sub iss mail d
  | Err e => d' = d /\ e = AccountConflictError mail /\ account_conflict sub iss mail d
  end.
Proof. apply upsert_cases. Qed.

(** ** Usage *)

Definition add_totals (a b : UsageTotals) : UsageTotals :=
  mkTotals (request_count a + request_count b) (prompt_tokens a + prompt_tokens b)
    (completion_tokens a + completion_tokens b) (total_tokens a + total_tokens b).
Definition zero_totals : UsageTotals := mkTotals 0 0 0 0.
Definition sum_totals (l : list UsageTotals) : UsageTotals := foldr add_totals zero_totals l.

Lemma add_totals_0_l a : add_totals zero_totals a = a.
Proof. by destruct a. Qed.
Lemma add_totals_assoc a b c : add_totals a (add_totals b c) = add_totals (add_totals a b) c.
Proof. unfold add_totals. cbn. f_equal; lia. Qed.
Lemma add_totals_comm a b : add_totals a b = add_totals b a.
Proof. unfold add_totals. f_equal; lia. Qed.

Lemma totals_cons g l : totals_of (g :: l) = add_totals (mkTotals (g_requests g) (g_prompt g) (g_completion g) (g_total g)) (totals_of l).
Proof. done. Qed.

Lemma totals_app l k : totals_of (l ++ k) = add_totals (totals_of l) (totals_of k).
Proof.
  induction l as [|g l IH]; [by rewrite add_totals_0_l|]. cbn [app]. by rewrite !totals_cons, IH, add_totals_assoc.
Qed.

(** What an operation adds to the account of one user. *)
Definition charged (user_id : Z) (op : Op) : UsageTotals :=
  match op with
  | RecordUsage u _ _ _ p c tot r _ => if u =? user_id then mkTotals r p c tot else zero_totals
  | _ => zero_totals
  end.

(** Other workers record their own requests; here they record none. *)
Definition no_foreign_usage (op : Op) : Prop :=
  match op with ConfigToken others _ _ _ _ => forall k d, usage (others k d) = usage d | _ => True end.

Lemma config_loop_usage hash mac others fuel k u secret now d : (forall k d, usage (others k d) = usage d) ->
  usage (fst (config_loop hash mac others fuel k u secret now d)) = usage d.
Proof.
  intros Ho. revert k d. induction fuel as [|fuel IH]; intros k d; cbn [config_loop]; [done|].
  destruct (scan_live _ _ _ _ _ _) as [[row raw]|].
  - unfold backfill, set_tokens. destruct (tokens_ok _); cbn; by rewrite !Ho.
  - unfold insert_token. destruct (tokens_ok _); cbn [fst]; [cbn; by rewrite !Ho|by rewrite IH, !Ho].
Qed.

Lemma run_usage hash mac op d : no_foreign_usage op ->
  usage (run hash mac op d) = usage d ++ match op with
    | RecordUsage u t m e p c tot r now => [mkUsage u (Some t) m e r p c tot now] | _ => [] end.
Proof.
  destruct op; cbn [run no_foreign_usage]; intros Ho; rewrite ?app_nil_r; try done.
  - unfold upsert_google_user, set_users. repeat case_match; simplify_eq; try done.
  - unfold create_token, insert_token. repeat case_match; simplify_eq; done.
  - unfold get_or_create_config_token. destruct (get_user user_id d); [|done].
    unfold backfill, set_tokens, insert_token.
    repeat case_match; simplify_eq; cbn [fst]; rewrite ?config_loop_usage by done; cbn; by rewrite ?Ho.
  - unfold create_personal_token, insert_token. repeat case_match; simplify_eq; done.
  - unfold create_setup_link. by case_match.
Qed.

Lemma filter_bool_nil {A} (p : A -> bool) l : (forall x, x ∈ l -> p x = false) -> List.filter p l = [].
Proof. induction l as [|x l IH]; cbn; [done|]. intros H. rewrite (H x) by set_solver. apply IH. set_solver. Qed.

(** Splitting by a key and adding up again. *)
Lemma totals_partition (keys : list string) l : NoDup keys -> (forall g, g ∈ l -> g_model g ∈ keys) ->
  sum_totals (List.map (fun m => totals_of (List.filter (fun g => bool_decide (g_model g = m)) l)) keys) = totals_of l.
Proof.
  revert l. induction keys as [|m keys IH]; intros l Hnd Hin.
  { destruct l as [|g l]; [done|]. exfalso. by apply (not_elem_of_nil (g_model g)), Hin, elem_of_cons; left. }
  apply NoDup_cons in Hnd as [Hm Hnd]. cbn [List.map sum_totals foldr].
  set (rest := List.filter (fun g => negb (bool_decide (g_model g = m))) l).
  assert (List.map (fun m => totals_of (List.filter (fun g => bool_decide (g_model g = m)) l)) keys =
    List.map (fun m => totals_of (List.filter (fun g => bool_decide (g_model g = m)) rest)) keys) as ->.
  { apply map_ext_in. intros k Hk%list_elem_of_In. f_equal. unfold rest. rewrite filter_filter_andb. apply filter_ext. intros g.
    repeat case_bool_decide; subst; done. }
  fold sum_totals. change (foldr add_totals zero_totals ?x) with (sum_totals x). rewrite IH; [|done|].
  - unfold rest. clear. induction l as [|g l IH]; [done|]. cbn [List.filter]. rewrite totals_cons, <- IH.
    case_bool_decide; cbn [negb]; rewrite totals_cons; [by rewrite add_totals_assoc|].
    rewrite !add_totals_assoc. f_equal. apply add_totals_comm.
  - intros g [Hg Hn]%elem_of_filter_bool. specialize (Hin g Hg). bool_to_prop. set_solver.
Qed.

(** Usage is accounted exactly.  After any operations, what an account is
    charged is what it was charged before plus the sum of the recorded
    requests of that account, in each of the four measures; and the totals per
    model add up to the totals of the whole store. *)
Theorem usage_accounting hash mac ops d user_id : Forall no_foreign_usage ops ->
  let d' := run_all hash mac ops d in
  get_usage_totals user_id d' = add_totals (get_usage_totals user_id d) (sum_totals (List.map (charged user_id) ops)) /\
  sum_totals (List.map snd (get_usage_by_model d')) = get_usage_totals_all d'.
Proof.
  intros Hops. cbn zeta. split.
  - revert d. induction Hops as [|op ops Hop _ IH]; intros d; cbn [run_all fold_left List.map sum_totals foldr].
    { by rewrite add_totals_comm, add_totals_0_l. }
    change (fold_left (fun d op => run hash mac op d) ops) with (run_all hash mac ops). rewrite IH.
    change (foldr add_totals zero_totals ?x) with (sum_totals x). rewrite add_totals_assoc. f_equal.
    unfold get_usage_totals, usage_of. rewrite run_usage, List.filter_app, totals_app by done. f_equal.
    destruct op; try done. cbn. destruct (user_id0 =? user_id); [|done]. unfold totals_of, zsum_of. cbn. f_equal; lia.
  - unfold get_usage_by_model, get_usage_totals_all. rewrite map_map. cbn [snd]. apply totals_partition.
    + rewrite sort_by_perm. apply NoDup_remove_dups.
    + intros g Hg. rewrite sort_by_perm, elem_of_remove_dups. by apply list_elem_of_fmap_2.
Qed.

(** The leaderboard lists each account it may show exactly once, administrators
    only on request, with its own usage, the larger total first. *)
Theorem leaderboard_exact include_admins d : store_ok d ->
  let l := list_leaderboard include_admins d in
  (forall e, e ∈ l <-> exists u, u ∈ users d /\ (include_admins = true \/ is_admin u = false) /\ e = entry_of d u) /\
  NoDup (e_id <$> l) /\
  StronglySorted (fun a b => total_tokens (e_totals b) <= total_tokens (e_totals a)) l.
Proof.
  intros [_ _ [Hpk _] _ _]. cbn zeta. unfold list_leaderboard. set (us := List.filter _ (users d)). split_and!.
  - intros e. rewrite list_elem_of_In, in_map_iff. setoid_rewrite <- list_elem_of_In. setoid_rewrite sort_by_perm. unfold us.
    setoid_rewrite elem_of_filter_bool. setoid_rewrite orb_true_iff. setoid_rewrite negb_true_iff. naive_solver.
  - assert (e_id <$> List.map (entry_of d) (sort_by (ranks_before d) us) = user_pk <$> sort_by (ranks_before d) us) as ->.
    { generalize (sort_by (ranks_before d) us) as k. induction k as [|u k IH]; cbn; [done|]. f_equal. exact IH. }
    rewrite sort_by_perm. unfold us. clear us. induction (users d) as [|u k IH]; cbn; [constructor|]. cbn in Hpk. apply NoDup_cons in Hpk as [Hn Hk].
    destruct (include_admins || _); [|by apply IH]. cbn. constructor; [|by apply IH].
    intros (v & Heq & [Hin _]%elem_of_filter_bool)%list_elem_of_fmap. apply Hn. rewrite Heq. by apply list_elem_of_fmap_2.
  - assert (forall a b c, ranks_before d a b = true -> ranks_before d b c = true -> ranks_before d a c = true) as Htr.
    { intros a b c. unfold ranks_before. repeat (case_match; bool_to_prop; try done); intros; bool_to_prop; lia. }
    assert (forall a b, ranks_before d a b = false -> ranks_before d b a = true) as Htot.
    { intros a b. unfold ranks_before. repeat (case_match; bool_to_prop; try lia; auto); intros; bool_to_prop; rewrite ?Z.ltb_lt, ?Z.leb_le; lia. }
    pose proof (sort_by_sorted (ranks_before d) Htot Htr us) as Hs.
    induction Hs as [|u k _ IH Hall]; cbn; constructor; [done|]. apply Forall_forall. intros e (v & <- & Hv)%list_elem_of_In%in_map_iff.
    rewrite Forall_forall in Hall. specialize (Hall v ltac:(by apply list_elem_of_In)). unfold ranks_before in Hall.
    change (total_tokens (get_usage_totals (user_pk v) d) <= total_tokens (get_usage_totals (user_pk u) d)).
    destruct (Z.eqb_spec (total_tokens (get_usage_totals (user_pk u) d)) (total_tokens (get_usage_totals (user_pk v) d))); cbn [negb] in Hall; bool_to_prop; lia.
Qed.

(** A setup link works exactly while it is unexpired and its token is live: once
    the token is revoked or the time has come, it resolves to nothing; and a
    fresh link of a live token resolves to what it was created with. *)
Theorem setup_link_spec hash user_id token_id harness models ttl link now d :
  (forall at_ s, resolve_setup_link hash link at_ d = Some s ->
     at_ < s_expires_at s /\ exists t, t ∈ tokens d /\ t_id t = s_token_id s /\ t_revoked t = false) /\
  let '(d', r) := create_setup_link hash user_id token_id harness models ttl link now d in
  match r with
  | Ok (id, expires) => id = link /\ expires = now + ttl * 1000000 /\ tokens d' = tokens d /\
      forall at_, resolve_setup_link hash link at_ d' =
        if (at_ <? expires) && existsb (fun t => (t_id t =? token_id) && negb (t_revoked t)) (tokens d)
        then Some (mkSetup user_id token_id harness (Some models) expires) else None
  | Err e => e = IntegrityError /\ tokens d' = tokens d /\ exists l, l ∈ links d /\ l_hash l = hash link /\ now < l_expires_at l
  end.
Proof.
  split.
  - intros at_ s. unfold resolve_setup_link. intros (l & Hl & ->)%fmap_Some. apply find_some in Hl as [_ Hc].
    rewrite !andb_true_iff in Hc. destruct Hc as [[_ Ht] Hex]. bool_to_prop. split; [done|].
    apply existsb_elem in Hex as (t & Hin & Hc). bool_to_prop. eauto.
  - unfold create_setup_link. case_bool_decide as Hh.
    { split_and!; try done. apply list_elem_of_fmap in Hh as (l & Hl & [Hin Hx]%elem_of_filter_bool). bool_to_prop. by exists l. }
    split_and!; try done. intros at_. unfold resolve_setup_link. cbn [links with_links tokens].
    set (kept := List.filter _ (links d)) in *. set (l := mkLink _ _ _ _ _ _).
    match goal with |- context [List.find ?f _] => set (live := f) end.
    assert (List.find live (kept ++ [l]) = if live l then Some l else None) as ->.
    { clear -Hh. induction kept as [|x k IH]; [done|]. cbn. assert (live x = false) as ->.
      { unfold live. cbn in Hh. case_bool_decide; [|done]. exfalso. apply Hh. apply elem_of_cons. by left. }
      apply IH. intros Hin. apply Hh. cbn. by right. }
    unfold live at 1. cbn. rewrite bool_decide_eq_true_2 by done. cbn [andb]. case_match; [|done]. cbn.
    assert (mapM json_str (List.map JStr models) = Some models) as ->; [|done].
    clear. induction models as [|x k IH]; cbn; [done|]. by rewrite IH.
Qed.

(** ** Concrete stores *)

Definition ex_hash (s : string) : string := "sha256:" +:+ s.
Definition ex_mac (secret text : string) : string := secret +:+ "/" +:+ text.

(** Two accounts; the first has a pinned token that is revoked again. *)
Definition ex_ops : list Op :=
  [Upsert empty_db "s1" GOOGLE_ISSUER "a@example.com" "A" "" 1; Upsert empty_db "s2" "https://idp" "b@example.com" "B" "" 2;
   CreateToken 1 "cli" (Some ["n1"]) "qiip_one" 3; CreateToken 2 "cli" None "qiip_two" 4; RevokeToken 1 1;
   RecordUsage 2 2 "m" "/v1" 10 5 15 1 5].
Definition ex_store : DB := run_all ex_hash ex_mac ex_ops empty_db.
Definition ex_more : list Op :=
  [ConfigToken (fun _ d => d) 1 1 "secret" 6; PersonalToken 1 "p" ["m"] "secret" "nonce" 7; SetAdmin 2 true 8;
   RecordUsage 2 2 "m2" "/v1" 1 1 2 1 9].

Lemma ex_more_ok : Forall (op_ok (eq 2)) ex_more.
Proof. repeat apply List.Forall_cons; try apply List.Forall_nil; cbn [op_ok]; try done. intros k d. apply forward_refl. Qed.

Lemma ex_ops_ok : Forall (op_ok (eq 2)) ex_ops.
Proof. repeat constructor. Qed.

Lemma ex_store_ok : store_ok ex_store.
Proof. exact (proj1 (run_all_forward ex_hash ex_mac (eq 2) ex_ops empty_db ex_ops_ok empty_ok)). Qed.

Lemma store_invariant_witness : length (tokens (run_all ex_hash ex_mac ex_more ex_store)) = 4%nat /\
  store_ok (run_all ex_hash ex_mac ex_more ex_store).
Proof.
  split; [vm_compute; reflexivity|].
  exact (proj1 (proj2 (store_invariant ex_hash ex_mac (eq 2) ex_more ex_store ex_store_ok ex_more_ok))).
Defined.

Lemma revocation_final_witness :
  resolve_token ex_hash (run_all ex_hash ex_mac (firstn 4 ex_ops) empty_db) "qiip_one" <> None /\
  resolve_token ex_hash (run_all ex_hash ex_mac ex_more ex_store) "qiip_one" = None.
Proof.
  split; [vm_compute; discriminate|].
  destruct (revocation_final ex_hash ex_mac (eq 2) ex_more ex_store
    (mkToken 1 1 "cli" (ex_hash "qiip_one") "qiip_one" 3 None true (Some (JsonText (JList [JStr "n1"]))) None None None) "qiip_one") as [H _].
  - exact ex_store_ok.
  - exact ex_more_ok.
  - vm_compute. left.
  - reflexivity.
  - reflexivity.
  - exact H.
Defined.

Lemma token_identity_stable_witness :
  exists a a', resolve_token ex_hash ex_store "qiip_two" = Some a /\
    resolve_token ex_hash (run_all ex_hash ex_mac ex_more ex_store) "qiip_two" = Some a' /\ user_pk (user a') = user_pk (user a) /\
    is_admin (user a) = false /\ is_admin (user a') = true.
Proof.
  destruct (resolve_token ex_hash ex_store "qiip_two") as [a|] eqn:Ha; [|exfalso; by vm_compute in Ha].
  destruct (resolve_token ex_hash (run_all ex_hash ex_mac ex_more ex_store) "qiip_two") as [a'|] eqn:Ha'; [|exfalso; by vm_compute in Ha'].
  exists a, a'. split; [reflexivity|]. split; [reflexivity|].
  destruct (token_identity_stable ex_hash ex_mac (eq 2) ex_more ex_store "qiip_two" a a' ex_store_ok ex_more_ok Ha Ha') as (_ & H & _).
  split; [exact H|]. vm_compute in Ha, Ha'. injection Ha as <-. injection Ha' as <-. split; reflexivity.
Defined.

Lemma create_token_spec_witness :
  exists d' c u, create_token ex_hash 1 "new" (Some ["n2"]) "qiip_three" 9 ex_store = (d', Ok c) /\
    resolve_token ex_hash d' "qiip_three" = Some {| user := u; token := created c |} /\ endpoint_scope (created c) = Some ["n2"].
Proof.
  pose proof (create_token_spec ex_hash 1 "new" (Some ["n2"]) "qiip_three" 9 ex_store ex_store_ok eq_refl) as H.
  destruct (create_token ex_hash 1 "new" (Some ["n2"]) "qiip_three" 9 ex_store) as [d' [c|e]] eqn:E; [|exfalso; by vm_compute in E].
  destruct H as (_ & Hs & (u & _ & Hr) & _). exists d', c, u. split; [reflexivity|]. split; [exact Hr|exact Hs].
Defined.

Lemma personal_token_spec_witness :
  exists d' c, create_personal_token ex_hash ex_mac 2 "p" ["m"] "secret" "nonce" 9 ex_store = (d', Ok c) /\
    reveal_personal_token ex_hash ex_mac (token_pk (created c)) "secret" d' = Some (raw_token c) /\
    resolve_token ex_hash d' "qiip_two" = None.
Proof.
  pose proof (personal_token_spec ex_hash ex_mac 2 "p" ["m"] "secret" "nonce" 9 ex_store ex_store_ok eq_refl) as H.
  destruct (create_personal_token ex_hash ex_mac 2 "p" ["m"] "secret" "nonce" 9 ex_store) as [d' [c|e]] eqn:E; [|exfalso; by vm_compute in E].
  destruct H as (_ & _ & _ & _ & _ & Hr & _). exists d', c. split; [reflexivity|]. split; [exact Hr|].
  vm_compute in E. injection E as <- _. reflexivity.
Defined.

Lemma config_token_stable_witness :
  exists d' c, get_or_create_config_token ex_hash ex_mac (fun _ d => d) 1 1 "secret" 9 ex_store = (d', Some (Ok c)) /\
    forall others fuel now, exists c', get_or_create_config_token ex_hash ex_mac others fuel 1 "secret" now d' = (d', Some (Ok c')) /\
      raw_token c' = raw_token c.
Proof.
  destruct (get_user 1 ex_store) as [u|] eqn:Hu; [|exfalso; by vm_compute in Hu].
  destruct (config_token_stable ex_hash ex_mac 1 1 "secret" 9 ex_store u ex_store_ok Hu) as (d' & c & H1 & _ & _ & H2).
  - apply (bool_decide_unpack _). vm_compute. reflexivity.
  - exists d', c. split; [exact H1|exact H2].
Defined.

(** The other provider's account keeps its address. *)
Lemma upsert_spec_witness :
  snd (upsert_google_user ex_store "s9" GOOGLE_ISSUER "b@example.com" "Mallory" "" 9 ex_store) = Err (AccountConflictError "b@example.com") /\
  fst (upsert_google_user ex_store "s9" GOOGLE_ISSUER "b@example.com" "Mallory" "" 9 ex_store) = ex_store.
Proof.
  pose proof (upsert_spec ex_store "s9" GOOGLE_ISSUER "b@example.com" "Mallory" "" 9 ex_store eq_refl ex_store_ok) as H.
  destruct (upsert_google_user ex_store "s9" GOOGLE_ISSUER "b@example.com" "Mallory" "" 9 ex_store) as [d' [u|e]] eqn:E; [exfalso; by vm_compute in E|].
  destruct H as (-> & -> & _). split; reflexivity.
Defined.

Lemma usage_accounting_witness :
  get_usage_totals 2 (run_all ex_hash ex_mac ex_more ex_store) = mkTotals 2 11 6 17 /\
  sum_totals (List.map snd (get_usage_by_model (run_all ex_hash ex_mac ex_more ex_store))) = mkTotals 2 11 6 17.
Proof.
  split; [vm_compute; reflexivity|].
  destruct (usage_accounting ex_hash ex_mac ex_more ex_store 2) as [_ H]; [repeat constructor|]. rewrite H. vm_compute. reflexivity.
Defined.

(** A database from before the purpose marker: its one key was derived from the
    session secret ["old"]. *)
Definition ex_legacy : DB :=
  mkDB (users ex_store)
    [mkToken 1 1 _CONFIG_TOKEN_NAME (ex_hash (_derive_config_token ex_mac "old" 1 0)) "qiip_old/qii" 3 None false None None None None]
    [] [] 3 2.

(** Between the snapshot and the first write of this worker, a worker that
    already has the new secret asks for the same account's key. *)
Definition ex_rotated (k : nat) (d : DB) : DB :=
  match k with O => fst (get_or_create_config_token ex_hash ex_mac (fun _ d => d) 1 1 "new" 5 d) | S _ => d end.

(** The agent-config race is only handled for inserts.  When another worker
    commits its key while this one is about to mark a key from before the
    purpose marker, the marking update violates the one-active-key index and
    the [IntegrityError] escapes, although undisturbed the same call returns
    the key. *)
Theorem config_backfill_race :
  store_ok ex_legacy /\
  (raw_token <$> match snd (get_or_create_config_token ex_hash ex_mac (fun _ d => d) 1 1 "old" 6 ex_legacy) with
                 | Some (Ok c) => Some c | _ => None end) = Some (_derive_config_token ex_mac "old" 1 0) /\
  snd (get_or_create_config_token ex_hash ex_mac ex_rotated 1 1 "old" 6 ex_legacy) = Some (Err IntegrityError).
Proof.
  split_and!; [|vm_compute; reflexivity..]. split; try (vm_compute; reflexivity).
  - exact (ok_user_ids _ ex_store_ok).
  - split; [apply NoDup_singleton|]. repeat constructor.
  - constructor; [|constructor]. vm_compute. left.
Qed.
