(* ===== verification/Planner.v ===== *)
(** * Fixed-ratio placement planner ([inference_proxy/placement/planner.py])

    The data of the planner, and [apportion], which splits hosts between
    profiles by largest remainder; [PlannerMatching] has [plan_placements].
    A [Fraction] is a [Q]; the planner only takes floors, remainders modulo
    one and comparisons, none of which depends on the reduced form. *)

From S2P Require Import Prelude PyDict.
From Stdlib Require Import QArith Lqa.
Local Close Scope Q_scope.
Local Open Scope Z_scope.

(** ** Data *)

Record PlannedProfile := {
  profile_id : string;
  weight : Z;
  gpu_classes : list string;
  preferred_gpu_class : option string;
  placeable : bool;
}.

Record Candidate := { hostname : string; gpu_class : string }.

Record Assignment := { as_hostname : string; as_profile_id : string }.

Record PlacementPlan := {
  targets : list (string * Z);
  held_out : list (string * Z);
  assignments : list Assignment;
  unfilled : list (string * Z);
}.

#[export] Instance Candidate_eq : EqDecision Candidate.
Proof. solve_decision. Defined.

(** [d[k]] for a dictionary of integers whose keys are present. *)
Definition zget (d : list (string * Z)) (k : string) : Z := default 0 (dget k d).
Definition zsum (l : list Z) : Z := foldr Z.add 0 l.
Definition dsum (d : list (string * Z)) : Z := zsum (dvalues d).

(** [{p.profile_id: f(p) for p in profiles}] *)
Definition dict_of (f : PlannedProfile -> Z) (ps : list PlannedProfile) : list (string * Z) :=
  fold_left (fun d p => dset (profile_id p) (f p) d) ps [].

(** ** [apportion] *)

Definition share (total weight_sum : Z) (p : PlannedProfile) : Q :=
  Qmake (total * weight p) (Z.to_pos weight_sum).

(** [share.numerator // share.denominator] *)
Definition share_floor (s : Q) : Z := Qnum s / Z.pos (Qden s).
(** [share % 1] *)
Definition share_mod1 (s : Q) : Q := Qmake (Qnum s mod Z.pos (Qden s)) (Qden s).

(** The order of [sorted(range(n), key=lambda i: (-(shares[i] % 1), i))]. *)
Definition remainder_le (shares : list Q) (i j : nat) : bool :=
  let ri := share_mod1 (nth i shares 0%Q) in
  let rj := share_mod1 (nth j shares 0%Q) in
  negb (Qle_bool ri rj) || (Qeq_bool ri rj && Nat.leb i j).

Definition by_remainder (shares : list Q) : list nat :=
  sort_by (remainder_le shares) (seq 0 (length shares)).

(** [max(range(len(weighted)), key=lambda i: (targets[weighted[i].profile_id], i))]:
    the last index with the greatest target. *)
Fixpoint last_max (tg : list (string * Z)) (ws : list PlannedProfile) (best : PlannedProfile)
  : PlannedProfile :=
  match ws with
  | [] => best
  | p :: ws =>
      last_max tg ws (if zget tg (profile_id best) <=? zget tg (profile_id p) then p else best)
  end.

(** [max] of an empty range raises; [weighted] holds [p] here. *)
Definition donor (tg : list (string * Z)) (weighted : list PlannedProfile)
  (p : PlannedProfile) : PlannedProfile :=
  match weighted with [] => p | w :: ws => last_max tg ws w end.

(** One round of the loop that gives every weighted profile a host. *)
Definition give_one (weighted : list PlannedProfile) (tg : list (string * Z))
  (p : PlannedProfile) : list (string * Z) :=
  if 0 <? zget tg (profile_id p) then tg
  else
    let d := donor tg weighted p in
    let tg := dset (profile_id d) (zget tg (profile_id d) - 1) tg in
    dset (profile_id p) (zget tg (profile_id p) + 1) tg.

Definition bump_target (tg : list (string * Z)) (p : PlannedProfile) : list (string * Z) :=
  dset (profile_id p) (zget tg (profile_id p) + 1) tg.

(** The largest-remainder part of [apportion], before the one-host floor. *)
Definition largest_remainder (total : Z) (weighted : list PlannedProfile)
  (tg : list (string * Z)) : list (string * Z) :=
  let weight_sum := zsum (weight <$> weighted) in
  let shares := share total weight_sum <$> weighted in
  let tg := fold_left (fun tg ps => dset (profile_id (fst ps)) (share_floor (snd ps)) tg)
              (zip weighted shares) tg in
  let leftover := total - dsum tg in
  let winners := take (Z.to_nat leftover) (by_remainder shares) in
  fold_left (fun tg i => match weighted !! i with
                         | Some p => bump_target tg p
                         | None => tg
                         end) winners tg.

Definition apportion (total : Z) (profiles : list PlannedProfile) : list (string * Z) :=
  let weighted := List.filter (fun p => 0 <? weight p) profiles in
  let tg := dict_of (fun _ => 0) profiles in
  if (total <=? 0) || match weighted with [] => true | _ => false end then tg
  else if total <? Z.of_nat (length weighted) then
    fold_left (fun tg p => dset (profile_id p) 1 tg) (take (Z.to_nat total) weighted) tg
  else
    let tg := largest_remainder total weighted tg in
    if Z.of_nat (length weighted) <=? total
    then fold_left (give_one weighted) weighted tg else tg.

(** ** Lemmas on target dictionaries *)

Lemma zsum_cons x l : zsum (x :: l) = x + zsum l.
Proof. done. Qed.

Lemma zsum_pos l : (forall x, x ∈ l -> 0 < x) -> Z.of_nat (length l) <= zsum l.
Proof.
  induction l as [|x l IH]; intros H; [done|]. rewrite zsum_cons. cbn [length].
  specialize (IH ltac:(intros; apply H; set_solver)). specialize (H x ltac:(set_solver)). lia.
Qed.

#[export] Instance zsum_perm : Proper ((≡ₚ) ==> (=)) zsum.
Proof. intros l k H. unfold zsum. induction H; cbn; lia. Qed.

Lemma zget_dset d k v k' : zget (dset k v d) k' = if decide (k' = k) then v else zget d k'.
Proof. unfold zget. rewrite dget_dset. by case_decide. Qed.

(** The sum of the targets of the profiles [l]. *)
Definition wsum (tg : list (string * Z)) (l : list PlannedProfile) : Z :=
  zsum ((fun p => zget tg (profile_id p)) <$> l).

Definition ids (l : list PlannedProfile) : list string := profile_id <$> l.

Lemma elem_of_ids p l : p ∈ l -> profile_id p ∈ ids l.
Proof. intros. apply list_elem_of_fmap. eauto. Qed.

Lemma wsum_cons tg p l : wsum tg (p :: l) = zget tg (profile_id p) + wsum tg l.
Proof. done. Qed.

Lemma wsum_dset_other tg k v l : k ∉ ids l -> wsum (dset k v tg) l = wsum tg l.
Proof.
  induction l as [|p l IH]; [done|]. intros Hk. rewrite !wsum_cons, IH, zget_dset by set_solver.
  rewrite decide_False; [done|]. set_solver.
Qed.

Lemma wsum_dset tg p v l : NoDup (ids l) -> p ∈ l ->
  wsum (dset (profile_id p) v tg) l = wsum tg l + v - zget tg (profile_id p).
Proof.
  induction l as [|q l IH]; [by intros _ ?%not_elem_of_nil|].
  intros [Hq Hl]%NoDup_cons [->|Hp]%elem_of_cons; rewrite !wsum_cons, zget_dset.
  - rewrite decide_True, wsum_dset_other by done. lia.
  - rewrite IH by done. rewrite decide_False; [lia|].
    intros Heq. apply Hq. rewrite Heq. by apply elem_of_ids.
Qed.

Lemma dsum_wsum tg l : dwf tg -> dkeys tg = ids l -> dsum tg = wsum tg l.
Proof.
  revert l. induction tg as [|[k v] tg IH]; intros [|p l] Hwf Hk; try done.
  injection Hk as -> Hk. change (dkeys tg = ids l) in Hk. apply NoDup_cons in Hwf as [Hn Hwf].
  change (v + dsum tg = wsum ((profile_id p, v) :: tg) (p :: l)).
  rewrite (IH l Hwf Hk), wsum_cons. unfold zget at 1. cbn [dget]. rewrite decide_True by done.
  cbn [default]. f_equal.
  unfold wsum. f_equal. apply list_fmap_ext. intros i q Hq. unfold zget. cbn [dget].
  rewrite decide_False; [done|]. intros Heq. apply Hn. change (profile_id p ∈ dkeys tg). rewrite Hk, <- Heq.
  apply elem_of_ids. by eapply list_elem_of_lookup_2.
Qed.

(** The keys of [tg] are the ids of the catalog [ps]. *)
Definition over (ps : list PlannedProfile) (tg : list (string * Z)) : Prop :=
  dwf tg /\ dkeys tg = ids ps.

Lemma over_dset ps tg p v : over ps tg -> p ∈ ps -> over ps (dset (profile_id p) v tg).
Proof.
  intros [Hwf Hk] Hp. split; [by apply dwf_dset|]. rewrite dkeys_dset, decide_True; [done|].
  rewrite Hk. by apply elem_of_ids.
Qed.

Lemma dict_of_aux f ps d :
  NoDup (ids ps) -> dwf d -> (forall k, k ∈ ids ps -> k ∉ dkeys d) ->
  let d' := fold_left (fun d p => dset (profile_id p) (f p) d) ps d in
  dwf d' /\ dkeys d' = dkeys d ++ ids ps /\
  (forall p, p ∈ ps -> zget d' (profile_id p) = f p) /\
  (forall k, k ∉ ids ps -> zget d' k = zget d k).
Proof.
  revert d. induction ps as [|q ps IH]; intros d Hnd Hwf Hdis.
  { cbn. rewrite app_nil_r. split_and!; [done|done| |done]. by intros p ?%not_elem_of_nil. }
  apply NoDup_cons in Hnd as [Hq Hnd]. cbn [fold_left].
  destruct (IH (dset (profile_id q) (f q) d)) as (H1 & H2 & H3 & H4); [done|by apply dwf_dset| |].
  { intros k Hk. rewrite dkeys_dset, decide_False by (apply Hdis; set_solver).
    intros [Hin|Hin]%elem_of_app; [by apply (Hdis k); set_solver|].
    apply list_elem_of_singleton in Hin as ->. done. }
  split_and!; [done| | |].
  - rewrite H2, dkeys_dset, decide_False by (apply Hdis; set_solver). by rewrite <- app_assoc.
  - intros p [->|Hp]%elem_of_cons; [|by apply H3].
    rewrite H4 by done. rewrite zget_dset. by rewrite decide_True.
  - intros k Hk. rewrite H4 by set_solver. rewrite zget_dset, decide_False; [done|set_solver].
Qed.

Lemma dict_of_over f ps : NoDup (ids ps) -> over ps (dict_of f ps).
Proof.
  intros Hnd. destruct (dict_of_aux f ps []) as (H1 & H2 & _); [done|apply dwf_nil|set_solver|].
  by split.
Qed.

Lemma zget_dict_of f ps p : NoDup (ids ps) -> p ∈ ps -> zget (dict_of f ps) (profile_id p) = f p.
Proof.
  intros Hnd Hp. destruct (dict_of_aux f ps []) as (_ & _ & H & _); [done|apply dwf_nil|set_solver|].
  by apply H.
Qed.

(** ** Largest remainder *)

Lemma remainder_le_spec shares i j :
  let r k := share_mod1 (nth k shares 0%Q) in
  remainder_le shares i j = true <-> (r j < r i)%Q \/ ((r i == r j)%Q /\ (i <= j)%nat).
Proof.
  cbn. unfold remainder_le. set (a := share_mod1 _). set (b := share_mod1 (nth j _ _)).
  rewrite orb_true_iff, andb_true_iff, Qeq_bool_iff, Nat.leb_le.
  rewrite negb_true_iff, <- not_true_iff_false, Qle_bool_iff. split; intros [H|H]; auto; left; lra.
Qed.

Lemma remainder_le_total shares i j :
  remainder_le shares i j = false -> remainder_le shares j i = true.
Proof.
  rewrite <- not_true_iff_false, !remainder_le_spec. cbn.
  set (a := share_mod1 _). set (b := share_mod1 (nth i _ _)). intros H.
  destruct (Qlt_le_dec b a) as [|Hba]; [by left|].
  destruct (Qlt_le_dec a b) as [|Hab]; [by exfalso; apply H; left|].
  right. split; [lra|]. apply Nat.nlt_ge. intros ?. apply H. right. split; [lra|lia].
Qed.

Lemma remainder_le_trans shares i j k :
  remainder_le shares i j = true -> remainder_le shares j k = true ->
  remainder_le shares i k = true.
Proof.
  rewrite !remainder_le_spec. cbn.
  set (a := share_mod1 _). set (b := share_mod1 (nth i _ _)). set (c := share_mod1 (nth k _ _)).
  intros [?|[? ?]] [?|[? ?]]; [left; lra..|]. right. split; [lra|lia].
Qed.

Section apportion_facts.
Context (ps : list PlannedProfile) (Hids : NoDup (ids ps)).

Definition weighted_of : list PlannedProfile := List.filter (fun p => 0 <? weight p) ps.
Notation ws := weighted_of.

Lemma elem_of_ws p : p ∈ ws <-> p ∈ ps /\ 0 < weight p.
Proof. unfold ws. by rewrite elem_of_filter_bool, Z.ltb_lt. Qed.

Lemma NoDup_filter_ids (f : PlannedProfile -> bool) l : NoDup (ids l) -> NoDup (ids (List.filter f l)).
Proof.
  induction l as [|p l IH]; [done|]. intros [Hp Hl]%NoDup_cons. cbn.
  case_match; [|by apply IH]. apply NoDup_cons. split; [|by apply IH].
  intros (q & Heq & Hq)%list_elem_of_fmap. apply Hp. apply elem_of_filter_bool in Hq as [Hq _].
  apply list_elem_of_fmap. eauto.
Qed.

Lemma NoDup_ws : NoDup (ids ws).
Proof. by apply NoDup_filter_ids. Qed.

Definition W : Z := zsum (weight <$> ws).

Lemma W_pos : ws <> [] -> 0 < W.
Proof.
  intros Hne. assert (Z.of_nat (length (weight <$> ws)) <= W) as H.
  { apply zsum_pos. intros x (p & -> & Hp)%list_elem_of_fmap. by apply elem_of_ws in Hp as [_ ?]. }
  rewrite length_fmap in H. destruct ws; [done|]. cbn in H. lia.
Qed.

(** Targets of the catalog: non-negative, zero outside the weighted profiles,
    and adding up to [n] over the weighted ones. *)
Definition targets_ok (n : Z) (tg : list (string * Z)) : Prop :=
  over ps tg /\ wsum tg ws = n /\
  (forall p, p ∈ ps -> 0 <= zget tg (profile_id p)) /\
  (forall p, p ∈ ps -> weight p <= 0 -> zget tg (profile_id p) = 0).

Lemma wsum_split tg (f : PlannedProfile -> bool) l :
  (forall p, p ∈ l -> f p = false -> zget tg (profile_id p) = 0) ->
  wsum tg (List.filter f l) = wsum tg l.
Proof.
  induction l as [|p l IH]; intros H; [done|]. cbn [List.filter].
  rewrite wsum_cons, <- IH by (intros; apply H; set_solver).
  destruct (f p) eqn:Hf; [by rewrite wsum_cons|]. rewrite H by (done || set_solver). lia.
Qed.

Lemma targets_ok_dsum n tg : targets_ok n tg -> dsum tg = n.
Proof.
  intros (Ho & Hs & _ & Hz). destruct Ho as [Hwf Hk]. rewrite (dsum_wsum tg ps Hwf Hk), <- Hs.
  symmetry. apply wsum_split. intros p Hp Hf. apply Hz; [done|]. by apply Z.ltb_ge.
Qed.

Lemma targets_ok_init : targets_ok 0 (dict_of (fun _ => 0) ps).
Proof.
  assert (forall p, p ∈ ps -> zget (dict_of (fun _ => 0) ps) (profile_id p) = 0) as Hz.
  { intros. by rewrite zget_dict_of. }
  split_and!; [by apply dict_of_over| |intros; by rewrite Hz|auto].
  assert (forall l, (forall p, p ∈ l -> p ∈ ps) -> wsum (dict_of (fun _ => 0) ps) l = 0) as H.
  { induction l as [|p l IH]; intros Hl; [done|]. rewrite wsum_cons, Hz, IH; set_solver. }
  apply H. intros p Hp. by apply elem_of_ws in Hp as [? _].
Qed.

(** Setting the target of one weighted profile. *)
Lemma targets_ok_set n tg p v : targets_ok n tg -> p ∈ ws -> 0 <= v ->
  targets_ok (n + v - zget tg (profile_id p)) (dset (profile_id p) v tg).
Proof.
  intros (Ho & Hs & Hn & Hz) Hp Hv. pose proof (proj1 (elem_of_ws p) Hp) as [Hps Hw].
  split_and!.
  - by apply over_dset.
  - rewrite wsum_dset by (apply NoDup_ws || done). lia.
  - intros q Hq. rewrite zget_dset. case_decide; [done|]. by apply Hn.
  - intros q Hq Hqw. rewrite zget_dset. case_decide as Heq; [|by apply Hz].
    assert (q = p) as ->; [|lia].
    clear -Hids Hq Hps Heq. induction ps as [|x l IH]; [by apply not_elem_of_nil in Hq|].
    apply NoDup_cons in Hids as [Hx Hl].
    apply elem_of_cons in Hq as [->|Hq]; apply elem_of_cons in Hps as [->|Hps]; try done.
    + exfalso. apply Hx. rewrite Heq. by apply elem_of_ids.
    + exfalso. apply Hx. rewrite <- Heq. by apply elem_of_ids.
    + by apply IH.
Qed.

(** *** The integer shares *)

Context (total : Z) (Htotal : 0 < total) (Hne : ws <> []).

Definition fl (p : PlannedProfile) : Z := total * weight p / W.
Definition rem (p : PlannedProfile) : Z := total * weight p mod W.

Lemma Zpos_W : Z.pos (Z.to_pos W) = W.
Proof. apply Z2Pos.id. by apply W_pos. Qed.

Lemma share_floor_fl p : share_floor (share total W p) = fl p.
Proof. unfold share_floor, share, fl. cbn. by rewrite Zpos_W. Qed.

Lemma fl_rem p : total * weight p = W * fl p + rem p.
Proof. apply Z.div_mod. pose proof (W_pos Hne). lia. Qed.

Lemma rem_bound p : 0 <= rem p < W.
Proof. apply Z.mod_pos_bound. by apply W_pos. Qed.

Lemma fl_nonneg p : p ∈ ws -> 0 <= fl p.
Proof.
  intros [_ Hw]%elem_of_ws. apply Z.div_pos; [nia|]. by apply W_pos.
Qed.

Lemma fl_sum l : W * zsum (fl <$> l) + zsum (rem <$> l) = total * zsum (weight <$> l).
Proof.
  induction l as [|p l IH]; [cbn; lia|]. rewrite !fmap_cons, !zsum_cons.
  pose proof (fl_rem p). lia.
Qed.

Lemma rem_sum l : 0 <= zsum (rem <$> l) <= W * Z.of_nat (length l) /\
  (l <> [] -> zsum (rem <$> l) < W * Z.of_nat (length l)).
Proof.
  induction l as [|p l IH]; [split; [cbn; lia|done]|]. pose proof (rem_bound p).
  rewrite fmap_cons, zsum_cons. cbn [length]. destruct IH as [IH _]. split; [|intros _]; lia.
Qed.

(** What is left after the floors fits in one host per profile. *)
Lemma leftover_bound : 0 <= total - zsum (fl <$> ws) < Z.of_nat (length ws).
Proof.
  pose proof (fl_sum ws) as Hs. pose proof (rem_sum ws) as [Hr Hr'].
  specialize (Hr' Hne). fold W in Hs. pose proof (W_pos Hne). nia.
Qed.

Lemma zip_share l : zip l (share total W <$> l) = (fun p => (p, share total W p)) <$> l.
Proof. induction l as [|p l IH]; cbn; [done|]. by rewrite IH. Qed.

Lemma set_floors l tg n :
  (forall p, p ∈ l -> p ∈ ws) -> NoDup (ids l) -> targets_ok n tg ->
  (forall p, p ∈ l -> zget tg (profile_id p) = 0) ->
  let tg' := fold_left (fun tg ps => dset (profile_id (fst ps)) (share_floor (snd ps)) tg)
               ((fun p => (p, share total W p)) <$> l) tg in
  targets_ok (n + zsum (fl <$> l)) tg' /\
  (forall p, p ∈ l -> zget tg' (profile_id p) = fl p) /\
  (forall k, k ∉ ids l -> zget tg' k = zget tg k).
Proof.
  revert tg n. induction l as [|q l IH]; intros tg n Hl Hnd Hok Hz.
  { cbn. rewrite Z.add_0_r. split_and!; [done| |done]. by intros p ?%not_elem_of_nil. }
  apply NoDup_cons in Hnd as [Hq Hnd]. rewrite !fmap_cons, zsum_cons. cbn [fold_left fst snd].
  rewrite share_floor_fl.
  destruct (IH (dset (profile_id q) (fl q) tg) (n + fl q)) as (H1 & H2 & H3).
  - intros; apply Hl; set_solver.
  - done.
  - replace (n + fl q) with (n + fl q - zget tg (profile_id q)) by (rewrite Hz by set_solver; lia).
    apply targets_ok_set; [done|apply Hl; set_solver|]. apply fl_nonneg, Hl. set_solver.
  - intros p Hp. rewrite zget_dset, decide_False; [apply Hz; set_solver|].
    intros Heq. apply Hq. rewrite <- Heq. by apply elem_of_ids.
  - split_and!.
    + by rewrite Z.add_assoc.
    + intros p [->|Hp]%elem_of_cons; [|by apply H2]. rewrite H3 by done.
      rewrite zget_dset. by rewrite decide_True.
    + intros k Hk. rewrite H3 by set_solver. rewrite zget_dset, decide_False; [done|set_solver].
Qed.

Definition bump_all (l : list nat) (tg : list (string * Z)) : list (string * Z) :=
  fold_left (fun tg i => match ws !! i with Some p => bump_target tg p | None => tg end) l tg.

Lemma ws_inj i j p q : ws !! i = Some p -> ws !! j = Some q ->
  profile_id p = profile_id q -> i = j.
Proof.
  intros Hi Hj Heq. eapply NoDup_lookup; [apply NoDup_ws| |].
  - unfold ids. rewrite list_lookup_fmap, Hi. done.
  - unfold ids. rewrite list_lookup_fmap, Hj. cbn. by rewrite Heq.
Qed.

Lemma bump_all_spec l tg n :
  NoDup l -> (forall i, i ∈ l -> (i < length ws)%nat) -> targets_ok n tg ->
  targets_ok (n + Z.of_nat (length l)) (bump_all l tg) /\
  (forall i p, ws !! i = Some p ->
     zget (bump_all l tg) (profile_id p) =
     zget tg (profile_id p) + (if decide (i ∈ l) then 1 else 0)).
Proof.
  revert tg n. induction l as [|j l IH]; intros tg n Hnd Hlt Hok.
  { change (bump_all [] tg) with tg. cbn [length]. rewrite Z.add_0_r. split; [done|].
    intros i p Hi. rewrite decide_False by set_solver. lia. }
  apply NoDup_cons in Hnd as [Hj Hnd]. unfold bump_all. cbn [fold_left].
  destruct (lookup_lt_is_Some_2 ws j) as [q Hq]; [by apply Hlt; set_solver|]. rewrite Hq.
  assert (q ∈ ws) as Hqw by by eapply list_elem_of_lookup_2.
  assert (0 <= zget tg (profile_id q)) as Hpos.
  { apply Hok. by apply elem_of_ws in Hqw as [? _]. }
  destruct (IH (bump_target tg q) (n + 1)) as [H1 H2].
  - done.
  - intros; apply Hlt; set_solver.
  - unfold bump_target. replace (n + 1) with (n + (zget tg (profile_id q) + 1) - zget tg (profile_id q)) by lia.
    apply targets_ok_set; [done|done|lia].
  - split.
    + cbn [length]. replace (n + Z.of_nat (S (length l))) with (n + 1 + Z.of_nat (length l)) by lia. done.
    + intros i p Hi. unfold bump_all in H2. rewrite (H2 i p Hi). unfold bump_target. rewrite zget_dset.
      destruct (decide (profile_id p = profile_id q)) as [Heq|Hne'].
      * assert (i = j) as -> by by eapply ws_inj. rewrite decide_False by done.
        rewrite decide_True by set_solver. rewrite Heq. lia.
      * assert (i <> j) by (intros ->; congruence).
        destruct (decide (i ∈ l)); [rewrite decide_True by set_solver|rewrite decide_False by set_solver]; lia.
Qed.

(** The profiles that win a host from the remainders. *)
Definition winners : list nat :=
  take (Z.to_nat (total - zsum (fl <$> ws))) (by_remainder (share total W <$> ws)).

Lemma winners_spec : NoDup winners /\ (forall i, i ∈ winners -> (i < length ws)%nat) /\
  Z.of_nat (length winners) = total - zsum (fl <$> ws).
Proof.
  unfold winners, by_remainder. rewrite length_fmap.
  pose proof (sort_by_perm (remainder_le (share total W <$> ws)) (seq 0 (length ws))) as Hp.
  pose proof leftover_bound as Hb. split_and!.
  - eapply sublist_NoDup; [|apply sublist_take]. rewrite Hp. apply NoDup_seq.
  - intros i Hi. apply (λ H, elem_of_sublist _ _ _ H (sublist_take _ _)) in Hi. rewrite Hp in Hi.
    apply elem_of_seq in Hi. lia.
  - rewrite length_take, (Permutation_length Hp), length_seq. lia.
Qed.

Lemma largest_remainder_spec :
  let tg := largest_remainder total ws (dict_of (fun _ => 0) ps) in
  targets_ok total tg /\
  (forall i p, ws !! i = Some p ->
     zget tg (profile_id p) = fl p + (if decide (i ∈ winners) then 1 else 0)).
Proof.
  unfold largest_remainder. fold W. rewrite zip_share.
  destruct (set_floors ws (dict_of (fun _ => 0) ps) 0) as (H1 & H2 & _).
  - done.
  - apply NoDup_ws.
  - apply targets_ok_init.
  - intros p [Hp _]%elem_of_ws. by rewrite zget_dict_of.
  - set (tg1 := fold_left _ (_ <$> ws) _) in *. rewrite Z.add_0_l in H1.
    rewrite (targets_ok_dsum _ _ H1). fold winners.
    destruct winners_spec as (Hnd & Hlt & Hlen).
    destruct (bump_all_spec winners tg1 _ Hnd Hlt H1) as [Hok Hz]. rewrite Hlen in Hok.
    replace (zsum (fl <$> ws) + (total - zsum (fl <$> ws))) with total in Hok by lia.
    split; [exact Hok|]. intros i p Hi. rewrite <- (H2 p) by by eapply list_elem_of_lookup_2.
    exact (Hz i p Hi).
Qed.

(** *** The one-host floor *)

Lemma last_max_spec tg l best :
  last_max tg l best ∈ best :: l /\
  (forall q, q ∈ best :: l -> zget tg (profile_id q) <= zget tg (profile_id (last_max tg l best))).
Proof.
  revert best. induction l as [|p l IH]; intros best.
  { cbn [last_max]. split; [set_solver|]. by intros q ->%list_elem_of_singleton. }
  cbn [last_max]. case_match eqn:Hle; destruct (IH (if (zget tg (profile_id best) <=? zget tg (profile_id p)) then p else best)) as [H1 H2];
    rewrite Hle in H1, H2.
  - split; [set_solver|]. apply Z.leb_le in Hle. intros q [->|Hq]%elem_of_cons.
    + etrans; [exact Hle|]. apply H2. set_solver.
    + by apply H2.
  - split; [set_solver|]. apply Z.leb_gt in Hle. intros q [->|[->|Hq]%elem_of_cons]%elem_of_cons.
    + apply H2. set_solver.
    + etrans; [apply Z.lt_le_incl, Hle|]. apply H2. set_solver.
    + apply H2. set_solver.
Qed.

Lemma donor_spec tg l p : p ∈ l ->
  donor tg l p ∈ l /\ (forall q, q ∈ l -> zget tg (profile_id q) <= zget tg (profile_id (donor tg l p))).
Proof. destruct l as [|w l]; [by intros ?%not_elem_of_nil|]. intros _. apply last_max_spec. Qed.

(** If some profile of [l] has no host and they share at least one each, one has two. *)
Lemma wsum_le_length tg l :
  (forall q, q ∈ l -> zget tg (profile_id q) <= 1) -> wsum tg l <= Z.of_nat (length l).
Proof.
  induction l as [|p l IH]; intros H; [done|]. rewrite wsum_cons. cbn [length].
  specialize (IH ltac:(intros; apply H; set_solver)). specialize (H p ltac:(set_solver)). lia.
Qed.

Lemma wsum_pigeonhole tg l p : p ∈ l -> zget tg (profile_id p) <= 0 ->
  Z.of_nat (length l) <= wsum tg l -> exists q, q ∈ l /\ 2 <= zget tg (profile_id q).
Proof.
  intros Hp H0 Hs. destruct (decide (Exists (fun q => 2 <= zget tg (profile_id q)) l)) as [He|Hn].
  { apply Exists_exists in He. done. }
  exfalso. rewrite <- Forall_Exists_neg, Forall_forall in Hn.
  apply list_elem_of_split in Hp as (l1 & l2 & ->).
  assert (wsum tg (l1 ++ p :: l2) = wsum tg (p :: l1 ++ l2)) as Heq.
  { unfold wsum. rewrite <- Permutation_middle. done. }
  rewrite Heq, wsum_cons in Hs. rewrite length_app in Hs. cbn [length] in Hs.
  pose proof (wsum_le_length tg (l1 ++ l2)) as Hle. rewrite length_app in Hle.
  assert (forall q, q ∈ l1 ++ l2 -> zget tg (profile_id q) <= 1).
  { intros q Hq. assert (~ 2 <= zget tg (profile_id q)); [apply Hn; set_solver|lia]. }
  specialize (Hle ltac:(done)). lia.
Qed.

Lemma give_one_step tg p :
  targets_ok total tg -> Z.of_nat (length ws) <= total -> p ∈ ws ->
  targets_ok total (give_one ws tg p) /\
  1 <= zget (give_one ws tg p) (profile_id p) /\
  (forall q, q ∈ ws -> 1 <= zget tg (profile_id q) -> 1 <= zget (give_one ws tg p) (profile_id q)).
Proof.
  intros Hok Hlen Hp. unfold give_one. destruct (0 <? zget tg (profile_id p)) eqn:Hz.
  { apply Z.ltb_lt in Hz. split_and!; [done|lia|done]. }
  apply Z.ltb_ge in Hz. destruct (donor_spec tg ws p Hp) as [Hd Hmax].
  set (d := donor tg ws p) in *. pose proof Hok as (_ & Hs & _ & _).
  destruct (wsum_pigeonhole tg ws p Hp Hz ltac:(lia)) as (r & Hr & Hr2).
  specialize (Hmax r Hr) as Hd2. assert (profile_id p <> profile_id d) as Hpd.
  { intros Heq. rewrite <- Heq in Hd2. lia. }
  assert (zget tg (profile_id p) = 0) as Hp0.
  { destruct Hok as (_ & _ & Hn & _). apply elem_of_ws in Hp as [Hp _]. specialize (Hn p Hp). lia. }
  set (tg1 := dset (profile_id d) _ tg).
  assert (targets_ok (total - 1) tg1) as Hok1.
  { replace (total - 1) with (total + (zget tg (profile_id d) - 1) - zget tg (profile_id d)) by lia.
    apply targets_ok_set; [done|done|lia]. }
  assert (zget tg1 (profile_id p) = 0) as Hp1.
  { unfold tg1. rewrite zget_dset, decide_False; done. }
  rewrite Hp1, Z.add_0_l. split_and!.
  - replace total with (total - 1 + 1 - zget tg1 (profile_id p)) by lia.
    apply targets_ok_set; [done|done|lia].
  - rewrite zget_dset, decide_True by done. lia.
  - intros q Hq Hq1. rewrite zget_dset. case_decide; [lia|]. unfold tg1. rewrite zget_dset.
    case_decide; lia.
Qed.

Lemma give_one_loop l tg :
  (forall p, p ∈ l -> p ∈ ws) -> Z.of_nat (length ws) <= total -> targets_ok total tg ->
  let tg' := fold_left (give_one ws) l tg in
  targets_ok total tg' /\ (forall p, p ∈ l -> 1 <= zget tg' (profile_id p)) /\
  (forall q, q ∈ ws -> 1 <= zget tg (profile_id q) -> 1 <= zget tg' (profile_id q)).
Proof.
  revert tg. induction l as [|p l IH]; intros tg Hl Hlen Hok.
  { cbn [fold_left]. split_and!; [done| |done]. by intros p ?%not_elem_of_nil. }
  cbn [fold_left]. destruct (give_one_step tg p Hok Hlen) as (H1 & H2 & H3); [apply Hl; set_solver|].
  destruct (IH (give_one ws tg p)) as (I1 & I2 & I3); [intros; apply Hl; set_solver|done|done|].
  split_and!; [done| |].
  - intros q [->|Hq]%elem_of_cons; [|by apply I2]. apply I3; [apply Hl; set_solver|done].
  - intros q Hq Hq1. apply I3; [done|]. by apply H3.
Qed.

(** *** The order of the remainders *)

Lemma remainder_le_rem i j p q : ws !! i = Some p -> ws !! j = Some q ->
  remainder_le (share total W <$> ws) i j =
  ((rem q <? rem p) || ((rem p =? rem q) && Nat.leb i j)).
Proof.
  intros Hi Hj. unfold remainder_le.
  assert (forall k r, ws !! k = Some r -> nth k (share total W <$> ws) 0%Q = share total W r) as Hn.
  { intros k r Hk. rewrite nth_lookup, list_lookup_fmap, Hk. done. }
  rewrite (Hn i p Hi), (Hn j q Hj). unfold share_mod1, share, Qle_bool, Qeq_bool. cbn [Qnum Qden].
  rewrite Zpos_W. fold (rem p) (rem q). pose proof (W_pos Hne). f_equal.
  - destruct (Z.leb_spec (rem p * W) (rem q * W)), (Z.ltb_spec (rem q) (rem p)); cbn; nia.
  - f_equal. destruct (Z.eqb_spec (rem p) (rem q)) as [->|Hpq].
    + by apply Zeq_is_eq_bool.
    + destruct (Zeq_bool _ _) eqn:He; [|done]. apply Zeq_is_eq_bool in He. nia.
Qed.

(** A winner has a larger remainder than a loser, or the same and comes first. *)
Lemma winners_first i j p q : ws !! i = Some p -> ws !! j = Some q ->
  i ∈ winners -> j ∉ winners -> rem q < rem p \/ (rem q = rem p /\ (i < j)%nat).
Proof.
  intros Hi Hj Hiw Hjw. pose proof (ws_inj i j p q Hi Hj) as Hinj.
  assert (j ∈ by_remainder (share total W <$> ws)) as Hjs.
  { unfold by_remainder. rewrite sort_by_perm, length_fmap. apply elem_of_seq.
    apply lookup_lt_Some in Hj. lia. }
  assert (StronglySorted (fun a b => remainder_le (share total W <$> ws) a b = true)
            (by_remainder (share total W <$> ws))) as Hss.
  { apply sort_by_sorted; [apply remainder_le_total|apply remainder_le_trans]. }
  unfold winners in Hiw, Hjw. set (n := Z.to_nat _) in *.
  rewrite <- (take_drop n (by_remainder _)) in Hss, Hjs.
  apply elem_of_app in Hjs as [|Hjd]; [done|].
  pose proof (StronglySorted_app_1_elem_of _ _ _ i j Hss Hiw Hjd) as Hle. cbn in Hle.
  rewrite (remainder_le_rem i j p q Hi Hj) in Hle.
  assert (i <> j) by (intros ->; done). bool_to_prop. destruct Hle as [Hle|Hle]; bool_to_prop; [by left|].
  right. apply Nat.leb_le in H1. split; [done|lia].
Qed.
End apportion_facts.

(** When every largest-remainder target is positive the floor changes nothing. *)
Lemma give_one_id ws l tg : (forall p, p ∈ l -> 0 < zget tg (profile_id p)) ->
  fold_left (give_one ws) l tg = tg.
Proof.
  induction l as [|p l IH]; intros H; [done|]. cbn [fold_left]. unfold give_one at 2.
  rewrite (proj2 (Z.ltb_lt _ _)) by (apply H; set_solver). apply IH. intros; apply H; set_solver.
Qed.

(** A fleet smaller than the catalog: the first profiles get one host each. *)
Lemma serve_first l tg (n : nat) :
  NoDup (ids l) ->
  let tg' := fold_left (fun tg p => dset (profile_id p) 1 tg) (take n l) tg in
  (forall i p, l !! i = Some p ->
     zget tg' (profile_id p) = if decide (i < n)%nat then 1 else zget tg (profile_id p)) /\
  (forall k, k ∉ ids l -> zget tg' k = zget tg k).
Proof.
  revert tg n. induction l as [|q l IH]; intros tg n Hnd.
  { rewrite take_nil. cbn. split; [|done]. intros i p Hi. by rewrite lookup_nil in Hi. }
  apply NoDup_cons in Hnd as [Hq Hnd]. destruct n as [|n].
  { cbn [take fold_left]. split; [|done]. intros. rewrite decide_False; [done|lia]. }
  cbn [firstn fold_left]. destruct (IH (dset (profile_id q) 1 tg) n Hnd) as [H1 H2].
  split.
  - intros [|i] p Hi.
    + injection Hi as ->. rewrite decide_True by lia. rewrite H2 by done.
      rewrite zget_dset. by rewrite decide_True.
    + cbn in Hi. rewrite (H1 i p Hi). assert (profile_id p <> profile_id q).
      { intros Heq. apply Hq. rewrite <- Heq. apply elem_of_ids. by eapply list_elem_of_lookup_2. }
      rewrite zget_dset, (decide_False (P := profile_id p = _)) by done.
      destruct (decide (i < n)%nat); [rewrite decide_True by lia|rewrite decide_False by lia]; done.
  - intros k Hk. rewrite H2 by set_solver. rewrite zget_dset, decide_False; [done|set_solver].
Qed.

Lemma serve_first_ok ps tg (n : nat) m :
  NoDup (ids ps) -> (n <= length (weighted_of ps))%nat -> targets_ok ps m tg ->
  (forall p, p ∈ weighted_of ps -> zget tg (profile_id p) = 0) ->
  targets_ok ps (m + Z.of_nat n)
    (fold_left (fun tg p => dset (profile_id p) 1 tg) (take n (weighted_of ps)) tg).
Proof.
  intros Hids. assert (forall l k tg, (forall p, p ∈ l -> p ∈ weighted_of ps) -> NoDup (ids l) ->
    targets_ok ps k tg -> (forall p, p ∈ l -> zget tg (profile_id p) = 0) ->
    targets_ok ps (k + Z.of_nat (length l)) (fold_left (fun tg p => dset (profile_id p) 1 tg) l tg)) as H.
  { clear -Hids. induction l as [|p l IH]; intros k tg Hl Hnd Hok Hz.
    { cbn. by rewrite Z.add_0_r. }
    apply NoDup_cons in Hnd as [Hp Hnd]. cbn [fold_left length].
    replace (k + Z.of_nat (S (length l))) with (k + 1 + Z.of_nat (length l)) by lia.
    apply IH; [intros; apply Hl; set_solver|done| |].
    - replace (k + 1) with (k + 1 - zget tg (profile_id p)) by (rewrite Hz by set_solver; lia).
      apply targets_ok_set; [done|done|apply Hl; set_solver|lia].
    - intros q Hq. rewrite zget_dset, decide_False; [apply Hz; set_solver|].
      intros Heq. apply Hp. rewrite <- Heq. by apply elem_of_ids. }
  intros Hn Hok Hz. replace n with (length (take n (weighted_of ps))) at 1 by (rewrite length_take; lia).
  apply H; [| |done|].
  - intros p Hp. by apply (λ H, elem_of_sublist _ _ _ H (sublist_take _ _)) in Hp.
  - unfold ids. rewrite fmap_take. eapply sublist_NoDup; [|apply sublist_take]. by apply NoDup_ws.
  - intros p Hp. apply Hz. by apply (λ H, elem_of_sublist _ _ _ H (sublist_take _ _)) in Hp.
Qed.

Lemma apportion_small total ps : NoDup (ids ps) -> 0 < total ->
  total < Z.of_nat (length (weighted_of ps)) ->
  targets_ok ps total (apportion total ps) /\
  (forall i p, weighted_of ps !! i = Some p ->
     zget (apportion total ps) (profile_id p) = if decide (Z.of_nat i < total) then 1 else 0).
Proof.
  intros Hids Ht Hlt. unfold apportion. fold (weighted_of ps).
  assert (weighted_of ps <> []) as Hne by (intros Heq; rewrite Heq in Hlt; cbn in Hlt; lia).
  rewrite (proj2 (Z.leb_gt _ _) Ht). destruct (weighted_of ps) as [|w0 l0] eqn:Hw; [done|].
  rewrite <- Hw in *. cbn [orb]. rewrite (proj2 (Z.ltb_lt _ _) Hlt).
  assert (forall p, p ∈ weighted_of ps -> zget (dict_of (fun _ => 0) ps) (profile_id p) = 0) as Hz.
  { intros p [Hp _]%elem_of_ws. by rewrite zget_dict_of. }
  split.
  - rewrite <- (Z.add_0_l total) at 1. rewrite <- (Z2Nat.id total) at 1 by lia.
    apply serve_first_ok; [done|lia|by apply targets_ok_init|done].
  - intros i p Hi. destruct (serve_first (weighted_of ps) (dict_of (fun _ => 0) ps) (Z.to_nat total))
      as [H1 _]; [by apply NoDup_ws|]. rewrite (H1 i p Hi).
    rewrite Hz by by eapply list_elem_of_lookup_2.
    destruct (decide (i < Z.to_nat total)%nat); [rewrite decide_True by lia|rewrite decide_False by lia]; done.
Qed.

Lemma apportion_large total ps : 0 < total -> weighted_of ps <> [] ->
  Z.of_nat (length (weighted_of ps)) <= total ->
  apportion total ps =
  fold_left (give_one (weighted_of ps)) (weighted_of ps)
    (largest_remainder total (weighted_of ps) (dict_of (fun _ => 0) ps)).
Proof.
  intros Ht Hne Hle. unfold apportion. fold (weighted_of ps).
  rewrite (proj2 (Z.leb_gt _ _) Ht). destruct (weighted_of ps) as [|w0 l0] eqn:Hw; [done|].
  rewrite <- Hw in *. cbn [orb]. rewrite (proj2 (Z.ltb_ge _ _) Hle).
  by rewrite (proj2 (Z.leb_le _ _) Hle).
Qed.

Lemma apportion_zero total ps : total <= 0 \/ weighted_of ps = [] ->
  apportion total ps = dict_of (fun _ => 0) ps.
Proof.
  intros H. unfold apportion. fold (weighted_of ps). destruct (Z.leb_spec total 0); [done|].
  destruct H as [|Hw]; [lia|]. by rewrite Hw.
Qed.

(** [apportion] answers for exactly the catalog's profiles, with
    non-negative targets and none for a profile without weight; a positive
    fleet with a weighted profile is split exactly; every weighted profile has
    at least one host as soon as there are enough hosts, and with fewer hosts
    the first weighted profiles of the catalog have one each. *)
Theorem apportion_spec total ps : NoDup (ids ps) ->
  let tg := apportion total ps in
  let ws := weighted_of ps in
  dkeys tg = ids ps /\
  (forall p, p ∈ ps -> 0 <= zget tg (profile_id p)) /\
  (forall p, p ∈ ps -> weight p <= 0 -> zget tg (profile_id p) = 0) /\
  dsum tg = (if decide (ws = []) then 0 else Z.max 0 total) /\
  (forall p, p ∈ ws -> Z.of_nat (length ws) <= total -> 1 <= zget tg (profile_id p)) /\
  (forall i p, ws !! i = Some p -> total < Z.of_nat (length ws) ->
     zget tg (profile_id p) = if decide (Z.of_nat i < total) then 1 else 0).
Proof.
  intros Hids. cbn zeta.
  assert (forall n tg, targets_ok ps n tg -> dsum tg = n /\ dkeys tg = ids ps /\
    (forall p, p ∈ ps -> 0 <= zget tg (profile_id p)) /\
    (forall p, p ∈ ps -> weight p <= 0 -> zget tg (profile_id p) = 0)) as Hgen.
  { intros n tg Hok. split; [by eapply targets_ok_dsum|]. by destruct Hok as ((_ & ?) & _ & ? & ?). }
  destruct (decide (total <= 0 \/ weighted_of ps = [])) as [H0|Hn].
  - rewrite (apportion_zero _ _ H0).
    destruct (Hgen 0 _ (targets_ok_init ps Hids)) as (Hs & Hk & H1 & H2).
    split_and!; [done|done|done| | |].
    + rewrite Hs. case_decide; [done|]. destruct H0; [lia|done].
    + intros p Hp Hle. destruct H0 as [|H0]; [|by rewrite H0 in Hp; apply not_elem_of_nil in Hp].
      destruct (weighted_of ps); [by apply not_elem_of_nil in Hp|]. cbn in Hle. lia.
    + intros i p Hi _. rewrite zget_dict_of; [|done|]; cycle 1.
      { eapply elem_of_ws. by eapply list_elem_of_lookup_2. }
      destruct H0 as [|H0]; [by rewrite decide_False by lia|by rewrite H0 in Hi].
  - assert (0 < total /\ weighted_of ps <> []) as [Ht Hne] by (split; [lia|tauto]).
    rewrite (decide_False (P := weighted_of ps = [])), Z.max_r by (done || lia).
    destruct (Z.lt_ge_cases total (Z.of_nat (length (weighted_of ps)))) as [Hlt|Hge].
    + destruct (apportion_small total ps Hids Ht Hlt) as [Hok Hv].
      destruct (Hgen _ _ Hok) as (Hs & Hk & H1 & H2). split_and!; try done; [intros; lia|intros; by apply Hv].
    + rewrite apportion_large by done.
      destruct (largest_remainder_spec ps Hids total Ht Hne) as [Hok _].
      destruct (give_one_loop ps Hids total Ht Hne (weighted_of ps) _ ltac:(done) Hge Hok) as (Hok' & Hv & _).
      destruct (Hgen _ _ Hok') as (Hs & Hk & H1 & H2).
      split_and!; try done; [intros; by apply Hv|intros; lia].
Qed.

(** When the fleet is large enough that every weighted profile's exact
    share is a whole host or more, each target is the share rounded down or up,
    and the profiles rounded up are the ones with the larger remainders, the
    earlier one in the catalog on a tie. *)
Theorem apportion_largest_remainder total ps : NoDup (ids ps) -> 0 < total ->
  (forall p, p ∈ weighted_of ps -> W ps <= total * weight p) ->
  let tg := apportion total ps in
  (forall p, p ∈ weighted_of ps ->
     zget tg (profile_id p) = fl ps total p \/ zget tg (profile_id p) = fl ps total p + 1) /\
  (forall i j p q, weighted_of ps !! i = Some p -> weighted_of ps !! j = Some q ->
     zget tg (profile_id p) = fl ps total p + 1 -> zget tg (profile_id q) = fl ps total q ->
     rem ps total q < rem ps total p \/ (rem ps total q = rem ps total p /\ (i < j)%nat)).
Proof.
  intros Hids Ht Hw. cbn zeta. destruct (decide (weighted_of ps = [])) as [He|Hne].
  { rewrite He. split; [by intros p ?%not_elem_of_nil|]. intros i j p q Hi. by rewrite lookup_nil in Hi. }
  assert (forall p, p ∈ weighted_of ps -> 1 <= fl ps total p) as Hfl.
  { intros p Hp. unfold fl. apply Z.div_le_lower_bound; [by apply W_pos|]. specialize (Hw p Hp). lia. }
  destruct (largest_remainder_spec ps Hids total Ht Hne) as [Hok Hv].
  assert (Z.of_nat (length (weighted_of ps)) <= total) as Hge.
  { pose proof (leftover_bound ps total Hne) as Hb.
    assert (Z.of_nat (length (fl ps total <$> weighted_of ps)) <= zsum (fl ps total <$> weighted_of ps)) as Hz.
    { apply zsum_pos. intros x (p & -> & Hp)%list_elem_of_fmap. specialize (Hfl p Hp). lia. }
    rewrite length_fmap in Hz. lia. }
  assert (apportion total ps = largest_remainder total (weighted_of ps) (dict_of (fun _ => 0) ps)) as ->.
  { rewrite apportion_large by done. apply give_one_id. intros p Hp.
    apply list_elem_of_lookup in Hp as [i Hi]. rewrite (Hv i p Hi).
    specialize (Hfl p ltac:(by eapply list_elem_of_lookup_2)). case_decide; lia. }
  split.
  - intros p Hp. apply list_elem_of_lookup in Hp as [i Hi]. rewrite (Hv i p Hi). case_decide; lia.
  - intros i j p q Hi Hj Hp Hq. rewrite (Hv i p Hi) in Hp. rewrite (Hv j q Hj) in Hq.
    apply (winners_first ps Hids total Hne i j p q Hi Hj).
    + destruct (decide (i ∈ winners ps total)); [done|lia].
    + destruct (decide (j ∈ winners ps total)); [lia|done].
Qed.

(** *** Witnesses *)

Definition ex_profile (k : string) (w : Z) : PlannedProfile :=
  {| profile_id := k; weight := w; gpu_classes := ["a100"];
     preferred_gpu_class := None; placeable := true |}.
Definition ex_profiles := [ex_profile "p" 5; ex_profile "q" 3; ex_profile "r" 0].

Lemma ex_profiles_ids : NoDup (ids ex_profiles).
Proof. by apply (bool_decide_unpack _). Qed.

Lemma apportion_spec_witness : dsum (apportion 7 ex_profiles) = 7.
Proof.
  destruct (apportion_spec 7 ex_profiles ex_profiles_ids) as (_ & _ & _ & H & _). exact H.
Defined.

Lemma apportion_largest_remainder_witness :
  zget (apportion 7 ex_profiles) "p" = fl ex_profiles 7 (ex_profile "p" 5) \/
  zget (apportion 7 ex_profiles) "p" = fl ex_profiles 7 (ex_profile "p" 5) + 1.
Proof.
  destruct (apportion_largest_remainder 7 ex_profiles ex_profiles_ids ltac:(lia)) as [H _].
  - intros p Hp. change (weighted_of ex_profiles) with [ex_profile "p" 5; ex_profile "q" 3] in Hp.
    apply elem_of_cons in Hp as [->|Hp%list_elem_of_singleton]; [|subst p]; vm_compute; congruence.
  - apply (H (ex_profile "p" 5)). apply elem_of_ws. split; [unfold ex_profiles; set_solver|cbn; lia].
Defined.
