(* ===== verification/PlannerMatching.v ===== *)
(** * The matching of grants to hosts
    ([inference_proxy/placement/planner.py]: [plan_placements])

    [plan_placements] turns the split into assignments with augmenting paths.
    Its search [take_host] always answers, a success adds one host and keeps every other profile's count, a
    failure leaves a closed set of occupied hosts behind, and the plan built
    from it places as many grants as any plan could. *)

From S2P Require Import Prelude PyDict Planner.
Local Open Scope Z_scope.

(** ** [plan_placements] *)

(** [key=lambda item: item.hostname] *)
Definition host_le (a b : Candidate) : bool := String.leb (hostname a) (hostname b).

(** [sorted(set(candidates), key=...)] *)
Definition ordered_of (candidates : list Candidate) : list Candidate :=
  sort_by host_le (remove_dups candidates).

(** [{profile.profile_id: index for index, profile in enumerate(profiles)}] *)
Definition order_of (profiles : list PlannedProfile) : list (string * Z) :=
  fold_left (fun d ip => dset (profile_id (snd ip)) (Z.of_nat (fst ip)) d)
    (zip (seq 0 (length profiles)) profiles) [].

(** [{profile.profile_id: profile for profile in profiles if profile.placeable}] *)
Definition placeable_of (profiles : list PlannedProfile) : list (string * PlannedProfile) :=
  fold_left (fun d p => dset (profile_id p) p d) (List.filter placeable profiles) [].

Definition held_counts_of (profiles : list PlannedProfile) (held : list (string * Z)) :=
  dict_of (fun p => Z.max 0 (zget held (profile_id p))) profiles.

Definition retired_of (profiles : list PlannedProfile) (held : list (string * Z)) : Z :=
  zsum ((fun kv => Z.max 0 (snd kv)) <$>
        List.filter (fun kv => negb (bool_decide (fst kv ∈ profile_id <$> profiles))) held).

Definition deficits_of (targets held_counts : list (string * Z)) : list (string * Z) :=
  (fun kv => (fst kv, Z.max 0 (snd kv - zget held_counts (fst kv)))) <$> targets.

Section grants.
Context (order deficits : list (string * Z)) (placeable : list string).

Definition gap (grants : list (string * Z)) (key : string) : Z :=
  zget deficits key - zget grants key.

(** [a] has a smaller key than [b] under
    [lambda key: (-(deficits[key] - grants[key]), order[key])]. *)
Definition grant_lt (grants : list (string * Z)) (a b : string) : bool :=
  (gap grants b <? gap grants a) ||
  ((gap grants a =? gap grants b) && (zget order a <? zget order b)).

(** [min(open_profiles, key=...)]: the first of the smallest. *)
Fixpoint min_key (grants : list (string * Z)) (best : string) (l : list string) : string :=
  match l with
  | [] => best
  | k :: l => min_key grants (if grant_lt grants k best then k else best) l
  end.

(** [while remaining > 0] *)
Fixpoint grant_loop (remaining : nat) (grants : list (string * Z)) : list (string * Z) :=
  match remaining with
  | O => grants
  | S remaining =>
      match List.filter (fun key => 0 <? gap grants key) placeable with
      | [] => grants
      | k :: open_profiles =>
          let chosen := min_key grants k open_profiles in
          grant_loop remaining (dset chosen (zget grants chosen + 1) grants)
      end
  end.
End grants.

(** *** Matching grants to hosts *)

Inductive PlanErr := ValueError | KeyError | OutOfFuel.

(** The two collections [take] mutates: [assigned] and its [visited] argument. *)
Record Match := { assigned : list (string * PlannedProfile); visited : list string }.

Definition assign (host : string) (p : PlannedProfile) (m : Match) : Match :=
  {| assigned := dset host p (assigned m); visited := visited m |}.
Definition visit (host : string) (m : Match) : Match :=
  {| assigned := assigned m; visited := host :: visited m |}.
Definition is_assigned (m : Match) (host : string) : bool := dmem host (assigned m).
Definition is_visited (m : Match) (host : string) : bool := bool_decide (host ∈ visited m).

Section matching.
Context (profiles : list PlannedProfile) (ordered : list Candidate) (pending : list (string * Z)).

Definition contested (profile : PlannedProfile) : list (option string) :=
  preferred_gpu_class <$>
  List.filter (fun other => negb (bool_decide (profile_id other = profile_id profile)) &&
                            (0 <? zget pending (profile_id other))) profiles.

(** The order of the tuples
    [(item.gpu_class != preferred, item.gpu_class in contested, item.hostname)]. *)
Definition usable_le (profile : PlannedProfile) (a b : Candidate) : bool :=
  let pref x := negb (bool_decide (Some (gpu_class x) = preferred_gpu_class profile)) in
  let cont x := bool_decide (Some (gpu_class x) ∈ contested profile) in
  if negb (eqb (pref a) (pref b)) then negb (pref a)
  else if negb (eqb (cont a) (cont b)) then negb (cont a)
  else host_le a b.

Definition usable (profile : PlannedProfile) : list Candidate :=
  sort_by (usable_le profile)
    (List.filter (fun item => bool_decide (gpu_class item ∈ gpu_classes profile)) ordered).

(** The second loop of [take], with the recursive call as [rec]. *)
Fixpoint displace (rec : PlannedProfile -> Match -> result PlanErr (bool * Match))
  (profile : PlannedProfile) (hosts : list Candidate) (m : Match) : result PlanErr (bool * Match) :=
  match hosts with
  | [] => Ok (false, m)
  | host :: hosts =>
      if is_visited m (hostname host) then displace rec profile hosts m
      else
        let m := visit (hostname host) m in
        match dget (hostname host) (assigned m) with
        | None => Err KeyError
        | Some other =>
            let? (ok, m) := rec other m in
            if ok then Ok (true, assign (hostname host) profile m)
            else displace rec profile hosts m
        end
  end.

Definition free_host (m : Match) (host : Candidate) : bool :=
  negb (is_assigned m (hostname host)) && negb (is_visited m (hostname host)).

Fixpoint take_host (fuel : nat) (profile : PlannedProfile) (m : Match) : result PlanErr (bool * Match) :=
  match fuel with
  | O => Err OutOfFuel
  | S fuel =>
      match List.find (free_host m) (usable profile) with
      | Some host => Ok (true, assign (hostname host) profile m)
      | None => displace (take_host fuel) profile (usable profile) m
      end
  end.
End matching.

(** Deep enough: every recursive call marks one more host visited. *)
Definition take_fuel (ordered : list Candidate) : nat := S (length ordered).

(** [while pending.get(profile.profile_id, 0) > 0] for one profile; [rounds]
    is the number of rounds, which the caller takes to be the pending count. *)
Fixpoint serve_profile (profiles : list PlannedProfile) (ordered : list Candidate) (rounds : nat)
  (profile : PlannedProfile) (st : list (string * Z) * list (string * PlannedProfile))
  : result PlanErr (list (string * Z) * list (string * PlannedProfile)) :=
  match rounds with
  | O => Ok st
  | S rounds =>
      let '(pending, asg) := st in
      let pending := dset (profile_id profile) (zget pending (profile_id profile) - 1) pending in
      let? (ok, m) := take_host profiles ordered pending (take_fuel ordered) profile
                        {| assigned := asg; visited := [] |} in
      if ok then serve_profile profiles ordered rounds profile (pending, assigned m)
      else Ok (pending, assigned m)
  end.

(** [for profile in profiles] *)
Fixpoint serve_all (profiles : list PlannedProfile) (ordered : list Candidate)
  (todo : list PlannedProfile) (st : list (string * Z) * list (string * PlannedProfile))
  : result PlanErr (list (string * Z) * list (string * PlannedProfile)) :=
  match todo with
  | [] => Ok st
  | p :: todo =>
      let? st := serve_profile profiles ordered (Z.to_nat (zget (fst st) (profile_id p))) p st in
      serve_all profiles ordered todo st
  end.

(** [key=lambda item: (order[item.profile_id], item.hostname)] *)
Definition assignment_le (order : list (string * Z)) (a b : Assignment) : bool :=
  (zget order (as_profile_id a) <? zget order (as_profile_id b)) ||
  ((zget order (as_profile_id a) =? zget order (as_profile_id b)) &&
   String.leb (as_hostname a) (as_hostname b)).

Definition targets_of (profiles : list PlannedProfile) (held : list (string * Z))
  (candidates : list Candidate) : list (string * Z) :=
  apportion (dsum (held_counts_of profiles held) + Z.of_nat (length (ordered_of candidates))) profiles.

Definition grants_of (profiles : list PlannedProfile) (held : list (string * Z))
  (candidates : list Candidate) : list (string * Z) :=
  let targets := targets_of profiles held candidates in
  let deficits := deficits_of targets (held_counts_of profiles held) in
  grant_loop (order_of profiles) deficits (dkeys (placeable_of profiles))
    (length (ordered_of candidates)) ((fun kv => (fst kv, 0)) <$> targets).

Definition plan_placements (profiles : list PlannedProfile) (held : list (string * Z))
  (candidates : list Candidate) : result PlanErr PlacementPlan :=
  let ordered := ordered_of candidates in
  raise_if (negb (Nat.eqb (length (remove_dups (hostname <$> ordered))) (length ordered))) ValueError ;?
  let held_counts := held_counts_of profiles held in
  let retired := retired_of profiles held in
  let targets := targets_of profiles held candidates in
  let deficits := deficits_of targets held_counts in
  let order := order_of profiles in
  let grants := grants_of profiles held candidates in
  let? (_, asg) := serve_all profiles ordered profiles (grants, []) in
  let assignments :=
    sort_by (assignment_le order)
      ((fun hp => {| as_hostname := fst hp; as_profile_id := profile_id (snd hp) |}) <$> asg) in
  let unfilled :=
    fold_left (fun d a => dset (as_profile_id a) (zget d (as_profile_id a) - 1) d)
      assignments deficits in
  Ok {| targets := targets;
        held_out := if retired =? 0 then held_counts else dset "(retired)" retired held_counts;
        assignments := assignments;
        unfilled := List.filter (fun kv => 0 <? snd kv) unfilled |}.

(** ** Hosts per profile *)

Section count.
Implicit Types (P : string -> bool) (asg : list (string * PlannedProfile)).

Definition part P asg := List.filter (fun hp => P (profile_id (snd hp))) asg.

(** The number of hosts of the profiles whose id satisfies [P]. *)
Definition countP P asg : nat := length (part P asg).

Definition b2n (b : bool) : nat := if b then 1 else 0.

Lemma countP_cons P h q asg : countP P ((h, q) :: asg) = (b2n (P (profile_id q)) + countP P asg)%nat.
Proof. unfold countP, part. cbn [List.filter snd]. by case_match. Qed.

Lemma countP_dset_new P h p asg : h ∉ dkeys asg ->
  countP P (dset h p asg) = (countP P asg + b2n (P (profile_id p)))%nat.
Proof.
  induction asg as [|[h' q] asg IH]; intros Hh; [cbn [dset]; by rewrite countP_cons, Nat.add_comm|].
  cbn in Hh. cbn [dset]. rewrite decide_False by set_solver.
  rewrite !countP_cons, IH by set_solver. lia.
Qed.

Lemma countP_dset_old P h p q asg : dget h asg = Some q ->
  (countP P (dset h p asg) + b2n (P (profile_id q)) = countP P asg + b2n (P (profile_id p)))%nat.
Proof.
  induction asg as [|[h' r] asg IH]; intros Hh; [done|].
  cbn [dget dset] in *. destruct (decide (h = h')) as [->|Hne]; rewrite !countP_cons.
  - simplify_eq. lia.
  - specialize (IH Hh). lia.
Qed.

Lemma countP_split P asg : length asg = (countP P asg + countP (fun k => negb (P k)) asg)%nat.
Proof.
  induction asg as [|[h q] asg IH]; [done|]. rewrite !countP_cons. cbn [length]. rewrite IH.
  destruct (P _); cbn; lia.
Qed.

(** The hosts of the profiles whose id satisfies [P]. *)
Definition hosts_of P asg : list string := dkeys (part P asg).

Lemma length_hosts_of P asg : length (hosts_of P asg) = countP P asg.
Proof. unfold hosts_of, dkeys. by rewrite length_fmap. Qed.

Lemma NoDup_hosts_of P asg : dwf asg -> NoDup (hosts_of P asg).
Proof.
  unfold dwf, hosts_of, dkeys, part. induction asg as [|[h q] asg IH]; [done|].
  rewrite fmap_cons. intros [Hh Hl]%NoDup_cons. cbn [List.filter]. case_match; [|by apply IH].
  rewrite fmap_cons. apply NoDup_cons. split; [|by apply IH].
  intros (x & Heq & Hx)%list_elem_of_fmap. apply elem_of_filter_bool in Hx as [Hx _].
  apply Hh. rewrite Heq. apply list_elem_of_fmap. eauto.
Qed.

Lemma elem_of_hosts_of P asg h : dwf asg ->
  h ∈ hosts_of P asg <-> exists q, dget h asg = Some q /\ P (profile_id q) = true.
Proof.
  intros Hwf. unfold hosts_of, dkeys. rewrite list_elem_of_fmap. split.
  - intros ([h' q] & -> & [Hx HP]%elem_of_filter_bool). exists q. split; [|done].
    by apply dwf_in_dget.
  - intros (q & Hq & HP). exists (h, q). split; [done|]. apply elem_of_filter_bool.
    split; [by apply dget_Some_in|done].
Qed.

Definition is_id (k : string) : string -> bool := fun k' => bool_decide (k' = k).

Lemma is_id_true k : is_id k k = true.
Proof. by apply bool_decide_eq_true. Qed.
Lemma is_id_false k k' : k' <> k -> is_id k k' = false.
Proof. intros H. by apply bool_decide_eq_false. Qed.

(** The hosts of profile [k]. *)
Definition count (k : string) asg : nat := countP (is_id k) asg.

(** Counting by profile: the owners are among the catalog's profiles. *)
Lemma countP_sum P asg (ps : list PlannedProfile) :
  NoDup (ids ps) -> (forall hp, hp ∈ asg -> snd hp ∈ ps) ->
  countP P asg = sum_list_with (fun p => b2n (P (profile_id p)) * count (profile_id p) asg)%nat ps.
Proof.
  intros Hnd. induction asg as [|[h q] asg IH]; intros Ho.
  { cbn. clear. induction ps as [|p ps IHp]; cbn; [done|]. rewrite <- IHp. cbn. lia. }
  rewrite countP_cons, IH by set_solver. specialize (Ho (h, q) ltac:(set_solver)). cbn in Ho.
  clear IH. induction ps as [|p ps IHp]; [by apply not_elem_of_nil in Ho|].
  cbn [sum_list_with]. unfold count in *. rewrite countP_cons.
  change (NoDup (profile_id p :: ids ps)) in Hnd. apply NoDup_cons in Hnd as [Hp Hnd].
  destruct (decide (profile_id q = profile_id p)) as [Heq|Hne].
  - assert (forall l, profile_id p ∉ ids l ->
      sum_list_with (fun r => b2n (P (profile_id r)) * countP (is_id (profile_id r)) ((h, q) :: asg)) l
      = sum_list_with (fun r => b2n (P (profile_id r)) * countP (is_id (profile_id r)) asg) l)%nat as Hs.
    { clear -Heq. induction l as [|r l IHr]; intros Hp; [done|]. change (ids (r :: l)) with (profile_id r :: ids l) in Hp.
      cbn [sum_list_with]. rewrite countP_cons, Heq, is_id_false by set_solver.
      rewrite IHr by set_solver. done. }
    rewrite (Hs ps Hp), Heq, is_id_true.
    destruct (P (profile_id p)); cbn [b2n]; lia.
  - apply elem_of_cons in Ho as [->|Ho]; [done|]. specialize (IHp Hnd Ho).
    rewrite is_id_false by done. cbn [b2n]. lia.
Qed.
End count.

Section take_facts.
Context (profiles : list PlannedProfile) (ordered : list Candidate).
Context (Own : PlannedProfile -> Prop).

Definition hosts : list string := hostname <$> ordered.

(** The profile can run on that host. *)
Definition compat (p : PlannedProfile) (h : string) : Prop :=
  exists c, c ∈ ordered /\ hostname c = h /\ gpu_class c ∈ gpu_classes p.

Lemma compat_hosts p h : compat p h -> h ∈ hosts.
Proof. intros (c & Hc & <- & _). apply list_elem_of_fmap. eauto. Qed.

Lemma elem_of_usable pending p c :
  c ∈ usable profiles ordered pending p <-> c ∈ ordered /\ gpu_class c ∈ gpu_classes p.
Proof. unfold usable. by rewrite sort_by_perm, elem_of_filter_bool, bool_decide_eq_true. Qed.

(** Every assigned host is one of the profile's hosts. *)
Definition valid (asg : list (string * PlannedProfile)) : Prop :=
  dwf asg /\ forall h q, dget h asg = Some q -> compat q h /\ Own q.

Lemma valid_dset asg h p : valid asg -> compat p h -> Own p -> valid (dset h p asg).
Proof.
  intros [Hwf Hv] Hc Ho. split; [by apply dwf_dset|]. intros h' q. rewrite dget_dset.
  case_decide; [intros; simplify_eq; done|apply Hv].
Qed.

Definition unvisited (m : Match) : nat :=
  length (List.filter (fun h => negb (is_visited m h)) hosts).

Lemma unvisited_mono m m' : (forall h, h ∈ visited m -> h ∈ visited m') ->
  (unvisited m' <= unvisited m)%nat.
Proof.
  unfold unvisited, is_visited. intros Hs. induction hosts as [|h l IH]; [done|]. cbn [List.filter].
  repeat case_bool_decide; cbn [negb length]; try lia. naive_solver.
Qed.

Lemma unvisited_visit m h : h ∈ hosts -> is_visited m h = false ->
  (unvisited (visit h m) < unvisited m)%nat.
Proof.
  unfold unvisited, is_visited. intros Hh Hv. apply bool_decide_eq_false in Hv. cbn [visit visited].
  revert Hh. generalize hosts. intros l. assert (forall l,
    (length (List.filter (fun k => negb (bool_decide (k ∈ h :: visited m))) l) <=
     length (List.filter (fun k => negb (bool_decide (k ∈ visited m))) l))%nat) as Hle.
  { clear. induction l as [|k l IH]; [done|]. cbn [List.filter].
    repeat case_bool_decide; cbn [negb length]; try lia. set_solver. }
  induction l as [|k l IH]; [by intros ?%not_elem_of_nil|]. intros [<-|Hk]%elem_of_cons; cbn [List.filter].
  - rewrite bool_decide_true by set_solver. rewrite bool_decide_false by done. cbn [negb length].
    specialize (Hle l). lia.
  - specialize (IH Hk). repeat case_bool_decide; cbn [negb length]; try lia. set_solver.
Qed.

(** What a search for [p] establishes; [need] are the hosts a failure must have
    visited. *)
Definition found (p : PlannedProfile) (m m' : Match) : Prop :=
  valid (assigned m') /\
  (forall P, countP P (assigned m') = (countP P (assigned m) + b2n (P (profile_id p)))%nat) /\
  (exists h0, h0 ∈ hosts /\ dkeys (assigned m') = dkeys (assigned m) ++ [h0]) /\
  (forall h, h ∈ visited m -> dget h (assigned m') = dget h (assigned m)).

Definition blocked (need : list string) (m m' : Match) : Prop :=
  assigned m' = assigned m /\
  (forall h, h ∈ need -> h ∈ visited m') /\
  (forall h, h ∈ visited m' -> h ∉ visited m ->
     exists q, dget h (assigned m) = Some q /\ forall h', compat q h' -> h' ∈ visited m').

Definition search_post (need : list string) (p : PlannedProfile) (m : Match) (b : bool) (m' : Match)
  : Prop :=
  (forall h, h ∈ visited m -> h ∈ visited m') /\
  (if b then found p m m' else blocked need m m').

Definition compat_hosts_of (p : PlannedProfile) : list string :=
  hostname <$> List.filter (fun c => bool_decide (gpu_class c ∈ gpu_classes p)) ordered.

Lemma elem_of_compat_hosts p h : h ∈ compat_hosts_of p <-> compat p h.
Proof.
  unfold compat_hosts_of, compat. rewrite list_elem_of_fmap.
  setoid_rewrite elem_of_filter_bool. setoid_rewrite bool_decide_eq_true. naive_solver.
Qed.

Definition rec_ok (fuel : nat) (rec : PlannedProfile -> Match -> result PlanErr (bool * Match)) : Prop :=
  forall p m, valid (assigned m) -> Own p -> (unvisited m < fuel)%nat ->
    exists b m', rec p m = Ok (b, m') /\ search_post (compat_hosts_of p) p m b m'.

(** A recursive search from a freshly visited host. *)
Lemma found_displaced p q h m m' :
  is_visited m h = false -> dget h (assigned m) = Some q -> compat p h -> Own p ->
  found q (visit h m) m' -> found p m (assign h p m').
Proof.
  intros Hv Hq Hc Ho (H1 & H2 & (h0 & H3 & H4) & H5). cbn [visit assigned visited] in *.
  assert (dget h (assigned m') = Some q) as Hq' by (rewrite H5; [done|set_solver]).
  unfold assign. split_and!; cbn [assigned visited].
  - by apply valid_dset.
  - intros P. pose proof (countP_dset_old P h p q (assigned m') Hq') as Hc'. rewrite H2 in Hc'. lia.
  - exists h0. split; [done|]. rewrite dkeys_dset, decide_True; [done|].
    apply elem_of_dkeys. eauto.
  - intros h' Hh'. apply bool_decide_eq_false in Hv. rewrite dget_dset_ne by (intros ->; done).
    apply H5. set_solver.
Qed.

(** A failed search from host [h] followed by the rest of the loop. *)
Lemma found_after_blocked need p h m m' m'' :
  blocked need (visit h m) m' -> (forall k, k ∈ visited (visit h m) -> k ∈ visited m') ->
  found p m' m'' -> found p m m''.
Proof.
  intros (H1 & _ & _) Hsub (P1 & P2 & P3 & P4). cbn [visit assigned visited] in *.
  rewrite H1 in P2, P3, P4. split_and!; [done..|]. intros k Hk. apply P4, Hsub. set_solver.
Qed.

Lemma blocked_trans need q h m m' m'' :
  dget h (assigned m) = Some q ->
  blocked (compat_hosts_of q) (visit h m) m' ->
  (forall k, k ∈ visited (visit h m) -> k ∈ visited m') ->
  (forall k, k ∈ visited m' -> k ∈ visited m'') ->
  blocked need m' m'' -> blocked (h :: need) m m''.
Proof.
  intros Hq (H1 & H2 & H3) Hsub Hsub' (P1 & P2 & P3). cbn [visit assigned visited] in *. split_and!.
  - congruence.
  - intros k [->|Hk]%elem_of_cons; [|auto]. apply Hsub', Hsub. set_solver.
  - intros k Hk Hn. destruct (decide (k ∈ visited m')) as [Hm'|Hm'].
    + destruct (decide (k = h)) as [->|Hne].
      { exists q. split; [done|]. intros h' Hc'. apply Hsub', H2. by apply elem_of_compat_hosts. }
      destruct (H3 k Hm') as (r & Hr & Hr'); [set_solver|]. exists r. split; [done|]. auto.
    + destruct (P3 k Hk Hm') as (r & Hr & Hr'). exists r. rewrite <- H1. done.
Qed.

Lemma displace_spec fuel rec p us m :
  rec_ok fuel rec -> valid (assigned m) -> Own p ->
  (forall c, c ∈ us -> compat p (hostname c)) ->
  (forall c, c ∈ us -> hostname c ∈ visited m \/ hostname c ∈ dkeys (assigned m)) ->
  (unvisited m <= fuel)%nat ->
  exists b m', displace rec p us m = Ok (b, m') /\ search_post (hostname <$> us) p m b m'.
Proof.
  intros Hrec. revert m. induction us as [|c us IH]; intros m Hv Ho Hus Hocc Hf.
  { exists false, m. split; [done|]. split; [done|]. split_and!; [done|set_solver|done]. }
  cbn [displace]. destruct (is_visited m (hostname c)) eqn:Hvis.
  - destruct (IH m) as (b & m' & He & Hsub & Hpost); [set_solver..|done|]. exists b, m'.
    split; [done|]. split; [done|]. destruct b; [done|].
    destruct Hpost as (H1 & H2 & H3). split_and!; [done| |done].
    apply bool_decide_eq_true in Hvis. rewrite fmap_cons. intros h [->|Hh]%elem_of_cons; auto.
  - assert (hostname c ∈ hosts) as Hch by (eapply compat_hosts, Hus; set_solver).
    pose proof (unvisited_visit m _ Hch Hvis) as Hlt.
    destruct (dget (hostname c) (assigned (visit (hostname c) m))) as [q|] eqn:Hq; cycle 1.
    { exfalso. apply dget_None_keys in Hq. apply bool_decide_eq_false in Hvis.
      destruct (Hocc c); [set_solver|done|done]. }
    cbn [visit assigned] in Hq.
    destruct (Hrec q (visit (hostname c) m)) as (b & m' & He & Hsub & Hpost);
      [done|by eapply Hv|lia|].
    rewrite He. cbn [rbind]. destruct b.
    + exists true, (assign (hostname c) p m'). split; [done|]. split.
      { intros h Hh. apply Hsub. set_solver. }
      eapply found_displaced; [done|done|apply Hus; set_solver|done|done].
    + pose proof Hpost as (H1 & _). cbn [visit assigned visited] in H1, Hsub.
      destruct (IH m') as (b & m'' & He' & Hsub' & Hpost').
      * by rewrite H1.
      * done.
      * set_solver.
      * intros c' Hc'. rewrite H1. destruct (Hocc c'); set_solver.
      * pose proof (unvisited_mono (visit (hostname c) m) m' Hsub). lia.
      * exists b, m''. split; [done|]. split; [intros; apply Hsub', Hsub; set_solver|].
        rewrite fmap_cons. destruct b; [by eapply found_after_blocked|by eapply blocked_trans].
Qed.

Lemma take_host_spec pending fuel : rec_ok fuel (take_host profiles ordered pending fuel).
Proof.
  induction fuel as [|fuel IH]; intros p m Hv Ho Hf; [lia|]. cbn [take_host].
  destruct (List.find (free_host m) (usable profiles ordered pending p)) as [c|] eqn:Hfind.
  - apply find_some in Hfind as [Hc Hfree]. apply list_elem_of_In, elem_of_usable in Hc as [Hc Hcl].
    unfold free_host, is_assigned, dmem, is_some in Hfree. bool_to_prop.
    assert (hostname c ∉ dkeys (assigned m)) as Hn.
    { apply dget_None_keys. by destruct (dget (hostname c) (assigned m)). }
    assert (compat p (hostname c)) as Hcomp by (by exists c).
    exists true, (assign (hostname c) p m). split; [done|]. split; [done|].
    unfold assign. split_and!; cbn [assigned visited].
    + by apply valid_dset.
    + intros P. by apply countP_dset_new.
    + exists (hostname c). split; [by eapply compat_hosts|]. by rewrite dkeys_dset, decide_False.
    + intros h Hh. apply dget_dset_ne. intros ->. apply bool_decide_eq_false in H0. done.
  - assert (forall c, c ∈ usable profiles ordered pending p ->
      hostname c ∈ visited m \/ hostname c ∈ dkeys (assigned m)) as Hocc.
    { intros c Hc%list_elem_of_In. pose proof (find_none _ _ Hfind c Hc) as Hff.
      unfold free_host, is_assigned, dmem, is_some, is_visited in Hff. bool_to_prop.
      destruct Hff as [Hff|Hff]; bool_to_prop; [right|by left].
      apply elem_of_dkeys. destruct (dget (hostname c) (assigned m)); [eauto|done]. }
    destruct (displace_spec fuel (take_host profiles ordered pending fuel) p
                (usable profiles ordered pending p) m) as (b & m' & He & Hsub & Hpost); try done.
    + intros c [Hc Hcl]%elem_of_usable. by exists c.
    + lia.
    + exists b, m'. split; [done|]. split; [done|]. destruct b; [done|].
      destruct Hpost as (H1 & H2 & H3). split_and!; [done| |done].
      intros h (c & Hc & <- & Hcl)%elem_of_compat_hosts. apply H2, list_elem_of_fmap.
      exists c. split; [done|]. by apply elem_of_usable.
Qed.

(** A whole search, as [serve_profile] starts it, never runs out of fuel. *)
Lemma take_host_top pending p asg : valid asg -> Own p ->
  exists b m', take_host profiles ordered pending (take_fuel ordered) p
                 {| assigned := asg; visited := [] |} = Ok (b, m') /\
    search_post (compat_hosts_of p) p {| assigned := asg; visited := [] |} b m'.
Proof.
  intros Hv Ho. apply take_host_spec; [done|done|]. unfold unvisited, take_fuel.
  apply Nat.lt_succ_r. etrans; [apply filter_length_le|]. unfold hosts. by rewrite length_fmap.
Qed.

(** ** Closed sets of profiles

    The hosts that the profiles [P] can run on are all theirs already. *)
Definition tight (P : string -> bool) (asg : list (string * PlannedProfile)) : Prop :=
  forall q, Own q -> P (profile_id q) = true -> forall h, compat q h -> h ∈ hosts_of P asg.

Lemma hosts_of_bounded P asg asg' : valid asg' -> tight P asg ->
  forall h, h ∈ hosts_of P asg' -> h ∈ hosts_of P asg.
Proof.
  intros [Hwf Hv] Ht h. rewrite elem_of_hosts_of by done. intros (q & Hq & HP).
  apply Hv in Hq as [Hc Ho]. by eapply Ht.
Qed.

Lemma countP_bounded P asg asg' : valid asg' -> tight P asg -> (countP P asg' <= countP P asg)%nat.
Proof.
  intros Hv Ht. rewrite <- !length_hosts_of. apply submseteq_length, NoDup_submseteq.
  - apply NoDup_hosts_of, Hv.
  - by apply hosts_of_bounded.
Qed.

(** A later success neither serves a closed set nor takes hosts from it. *)
Lemma tight_found P p m m' : valid (assigned m) -> tight P (assigned m) -> found p m m' ->
  P (profile_id p) = false /\ tight P (assigned m').
Proof.
  intros Hv Ht (Hv' & Hc & _ & _). pose proof (countP_bounded P _ _ Hv' Ht) as Hb.
  rewrite Hc in Hb. destruct (P (profile_id p)) eqn:HP; cbn [b2n] in Hb; [lia|]. split; [done|].
  intros q Ho Hq h Hcq. specialize (Ht q Ho Hq h Hcq) as Hh.
  assert (hosts_of P (assigned m') ≡ₚ hosts_of P (assigned m)) as Hp.
  { apply submseteq_length_Permutation.
    - apply NoDup_submseteq; [apply NoDup_hosts_of, Hv'|by apply hosts_of_bounded].
    - rewrite !length_hosts_of, Hc, HP. cbn [b2n]. lia. }
  by rewrite Hp.
Qed.

Lemma tight_orb P Q asg : dwf asg -> tight P asg -> tight Q asg -> tight (fun k => P k || Q k) asg.
Proof.
  intros Hwf HP HQ q Ho Hq h Hc. rewrite elem_of_hosts_of by done.
  apply orb_true_iff in Hq as [Hq|Hq]; [specialize (HP q Ho Hq h Hc)|specialize (HQ q Ho Hq h Hc)].
  - rewrite elem_of_hosts_of in HP by done. destruct HP as (r & Hr & Hr').
    exists r. split; [done|]. by rewrite Hr'.
  - rewrite elem_of_hosts_of in HQ by done. destruct HQ as (r & Hr & Hr').
    exists r. split; [done|]. rewrite Hr'. by apply orb_true_r.
Qed.

(** A failed search leaves a closed set that contains the profile. *)
Lemma blocked_tight p asg m' :
  (forall q r, Own q -> Own r -> profile_id q = profile_id r -> q = r) ->
  valid asg -> Own p ->
  blocked (compat_hosts_of p) {| assigned := asg; visited := [] |} m' ->
  exists P, P (profile_id p) = true /\ tight P asg.
Proof.
  intros Hinj [Hwf Hv] Ho (H1 & H2 & H3). cbn [assigned visited] in *.
  set (owners := omap (fun h => profile_id <$> dget h asg) (visited m')).
  exists (fun k => bool_decide (k = profile_id p \/ k ∈ owners)).
  split; [apply bool_decide_eq_true; by left|].
  assert (forall q, Own q -> profile_id q = profile_id p \/ profile_id q ∈ owners ->
    forall h, compat q h -> h ∈ visited m') as Hcl.
  { intros q Hq [Heq|Hin] h Hc.
    - rewrite (Hinj q p Hq Ho Heq) in Hc. apply H2. by apply elem_of_compat_hosts.
    - apply list_elem_of_omap in Hin as (h0 & Hh0 & Hid).
      destruct (H3 h0 Hh0) as (r & Hr & Hr'); [set_solver|]. rewrite Hr in Hid. cbn in Hid. simplify_eq.
      apply Hr'. rewrite (Hinj r q); [done|by eapply Hv|done|done]. }
  intros q Hq HP h Hc. apply bool_decide_eq_true in HP. specialize (Hcl q Hq HP h Hc) as Hh.
  apply elem_of_hosts_of; [done|]. destruct (H3 h Hh) as (r & Hr & _); [set_solver|].
  exists r. split; [done|]. apply bool_decide_eq_true. right.
  apply list_elem_of_omap. exists h. by rewrite Hr.
Qed.
End take_facts.

(** ** Serving the catalog *)

Section serve_facts.
Context (profiles : list PlannedProfile) (ordered : list Candidate) (grants : list (string * Z)).
Context (Hids : NoDup (ids profiles)).

Definition granted (q : PlannedProfile) : Prop := q ∈ profiles /\ 0 < zget grants (profile_id q).
Notation valid := (valid ordered granted).
Notation tight := (tight ordered granted).
Notation asgs := (list (string * PlannedProfile)).

Lemma ids_inj (l : list PlannedProfile) p q :
  NoDup (ids l) -> p ∈ l -> q ∈ l -> profile_id p = profile_id q -> p = q.
Proof.
  intros Hnd Hp Hq Heq. apply list_elem_of_lookup in Hp as [i Hi], Hq as [j Hj].
  assert (i = j) as ->; [|congruence].
  eapply NoDup_lookup; [exact Hnd| |]; unfold ids; rewrite list_lookup_fmap;
    [by rewrite Hi|rewrite Hj; cbn; by rewrite Heq].
Qed.

Lemma granted_inj q r : granted q -> granted r -> profile_id q = profile_id r -> q = r.
Proof. intros [Hq _] [Hr _]. by eapply ids_inj. Qed.

(** The profiles of [P] are still closed, and [P'] extends [P]. *)
Definition extends (P P' : string -> bool) : Prop := forall k, P k = true -> P' k = true.

Lemma serve_profile_spec rounds p pending (asg : asgs) P :
  ((0 < rounds)%nat -> granted p) -> valid asg -> tight P asg ->
  exists pending' asg' P',
    serve_profile profiles ordered rounds p (pending, asg) = Ok (pending', asg') /\
    valid asg' /\ tight P' asg' /\ extends P P' /\
    (forall k, k <> profile_id p -> zget pending' k = zget pending k /\ count k asg' = count k asg) /\
    (count (profile_id p) asg' <= count (profile_id p) asg + rounds)%nat /\
    (count (profile_id p) asg' = count (profile_id p) asg + rounds \/ P' (profile_id p) = true)%nat.
Proof.
  revert pending asg P. induction rounds as [|n IH]; intros pending asg P Hg Hv Ht.
  { exists pending, asg, P. rewrite Nat.add_0_r. split_and!; try done; [by intros k|by left]. }
  specialize (Hg ltac:(lia)). cbn [serve_profile]. set (pending1 := dset _ _ pending).
  assert (forall k, k <> profile_id p -> zget pending1 k = zget pending k) as Hp1.
  { intros k Hk. unfold pending1. by rewrite zget_dset, decide_False. }
  destruct (take_host_top profiles ordered granted pending1 p asg Hv Hg) as (b & m' & -> & _ & Hpost).
  cbn [rbind]. destruct b.
  - destruct (tight_found ordered granted P p {| assigned := asg; visited := [] |} m' Hv Ht Hpost) as [HP Ht'].
    destruct Hpost as (Hv' & Hc & _). cbn [assigned] in Hc.
    destruct (IH pending1 (assigned m') P) as (pd & asg' & P' & He & H1 & H2 & H3 & H4 & H5 & H6);
      [done|done|done|].
    exists pd, asg', P'. unfold count in *.
    assert (countP (is_id (profile_id p)) (assigned m') = S (countP (is_id (profile_id p)) asg)) as Hcp.
    { rewrite Hc, is_id_true. cbn. lia. }
    split_and!; try done.
    + intros k Hk. destruct (H4 k Hk) as [-> ->]. split; [by apply Hp1|].
      rewrite Hc, is_id_false by done. cbn. lia.
    + lia.
    + destruct H6; [left; lia|by right].
  - destruct (blocked_tight ordered granted p asg m' granted_inj Hv Hg Hpost) as (Q & HQ & HtQ).
    destruct Hpost as (Heq & _ & _). cbn [assigned] in Heq.
    exists pending1, (assigned m'), (fun k => P k || Q k). rewrite Heq. split_and!; try done.
    + apply tight_orb; [apply Hv|done|done].
    + intros k Hk. by rewrite Hk.
    + intros k Hk. split; [by apply Hp1|done].
    + lia.
    + right. rewrite HQ. by apply orb_true_r.
Qed.

Definition grant_of (p : PlannedProfile) : nat := Z.to_nat (zget grants (profile_id p)).

(** A profile has all its hosts, or it belongs to a closed set. *)
Definition settled (P : string -> bool) (asg : asgs) (p : PlannedProfile) : Prop :=
  (count (profile_id p) asg <= grant_of p)%nat /\
  (count (profile_id p) asg = grant_of p \/ P (profile_id p) = true).

Lemma serve_all_spec served todo pending (asg : asgs) P :
  profiles = served ++ todo -> valid asg -> tight P asg ->
  (forall p, p ∈ served -> settled P asg p) ->
  (forall p, p ∈ todo -> count (profile_id p) asg = 0%nat /\
                         zget pending (profile_id p) = zget grants (profile_id p)) ->
  exists pending' asg' P',
    serve_all profiles ordered todo (pending, asg) = Ok (pending', asg') /\
    valid asg' /\ tight P' asg' /\ forall p, p ∈ profiles -> settled P' asg' p.
Proof.
  revert served pending asg P. induction todo as [|p todo IH]; intros served pending asg P Hps Hv Ht Hd Htd.
  { exists pending, asg, P. split_and!; try done. intros p Hp. apply Hd. rewrite Hps, app_nil_r in Hp. done. }
  assert (p ∈ profiles) as Hp by (rewrite Hps; set_solver).
  destruct (Htd p) as [Hc0 Hg0]; [set_solver|]. cbn [serve_all fst]. rewrite Hg0.
  assert (profile_id p ∉ ids todo /\ profile_id p ∉ ids served) as [Hnt Hnd].
  { rewrite Hps in Hids. unfold ids in *. rewrite fmap_app, fmap_cons in Hids.
    apply NoDup_app in Hids as (_ & Hn & [? _]%NoDup_cons). split; [done|]. intros Hin.
    apply (Hn _ Hin). set_solver. }
  destruct (serve_profile_spec (grant_of p) p pending asg P) as (pd & asg' & P' & He & H1 & H2 & H3 & H4 & H5 & H6);
    [intros; split; [done|unfold grant_of in *; lia]|done|done|].
  fold (grant_of p). rewrite He. cbn [rbind].
  apply (IH (served ++ [p]) pd asg' P'); [by rewrite <- app_assoc|done|done| |].
  - intros q [Hq|Hq%list_elem_of_singleton]%elem_of_app; unfold settled; [|subst q].
    + destruct (Hd q Hq) as [D1 D2].
      destruct (H4 (profile_id q)) as [_ ->]; [intros Heq; apply Hnd; rewrite <- Heq; by apply elem_of_ids|].
      split; [done|]. destruct D2; [by left|right; by apply H3].
    + rewrite Hc0 in H5, H6. split; [lia|]. destruct H6; [left; lia|by right].
  - intros q Hq. destruct (H4 (profile_id q)) as [-> ->].
    { intros Heq. apply Hnt. rewrite <- Heq. by apply elem_of_ids. }
    apply Htd. set_solver.
Qed.

(** The whole service: it returns, and no other valid placement within the
    grants has more hosts. *)
Lemma serve_all_max :
  exists pending' asg,
    serve_all profiles ordered profiles (grants, []) = Ok (pending', asg) /\ valid asg /\
    (forall p, p ∈ profiles -> (count (profile_id p) asg <= grant_of p)%nat) /\
    (forall other, valid other ->
       (forall p, p ∈ profiles -> (count (profile_id p) other <= grant_of p)%nat) ->
       (length other <= length asg)%nat).
Proof.
  destruct (serve_all_spec [] profiles grants [] (fun _ => false)) as (pd & asg & P & He & Hv & Ht & Hs).
  - done.
  - split; [apply dwf_nil|done].
  - by intros q _ ?.
  - by intros p ?%not_elem_of_nil.
  - done.
  - exists pd, asg. split_and!; [done|done|intros; by apply Hs|].
    intros other Hvo Hco. rewrite (countP_split P asg), (countP_split P other).
    pose proof (countP_bounded ordered granted P asg other Hvo Ht) as Hb.
    assert (forall a, valid a -> forall hp, hp ∈ a -> snd hp ∈ profiles) as Hown.
    { intros a [Hwf Ha] [h q] Hin. apply (dwf_in_dget h q a Hwf) in Hin.
      by apply Ha in Hin as [_ [? _]]. }
    assert (forall l, (forall p, p ∈ l -> p ∈ profiles) ->
      (sum_list_with (fun p => b2n (negb (P (profile_id p))) * count (profile_id p) other) l <=
       sum_list_with (fun p => b2n (negb (P (profile_id p))) * count (profile_id p) asg) l)%nat) as Hsum.
    { induction l as [|p l IH]; intros Hl; [done|]. cbn [sum_list_with].
      specialize (IH ltac:(set_solver)). destruct (Hs p) as [_ Hp]; [set_solver|].
      specialize (Hco p ltac:(set_solver)). destruct (P (profile_id p)); cbn [negb b2n]; [lia|].
      destruct Hp as [Hp|]; [lia|done]. }
    specialize (Hsum profiles ltac:(done)).
    rewrite (countP_sum (fun k => negb (P k)) other profiles Hids) by by apply Hown.
    rewrite (countP_sum (fun k => negb (P k)) asg profiles Hids) by by apply Hown.
    lia.
Qed.
End serve_facts.

(** ** Grants *)

Section grant_facts.
Context (order deficits : list (string * Z)) (placeable : list string).

Lemma min_key_in grants best l : min_key order deficits grants best l ∈ best :: l.
Proof.
  revert best. induction l as [|k l IH]; intros best; cbn [min_key]; [set_solver|].
  specialize (IH (if grant_lt order deficits grants k best then k else best)). case_match; set_solver.
Qed.

(** Grants never exceed the deficits, go to placeable profiles only, and stop
    only when the hosts or the open deficits run out. *)
Lemma grant_loop_spec n grants :
  (forall k, 0 <= zget grants k) ->
  (forall k, k ∈ placeable -> zget grants k <= Z.max 0 (zget deficits k)) ->
  (forall k, k ∉ placeable -> zget grants k = 0) ->
  let grants' := grant_loop order deficits placeable n grants in
  (forall k, 0 <= zget grants' k) /\
  (forall k, k ∈ placeable -> zget grants' k <= Z.max 0 (zget deficits k)) /\
  (forall k, k ∉ placeable -> zget grants' k = 0).
Proof.
  revert grants. induction n as [|n IH]; intros grants H0 H1 H2; [done|]. cbn [grant_loop].
  destruct (List.filter _ placeable) as [|k l] eqn:Hf; [done|].
  set (c := min_key order deficits grants k l).
  assert (c ∈ placeable /\ 0 < gap deficits grants c) as [Hc Hgap].
  { pose proof (min_key_in grants k l) as Hin. rewrite <- Hf in Hin. fold c in Hin.
    apply elem_of_filter_bool in Hin as [? ?%Z.ltb_lt]. done. }
  unfold gap in Hgap. apply IH.
  - intros k'. rewrite zget_dset. case_decide; [|done]. specialize (H0 c). lia.
  - intros k' Hk'. rewrite zget_dset. case_decide; [subst; lia|auto].
  - intros k' Hk'. rewrite zget_dset. case_decide; [subst; done|auto].
Qed.
End grant_facts.

Lemma zget_fmap_zero (d : list (string * Z)) k : zget ((fun kv => (fst kv, 0)) <$> d) k = 0.
Proof.
  unfold zget. induction d as [|[k' v] d IH]; [done|]. cbn. case_decide; [done|exact IH].
Qed.

Lemma zget_deficits tg held k : k ∈ dkeys tg ->
  zget (deficits_of tg held) k = Z.max 0 (zget tg k - zget held k).
Proof.
  unfold zget at 1 2, deficits_of. induction tg as [|[k' v] tg IH]; [by intros ?%not_elem_of_nil|].
  cbn [fmap list_fmap dget fst snd]. intros Hk. destruct (decide (k = k')) as [->|Hne]; [done|].
  apply IH. cbn in Hk. set_solver.
Qed.

Lemma placeable_keys ps k : k ∈ dkeys (placeable_of ps) <->
  exists p, p ∈ ps /\ placeable p = true /\ profile_id p = k.
Proof.
  unfold placeable_of.
  assert (forall l d, k ∈ dkeys (fold_left (fun d p => dset (profile_id p) p d) l d) <->
    k ∈ dkeys d \/ exists p, p ∈ l /\ profile_id p = k) as H.
  { induction l as [|p l IH]; intros d; cbn [fold_left].
    { split; [by left|]. intros [?|(p & ?%not_elem_of_nil & _)]; done. }
    rewrite IH, dkeys_dset. case_decide; set_solver. }
  rewrite H. setoid_rewrite elem_of_filter_bool. cbn. set_solver.
Qed.

(** Each host is offered with one GPU class. *)
Definition consistent (candidates : list Candidate) : Prop :=
  forall a b, a ∈ candidates -> b ∈ candidates -> hostname a = hostname b -> a = b.

Section plan_facts.
Context (ps : list PlannedProfile) (held : list (string * Z)) (candidates : list Candidate).
Context (Hids : NoDup (ids ps)).
Notation grants := (grants_of ps held candidates).
Notation ordered := (ordered_of candidates).
Notation targets := (targets_of ps held candidates).

Lemma elem_of_ordered c : c ∈ ordered <-> c ∈ candidates.
Proof. unfold ordered_of. by rewrite sort_by_perm, elem_of_remove_dups. Qed.

Lemma NoDup_ordered : NoDup ordered.
Proof. unfold ordered_of. rewrite sort_by_perm. apply NoDup_remove_dups. Qed.

Lemma targets_keys : dkeys targets = ids ps.
Proof.
  assert (forall n, dkeys (apportion n ps) = ids ps) as H; [|apply H]. intros n.
  destruct (decide (n <= 0 \/ weighted_of ps = [])) as [H0|Hn].
  { rewrite apportion_zero by done. by apply dict_of_over. }
  assert (0 < n /\ weighted_of ps <> []) as [Ht Hne] by (split; [lia|tauto]).
  destruct (Z.lt_ge_cases n (Z.of_nat (length (weighted_of ps)))) as [Hlt|Hge].
  - apply (apportion_small n ps Hids Ht Hlt).
  - rewrite apportion_large by done.
    destruct (largest_remainder_spec ps Hids n Ht Hne) as [Hok _].
    by destruct (give_one_loop ps Hids n Ht Hne (weighted_of ps) _ ltac:(done) Hge Hok) as (((_ & ?) & _) & _).
Qed.

(** The hosts a profile is still owed. *)
Definition owed (p : PlannedProfile) : Z :=
  Z.max 0 (zget targets (profile_id p) - Z.max 0 (zget held (profile_id p))).

Lemma grants_spec p : p ∈ ps ->
  0 <= zget grants (profile_id p) <= owed p /\
  (0 < zget grants (profile_id p) -> placeable p = true).
Proof.
  intros Hp. unfold grants_of.
  destruct (grant_loop_spec (order_of ps) (deficits_of targets (held_counts_of ps held))
    (dkeys (placeable_of ps)) (length ordered) ((fun kv => (fst kv, 0)) <$> targets)) as (H0 & H1 & H2).
  - intros k. by rewrite zget_fmap_zero.
  - intros k _. rewrite zget_fmap_zero. lia.
  - intros k _. apply zget_fmap_zero.
  - set (g := grant_loop _ _ _ _ _) in *. destruct (decide (profile_id p ∈ dkeys (placeable_of ps))) as [Hin|Hn].
    + specialize (H1 _ Hin). rewrite zget_deficits in H1; [|rewrite targets_keys; by apply elem_of_ids].
      unfold held_counts_of in H1. rewrite zget_dict_of in H1 by done. fold (owed p) in H1.
      split; [specialize (H0 (profile_id p)); unfold owed in *; lia|].
      intros _. apply placeable_keys in Hin as (q & Hq & Hpl & Heq).
      by rewrite <- (ids_inj ps q p Hids Hq Hp Heq).
    + rewrite (H2 _ Hn). unfold owed. split; [lia|lia].
Qed.

Lemma two_classes :
  Nat.eqb (length (remove_dups (hostname <$> ordered))) (length ordered) = true <->
  consistent candidates.
Proof.
  rewrite Nat.eqb_eq. split.
  - intros Hlen a b Ha%elem_of_ordered Hb%elem_of_ordered Heq.
    assert (NoDup (hostname <$> ordered)) as Hnd.
    { assert (remove_dups (hostname <$> ordered) ≡ₚ hostname <$> ordered) as <-; [|apply NoDup_remove_dups].
      apply submseteq_length_Permutation; [|by rewrite length_fmap, Hlen].
      apply NoDup_submseteq; [apply NoDup_remove_dups|]. intros h. by rewrite elem_of_remove_dups. }
    apply list_elem_of_lookup in Ha as [i Hi], Hb as [j Hj]. assert (i = j) as ->; [|congruence].
    eapply NoDup_lookup; [exact Hnd| |]; rewrite list_lookup_fmap; [by rewrite Hi|rewrite Hj; cbn; by rewrite Heq].
  - intros Hinj. rewrite <- (length_fmap hostname ordered). apply Permutation_length.
    apply NoDup_Permutation; [apply NoDup_remove_dups| |intros h; by rewrite elem_of_remove_dups].
    apply NoDup_fmap_2_strong; [|apply NoDup_ordered].
    intros a b Ha%elem_of_ordered Hb%elem_of_ordered. auto.
Qed.

(** The assignments of a plan as the search left them. *)
Definition plan_of (asg : list (string * PlannedProfile)) : list Assignment :=
  sort_by (assignment_le (order_of ps))
    ((fun hp => {| as_hostname := fst hp; as_profile_id := profile_id (snd hp) |}) <$> asg).

Definition given (k : string) (l : list Assignment) : nat :=
  length (List.filter (fun a => bool_decide (as_profile_id a = k)) l).

Lemma given_plan_of k asg : given k (plan_of asg) = count k asg.
Proof.
  unfold given, plan_of. rewrite (Permutation_length (list_filter_perm _ _ _ (sort_by_perm _ _))).
  induction asg as [|[h q] asg IH]; [done|]. unfold count in *. rewrite countP_cons, <- IH.
  rewrite fmap_cons. cbn [List.filter as_profile_id snd]. unfold is_id. by case_match.
Qed.

Lemma zget_filter_pos d k : dwf d -> 0 <= zget d k ->
  zget (List.filter (fun kv => 0 <? snd kv) d) k = zget d k.
Proof.
  unfold zget. induction d as [|[k' v] d IH]; intros Hwf Hpos; [done|].
  apply NoDup_cons in Hwf as [Hk Hwf]. cbn [List.filter dget snd] in *.
  destruct (decide (k = k')) as [->|Hne].
  - destruct (0 <? v) eqn:Hv; cbn [dget]; [by rewrite decide_True|].
    apply Z.ltb_ge in Hv. cbn in Hpos. assert (dget k' (List.filter (fun kv => 0 <? kv.2) d) = None) as ->.
    { apply dget_None_keys. intros Hin. apply Hk. unfold dkeys in *. apply list_elem_of_fmap in Hin as (x & Heq & Hx).
      apply elem_of_filter_bool in Hx as [Hx _]. cbn. rewrite Heq. apply list_elem_of_fmap. eauto. }
    cbn. lia.
  - destruct (0 <? v); cbn [dget]; [rewrite decide_False by done|]; by apply IH.
Qed.

Lemma unfilled_fold l d :
  (forall a, a ∈ l -> as_profile_id a ∈ dkeys d) -> dwf d ->
  let d' := fold_left (fun d a => dset (as_profile_id a) (zget d (as_profile_id a) - 1) d) l d in
  dwf d' /\ forall k, zget d' k = zget d k - Z.of_nat (given k l).
Proof.
  revert d. induction l as [|a l IH]; intros d Hl Hwf; cbn [fold_left].
  { split; [done|]. intros k. unfold given. cbn. lia. }
  destruct (IH (dset (as_profile_id a) (zget d (as_profile_id a) - 1) d)) as [H1 H2].
  - intros b Hb. rewrite dkeys_dset, decide_True by (apply Hl; set_solver). apply Hl. set_solver.
  - by apply dwf_dset.
  - split; [done|]. intros k. rewrite H2, zget_dset. unfold given. cbn [List.filter].
    case_bool_decide; case_decide; cbn [length]; subst; try done; lia.
Qed.

(** What the function returns once the hosts are consistent. *)
Lemma plan_shape :
  consistent candidates ->
  exists asg plan,
    plan_placements ps held candidates = Ok plan /\
    Planner.targets plan = targets /\ assignments plan = plan_of asg /\
    valid ordered (granted ps grants) asg /\
    (forall p, p ∈ ps -> (count (profile_id p) asg <= grant_of grants p)%nat) /\
    (forall p, p ∈ ps -> zget (unfilled plan) (profile_id p) = owed p - Z.of_nat (count (profile_id p) asg)) /\
    (forall other, valid ordered (granted ps grants) other ->
       (forall p, p ∈ ps -> (count (profile_id p) other <= grant_of grants p)%nat) ->
       (length other <= length asg)%nat).
Proof.
  intros Hinj. apply two_classes in Hinj.
  destruct (serve_all_max ps ordered grants Hids) as (pd & asg & He & Hv & Hc & Hmax).
  unfold plan_placements. rewrite Hinj. cbn [negb raise_if rbind]. rewrite He. cbn [rbind].
  eexists asg, _. split; [reflexivity|]. cbn [Planner.targets assignments unfilled].
  fold (plan_of asg). split_and!; [done|done|done|done| |done].
  intros p Hp. set (df := deficits_of _ _).
  assert (dkeys df = ids ps) as Hdk.
  { unfold df, deficits_of, dkeys. rewrite <- list_fmap_compose. cbn. rewrite <- targets_keys. done. }
  destruct (unfilled_fold (plan_of asg) df) as [Hwf Hz].
  - intros a Ha. rewrite Hdk. unfold plan_of in Ha. rewrite sort_by_perm in Ha.
    apply list_elem_of_fmap in Ha as ([h q] & -> & Hin). cbn. destruct Hv as [Hwf Hv].
    apply (dwf_in_dget _ _ _ Hwf) in Hin. apply Hv in Hin as [_ [Hq _]]. by apply elem_of_ids.
  - unfold dwf. by rewrite Hdk.
  - assert (zget df (profile_id p) = owed p) as Ho.
    { unfold df. rewrite zget_deficits; [|rewrite targets_keys; by apply elem_of_ids].
      unfold held_counts_of. by rewrite zget_dict_of. }
    rewrite zget_filter_pos; [by rewrite Hz, given_plan_of, Ho|done|].
    rewrite Hz, given_plan_of, Ho. specialize (Hc p Hp). destruct (grants_spec p Hp) as [Hg _].
    unfold grant_of in Hc. lia.
Qed.
End plan_facts.

Lemma plan_consistent ps held candidates plan :
  plan_placements ps held candidates = Ok plan -> consistent candidates.
Proof.
  intros Hplan. unfold plan_placements in Hplan. destruct (Nat.eqb _ _) eqn:He; [|done].
  by apply two_classes in He.
Qed.

(** For a catalog without duplicate ids, [plan_placements] returns a plan
    exactly when no host is offered with two GPU classes, and otherwise raises
    the documented [ValueError]: the recursive search neither looks up a host
    that is not assigned nor recurses without bound. *)
Theorem plan_placements_total ps held candidates : NoDup (ids ps) ->
  (consistent candidates -> exists plan, plan_placements ps held candidates = Ok plan) /\
  (~ consistent candidates -> plan_placements ps held candidates = Err ValueError).
Proof.
  intros Hids. split.
  - intros Hc. destruct (plan_shape ps held candidates Hids Hc) as (asg & plan & He & _). eauto.
  - intros Hn. unfold plan_placements.
    destruct (Nat.eqb _ _) eqn:He; [|done]. exfalso. apply Hn. by apply two_classes.
Qed.

(** Every assignment of a plan gives a distinct offered host to a placeable
    profile of the catalog that accepts the host's GPU class; a profile never
    gets more hosts than its target leaves above what it already holds, and
    [unfilled] is exactly what it is still owed. *)
Theorem plan_placements_sound ps held candidates plan : NoDup (ids ps) ->
  plan_placements ps held candidates = Ok plan ->
  NoDup (as_hostname <$> assignments plan) /\
  (forall a, a ∈ assignments plan -> exists c p,
     c ∈ candidates /\ p ∈ ps /\ hostname c = as_hostname a /\ profile_id p = as_profile_id a /\
     gpu_class c ∈ gpu_classes p /\ placeable p = true) /\
  (forall p, p ∈ ps ->
     let new := Z.of_nat (given (profile_id p) (assignments plan)) in
     let owes := Z.max 0 (zget (targets plan) (profile_id p) - Z.max 0 (zget held (profile_id p))) in
     new <= owes /\ zget (unfilled plan) (profile_id p) = owes - new).
Proof.
  intros Hids Hplan.
  pose proof (plan_consistent ps held candidates plan Hplan) as Hc.
  destruct (plan_shape ps held candidates Hids Hc) as (asg & plan' & He & Ht & Ha & [Hwf Hv] & Hg & Hu & _).
  rewrite Hplan in He. injection He as Hpl. subst plan'. rewrite Ha. split_and!.
  - unfold plan_of. rewrite sort_by_perm, <- list_fmap_compose. exact Hwf.
  - intros a. unfold plan_of. rewrite sort_by_perm. intros ([h q] & -> & Hin)%list_elem_of_fmap.
    apply (dwf_in_dget _ _ _ Hwf) in Hin. apply Hv in Hin as [(c & Hco & Hh & Hcl) [Hq Hpos]].
    exists c, q. apply (proj1 (elem_of_ordered _ _)) in Hco. split_and!; try done.
    by apply (grants_spec ps held candidates Hids q Hq).
  - intros p Hp. cbn zeta. rewrite given_plan_of, Ht. fold (owed ps held candidates p).
    split; [|by apply Hu]. specialize (Hg p Hp). unfold grant_of in Hg.
    destruct (grants_spec ps held candidates Hids p Hp) as [Hb _]. lia.
Qed.

(** C4: the plan serves as many grants as any assignment could: an assignment
    of distinct offered hosts to profiles that accept them, within the same
    per-profile grants, is never larger. *)
Theorem plan_placements_maximum ps held candidates plan (other : list (string * PlannedProfile)) :
  NoDup (ids ps) -> plan_placements ps held candidates = Ok plan ->
  NoDup (fst <$> other) ->
  (forall h p, (h, p) ∈ other -> p ∈ ps /\
     exists c, c ∈ candidates /\ hostname c = h /\ gpu_class c ∈ gpu_classes p) ->
  (forall p, p ∈ ps ->
     Z.of_nat (count (profile_id p) other) <= zget (grants_of ps held candidates) (profile_id p)) ->
  (length other <= length (assignments plan))%nat.
Proof.
  intros Hids Hplan Hnd Hok Hcount.
  pose proof (plan_consistent ps held candidates plan Hplan) as Hc.
  destruct (plan_shape ps held candidates Hids Hc) as (asg & plan' & He & _ & Ha & _ & _ & _ & Hmax).
  rewrite Hplan in He. injection He as Hpl. subst plan'. rewrite Ha. unfold plan_of.
  rewrite (Permutation_length (sort_by_perm _ _)), length_fmap. apply Hmax.
  - split; [done|]. intros h q Hq%dget_Some_in. destruct (Hok h q Hq) as (Hps & c & H1 & H2 & H3).
    split; [exists c; split_and!; [by apply elem_of_ordered|done|done]|]. split; [done|].
    specialize (Hcount q Hps). assert (1 <= count (profile_id q) other)%nat; [|lia].
    unfold count, countP, part. clear -Hq. induction other as [|[h' r] l IH]; [by apply not_elem_of_nil in Hq|].
    cbn [List.filter snd]. apply elem_of_cons in Hq as [Heq|Hq].
    + injection Heq as <- <-. rewrite is_id_true. cbn. lia.
    + case_match; cbn [length]; [lia|by apply IH].
  - intros p Hp. specialize (Hcount p Hp). unfold grant_of. lia.
Qed.

(** *** Witnesses *)

(** A flexible profile gives up its host to a constrained one. *)
Definition ex_flexible : PlannedProfile :=
  {| profile_id := "flexible"; weight := 2; gpu_classes := ["a100"; "h100"];
     preferred_gpu_class := Some "h100"; placeable := true |}.
Definition ex_constrained : PlannedProfile :=
  {| profile_id := "constrained"; weight := 1; gpu_classes := ["h100"];
     preferred_gpu_class := None; placeable := true |}.
Definition ex_catalog := [ex_flexible; ex_constrained].
Definition ex_held := [("flexible", 1)].
Definition ex_candidates :=
  [{| hostname := "h2"; gpu_class := "h100" |}; {| hostname := "h1"; gpu_class := "a100" |}].

Lemma ex_catalog_ids : NoDup (ids ex_catalog).
Proof. by apply (bool_decide_unpack _). Qed.

Definition ex_plan : PlacementPlan :=
  {| targets := [("flexible", 2); ("constrained", 1)];
     held_out := [("flexible", 1); ("constrained", 0)];
     assignments := [{| as_hostname := "h1"; as_profile_id := "flexible" |};
                     {| as_hostname := "h2"; as_profile_id := "constrained" |}];
     unfilled := [] |}.

Lemma ex_plan_eq : plan_placements ex_catalog ex_held ex_candidates = Ok ex_plan.
Proof. vm_compute. reflexivity. Qed.

Lemma ex_consistent : consistent ex_candidates.
Proof.
  unfold consistent, ex_candidates. intros a b Ha Hb.
  repeat (apply elem_of_cons in Ha as [->|Ha] || apply elem_of_cons in Hb as [->|Hb]);
    try (by apply not_elem_of_nil in Ha); try (by apply not_elem_of_nil in Hb); done.
Qed.

Lemma plan_placements_total_witness :
  exists plan, plan_placements ex_catalog ex_held ex_candidates = Ok plan.
Proof. apply plan_placements_total; [exact ex_catalog_ids|exact ex_consistent]. Defined.

Lemma plan_placements_sound_witness : NoDup (as_hostname <$> assignments ex_plan).
Proof.
  apply (plan_placements_sound ex_catalog ex_held ex_candidates ex_plan);
    [exact ex_catalog_ids|exact ex_plan_eq].
Defined.

Lemma plan_placements_maximum_witness :
  (length [("h2", ex_flexible)] <= length (assignments ex_plan))%nat.
Proof.
  apply (plan_placements_maximum ex_catalog ex_held ex_candidates ex_plan [("h2", ex_flexible)]).
  - exact ex_catalog_ids.
  - exact ex_plan_eq.
  - apply NoDup_singleton.
  - intros h p Hin. apply list_elem_of_singleton in Hin. injection Hin as -> ->. split.
    + unfold ex_catalog. set_solver.
    + exists {| hostname := "h2"; gpu_class := "h100" |}. unfold ex_candidates. cbn. set_solver.
  - intros p Hp. unfold ex_catalog in Hp. apply elem_of_cons in Hp as [->|Hp%list_elem_of_singleton];
      [|subst p]; vm_compute; congruence.
Defined.
