(* ===== verification/Breaker.v ===== *)
(** * Circuit breakers ([inference_proxy/resilience/circuit_breaker.py])

    Every method holds the breaker's lock for its whole body, so a method is
    one atomic step.  Breakers are heap objects: a caller that got a breaker
    from the registry keeps it after [remove], so the registry maps a node id
    to a handle into the heap of breakers ever created. *)

From S2P Require Import Prelude PyDict.
Local Open Scope Z_scope.

Inductive CircuitBreakerState := CLOSED | OPEN | HALF_OPEN.

#[export] Instance CircuitBreakerState_eq : EqDecision CircuitBreakerState.
Proof. solve_decision. Defined.

Record CircuitBreaker := {
  _threshold : Z;
  _failure_count : Z;
  _state : CircuitBreakerState;
}.

Definition new_breaker (threshold : Z) : CircuitBreaker :=
  {| _threshold := threshold; _failure_count := 0; _state := CLOSED |}.

Definition record_failure (b : CircuitBreaker) : CircuitBreaker :=
  let count := _failure_count b + 1 in
  let should_open := (_threshold b <=? count) || bool_decide (_state b = HALF_OPEN) in
  {| _threshold := _threshold b; _failure_count := count;
     _state := if should_open then OPEN else _state b |}.

Definition record_success (b : CircuitBreaker) : CircuitBreaker :=
  {| _threshold := _threshold b; _failure_count := 0; _state := CLOSED |}.

Definition is_open (b : CircuitBreaker) : bool := negb (bool_decide (_state b = CLOSED)).

Definition state (b : CircuitBreaker) : CircuitBreakerState := _state b.

Definition with_state (s : CircuitBreakerState) (b : CircuitBreaker) : CircuitBreaker :=
  {| _threshold := _threshold b; _failure_count := _failure_count b; _state := s |}.

Definition try_half_open (b : CircuitBreaker) : CircuitBreaker * bool :=
  if negb (bool_decide (_state b = OPEN)) then (b, false) else (with_state HALF_OPEN b, true).

Definition reopen (b : CircuitBreaker) : CircuitBreaker :=
  if bool_decide (_state b = HALF_OPEN) then with_state OPEN b else b.

Definition reset (b : CircuitBreaker) : CircuitBreaker := record_success b.

(** ** The registry of breakers *)

Record CircuitBreakerRegistry := mkBreakers {
  _cb_threshold : Z;
  _breakers : list (string * nat);
  heap : list CircuitBreaker;
}.

Definition empty_breakers (threshold : Z) : CircuitBreakerRegistry := mkBreakers threshold [] [].

Module Breakers.
Implicit Types (r : CircuitBreakerRegistry).

Definition get (r : CircuitBreakerRegistry) (id : string) : option nat := dget id (_breakers r).

(** The object behind a handle, and a method call on it. *)
Definition deref (r : CircuitBreakerRegistry) (h : nat) : option CircuitBreaker := heap r !! h.
Definition update (f : CircuitBreaker -> CircuitBreaker) (h : nat) (r : CircuitBreakerRegistry)
  : CircuitBreakerRegistry :=
  mkBreakers (_cb_threshold r) (_breakers r) (alter f h (heap r)).

Definition get_or_create (id : string) (r : CircuitBreakerRegistry) : CircuitBreakerRegistry * nat :=
  match dget id (_breakers r) with
  | Some h => (r, h)
  | None =>
      let h := length (heap r) in
      (mkBreakers (_cb_threshold r) (dset id h (_breakers r))
         (heap r ++ [new_breaker (_cb_threshold r)]), h)
  end.

Definition reset (id : string) (r : CircuitBreakerRegistry) : CircuitBreakerRegistry :=
  match dget id (_breakers r) with
  | Some h => update Breaker.reset h r
  | None => r
  end.

Definition remove (id : string) (r : CircuitBreakerRegistry) : CircuitBreakerRegistry :=
  mkBreakers (_cb_threshold r) (dpop id (_breakers r)) (heap r).

(** Every registered handle exists, and no two node ids share a breaker. *)
Definition wf (r : CircuitBreakerRegistry) : Prop :=
  dwf (_breakers r) /\
  (forall id h, get r id = Some h -> (h < length (heap r))%nat) /\
  (forall id id' h, get r id = Some h -> get r id' = Some h -> id = id').

Lemma wf_empty t : wf (empty_breakers t).
Proof. split_and!; [apply dwf_nil|done|done]. Qed.

Lemma wf_update f h r : wf r -> wf (update f h r).
Proof.
  intros (H1 & H2 & H3). split_and!; [done| |done]. intros id k Hk. cbn. rewrite length_alter. by eapply H2.
Qed.

Lemma wf_remove id r : wf r -> wf (remove id r).
Proof.
  intros (H1 & H2 & H3). unfold get in *. split_and!; cbn.
  - by apply dwf_dpop.
  - intros k h. unfold get. cbn. rewrite dget_dpop. case_decide; [done|]. apply H2.
  - intros k k' h. unfold get. cbn. rewrite !dget_dpop. repeat case_decide; [done..|]. apply H3.
Qed.

Lemma wf_get_or_create id r : wf r -> wf (fst (get_or_create id r)).
Proof.
  intros (H1 & H2 & H3). unfold get_or_create. destruct (dget id (_breakers r)) as [h|] eqn:Hid.
  { by split_and!. }
  cbn [fst]. unfold get in *. split_and!; cbn.
  - by apply dwf_dset.
  - intros k h. unfold get. cbn. rewrite dget_dset, length_app. cbn. case_decide; [intros [= <-]; lia|].
    intros Hk%H2. lia.
  - intros k k' h. unfold get. cbn. rewrite !dget_dset. repeat case_decide; subst; try done.
    + intros [= <-] Hk%H2. lia.
    + intros Hk%H2 [= <-]. lia.
    + apply H3.
Qed.

(** The breaker of a node after [get_or_create]: the old one, or a fresh one. *)
Lemma get_or_create_spec id r : wf r ->
  let '(r', h) := get_or_create id r in
  get r' id = Some h /\
  deref r' h = Some (default (new_breaker (_cb_threshold r)) (get r id ≫= deref r)) /\
  (forall id', id' <> id -> get r' id' = get r id') /\
  (forall h', (h' < length (heap r))%nat -> deref r' h' = deref r h').
Proof.
  intros (H1 & H2 & H3). unfold get_or_create, get, deref. destruct (dget id (_breakers r)) as [h|] eqn:Hid.
  - split_and!; [done| |done|done]. cbn. specialize (H2 id h Hid).
    destruct (lookup_lt_is_Some_2 (heap r) h H2) as [b ->]. done.
  - cbn. split_and!.
    + by apply dget_dset_eq.
    + by rewrite lookup_app_r, Nat.sub_diag by lia.
    + intros. by apply dget_dset_ne.
    + intros h' Hh'. by rewrite lookup_app_l.
Qed.
End Breakers.

(** ** Behaviour of one breaker *)

Inductive BreakerOp := RecordFailure | RecordSuccess | TryHalfOpen | Reopen | Reset.

Definition breaker_step (b : CircuitBreaker) (o : BreakerOp) : CircuitBreaker :=
  match o with
  | RecordFailure => record_failure b
  | RecordSuccess => record_success b
  | TryHalfOpen => fst (try_half_open b)
  | Reopen => reopen b
  | Reset => reset b
  end.

Definition breaker_run (b : CircuitBreaker) (l : list BreakerOp) : CircuitBreaker :=
  fold_left breaker_step l b.

(** The failures recorded since the last success or reset, given [n] before. *)
Definition tally (n : Z) (o : BreakerOp) : Z :=
  match o with RecordFailure => n + 1 | RecordSuccess | Reset => 0 | TryHalfOpen | Reopen => n end.

Definition consecutive (l : list BreakerOp) : Z := fold_left tally l 0.

(** Recovery probes admitted and not yet answered. *)
Definition admitted (b : CircuitBreaker) : bool := bool_decide (_state b = HALF_OPEN).

Definition breaker_inv (t : Z) (n : Z) (b : CircuitBreaker) : Prop :=
  _threshold b = t /\ _failure_count b = n /\ 0 <= n /\ is_open b = (Z.max 1 t <=? n).

Lemma breaker_step_inv t n b o : breaker_inv t n b -> breaker_inv t (tally n o) (breaker_step b o).
Proof.
  intros Hb. pose proof Hb as (Ht & Hn & H0 & Ho). unfold is_open in Ho. destruct o; cbn [breaker_step tally].
  - unfold record_failure, breaker_inv, is_open. cbn. split_and!; [done|lia|lia|].
    destruct (Z.leb_spec (_threshold b) (_failure_count b + 1)) as [Hle|Hle]; cbn [orb].
    { rewrite bool_decide_false by done. symmetry. apply Z.leb_le. lia. }
    destruct (_state b) eqn:Hs.
    + change (false = (Z.max 1 t <=? n + 1)). symmetry. apply Z.leb_gt. lia.
    + rewrite bool_decide_false in Ho by done. symmetry in Ho. apply Z.leb_le in Ho. lia.
    + rewrite bool_decide_false in Ho by done. symmetry in Ho. apply Z.leb_le in Ho. lia.
  - split_and!; [done|done|lia|]. change (false = (Z.max 1 t <=? 0)). symmetry. apply Z.leb_gt. lia.
  - unfold try_half_open. destruct (bool_decide (_state b = OPEN)) eqn:Hs; [bool_to_prop; cbn [negb fst]|exact Hb].
    split_and!; try done. unfold is_open. cbn. rewrite <- Ho, Hs. done.
  - unfold reopen. destruct (bool_decide (_state b = HALF_OPEN)) eqn:Hs; [bool_to_prop|exact Hb].
    split_and!; try done. unfold is_open. cbn. rewrite <- Ho, Hs. done.
  - split_and!; [done|done|lia|]. change (false = (Z.max 1 t <=? 0)). symmetry. apply Z.leb_gt. lia.
Qed.

Lemma breaker_run_inv t n b l : breaker_inv t n b -> breaker_inv t (fold_left tally l n) (breaker_run b l).
Proof.
  revert n b. induction l as [|o l IH]; intros n b Hb; [done|]. by apply IH, breaker_step_inv.
Qed.

(** A breaker excludes traffic exactly while the failures recorded since
    the last success (or reset) have reached the threshold: recovery probes
    and reopening change neither the count nor the exclusion, and a threshold
    below one behaves as one. *)
Theorem breaker_trips_exactly (t : Z) (l : list BreakerOp) :
  let b := breaker_run (new_breaker t) l in
  _failure_count b = consecutive l /\
  (is_open b = true <-> Z.max 1 t <= consecutive l).
Proof.
  cbn zeta. assert (breaker_inv t 0 (new_breaker t)) as Hinit.
  { split_and!; [done|done|lia|]. change (false = (Z.max 1 t <=? 0)). symmetry. apply Z.leb_gt. lia. }
  destruct (breaker_run_inv t 0 _ l Hinit) as (_ & Hn & _ & Ho). split; [done|].
  unfold consecutive. rewrite Ho. apply Z.leb_le.
Qed.

(** How many of the operations of [l] were an admitted recovery probe. *)
Fixpoint admissions (b : CircuitBreaker) (l : list BreakerOp) : nat :=
  match l with
  | [] => 0
  | o :: l =>
      ((match o with TryHalfOpen => if snd (try_half_open b) then 1 else 0 | _ => 0 end) +
       admissions (breaker_step b o) l)%nat
  end.

(** An operation that answers the outstanding probe. *)
Definition answers (o : BreakerOp) : bool :=
  match o with RecordFailure | RecordSuccess | Reopen | Reset => true | TryHalfOpen => false end.

(** One recovery probe at a time.  However many threads ask, at most one
    more recovery probe is admitted than there were answers (a recorded
    failure, a recorded success, a reset or a reopen), and none at all while a
    probe is outstanding. *)
Theorem half_open_single_probe (b : CircuitBreaker) (l : list BreakerOp) :
  (admissions b l <= length (List.filter answers l) + (if admitted b then 0 else 1))%nat.
Proof.
  revert b. induction l as [|o l IH]; intros b; [cbn; lia|]. cbn [admissions List.filter].
  specialize (IH (breaker_step b o)). destruct o; cbn [answers length breaker_step] in *.
  all: try (destruct (admitted (_ b)) eqn:?, (admitted b); lia).
  unfold try_half_open, admitted in *. destruct (_state b) eqn:Hs; cbn in *; repeat case_bool_decide; cbn in *; try done; try lia; congruence.
Qed.
