(* ===== verification/HealthChecker.v ===== *)
(** * Health checker ([inference_proxy/resilience/health_checker.py])

    One probe cycle over the registry.  The HTTP client, the lease manager and
    the etcd client are arguments; each of their calls may come back with any
    change to the shared state, because other threads (requests, the watcher,
    the provisioner) run while the health thread waits.  [None] is a raised
    exception.  Between two such calls the health thread's own accesses are the
    atomic registry and breaker operations of [Registry] and [Breaker]. *)

From S2P Require Import Prelude PyDict NodeModel Registry Routing Json Breaker.
Local Open Scope Z_scope.

(** [served_model_id(payload)] of [provisioning/provisioner.py]. *)
Definition served_model_id (payload : json) : option string :=
  match payload with
  | JObj d =>
      match dget "data" d with
      | Some (JList (JObj first :: _)) =>
          match dget "id" first with
          | Some (JStr model_id) =>
              let model_id := py_strip model_id in
              if str_truthy model_id then Some model_id else None
          | _ => None
          end
      | _ => None
      end
  | _ => None
  end.

(** ** State *)

(** [_ConsecutiveFailures] *)
Module Failures.
Definition reset (id : string) (c : gmap string Z) : gmap string Z := <[id := 0]> c.
Definition increment (id : string) (c : gmap string Z) : gmap string Z * Z :=
  let count := default 0 (c !! id) + 1 in (<[id := count]> c, count).
Definition remove (id : string) (c : gmap string Z) : gmap string Z := delete id c.
End Failures.

(** What the registry's removal listeners act on. *)
Record Ext := mkExt { cbs : CircuitBreakerRegistry; failures : gmap string Z }.

Definition breaker_listener : RemoveListener Ext :=
  fun id e => (mkExt (Breakers.remove id (cbs e)) (failures e), false).
Definition failures_listener : RemoveListener Ext :=
  fun id e => (mkExt (cbs e) (Failures.remove id (failures e)), false).

(** [X] is the state of etcd and of the lease manager. *)
Record World {X : Type} := mkWorld {
  reg : NodeRegistry Ext;
  ext : Ext;
  trk : gmap string Z;
  oth : X;
}.
Arguments World X : clear implicits.

Record Response := { status_code : Z; body : option json }.

(** What the health checker reads of an etcd record. *)
Record Record_ := { rec_value : blob; rec_mod_revision : Z; rec_lease_id : Z }.

(** The [EtcdClient] methods used here. *)
Record EtcdOps (X : Type) := {
  etcd_prefix : string;
  get_record : string -> World X -> World X * option (option Record_);
  replace_if_revision : string -> blob -> Z -> Z -> World X -> World X * option (option Z);
}.
Arguments etcd_prefix {X}. Arguments get_record {X}. Arguments replace_if_revision {X}.

Definition _RECOVERABLE_STATUSES : list NodeStatus := [UNHEALTHY; UNKNOWN].
Definition _DEMOTABLE_STATUSES : list NodeStatus := [HEALTHY; UNKNOWN].
Definition _OPTIONAL_HEALTH_STATUSES : list Z := [404; 405; 501].

(** The statuses [_handle_probe_success] leaves alone. *)
Definition PROTECTED : list NodeStatus :=
  [AVAILABLE; DRAINING; RELAUNCHING; RELAUNCH_FAILED; PROVISIONING; FAILED].

Inductive Reason :=
| healthy
| models_ok (health_status : Z)
| models_returned (models_status : Z)
| non_200 (health_status : Z)
| probe_exception.

Section checker.
Context {X : Type}.
Implicit Types (w : World X).

Definition with_reg (r : NodeRegistry Ext) w : World X := mkWorld X r (ext w) (trk w) (oth w).
Definition with_cbs (c : CircuitBreakerRegistry) w : World X :=
  mkWorld X (reg w) (mkExt c (failures (ext w))) (trk w) (oth w).
Definition with_failures (f : gmap string Z) w : World X :=
  mkWorld X (reg w) (mkExt (cbs (ext w)) f) (trk w) (oth w).

(** [client.get(build_backend_url(endpoint, path))] and the recovery [post]. *)
Context (client_get : string -> string -> World X -> World X * option Response).
Context (client_post : string -> string -> World X -> World X * option Response).
Context (etcd : option (EtcdOps X)).
Context (maintain_after_success : option (Node -> World X -> World X)).
Context (failure_threshold : Z).

Definition _probe_liveness (ep : string) (selfsetup : bool) w
  : World X * option (bool * Reason * option string) :=
  let '(w, response) := client_get ep "/health" w in
  match response with
  | None => (w, None)
  | Some response =>
      if status_code response =? 200 then (w, Some (true, healthy, None))
      else if selfsetup && bool_decide (status_code response ∈ _OPTIONAL_HEALTH_STATUSES) then
        let '(w, models) := client_get ep "/v1/models" w in
        match models with
        | None => (w, None)
        | Some models =>
            if status_code models =? 200 then
              (w, Some (true, models_ok (status_code response), body models ≫= served_model_id))
            else (w, Some (false, models_returned (status_code models), None))
        end
      else (w, Some (false, non_200 (status_code response), None))
  end.

(** The critical section of [_apply_model_if_current]. *)
Definition _apply_model_if_current (id ep mdl : string) w : World X * bool :=
  match get (reg w) id with
  | None => (w, false)
  | Some latest =>
      if negb (bool_decide (endpoint latest = ep)) then (w, false)
      else if negb (bool_decide (model latest = mdl))
           then (with_reg (add (set_model mdl latest) (reg w)) w, true)
           else (w, true)
  end.

Definition apply_model (id ep mdl : string) w : World X := fst (_apply_model_if_current id ep mdl w).

(** The compare-and-swap loop, [range(3)] attempts. *)
Fixpoint refresh_record (attempts : nat) (ops : EtcdOps X) (id ep mdl : string) w : World X :=
  match attempts with
  | O => apply_model id ep mdl w
  | S attempts =>
      let key := etcd_prefix ops +:+ id in
      let '(w, rd) := get_record ops key w in
      match rd with
      | None => apply_model id ep mdl w
      | Some None => apply_model id ep mdl w
      | Some (Some rec) =>
          match loads (rec_value rec) with
          | Some (JObj d) =>
              let data := dset "model" (JStr mdl) d in
              let '(w, new_revision) :=
                replace_if_revision ops key (dumps (JObj data)) (rec_mod_revision rec) (rec_lease_id rec) w in
              match new_revision with
              | None => apply_model id ep mdl w
              | Some (Some _) => apply_model id ep mdl w
              | Some None => refresh_record attempts ops id ep mdl w
              end
          | _ => apply_model id ep mdl w
          end
      end
  end.

(** The model to track: the one the liveness probe saw, or a fresh read. *)
Definition observe_model (ep : string) (observed_model : option string) w : World X * option string :=
  match observed_model with
  | Some m => (w, Some m)
  | None =>
      let '(w, models) := client_get ep "/v1/models" w in
      (w, match models with
          | Some models => if status_code models =? 200 then body models ≫= served_model_id else None
          | None => None
          end)
  end.

Definition _refresh_self_setup_model (id ep : string) (selfsetup : bool) (observed_model : option string)
  w : World X :=
  if negb selfsetup then w
  else
    let '(w, mdl) := observe_model ep observed_model w in
    match mdl with
    | None => w
    | Some mdl =>
        match get (reg w) id with
        | None => w
        | Some current =>
            if negb (bool_decide (endpoint current = ep)) then w
            else match etcd with
                 | None => if bool_decide (model current = mdl) then w else apply_model id ep mdl w
                 | Some ops => refresh_record 3 ops id ep mdl w
                 end
        end
    end.

Definition update_status_w (id : string) (s : NodeStatus) (from : list NodeStatus) w : World X * bool :=
  let '(r, ok) := update_status id s from (reg w) in (with_reg r w, ok).

Definition call_breaker (f : CircuitBreaker -> CircuitBreaker) (h : nat) w : World X :=
  with_cbs (Breakers.update f h (cbs (ext w))) w.

(** [breaker is not None and breaker.is_open] *)
Definition breaker_open (h : option nat) w : bool :=
  match h ≫= Breakers.deref (cbs (ext w)) with Some b => is_open b | None => false end.

(** [breaker.try_half_open()] *)
Definition half_open (h : nat) w : World X * bool :=
  match Breakers.deref (cbs (ext w)) h with
  | Some b => (call_breaker (fun b => fst (try_half_open b)) h w, snd (try_half_open b))
  | None => (w, false)
  end.

(** [response.raise_for_status()] accepts 2xx only. *)
Definition is_success (r : option Response) : bool :=
  match r with Some r => (200 <=? status_code r) && (status_code r <? 300) | None => false end.

(** The recovery trial of a node whose breaker is open. *)
Definition recovery_trial (h : nat) (current : Node) (id : string) w : World X * bool :=
  let '(w, ok) := half_open h w in
  if negb ok then (w, false)
  else if negb (str_truthy (model current)) then (call_breaker reopen h w, false)
  else
    let '(w, response) := client_post (endpoint current) (model current) w in
    if negb (is_success response) then (call_breaker record_failure h w, false)
    else
      let '(w, transitioned) := update_status_w id HEALTHY _RECOVERABLE_STATUSES w in
      (call_breaker (if transitioned then record_success else reopen) h w, transitioned).

Definition _handle_probe_success (id : string) w : World X * bool :=
  let w := with_failures (Failures.reset id (failures (ext w))) w in
  match get (reg w) id with
  | None => (w, false)
  | Some current =>
      if bool_decide (status current ∈ PROTECTED) then (w, false)
      else
        let breaker := Breakers.get (cbs (ext w)) id in
        if bool_decide (status current = HEALTHY) then (w, negb (breaker_open breaker w))
        else
          match breaker with
          | Some h =>
              if breaker_open breaker w then recovery_trial h current id w
              else update_status_w id HEALTHY _RECOVERABLE_STATUSES w
          | None => update_status_w id HEALTHY _RECOVERABLE_STATUSES w
          end
  end.

Definition _handle_probe_failure (id : string) w : World X :=
  let '(f, count) := Failures.increment id (failures (ext w)) in
  let w := with_failures f w in
  if failure_threshold <=? count then fst (update_status_w id UNHEALTHY _DEMOTABLE_STATUSES w) else w.

(** The lease is maintained only for the registration that was probed. *)
Definition maintain (id ep : string) w : World X :=
  match maintain_after_success with
  | None => w
  | Some f =>
      match get (reg w) id with
      | Some current => if bool_decide (endpoint current = ep) then f current w else w
      | None => w
      end
  end.

Definition _probe_node (id ep : string) w : World X :=
  let selfsetup := match get (reg w) id with Some n => self_setup n | None => false end in
  let '(w, result) := _probe_liveness ep selfsetup w in
  match result with
  | None => _handle_probe_failure id w
  | Some (false, _, _) => _handle_probe_failure id w
  | Some (true, _, observed) =>
      let w := _refresh_self_setup_model id ep selfsetup observed w in
      let '(w, health_evidence) := _handle_probe_success id w in
      if health_evidence then maintain id ep w else w
  end.

(** One cycle: drain cleanup, then every node of the snapshot in order. *)
Definition sweep_w w : World X :=
  let '(r, c, e, _) := Selector.sweep_drained_nodes (reg w) (trk w) (ext w) in mkWorld X r e c (oth w).

Definition probe_step w (n : Node) : World X :=
  if bool_decide (status n ∈ [AVAILABLE; PROVISIONING]) then w else _probe_node (node_id n) (endpoint n) w.

Definition _probe_all_nodes (has_tracker : bool) w : World X :=
  let w := if has_tracker then sweep_w w else w in
  fold_left probe_step (get_all (reg w)) w.
End checker.

(** ** Invariants under interference *)

Section preservation.
Context {X : Type}.
Context (client_get : string -> string -> World X -> World X * option Response).
Context (client_post : string -> string -> World X -> World X * option Response).
Context (etcd : option (EtcdOps X)).
Context (maintain_after_success : option (Node -> World X -> World X)).
Context (failure_threshold : Z).

(** Every call that lets other threads run keeps [P]. *)
Record calls_keep (P : World X -> Prop) : Prop := {
  keep_get : forall ep p w, P w -> P (fst (client_get ep p w));
  keep_post : forall ep m w, P w -> P (fst (client_post ep m w));
  keep_record : forall ops k w, etcd = Some ops -> P w -> P (fst (get_record ops k w));
  keep_replace : forall ops k v r l w, etcd = Some ops -> P w -> P (fst (replace_if_revision ops k v r l w));
  keep_lease : forall f n w, maintain_after_success = Some f -> P w -> P (f n w);
}.

(** The health checker's own writes keep [P]. *)
Record writes_keep (P : World X -> Prop) : Prop := {
  keep_model : forall id ep m w, P w -> P (apply_model id ep m w);
  keep_up : forall id w, P w -> P (fst (update_status_w id HEALTHY _RECOVERABLE_STATUSES w));
  keep_down : forall id w, P w -> P (fst (update_status_w id UNHEALTHY _DEMOTABLE_STATUSES w));
  keep_failures : forall f w, P w -> P (with_failures f w);
  keep_breaker : forall f h w, P w -> P (call_breaker f h w);
}.

Context (P : World X -> Prop) (HC : calls_keep P) (HW : writes_keep P).

Lemma probe_liveness_keeps ep ss w : P w -> P (fst (_probe_liveness client_get ep ss w)).
Proof.
  intros Hw. unfold _probe_liveness. pose proof (keep_get P HC ep "/health" w Hw) as H1.
  destruct (client_get ep "/health" w) as [w1 [r|]]; [|done]. cbn [fst] in *.
  case_match; [done|]. case_match; [|done].
  pose proof (keep_get P HC ep "/v1/models" w1 H1) as H2.
  destruct (client_get ep "/v1/models" w1) as [w2 [m|]]; [|done]. cbn [fst] in *. by case_match.
Qed.

Lemma observe_model_keeps ep om w : P w -> P (fst (observe_model client_get ep om w)).
Proof.
  intros Hw. unfold observe_model. destruct om; [done|].
  pose proof (keep_get P HC ep "/v1/models" w Hw) as H1. by destruct (client_get ep "/v1/models" w).
Qed.

Lemma refresh_record_keeps n ops id ep m w : etcd = Some ops -> P w -> P (refresh_record n ops id ep m w).
Proof.
  intros Ho. revert w. induction n as [|n IH]; intros w Hw; cbn [refresh_record]; [by apply keep_model|].
  pose proof (keep_record P HC ops (etcd_prefix ops +:+ id) w Ho Hw) as H1.
  destruct (get_record ops _ w) as [w1 [[rec|]|]]; cbn [fst] in *; [|by apply keep_model..].
  destruct (loads (rec_value rec)) as [[| | | | |d]|]; try (by apply keep_model).
  pose proof (keep_replace P HC ops (etcd_prefix ops +:+ id) (dumps (JObj (dset "model" (JStr m) d)))
    (rec_mod_revision rec) (rec_lease_id rec) w1 Ho H1) as H2.
  destruct (replace_if_revision ops _ _ _ _ w1) as [w2 [[r|]|]]; cbn [fst] in *;
    [by apply keep_model|by apply IH|by apply keep_model].
Qed.

Lemma refresh_model_keeps id ep ss om w : P w -> P (_refresh_self_setup_model client_get etcd id ep ss om w).
Proof.
  intros Hw. unfold _refresh_self_setup_model. case_match; [done|].
  pose proof (observe_model_keeps ep om w Hw) as H1.
  destruct (observe_model client_get ep om w) as [w1 [m|]]; [|done]. cbn [fst] in *.
  destruct (get (reg w1) id); [|done]. case_match; [done|]. destruct etcd as [ops|] eqn:He.
  - by apply refresh_record_keeps.
  - case_match; [done|]. by apply keep_model.
Qed.

Lemma half_open_keeps h w : P w -> P (fst (half_open h w)).
Proof. intros. unfold half_open. case_match; [|done]. by apply keep_breaker. Qed.

Lemma recovery_trial_keeps h n id w : P w -> P (fst (recovery_trial client_post h n id w)).
Proof.
  intros Hw. unfold recovery_trial. pose proof (half_open_keeps h w Hw) as H1.
  destruct (half_open h w) as [w1 ok]. cbn [fst] in *. case_match; [done|].
  case_match; [by apply keep_breaker|].
  pose proof (keep_post P HC (endpoint n) (model n) w1 H1) as H2.
  destruct (client_post (endpoint n) (model n) w1) as [w2 r]. cbn [fst] in *.
  case_match; [by apply keep_breaker|].
  pose proof (keep_up P HW id w2 H2) as H4.
  destruct (update_status_w id HEALTHY _RECOVERABLE_STATUSES w2) as [w3 t]. cbn [fst] in *.
  by apply keep_breaker.
Qed.

Lemma probe_success_keeps id w : P w -> P (fst (_handle_probe_success client_post id w)).
Proof.
  intros Hw. unfold _handle_probe_success.
  pose proof (keep_failures P HW (Failures.reset id (failures (ext w))) w Hw) as H1.
  set (w1 := with_failures _ w) in *. destruct (get (reg w1) id); [|done]. case_match; [done|].
  case_match; [done|]. destruct (Breakers.get _ id) as [h|]; [|by apply keep_up].
  case_match; [by apply recovery_trial_keeps|by apply keep_up].
Qed.

Lemma probe_failure_keeps id w : P w -> P (_handle_probe_failure failure_threshold id w).
Proof.
  intros Hw. unfold _handle_probe_failure. destruct (Failures.increment _ _) as [f c].
  case_match; [apply keep_down; [done|]|]; by apply keep_failures.
Qed.

Lemma maintain_keeps id ep w : P w -> P (maintain maintain_after_success id ep w).
Proof.
  intros Hw. unfold maintain. destruct maintain_after_success as [f|] eqn:Hf; [|done].
  destruct (get (reg w) id); [|done]. case_match; [|done]. by eapply keep_lease.
Qed.

Lemma probe_node_keeps id ep w :
  P w -> P (_probe_node client_get client_post etcd maintain_after_success failure_threshold id ep w).
Proof.
  intros Hw. unfold _probe_node. set (ss := match get (reg w) id with Some n => self_setup n | None => false end).
  pose proof (probe_liveness_keeps ep ss w Hw) as H1.
  destruct (_probe_liveness client_get ep ss w) as [w1 [[[[|] rs] om]|]]; cbn [fst] in *;
    [|by apply probe_failure_keeps..].
  pose proof (probe_success_keeps id _ (refresh_model_keeps id ep ss om w1 H1)) as H2.
  destruct (_handle_probe_success client_post id _) as [w2 ev]. cbn [fst] in *.
  case_match; [by apply maintain_keeps|done].
Qed.

Lemma probe_loop_keeps l w :
  P w -> P (fold_left (probe_step client_get client_post etcd maintain_after_success failure_threshold) l w).
Proof.
  revert w. induction l as [|n l IH]; intros w Hw; [done|]. cbn [fold_left]. apply IH.
  unfold probe_step. case_match; [done|]. by apply probe_node_keeps.
Qed.
End preservation.

(** ** Statuses the health checker must not touch *)

(** [id] is registered with status [s] in a well-formed registry. *)
Definition has_status {X} (id : string) (s : NodeStatus) (w : World X) : Prop :=
  reg_wf (reg w) /\ exists n, get (reg w) id = Some n /\ status n = s.

Lemma has_status_writes {X} id s : s ∈ PROTECTED -> writes_keep (X := X) (has_status id s).
Proof.
  intros Hs. assert (s ∉ _RECOVERABLE_STATUSES /\ s ∉ _DEMOTABLE_STATUSES) as [Hr Hd].
  { unfold PROTECTED, _RECOVERABLE_STATUSES, _DEMOTABLE_STATUSES in *. set_solver. }
  assert (forall w id' s' from, s ∉ from -> has_status id s w ->
    has_status (X := X) id s (fst (update_status_w id' s' from w))) as Hup.
  { intros w id' s' from Hn (Hwf & n & Hg & Hst). unfold update_status_w.
    pose proof (reg_wf_update_status id' s' from (reg w) Hwf) as Hwf'.
    pose proof (get_update_status id' s' from (reg w) id) as Hget.
    destruct (update_status id' s' from (reg w)) as [r ok]. cbn [fst] in *. split; [done|].
    cbn [reg with_reg]. rewrite Hget, Hg, decide_False by (intros [_ ?]; subst; done). eauto. }
  split; [|intros; by apply Hup..|done|done].
  intros id' ep m w (Hwf & n & Hg & Hst). unfold apply_model, _apply_model_if_current.
  destruct (get (reg w) id') as [l|] eqn:Hl; [|by split; eauto].
  case_match; [by split; eauto|]. case_match; [|by split; eauto].
  unfold has_status. cbn [fst with_reg reg]. split; [by apply reg_wf_add|].
  assert (node_id (set_model m l) = id') as Hid by exact (proj2 Hwf id' l Hl).
  destruct (decide (id = id')) as [->|Hne].
  - exists (set_model m l). rewrite get_add, Hid, decide_True by done. simplify_eq. done.
  - exists n. by rewrite get_add, Hid, decide_False.
Qed.

(** A health cycle never changes the status of a node that is AVAILABLE,
    RELAUNCHING, RELAUNCH_FAILED, PROVISIONING or FAILED, whatever the probes
    answer, as long as the threads that run during its network calls do not
    change it; and it never changes a DRAINING status other than by removing a
    drained node. *)
Theorem protected_statuses_survive {X} client_get client_post etcd lease threshold has_tracker id s
  (w : World X) :
  s ∈ PROTECTED -> (s = DRAINING -> has_tracker = false) ->
  calls_keep client_get client_post etcd lease (has_status id s) ->
  has_status id s w ->
  has_status id s (_probe_all_nodes client_get client_post etcd lease threshold has_tracker w).
Proof.
  intros Hs Hd HC Hw. unfold _probe_all_nodes. apply probe_loop_keeps; [done|by apply has_status_writes|].
  destruct has_tracker; [|done]. destruct Hw as (Hwf & n & Hg & Hst). unfold sweep_w.
  pose proof (ReservationFacts.sweep_spec (reg w) (trk w) (ext w) Hwf) as Hsw.
  destruct (Selector.sweep_drained_nodes (reg w) (trk w) (ext w)) as [[[r c] e] rm].
  destruct Hsw as (_ & Hwf' & Hget). split; [done|]. exists n. cbn [reg]. rewrite Hget, Hg.
  rewrite bool_decide_eq_false_2; [done|]. intros Heq. subst s. by specialize (Hd Heq).
Qed.

(** ** Demotion *)

(** A probe that fails without any interference. *)
Definition fails_quietly {X} (client_get : string -> string -> World X -> World X * option Response)
  (ep : string) : Prop :=
  forall ss w, fst (_probe_liveness client_get ep ss w) = w /\
    match snd (_probe_liveness client_get ep ss w) with Some (true, _, _) => False | _ => True end.

Definition probe_cycles {X} client_post etcd lease threshold (id ep : string)
  (clients : list (string -> string -> World X -> World X * option Response)) (w : World X) : World X :=
  fold_left (fun w client_get => _probe_node client_get client_post etcd lease threshold id ep w) clients w.

Lemma failed_probe {X} client_get client_post etcd lease threshold id ep (w : World X) :
  fails_quietly client_get ep ->
  _probe_node client_get client_post etcd lease threshold id ep w = _handle_probe_failure threshold id w.
Proof.
  intros Hf. unfold _probe_node. set (ss := match get (reg w) id with Some n => self_setup n | None => false end).
  destruct (Hf ss w) as [H1 H2]. destruct (_probe_liveness client_get ep ss w) as [w1 [[[[|] rs] om]|]];
    cbn [fst snd] in *; [done|congruence|congruence].
Qed.

(** The state after [k] consecutive failures. *)
Definition after_failures {X} (threshold : Z) (id : string) (n : Node) (k : Z) (w : World X) : Prop :=
  default 0 (failures (ext w) !! id) = k /\
  get (reg w) id = Some (if threshold <=? k then set_status UNHEALTHY n else n).

Lemma failure_step {X} threshold id n k (w : World X) :
  status n = HEALTHY -> 0 <= k -> 1 <= threshold ->
  after_failures threshold id n k w -> after_failures threshold id n (k + 1) (_handle_probe_failure threshold id w).
Proof.
  intros Hs H0 H1 [Hc Hg]. unfold _handle_probe_failure, Failures.increment. rewrite Hc.
  unfold after_failures, update_status_w.
  destruct (Z.leb_spec threshold (k + 1)) as [Hle|Hgt].
  - pose proof (get_update_status id UNHEALTHY _DEMOTABLE_STATUSES (reg w) id) as Hget.
    destruct (update_status id UNHEALTHY _DEMOTABLE_STATUSES (reg w)) as [r ok] eqn:Hu.
    cbn [fst reg with_failures] in *. rewrite Hu. cbn [fst with_reg reg ext failures with_failures].
    split; [by rewrite lookup_insert_eq|]. rewrite Hget, Hg.
    destruct (Z.leb_spec threshold k).
    + rewrite decide_False; [done|]. intros [_ Hin]. cbn in Hin. unfold _DEMOTABLE_STATUSES in Hin. set_solver.
    + rewrite decide_True; [done|]. split; [done|]. rewrite Hs. unfold _DEMOTABLE_STATUSES. set_solver.
  - cbn [reg ext failures with_failures]. split; [by rewrite lookup_insert_eq|].
    rewrite Hg. destruct (Z.leb_spec threshold k); [lia|done].
Qed.

(** A HEALTHY node is marked UNHEALTHY exactly when its probes have failed
    [failure_threshold] times in a row, and not one probe earlier; nothing
    else of the registration changes. *)
Theorem demotion_after_threshold {X} client_post etcd lease threshold id ep n
  (clients : list (string -> string -> World X -> World X * option Response)) (w : World X) :
  get (reg w) id = Some n -> status n = HEALTHY -> failures (ext w) !! id = None -> 1 <= threshold ->
  (forall client_get, client_get ∈ clients -> fails_quietly client_get ep) ->
  get (reg (probe_cycles client_post etcd lease threshold id ep clients w)) id =
  Some (if threshold <=? Z.of_nat (length clients) then set_status UNHEALTHY n else n).
Proof.
  intros Hg Hs Hf Ht Hcl.
  assert (forall l k w, (forall c, c ∈ l -> fails_quietly c ep) -> 0 <= k -> after_failures threshold id n k w ->
    after_failures threshold id n (k + Z.of_nat (length l)) (probe_cycles client_post etcd lease threshold id ep l w)) as H.
  { clear -Hs Ht. induction l as [|c l IH]; intros k w Hl Hk Ha; [by rewrite Z.add_0_r|].
    unfold probe_cycles. cbn [fold_left length]. rewrite failed_probe by (apply Hl; set_solver).
    replace (k + Z.of_nat (S (length l))) with (k + 1 + Z.of_nat (length l)) by lia.
    apply IH; [set_solver|lia|]. by apply failure_step. }
  destruct (H clients 0 w Hcl ltac:(lia)) as [_ Hr]; [|exact Hr].
  split; [by rewrite Hf|]. rewrite Hg. by destruct (Z.leb_spec threshold 0); [lia|].
Qed.

(** ** Recovery *)

(** What the recovery trial does to the breaker it was admitted on. *)
Lemma deref_call {X} f h (w : World X) b : Breakers.deref (cbs (ext w)) h = Some b ->
  Breakers.deref (cbs (ext (call_breaker f h w))) h = Some (f b).
Proof. unfold Breakers.deref. cbn. intros H. by rewrite list_lookup_alter_eq, H. Qed.

Lemma record_failure_half_open b : state b <> CLOSED -> state (record_failure b) = OPEN.
Proof.
  unfold state, record_failure. cbn. intros H. destruct (_threshold b <=? _); [done|].
  destruct (_state b); done.
Qed.

Lemma record_failure_not_half_open b : state (record_failure b) <> HALF_OPEN.
Proof.
  unfold state, record_failure. cbn. destruct (_threshold b <=? _); [done|].
  by destruct (_state b).
Qed.

Lemma reopen_state b : state (reopen b) = match state b with HALF_OPEN => OPEN | s => s end.
Proof. unfold reopen, state. case_bool_decide as Hs; [by rewrite Hs|]. by destruct (_state b). Qed.

Lemma recoverable_cases s : s ∈ _RECOVERABLE_STATUSES -> s ∉ PROTECTED /\ s <> HEALTHY.
Proof.
  unfold _RECOVERABLE_STATUSES. intros [->|Hs%list_elem_of_singleton]%elem_of_cons; [|subst s];
    (split; [by apply (bool_decide_unpack _)|done]).
Qed.

(** A node taken out of service by its breaker comes back only through a
    successful inference.  For an UNHEALTHY or UNKNOWN node whose breaker is
    open, the liveness probe alone changes nothing; it is restored only after
    the recovery request for its own model got a 2xx answer, which also closes
    the breaker; no outcome leaves a probe slot occupied, and unless another
    thread closed the breaker meanwhile a failed trial leaves it OPEN. *)
Theorem recovery_needs_inference {X} (client_post : string -> string -> World X -> World X * option Response)
  id n h b (w : World X) :
  get (reg w) id = Some n -> status n ∈ _RECOVERABLE_STATUSES ->
  Breakers.get (cbs (ext w)) id = Some h -> Breakers.deref (cbs (ext w)) h = Some b -> state b = OPEN ->
  (forall ep m w', is_Some (Breakers.deref (cbs (ext w')) h) ->
     is_Some (Breakers.deref (cbs (ext (fst (client_post ep m w')))) h)) ->
  let w' := fst (_handle_probe_success client_post id w) in
  let recovered := snd (_handle_probe_success client_post id w) in
  let answer := client_post (endpoint n) (model n)
    (call_breaker (fun b => fst (try_half_open b)) h (with_failures (Failures.reset id (failures (ext w))) w)) in
  exists b', Breakers.deref (cbs (ext w')) h = Some b' /\ state b' <> HALF_OPEN /\
    (recovered = true ->
       state b' = CLOSED /\ model n <> "" /\ is_success (snd answer) = true /\
       (exists n', get (reg w') id = Some n' /\ status n' = HEALTHY)) /\
    (recovered = false ->
       (forall b'', Breakers.deref (cbs (ext (fst answer))) h = Some b'' -> state b'' <> CLOSED) ->
       state b' = OPEN).
Proof.
  intros Hg Hs Hb Hd Ho Henv. cbn zeta. unfold _handle_probe_success.
  set (w1 := with_failures _ w). change (get (reg w1) id) with (get (reg w) id). rewrite Hg.
  change (Breakers.get (cbs (ext w1)) id) with (Breakers.get (cbs (ext w)) id). rewrite Hb.
  assert (Breakers.deref (cbs (ext w1)) h = Some b) as Hd1 by done.
  destruct (recoverable_cases _ Hs) as [Hnp Hnh].
  rewrite (bool_decide_eq_false_2 (status n ∈ PROTECTED)) by done.
  rewrite (bool_decide_eq_false_2 (status n = HEALTHY)) by done.
  unfold state in Ho.
  assert (breaker_open (Some h) w1 = true) as ->.
  { unfold breaker_open. cbn [mbind option_bind]. rewrite Hd1. unfold is_open. by rewrite Ho. }
  assert (half_open h w1 = (call_breaker (fun b => fst (try_half_open b)) h w1, true)) as Hhalf.
  { unfold half_open. rewrite Hd1. unfold try_half_open at 2. by rewrite Ho. }
  unfold recovery_trial. rewrite Hhalf. cbn [negb]. set (w2 := call_breaker _ h w1).
  assert (Breakers.deref (cbs (ext w2)) h = Some (fst (try_half_open b))) as Hd2 by exact (deref_call (fun b => fst (try_half_open b)) h w1 b Hd1).
  assert (state (fst (try_half_open b)) = HALF_OPEN) as Hh2 by (unfold try_half_open; by rewrite Ho).
  destruct (str_truthy (model n)) eqn:Hm; cbn [negb]; cycle 1.
  { cbn [fst snd]. eexists. split; [by apply deref_call|]. rewrite reopen_state, Hh2.
    split_and!; done. }
  assert (model n <> "") as Hmodel. { intros Heq. by rewrite Heq in Hm. }
  specialize (Henv (endpoint n) (model n) w2 ltac:(eauto)).
  destruct (client_post (endpoint n) (model n) w2) as [w3 r]. cbn [fst snd] in *.
  destruct Henv as [b3 Hd3]. destruct (is_success r) eqn:Hr; cbn [negb]; cycle 1.
  { cbn [fst snd]. eexists. split; [by apply deref_call|]. split_and!; [apply record_failure_not_half_open|done|].
    intros _ Hnc. apply record_failure_half_open. by apply Hnc. }
  unfold update_status_w.
  pose proof (get_update_status id HEALTHY _RECOVERABLE_STATUSES (reg w3) id) as Hget.
  pose proof (update_status_true id HEALTHY _RECOVERABLE_STATUSES (reg w3)) as Htrue.
  destruct (update_status id HEALTHY _RECOVERABLE_STATUSES (reg w3)) as [r' t]. cbn [fst snd] in *.
  eexists. split; [apply deref_call; exact Hd3|]. destruct t.
  - split_and!; [done| |done]. intros _. split_and!; [done|done|done|].
    destruct (proj1 Htrue eq_refl) as (n3 & Hn3 & Hin). cbn [call_breaker with_cbs with_reg reg].
    exists (set_status HEALTHY n3). split; [|done]. by rewrite Hget, Hn3, decide_True.
  - rewrite reopen_state. split_and!; [by destruct (state b3)|done|].
    intros _ Hnc. specialize (Hnc b3 Hd3). by destruct (state b3).
Qed.

(** *** Witnesses *)

(** A backend that refuses every connection, and one that answers 200. *)
Definition ex_refused {X} (_ _ : string) (w : World X) : World X * option Response := (w, None).
Definition ex_answers {X} (_ _ : string) (w : World X) : World X * option Response :=
  (w, Some {| status_code := 200; body := None |}).

Definition ex_node (s : NodeStatus) : Node := set_model "m" (set_status s (Node_default "a" "http://a:1")).
Definition ex_world (s : NodeStatus) : World unit :=
  mkWorld unit (mkRegistry [("a", ex_node s)] [(0%nat, breaker_listener); (1%nat, failures_listener)])
    (mkExt (mkBreakers 3 [("a", 0%nat)] [{| _threshold := 3; _failure_count := 3; _state := OPEN |}]) ∅) ∅ tt.

Lemma ex_world_wf s : reg_wf (reg (ex_world s)).
Proof.
  split; [apply NoDup_singleton|]. intros k n. cbn. case_decide; [|done]. subst. by intros [= <-].
Qed.

Lemma protected_statuses_survive_witness :
  has_status "a" FAILED (_probe_all_nodes ex_refused ex_refused None None 3 true (ex_world FAILED)).
Proof.
  apply protected_statuses_survive.
  - unfold PROTECTED. set_solver.
  - done.
  - split; by intros.
  - split; [apply ex_world_wf|]. exists (ex_node FAILED). done.
Defined.

Lemma demotion_after_threshold_witness :
  get (reg (probe_cycles ex_refused None None 3 "a" "http://a:1" [ex_refused; ex_refused; ex_refused]
              (ex_world HEALTHY))) "a" = Some (set_status UNHEALTHY (ex_node HEALTHY)).
Proof.
  apply (demotion_after_threshold ex_refused None None 3 "a" "http://a:1" (ex_node HEALTHY)
           [ex_refused; ex_refused; ex_refused] (ex_world HEALTHY)); [done|done|done|lia|].
  intros c Hc. assert (c = ex_refused) as -> by set_solver. by split.
Defined.

Lemma recovery_needs_inference_witness :
  exists b', Breakers.deref (cbs (ext (fst (_handle_probe_success ex_answers "a" (ex_world UNHEALTHY))))) 0 = Some b' /\
    state b' = CLOSED.
Proof.
  destruct (recovery_needs_inference ex_answers "a" (ex_node UNHEALTHY) 0
    {| _threshold := 3; _failure_count := 3; _state := OPEN |} (ex_world UNHEALTHY)) as (b' & H1 & _ & H2 & _);
    [done|unfold _RECOVERABLE_STATUSES; set_solver|done|done|done|by intros|].
  exists b'. split; [exact H1|]. apply H2. vm_compute. reflexivity.
Defined.
