(* ===== verification/Dialects.v ===== *)
(** * Error bodies and API dialects

    - [inference_proxy/models/openai.py]: the error models
    - [inference_proxy/api/errors.py]: [map_proxy_error] and the routing errors
    - [inference_proxy/api/dialects.py]: usage extraction, stream trackers and
      error rendering of the three API formats

    The data of a server-sent event is a [blob]: a JSON document or other text
    such as [[DONE]].  A frame keeps the event name and the data;
    [format_sse_event] only serializes it. *)

From S2P Require Import Prelude PyDict Json.
From stdpp Require Import pretty.
Local Open Scope Z_scope.

(** ** Errors *)

(** [code: str | int | None] *)
Inductive ErrCode := CodeStr (s : string) | CodeInt (z : Z).

Record ErrorDetail := {
  message : string;
  etype : string;
  param : option string;
  ecode : option ErrCode;
}.

Definition mk_error (message etype code : string) : ErrorDetail :=
  {| message := message; etype := etype; param := None; ecode := Some (CodeStr code) |}.

(** The exceptions an upstream call raises, by the classes the code tells
    apart: [ConnectError] and [TimeoutException] are [TransportError]s. *)
Inductive Exc :=
| ConnectError
| TimeoutException
| OtherTransportError
| HTTPStatusError (status_code : Z) (text : string)
| OtherException.

Definition is_transport (e : Exc) : bool :=
  match e with ConnectError | TimeoutException | OtherTransportError => true | _ => false end.

Definition map_proxy_error (e : Exc) : Z * ErrorDetail :=
  match e with
  | ConnectError =>
      (502, mk_error "Failed to connect to inference backend" "upstream_error" "backend_unavailable")
  | TimeoutException =>
      (504, mk_error "Inference backend timed out" "upstream_error" "backend_timeout")
  | OtherTransportError =>
      (502, mk_error "Inference backend connection failed during request" "upstream_error"
              "backend_transport_error")
  | HTTPStatusError status text =>
      let safe_message := String.substring 0 200 text in
      (status, mk_error ("Inference backend returned error: " +:+ safe_message) "upstream_error"
                 (pretty status))
  | OtherException => (500, mk_error "Internal gateway error" "server_error" "internal_error")
  end.

Definition model_not_found_error (model : string) : Z * ErrorDetail :=
  (404, mk_error ("The model '" +:+ model +:+ "' does not exist") "invalid_request_error" "model_not_found").

Definition model_not_permitted_error (model : string) : Z * ErrorDetail :=
  (403, mk_error ("This API token is not allowed to use the model '" +:+ model +:+
                  "'. Add it to the token's models in qiip and try again.")
          "invalid_request_error" "model_not_permitted").

Definition model_unavailable_error (model : string) : Z * ErrorDetail :=
  (503, mk_error ("The model '" +:+ model +:+ "' is temporarily unavailable") "server_error"
          "model_unavailable").

Definition no_nodes_error : Z * ErrorDetail :=
  (503, mk_error "No inference nodes available" "server_error" "no_nodes").

(** ** Dialects *)

Definition Usage : Type := Z * Z * Z.

Inductive Dialect := OPENAI_CHAT | ANTHROPIC_MESSAGES | OPENAI_RESPONSES.

(** [_int(value)] of [d.get(k)]; a Python [bool] is excluded. *)
Definition _int (d : list (string * json)) (k : string) : option Z :=
  match dget k d with Some (JNum z) => Some z | _ => None end.

Definition _anthropic_prompt_tokens (usage : list (string * json)) : option Z :=
  match _int usage "input_tokens" with
  | None => None
  | Some uncached =>
      let cached := default 0 (_int usage "cache_read_input_tokens") in
      let created := default 0 (_int usage "cache_creation_input_tokens") in
      Some (uncached + cached + created)
  end.

(** [payload.get("usage")] when both are objects. *)
Definition usage_of (payload : option json) : option (list (string * json)) :=
  match payload with
  | Some (JObj d) => match dget "usage" d with Some (JObj u) => Some u | _ => None end
  | _ => None
  end.

Definition usage_from_body (dl : Dialect) (payload : option json) : option Usage :=
  match usage_of payload with
  | None => None
  | Some u =>
      match dl with
      | OPENAI_CHAT =>
          match _int u "prompt_tokens", _int u "completion_tokens", _int u "total_tokens" with
          | Some prompt, Some completion, Some total => Some (prompt, completion, total)
          | _, _, _ => None
          end
      | ANTHROPIC_MESSAGES =>
          match _anthropic_prompt_tokens u, _int u "output_tokens" with
          | Some prompt, Some completion => Some (prompt, completion, prompt + completion)
          | _, _ => None
          end
      | OPENAI_RESPONSES =>
          match _int u "input_tokens", _int u "output_tokens" with
          | Some prompt, Some completion =>
              Some (prompt, completion, default (prompt + completion) (_int u "total_tokens"))
          | _, _ => None
          end
      end
  end.

(** *** Stream trackers *)

Record Sse := { sse_event : string; sse_data : blob }.

(** [_event_type(event, payload)] *)
Definition _event_type (event : string) (payload : option json) : option string :=
  if negb (bool_decide (event = "message")) then Some event
  else match payload with
       | Some (JObj d) => match dget "type" d with Some (JStr kind) => Some kind | _ => None end
       | _ => None
       end.

(** The state of a tracker: [_usage] of the OpenAI formats, [_prompt] and
    [_completion] of the Anthropic one. *)
Record Tracking := { t_usage : option Usage; t_prompt : option Z; t_completion : option Z }.

Definition stream_tracker : Tracking := {| t_usage := None; t_prompt := None; t_completion := None |}.

Definition keep_usage (found : option Usage) (t : Tracking) : Tracking :=
  match found with
  | Some u => {| t_usage := Some u; t_prompt := t_prompt t; t_completion := t_completion t |}
  | None => t
  end.

Definition anthropic_usage (kind : option string) (payload : list (string * json))
  : option (list (string * json)) :=
  if bool_decide (kind = Some "message_start") then
    match dget "message" payload with Some (JObj m) => usage_of (Some (JObj m)) | _ => None end
  else if bool_decide (kind = Some "message_delta") then usage_of (Some (JObj payload))
  else None.

Definition anthropic_count (u : list (string * json)) (t : Tracking) : Tracking :=
  {| t_usage := t_usage t;
     t_prompt := match _anthropic_prompt_tokens u with
                 | Some prompt => if (0 <? prompt) || is_none (t_prompt t) then Some prompt else t_prompt t
                 | None => t_prompt t
                 end;
     t_completion := match _int u "output_tokens" with Some c => Some c | None => t_completion t end |}.

(** [tracker.observe(event, data)]: the new state and whether the response is
    complete. *)
Definition observe (dl : Dialect) (t : Tracking) (e : Sse) : Tracking * bool :=
  let payload := loads (sse_data e) in
  let kind := _event_type (sse_event e) payload in
  match dl with
  | OPENAI_CHAT =>
      if bool_decide (sse_data e = OtherBytes "[DONE]") then (t, true)
      else (keep_usage (usage_from_body OPENAI_CHAT payload) t, false)
  | ANTHROPIC_MESSAGES =>
      if bool_decide (kind = Some "message_stop") then (t, true)
      else match payload with
           | Some (JObj d) =>
               match anthropic_usage kind d with
               | Some u => (anthropic_count u t, false)
               | None => (t, false)
               end
           | _ => (t, false)
           end
  | OPENAI_RESPONSES =>
      let t := match payload with
               | Some (JObj d) =>
                   match dget "response" d with
                   | Some (JObj r) => keep_usage (usage_from_body OPENAI_RESPONSES (Some (JObj r))) t
                   | _ => t
                   end
               | _ => t
               end in
      (t, bool_decide (kind = Some "response.completed") || bool_decide (kind = Some "response.incomplete"))
  end.

Definition tracker_usage (dl : Dialect) (t : Tracking) : option Usage :=
  match dl with
  | ANTHROPIC_MESSAGES =>
      match t_prompt t, t_completion t with
      | None, None => None
      | p, c => Some (default 0 p, default 0 c, default 0 p + default 0 c)
      end
  | _ => t_usage t
  end.

(** *** Rendering *)

Definition code_json (c : option ErrCode) : json :=
  match c with Some (CodeStr s) => JStr s | Some (CodeInt z) => JNum z | None => JNull end.

Definition opt_json (s : option string) : json := match s with Some s => JStr s | None => JNull end.

(** [error.model_dump()] *)
Definition model_dump (e : ErrorDetail) (code : option ErrCode) : json :=
  JObj [("error", JObj [("message", JStr (message e)); ("type", JStr (etype e));
                        ("param", opt_json (param e)); ("code", code_json code)])].

Definition _ANTHROPIC_ERROR_TYPES : list (Z * string) :=
  [(400, "invalid_request_error"); (401, "authentication_error"); (403, "permission_error");
   (404, "not_found_error"); (413, "request_too_large"); (429, "rate_limit_error");
   (503, "overloaded_error"); (529, "overloaded_error")].

Definition anthropic_error_type (status : Z) : string :=
  match dget status _ANTHROPIC_ERROR_TYPES with
  | Some t => t
  | None => if status <? 500 then "invalid_request_error" else "api_error"
  end.

Definition str_of_code (c : ErrCode) : string :=
  match c with CodeStr s => s | CodeInt z => pretty z end.

Definition error_content (dl : Dialect) (e : ErrorDetail) (status : Z) (code : option string) : json :=
  match dl with
  | ANTHROPIC_MESSAGES =>
      let resolved := match code with Some c => Some (CodeStr c) | None => ecode e end in
      JObj [("type", JStr "error");
            ("error", JObj ([("type", JStr (anthropic_error_type status)); ("message", JStr (message e))] ++
               match resolved with Some c => [("code", JStr (str_of_code c))] | None => [] end))]
  | _ => model_dump e (match code with Some c => Some (CodeStr c) | None => ecode e end)
  end.

(** A re-encoded server-sent event; [None] is a frame without an event line. *)
Record Frame := { frame_event : option string; frame_data : blob }.

Definition relay_frame (e : Sse) : Frame :=
  {| frame_event := if bool_decide (sse_event e = "message") then None else Some (sse_event e);
     frame_data := sse_data e |}.

Definition stream_error (dl : Dialect) (e : ErrorDetail) (status : Z) : list Frame :=
  match dl with
  | OPENAI_CHAT =>
      [{| frame_event := None; frame_data := dumps (model_dump e (ecode e)) |};
       {| frame_event := None; frame_data := OtherBytes "[DONE]" |}]
  | ANTHROPIC_MESSAGES =>
      [{| frame_event := Some "error"; frame_data := dumps (error_content ANTHROPIC_MESSAGES e status None) |}]
  | OPENAI_RESPONSES =>
      [{| frame_event := Some "response.failed";
          frame_data := dumps (JObj [("type", JStr "response.failed");
            ("response", JObj [("id", JStr "resp_qiip_error"); ("object", JStr "response");
               ("status", JStr "failed"); ("output", JList []);
               ("error", JObj [("code", JStr (match ecode e with Some c => str_of_code c | None => "server_error" end));
                               ("message", JStr (message e))])])]) |}]
  end.

(** [_under(path, prefix)] *)
Definition _under (path prefix : string) : bool :=
  bool_decide (path = prefix) || startswith path (prefix +:+ "/").

Definition dialect_for_path (path : string) : Dialect :=
  if _under path "/v1/messages" then ANTHROPIC_MESSAGES
  else if _under path "/v1/responses" then OPENAI_RESPONSES
  else OPENAI_CHAT.

(** ** Usage of a relayed stream *)

Definition observe_all (dl : Dialect) (l : list Sse) : Tracking :=
  fold_left (fun t e => fst (observe dl t e)) l stream_tracker.

(** What one event reports in the OpenAI formats. *)
Definition reported (dl : Dialect) (e : Sse) : option Usage :=
  match dl with
  | OPENAI_CHAT => usage_from_body OPENAI_CHAT (loads (sse_data e))
  | OPENAI_RESPONSES =>
      match loads (sse_data e) with
      | Some (JObj d) => match dget "response" d with
                         | Some (JObj r) => usage_from_body OPENAI_RESPONSES (Some (JObj r))
                         | _ => None
                         end
      | _ => None
      end
  | ANTHROPIC_MESSAGES => None
  end.

Fixpoint last_reported (dl : Dialect) (l : list Sse) : option Usage :=
  match l with
  | [] => None
  | e :: l => match last_reported dl l with Some u => Some u | None => reported dl e end
  end.

Lemma observe_openai dl t e : dl <> ANTHROPIC_MESSAGES ->
  t_usage (fst (observe dl t e)) = match reported dl e with Some u => Some u | None => t_usage t end.
Proof.
  intros Hdl. destruct dl; [|done|]; unfold observe, reported.
  - case_bool_decide as Hd; [rewrite Hd; done|]. cbn [fst]. by destruct (usage_from_body _ _).
  - cbn [fst]. destruct (loads (sse_data e)) as [[| | | | |d]|]; try done.
    destruct (dget "response" d) as [[| | | | |r]|]; try done. by destruct (usage_from_body _ _).
Qed.

Lemma observe_anthropic_prompt t e p : 0 < p -> t_prompt t = Some p ->
  exists p', 0 < p' /\ t_prompt (fst (observe ANTHROPIC_MESSAGES t e)) = Some p'.
Proof.
  intros Hp Ht. unfold observe. case_bool_decide; [cbn; eauto|].
  destruct (loads (sse_data e)) as [[| | | | |d]|]; [cbn [fst]; eauto..| |cbn [fst]; eauto].
  destruct (anthropic_usage _ d) as [u|]; [|cbn; eauto]. cbn [fst anthropic_count t_prompt].
  destruct (_anthropic_prompt_tokens u) as [q|]; [|eauto]. rewrite Ht. cbn.
  rewrite orb_false_r. destruct (Z.ltb_spec 0 q); eauto.
Qed.

(** The usage recorded for a stream.  In the OpenAI formats it is the last
    usage any event reported; in the Anthropic format a prompt count that was
    once positive is never replaced by zero, whichever of [message_start] and
    [message_delta] the backend fills in. *)
Theorem stream_usage_latest (dl : Dialect) (l : list Sse) :
  (dl <> ANTHROPIC_MESSAGES -> tracker_usage dl (observe_all dl l) = last_reported dl l) /\
  (dl = ANTHROPIC_MESSAGES -> forall l' p, 0 < p -> t_prompt (observe_all dl l) = Some p ->
     exists p', 0 < p' /\ t_prompt (observe_all dl (l ++ l')) = Some p').
Proof.
  split.
  - intros Hdl. assert (tracker_usage dl (observe_all dl l) = t_usage (observe_all dl l)) as ->.
    { by destruct dl. }
    unfold observe_all. assert (forall t, t_usage (fold_left (fun t e => fst (observe dl t e)) l t) =
      match last_reported dl l with Some u => Some u | None => t_usage t end) as H.
    { induction l as [|e l IH]; intros t; [done|]. cbn [fold_left last_reported].
      rewrite IH, observe_openai by done. by destruct (last_reported dl l). }
    rewrite H. by destruct (last_reported dl l).
  - intros -> l' p Hp. unfold observe_all. rewrite fold_left_app.
    generalize (fold_left (fun t e => fst (observe ANTHROPIC_MESSAGES t e)) l stream_tracker).
    revert p Hp. induction l' as [|e l' IH]; intros p Hp t Ht; [eauto|]. cbn [fold_left].
    destruct (observe_anthropic_prompt t e p Hp Ht) as (p' & Hp' & Ht'). by eapply IH.
Qed.
