(* ===== verification/SystemMessages.v ===== *)
(** * System messages inside a conversation ([inference_proxy/api/system_messages.py])

    Chat templates accept a system message only in front.  The two rewrites
    move leading system and developer messages into the system prompt and turn
    later ones into user turns, so that a conversation that grows keeps the
    prefix the backend has cached.

    Bodies are JSON objects.  [None] is the [TypeError] of looking up a role
    that is a list or an object (unhashable) in a [frozenset]. *)

From S2P Require Import Prelude PyDict Json.

(** ** Helpers *)

Definition nl : string := String (Ascii.ascii_of_nat 10) "".
Definition nl2 : string := nl +:+ nl.

Definition _SYSTEM_ROLES : list string := ["system"; "developer"].

Definition _reminder (text : string) : string :=
  "<system-reminder>" +:+ nl +:+ text +:+ nl +:+ "</system-reminder>" +:+ nl.

(** [item.get("role") in _SYSTEM_ROLES] *)
Definition _is_system (item : json) : option bool :=
  match item with
  | JObj d =>
      match dget "role" d with
      | Some (JStr r) => Some (bool_decide (r ∈ _SYSTEM_ROLES))
      | Some (JList _) | Some (JObj _) => None
      | _ => Some false
      end
  | _ => Some false
  end.

(** A part with a non-empty text, and that text. *)
Definition text_part (part : json) : option (list (string * json) * string) :=
  match part with
  | JObj d => match dget "text" d with Some (JStr t) => if str_truthy t then Some (d, t) else None | _ => None end
  | _ => None
  end.

(** [_text_parts(content)], each part with its text; [content] is [None] when
    the key is absent. *)
Definition _text_parts (content : option json) : list (list (string * json) * string) :=
  match content with
  | Some (JStr t) => if str_truthy t then [([("text", JStr t)], t)] else []
  | Some (JList l) => omap text_part l
  | _ => []
  end.

Definition _content_texts (content : option json) : list string := (_text_parts content).*2.

(** ["\n\n".join(l)] *)
Definition join2 (l : list string) : string :=
  match l with [] => "" | x :: l => x +:+ String.concat "" (List.map (fun t => nl2 +:+ t) l) end.

Definition _join_text (existing : string) (additions : list string) : string :=
  join2 (if str_truthy existing then existing :: additions else additions).

Definition text_block (type text : string) : json := JObj [("type", JStr type); ("text", JStr text)].

(** [_anthropic_system_with]; only called with a system prompt that is absent,
    [null], a string or a list, and with additions. *)
Definition _anthropic_system_with (system : option json) (additions : list string) : json :=
  match system with
  | Some (JStr s) => JStr (_join_text s additions)
  | Some (JList l) =>
      let separator := if bool_decide (_content_texts system = []) then "" else nl2 in
      JList (l ++ match additions with
                  | [] => []
                  | a :: rest => text_block "text" (separator +:+ a) :: List.map (fun t => text_block "text" (nl2 +:+ t)) rest
                  end)
  | _ => JStr (join2 additions)
  end.

(** [message.get("content")] *)
Definition content (m : json) : option json := match m with JObj d => dget "content" d | _ => None end.

(** [blocks[-1]["cache_control"] = marker] *)
Fixpoint mark_last (marker : json) (blocks : list json) : list json :=
  match blocks with
  | [] => []
  | [JObj d] => [JObj (dset "cache_control" marker d)]
  | b :: blocks => b :: mark_last marker blocks
  end.

Definition _anthropic_reminder (c : option json) : option json :=
  match _text_parts c with
  | [] => None
  | parts =>
      let blocks := List.map (fun p => text_block "text" (_reminder (snd p))) parts in
      let markers := omap (fun p => m ← dget "cache_control" (fst p); if truthy m then Some m else None) parts in
      let blocks := match last markers with Some m => mark_last m blocks | None => blocks end in
      Some (JObj [("role", JStr "user"); ("content", JList blocks)])
  end.

Definition _responses_reminder (c : option json) : option json :=
  match _content_texts c with
  | [] => None
  | texts => Some (JObj [("type", JStr "message"); ("role", JStr "user");
                         ("content", JList (List.map (fun t => text_block "input_text" (_reminder t)) texts))])
  end.

(** [any(_is_system(m) for m in messages)] stops at the first one. *)
Fixpoint any_system (l : list json) : option bool :=
  match l with
  | [] => Some false
  | m :: l => match _is_system m with Some false => any_system l | r => r end
  end.

(** The loop both rewrites share: the texts for the system prompt, and the
    rewritten messages. *)
Section loop.
Context (reminder : option json -> option json) (can_extend : bool).

Fixpoint inline_loop (started : bool) (l : list json) : option (list string * list json) :=
  match l with
  | [] => Some ([], [])
  | m :: l =>
      sys ← _is_system m;
      if negb sys then r ← inline_loop true l; Some (fst r, m :: snd r)
      else if negb started then
        if can_extend then r ← inline_loop false l; Some (_content_texts (content m) ++ fst r, snd r)
        else r ← inline_loop false l; Some (fst r, m :: snd r)
      else r ← inline_loop true l; Some (fst r, option_list (reminder (content m)) ++ snd r)
  end.
End loop.

Definition body : Type := list (string * json).

Definition inline_anthropic_system_messages (b : body) : option body :=
  match dget "messages" b with
  | Some (JList messages) =>
      some_system ← any_system messages;
      if negb some_system then Some b
      else
        let system := dget "system" b in
        let can_extend := match system with None | Some JNull | Some (JStr _) | Some (JList _) => true | _ => false end in
        r ← inline_loop _anthropic_reminder can_extend false messages;
        let result := dset "messages" (JList (snd r)) b in
        match fst r with
        | [] => Some result
        | leading => Some (dset "system" (_anthropic_system_with system leading) result)
        end
  | _ => Some b
  end.

Definition inline_responses_system_messages (b : body) : option body :=
  match dget "input" b with
  | Some (JList items) =>
      some_system ← any_system items;
      if negb some_system then Some b
      else
        let instructions := dget "instructions" b in
        let can_extend := match instructions with None | Some JNull | Some (JStr _) => true | _ => false end in
        r ← inline_loop _responses_reminder can_extend false items;
        let result := dset "input" (JList (snd r)) b in
        match fst r with
        | [] => Some result
        | leading =>
            let existing := match instructions with Some (JStr s) => s | _ => "" end in
            Some (dset "instructions" (JStr (_join_text existing leading)) result)
        end
  | _ => Some b
  end.

(** ** What the rewrites do *)

(** A role that can be looked up. *)
Definition hashable (m : json) : bool := is_some (_is_system m).
Definition sysb (m : json) : bool := or_default (_is_system m) false.

(** The messages before the conversation starts, and the rest. *)
Fixpoint leading (l : list json) : list json :=
  match l with m :: l => if sysb m then m :: leading l else [] | [] => [] end.
Definition later (l : list json) : list json := drop (length (leading l)) l.

Lemma leading_later l : leading l ++ later l = l.
Proof.
  unfold later. induction l as [|m l IH]; [done|]. cbn. destruct (sysb m); cbn; [by rewrite IH|done].
Qed.

Lemma is_system_sysb m : hashable m = true -> _is_system m = Some (sysb m).
Proof. unfold hashable, sysb. by destruct (_is_system m). Qed.

Lemma any_system_spec l : forallb hashable l = true -> any_system l = Some (existsb sysb l).
Proof.
  induction l as [|m l IH]; [done|]. cbn. intros [Hm Hl]%andb_prop. rewrite (is_system_sysb m Hm).
  destruct (sysb m); [done|]. by apply IH.
Qed.

Section loop_spec.
Context (reminder : option json -> option json) (can_extend : bool).

(** Later system messages become reminders in place; the others stay. *)
Definition rewrite_one (m : json) : option json := if sysb m then reminder (content m) else Some m.

(** The reference for the whole loop. *)
Definition kept (l : list json) : list json :=
  (if can_extend then [] else leading l) ++ omap rewrite_one (later l).
Definition prompt (l : list json) : list string :=
  if can_extend then mjoin (List.map (fun m => _content_texts (content m)) (leading l)) else [].

Lemma loop_started l : forallb hashable l = true ->
  inline_loop reminder can_extend true l = Some ([], omap rewrite_one l).
Proof.
  induction l as [|m l IH]; [done|]. cbn. intros [Hm Hl]%andb_prop. rewrite (is_system_sysb m Hm). cbn.
  rewrite (IH Hl). unfold rewrite_one. destruct (sysb m); cbn; [|done]. by destruct (reminder (content m)).
Qed.

Lemma loop_spec l : forallb hashable l = true -> inline_loop reminder can_extend false l = Some (prompt l, kept l).
Proof.
  unfold prompt, kept, later. induction l as [|m l IH]; [by destruct can_extend|]. cbn [forallb]. intros [Hm Hl]%andb_prop.
  cbn [inline_loop]. rewrite (is_system_sysb m Hm). cbn [mbind option_bind leading]. destruct (sysb m) eqn:Hs; cbn [negb].
  - rewrite (IH Hl). by destruct can_extend.
  - rewrite (loop_started l Hl). cbn [length drop]. cbn. unfold rewrite_one at 2. rewrite Hs. by destruct can_extend.
Qed.

Lemma loop_unhashable b l : forallb hashable l = false -> inline_loop reminder can_extend b l = None.
Proof.
  revert b. induction l as [|m l IH]; intros b; [done|]. cbn. unfold hashable at 1.
  destruct (_is_system m) as [[]|]; cbn; try done; intros Hl; rewrite !(IH _ Hl); by destruct b, can_extend.
Qed.

Lemma later_app l more : existsb (fun m => negb (sysb m)) l = true ->
  leading (l ++ more) = leading l /\ later (l ++ more) = later l ++ more.
Proof.
  unfold later. induction l as [|m l IH]; [done|]. cbn. destruct (sysb m); cbn; [|done].
  intros [-> IH2]%IH. cbn. split; [done|exact IH2].
Qed.

Lemma kept_app l more : existsb (fun m => negb (sysb m)) l = true ->
  kept (l ++ more) = kept l ++ omap rewrite_one more /\ prompt (l ++ more) = prompt l.
Proof.
  intros H. destruct (later_app l more H) as [H1 H2]. unfold kept, prompt. rewrite H1, H2, omap_app. split; [|done].
  by destruct can_extend; rewrite ?app_assoc.
Qed.

Lemma no_leading l : existsb sysb l = false -> leading l = [].
Proof. destruct l as [|m l]; [done|]. cbn. by destruct (sysb m). Qed.

Lemma omap_id l : existsb sysb l = false -> omap rewrite_one l = l.
Proof.
  induction l as [|m l IH]; [done|]. cbn. intros [Hm Hl]%orb_false_iff. unfold rewrite_one at 1. rewrite Hm.
  by rewrite (IH Hl).
Qed.

Lemma kept_id l : existsb sysb l = false -> kept l = l /\ prompt l = [].
Proof.
  intros H. unfold kept, prompt, later. rewrite (no_leading l H). cbn [length]. rewrite drop_0, (omap_id l H). by destruct can_extend.
Qed.

Hypothesis reminder_user : forall c m, reminder c = Some m -> _is_system m = Some false.

Lemma omap_clean l : forallb hashable l = true ->
  existsb sysb (omap rewrite_one l) = false /\ forallb hashable (omap rewrite_one l) = true.
Proof.
  induction l as [|m l IH]; [done|]. cbn [forallb]. intros [Hm [IH1 IH2]%IH]%andb_prop.
  change (omap rewrite_one (m :: l)) with
    (match rewrite_one m with Some y => y :: omap rewrite_one l | None => omap rewrite_one l end).
  destruct (rewrite_one m) as [y|] eqn:Hy; [|done]. cbn [existsb forallb]. rewrite IH1, IH2.
  assert (_is_system y = Some false) as Hsy.
  { unfold rewrite_one in Hy. destruct (sysb m) eqn:Hs; [by apply (reminder_user (content m))|].
    injection Hy as <-. by rewrite (is_system_sysb m Hm), Hs. }
  unfold sysb, hashable. by rewrite Hsy.
Qed.

Lemma leading_sys l : forallb sysb (leading l) = true.
Proof. induction l as [|m l IH]; [done|]. cbn. destruct (sysb m) eqn:Hs; [|done]. cbn. by rewrite Hs. Qed.

Lemma leading_split l1 l2 : forallb sysb l1 = true -> existsb sysb l2 = false ->
  leading (l1 ++ l2) = l1 /\ later (l1 ++ l2) = l2.
Proof.
  unfold later. intros H1 H2. induction l1 as [|m l IH].
  - cbn. by rewrite (no_leading l2 H2).
  - cbn in *. apply andb_prop in H1 as [-> H1]. destruct (IH H1) as [E1 E2]. cbn. by rewrite E1 in *.
Qed.

Lemma later_hashable l : forallb hashable l = true -> forallb hashable (leading l) = true /\ forallb hashable (later l) = true.
Proof. rewrite <- (leading_later l) at 1. rewrite forallb_app. by intros [??]%andb_prop. Qed.

(** Nothing is left to rewrite. *)
Lemma kept_stable l : forallb hashable l = true ->
  forallb hashable (kept l) = true /\ kept (kept l) = kept l /\ (can_extend = true -> existsb sysb (kept l) = false) /\
  (can_extend = false -> prompt l = [] /\ prompt (kept l) = []).
Proof.
  intros H. destruct (later_hashable l H) as [H1 H2]. destruct (omap_clean (later l) H2) as [Hc1 Hc2].
  unfold kept, prompt. destruct can_extend.
  - cbn [app]. split_and!; try done. unfold later at 1. rewrite (no_leading _ Hc1). cbn [length]. rewrite drop_0. by apply omap_id.
  - rewrite forallb_app, H1, Hc2. split_and!; try done.
    destruct (leading_split (leading l) (omap rewrite_one (later l)) (leading_sys l) Hc1) as [-> ->].
    by rewrite (omap_id _ Hc1).
Qed.
End loop_spec.

(** ** Both interfaces *)

Inductive Api := Anthropic | Responses.

Section api.
Context (a : Api).

Definition list_key : string := match a with Anthropic => "messages" | Responses => "input" end.
Definition prompt_key : string := match a with Anthropic => "system" | Responses => "instructions" end.
Definition reminder_of : option json -> option json :=
  match a with Anthropic => _anthropic_reminder | Responses => _responses_reminder end.
Definition extendable (p : option json) : bool :=
  match p, a with
  | None, _ | Some JNull, _ | Some (JStr _), _ | Some (JList _), Anthropic => true
  | _, _ => false
  end.
Definition extended (p : option json) (texts : list string) : json :=
  match a with
  | Anthropic => _anthropic_system_with p texts
  | Responses => JStr (_join_text (match p with Some (JStr s) => s | _ => "" end) texts)
  end.
Definition inline_system_messages : body -> option body :=
  match a with Anthropic => inline_anthropic_system_messages | Responses => inline_responses_system_messages end.

(** The prompt and the messages the rewrite is meant to produce. *)
Definition inlined (b : body) (l : list json) : body :=
  let p := dget prompt_key b in
  let r := dset list_key (JList (kept reminder_of (extendable p) l)) b in
  match prompt (extendable p) l with [] => r | t => dset prompt_key (extended p t) r end.

Lemma keys_differ : list_key <> prompt_key.
Proof. unfold list_key, prompt_key. by destruct a. Qed.

Lemma reminder_user c m : reminder_of c = Some m -> _is_system m = Some false.
Proof.
  unfold reminder_of. destruct a; unfold _anthropic_reminder, _responses_reminder;
    [destruct (_text_parts c); [done|]|destruct (_content_texts c); [done|]]; by intros [= <-].
Qed.

Lemma inline_ref b l : dget list_key b = Some (JList l) -> forallb hashable l = true ->
  inline_system_messages b = Some (inlined b l).
Proof.
  intros Hl Hh. assert (existsb sysb l = false -> inlined b l = b) as Hid.
  { intros Hs. unfold inlined. destruct (kept_id reminder_of (extendable (dget prompt_key b)) l Hs) as [-> ->].
    by apply dset_id. }
  unfold inline_system_messages, inlined, list_key, prompt_key, reminder_of, extended, extendable in *.
  destruct a; unfold inline_anthropic_system_messages, inline_responses_system_messages; rewrite Hl, (any_system_spec l Hh); cbn;
    (destruct (existsb sysb l); cbn; [|by rewrite Hid]); rewrite loop_spec by done; cbn; repeat case_match; done.
Qed.

Lemma inlined_lists b l : let p := dget prompt_key b in
  dget list_key (inlined b l) = Some (JList (kept reminder_of (extendable p) l)) /\
  dget prompt_key (inlined b l) = (match prompt (extendable p) l with [] => p | t => Some (extended p t) end) /\
  forall k, k <> list_key -> k <> prompt_key -> dget k (inlined b l) = dget k b.
Proof.
  pose proof keys_differ as Hk. unfold inlined. cbn. destruct (prompt _ l); split_and!; intros *;
    rewrite ?dget_dset_eq, ?(dget_dset_ne list_key prompt_key), ?dget_dset_eq by done; try done; intros;
    by rewrite !dget_dset_ne by congruence.
Qed.

Lemma unhashable_any l : forallb hashable l = false -> any_system l <> Some false.
Proof.
  induction l as [|m l IH]; [done|]. cbn. unfold hashable at 1. destruct (_is_system m) as [[]|]; cbn; done.
Qed.

Lemma inline_None b : inline_system_messages b = None <->
  exists l, dget list_key b = Some (JList l) /\ forallb hashable l = false.
Proof.
  destruct (dget list_key b) as [[| | | |l|]|] eqn:Hl.
  5: { destruct (forallb hashable l) eqn:Hh; [rewrite (inline_ref b l Hl Hh); split; [done|intros (l0 & [= <-] & H); congruence]|].
    split; [eauto|]. intros _. unfold inline_system_messages, list_key in *.
    destruct a; unfold inline_anthropic_system_messages, inline_responses_system_messages; rewrite Hl;
      pose proof (unhashable_any l Hh); (destruct (any_system l) as [[]|]; cbn; try done; by rewrite loop_unhashable). }
  all: split; [|by intros (l0 & [=] & _)]; unfold inline_system_messages, list_key in *;
    destruct a; unfold inline_anthropic_system_messages, inline_responses_system_messages; by rewrite Hl.
Qed.

Lemma inlined_stable b l : dget list_key b = Some (JList l) -> forallb hashable l = true ->
  inline_system_messages (inlined b l) = Some (inlined b l) /\
  (extendable (dget prompt_key b) = true ->
    forall l', dget list_key (inlined b l) = Some (JList l') -> existsb sysb l' = false).
Proof.
  intros Hl Hh. destruct (inlined_lists b l) as (E1 & P1 & _).
  destruct (kept_stable reminder_of (extendable (dget prompt_key b)) reminder_user l Hh) as (S1 & S2 & S3 & S4).
  split; [|intros He l'; rewrite E1; intros [= <-]; by apply S3].
  rewrite (inline_ref _ _ E1 S1). f_equal. unfold inlined at 1. destruct (extendable (dget prompt_key b)) eqn:He.
  - destruct (kept_id reminder_of (extendable (dget prompt_key (inlined b l))) _ (S3 eq_refl)) as [-> ->]. by apply dset_id.
  - destruct (S4 eq_refl) as [Hp0 Hp1]. rewrite Hp0 in P1. rewrite P1, He, Hp1, S2. by apply dset_id.
Qed.
End api.

(** The rewrite of a body whose roles can be looked up is the reference one,
    for both interfaces: system messages before the conversation join the
    prompt when it can be extended and stay otherwise, every later one becomes
    its reminder in place (or goes, without text), every other message stays in
    order, and no other key of the body changes. *)
Theorem inline_functional a b l : dget (list_key a) b = Some (JList l) -> forallb hashable l = true ->
  exists b', inline_system_messages a b = Some b' /\
  let p := dget (prompt_key a) b in let ce := extendable a p in
  dget (list_key a) b' = Some (JList ((if ce then [] else leading l) ++ omap (rewrite_one (reminder_of a)) (later l))) /\
  dget (prompt_key a) b' = (match (if ce then mjoin (List.map (fun m => _content_texts (content m)) (leading l)) else []) with
                            | [] => p | t => Some (extended a p t) end) /\
  forall k, k <> list_key a -> k <> prompt_key a -> dget k b' = dget k b.
Proof.
  intros Hl Hh. exists (inlined a b l). split; [by apply inline_ref|]. apply inlined_lists.
Qed.

Definition msg (role text : string) : json := JObj [("role", JStr role); ("content", JStr text)].
Definition ex_list : list json := [msg "system" "A"; msg "user" "hi"; msg "system" "B"; msg "system" ""].
Definition ex_body : body := [("model", JStr "m"); ("messages", JList ex_list)].

Lemma inline_functional_witness :
  exists b', inline_system_messages Anthropic ex_body = Some b' /\
    dget "messages" b' = Some (JList [msg "user" "hi";
      JObj [("role", JStr "user"); ("content", JList [text_block "text" (_reminder "B")])]]) /\
    dget "system" b' = Some (JStr "A").
Proof.
  destruct (inline_functional Anthropic ex_body ex_list) as (b' & Hb & H1 & H2 & _); [reflexivity|reflexivity|].
  exists b'. split; [exact Hb|]. split; [exact H1|exact H2].
Defined.

(** A role that a [frozenset] cannot look up. *)
Definition unhashable_role (m : json) : Prop :=
  exists d, m = JObj d /\ ((exists x, dget "role" d = Some (JList x)) \/ (exists x, dget "role" d = Some (JObj x))).

Lemma hashable_spec m : hashable m = false <-> unhashable_role m.
Proof.
  unfold hashable, unhashable_role, _is_system. split.
  - destruct m as [| | | | |d]; try done. destruct (dget "role" d) as [[]|] eqn:Hd; try done; eauto 6.
  - intros (d & -> & [[x ->]|[x ->]]); done.
Qed.

(** The rewrite raises exactly when the list holds a message whose role is a
    list or an object, wherever it stands: a request that should be left for
    the backend to judge fails inside the gateway. *)
Theorem inline_raises a b : inline_system_messages a b = None <->
  exists l m, dget (list_key a) b = Some (JList l) /\ m ∈ l /\ unhashable_role m.
Proof.
  rewrite inline_None. split.
  - intros (l & Hl & Hh). apply not_true_iff_false in Hh. rewrite forallb_forall in Hh.
    destruct (decide (Exists (fun m => hashable m = false) l)) as [(m & Hm & Hf)%Exists_exists|Hn].
    + exists l, m. by rewrite <- hashable_spec.
    + destruct Hh. intros m Hm. destruct (hashable m) eqn:Hf; [done|]. destruct Hn. apply Exists_exists. exists m.
      split; [by apply list_elem_of_In|done].
  - intros (l & m & Hl & Hm & Hf). exists l. split; [done|]. apply not_true_iff_false. rewrite forallb_forall. intros H.
    apply hashable_spec in Hf. rewrite (H m) in Hf; [done|by apply list_elem_of_In].
Qed.

(** C35: a conversation that has started keeps its prefix: with more messages
    appended, the rewritten list is the earlier one followed by new messages,
    and everything else of the body, the prompt included, is the same. *)
Theorem inline_keeps_prefix a b l more b1 b2 : existsb (fun m => negb (sysb m)) l = true ->
  inline_system_messages a (dset (list_key a) (JList l) b) = Some b1 ->
  inline_system_messages a (dset (list_key a) (JList (l ++ more)) b) = Some b2 ->
  exists r1 r2, dget (list_key a) b1 = Some (JList r1) /\ dget (list_key a) b2 = Some (JList (r1 ++ r2)) /\
    forall k, k <> list_key a -> dget k b2 = dget k b1.
Proof.
  intros Hs. set (c1 := dset (list_key a) (JList l) b). set (c2 := dset (list_key a) (JList (l ++ more)) b).
  assert (dget (list_key a) c1 = Some (JList l)) as Hl1 by apply dget_dset_eq.
  assert (dget (list_key a) c2 = Some (JList (l ++ more))) as Hl2 by apply dget_dset_eq.
  assert (forall k, k <> list_key a -> dget k c2 = dget k c1) as Hsame.
  { intros k Hk. unfold c1, c2. by rewrite !dget_dset_ne. }
  assert (forall c l', dget (list_key a) c = Some (JList l') -> is_Some (inline_system_messages a c) ->
    inline_system_messages a c = Some (inlined a c l')) as Href.
  { intros c l' Hc [x Hx]. apply inline_ref; [done|]. destruct (forallb hashable l') eqn:Hh; [done|].
    assert (inline_system_messages a c = None) by (apply inline_None; eauto). congruence. }
  intros H1 H2. rewrite (Href c1 l Hl1) in H1 by eauto. rewrite (Href c2 _ Hl2) in H2 by eauto.
  injection H1 as <-. injection H2 as <-. pose proof (keys_differ a) as Hkd.
  destruct (inlined_lists a c1 l) as (E1 & P1 & K1). destruct (inlined_lists a c2 (l ++ more)) as (E2 & P2 & K2).
  rewrite (Hsame (prompt_key a)) in E2, P2 by congruence.
  destruct (kept_app (reminder_of a) (extendable a (dget (prompt_key a) c1)) l more Hs) as [Hk Hp].
  rewrite Hk in E2. rewrite Hp in P2. do 2 eexists. split_and!; [exact E1|exact E2|].
  intros k Hkk. destruct (decide (k = prompt_key a)) as [->|]; [by rewrite P1, P2|]. rewrite K1, K2 by done. by apply Hsame.
Qed.

Lemma inline_keeps_prefix_witness :
  exists b1 b2, inline_system_messages Anthropic (dset "messages" (JList (take 3 ex_list)) ex_body) = Some b1 /\
    inline_system_messages Anthropic (dset "messages" (JList (take 3 ex_list ++ [msg "user" "more"])) ex_body) = Some b2 /\
    dget "system" b2 = dget "system" b1.
Proof.
  eexists _, _. split; [vm_compute; reflexivity|]. split; [vm_compute; reflexivity|].
  edestruct (inline_keeps_prefix Anthropic ex_body (take 3 ex_list) [msg "user" "more"]) as (r1 & r2 & _ & _ & H);
    [vm_compute; reflexivity|vm_compute; reflexivity|vm_compute; reflexivity|].
  apply H. discriminate.
Defined.

(** Rewriting is idempotent, and when the prompt can be extended no system
    or developer message is left in the list. *)
Theorem inline_idempotent a b b' : inline_system_messages a b = Some b' ->
  inline_system_messages a b' = Some b' /\
  (extendable a (dget (prompt_key a) b) = true -> forall l, dget (list_key a) b' = Some (JList l) -> existsb sysb l = false).
Proof.
  destruct (dget (list_key a) b) as [[| | | |l|]|] eqn:Hl.
  5: destruct (forallb hashable l) eqn:Hh; [|intros Hb; assert (inline_system_messages a b = None) by (apply inline_None; eauto); congruence].
  5: rewrite (inline_ref a b l Hl Hh); intros [= <-]; by apply inlined_stable.
  all: intros Hb; assert (inline_system_messages a b = Some b) as Hid by
    (unfold inline_system_messages, list_key in *; destruct a;
     unfold inline_anthropic_system_messages, inline_responses_system_messages; by rewrite Hl).
  all: rewrite Hid in Hb; injection Hb as <-; split; [done|]; intros _ l' Hl'; congruence.
Qed.

Lemma inline_idempotent_witness :
  exists b', inline_system_messages Responses [("input", JList ex_list)] = Some b' /\
    inline_system_messages Responses b' = Some b'.
Proof.
  eexists. split; [vm_compute; reflexivity|].
  apply (inline_idempotent Responses [("input", JList ex_list)]). vm_compute. reflexivity.
Defined.
