(* ===== verification/Failover.v ===== *)
(** * Request forwarding with failover ([inference_proxy/api/routes.py])

    The two request loops, [_proxy_non_streaming] and [_stream_completion], and
    the relay of an established stream, over the shared state of [Routing] and
    [Breaker].  Upstream calls are arguments: each returns an outcome together
    with whatever the other tasks did to the shared state while it was awaited.
    Cancellation of the task is one of the outcomes.  The backend's URL is built
    by [build_backend_url] of [Endpoint]; [picks] resolves the random tie-break
    of the n-th selection. *)

From S2P Require Import Endpoint.
From S2P Require Import Prelude PyDict NodeModel Registry Routing Auth Json Breaker HealthChecker Dialects.
Import Reservations.
Local Open Scope Z_scope.

(** ** State *)

Record UsageRow := { row_user : Z; row_token : Z; row_model : string; row_endpoint : string; row_usage : Usage }.

Record Gateway := mkGateway {
  rw : Reservations.World Ext;
  metrics : Metrics.RequestMetrics;
  usage_rows : list UsageRow;
}.

Definition with_rw (x : Reservations.World Ext) (g : Gateway) : Gateway :=
  mkGateway x (metrics g) (usage_rows g).
Definition with_metrics (m : Metrics.RequestMetrics) (g : Gateway) : Gateway :=
  mkGateway (rw g) m (usage_rows g).

Definition nodes_of (g : Gateway) : NodeRegistry Ext := Reservations.reg (rw g).
Definition breakers_of (g : Gateway) : CircuitBreakerRegistry := cbs (Reservations.ext (rw g)).

Definition set_breakers (c : CircuitBreakerRegistry) (g : Gateway) : Gateway :=
  with_rw (Reservations.mkWorld (Reservations.reg (rw g)) (Reservations.trk (rw g))
             (mkExt c (failures (Reservations.ext (rw g)))) (res (rw g)) (pending (rw g))) g.

Definition release_w (h : nat) (g : Gateway) : Gateway := with_rw (release h (rw g)) g.

(** [reservation.release()] has run for this handle. *)
Definition released (h : nat) (g : Gateway) : bool :=
  match res (rw g) !! h with Some (_, b) => b | None => false end.

(** ** Responses *)

Inductive Reply :=
| JSONResponse (status : Z) (content : json) (exhausted : option nat)
| Raised                       (* an exception of the handler itself *)
| CancelledError.

(** The parts of a route that need no loop *)

(** [model] is falsy when it is [None] or empty. *)
Definition model_truthy (m : option string) : bool :=
  match m with Some m => str_truthy m | None => false end.

Definition _select_error (mdl : option string) (r : NodeRegistry Ext)
  (allowed : option (list string)) (own : option string) : Z * ErrorDetail :=
  let scoped := List.filter (fun n => Selector._in_scope n allowed own) (get_all r) in
  match scoped with
  | [] => no_nodes_error
  | _ =>
      match mdl with
      | Some m =>
          if negb (str_truthy m) then no_nodes_error
          else if negb (existsb (fun n => bool_decide (model n = m)) scoped) then model_not_found_error m
          else model_unavailable_error m
      | None => no_nodes_error
      end
  end.

Definition _model_scope_denied (auth : option TokenAuth) (mdl : option string) (dl : Dialect)
  : option Reply :=
  match auth with
  | None => None
  | Some a =>
      match model_scope (token a) with
      | None => None
      | Some scope =>
          if model_truthy mdl && bool_decide (default "" mdl ∈ scope) then None
          else let '(status, error) := model_not_permitted_error (default "" mdl) in
               Some (JSONResponse status (error_content dl error status None) None)
      end
  end.

Definition _is_retryable (e : Exc) : bool :=
  is_transport e || match e with HTTPStatusError code _ => 500 <=? code | _ => false end.

(** [circuit_breaker_registry.get_or_create(id).record_success()] *)
Definition record_success_w (id : string) (g : Gateway) : Gateway :=
  let '(c, h) := Breakers.get_or_create id (breakers_of g) in
  set_breakers (Breakers.update record_success h c) g.

Definition _record_failure_and_trip (n : Node) (g : Gateway) : Gateway :=
  let '(c, h) := Breakers.get_or_create (node_id n) (breakers_of g) in
  let c := Breakers.update record_failure h c in
  let g := set_breakers c g in
  if match Breakers.deref c h with Some b => is_open b | None => false end
  then with_rw (Reservations.with_reg (fst (update_status (node_id n) UNHEALTHY [HEALTHY] (nodes_of g))) (rw g)) g
  else g.

Definition _proxy_error_response (e : Z * ErrorDetail) (failover_exhausted : bool) (attempts : nat)
  (dl : Dialect) : Reply :=
  let '(status, error) := e in
  JSONResponse status
    (error_content dl error status (if failover_exhausted then Some "failover_exhausted" else None))
    (if failover_exhausted then Some attempts else None).

(** ** Upstream calls *)

(** [client.request] answers, raises or is cancelled; [None] content is a body
    that is not JSON.  [finite] says that its numbers are finite: Python reads
    [NaN] and [Infinity], and a [JSONResponse] refuses to write them. *)
Inductive Answer :=
| Responded (status_code : Z) (content : option json) (finite : bool) (text : string)
| Failed (e : Exc)
| Cancelled.

(** [JSONResponse(content=...)] returns. *)
Definition renders (content : option json) (finite : bool) : bool := is_none content || finite.

(** [await asyncio.to_thread(store.record_usage, ...)]: the row is stored, or
    not; a cancelled wait does not stop the thread. *)
Inductive Recording := Recorded (stored : bool) | Interrupted (stored : bool).
Definition row_stored (r : Recording) : bool := match r with Recorded b | Interrupted b => b end.
Definition interrupted (r : Recording) : bool := match r with Recorded _ => false | Interrupted _ => true end.

(** [ProxyClient.forward]: a status of 500 or more raises. *)
Definition forward (a : Answer) : Answer :=
  match a with
  | Responded code _ _ text => if 500 <=? code then Failed (HTTPStatusError code text) else a
  | _ => a
  end.

Definition is_success_code (code : Z) : bool := (200 <=? code) && (code <? 300).

(** [_response_content(response)] *)
Definition _response_content (content : option json) (text : string) : json :=
  match content with Some j => j | None => JObj [("raw", JStr text)] end.

(** One attempt as it happened: the reservation, its node and what its [try]
    came to, [None] when [build_backend_url] raised before it. *)
Record Attempt := { att_handle : nat; att_node : Node; att_answer : option Answer }.

Section proxy.
Context (request : Node -> Gateway -> Gateway * Answer).
Context (record_usage_call : Gateway -> Gateway * Recording).
Context (dotted : bool).
Context (picks : nat -> nat).
Context (mdl : option string).
Context (allowed : option (list string)).
Context (own : option string).
Context (usage_auth : option TokenAuth).
Context (endpoint_path : string).
Context (dl : Dialect).

(** [exclude_node_ids=excluded or None] *)
Definition or_none (excluded : list string) : option (list string) :=
  match excluded with [] => None | _ => Some excluded end.

Definition record_metrics (first : bool) (id : string) (g : Gateway) : Gateway :=
  with_metrics (if first then Metrics.record_request id mdl (metrics g)
                else Metrics.record_node_attempt id (metrics g)) g.

(** [_record_usage]: the row is stored off the event loop, failures are logged;
    the result says that the task was cancelled meanwhile. *)
Definition _record_usage (u : Usage) (g : Gateway) : Gateway * bool :=
  match usage_auth with
  | None => (g, false)
  | Some a =>
      let '(g, r) := record_usage_call g in
      let row := {| row_user := user_pk (user a); row_token := token_pk (token a);
                    row_model := default "" mdl; row_endpoint := endpoint_path; row_usage := u |} in
      (mkGateway (rw g) (metrics g) (usage_rows g ++ (if row_stored r then [row] else [])), interrupted r)
  end.

(** The rest of the [try] after an answer below 500: the breaker, the usage
    accounting and the response, any of which may end it. *)
Definition deliver (n : Node) (code : Z) (content : option json) (finite : bool) (text : string) (g : Gateway)
  : Gateway * Answer :=
  let g := if is_success_code code then record_success_w (node_id n) g else g in
  let '(g, cancelled) :=
    if is_success_code code && is_some usage_auth then
      match usage_from_body dl (Some (_response_content content text)) with
      | Some u => _record_usage u g
      | None => (g, false)
      end
    else (g, false) in
  if cancelled then (g, Cancelled)
  else if renders content finite then (g, Responded code content finite text)
  else (g, Failed OtherException).

(** The [try] of one attempt. *)
Definition attempt (n : Node) (g : Gateway) : Gateway * Answer :=
  let '(g, a) := request n g in
  match forward a with
  | Responded code content finite text => deliver n code content finite text g
  | a => (g, a)
  end.

(** The loop of [_proxy_non_streaming]; it also returns the attempts made. *)
Fixpoint proxy_loop (budget : nat) (excluded : list string) (last_error : option (Z * ErrorDetail))
  (attempts : nat) (g : Gateway) : Gateway * Reply * list Attempt :=
  match budget with
  | O =>
      match last_error with
      | None => (g, Raised, [])
      | Some e => (g, _proxy_error_response e true attempts dl, [])
      end
  | S budget =>
      let '(x, reservation) := select_and_reserve (picks attempts) mdl (or_none excluded) allowed own (rw g) in
      let g := with_rw x g in
      match reservation with
      | None =>
          match last_error with
          | Some e => (g, _proxy_error_response e true attempts dl, [])
          | None => (g, _proxy_error_response (_select_error mdl (nodes_of g) allowed own) false 0 dl, [])
          end
      | Some h =>
          match res (rw g) !! h with
          | None => (g, Raised, [])
          | Some (n, _) =>
              let g := record_metrics (Nat.eqb attempts 0) (node_id n) g in
              let attempts := S attempts in
              if negb (is_ok (build_backend_url dotted (endpoint n) endpoint_path)) then
                (g, Raised, [{| att_handle := h; att_node := n; att_answer := None |}])
              else
              let '(g, a) := attempt n g in
              let this := {| att_handle := h; att_node := n; att_answer := Some a |} in
              match a with
              | Responded code content _ text =>
                  (release_w h g, JSONResponse code (_response_content content text) None, [this])
              | Cancelled => (release_w h g, CancelledError, [this])
              | Failed e =>
                  let g := _record_failure_and_trip n g in
                  let err := map_proxy_error e in
                  let g := release_w h g in
                  if _is_retryable e then
                    let '(g, r, rest) :=
                      proxy_loop budget (node_id n :: excluded) (Some err) attempts g in
                    (g, r, this :: rest)
                  else (g, _proxy_error_response err false 0 dl, [this])
              end
          end
      end
  end.

Definition _proxy_non_streaming (max_attempts : nat) (g : Gateway) : Gateway * Reply * list Attempt :=
  proxy_loop max_attempts [] None 0 g.
End proxy.

(** ** Streaming *)

(** What the handshake met: response headers, an exception, the
    [asyncio.timeout] deadline, or cancellation of the task. *)
Inductive Handshake :=
| Headers (status_code : Z) (content : option json) (finite : bool) (text : string)
| HandshakeTimeout
| HandshakeFailed (e : Exc)
| HandshakeCancelled.

(** [EventSourceResponse(_stream_events(session, ...))]: the reservation moves
    to the session. *)
Inductive StreamReply :=
| Plain (r : Reply)
| Streaming (h : nat) (n : Node).

Section stream.
Context (connect : Node -> Gateway -> Gateway * Handshake).
Context (aclose : Gateway -> Gateway).
Context (now : nat -> Z).
Context (dotted : bool).
Context (picks : nat -> nat).
Context (mdl : option string).
Context (allowed : option (list string)).
Context (own : option string).
Context (endpoint_path : string).
Context (dl : Dialect).

(** [_close_streaming_attempt]: the context is closed, the reservation always
    released. *)
Definition _close_streaming_attempt (h : nat) (g : Gateway) : Gateway := release_w h (aclose g).

(** The handshake with its checks: [inl e] raises inside the [try]. *)
Definition handshake_result (remaining : Z) (hs : Handshake) : Exc + Handshake :=
  if remaining <=? 0 then inl TimeoutException
  else match hs with
       | HandshakeTimeout => inl TimeoutException
       | HandshakeFailed e => inl e
       | Headers code _ _ text => if 500 <=? code then inl (HTTPStatusError code text) else inr hs
       | HandshakeCancelled => inr hs
       end.

(** The loop of [_stream_completion].  The readings of the event-loop clock are
    [now (2 * i)] at the top of attempt [i] and [now (2 * i + 1)] before its
    handshake. *)
Fixpoint stream_loop (budget : nat) (deadline : Z) (excluded : list string)
  (last_error : option (Z * ErrorDetail)) (attempts : nat) (g : Gateway)
  : Gateway * StreamReply * list Attempt :=
  let exhausted :=
    match last_error with
    | None => (g, Plain Raised, [])
    | Some e => (g, Plain (_proxy_error_response e true attempts dl), [])
    end in
  match budget with
  | O => exhausted
  | S budget =>
      if deadline <=? now (2 * attempts) then exhausted
      else
      let '(x, reservation) := select_and_reserve (picks attempts) mdl (or_none excluded) allowed own (rw g) in
      let g := with_rw x g in
      match reservation with
      | None =>
          match last_error with
          | Some e => (g, Plain (_proxy_error_response e true attempts dl), [])
          | None => (g, Plain (_proxy_error_response (_select_error mdl (nodes_of g) allowed own) false 0 dl), [])
          end
      | Some h =>
          match res (rw g) !! h with
          | None => (g, Plain Raised, [])
          | Some (n, _) =>
              let g := record_metrics mdl (Nat.eqb attempts 0) (node_id n) g in
              if negb (is_ok (build_backend_url dotted (endpoint n) endpoint_path)) then
                (g, Plain Raised, [{| att_handle := h; att_node := n; att_answer := None |}])
              else
              let remaining := deadline - now (2 * attempts + 1) in
              let '(g, hs) := if remaining <=? 0 then (g, HandshakeTimeout) else connect n g in
              let attempts := S attempts in
              match handshake_result remaining hs with
              | inl e =>
                  let g := _close_streaming_attempt h g in
                  let g := _record_failure_and_trip n g in
                  let err := map_proxy_error e in
                  let this := {| att_handle := h; att_node := n; att_answer := Some (Failed e) |} in
                  if _is_retryable e then
                    let '(g, r, rest) :=
                      stream_loop budget deadline (node_id n :: excluded) (Some err) attempts g in
                    (g, r, this :: rest)
                  else (g, Plain (_proxy_error_response err false 0 dl), [this])
              | inr (Headers code content finite text) =>
                  let this := {| att_handle := h; att_node := n; att_answer := Some (Responded code content finite text) |} in
                  if is_success_code code then (g, Streaming h n, [this])
                  else
                    let g := _close_streaming_attempt h g in
                    if renders content finite then (g, Plain (JSONResponse code (_response_content content text) None), [this])
                    else
                      let g := _record_failure_and_trip n (_close_streaming_attempt h g) in
                      (g, Plain (_proxy_error_response (map_proxy_error OtherException) false 0 dl),
                       [{| att_handle := h; att_node := n; att_answer := Some (Failed OtherException) |}])
              | inr _ =>
                  (* a cancellation is not an [Exception] *)
                  (g, Plain CancelledError,
                   [{| att_handle := h; att_node := n; att_answer := Some Cancelled |}])
              end
          end
      end
  end.

Definition _stream_completion (max_attempts : nat) (start handshake_timeout : Z) (g : Gateway) :=
  stream_loop max_attempts (start + handshake_timeout) [] None 0 g.
End stream.

(** ** Relaying an established stream *)

(** How the iteration over the upstream events ends: exhausted, an exception,
    or the generator being closed or cancelled by the client side. *)
Inductive StreamEnd := Exhausted | StreamException (e : Exc) | Disconnected.

Section relay.
Context (aclose : Gateway -> Gateway) (record_usage_call : Gateway -> Gateway * Recording).
Context (usage_auth : option TokenAuth) (mdl : option string) (endpoint_path : string) (dl : Dialect).

(** [_flush()] with [recorded] as the flag it guards. *)
Definition flush (t : Tracking) (recorded : bool) (g : Gateway) : Gateway * bool :=
  if recorded || is_none usage_auth then (g, false)
  else _record_usage record_usage_call mdl usage_auth endpoint_path (default (0, 0, 0) (tracker_usage dl t)) g.

(** The [async for]: frames out, the tracker state, and whether the dialect's
    terminal event arrived. *)
Fixpoint relay (events : list Sse) (t : Tracking) : list Frame * Tracking * bool :=
  match events with
  | [] => ([], t, false)
  | e :: events =>
      let '(t, finished) := observe dl t e in
      if finished then ([relay_frame e], t, true)
      else let '(fs, t, fin) := relay events t in (relay_frame e :: fs, t, fin)
  end.

Definition _stream_events (h : nat) (n : Node) (events : list Sse) (ending : StreamEnd) (g : Gateway)
  : Gateway * list Frame :=
  let '(frames, t, finished) := relay events stream_tracker in
  if finished then
    let '(g, _) := flush t false (record_success_w (node_id n) g) in
    (_close_streaming_attempt aclose h g, frames)
  else match ending with
  | Exhausted => let '(g, _) := flush t false g in (_close_streaming_attempt aclose h g, frames)
  | StreamException e =>
      let g := _record_failure_and_trip n g in
      let '(status, error) := map_proxy_error e in
      let '(g, cancelled) := flush t false g in
      (_close_streaming_attempt aclose h g, if cancelled then frames else frames ++ stream_error dl error status)
  | Disconnected => (_close_streaming_attempt aclose h g, frames)
  end.
End relay.

(** ** Listing models *)

(** [models_seen]: one entry per model of a public healthy node. *)
Definition listed_model (scope : option (list string)) (n : Node) : bool :=
  negb (match scope with Some s => negb (bool_decide (model n ∈ s)) | None => false end) &&
  bool_decide (status n = HEALTHY) && negb (admin_only n) && negb (str_truthy (owner n)) &&
  str_truthy (model n).

Definition list_models (scope : option (list string)) (nodes : list Node) : list (string * InferenceEngine) :=
  fold_left (fun seen n =>
    if listed_model scope n && negb (dmem (model n) seen) then dset (model n) (engine n) seen else seen)
    nodes [].

(** ** Reservations are permanent

    A handle, once created, keeps its node; a released one stays released. *)

Definition res_le (g g' : Gateway) : Prop :=
  forall h n b, res (rw g) !! h = Some (n, b) ->
    exists b', res (rw g') !! h = Some (n, b') /\ (b = true -> b' = true).

Lemma res_le_refl g : res_le g g.
Proof. intros h n b H. eauto. Qed.

Lemma res_le_trans g1 g2 g3 : res_le g1 g2 -> res_le g2 g3 -> res_le g1 g3.
Proof.
  intros H1 H2 h n b Hb. destruct (H1 h n b Hb) as (b2 & Hb2 & Hi).
  destruct (H2 h n b2 Hb2) as (b3 & Hb3 & Hi'). eauto.
Qed.

Lemma res_eq_le g g' : res (rw g) = res (rw g') -> res_le g g'.
Proof. intros Heq h n b H. rewrite <- Heq. eauto. Qed.

Lemma released_le h g g' : res_le g g' -> released h g = true -> released h g' = true.
Proof.
  unfold released. intros Hle H. destruct (res (rw g) !! h) as [[n b]|] eqn:Hh; [|done].
  destruct (Hle h n b Hh) as (b' & -> & Hb). auto.
Qed.

Lemma res_sweep {E} (w : Reservations.World E) id : res (_release id w) = res w.
Proof.
  unfold _release. by destruct (Selector.sweep_drained_nodes _ _ _) as [[[? ?] ?] ?].
Qed.

Lemma res_release {E} h n (w : Reservations.World E) :
  res w !! h = Some (n, false) -> res (release h w) = <[h := (n, true)]> (res w).
Proof.
  intros Hh. unfold release, release_begin. rewrite Hh. unfold release_end. cbn [pending].
  rewrite decide_True by set_solver. cbn [res]. by rewrite res_sweep.
Qed.

Lemma release_le h g : res_le g (release_w h g).
Proof.
  unfold release_w. intros k n b Hk. cbn [with_rw rw].
  destruct (res (rw g) !! h) as [[m [|]]|] eqn:Hh.
  - unfold release. rewrite Hh. eauto.
  - rewrite (res_release h m _ Hh). destruct (decide (k = h)) as [->|Hne].
    + simplify_eq. rewrite list_lookup_insert_eq; [eauto|]. by eapply lookup_lt_Some.
    + rewrite list_lookup_insert_ne by done. eauto.
  - unfold release. rewrite Hh. eauto.
Qed.

Lemma release_released h g n b : res (rw g) !! h = Some (n, b) -> released h (release_w h g) = true.
Proof.
  intros Hh. unfold released, release_w. cbn [with_rw rw]. destruct b.
  - unfold release. rewrite Hh. by rewrite Hh.
  - rewrite (res_release h n _ Hh), list_lookup_insert_eq; [done|]. by eapply lookup_lt_Some.
Qed.

Lemma res_set_breakers c g : res (rw (set_breakers c g)) = res (rw g).
Proof. done. Qed.

Lemma res_record_failure n g : res (rw (_record_failure_and_trip n g)) = res (rw g).
Proof.
  unfold _record_failure_and_trip. destruct (Breakers.get_or_create _ _) as [c h]. by case_match.
Qed.

Lemma res_record_success id g : res (rw (record_success_w id g)) = res (rw g).
Proof. unfold record_success_w. by destruct (Breakers.get_or_create _ _) as [c h]. Qed.

(** The reservation made by [select_and_reserve]. *)
Lemma reserve_spec pick mdl ex allowed own g :
  let x := fst (select_and_reserve pick mdl ex allowed own (rw g)) in
  let o := snd (select_and_reserve pick mdl ex allowed own (rw g)) in
  res_le g (with_rw x g) /\
  match o with
  | None => x = rw g
  | Some h => exists n, res x !! h = Some (n, false) /\
                Selector.eligible mdl ex allowed own n = true /\ n ∈ get_all (nodes_of g)
  end.
Proof.
  unfold select_and_reserve. destruct (Selector._select_locked _ _ _ _ _ _ _) as [n|] eqn:Hs; cbn [fst snd].
  - split.
    + intros h m b Hh. cbn. exists b. split; [|done]. by apply lookup_app_l_Some.
    + exists n. cbn. rewrite lookup_app_r, Nat.sub_diag by lia. apply select_eligible in Hs as [? ?]. done.
  - split; [apply res_eq_le; done|done].
Qed.

(** What the other tasks may do while this one waits. *)
Definition keeps_res (f : Gateway -> Gateway) : Prop := forall g, res_le g (f g).

Lemma record_usage_le call mdl auth path u g : keeps_res (fun g => fst (call g)) -> res_le g (fst (_record_usage call mdl auth path u g)).
Proof.
  intros Hcall. unfold _record_usage. destruct auth; [|apply res_le_refl]. intros h m b Hh. destruct (Hcall g h m b Hh) as (b' & Hb & Hi).
  destruct (call g) as [g' r]. by exists b'.
Qed.

Lemma deliver_le call mdl auth path dl n code c fin t g : keeps_res (fun g => fst (call g)) ->
  res_le g (fst (deliver call mdl auth path dl n code c fin t g)).
Proof.
  intros Hcall. unfold deliver. set (g1 := if is_success_code code then _ else g).
  assert (res_le g g1) as H1.
  { unfold g1. case_match; [|apply res_le_refl]. apply res_eq_le. by rewrite res_record_success. }
  eapply res_le_trans; [exact H1|]. destruct (is_success_code code && is_some auth).
  - destruct (usage_from_body dl _) as [u|]; [|destruct (renders c fin); apply res_le_refl].
    pose proof (record_usage_le call mdl auth path u g1 Hcall) as Hu. destruct (_record_usage _ _ _ _ _ _) as [g2 []]; [done|]. by destruct (renders c fin).
  - destruct (renders c fin); apply res_le_refl.
Qed.

Section loop_facts.
Context (request : Node -> Gateway -> Gateway * Answer) (call : Gateway -> Gateway * Recording).
Context (dotted : bool) (picks : nat -> nat) (mdl : option string).
Context (allowed : option (list string)) (own : option string).
Context (auth : option TokenAuth) (path : string) (dl : Dialect).
Context (Hreq : forall n, keeps_res (fun g => fst (request n g))) (Hcall : keeps_res (fun g => fst (call g))).
Abbreviation loop := (proxy_loop request call dotted picks mdl allowed own auth path dl).

(** A node the request may be sent to while [excluded] is excluded. *)
Definition attempt_ok (excluded : list string) (a : Attempt) : Prop :=
  node_id (att_node a) ∉ excluded /\ status (att_node a) = HEALTHY /\
  Selector._in_scope (att_node a) allowed own = true /\
  (forall m, mdl = Some m -> model (att_node a) = m).

(** How the reply follows from the attempts; [e0] is the error before them. *)
Fixpoint explains (budget : nat) (attempts : nat) (e0 : option (Z * ErrorDetail)) (l : list Attempt)
  (r : Reply) : Prop :=
  match l with
  | [] =>
      match e0 with
      | Some e => r = _proxy_error_response e true attempts dl
      | None =>
          match budget with
          | O => r = Raised
          | _ => exists g, r = _proxy_error_response (_select_error mdl (nodes_of g) allowed own) false 0 dl
          end
      end
  | a :: l =>
      match att_answer a with
      | Some (Responded code content finite text) =>
          l = [] /\ r = JSONResponse code (_response_content content text) None /\ code < 500 /\ renders content finite = true
      | Some Cancelled => l = [] /\ r = CancelledError
      | None => l = [] /\ r = Raised /\ is_ok (build_backend_url dotted (endpoint (att_node a)) path) = false
      | Some (Failed e) =>
          if _is_retryable e
          then explains (pred budget) (S attempts) (Some (map_proxy_error e)) l r
          else l = [] /\ r = _proxy_error_response (map_proxy_error e) false 0 dl
      end
  end.

Lemma eligible_ok excluded n : Selector.eligible mdl (or_none excluded) allowed own n = true ->
  node_id n ∉ excluded /\ status n = HEALTHY /\ Selector._in_scope n allowed own = true /\
  (forall m, mdl = Some m -> model n = m).
Proof.
  unfold Selector.eligible. intros H. bool_to_prop. split_and!; [|done|done|].
  - destruct excluded; cbn in *; [by apply not_elem_of_nil|]. by bool_to_prop.
  - intros m ->. by bool_to_prop.
Qed.

(** What a run of the loop establishes. *)
Definition loop_post (budget attempts : nat) (excluded : list string) (e0 : option (Z * ErrorDetail))
  (g : Gateway) (out : Gateway * Reply * list Attempt) : Prop :=
  res_le g (fst (fst out)) /\
  (forall a, a ∈ snd out -> att_answer a <> None -> released (att_handle a) (fst (fst out)) = true) /\
  (length (snd out) <= budget)%nat /\
  NoDup (node_id ∘ att_node <$> snd out) /\
  (forall a, a ∈ snd out -> attempt_ok excluded a) /\
  explains budget attempts e0 (snd out) (snd (fst out)).

(** A run that ends without a further attempt. *)
Lemma loop_post_nil budget attempts excluded e0 g g' r :
  res_le g g' -> explains budget attempts e0 [] r -> loop_post budget attempts excluded e0 g (g', r, []).
Proof.
  intros Hle He. split_and!; cbn [fst snd]; [done| |cbn; lia|constructor| |done];
    by intros a ?%not_elem_of_nil.
Qed.

(** A run that ends with this attempt. *)
Lemma loop_post_one budget attempts excluded e0 g g' r a :
  res_le g g' -> (att_answer a <> None -> released (att_handle a) g' = true) -> attempt_ok excluded a ->
  explains (S budget) attempts e0 [a] r -> loop_post (S budget) attempts excluded e0 g (g', r, [a]).
Proof.
  intros Hle Hr Ha He. split_and!; cbn [fst snd]; [done| |cbn; lia|apply NoDup_singleton| |done];
    by intros b ->%list_elem_of_singleton.
Qed.

(** A failed attempt followed by the rest of the loop. *)
Lemma loop_post_cons budget attempts excluded e0 e g g1 g' r l a :
  att_answer a = Some (Failed e) -> _is_retryable e = true ->
  res_le g g1 -> released (att_handle a) g1 = true -> attempt_ok excluded a ->
  loop_post budget (S attempts) (node_id (att_node a) :: excluded) (Some (map_proxy_error e)) g1 (g', r, l) ->
  loop_post (S budget) attempts excluded e0 g (g', r, a :: l).
Proof.
  intros Ha He Hle Hr Hok (H1 & H2 & H3 & H4 & H5 & H6). cbn [fst snd] in *.
  split_and!; cbn [fst snd].
  - by eapply res_le_trans.
  - intros b [->|Hb]%elem_of_cons; [intros _; by eapply released_le|auto].
  - cbn. lia.
  - rewrite fmap_cons. apply NoDup_cons. split; [|done].
    intros (b & Heq & Hb)%list_elem_of_fmap. destruct (H5 b Hb) as [Hn _]. cbn in Heq. set_solver.
  - intros b [->|Hb]%elem_of_cons; [done|]. destruct (H5 b Hb) as (Hn & Hrest). split; [set_solver|done].
  - cbn [explains]. rewrite Ha, He. exact H6.
Qed.

(** An answer that leaves the [try] is below 500 and can be written. *)
Lemma attempt_facts n g : let o := attempt request call mdl auth path dl n g in
  res_le g (fst o) /\ match snd o with Responded code content fin _ => code < 500 /\ renders content fin = true | _ => True end.
Proof.
  unfold attempt. pose proof (Hreq n g) as Hle. cbn in Hle. destruct (request n g) as [g1 a]. cbn [fst] in Hle.
  destruct (forward a) as [code content fin text|e|] eqn:Hf; [|done|done].
  pose proof (deliver_le call mdl auth path dl n code content fin text g1 Hcall) as Hd. split; [by eapply res_le_trans|].
  assert (code < 500) as Hc. { unfold forward in Hf. destruct a as [c' ? ? ?|?|]; [|done..]. destruct (Z.leb_spec 500 c'); [done|]. by simplify_eq. }
  unfold deliver. destruct (if is_success_code code && is_some auth then _ else _) as [g2 []]; [done|]. by destruct (renders content fin) eqn:Hr.
Qed.

Lemma proxy_loop_spec budget excluded e0 attempts g :
  loop_post budget attempts excluded e0 g (loop budget excluded e0 attempts g).
Proof.
  revert excluded e0 attempts g. induction budget as [|budget IH]; intros excluded e0 attempts g; cbn [proxy_loop].
  { destruct e0; apply loop_post_nil; done || apply res_le_refl. }
  pose proof (reserve_spec (picks attempts) mdl (or_none excluded) allowed own g) as [Hle Ho].
  destruct (select_and_reserve (picks attempts) mdl (or_none excluded) allowed own (rw g)) as [x [h|]];
    cbn [fst snd] in *; cycle 1.
  { destruct e0; apply loop_post_nil; cbn [explains]; eauto. }
  destruct Ho as (n & Hres & Hel & _). cbn [with_rw rw]. rewrite Hres.
  set (g1 := record_metrics mdl _ _ (with_rw x g)).
  assert (res (rw g1) !! h = Some (n, false)) as Hg1 by done.
  assert (res_le g g1) as Hle1 by done.
  destruct (eligible_ok excluded n Hel) as (He1 & He2 & He3 & He4).
  assert (forall ans, attempt_ok excluded {| att_handle := h; att_node := n; att_answer := ans |}) as Hok by (intros ans; by split_and!).
  destruct (is_ok (build_backend_url dotted (endpoint n) path)) eqn:Hurl; cbn [negb]; [|by apply loop_post_one].
  destruct (attempt_facts n g1) as [Hle2 Hans]. destruct (attempt request call mdl auth path dl n g1) as [g2 a]. cbn [fst snd] in Hle2, Hans.
  destruct (Hle2 h n false Hg1) as (b2 & Hg2 & _).
  pose proof (res_le_trans _ _ _ Hle1 Hle2) as Hle02.
  assert (forall g3, res_le g2 g3 -> res_le g (release_w h g3) /\ released h (release_w h g3) = true) as Hrel.
  { intros g3 H23. destruct (H23 h n b2 Hg2) as (b3 & Hg3 & _). split.
    - eapply res_le_trans; [exact Hle02|]. eapply res_le_trans; [exact H23|apply release_le].
    - by eapply release_released. }
  destruct (Hrel g2 (res_le_refl g2)) as [R1 R2]. destruct a as [code content fin text|e|].
  - apply loop_post_one; [done|done|done|]. destruct Hans as [Hcode Hrend]. cbn [explains att_answer]. by split_and!.
  - destruct (Hrel (_record_failure_and_trip n g2)) as [R3 R4]; [apply res_eq_le; by rewrite res_record_failure|].
    destruct (_is_retryable e) eqn:Hret.
    + specialize (IH (node_id n :: excluded) (Some (map_proxy_error e)) (S attempts)
                    (release_w h (_record_failure_and_trip n g2))).
      destruct (loop budget (node_id n :: excluded) _ _ _) as [[g' r] l].
      eapply (loop_post_cons _ _ _ _ e); [done|done|exact R3|exact R4|done|done].
    + apply loop_post_one; [done|done|done|]. cbn [explains att_answer]. by rewrite Hret.
  - by apply loop_post_one.
Qed.
End loop_facts.

(** C1: failover.  A non-streaming request is sent to at most [max_attempts]
    nodes, all different, each one healthy, in the caller's scope and serving
    the model when it was chosen; every attempt but the last failed with a
    retryable error, and the reply is exactly what the last attempt calls for:
    the backend's own response below 500, the mapped error (marked exhausted
    with the number of attempts when the failure was retryable), the selection
    error when no node could be tried, the cancellation, or, when no URL can be
    built from the node's endpoint, an exception of the handler.  Every
    reservation is released, except the one of a node whose endpoint gives no
    URL. *)
Theorem failover_spec request call dotted picks mdl allowed own auth path dl max_attempts g :
  (forall n, keeps_res (fun g => fst (request n g))) -> keeps_res (fun g => fst (call g)) ->
  let out := _proxy_non_streaming request call dotted picks mdl allowed own auth path dl max_attempts g in
  let attempts := snd out in
  (length attempts <= max_attempts)%nat /\
  NoDup (node_id ∘ att_node <$> attempts) /\
  (forall a, a ∈ attempts -> status (att_node a) = HEALTHY /\
     Selector._in_scope (att_node a) allowed own = true /\
     (forall m, mdl = Some m -> model (att_node a) = m)) /\
  explains dotted mdl allowed own path dl max_attempts 0 None attempts (snd (fst out)) /\
  (forall a, a ∈ attempts -> att_answer a <> None -> released (att_handle a) (fst (fst out)) = true).
Proof.
  intros Hr Hc. cbn zeta. unfold _proxy_non_streaming.
  destruct (proxy_loop_spec request call dotted picks mdl allowed own auth path dl Hr Hc max_attempts [] None 0 g)
    as (_ & H2 & H3 & H4 & H5 & H6).
  split_and!; [done|done| |done|done]. intros a Ha. by destruct (H5 a Ha) as (_ & ?).
Qed.

(** ** Metrics *)

Section metrics_facts.
Context (request : Node -> Gateway -> Gateway * Answer) (call : Gateway -> Gateway * Recording).
Context (dotted : bool) (picks : nat -> nat) (mdl : option string).
Context (allowed : option (list string)) (own : option string).
Context (auth : option TokenAuth) (path : string) (dl : Dialect).
Context (Hreq : forall n g, metrics (fst (request n g)) = metrics g).
Context (Hcall : forall g, metrics (fst (call g)) = metrics g).

Lemma metrics_record_failure n g : metrics (_record_failure_and_trip n g) = metrics g.
Proof. unfold _record_failure_and_trip. destruct (Breakers.get_or_create _ _). by case_match. Qed.

Lemma metrics_attempt n g : metrics (fst (attempt request call mdl auth path dl n g)) = metrics g.
Proof.
  unfold attempt. pose proof (Hreq n g) as Hr. destruct (request n g) as [g1 a]. cbn [fst] in Hr. rewrite <- Hr. destruct (forward a) as [code c fin t|e|]; [|done|done]. unfold deliver.
  assert (metrics (if is_success_code code then record_success_w (node_id n) g1 else g1) = metrics g1) as Hm.
  { case_match; [|done]. unfold record_success_w. by destruct (Breakers.get_or_create _ _). }
  revert Hm. generalize (if is_success_code code then record_success_w (node_id n) g1 else g1). intros g2 Hm. rewrite <- Hm.
  assert (forall u, metrics (fst (_record_usage call mdl auth path u g2)) = metrics g2) as Hu.
  { intros u. unfold _record_usage. destruct auth; [|done]. pose proof (Hcall g2) as Hg. by destruct (call g2) as [g3 r]. }
  destruct (is_success_code code && is_some auth); [|by destruct (renders c fin)]. destruct (usage_from_body dl _) as [u|]; [|by destruct (renders c fin)].
  specialize (Hu u). destruct (_record_usage _ _ _ _ _ _) as [g3 []]; [done|]. by destruct (renders c fin).
Qed.

(** One request counted at its first node, one attempt at every further node. *)
Definition count_attempts (attempts : nat) (l : list Attempt) (m : Metrics.RequestMetrics) : Metrics.RequestMetrics :=
  match l with
  | [] => m
  | a :: l =>
      let ids := node_id ∘ att_node <$> l in
      fold_left (fun m id => Metrics.record_node_attempt id m) ids
        (if Nat.eqb attempts 0 then Metrics.record_request (node_id (att_node a)) mdl m
         else Metrics.record_node_attempt (node_id (att_node a)) m)
  end.

Lemma count_attempts_S k l m : count_attempts (S k) l m =
  fold_left (fun m id => Metrics.record_node_attempt id m) (node_id ∘ att_node <$> l) m.
Proof. by destruct l. Qed.

Lemma proxy_loop_metrics budget excluded e0 attempts g :
  let out := proxy_loop request call dotted picks mdl allowed own auth path dl budget excluded e0 attempts g in
  metrics (fst (fst out)) = count_attempts attempts (snd out) (metrics g).
Proof.
  revert excluded e0 attempts g. induction budget as [|budget IH]; intros excluded e0 attempts g; cbn [proxy_loop].
  { by destruct e0. }
  destruct (select_and_reserve (picks attempts) mdl (or_none excluded) allowed own (rw g)) as [x [h|]];
    [|by destruct e0]. cbn [with_rw rw].
  destruct (res x !! h) as [[n b]|]; [|done].
  set (g1 := record_metrics mdl _ _ (with_rw x g)).
  assert (metrics g1 = if Nat.eqb attempts 0 then Metrics.record_request (node_id n) mdl (metrics g)
                       else Metrics.record_node_attempt (node_id n) (metrics g)) as Hg1 by done.
  destruct (is_ok (build_backend_url dotted (endpoint n) path)); cbn [negb]; [|exact Hg1].
  pose proof (metrics_attempt n g1) as Hr. destruct (attempt _ _ _ _ _ _ n g1) as [g2 a]. cbn [fst] in Hr.
  destruct a as [code content fin text|e|]; cbn [fst snd count_attempts fmap list_fmap fold_left att_node release_w with_rw metrics].
  - by rewrite Hr.
  - destruct (_is_retryable e).
    + specialize (IH (node_id n :: excluded) (Some (map_proxy_error e)) (S attempts)
                    (release_w h (_record_failure_and_trip n g2))).
      destruct (proxy_loop _ _ _ _ _ _ _ _ _ _ budget _ _ _ _) as [[g' r] l].
      cbn [fst snd] in IH |- *. rewrite IH, count_attempts_S. cbn [release_w with_rw metrics count_attempts att_node].
      by rewrite metrics_record_failure, Hr.
    + cbn. by rewrite metrics_record_failure, Hr.
  - by rewrite Hr.
Qed.
End metrics_facts.

(** A request is counted once however many nodes it needed: the total and
    the model's count grow by one when any node was tried, and each node's
    count grows by the number of times it was tried. *)
Theorem metrics_exact request call dotted picks mdl allowed own auth path dl max_attempts g :
  (forall n g, metrics (fst (request n g)) = metrics g) -> (forall g, metrics (fst (call g)) = metrics g) ->
  let out := _proxy_non_streaming request call dotted picks mdl allowed own auth path dl max_attempts g in
  let m := metrics (fst (fst out)) in
  let tried := node_id ∘ att_node <$> snd out in
  Metrics._total m = Metrics._total (metrics g) + (match tried with [] => 0 | _ => 1 end) /\
  (forall id, default 0 (Metrics._per_node m !! id) =
     default 0 (Metrics._per_node (metrics g) !! id) + Z.of_nat (length (List.filter (fun k => bool_decide (k = id)) tried))) /\
  (forall k, default 0 (Metrics._per_model m !! k) =
     default 0 (Metrics._per_model (metrics g) !! k) +
     (match tried with [] => 0 | _ => if decide (mdl = Some k) then 1 else 0 end)).
Proof.
  intros Hr Hc. cbn zeta. unfold _proxy_non_streaming.
  rewrite (proxy_loop_metrics request call dotted picks mdl allowed own auth path dl Hr Hc).
  destruct (snd _) as [|a l]; cbn [count_attempts].
  { cbn. split_and!; [lia|intros; lia|intros; lia]. }
  rewrite fmap_cons. cbn [Nat.eqb].
  set (ids := node_id ∘ att_node <$> l). set (m0 := Metrics.record_request _ _ _).
  assert (forall ids m, let m' := fold_left (fun m id => Metrics.record_node_attempt id m) ids m in
    Metrics._total m' = Metrics._total m /\ Metrics._per_model m' = Metrics._per_model m /\
    (forall id, default 0 (Metrics._per_node m' !! id) = default 0 (Metrics._per_node m !! id) +
       Z.of_nat (length (List.filter (fun k => bool_decide (k = id)) ids)))) as Hfold.
  { clear. induction ids as [|k ids IH]; intros m; cbn [fold_left].
    { split_and!; [done|done|]. intros. cbn. lia. }
    destruct (IH (Metrics.record_node_attempt k m)) as (H1 & H2 & H3). split_and!; [done|done|].
    intros id. rewrite H3. unfold Metrics.record_node_attempt, Metrics.bump. cbn [Metrics._per_node].
    rewrite lookup_insert. cbn [List.filter]. destruct (decide (k = id)) as [Heq|Hne].
    - rewrite bool_decide_true by done. subst id. cbn [length from_option Datatypes.id]. lia.
    - rewrite bool_decide_false by done. lia. }
  destruct (Hfold ids m0) as (H1 & H2 & H3). split_and!.
  - rewrite H1. done.
  - intros id. rewrite H3. unfold m0, Metrics.record_request, Metrics.bump. cbn [Metrics._per_node].
    rewrite lookup_insert. change ((node_id ∘ att_node) a) with (node_id (att_node a)). cbn [List.filter].
    destruct (decide (node_id (att_node a) = id)) as [Heq|Hne].
    + rewrite bool_decide_true by done. subst id. cbn [length from_option Datatypes.id]. lia.
    + rewrite bool_decide_false by done. lia.
  - intros k. rewrite H2. unfold m0, Metrics.record_request. cbn [Metrics._per_model].
    destruct mdl as [mo|]; [|rewrite decide_False by done; lia]. unfold Metrics.bump. rewrite lookup_insert.
    repeat case_decide; simplify_eq; cbn [from_option Datatypes.id]; try done; lia.
Qed.

(** ** Streaming *)

Section stream_facts.
Context (connect : Node -> Gateway -> Gateway * Handshake) (aclose : Gateway -> Gateway).
Context (now : nat -> Z) (dotted : bool) (picks : nat -> nat) (mdl : option string).
Context (allowed : option (list string)) (own : option string) (path : string) (dl : Dialect).
Context (Hcon : forall n, keeps_res (fun g => fst (connect n g))) (Hclose : keeps_res aclose).
Abbreviation loop := (stream_loop connect aclose now dotted picks mdl allowed own path dl).

(** Who owns the reservation of an attempt when the handler has returned. *)
Definition settled_attempt (g : Gateway) (r : StreamReply) (a : Attempt) : Prop :=
  released (att_handle a) g = true \/
  r = Streaming (att_handle a) (att_node a) \/
  (r = Plain CancelledError /\ att_answer a = Some Cancelled) \/
  (r = Plain Raised /\ att_answer a = None).

Definition stream_post (budget : nat) (excluded : list string) (g : Gateway)
  (out : Gateway * StreamReply * list Attempt) : Prop :=
  res_le g (fst (fst out)) /\
  (forall a, a ∈ snd out -> settled_attempt (fst (fst out)) (snd (fst out)) a) /\
  (length (snd out) <= budget)%nat /\
  NoDup (node_id ∘ att_node <$> snd out) /\
  (forall a, a ∈ snd out -> node_id (att_node a) ∉ excluded) /\
  (forall h n, snd (fst out) = Streaming h n -> exists b, res (rw (fst (fst out))) !! h = Some (n, b)).

Lemma stream_post_nil budget excluded g g' r :
  res_le g g' -> stream_post budget excluded g (g', Plain r, []).
Proof.
  intros Hle. split_and!; cbn [fst snd]; [done| |cbn; lia|constructor| |done]; by intros a ?%not_elem_of_nil.
Qed.

Lemma stream_post_one budget excluded g g' r a :
  res_le g g' -> settled_attempt g' r a -> node_id (att_node a) ∉ excluded ->
  (forall h n, r = Streaming h n -> exists b, res (rw g') !! h = Some (n, b)) ->
  stream_post (S budget) excluded g (g', r, [a]).
Proof.
  intros Hle Hs Hn Hr. split_and!; cbn [fst snd]; [done| |cbn; lia|apply NoDup_singleton| |done];
    by intros b ->%list_elem_of_singleton.
Qed.

Lemma close_released h n b g : res (rw g) !! h = Some (n, b) ->
  res_le g (_close_streaming_attempt aclose h g) /\ released h (_close_streaming_attempt aclose h g) = true.
Proof.
  intros Hh. unfold _close_streaming_attempt. destruct (Hclose g h n b Hh) as (b' & Hb' & _). split.
  - eapply res_le_trans; [apply Hclose|apply release_le].
  - by eapply release_released.
Qed.

Lemma stream_loop_spec budget deadline excluded e0 attempts g :
  stream_post budget excluded g (loop budget deadline excluded e0 attempts g).
Proof.
  revert excluded e0 attempts g. induction budget as [|budget IH]; intros excluded e0 attempts g; cbn [stream_loop].
  { destruct e0; apply stream_post_nil, res_le_refl. }
  case_match; [destruct e0; apply stream_post_nil, res_le_refl|].
  pose proof (reserve_spec (picks attempts) mdl (or_none excluded) allowed own g) as [Hle Ho].
  destruct (select_and_reserve (picks attempts) mdl (or_none excluded) allowed own (rw g)) as [x [h|]];
    cbn [fst snd] in *; cycle 1.
  { destruct e0; by apply stream_post_nil. }
  destruct Ho as (n & Hres & Hel & _). cbn [with_rw rw]. rewrite Hres.
  set (g1 := record_metrics mdl _ _ (with_rw x g)).
  assert (res (rw g1) !! h = Some (n, false)) as Hg1 by done.
  assert (res_le g g1) as Hle1 by done.
  destruct (eligible_ok mdl allowed own excluded n Hel) as (He1 & _).
  destruct (is_ok (build_backend_url dotted (endpoint n) path)); cbn [negb]; [|apply stream_post_one; [done|by right; right; right|done|done]].
  set (remaining := deadline - now (2 * attempts + 1)).
  assert (res_le g1 (fst (if remaining <=? 0 then (g1, HandshakeTimeout) else connect n g1))) as Hle2.
  { case_match; [apply res_le_refl|apply (Hcon n g1)]. }
  destruct (if remaining <=? 0 then _ else _) as [g2 hs]. cbn [fst] in Hle2.
  destruct (Hle2 h n false Hg1) as (b2 & Hg2 & _). pose proof (res_le_trans _ _ _ Hle1 Hle2) as Hle02.
  destruct (close_released h n b2 g2 Hg2) as [Hc1 Hc2]. pose proof (res_le_trans _ _ _ Hle02 Hc1) as Hle03.
  destruct (handshake_result remaining hs) as [e|[code content fin text| | |]].
  - set (g4 := _record_failure_and_trip n (_close_streaming_attempt aclose h g2)).
    assert (res_le (_close_streaming_attempt aclose h g2) g4) as H34.
    { apply res_eq_le. unfold g4. by rewrite res_record_failure. }
    pose proof (res_le_trans _ _ _ Hle03 H34) as Hle04. pose proof (released_le _ _ _ H34 Hc2) as Hr4.
    destruct (_is_retryable e).
    + specialize (IH (node_id n :: excluded) (Some (map_proxy_error e)) (S attempts) g4).
      destruct (loop budget deadline (node_id n :: excluded) _ _ _) as [[g' r] l].
      destruct IH as (I1 & I2 & I3 & I4 & I5 & I6). cbn [fst snd] in *. split_and!; cbn [fst snd].
      * by eapply res_le_trans.
      * intros a [->|Ha]%elem_of_cons; [left; by eapply released_le|auto].
      * cbn. lia.
      * rewrite fmap_cons. apply NoDup_cons. split; [|done].
        intros (b & Heq & Hb)%list_elem_of_fmap. specialize (I5 b Hb). cbn in Heq. set_solver.
      * intros a [->|Ha]%elem_of_cons; [done|]. specialize (I5 a Ha). set_solver.
      * done.
    + apply stream_post_one; [done|by left|done|done].
  - destruct (is_success_code code); [apply stream_post_one; [done|right; by left|done|]; intros h' n' [= <- <-]; eauto|].
    destruct (renders content fin); [apply stream_post_one; [done|by left|done|done]|].
    destruct (Hc1 h n b2 Hg2) as (b3 & Hg3 & _). destruct (close_released h n b3 _ Hg3) as [Hc3 Hc4].
    apply stream_post_one; [|left|done|done].
    + eapply res_le_trans; [exact Hle03|]. eapply res_le_trans; [exact Hc3|]. apply res_eq_le. by rewrite res_record_failure.
    + eapply released_le; [|exact Hc4]. apply res_eq_le. by rewrite res_record_failure.
  - apply stream_post_one; [done|by right; right; left|done|done].
  - apply stream_post_one; [done|by right; right; left|done|done].
  - apply stream_post_one; [done|by right; right; left|done|done].
Qed.
End stream_facts.

Lemma flush_le call auth mdl path dl t b g : keeps_res (fun g => fst (call g)) -> res_le g (fst (flush call auth mdl path dl t b g)).
Proof. intros Hc. unfold flush. case_match; [apply res_le_refl|]. by apply record_usage_le. Qed.

(** Reservations of a streaming request.  The handshake tries different
    nodes, at most [max_attempts]; when the handler returns, the reservation of
    every attempt has been released, except the one handed to the stream, the
    one of a handshake that was cancelled and the one of a node whose endpoint
    gives no URL; and relaying that stream
    releases it however the stream ends: terminal event, exhaustion, backend
    failure or client disconnect. *)
Theorem stream_reservations connect aclose call now dotted picks mdl allowed own auth path dl
  max_attempts start timeout g :
  (forall n, keeps_res (fun g => fst (connect n g))) -> keeps_res aclose -> keeps_res (fun g => fst (call g)) ->
  let out := _stream_completion connect aclose now dotted picks mdl allowed own path dl max_attempts start timeout g in
  let g' := fst (fst out) in
  (length (snd out) <= max_attempts)%nat /\
  NoDup (node_id ∘ att_node <$> snd out) /\
  (forall a, a ∈ snd out -> settled_attempt g' (snd (fst out)) a) /\
  (forall h n events ending, snd (fst out) = Streaming h n ->
     released h (fst (_stream_events aclose call auth mdl path dl h n events ending g')) = true).
Proof.
  intros H1 H2 H3. cbn zeta. unfold _stream_completion.
  destruct (stream_loop_spec connect aclose now dotted picks mdl allowed own path dl H1 H2 max_attempts
              (start + timeout) [] None 0 g) as (_ & S2 & S3 & S4 & _ & S6).
  split_and!; [done|done|done|]. intros h n events ending Hr. destruct (S6 h n Hr) as [b Hb].
  set (g' := fst (fst _)) in *.
  assert (forall g2, res_le g' g2 -> released h (_close_streaming_attempt aclose h g2) = true) as Hrel.
  { intros g2 Hle. destruct (Hle h n b Hb) as (b2 & Hb2 & _). by apply (close_released aclose H2 h n b2). }
  assert (forall t g2, res_le g' g2 -> released h (_close_streaming_attempt aclose h (fst (flush call auth mdl path dl t false g2))) = true) as Hfl.
  { intros t g2 Hle. apply Hrel. eapply res_le_trans; [exact Hle|by apply flush_le]. }
  unfold _stream_events. destruct (relay dl events stream_tracker) as [[frames t] fin]. destruct fin; [|destruct ending as [|e|]].
  - specialize (Hfl t (record_success_w (node_id n) g') ltac:(apply res_eq_le; by rewrite res_record_success)). by destruct (flush _ _ _ _ _ _ _ _) as [g2 c].
  - specialize (Hfl t g' (res_le_refl g')). by destruct (flush _ _ _ _ _ _ _ _) as [g2 c].
  - destruct (map_proxy_error e) as [st er]. specialize (Hfl t (_record_failure_and_trip n g') ltac:(apply res_eq_le; by rewrite res_record_failure)). by destruct (flush _ _ _ _ _ _ _ _) as [g2 c].
  - apply Hrel, res_le_refl.
Qed.

(** Any interleaving of the actions of [Reservations] is such interference. *)
Lemma exec_keeps_res (a : Action) (g : Gateway) : res_le g (with_rw (exec a (rw g)) g).
Proof.
  intros h n b Hh. cbn [with_rw rw]. destruct a; cbn [exec].
  - unfold select_and_reserve. destruct (Selector._select_locked _ _ _ _ _ _ _); cbn [fst res]; [|eauto].
    exists b. split; [by apply lookup_app_l_Some|done].
  - unfold release_begin. destruct (res (rw g) !! h0) as [[m [|]]|] eqn:H0; [eauto| |eauto]. cbn [res].
    destruct (decide (h = h0)) as [->|Hne].
    + simplify_eq. rewrite list_lookup_insert_eq; [eauto|]. by eapply lookup_lt_Some.
    + rewrite list_lookup_insert_ne by done. eauto.
  - unfold release_end. case_decide; [|eauto]. cbn [res]. rewrite res_sweep. eauto.
  - unfold sweep. destruct (Selector.sweep_drained_nodes _ _ _) as [[[? ?] ?] ?]. cbn. eauto.
  - cbn. eauto.
  - cbn. eauto.
  - cbn. eauto.
  - cbn. eauto.
  - cbn. eauto.
  - destruct (remove id (Reservations.reg (rw g)) (Reservations.ext (rw g))) as [r e]. cbn. eauto.
  - cbn. eauto.
Qed.

Lemma run_keeps_res (l : list Action) : keeps_res (fun g => with_rw (run l (rw g)) g).
Proof.
  intros g. revert g. induction l as [|a l IH]; intros g.
  { apply res_eq_le. done. }
  eapply res_le_trans; [apply (exec_keeps_res a g)|]. exact (IH (with_rw (exec a (rw g)) g)).
Qed.

Lemma exists_elem_cons {A} (Q : A -> Prop) x l :
  (exists k, k ∈ x :: l /\ Q k) <-> Q x \/ (exists k, k ∈ l /\ Q k).
Proof.
  split.
  - intros (k & [->|Hk]%elem_of_cons & HQ); [by left|right; eauto].
  - intros [HQ|(k & Hk & HQ)]; [exists x|exists k]; rewrite elem_of_cons; auto.
Qed.

(** The model list shows each model once, and only models that a public
    node serves right now: HEALTHY, unowned, not admin-only and inside the
    model scope of the presented token; every such model is shown. *)
Theorem list_models_public (scope : option (list string)) (nodes : list Node) :
  NoDup (dkeys (list_models scope nodes)) /\
  (forall m, m ∈ dkeys (list_models scope nodes) <->
     m <> "" /\ (forall s, scope = Some s -> m ∈ s) /\
     exists n, n ∈ nodes /\ model n = m /\ status n = HEALTHY /\ admin_only n = false /\ owner n = "").
Proof.
  unfold list_models.
  assert (forall seen, dwf seen -> let d := fold_left (fun seen n =>
      if listed_model scope n && negb (dmem (model n) seen) then dset (model n) (engine n) seen else seen) nodes seen in
    dwf d /\ (forall m, m ∈ dkeys d <-> m ∈ dkeys seen \/ exists n, n ∈ nodes /\ model n = m /\ listed_model scope n = true)) as H.
  { induction nodes as [|n l IH]; intros seen Hwf; cbn [fold_left].
    { split; [done|]. intros m. split; [by left|]. intros [?|(n & ?%not_elem_of_nil & _)]; done. }
    destruct (listed_model scope n) eqn:Hl, (dmem (model n) seen) eqn:Hm; cbn [negb andb].
    - destruct (IH seen Hwf) as [H1 H2]. split; [done|]. intros m. rewrite H2.
      assert (model n ∈ dkeys seen) by (apply elem_of_dkeys; unfold dmem in Hm; destruct (dget (model n) seen); [eauto|done]).
      rewrite exists_elem_cons. split; [tauto|]. intros [?|[[Hk _]|?]]; [by left|left; by rewrite <- Hk|by right].
    - destruct (IH (dset (model n) (engine n) seen)) as [H1 H2]; [by apply dwf_dset|]. split; [done|].
      intros m. rewrite H2, dkeys_dset, decide_False, elem_of_app, list_elem_of_singleton, exists_elem_cons.
      { rewrite Hl. split; [intros [[?| ->]|?]; auto|intros [?|[[<- _]|?]]; auto]. }
      unfold dmem in Hm. rewrite <- dget_None_keys. by destruct (dget (model n) seen).
    - destruct (IH seen Hwf) as [H1 H2]. split; [done|]. intros m. rewrite H2, exists_elem_cons, Hl.
      split; [tauto|]. intros [?|[[_ ?]|?]]; [by left|done|by right].
    - destruct (IH seen Hwf) as [H1 H2]. split; [done|]. intros m. rewrite H2, exists_elem_cons, Hl.
      split; [tauto|]. intros [?|[[_ ?]|?]]; [by left|done|by right]. }
  destruct (H [] dwf_nil) as [H1 H2]. split; [done|]. intros m. rewrite H2.
  assert (forall n, listed_model scope n = true <-> model n <> "" /\ (forall s, scope = Some s -> model n ∈ s) /\
    status n = HEALTHY /\ admin_only n = false /\ owner n = "") as Hn.
  { intros n. unfold listed_model. rewrite !andb_true_iff, !negb_true_iff, bool_decide_eq_true, str_truthy_false, str_truthy_true.
    assert (match scope with Some s => negb (bool_decide (model n ∈ s)) | None => false end = false <->
            (forall s, scope = Some s -> model n ∈ s)) as ->; [|tauto].
    destruct scope as [s|]; [|split; [done|done]]. rewrite negb_false_iff, bool_decide_eq_true. naive_solver. }
  setoid_rewrite Hn. split.
  - intros [?%not_elem_of_nil|(n & ? & <- & ? & ? & ? & ? & ?)]; [done|]. split_and!; eauto 8.
  - intros (? & ? & n & ? & <- & ? & ? & ?). right. exists n. split_and!; done.
Qed.

(** *** Witnesses *)

Definition ex_na : Node := set_model "m" (set_status HEALTHY (Node_default "a" "http://a:1")).
Definition ex_nb : Node := set_model "m" (set_status HEALTHY (Node_default "b" "http://b:1")).
Definition ex_gateway : Gateway :=
  mkGateway (initial (mkRegistry [("a", ex_na); ("b", ex_nb)] []) (mkExt (empty_breakers 3) ∅))
    {| Metrics._total := 0; Metrics._per_node := ∅; Metrics._per_model := ∅ |} [].

(** While [a] refuses the connection the watcher drains it; [b] answers. *)
Definition ex_request (n : Node) (g : Gateway) : Gateway * Answer :=
  (with_rw (run (if decide (node_id n = "a") then [ADrain "a"] else []) (rw g)) g,
   if decide (node_id n = "a") then Failed ConnectError else Responded 200 (Some JNull) true "").
Definition ex_store (g : Gateway) : Gateway * Recording := (g, Recorded true).

Definition ex_out := _proxy_non_streaming ex_request ex_store true (fun _ => 0%nat) (Some "m")
  None (Some "") None "/v1/completions" OPENAI_CHAT 3 ex_gateway.

Lemma ex_request_keeps n : keeps_res (fun g => fst (ex_request n g)).
Proof. intros g. exact (run_keeps_res _ g). Qed.

Lemma failover_spec_witness :
  (length (snd ex_out) <= 3)%nat /\ node_id ∘ att_node <$> snd ex_out = ["a"; "b"] /\
  explains true (Some "m") None (Some "") "/v1/completions" OPENAI_CHAT 3 0 None (snd ex_out) (snd (fst ex_out)).
Proof.
  destruct (failover_spec ex_request ex_store true (fun _ => 0%nat) (Some "m") None (Some "")
    None "/v1/completions" OPENAI_CHAT 3 ex_gateway) as (H1 & _ & _ & H2 & _);
    [exact ex_request_keeps|exact res_le_refl|].
  split; [exact H1|]. split; [vm_compute; reflexivity|exact H2].
Defined.

Lemma metrics_exact_witness : Metrics._total (metrics (fst (fst ex_out))) = 1.
Proof.
  destruct (metrics_exact ex_request ex_store true (fun _ => 0%nat) (Some "m") None (Some "")
    None "/v1/completions" OPENAI_CHAT 3 ex_gateway) as (H & _ & _); [done|done|].
  etransitivity; [exact H|]. vm_compute. reflexivity.
Defined.

(** The same two nodes, streaming: [a] answers 503, [b] opens the stream. *)
Definition ex_connect (n : Node) (g : Gateway) : Gateway * Handshake :=
  (g, if decide (node_id n = "a") then Headers 503 None true "busy" else Headers 200 None true "").

Definition ex_stream := _stream_completion ex_connect (fun g => g) (fun _ => 0) true (fun _ => 0%nat)
  (Some "m") None (Some "") "/v1/completions" OPENAI_CHAT 3 0 30 ex_gateway.

Lemma stream_reservations_witness :
  snd (fst ex_stream) = Streaming 1 ex_nb /\
  released 1 (fst (_stream_events (fun g => g) ex_store None (Some "m") "/v1/completions" OPENAI_CHAT 1 ex_nb
    [] Disconnected (fst (fst ex_stream)))) = true.
Proof.
  assert (snd (fst ex_stream) = Streaming 1 ex_nb) as Hs by (vm_compute; reflexivity).
  split; [exact Hs|].
  destruct (stream_reservations ex_connect (fun g => g) ex_store (fun _ => 0) true (fun _ => 0%nat)
    (Some "m") None (Some "") None "/v1/completions" OPENAI_CHAT 3 0 30 ex_gateway) as (_ & _ & _ & H);
    [intros n g; apply res_le_refl|exact res_le_refl|exact res_le_refl|].
  apply H. exact Hs.
Defined.

(** ** Reservations that nobody releases *)

Definition releases (h : nat) (a : Action) : bool := match a with AReleaseBegin k => bool_decide (k = h) | _ => false end.

(** Actions that leave the reservation [h] to its owner and drop no counter. *)
Definition spares (h : nat) (l : list Action) : bool := forallb (fun a => negb (is_forget a) && negb (releases h a)) l.

(** What the other tasks do while the handler waits: any actions but the release
    of the newest reservation, which is the handler's. *)
Definition others_act (f : Gateway -> Gateway) : Prop :=
  forall g, exists l, rw (f g) = run l (rw g) /\ forallb (fun a => negb (is_forget a)) l = true /\
    forall h, S h = length (res (rw g)) -> spares h l = true.

(** The tracker counts what is in flight ([reservation_accounting]). *)
Definition accounted (g : Gateway) : Prop := ReservationFacts.inv_wf (rw g) /\ ReservationFacts.exact (rw g).

Lemma exec_keeps_open (a : Action) (w : Reservations.World Ext) h n :
  res w !! h = Some (n, false) -> releases h a = false -> res (exec a w) !! h = Some (n, false).
Proof.
  intros Hh Ha. destruct a; cbn [exec]; try exact Hh.
  - unfold select_and_reserve. case_match; cbn [fst res]; [by apply lookup_app_l_Some|done].
  - unfold release_begin. destruct (res w !! h0) as [[m [|]]|]; [done| |done]. cbn [res releases] in *.
    apply bool_decide_eq_false in Ha. by rewrite list_lookup_insert_ne.
  - unfold release_end. case_decide; [|done]. cbn [res]. by rewrite res_sweep.
  - unfold sweep. by destruct (Selector.sweep_drained_nodes _ _ _) as [[[? ?] ?] ?].
  - by destruct (remove id (Reservations.reg w) (Reservations.ext w)).
Qed.

Lemma run_keeps_open (l : list Action) (w : Reservations.World Ext) h n :
  res w !! h = Some (n, false) -> spares h l = true -> res (run l w) !! h = Some (n, false).
Proof.
  revert w. induction l as [|a l IH]; intros w Hh Hl; [done|]. cbn in Hl. bool_to_prop. cbn. apply IH; [|done]. by apply exec_keeps_open.
Qed.

Lemma spares_forget h l : spares h l = true -> forallb (fun a => negb (is_forget a)) l = true.
Proof. unfold spares. rewrite !forallb_forall. intros H a Ha. specialize (H a Ha). apply (andb_prop _ _ H). Qed.

Lemma accounted_same g g' : Reservations.reg (rw g') = Reservations.reg (rw g) -> Reservations.trk (rw g') = Reservations.trk (rw g) ->
  res (rw g') = res (rw g) -> pending (rw g') = pending (rw g) -> accounted g -> accounted g'.
Proof. unfold accounted, ReservationFacts.inv_wf, ReservationFacts.exact, inflight. by intros -> -> -> ->. Qed.

Lemma accounted_run l g g' : rw g' = run l (rw g) -> forallb (fun a => negb (is_forget a)) l = true -> accounted g -> accounted g'.
Proof. unfold accounted. intros -> Hl [H1 H2]. by apply ReservationFacts.run_exact. Qed.

Lemma accounted_release h g : accounted g -> accounted (release_w h g).
Proof.
  intros Hg. unfold release_w, release. destruct (res (rw g) !! h) as [[n [|]]|] eqn:Hh; [done| |done].
  apply (accounted_run [AReleaseBegin h; AReleaseEnd (node_id n)] g); done.
Qed.

Lemma accounted_failure n g : accounted g -> accounted (_record_failure_and_trip n g).
Proof.
  intros Hg. unfold _record_failure_and_trip. destruct (Breakers.get_or_create _ _) as [c h].
  assert (accounted (set_breakers (Breakers.update record_failure h c) g)) as Hs by by apply (accounted_same g).
  case_match; [|done]. by apply (accounted_run [AUpdateStatus (node_id n) UNHEALTHY [HEALTHY]] (set_breakers (Breakers.update record_failure h c) g)).
Qed.

Section leaks.
Context (connect : Node -> Gateway -> Gateway * Handshake) (aclose : Gateway -> Gateway).
Context (now : nat -> Z) (dotted : bool) (picks : nat -> nat) (mdl : option string).
Context (allowed : option (list string)) (own : option string) (path : string) (dl : Dialect).
Context (Hcon : forall n, others_act (fun g => fst (connect n g))) (Hclose : others_act aclose).

(** The handshake was cancelled, or no URL could be built for it. *)
Definition abandoned (a : Attempt) : Prop := att_answer a = Some Cancelled \/ att_answer a = None.

Definition leak_post (out : Gateway * StreamReply * list Attempt) : Prop :=
  accounted (fst (fst out)) /\ forall a, a ∈ snd out -> abandoned a ->
    snd (fst out) ∈ [Plain CancelledError; Plain Raised] /\ res (rw (fst (fst out))) !! att_handle a = Some (att_node a, false).

Lemma accounted_close h g : accounted g -> accounted (_close_streaming_attempt aclose h g).
Proof. intros Hg. apply accounted_release. destruct (Hclose g) as (l & Hl & Hf & _). by apply (accounted_run l g). Qed.

Lemma leak_post_nil g r : accounted g -> leak_post (g, r, []).
Proof. intros Hg. split; [done|]. by intros a ?%not_elem_of_nil. Qed.

Lemma leak_post_one g r a : accounted g -> (abandoned a -> r ∈ [Plain CancelledError; Plain Raised] /\ res (rw g) !! att_handle a = Some (att_node a, false)) -> leak_post (g, r, [a]).
Proof. intros Hg Ha. split; [done|]. by intros b ->%list_elem_of_singleton. Qed.

Lemma stream_loop_leaks budget deadline excluded e0 attempts g : accounted g ->
  leak_post (stream_loop connect aclose now dotted picks mdl allowed own path dl budget deadline excluded e0 attempts g).
Proof.
  revert excluded e0 attempts g. induction budget as [|budget IH]; intros excluded e0 attempts g Hg; cbn [stream_loop].
  { destruct e0; by apply leak_post_nil. }
  case_match; [destruct e0; by apply leak_post_nil|].
  pose proof (reserve_spec (picks attempts) mdl (or_none excluded) allowed own g) as [_ Ho].
  assert (accounted (with_rw (fst (select_and_reserve (picks attempts) mdl (or_none excluded) allowed own (rw g))) g)) as Hx
    by by apply (accounted_run [AReserve (picks attempts) mdl (or_none excluded) allowed own] g).
  assert (forall h, snd (select_and_reserve (picks attempts) mdl (or_none excluded) allowed own (rw g)) = Some h ->
    S h = length (res (fst (select_and_reserve (picks attempts) mdl (or_none excluded) allowed own (rw g))))) as Hnew.
  { intros h. unfold select_and_reserve. destruct (Selector._select_locked _ _ _ _ _ _ _); cbn [fst snd res]; [|done]. intros [= <-]. rewrite length_app. cbn. lia. }
  destruct (select_and_reserve (picks attempts) mdl (or_none excluded) allowed own (rw g)) as [x [h|]]; cbn [fst snd] in *; cycle 1.
  { destruct e0; by apply leak_post_nil. }
  destruct Ho as (n & Hres & _). cbn [with_rw rw]. rewrite Hres. set (g1 := record_metrics mdl _ _ (with_rw x g)).
  assert (accounted g1) as Hg1 by done. assert (res (rw g1) !! h = Some (n, false)) as Hr1 by done. specialize (Hnew h eq_refl).
  destruct (is_ok _); cbn [negb]; [|apply leak_post_one; [done|]; intros _; split; [by right; left|done]].
  set (remaining := deadline - now (2 * attempts + 1)).
  assert (accounted (fst (if remaining <=? 0 then (g1, HandshakeTimeout) else connect n g1)) /\
    res (rw (fst (if remaining <=? 0 then (g1, HandshakeTimeout) else connect n g1))) !! h = Some (n, false)) as [Hg2 Hr2].
  { destruct (remaining <=? 0); [done|]. destruct (Hcon n g1) as (l & Hl & Hf & Hs). split; [by apply (accounted_run l g1)|]. rewrite Hl. apply run_keeps_open; [done|]. by apply Hs. }
  destruct (if remaining <=? 0 then _ else _) as [g2 hs]. cbn [fst] in Hg2, Hr2. pose proof (accounted_close h g2 Hg2) as Hg3.
  destruct (handshake_result remaining hs) as [e|[code content fin text| | |]].
  - destruct (_is_retryable e).
    + specialize (IH (node_id n :: excluded) (Some (map_proxy_error e)) (S attempts) _ (accounted_failure n _ Hg3)).
      destruct (stream_loop _ _ _ _ _ _ _ _ _ _ budget _ _ _ _ _) as [[g' r] l]. destruct IH as [I1 I2]. split; [done|]. intros a [->|Ha]%elem_of_cons; [by intros [?|?]|by apply I2].
    + apply leak_post_one; [by apply accounted_failure|]. by intros [?|?].
  - destruct (is_success_code code); [apply leak_post_one; [done|]; by intros [?|?]|]. destruct (renders content fin); (apply leak_post_one; [|by intros [?|?]]); [done|]. by apply accounted_failure, accounted_close.
  - apply leak_post_one; [done|]. intros _. split; [by left|done].
  - apply leak_post_one; [done|]. intros _. split; [by left|done].
  - apply leak_post_one; [done|]. intros _. split; [by left|done].
Qed.
End leaks.

(** C40: An abandoned streaming handshake leaks its reservation.  When the task
    is cancelled during a handshake, or no URL can be built for its node, the
    handler ends without releasing the reservation; whatever the other tasks do
    afterwards, as long as they do not release it themselves and no counter is
    dropped, the node's connection count stays positive and no sweep removes
    the node, also when it is draining. *)
Theorem stream_cancel_leaks connect aclose now dotted picks mdl allowed own path dl max_attempts start timeout g a :
  (forall n, others_act (fun g => fst (connect n g))) -> others_act aclose -> accounted g ->
  let out := _stream_completion connect aclose now dotted picks mdl allowed own path dl max_attempts start timeout g in
  a ∈ snd out -> abandoned a ->
  snd (fst out) ∈ [Plain CancelledError; Plain Raised] /\ released (att_handle a) (fst (fst out)) = false /\
  forall l, spares (att_handle a) l = true -> let w := run l (rw (fst (fst out))) in
    1 <= Tracker.get (Reservations.trk w) (node_id (att_node a)) /\
    get (Reservations.reg (sweep w)) (node_id (att_node a)) = get (Reservations.reg w) (node_id (att_node a)).
Proof.
  intros Hc Ha Hg out Hin Hab. destruct (stream_loop_leaks connect aclose now dotted picks mdl allowed own path dl Hc Ha max_attempts (start + timeout) [] None 0 g Hg : leak_post out) as [Hacc H].
  destruct (H a Hin Hab) as [Hr Hres]. split; [done|]. split; [unfold released; by rewrite Hres|]. intros l Hl w.
  destruct Hacc as [Hwf Hex]. destruct (ReservationFacts.run_exact l (rw (fst (fst out))) Hwf Hex (spares_forget _ _ Hl)) as [Hwf' Hex']. fold w in Hwf', Hex'.
  assert (1 <= Tracker.get (Reservations.trk w) (node_id (att_node a))) as Hpos.
  { rewrite Hex'. unfold inflight. pose proof (ReservationFacts.pend_nonneg (node_id (att_node a)) (pending w)). pose proof (run_keeps_open l _ _ _ Hres Hl) as Ho. fold w in Ho.
    pose proof (ReservationFacts.live_release (node_id (att_node a)) (res w) (att_handle a) (att_node a) Ho) as Hlive. rewrite decide_True in Hlive by done.
    pose proof (ReservationFacts.live_nonneg (node_id (att_node a)) (<[att_handle a := (att_node a, true)]> (res w))). lia. }
  split; [done|]. unfold sweep. pose proof (ReservationFacts.sweep_spec (Reservations.reg w) (Reservations.trk w) (Reservations.ext w) Hwf') as Hs.
  destruct (Selector.sweep_drained_nodes _ _ _) as [[[r' c'] e'] rm]. destruct Hs as (_ & _ & Hget). cbn [Reservations.reg]. rewrite Hget. destruct (get (Reservations.reg w) _) as [m|]; [|done].
  replace (Tracker.get (Reservations.trk w) (node_id (att_node a)) =? 0) with false by lia. by rewrite andb_false_r.
Qed.

(** The client goes away while [a] is connecting, then [a] is drained. *)
Definition ex_cancelled := _stream_completion (fun _ g => (g, HandshakeCancelled)) (fun g => g) (fun _ => 0) true (fun _ => 0%nat)
  (Some "m") None (Some "") "/v1/completions" OPENAI_CHAT 3 0 30 ex_gateway.

Lemma stream_cancel_leaks_witness :
  snd (fst ex_cancelled) = Plain CancelledError /\
  get (Reservations.reg (sweep (run [ADrain "a"; ASweep] (rw (fst (fst ex_cancelled)))))) "a" = Some (set_status DRAINING ex_na).
Proof.
  assert (snd ex_cancelled = [{| att_handle := 0; att_node := ex_na; att_answer := Some Cancelled |}]) as Hl by (vm_compute; reflexivity).
  assert (others_act (fun g => g)) as Ho by (intros g; exists []; split_and!; done).
  destruct (stream_cancel_leaks (fun _ g => (g, HandshakeCancelled)) (fun g => g) (fun _ => 0) true (fun _ => 0%nat) (Some "m") None (Some "") "/v1/completions" OPENAI_CHAT 3 0 30 ex_gateway
    {| att_handle := 0; att_node := ex_na; att_answer := Some Cancelled |}) as (_ & _ & H).
  - intros n. exact Ho.
  - exact Ho.
  - split; [exact (reg_wf_add (E:=Ext) ex_nb (add ex_na empty_registry) (reg_wf_add ex_na empty_registry reg_wf_empty))|]. intros id. reflexivity.
  - fold ex_cancelled. rewrite Hl. left.
  - by left.
  - split; [vm_compute; reflexivity|]. fold ex_cancelled in H. destruct (H [ADrain "a"; ASweep] eq_refl) as [_ H2].
    etransitivity; [exact H2|]. vm_compute. reflexivity.
Defined.
