(* ===== verification/Etcd.v ===== *)
(** * The etcd client and the node leases

    - [inference_proxy/discovery/etcd_client.py]: the revision-guarded writes of
      [EtcdClient] and the prefix range
    - [inference_proxy/discovery/node_leases.py]: [NodeLeaseManager]

    etcd itself is an interface, the class [Etcd]: a store of versioned keys
    with atomic compare-and-put transactions and leases, whose replies can be
    lost.  Its laws are etcd's documented guarantees; [MapStore] is an instance
    of them. *)

From S2P Require Import Prelude PyDict NodeModel Json.
Local Open Scope Z_scope.

(** ** The prefix range *)

(** Bytes as integers 0-255. *)
Definition bytes : Type := list Z.

(** Python's comparison of byte strings. *)
Fixpoint bytes_ltb (a b : bytes) : bool :=
  match a, b with
  | [], [] => false
  | [], _ :: _ => true
  | _ :: _, [] => false
  | x :: a, y :: b => if x <? y then true else if y <? x then false else bytes_ltb a b
  end.

(** The loop [for index in range(len(end) - 1, -1, -1)]: the last byte below
    0xFF is incremented and everything after it dropped; [None] when there is
    none. *)
Fixpoint bump_last (p : bytes) : option bytes :=
  match p with
  | [] => None
  | x :: p =>
      match bump_last p with
      | Some p' => Some (x :: p')
      | None => if x <? 255 then Some [x + 1] else None
      end
  end.

Definition _prefix_range_end (p : bytes) : bytes := default [0] (bump_last p).

(** A key in etcd's range [[key, range_end)); the end [[0]] means no bound. *)
Definition in_range (p e k : bytes) : bool :=
  negb (bytes_ltb k p) && (bool_decide (e = [0]) || bytes_ltb k e).

Fixpoint is_prefix (p k : bytes) : bool :=
  match p, k with
  | [], _ => true
  | x :: p, y :: k => (x =? y) && is_prefix p k
  | _ :: _, [] => false
  end.

Definition all_bytes (l : bytes) : Prop := Forall (fun x => 0 <= x <= 255) l.

Lemma bump_last_None p k : all_bytes p -> all_bytes k -> bump_last p = None ->
  bytes_ltb k p = false -> is_prefix p k = true.
Proof.
  intros Hp. revert k. induction Hp as [|x p Hx Hp IH]; intros k Hk Hb Hge; [done|].
  cbn [bump_last] in Hb. destruct (bump_last p) eqn:Hbp; [done|].
  destruct (Z.ltb_spec x 255) as [|Hx']; [done|]. destruct Hk as [|y k Hy Hk]; [done|]. cbn in Hge |- *.
  destruct (Z.ltb_spec y x); [done|]. destruct (Z.ltb_spec x y); [lia|].
  apply andb_true_iff. split; [apply Z.eqb_eq; lia|by apply IH].
Qed.

Lemma bump_last_Some p e k : all_bytes p -> all_bytes k -> bump_last p = Some e ->
  (negb (bytes_ltb k p) && bytes_ltb k e) = is_prefix p k.
Proof.
  intros Hp. revert e k. induction Hp as [|x p Hx Hp IH]; intros e k Hk He; [done|].
  cbn [bump_last] in He. destruct k as [|y k].
  { by destruct (bump_last p) as [p'|]; [|destruct (x <? 255)]; simplify_eq. }
  inversion Hk as [|? ? Hy Hk']; subst.
  destruct (bump_last p) as [p'|] eqn:Hbp.
  - simplify_eq. cbn. destruct (Z.ltb_spec y x), (Z.ltb_spec x y), (Z.eqb_spec x y); try lia; try done.
    by apply IH.
  - destruct (Z.ltb_spec x 255); [|done]. simplify_eq. cbn.
    destruct (Z.ltb_spec y x), (Z.ltb_spec x y), (Z.eqb_spec x y), (Z.ltb_spec y (x + 1)), (Z.ltb_spec (x + 1) y);
      try lia; try done; cbn.
    + by destruct k.
    + subst. destruct (bytes_ltb k p) eqn:Hlt.
      * cbn. symmetry. apply not_true_iff_false. intros Hpre. clear -Hlt Hpre. revert k Hlt Hpre.
        induction p as [|a p IHp]; intros [|b k] Hlt Hpre; try done. cbn in *. bool_to_prop. subst.
        destruct (Z.ltb_spec b b); [lia|]. by eapply IHp.
      * symmetry. by eapply bump_last_None.
Qed.

Lemma prefix_not_below p k : is_prefix p k = true -> bytes_ltb k p = false.
Proof.
  revert k. induction p as [|x p IH]; intros [|y k]; cbn; try done. intros H. bool_to_prop. subst.
  destruct (Z.ltb_spec y y); [lia|]. auto.
Qed.

Lemma bump_last_not_zero p e : all_bytes p -> bump_last p = Some e -> e <> [0].
Proof.
  intros Hp He ->. destruct Hp as [|x p Hx Hp]; [done|]. cbn in He. destruct (bump_last p) as [p'|] eqn:Hb.
  - simplify_eq. clear -Hb. destruct p as [|y p]; [done|]. cbn in Hb.
    destruct (bump_last p); [done|]. by destruct (y <? 255).
  - destruct (x <? 255); [|done]. simplify_eq. lia.
Qed.

(** The range the client asks etcd for contains exactly the keys under the
    prefix, for every prefix (a prefix of only 0xFF bytes has no upper end). *)
Theorem prefix_range_exact p k : all_bytes p -> all_bytes k ->
  in_range p (_prefix_range_end p) k = is_prefix p k.
Proof.
  intros Hp Hk. unfold in_range, _prefix_range_end. destruct (bump_last p) as [e|] eqn:He; cbn [from_option id].
  - rewrite bool_decide_eq_false_2 by exact (bump_last_not_zero p e Hp He). cbn [orb]. by apply bump_last_Some.
  - rewrite bool_decide_eq_true_2 by done. rewrite andb_true_r.
    destruct (is_prefix p k) eqn:Hpre; [by rewrite prefix_not_below|].
    destruct (bytes_ltb k p) eqn:Hlt; [done|]. by rewrite (bump_last_None p k) in Hpre.
Qed.

Lemma prefix_range_exact_witness :
  in_range [47; 110; 47] (_prefix_range_end [47; 110; 47]) [47; 110; 47; 255] = true.
Proof. apply (prefix_range_exact [47; 110; 47] [47; 110; 47; 255]); repeat constructor; lia. Defined.

(** ** etcd as the gateway uses it *)

Record KV := mkKV { kv_value : blob; kv_mod : Z; kv_lease : Z }.

Inductive Compare :=
| CmpMod (k : string) (mod_revision : Z)
| CmpLease (k : string) (lease : Z).

Inductive WriteOp :=
| Put (k : string) (v : blob) (lease : Z)
| DeleteKey (k : string).

(** The calls of the gateway; a lost reply is [None]. *)
Class Etcd (S : Type) := {
  lookup_kv : S -> string -> option KV;
  revision : S -> Z;
  read_key : S -> string -> S * option (option KV);
  read_prefix : S -> string -> S * option (list (string * KV));
  transaction : S -> list Compare -> WriteOp -> S * option (bool * Z);
  lease_grant : S -> S * option Z;
  lease_refresh : S -> Z -> S * option Z;
  lease_revoke : S -> Z -> S * option bool;
}.

Section etcd_laws.
Context {S : Type} `{!Etcd S}.

(** An absent key compares as revision 0 and lease 0. *)
Definition holds (s : S) (c : Compare) : bool :=
  match c with
  | CmpMod k r => default 0 (kv_mod <$> lookup_kv s k) =? r
  | CmpLease k l => default 0 (kv_lease <$> lookup_kv s k) =? l
  end.

(** The keys after [op] commits at revision [rev]. *)
Definition written (s : S) (op : WriteOp) (rev : Z) (k : string) : option KV :=
  match op with
  | Put k' v l => if decide (k = k') then Some (mkKV v rev l) else lookup_kv s k
  | DeleteKey k' => if decide (k = k') then None else lookup_kv s k
  end.
End etcd_laws.

(** What etcd documents of these calls. *)
Class EtcdLaws (S : Type) `{!Etcd S} := {
  txn_law : forall s cs op,
    let s' := fst (transaction s cs op) in
    let reply := snd (transaction s cs op) in
    if forallb (holds s) cs
    then ((forall k, lookup_kv s' k = lookup_kv s k) /\ reply = None) \/
         ((forall k, lookup_kv s' k = written s op (revision s') k) /\ revision s < revision s' /\
          (reply = None \/ reply = Some (true, revision s')))
    else (forall k, lookup_kv s' k = lookup_kv s k) /\ (reply = None \/ exists r, reply = Some (false, r));
  txn_revision : forall s cs op, revision s <= revision (fst (transaction s cs op));
  read_law : forall s k,
    (forall k', lookup_kv (fst (read_key s k)) k' = lookup_kv s k') /\
    revision (fst (read_key s k)) = revision s /\
    (snd (read_key s k) = None \/ snd (read_key s k) = Some (lookup_kv s k));
  range_law : forall s p,
    (forall k', lookup_kv (fst (read_prefix s p)) k' = lookup_kv s k') /\
    revision (fst (read_prefix s p)) = revision s /\
    (forall l, snd (read_prefix s p) = Some l ->
       NoDup (fst <$> l) /\ forall k v, (k, v) ∈ l <-> startswith k p = true /\ lookup_kv s k = Some v);
  grant_law : forall s,
    (forall k, lookup_kv (fst (lease_grant s)) k = lookup_kv s k) /\
    (forall l, snd (lease_grant s) = Some l -> l <> 0 /\
       forall k v, lookup_kv s k = Some v -> kv_lease v <> l);
  refresh_law : forall s l k, lookup_kv (fst (lease_refresh s l)) k = lookup_kv s k;
  revoke_law : forall s l k,
    lookup_kv (fst (lease_revoke s l)) k = lookup_kv s k \/
    lookup_kv (fst (lease_revoke s l)) k =
      match lookup_kv s k with
      | Some v => if decide (kv_lease v = l) then None else Some v
      | None => None
      end;
}.

(** ** [EtcdClient] *)

Section client.
Context {S : Type} `{!Etcd S}.

(** [replace_if_revision]: [None] is an exception, [Some None] a lost race. *)
Definition replace_if_revision (k : string) (v : blob) (expected_mod_revision lease_id : Z) (s : S)
  : S * option (option Z) :=
  let '(s, reply) := transaction s [CmpMod k expected_mod_revision] (Put k v lease_id) in
  (s, match reply with
      | None => None
      | Some (succeeded, r) => Some (if succeeded then Some r else None)
      end).

Definition delete_if_revision (k : string) (expected_mod_revision : Z) (s : S) : S * option bool :=
  let '(s, reply) := transaction s [CmpMod k expected_mod_revision] (DeleteKey k) in
  (s, fst <$> reply).

Definition attach_lease_if_current (k : string) (v : blob)
  (expected_mod_revision expected_lease_id lease_id : Z) (s : S) : S * option bool :=
  let '(s, reply) := transaction s [CmpMod k expected_mod_revision; CmpLease k expected_lease_id]
                       (Put k v lease_id) in
  (s, fst <$> reply).
End client.

(** ** Compare-and-swap *)

Section cas.
Context {S : Type} `{!Etcd S, !EtcdLaws S}.
Implicit Types (s : S).

Definition mod_of s (k : string) : Z := default 0 (kv_mod <$> lookup_kv s k).

Lemma replace_success k v e l s r : snd (replace_if_revision k v e l s) = Some (Some r) ->
  let s' := fst (replace_if_revision k v e l s) in
  mod_of s k = e /\ lookup_kv s' k = Some (mkKV v r l) /\ r = revision s' /\ revision s < r /\
  (forall k', k' <> k -> lookup_kv s' k' = lookup_kv s k').
Proof.
  unfold replace_if_revision. pose proof (txn_law s [CmpMod k e] (Put k v l)) as Ht. cbn zeta in Ht.
  destruct (transaction s [CmpMod k e] (Put k v l)) as [s' reply]. cbn [fst snd forallb] in *.
  rewrite andb_true_r in Ht. destruct (holds s (CmpMod k e)) eqn:Hh.
  - destruct Ht as [[_ ->]|(Hw & Hr & [->| ->])]; [done|done|]. intros [= <-]. unfold holds in Hh. apply Z.eqb_eq in Hh.
    split_and!; [done| |done|done|].
    + rewrite Hw. unfold written. by rewrite decide_True.
    + intros k' Hk. rewrite Hw. unfold written. by rewrite decide_False.
  - destruct Ht as [_ [->|[r' ->]]]; done.
Qed.

Lemma replace_refused k v e l s : snd (replace_if_revision k v e l s) = Some None ->
  forall k', lookup_kv (fst (replace_if_revision k v e l s)) k' = lookup_kv s k'.
Proof.
  unfold replace_if_revision. pose proof (txn_law s [CmpMod k e] (Put k v l)) as Ht. cbn zeta in Ht.
  destruct (transaction s [CmpMod k e] (Put k v l)) as [s' reply]. cbn [fst snd forallb] in *.
  rewrite andb_true_r in Ht. destruct (holds s (CmpMod k e)).
  - destruct Ht as [[_ ->]|(_ & _ & [->| ->])]; done.
  - by destruct Ht.
Qed.

(** A lost reply: the write happened in full or not at all. *)
Lemma replace_lost k v e l s : snd (replace_if_revision k v e l s) = None ->
  let s' := fst (replace_if_revision k v e l s) in
  (forall k', lookup_kv s' k' = lookup_kv s k') \/
  (lookup_kv s' k = Some (mkKV v (revision s') l) /\ forall k', k' <> k -> lookup_kv s' k' = lookup_kv s k').
Proof.
  unfold replace_if_revision. pose proof (txn_law s [CmpMod k e] (Put k v l)) as Ht. cbn zeta in Ht.
  destruct (transaction s [CmpMod k e] (Put k v l)) as [s' reply]. cbn [fst snd forallb] in *.
  intros _. destruct (holds s (CmpMod k e) && true); [|left; by apply Ht].
  destruct Ht as [[Hs _]|(Hw & _)]; [by left|right]. split.
  - rewrite Hw. unfold written. by rewrite decide_True.
  - intros k' Hk. rewrite Hw. unfold written. by rewrite decide_False.
Qed.

Lemma replace_stale k v e l s : mod_of s k <> e ->
  (snd (replace_if_revision k v e l s) = None \/ snd (replace_if_revision k v e l s) = Some None) /\
  forall k', lookup_kv (fst (replace_if_revision k v e l s)) k' = lookup_kv s k'.
Proof.
  intros Hne. unfold mod_of in Hne. unfold replace_if_revision. pose proof (txn_law s [CmpMod k e] (Put k v l)) as Ht. cbn zeta in Ht.
  destruct (transaction s [CmpMod k e] (Put k v l)) as [s' reply]. cbn [fst snd forallb] in *.
  rewrite andb_true_r in Ht. unfold holds in Ht. rewrite (proj2 (Z.eqb_neq _ _) Hne) in Ht.
  destruct Ht as [Hs [->|[r ->]]]; auto.
Qed.

Lemma delete_stale k e s : mod_of s k <> e ->
  (snd (delete_if_revision k e s) = None \/ snd (delete_if_revision k e s) = Some false) /\
  forall k', lookup_kv (fst (delete_if_revision k e s)) k' = lookup_kv s k'.
Proof.
  intros Hne. unfold mod_of in Hne. unfold delete_if_revision. pose proof (txn_law s [CmpMod k e] (DeleteKey k)) as Ht. cbn zeta in Ht.
  destruct (transaction s [CmpMod k e] (DeleteKey k)) as [s' reply]. cbn [fst snd forallb] in *.
  rewrite andb_true_r in Ht. unfold holds in Ht. rewrite (proj2 (Z.eqb_neq _ _) Hne) in Ht.
  destruct Ht as [Hs [->|[r ->]]]; auto.
Qed.

Lemma delete_success k e s : snd (delete_if_revision k e s) = Some true ->
  mod_of s k = e /\ lookup_kv (fst (delete_if_revision k e s)) k = None /\
  (forall k', k' <> k -> lookup_kv (fst (delete_if_revision k e s)) k' = lookup_kv s k').
Proof.
  unfold delete_if_revision. pose proof (txn_law s [CmpMod k e] (DeleteKey k)) as Ht. cbn zeta in Ht.
  destruct (transaction s [CmpMod k e] (DeleteKey k)) as [s' reply]. cbn [fst snd forallb] in *.
  rewrite andb_true_r in Ht. destruct (holds s (CmpMod k e)) eqn:Hh.
  - destruct Ht as [[_ ->]|(Hw & Hr & [->| ->])]; [done|done|]. intros _. unfold holds in Hh. apply Z.eqb_eq in Hh.
    split_and!; [done| |].
    + rewrite Hw. unfold written. by rewrite decide_True.
    + intros k' Hk. rewrite Hw. unfold written. by rewrite decide_False.
  - destruct Ht as [_ [->|[r' ->]]]; done.
Qed.

(** Revisions in the store are positive and not from the future. *)
Definition kv_ok s : Prop :=
  0 <= revision s /\ forall k v, lookup_kv s k = Some v -> 0 < kv_mod v <= revision s.

(** What any sequence of etcd writes does: keys that differ have newer revisions. *)
Definition evolves s s' : Prop :=
  revision s <= revision s' /\
  forall k v, lookup_kv s' k = Some v -> lookup_kv s k = Some v \/ revision s < kv_mod v.

(** What a guarded write can do, whatever becomes of its reply. *)
Lemma replace_effect k v e l s : let s' := fst (replace_if_revision k v e l s) in
  (forall k', k' <> k -> lookup_kv s' k' = lookup_kv s k') /\
  (lookup_kv s' k = lookup_kv s k \/ mod_of s k = e /\ lookup_kv s' k = Some (mkKV v (revision s') l)).
Proof.
  destruct (decide (mod_of s k = e)) as [He|He].
  - destruct (snd (replace_if_revision k v e l s)) as [[r|]|] eqn:Hr.
    + destruct (replace_success _ _ _ _ _ _ Hr) as (_ & Hk & Hrev & _ & Hk'). subst r. auto.
    + pose proof (replace_refused _ _ _ _ _ Hr). auto.
    + destruct (replace_lost _ _ _ _ _ Hr) as [Hk|[Hk Hk']]; auto.
  - destruct (replace_stale k v e l s He) as [_ Hk]. auto.
Qed.
End cas.

(** ** Node leases *)

Record NodeLeaseObservation := { obs_value : blob; obs_mod_revision : Z; obs_lease_id : Z }.

#[export] Instance NodeLeaseObservation_eq : EqDecision NodeLeaseObservation.
Proof. solve_decision. Defined.

Record NodeLeaseManager := mkLeases {
  _records : gmap string NodeLeaseObservation;
  _snapshot_ready : bool;
}.

Module Leases.
Definition empty : NodeLeaseManager := mkLeases ∅ false.

Definition reconcile_snapshot (records : gmap string NodeLeaseObservation) (m : NodeLeaseManager)
  : NodeLeaseManager := mkLeases records true.

Definition observe_put (id : string) (v : blob) (mod_revision lease_id : Z) (m : NodeLeaseManager)
  : NodeLeaseManager :=
  let observation := {| obs_value := v; obs_mod_revision := mod_revision; obs_lease_id := lease_id |} in
  match _records m !! id with
  | None => mkLeases (<[id := observation]> (_records m)) (_snapshot_ready m)
  | Some current =>
      if obs_mod_revision current <=? mod_revision
      then mkLeases (<[id := observation]> (_records m)) (_snapshot_ready m) else m
  end.

Definition observe_delete (id : string) (mod_revision : Z) (m : NodeLeaseManager) : NodeLeaseManager :=
  match _records m !! id with
  | None => mkLeases (delete id (_records m)) (_snapshot_ready m)
  | Some current =>
      if obs_mod_revision current <=? mod_revision
      then mkLeases (delete id (_records m)) (_snapshot_ready m) else m
  end.

Definition get (m : NodeLeaseManager) (id : string) : option NodeLeaseObservation := _records m !! id.

Section maintain.
Context {S : Type} `{!Etcd S}.
Context (prefix : string).
(** What the other threads and gateways do while a call is in flight. *)
Context (others : NodeLeaseManager * S -> NodeLeaseManager * S).

Definition _discard_if_current (id : string) (o : NodeLeaseObservation) (m : NodeLeaseManager)
  : NodeLeaseManager :=
  if decide (_records m !! id = Some o)
  then mkLeases (delete id (_records m)) (_snapshot_ready m) else m.

Definition _refresh (id : string) (o : NodeLeaseObservation) (w : NodeLeaseManager * S)
  : NodeLeaseManager * S :=
  let '(m, s) := w in
  let '(s, remaining_ttl) := lease_refresh s (obs_lease_id o) in
  let '(m, s) := others (m, s) in
  if decide (remaining_ttl = Some (-1)) then (_discard_if_current id o m, s) else (m, s).

(** [replace(observation, lease_id=lease_id)] if it is still current. *)
Definition note_adopted (id : string) (o : NodeLeaseObservation) (lease_id : Z) (m : NodeLeaseManager)
  : NodeLeaseManager :=
  if decide (_records m !! id = Some o)
  then mkLeases (<[id := {| obs_value := obs_value o; obs_mod_revision := obs_mod_revision o;
                            obs_lease_id := lease_id |}]> (_records m)) (_snapshot_ready m)
  else m.

Definition _adopt (id : string) (o : NodeLeaseObservation) (w : NodeLeaseManager * S)
  : NodeLeaseManager * S :=
  let '(m, s) := w in
  let '(s, granted) := lease_grant s in
  match granted with
  | None => (m, s)
  | Some lease_id =>
      let '(m, s) := others (m, s) in
      let '(s, attached) := attach_lease_if_current (prefix +:+ id) (obs_value o)
        (obs_mod_revision o) (obs_lease_id o) lease_id s in
      match attached with
      | Some true => (note_adopted id o lease_id m, s)
      | _ => (m, fst (lease_revoke s lease_id))        (* [_revoke_unused] *)
      end
  end.

Definition maintain_after_success (n : Node) (w : NodeLeaseManager * S) : NodeLeaseManager * S :=
  if negb (managed n) || negb (bool_decide (status n = HEALTHY)) then w
  else if negb (_snapshot_ready (fst w)) then w
  else match _records (fst w) !! node_id n with
       | None => w
       | Some o => if obs_lease_id o =? 0 then _adopt (node_id n) o w else _refresh (node_id n) o w
       end.
End maintain.
End Leases.

(** Maintaining a lease never changes a registration.  Unless the reply of
    the adoption transaction is lost, every key of etcd keeps the value it had
    when the transaction ran, no key disappears, and the only key whose
    metadata changes is the node's own, still at the exact revision and lease
    the watcher had observed. *)
Theorem lease_adoption_safe {S} `{!Etcd S, !EtcdLaws S} prefix (others : NodeLeaseManager * S -> NodeLeaseManager * S)
  (id : string) (o : NodeLeaseObservation) (m : NodeLeaseManager) (s s1 : S) (m1 : NodeLeaseManager) (l : Z) :
  snd (lease_grant s) = Some l -> others (m, fst (lease_grant s)) = (m1, s1) ->
  (forall k v, lookup_kv s1 k = Some v -> kv_lease v <> l) ->
  (obs_mod_revision o = default 0 (kv_mod <$> lookup_kv s1 (prefix +:+ id)) -> 
     kv_value <$> lookup_kv s1 (prefix +:+ id) = Some (obs_value o)) ->
  is_Some (snd (attach_lease_if_current (prefix +:+ id) (obs_value o) (obs_mod_revision o) (obs_lease_id o) l s1)) ->
  let s' := snd (Leases._adopt prefix others id o (m, s)) in
  forall k, kv_value <$> lookup_kv s' k = kv_value <$> lookup_kv s1 k /\
    (lookup_kv s' k <> lookup_kv s1 k ->
       k = prefix +:+ id /\
       default 0 (kv_mod <$> lookup_kv s1 k) = obs_mod_revision o /\
       default 0 (kv_lease <$> lookup_kv s1 k) = obs_lease_id o).
Proof.
  intros Hg Ho Hl Hobs Hr. cbn zeta. unfold Leases._adopt.
  destruct (lease_grant s) as [s0 g]. cbn [fst snd] in *. subst g. rewrite Ho.
  unfold attach_lease_if_current in *.
  pose proof (txn_law s1 [CmpMod (prefix +:+ id) (obs_mod_revision o); CmpLease (prefix +:+ id) (obs_lease_id o)]
    (Put (prefix +:+ id) (obs_value o) l)) as Ht. cbn zeta in Ht.
  destruct (transaction s1 _ _) as [s2 reply]. cbn [fst snd] in *.
  destruct Hr as [b Hb]. destruct reply as [[b' r]|]; [|done]. cbn in Hb. injection Hb as <-.
  assert (forall s3, (forall k, lookup_kv s3 k = lookup_kv s1 k) -> forall k,
    lookup_kv (fst (lease_revoke s3 l)) k = lookup_kv s1 k) as Hrev.
  { intros s3 Hs3 k. destruct (revoke_law s3 l k) as [->| ->]; rewrite Hs3; [done|].
    destruct (lookup_kv s1 k) as [v|] eqn:Hk; [|done]. rewrite decide_False; [done|]. by eapply Hl. }
  cbn [forallb] in Ht. rewrite andb_true_r in Ht.
  destruct (holds s1 (CmpMod (prefix +:+ id) (obs_mod_revision o)) &&
            holds s1 (CmpLease (prefix +:+ id) (obs_lease_id o))) eqn:Hcmp.
  - destruct Ht as [[_ ?]|(Hw & _ & [?|Hrep])]; [done|done|]. injection Hrep as -> ->. cbn [snd].
    unfold holds in Hcmp. apply andb_true_iff in Hcmp as [H1%Z.eqb_eq H2%Z.eqb_eq].
    specialize (Hobs (eq_sym H1)).
    intros k. rewrite Hw. unfold written. case_decide as Hk; [|done]. subst k. rewrite Hobs. done.
  - destruct Ht as [Hsame [?|[r' Hrep]]]; [done|]. injection Hrep as -> ->. cbn [fst snd fmap option_fmap option_map].
    intros k. rewrite (Hrev s2 Hsame). done.
Qed.

(** ** An instance: a store in memory

    [lose] tells of each write whether its reply gets lost. *)

Record MapStore := mkStore { kvs : gmap string KV; store_rev : Z; lose : list bool }.

Definition next_lease (s : MapStore) : Z :=
  1 + foldr (fun kv m => Z.max (kv_lease (snd kv)) m) 0 (map_to_list (kvs s)).

Definition map_holds (s : MapStore) (c : Compare) : bool :=
  match c with
  | CmpMod k r => default 0 (kv_mod <$> kvs s !! k) =? r
  | CmpLease k l => default 0 (kv_lease <$> kvs s !! k) =? l
  end.

Definition map_write (op : WriteOp) (rev : Z) (m : gmap string KV) : gmap string KV :=
  match op with Put k v l => <[k := mkKV v rev l]> m | DeleteKey k => delete k m end.

Definition map_txn (s : MapStore) (cs : list Compare) (op : WriteOp) : MapStore * option (bool * Z) :=
  let lost := match lose s with b :: _ => b | [] => false end in
  let rest := tail (lose s) in
  if forallb (map_holds s) cs
  then let rev := store_rev s + 1 in
       (mkStore (map_write op rev (kvs s)) rev rest, if lost then None else Some (true, rev))
  else (mkStore (kvs s) (store_rev s) rest, if lost then None else Some (false, store_rev s)).

Definition map_revoke (s : MapStore) (l : Z) : MapStore * option bool :=
  (mkStore (filter (fun kv => kv_lease (snd kv) <> l) (kvs s)) (store_rev s) (lose s), Some true).

Definition map_reply {A} (s : MapStore) (a : A) : MapStore * option A :=
  (mkStore (kvs s) (store_rev s) (tail (lose s)),
   match lose s with true :: _ => None | _ => Some a end).

Definition map_range (s : MapStore) (p : string) : list (string * KV) :=
  List.filter (fun kv => startswith (fst kv) p) (map_to_list (kvs s)).

#[export] Instance MapStore_Etcd : Etcd MapStore := {
  lookup_kv s k := kvs s !! k;
  revision := store_rev;
  read_key s k := map_reply s (kvs s !! k);
  read_prefix s p := map_reply s (map_range s p);
  transaction := map_txn;
  lease_grant s := (s, Some (next_lease s));
  lease_refresh s _ := (s, Some 60);
  lease_revoke := map_revoke;
}.

Lemma next_lease_fresh s k v : kvs s !! k = Some v -> kv_lease v < next_lease s.
Proof.
  intros Hk. unfold next_lease. apply elem_of_map_to_list in Hk. revert Hk.
  induction (map_to_list (kvs s)) as [|[k' v'] l IH]; [by intros ?%not_elem_of_nil|].
  intros [Heq|Hin]%elem_of_cons; cbn [foldr snd]; [injection Heq as -> ->; lia|]. specialize (IH Hin). lia.
Qed.

Lemma next_lease_pos s : 0 < next_lease s.
Proof.
  unfold next_lease. induction (map_to_list (kvs s)) as [|[k' v'] l IH]; cbn [foldr]; lia.
Qed.

#[export] Instance MapStore_Laws : EtcdLaws MapStore.
Proof.
  split.
  - intros s cs op. cbn [transaction MapStore_Etcd lookup_kv revision]. unfold map_txn.
    assert (forallb (holds s) cs = forallb (map_holds s) cs) as ->.
    { induction cs as [|c cs IH]; [done|]. cbn [forallb]. rewrite IH. by destruct c. }
    destruct (forallb (map_holds s) cs); cbn [fst snd kvs store_rev].
    + right. split_and!; [|lia|by case_match; auto].
      intros k. unfold written. destruct op; cbn [map_write lookup_kv MapStore_Etcd].
      * rewrite lookup_insert. repeat case_decide; congruence.
      * rewrite lookup_delete. repeat case_decide; congruence.
    + split; [done|]. case_match; eauto.
  - intros s cs op. cbn. unfold map_txn. case_match; cbn; lia.
  - intros s k. cbn. split_and!; [done..|]. destruct (lose s) as [|[] l]; auto.
  - intros s p. cbn. split_and!; [done..|]. intros l Hl.
    assert (l = map_range s p) as -> by (unfold map_reply in Hl; cbn in Hl; destruct (lose s) as [|[] ?]; congruence).
    split.
    + apply (sublist_NoDup _ (fst <$> map_to_list (kvs s))); [apply NoDup_fst_map_to_list|].
      apply fmap_sublist, filter_sublist_bool.
    + intros k v. unfold map_range. rewrite list_elem_of_In, filter_In, <- list_elem_of_In, elem_of_map_to_list. tauto.
  - intros s. split; [done|]. cbn. intros l [= <-]. split; [pose proof (next_lease_pos s); lia|].
    intros k v Hk. pose proof (next_lease_fresh s k v Hk). lia.
  - done.
  - intros s l k. right. cbn. unfold map_revoke. cbn. rewrite map_lookup_filter.
    destruct (kvs s !! k) as [v|]; [|done]. cbn. unfold guard. repeat case_decide; cbn in *; tauto || done.
Qed.

(** *** Witness *)

Definition ex_obs : NodeLeaseObservation := {| obs_value := JsonText JNull; obs_mod_revision := 5; obs_lease_id := 0 |}.
Definition ex_store (lose : list bool) : MapStore :=
  mkStore {["/nodes/a" := mkKV (JsonText JNull) 5 0]} 5 lose.
Definition ex_leases : NodeLeaseManager := mkLeases {["a" := ex_obs]} true.

Lemma lease_adoption_safe_witness :
  kv_value <$> lookup_kv (snd (Leases._adopt "/nodes/" (fun w => w) "a" ex_obs (ex_leases, ex_store []))) "/nodes/a" =
  Some (JsonText JNull).
Proof.
  destruct (lease_adoption_safe "/nodes/" (fun w => w) "a" ex_obs ex_leases (ex_store []) (ex_store [])
    ex_leases (next_lease (ex_store []))) with (k := "/nodes/a") as [H _].
  - reflexivity.
  - reflexivity.
  - intros k v Hk. pose proof (next_lease_fresh (ex_store []) k v Hk). lia.
  - intros _. vm_compute. reflexivity.
  - eexists. vm_compute. reflexivity.
  - rewrite H. vm_compute. reflexivity.
Defined.

(** When the adoption transaction commits but its reply is lost, the
    manager takes the lease for unused and revokes it, and etcd deletes the
    registration of a healthy node together with the lease. *)
Theorem lost_adoption_reply_deletes_node :
  let healthy_node := set_status HEALTHY (mkNode "a" "" "http://a:1" UNKNOWN "" VLLM None None None None
    default_capabilities 0 true false false "" [] None) in
  let w := (ex_leases, ex_store [true]) in
  is_Some (lookup_kv (snd w) "/nodes/a") /\
  lookup_kv (snd (Leases.maintain_after_success "/nodes/" (fun w => w) healthy_node w)) "/nodes/a" = None.
Proof. cbn zeta. split; [eexists; vm_compute; reflexivity|]. vm_compute. reflexivity. Qed.
