(* ===== verification/Watcher.v ===== *)
(** * Discovery: records of etcd into the registry

    - [inference_proxy/discovery/serializer.py]: [node_from_etcd]
    - [inference_proxy/discovery/watcher.py]: snapshots, watch batches and the
      recovery loop of [EtcdWatcher.run]

    [normalize] is the endpoint policy and [build] the model constructor
    [Node(node_id=..., **data)] with its field parsing; [None] is a raised
    error.  A key that is not UTF-8 is [None]. *)

From S2P Require Import Prelude PyDict NodeModel Registry Json Etcd.
Local Open Scope Z_scope.

Record EtcdRecord := { key : option string; value : blob; mod_revision : Z; lease_id : Z }.
Record EtcdSnapshot := { records : list EtcdRecord; snap_revision : Z }.
Record EtcdEvent := {
  ev_key : option string; ev_value : option blob; ev_mod_revision : Z; is_delete : bool; ev_lease_id : Z;
}.
Record EtcdWatchBatch := { events : list EtcdEvent; batch_revision : Z }.

Section watcher.
Context {E : Type}.
Context (normalize : string -> option string).
Context (build : string -> list (string * json) -> option Node).
Context (prefix : string).

Definition node_from_etcd (k : option string) (v : blob) : option Node :=
  match k with
  | None => None
  | Some k =>
      let id := removeprefix prefix k in
      match loads v with
      | Some (JObj data) =>
          match dget "endpoint" data with
          | Some (JStr raw_endpoint) =>
              match normalize raw_endpoint with
              | Some ep =>
                  (* a second [node_id] keyword is a [TypeError] *)
                  if dmem "node_id" data then None else build id (dset "endpoint" (JStr ep) data)
              | None => None
              end
          | _ => None
          end
      | _ => None
      end
  end.

Definition _node_id (k : option string) : option string :=
  match k with
  | None => None
  | Some k =>
      if negb (startswith k prefix) then None
      else let id := removeprefix prefix k in if str_truthy id then Some id else None
  end.

(** ** Snapshots *)

(** The four collections filled by the loop over the records. *)
Record Seed := mkSeed {
  nodes : list (string * Node);
  present_node_ids : list string;
  key_revisions : gmap string Z;
  lease_records : gmap string NodeLeaseObservation;
}.

Definition seed_record (sd : Seed) (r : EtcdRecord) : Seed :=
  match _node_id (key r) with
  | None => sd
  | Some id =>
      let present := id :: present_node_ids sd in
      let revs := <[id := mod_revision r]> (key_revisions sd) in
      match node_from_etcd (key r) (value r) with
      | Some n =>
          mkSeed (dset id n (nodes sd)) present revs
            (<[id := {| obs_value := value r; obs_mod_revision := mod_revision r; obs_lease_id := lease_id r |}]>
               (lease_records sd))
      | None => mkSeed (nodes sd) present revs (lease_records sd)
      end
  end.

Definition seed_of (l : list EtcdRecord) : Seed := fold_left seed_record l (mkSeed [] [] ∅ ∅).

(** The watcher's state: the registry, the lease observations, the per-key
    revision gates. *)
Record WState := mkW { wreg : NodeRegistry E; wleases : NodeLeaseManager; gates : gmap string Z }.

Definition gate (w : WState) (id : string) : Z := default 0 (gates w !! id).

Definition _reconcile_snapshot (snap : EtcdSnapshot) (w : WState) : WState :=
  let sd := seed_of (records snap) in
  let '(r, missing) := reconcile_discovered (nodes sd) (present_node_ids sd) (wreg w) in
  mkW r (Leases.reconcile_snapshot (lease_records sd) (wleases w))
    (fold_left (fun g id => <[id := snap_revision snap]> g) missing (key_revisions sd)).

(** ** Watch batches *)

Definition _apply_event (e : EtcdEvent) (id : string) (w : WState) : WState :=
  if is_delete e then
    mkW (fst (drain id (wreg w))) (Leases.observe_delete id (ev_mod_revision e) (wleases w)) (gates w)
  else
    match ev_value e with
    | None => w
    | Some v =>
        match node_from_etcd (ev_key e) v with
        | None => w
        | Some n =>
            mkW (add_discovered n (wreg w))
              (Leases.observe_put id v (ev_mod_revision e) (ev_lease_id e) (wleases w)) (gates w)
        end
    end.

Definition set_gate (id : string) (rev : Z) (w : WState) : WState :=
  mkW (wreg w) (wleases w) (<[id := rev]> (gates w)).

Definition apply_gated (w : WState) (e : EtcdEvent) : WState :=
  match _node_id (ev_key e) with
  | None => w
  | Some id =>
      if ev_mod_revision e <=? gate w id then w
      else set_gate id (ev_mod_revision e) (_apply_event e id w)
  end.

Definition apply_events (l : list EtcdEvent) (w : WState) : WState := fold_left apply_gated l w.

Definition _apply_batch (b : EtcdWatchBatch) (w : WState) : WState := apply_events (events b) w.

(** ** The recovery loop

    One round of the [while] loop of [run] once the snapshot answered: the
    batches the stream delivered, then how it ended.  Handling a batch does not
    raise here. *)
Inductive StreamEnd := Ended | ReadTimeout | Compacted | Disconnected.

(** A round: a snapshot if one is due ([None] when it raised), then the stream. *)
Record Round := { snapshot : option EtcdSnapshot; batches : list EtcdWatchBatch; ending : StreamEnd }.

Definition apply_batches (l : list EtcdWatchBatch) (resume : Z) (w : WState) : WState * Z :=
  fold_left (fun acc b => (_apply_batch b (fst acc), Z.max (snd acc) (batch_revision b))) l (w, resume).

(** [resume_revision] is [None] before the first snapshot and after compaction,
    which also forgets the gates. *)
Definition round (w : WState) (resume : option Z) (r : Round) : WState * option Z :=
  let start :=
    match resume with
    | Some rev => Some (w, rev)
    | None => match snapshot r with
              | Some snap => Some (_reconcile_snapshot snap w, snap_revision snap)
              | None => None
              end
    end in
  match start with
  | None => (w, None)
  | Some (w, rev) =>
      let '(w, rev) := apply_batches (batches r) rev w in
      match ending r with
      | Compacted => (mkW (wreg w) (wleases w) ∅, None)
      | _ => (w, Some rev)
      end
  end.

Definition run (l : list Round) (w : WState) : WState * option Z :=
  fold_left (fun acc r => round (fst acc) (snd acc) r) l (w, None).
End watcher.
Arguments WState E : clear implicits.
Arguments mkW {E} _ _ _.

#[export] Instance EtcdEvent_eq : EqDecision EtcdEvent.
Proof. solve_decision. Defined.

#[export] Instance EtcdRecord_eq : EqDecision EtcdRecord.
Proof. solve_decision. Defined.

(** ** Per-key gates *)

Section facts.
Context {E : Type}.
Context (normalize : string -> option string) (build : string -> list (string * json) -> option Node).
Context (prefix : string).
(** The constructor stores the id it is given. *)
Context (build_id : forall id data n, build id data = Some n -> node_id n = id).
Implicit Types (w : WState E) (e : EtcdEvent).

Notation node_from := (node_from_etcd normalize build prefix).
Notation id_of := (_node_id prefix).
Notation step := (apply_gated normalize build prefix).
Notation apply := (apply_events normalize build prefix).

Lemma node_from_id k v n id : node_from k v = Some n -> id_of k = Some id -> node_id n = id.
Proof.
  unfold node_from_etcd, _node_id. destruct k as [k|]; [|done].
  destruct (loads v) as [[| | | | |d]|]; try done. destruct (dget "endpoint" d) as [[| | |ep| |]|]; try done.
  destruct (normalize ep); [|done]. case_match; [done|]. intros Hb%build_id Hid. case_match; [done|].
  case_match; congruence.
Qed.

(** A merge keeps the discovered node up to a liveness verdict. *)
Lemma merge_discovered_status c n : exists s, Some (merge_discovered c n) = Some (set_status s n) /\
  (s <> status n -> is_liveness s = true /\ is_liveness (status n) = true).
Proof.
  assert (Some n = Some (set_status (status n) n)) as Hsame by (by destruct n).
  destruct c as [c|]; cbn; [|by exists (status n)].
  destruct (is_liveness (status c)) eqn:Hc, (is_liveness (status n)) eqn:Hn; cbn; eauto; by exists (status n).
Qed.

(** What the watcher knows of one key. *)
Definition view w (k : string) : option Node * option NodeLeaseObservation * Z :=
  (get (wreg w) k, _records (wleases w) !! k, gate w k).

Lemma view_inv w k a b c : view w k = (a, b, c) ->
  get (wreg w) k = a /\ _records (wleases w) !! k = b /\ gate w k = c.
Proof. unfold view. by intros [= <- <- <-]. Qed.

Lemma gate_set_gate id r w k : gate (set_gate id r w) k = if decide (k = id) then r else gate w k.
Proof.
  unfold gate, set_gate. cbn [gates]. destruct (decide (k = id)) as [->|Hk].
  - by rewrite lookup_insert_eq.
  - by rewrite lookup_insert_ne.
Qed.

Lemma observe_put_other id v r l m k : k <> id -> _records (Leases.observe_put id v r l m) !! k = _records m !! k.
Proof.
  intros Hk. unfold Leases.observe_put. repeat case_match; cbn; try done; by rewrite lookup_insert_ne.
Qed.

Lemma observe_delete_other id r m k : k <> id -> _records (Leases.observe_delete id r m) !! k = _records m !! k.
Proof.
  intros Hk. unfold Leases.observe_delete. repeat case_match; cbn; try done; by rewrite lookup_delete_ne.
Qed.

(** An event of another key is invisible. *)
Lemma view_step_other w e k : id_of (ev_key e) <> Some k -> view (step w e) k = view w k.
Proof.
  intros Hk. unfold apply_gated. destruct (id_of (ev_key e)) as [id|] eqn:Hid; [|done].
  assert (k <> id) as Hne by congruence. case_match; [done|]. unfold view.
  rewrite gate_set_gate, decide_False by done. cbn [set_gate wreg wleases].
  unfold _apply_event. destruct (is_delete e).
  - cbn [wreg wleases gate gates]. rewrite observe_delete_other by done. rewrite get_drain, decide_False by done. done.
  - destruct (ev_value e) as [v|]; [|done]. destruct (node_from (ev_key e) v) as [n|] eqn:Hn; [|done].
    cbn [wreg wleases]. rewrite observe_put_other by done.
    rewrite get_add_discovered, (node_from_id _ _ _ _ Hn Hid), decide_False by done. done.
Qed.

Lemma step_stale w e id : id_of (ev_key e) = Some id -> ev_mod_revision e <= gate w id -> step w e = w.
Proof. intros Hid Hle. unfold apply_gated. by rewrite Hid, (proj2 (Z.leb_le _ _) Hle). Qed.

Lemma gate_step w e k : gate (step w e) k =
  if decide (id_of (ev_key e) = Some k) then Z.max (gate w k) (ev_mod_revision e) else gate w k.
Proof.
  case_decide as Hk.
  - unfold apply_gated. rewrite Hk. destruct (Z.leb_spec (ev_mod_revision e) (gate w k)); [lia|].
    rewrite gate_set_gate, decide_True by done. lia.
  - pose proof (view_step_other w e k Hk) as Hv. by injection Hv.
Qed.

Lemma gate_apply_ge l w k : gate w k <= gate (apply l w) k.
Proof.
  revert w. induction l as [|e l IH]; intros w; [done|]. cbn. etrans; [|apply IH]. rewrite gate_step.
  case_decide; lia.
Qed.

Lemma gate_apply_in l w e k : e ∈ l -> id_of (ev_key e) = Some k -> ev_mod_revision e <= gate (apply l w) k.
Proof.
  revert w. induction l as [|e' l IH]; intros w; [by intros ?%not_elem_of_nil|].
  intros [->|Hin]%elem_of_cons Hk; cbn; [|by apply IH].
  etrans; [|apply gate_apply_ge]. rewrite gate_step, decide_True by done. lia.
Qed.

Lemma gate_apply_lt l w k r : gate w k < r ->
  (forall e, e ∈ l -> id_of (ev_key e) = Some k -> ev_mod_revision e < r) -> gate (apply l w) k < r.
Proof.
  revert w. induction l as [|e l IH]; intros w Hw Hl; [done|]. cbn. apply IH; [|set_solver].
  rewrite gate_step. case_decide as Hk; [|done]. specialize (Hl e ltac:(set_solver) Hk). lia.
Qed.

Lemma apply_all_stale l w :
  (forall e id, e ∈ l -> id_of (ev_key e) = Some id -> ev_mod_revision e <= gate w id) -> apply l w = w.
Proof.
  clear build_id.
  induction l as [|e l IH]; intros H; [done|]. cbn. destruct (id_of (ev_key e)) as [id|] eqn:Hid.
  - rewrite (step_stale w e id Hid) by (apply (H e id); set_solver). apply IH. set_solver.
  - unfold apply_gated at 2. rewrite Hid. apply IH. set_solver.
Qed.

(** Events of a key at or below its gate leave its view alone. *)
Lemma view_apply_stale l w k :
  (forall e, e ∈ l -> id_of (ev_key e) = Some k -> ev_mod_revision e <= gate w k) -> view (apply l w) k = view w k.
Proof.
  revert w. induction l as [|e l IH]; intros w H; [done|]. cbn.
  destruct (decide (id_of (ev_key e) = Some k)) as [Hk|Hk].
  - rewrite (step_stale w e k Hk) by (apply H; set_solver). apply IH. set_solver.
  - pose proof (view_step_other w e k Hk) as Hv.
    etrans; [apply IH|exact Hv]. intros e' He' Hk'. injection Hv as _ _ ->. apply H; [by right|done].
Qed.

(** The lease record of a key is never newer than [r]. *)
Definition leases_upto (r : Z) (k : string) w : Prop :=
  forall o, _records (wleases w) !! k = Some o -> obs_mod_revision o <= r.

Lemma leases_upto_put r id v r' l m k :
  (forall o, _records m !! k = Some o -> obs_mod_revision o <= r) -> r' <= r ->
  forall o, _records (Leases.observe_put id v r' l m) !! k = Some o -> obs_mod_revision o <= r.
Proof.
  intros Hm Hr o. destruct (decide (k = id)) as [->|Hk]; [|rewrite observe_put_other by done; apply Hm].
  unfold Leases.observe_put. destruct (_records m !! id) as [c|] eqn:Hc.
  - case_match; cbn; [rewrite lookup_insert_eq; intros [= <-]; done|rewrite Hc; apply Hm].
  - cbn. rewrite lookup_insert_eq. by intros [= <-].
Qed.

Lemma leases_upto_delete r id r' m k :
  (forall o, _records m !! k = Some o -> obs_mod_revision o <= r) ->
  forall o, _records (Leases.observe_delete id r' m) !! k = Some o -> obs_mod_revision o <= r.
Proof.
  intros Hm o. destruct (decide (k = id)) as [->|Hk]; [|rewrite observe_delete_other by done; apply Hm].
  unfold Leases.observe_delete. destruct (_records m !! id) as [c|] eqn:Hc; [case_match|]; cbn;
    rewrite ?lookup_delete_eq, ?Hc; done || apply Hm.
Qed.

Lemma leases_upto_step r k w e : leases_upto r k w -> 
  (id_of (ev_key e) = Some k -> ev_mod_revision e <= r) -> leases_upto r k (step w e).
Proof.
  intros Hw He. destruct (decide (id_of (ev_key e) = Some k)) as [Hk|Hk].
  - specialize (He Hk). unfold apply_gated. rewrite Hk. case_match; [done|]. unfold leases_upto. cbn.
    unfold _apply_event. destruct (is_delete e); [by apply leases_upto_delete|].
    repeat case_match; try done. by apply leases_upto_put.
  - intros o. pose proof (view_step_other w e k Hk) as Hv. injection Hv as _ -> _. apply Hw.
Qed.

Lemma leases_upto_apply r k l w : leases_upto r k w ->
  (forall e, e ∈ l -> id_of (ev_key e) = Some k -> ev_mod_revision e <= r) -> leases_upto r k (apply l w).
Proof.
  revert w. induction l as [|e l IH]; intros w Hw Hl; [done|]. cbn. apply IH.
  - apply leases_upto_step; [done|]. intros Hk. apply Hl; [by left|done].
  - intros e' He' Hk'. apply Hl; [by right|done].
Qed.

Lemma leases_get_put id v r l m : (forall o, _records m !! id = Some o -> obs_mod_revision o <= r) ->
  _records (Leases.observe_put id v r l m) !! id =
  Some {| obs_value := v; obs_mod_revision := r; obs_lease_id := l |}.
Proof.
  intros Hm. unfold Leases.observe_put. destruct (_records m !! id) as [c|] eqn:Hc; cbn.
  - rewrite (proj2 (Z.leb_le _ _) (Hm c eq_refl)). cbn. by rewrite lookup_insert_eq.
  - by rewrite lookup_insert_eq.
Qed.

Lemma leases_get_delete id r m : (forall o, _records m !! id = Some o -> obs_mod_revision o <= r) ->
  _records (Leases.observe_delete id r m) !! id = None.
Proof.
  intros Hm. unfold Leases.observe_delete. destruct (_records m !! id) as [c|] eqn:Hc; cbn.
  - rewrite (proj2 (Z.leb_le _ _) (Hm c eq_refl)). cbn. by rewrite lookup_delete_eq.
  - by rewrite lookup_delete_eq.
Qed.

(** [e] is the newest event of [k] in [l]. *)
Definition newest (l : list EtcdEvent) (k : string) e : Prop :=
  e ∈ l /\ id_of (ev_key e) = Some k /\
  (forall e', e' ∈ l -> id_of (ev_key e') = Some k -> e' = e \/ ev_mod_revision e' < ev_mod_revision e).

(** A key's view after any sequence of events is that of its newest event
    applied to some earlier state of the key. *)
Lemma view_newest l w k e : newest l k e -> gate w k < ev_mod_revision e ->
  leases_upto (ev_mod_revision e) k w ->
  exists w0, view (apply l w) k = view (step w0 e) k /\ gate w0 k < ev_mod_revision e /\
    leases_upto (ev_mod_revision e) k w0.
Proof.
  intros (Hin & Hid & Hnew) Hg Hl.
  destruct (list_elem_of_split_l _ _ Hin) as (l1 & l2 & -> & Hfirst).
  assert (forall e', e' ∈ l1 -> id_of (ev_key e') = Some k -> ev_mod_revision e' < ev_mod_revision e) as H1.
  { intros e' He' Hk'. destruct (Hnew e') as [->|?]; [set_solver|done|done|lia]. }
  exists (apply l1 w). split; [|split].
  - unfold apply_events. rewrite fold_left_app. cbn [fold_left].
    apply view_apply_stale. intros e' He' Hk'. rewrite gate_step, decide_True by done.
    destruct (Hnew e') as [->|?]; [set_solver|done|lia|lia].
  - by apply gate_apply_lt.
  - apply leases_upto_apply; [done|]. intros e' He' Hk'. specialize (H1 e' He' Hk'). lia.
Qed.

(** ** Snapshots *)

Notation seeds := (seed_of normalize build prefix).

Definition observation (r : EtcdRecord) : NodeLeaseObservation :=
  {| obs_value := value r; obs_mod_revision := mod_revision r; obs_lease_id := lease_id r |}.

Definition record_node (r : EtcdRecord) : option Node := node_from (key r) (value r).

Definition seed_view (sd : Seed) (k : string) :=
  (dget k (nodes sd), lease_records sd !! k, key_revisions sd !! k, bool_decide (k ∈ present_node_ids sd)).

Lemma seed_of_snoc l r : seeds (l ++ [r]) = seed_record normalize build prefix (seeds l) r.
Proof. unfold seed_of. by rewrite fold_left_app. Qed.

Lemma seed_record_other sd r k : id_of (key r) <> Some k ->
  seed_view (seed_record normalize build prefix sd r) k = seed_view sd k.
Proof.
  intros Hk. unfold seed_record. destruct (id_of (key r)) as [id|]; [|done].
  assert (k <> id) as Hne by congruence. unfold seed_view.
  case_match; cbn; rewrite ?dget_dset, ?decide_False, ?lookup_insert_ne by done; f_equal;
    apply bool_decide_ext; set_solver.
Qed.

Lemma seed_absent l k : (forall r, r ∈ l -> id_of (key r) <> Some k) ->
  seed_view (seeds l) k = (None, None, None, false).
Proof.
  induction l as [|r l IH] using rev_ind; intros H.
  - unfold seed_view. cbn. rewrite bool_decide_false by set_solver. done.
  - rewrite seed_of_snoc, seed_record_other by (apply H; set_solver). apply IH. set_solver.
Qed.

Lemma seed_present l k r1 : r1 ∈ l -> id_of (key r1) = Some k ->
  (forall r, r ∈ l -> id_of (key r) = Some k -> r = r1) ->
  seed_view (seeds l) k =
  (record_node r1, (fun _ => observation r1) <$> record_node r1, Some (mod_revision r1), true).
Proof.
  intros Hin Hid. induction l as [|r l IH] using rev_ind; intros H; [by apply not_elem_of_nil in Hin|].
  rewrite seed_of_snoc. destruct (decide (id_of (key r) = Some k)) as [Hk|Hk].
  - assert (r = r1) as -> by (apply H; [set_solver|done]).
    assert (seed_view (seeds l) k = (None, None, None, false) \/
            seed_view (seeds l) k = (record_node r1, (fun _ => observation r1) <$> record_node r1,
                                     Some (mod_revision r1), true)) as Hs.
    { destruct (decide (r1 ∈ l)) as [Hl|Hl]; [right; apply IH; set_solver|].
      left. apply seed_absent. intros r Hr Hk'. apply Hl. rewrite <- (H r); set_solver. }
    unfold seed_view in *. unfold seed_record, record_node in *. rewrite Hid.
    destruct (node_from (key r1) (value r1)) as [n|] eqn:Hn; cbn -[bool_decide] in *.
    + rewrite dget_dset, decide_True, !lookup_insert_eq, bool_decide_true by set_solver. done.
    + rewrite lookup_insert_eq, bool_decide_true by set_solver.
      destruct Hs as [Hs|Hs]; injection Hs as -> -> _ _; done.
  - rewrite seed_record_other by done. apply elem_of_app in Hin as [Hin|Hin%list_elem_of_singleton]; [|congruence].
    apply IH; set_solver.
Qed.

Lemma keyed_seed l : keyed (nodes (seeds l)).
Proof.
  induction l as [|r l IH] using rev_ind; [split; [apply dwf_nil|done]|].
  rewrite seed_of_snoc. unfold seed_record. destruct (id_of (key r)) as [id|] eqn:Hid; [|done].
  destruct (node_from (key r) (value r)) as [n|] eqn:Hn; [|done]. destruct IH as [Hd Hk]. cbn.
  split; [by apply dwf_dset|]. intros k m. rewrite dget_dset. case_decide; [|apply Hk].
  intros [= <-]. subst. by apply (node_from_id _ _ _ _ Hn).
Qed.

Lemma lookup_tombstones ids (rev : Z) (g : gmap string Z) k :
  fold_left (fun g id => <[id := rev]> g) ids g !! k = if decide (k ∈ ids) then Some rev else g !! k.
Proof.
  revert g. induction ids as [|i ids IH]; intros g; cbn [fold_left].
  - by rewrite decide_False by set_solver.
  - rewrite IH. destruct (decide (k = i)) as [->|Hk].
    + rewrite lookup_insert_eq, (decide_True (P := i ∈ i :: ids)) by set_solver. by case_decide.
    + rewrite lookup_insert_ne by done. repeat case_decide; set_solver.
Qed.

Notation reconcile := (_reconcile_snapshot normalize build prefix).

Lemma view_snapshot_present snap w k r : r ∈ records snap -> id_of (key r) = Some k ->
  (forall r', r' ∈ records snap -> id_of (key r') = Some k -> r' = r) ->
  view (reconcile snap w) k =
  (match record_node r with Some n => Some (merge_discovered (get (wreg w) k) n) | None => get (wreg w) k end,
   (fun _ => observation r) <$> record_node r, mod_revision r).
Proof.
  intros Hr Hk Hu. pose proof (seed_present _ _ _ Hr Hk Hu) as Hs. unfold seed_view in Hs.
  injection Hs as Hn Hl Hg Hp%bool_decide_eq_true_1.
  pose proof (reconcile_lookup _ (present_node_ids (seeds (records snap))) (wreg w) k (keyed_seed (records snap))) as Hreg.
  pose proof (reconcile_missing _ (present_node_ids (seeds (records snap))) (wreg w) k (keyed_seed (records snap))) as Hmis.
  unfold view, _reconcile_snapshot, gate.
  destruct (reconcile_discovered _ _ (wreg w)) as [r' missing] eqn:Hrec. cbn [wreg wleases gates fst snd] in *.
  rewrite Hreg, decide_True by done. unfold snapshot_view. rewrite Hn. cbn [Leases.reconcile_snapshot _records].
  rewrite Hl, lookup_tombstones, decide_False by (rewrite Hmis; tauto). rewrite Hg. done.
Qed.

Lemma view_snapshot_absent snap w k : (forall r, r ∈ records snap -> id_of (key r) <> Some k) ->
  view (reconcile snap w) k =
  (set_status DRAINING <$> get (wreg w) k, None,
   match get (wreg w) k with Some _ => snap_revision snap | None => 0 end).
Proof.
  intros Hr. pose proof (seed_absent _ _ Hr) as Hs. unfold seed_view in Hs.
  injection Hs as Hn Hl Hg Hp%bool_decide_eq_false_1.
  pose proof (reconcile_lookup _ (present_node_ids (seeds (records snap))) (wreg w) k (keyed_seed (records snap))) as Hreg.
  pose proof (reconcile_missing _ (present_node_ids (seeds (records snap))) (wreg w) k (keyed_seed (records snap))) as Hmis.
  unfold view, _reconcile_snapshot, gate.
  destruct (reconcile_discovered _ _ (wreg w)) as [r' missing] eqn:Hrec. cbn [wreg wleases gates fst snd] in *.
  rewrite Hreg, decide_False by done. unfold snapshot_view in *. rewrite Hn in *. cbn [Leases.reconcile_snapshot _records].
  rewrite Hl, lookup_tombstones, Hg. destruct (get (wreg w) k).
  - rewrite decide_True by (rewrite Hmis; eauto). done.
  - rewrite decide_False by (rewrite Hmis; intros [[? [=]] _]). done.
Qed.

(** ** Rounds *)

Definition stream_events (l : list Round) : list EtcdEvent := l ≫= (fun r => batches r ≫= events).

Lemma apply_batches_spec l rev w : exists rev',
  apply_batches normalize build prefix l rev w = (apply (l ≫= events) w, rev') /\ rev <= rev'.
Proof.
  revert rev w. induction l as [|b l IH]; intros rev w; [by eexists; split|].
  unfold apply_batches. cbn [fold_left fst snd].
  destruct (IH (Z.max rev (batch_revision b)) (_apply_batch normalize build prefix b w)) as (rev' & H & Hle).
  exists rev'. split; [|lia]. etrans; [exact H|]. f_equal. cbn [mbind list_bind].
  unfold apply_events. by rewrite fold_left_app.
Qed.

Lemma run_resumed l w rev : Forall (fun r => ending r <> Compacted) l -> exists rev',
  fold_left (fun acc r => round normalize build prefix (fst acc) (snd acc) r) l (w, Some rev) =
  (apply (stream_events l) w, Some rev') /\ rev <= rev'.
Proof.
  revert w rev. induction l as [|r l IH]; intros w rev Hl; [by eexists; split|].
  inversion_clear Hl as [|?? Hr Hl']. cbn [fold_left fst snd]. unfold round at 2.
  destruct (apply_batches_spec (batches r) rev w) as (rev1 & -> & H1).
  destruct (IH (apply (batches r ≫= events) w) rev1 Hl') as (rev2 & H2 & Hle). exists rev2.
  split; [|lia]. cbn [stream_events mbind list_bind].
  unfold apply_events in *. unfold stream_events in *. rewrite fold_left_app.
  destruct (ending r); try done; exact H2.
Qed.

(** A run that is not compacted applies the snapshot, then every delivered event. *)
Lemma run_delivers r0 rs snap w : snapshot r0 = Some snap ->
  Forall (fun r => ending r <> Compacted) (r0 :: rs) -> exists rev,
  run normalize build prefix (r0 :: rs) w =
  (apply (stream_events (r0 :: rs)) (reconcile snap w), Some rev) /\ snap_revision snap <= rev.
Proof.
  intros Hs Hall. destruct (run_resumed (r0 :: rs) (reconcile snap w) (snap_revision snap) Hall) as (rev & H & Hle).
  exists rev. split; [|done]. rewrite <- H. unfold run. cbn [fold_left fst snd]. f_equal.
  unfold round. by rewrite Hs.
Qed.

(** etcd answers a range with one record per key. *)
Definition snapshot_unique (snap : EtcdSnapshot) : Prop :=
  forall r r' id, r ∈ records snap -> r' ∈ records snap ->
    id_of (key r) = Some id -> id_of (key r') = Some id -> r = r'.

Lemma leases_upto_snapshot snap w k : snapshot_unique snap ->
  leases_upto (gate (reconcile snap w) k) k (reconcile snap w).
Proof.
  intros Hu o. destruct (decide (Exists (fun r => id_of (key r) = Some k) (records snap))) as [He|He].
  - apply Exists_exists in He as (r & Hr & Hk).
    pose proof (view_snapshot_present snap w k r Hr Hk (fun r' Hr' Hk' => Hu _ _ _ Hr' Hr Hk' Hk)) as Hv.
    apply view_inv in Hv as (_ & -> & ->). destruct (record_node r); [|done]. by intros [= <-].
  - destruct (view_inv _ _ _ _ _ (view_snapshot_absent snap w k
      ltac:(intros r Hr Hk; apply He, Exists_exists; eauto))) as (_ & -> & _). done.
Qed.

Lemma step_delete w e k : id_of (ev_key e) = Some k -> gate w k < ev_mod_revision e ->
  leases_upto (ev_mod_revision e) k w -> is_delete e = true ->
  view (step w e) k = (set_status DRAINING <$> get (wreg w) k, None, ev_mod_revision e).
Proof.
  intros Hk Hg Hl Hd. unfold view, apply_gated. rewrite Hk, (proj2 (Z.leb_gt _ _) Hg).
  rewrite gate_set_gate, decide_True by done. cbn [set_gate wreg wleases]. unfold _apply_event. rewrite Hd.
  cbn [wreg wleases]. rewrite get_drain, decide_True, leases_get_delete by done. done.
Qed.

Lemma step_put w e k v n : id_of (ev_key e) = Some k -> gate w k < ev_mod_revision e ->
  leases_upto (ev_mod_revision e) k w -> is_delete e = false -> ev_value e = Some v ->
  node_from (ev_key e) v = Some n ->
  view (step w e) k =
  (Some (merge_discovered (get (wreg w) k) n),
   Some {| obs_value := v; obs_mod_revision := ev_mod_revision e; obs_lease_id := ev_lease_id e |},
   ev_mod_revision e).
Proof.
  intros Hk Hg Hl Hd Hv Hn. unfold view, apply_gated. rewrite Hk, (proj2 (Z.leb_gt _ _) Hg).
  rewrite gate_set_gate, decide_True by done. cbn [set_gate wreg wleases]. unfold _apply_event. rewrite Hd, Hv, Hn.
  cbn [wreg wleases]. rewrite get_add_discovered, decide_True, leases_get_put
    by (try done; by rewrite (node_from_id _ _ _ _ Hn Hk)). done.
Qed.
End facts.

(** ** What discovery guarantees *)

(** Replaying any selection of already applied events, in any order and
    with repetitions, changes nothing: neither the registry, nor the lease
    observations, nor the gates. *)
Theorem replay_is_noop {E} normalize build prefix
  (build_id : forall id data n, build id data = Some n -> node_id n = id)
  (l l' : list EtcdEvent) (w : WState E) :
  l' ⊆ l ->
  apply_events normalize build prefix l' (apply_events normalize build prefix l w) =
  apply_events normalize build prefix l w.
Proof.
  intros Hsub. apply apply_all_stale. intros e id He Hid. apply gate_apply_in; [done|by apply Hsub|done].
Qed.

(** An etcd snapshot is authoritative.  A present key gets its parsed
    record, its lease observation and its revision as gate; an unparsable
    present key keeps the local node but loses its lease observation; a
    registered key that is absent is DRAINING, has no lease observation and is
    tombstoned at the snapshot's revision.  Afterwards every event at or below
    these gates is ignored. *)
Theorem snapshot_authoritative {E} normalize build prefix
  (build_id : forall id data n, build id data = Some n -> node_id n = id)
  (snap : EtcdSnapshot) (w : WState E) :
  snapshot_unique prefix snap ->
  let w' := _reconcile_snapshot normalize build prefix snap w in
  (forall r k, r ∈ records snap -> _node_id prefix (key r) = Some k ->
     gate w' k = mod_revision r /\
     match node_from_etcd normalize build prefix (key r) (value r) with
     | Some n => get (wreg w') k = Some (merge_discovered (get (wreg w) k) n) /\
                 _records (wleases w') !! k = Some (observation r)
     | None => get (wreg w') k = get (wreg w) k /\ _records (wleases w') !! k = None
     end) /\
  (forall k, (forall r, r ∈ records snap -> _node_id prefix (key r) <> Some k) ->
     get (wreg w') k = set_status DRAINING <$> get (wreg w) k /\
     _records (wleases w') !! k = None /\
     (is_Some (get (wreg w) k) -> gate w' k = snap_revision snap)) /\
  (forall l, (forall e id, e ∈ l -> _node_id prefix (ev_key e) = Some id -> ev_mod_revision e <= gate w' id) ->
     apply_events normalize build prefix l w' = w').
Proof.
  intros Hu w'. split; [|split].
  - intros r k Hr Hk.
    destruct (view_inv _ _ _ _ _ (view_snapshot_present normalize build prefix build_id snap w k r Hr Hk
      (fun r' Hr' Hk' => Hu _ _ _ Hr' Hr Hk' Hk))) as (H1 & H2 & H3).
    fold w' in H1, H2, H3. split; [done|]. unfold record_node in *. case_match; by rewrite H1, H2.
  - intros k Hk. destruct (view_inv _ _ _ _ _ (view_snapshot_absent normalize build prefix build_id snap w k Hk))
      as (H1 & H2 & H3). split; [done|]. split; [done|]. intros [n Hn]. subst w'. by rewrite H3, Hn.
  - intros l. apply apply_all_stale.
Qed.

(** C32: a watch run that starts from a snapshot converges to the newest state
    of every key, however the events are batched, reordered across keys,
    replayed or split over reconnections.  When the newest event of a key is a
    deletion, the node is DRAINING or absent and has no lease observation; when
    it is a parsable PUT, the registry holds exactly that node up to a liveness
    verdict, and the lease observation is that event's; a key without an event
    above its gate is as the snapshot left it. *)
Theorem watch_converges {E} normalize build prefix
  (build_id : forall id data n, build id data = Some n -> node_id n = id)
  (r0 : Round) (rs : list Round) (snap : EtcdSnapshot) (w : WState E) (k : string) :
  snapshot r0 = Some snap -> snapshot_unique prefix snap ->
  Forall (fun r => ending r <> Compacted) (r0 :: rs) ->
  let w0 := _reconcile_snapshot normalize build prefix snap w in
  let l := stream_events (r0 :: rs) in
  let w' := fst (run normalize build prefix (r0 :: rs) w) in
  (forall e, newest prefix l k e -> gate w0 k < ev_mod_revision e ->
     gate w' k = ev_mod_revision e /\
     (is_delete e = true ->
        (forall n, get (wreg w') k = Some n -> status n = DRAINING) /\ _records (wleases w') !! k = None) /\
     (forall v n, is_delete e = false -> ev_value e = Some v ->
        node_from_etcd normalize build prefix (ev_key e) v = Some n ->
        (exists s, get (wreg w') k = Some (set_status s n) /\
           (s <> status n -> is_liveness s = true /\ is_liveness (status n) = true)) /\
        _records (wleases w') !! k =
          Some {| obs_value := v; obs_mod_revision := ev_mod_revision e; obs_lease_id := ev_lease_id e |})) /\
  ((forall e, e ∈ l -> _node_id prefix (ev_key e) = Some k -> ev_mod_revision e <= gate w0 k) ->
     get (wreg w') k = get (wreg w0) k /\ _records (wleases w') !! k = _records (wleases w0) !! k).
Proof.
  intros Hs Hu Hc w0 l w'. destruct (run_delivers normalize build prefix r0 rs snap w Hs Hc) as (rev & Hrun & _).
  assert (w' = apply_events normalize build prefix l w0) as Hw' by (unfold w'; by rewrite Hrun).
  clearbody w'. subst w'. split.
  - intros e Hnew Hg.
    assert (leases_upto (ev_mod_revision e) k w0) as Hl.
    { intros o Ho. pose proof (leases_upto_snapshot normalize build prefix build_id snap w k Hu o Ho).
      fold w0 in H. lia. }
    destruct (view_newest normalize build prefix build_id l w0 k e Hnew Hg Hl) as (w1 & Hv & Hg1 & Hl1).
    destruct Hnew as (_ & Hk & _). split; [|split].
    + destruct (view_inv _ _ _ _ _ Hv) as (_ & _ & ->). rewrite gate_step, decide_True by done. lia.
    + intros Hd. rewrite (step_delete normalize build prefix w1 e k Hk Hg1 Hl1 Hd) in Hv.
      destruct (view_inv _ _ _ _ _ Hv) as (-> & -> & _). split; [|done].
      intros n. destruct (get (wreg w1) k); [|done]. by intros [= <-].
    + intros v n Hd Hval Hn. rewrite (step_put normalize build prefix build_id w1 e k v n Hk Hg1 Hl1 Hd Hval Hn) in Hv.
      destruct (view_inv _ _ _ _ _ Hv) as (-> & -> & _). split; [|done]. apply merge_discovered_status.
  - intros Hst. pose proof (view_apply_stale normalize build prefix build_id l w0 k Hst) as Hv.
    by destruct (view_inv _ _ _ _ _ Hv) as (-> & -> & _).
Qed.

(** *** Concrete runs *)

Definition ex_build (id : string) (data : list (string * json)) : option Node :=
  match dget "endpoint" data with Some (JStr e) => Some (Node_default id e) | _ => None end.

Lemma ex_build_id id data n : ex_build id data = Some n -> node_id n = id.
Proof. unfold ex_build. repeat case_match; try done. by intros [= <-]. Qed.

Definition ex_value (port : string) : blob := JsonText (JObj [("endpoint", JStr port)]).
Definition ex_put (k : string) (rev : Z) : EtcdEvent :=
  {| ev_key := Some k; ev_value := Some (ex_value "http://a:2"); ev_mod_revision := rev; is_delete := false; ev_lease_id := 9 |}.
Definition ex_del (k : string) (rev : Z) : EtcdEvent :=
  {| ev_key := Some k; ev_value := None; ev_mod_revision := rev; is_delete := true; ev_lease_id := 0 |}.
Definition ex_snap : EtcdSnapshot :=
  {| records := [{| key := Some "/nodes/a"; value := ex_value "http://a:1"; mod_revision := 5; lease_id := 3 |}];
     snap_revision := 7 |}.
Definition ex_w : WState unit := mkW (mkRegistry [("b", Node_default "b" "http://b:1")] []) (mkLeases ∅ false) ∅.
Definition ex_round0 : Round :=
  {| snapshot := Some ex_snap; ending := Disconnected;
     batches := [{| events := [ex_del "/nodes/a" 8; ex_put "/nodes/a" 9]; batch_revision := 9 |}] |}.
Definition ex_round1 : Round :=
  {| snapshot := None; ending := ReadTimeout;
     batches := [{| events := [ex_del "/nodes/a" 8; ex_del "/nodes/b" 6]; batch_revision := 9 |}] |}.

Lemma ex_snap_unique : snapshot_unique "/nodes/" ex_snap.
Proof. intros r r' id ->%list_elem_of_singleton ->%list_elem_of_singleton. done. Qed.

Lemma replay_is_noop_witness :
  let l := [ex_del "/nodes/a" 8; ex_put "/nodes/a" 9] in
  apply_events Some ex_build "/nodes/" [ex_del "/nodes/a" 8] (apply_events Some ex_build "/nodes/" l ex_w) =
  apply_events Some ex_build "/nodes/" l ex_w.
Proof. apply (replay_is_noop Some ex_build "/nodes/" ex_build_id). set_solver. Defined.

Lemma snapshot_authoritative_witness :
  gate (_reconcile_snapshot Some ex_build "/nodes/" ex_snap ex_w) "b" = 7.
Proof.
  destruct (snapshot_authoritative Some ex_build "/nodes/" ex_build_id ex_snap ex_w ex_snap_unique) as (_ & H & _).
  destruct (H "b") as (_ & _ & Hg).
  - intros r ->%list_elem_of_singleton. vm_compute. done.
  - apply Hg. vm_compute. eauto.
Defined.

Lemma watch_converges_witness :
  _records (wleases (fst (run Some ex_build "/nodes/" [ex_round0; ex_round1] ex_w))) !! "a" =
  Some {| obs_value := ex_value "http://a:2"; obs_mod_revision := 9; obs_lease_id := 9 |}.
Proof.
  destruct (watch_converges Some ex_build "/nodes/" ex_build_id ex_round0 [ex_round1] ex_snap ex_w "a") as [H _].
  - reflexivity.
  - apply ex_snap_unique.
  - repeat constructor; discriminate.
  - destruct (H (ex_put "/nodes/a" 9)) as (_ & _ & Hp).
    + split; [by apply (list_elem_of_lookup_2 _ 1)|]. split; [reflexivity|]. cbn.
      intros e' He' _. rewrite !elem_of_cons, elem_of_nil in He'. destruct He' as [->|[->|[->|[->|[]]]]]; cbn; first [by left | right; lia | right; reflexivity].
    + vm_compute. reflexivity.
    + destruct (Hp (ex_value "http://a:2") (Node_default "a" "http://a:2")) as [_ Hr]; [reflexivity..|exact Hr].
Defined.

