(* ===== verification/RelaunchRecovery.v ===== *)
(** * Restart recovery ([inference_proxy/discovery/relaunch_recovery.py],
    [discovery/watcher.py]: [_reconcile_startup_snapshot], [main.py]:
    [_initial_load], [provisioning/state.py])

    When the gateway starts, relaunches of an earlier process are orphaned: the
    node record is replaced by one that only teardown can leave, with
    compare-and-swap, and the stored task is marked failed.

    etcd is the interface of [Etcd]; [others] is what other gateways do between
    two requests.  Pydantic's [ProvisioningState.model_validate] and
    [model_dump] and the JSON of a node are arguments. *)

From S2P Require Import Prelude PyDict Json NodeModel Registry Etcd Watcher.
Local Open Scope Z_scope.

Inductive ProvisioningStep :=
| PENDING | POWERING_ON | PREFLIGHT | UPLOADING_SCRIPTS | SYSTEM_UPDATE | SYSTEM_PREREQUISITES | NVIDIA_DRIVER
| CUDA_TOOLKIT | VLLM_INSTALL | LLAMACPP_INSTALL | GENERATION_ACTIVATE | NFS_MOUNT | FIREWALL | LLMFIT_INSTALL
| STARTING_VLLM | STARTING_LLAMACPP | HEALTH_POLL | REGISTERING | RELAUNCH_VALIDATING | STEP_DRAINING | STOPPING_VLLM
| STOPPING_LLAMACPP | DEREGISTERING | ROLLING_BACK | TEARDOWN_COMPLETE | COMPLETE | STEP_FAILED.

#[export] Instance ProvisioningStep_eq : EqDecision ProvisioningStep.
Proof. solve_decision. Defined.

(** [step.value] *)
Definition step_value (s : ProvisioningStep) : string :=
  match s with
  | PENDING => "pending" | POWERING_ON => "powering_on" | PREFLIGHT => "preflight"
  | UPLOADING_SCRIPTS => "uploading_scripts" | SYSTEM_UPDATE => "system_update"
  | SYSTEM_PREREQUISITES => "system_prerequisites" | NVIDIA_DRIVER => "nvidia_driver" | CUDA_TOOLKIT => "cuda_toolkit"
  | VLLM_INSTALL => "vllm_install" | LLAMACPP_INSTALL => "llamacpp_install" | GENERATION_ACTIVATE => "generation_activate"
  | NFS_MOUNT => "nfs_mount" | FIREWALL => "firewall" | LLMFIT_INSTALL => "llmfit_install"
  | STARTING_VLLM => "starting_vllm" | STARTING_LLAMACPP => "starting_llamacpp" | HEALTH_POLL => "health_poll"
  | REGISTERING => "registering" | RELAUNCH_VALIDATING => "relaunch_validating" | STEP_DRAINING => "draining"
  | STOPPING_VLLM => "stopping_vllm" | STOPPING_LLAMACPP => "stopping_llamacpp" | DEREGISTERING => "deregistering"
  | ROLLING_BACK => "rolling_back" | TEARDOWN_COMPLETE => "teardown_complete" | COMPLETE => "complete"
  | STEP_FAILED => "failed"
  end.

Inductive ProvisioningResumeState := MAINTENANCE_REQUIRED | REBOOT_REQUIRED.

Record ProvisioningState := mkState {
  hostname : string;
  attempt_id : option string;
  p_engine : option InferenceEngine;
  current_step : ProvisioningStep;
  started_at : Z;
  updated_at : Z;
  failed_step : option string;
  p_error : option string;
  resume_state : option ProvisioningResumeState;
  attempt_number : option Z;
  retry_count : Z;
  progress : option (list (string * json));
  failure_class : option string;
  next_action : option string;
}.

Definition _RECONCILE_ATTEMPTS : nat := 3.
Definition _INTERRUPTED_RELAUNCH_ERROR : string := "Gateway restarted during llama.cpp relaunch; teardown required".
Definition _RELAUNCH_TASK_STEPS : list ProvisioningStep :=
  [RELAUNCH_VALIDATING; STEP_DRAINING; STOPPING_LLAMACPP; STARTING_LLAMACPP; HEALTH_POLL; REGISTERING; ROLLING_BACK].

(** [state.model_copy(update=...)] of an interrupted task. *)
Definition interrupted (now : Z) (st : ProvisioningState) : ProvisioningState :=
  mkState (hostname st) (attempt_id st) (p_engine st) STEP_FAILED (started_at st) now (Some (step_value (current_step st)))
    (Some _INTERRUPTED_RELAUNCH_ERROR) (resume_state st) (attempt_number st) (retry_count st) (progress st)
    (failure_class st) (next_action st).

(** [d.update(l)] *)
Definition dupdate {V} (d l : list (string * V)) : list (string * V) := fold_left (fun d kv => dset (fst kv) (snd kv) d) l d.

Section recovery.
Context {S : Type} `{!Etcd S}.
Context (others : S -> S) (now : Z).
Context (normalize : string -> option string) (build : string -> list (string * json) -> option Node) (prefix : string).
Context (node_json : Node -> blob).                               (* the value of [node_to_etcd] *)
Context (state_of : json -> option ProvisioningState) (state_dump : ProvisioningState -> list (string * json)).

(** [node_to_etcd(node, prefix)] *)
Definition node_to_etcd (n : Node) : string * blob := (prefix +:+ node_id n, node_json n).

Definition task_key (host : string) : string := "/provisioning/" +:+ host.

Definition _reconcile_interrupted_relaunch_task (host : string) (s : S) : S :=
  let '(s, reply) := read_key s (task_key host) in
  match reply with
  | Some (Some record) =>
      match loads (kv_value record) with
      | Some document =>
          match state_of document, document with
          | Some st, JObj d =>
              if negb (bool_decide (hostname st = host)) || negb (bool_decide (current_step st ∈ _RELAUNCH_TASK_STEPS)) then s
              else fst (replace_if_revision (task_key host) (dumps (JObj (dupdate d (state_dump (interrupted now st)))))
                          (kv_mod record) 0 (others s))
          | _, _ => s
          end
      | None => s
      end
  | _ => s
  end.

(** [etcd_client.get_record(key)] as a record *)
Definition record_of (k : string) (kv : KV) : EtcdRecord :=
  {| key := Some k; value := kv_value kv; mod_revision := kv_mod kv; lease_id := kv_lease kv |}.

(** The loop of [reconcile_interrupted_relaunch]; the outer [None] is an
    exception: etcd's, or the [TypeError] of a status that is a list or an
    object, which the set of statuses cannot look up. *)
Fixpoint reconcile_loop (attempts : nat) (record : option EtcdRecord) (s : S) : S * option (option EtcdRecord) :=
  match attempts with
  | O => (s, Some None)
  | Datatypes.S attempts =>
      match record with
      | None => (s, Some None)
      | Some r =>
          match loads (value r) with
          | Some (JObj d) =>
              match dget "status" d with
              | Some (JList _) | Some (JObj _) => (s, None)
              | Some (JStr status) =>
                  if negb (bool_decide (status ∈ [status_value RELAUNCHING; status_value RELAUNCH_FAILED])) then (s, Some (Some r))
                  else
                    match node_from_etcd normalize build prefix (key r) (value r) with
                    | None => (s, Some None)
                    | Some n =>
                        if bool_decide (status = status_value RELAUNCH_FAILED)
                        then (_reconcile_interrupted_relaunch_task (node_id n) (others s), Some (Some r))
                        else
                          let failed := node_with_status n RELAUNCH_FAILED (Some None) in
                          let '(k, v) := node_to_etcd failed in
                          let '(s, reply) := replace_if_revision k v (mod_revision r) 0 (others s) in
                          match reply with
                          | None => (s, None)
                          | Some (Some committed_revision) =>
                              (_reconcile_interrupted_relaunch_task (node_id n) (others s),
                               Some (Some {| key := Some k; value := v; mod_revision := committed_revision; lease_id := 0 |}))
                          | Some None =>
                              let '(s, read) := read_key (others s) k in
                              match read with
                              | None => (s, None)
                              | Some kv => reconcile_loop attempts (record_of k <$> kv) s
                              end
                          end
                    end
              | _ => (s, Some (Some r))
              end
          | _ => (s, Some (Some r))
          end
      end
  end.

Definition reconcile_interrupted_relaunch (initial : EtcdRecord) (s : S) : S * option (option EtcdRecord) :=
  reconcile_loop _RECONCILE_ATTEMPTS (Some initial) s.

(** [_reconcile_startup_snapshot]: every record in turn; an exception ends it. *)
Fixpoint reconcile_records (l : list EtcdRecord) (s : S) : S * option (list EtcdRecord) :=
  match l with
  | [] => (s, Some [])
  | r :: l =>
      let '(s, reply) := reconcile_interrupted_relaunch r s in
      match reply with
      | None => (s, None)
      | Some reconciled =>
          let '(s, rest) := reconcile_records l s in
          (s, rs ← rest; Some (option_list reconciled ++ rs))
      end
  end.

Definition _reconcile_startup_snapshot (snap : EtcdSnapshot) (s : S) : S * option EtcdSnapshot :=
  let '(s, rs) := reconcile_records (records snap) s in
  (s, l ← rs; Some {| records := l; snap_revision := snap_revision snap |}).

(** The loop of [_initial_load] over the snapshot; [false] when it raised. *)
Fixpoint load_records {E} (l : list EtcdRecord) (reg : NodeRegistry E) (s : S) : S * NodeRegistry E * bool :=
  match l with
  | [] => (s, reg, true)
  | r :: l =>
      let '(s, reply) := reconcile_interrupted_relaunch r s in
      match reply with
      | None => (s, reg, false)
      | Some None => load_records l reg s
      | Some (Some r) =>
          load_records l (match node_from_etcd normalize build prefix (key r) (value r) with
                          | Some n => add n reg
                          | None => reg
                          end) s
      end
  end.
End recovery.

(** ** Facts *)

(** The status a record is stored with. *)
Definition stored_status (v : blob) : option json :=
  match loads v with Some (JObj d) => dget "status" d | _ => None end.

Definition relaunching (v : blob) : Prop := stored_status v = Some (JStr (status_value RELAUNCHING)).

Lemma dupdate_other {V} (d l : list (string * V)) k : k ∉ dkeys l -> dget k (dupdate d l) = dget k d.
Proof.
  unfold dupdate. revert d. induction l as [|[k' v] l IH]; intros d Hk; [done|]. cbn [fold_left].
  change (dkeys ((k', v) :: l)) with (k' :: dkeys l) in Hk. apply not_elem_of_cons in Hk as [Hne Hk].
  rewrite IH by done. cbn. by rewrite dget_dset_ne.
Qed.

Section facts.
Context {S : Type} `{!Etcd S}.
Context (others : S -> S) (now : Z).
Context (normalize : string -> option string) (build : string -> list (string * json) -> option Node) (prefix : string).
Context (node_json : Node -> blob).
Context (state_of : json -> option ProvisioningState) (state_dump : ProvisioningState -> list (string * json)).
(** [model_dump] writes the status of the node. *)
Hypothesis json_status : forall n, stored_status (node_json n) = Some (JStr (status_value (status n))).

Notation reconcile := (reconcile_loop others now normalize build prefix node_json state_of state_dump).

Lemma loop_not_relaunching attempts r s r' : snd (reconcile attempts r s) = Some (Some r') -> ~ relaunching (value r').
Proof.
  revert r s. induction attempts as [|attempts IH]; intros r s; [done|]. cbn [reconcile_loop].
  destruct r as [r|]; [|done]. assert (stored_status (value r) <> Some (JStr (status_value RELAUNCHING)) ->
    Some (Some r) = Some (Some r') -> ~ relaunching (value r')) as Hsame by (intros Hs [= <-]; exact Hs).
  unfold stored_status in Hsame. destruct (loads (value r)) as [[| | | | |d]|]; try by apply Hsame.
  destruct (dget "status" d) as [[| | |status| |]|]; try done; try by apply Hsame.
  case_bool_decide as Hst; cbn [negb]; [|apply Hsame; intros [= ->]; apply Hst; by left].
  destruct (node_from_etcd _ _ _ _ _) as [n|]; [|done].
  case_bool_decide as Hf; [apply Hsame; subst; by intros [= ?]|].
  unfold node_to_etcd. destruct (replace_if_revision _ _ _ _ _) as [s1 [[rev|]|]]; [| |done].
  - intros [= <-]. unfold relaunching. cbn [value]. rewrite json_status. by intros [= ?].
  - destruct (read_key _ _) as [s2 [kv|]]; [apply IH|done].
Qed.

Lemma records_not_relaunching l s rs :
  snd (reconcile_records others now normalize build prefix node_json state_of state_dump l s) = Some rs ->
  Forall (fun r => ~ relaunching (value r)) rs /\ (length rs <= length l)%nat.
Proof.
  revert s rs. induction l as [|r l IH]; intros s rs; cbn [reconcile_records]; [intros [= <-]; by constructor|].
  destruct (reconcile_interrupted_relaunch _ _ _ _ _ _ _ _ r s) as [s1 [o|]] eqn:Hr; [|done].
  specialize (IH s1). destruct (reconcile_records _ _ _ _ _ _ _ _ l s1) as [s2 [rest|]]; [|done]. intros [= <-].
  destruct (IH rest eq_refl) as [IH1 IH2]. split.
  - apply Forall_app. split; [|done]. destruct o as [r'|]; [|constructor]. constructor; [|constructor].
    eapply loop_not_relaunching. unfold reconcile_interrupted_relaunch in Hr. by rewrite Hr.
  - rewrite length_app. destruct o; cbn; lia.
Qed.

(** What recovery itself writes: nobody else does meanwhile. *)
Context `{!EtcdLaws S}.
Hypothesis quiet : forall s k, lookup_kv (others s) k = lookup_kv s k.
Hypothesis build_id : forall id d n, build id d = Some n -> node_id n = id.

(** The task is untouched, or was this host's, in a relaunch step, and is now
    marked failed with its unknown fields kept. *)
Definition task_write (id : string) (s s' : S) : Prop :=
  lookup_kv s' (task_key id) = lookup_kv s (task_key id) \/
  exists kv d st rev, lookup_kv s (task_key id) = Some kv /\ loads (kv_value kv) = Some (JObj d) /\
    state_of (JObj d) = Some st /\ hostname st = id /\ current_step st ∈ _RELAUNCH_TASK_STEPS /\
    lookup_kv s' (task_key id) = Some (mkKV (dumps (JObj (dupdate d (state_dump (interrupted now st))))) rev 0).

Lemma task_effect id s :
  let s' := _reconcile_interrupted_relaunch_task others now state_of state_dump id s in
  (forall k, k <> task_key id -> lookup_kv s' k = lookup_kv s k) /\ task_write id s s'.
Proof.
  unfold _reconcile_interrupted_relaunch_task, task_write. destruct (read_law s (task_key id)) as (Hsame & _ & Hval).
  destruct (read_key s (task_key id)) as [s1 reply]. cbn [fst snd] in *.
  assert (forall k, lookup_kv (others s1) k = lookup_kv s k) as Hq by (intros k; by rewrite quiet, Hsame).
  assert (forall P, (forall k, k <> task_key id -> lookup_kv s1 k = lookup_kv s k) /\
    (lookup_kv s1 (task_key id) = lookup_kv s (task_key id) \/ P)) as Hid by (split; auto).
  destruct reply as [[kv|]|]; try apply Hid. destruct Hval as [[=]|[= Hkv]].
  destruct (loads (kv_value kv)) as [doc|] eqn:Hl; [|apply Hid]. destruct (state_of doc) as [st|] eqn:Hst; [|apply Hid].
  destruct doc as [| | | | |d]; try apply Hid.
  destruct (negb _ || negb _) eqn:Hg; [apply Hid|]. apply orb_false_iff in Hg as [Hh Hc].
  rewrite negb_false_iff, bool_decide_eq_true in Hh, Hc.
  destruct (replace_effect (task_key id) (dumps (JObj (dupdate d (state_dump (interrupted now st))))) (kv_mod kv) 0 (others s1))
    as [Ho Hk].
  split; [intros k Hk'; by rewrite Ho, Hq|]. destruct Hk as [Hk|[_ Hk]]; [left; by rewrite Hk, Hq|].
  right. eexists kv, d, st, _. by split_and!.
Qed.

(** The node record is untouched, or a RELAUNCHING one is now a persistent
    teardown-only record. *)
Definition node_write (k : string) (s s' : S) (seen : Prop) : Prop :=
  lookup_kv s' k = lookup_kv s k \/
  (seen /\ exists n rev, lookup_kv s' k = Some (mkKV (node_json (node_with_status n RELAUNCH_FAILED (Some None))) rev 0)).

Lemma recovered_id k v n : node_from_etcd normalize build prefix (Some k) v = Some n -> node_id n = removeprefix prefix k.
Proof.
  unfold node_from_etcd. destruct (loads v) as [[| | | | |d]|]; try done. destruct (dget "endpoint" d) as [[| | |e| |]|]; try done.
  destruct (normalize e); [|done]. destruct (dmem "node_id" d); [done|]. apply build_id.
Qed.

Hypothesis prefix_apart : forall id, prefix +:+ id <> task_key id.

(** The record that a write replaced. *)
Definition seen_relaunching (k : string) (r : EtcdRecord) (s : S) : Prop :=
  mod_of s k = mod_revision r /\ relaunching (value r) \/
  exists kv, lookup_kv s k = Some kv /\ relaunching (kv_value kv).

Definition recovery_effect (id : string) (r : EtcdRecord) (s s' : S) : Prop :=
  (forall k, k <> prefix +:+ id -> k <> task_key id -> lookup_kv s' k = lookup_kv s k) /\
  task_write id s s' /\ node_write (prefix +:+ id) s s' (seen_relaunching (prefix +:+ id) r s).

Lemma effect_same id r s s' : (forall k, lookup_kv s' k = lookup_kv s k) -> recovery_effect id r s s'.
Proof. intros H. repeat split; [by intros|left; by rewrite H..]. Qed.

(** A guarded write of the node record and then the task. *)
Lemma effect_write id r s s1 s2 n : relaunching (value r) ->
  s1 = fst (replace_if_revision (prefix +:+ id) (node_json (node_with_status n RELAUNCH_FAILED (Some None))) (mod_revision r) 0 (others s)) ->
  (s2 = s1 \/ s2 = _reconcile_interrupted_relaunch_task others now state_of state_dump id (others s1)) ->
  recovery_effect id r s s2.
Proof.
  intros Hrel Hs1 Hs2. pose proof (replace_effect (prefix +:+ id) (node_json (node_with_status n RELAUNCH_FAILED (Some None)))
    (mod_revision r) 0 (others s)) as He. cbn zeta in He. rewrite <- Hs1 in He. destruct He as [Ho Hk].
  assert (mod_of (others s) (prefix +:+ id) = mod_of s (prefix +:+ id)) as Hm by (unfold mod_of; by rewrite quiet).
  assert (recovery_effect id r s s1) as H1.
  { split_and!; [intros k Hk1 _; by rewrite Ho, quiet|left; by rewrite Ho, quiet by (intros Heq; by apply (prefix_apart id))|].
    destruct Hk as [Hk|[Hmod Hk]]; [left; by rewrite Hk, quiet|]. right. split; [left; by rewrite <- Hm|eauto]. }
  destruct Hs2 as [->| ->]; [done|]. destruct (task_effect id (others s1)) as [Ht1 Ht2]. destruct H1 as (E1 & E2 & E3).
  split_and!.
  - intros k Hk1 Hk2. rewrite Ht1 by done. rewrite quiet. by apply E1.
  - unfold task_write in *. rewrite !quiet in Ht2. rewrite Ho in Ht2 by (intros Heq; by apply (prefix_apart id)). by rewrite quiet in Ht2.
  - unfold node_write in *. by rewrite Ht1, quiet by apply prefix_apart.
Qed.

Lemma loop_effect attempts r k0 s : key r = Some k0 ->
  recovery_effect (removeprefix prefix k0) r s (fst (reconcile attempts (Some r) s)).
Proof.
  revert r k0 s. induction attempts as [|attempts IH]; intros r k0 s Hk0; [by apply effect_same|]. cbn [reconcile_loop].
  destruct (loads (value r)) as [[| | | | |d]|] eqn:Hl; try by apply effect_same.
  destruct (dget "status" d) as [[| | |st| |]|] eqn:Hst; try by apply effect_same.
  case_bool_decide as Hin; cbn [negb]; [|by apply effect_same]. rewrite Hk0.
  destruct (node_from_etcd _ _ _ _ _) as [n|] eqn:Hn; [|by apply effect_same]. apply recovered_id in Hn as Hid.
  case_bool_decide as Hf.
  { cbn [fst]. rewrite Hid. destruct (task_effect (removeprefix prefix k0) (others s)) as [T1 T2]. split_and!.
    - intros k _ Hk. by rewrite T1, quiet.
    - unfold task_write in *. by rewrite !quiet in T2.
    - left. by rewrite T1, quiet by apply prefix_apart. }
  assert (relaunching (value r)) as Hrel.
  { unfold relaunching, stored_status. rewrite Hl, Hst. rewrite !elem_of_cons, elem_of_nil in Hin. destruct Hin as [->|[->|[]]]; done. }
  unfold node_to_etcd. change (node_id (node_with_status n RELAUNCH_FAILED (Some None))) with (node_id n). rewrite Hid.
  destruct (replace_if_revision (prefix +:+ removeprefix prefix k0) _ _ _ _) as [s1 [[rev|]|]] eqn:Hr.
  - apply (effect_write _ _ _ s1 _ n); [done|by rewrite Hr|]. right. done.
  - pose proof (replace_refused (prefix +:+ removeprefix prefix k0) (node_json (node_with_status n RELAUNCH_FAILED (Some None)))
      (mod_revision r) 0 (others s)) as Href. rewrite Hr in Href. specialize (Href eq_refl). cbn [fst] in Href.
    destruct (read_law (others s1) (prefix +:+ removeprefix prefix k0)) as (Hsame & _ & Hval).
    destruct (read_key (others s1) _) as [s2 [kv|]]; cbn [fst snd] in *.
    + assert (forall k, lookup_kv s2 k = lookup_kv s k) as Hs2 by (intros k; by rewrite Hsame, quiet, Href, quiet).
      destruct Hval as [[=]|[= Hval]]. rewrite quiet, Href, quiet in Hval.
      destruct kv as [kv|]; [|destruct attempts; by apply effect_same].
      pose proof (IH (record_of (prefix +:+ removeprefix prefix k0) kv) _ s2 eq_refl) as (E1 & E2 & E3).
      rewrite removeprefix_app in *. split_and!.
      * intros k Hk1 Hk2. by rewrite E1, Hs2.
      * unfold task_write in *. by rewrite Hs2 in E2.
      * unfold node_write in *. rewrite Hs2 in E3. destruct E3 as [E3|[Hseen E3]]; [by left|right]. split; [|done]. right.
        destruct Hseen as [[_ Hseen]|(kv' & Hkv' & Hrel')]; [by exists kv|]. exists kv'. by rewrite <- Hs2.
    + apply effect_same. intros k. by rewrite Hsame, quiet, Href, quiet.
  - apply (effect_write _ _ _ s1 _ n); [done|by rewrite Hr|by left].
Qed.
End facts.

(** ** Theorems *)

(** C38: recovery fails closed: whatever other gateways do and however often the
    swaps are lost, no record that the start-up pass lets through is still
    RELAUNCHING, so no orphaned relaunch is routed or resumed; the pass never
    makes up records. *)
Theorem recovery_fail_closed {S} `{!Etcd S} (others : S -> S) now normalize build prefix node_json state_of state_dump
  (json_status : forall n, stored_status (node_json n) = Some (JStr (status_value (status n)))) snap s snap' :
  snd (_reconcile_startup_snapshot others now normalize build prefix node_json state_of state_dump snap s) = Some snap' ->
  Forall (fun r => ~ relaunching (value r)) (records snap') /\ (length (records snap') <= length (records snap))%nat /\
  snap_revision snap' = snap_revision snap.
Proof.
  unfold _reconcile_startup_snapshot. destruct (reconcile_records _ _ _ _ _ _ _ _ (records snap) s) as [s1 [l|]] eqn:Hr; [|done].
  intros [= <-]. cbn. destruct (records_not_relaunching others now normalize build prefix node_json state_of state_dump json_status
    (records snap) s l) as [H1 H2]; [by rewrite Hr|]. by split_and!.
Qed.

(** Recovery writes only behind the revision it read: with nobody else
    writing, a record changes only if it is the node's own and RELAUNCHING, at
    the revision read, and becomes a persistent RELAUNCH_FAILED record without
    a runtime; the host's task changes only out of a relaunch step; every
    other key is left alone, also when replies are lost. *)
Theorem recovery_writes_guarded {S} `{!Etcd S, !EtcdLaws S} (others : S -> S) now normalize build prefix node_json state_of state_dump
  (quiet : forall s k, lookup_kv (others s) k = lookup_kv s k)
  (build_id : forall id d n, build id d = Some n -> node_id n = id)
  (prefix_apart : forall id, prefix +:+ id <> task_key id) r k0 s :
  key r = Some k0 ->
  recovery_effect now prefix node_json state_of state_dump (removeprefix prefix k0) r s
    (fst (reconcile_interrupted_relaunch others now normalize build prefix node_json state_of state_dump r s)).
Proof. intros Hk. by apply loop_effect. Qed.

(** A status that the set of statuses cannot look up. *)
Definition poisoned (r : EtcdRecord) : Prop :=
  (exists x, stored_status (value r) = Some (JList x)) \/ (exists x, stored_status (value r) = Some (JObj x)).

Lemma poisoned_raises {S} `{!Etcd S} (others : S -> S) now normalize build prefix node_json state_of state_dump r s :
  poisoned r -> snd (reconcile_interrupted_relaunch others now normalize build prefix node_json state_of state_dump r s) = None.
Proof.
  unfold reconcile_interrupted_relaunch, _RECONCILE_ATTEMPTS, poisoned, stored_status. cbn [reconcile_loop].
  destruct (loads (value r)) as [[| | | | |d]|]; try (intros [[x Hx]|[x Hx]]; discriminate).
  intros [[x ->]|[x ->]]; done.
Qed.

Lemma poisoned_records {S} `{!Etcd S} (others : S -> S) now normalize build prefix node_json state_of state_dump l s :
  Exists poisoned l -> snd (reconcile_records others now normalize build prefix node_json state_of state_dump l s) = None.
Proof.
  intros H. revert s. induction H as [r l Hr|r l _ IH]; intros s; cbn [reconcile_records].
  - pose proof (poisoned_raises others now normalize build prefix node_json state_of state_dump r s Hr) as Hn.
    destruct (reconcile_interrupted_relaunch _ _ _ _ _ _ _ _ r s) as [s1 o]. cbn in Hn. by subst o.
  - destruct (reconcile_interrupted_relaunch _ _ _ _ _ _ _ _ r s) as [s1 [o|]]; [|done]. specialize (IH s1).
    destruct (reconcile_records _ _ _ _ _ _ _ _ l s1) as [s2 rest]. cbn in IH |- *. by subst rest.
Qed.

(** One record whose status is a JSON list or object stops discovery: the
    start-up pass raises on every snapshot that holds it, so the watcher, which
    retries with a fresh snapshot each time, never fills the registry however
    often it tries. *)
Theorem poisoned_record_blocks_discovery {S E} `{!Etcd S} (others : S -> S) now normalize build prefix node_json state_of state_dump
  (tries : list (EtcdSnapshot * S * list EtcdWatchBatch)) (w : WState E) :
  Forall (fun t => Exists poisoned (records t.1.1)) tries ->
  run normalize build prefix
    (List.map (fun t => {| snapshot := snd (_reconcile_startup_snapshot others now normalize build prefix node_json state_of state_dump t.1.1 t.1.2);
                           batches := t.2; ending := Disconnected |}) tries) w = (w, None).
Proof.
  unfold run. induction 1 as [|[[snap s] bs] tries Hp _ IH]; [done|]. cbn [List.map fold_left fst snd]. cbn in Hp.
  unfold _reconcile_startup_snapshot at 2.
  pose proof (poisoned_records others now normalize build prefix node_json state_of state_dump (records snap) s Hp) as Hn.
  destruct (reconcile_records _ _ _ _ _ _ _ _ (records snap) s) as [s1 rs]. cbn in Hn. subst rs. exact IH.
Qed.

(** ** A store with an interrupted relaunch *)

Definition ex_json (n : Node) : blob :=
  dumps (JObj [("endpoint", JStr (endpoint n)); ("status", JStr (status_value (status n)))]).
Definition ex_relaunching : blob := dumps (JObj [("endpoint", JStr "http://a:1"); ("status", JStr "relaunching")]).
Definition ex_built (id : string) (d : list (string * json)) : option Node :=
  Some (set_status RELAUNCHING (Node_default id "http://a:1")).
Definition ex_record : EtcdRecord := {| key := Some "/nodes/a"; value := ex_relaunching; mod_revision := 5; lease_id := 9 |}.
Definition ex_snapshot : EtcdSnapshot := {| records := [ex_record]; snap_revision := 5 |}.
Definition ex_etcd : MapStore := mkStore {["/nodes/a" := mkKV ex_relaunching 5 9]} 5 [].
Definition ex_pass (r : EtcdRecord) : MapStore * option (option EtcdRecord) :=
  reconcile_interrupted_relaunch (fun s => s) 0 Some ex_built "/nodes/" ex_json (fun _ => None) (fun _ => []) r ex_etcd.

Lemma recovery_fail_closed_witness :
  exists snap', snd (_reconcile_startup_snapshot (fun s => s) 0 Some ex_built "/nodes/" ex_json (fun _ => None) (fun _ => []) ex_snapshot ex_etcd)
      = Some snap' /\ List.map mod_revision (records snap') = [6] /\ Forall (fun r => ~ relaunching (value r)) (records snap').
Proof.
  eexists. split; [vm_compute; reflexivity|]. split; [reflexivity|].
  eapply (recovery_fail_closed (fun s => s) 0 Some ex_built "/nodes/" ex_json (fun _ => None) (fun _ => []) (fun n => eq_refl) ex_snapshot ex_etcd).
  vm_compute. reflexivity.
Defined.

Lemma ex_built_id id d n : ex_built id d = Some n -> node_id n = id.
Proof. by intros [= <-]. Qed.

Lemma nodes_apart id : "/nodes/" +:+ id <> task_key id.
Proof. discriminate. Qed.

Lemma recovery_writes_guarded_witness :
  lookup_kv (fst (ex_pass ex_record)) "/nodes/a" =
    Some (mkKV (dumps (JObj [("endpoint", JStr "http://a:1"); ("status", JStr "relaunch_failed")])) 6 0) /\
  forall k, k <> "/nodes/a" -> k <> "/provisioning/a" -> lookup_kv (fst (ex_pass ex_record)) k = lookup_kv ex_etcd k.
Proof.
  split; [vm_compute; reflexivity|].
  apply (recovery_writes_guarded (fun s => s) 0 Some ex_built "/nodes/" ex_json (fun _ => None) (fun _ => []) (fun s k => eq_refl)
    ex_built_id nodes_apart ex_record "/nodes/a" ex_etcd eq_refl).
Defined.

Definition ex_poison : EtcdRecord :=
  {| key := Some "/nodes/p"; value := dumps (JObj [("status", JList [])]); mod_revision := 3; lease_id := 0 |}.

Lemma poisoned_record_blocks_discovery_witness :
  let w := mkW empty_registry Leases.empty ∅ : WState unit in
  run Some ex_built "/nodes/"
    (List.map (fun t => {| snapshot := snd (_reconcile_startup_snapshot (fun s => s) 0 Some ex_built "/nodes/" ex_json (fun _ => None) (fun _ => []) t.1.1 t.1.2);
                           batches := t.2; ending := Disconnected |})
      [({| records := [ex_record; ex_poison]; snap_revision := 5 |}, ex_etcd, [])]) w = (w, None).
Proof.
  intros w. apply (poisoned_record_blocks_discovery (fun s => s) 0 Some ex_built "/nodes/" ex_json (fun _ => None) (fun _ => [])
    [({| records := [ex_record; ex_poison]; snap_revision := 5 |}, ex_etcd, [])] w).
  constructor; [|constructor]. apply Exists_cons. right. apply Exists_cons. left. left. exists []. reflexivity.
Defined.
