(* ===== verification/ProvisionerOps.v ===== *)
(** * Operations of the provisioner on shared state
    ([inference_proxy/provisioning/provisioner.py]: [_read_node_record],
    [_replace_node_revision], [_prepare_relaunch_lease], [_update_state],
    [_drain_wait], [stored_node])

    A coroutine of the provisioner is a computation on a [World]: etcd, the
    node registry, what happened on the host, and its own local variables.  At
    every await other tasks run ([others]) and the coroutine may be cancelled
    ([cancelled]: [Some true] when the request had already been sent).  What
    commands on the host and the history database answer is given by time. *)

From Stdlib Require Import QArith.
From S2P Require Import Prelude PyDict Json NodeModel Registry Etcd Watcher RelaunchRecovery.
Local Open Scope Z_scope.

(** ** Equality of nodes, as the revision checks compare them *)

#[export] Instance Q_eq : EqDecision Q.
Proof. solve_decision. Defined.
#[export] Instance datetime_eq : EqDecision datetime.
Proof. solve_decision. Defined.
#[export] Instance LlamaCppSampling_eq : EqDecision LlamaCppSampling.
Proof. solve_decision. Defined.
#[export] Instance LlamaCppProfileRuntime_eq : EqDecision LlamaCppProfileRuntime.
Proof. solve_decision. Defined.
#[export] Instance LlamaCppRuntimeRequest_eq : EqDecision LlamaCppRuntimeRequest.
Proof. solve_decision. Defined.
#[export] Instance LlamaCppSpeculativeEffective_eq : EqDecision LlamaCppSpeculativeEffective.
Proof. solve_decision. Defined.
#[export] Instance LlamaCppRuntimeEffective_eq : EqDecision LlamaCppRuntimeEffective.
Proof. solve_decision. Defined.
#[export] Instance GPUState_eq : EqDecision GPUState.
Proof. solve_decision. Defined.
#[export] Instance LlamaCppRuntimeState_eq : EqDecision LlamaCppRuntimeState.
Proof. solve_decision. Defined.
#[export] Instance VllmParams_eq : EqDecision VllmParams.
Proof. solve_decision. Defined.
#[export] Instance VllmRuntimeRequest_eq : EqDecision VllmRuntimeRequest.
Proof. solve_decision. Defined.
#[export] Instance VllmModelSelection_eq : EqDecision VllmModelSelection.
Proof. solve_decision. Defined.
#[export] Instance VllmRuntimeEffective_eq : EqDecision VllmRuntimeEffective.
Proof. solve_decision. Defined.
#[export] Instance VllmMemoryEstimate_eq : EqDecision VllmMemoryEstimate.
Proof. solve_decision. Defined.
#[export] Instance VllmAdjustment_eq : EqDecision VllmAdjustment.
Proof. solve_decision. Defined.
#[export] Instance VllmServingVerification_eq : EqDecision VllmServingVerification.
Proof. solve_decision. Defined.
#[export] Instance VllmRuntimeState_eq : EqDecision VllmRuntimeState.
Proof. solve_decision. Defined.
#[export] Instance NodeCapabilities_eq : EqDecision NodeCapabilities.
Proof. solve_decision. Defined.
#[export] Instance NodeGPU_eq : EqDecision NodeGPU.
Proof. solve_decision. Defined.
#[export] Instance NodePlacement_eq : EqDecision NodePlacement.
Proof. solve_decision. Defined.
#[export] Instance Node_eq : EqDecision Node.
Proof. solve_decision. Defined.

(** ** Exceptions *)

Inductive ErrorKind :=
| RelaunchPreconditionError | RelaunchValidationError | RelaunchConflictError | ProvisioningError | SelfSetupError
| EndpointValidationError | EtcdError | StoreError | RemoteError | KeyError | ValueError.

(** [Exception]s, with their text, and [CancelledError], which only handlers
    for [BaseException] catch. *)
Inductive Exn := Raised (k : ErrorKind) (text : string) | Cancelled.

Definition exn_text (e : Exn) : string := match e with Raised _ t => t | Cancelled => "" end.
Definition is_exception (e : Exn) : bool := match e with Raised _ _ => true | Cancelled => false end.

(** ** The world of an operation *)

(** What happens to the engine on the host; [Serving] is a verified server,
    [Committed] the moment the new runtime was written to etcd. *)
Inductive HostEvent :=
| StopEngine
| LaunchEngine (q : LlamaCppRuntimeRequest)
| Serving (model : string) (runtime : LlamaCppRuntimeState)
| Committed.

Record World (S E L : Type) := mkWorld {
  clock : nat;
  db : S;
  reg : NodeRegistry E;
  events : list HostEvent;        (* latest first *)
  loc : L;
}.
Arguments mkWorld {S E L} _ _ _ _ _.
Arguments clock {S E L} _.
Arguments db {S E L} _.
Arguments reg {S E L} _.
Arguments events {S E L} _.
Arguments loc {S E L} _.

Inductive DrainOutcome := DRAIN_COMPLETE | DRAIN_TIMED_OUT | DRAIN_UNAVAILABLE.

Section ops.
Context {S E L : Type} `{!Etcd S}.
Notation World := (World S E L).

Definition M (A : Type) : Type := World -> World * result Exn A.

Definition ret {A} (a : A) : M A := fun w => (w, Ok a).
Definition throw {A} (e : Exn) : M A := fun w => (w, Err e).
Definition mbind {A B} (m : M A) (k : A -> M B) : M B :=
  fun w => match m w with (w, Ok a) => k a w | (w, Err e) => (w, Err e) end.
(** [try: m except BaseException as e: h(e)] *)
Definition catch {A} (m : M A) (h : Exn -> M A) : M A :=
  fun w => match m w with (w, Ok a) => (w, Ok a) | (w, Err e) => h e w end.
(** [except Exception] *)
Definition catch_exception {A} (m : M A) (h : Exn -> M A) : M A :=
  catch m (fun e => if is_exception e then h e else throw e).
(** [with suppress(Exception)] *)
Definition suppress (m : M unit) : M unit := catch_exception m (fun _ => ret tt).
(** [try: m finally: f] *)
Definition finally {A} (m : M A) (f : M unit) : M A :=
  fun w => let '(w, r) := m w in
           match f w with (w, Ok _) => (w, r) | (w, Err e) => (w, Err e) end.

Definition get_loc : M L := fun w => (w, Ok (loc w)).
Definition set_loc (l : L) : M unit := fun w => (mkWorld (clock w) (db w) (reg w) (events w) l, Ok tt).
Definition get_reg : M (NodeRegistry E) := fun w => (w, Ok (reg w)).
Definition modify_reg (f : NodeRegistry E -> NodeRegistry E) : M unit :=
  fun w => (mkWorld (clock w) (db w) (f (reg w)) (events w) (loc w), Ok tt).
Definition happened (e : HostEvent) : M unit :=
  fun w => (mkWorld (clock w) (db w) (reg w) (e :: events w) (loc w), Ok tt).

Context (others : nat -> S * NodeRegistry E -> S * NodeRegistry E) (cancelled : nat -> option bool).
(** The history database: [Some text] when a statement fails. *)
Context (store_fault : nat -> option string).

(** The clock counts the points at which the coroutine depends on anything
    outside it. *)
Definition advance (w : World) : World := mkWorld (Datatypes.S (clock w)) (db w) (reg w) (events w) (loc w).

(** Suspended at an await: other tasks run. *)
Definition suspend (w : World) : World :=
  let '(s, r) := others (clock w) (db w, reg w) in mkWorld (Datatypes.S (clock w)) s r (events w) (loc w).

(** [await asyncio.to_thread(call)] *)
Definition thread {A} (call : S -> S * option A) : M A := fun w =>
  let w := suspend w in
  let sent := let '(s, reply) := call (db w) in
              (mkWorld (clock w) s (reg w) (events w) (loc w),
               match reply with Some a => Ok a | None => Err (Raised EtcdError "") end) in
  match cancelled (clock w) with
  | None => sent
  | Some true => (fst sent, Err Cancelled)
  | Some false => (w, Err Cancelled)
  end.

(** A command on the host or a probe of it, answered by time. *)
Definition remote {A} (answer : nat -> result Exn A) : M A := fun w => let w := suspend w in (w, answer (clock w)).

(** A statement on the history database: no await. *)
Definition history : M unit := fun w =>
  let w := advance w in
  (w, match store_fault (clock w) with None => Ok tt | Some text => Err (Raised StoreError text) end).

(** [EtcdClient.put] and [EtcdClient.delete] *)
Definition put (k : string) (v : blob) (lease_id : Z) (s : S) : S * option unit :=
  let '(s, reply) := transaction s [] (Put k v lease_id) in (s, (fun _ => tt) <$> reply).
Definition delete (k : string) (s : S) : S * option unit :=
  let '(s, reply) := transaction s [] (DeleteKey k) in (s, (fun _ => tt) <$> reply).
End ops.

Notation "'let!' x ':=' m 'in' k" := (mbind m (fun x => k))
  (at level 10, x pattern, m at level 100, k at level 200) : py_scope.
Notation "m ';!' k" := (mbind m (fun _ => k))
  (at level 100, right associativity) : py_scope.

(** ** Shared operations *)

(** What [_update_state] takes from the attempt's stored manifest. *)
Record Manifest := mkManifest {
  mf_attempt_number : option Z;
  mf_transient_retries : Z;
  mf_progress : option (list (string * json));
  mf_failure_class : option string;
  mf_next_action : option string;
}.

Definition no_manifest : Manifest := mkManifest None 0 None None None.

(** The surroundings of one operation. *)
Record Env (S E : Type) := mkEnv {
  others : nat -> S * NodeRegistry E -> S * NodeRegistry E;
  cancelled : nat -> option bool;
  store_fault : nat -> option string;
  manifest : nat -> option Manifest;      (* [store.get]; [None] is a [KeyError] *)
  now : nat -> Z;                         (* the wall clock *)
  connections : nat -> option Z;          (* the tracker's count; [None] without a tracker *)
  has_store : bool;
  attempt : option string;                (* [log_buffer.attempts.get(hostname)] *)
  task_engine : option InferenceEngine;   (* [_task_engines.get(hostname)] *)
  drain_timeout : Z;
  normalize : string -> option string;
  build : string -> list (string * json) -> option Node;
  prefix : string;
  node_json : Node -> blob;
  state_dump : ProvisioningState -> list (string * json);
}.
Arguments others {S E} _.
Arguments cancelled {S E} _.
Arguments store_fault {S E} _.
Arguments manifest {S E} _.
Arguments now {S E} _.
Arguments connections {S E} _.
Arguments has_store {S E} _.
Arguments attempt {S E} _.
Arguments task_engine {S E} _.
Arguments drain_timeout {S E} _.
Arguments normalize {S E} _.
Arguments build {S E} _.
Arguments prefix {S E} _.
Arguments node_json {S E} _.
Arguments state_dump {S E} _.

Section shared.
Context {S E L : Type} `{!Etcd S} (env : Env S E).
Notation M := (@M S E L).
Notation thread := (thread (L := L) (others env) (cancelled env)).
Notation history := (@history S E L (store_fault env)).

Definition node_key (host : string) : string := prefix env +:+ host.
Definition parse_node (k : string) (v : blob) : option Node := node_from_etcd (normalize env) (build env) (prefix env) (Some k) v.

(** Whether the key exists, and the node when it can be parsed. *)
Definition stored_node (host : string) : M (bool * option Node) :=
  let! record := thread (fun s => read_key s (node_key host)) in
  ret (match record with None => (false, None) | Some kv => (true, parse_node (node_key host) (kv_value kv)) end).

Definition _read_node_record (host : string) : M (KV * Node) :=
  let! record := thread (fun s => read_key s (node_key host)) in
  match record with
  | None => throw (Raised RelaunchConflictError "disappeared from etcd during relaunch")
  | Some kv =>
      match parse_node (node_key host) (kv_value kv) with
      | None => throw (Raised RelaunchConflictError "has an invalid etcd registration")
      | Some n => ret (kv, n)
      end
  end.

(** The loop of [_replace_node_revision]: a lost race is repeated only while the
    node itself is unchanged. *)
Fixpoint replace_attempts (attempts : nat) (record : KV) (expected replacement : Node) (lease_id : Z) : M KV :=
  match attempts with
  | O => throw (Raised RelaunchConflictError "revision changed repeatedly during relaunch")
  | Datatypes.S attempts =>
      let value := node_json env replacement in
      let! revision := thread (replace_if_revision (node_key (node_id replacement)) value (kv_mod record) lease_id) in
      match revision with
      | Some r => ret (mkKV value r lease_id)
      | None =>
          let! (current, node) := _read_node_record (node_id replacement) in
          if decide (node = expected) then replace_attempts attempts current expected replacement lease_id
          else throw (Raised RelaunchConflictError "changed during relaunch")
      end
  end.

Definition _replace_node_revision : KV -> Node -> Node -> Z -> M KV := replace_attempts 3.

(** The lease, and whether this call granted it. *)
Definition _prepare_relaunch_lease (record : KV) : M (Z * bool) :=
  if negb (kv_lease record =? 0) then
    let! remaining := thread (fun s => lease_refresh s (kv_lease record)) in
    if remaining =? -1 then throw (Raised RelaunchConflictError "The managed node lease has expired")
    else ret (kv_lease record, false)
  else let! lease_id := thread (fun s => lease_grant s) in ret (lease_id, true).

(** [store.get(attempt_id)] with [KeyError] suppressed. *)
Definition read_manifest : M Manifest := fun w =>
  let w := advance w in
  (w, match store_fault env (clock w) with
      | Some text => Err (Raised StoreError text)
      | None => Ok (default no_manifest (manifest env (clock w)))
      end).

Definition wall_clock : M Z := fun w => let w := advance w in (w, Ok (now env (clock w))).

(** The history row, then the task key; only the etcd write is best effort. *)
Definition _update_state (host : string) (step : ProvisioningStep) (failed : option string) (error : option string)
  (resume : option ProvisioningResumeState) (started : option Z) (keep_history : bool) (engine : option InferenceEngine)
  (inherit_task_engine : bool) : M unit :=
  let! now := wall_clock in
  let attempt_id := if keep_history then attempt env else None in
  let recorded := has_store env && is_some attempt_id in
  (if recorded then
     (match error with Some text => if str_truthy text then history else ret tt | None => ret tt end) ;! history
   else ret tt) ;!
  let! mf := if recorded then read_manifest else ret no_manifest in
  let state := mkState host attempt_id
                 (match engine with Some _ => engine | None => if inherit_task_engine then task_engine env else None end)
                 step (or_default started now) now failed error resume (mf_attempt_number mf) (mf_transient_retries mf)
                 (mf_progress mf) (mf_failure_class mf) (mf_next_action mf) in
  catch_exception (thread (put (task_key host) (dumps (JObj (state_dump env state))) 0)) (fun _ => ret tt).

(** [_log]: the buffer appends to the attempt in the history database first. *)
Definition _log : M unit := if has_store env then history else ret tt.

Definition loop_time : M Z := fun w => let w := advance w in (w, Ok (now env (clock w))).
Definition active_connections_now : M (option Z) := fun w => let w := advance w in (w, Ok (connections env (clock w))).
Definition sleep : M unit := thread (fun s => (s, Some tt)).

(** The loop of [_drain_wait]; [fuel] bounds the sleeps (see [drain_returns]). *)
Fixpoint drain_loop (fuel : nat) (deadline : Z) : M DrainOutcome :=
  let! count := active_connections_now in
  if bool_decide (count = Some 0) then ret DRAIN_COMPLETE
  else
    let! t := loop_time in
    if deadline <=? t then ret DRAIN_TIMED_OUT
    else match fuel with
         | O => throw (Raised ValueError "fuel")
         | Datatypes.S fuel => sleep ;! drain_loop fuel deadline
         end.

Definition _drain_wait : M DrainOutcome :=
  let! count := active_connections_now in
  match count with
  | None => ret DRAIN_UNAVAILABLE
  | Some _ => let! t := loop_time in drain_loop (Z.to_nat (drain_timeout env)) (t + drain_timeout env)
  end.
End shared.

(** ** Reasoning about operations *)

Section logic.
Context {S E L : Type} `{!Etcd S}.
Notation World := (World S E L).
Notation M := (@M S E L).

(** From [P], [m] returns with [Q] or raises with [R]. *)
Definition triple {A} (P : World -> Prop) (m : M A) (Q : A -> World -> Prop) (R : Exn -> World -> Prop) : Prop :=
  forall w, P w -> match m w with (w', Ok a) => Q a w' | (w', Err e) => R e w' end.

Lemma triple_bind {A B} P (m : M A) (k : A -> M B) Q Q' R :
  triple P m Q R -> (forall a, triple (Q a) (k a) Q' R) -> triple P (mbind m k) Q' R.
Proof. intros Hm Hk w Hw. unfold mbind. specialize (Hm w Hw). destruct (m w) as [w' [a|e]]; [by apply Hk|done]. Qed.

Lemma triple_catch {A} P (m : M A) h Q R R' :
  triple P m Q R -> (forall e, triple (R e) (h e) Q R') -> triple P (catch m h) Q R'.
Proof. intros Hm Hh w Hw. unfold catch. specialize (Hm w Hw). destruct (m w) as [w' [a|e]]; [done|by apply Hh]. Qed.

Lemma triple_catch_exception {A} P (m : M A) h Q R R' :
  triple P m Q R -> (forall e, triple (R e) (h e) Q R') -> (forall w, R Cancelled w -> R' Cancelled w) ->
  triple P (catch_exception m h) Q R'.
Proof. intros Hm Hh Hc. apply (triple_catch _ _ _ _ R); [done|]. intros [k t|]; cbn; [apply Hh|exact Hc]. Qed.

Lemma triple_finally {A} P (m : M A) f Q R Q' R' : triple P m Q R ->
  (forall a, triple (Q a) f (fun _ => Q' a) R') -> (forall e, triple (R e) f (fun _ => R' e) R') -> triple P (finally m f) Q' R'.
Proof.
  intros Hm Hq Hr w Hw. unfold finally. specialize (Hm w Hw).
  destruct (m w) as [w1 [a|e]]; [specialize (Hq a w1 Hm)|specialize (Hr e w1 Hm)]; by destruct (f w1) as [w2 [[]|]].
Qed.

Lemma triple_conseq {A} (P P' : World -> Prop) (m : M A) (Q Q' : A -> World -> Prop) (R R' : Exn -> World -> Prop) :
  triple P m Q R -> (forall w, P' w -> P w) -> (forall a w, Q a w -> Q' a w) -> (forall e w, R e w -> R' e w) -> triple P' m Q' R'.
Proof. intros Hm HP HQ HR w Hw. specialize (Hm w (HP w Hw)). destruct (m w) as [w' [a|e]]; auto. Qed.

Lemma triple_ret {A} (a : A) (Q : A -> World -> Prop) R : triple (Q a) (ret a) Q R.
Proof. by intros w Hw. Qed.

Lemma triple_throw {A} e (Q : A -> World -> Prop) (R : Exn -> World -> Prop) : triple (R e) (throw e) Q R.
Proof. by intros w Hw. Qed.

(** Operations that change the world only within a preorder [R]. *)
Definition within (R : World -> World -> Prop) {A} (m : M A) : Prop := forall w, R w (fst (m w)).

Section within.
Context (R : World -> World -> Prop) `{!PreOrder R}.

Lemma within_ret {A} (a : A) : within R (ret a).
Proof. by intros w. Qed.
Lemma within_throw {A} e : within R (throw (A := A) e).
Proof. by intros w. Qed.
Lemma within_bind {A B} (m : M A) (k : A -> M B) : within R m -> (forall a, within R (k a)) -> within R (mbind m k).
Proof.
  intros Hm Hk w. unfold mbind. specialize (Hm w). destruct (m w) as [w1 [a|e]]; [|done]. etrans; [exact Hm|apply Hk].
Qed.
Lemma within_catch {A} (m : M A) h : within R m -> (forall e, within R (h e)) -> within R (catch m h).
Proof.
  intros Hm Hh w. unfold catch. specialize (Hm w). destruct (m w) as [w1 [a|e]]; [done|]. etrans; [exact Hm|apply Hh].
Qed.
Lemma within_catch_exception {A} (m : M A) h : within R m -> (forall e, within R (h e)) -> within R (catch_exception m h).
Proof. intros Hm Hh. apply within_catch; [done|]. intros e. destruct (is_exception e); [apply Hh|apply within_throw]. Qed.

(** The shared operations, for an [R] that allows time to pass. *)
Context (env : Env S E).
Hypothesis R_advance : forall w, R w (advance w).

Lemma within_advance {A} (f : World -> result Exn A) : within R (fun w => let w := advance w in (w, f w)).
Proof. intros w. apply R_advance. Qed.
Lemma within_history : within R (history (store_fault env)).
Proof. intros w. apply R_advance. Qed.
Lemma within_log : within R (_log env).
Proof. unfold _log. destruct (has_store env); [apply within_history|apply within_ret]. Qed.
Lemma within_clock : within R (wall_clock env).
Proof. intros w. apply R_advance. Qed.

Lemma within_update host step failed error resume started keep engine inherit :
  (forall v, within R (thread (others env) (cancelled env) (put (task_key host) v 0))) ->
  within R (_update_state env host step failed error resume started keep engine inherit).
Proof.
  intros Hput. unfold _update_state. apply within_bind; [apply within_clock|]. intros t. set (recorded := has_store env && _).
  apply within_bind; [|intros _].
  { destruct recorded; [|apply within_ret]. apply within_bind; [|intros; apply within_history].
    destruct error as [text|]; [destruct (str_truthy text); [apply within_history|apply within_ret]|apply within_ret]. }
  apply within_bind; [destruct recorded; [intros w; apply R_advance|apply within_ret]|].
  intros mf. apply within_catch_exception; [apply Hput|]. intros; apply within_ret.
Qed.

Lemma within_drain_wait : within R (sleep env) -> within R (_drain_wait env).
Proof.
  intros Hs. assert (within R (active_connections_now env)) as Hc by (intros w; apply R_advance).
  assert (within R (loop_time env)) as Ht by (intros w; apply R_advance).
  unfold _drain_wait. apply within_bind; [done|]. intros [c|]; [|apply within_ret]. apply within_bind; [done|]. intros t.
  generalize (Z.to_nat (drain_timeout env)), (t + drain_timeout env). clear c t. intros fuel deadline.
  induction fuel as [|fuel IH]; cbn [drain_loop]; (apply within_bind; [done|]); intros c; (destruct (bool_decide _); [apply within_ret|]);
    (apply within_bind; [done|]); intros t; (destruct (deadline <=? t); [apply within_ret|]); [apply within_throw|].
  apply within_bind; [done|]. intros _. exact IH.
Qed.
End within.

(** Operations that only let others run: the host's events and the local
    variables stay, and a node of the registry stays or is demoted. *)
Variable id : string.

Definition entry (w : World) : option Node := get (reg w) id.
Definition healthy_entry (o : option Node) : Prop := exists n, o = Some n /\ status n = HEALTHY.

Definition drift (w w' : World) : Prop :=
  events w' = events w /\ loc w' = loc w /\ (entry w' = entry w \/ ~ healthy_entry (entry w')).

Definition quiet {A} (m : M A) : Prop := within drift m.

#[global] Instance drift_preorder : PreOrder drift.
Proof.
  split; [by intros w; split_and!; try left|]. intros w1 w2 w3 (E1 & L1 & N1) (E2 & L2 & N2).
  split_and!; [congruence|congruence|]. destruct N2 as [->|N2]; [exact N1|by right].
Qed.

Definition stable (P : World -> Prop) : Prop := forall w w', drift w w' -> P w -> P w'.

Lemma triple_quiet {A} P (m : M A) : quiet m -> stable P -> triple P m (fun _ => P) (fun _ => P).
Proof. intros Hm HP w Hw. specialize (Hm w). destruct (m w) as [w' [a|e]]; cbn in Hm; by eapply HP. Qed.

Lemma quiet_ret {A} (a : A) : quiet (ret a).
Proof. by apply within_ret; apply _. Qed.
Lemma quiet_throw {A} e : quiet (throw (A := A) e).
Proof. by apply within_throw; apply _. Qed.
Lemma quiet_bind {A B} (m : M A) (k : A -> M B) : quiet m -> (forall a, quiet (k a)) -> quiet (mbind m k).
Proof. apply within_bind, _. Qed.
Lemma quiet_catch_exception {A} (m : M A) h : quiet m -> (forall e, quiet (h e)) -> quiet (catch_exception m h).
Proof. apply within_catch_exception, _. Qed.
End logic.

#[export] Hint Resolve quiet_ret quiet_throw quiet_bind quiet_catch_exception : qiip.

Section quiet_ops.
Context {S E L : Type} `{!Etcd S} (env : Env S E) (id : string).
Notation quiet := (quiet (S := S) (E := E) (L := L) id).
(** Other tasks may demote or remove the node, not bring it back. *)
Hypothesis others_demote : forall t s r, let r' := snd (others env t (s, r)) in
  get r' id = get r id \/ ~ healthy_entry (get r' id).

Lemma advance_drift (w : World S E L) : drift id w (advance w).
Proof. by split_and!; try left. Qed.

Lemma suspend_drift (w : World S E L) : drift id w (suspend (others env) w).
Proof.
  unfold suspend. pose proof (others_demote (clock w) (db w) (reg w)) as H. destruct (others env _ _) as [s r]. by split_and!.
Qed.

Lemma quiet_thread {A} (call : S -> S * option A) : quiet (thread (others env) (cancelled env) call).
Proof.
  intros w. unfold thread. etrans; [apply suspend_drift|]. set (w' := suspend (others env) w).
  destruct (call (db w')) as [s r]. destruct (cancelled env (clock w')) as [[]|]; cbn; by split_and!; try left.
Qed.

Lemma quiet_remote {A} (answer : nat -> result Exn A) : quiet (remote (others env) answer).
Proof. intros w. apply suspend_drift. Qed.

Lemma quiet_read host : quiet (_read_node_record env host).
Proof.
  unfold _read_node_record. apply quiet_bind; [by apply quiet_thread|]. intros [kv|]; [|apply quiet_throw].
  destruct (parse_node _ _ _); auto with qiip.
Qed.

Lemma quiet_replace attempts record expected replacement lease_id :
  quiet (replace_attempts env attempts record expected replacement lease_id).
Proof.
  revert record. induction attempts as [|attempts IH]; intros record; cbn [replace_attempts]; [apply quiet_throw|].
  apply quiet_bind; [by apply quiet_thread|]. intros [r|]; [apply quiet_ret|].
  apply quiet_bind; [apply quiet_read|]. intros [current node]. destruct (decide _); [apply IH|apply quiet_throw].
Qed.

Lemma quiet_lease record : quiet (_prepare_relaunch_lease env record).
Proof.
  unfold _prepare_relaunch_lease. destruct (negb _); (apply quiet_bind; [by apply quiet_thread|]); intros a; [destruct (a =? -1)|]; auto with qiip.
Qed.

Lemma quiet_log : quiet (_log env).
Proof. apply within_log; [apply _|apply advance_drift]. Qed.
Lemma quiet_clock : quiet (wall_clock env).
Proof. apply within_clock, advance_drift. Qed.
Lemma quiet_update host step failed error resume started keep engine inherit :
  quiet (_update_state env host step failed error resume started keep engine inherit).
Proof. apply within_update; [apply _|apply advance_drift|]. intros v. apply quiet_thread. Qed.
Lemma quiet_drain_wait : quiet (_drain_wait env).
Proof. apply within_drain_wait; [apply _|apply advance_drift|apply quiet_thread]. Qed.
End quiet_ops.

#[export] Hint Resolve quiet_thread quiet_remote quiet_read quiet_replace quiet_lease quiet_log quiet_clock quiet_update quiet_drain_wait : qiip.

(** ** The drain loop returns *)

Section drain.
Context {S E L : Type} `{!Etcd S} (env : Env S E).
(** A sleep of a second takes a second: the loop reads the clock every three
    steps. *)
Hypothesis sleeps : forall t, now env t + 1 <= now env (3 + t).

Lemma drain_loop_returns fuel deadline (w : World S E L) : deadline - now env (Datatypes.S (Datatypes.S (clock w))) <= Z.of_nat fuel ->
  snd (drain_loop env fuel deadline w) <> Err (Raised ValueError "fuel").
Proof.
  revert w. induction fuel as [|fuel IH]; intros w Hd; cbn [drain_loop]; unfold mbind, active_connections_now, loop_time, advance; cbv beta iota zeta;
    (case_bool_decide; [done|]); cbn [clock];
    (destruct (deadline <=? now env (Datatypes.S (Datatypes.S (clock w)))) eqn:Hle; [done|]); bool_to_prop; [lia|].
  unfold sleep, thread, suspend. cbn [clock db reg events loc]. destruct (others env _ _) as [s r]. cbn [clock db].
  destruct (cancelled env _) as [[]|]; cbn [fst snd]; try done. apply IH. cbn [clock].
  pose proof (sleeps (2 + clock w)) as Hs. cbn [Nat.add] in *. lia.
Qed.

(** The fuel of [_drain_wait], one sleep per second of the timeout, is enough. *)
Lemma drain_returns (w : World S E L) : (forall t u, (t <= u)%nat -> now env t <= now env u) ->
  snd (_drain_wait env w) <> Err (Raised ValueError "fuel").
Proof.
  intros Hmono. unfold _drain_wait, mbind, active_connections_now, loop_time, advance. cbv beta iota zeta. cbn [clock db reg events loc].
  destruct (connections env _) as [c|]; [|done]. cbn [clock db reg events loc].
  match goal with |- context [drain_loop env _ _ ?w'] => apply (drain_loop_returns _ _ w') end. cbn [clock].
  pose proof (Hmono (2 + clock w)%nat (4 + clock w)%nat ltac:(lia)). cbn [Nat.add] in *. lia.
Qed.
End drain.
