(* ===== verification/Relaunch.v ===== *)
(** * Relaunching a llama.cpp server
    ([inference_proxy/provisioning/provisioner.py]: [validate_llamacpp_relaunch],
    [_launch_llamacpp_runtime], [_resolve_draft_artifact],
    [_read_gpu_inventory], [_stop_llamacpp], [_relaunch_llamacpp])

    A healthy managed node is taken out of rotation, drained, stopped and
    started with another sizing policy; whatever fails, the previous policy is
    started again, if that start can be sent, or the node is left for teardown.
    Commands on the host are answered by time; the task that keeps the lease alive changes no key and is
    left out. *)

From S2P Require Import Prelude PyDict Json NodeModel Registry Etcd Watcher RelaunchRecovery ProvisionerOps.
Local Open Scope Z_scope.

(** [node_with_status(node, status, model=, llamacpp_runtime=, last_heartbeat=)] *)
Definition with_runtime (n : Node) (s : NodeStatus) (m : string) (r : option LlamaCppRuntimeState) (heartbeat : Z) : Node :=
  mkNode (node_id n) (name n) (endpoint n) s m (engine n) (artifact_id n) r (vllm_runtime n) (Some (Aware heartbeat))
    (capabilities n) (active_connections n) (managed n) (self_setup n) (admin_only n) (owner n) (gpus n) (placement n).

Definition smallest_gpu (gpus : list GPUState) : result Exn Z :=
  match gpus with
  | [] => Err (Raised ValueError "min() arg is an empty sequence")
  | g :: l => Ok (foldr (fun g m => Z.min (gs_total_mib g) m) (gs_total_mib g) l)
  end.

(** [tracking]: the provisioner has a connection tracker. *)
Definition validate_llamacpp_relaunch (tracking : bool) (node : option Node) (q : LlamaCppRuntimeRequest) : result Exn Node :=
  let precondition c text := raise_if c (Raised RelaunchPreconditionError text) in
  match node with
  | None => Err (Raised RelaunchPreconditionError "Node is not registered")
  | Some n =>
      precondition (negb (bool_decide (status n = HEALTHY))) "relaunch requires a healthy node" ;?
      precondition (negb (managed n) || negb (bool_decide (engine n = LLAMA_CPP))) "Relaunch requires a managed llama_cpp node" ;?
      match artifact_id n, llamacpp_runtime n with
      | Some _, Some runtime =>
          precondition (negb tracking) "Relaunch requires active-connection tracking" ;?
          precondition (bool_decide (rq_sizing q = SIZING_PROFILE) || is_some (placement n) ||
                        (bool_decide (rq_sizing (ls_requested runtime) = SIZING_PROFILE) && negb (str_truthy (owner n))))
            "Catalog-profile nodes are relaunched by automatic placement" ;?
          let? smallest := smallest_gpu (ls_gpus runtime) in
          raise_if (smallest <=? rq_fit_target_mib q)
            (Raised RelaunchValidationError "fit_target_mib must be smaller than every GPU's total VRAM") ;?
          raise_if (bool_decide (rq_sizing q = SIZING_CUSTOM) &&
                    match rq_context_per_slot q with Some c => le_train_context (ls_effective runtime) <? c | None => false end)
            (Raised RelaunchValidationError "context_per_slot exceeds the model training context") ;?
          Ok n
      | _, _ => Err (Raised RelaunchPreconditionError "Relaunch requires an artifact identity and verified runtime state")
      end
  end.

(** The variables of the coroutine that its handlers read. *)
Record Locals (A : Type) := mkLocals {
  relaunch_record : option KV;
  previous_node : option Node;
  artifact : option A;
  lease : option Z;
  stop_attempted : bool;
  relaunch_active : bool;
  current : string;
}.
Arguments mkLocals {A} _ _ _ _ _ _ _.
Arguments relaunch_record {A} _.
Arguments previous_node {A} _.
Arguments artifact {A} _.
Arguments lease {A} _.
Arguments stop_attempted {A} _.
Arguments relaunch_active {A} _.
Arguments current {A} _.

(** A launch: the start command could not be built or sent, or it was sent and
    the server was started, polled and verified, or not. *)
Inductive Launch := NotSent (e : Exn) | Sent (r : result Exn (string * LlamaCppRuntimeState)).

(** What the host and the artifact index answer, by time. *)
Record Host (A : Type) := mkHost {
  resolve_artifact : nat -> string -> result Exn (option A);
  upload_scripts : nat -> result Exn unit;
  stop_llamacpp : nat -> result Exn unit;
  nvidia_smi : nat -> result Exn (list NodeGPU);  (* the inventory command and the reading of its lines *)
  launch_llamacpp : nat -> A -> option A -> LlamaCppRuntimeRequest -> list NodeGPU -> Launch;
  diagnostics_cancelled : nat -> bool;       (* [_capture_failure] only lets a cancellation through *)
  finish_cancelled : nat -> bool;            (* and so does [_finish_remote_logs] *)
}.
Arguments resolve_artifact {A} _.
Arguments upload_scripts {A} _.
Arguments stop_llamacpp {A} _.
Arguments nvidia_smi {A} _.
Arguments launch_llamacpp {A} _.
Arguments diagnostics_cancelled {A} _.
Arguments finish_cancelled {A} _.

(** [_read_gpu_inventory] on what the host answered: without a profile a failure
    is only logged ([None]); a profile must find the one GPU it was planned for. *)
Definition gpu_inventory (profile : option LlamaCppProfileRuntime) (output : result Exn (list NodeGPU)) : result Exn (option (list NodeGPU)) :=
  let output := match output with Ok [] => Err (Raised ValueError "nvidia-smi returned no GPUs") | _ => output end in
  match output, profile with
  | Err Cancelled, _ => Err Cancelled
  | Err (Raised _ text), Some _ => Err (Raised ProvisioningError ("could not read the GPU inventory: " +:+ text))
  | Err (Raised _ _), None => Ok None
  | Ok gpus, None => Ok (Some (sort_by (fun g h => ng_index g <=? ng_index h) gpus))
  | Ok [gpu], Some p =>
      raise_if (negb (bool_decide (ng_name gpu = pr_gpu_name p))) (Raised ProvisioningError "the profile was planned for another GPU") ;?
      raise_if (ng_total_mib gpu <? pr_gpu_min_total_mib p) (Raised ProvisioningError "the profile needs a larger GPU") ;?
      Ok (Some [gpu])
  | Ok _, Some _ => Err (Raised ProvisioningError "catalog profiles support exactly one GPU per host")
  end.

Definition draft_id (q : LlamaCppRuntimeRequest) : option string := rq_profile q ≫= pr_draft_artifact_id.

Definition initial_locals {A} : Locals A := mkLocals None None None None false false (step_value RELAUNCH_VALIDATING).

Section relaunch.
Context {S E A : Type} `{!Etcd S} (env : Env S E) (host_env : Host A) (tracking : bool).
Context (host : string) (request : LlamaCppRuntimeRequest).
Notation M := (@M S E (Locals A)).
Notation thread := (thread (L := Locals A) (others env) (cancelled env)).
Notation remote := (@remote S E (Locals A) (others env) _).
Notation _log := (@_log S E (Locals A) env).

Definition update (f : Locals A -> Locals A) : M unit := let! l := get_loc in set_loc (f l).
Definition set_record (r : KV) (active : bool) (l : Locals A) : Locals A :=
  mkLocals (Some r) (previous_node l) (artifact l) (lease l) (stop_attempted l) active (current l).
Definition set_active (active : bool) (l : Locals A) : Locals A :=
  mkLocals (relaunch_record l) (previous_node l) (artifact l) (lease l) (stop_attempted l) active (current l).
Definition set_previous (n : Node) (l : Locals A) : Locals A :=
  mkLocals (relaunch_record l) (Some n) (artifact l) (lease l) (stop_attempted l) (relaunch_active l) (current l).
Definition set_artifact (a : option A) (l : Locals A) : Locals A :=
  mkLocals (relaunch_record l) (previous_node l) a (lease l) (stop_attempted l) (relaunch_active l) (current l).
Definition set_lease (z : Z) (l : Locals A) : Locals A :=
  mkLocals (relaunch_record l) (previous_node l) (artifact l) (Some z) (stop_attempted l) (relaunch_active l) (current l).
Definition set_current (s : ProvisioningStep) (l : Locals A) : Locals A :=
  mkLocals (relaunch_record l) (previous_node l) (artifact l) (lease l) (stop_attempted l) (relaunch_active l) (step_value s).
Definition set_stopped (l : Locals A) : Locals A :=
  mkLocals (relaunch_record l) (previous_node l) (artifact l) (lease l) true (relaunch_active l) (current l).

Definition of_result {X} (r : result Exn X) : M X := fun w => (w, r).

Definition note (started : Z) (step : ProvisioningStep) : M unit :=
  _update_state env host step None None None (Some started) true None true.
Definition note_failed (started : Z) (failed text : string) : M unit :=
  _update_state env host STEP_FAILED (Some failed) (Some text) None (Some started) true None true.

(** The draft of a profile, from the same index; other policies have none. *)
Definition _resolve_draft_artifact (q : LlamaCppRuntimeRequest) : M (option A) :=
  match draft_id q with
  | None => ret None
  | Some id => remote (fun t => resolve_artifact host_env t id)
  end.

Definition _read_gpu_inventory (profile : option LlamaCppProfileRuntime) : M (list NodeGPU) :=
  let! gpus := remote (fun t => gpu_inventory profile (nvidia_smi host_env t)) in
  match gpus with
  | Some l => ret l
  | None => _log ;! ret []
  end.

(** The start command; [LaunchEngine] is its reception by the host. *)
Definition start_engine (a : A) (draft : option A) (q : LlamaCppRuntimeRequest) (gpus : list NodeGPU) : M (string * LlamaCppRuntimeState) :=
  let! answer := remote (fun t => Ok (launch_llamacpp host_env t a draft q gpus)) in
  match answer with
  | NotSent e => throw e
  | Sent r => happened (LaunchEngine q) ;! of_result r
  end.

(** [_launch_llamacpp_runtime]: the draft and the inventory, then start, wait
    for health and verify. *)
Definition _launch_llamacpp_runtime (a : A) (q : LlamaCppRuntimeRequest) : M (string * LlamaCppRuntimeState) :=
  let! draft := _resolve_draft_artifact q in
  let! gpus := _read_gpu_inventory (rq_profile q) in
  let! (m, runtime) := start_engine a draft q gpus in
  happened (Serving m runtime) ;!
  ret (m, runtime).

Definition _stop_llamacpp : M unit := happened StopEngine ;! remote (stop_llamacpp host_env).

(** The node under the registry's lock: DRAINING and then RELAUNCHING. *)
Definition take_out (local relaunching : Node) : M unit :=
  let! r := get_reg in
  if decide (get r host = Some local) then modify_reg (fun r => add relaunching (fst (drain host r)))
  else throw (Raised RelaunchConflictError "The node changed before relaunch could begin").

(** Everything before the engine is stopped: the previous node, its artifact,
    the record that marks it RELAUNCHING and the lease. *)
Definition begin_relaunch (started : Z) : M (Node * A * KV * Z) :=
  let! r := get_reg in
  let local_node := get r host in
  let! local := of_result (validate_llamacpp_relaunch tracking local_node request) in
  let! (record, persisted) := _read_node_record env host in
  let! previous := of_result (validate_llamacpp_relaunch tracking (Some persisted) request) in
  update (set_previous previous) ;!
  (if decide ((engine local, artifact_id local, llamacpp_runtime local) =
              (engine previous, artifact_id previous, llamacpp_runtime previous)) then ret tt
   else throw (Raised RelaunchConflictError "The registry and persisted node identity differ")) ;!
  let! resolved := remote (fun t => resolve_artifact host_env t (default "" (artifact_id previous))) in
  update (set_artifact resolved) ;!
  match resolved with
  | None => throw (Raised RelaunchPreconditionError "The persisted llama.cpp artifact is unavailable")
  | Some a =>
      _log ;!
      remote (upload_scripts host_env) ;!
      let! (lease_id, granted) := _prepare_relaunch_lease env record in
      update (set_lease lease_id) ;!
      let relaunching := node_with_status previous RELAUNCHING None in
      take_out local relaunching ;!
      let! replaced :=
        catch_exception (_replace_node_revision env record previous relaunching lease_id)
          (fun e =>
             modify_reg (add local) ;!
             (if granted then suppress (thread (fun s => lease_revoke s lease_id) ;! ret tt) else ret tt) ;!
             throw e) in
      update (set_record replaced true) ;!
      ret (previous, a, replaced, lease_id)
  end.

(** Draining; an incomplete drain puts the previous node back and raises. *)
Definition drain_relaunch (started : Z) (previous : Node) (replaced : KV) (lease_id : Z) : M unit :=
  let relaunching := node_with_status previous RELAUNCHING None in
  update (set_current STEP_DRAINING) ;!
  note started STEP_DRAINING ;!
  _log ;!
  let! outcome := _drain_wait env in
  match outcome with
  | DRAIN_COMPLETE => _log
  | _ =>
      let! restored := _replace_node_revision env replaced relaunching previous lease_id in
      update (set_record restored false) ;!
      modify_reg (add previous) ;!
      throw (Raised ProvisioningError
        match outcome with
        | DRAIN_TIMED_OUT => "Relaunch aborted because active requests did not drain"
        | _ => "Relaunch aborted because connection tracking is unavailable"
        end)
  end.

(** Stopping the server and starting it with the requested policy. *)
Definition switch_engine (started : Z) (a : A) : M (string * LlamaCppRuntimeState) :=
  update (set_current STOPPING_LLAMACPP) ;!
  note started STOPPING_LLAMACPP ;!
  _log ;!
  update set_stopped ;!
  _stop_llamacpp ;!
  update (set_current STARTING_LLAMACPP) ;!
  note started STARTING_LLAMACPP ;!
  _log ;!
  _launch_llamacpp_runtime a request.

Definition commit_relaunch (started : Z) (previous : Node) (replaced : KV) (lease_id : Z) (m : string) (runtime : LlamaCppRuntimeState)
  : M unit :=
  let relaunching := node_with_status previous RELAUNCHING None in
  let! heartbeat := wall_clock env in
  let healthy := with_runtime previous HEALTHY m (Some runtime) heartbeat in
  update (set_current REGISTERING) ;!
  let! committed := _replace_node_revision env replaced relaunching healthy lease_id in
  happened Committed ;!
  update (set_record committed false) ;!
  modify_reg (add healthy) ;!
  note started COMPLETE ;!
  _log.

Definition relaunch_body (started : Z) : M unit :=
  let! (previous, a, replaced, lease_id) := begin_relaunch started in
  drain_relaunch started previous replaced lease_id ;!
  let! (m, runtime) := switch_engine started a in
  commit_relaunch started previous replaced lease_id m runtime.

Definition rollback_message (s : LlamaCppSizingMode) : string :=
  match s with
  | SIZING_AUTO => "Automatic sizing restored"
  | SIZING_PROFILE => "Previous catalog profile restored"
  | _ => "Previous custom sizing restored"
  end.

(** The rollback failed too: a record that only teardown removes. *)
Definition abandon (started : Z) (error rollback_error : Exn) (record : KV) (previous : Node) (lease_id : Z) : M unit :=
  let relaunching := node_with_status previous RELAUNCHING None in
  let! heartbeat := wall_clock env in
  let failed := with_runtime previous RELAUNCH_FAILED (model previous) None heartbeat in
  let! written :=
    catch_exception
      (let! _ := _replace_node_revision env record relaunching failed 0 in ret true)
      (fun _ => ret false) in
  (if written then
     update (set_active false) ;! modify_reg (add failed) ;!
     (if lease_id =? 0 then ret tt else suppress (thread (fun s => lease_revoke s lease_id) ;! ret tt))
   else ret tt) ;!
  let combined := "Relaunch failed: " +:+ exn_text error +:+ "; rollback failed: " +:+ exn_text rollback_error in
  _log ;!
  let! l := get_loc in
  note_failed started (current l) combined ;!
  throw (Raised ProvisioningError combined).

(** The previous policy serves again. *)
Definition resume_old (started : Z) (error : Exn) (runtime : LlamaCppRuntimeState) (node : Node) : M unit :=
  update (set_active false) ;!
  modify_reg (add node) ;!
  _log ;!
  let! l := get_loc in
  note_failed started (current l) (exn_text error +:+ "; " +:+ rollback_message (rq_sizing (ls_requested runtime))).

(** After the engine was stopped: start it as it was, or leave a record that
    only teardown removes.  The caller re-raises. *)
Definition roll_back (started : Z) (error : Exn) (record : KV) (previous : Node) (runtime : LlamaCppRuntimeState) (a : A) (lease_id : Z)
  : M unit :=
  let relaunching := node_with_status previous RELAUNCHING None in
  update (set_current ROLLING_BACK) ;!
  note started ROLLING_BACK ;!
  _log ;!
  let! attempt :=
    catch
      (let! (m, restored) := _launch_llamacpp_runtime a (ls_requested runtime) in
       let! heartbeat := wall_clock env in
       let node := with_runtime previous HEALTHY m (Some restored) heartbeat in
       let! replaced := _replace_node_revision env record relaunching node lease_id in
       update (fun l => set_record replaced (relaunch_active l) l) ;!
       ret (Ok node))
      (fun rollback_error => ret (Err rollback_error)) in
  match attempt with
  | Err rollback_error =>
      abandon started error rollback_error record previous lease_id
  | Ok node =>
      resume_old started error runtime node
  end.

(** A relaunch that ends before the engine is stopped: the previous node. *)
Definition put_back (l : Locals A) : M unit :=
  match relaunch_active l && negb (stop_attempted l), relaunch_record l, previous_node l, lease l with
  | true, Some record, Some previous, Some lease_id =>
      let! restored :=
        catch_exception
          (let! _ := _replace_node_revision env record (node_with_status previous RELAUNCHING None) previous lease_id in ret true)
          (fun _ => ret false) in
      if restored then update (set_active false) ;! modify_reg (add previous) else ret tt
  | _, _, _, _ => ret tt
  end.

(** The handler of the body: diagnostics, rollback or restoration, the task. *)
Definition relaunch_failed (started : Z) (error : Exn) : M unit :=
  let! diagnostic_cancel :=
    if is_exception error then (fun w => let w := suspend (others env) w in (w, Ok (diagnostics_cancelled host_env (clock w))))
    else ret false in
  let re_raise := throw (if diagnostic_cancel then Cancelled else error) in
  let! l := get_loc in
  match stop_attempted l, relaunch_record l, previous_node l, previous_node l ≫= llamacpp_runtime, artifact l, lease l with
  | true, Some record, Some previous, Some runtime, Some a, Some lease_id =>
      roll_back started error record previous runtime a lease_id ;! re_raise
  | _, _, _, _, _, _ =>
      put_back l ;!
      _log ;!
      note_failed started (current l) (exn_text error) ;!
      re_raise
  end.

Definition finish_relaunch : M unit :=
  (fun w => let w := suspend (others env) w in (w, if finish_cancelled host_env (clock w) then Err Cancelled else Ok tt)) ;!
  _log.

Definition _relaunch_llamacpp : M unit :=
  let! started := wall_clock env in
  _log ;!                                  (* [_begin_log] *)
  _log ;!
  note started RELAUNCH_VALIDATING ;!
  finally (catch (relaunch_body started) (relaunch_failed started)) finish_relaunch.
End relaunch.

(** ** Facts *)

(** The verified server the host runs, if the last thing that happened to the
    engine is that it was verified. *)
Fixpoint serving (l : list HostEvent) : option (string * LlamaCppRuntimeState) :=
  match l with
  | Committed :: l => serving l
  | Serving m r :: _ => Some (m, r)
  | _ => None
  end.

Section facts.
Context {S E A : Type} `{!Etcd S} (env : Env S E) (host_env : Host A) (tracking : bool).
Context (host : string) (request : LlamaCppRuntimeRequest).
Notation World := (World S E (Locals A)).
Notation M := (@M S E (Locals A)).
Hypothesis others_demote : forall t s r, let r' := snd (others env t (s, r)) in
  get r' host = get r host \/ ~ healthy_entry (get r' host).
Hypothesis build_id : forall id d n, build env id d = Some n -> node_id n = id.

(** A healthy entry means an engine that was not touched or is verified to
    serve the recorded runtime. *)
Definition faithful (w : World) : Prop :=
  forall n, entry host w = Some n -> status n = HEALTHY ->
    events w = [] \/ exists m r, serving (events w) = Some (m, r) /\ model n = m /\ llamacpp_runtime n = Some r.

Definition out (w : World) : Prop := ~ healthy_entry (entry host w).

(** Nothing happened to the engine and the variables are [l]. *)
Definition at_rest (l : Locals A) (w : World) : Prop := events w = [] /\ loc w = l.
Definition idle (w : World) : Prop := events w = [] /\ stop_attempted (loc w) = false.
Definition uncommitted (w : World) : Prop := Committed ∉ events w.

Lemma stable_faithful : stable host faithful.
Proof.
  intros w w' (He & Hl & Hn) Hf n Hget Hs. rewrite He. destruct Hn as [Hn|Hn]; [rewrite Hn in Hget; by apply Hf|].
  exfalso. apply Hn. by exists n.
Qed.
Lemma stable_out : stable host out.
Proof. intros w w' (He & Hl & Hn) Ho. unfold out in *. destruct Hn as [-> |Hn]; done. Qed.
Lemma stable_loc_events (P : list HostEvent -> Locals A -> Prop) : stable host (fun w : World => P (events w) (loc w)).
Proof. intros w w' (-> & -> & _) H. exact H. Qed.
Lemma stable_and (P Q : World -> Prop) : stable host P -> stable host Q -> stable host (fun w => P w /\ Q w).
Proof. intros HP HQ w w' Hd [H1 H2]. split; [by eapply HP|by eapply HQ]. Qed.

Lemma out_faithful w : out w -> faithful w.
Proof. intros Ho n Hn Hs. exfalso. apply Ho. by exists n. Qed.
Lemma untouched_faithful w : events w = [] -> faithful w.
Proof. intros He n _ _. by left. Qed.

Lemma triple_update l f (R : Exn -> World -> Prop) : triple (at_rest l) (update f) (fun _ => at_rest (f l)) R.
Proof. intros w [He Hl]. cbn. rewrite Hl. done. Qed.

Lemma triple_pure {X} (P : World -> Prop) (phi : Prop) (m : M X) Q R :
  (phi -> triple P m Q R) -> triple (fun w => P w /\ phi) m Q R.
Proof. intros H w [Hw Hphi]. by apply H. Qed.

(** A quiet step before the engine is touched. *)
Lemma triple_rest {X} l (m : M X) : quiet host m -> stop_attempted l = false ->
  triple (at_rest l) m (fun _ => at_rest l) (fun _ => idle).
Proof.
  intros Hm Hl. eapply triple_conseq; [apply (triple_quiet host (at_rest l)); [done|apply (stable_loc_events (fun e l' => e = [] /\ l' = l))]|done|done|].
  intros e w [He Hloc]. split; [done|by rewrite Hloc].
Qed.

Lemma triple_result {X} l (r : result Exn X) : stop_attempted l = false ->
  triple (at_rest l) (of_result r) (fun x w => at_rest l w /\ r = Ok x) (fun _ => idle).
Proof. intros Hl w [He Hloc]. destruct r; cbn; [done|]. split; [done|by rewrite Hloc]. Qed.

Lemma read_id w w' kv n : _read_node_record (L := Locals A) env host w = (w', Ok (kv, n)) -> node_id n = host.
Proof.
  unfold _read_node_record, mbind. destruct (thread _ _ _ w) as [w1 [[kv1|]|]]; [|done..].
  destruct (parse_node env (node_key env host) (kv_value kv1)) as [n1|] eqn:Hp; [|done]. intros [= _ _ <-].
  apply (recovered_id _ _ _ build_id) in Hp. unfold node_key in Hp. by rewrite removeprefix_app in Hp.
Qed.

Lemma validate_runtime node q n : validate_llamacpp_relaunch tracking node q = Ok n ->
  node = Some n /\ exists a r, artifact_id n = Some a /\ llamacpp_runtime n = Some r.
Proof.
  unfold validate_llamacpp_relaunch. destruct node as [n'|]; [|done]. intros H. apply raise_bind in H as [_ H]. apply raise_bind in H as [_ H].
  destruct (artifact_id n') as [a|] eqn:Ha; [|done]. destruct (llamacpp_runtime n') as [r|] eqn:Hr; [|done].
  apply raise_bind in H as [_ H]. apply raise_bind in H as [_ H]. apply rbind_Ok in H as (z & _ & H).
  apply raise_bind in H as [_ H]. apply raise_bind in H as [_ H]. injection H as <-. by eauto.
Qed.

(** The variables once the node is marked RELAUNCHING. *)
Definition armed (previous : Node) (a : A) (record : KV) (z : Z) : Locals A :=
  mkLocals (Some record) (Some previous) (Some a) (Some z) false true (step_value RELAUNCH_VALIDATING).

Lemma begin_spec started : triple (at_rest initial_locals) (begin_relaunch env host_env tracking host request started)
  (fun r w => let '(previous, a, replaced, z) := r in
     out w /\ at_rest (armed previous a replaced z) w /\ node_id previous = host /\ is_some (llamacpp_runtime previous) = true)
  (fun _ => idle).
Proof.
  unfold begin_relaunch. set (l0 := initial_locals). assert (stop_attempted (A := A) l0 = false) as H0 by done.
  apply (triple_bind _ _ _ (fun _ => at_rest l0)); [by intros w Hw|]. intros r.
  eapply triple_bind; [by apply triple_result|]. intros local. cbn beta.
  eapply (triple_bind _ _ _ (fun x w => at_rest l0 w /\ node_id (snd x) = host)).
  { intros w [Hw _]. pose proof (triple_rest l0 _ (quiet_read env host others_demote host) H0 w Hw) as Hq.
    destruct (_read_node_record env host w) as [w' [[kv n]|e]] eqn:Hr; [|done]. split; [done|by eapply read_id]. }
  intros [record persisted]. eapply (triple_bind _ _ _ (fun x w => at_rest l0 w /\ node_id x = host /\ is_some (llamacpp_runtime x) = true)).
  { intros w [Hw Hid]. cbn [snd] in Hid. unfold of_result. destruct (validate_llamacpp_relaunch _ _ _) as [n|] eqn:Hv.
    - apply validate_runtime in Hv as ([= <-] & a & rt & _ & Hr). by rewrite Hr.
    - destruct Hw as [He Hl]. split; [done|by rewrite Hl]. }
  intros previous. apply triple_pure. intros good. set (l1 := set_previous previous l0).
  apply (triple_bind _ _ _ (fun _ => at_rest l1)); [apply triple_update|]. intros _.
  apply (triple_bind _ _ _ (fun _ => at_rest l1)); [apply triple_rest; [destruct (decide _); auto with qiip|done]|]. intros _.
  apply (triple_bind _ _ _ (fun _ => at_rest l1)); [by apply triple_rest; [apply quiet_remote|]|]. intros resolved.
  set (l2 := set_artifact resolved l1). apply (triple_bind _ _ _ (fun _ => at_rest l2)); [apply triple_update|]. intros _.
  destruct resolved as [a|]; [|intros w [He Hl]; cbn; split; [done|by rewrite Hl]].
  apply (triple_bind _ _ _ (fun _ => at_rest l2)); [apply triple_rest; [apply quiet_log|done]|]. intros _.
  apply (triple_bind _ _ _ (fun _ => at_rest l2)); [by apply triple_rest; [apply quiet_remote|]|]. intros _.
  apply (triple_bind _ _ _ (fun _ => at_rest l2)); [apply triple_rest; [by apply quiet_lease|done]|]. intros [z granted].
  set (l3 := set_lease z l2). apply (triple_bind _ _ _ (fun _ => at_rest l3)); [apply triple_update|]. intros _.
  set (relaunching := node_with_status previous RELAUNCHING None).
  apply (triple_bind _ _ _ (fun _ w => out w /\ at_rest l3 w)).
  { intros w [He Hl]. unfold take_out, get_reg, mbind. destruct (decide _); cbn; [|split; [done|by rewrite Hl]].
    split; [|done]. change (~ healthy_entry (get (add relaunching (fst (drain host (reg w)))) host)). rewrite get_add. destruct good as [good _]. rewrite decide_True by (by rewrite <- good).
    intros (n & [= <-] & Hs). done. }
  intros _. apply (triple_bind _ _ _ (fun _ w => out w /\ at_rest l3 w)).
  { eapply (triple_catch_exception _ _ _ _ (fun _ => idle)).
    - eapply triple_conseq; [apply (triple_quiet host (fun w => out w /\ at_rest l3 w)); [by apply quiet_replace|]|done|done|].
      + apply stable_and; [apply stable_out|apply (stable_loc_events (fun e l' => e = [] /\ l' = l3))].
      + intros e w (_ & He & Hl). split; [done|by rewrite Hl].
    - intros e. apply (triple_bind _ _ _ (fun _ => idle)); [by intros w Hw|]. intros _.
      apply (triple_bind _ _ _ (fun _ => idle)); [|by intros _ w Hw].
      destruct granted; [|by intros w Hw]. apply (triple_quiet host idle); [|apply (stable_loc_events (fun e l' => e = [] /\ stop_attempted l' = false))].
      apply quiet_catch_exception; [|intros; apply quiet_ret]. apply quiet_bind; [by apply quiet_thread|]. intros; apply quiet_ret.
    - done. }
  intros replaced. apply (triple_bind _ _ _ (fun _ w => out w /\ at_rest (armed previous a replaced z) w)).
  { intros w (Ho & He & Hl). cbn. rewrite Hl. by split_and!. }
  intros _ w (Ho & Hr). exact (conj Ho (conj Hr good)).
Qed.

(** The variables while the engine may be stopped. *)
Definition ready (previous : Node) (a : A) (record : KV) (z : Z) (l : Locals A) : Prop :=
  relaunch_record l = Some record /\ previous_node l = Some previous /\ artifact l = Some a /\ lease l = Some z.

Definition before_stop (previous : Node) (a : A) (record : KV) (z : Z) (w : World) : Prop :=
  out w /\ events w = [] /\ ready previous a record z (loc w) /\ stop_attempted (loc w) = false.

Lemma stable_before previous a record z : stable host (before_stop previous a record z).
Proof.
  apply stable_and; [apply stable_out|].
  apply (stable_loc_events (fun e l => e = [] /\ ready previous a record z l /\ stop_attempted l = false)).
Qed.

Lemma before_idle previous a record z w : before_stop previous a record z w -> idle w.
Proof. intros (_ & He & _ & Hs). done. Qed.

Lemma triple_before {X} previous a record z (m : M X) : quiet host m ->
  triple (before_stop previous a record z) m (fun _ => before_stop previous a record z) (fun _ => idle).
Proof.
  intros Hm. eapply triple_conseq; [apply (triple_quiet host _ m Hm), stable_before|done|done|].
  intros e w. apply before_idle.
Qed.

Lemma drain_spec started previous a record z :
  triple (before_stop previous a record z) (drain_relaunch env host started previous record z)
    (fun _ => before_stop previous a record z) (fun _ => idle).
Proof.
  unfold drain_relaunch. set (P := before_stop previous a record z).
  apply (triple_bind _ _ _ (fun _ => P)); [by intros w Hw|]. intros _.
  apply (triple_bind _ _ _ (fun _ => P)); [by apply triple_before, quiet_update|]. intros _.
  apply (triple_bind _ _ _ (fun _ => P)); [by apply triple_before, quiet_log|]. intros _.
  apply (triple_bind _ _ _ (fun _ => P)); [by apply triple_before, quiet_drain_wait|]. intros outcome.
  assert (forall text, triple P (let! restored := _replace_node_revision env record (node_with_status previous RELAUNCHING None) previous z in
      update (set_record restored false) ;! modify_reg (add previous) ;! throw (Raised ProvisioningError text)) (fun _ : unit => P) (fun _ => idle)) as Hback.
  { intros text. apply (triple_bind _ _ _ (fun _ => P)); [by apply triple_before, quiet_replace|].
    intros restored w Hw. apply before_idle in Hw as [He Hs]. by split. }
  destruct outcome; [by apply triple_before, quiet_log|apply Hback|apply Hback].
Qed.

(** From the attempt to stop on: out of rotation, with everything a rollback
    needs. *)
Definition stopped (previous : Node) (a : A) (record : KV) (z : Z) (w : World) : Prop :=
  out w /\ uncommitted w /\ ready previous a record z (loc w) /\ stop_attempted (loc w) = true.

Definition half_way (previous : Node) (a : A) (record : KV) (z : Z) (w : World) : Prop :=
  idle w \/ stopped previous a record z w.

Lemma stable_stopped previous a record z : stable host (stopped previous a record z).
Proof.
  apply stable_and; [apply stable_out|].
  apply (stable_loc_events (fun e l => Committed ∉ e /\ ready previous a record z l /\ stop_attempted l = true)).
Qed.

Lemma triple_stopped {X} previous a record z (m : M X) : quiet host m ->
  triple (stopped previous a record z) m (fun _ => stopped previous a record z) (fun _ => stopped previous a record z).
Proof. intros Hm. apply (triple_quiet host _ m Hm), stable_stopped. Qed.

Definition serves (m : string) (r : LlamaCppRuntimeState) (w : World) : Prop := serving (events w) = Some (m, r).

(** The history database answers and nobody cancels the operation. *)
Definition undisturbed : Prop := (forall t, store_fault env t = None) /\ (forall t, cancelled env t = None).

Lemma log_total (w : World) e w' : undisturbed -> _log env w <> (w', Err e).
Proof. intros [Hf _]. unfold _log, history. destruct (has_store env); [|done]. cbn. by rewrite Hf. Qed.

Lemma update_state_total h step failed error resume started keep engine inherit (w : World) e w' : undisturbed ->
  _update_state env h step failed error resume started keep engine inherit w <> (w', Err e).
Proof.
  intros [Hf Hc]. unfold _update_state, mbind, wall_clock, read_manifest, history, catch_exception, catch, thread.
  destruct (has_store env && _); cbn; [destruct error as [t|]; [destruct (str_truthy t)|]; cbn; rewrite ?Hf; cbn|];
    rewrite ?Hf, ?Hc; repeat (destruct (put _ _ _ _) as [s [[]|]]); cbn; rewrite ?Hf, ?Hc; cbn;
    repeat (destruct (put _ _ _ _) as [s [[]|]]); done.
Qed.

(** Recording progress: a stable assertion survives, and an exception means a
    disturbance. *)
Lemma triple_log P : stable host P -> triple P (_log (L := Locals A) env) (fun _ => P) (fun _ w => P w /\ ~ undisturbed).
Proof.
  intros HP w Hw. pose proof (triple_quiet host P _ (quiet_log env host) HP w Hw) as H.
  pose proof (log_total w) as Ht. destruct (_log env w) as [w' [[]|e]]; [done|]. split; [done|]. intros Hu. by eapply Ht.
Qed.

Lemma triple_note P h step failed error resume started keep engine inherit : stable host P ->
  triple P (_update_state (L := Locals A) env h step failed error resume started keep engine inherit)
    (fun _ => P) (fun _ w => P w /\ ~ undisturbed).
Proof.
  intros HP w Hw. pose proof (triple_quiet host P _ (quiet_update env host others_demote h step failed error resume started keep engine inherit) HP w Hw) as H.
  pose proof (fun e w' => update_state_total h step failed error resume started keep engine inherit w e w') as Ht.
  destruct (_update_state env h step failed error resume started keep engine inherit w) as [w' [[]|e]]; [done|].
  split; [done|]. intros Hu. by eapply Ht.
Qed.

(** Why a start was not sent: the draft, the inventory or the command. *)
Inductive no_start (q : LlamaCppRuntimeRequest) : Prop :=
| no_draft t id e : draft_id q = Some id -> resolve_artifact host_env t id = Err e -> no_start q
| no_inventory t e : gpu_inventory (rq_profile q) (nvidia_smi host_env t) = Err e -> no_start q
| no_command t a draft gpus e : launch_llamacpp host_env t a draft q gpus = NotSent e -> no_start q.

(** The start of [q] reached the host, or could not be sent and the node is out
    of rotation. *)
Definition told (q : LlamaCppRuntimeRequest) (w : World) : Prop :=
  LaunchEngine q ∈ events w \/ (no_start q /\ out w) \/ ~ undisturbed.

Lemma stable_told q : stable host (told q).
Proof.
  intros w w' Hd [H|[[H Ho]|H]]; [left; by destruct Hd as (-> & _)|right; left|by right; right].
  split; [done|by eapply stable_out].
Qed.

(** A command on the host: a stable assertion survives, and its exception is
    the answer. *)
Lemma triple_remote {X} P (answer : nat -> result Exn X) : stable host P ->
  triple P (remote (L := Locals A) (others env) answer) (fun x w => P w /\ exists t, answer t = Ok x) (fun e w => P w /\ exists t, answer t = Err e).
Proof.
  intros HP w Hw. pose proof (triple_quiet host P _ (quiet_remote env host others_demote answer) HP w Hw) as H. cbn in *.
  destruct (answer _) eqn:He; eauto.
Qed.

Lemma inventory_spec q P : stable host P -> (forall w, P w -> out w) ->
  triple P (_read_gpu_inventory env host_env (rq_profile q)) (fun _ => P) (fun _ w => P w /\ told q w).
Proof.
  intros HP Ho. unfold _read_gpu_inventory. eapply triple_bind.
  { eapply triple_conseq; [by apply (triple_remote P)|done|intros x w Hx; exact Hx|].
    intros e w [Hw [t Ht]]. split; [done|]. right. left. split; [by eapply no_inventory|by apply Ho]. }
  intros [l|]; [by intros w [Hw _]|]. apply (triple_bind _ _ _ (fun _ => P)); [|by intros _ w Hw].
  eapply triple_conseq; [by apply (triple_log P)|by intros w [Hw _]|done|]. intros e w [Hw Hu]. split; [done|by right; right].
Qed.

Lemma draft_spec q P : stable host P -> (forall w, P w -> out w) ->
  triple P (_resolve_draft_artifact env host_env q) (fun _ => P) (fun _ w => P w /\ told q w).
Proof.
  intros HP Ho. unfold _resolve_draft_artifact. destruct (draft_id q) as [id|] eqn:Hid; [|by intros w Hw].
  eapply triple_conseq; [by apply (triple_remote P)|done|by intros x w [Hw _]|].
  intros e w [Hw [t Ht]]. split; [done|]. right. left. split; [by eapply no_draft|by apply Ho].
Qed.

Lemma start_spec previous a record z draft q gpus : triple (stopped previous a record z) (start_engine env host_env a draft q gpus)
  (fun _ w => stopped previous a record z w /\ LaunchEngine q ∈ events w) (fun _ w => stopped previous a record z w /\ told q w).
Proof.
  unfold start_engine. eapply triple_bind.
  { eapply triple_conseq; [apply (triple_remote (stopped previous a record z)), stable_stopped|done|intros x w Hx; exact Hx|by intros e w [_ [t Ht]]]. }
  intros [e|r].
  - intros w [Hw [t [= Ht]]]. cbn. split; [done|]. right. left. split; [by eapply no_command|by destruct Hw].
  - intros w [(Ho & Hu & Hr & Hs) _]. assert (stopped previous a record z (fst (happened (LaunchEngine q) w))) as Hst.
    { split_and!; [done| |done|done]. unfold uncommitted in *. cbn. set_solver. }
    destruct r as [x|e]; cbn; (split; [done|]); [by left|left; by left].
Qed.

(** A launch while the engine is stopped. *)
Lemma launch_spec previous a record z q : triple (stopped previous a record z) (_launch_llamacpp_runtime env host_env a q)
  (fun r w => stopped previous a record z w /\ serves (fst r) (snd r) w /\ LaunchEngine q ∈ events w)
  (fun _ w => stopped previous a record z w /\ told q w).
Proof.
  unfold _launch_llamacpp_runtime. set (P := stopped previous a record z).
  assert (stable host P) as HP by apply stable_stopped. assert (forall w, P w -> out w) as Ho by by intros w [Ho _].
  apply (triple_bind _ _ _ (fun _ => P)); [by apply draft_spec|]. intros draft.
  apply (triple_bind _ _ _ (fun _ => P)); [by apply inventory_spec|]. intros gpus.
  eapply triple_bind; [apply start_spec|]. intros [m r] w [(Hout & Hu & Hr & Hs) Hl]. cbn. split_and!; [|done|by right].
  split_and!; [done| |done|done]. unfold uncommitted in *. cbn. set_solver.
Qed.

Lemma switch_spec started previous a record z :
  triple (before_stop previous a record z) (switch_engine env host_env host request started a)
    (fun r w => stopped previous a record z w /\ serves (fst r) (snd r) w)
    (fun _ => half_way previous a record z).
Proof.
  unfold switch_engine. set (P := before_stop previous a record z). set (Q := stopped previous a record z).
  assert (forall X (m : M X), quiet host m -> triple P m (fun _ => P) (fun _ => half_way previous a record z)) as HP.
  { intros X m Hm. eapply triple_conseq; [by apply triple_before|done|done|]. intros e w. by left. }
  assert (forall X (m : M X), quiet host m -> triple Q m (fun _ => Q) (fun _ => half_way previous a record z)) as HQ.
  { intros X m Hm. eapply triple_conseq; [by apply triple_stopped|done|done|]. intros e w. by right. }
  apply (triple_bind _ _ _ (fun _ => P)); [by intros w Hw|]. intros _.
  apply (triple_bind _ _ _ (fun _ => P)); [by apply HP, quiet_update|]. intros _.
  apply (triple_bind _ _ _ (fun _ => P)); [by apply HP, quiet_log|]. intros _.
  apply (triple_bind _ _ _ (fun _ => Q)).
  { intros w (Ho & He & Hr & Hs). cbn. split_and!; [done| |done|done]. unfold uncommitted. cbn. rewrite He. set_solver. }
  intros _. apply (triple_bind _ _ _ (fun _ => Q)).
  { unfold _stop_llamacpp. apply (triple_bind _ _ _ (fun _ => Q)); [|intros _; by apply HQ, quiet_remote].
    intros w (Ho & Hu & Hr & Hs). cbn. split_and!; [done| |done|done]. unfold uncommitted in *. cbn. set_solver. }
  intros _. apply (triple_bind _ _ _ (fun _ => Q)); [by intros w Hw|]. intros _.
  apply (triple_bind _ _ _ (fun _ => Q)); [by apply HQ, quiet_update|]. intros _.
  apply (triple_bind _ _ _ (fun _ => Q)); [by apply HQ, quiet_log|]. intros _.
  eapply triple_conseq; [apply launch_spec|done|by intros r w (H1 & H2 & _)|by intros e w [H1 _]; right].
Qed.

Lemma stable_serves m r : stable host (serves m r).
Proof. apply (stable_loc_events (fun e _ => serving e = Some (m, r))). Qed.
Lemma stable_in ev : stable host (fun w : World => ev ∈ events w).
Proof. apply (stable_loc_events (fun e _ => ev ∈ e)). Qed.

(** Adding a node that serves what it records. *)
Lemma add_serving n m r h (w : World) : node_id n = host -> serves m r w ->
  let w' := fst (modify_reg (add (with_runtime n HEALTHY m (Some r) h)) w) in faithful w' /\ serves m r w'.
Proof.
  intros Hid Hs. cbn zeta. split; [|exact Hs]. intros n' Hn' _. right. exists m, r. split; [exact Hs|].
  change (get (add (with_runtime n HEALTHY m (Some r) h) (reg w)) host = Some n') in Hn'. rewrite get_add in Hn'.
  rewrite decide_True in Hn' by done. by injection Hn' as <-.
Qed.

Definition committed_ok (m : string) (r : LlamaCppRuntimeState) (w : World) : Prop :=
  faithful w /\ serves m r w /\ Committed ∈ events w.

Lemma commit_spec started previous a record z m r : node_id previous = host ->
  triple (fun w => stopped previous a record z w /\ serves m r w) (commit_relaunch env host started previous record z m r)
    (fun _ => committed_ok m r)
    (fun _ w => stopped previous a record z w \/ Committed ∈ events w /\ ~ undisturbed).
Proof.
  intros Hid. unfold commit_relaunch. set (P := fun w => stopped previous a record z w /\ serves m r w).
  assert (stable host P) as HP by (apply stable_and; [apply stable_stopped|apply stable_serves]).
  assert (forall X (mx : M X), quiet host mx -> triple P mx (fun _ => P) (fun _ w => stopped previous a record z w \/ Committed ∈ events w /\ ~ undisturbed)) as Hq.
  { intros X mx Hm. eapply triple_conseq; [apply (triple_quiet host P mx Hm HP)|done|done|]. intros e w [H _]. by left. }
  apply (triple_bind _ _ _ (fun _ => P)); [by apply Hq, quiet_clock|]. intros h.
  apply (triple_bind _ _ _ (fun _ => P)); [by intros w Hw|]. intros _.
  apply (triple_bind _ _ _ (fun _ => P)); [by apply Hq, quiet_replace|]. intros committed.
  assert (stable host (committed_ok m r)) as HC.
  { apply stable_and; [apply stable_faithful|apply stable_and; [apply stable_serves|apply stable_in]]. }
  apply (triple_bind _ _ _ (fun _ w => serves m r w /\ Committed ∈ events w)).
  { intros w [_ Hs]. cbn. split; [done|by left]. }
  intros _. apply (triple_bind _ _ _ (fun _ w => serves m r w /\ Committed ∈ events w)); [by intros w Hw|].
  intros _. apply (triple_bind _ _ _ (fun _ => committed_ok m r)).
  { intros w [Hs Hc]. destruct (add_serving previous m r h w Hid Hs) as [H1 H2]. by split_and!. }
  intros _. apply (triple_bind _ _ _ (fun _ => committed_ok m r)).
  - eapply triple_conseq; [by apply (triple_note (committed_ok m r))|done|done|]. intros e w [(_ & _ & Hc) Hu]. by right.
  - intros _. eapply triple_conseq; [by apply (triple_log (committed_ok m r))|done|done|]. intros e w [(_ & _ & Hc) Hu]. by right.
Qed.

(** Where the body can have raised. *)
Definition trouble (w : World) : Prop :=
  idle w \/
  (exists previous a record z runtime, stopped previous a record z w /\ node_id previous = host /\ llamacpp_runtime previous = Some runtime) \/
  (Committed ∈ events w /\ ~ undisturbed).

Lemma body_spec started : triple (at_rest initial_locals) (relaunch_body env host_env tracking host request started)
  (fun _ w => exists m r, committed_ok m r w) (fun _ => trouble).
Proof.
  unfold relaunch_body. eapply triple_bind.
  { eapply triple_conseq; [apply (begin_spec started)|done|intros x w Hx; exact Hx|by left]. }
  intros [[[previous a] record] z]. cbn beta iota.
  eapply (triple_conseq (fun w => before_stop previous a record z w /\ (node_id previous = host /\ is_some (llamacpp_runtime previous) = true)));
    [|by intros w (Ho & [He Hl] & Hid & Hr); split; [split_and!; try done; by rewrite Hl|]|intros x w Hx; exact Hx|intros e w Hx; exact Hx].
  apply triple_pure. intros [Hid Hr]. destruct (llamacpp_runtime previous) as [runtime|] eqn:Hrt; [|done].
  apply (triple_bind _ _ _ (fun _ => before_stop previous a record z)).
  { eapply triple_conseq; [apply drain_spec|done|done|by left]. }
  intros _. eapply triple_bind.
  { eapply triple_conseq; [apply (switch_spec started)|done|intros x w Hx; exact Hx|].
    intros e w [H|H]; [by left|right; left; by exists previous, a, record, z, runtime]. }
  intros [m r]. cbn [fst snd].
  eapply triple_conseq; [by apply (commit_spec started previous a record z m r)|done|intros x w H; by exists m, r|].
  intros e w [H|H]; [right; left; by exists previous, a, record, z, runtime|by right; right].
Qed.

(** The runtime of the node before the relaunch. *)
Definition had (runtime : LlamaCppRuntimeState) (w : World) : Prop := previous_node (loc w) ≫= llamacpp_runtime = Some runtime.

(** The rollback: the engine was told to start as before. *)
Definition retried_old (runtime : LlamaCppRuntimeState) (w : World) : Prop :=
  had runtime w /\ told (ls_requested runtime) w.

Definition rolled_back (runtime : LlamaCppRuntimeState) (w : World) : Prop :=
  faithful w /\ uncommitted w /\ retried_old runtime w.

Lemma stable_had runtime : stable host (had runtime).
Proof. apply (stable_loc_events (fun _ l => previous_node l ≫= llamacpp_runtime = Some runtime)). Qed.
Lemma stable_uncommitted : stable host uncommitted.
Proof. apply (stable_loc_events (fun e _ => Committed ∉ e)). Qed.
Lemma stable_rolled runtime : stable host (rolled_back runtime).
Proof.
  apply stable_and; [apply stable_faithful|]. apply stable_and; [apply stable_uncommitted|].
  apply stable_and; [apply stable_had|apply stable_told].
Qed.

(** What the attempt to start the previous policy ends with. *)
Definition old_attempt (previous : Node) (runtime : LlamaCppRuntimeState) (r : result Exn Node) (w : World) : Prop :=
  out w /\ uncommitted w /\ had runtime w /\ told (ls_requested runtime) w /\
  match r with
  | Ok node => LaunchEngine (ls_requested runtime) ∈ events w /\
      exists m restored h, node = with_runtime previous HEALTHY m (Some restored) h /\ serves m restored w
  | Err _ => True
  end.

Lemma attempt_spec previous a record z runtime : llamacpp_runtime previous = Some runtime ->
  triple (stopped previous a record z)
    (catch
      (let! (m, restored) := _launch_llamacpp_runtime env host_env a (ls_requested runtime) in
       let! heartbeat := wall_clock env in
       let node := with_runtime previous HEALTHY m (Some restored) heartbeat in
       let! replaced := _replace_node_revision env record (node_with_status previous RELAUNCHING None) node z in
       update (fun l => set_record replaced (relaunch_active l) l) ;!
       ret (Ok node))
      (fun rollback_error => ret (Err rollback_error)))
    (old_attempt previous runtime) (fun _ _ => False).
Proof.
  intros Hrt. set (Q := fun w => stopped previous a record z w /\ told (ls_requested runtime) w).
  assert (forall w, stopped previous a record z w -> had runtime w) as Hhad.
  { intros w (_ & _ & (_ & Hp & _) & _). unfold had. by rewrite Hp. }
  apply (triple_catch _ _ _ _ (fun _ => Q)); [|intros e w (Hst & Hl); destruct (Hst) as (Ho & Hu & _); split_and!; try done; by apply Hhad].
  eapply triple_bind; [eapply triple_conseq; [apply (launch_spec previous a record z)|done|intros x w Hx; exact Hx|by intros e w Hx]|].
  intros [m restored]. cbn [fst snd]. set (P := fun w => stopped previous a record z w /\ serves m restored w /\ LaunchEngine (ls_requested runtime) ∈ events w).
  assert (stable host P) as HP by (apply stable_and; [apply stable_stopped|apply stable_and; [apply stable_serves|apply stable_in]]).
  assert (forall X (mx : M X), quiet host mx -> triple P mx (fun _ => P) (fun _ => Q)) as Hq.
  { intros X mx Hm. eapply triple_conseq; [apply (triple_quiet host P mx Hm HP)|done|done|]. intros e w (H1 & _ & H2). split; [done|by left]. }
  apply (triple_bind _ _ _ (fun _ => P)); [by apply Hq, quiet_clock|]. intros h.
  apply (triple_bind _ _ _ (fun _ => P)); [by apply Hq, quiet_replace|]. intros replaced w (Hst & Hs & Hl).
  destruct (Hst) as (Ho & Hu & _). cbn. split_and!; [done|done|exact (Hhad w Hst)|by left|done|]. by exists m, restored, h.
Qed.

Lemma resume_spec started error previous runtime node : node_id previous = host ->
  triple (old_attempt previous runtime (Ok node)) (resume_old env host started error runtime node)
    (fun _ => rolled_back runtime) (fun _ => rolled_back runtime).
Proof.
  intros Hid. pose proof (stable_rolled runtime) as HR. unfold resume_old.
  assert (forall X (mx : M X), quiet host mx -> triple (rolled_back runtime) mx (fun _ => rolled_back runtime) (fun _ => rolled_back runtime)) as Hq
    by (intros X mx Hm; by apply (triple_quiet host)).
  apply (triple_bind _ _ _ (fun _ => old_attempt previous runtime (Ok node))); [by intros w Hw|]. intros _.
  apply (triple_bind _ _ _ (fun _ => rolled_back runtime)).
  { intros w (_ & Hu & Hh & _ & Hl & m & restored & h & -> & Hs). destruct (add_serving previous m restored h w Hid Hs) as [H1 H2].
    split_and!; [done|done|split; [done|by left]]. }
  intros _. apply (triple_bind _ _ _ (fun _ => rolled_back runtime)); [by apply Hq, quiet_log|]. intros _.
  apply (triple_bind _ _ _ (fun _ => rolled_back runtime)); [by intros w Hw|]. intros l. by apply Hq, quiet_update.
Qed.

Lemma abandon_spec started error rollback_error previous record z runtime : node_id previous = host ->
  triple (fun w => out w /\ uncommitted w /\ had runtime w /\ told (ls_requested runtime) w)
    (abandon env host started error rollback_error record previous z) (fun _ => rolled_back runtime) (fun _ => rolled_back runtime).
Proof.
  intros Hid. unfold abandon.
  set (T := fun w => out w /\ uncommitted w /\ had runtime w /\ told (ls_requested runtime) w).
    assert (stable host T) as HT by (apply stable_and; [apply stable_out|apply stable_and; [apply stable_uncommitted|apply stable_and; [apply stable_had|apply stable_told]]]).
    assert (forall w, T w -> rolled_back runtime w) as Hend by (intros w (Ho & Hu & Hh & Hl); split_and!; [by apply out_faithful|done|by split]).
    assert (forall X (mx : M X), quiet host mx -> triple T mx (fun _ => T) (fun _ => rolled_back runtime)) as Ht.
    { intros X mx Hm. eapply triple_conseq; [apply (triple_quiet host T mx Hm HT)|done|done|]. intros e w. apply Hend. }
    apply (triple_bind _ _ _ (fun _ => T)); [by apply Ht, quiet_clock|]. intros h.
    apply (triple_bind _ _ _ (fun _ => T)).
    { apply Ht, quiet_catch_exception; [|intros; apply quiet_ret]. apply quiet_bind; [by apply quiet_replace|intros; apply quiet_ret]. }
    intros written. apply (triple_bind _ _ _ (fun _ => T)).
    { destruct written; [|by intros w Hw]. apply (triple_bind _ _ _ (fun _ => T)); [by intros w Hw|]. intros _.
      apply (triple_bind _ _ _ (fun _ => T)).
      - intros w (Ho & Hu & Hh & Hl).
        assert (out (fst (modify_reg (add (with_runtime previous RELAUNCH_FAILED (model previous) None h)) w))) as Ho'.
        { unfold out, entry. change (~ healthy_entry (get (add (with_runtime previous RELAUNCH_FAILED (model previous) None h) (reg w)) host)).
          rewrite get_add, decide_True by done. by intros (n & [= <-] & Hs). }
        split_and!; [done|done|done|]. destruct Hl as [Hl|[[Hl _]|Hl]]; [by left|by right; left|by right; right].
      - intros _. destruct (z =? 0); [by intros w Hw|]. apply Ht, quiet_catch_exception; [|intros; apply quiet_ret].
        apply quiet_bind; [by apply quiet_thread|intros; apply quiet_ret]. }
    intros _. apply (triple_bind _ _ _ (fun _ => T)); [by apply Ht, quiet_log|]. intros _.
    apply (triple_bind _ _ _ (fun _ => T)); [by intros w Hw|]. intros l.
    apply (triple_bind _ _ _ (fun _ => T)); [by apply Ht, quiet_update|]. intros _ w Hw. by apply Hend.
Qed.

Lemma roll_back_spec started error previous a record z runtime : node_id previous = host -> llamacpp_runtime previous = Some runtime ->
  triple (stopped previous a record z) (roll_back env host_env host started error record previous runtime a z)
    (fun _ => rolled_back runtime) (fun _ => rolled_back runtime).
Proof.
  intros Hid Hrt. unfold roll_back. set (P := stopped previous a record z).
  assert (forall w, P w /\ ~ undisturbed -> rolled_back runtime w) as Hearly.
  { intros w [(Ho & Hu & (_ & Hp & _) & _) Hd]. split_and!; [by apply out_faithful|done|split; [unfold had; by rewrite Hp|by right; right]]. }
  apply (triple_bind _ _ _ (fun _ => P)); [by intros w Hw|]. intros _.
  apply (triple_bind _ _ _ (fun _ => P)).
  { eapply triple_conseq; [apply (triple_note P), stable_stopped|done|done|by intros e w Hw; apply Hearly]. }
  intros _. apply (triple_bind _ _ _ (fun _ => P)).
  { eapply triple_conseq; [apply (triple_log P), stable_stopped|done|done|by intros e w Hw; apply Hearly]. }
  intros _. eapply triple_bind.
  { eapply triple_conseq; [by apply (attempt_spec previous a record z runtime)|done|intros x w Hx; exact Hx|done]. }
  intros [node|rollback_error]; [by apply resume_spec|].
  eapply triple_conseq; [by apply (abandon_spec started error rollback_error previous record z runtime)|by intros w (H1 & H2 & H3 & H4 & _)|done|done].
Qed.

(** Events are only added. *)
Definition grows {X} (m : M X) : Prop := forall w ev, ev ∈ events w -> ev ∈ events (fst (m w)).

Lemma grows_quiet {X} (m : M X) : quiet host m -> grows m.
Proof. intros Hm w ev Hev. specialize (Hm w) as (He & _). by rewrite He. Qed.
Lemma grows_bind {X Y} (m : M X) (k : X -> M Y) : grows m -> (forall x, grows (k x)) -> grows (mbind m k).
Proof. intros Hm Hk w ev Hev. unfold mbind. specialize (Hm w ev Hev). destruct (m w) as [w1 [x|e]]; [by apply Hk|done]. Qed.
Lemma grows_catch {X} (m : M X) h : grows m -> (forall e, grows (h e)) -> grows (catch m h).
Proof. intros Hm Hh w ev Hev. unfold catch. specialize (Hm w ev Hev). destruct (m w) as [w1 [x|e]]; [done|by apply Hh]. Qed.
Lemma grows_step {X} (m : M X) : (forall w, events (fst (m w)) = events w \/ exists ev, events (fst (m w)) = ev :: events w) -> grows m.
Proof. intros Hm w ev Hev. destruct (Hm w) as [->|[ev' ->]]; [done|by right]. Qed.

Lemma grows_same {X} (m : M X) : (forall w, events (fst (m w)) = events w) -> grows m.
Proof. intros H. apply grows_step. intros w. left. apply H. Qed.

Lemma grows_launch a q : grows (_launch_llamacpp_runtime env host_env a q).
Proof.
  apply grows_bind; [unfold _resolve_draft_artifact; destruct (draft_id q); [by apply grows_quiet, quiet_remote|by apply grows_same]|]. intros draft.
  apply grows_bind.
  { apply grows_bind; [by apply grows_quiet, quiet_remote|]. intros [l|]; [by apply grows_same|].
    apply grows_bind; [apply grows_quiet, quiet_log|]. intros _. by apply grows_same. }
  intros gpus. apply grows_bind.
  { apply grows_bind; [by apply grows_quiet, quiet_remote|]. intros [e|r]; [by apply grows_same|].
    apply grows_bind; [apply grows_step; intros w; right; by eexists|]. intros _. by apply grows_same. }
  intros [m r]. apply grows_bind; [apply grows_step; intros w; right; by eexists|]. intros _. by apply grows_same.
Qed.

Lemma grows_abandon started error rollback_error record previous z : grows (abandon env host started error rollback_error record previous z).
Proof.
  unfold abandon. apply grows_bind; [by apply grows_quiet, quiet_clock|]. intros h. apply grows_bind.
  { apply grows_quiet, quiet_catch_exception; [|intros; apply quiet_ret]. apply quiet_bind; [by apply quiet_replace|intros; apply quiet_ret]. }
  intros written. apply grows_bind.
  { destruct written; [|by apply grows_same]. apply grows_bind; [by apply grows_same|]. intros _. apply grows_bind; [by apply grows_same|]. intros _.
    destruct (z =? 0); [by apply grows_same|]. apply grows_quiet, quiet_catch_exception; [|intros; apply quiet_ret].
    apply quiet_bind; [by apply quiet_thread|intros; apply quiet_ret]. }
  intros _. apply grows_bind; [by apply grows_quiet, quiet_log|]. intros _. apply grows_bind; [by apply grows_same|]. intros l.
  apply grows_bind; [by apply grows_quiet, quiet_update|]. intros _. by apply grows_same.
Qed.

Lemma grows_roll_back started error record previous runtime a z : grows (roll_back env host_env host started error record previous runtime a z).
Proof.
  unfold roll_back. apply grows_bind; [by apply grows_same|]. intros _. apply grows_bind; [by apply grows_quiet, quiet_update|]. intros _.
  apply grows_bind; [by apply grows_quiet, quiet_log|]. intros _. apply grows_bind.
  { apply grows_catch; [|intros e; by apply grows_same]. apply grows_bind; [apply grows_launch|]. intros [m r].
    apply grows_bind; [by apply grows_quiet, quiet_clock|]. intros h. apply grows_bind; [by apply grows_quiet, quiet_replace|]. intros x.
    apply grows_bind; [by apply grows_same|]. intros _. by apply grows_same. }
  intros [node|e]; [|apply grows_abandon]. unfold resume_old. apply grows_bind; [by apply grows_same|]. intros _.
  apply grows_bind; [by apply grows_same|]. intros _. apply grows_bind; [by apply grows_quiet, quiet_log|]. intros _.
  apply grows_bind; [by apply grows_same|]. intros l. by apply grows_quiet, quiet_update.
Qed.

(** How a relaunch that raised has left things. *)
Definition settled (w : World) : Prop :=
  (Committed ∈ events w /\ ~ undisturbed) \/
  (faithful w /\ uncommitted w /\ (StopEngine ∈ events w -> exists runtime, retried_old runtime w)).

Lemma stable_settled : stable host settled.
Proof.
  intros w w' Hd [H|(Hf & Hu & H)]; [left; by destruct Hd as (-> & _)|right]. split_and!; [by eapply stable_faithful|by eapply stable_uncommitted|].
  intros Hs. destruct H as (runtime & Hh & Ht); [by destruct Hd as (<- & _)|]. exists runtime.
  split; [by eapply stable_had|by eapply stable_told].
Qed.

Lemma rolled_settled runtime w : rolled_back runtime w -> settled w.
Proof. intros (Hf & Hu & Hr). right. split_and!; [done|done|]. intros _. by exists runtime. Qed.

Lemma idle_settled w : events w = [] -> settled w.
Proof. intros He. right. split_and!; [by apply untouched_faithful|unfold uncommitted; rewrite He; set_solver|]. rewrite He. set_solver. Qed.

Lemma put_back_events l : grows (put_back env l) /\ forall w, events (fst (put_back env l w)) = events w.
Proof.
  assert (forall w, events (fst (put_back env l w)) = events w) as H; [|split; [by apply grows_same|done]].
  intros w. unfold put_back. destruct (relaunch_active l && _), (relaunch_record l) as [record|], (previous_node l) as [previous|], (lease l) as [z|]; try done.
  unfold mbind at 1.
  assert (quiet host (catch_exception (let! _ := _replace_node_revision env record (node_with_status previous RELAUNCHING None) previous z in ret true)
    (fun _ : Exn => ret (S := S) (E := E) (L := Locals A) false))) as Hq.
  { apply quiet_catch_exception; [|intros; apply quiet_ret]. apply quiet_bind; [by apply quiet_replace|intros; apply quiet_ret]. }
  specialize (Hq w) as (He & _). destruct (catch_exception _ _ w) as [w1 [[]|e]]; done.
Qed.

(** The end of the handler where no rollback is due. *)
Lemma handler_tail started l error d (P : World -> Prop) : (forall w w', events w' = events w -> P w -> P w') ->
  triple P (put_back env l ;! _log env ;! note_failed env host started (current l) (exn_text error) ;!
            throw (A := unit) (if d : bool then Cancelled else error)) (fun _ _ => False) (fun _ => P).
Proof.
  intros HP. assert (stable host P) as HS by (intros w w' (He & _); by apply HP).
  apply (triple_bind _ _ _ (fun _ => P)).
  { intros w Hw. pose proof (proj2 (put_back_events l) w) as He. destruct (put_back env l w) as [w1 [x|e]]; by eapply HP. }
  intros _. apply (triple_bind _ _ _ (fun _ => P)); [by apply (triple_quiet host); [apply quiet_log|]|].
  intros _. apply (triple_bind _ _ _ (fun _ => P)); [by apply (triple_quiet host); [apply quiet_update|]|]. by intros _ w Hw.
Qed.

Lemma handler_spec started error : triple trouble (relaunch_failed env host_env host started error) (fun _ _ => False) (fun _ => settled).
Proof.
  unfold relaunch_failed. assert (stable host trouble) as HT.
  { intros w w' Hd [H|[(p & a & r & z & rt & Hst & Hp)|[H Hu]]].
    - left. by eapply (stable_loc_events (fun e l => e = [] /\ stop_attempted l = false)).
    - right. left. exists p, a, r, z, rt. split; [by eapply stable_stopped|done].
    - right. right. split; [by destruct Hd as (-> & _)|done]. }
  apply (triple_bind _ _ _ (fun _ => trouble)).
  { intros w Hw. destruct (is_exception error); [|done]. cbn. eapply HT; [by apply suspend_drift|done]. }
  intros d. apply (triple_bind _ _ _ (fun l w => trouble w /\ l = loc w)); [by intros w Hw|]. intros l w [Ht ->].
  assert (forall P : World -> Prop, (forall w w', events w' = events w -> P w -> P w') -> P w -> (forall w, P w -> settled w) ->
    match (put_back env (loc w) ;! _log env ;! note_failed env host started (current (loc w)) (exn_text error) ;!
           throw (A := unit) (if d : bool then Cancelled else error)) w with (w', Ok _) => False | (w', Err _) => settled w' end) as Htail.
  { intros P HP Hw Hend. pose proof (handler_tail started (loc w) error d P HP w Hw) as H.
    destruct (mbind _ _ w) as [w' [x|e]]; [done|by apply Hend]. }
  destruct Ht as [[He Hs]|[(previous & a & record & z & runtime & Hst & Hid & Hrt)|[Hc Hu]]].
  - rewrite Hs. apply (Htail (fun w => events w = [])); [by intros ? ? ->|done|apply idle_settled].
  - destruct (Hst) as (_ & _ & (H1 & H2 & H3 & H4) & H5). rewrite H1, H2, H3, H4, H5. change (Some previous ≫= llamacpp_runtime) with (llamacpp_runtime previous). rewrite Hrt.
    pose proof (roll_back_spec started error previous a record z runtime Hid Hrt w Hst) as Hrb. unfold mbind.
    destruct (roll_back _ _ _ _ _ _ _ _ _ _ w) as [w1 [x|e]]; by eapply rolled_settled.
  - assert (forall w, (Committed ∈ events w) -> settled w) as Hend by (by left).
    assert (forall w w' : World, events w' = events w -> Committed ∈ events w -> Committed ∈ events w') as Hstep by (by intros ? ? ->).
    destruct (stop_attempted (loc w)), (relaunch_record (loc w)) as [record|], (previous_node (loc w)) as [previous|];
      try (by apply (Htail (fun w => Committed ∈ events w))).
    change (Some previous ≫= llamacpp_runtime) with (llamacpp_runtime previous).
    destruct (llamacpp_runtime previous) as [runtime|], (artifact (loc w)) as [a|], (lease (loc w)) as [z|];
      try (by apply (Htail (fun w => Committed ∈ events w))).
    unfold mbind. pose proof (grows_roll_back started error record previous runtime a z w Committed Hc) as Hg.
    destruct (roll_back _ _ _ _ _ _ _ _ _ _ w) as [w1 [x|e]]; by apply Hend.
Qed.

Lemma finish_quiet : quiet host (finish_relaunch env host_env).
Proof.
  unfold finish_relaunch. apply quiet_bind; [|intros; apply quiet_log]. intros w. by apply suspend_drift.
Qed.

(** The whole operation, from a fresh start. *)
Lemma relaunch_spec : triple (at_rest initial_locals) (_relaunch_llamacpp env host_env tracking host request)
  (fun _ w => exists m r, committed_ok m r w) (fun _ w => settled w \/ exists m r, committed_ok m r w).
Proof.
  unfold _relaunch_llamacpp. set (P := at_rest initial_locals).
  assert (forall w, P w -> settled w \/ exists m r, committed_ok m r w) as Hi by (intros w [He _]; left; by apply idle_settled).
  assert (stable host P) as HP by (apply (stable_loc_events (fun e l => e = [] /\ l = initial_locals))).
  assert (forall X (m : M X), quiet host m -> triple P m (fun _ => P) (fun _ w => settled w \/ exists m r, committed_ok m r w)) as Hq.
  { intros X m Hm. eapply triple_conseq; [apply (triple_quiet host P m Hm HP)|done|done|]. intros e w. apply Hi. }
  apply (triple_bind _ _ _ (fun _ => P)); [by apply Hq, quiet_clock|]. intros started.
  apply (triple_bind _ _ _ (fun _ => P)); [by apply Hq, quiet_log|]. intros _.
  apply (triple_bind _ _ _ (fun _ => P)); [by apply Hq, quiet_log|]. intros _.
  apply (triple_bind _ _ _ (fun _ => P)); [by apply Hq, quiet_update|]. intros _.
  apply (triple_finally _ _ _ (fun _ w => exists m r, committed_ok m r w) (fun _ => settled)).
  - eapply triple_catch; [apply body_spec|]. intros e. eapply triple_conseq; [apply handler_spec|done|done|done].
  - intros _. eapply triple_conseq; [apply (triple_quiet host (fun w => exists m r, committed_ok m r w) _ finish_quiet)|done|done|by right].
    intros w w' Hd (m & r & Hf & Hs & Hc). exists m, r.
    split_and!; [by eapply stable_faithful|by eapply stable_serves|by eapply stable_in].
  - intros e. eapply triple_conseq; [apply (triple_quiet host settled _ finish_quiet), stable_settled|done|by left|by left].
Qed.
End facts.

(** ** Theorems *)

(** C7: A relaunch does not itself put an unverified engine in rotation.
    Whatever fails, wherever the operation is cancelled and whatever etcd
    answers: as long as other tasks of the gateway do not make the node healthy
    in the registry in the meantime, and nothing raised after the new runtime
    was committed, a node that is healthy in the registry afterwards has an
    engine that was never touched, or one that was verified to serve exactly
    the model and runtime the node records.  (What discovery makes of the record
    in etcd is another matter: see [lost_commit_reply_routes_dead_node].) *)
Theorem relaunch_safe {S E A} `{!Etcd S} (env : Env S E) (host_env : Host A) tracking host request w
  (others_demote : forall t s r, let r' := snd (others env t (s, r)) in get r' host = get r host \/ ~ healthy_entry (get r' host))
  (build_id : forall id d n, build env id d = Some n -> node_id n = id) :
  events w = [] -> loc w = initial_locals ->
  let '(w', r) := _relaunch_llamacpp env host_env tracking host request w in
  is_ok r = true \/ Committed ∉ events w' ->
  forall n, get (reg w') host = Some n -> status n = HEALTHY ->
    events w' = [] \/ exists m runtime, serving (events w') = Some (m, runtime) /\ model n = m /\ llamacpp_runtime n = Some runtime.
Proof.
  intros He Hl. pose proof (relaunch_spec env host_env tracking host request others_demote build_id w (conj He Hl)) as H.
  destruct (_relaunch_llamacpp _ _ _ _ _ w) as [w' [[]|e]]; intros Hc.
  - by destruct H as (m & r & Hf & _).
  - destruct Hc as [Hc|Hc]; [done|]. destruct H as [[[Hin _]|[Hf _]]|(m & r & Hf & _)]; [by destruct Hc|exact Hf|exact Hf].
Qed.

(** C31: A relaunch commits or tries to restore.  When the history database works
    and nobody cancels it, returning means that the new runtime was committed
    and serves; raising after the stop script was sent means that the host
    received the start of the policy the node had before, unless the new runtime
    had already been committed and serves, or that start could not be sent,
    because its draft could not be resolved, the GPU inventory was refused or
    the command failed before it was sent, and then the node is out of
    rotation. *)
Theorem relaunch_restores {S E A} `{!Etcd S} (env : Env S E) (host_env : Host A) tracking host request w
  (others_demote : forall t s r, let r' := snd (others env t (s, r)) in get r' host = get r host \/ ~ healthy_entry (get r' host))
  (build_id : forall id d n, build env id d = Some n -> node_id n = id) :
  events w = [] -> loc w = initial_locals -> (forall t, store_fault env t = None) -> (forall t, cancelled env t = None) ->
  let '(w', r) := _relaunch_llamacpp env host_env tracking host request w in
  let committed := Committed ∈ events w' /\ exists m runtime, serving (events w') = Some (m, runtime) in
  match r with
  | Ok _ => committed
  | Err _ =>
      StopEngine ∈ events w' ->
      committed \/ exists previous runtime, previous_node (loc w') = Some previous /\ llamacpp_runtime previous = Some runtime /\
        (LaunchEngine (ls_requested runtime) ∈ events w' \/
         no_start host_env (ls_requested runtime) /\ ~ healthy_entry (get (reg w') host))
  end.
Proof.
  intros He Hl Hf Hc. pose proof (relaunch_spec env host_env tracking host request others_demote build_id w (conj He Hl)) as H.
  destruct (_relaunch_llamacpp _ _ _ _ _ w) as [w' [[]|e]]; cbn zeta.
  - destruct H as (m & r & _ & Hs & Hin). eauto.
  - intros Hstop. destruct H as [[[_ []]|(_ & _ & H)]|(m & r & _ & Hs & Hin)]; [by split| |left; eauto]. right.
    destruct (H Hstop) as (runtime & Hh & Ht). unfold had in Hh. destruct (previous_node (loc w')) as [previous|]; [|done].
    exists previous, runtime. split_and!; [done|done|]. destruct Ht as [Ht|[Ht|[]]]; [by left|by right|by split].
Qed.

(** ** A node and its surroundings *)

Definition ex_request (cache : LlamaCppCacheType) : LlamaCppRuntimeRequest :=
  {| rq_sizing := SIZING_CUSTOM; rq_fit_target_mib := 1024; rq_context_per_slot := Some 4096; rq_slots := Some 2;
     rq_cache_type := Some cache; rq_allow_estimator_overrun := false; rq_profile := None |}.

Definition ex_runtime (cache : LlamaCppCacheType) : LlamaCppRuntimeState :=
  {| ls_requested := ex_request cache;
     ls_effective := {| le_train_context := 32768; le_context_per_slot := 4096; le_slot_context_limit := 8192; le_slots := 2;
                        le_aggregate_context := 8192; le_cache_type_k := cache; le_cache_type_v := cache; le_flash_attn := FLASH_AUTO;
                        le_kv_unified := true; le_gpu_layers := 33; le_total_layers := 33; le_estimator_overrun_used := false;
                        le_ubatch := None; le_speculative := None |};
     ls_gpus := [{| gs_index := 0; gs_total_mib := 24576; gs_used_mib := 9000; gs_free_mib := 15576 |}];
     ls_observed_at := Aware 0 |}.

Definition ex_node (s : NodeStatus) (m : string) (cache : LlamaCppCacheType) : Node :=
  mkNode "h" "" "http://h:8000" s m LLAMA_CPP (Some "gguf") (Some (ex_runtime cache)) None None default_capabilities 0 true false false "" [] None.

(** The model and the cache type stand for the rest of the record. *)
Definition ex_json (n : Node) : blob :=
  dumps (JObj [("endpoint", JStr (endpoint n)); ("status", JStr (status_value (status n))); ("model", JStr (model n))]).
Definition ex_build (id : string) (d : list (string * json)) : option Node :=
  match dget "status" d, dget "model" d with
  | Some (JStr s), Some (JStr m) =>
      let st := if bool_decide (s = "relaunching") then RELAUNCHING else HEALTHY in
      Some (mkNode id "" "http://h:8000" st m LLAMA_CPP (Some "gguf") (Some (ex_runtime (if bool_decide (m = "new") then Q8_0 else F16)))
              None None default_capabilities 0 true false false "" [] None)
  | _, _ => None
  end.

Definition ex_env (fault : nat -> option string) : Env MapStore unit :=
  {| others := fun _ x => x; cancelled := fun _ => None; store_fault := fault; manifest := fun _ => None; now := fun t => Z.of_nat t;
     connections := fun _ => Some 0; has_store := true; attempt := Some "a1"; task_engine := Some LLAMA_CPP; drain_timeout := 30;
     normalize := Some; build := ex_build; prefix := "/nodes/"; node_json := ex_json; state_dump := fun _ => [] |}.

(** The server starts with the policies [works] accepts. *)
Definition ex_host (works : LlamaCppCacheType -> bool) : Host unit :=
  {| resolve_artifact := fun _ _ => Ok (Some tt); upload_scripts := fun _ => Ok tt; stop_llamacpp := fun _ => Ok tt;
     nvidia_smi := fun _ => Ok [{| ng_index := 0; ng_uuid := "GPU-1"; ng_name := "NVIDIA L4"; ng_total_mib := 23034 |}];
     launch_llamacpp := fun _ _ _ q _ =>
       Sent match rq_cache_type q with
            | Some c => if works c then Ok (if bool_decide (c = Q8_0) then "new" else "old", ex_runtime c) else Err (Raised RemoteError "start failed")
            | None => Err (Raised RemoteError "start failed")
            end;
     diagnostics_cancelled := fun _ => false; finish_cancelled := fun _ => false |}.

Definition ex_world (lose : list bool) : World MapStore unit (Locals unit) :=
  mkWorld 0 (mkStore {["/nodes/h" := mkKV (ex_json (ex_node HEALTHY "old" F16)) 5 7]} 5 lose)
    (mkRegistry [("h", ex_node HEALTHY "old" F16)] []) [] initial_locals.

Definition ex_relaunch fault works lose :=
  _relaunch_llamacpp (ex_env fault) (ex_host works) true "h" (ex_request Q8_0) (ex_world lose).

(** A failure to record history undoes a relaunch that had succeeded.  The new
    runtime was verified, committed to etcd and put back in rotation; then the
    history database fails once, and the handler starts the old policy over the
    running server while the node is in rotation, and commits that. *)
Theorem recorded_failure_undoes_relaunch : exists fault w' e,
  ex_relaunch fault (fun _ => true) [] = (w', Err e) /\
  (exists t text, forall t', fault t' = if Nat.eqb t t' then Some text else None) /\
  events w' = [Serving "old" (ex_runtime F16); LaunchEngine (ex_request F16); Committed; Serving "new" (ex_runtime Q8_0);
               LaunchEngine (ex_request Q8_0); StopEngine] /\
  (status <$> get (reg w') "h") = Some HEALTHY /\ (model <$> get (reg w') "h") = Some "old".
Proof.
  exists (fun t => if Nat.eqb 39 t then Some "disk full" else None). eexists _, _. split; [vm_compute; reflexivity|].
  split; [by exists 39%nat, "disk full"|]. split_and!; vm_compute; reflexivity.
Qed.

(** A lost reply to the commit leaves a record of an engine that does not run.
    etcd has committed the new runtime but the answer is lost; the rollback
    fails to start the old policy, and its guarded writes are refused because
    the record changed.  The registration stays HEALTHY, so discovery puts the
    node back in rotation without a server. *)
Theorem lost_commit_reply_routes_dead_node : exists lose w' e kv n,
  ex_relaunch (fun _ => None) (fun c => bool_decide (c = Q8_0)) lose = (w', Err e) /\
  lookup_kv (db w') "/nodes/h" = Some kv /\ parse_node (ex_env (fun _ => None)) "/nodes/h" (kv_value kv) = Some n /\
  (status <$> get (add_discovered n (reg w')) "h") = Some HEALTHY /\ events w' <> [] /\ serving (events w') = None.
Proof.
  exists (repeat false 6 ++ [true]). eexists _, _, _, _. split; [vm_compute; reflexivity|].
  split_and!; [vm_compute; reflexivity|vm_compute; reflexivity|vm_compute; reflexivity|vm_compute; discriminate|vm_compute; reflexivity].
Qed.

(** ** Witnesses *)

Lemma ex_others fault t (s : MapStore) (r : NodeRegistry unit) : let r' := snd (others (ex_env fault) t (s, r)) in
  get r' "h" = get r "h" \/ ~ healthy_entry (get r' "h").
Proof. by left. Qed.

Lemma ex_env_build_id fault id d n : build (ex_env fault) id d = Some n -> node_id n = id.
Proof. cbn. unfold ex_build. repeat case_match; naive_solver. Qed.

Lemma relaunch_safe_witness : exists n w' e, ex_relaunch (fun _ => None) (fun c => bool_decide (c = F16)) [] = (w', Err e) /\
  get (reg w') "h" = Some n /\
  (events w' = [] \/ exists m runtime, serving (events w') = Some (m, runtime) /\ model n = m /\ llamacpp_runtime n = Some runtime).
Proof.
  pose proof (relaunch_safe (ex_env (fun _ => None)) (ex_host (fun c => bool_decide (c = F16))) true "h" (ex_request Q8_0) (ex_world [])
    (ex_others (fun _ => None)) (ex_env_build_id (fun _ => None)) eq_refl eq_refl) as H.
  unfold ex_relaunch. destruct (_relaunch_llamacpp _ _ _ _ _ _) as [w' r] eqn:Hr. vm_compute in Hr. injection Hr as <- <-.
  eexists _, _, _. split; [reflexivity|]. split; [reflexivity|]. apply H; [right|reflexivity|reflexivity].
  cbn [events]. rewrite !not_elem_of_cons. repeat split; discriminate || apply not_elem_of_nil.
Defined.

Lemma relaunch_restores_witness : exists w' e, ex_relaunch (fun _ => None) (fun _ => false) [] = (w', Err e) /\
  ((Committed ∈ events w' /\ exists m runtime, serving (events w') = Some (m, runtime)) \/
   exists previous runtime, previous_node (loc w') = Some previous /\ llamacpp_runtime previous = Some runtime /\
     (LaunchEngine (ls_requested runtime) ∈ events w' \/
      no_start (ex_host (fun _ => false)) (ls_requested runtime) /\ ~ healthy_entry (get (reg w') "h"))).
Proof.
  pose proof (relaunch_restores (ex_env (fun _ => None)) (ex_host (fun _ => false)) true "h" (ex_request Q8_0) (ex_world [])
    (ex_others (fun _ => None)) (ex_env_build_id (fun _ => None)) eq_refl eq_refl (fun _ => eq_refl) (fun _ => eq_refl)) as H.
  unfold ex_relaunch. destruct (_relaunch_llamacpp _ _ _ _ _ _) as [w' r] eqn:Hr. vm_compute in Hr. injection Hr as <- <-.
  eexists _, _. split; [reflexivity|]. apply H. right. right. left.
Defined.
