(* ===== verification/Provisioner.v ===== *)
(** * Registering, handing over and tearing down nodes
    ([inference_proxy/provisioning/provisioner.py]: [validate_endpoint],
    [register_available], [register_self_setup], [_discover_running_model],
    [_write_node_owner], [_register_node], [remove_available],
    [_resolve_teardown_engine], [_teardown])

    The operations of [ProvisionerOps] again.  The local variables of an
    operation are not needed here; in their place the world carries [E], what
    the registry's removal listeners act on, with the connection tracker and
    the circuit breakers ([forget]). *)

From stdpp Require Import pretty.
From S2P Require Import Prelude PyDict Json NodeModel Registry HealthChecker Etcd Watcher RelaunchRecovery ProvisionerOps.
Local Open Scope Z_scope.

Definition node_of (host endpoint : string) (s : NodeStatus) (m : string) (engine : InferenceEngine) (managed : bool) (owner : string) : Node :=
  mkNode host "" endpoint s m engine None None None None default_capabilities 0 managed false false owner [] None.

(** [model_copy(update={"owner": ..., "placement": ...})] *)
Definition with_owner (o : string) (n : Node) : Node :=
  mkNode (node_id n) (name n) (endpoint n) (status n) (model n) (engine n) (artifact_id n) (llamacpp_runtime n) (vllm_runtime n)
    (last_heartbeat n) (capabilities n) (active_connections n) (managed n) (self_setup n) (admin_only n) o (gpus n)
    (if str_truthy o then None else placement n).

Definition _OPTIONAL_HEALTH_STATUSES : list Z := [404; 405; 501].

(** An answer of the probed server: its status and, when it parses, its body. *)
Inductive Reply := Response (status_code : Z) (body : option json) | TimedOut | HttpError.

Section provisioner.
Context {S E : Type} `{!Etcd S} (env : Env S E) (vllm_port : Z).
(** [tracker.remove(host)] and [cb_registry.remove(host)] *)
Context (forget : string -> E -> E).
Notation M := (@M S E E).
Notation thread := (thread (L := E) (others env) (cancelled env)).
Notation remote := (@remote S E E (others env) _).
Notation _log := (@_log S E E env).

Definition validate_endpoint (host : string) (port : option Z) : M string :=
  let chosen := match port with Some p => if p =? 0 then vllm_port else p | None => vllm_port end in
  match normalize env (host +:+ ":" +:+ pretty chosen) with
  | Some endpoint => ret endpoint
  | None => throw (Raised EndpointValidationError "would create disallowed backend endpoint")
  end.

(** [node_to_etcd] and [etcd_client.put] *)
Definition put_node (n : Node) (lease_id : Z) : M unit := thread (put (node_key env (node_id n)) (node_json env n) lease_id).

Definition register_available (host : string) (port : option Z) (owner : string) : M unit :=
  if is_some port then throw (Raised ValueError "a custom port is only supported for self-setup adoption")
  else
    let! endpoint := validate_endpoint host port in
    let node := node_of host endpoint AVAILABLE "" VLLM false owner in
    put_node node 0 ;!
    modify_reg (add node).

Definition self_setup_error {X} (text : string) : M X := throw (Raised SelfSetupError text).

(** [_discover_running_model]: a missing health endpoint is tolerated, an
    unhealthy one is not. *)
Definition _discover_running_model (health models : nat -> Reply) : M string :=
  let! h := remote (fun t => Ok (health t)) in
  (match h with
   | Response code _ =>
       if (code =? 200) || bool_decide (code ∈ _OPTIONAL_HEALTH_STATUSES) then ret tt
       else self_setup_error "refusing to adopt an explicitly unhealthy server"
   | _ => ret tt
   end) ;!
  let! m := remote (fun t => Ok (models t)) in
  match m with
  | TimedOut => self_setup_error "model discovery timed out"
  | HttpError => self_setup_error "is not reachable"
  | Response code body =>
      if negb (code =? 200) then self_setup_error "OpenAI-compatible model discovery failed"
      else match body with
           | None => self_setup_error "was not valid JSON"
           | Some payload =>
               match served_model_id payload with
               | None => self_setup_error "responded but reported no models"
               | Some id => ret id
               end
           end
  end.

Definition self_setup_node (host name endpoint model : string) (heartbeat : Z) (admin_only : bool) (owner : string) : Node :=
  mkNode host name endpoint HEALTHY model VLLM None None None (Some (Aware heartbeat)) default_capabilities 0 false true admin_only owner [] None.

Definition register_self_setup (host : string) (port : option Z) (owner : string) (admin_only : bool) (name : string)
  (health models : nat -> Reply) : M Node :=
  let! endpoint := validate_endpoint host port in
  let! model := _discover_running_model health models in
  let! heartbeat := wall_clock env in
  let node := self_setup_node host name endpoint model heartbeat admin_only owner in
  put_node node 0 ;!
  modify_reg (add node) ;!
  ret node.

(** The loop of [_write_node_owner] on the record read last. *)
Fixpoint write_owner (attempts : nat) (host owner : string) (record : KV) : M Node :=
  match attempts with
  | O => throw (Raised ProvisioningError "kept changing during owner update")
  | Datatypes.S attempts =>
      match parse_node env (node_key env host) (kv_value record) with
      | None => throw (Raised ProvisioningError "has an invalid etcd registration")
      | Some node =>
          let replacement := with_owner owner node in
          let! revision := thread (replace_if_revision (node_key env host) (node_json env replacement) (kv_mod record) (kv_lease record)) in
          match revision with
          | Some _ => modify_reg (add replacement) ;! ret replacement
          | None =>
              let! fresh := thread (fun s => read_key s (node_key env host)) in
              match fresh with
              | None => throw (Raised ProvisioningError "disappeared during owner update")
              | Some kv => write_owner attempts host owner kv
              end
          end
      end
  end.

Definition _write_node_owner (host owner : string) : M Node :=
  let! record := thread (fun s => read_key s (node_key env host)) in
  match record with
  | None => throw (Raised KeyError host)
  | Some kv => write_owner 3 host owner kv
  end.

(** [_register_node]: without a lease when none can be granted, and never a
    lease that outlives a failed registration. *)
Definition _register_node (node : Node) : M unit :=
  let! lease :=
    if managed node then
      catch_exception (let! l := thread (fun s => lease_grant s) in ret (Some l)) (fun _ => _log ;! ret None)
    else ret None in
  catch_exception (put_node node (default 0 lease))
    (fun e => (match lease with
               | Some l => suppress (thread (fun s => lease_revoke s l) ;! ret tt)
               | None => ret tt
               end) ;! throw e).

(** [self._registry.remove(hostname)], with the listeners. *)
Definition remove_registered (host : string) : M unit := fun w =>
  let '(r, e) := remove host (reg w) (loc w) in (mkWorld (clock w) (db w) r (events w) e, Ok tt).
Definition forget_routing (host : string) : M unit := fun w =>
  (mkWorld (clock w) (db w) (reg w) (events w) (forget host (loc w)), Ok tt).

Definition remove_available (host : string) : M unit :=
  thread (delete (node_key env host)) ;! remove_registered host ;! forget_routing host.

(** The engine to stop: that of the cancelled provision, of the registered
    node, or with [force] the one the operator names; never a guess. *)
Definition _resolve_teardown_engine (host : string) (force : bool) (identity : option InferenceEngine)
  (recovery_engine : option InferenceEngine) : M InferenceEngine :=
  let! r := get_reg in
  let fail text := throw (Raised ProvisioningError text) in
  match identity, get r host, recovery_engine with
  | Some _, _, Some _ => fail "recovery_engine cannot override an active provisioning identity"
  | Some e, _, None => ret e
  | None, Some _, Some _ => fail "recovery_engine cannot override a registered node identity"
  | None, Some n, None => ret (engine n)
  | None, None, Some e => if force then ret e else fail "recovery_engine requires force=true when no node identity exists"
  | None, None, None => fail "Cannot determine the inference engine for unregistered host"
  end.

(** What the host answers during a teardown. *)
Record TeardownHost := mkTeardownHost {
  upload : nat -> result Exn unit;
  stop_engine : nat -> result Exn unit;
  capture_cancelled : nat -> bool;
  finish_cancelled : nat -> bool;
}.
Context (h : TeardownHost) (host : string) (force : bool) (eng : InferenceEngine).

Definition note_step (started : Z) (step : ProvisioningStep) : M unit :=
  _update_state env host step None None None (Some started) true (Some eng) true.

Definition drain_first (started : Z) : M unit :=
  note_step started STEP_DRAINING ;!
  _log ;!
  modify_reg (fun r => fst (drain host r)) ;!
  _drain_wait env ;!
  _log.

Definition deregister (started : Z) : M unit :=
  note_step started DEREGISTERING ;!
  let! r := get_reg in
  let repool := match get r host with Some n => negb (managed n) | None => false end in
  _log ;!
  thread (delete (node_key env host)) ;!
  remove_registered host ;!
  (if repool then register_available host None "" ;! _log else ret tt).

Definition teardown_body (started : Z) : M unit :=
  (if force then ret tt else drain_first started) ;!
  note_step started (if bool_decide (eng = LLAMA_CPP) then STOPPING_LLAMACPP else STOPPING_VLLM) ;!
  _log ;!
  catch_exception (remote (upload h)) (fun _ => _log) ;!
  remote (stop_engine h) ;!
  deregister started ;!
  note_step started TEARDOWN_COMPLETE ;!
  _log.

Definition all_statuses : list NodeStatus :=
  [AVAILABLE; UNKNOWN; PROVISIONING; FAILED; HEALTHY; UNHEALTHY; RELAUNCHING; DRAINING].

Definition teardown_failed (started : Z) (error : Exn) : M unit :=
  _log ;!
  _update_state env host STEP_FAILED (Some "teardown") (Some (exn_text error)) None (Some started) true (Some eng) true ;!
  (fun w => let w := suspend (others env) w in (w, if capture_cancelled h (clock w) then Err Cancelled else Ok tt)) ;!
  modify_reg (fun r => fst (update_status host FAILED all_statuses r)) ;!
  throw error.

Definition _teardown : M unit :=
  let! started := wall_clock env in
  _log ;!                                  (* [_begin_log] *)
  _log ;!
  finally (catch_exception (teardown_body started) (teardown_failed started))
    (fun w => let w := suspend (others env) w in (w, if finish_cancelled h (clock w) then Err Cancelled else Ok tt)).
End provisioner.

(** ** Facts *)

Section etcd.
Context {S : Type} `{!Etcd S, !EtcdLaws S}.

Lemma put_effect k v l (s : S) : let s' := fst (put k v l s) in
  (forall k', k' <> k -> lookup_kv s' k' = lookup_kv s k') /\
  (is_some (snd (put k v l s)) = true -> exists rev, lookup_kv s' k = Some (mkKV v rev l)).
Proof.
  unfold put. pose proof (txn_law s [] (Put k v l)) as Ht. cbn zeta in Ht. destruct (transaction s [] (Put k v l)) as [s' reply].
  cbn in Ht |- *. destruct Ht as [[Hs ->]|(Hw & _ & Hr)]; [done|]. split.
  - intros k' Hk. rewrite Hw. cbn. by rewrite decide_False.
  - intros _. eexists. rewrite Hw. cbn. by rewrite decide_True.
Qed.

Lemma delete_effect k (s : S) : let s' := fst (delete k s) in
  (forall k', k' <> k -> lookup_kv s' k' = lookup_kv s k') /\ (is_some (snd (delete k s)) = true -> lookup_kv s' k = None).
Proof.
  unfold delete. pose proof (txn_law s [] (DeleteKey k)) as Ht. cbn zeta in Ht. destruct (transaction s [] (DeleteKey k)) as [s' reply].
  cbn in Ht |- *. destruct Ht as [[Hs ->]|(Hw & _ & Hr)]; [done|]. split.
  - intros k' Hk. rewrite Hw. cbn. by rewrite decide_False.
  - intros _. rewrite Hw. cbn. by rewrite decide_True.
Qed.
End etcd.

Section facts.
Context {S E : Type} `{!Etcd S, !EtcdLaws S} (env : Env S E) (vllm_port : Z) (host : string).
Notation World := (World S E E).
Notation M := (@M S E E).
Notation key := (node_key env host).
(** Other tasks leave the node alone. *)
Hypothesis others_calm : forall t s r, let x := others env t (s, r) in lookup_kv (fst x) key = lookup_kv s key /\ get (snd x) host = get r host.
Hypothesis key_apart : key <> task_key host.

Definition stored (w : World) : option KV := lookup_kv (db w) key.
Definition registered (w : World) : option Node := get (reg w) host.

(** The node's record and registration stay as they are. *)
Definition calm (w w' : World) : Prop := stored w' = stored w /\ registered w' = registered w.

#[local] Instance calm_preorder : PreOrder calm.
Proof. split; [done|]. intros w1 w2 w3 [H1 H2] [H3 H4]. split; congruence. Qed.

Lemma advance_calm w : calm w (advance w).
Proof. done. Qed.
Lemma suspend_calm w : calm w (suspend (others env) w).
Proof. unfold calm, stored, registered, suspend. pose proof (others_calm (clock w) (db w) (reg w)) as H. by destruct (others env _ _). Qed.

(** A request to etcd and what it did, unless it was cancelled. *)
Lemma thread_spec {A} (call : S -> S * option A) w : exists w1, calm w w1 /\
  let '(w', r) := thread (others env) (cancelled env) call w in
  (w' = w1 /\ r = Err Cancelled) \/
  (db w' = fst (call (db w1)) /\ reg w' = reg w1 /\ events w' = events w1 /\ loc w' = loc w1 /\ (is_ok r = true -> exists a, r = Ok a /\ snd (call (db w1)) = Some a)).
Proof.
  exists (suspend (others env) w). split; [apply suspend_calm|]. unfold thread. set (w1 := suspend (others env) w).
  destruct (call (db w1)) as [s reply] eqn:Hc. destruct (cancelled env (clock w1)) as [[]|]; cbn; [right; by split_and!|by left|right].
  split_and!; try done. destruct reply as [a|]; [by eauto|done].
Qed.

Lemma calm_thread {A} (call : S -> S * option A) : (forall s, lookup_kv (fst (call s)) key = lookup_kv s key) ->
  within calm (thread (others env) (cancelled env) call).
Proof.
  intros Hc w. destruct (thread_spec call w) as (w1 & Hw1 & H). destruct (thread _ _ call w) as [w' r]. cbn.
  destruct H as [[-> _]|(Hd & Hr & _)]; [done|]. etrans; [exact Hw1|]. split; [unfold stored; by rewrite Hd, Hc|unfold registered; by rewrite Hr].
Qed.

Lemma calm_put_task v : within calm (thread (others env) (cancelled env) (put (task_key host) v 0)).
Proof. apply calm_thread. intros s. by apply put_effect. Qed.

Lemma calm_update step failed error resume started keep engine inherit :
  within calm (_update_state env host step failed error resume started keep engine inherit).
Proof. apply within_update; [apply _|apply advance_calm|apply calm_put_task]. Qed.
Lemma calm_log : within calm (_log env).
Proof. apply within_log; [apply _|apply advance_calm]. Qed.
Lemma calm_remote {A} (answer : nat -> result Exn A) : within calm (remote (others env) answer).
Proof. intros w. apply suspend_calm. Qed.
Lemma calm_drain_wait : within calm (_drain_wait env).
Proof. apply within_drain_wait; [apply _|apply advance_calm|]. by apply calm_thread. Qed.

(** The record stays, and so does whether the node is registered. *)
Definition kept (w w' : World) : Prop := stored w' = stored w /\ is_some (registered w') = is_some (registered w).

#[local] Instance kept_preorder : PreOrder kept.
Proof. split; [done|]. intros w1 w2 w3 [H1 H2] [H3 H4]. split; congruence. Qed.

Lemma calm_kept {A} (m : M A) : within calm m -> within kept m.
Proof. intros Hm w. destruct (Hm w) as [H1 H2]. split; [done|by rewrite H2]. Qed.

Section teardown.
Context (h : TeardownHost) (force : bool) (eng : InferenceEngine).

Lemma kept_reg (f : NodeRegistry E -> NodeRegistry E) : (forall r, is_some (get (f r) host) = is_some (get r host)) ->
  within kept (modify_reg f).
Proof. intros Hf w. split; [done|apply Hf]. Qed.

Lemma drain_keeps r : is_some (get (fst (drain host r)) host) = is_some (get (E := E) r host).
Proof. rewrite get_drain. rewrite decide_True by done. by destruct (get r host). Qed.

Lemma drain_first_kept started : within kept (drain_first env host eng started).
Proof.
  apply within_bind; [apply _|apply calm_kept, calm_update|]. intros _. apply within_bind; [apply _|apply calm_kept, calm_log|]. intros _.
  apply within_bind; [apply _|apply kept_reg, drain_keeps|]. intros _.
  apply within_bind; [apply _|apply calm_kept, calm_drain_wait|]. intros _. apply calm_kept, calm_log.
Qed.

(** A teardown whose stop command never succeeds changes neither. *)
Hypothesis stop_fails : forall t, is_ok (stop_engine h t) = false.

Lemma teardown_body_kept started : within kept (teardown_body env vllm_port h host force eng started).
Proof.
  unfold teardown_body. apply within_bind; [apply _|destruct force; [apply within_ret; apply _|apply drain_first_kept]|]. intros _.
  apply within_bind; [apply _|apply calm_kept, calm_update|]. intros _. apply within_bind; [apply _|apply calm_kept, calm_log|]. intros _.
  apply within_bind; [apply _|apply within_catch_exception; [apply _|apply calm_kept, calm_remote|intros e; apply calm_kept, calm_log]|]. intros _ w.
  unfold mbind. pose proof (calm_remote (stop_engine h) w) as Hc. unfold remote in *. set (w1 := suspend (others env) w) in *.
  specialize (stop_fails (clock w1)). destruct (stop_engine h (clock w1)); [done|]. destruct Hc as [H1 H2]. split; [exact H1|]. cbn in *. by rewrite H2.
Qed.

Lemma teardown_failed_kept started e : within kept (teardown_failed env h host eng started e).
Proof.
  unfold teardown_failed. apply within_bind; [apply _|apply calm_kept, calm_log|]. intros _. apply within_bind; [apply _|apply calm_kept, calm_update|]. intros _.
  apply within_bind; [apply _|apply calm_kept; intros w; apply suspend_calm|]. intros _. apply within_bind; [apply _|apply kept_reg|intros _; apply within_throw, _].
  intros r. rewrite get_update_status. destruct (get r host); [|done]. by case_match.
Qed.

Lemma teardown_kept : within kept (_teardown env vllm_port h host force eng).
Proof.
  unfold _teardown. apply within_bind; [apply _|apply calm_kept; intros w; apply advance_calm|]. intros started.
  apply within_bind; [apply _|apply calm_kept, calm_log|]. intros _. apply within_bind; [apply _|apply calm_kept, calm_log|]. intros _ w.
  assert (within kept (catch_exception (teardown_body env vllm_port h host force eng started) (teardown_failed env h host eng started))) as Hk.
  { apply within_catch_exception; [apply _|apply teardown_body_kept|apply teardown_failed_kept]. }
  specialize (Hk w). unfold finally. destruct (catch_exception _ _ w) as [w1 r]. cbn in Hk.
  pose proof (suspend_calm w1) as [H1 H2]. assert (kept w (suspend (others env) w1)) as Hf; [|by destruct (finish_cancelled h _)].
  etrans; [exact Hk|]. split; [done|by rewrite H2].
Qed.

Lemma mbind_fails {A B} (m : M A) (k : A -> M B) w : (forall a w, is_ok (snd (k a w)) = false) -> is_ok (snd (mbind m k w)) = false.
Proof. intros Hk. unfold mbind. destruct (m w) as [w1 [a|e]]; [apply Hk|done]. Qed.

Lemma teardown_raises w : is_ok (snd (_teardown env vllm_port h host force eng w)) = false.
Proof.
  unfold _teardown. apply mbind_fails; intros started ?. do 2 (apply mbind_fails; intros ? ?). unfold finally, catch_exception, catch.
  assert (forall started w, is_ok (snd (teardown_body env vllm_port h host force eng started w)) = false) as Hb.
  { clear started. intros started w'. unfold teardown_body. do 4 (apply mbind_fails; intros ? ?). unfold mbind, remote. set (wx := suspend _ _).
    specialize (stop_fails (clock wx)). by destruct (stop_engine h (clock wx)). }
  match goal with |- context [teardown_body _ _ _ _ _ _ ?s ?w] => specialize (Hb s w); destruct (teardown_body env vllm_port h host force eng s w) as [v [x|e]] end; [done|].
  assert (is_ok (snd ((if is_exception e then teardown_failed env h host eng started e else throw e) v)) = false) as Hh.
  { destruct (is_exception e); [|done]. unfold teardown_failed. by do 4 (apply mbind_fails; intros ? ?). }
  destruct ((if is_exception e then teardown_failed env h host eng started e else throw e) v) as [v' r]. cbn in Hh. by destruct (finish_cancelled h _).
Qed.
End teardown.

(** ** A teardown that succeeds *)

Lemma triple_calm {A} (P : World -> Prop) (m : M A) : within calm m -> (forall w w', calm w w' -> P w -> P w') ->
  triple P m (fun _ => P) (fun _ _ => True).
Proof. intros Hm HP w Hw. specialize (Hm w). destruct (m w) as [w' [a|e]]; [by eapply HP|done]. Qed.

Definition repool (o : option Node) : bool := match o with Some n => negb (managed n) | None => false end.

(** What a teardown leaves of a node. *)
Definition torn_down (again : bool) (w : World) : Prop :=
  if again then exists ep rev, let n := node_of host ep AVAILABLE "" VLLM false "" in
    normalize env (host +:+ ":" +:+ pretty vllm_port) = Some ep /\ stored w = Some (mkKV (node_json env n) rev 0) /\ registered w = Some n
  else stored w = None /\ registered w = None.

Lemma torn_calm again w w' : calm w w' -> torn_down again w -> torn_down again w'.
Proof. intros [H1 H2]. unfold torn_down. by rewrite H1, H2. Qed.

Lemma register_available_spec : triple (fun _ => True) (register_available env vllm_port host None "") (fun _ => torn_down true) (fun _ _ => True).
Proof.
  intros w _. unfold register_available, validate_endpoint, put_node. cbn [is_some is_none negb node_id node_of]. unfold mbind at 1.
  destruct (normalize env _) as [ep|] eqn:Hn; [|done]. cbn [ret]. set (n := node_of host ep AVAILABLE "" VLLM false "").
  unfold mbind. change (node_id n) with host. destruct (thread_spec (put key (node_json env n) 0) w) as (w1 & Hw1 & H).
  destruct (thread _ _ _ w) as [w2 r]. destruct H as [[-> ->]|(Hd & Hr & _ & _ & Hok)]; [done|]. destruct r as [[]|]; [|done].
  destruct (Hok eq_refl) as ([] & _ & Hp). destruct (put_effect key (node_json env n) 0 (db w1)) as [_ Hput]. rewrite Hp in Hput.
  destruct (Hput eq_refl) as [rev Hrev]. exists ep, rev. cbn zeta. split_and!; [done|unfold stored; cbn; by rewrite Hd|].
  unfold registered. cbn [reg modify_reg fst]. change (get (add n (reg w2)) host = Some n). rewrite get_add. by rewrite decide_True.
Qed.

Lemma deregister_spec eng started again : triple (fun w => repool (registered w) = again) (deregister env vllm_port host eng started)
  (fun _ => torn_down again) (fun _ _ => True).
Proof.
  unfold deregister. apply (triple_bind _ _ _ (fun _ w => repool (registered w) = again)).
  { apply triple_calm; [apply calm_update|]. by intros w w' [_ ->]. }
  intros _. apply (triple_bind _ _ _ (fun r w => repool (get r host) = again)); [by intros w Hw|]. intros r.
  change (match get r host with Some n => negb (managed n) | None => false end) with (repool (get r host)).
  apply (triple_bind _ _ _ (fun _ _ => repool (get r host) = again)); [by apply triple_calm; [apply calm_log|]|]. intros _.
  apply (triple_bind _ _ _ (fun _ w => stored w = None /\ repool (get r host) = again)).
  { intros w Hw. destruct (thread_spec (delete key) w) as (w1 & _ & H). destruct (thread _ _ _ w) as [w2 r'].
    destruct H as [[-> ->]|(Hd & _ & _ & _ & Hok)]; [done|]. destruct r' as [[]|]; [|done]. destruct (Hok eq_refl) as ([] & _ & Hp).
    destruct (delete_effect key (db w1)) as [_ Hdel]. rewrite Hp in Hdel. split; [|done]. unfold stored. rewrite Hd. by apply Hdel. }
  intros _. apply (triple_bind _ _ _ (fun _ w => torn_down false w /\ repool (get r host) = again)).
  { intros w [Hs Hw]. unfold remove_registered. pose proof (get_remove host (reg w) (loc w) host) as Hg.
    destruct (remove host (reg w) (loc w)) as [r' e]. cbn in Hg. rewrite decide_True in Hg by done. done. }
  intros _. destruct (repool (get r host)).
  - intros w [_ <-]. apply (triple_bind _ _ _ (fun _ => torn_down true) (fun _ => torn_down true) (fun _ _ => True) register_available_spec); [|done].
    intros _. apply triple_calm; [apply calm_log|apply torn_calm].
  - by intros w [H <-].
Qed.

Lemma teardown_spec h force eng again : triple (fun w => repool (registered w) = again) (_teardown env vllm_port h host force eng)
  (fun _ => torn_down again) (fun _ _ => True).
Proof.
  set (P := fun w => repool (registered w) = again). assert (forall w w', calm w w' -> P w -> P w') as HP by (intros w w' [_ H]; unfold P; by rewrite H).
  unfold _teardown. apply (triple_bind _ _ _ (fun _ => P)); [by apply triple_calm|]. intros started.
  apply (triple_bind _ _ _ (fun _ => P)); [apply triple_calm; [apply calm_log|done]|]. intros _.
  apply (triple_bind _ _ _ (fun _ => P)); [apply triple_calm; [apply calm_log|done]|]. intros _.
  apply (triple_finally _ _ _ (fun _ => torn_down again) (fun _ _ => True)).
  - apply (triple_catch_exception _ _ _ _ (fun _ _ => True)); [|intros e w _|done].
    2:{ unfold teardown_failed. assert (is_ok (snd (teardown_failed env h host eng started e w)) = false) as Hh.
        { unfold teardown_failed. by do 4 (apply mbind_fails; intros ? ?). }
        unfold teardown_failed in Hh. destruct (mbind _ _ w) as [w' [x|e']]; done. }
    unfold teardown_body. apply (triple_bind _ _ _ (fun _ => P)).
    { destruct force; [by intros w Hw|]. unfold drain_first.
      apply (triple_bind _ _ _ (fun _ => P)); [apply triple_calm; [apply calm_update|done]|]. intros _.
      apply (triple_bind _ _ _ (fun _ => P)); [apply triple_calm; [apply calm_log|done]|]. intros _.
      apply (triple_bind _ _ _ (fun _ => P)).
      - intros w Hw. unfold P, registered in *. cbn [reg modify_reg]. rewrite get_drain, decide_True by done. by destruct (get (reg w) host).
      - intros _. apply (triple_bind _ _ _ (fun _ => P)); [apply triple_calm; [apply calm_drain_wait|done]|]. intros _.
        apply triple_calm; [apply calm_log|done]. }
    intros _. apply (triple_bind _ _ _ (fun _ => P)); [apply triple_calm; [apply calm_update|done]|]. intros _.
    apply (triple_bind _ _ _ (fun _ => P)); [apply triple_calm; [apply calm_log|done]|]. intros _.
    apply (triple_bind _ _ _ (fun _ => P)).
    { apply triple_calm; [|done]. apply within_catch_exception; [apply _|apply calm_remote|intros e; apply calm_log]. }
    intros _. apply (triple_bind _ _ _ (fun _ => P)); [apply triple_calm; [apply calm_remote|done]|]. intros _.
    apply (triple_bind _ _ _ (fun _ => torn_down again)); [apply deregister_spec|]. intros _.
    apply (triple_bind _ _ _ (fun _ => torn_down again)); [apply triple_calm; [apply calm_update|apply torn_calm]|]. intros _.
    apply triple_calm; [apply calm_log|apply torn_calm].
  - intros _ w Hw. cbn. destruct (finish_cancelled h _); [done|]. eapply torn_calm; [apply suspend_calm|done].
  - by intros e w _; cbn; destruct (finish_cancelled h _).
Qed.
End facts.

(** ** Registrations *)

Section registrations.
Context {S E : Type} `{!Etcd S, !EtcdLaws S} (env : Env S E) (vllm_port : Z).
Notation World := (World S E E).

(** A request that was answered was sent to the store the others had left. *)
Lemma thread_Ok {A} (call : S -> S * option A) (w w' : World) a :
  thread (others env) (cancelled env) call w = (w', Ok a) ->
  exists s, db w' = fst (call s) /\ snd (call s) = Some a.
Proof.
  unfold thread. set (w1 := suspend (others env) w). intros H. exists (db w1). destruct (call (db w1)) as [s reply].
  destruct (cancelled env (clock w1)) as [[]|]; cbn in H; [done|done|]. injection H as <- H. by destruct reply; [injection H as ->|].
Qed.

Lemma write_owner_spec attempts host owner record w w' n : write_owner env attempts host owner record w = (w', Ok n) ->
  exists s kv node rev, parse_node env (node_key env host) (kv_value kv) = Some node /\ n = with_owner owner node /\
    mod_of s (node_key env host) = kv_mod kv /\
    lookup_kv (db w') (node_key env host) = Some (mkKV (node_json env n) rev (kv_lease kv)) /\
    (forall k, k <> node_key env host -> lookup_kv (db w') k = lookup_kv s k) /\ get (reg w') (node_id n) = Some n.
Proof.
  revert record w. induction attempts as [|attempts IH]; intros record w; cbn [write_owner]; [done|].
  destruct (parse_node _ _ _) as [node|] eqn:Hp; [|done]. unfold mbind at 1.
  destruct (thread _ _ _ w) as [w1 [[rev|]|e]] eqn:Ht; [| |done].
  - cbn. intros [= <- <-]. apply thread_Ok in Ht as (s & Hd & Hr). apply replace_success in Hr as (Hmod & Hl & _ & _ & Ho).
    exists s, record, node, rev. cbn [db]. rewrite Hd. split_and!; try done. cbn [reg]. change (get (add (with_owner owner node) (reg w1)) (node_id (with_owner owner node)) = Some (with_owner owner node)).
    rewrite get_add. by rewrite decide_True.
  - unfold mbind. destruct (thread _ _ _ w1) as [w2 [[kv|]|e]]; [|done|done]. apply IH.
Qed.

Lemma discover_spec health models (w w' : World) id : _discover_running_model env health models w = (w', Ok id) ->
  (exists t payload, models t = Response 200 (Some payload) /\ served_model_id payload = Some id) /\
  exists t, match health t with Response code _ => code = 200 \/ code ∈ _OPTIONAL_HEALTH_STATUSES | _ => True end.
Proof.
  unfold _discover_running_model, mbind, remote, self_setup_error. set (w1 := suspend _ w).
  destruct (health (clock w1)) as [code b| |] eqn:Hh; [destruct ((code =? 200) || _) eqn:Hc; [|done]|..]; cbn; set (w2 := suspend _ w1); intros H;
    (split; [|exists (clock w1); rewrite Hh; try done; apply orb_true_iff in Hc as [Hc|Hc]; bool_to_prop; by auto]);
    (destruct (models (clock w2)) as [code' [payload|]| |] eqn:Hm; try done; try (by destruct (negb _)));
    (destruct (code' =? 200) eqn:Hc'; cbn in H; [|done]); bool_to_prop; subst code';
    (destruct (served_model_id payload) eqn:Hs; [|done]); injection H as _ <-; by eauto.
Qed.
End registrations.

(** ** Theorems *)

(** C14: A node is deregistered only after its engine is verified to have stopped:
    when the stop command does not succeed, a teardown, forced or not, raises,
    the node's record in etcd is as it was and the node stays registered,
    whatever else fails or is cancelled. *)
Theorem teardown_gate {S E} `{!Etcd S, !EtcdLaws S} (env : Env S E) vllm_port h host force eng w
  (others_calm : forall t s r, let x := others env t (s, r) in
     lookup_kv (fst x) (node_key env host) = lookup_kv s (node_key env host) /\ get (snd x) host = get r host)
  (key_apart : node_key env host <> task_key host) :
  (forall t, is_ok (stop_engine h t) = false) ->
  let '(w', r) := _teardown env vllm_port h host force eng w in
  is_ok r = false /\ lookup_kv (db w') (node_key env host) = lookup_kv (db w) (node_key env host) /\
  is_some (get (reg w') host) = is_some (get (reg w) host).
Proof.
  intros Hstop. pose proof (teardown_raises env vllm_port host h force eng Hstop w) as Hr.
  pose proof (teardown_kept env vllm_port host others_calm key_apart h force eng Hstop w) as [H1 H2].
  by destruct (_teardown _ _ _ _ _ _ w) as [w' r].
Qed.

(** A teardown that returns has removed the node from etcd and from the
    registry; a standalone node is back in the pool, available, without owner,
    model or lease, in both places. *)
Theorem teardown_complete {S E} `{!Etcd S, !EtcdLaws S} (env : Env S E) vllm_port h host force eng w w'
  (others_calm : forall t s r, let x := others env t (s, r) in
     lookup_kv (fst x) (node_key env host) = lookup_kv s (node_key env host) /\ get (snd x) host = get r host)
  (key_apart : node_key env host <> task_key host) :
  _teardown env vllm_port h host force eng w = (w', Ok tt) ->
  if match get (reg w) host with Some n => negb (managed n) | None => false end then
    exists ep rev, let n := node_of host ep AVAILABLE "" VLLM false "" in
      normalize env (host +:+ ":" +:+ pretty vllm_port) = Some ep /\
      lookup_kv (db w') (node_key env host) = Some (mkKV (node_json env n) rev 0) /\ get (reg w') host = Some n
  else lookup_kv (db w') (node_key env host) = None /\ get (reg w') host = None.
Proof.
  intros H. pose proof (teardown_spec env vllm_port host others_calm key_apart h force eng _ w eq_refl) as Hs. rewrite H in Hs. exact Hs.
Qed.

(** Handing a node over rewrites exactly its owner.  The new record is the one
    that was read with the owner changed, and without its automatic placement
    when a person takes it; it replaces the revision that was read, keeps the
    lease, touches no other key and is what the registry has, whatever other
    writers do meanwhile. *)
Theorem owner_handover {S E} `{!Etcd S, !EtcdLaws S} (env : Env S E) host owner w w' n :
  _write_node_owner env host owner w = (w', Ok n) ->
  exists s kv node rev, parse_node env (node_key env host) (kv_value kv) = Some node /\ n = with_owner owner node /\
    mod_of s (node_key env host) = kv_mod kv /\
    lookup_kv (db w') (node_key env host) = Some (mkKV (node_json env n) rev (kv_lease kv)) /\
    (forall k, k <> node_key env host -> lookup_kv (db w') k = lookup_kv s k) /\
    get (reg w') (node_id n) = Some n /\ (owner <> "" -> placement n = None).
Proof.
  unfold _write_node_owner, mbind. destruct (thread _ _ _ w) as [w1 [[kv|]|e]]; [|done|done]. intros H.
  apply write_owner_spec in H as (s & kv' & node & rev & H1 & -> & H3 & H4 & H5 & H6). exists s, kv', node, rev. split_and!; try done.
  intros Ho. cbn. by destruct owner.
Qed.

(** Only a server that answers is adopted.  A self-setup registration means the
    server listed the recorded model first and was not reported unhealthy; the
    node is unmanaged, stored without a lease, and the registry has it. *)
Theorem adoption_verified {S E} `{!Etcd S, !EtcdLaws S} (env : Env S E) vllm_port host port owner admin_only name health models w w' n :
  register_self_setup env vllm_port host port owner admin_only name health models w = (w', Ok n) ->
  (exists t payload, models t = Response 200 (Some payload) /\ served_model_id payload = Some (model n)) /\
  (exists t, match health t with Response code _ => code = 200 \/ code ∈ _OPTIONAL_HEALTH_STATUSES | _ => True end) /\
  managed n = false /\ self_setup n = true /\ status n = HEALTHY /\ node_id n = host /\ get (reg w') host = Some n /\
  exists rev, lookup_kv (db w') (node_key env host) = Some (mkKV (node_json env n) rev 0).
Proof.
  unfold register_self_setup, mbind at 1, validate_endpoint. destruct (normalize env _) as [ep|]; [|done]. cbn [ret]. unfold mbind at 1.
  destruct (_discover_running_model env health models w) as [w1 [id|e]] eqn:Hd; [|done]. apply discover_spec in Hd as [Hm Hh].
  unfold mbind at 1, wall_clock. cbv beta iota zeta. set (node := self_setup_node _ _ _ _ _ _ _). unfold mbind at 1, put_node.
  destruct (thread _ _ _ _) as [w2 [[]|e]] eqn:Ht; [|done]. intros [= <- <-]. apply thread_Ok in Ht as (s & Hdb & Hr).
  split_and!; try done.
  - cbn [reg]. change (get (add node (reg w2)) host = Some node). rewrite get_add. by rewrite decide_True.
  - destruct (put_effect (node_key env (node_id node)) (node_json env node) 0 s) as [_ Hp]. rewrite Hr in Hp. destruct (Hp eq_refl) as [rev Hl].
    exists rev. cbn [db]. rewrite Hdb. exact Hl.
Qed.

(** ** A node on a small store *)

Definition ex_env : Env MapStore unit :=
  {| others := fun _ x => x; cancelled := fun _ => None; store_fault := fun _ => None; manifest := fun _ => None; now := fun t => Z.of_nat t;
     connections := fun _ => Some 0; has_store := true; attempt := Some "a1"; task_engine := None; drain_timeout := 30;
     normalize := Some; build := fun id d => Some (node_of id "http://h:8000" HEALTHY "m" VLLM true ""); prefix := "/nodes/";
     node_json := fun n => dumps (JObj [("endpoint", JStr (endpoint n)); ("owner", JStr (owner n))]); state_dump := fun _ => [] |}.

Definition ex_world (n : Node) : World MapStore unit unit :=
  mkWorld 0 (mkStore {["/nodes/h" := mkKV (node_json ex_env n) 5 7]} 5 []) (mkRegistry [("h", n)] []) [] tt.

Definition ex_teardown_host (stops : bool) : TeardownHost :=
  {| upload := fun _ => Ok tt; stop_engine := fun _ => if stops then Ok tt else Err (Raised RemoteError "still running");
     capture_cancelled := fun _ => false; finish_cancelled := fun _ => false |}.

Definition ex_managed (s : NodeStatus) : Node := node_of "h" "http://h:8000" s "m" LLAMA_CPP true "".

(** A failed graceful teardown turns the teardown-only state of a failed
    relaunch into FAILED, from which setup may be retried: draining has already
    replaced RELAUNCH_FAILED when the handler checks for it. *)
Theorem failed_teardown_loses_relaunch_state : exists w' e,
  _teardown ex_env 8000 (ex_teardown_host false) "h" false LLAMA_CPP (ex_world (ex_managed RELAUNCH_FAILED)) = (w', Err e) /\
  (status <$> get (reg w') "h") = Some FAILED /\
  exists w'' e', _teardown ex_env 8000 (ex_teardown_host false) "h" true LLAMA_CPP (ex_world (ex_managed RELAUNCH_FAILED)) = (w'', Err e') /\
    (status <$> get (reg w'') "h") = Some RELAUNCH_FAILED.
Proof.
  eexists _, _. split; [vm_compute; reflexivity|]. split; [vm_compute; reflexivity|].
  eexists _, _. split; vm_compute; reflexivity.
Qed.

Lemma ex_calm t (s : MapStore) (r : NodeRegistry unit) : let x := others ex_env t (s, r) in
  lookup_kv (fst x) (node_key ex_env "h") = lookup_kv s (node_key ex_env "h") /\ get (snd x) "h" = get r "h".
Proof. done. Qed.

Lemma ex_apart : node_key ex_env "h" <> task_key "h".
Proof. vm_compute. discriminate. Qed.

Lemma teardown_gate_witness : exists w' r,
  _teardown ex_env 8000 (ex_teardown_host false) "h" true LLAMA_CPP (ex_world (ex_managed HEALTHY)) = (w', r) /\
  is_ok r = false /\ lookup_kv (db w') "/nodes/h" = Some (mkKV (node_json ex_env (ex_managed HEALTHY)) 5 7).
Proof.
  pose proof (teardown_gate ex_env 8000 (ex_teardown_host false) "h" true LLAMA_CPP (ex_world (ex_managed HEALTHY)) ex_calm ex_apart
    (fun _ => eq_refl)) as H.
  destruct (_teardown _ _ _ _ _ _ _) as [w' r]. exists w', r. destruct H as (H1 & H2 & _). split; [reflexivity|]. split; [exact H1|exact H2].
Defined.

Lemma teardown_complete_witness : exists w',
  _teardown ex_env 8000 (ex_teardown_host true) "h" false LLAMA_CPP (ex_world (ex_managed HEALTHY)) = (w', Ok tt) /\
  lookup_kv (db w') (node_key ex_env "h") = None /\ get (reg w') "h" = None.
Proof.
  eexists. split; [vm_compute; reflexivity|].
  apply (teardown_complete ex_env 8000 (ex_teardown_host true) "h" false LLAMA_CPP (ex_world (ex_managed HEALTHY)) _ ex_calm ex_apart).
  vm_compute. reflexivity.
Defined.

Lemma owner_handover_witness : exists w' n, _write_node_owner ex_env "h" "ann" (ex_world (ex_managed HEALTHY)) = (w', Ok n) /\
  exists s kv node rev, parse_node ex_env (node_key ex_env "h") (kv_value kv) = Some node /\ n = with_owner "ann" node /\
    mod_of (S := MapStore) s (node_key ex_env "h") = kv_mod kv /\
    lookup_kv (db w') (node_key ex_env "h") = Some (mkKV (node_json ex_env n) rev (kv_lease kv)) /\
    (forall k, k <> node_key ex_env "h" -> lookup_kv (db w') k = lookup_kv s k) /\
    get (reg w') (node_id n) = Some n /\ ("ann" <> "" -> placement n = None).
Proof.
  eexists _, _. split; [vm_compute; reflexivity|].
  apply (owner_handover ex_env "h" "ann" (ex_world (ex_managed HEALTHY))). vm_compute. reflexivity.
Defined.

Lemma adoption_verified_witness : exists w' n,
  register_self_setup ex_env 8000 "h" None "ann" false "" (fun _ => Response 404 None)
    (fun _ => Response 200 (Some (JObj [("data", JList [JObj [("id", JStr " m ")]])]))) (ex_world (ex_managed UNKNOWN)) = (w', Ok n) /\
  model n = "m" /\ get (reg w') "h" = Some n.
Proof.
  eexists _, _. split; [vm_compute; reflexivity|]. split; [reflexivity|].
  apply (adoption_verified ex_env 8000 "h" None "ann" false "" (fun _ => Response 404 None)
    (fun _ => Response 200 (Some (JObj [("data", JList [JObj [("id", JStr " m ")]])]))) (ex_world (ex_managed UNKNOWN))).
  vm_compute. reflexivity.
Defined.
