(* ===== verification/Background.v ===== *)
(** * Background operations
    ([inference_proxy/provisioning/provisioner.py]: [fire_background],
    [active_provision], [cancel_provision], [cancel_active_provision],
    [shutdown])

    Tasks of the event loop with the table of provisioning operations by host.
    A task is created, may begin, and finishes; its callback runs some time
    after it has finished.  The parts of a method between two awaits are single
    steps, and every interleaving of them is a sequence of steps. *)

From S2P Require Import Prelude NodeModel.
Local Open Scope nat_scope.

Inductive BackgroundOperation := PROVISION | RELAUNCH.
Definition ProvisioningIdentity : Type := InferenceEngine * option string.

#[export] Instance BackgroundOperation_eq : EqDecision BackgroundOperation.
Proof. solve_decision. Defined.

(** An [asyncio.Task]: whether its coroutine has begun, whether it is done and
    then whether it was cancelled, whether a cancellation is pending, and the
    host its callback was created for. *)
Record Task := mkTask {
  began : bool;
  outcome : option bool;
  cancelling : bool;
  for_host : option string;
}.

Definition done (t : Task) : bool := is_some (outcome t).

(** A record of [_provisioning_tasks]; [started] is [began] of its task. *)
Record ProvisioningTask := mkRecord {
  task : nat;
  identity : ProvisioningIdentity;
  operation : BackgroundOperation;
}.

#[export] Instance ProvisioningTask_eq : EqDecision ProvisioningTask.
Proof. solve_decision. Defined.

Record State := mkState {
  tasks : gmap nat Task;
  _provisioning_tasks : gmap string ProvisioningTask;
  _background_tasks : gset nat;
  _explicit_cancel_tasks : gset nat;
}.

Inductive FireError := AlreadyActive | ProvisioningCapacityError (active limit : nat).
Inductive CancelError := ProvisioningOperationChangedError | SwallowedCancellation.

Definition task_done (st : State) (id : nat) : bool := match tasks st !! id with Some t => done t | None => true end.
Definition record_active (st : State) (r : ProvisioningTask) : bool := negb (task_done st (task r)).

Definition active_count (st : State) : nat :=
  length (List.filter (fun kv => record_active st (snd kv)) (map_to_list (_provisioning_tasks st))).

Definition fresh_task (st : State) : nat := fresh (dom (tasks st)).

Section background.
Context (max_concurrent_provisions : nat).

(** [provisioning] is the host with its identity, or [None] for teardown and
    other cleanup; returns the new task. *)
Definition fire_background (provisioning : option (string * ProvisioningIdentity)) (op : BackgroundOperation) (st : State)
  : result FireError (State * nat) :=
  let id := fresh_task st in
  let create host table :=
    Ok (mkState (<[id := mkTask false None false host]> (tasks st)) table (_background_tasks st ∪ {[id]}) (_explicit_cancel_tasks st), id) in
  match provisioning with
  | None => create None (_provisioning_tasks st)
  | Some (host, who) =>
      if match _provisioning_tasks st !! host with Some r => record_active st r | None => false end then Err AlreadyActive
      else
        let active := active_count st in
        if max_concurrent_provisions <=? active then Err (ProvisioningCapacityError active max_concurrent_provisions)
        else create (Some host) (<[host := mkRecord id who op]> (_provisioning_tasks st))
  end.

(** The callback [_task_done]: only its own record leaves the table. *)
Definition _task_done (id : nat) (t : Task) (st : State) : State :=
  mkState (tasks st)
    (match for_host t with
     | Some host =>
         match _provisioning_tasks st !! host with
         | Some r => if bool_decide (task r = id) then base.delete host (_provisioning_tasks st) else _provisioning_tasks st
         | None => _provisioning_tasks st
         end
     | None => _provisioning_tasks st
     end)
    (_background_tasks st ∖ {[id]}) (_explicit_cancel_tasks st).

Definition set_task (id : nat) (t : Task) (st : State) : State :=
  mkState (<[id := t]> (tasks st)) (_provisioning_tasks st) (_background_tasks st) (_explicit_cancel_tasks st).

Definition active_provision (host : string) (st : State) : option ProvisioningTask :=
  match _provisioning_tasks st !! host with
  | Some r => if record_active st r && bool_decide (operation r = PROVISION) then Some r else None
  | None => None
  end.

(** [Task.cancel]; nothing on a task that is done. *)
Definition cancel (t : Task) : Task := if done t then t else mkTask (began t) (outcome t) true (for_host t).

(** [cancel_provision] up to its await: the check and the cancellation. *)
Definition cancel_provision (host : string) (r : ProvisioningTask) (st : State) : result CancelError State :=
  if bool_decide (active_provision host st = Some r) then
    Ok (mkState (alter cancel (task r) (tasks st)) (_provisioning_tasks st)
          (_background_tasks st) (_explicit_cancel_tasks st ∪ {[task r]}))
  else Err ProvisioningOperationChangedError.

(** ... its [finally] once the task is done, *)
Definition cancel_finished (r : ProvisioningTask) (st : State) : State :=
  mkState (tasks st) (_provisioning_tasks st) (_background_tasks st) (_explicit_cancel_tasks st ∖ {[task r]}).

(** ... and what it returns: the identity, and whether it must write the failed
    state itself because the coroutine never began. *)
Definition cancel_outcome (r : ProvisioningTask) (st : State) : result CancelError (ProvisioningIdentity * bool) :=
  match tasks st !! task r with
  | Some t => if bool_decide (outcome t = Some true) then Ok (identity r, negb (began t)) else Err SwallowedCancellation
  | None => Err SwallowedCancellation
  end.

Definition shutdown (st : State) : State :=
  mkState (map_imap (fun id t => Some (if bool_decide (id ∈ _background_tasks st) then cancel t else t)) (tasks st))
    (_provisioning_tasks st) (_background_tasks st) (_explicit_cancel_tasks st).

(** One step of the event loop or of a caller. *)
Inductive step : State -> State -> Prop :=
| step_fire p op st st' id : fire_background p op st = Ok (st', id) -> step st st'
| step_begin id t st : tasks st !! id = Some t -> done t = false -> began t = false -> cancelling t = false ->
    step st (set_task id (mkTask true None false (for_host t)) st)
| step_finish id t st b : tasks st !! id = Some t -> done t = false -> (began t = true \/ cancelling t = true) ->
    (began t = false -> b = true) -> step st (set_task id (mkTask (began t) (Some b) (cancelling t) (for_host t)) st)
| step_callback id t st : tasks st !! id = Some t -> done t = true -> step st (_task_done id t st)
| step_cancel host r st st' : cancel_provision host r st = Ok st' -> step st st'
| step_cancelled r st : task_done st (task r) = true -> step st (cancel_finished r st)
| step_shutdown st : step st (shutdown st).

Definition initial : State := mkState ∅ ∅ ∅ ∅.
Definition reachable (st : State) : Prop := rtc step initial st.
End background.

(** ** Invariant *)

Section invariant.
Context (limit : nat).
Notation step := (step limit).
Notation reachable := (reachable limit).

(** The tasks of provisioning operations that are not done. *)
Definition unfinished (st : State) : gset nat :=
  dom (filter (fun kv => done (snd kv) = false /\ is_some (for_host (snd kv)) = true) (tasks st)).

Record inv (st : State) : Prop := {
  inv_record : forall host r, _provisioning_tasks st !! host = Some r ->
    exists t, tasks st !! task r = Some t /\ for_host t = Some host;
  inv_listed : forall id t host, tasks st !! id = Some t -> for_host t = Some host -> done t = false ->
    exists r, _provisioning_tasks st !! host = Some r /\ task r = id;
  inv_background : forall id t, tasks st !! id = Some t -> done t = false -> id ∈ _background_tasks st;
  inv_capacity : active_count st <= limit;
}.

(** Fewer records, or tasks that have come further, are not more active ones. *)
Definition active_records (st : State) : list (string * ProvisioningTask) :=
  List.filter (fun kv => record_active st (snd kv)) (map_to_list (_provisioning_tasks st)).

Lemma active_NoDup st : NoDup (active_records st).*1.
Proof.
  apply (sublist_NoDup _ (map_to_list (_provisioning_tasks st)).*1); [apply NoDup_fst_map_to_list|].
  apply fmap_sublist, filter_sublist_bool.
Qed.

Lemma active_elem st host r : (host, r) ∈ active_records st <-> _provisioning_tasks st !! host = Some r /\ record_active st r = true.
Proof. unfold active_records. rewrite list_elem_of_In, List.filter_In, <- list_elem_of_In, elem_of_map_to_list. done. Qed.

Lemma active_mono st st' : (forall host r, _provisioning_tasks st' !! host = Some r -> record_active st' r = true ->
    exists r', _provisioning_tasks st !! host = Some r' /\ record_active st r' = true) -> active_count st' <= active_count st.
Proof.
  intros H. unfold active_count. fold (active_records st) (active_records st').
  rewrite <- (length_fmap fst (active_records st)), <- (length_fmap fst (active_records st')).
  apply submseteq_length, NoDup_submseteq; [apply active_NoDup|]. intros host [[h r] [-> Hin]]%list_elem_of_fmap.
  apply active_elem in Hin as [H1 H2]. destruct (H _ _ H1 H2) as (r' & H3 & H4). apply list_elem_of_fmap. exists (h, r'). split; [done|]. by apply active_elem.
Qed.

Lemma task_done_insert st id t id' table bg ex : task_done (mkState (<[id := t]> (tasks st)) table bg ex) id' = if decide (id' = id) then done t else task_done st id'.
Proof. unfold task_done. cbn. rewrite lookup_insert. repeat case_decide; subst; done || congruence. Qed.

Lemma fresh_not_known st : tasks st !! fresh_task st = None.
Proof. apply not_elem_of_dom. unfold fresh_task. apply is_fresh. Qed.

(** A step that changes one task, which stays of its host and does not become
    undone. *)
Lemma inv_set_task id t t' st : inv st -> tasks st !! id = Some t -> for_host t' = for_host t -> (done t = true -> done t' = true) ->
  inv (set_task id t' st).
Proof.
  intros [H1 H2 H3 H4] Ht Hh Hd. unfold set_task. split; cbn.
  - intros host r Hr. destruct (H1 host r Hr) as (u & Hu & Hhost). rewrite lookup_insert. case_decide as He; [|by eauto].
    rewrite <- He, Ht in Hu. injection Hu as <-. exists t'. by rewrite Hh.
  - intros id' u host. rewrite lookup_insert. case_decide as He; [|by apply H2]. intros [= <-] Hhost Hdone. subst id'.
    apply (H2 id t host Ht); [by rewrite <- Hh|]. destruct (done t); [|done]. by rewrite Hd in Hdone.
  - intros id' u. rewrite lookup_insert. case_decide as He; [|by apply H3]. intros [= <-] Hdone. subst id'.
    apply (H3 id t Ht). destruct (done t); [|done]. by rewrite Hd in Hdone.
  - etrans; [|exact H4]. apply active_mono. cbn. intros host r Hr Ha. exists r. split; [done|]. unfold record_active in *.
    rewrite task_done_insert in Ha. case_decide as He; [|done]. rewrite He. unfold task_done. rewrite Ht. destruct (done t); [|done]. by rewrite Hd in Ha.
Qed.

Lemma inv_fire p op st st' id : inv st -> fire_background limit p op st = Ok (st', id) -> inv st'.
Proof.
  intros [H1 H2 H3 H4]. pose proof (fresh_not_known st) as Hf. unfold fire_background. set (new := fresh_task st) in *.
  assert (forall host r, _provisioning_tasks st !! host = Some r -> task r <> new) as Hne.
  { intros host r Hr He. destruct (H1 host r Hr) as (u & Hu & _). rewrite He, Hf in Hu. done. }
  assert (forall r table bg ex t, task r <> new -> record_active (mkState (<[new := t]> (tasks st)) table bg ex) r = record_active st r) as Hact.
  { intros r table bg ex t Hr. unfold record_active. rewrite task_done_insert. by rewrite decide_False. }
  destruct p as [[host who]|].
  - destruct (match _provisioning_tasks st !! host with Some r => record_active st r | None => false end) eqn:Hcur; [done|].
    destruct (limit <=? active_count st) eqn:Hcap; [done|]. apply Nat.leb_gt in Hcap. intros [= <- <-]. split; cbn.
    + intros h r. rewrite lookup_insert. case_decide as He; [intros [= <-]; subst h; exists (mkTask false None false (Some host)); cbn; by rewrite lookup_insert_eq|].
      intros Hr. destruct (H1 h r Hr) as (u & Hu & Hh). exists u. rewrite lookup_insert_ne; [done|]. intros Heq. by apply (Hne h r Hr).
    + intros id t h. rewrite lookup_insert. case_decide as He.
      { intros [= <-] [= <-] _. subst id. exists (mkRecord new who op). by rewrite lookup_insert_eq. }
      intros Ht Hh Hd. destruct (H2 id t h Ht Hh Hd) as (r & Hr & Htask). exists r. split; [|done]. rewrite lookup_insert_ne; [done|].
      intros ->. rewrite Hr in Hcur. unfold record_active, task_done in Hcur. by rewrite Htask, Ht, Hd in Hcur.
    + intros id t. rewrite lookup_insert. case_decide as He; [subst; set_solver|]. intros Ht Hd. apply elem_of_union_l. by apply (H3 id t).
    + match goal with |- active_count ?s <= _ => assert (active_count s <= S (active_count st)) as Hle; [|lia]; set (st1 := s) end.
      unfold active_count. fold (active_records st) (active_records st1).
      rewrite <- (length_fmap fst (active_records st)), <- (length_fmap fst (active_records st1)).
      change (S (length (active_records st).*1)) with (length (host :: (active_records st).*1)).
      apply submseteq_length, NoDup_submseteq; [apply active_NoDup|]. intros h [[h' r] [-> Hin]]%list_elem_of_fmap.
      apply active_elem in Hin as [Hr Ha]. cbn in *. rewrite lookup_insert in Hr. case_decide as He; [subst; by left|right].
      apply list_elem_of_fmap. exists (h', r). split; [done|]. apply active_elem. split; [done|]. unfold st1 in Ha. rewrite Hact in Ha; [done|by eapply Hne].
  - intros [= <- <-]. split; cbn.
    + intros h r Hr. destruct (H1 h r Hr) as (u & Hu & Hh). exists u. rewrite lookup_insert_ne; [done|]. intros Heq. by apply (Hne h r Hr).
    + intros id t h. rewrite lookup_insert. case_decide as He; [by intros [= <-]|]. apply H2.
    + intros id t. rewrite lookup_insert. case_decide as He; [subst; set_solver|]. intros Ht Hd. apply elem_of_union_l. by apply (H3 id t).
    + etrans; [|exact H4]. apply active_mono. cbn. intros host r Hr Ha. exists r. split; [done|]. rewrite Hact in Ha; [done|by eapply Hne].
Qed.

Lemma inv_callback id t st : inv st -> tasks st !! id = Some t -> done t = true -> inv (_task_done id t st).
Proof.
  intros [H1 H2 H3 H4] Ht Hd. unfold _task_done.
  set (table := match for_host t with Some host => _ | None => _ end).
  assert (forall h r, table !! h = Some r -> _provisioning_tasks st !! h = Some r) as Hsub.
  { intros h r. unfold table. destruct (for_host t) as [host|]; [|done]. destruct (_provisioning_tasks st !! host) as [r0|] eqn:Hr; [|done].
    case_bool_decide; [|done]. rewrite lookup_delete_Some. by intros [_ ?]. }
  assert (forall h r, _provisioning_tasks st !! h = Some r -> task r <> id -> table !! h = Some r) as Hkeep.
  { intros h r Hr Hne. unfold table. destruct (for_host t) as [host|]; [|done]. destruct (_provisioning_tasks st !! host) as [r0|] eqn:Hr0; [|done].
    case_bool_decide as He; [|done]. rewrite lookup_delete_Some. split; [|done]. intros ->. rewrite Hr in Hr0. by injection Hr0 as ->. }
  split; cbn.
  - intros host r Hr. by apply H1, Hsub.
  - intros id' u host Hu Hh Hdone. destruct (H2 id' u host Hu Hh Hdone) as (r & Hr & Htask). exists r. split; [|done].
    apply Hkeep; [done|]. intros He. rewrite <- Htask, He, Ht in Hu. injection Hu as <-. congruence.
  - intros id' u Hu Hdone. apply elem_of_difference. split; [by apply (H3 id' u)|]. rewrite elem_of_singleton. intros ->.
    rewrite Ht in Hu. injection Hu as <-. congruence.
  - etrans; [|exact H4]. apply active_mono. cbn. intros host r Hr Ha. exists r. split; [by apply Hsub|done].
Qed.

(** Marking tasks as being cancelled. *)
Lemma inv_mark (f : nat -> Task -> Task) st ex : inv st -> (forall id t, outcome (f id t) = outcome t /\ for_host (f id t) = for_host t) ->
  inv (mkState (map_imap (fun id t => Some (f id t)) (tasks st)) (_provisioning_tasks st) (_background_tasks st) ex).
Proof.
  intros [H1 H2 H3 H4] Hf. assert (forall id t, map_imap (fun id t => Some (f id t)) (tasks st) !! id = Some t ->
    exists u, tasks st !! id = Some u /\ outcome t = outcome u /\ for_host t = for_host u) as Hback.
  { intros id t. rewrite map_lookup_imap. destruct (tasks st !! id) as [u|]; [|done]. intros [= <-]. exists u. destruct (Hf id u). done. }
  split; cbn.
  - intros host r Hr. destruct (H1 host r Hr) as (t & Ht & Hh). exists (f (task r) t). rewrite map_lookup_imap, Ht. destruct (Hf (task r) t) as [_ Hff].
    split; [done|by rewrite Hff].
  - intros id t host Ht Hh Hd. apply Hback in Ht as (u & Hu & Ho & Hhu). apply (H2 id u host Hu); [by rewrite <- Hhu|]. unfold done in *. by rewrite <- Ho.
  - intros id t Ht Hd. apply Hback in Ht as (u & Hu & Ho & _). apply (H3 id u Hu). unfold done in *. by rewrite <- Ho.
  - etrans; [|exact H4]. apply active_mono. cbn. intros host r Hr Ha. exists r. split; [done|]. unfold record_active, task_done in *. cbn in Ha.
    rewrite map_lookup_imap in Ha. destruct (tasks st !! task r) as [u|]; [|done]. cbn in Ha. unfold done in *. by rewrite (proj1 (Hf (task r) u)) in Ha.
Qed.

Lemma cancel_same t : outcome (cancel t) = outcome t /\ for_host (cancel t) = for_host t.
Proof. unfold cancel. by destruct (done t). Qed.

Lemma inv_explicit st ex : inv st -> inv (mkState (tasks st) (_provisioning_tasks st) (_background_tasks st) ex).
Proof. intros [H1 H2 H3 H4]. by split. Qed.

Lemma step_inv st st' : step st st' -> inv st -> inv st'.
Proof.
  destruct 1 as [p op st st' id Hf|id t st Ht Hd Hb Hc|id t st b Ht Hd Hb Hc|id t st Ht Hd|host r st st' Hc|r st Hd|st]; intros Hi.
  - by eapply inv_fire.
  - eapply inv_set_task; [done|done|done|congruence].
  - by eapply inv_set_task.
  - by apply inv_callback.
  - unfold cancel_provision in Hc. case_bool_decide; [|done]. injection Hc as <-.
    pose proof (inv_mark (fun id t => if decide (id = task r) then cancel t else t) st
      (_explicit_cancel_tasks st ∪ {[task r]}) Hi) as H'. assert (alter cancel (task r) (tasks st) =
      map_imap (fun id t => Some (if decide (id = task r) then cancel t else t)) (tasks st)) as ->.
    { apply map_eq. intros i. rewrite map_lookup_imap, lookup_alter. destruct (tasks st !! i) eqn:Hti; case_decide; subst; rewrite ?Hti; cbn; try rewrite decide_True by done; try rewrite decide_False by congruence; done. }
    apply H'. intros id t. case_decide; [apply cancel_same|done].
  - by apply inv_explicit.
  - apply (inv_mark (fun id t => if bool_decide (id ∈ _background_tasks st) then cancel t else t)); [done|].
    intros id t. case_bool_decide; [apply cancel_same|done].
Qed.

Lemma reachable_inv st : reachable st -> inv st.
Proof.
  intros H. unfold reachable in H. assert (inv initial) as H0.
  { split; cbn; [by intros ? ? ?%lookup_empty_Some|by intros ? ? ? ?%lookup_empty_Some|by intros ? ? ?%lookup_empty_Some|unfold active_count; cbn [_provisioning_tasks initial]; rewrite map_to_list_empty; cbn; lia]. }
  revert H0. induction H as [|st1 st2 st3 Hs _ IH]; [done|]. intros H1. apply IH. by eapply step_inv.
Qed.

Lemma unfinished_bound st : inv st -> size (unfinished st) <= active_count st.
Proof.
  intros [H1 H2 H3 _]. unfold active_count. fold (active_records st). rewrite <- (length_fmap (fun kv => task (snd kv)) (active_records st)).
  unfold size, set_size. cbn. apply submseteq_length, NoDup_submseteq; [apply NoDup_elements|].
  intros id Hid. apply elem_of_elements in Hid. unfold unfinished in Hid. apply elem_of_dom in Hid as [t Ht]. apply map_lookup_filter_Some in Ht as (Ht & Hd & Hh). cbn in Hd, Hh.
  destruct (for_host t) as [host|] eqn:Hhost; [|done]. destruct (H2 id t host Ht Hhost Hd) as (r & Hr & Htask).
  apply list_elem_of_fmap. exists (host, r). split; [done|]. apply active_elem. split; [done|]. unfold record_active, task_done. by rewrite Htask, Ht, Hd.
Qed.
End invariant.

(** A task that is done stays done, whatever happens. *)
Lemma done_set_task limit id0 t0 st st' : step limit st st' -> tasks st !! id0 = Some t0 -> done t0 = true -> exists t', tasks st' !! id0 = Some t' /\ done t' = true.
Proof.
  intros Hs Ht0 Hd0. pose proof (fresh_not_known st) as Hf. revert Ht0 Hd0 Hf.
  destruct Hs as [p op st st' id H|id t st Ht Hd Hb Hc|id t st b Ht Hd Hb Hc|id t st Ht Hd|host r st st' H|r st Hd|st]; intros Ht0 Hd0 Hf; cbn; eauto.
  - unfold fire_background in H. destruct p as [[h w]|]; repeat case_match; try done; injection H as <- <-; cbn; exists t0; rewrite lookup_insert_ne by congruence; done.
  - exists t0. rewrite lookup_insert_ne by congruence. done.
  - exists t0. rewrite lookup_insert_ne by congruence. done.
  - unfold cancel_provision in H. case_bool_decide; [|done]. injection H as <-. cbn. rewrite lookup_alter. case_decide as He; [|by eauto]. rewrite He, Ht0.
    exists (cancel t0). split; [done|]. unfold cancel. by rewrite Hd0.
  - rewrite map_lookup_imap, Ht0. cbn. eexists. split; [done|]. case_bool_decide; [|done]. unfold cancel. by rewrite Hd0.
Qed.

Lemma done_stays limit id0 t0 st st' : rtc (step limit) st st' -> tasks st !! id0 = Some t0 -> done t0 = true -> exists t', tasks st' !! id0 = Some t' /\ done t' = true.
Proof.
  intros H. revert t0. induction H as [|st1 st2 st3 Hs _ IH]; [eauto|]. intros t0 Ht Hd. destruct (done_set_task _ _ _ _ _ Hs Ht Hd) as (t' & Ht' & Hd'). by eapply IH.
Qed.

(** ** Theorems *)

(** C13: The provisioning limit is never exceeded and a host never has two
    operations: in every state the event loop can reach, at most the configured
    number of provisioning tasks are unfinished, each is the record of its
    host, and no unfinished task is lost from the set that shutdown cancels. *)
Theorem capacity_respected limit st : reachable limit st ->
  size (unfinished st) <= limit /\
  (forall id t host, tasks st !! id = Some t -> for_host t = Some host -> done t = false ->
     exists r, _provisioning_tasks st !! host = Some r /\ task r = id) /\
  (forall id t, tasks st !! id = Some t -> done t = false -> id ∈ _background_tasks st).
Proof.
  intros H%reachable_inv. split_and!; [etrans; [by eapply unfinished_bound|]|..]; by destruct H.
Qed.

(** A loop with one provision running. *)
Definition one_running : State :=
  match fire_background 1 (Some ("gpu1", (VLLM, None))) PROVISION initial with Ok (st, _) => st | Err _ => initial end.

Lemma one_running_reachable : reachable 1 one_running.
Proof. apply rtc_once. by eapply (step_fire 1 (Some ("gpu1", (VLLM, None))) PROVISION). Defined.

Lemma capacity_respected_witness :
  size (unfinished one_running) <= 1 /\
  (exists r, active_provision "gpu1" one_running = Some r) /\
  fire_background 1 (Some ("gpu2", (VLLM, None))) PROVISION one_running = Err (ProvisioningCapacityError 1 1).
Proof.
  split; [exact (proj1 (capacity_respected 1 one_running one_running_reachable))|]. split; [eexists|]; vm_compute; reflexivity.
Defined.

(** Cancelling reaches the inspected operation only: when it is accepted, the
    record's task is an unfinished provision of that host, exactly that task is
    asked to stop, and nothing else changes; a record whose task has finished is
    refused for ever, also after another operation took its place. *)
Theorem cancel_inspected_only limit host r st : reachable limit st ->
  (forall st', cancel_provision host r st = Ok st' ->
     (exists t, tasks st !! task r = Some t /\ for_host t = Some host /\ done t = false /\
        tasks st' !! task r = Some (mkTask (began t) None true (Some host))) /\
     operation r = PROVISION /\
     (forall id, id <> task r -> tasks st' !! id = tasks st !! id) /\
     _provisioning_tasks st' = _provisioning_tasks st) /\
  (forall t st2, tasks st !! task r = Some t -> done t = true -> rtc (step limit) st st2 ->
     cancel_provision host r st2 = Err ProvisioningOperationChangedError).
Proof.
  intros Hinv%reachable_inv. split.
  - intros st'. unfold cancel_provision. case_bool_decide as Ha; [|done]. intros [= <-]. unfold active_provision in Ha.
    destruct (_provisioning_tasks st !! host) as [r'|] eqn:Hr; [|done]. destruct (record_active st r') eqn:Hact; [|done]. cbn in Ha.
    case_bool_decide as Hop; [|done]. injection Ha as ->. destruct (inv_record _ _ Hinv host r Hr) as (t & Ht & Hh).
    assert (done t = false) as Hd. { unfold record_active, task_done in Hact. rewrite Ht in Hact. by destruct (done t). }
    split_and!; [|done| |done].
    + exists t. split_and!; [done..|]. cbn. rewrite lookup_alter_eq, Ht. cbn. unfold cancel. rewrite Hd, Hh. unfold done in Hd. by destruct (outcome t).
    + intros id Hne. cbn. by rewrite lookup_alter_ne.
  - intros t st2 Ht Hd Hs. destruct (done_stays _ _ _ _ _ Hs Ht Hd) as (t' & Ht' & Hd'). unfold cancel_provision. rewrite bool_decide_eq_false_2; [done|].
    unfold active_provision. destruct (_provisioning_tasks st2 !! host) as [r'|]; [|done]. destruct (record_active st2 r') eqn:Hact; [|done]. cbn.
    case_bool_decide; [|done]. intros [= ->]. unfold record_active, task_done in Hact. by rewrite Ht', Hd' in Hact.
Qed.

Lemma cancel_inspected_only_witness : exists r st', active_provision "gpu1" one_running = Some r /\ cancel_provision "gpu1" r one_running = Ok st' /\
  operation r = PROVISION.
Proof.
  eexists _, _. split; [vm_compute; reflexivity|]. split; [vm_compute; reflexivity|].
  eapply (proj1 (proj2 (proj1 (cancel_inspected_only 1 "gpu1" _ one_running one_running_reachable) _ _))).
  Unshelve. 2: vm_compute; reflexivity.
Defined.

(** Shutdown asks every unfinished task to stop. *)
Lemma shutdown_reaches_all limit st id t : reachable limit st -> tasks st !! id = Some t -> done t = false ->
  exists t', tasks (shutdown st) !! id = Some t' /\ cancelling t' = true.
Proof.
  intros Hinv%reachable_inv Ht Hd. unfold shutdown. cbn. rewrite map_lookup_imap, Ht. cbn.
  rewrite bool_decide_eq_true_2 by (by eapply (inv_background _ _ Hinv)). exists (cancel t). split; [done|]. unfold cancel. by rewrite Hd.
Qed.
