(* ===== verification/EtcdWire.v ===== *)
(** * The etcd gateway's JSON ([inference_proxy/discovery/etcd_client.py])

    How [EtcdClient] writes keys and values as base64, reads revisions, range
    replies and the lines of a watch stream, and what it does with replies that
    break etcd's contract.  Byte strings are lists of integers 0-255.  An [Err]
    is an [EtcdProtocolError]. *)

From S2P Require Import Prelude PyDict Json Etcd.
From Stdlib Require Import Ascii DecimalString DecimalN DecimalPos.
Local Open Scope Z_scope.

(** ** Base64 *)

Definition alphabet : string := "ABCDEFGHIJKLMNOPQRSTUVWXYZabcdefghijklmnopqrstuvwxyz0123456789+/".

Definition enc6 (v : Z) : ascii := default "A"%char (String.get (Z.to_nat v) alphabet).

Fixpoint index_of (c : ascii) (s : string) (i : Z) : option Z :=
  match s with
  | EmptyString => None
  | String a s => if bool_decide (a = c) then Some i else index_of c s (i + 1)
  end.
Definition dec6 (c : ascii) : option Z := index_of c alphabet 0.

(** [base64.b64encode(value).decode("ascii")] *)
Fixpoint _encode (b : bytes) : string :=
  match b with
  | [] => ""
  | [x] => String (enc6 (x / 4)) (String (enc6 (x mod 4 * 16)) "==")
  | [x; y] => String (enc6 (x / 4)) (String (enc6 (x mod 4 * 16 + y / 16)) (String (enc6 (y mod 16 * 4)) "="))
  | x :: y :: z :: b =>
      String (enc6 (x / 4)) (String (enc6 (x mod 4 * 16 + y / 16))
        (String (enc6 (y mod 16 * 4 + z / 64)) (String (enc6 (z mod 64)) (_encode b))))
  end.

(** [binascii.a2b_base64(s, strict_mode=True)] after its first character: [q]
    characters of the current group were read, [left] are the bits left over,
    [pads] the padding in this group, [started] whether padding was seen. *)
Fixpoint a2b (s : string) (q : nat) (left : Z) (pads : nat) (started : bool) : option bytes :=
  match s with
  | EmptyString => if decide (q = 0%nat) then Some [] else None
  | String c s =>
      if bool_decide (c = "="%char) then
        if (2 <=? q)%nat && (4 <=? q + S pads)%nat
        then match s with EmptyString => Some [] | _ => None end
        else a2b s q left (if (2 <=? q)%nat then S pads else pads) true
      else
        match dec6 c with
        | None => None
        | Some v =>
            if started then None
            else match q with
                 | 0%nat => a2b s 1 v 0 false
                 | 1%nat => cons (left * 4 + v / 16) <$> a2b s 2 (v mod 16) 0 false
                 | 2%nat => cons (left * 16 + v / 4) <$> a2b s 3 (v mod 4) 0 false
                 | _ => cons (left * 64 + v) <$> a2b s 0 0 0 false
                 end
        end
  end.

(** [base64.b64decode(value, validate=True)]: no padding in front *)
Definition b64decode (s : string) : option bytes :=
  match s with
  | String "="%char _ => None
  | _ => a2b s 0 0 0 false
  end.

Definition _decode (v : option json) (field : string) : result string bytes :=
  match v with
  | Some (JStr s) => match b64decode s with
                     | Some b => Ok b
                     | None => Err (field +:+ " is not valid base64")
                     end
  | _ => Err (field +:+ " must be a base64 string")
  end.

Definition _revision (v : option json) (field : string) : result string Z :=
  match (match v with Some (JNum z) => Some z | Some (JStr s) => py_int s | _ => None end) with
  | None => Err (field +:+ " must be an integer")
  | Some z => if z <? 0 then Err (field +:+ " must not be negative") else Ok z
  end.

(** ** Replies *)

Definition _header_revision (response : list (string * json)) (context : string) : result string Z :=
  match dget "header" response with
  | Some (JObj header) => _revision (dget "revision" header) (context +:+ " header.revision")
  | _ => Err (context +:+ " response is missing header")
  end.

(** [raw.get(k, d)] *)
Definition get_or (k : string) (d : json) (m : list (string * json)) : option json :=
  Some (default d (dget k m)).

Record Kv := mkKvBytes { k_key : bytes; k_value : option bytes; k_mod : Z; k_lease : Z }.

Definition _parse_kv (raw : option json) (context : string) (value_required : bool) : result string Kv :=
  match raw with
  | Some (JObj m) =>
      let? value := (if value_required
                     then let? v := _decode (get_or "value" (JStr "") m) (context +:+ " kv.value") in Ok (Some v)
                     else Ok None) in
      let? k := _decode (dget "key" m) (context +:+ " kv.key") in
      let? r := _revision (dget "mod_revision" m) (context +:+ " kv.mod_revision") in
      let? l := _revision (get_or "lease" (JNum 0) m) (context +:+ " kv.lease") in
      Ok (mkKvBytes k value r l)
  | _ => Err (context +:+ " kv must be an object")
  end.

(** The reply of [get_record] for a key. *)
Definition get_record (raw_key : bytes) (response : json) : result string (option Kv) :=
  match response with
  | JObj m =>
      match default (JList []) (dget "kvs" m) with
      | JList [] => Ok None
      | JList [raw] =>
          let? kv := _parse_kv (Some raw) "range" true in
          if bool_decide (k_key kv = raw_key) && is_some (k_value kv) then Ok (Some kv)
          else Err "exact range returned an unexpected key"
      | JList _ => Err "exact range returned multiple keys"
      | _ => Err "range kvs must be a list"
      end
  | _ => Err "range response must be an object"
  end.

Fixpoint parse_all {A} (f : json -> result string A) (l : list json) : result string (list A) :=
  match l with
  | [] => Ok []
  | x :: l => let? a := f x in let? r := parse_all f l in Ok (a :: r)
  end.

Definition range_record (raw : json) : result string Kv :=
  let? kv := _parse_kv (Some raw) "range" true in
  match k_value kv with None => Err "range kv is missing value" | Some _ => Ok kv end.

(** The reply of [get_snapshot]: the records and the store revision. *)
Definition get_snapshot (response : json) : result string (list Kv * Z) :=
  match response with
  | JObj m =>
      let? revision := _header_revision m "range" in
      match default (JList []) (dget "kvs" m) with
      | JList raws =>
          let? records := parse_all range_record raws in
          if existsb (fun r => revision <? k_mod r) records then Err "range kv revision exceeds snapshot revision"
          else Ok (records, revision)
      | _ => Err "range kvs must be a list"
      end
  | _ => Err "range response must be an object"
  end.

(** ** The watch stream *)

Record WireEvent := mkWireEvent { e_kv : Kv; e_delete : bool }.
Record Batch := mkBatch { b_events : list WireEvent; b_revision : Z }.

(** How the stream ends. *)
Inductive WatchEnd :=
| Finished
| ReadTimeout
| ConnectionError
| ProtocolError (msg : string)
| Compacted (revision : Z) (reason : json)
| Canceled (reason : json).

(** What [next(lines)] gives: a blank line, a line with its JSON ([None]: not
    JSON), the read timeout of requests or of urllib3, another lost connection;
    the end of the list is the end of the response. *)
Inductive Line := Blank | Document (j : option json) | TimedOut | LostConnection.

Definition parse_event (raw : json) : result string WireEvent :=
  match raw with
  | JObj m =>
      let is_delete := bool_decide (get_or "type" (JStr "PUT") m = Some (JStr "DELETE")) in
      let? kv := _parse_kv (dget "kv" m) "watch" (negb is_delete) in
      Ok (mkWireEvent kv is_delete)
  | _ => Err "watch event must be an object"
  end.

Definition parse_batch (m : list (string * json)) : result string Batch :=
  let? revision := _header_revision m "watch" in
  match default (JList []) (dget "events" m) with
  | JList raws =>
      let? events := parse_all parse_event raws in
      if existsb (fun e => revision <? k_mod (e_kv e)) events then Err "watch event revision exceeds response revision"
      else Ok (mkBatch events revision)
  | _ => Err "watch events must be a list"
  end.

(** One envelope: it ends the stream, is skipped ([created]), or is a batch. *)
Definition watch_response (envelope : json) : sum WatchEnd (option Batch) :=
  match envelope with
  | JObj env =>
      match dget "result" env with
      | Some (JObj m) =>
          if match dget "canceled" m with Some j => truthy j | None => false end then
            inl match _revision (get_or "compact_revision" (JNum 0) m) "watch compact_revision" with
                | Err e => ProtocolError e
                | Ok r =>
                    let reason := default (JStr "") (dget "cancel_reason" m) in
                    if negb (r =? 0) then Compacted r reason else Canceled reason
                end
          else
            match dget "created" m with
            | Some (JBool true) => inr None
            | Some _ => inl (Canceled (JStr "etcd could not create watch"))
            | None => match parse_batch m with Ok b => inr (Some b) | Err e => inl (ProtocolError e) end
            end
      | _ => inl (ProtocolError "watch response is missing result")
      end
  | _ => inl (ProtocolError "watch response is missing result")
  end.

(** [EtcdWatchStream.__iter__]: the batches it yields and how it ends. *)
Fixpoint watch (lines : list Line) : list Batch * WatchEnd :=
  match lines with
  | [] => ([], Finished)
  | Blank :: lines => watch lines
  | TimedOut :: _ => ([], ReadTimeout)
  | LostConnection :: _ => ([], ConnectionError)
  | Document None :: _ => ([], ProtocolError "malformed etcd watch response")
  | Document (Some j) :: lines =>
      match watch_response j with
      | inl e => ([], e)
      | inr None => watch lines
      | inr (Some b) => let '(bs, e) := watch lines in (b :: bs, e)
      end
  end.

(** ** Round trips *)

Definition dec6_ok (n : nat) : bool :=
  bool_decide (dec6 (enc6 (Z.of_nat n)) = Some (Z.of_nat n)) && negb (bool_decide (enc6 (Z.of_nat n) = "="%char)).

Lemma dec6_enc6 v : 0 <= v < 64 -> dec6 (enc6 v) = Some v /\ enc6 v <> "="%char.
Proof.
  intros Hv. assert (forallb dec6_ok (seq 0 64) = true) as Hall by (vm_compute; reflexivity).
  rewrite forallb_forall in Hall. specialize (Hall (Z.to_nat v)). unfold dec6_ok in Hall. rewrite Z2Nat.id in Hall by lia.
  rewrite andb_true_iff, negb_true_iff, bool_decide_eq_true, bool_decide_eq_false in Hall. apply Hall, in_seq. lia.
Qed.

Lemma a2b_enc v s q left : 0 <= v < 64 ->
  a2b (String (enc6 v) s) q left 0 false =
  match q with
  | 0%nat => a2b s 1 v 0 false
  | 1%nat => cons (left * 4 + v / 16) <$> a2b s 2 (v mod 16) 0 false
  | 2%nat => cons (left * 16 + v / 4) <$> a2b s 3 (v mod 4) 0 false
  | _ => cons (left * 64 + v) <$> a2b s 0 0 0 false
  end.
Proof. intros Hv. destruct (dec6_enc6 v Hv) as [Hd Hp]. cbn [a2b]. rewrite bool_decide_false by done. by rewrite Hd. Qed.

Ltac zdiv := Z.to_euclidean_division_equations; lia.

(** The bytes a group of characters stands for. *)
Lemma group_bytes x y z : 0 <= x <= 255 -> 0 <= y <= 255 -> 0 <= z <= 255 ->
  0 <= x / 4 < 64 /\ 0 <= x mod 4 * 16 + y / 16 < 64 /\ 0 <= y mod 16 * 4 + z / 64 < 64 /\ 0 <= z mod 64 < 64 /\
  x / 4 * 4 + (x mod 4 * 16 + y / 16) / 16 = x /\
  (x mod 4 * 16 + y / 16) mod 16 * 16 + (y mod 16 * 4 + z / 64) / 4 = y /\
  (y mod 16 * 4 + z / 64) mod 4 * 64 + z mod 64 = z.
Proof. intros Hx Hy Hz. split_and!; zdiv. Qed.


Lemma a2b_encode_le n b : (length b <= n)%nat -> all_bytes b -> a2b (_encode b) 0 0 0 false = Some b.
Proof.
  revert b. induction n as [|n IH]; intros b Hn Hb; [by destruct b; [|cbn in Hn; lia]|].
  destruct b as [|x [|y [|z b]]]; [done|..]; cbn [_encode].
  - apply Forall_cons in Hb as [Hx _]. destruct (group_bytes x 0 0 Hx) as (R1 & R2 & _ & _ & E1 & _); [lia..|].
    replace (x mod 4 * 16 + 0 / 16) with (x mod 4 * 16) in * by zdiv.
    rewrite !a2b_enc by done. cbn. by rewrite E1.
  - apply Forall_cons in Hb as [Hx [Hy _]%Forall_cons].
    destruct (group_bytes x y 0 Hx Hy) as (R1 & R2 & R3 & _ & E1 & E2 & _); [lia..|].
    replace (y mod 16 * 4 + 0 / 64) with (y mod 16 * 4) in * by zdiv.
    rewrite !a2b_enc by done. cbn. by rewrite E1, E2.
  - apply Forall_cons in Hb as [Hx [Hy [Hz Hb]%Forall_cons]%Forall_cons].
    destruct (group_bytes x y z Hx Hy Hz) as (R1 & R2 & R3 & R4 & E1 & E2 & E3).
    rewrite !a2b_enc by done. rewrite (IH b) by (cbn in Hn; lia || done). cbn. by rewrite E1, E2, E3.
Qed.

Lemma encode_no_pad b : all_bytes b -> b64decode (_encode b) = a2b (_encode b) 0 0 0 false.
Proof.
  intros Hb. destruct b as [|x b]; [done|]. apply Forall_cons in Hb as [Hx _].
  destruct (dec6_enc6 (x / 4)) as [_ Hp]; [zdiv|].
  assert (exists s, _encode (x :: b) = String (enc6 (x / 4)) s) as [s ->] by (destruct b as [|y [|z b]]; eexists; reflexivity).
  unfold b64decode. destruct (enc6 (x / 4)) as [[] [] [] [] [] [] [] []]; done.
Qed.

Lemma b64_roundtrip b : all_bytes b -> b64decode (_encode b) = Some b.
Proof. intros Hb. rewrite encode_no_pad by done. by apply (a2b_encode_le (length b)). Qed.

Fixpoint all_digits (s : string) : bool :=
  match s with
  | EmptyString => true
  | String c s => bool_decide (c ∈ ["0"; "1"; "2"; "3"; "4"; "5"; "6"; "7"; "8"; "9"]%char) && all_digits s
  end.

Lemma uint_digits d : all_digits (NilEmpty.string_of_uint d) = true.
Proof. induction d; cbn [NilEmpty.string_of_uint all_digits]; [done|..]; by rewrite IHd. Qed.

Lemma py_str_digits n : all_digits (py_str n) = true.
Proof. unfold py_str, NilZero.string_of_uint. destruct (N.to_uint n) eqn:Hd; [done|rewrite <- Hd; apply uint_digits..]. Qed.

Lemma digit_cases c : c ∈ ["0"; "1"; "2"; "3"; "4"; "5"; "6"; "7"; "8"; "9"]%char ->
  is_space c = false /\ c <> "_"%char /\ c <> "-"%char /\ c <> "+"%char.
Proof. rewrite !elem_of_cons, elem_of_nil. intros Hc. destruct_or!; subst; done. Qed.

Lemma all_digits_cons c s : all_digits (String c s) = true <->
  c ∈ ["0"; "1"; "2"; "3"; "4"; "5"; "6"; "7"; "8"; "9"]%char /\ all_digits s = true.
Proof. cbn. by rewrite andb_true_iff, bool_decide_eq_true. Qed.

Lemma drop_underscores_digits b s : all_digits s = true -> drop_underscores b s = Some s.
Proof.
  revert b. induction s as [|c s IH]; intros b; [done|]. intros [Hc Hs]%all_digits_cons.
  destruct (digit_cases c Hc) as (_ & Hu & _). cbn [drop_underscores]. rewrite bool_decide_false by done. by rewrite (IH true Hs).
Qed.

Lemma strip_digits s : all_digits s = true -> py_strip s = s.
Proof.
  intros Hs. unfold py_strip. assert (lstrip s = s) as ->.
  { destruct s as [|c s]; [done|]. apply all_digits_cons in Hs as [Hc _]. cbn. by destruct (digit_cases c Hc) as [-> _]. }
  induction s as [|c s IH]; [done|]. apply all_digits_cons in Hs as [Hc Hs]. cbn. rewrite (IH Hs).
  destruct s; [|done]. by destruct (digit_cases c Hc) as [-> _].
Qed.

Lemma N_to_uint_nonnil n : N.to_uint n <> Decimal.Nil.
Proof. destruct n; [done|]. apply DecimalPos.Unsigned.to_uint_nonnil. Qed.

Lemma py_int_str n : py_int (py_str n) = Some (Z.of_N n).
Proof.
  pose proof (py_str_digits n) as Hd. unfold py_int. rewrite (strip_digits _ Hd).
  assert (digits (py_str n) = Some (Z.of_N n)) as Hn.
  { unfold digits. rewrite (drop_underscores_digits _ _ Hd). cbn. unfold py_str.
    rewrite NilZero.usu by apply N_to_uint_nonnil. cbn. by rewrite DecimalN.Unsigned.of_to. }
  destruct (py_str n) as [|c s]; [done|]. apply all_digits_cons in Hd as [Hc _].
  destruct (digit_cases c Hc) as (_ & _ & Hm & Hp).
  destruct c as [[] [] [] [] [] [] [] []]; done.
Qed.

(** *** What etcd sends

    The proto3 JSON mapping: bytes as base64, 64-bit integers as decimal
    strings, and fields with their default value left out. *)

Definition put_field (k : string) (default_value : bool) (v : json) (m : list (string * json)) : list (string * json) :=
  if default_value then m else (k, v) :: m.

Definition render_int (z : Z) : json := JStr (py_str (Z.to_N z)).

Definition render_kv (kv : Kv) : json :=
  JObj (("key", JStr (_encode (k_key kv))) :: ("mod_revision", render_int (k_mod kv)) ::
    put_field "value" (bool_decide (default [] (k_value kv) = [])) (JStr (_encode (default [] (k_value kv))))
      (put_field "lease" (k_lease kv =? 0) (render_int (k_lease kv)) [])).

Definition render_event (e : WireEvent) : json :=
  JObj (put_field "type" (negb (e_delete e)) (JStr "DELETE") [("kv", render_kv (e_kv e))]).

Definition render_batch (b : Batch) : json :=
  JObj [("result", JObj (("header", JObj [("revision", render_int (b_revision b))]) ::
    put_field "events" (bool_decide (List.map render_event (b_events b) = [])) (JList (List.map render_event (b_events b))) []))].

Definition render_range (records : list Kv) (revision : Z) : json :=
  JObj (("header", JObj [("revision", render_int revision)]) ::
    put_field "kvs" (bool_decide (records = [])) (JList (List.map render_kv records)) []).

(** A key-value pair as etcd stores it; deletions carry no value. *)
Record kv_ok (with_value : bool) (kv : Kv) : Prop := {
  ok_key : all_bytes (k_key kv);
  ok_value : if with_value then exists v, k_value kv = Some v /\ all_bytes v else k_value kv = None;
  ok_mod : 0 <= k_mod kv;
  ok_lease : 0 <= k_lease kv;
}.

Lemma revision_render z field : 0 <= z -> _revision (Some (render_int z)) field = Ok z.
Proof.
  intros Hz. unfold _revision, render_int. rewrite py_int_str, Z2N.id by done.
  destruct (Z.ltb_spec z 0); [lia|done].
Qed.

Lemma decode_render b field : all_bytes b -> _decode (Some (JStr (_encode b))) field = Ok b.
Proof. intros Hb. unfold _decode. by rewrite b64_roundtrip. Qed.

Lemma parse_kv_render kv context with_value : kv_ok with_value kv ->
  _parse_kv (Some (render_kv kv)) context with_value = Ok kv.
Proof.
  intros [Hk Hv Hm Hl]. unfold _parse_kv, render_kv, put_field, get_or.
  assert (forall k, _decode (Some (JStr "")) k = Ok []) as Hempty by done.
  destruct kv as [k v m l]. cbn [k_key k_value k_mod k_lease] in *.
  pose proof (fun f => decode_render k f Hk) as Dk. pose proof (fun f => revision_render m f Hm) as Rm.
  pose proof (fun f => revision_render l f Hl) as Rl.
  destruct with_value; [destruct Hv as (b & -> & Hb); pose proof (fun f => decode_render b f Hb) as Db|subst v];
    cbn [default from_option id]; case_bool_decide as Hnil; destruct (Z.eqb_spec l 0) as [->|Hl0]; try done;
    cbn -[_decode _revision render_int _encode]; rewrite ?Dk, ?Db, ?Hempty; cbn -[_decode _revision render_int _encode];
    rewrite ?Dk; cbn -[_decode _revision render_int _encode]; rewrite Rm; cbn -[_decode _revision render_int _encode];
    rewrite ?Rl; try done; by rewrite Hnil.
Qed.

Record batch_ok (b : Batch) : Prop := {
  ok_rev : 0 <= b_revision b;
  ok_events : Forall (fun e => kv_ok (negb (e_delete e)) (e_kv e) /\ k_mod (e_kv e) <= b_revision b) (b_events b);
}.

Lemma parse_all_map {A} (f : json -> result string A) (g : A -> json) l :
  Forall (fun a => f (g a) = Ok a) l -> parse_all f (List.map g l) = Ok l.
Proof. induction 1 as [|a l Ha _ IH]; cbn; [done|]. by rewrite Ha, IH. Qed.

Lemma parse_event_render e : kv_ok (negb (e_delete e)) (e_kv e) -> parse_event (render_event e) = Ok e.
Proof.
  intros Hok. destruct e as [kv d]. cbn [e_kv e_delete] in *. unfold parse_event, render_event, put_field. cbn [e_kv e_delete].
  destruct d; cbn [negb] in *.
  - change (dget "kv" _) with (Some (render_kv kv)). rewrite bool_decide_true by reflexivity. cbn [negb].
    by rewrite parse_kv_render.
  - change (dget "kv" _) with (Some (render_kv kv)). rewrite bool_decide_false by done. cbn [negb].
    by rewrite parse_kv_render.
Qed.

Lemma existsb_le {A} (f : A -> Z) r l : Forall (fun a => f a <= r) l -> existsb (fun a => r <? f a) l = false.
Proof. induction 1 as [|a l Ha _ IH]; cbn; [done|]. rewrite IH. destruct (Z.ltb_spec r (f a)); [lia|done]. Qed.

Lemma watch_response_batch m b : dget "canceled" m = None -> dget "created" m = None -> parse_batch m = Ok b ->
  watch_response (JObj [("result", JObj m)]) = inr (Some b).
Proof.
  intros H1 H2 H3. unfold watch_response. change (dget "result" [("result", JObj m)]) with (Some (JObj m)). cbv beta iota.
  by rewrite H1, H2, H3.
Qed.

Lemma header_render r m context : 0 <= r -> dget "header" m = Some (JObj [("revision", render_int r)]) ->
  _header_revision m context = Ok r.
Proof.
  intros Hr Hm. unfold _header_revision. rewrite Hm. change (dget "revision" _) with (Some (render_int r)).
  by apply revision_render.
Qed.

Lemma watch_response_render b : batch_ok b -> watch_response (render_batch b) = inr (Some b).
Proof.
  intros [Hr Hev]. destruct b as [evs r]. cbn [b_events b_revision] in *. unfold render_batch, put_field. cbn [b_events b_revision].
  assert (parse_all parse_event (List.map render_event evs) = Ok evs) as Hp.
  { apply parse_all_map. eapply Forall_impl; [exact Hev|]. intros e [He _]. by apply parse_event_render. }
  assert (existsb (fun e => r <? k_mod (e_kv e)) evs = false) as Hle.
  { apply (existsb_le (fun e => k_mod (e_kv e))). eapply Forall_impl; [exact Hev|]. by intros e [_ He]. }
  case_bool_decide as Hnil; (apply watch_response_batch; [reflexivity..|]); unfold parse_batch;
    rewrite (header_render r) by done; cbn [rbind].
  - assert (evs = []) as -> by by destruct evs. done.
  - change (default (JList []) (dget "events" _)) with (JList (List.map render_event evs)). cbv iota. rewrite Hp. cbn [rbind]. by rewrite Hle.
Qed.

(** The lines of a healthy stream: batches, blank lines and acknowledgements. *)
Inductive Frame := FBatch (b : Batch) | FBlank | FCreated (revision : Z).

Definition render_frame (f : Frame) : Line :=
  match f with
  | FBatch b => Document (Some (render_batch b))
  | FBlank => Blank
  | FCreated r => Document (Some (JObj [("result", JObj [("header", JObj [("revision", render_int r)]); ("created", JBool true)])]))
  end.

Definition frame_batches (fs : list Frame) : list Batch :=
  omap (fun f => match f with FBatch b => Some b | _ => None end) fs.

Lemma watch_frames fs rest : Forall (fun f => match f with FBatch b => batch_ok b | _ => True end) fs ->
  watch (List.map render_frame fs ++ rest) = (frame_batches fs ++ fst (watch rest), snd (watch rest)).
Proof.
  induction 1 as [|f fs Hf _ IH]; cbn [List.map app]; [by destruct (watch rest)|]. destruct f as [b| |r].
  - cbn [render_frame watch]. rewrite (watch_response_render b Hf). rewrite IH. done.
  - cbn [render_frame watch]. rewrite IH. done.
  - cbn [render_frame watch]. replace (watch_response _) with (inr None : sum WatchEnd (option Batch)) by reflexivity. rewrite IH. done.
Qed.

Lemma get_snapshot_render records r : 0 <= r -> Forall (fun kv => kv_ok true kv /\ k_mod kv <= r) records ->
  get_snapshot (render_range records r) = Ok (records, r).
Proof.
  intros Hr Hall. unfold get_snapshot, render_range, put_field.
  assert (parse_all range_record (List.map render_kv records) = Ok records) as Hp.
  { apply parse_all_map. eapply Forall_impl; [exact Hall|]. intros kv [Hkv _]. unfold range_record.
    rewrite parse_kv_render by done. cbn. by destruct (ok_value _ _ Hkv) as (v & -> & _). }
  assert (existsb (fun kv => r <? k_mod kv) records = false) as Hle.
  { apply existsb_le. eapply Forall_impl; [exact Hall|]. by intros kv [_ Hkv]. }
  case_bool_decide as Hnil; rewrite (header_render r) by done; cbn [rbind]; [by subst|].
  change (default (JList []) (dget "kvs" _)) with (JList (List.map render_kv records)). cbv iota.
  rewrite Hp. cbn [rbind]. by rewrite Hle.
Qed.

Lemma get_record_render key kv r : kv_ok true kv -> 0 <= r -> k_key kv = key ->
  get_record key (render_range [kv] r) = Ok (Some kv) /\ get_record key (render_range [] r) = Ok None.
Proof.
  intros Hkv Hr Hk. split; [|done]. unfold get_record, render_range, put_field. rewrite bool_decide_false by done.
  change (default (JList []) (dget "kvs" _)) with (JList [render_kv kv]). cbv iota.
  rewrite parse_kv_render by done. cbn [rbind]. rewrite bool_decide_true by done.
  by destruct (ok_value _ _ Hkv) as (v & -> & _).
Qed.

(** C37: everything etcd sends in its JSON mapping is read back unchanged: range
    replies with their records and revision, exact reads, and watch streams,
    where blank lines and the creation acknowledgement leave no trace and the
    batches keep their boundaries, however the stream goes on. *)
Theorem wire_roundtrip :
  (forall records r, 0 <= r -> Forall (fun kv => kv_ok true kv /\ k_mod kv <= r) records ->
     get_snapshot (render_range records r) = Ok (records, r)) /\
  (forall kv r, kv_ok true kv -> 0 <= r -> get_record (k_key kv) (render_range [kv] r) = Ok (Some kv)) /\
  (forall fs rest, Forall (fun f => match f with FBatch b => batch_ok b | _ => True end) fs ->
     watch (List.map render_frame fs ++ rest) = (frame_batches fs ++ fst (watch rest), snd (watch rest))).
Proof.
  split_and!; [apply get_snapshot_render| |apply watch_frames].
  intros kv r Hkv Hr. by apply get_record_render.
Qed.

Definition ex_kv : Kv := mkKvBytes [47; 110; 255] (Some [123; 125]) 7 42.
Definition ex_deleted : Kv := mkKvBytes [47; 110] None 8 0.
Definition ex_frames : list Frame :=
  [FCreated 6; FBatch (mkBatch [mkWireEvent ex_kv false; mkWireEvent ex_deleted true] 8); FBlank; FBatch (mkBatch [] 9)].

Lemma wire_roundtrip_witness :
  get_snapshot (render_range [ex_kv] 7) = Ok ([ex_kv], 7) /\
  watch (List.map render_frame ex_frames) =
    ([mkBatch [mkWireEvent ex_kv false; mkWireEvent ex_deleted true] 8; mkBatch [] 9], Finished).
Proof.
  assert (kv_ok true ex_kv) as Hk by (split; cbn; try lia; [repeat constructor; lia|eexists; split; [reflexivity|repeat constructor; lia]]).
  assert (kv_ok false ex_deleted) as Hd by (split; cbn; try lia; [repeat constructor; lia|reflexivity]).
  destruct wire_roundtrip as (H1 & _ & H3). split.
  - apply H1; [lia|]. constructor; [split; [exact Hk|cbn; lia]|constructor].
  - specialize (H3 ex_frames []). rewrite app_nil_r in H3. rewrite H3; [reflexivity|].
    constructor; [exact I|]. constructor; [|constructor; [exact I|constructor; [split; [cbn; lia|constructor]|constructor]]].
    split; [cbn; lia|]. constructor; [split; [exact Hk|cbn; lia]|]. constructor; [split; [exact Hd|cbn; lia]|constructor].
Defined.

(** ** Replies nobody promised *)

Lemma revision_nonneg v field z : _revision v field = Ok z -> 0 <= z.
Proof.
  unfold _revision. destruct (match v with Some _ => _ | None => _ end) as [x|]; [|done].
  destruct (Z.ltb_spec x 0); [done|]. intros [= <-]. lia.
Qed.

Lemma header_nonneg m context r : _header_revision m context = Ok r -> 0 <= r.
Proof. unfold _header_revision. destruct (dget "header" m) as [[]|]; try done. apply revision_nonneg. Qed.

(** Read pairs have valid revisions, and a value exactly when one was required. *)
Definition kv_sound (with_value : bool) (r : Z) (kv : Kv) : Prop :=
  0 <= k_mod kv <= r /\ 0 <= k_lease kv /\ is_some (k_value kv) = with_value.

Lemma parse_kv_sound raw context with_value kv : _parse_kv raw context with_value = Ok kv ->
  0 <= k_mod kv /\ 0 <= k_lease kv /\ is_some (k_value kv) = with_value.
Proof.
  unfold _parse_kv. destruct raw as [[| | | | |m]|]; try done. intros H.
  apply rbind_Ok in H as (value & Hv & H). apply rbind_Ok in H as (k & _ & H). apply rbind_Ok in H as (r & Hr & H).
  apply rbind_Ok in H as (l & Hl & [= <-]). cbn. apply revision_nonneg in Hr, Hl. split_and!; [done|done|].
  destruct with_value; [|by injection Hv as <-]. by apply rbind_Ok in Hv as (v & _ & [= <-]).
Qed.

Lemma parse_all_Ok {A} (f : json -> result string A) l r : parse_all f l = Ok r ->
  Forall2 (fun raw a => f raw = Ok a) l r.
Proof.
  revert r. induction l as [|x l IH]; cbn; intros r H; [injection H as <-; constructor|].
  apply rbind_Ok in H as (a & Ha & H). apply rbind_Ok in H as (r' & Hr & [= <-]). constructor; [done|by apply IH].
Qed.

Lemma existsb_lt_false {A} (f : A -> Z) r l : existsb (fun a => r <? f a) l = false -> Forall (fun a => f a <= r) l.
Proof.
  induction l as [|a l IH]; cbn; [constructor|]. intros [Ha Hl]%orb_false_iff. apply Z.ltb_ge in Ha. constructor; auto.
Qed.

Definition batch_sound (b : Batch) : Prop :=
  0 <= b_revision b /\ Forall (fun e => kv_sound (negb (e_delete e)) (b_revision b) (e_kv e)) (b_events b).

Lemma parse_batch_sound m b : parse_batch m = Ok b -> batch_sound b.
Proof.
  unfold parse_batch. intros H. apply rbind_Ok in H as (r & Hr%header_nonneg & H).
  destruct (default (JList []) (dget "events" m)) as [| | | |raws|]; try done.
  apply rbind_Ok in H as (evs & Hp%parse_all_Ok & H). destruct (existsb _ evs) eqn:He; [done|]. injection H as <-.
  apply (existsb_lt_false (fun e => k_mod (e_kv e))) in He. split; [done|]. cbn.
  induction Hp as [|raw e raws evs Hraw _ IH]; [constructor|]. apply Forall_cons in He as [He Hes]. constructor; [|by apply IH].
  unfold parse_event in Hraw. destruct raw as [| | | | |me]; try done. apply rbind_Ok in Hraw as (kv & Hkv & [= <-]).
  destruct (parse_kv_sound _ _ _ _ Hkv) as (H1 & H2 & H3). by repeat split.
Qed.

Lemma watch_response_sound j b : watch_response j = inr (Some b) -> batch_sound b.
Proof.
  unfold watch_response. destruct j as [| | | | |env]; try done. destruct (dget "result" env) as [[| | | | |m]|]; try done.
  destruct (match dget "canceled" m with Some _ => _ | None => _ end); [done|].
  destruct (dget "created" m) as [[|[]| | | |]|]; try done.
  destruct (parse_batch m) as [b'|] eqn:Hb; [|done]. intros [= <-]. by apply (parse_batch_sound m).
Qed.

Lemma watch_app l1 l2 : watch (l1 ++ l2) =
  match snd (watch l1) with
  | Finished => (fst (watch l1) ++ fst (watch l2), snd (watch l2))
  | e => (fst (watch l1), e)
  end.
Proof.
  induction l1 as [|x l1 IH]; cbn [app]; [by destruct (watch l2)|].
  destruct x as [|[j|]| |]; cbn [watch]; try done. destruct (watch_response j) as [e|[b|]] eqn:Hj; [|rewrite IH|done].
  - cbn [fst snd]. destruct e; try done. exfalso. clear -Hj. unfold watch_response in Hj.
    repeat (case_match; try done).
  - destruct (watch l1) as [bs []]; cbn; try done.
Qed.

(** Whatever the server sends: batches that reach the watcher carry
    revisions that are not negative, none above the batch's own, and a value
    exactly when the event is no deletion; the same holds for snapshots; an
    exact read answers only for the key asked; and the first bad line ends the
    stream, after the batches before it and with nothing of what follows. *)
Theorem replies_checked :
  (forall lines, Forall batch_sound (fst (watch lines))) /\
  (forall l1 l2, snd (watch l1) <> Finished -> watch (l1 ++ l2) = watch l1) /\
  (forall response records r, get_snapshot response = Ok (records, r) -> 0 <= r /\ Forall (kv_sound true r) records) /\
  (forall key response kv, get_record key response = Ok (Some kv) -> k_key kv = key /\ is_some (k_value kv) = true).
Proof.
  split_and!.
  - induction lines as [|[|[j|]| |] lines IH]; cbn [watch]; try done; try constructor.
    destruct (watch_response j) as [e|[b|]] eqn:Hj; [constructor| |done].
    destruct (watch lines) as [bs e]. constructor; [by apply (watch_response_sound j)|done].
  - intros l1 l2 Hne. rewrite watch_app. destruct (watch l1) as [bs []]; done.
  - unfold get_snapshot. intros response records r. destruct response as [| | | | |m]; try done. intros H.
    apply rbind_Ok in H as (r' & Hr%header_nonneg & H). destruct (default (JList []) (dget "kvs" m)) as [| | | |raws|]; try done.
    apply rbind_Ok in H as (rs & Hp%parse_all_Ok & H). destruct (existsb _ rs) eqn:He; [done|]. injection H as -> ->.
    apply (existsb_lt_false k_mod) in He. split; [done|].
    induction Hp as [|raw kv raws rs Hraw _ IH]; [constructor|]. apply Forall_cons in He as [He Hes]. constructor; [|by apply IH].
    unfold range_record in Hraw. apply rbind_Ok in Hraw as (kv' & Hkv & Hv).
    destruct (parse_kv_sound _ _ _ _ Hkv) as (H1 & H2 & H3). destruct (k_value kv') eqn:Hval; [|done]. injection Hv as <-.
    split_and!; try done. by rewrite Hval.
  - unfold get_record. intros key response kv. destruct response as [| | | | |m]; try done.
    destruct (default (JList []) (dget "kvs" m)) as [| | | |[|raw [|]]|]; try done. intros H.
    apply rbind_Ok in H as (kv' & _ & H). destruct (bool_decide (k_key kv' = key)) eqn:Hk; [|done].
    destruct (is_some (k_value kv')) eqn:Hv; [|done]. injection H as <-. by apply bool_decide_eq_true in Hk.
Qed.
