(* ===== verification/Quads.v ===== *)
(** * QUADS client and poller ([inference_proxy/quads/client.py], [quads/poller.py],
    [models/quads.py])

    What the gateway makes of the answers of the QUADS server.  An answer is a
    JSON document; transport and decoding errors are [None].  Every fault
    surfaces as [QUADSConnectionError], here an [Err] with its text. *)

From S2P Require Import Prelude PyDict Json.
From Stdlib Require Import Ascii.

(** [raw.strip().lower().rstrip(".")] *)
Definition canonical_hostname (raw : string) : string :=
  rstrip_with (fun a => bool_decide (a = "."%char)) (py_lower (py_strip raw)).

Record QUADSHost := mkHost { hostname : string; gpu_vendor : string; gpu_model : string; gpu_count : Z }.

(** [_get]: transport errors and undecodable answers. *)
Definition _get (answer : option json) : result string json :=
  match answer with Some j => Ok j | None => Err "transport error" end.

(** [d.get(k)] in a condition *)
Definition flag (k : string) (d : list (string * json)) : bool :=
  match dget k d with Some j => truthy j | None => false end.

Definition all_dicts (l : list json) : option (list (list (string * json))) := mapM as_dict l.

(** [d.get(k, "")], which must be a string *)
Definition text_field (k : string) (d : list (string * json)) : option string :=
  match dget k d with None => Some "" | Some (JStr s) => Some s | Some _ => None end.

Definition is_gpu (d : list (string * json)) : bool := bool_decide (dget "processor_type" d = Some (JStr "GPU")).

(** One entry of the inventory: [None] when it is skipped. *)
Definition parse_host (raw : json) : result string (option QUADSHost) :=
  match raw with
  | JObj d =>
      if flag "broken" d || flag "retired" d then Ok None
      else
        match (match dget "processors" d with None => Some [] | Some (JList l) => all_dicts l | Some _ => None end) with
        | None => Err "host processors must be a list of objects"
        | Some processors =>
            match List.filter is_gpu processors with
            | [] => Ok None
            | gpu :: gpus =>
                match dget "name" d with
                | Some (JStr name) =>
                    match text_field "vendor" gpu, text_field "product" gpu with
                    | Some vendor, Some product =>
                        Ok (Some (mkHost (canonical_hostname name) vendor product (Z.of_nat (S (length gpus)))))
                    | _, _ => Err "GPU vendor and product must be strings"
                    end
                | _ => Err "GPU host name must be a string"
                end
            end
        end
  | _ => Err "host inventory entries must be objects"
  end.

Fixpoint parse_hosts (l : list json) : result string (list QUADSHost) :=
  match l with
  | [] => Ok []
  | raw :: l => let? h := parse_host raw in let? hs := parse_hosts l in Ok (option_list h ++ hs)
  end.

Definition get_hosts (answer : option json) : result string (list QUADSHost) :=
  let? data := _get answer in
  match data with JList l => parse_hosts l | _ => Err "host inventory must be a list" end.

Definition as_str (j : json) : option string := match j with JStr s => Some s | _ => None end.

Definition get_available (answer : option json) : result string (list string) :=
  let? data := _get answer in
  match data with
  | JList l => match mapM as_str l with
               | Some hs => Ok (List.map canonical_hostname hs)
               | None => Err "available hosts must be a list of strings"
               end
  | _ => Err "available hosts must be a list of strings"
  end.

Fixpoint parse_moves (l : list json) (pending : gset string) : result string (gset string) :=
  match l with
  | [] => Ok pending
  | JObj d :: l =>
      match dget "host" d with
      | Some (JStr h) => parse_moves l ({[canonical_hostname h]} ∪ pending)
      | _ => Err "pending move entries must be objects naming a host"
      end
  | _ => Err "pending move entries must be objects naming a host"
  end.

Definition get_pending_moves (answer : option json) : result string (gset string) :=
  let? data := _get answer in
  match data with JList l => parse_moves l ∅ | _ => Err "pending moves must be a list" end.

(** ** The poller *)

Record QUADSPoller := mkPoller {
  _hosts : list QUADSHost;
  _available : list string;
  _last_sync : option Z;
  _consecutive_failures : Z;
}.

Definition new_poller : QUADSPoller := mkPoller [] [] None 0.

(** [_poll_once] at [now] with the two answers of the server; the second is
    only asked for after the first. *)
Definition _poll_once (p : QUADSPoller) (now : Z) (hosts_answer available_answer : option json) : QUADSPoller :=
  match (let? hs := get_hosts hosts_answer in let? av := get_available available_answer in Ok (hs, av)) with
  | Err _ => mkPoller (_hosts p) (_available p) (_last_sync p) (_consecutive_failures p + 1)
  | Ok (hs, av) => mkPoller hs av (Some now) 0
  end.

(** ** What the client promises *)

Lemma parse_hosts_spec l hs : parse_hosts l = Ok hs <->
  exists rs, Forall2 (fun raw r => parse_host raw = Ok r) l rs /\ hs = omap id rs.
Proof.
  revert hs. induction l as [|raw l IH]; intros hs; cbn.
  - split; [intros [= <-]; by exists []|]. intros (rs & Hrs%Forall2_nil_inv_l & ->). by subst.
  - destruct (parse_host raw) as [r|e] eqn:Hr; cbn.
    + split.
      * destruct (parse_hosts l) as [hs'|] eqn:Hl; cbn; [|done]. intros [= <-].
        destruct (proj1 (IH hs') eq_refl) as (rs & Hrs & ->). exists (r :: rs). split; [by constructor|]. by destruct r.
      * intros (rs & (r' & rs' & Hr' & Hrs & ->)%Forall2_cons_inv_l & ->). rewrite (proj2 (IH (omap id rs'))) by eauto.
        assert (r' = r) as -> by congruence. by destruct r.
    + split; [done|]. intros (rs & (r' & rs' & Hr' & _)%Forall2_cons_inv_l & _). congruence.
Qed.

(** A host that is returned: its entry names it, is neither broken nor retired,
    and lists as many GPUs as counted. *)
Definition host_of (d : list (string * json)) (h : QUADSHost) : Prop :=
  flag "broken" d = false /\ flag "retired" d = false /\
  (exists nm, dget "name" d = Some (JStr nm) /\ hostname h = canonical_hostname nm) /\
  exists l ps, dget "processors" d = Some (JList l) /\ all_dicts l = Some ps /\
    gpu_count h = Z.of_nat (length (List.filter is_gpu ps)) /\ (0 < gpu_count h)%Z /\
    exists gpu, List.hd_error (List.filter is_gpu ps) = Some gpu /\
      text_field "vendor" gpu = Some (gpu_vendor h) /\ text_field "product" gpu = Some (gpu_model h).

Lemma parse_host_sound raw h : parse_host raw = Ok (Some h) -> exists d, raw = JObj d /\ host_of d h.
Proof.
  unfold parse_host. destruct raw as [| | | | |d]; try done. destruct (flag "broken" d || flag "retired" d) eqn:Hf; [done|].
  apply orb_false_iff in Hf as [Hb Hr]. destruct (dget "processors" d) as [[| | | |l|]|] eqn:Hp; try done.
  destruct (all_dicts l) as [ps|] eqn:Hps; [|done]. destruct (List.filter is_gpu ps) as [|gpu gpus] eqn:Hg; [done|].
  destruct (dget "name" d) as [[| | |nm| |]|] eqn:Hn; try done.
  destruct (text_field "vendor" gpu) as [v|] eqn:Hv; [|done]. destruct (text_field "product" gpu) as [m|] eqn:Hm; [|done].
  intros [= <-]. exists d. split; [done|]. unfold host_of. split_and!; [done|done|by exists nm|].
  exists l, ps. rewrite Hg. cbn. split_and!; try done. by exists gpu.
Qed.

(** A host of the parsed inventory comes from an entry that is neither
    broken nor retired, carries its canonical name, and lists exactly
    [gpu_count] GPUs, at least one, the first of which gives vendor and model;
    one malformed entry refuses the whole inventory. *)
Theorem get_hosts_sound l hs h : get_hosts (Some (JList l)) = Ok hs -> h ∈ hs ->
  (exists d, JObj d ∈ l /\ host_of d h) /\ Forall (fun raw => is_ok (parse_host raw) = true) l.
Proof.
  cbn. intros (rs & Hrs & ->)%parse_hosts_spec Hh. apply list_elem_of_omap in Hh as (r & Hr & Hid). cbn in Hid. subst r. split.
  - apply list_elem_of_lookup in Hr as [i Hi]. destruct (Forall2_lookup_r _ _ _ _ _ Hrs Hi) as (raw & Hraw & Hp).
    destruct (parse_host_sound raw h Hp) as (d & -> & Hd). exists d. split; [|done]. by eapply list_elem_of_lookup_2.
  - clear -Hrs. induction Hrs as [|raw r l rs Hr _ IH]; constructor; [by rewrite Hr|done].
Qed.

(** A poll succeeds or keeps the cache. *)
Definition poll_result (a : Z * option json * option json) : option (Z * list QUADSHost * list string) :=
  let '(now, h, v) := a in
  match get_hosts h, get_available v with Ok hs, Ok av => Some (now, hs, av) | _, _ => None end.

Definition polls (l : list (Z * option json * option json)) : QUADSPoller :=
  fold_left (fun p a => let '(now, h, v) := a in _poll_once p now h v) l new_poller.

(** The polls since the last success. *)
Fixpoint trailing_failures (l : list (Z * option json * option json)) : nat :=
  match l with [] => 0 | a :: l => if is_some (poll_result a) then 0 else S (trailing_failures l) end.

(** The poller's snapshot is the parsed inventory and availability of the
    last poll where both answers were valid, taken together, with its time; it
    survives any later failures, which the counter counts exactly. *)
Theorem poller_snapshot l :
  let p := polls l in
  _consecutive_failures p = Z.of_nat (trailing_failures (rev l)) /\
  match last (omap poll_result l) with
  | None => _hosts p = [] /\ _available p = [] /\ _last_sync p = None
  | Some (now, hs, av) => _hosts p = hs /\ _available p = av /\ _last_sync p = Some now
  end.
Proof.
  induction l as [|[[now h] v] l IH] using rev_ind; [done|]. cbn in *. unfold polls in *. rewrite fold_left_app, rev_app_distr, omap_app.
  cbn. set (p := fold_left _ l new_poller) in *. destruct IH as [IH1 IH2]. unfold _poll_once.
  destruct (get_hosts h) as [hs|e]; cbn; [destruct (get_available v) as [av|e]; cbn|].
  - by rewrite last_snoc.
  - rewrite app_nil_r. split; [rewrite IH1; lia|done].
  - rewrite app_nil_r. split; [rewrite IH1; lia|done].
Qed.
