(* ===== verification/VllmFit.v ===== *)
(** * Memory planning for vLLM launches ([inference_proxy/provisioning/vllm_fit.py])

    From the selected devices' memory, the model's weights and attention
    geometry, and the operator's explicit choices, the settings of one launch
    attempt.  Floats are those of [PyFloat], rounding included.  Explanatory
    texts are constructors of [Reason]; [snapshot] is what the model cache holds
    for a model and [py_str] is Python's [str] on decoded JSON. *)

From Stdlib Require Import Ascii.
From S2P Require Import Prelude PyDict Json PyFloat.
Local Open Scope Z_scope.

Definition MIB : Z := 1024 * 1024.

Definition CONTEXT_LADDER : list Z := [2048; 4096; 8192; 16384; 32768; 65536; 131072].
Definition MIN_CONTEXT : Z := 2048.
Definition BATCH_LADDER : list Z := [2048; 4096; 8192; 16384; 32768].
Definition MIN_GPU_MEMORY_UTILIZATION : float := cents 50.
Definition DEFAULT_GPU_MEMORY_UTILIZATION : float := cents 90.

Definition PROFILE_RUNTIME_OVERHEAD_MIB : list (string * Z) :=
  [("hopper", 6144); ("ampere-a100", 5120); ("ampere-a30", 4096); ("ga102-dc", 4096); ("volta", 4096); ("turing", 2048);
   ("consumer-ada", 2048); ("consumer-ampere", 2048); ("consumer-turing", 2048)].
Definition DEFAULT_RUNTIME_OVERHEAD_MIB : Z := 4096.
Definition MIN_RESERVE_MIB : Z := 256.
Definition RESERVE_FRACTION : float := cents 2.
Definition APPROXIMATE_RESERVE_FRACTION : float := cents 10.

Definition PROFILE_DESIRED_CONTEXT : list (string * Z) :=
  [("hopper", 32768); ("ampere-a100", 32768); ("ampere-a30", 32768); ("ga102-dc", 32768); ("volta", 8192); ("turing", 8192);
   ("consumer-ada", 4096); ("consumer-ampere", 4096); ("consumer-turing", 4096)].
Definition DEFAULT_DESIRED_CONTEXT : Z := 4096.

Definition PROFILE_COMPUTE_CAPABILITY : list (string * (Z * Z)) :=
  [("hopper", (9, 0)); ("ampere-a100", (8, 0)); ("ampere-a30", (8, 0)); ("ga102-dc", (8, 6)); ("volta", (7, 0));
   ("turing", (7, 5)); ("consumer-ada", (8, 9)); ("consumer-ampere", (8, 6)); ("consumer-turing", (7, 5))].

Definition DATACENTER_BUCKETS : list string := ["hopper"; "ampere-a100"; "ampere-a30"; "ga102-dc"; "volta"].

Definition _DTYPE_BYTES : list (string * Z) :=
  [("auto", 2); ("half", 2); ("float16", 2); ("bfloat16", 2); ("float", 4); ("float32", 4); ("float8", 1); ("int8", 1)].

Definition _dtype_bytes (dtype : option string) : Z :=
  match dtype with None => 2 | Some d => or_default (dget (py_lower (py_strip d)) _DTYPE_BYTES) 2 end.

Record VllmModelProfile := mkProfile {
  m_name : string;
  weights_mib : Z;
  num_hidden_layers : Z;
  hidden_size : Z;
  num_attention_heads : Z;
  num_key_value_heads : Z;
  head_dim : Z;
  max_position_embeddings : Z;
  kv_dtype : string;
  quantized : bool;
  approximate : bool;
}.

Record VllmDeviceMemory := mkDevice { index : Z; total_mib : Z; free_mib : Z; compute_capability : option string }.

Record VllmRequested := mkRequested {
  q_model : option string;
  q_tensor_parallel_size : option Z;
  q_max_model_len : option Z;
  q_max_num_batched_tokens : option Z;
  q_gpu_memory_utilization : option float;
  q_dtype : option string;
  q_gpu_devices : option (list Z);
}.

Definition no_request : VllmRequested := mkRequested None None None None None None None.

(** Why a plan does or does not fit. *)
Inductive Reason :=
| tp_exceeds_devices (tp devices : Z)
| tp_not_shardable (tp heads kv_heads : Z)
| explicit_utilization_needs (u : float)
| minimum_utilization_unavailable (cap : float)
| weights_exceed_budget (weights_per_gpu : Z)
| explicit_len_needs (len kv_budget : Z)
| explicit_len_fits
| minimum_context_needs (fitting : Z)
| context_reduced (desired chosen kv_budget : Z)
| context_fits (chosen : Z)
| retried (r : Reason) (attempt len : Z).

Inductive AdjustmentReason := oom_retry | free_memory | topology_forced.
Inductive Setting := Whole (z : Z) | Fraction (x : float).
Inductive Field := tensor_parallel_size | max_model_len | max_num_batched_tokens | gpu_memory_utilization.
Record VllmAdjustment := mkAdjustment { field : Field; previous : Setting; value : Setting; reason : AdjustmentReason }.

Inductive ModelSelection := explicit | automatic.

Record VllmEffective := mkEffective {
  e_tensor_parallel_size : Z;
  e_max_model_len : Z;
  e_max_num_batched_tokens : Z;
  e_gpu_memory_utilization : float;
  e_dtype : string;
  e_attention_backend : option string;
}.

Record VllmEstimate := mkEstimate {
  est_weights_mib : Z;
  weights_per_gpu_mib : Z;
  kv_cache_mib : Z;
  runtime_overhead_mib : Z;
  reserve_mib : Z;
  usable_budget_mib : Z;
  free_per_gpu_mib : Z;
}.

Definition estimate_total_mib (e : VllmEstimate) : Z :=
  weights_per_gpu_mib e + kv_cache_mib e + runtime_overhead_mib e + reserve_mib e.

Record VllmFitPlan := mkPlan {
  p_model : string;
  p_model_selection : ModelSelection;
  p_attempt : Z;
  fitting : bool;
  p_reason : Reason;
  p_effective : VllmEffective;
  p_estimate : VllmEstimate;
  adjustments : list VllmAdjustment;
  retry_available : bool;
  p_approximate : bool;
}.

(** ** Models *)

Definition _MODEL_CATALOG : list (string * VllmModelProfile) :=
  let entry name w l h a kv d maxp dt q := (name, mkProfile name w l h a kv d maxp dt q false) in
  [entry "Qwen/Qwen2.5-72B-Instruct" 145000 80 8192 64 8 128 32768 "bfloat16" false;
   entry "Qwen/Qwen2.5-32B-Instruct" 64000 64 5120 40 8 128 32768 "bfloat16" false;
   entry "Qwen/Qwen2.5-14B-Instruct" 28500 48 5120 40 8 128 32768 "bfloat16" false;
   entry "Qwen/Qwen2.5-7B-Instruct" 15200 28 3584 28 4 128 32768 "bfloat16" false;
   entry "Qwen/Qwen3-14B-AWQ" 9500 40 5120 40 8 128 40960 "float16" true].

(** [ValueError] and, for the one loop without a counter, not returning. *)
Inductive PlanError := ValueError (text : string) | Diverges.

Definition is_digit (a : ascii) : bool := let n := nat_of_ascii a in Nat.leb 48 n && Nat.leb n 57.
Definition is_letter (a : ascii) : bool :=
  let n := nat_of_ascii (ascii_lower a) in Nat.leb 97 n && Nat.leb n 122.

(** The digits in front: their value after [acc], their number, the rest. *)
Fixpoint take_digits (acc : Z) (k : nat) (s : string) : Z * nat * string :=
  match s with
  | String a s' =>
      if is_digit a then take_digits (acc * 10 + Z.of_nat (nat_of_ascii a - 48)) (S k) s' else (acc, k, s)
  | EmptyString => (acc, k, s)
  end.

(** [isdigit()] of an ASCII text and its value. *)
Definition whole_number (s : string) : option Z :=
  match take_digits 0 0 s with (z, S _, EmptyString) => Some z | _ => None end.

Definition vllm_profile_bucket (compute_capability : string) (total : Z) : result PlanError string :=
  let '(major_text, _, minor_text) := partition "."%char (py_strip compute_capability) in
  match whole_number major_text, whole_number minor_text with
  | Some major, Some minor =>
      let sm := major * 10 + minor in
      let vram_gb := (total + 512) / 1024 in
      if (sm =? 90) && (80 <=? vram_gb) then Ok "hopper"
      else if (sm =? 80) && (40 <=? vram_gb) then Ok "ampere-a100"
      else if (sm =? 80) && (24 <=? vram_gb) then Ok "ampere-a30"
      else if (sm =? 86) && (45056 <=? total) then Ok "ga102-dc"
      else if sm =? 86 then Ok "consumer-ampere"
      else if sm =? 89 then Ok "consumer-ada"
      else if (sm =? 75) && (14336 <=? total) then Ok "turing"
      else if sm =? 75 then Ok "consumer-turing"
      else Err (ValueError "no tested runtime profile")
  | _, _ => Err (ValueError "cannot parse GPU compute capability")
  end.

Definition select_vllm_model (profile_bucket : string) (total_vram_gb : Z) : result PlanError string :=
  let is_in l := bool_decide (profile_bucket ∈ l) in
  if is_in ["hopper"; "ampere-a100"] then
    Ok (if 240 <=? total_vram_gb then "Qwen/Qwen2.5-72B-Instruct"
        else if 80 <=? total_vram_gb then "Qwen/Qwen2.5-32B-Instruct" else "Qwen/Qwen2.5-14B-Instruct")
  else if is_in ["ampere-a30"; "ga102-dc"] then
    Ok (if 80 <=? total_vram_gb then "Qwen/Qwen2.5-32B-Instruct"
        else if 40 <=? total_vram_gb then "Qwen/Qwen2.5-14B-Instruct" else "Qwen/Qwen2.5-7B-Instruct")
  else if is_in ["turing"; "consumer-turing"] then
    Ok (if bool_decide (profile_bucket = "turing") && (total_vram_gb <=? 16) then "Qwen/Qwen3-14B-AWQ"
        else "Qwen/Qwen2.5-7B-Instruct")
  else if is_in ["volta"] then
    Ok (if 96 <=? total_vram_gb then "Qwen/Qwen2.5-32B-Instruct" else "Qwen/Qwen2.5-14B-Instruct")
  else if is_in ["consumer-ada"; "consumer-ampere"] then
    Ok (if 48 <=? total_vram_gb then "Qwen/Qwen2.5-14B-Instruct" else "Qwen/Qwen2.5-7B-Instruct")
  else Err (ValueError "no automatic model policy").

(** [_PARAMETER_PATTERN] at one position: digits, an optional fraction, white
    space, a [b] and no letter after it.  The number is [m / 10 ^ k]. *)
Definition match_parameters (s : string) : option (Z * nat) :=
  match take_digits 0 0 s with
  | (m, S _, rest) =>
      let '(m, k, rest) :=
        match rest with
        | String "."%char frac =>
            match take_digits m 0 frac with (m', S k, rest') => (m', S k, rest') | _ => (m, O, rest) end
        | _ => (m, O, rest)
        end in
      match lstrip rest with
      | String b after =>
          if bool_decide (ascii_lower b = "b"%char) &&
             match after with String c _ => negb (is_letter c) | EmptyString => true end
          then Some (m, k) else None
      | EmptyString => None
      end
  | _ => None
  end.

(** [search]: the first position not preceded by a digit or a dot. *)
Fixpoint search_parameters (preceded : bool) (s : string) : option (Z * nat) :=
  match s with
  | EmptyString => None
  | String a s' =>
      match (if preceded then None else match_parameters s) with
      | Some r => Some r
      | None => search_parameters (is_digit a || bool_decide (a = "."%char)) s'
      end
  end.

Definition _QUANTIZED_MARKERS : list string := ["awq"; "gptq"; "4bit"; "4-bit"; "int4"; "fp8"; "w4a16"].

Fixpoint contains (m s : string) : bool :=
  startswith s m || match s with EmptyString => false | String _ s => contains m s end.

Definition estimate_model_profile (model : string) : result PlanError VllmModelProfile :=
  match search_parameters false model with
  | None => Err (ValueError "cannot estimate the size of model")
  | Some (m, k) =>
      let params := fmul (rnd (inject_Z m / inject_Z (10 ^ Z.of_nat k))) (of_int 1000000000) in
      let quantized := existsb (fun marker => contains marker (py_lower model)) _QUANTIZED_MARKERS in
      let bytes_per_param := if quantized then cents 50 else cents 200 in
      let weights := Qceiling (fdiv (fmul (fmul params bytes_per_param) (cents 110)) (of_int MIB)) in
      let layers := Z.max 24 (Z.min 80 (rhe (fadd (fdiv params (of_int 1000000000)) (of_int 12)))) in
      Ok (mkProfile model weights layers 4096 32 8 (4096 / 32) 8192 (if quantized then "float16" else "bfloat16") quantized true)
  end.

Definition _positive_int (v : option json) : option Z :=
  match v with Some (JNum z) => if z <=? 0 then None else Some z | _ => None end.

Definition _WEIGHT_SUFFIXES : list string := [".safetensors"; ".bin"; ".gguf"; ".pt"].

(** A cached checkpoint: its [config.json] ([None] when unreadable) and the
    names and sizes of its files. *)
Record Snapshot := mkSnapshot { config_json : option json; files : list (string * Z) }.

Section plan.
Context (py_str : json -> string) (snapshot : string -> option Snapshot).

Definition load_model_profile (name : string) (sn : Snapshot) : option VllmModelProfile :=
  match config_json sn with
  | Some (JObj config) =>
      match _positive_int (dget "num_hidden_layers" config), _positive_int (dget "hidden_size" config),
            _positive_int (dget "num_attention_heads" config) with
      | Some layers, Some hidden, Some heads =>
          let kv_heads := or_default (_positive_int (dget "num_key_value_heads" config)) heads in
          let dim := or_default (_positive_int (dget "head_dim" config)) (Z.max 1 (hidden / heads)) in
          let max_positions :=
            match _positive_int (dget "max_position_embeddings" config) with
            | Some m => m
            | None => or_default (_positive_int (dget "model_max_length" config)) 8192
            end in
          let weights :=
            foldr (fun f acc => acc + Qceiling (int_div (snd f) MIB)) 0
              (List.filter (fun f => existsb (endswith (fst f)) _WEIGHT_SUFFIXES) (files sn)) in
          if weights =? 0 then None
          else
            let raw_dtype :=
              match dget "torch_dtype" config with
              | Some j => if truthy j then Some j else dget "dtype" config
              | None => dget "dtype" config
              end in
            let dtype := match raw_dtype with
                         | Some JNull | None => "bfloat16" | Some (JStr s) => s | Some j => py_str j
                         end in
            let quantized := match dget "quantization_config" config with Some (JObj _) => true | _ => false end ||
                             bool_decide (py_lower dtype ∈ ["int8"; "float8"]) in
            Some (mkProfile name weights layers hidden heads kv_heads dim max_positions
                    (if quantized then "float16" else dtype) quantized false)
      | _, _, _ => None
      end
  | _ => None
  end.

Definition model_profile_for (model : string) : result PlanError VllmModelProfile :=
  match dget model _MODEL_CATALOG with
  | Some known => Ok known
  | None =>
      match snapshot model ≫= load_model_profile model with
      | Some loaded => Ok loaded
      | None => estimate_model_profile model
      end
  end.

(** ** Planning *)

Definition _context_halved (e : VllmEffective) : VllmEffective :=
  let len := Z.max MIN_CONTEXT (e_max_model_len e / 2) in
  mkEffective (e_tensor_parallel_size e) len (Z.min (e_max_num_batched_tokens e) len) (e_gpu_memory_utilization e)
    (e_dtype e) (e_attention_backend e).

Definition _batch_reduced (e : VllmEffective) : VllmEffective :=
  mkEffective (e_tensor_parallel_size e) (e_max_model_len e) (Z.min (e_max_num_batched_tokens e) MIN_CONTEXT)
    (e_gpu_memory_utilization e) (e_dtype e) (e_attention_backend e).

Definition reduced_utilization (u : float) : float := fmax MIN_GPU_MEMORY_UTILIZATION (round2 (fsub u (cents 5))).

Definition _utilization_reduced (e : VllmEffective) : VllmEffective :=
  mkEffective (e_tensor_parallel_size e) (e_max_model_len e) (e_max_num_batched_tokens e)
    (reduced_utilization (e_gpu_memory_utilization e)) (e_dtype e) (e_attention_backend e).

Inductive Step := ContextStep | BatchStep | UtilizationStep.

Definition ADJUSTMENT_POLICY : list Step := [ContextStep; BatchStep; UtilizationStep].

Definition apply_step (st : Step) : VllmEffective -> VllmEffective :=
  match st with
  | ContextStep => _context_halved | BatchStep => _batch_reduced | UtilizationStep => _utilization_reduced
  end.

Definition is_explicit (st : Step) (q : VllmRequested) : bool :=
  match st with
  | ContextStep => is_some (q_max_model_len q)
  | BatchStep => is_some (q_max_num_batched_tokens q)
  | UtilizationStep => is_some (q_gpu_memory_utilization q)
  end.

(** Whether two settings have the same [_reduction_key]. *)
Definition same_reduction_key (a b : VllmEffective) : bool :=
  (e_max_model_len a =? e_max_model_len b) && (e_max_num_batched_tokens a =? e_max_num_batched_tokens b) &&
  feqb (e_gpu_memory_utilization a) (e_gpu_memory_utilization b).

Definition _utilization_fits (devices : list VllmDeviceMemory) (u : float) : bool :=
  if fleb u 0%Q then false
  else forallb (fun d => Qceiling (fmul (of_int (total_mib d)) u) <=? free_mib d) devices.

(** The loop that lowers the candidate by a cent; [None] when the fuel is
    used up. *)
Fixpoint lower_candidate (fuel : nat) (devices : list VllmDeviceMemory) (candidate : float) : option float :=
  if fltb 0%Q candidate && negb (_utilization_fits devices candidate) then
    match fuel with
    | O => None
    | S fuel => lower_candidate fuel devices (round2 (fsub candidate (cents 1)))
    end
  else Some candidate.

Fixpoint free_ratio (ratio : float) (devices : list VllmDeviceMemory) : option float :=
  match devices with
  | [] => Some ratio
  | d :: devices =>
      if total_mib d <=? 0 then None else free_ratio (fmin ratio (int_div (free_mib d) (total_mib d))) devices
  end.

Definition _max_fitting_utilization (devices : list VllmDeviceMemory) : option float :=
  match devices with
  | [] => Some 0%Q
  | _ =>
      match free_ratio (cents 100) devices with
      | None => Some 0%Q
      | Some ratio =>
          fmax 0%Q <$> lower_candidate 100 devices (int_div (Qfloor (fmul ratio (of_int 100))) 100)
      end
  end.

Definition _effective_weights_mib (m : VllmModelProfile) (dtype : string) : Z :=
  if quantized m then weights_mib m
  else
    let native := _dtype_bytes (Some (kv_dtype m)) in
    let chosen := _dtype_bytes (Some dtype) in
    if chosen =? native then weights_mib m else Qceiling (int_div (weights_mib m * chosen) native).

Definition _kv_bytes_per_token_for (m : VllmModelProfile) (dtype : string) : Z :=
  2 * num_hidden_layers m * num_key_value_heads m * head_dim m * _dtype_bytes (Some dtype).

Definition _tensor_parallel_valid (m : VllmModelProfile) (tp : Z) : bool :=
  if tp <=? 1 then true
  else
    let heads := num_attention_heads m in
    let kv_heads := Z.min (num_key_value_heads m) heads in
    if (heads <? tp) || negb (heads mod tp =? 0) then false
    else if tp <=? kv_heads then kv_heads mod tp =? 0 else tp mod kv_heads =? 0.

(** [for candidate in range(n, 0, -1)] *)
Fixpoint first_valid_tp (m : VllmModelProfile) (n : nat) : Z :=
  match n with
  | O => 1
  | S n' => if _tensor_parallel_valid m (Z.of_nat n) then Z.of_nat n else first_valid_tp m n'
  end.

Definition _largest_valid_tensor_parallel (m : VllmModelProfile) (device_count : Z) : Z :=
  first_valid_tp m (Z.to_nat (Z.min device_count (num_attention_heads m))).

Fixpoint ladder_from (best limit : Z) (ladder : list Z) : Z :=
  match ladder with
  | [] => best
  | v :: ladder => if v <=? limit then ladder_from v limit ladder else best
  end.
Definition largest_ladder_value (limit : Z) (ladder : list Z) : Z := ladder_from 0 limit ladder.

Definition _default_tensor_parallel (bucket : string) (device_count : Z) : Z :=
  if bool_decide (bucket ∈ DATACENTER_BUCKETS) then Z.max 1 device_count else 1.

(** Python's order on pairs, against [(major, 0)]. *)
Definition capability_at_least (bucket : string) (major : Z) : bool :=
  let '(a, b) := or_default (dget bucket PROFILE_COMPUTE_CAPABILITY) (7, 5) in (major <? a) || ((a =? major) && (0 <=? b)).

Definition _choose_dtype (bucket : string) (m : VllmModelProfile) : string :=
  if quantized m || negb (capability_at_least bucket 8) then "float16"
  else if bool_decide (kv_dtype m ∈ ["bfloat16"; "float16"]) then kv_dtype m else "bfloat16".

Definition _choose_attention_backend (bucket : string) : option string :=
  if capability_at_least bucket 9 then Some "FLASHINFER"
  else if capability_at_least bucket 8 then Some "FLASH_ATTN" else None.

Definition zmin (l : list Z) : result PlanError Z :=
  match l with [] => Err (ValueError "min() arg is an empty sequence") | z :: l => Ok (foldr Z.min z l) end.

(** [devices[:tp]] *)
Definition slice_to {A} (tp : Z) (l : list A) : list A :=
  take (Z.to_nat (if tp <? 0 then Z.of_nat (length l) + tp else tp)) l.

Definition _resolve_model (bucket : string) (devices : list VllmDeviceMemory) (q : VllmRequested) (tp : Z)
  : result PlanError (string * ModelSelection) :=
  let automatic_model :=
    let? smallest := zmin (List.map total_mib devices) in
    let per_card_gb := (smallest + 512) / 1024 in
    let sizing_gb := if bool_decide (bucket ∈ DATACENTER_BUCKETS) then tp * per_card_gb else per_card_gb in
    let? name := select_vllm_model bucket sizing_gb in
    Ok (name, automatic) in
  match q_model q with
  | Some name => if str_truthy name then Ok (name, explicit) else automatic_model
  | None => automatic_model
  end.

Record Topology := mkTopology {
  top_model : string;
  top_selection : ModelSelection;
  top_profile : VllmModelProfile;
  top_tp : Z;
  top_blocked : option Reason;
  top_adjustment : option VllmAdjustment;
}.

Definition or_else {A} (a : option A) (b : A) : option A := match a with Some _ => a | None => Some b end.

(** The loop over models and tensor-parallel sizes, with [n] rounds after this
    one; [allocated] is always [devices[:tp]]. *)
Fixpoint resolve_topology (n : nat) (bucket : string) (devices : list VllmDeviceMemory) (q : VllmRequested) (tp : Z)
  (blocked : option Reason) (adj : option VllmAdjustment) : result PlanError Topology :=
  let? (name, sel) := _resolve_model bucket (slice_to tp devices) q tp in
  let? m := model_profile_for name in
  if _tensor_parallel_valid m tp then Ok (mkTopology name sel m tp blocked adj)
  else if is_some (q_tensor_parallel_size q) then
    Ok (mkTopology name sel m tp (or_else blocked (tp_not_shardable tp (num_attention_heads m) (num_key_value_heads m))) adj)
  else
    let reduced := _largest_valid_tensor_parallel m (Z.of_nat (length devices)) in
    if reduced =? tp then Ok (mkTopology name sel m tp blocked adj)
    else
      let adj := or_else adj (mkAdjustment tensor_parallel_size (Whole tp) (Whole reduced) topology_forced) in
      match n with
      | O => Ok (mkTopology name sel m reduced blocked adj)
      | S n => resolve_topology n bucket devices q reduced blocked adj
      end.

Definition initial_tp (bucket : string) (q : VllmRequested) (device_count : Z) : Z * option Reason :=
  let tp := match q_tensor_parallel_size q with
            | Some tp => if tp =? 0 then _default_tensor_parallel bucket device_count else tp
            | None => _default_tensor_parallel bucket device_count
            end in
  if device_count <? tp then
    (device_count, if is_some (q_tensor_parallel_size q) then Some (tp_exceeds_devices tp device_count) else None)
  else (tp, None).

(** The utilization before any retry; [None] in the first component when the
    search does not return. *)
Definition choose_utilization (q : VllmRequested) (allocated : list VllmDeviceMemory) (blocked : option Reason)
  : option (float * option Reason * list VllmAdjustment) :=
  match q_gpu_memory_utilization q with
  | Some u =>
      Some (u, if _utilization_fits allocated u then blocked
               else or_else blocked (explicit_utilization_needs u), [])
  | None =>
      (fun cap =>
         let u := fmin DEFAULT_GPU_MEMORY_UTILIZATION cap in
         if fltb u DEFAULT_GPU_MEMORY_UTILIZATION then
           if fltb u MIN_GPU_MEMORY_UTILIZATION then (u, or_else blocked (minimum_utilization_unavailable cap), [])
           else (u, blocked,
                 [mkAdjustment gpu_memory_utilization (Fraction DEFAULT_GPU_MEMORY_UTILIZATION) (Fraction u) free_memory])
         else (u, blocked, []))
        <$> _max_fitting_utilization allocated
  end.

Definition _memory_budget (m : VllmModelProfile) (devices : list VllmDeviceMemory) (tp : Z) (u : float)
  (weights kv_bytes_per_token : Z) : result PlanError (Z * Z * Z * Z * float) :=
  let? budget := zmin (List.map (fun d => Z.min (free_mib d) (Qfloor (fmul (of_int (total_mib d)) u))) devices) in
  let? free := zmin (List.map free_mib devices) in
  let weights_per_gpu := Qceiling (int_div weights tp) in
  let kv_shards := Z.max 1 (Z.min tp (num_key_value_heads m)) in
  let kv_per_token := fdiv (int_div kv_bytes_per_token kv_shards) (of_int MIB) in
  Ok (budget - weights_per_gpu, budget, free, weights_per_gpu, kv_per_token).

Definition _fit_context (m : VllmModelProfile) (q : VllmRequested) (desired_context current_context kv_budget : Z)
  (kv_per_token : float) (weights_per_gpu : Z) : bool * Z * Reason :=
  if (kv_budget <=? 0) || fleb kv_per_token 0%Q then (false, current_context, weights_exceed_budget weights_per_gpu)
  else
    let max_context_by_kv := Qfloor (fdiv (of_int kv_budget) kv_per_token) in
    if is_some (q_max_model_len q) then
      if max_context_by_kv <? current_context
      then (false, current_context, explicit_len_needs current_context kv_budget)
      else (true, current_context, explicit_len_fits)
    else
      let ceiling := Z.min (Z.min current_context max_context_by_kv) (max_position_embeddings m) in
      let chosen := largest_ladder_value ceiling CONTEXT_LADDER in
      if chosen <? MIN_CONTEXT then (false, MIN_CONTEXT, minimum_context_needs max_context_by_kv)
      else if chosen <? desired_context then (true, chosen, context_reduced desired_context chosen kv_budget)
      else (true, chosen, context_fits chosen).

Definition with_context (len : Z) (e : VllmEffective) : VllmEffective :=
  mkEffective (e_tensor_parallel_size e) len (Z.min (e_max_num_batched_tokens e) len) (e_gpu_memory_utilization e)
    (e_dtype e) (e_attention_backend e).

Definition with_batch (b : Z) (e : VllmEffective) : VllmEffective :=
  mkEffective (e_tensor_parallel_size e) (e_max_model_len e) b (e_gpu_memory_utilization e) (e_dtype e) (e_attention_backend e).

(** The second pass over the retry steps: context and batch are lowered here,
    the utilization step only records what was done before sizing. *)
Fixpoint apply_retries (before : float) (steps : list Step) (e : VllmEffective) (adj : list VllmAdjustment)
  : VllmEffective * list VllmAdjustment :=
  match steps with
  | [] => (e, adj)
  | st :: steps =>
      let record f old new := mkAdjustment f old new oom_retry in
      match st with
      | UtilizationStep =>
          apply_retries before steps e
            (if feqb (e_gpu_memory_utilization e) before then adj
             else adj ++ [record gpu_memory_utilization (Fraction before) (Fraction (e_gpu_memory_utilization e))])
      | ContextStep =>
          let e' := _context_halved e in
          apply_retries before steps e'
            (if e_max_model_len e' =? e_max_model_len e then adj
             else adj ++ [record max_model_len (Whole (e_max_model_len e)) (Whole (e_max_model_len e'))])
      | BatchStep =>
          let e' := _batch_reduced e in
          apply_retries before steps e'
            (if e_max_num_batched_tokens e' =? e_max_num_batched_tokens e then adj
             else adj ++ [record max_num_batched_tokens (Whole (e_max_num_batched_tokens e)) (Whole (e_max_num_batched_tokens e'))])
      end
  end.

Definition is_utilization (st : Step) : bool := match st with UtilizationStep => true | _ => false end.

(** Everything after the topology and the utilization are known. *)
Definition size_launch (bucket : string) (devices : list VllmDeviceMemory) (q : VllmRequested) (attempt : Z)
  (runtime_overhead : option Z) (top : Topology) (u : float) (blocked : option Reason) (adj : list VllmAdjustment)
  : result PlanError VllmFitPlan :=
  let m := top_profile top in
  let allocated := slice_to (top_tp top) devices in
  let dtype := match q_dtype q with
               | Some d => if str_truthy d then d else _choose_dtype bucket m
               | None => _choose_dtype bucket m
               end in
  let weights := _effective_weights_mib m dtype in
  let desired := Z.min (or_default (dget bucket PROFILE_DESIRED_CONTEXT) DEFAULT_DESIRED_CONTEXT) (max_position_embeddings m) in
  let context := match q_max_model_len q with
                 | Some len => len
                 | None => Z.max MIN_CONTEXT (largest_ladder_value desired CONTEXT_LADDER)
                 end in
  let batched := match q_max_num_batched_tokens q with
                 | Some b => b
                 | None => Z.max MIN_CONTEXT (largest_ladder_value context BATCH_LADDER)
                 end in
  let e := mkEffective (top_tp top) context batched u dtype (_choose_attention_backend bucket) in
  let applicable := List.filter (fun st => negb (is_explicit st q)) ADJUSTMENT_POLICY in
  let steps := take (Z.to_nat attempt) applicable in
  let overhead := match runtime_overhead with
                  | Some o => o
                  | None => or_default (dget bucket PROFILE_RUNTIME_OVERHEAD_MIB) DEFAULT_RUNTIME_OVERHEAD_MIB
                  end in
  let e := if existsb is_utilization steps then _utilization_reduced e else e in
  let? (remaining, budget, free, weights_per_gpu, kv_per_token) :=
    _memory_budget m allocated (top_tp top) (e_gpu_memory_utilization e) weights (_kv_bytes_per_token_for m dtype) in
  let fraction := if approximate m then APPROXIMATE_RESERVE_FRACTION else RESERVE_FRACTION in
  let reserve := Z.max MIN_RESERVE_MIB (rhe (fmul (of_int budget) fraction)) in
  let kv_budget := remaining - overhead - reserve in
  let '(fits, context, why) := _fit_context m q desired (e_max_model_len e) kv_budget kv_per_token weights_per_gpu in
  let '(e, adj) := apply_retries u steps (with_context context e) adj in
  let e := match q_max_num_batched_tokens q with
           | None => with_batch (Z.min (e_max_num_batched_tokens e) (e_max_model_len e)) e
           | Some b => with_batch b e
           end in
  let why := if fits && negb (e_max_model_len e =? context) then retried why attempt (e_max_model_len e) else why in
  let blocked := if fits then blocked else or_else blocked why in
  let fits := fits && is_none blocked in
  let retry := match applicable !! Z.to_nat attempt with
               | Some st => fits && negb (same_reduction_key e (apply_step st e))
               | None => false
               end in
  Ok (mkPlan (top_model top) (top_selection top) attempt fits (or_default blocked why) e
        (mkEstimate weights weights_per_gpu (Qceiling (fmul kv_per_token (of_int (e_max_model_len e)))) overhead reserve budget free)
        adj retry (approximate m)).

Definition plan_vllm_launch (bucket : string) (devices : list VllmDeviceMemory) (requested : option VllmRequested)
  (attempt : Z) (runtime_overhead : option Z) : result PlanError VllmFitPlan :=
  if bool_decide (devices = []) then Err (ValueError "a vLLM plan needs at least one selected device")
  else if attempt <? 0 then Err (ValueError "attempt must not be negative")
  else
    let q := or_default requested no_request in
    let '(tp, blocked) := initial_tp bucket q (Z.of_nat (length devices)) in
    let? top := resolve_topology 2 bucket devices q tp blocked None in
    match choose_utilization q (slice_to (top_tp top) devices) (top_blocked top) with
    | None => Err Diverges
    | Some (u, blocked, adj) =>
        size_launch bucket devices q attempt runtime_overhead top u blocked (option_list (top_adjustment top) ++ adj)
    end.
End plan.

(** ** The utilization *)

Lemma utilization_fits_iff devices u : _utilization_fits devices u = true <->
  (0 < u)%Q /\ Forall (fun d => Qceiling (fmul (of_int (total_mib d)) u) <= free_mib d) devices.
Proof.
  unfold _utilization_fits. destruct (fleb u 0%Q) eqn:E.
  - split; [done|]. intros [H _]. apply Qle_bool_iff in E. exfalso. apply (Qlt_not_le _ _ H E).
  - apply fleb_false in E. rewrite List.forallb_forall, Forall_forall. setoid_rewrite list_elem_of_In. setoid_rewrite Z.leb_le. naive_solver.
Qed.

Lemma utilization_fits_mono devices u v : Forall (fun d => 0 <= total_mib d) devices -> (0 < u)%Q -> (u <= v)%Q ->
  _utilization_fits devices v = true -> _utilization_fits devices u = true.
Proof.
  rewrite !utilization_fits_iff. intros Ht Hu Huv [_ Hv]. split; [done|]. rewrite !Forall_forall in *. intros d Hd.
  etrans; [|by apply Hv]. apply Qceiling_resp_le, fmul_mono_r; [by apply Ht|by apply Qlt_le_weak|done].
Qed.

Lemma cents_pos k : 1 <= k -> (0 < cents k)%Q.
Proof. intros H. eapply Qlt_le_trans; [|apply (cents_mono 1 k); lia]. by vm_compute. Qed.

Lemma lower_candidate_spec fuel devices k : 0 <= k <= Z.of_nat fuel -> k <= 100 -> exists j,
  lower_candidate fuel devices (cents k) = Some (cents j) /\ 0 <= j <= k /\ (j = 0 \/ _utilization_fits devices (cents j) = true).
Proof.
  revert k. induction fuel as [|fuel IH]; intros k Hk Hk'.
  - assert (k = 0) as -> by lia. exists 0. split_and!; [|lia|lia|by left]. done.
  - cbn [lower_candidate]. destruct (_utilization_fits devices (cents k)) eqn:Hf.
    { rewrite andb_false_r. exists k. split_and!; [done|lia|lia|by right]. }
    cbn [negb]. rewrite andb_true_r. destruct (Z.eq_dec k 0) as [->|Hne].
    { exists 0. split_and!; [done|lia|lia|by left]. }
    assert (fltb 0%Q (cents k) = true) as ->.
    { unfold fltb. apply negb_true_iff. destruct (Qle_bool (cents k) 0) eqn:E; [|done].
      apply Qle_bool_iff in E. exfalso. apply (Qlt_not_le _ _ (cents_pos k ltac:(lia)) E). }
    rewrite cents_sub by lia. destruct (IH (k - 1)) as (j & -> & Hj & Hor); [lia|lia|].
    exists j. split_and!; [done|lia|lia|done].
Qed.

Lemma free_ratio_le devices r r' : (r <= 1)%Q -> free_ratio r devices = Some r' -> (r' <= 1)%Q.
Proof.
  revert r. induction devices as [|d devices IH]; intros r Hr H; cbn in H; [by injection H as <-|].
  case_match; [done|]. eapply IH; [|exact H]. unfold fmin. case_match eqn:E; [|done].
  apply negb_true_iff in E. apply fleb_false in E. eapply Qle_trans; [apply Qlt_le_weak, E|done].
Qed.

(** The search returns, with nothing or with hundredths that fit. *)
Lemma max_fitting_spec devices : exists c, _max_fitting_utilization devices = Some c /\
  (c = 0%Q \/ exists k, 1 <= k <= 100 /\ c = cents k /\ _utilization_fits devices c = true).
Proof.
  unfold _max_fitting_utilization. destruct devices as [|d devices]; [by eauto|]. set (ds := d :: devices).
  destruct (free_ratio (cents 100) ds) as [ratio|] eqn:Hr; [|by eauto].
  apply free_ratio_le in Hr; [|by vm_compute]. rewrite int_div_cents. set (k := Qfloor _).
  assert (k <= 100) as Hk.
  { unfold k. rewrite <- (Qfloor_Z 100). apply Qfloor_resp_le. destruct (Qlt_le_dec ratio 0) as [Hneg|Hpos].
    - eapply Qle_trans; [apply rnd_nonpos|by vm_compute]. change (of_int 100) with 100%Q.
      rewrite <- (Qmult_0_l 100). apply Qmult_le_r; [done|by apply Qlt_le_weak].
    - eapply Qle_trans; [apply (rnd_mono _ (inject_Z 100))|apply Qle_lteq; right; apply rnd_int; lia]; change (of_int 100) with 100%Q.
      + rewrite <- (Qmult_0_l 100). by apply Qmult_le_r.
      + change (inject_Z 100) with (1 * 100)%Q. by apply Qmult_le_r. }
  destruct (Z_lt_le_dec k 0) as [Hneg|Hpos].
  - assert (cents k <= 0)%Q as Hc by (apply rnd_nonpos; unfold Qle; cbn; lia).
    assert (lower_candidate 100 ds (cents k) = Some (cents k)) as ->.
    { cbn [lower_candidate]. unfold fltb. apply Qle_bool_iff in Hc. by rewrite Hc. }
    exists 0%Q. split; [|by left]. cbn. unfold fmax. apply Qle_bool_iff in Hc. by rewrite Hc.
  - destruct (lower_candidate_spec 100 ds k) as (j & -> & Hj & Hor); [lia|lia|].
    destruct (Z.eq_dec j 0) as [->|Hne]; [exists 0%Q; split; [done|by left]|].
    destruct Hor as [->|Hf]; [done|]. exists (cents j). split.
    + cbn. unfold fmax. pose proof (cents_pos j ltac:(lia)) as Hp. destruct (Qle_bool (cents j) 0) eqn:E; [|done].
      apply Qle_bool_iff in E. exfalso. apply (Qlt_not_le _ _ Hp E).
    + right. exists j. split_and!; [lia|lia|done|done].
Qed.

(** Without a blocking reason the chosen utilization passes vLLM's gate, and an
    automatic one is a whole number of cents between the two limits. *)
Lemma choose_utilization_spec q devices blocked : Forall (fun d => 0 <= total_mib d) devices -> exists u b adj,
  choose_utilization q devices blocked = Some (u, b, adj) /\
  (b = None -> blocked = None /\ _utilization_fits devices u = true /\
     match q_gpu_memory_utilization q with
     | Some v => u = v
     | None => exists k, 50 <= k <= 90 /\ u = cents k
     end).
Proof.
  intros Ht. unfold choose_utilization. destruct (q_gpu_memory_utilization q) as [v|].
  { eexists _, _, _. split; [done|]. destruct (_utilization_fits devices v); [|by destruct blocked]. done. }
  destruct (max_fitting_spec devices) as (c & -> & Hc). cbn [fmap option_fmap option_map]. unfold DEFAULT_GPU_MEMORY_UTILIZATION, MIN_GPU_MEMORY_UTILIZATION.
  unfold fmin. destruct (Qle_bool (cents 90) c) eqn:Hle; cbn [negb].
  - assert (fltb (cents 90) (cents 90) = false) as -> by done. eexists _, _, _. split; [done|]. intros ->. split; [done|].
    apply Qle_bool_iff in Hle. destruct Hc as [->|(k & Hk & -> & Hf)]; [by vm_compute in Hle|]. split.
    + eapply utilization_fits_mono; [done|by vm_compute|exact Hle|done].
    + exists 90. split; [lia|done].
  - assert (fltb c (cents 90) = true) as -> by (unfold fltb; by rewrite Hle).
    destruct (fltb c (cents 50)) eqn:Hlow.
    { eexists _, _, _. split; [done|]. by destruct blocked. }
    eexists _, _, _. split; [done|]. intros ->. split; [done|]. apply fltb_false in Hlow.
    destruct Hc as [->|(k & Hk & -> & Hf)]; [by vm_compute in Hlow|]. split; [done|]. exists k. split; [|done].
    split.
    + destruct (Z_lt_le_dec k 50); [|done]. exfalso. apply (Qlt_not_le (cents k) (cents 50)); [|done].
      eapply Qle_lt_trans; [apply (cents_mono k 49); lia|by vm_compute].
    + destruct (Z_lt_le_dec 90 k); [|done]. exfalso. pose proof (cents_mono 90 k ltac:(lia)) as Hm.
      apply Qle_bool_iff in Hm. congruence.
Qed.

Lemma reduced_cents k : 50 <= k <= 90 -> reduced_utilization (cents k) = cents (Z.max 50 (k - 5)).
Proof.
  intros Hk. unfold reduced_utilization. rewrite cents_sub by lia. unfold fmax, MIN_GPU_MEMORY_UTILIZATION.
  destruct (Z_le_gt_dec k 55) as [H|H].
  - rewrite Z.max_l by lia. rewrite (proj2 (Qle_bool_iff _ _)); [done|]. apply cents_mono. lia.
  - rewrite Z.max_r by lia. destruct (Qle_bool (cents (k - 5)) (cents 50)) eqn:E; [|done]. exfalso. apply Qle_bool_iff in E.
    apply (Qlt_not_le (cents 50) (cents (k - 5))); [|done]. eapply Qlt_le_trans; [|apply (cents_mono 51); lia]. by vm_compute.
Qed.

(** ** Models and topology *)

Lemma first_valid_spec m n : _tensor_parallel_valid m (first_valid_tp m n) = true /\
  1 <= first_valid_tp m n <= Z.max 1 (Z.of_nat n).
Proof.
  induction n as [|n [IH1 IH2]]; [done|]. cbn [first_valid_tp]. destruct (_tensor_parallel_valid m (Z.of_nat (S n))) eqn:E;
    [split; [done|lia]|split; [done|lia]].
Qed.

Lemma largest_valid_spec m n : 1 <= n -> _tensor_parallel_valid m (_largest_valid_tensor_parallel m n) = true /\
  1 <= _largest_valid_tensor_parallel m n <= n.
Proof.
  intros Hn. unfold _largest_valid_tensor_parallel.
  destruct (first_valid_spec m (Z.to_nat (Z.min n (num_attention_heads m)))) as [H1 H2]. split; [done|]. lia.
Qed.

Lemma take_digits_nonneg acc k s : 0 <= acc -> 0 <= fst (fst (take_digits acc k s)).
Proof. revert acc k. induction s as [|a s IH]; intros acc k H; cbn; [done|]. case_match; [apply IH; lia|done]. Qed.

Lemma match_parameters_nonneg s m k : match_parameters s = Some (m, k) -> 0 <= m.
Proof.
  unfold match_parameters. pose proof (take_digits_nonneg 0 0 s ltac:(lia)) as H.
  destruct (take_digits 0 0 s) as [[z [|n]] rest]; [done|]. cbn in H.
  assert (forall rest (z' : Z) (k' : nat), 0 <= z' -> match lstrip rest with
    | String b after => if bool_decide (ascii_lower b = "b"%char) && match after with String c _ => negb (is_letter c) | "" => true end
                        then Some (z', k') else None
    | "" => None end = Some (m, k) -> 0 <= m) as Hgo.
  { intros r z' k' Hz Hm. destruct (lstrip r); [done|]. case_match; [|done]. by injection Hm as <- <-. }
  destruct rest as [|a frac]; [by eapply Hgo|].
  destruct (ascii_dec a "."%char) as [->|Hne].
  - pose proof (take_digits_nonneg z 0 frac H) as H'. destruct (take_digits z 0 frac) as [[z' [|k']] rest']; by eapply Hgo.
  - assert (forall X (x y : X), match a with "."%char => x | _ => y end = y) as Ha.
    { intros. destruct a as [[] [] [] [] [] [] [] []]; done. }
    rewrite Ha. by eapply Hgo.
Qed.

Lemma search_parameters_nonneg p s m k : search_parameters p s = Some (m, k) -> 0 <= m.
Proof.
  revert p. induction s as [|a s IH]; intros p H; [done|]. cbn [search_parameters] in H. destruct p; [by eapply IH|].
  destruct (match_parameters (String a s)) as [[m' k']|] eqn:E; [|by eapply IH].
  injection H as -> ->. by eapply match_parameters_nonneg.
Qed.

Lemma Qceiling_nonneg x : (0 <= x)%Q -> 0 <= Qceiling x.
Proof. intros H. rewrite <- (Qceiling_Z 0). by apply Qceiling_resp_le. Qed.

Lemma Qdiv_nonneg x y : (0 <= x)%Q -> (0 < y)%Q -> (0 <= x / y)%Q.
Proof. intros Hx Hy. apply Qle_shift_div_l; [done|]. by rewrite Qmult_0_l. Qed.

Lemma int_div_nonneg a b : 0 <= a -> 0 < b -> (0 <= int_div a b)%Q.
Proof.
  intros Ha Hb. apply rnd_nonneg, Qdiv_nonneg; change 0%Q with (inject_Z 0); [by rewrite <- Zle_Qle|by rewrite <- Zlt_Qlt].
Qed.

Lemma dget_Forall {A} (P : A -> Prop) k v (l : list (string * A)) : Forall (fun kv => P (snd kv)) l -> dget k l = Some v -> P v.
Proof. intros Hall H%dget_Some_in. rewrite Forall_forall in Hall. exact (Hall _ H). Qed.

Section lemmas.
Context (py_str : json -> string) (snapshot : string -> option Snapshot).
Hypothesis sizes_ok : forall name sn, snapshot name = Some sn -> Forall (fun f => 0 <= snd f) (files sn).

Lemma load_weights_nonneg name sn m : Forall (fun f => 0 <= snd f) (files sn) ->
  load_model_profile py_str name sn = Some m -> 0 <= weights_mib m.
Proof.
  intros Hf H. unfold load_model_profile in H. destruct (config_json sn) as [[| | | | |config]|]; try done.
  repeat (case_match; [|done]). case_match; [done|]. injection H as <-. cbn [weights_mib]. clear -Hf.
  induction Hf as [|f fs Hf Hfs IH]; [done|]. cbn [List.filter]. case_match; [|exact IH]. cbn [foldr].
  pose proof (Qceiling_nonneg _ (int_div_nonneg (snd f) MIB Hf ltac:(done))). lia.
Qed.

Lemma estimate_weights_nonneg name m : estimate_model_profile name = Ok m -> 0 <= weights_mib m.
Proof.
  unfold estimate_model_profile. destruct (search_parameters false name) as [[z k]|] eqn:E; [|done].
  intros [= <-]. cbn [weights_mib]. apply search_parameters_nonneg in E. apply Qceiling_nonneg, rnd_nonneg, Qdiv_nonneg; [|done].
  assert (0 <= rnd (inject_Z z / inject_Z (10 ^ Z.of_nat k)))%Q as Hp by (apply int_div_nonneg; lia).
  apply rnd_nonneg, Qmult_le_0_compat; [|done]. apply rnd_nonneg, Qmult_le_0_compat; [|by case_match].
  by apply rnd_nonneg, Qmult_le_0_compat.
Qed.

Lemma profile_weights_nonneg name m : model_profile_for py_str snapshot name = Ok m -> 0 <= weights_mib m.
Proof.
  unfold model_profile_for. destruct (dget name _MODEL_CATALOG) as [k|] eqn:Hk.
  { intros [= <-]. revert Hk. apply (dget_Forall (fun m => 0 <= weights_mib m)). repeat constructor; cbn; lia. }
  destruct (snapshot name) as [sn|] eqn:Hs; cbn; [|apply estimate_weights_nonneg].
  destruct (load_model_profile py_str name sn) as [l|] eqn:Hl; [|apply estimate_weights_nonneg].
  intros [= <-]. eapply load_weights_nonneg; [by eapply sizes_ok|done].
Qed.

Lemma initial_tp_bounds bucket q n : 1 <= n -> (forall t, q_tensor_parallel_size q = Some t -> 1 <= t) ->
  1 <= fst (initial_tp bucket q n) <= n.
Proof.
  intros Hn Hq. unfold initial_tp, _default_tensor_parallel. destruct (q_tensor_parallel_size q) as [t|].
  - specialize (Hq t eq_refl). rewrite (proj2 (Z.eqb_neq t 0)) by lia. destruct (n <? t) eqn:E; bool_to_prop; cbn; lia.
  - destruct (bool_decide _); (destruct (n <? _) eqn:E; bool_to_prop; cbn; lia).
Qed.

(** The topology: the size is between one and the number of devices, and
    without a blocking reason the model can be sharded that way. *)
Lemma topology_spec n bucket devices q tp blocked adj top :
  1 <= tp <= Z.of_nat (length devices) ->
  resolve_topology py_str snapshot n bucket devices q tp blocked adj = Ok top ->
  1 <= top_tp top <= Z.of_nat (length devices) /\ 0 <= weights_mib (top_profile top) /\
  model_profile_for py_str snapshot (top_model top) = Ok (top_profile top) /\
  (top_blocked top = None -> blocked = None /\ _tensor_parallel_valid (top_profile top) (top_tp top) = true) /\
  (is_some (q_tensor_parallel_size q) = true -> top_tp top = tp).
Proof.
  revert tp adj. induction n as [|n IH]; intros tp adj Htp H; cbn [resolve_topology] in H;
    apply rbind_Ok in H as ([name sel] & _ & H); apply rbind_Ok in H as (m & Hm & H);
    pose proof (profile_weights_nonneg _ _ Hm) as Hw;
    (destruct (_tensor_parallel_valid m tp) eqn:Hv; [injection H as <-; cbn; split_and!; done || lia|]);
    (destruct (is_some (q_tensor_parallel_size q)) eqn:He; [injection H as <-; cbn; split_and!; try (done || lia); by destruct blocked|]);
    destruct (largest_valid_spec m (Z.of_nat (length devices)) ltac:(lia)) as [Hl1 Hl2];
    (destruct (_ =? tp) eqn:Heq; [bool_to_prop; rewrite Heq in Hl1; congruence|]).
  - injection H as <-. cbn. split_and!; try done; lia.
  - apply IH in H; [|done]. destruct H as (H1 & H2 & H3 & H4 & H5). split_and!; try done; lia.
Qed.
End lemmas.

(** ** Sizing *)

Lemma effective_weights_nonneg m dtype : 0 <= weights_mib m -> 0 <= _effective_weights_mib m dtype.
Proof.
  intros Hw. unfold _effective_weights_mib. case_match; [done|]. case_match; [done|].
  assert (forall d, 1 <= _dtype_bytes d <= 4) as Hd.
  { intros [d|]; [|done]. unfold _dtype_bytes. destruct (dget (py_lower (py_strip d)) _DTYPE_BYTES) as [z|] eqn:E; [|done].
    revert E. apply (dget_Forall (fun b => 1 <= b <= 4)). repeat constructor; cbn; lia. }
  apply Qceiling_nonneg, int_div_nonneg; [|pose proof (Hd (Some (kv_dtype m))); lia].
  pose proof (Hd (Some dtype)). nia.
Qed.

Lemma zmin_spec l z : zmin l = Ok z -> z ∈ l /\ Forall (fun x => z <= x) l.
Proof.
  destruct l as [|a l]; [done|]. intros [= <-]. induction l as [|b l [IH1 IH2]]; cbn; [split; [left|repeat constructor; lia]|].
  apply Forall_cons in IH2 as [Ha Hl]. split.
  - destruct (Z.min_spec b (foldr Z.min a l)) as [[_ ->]|[_ ->]]; [by right; left|]. set_solver.
  - constructor; [lia|]. constructor; [lia|]. eapply Forall_impl; [exact Hl|]. cbn. lia.
Qed.

Lemma ladder_from_spec ladder best limit : best <= limit -> StronglySorted Z.le (best :: ladder) ->
  best <= ladder_from best limit ladder <= limit.
Proof.
  revert best. induction ladder as [|v ladder IH]; intros best Hb Hs; cbn; [lia|].
  inversion Hs as [|? ? Hs' Hf]; subst. apply Forall_cons in Hf as [Hv _]. destruct (v <=? limit) eqn:E; bool_to_prop; [|lia].
  specialize (IH v E Hs'). lia.
Qed.

Lemma context_ladder_le limit : 0 <= limit -> 0 <= largest_ladder_value limit CONTEXT_LADDER <= limit.
Proof. intros H. apply ladder_from_spec; [done|]. repeat constructor; lia. Qed.

(** What the retry steps leave alone, and that they only lower the context. *)
Lemma apply_retries_spec before steps e adj : let e' := fst (apply_retries before steps e adj) in
  e_tensor_parallel_size e' = e_tensor_parallel_size e /\ e_gpu_memory_utilization e' = e_gpu_memory_utilization e /\
  e_dtype e' = e_dtype e /\ (MIN_CONTEXT <= e_max_model_len e -> MIN_CONTEXT <= e_max_model_len e' <= e_max_model_len e) /\
  (ContextStep ∉ steps -> e_max_model_len e' = e_max_model_len e).
Proof.
  revert e adj. induction steps as [|[] steps IH]; intros e adj; cbn; [by split_and!; try lia|..].
  - match goal with |- context [apply_retries before steps ?e1 ?a1] => specialize (IH e1 a1) end.
    destruct IH as (-> & -> & -> & H4 & H5). cbn in *. split_and!; try done.
    + intros Hm. unfold MIN_CONTEXT in *. assert (e_max_model_len e / 2 <= e_max_model_len e) by (apply Z.div_le_upper_bound; lia). lia.
    + intros Hn. set_solver.
  - match goal with |- context [apply_retries before steps ?e1 ?a1] => specialize (IH e1 a1) end.
    destruct IH as (-> & -> & -> & H4 & H5). split_and!; try done. intros Hn. rewrite H5; [done|set_solver].
  - match goal with |- context [apply_retries before steps ?e1 ?a1] => specialize (IH e1 a1) end.
    destruct IH as (-> & -> & -> & H4 & H5). split_and!; try done. intros Hn. rewrite H5; [done|set_solver].
Qed.

Lemma ladder_from_in ladder best limit : ladder_from best limit ladder ∈ best :: ladder.
Proof.
  revert best. induction ladder as [|v ladder IH]; intros best; cbn; [by left|].
  destruct (v <=? limit); [right; apply IH|by left].
Qed.

Lemma context_ladder_top limit : largest_ladder_value limit CONTEXT_LADDER <= 131072.
Proof.
  pose proof (ladder_from_in CONTEXT_LADDER 0 limit) as H. unfold largest_ladder_value.
  assert (Forall (fun z => z <= 131072) (0 :: CONTEXT_LADDER)) as Hall by (repeat constructor; lia).
  rewrite Forall_forall in Hall. by apply Hall.
Qed.

Lemma memory_budget_spec m devices tp u w kvb remaining budget free wpg kv : 0 <= w -> 1 <= tp ->
  _memory_budget m devices tp u w kvb = Ok (remaining, budget, free, wpg, kv) ->
  remaining = budget - wpg /\ 0 <= wpg /\ Forall (fun d => budget <= free_mib d) devices /\ devices <> [].
Proof.
  intros Hw Htp. unfold _memory_budget. intros (b & Hb & H)%rbind_Ok. apply rbind_Ok in H as (f & Hf & [= <- <- <- <- <-]).
  apply zmin_spec in Hb as [Hin Hall]. split_and!; [done|apply Qceiling_nonneg, int_div_nonneg; lia| |by intros ->; set_solver].
  rewrite Forall_map in Hall. eapply Forall_impl; [exact Hall|]. cbn. lia.
Qed.

Lemma fit_context_spec m q desired current kv_budget kv wpg c why :
  _fit_context m q desired current kv_budget kv wpg = (true, c, why) ->
  0 < kv_budget /\ (0 < kv)%Q /\ c <= Qfloor (fdiv (of_int kv_budget) kv) /\
  (is_some (q_max_model_len q) = true -> c = current) /\ (q_max_model_len q = None -> MIN_CONTEXT <= c <= 131072).
Proof.
  unfold _fit_context. destruct ((kv_budget <=? 0) || fleb kv 0%Q) eqn:E; [done|].
  apply orb_false_iff in E as [E1 E2%fleb_false]. bool_to_prop. intros H. do 2 (split; [done || lia|]). revert H.
  set (by_kv := Qfloor _). destruct (q_max_model_len q) as [len|]; cbn [is_some].
  - destruct (by_kv <? current) eqn:E; [done|]. bool_to_prop. intros [= <- <-]. by split_and!.
  - set (ceil := Z.min _ _). pose proof (context_ladder_top ceil). destruct (_ <? MIN_CONTEXT) eqn:E; [done|]. bool_to_prop.
    unfold MIN_CONTEXT in E. destruct (Z_lt_le_dec ceil 0) as [Hneg|Hpos].
    { assert (largest_ladder_value ceil CONTEXT_LADDER = 0) as Hz; [|lia]. cbn. rewrite (proj2 (Z.leb_gt _ _)) by lia. done. }
    pose proof (context_ladder_le ceil Hpos). intros H'.
    assert (c = largest_ladder_value ceil CONTEXT_LADDER) as -> by (by destruct (_ <? desired); injection H').
    split_and!; [unfold ceil in *; lia|done|]. intros _. unfold MIN_CONTEXT. lia.
Qed.

Lemma fit_context_explicit m q desired current kv_budget kv wpg : is_some (q_max_model_len q) = true ->
  snd (fst (_fit_context m q desired current kv_budget kv wpg)) = current.
Proof. intros H. unfold _fit_context. rewrite H. destruct (_ || _); [done|]. by destruct (_ <? _). Qed.

(** The retry steps of an attempt never touch an explicit setting. *)
Lemma steps_automatic st q n : st ∈ take n (List.filter (fun st => negb (is_explicit st q)) ADJUSTMENT_POLICY) -> is_explicit st q = false.
Proof.
  intros (i & H%list_elem_of_lookup_2 & _)%elem_of_take. apply list_elem_of_In, List.filter_In in H as [_ H]. by apply negb_true_iff.
Qed.

Lemma profile_overhead_nonneg bucket : 0 <= or_default (dget bucket PROFILE_RUNTIME_OVERHEAD_MIB) DEFAULT_RUNTIME_OVERHEAD_MIB.
Proof.
  destruct (dget bucket PROFILE_RUNTIME_OVERHEAD_MIB) as [z|] eqn:E; [|done]. revert E.
  apply (dget_Forall (fun z => 0 <= z)). repeat constructor; cbn; lia.
Qed.

(** What a fitting attempt guarantees, given a utilization that passed the
    gate on the allocated devices. *)
Lemma size_launch_fits bucket devices q attempt overhead top u blocked adj p :
  let allocated := slice_to (top_tp top) devices in
  Forall (fun d => 0 <= total_mib d /\ free_mib d < 2 ^ 53) allocated -> 1 <= top_tp top -> 0 <= weights_mib (top_profile top) ->
  (forall len, q_max_model_len q = Some len -> 0 <= len <= 2 ^ 53) -> (forall o, overhead = Some o -> 0 <= o) ->
  (blocked = None -> _utilization_fits allocated u = true /\
     (q_gpu_memory_utilization q = None -> exists k, 50 <= k <= 90 /\ u = cents k)) ->
  size_launch bucket devices q attempt overhead top u blocked adj = Ok p -> fitting p = true ->
  blocked = None /\ e_tensor_parallel_size (p_effective p) = top_tp top /\
  _utilization_fits allocated (e_gpu_memory_utilization (p_effective p)) = true /\
  Forall (fun d => usable_budget_mib (p_estimate p) <= free_mib d) allocated /\
  estimate_total_mib (p_estimate p) <= usable_budget_mib (p_estimate p) + 1 /\ MIN_RESERVE_MIB <= reserve_mib (p_estimate p).
Proof.
  intros allocated Hd Htp Hw Hlen Hover Hu. unfold size_launch. fold allocated.
  set (m := top_profile top) in *. set (applicable := List.filter _ _). set (steps := take _ applicable).
  set (o := match overhead with Some o => o | None => _ end).
  assert (0 <= o) as Ho by (unfold o; destruct overhead; [by apply Hover|apply profile_overhead_nonneg]).
  set (dtype := match q_dtype q with Some d => _ | None => _ end). cbn [e_gpu_memory_utilization].
  set (context := match q_max_model_len q with Some len => len | None => _ end).
  set (batched := match q_max_num_batched_tokens q with Some b => b | None => _ end).
  set (e0 := mkEffective _ _ _ _ _ _).
  set (e := if existsb is_utilization steps then _utilization_reduced e0 else e0).
  assert (e_tensor_parallel_size e = top_tp top /\ e_max_model_len e = context) as [Het Hec].
  { unfold e. by destruct (existsb _ _). }
  assert (blocked = None -> _utilization_fits allocated (e_gpu_memory_utilization e) = true) as Heu.
  { intros Hb. destruct (Hu Hb) as [Hfit Hauto]. unfold e. destruct (existsb is_utilization steps) eqn:Hs; [|done].
    apply List.existsb_exists in Hs as (st & Hin%list_elem_of_In%steps_automatic & Hst). destruct st; try done. cbn in Hin.
    destruct (q_gpu_memory_utilization q); [done|]. destruct (Hauto eq_refl) as (k & Hk & ->). cbn. rewrite reduced_cents by done.
    eapply utilization_fits_mono; [|apply cents_pos; lia|apply cents_mono|exact Hfit]; [|lia].
    eapply Forall_impl; [exact Hd|]. cbn. lia. }
  intros H. apply rbind_Ok in H as ([[[[remaining budget] free] wpg] kv] & Hb & H).
  apply memory_budget_spec in Hb as (-> & Hwpg & Hbf & Hne); [|by apply effective_weights_nonneg|done].
  set (reserve := Z.max MIN_RESERVE_MIB _) in H.
  destruct (_fit_context _ _ _ _ _ _ _) as [[fits c] why] eqn:Hc.
  pose proof (apply_retries_spec u steps (with_context c e) adj) as Hr.
  destruct (apply_retries u steps (with_context c e) adj) as [e1 adj1]. cbn in Hr. destruct Hr as (H1 & H2 & H3 & H4 & H5).
  injection H as <-. cbn. intros Hfit. apply andb_true_iff in Hfit as [Hf1 Hf2]. rewrite Hf1 in Hf2, Hc.
  destruct blocked; [done|]. apply fit_context_spec in Hc as (Hk1 & Hk2 & Hc1 & Hc2 & Hc3).
  assert (0 <= c <= 2 ^ 53 /\ e_max_model_len e1 <= c /\ 0 <= e_max_model_len e1) as (Hc4 & Hl1 & Hl2).
  { destruct (q_max_model_len q) as [len|] eqn:Hq.
    - specialize (Hlen len eq_refl). rewrite (Hc2 eq_refl), Hec. fold context in Hlen. rewrite H5; [rewrite (Hc2 eq_refl), Hec; unfold context; lia|].
      intros Hin%steps_automatic. cbn in Hin. by rewrite Hq in Hin.
    - specialize (Hc3 eq_refl). unfold MIN_CONTEXT in *. specialize (H4 ltac:(lia)). lia. }
  set (e2 := match q_max_num_batched_tokens q with Some b => with_batch b e1 | None => _ end).
  assert (e_tensor_parallel_size e2 = top_tp top /\ e_gpu_memory_utilization e2 = e_gpu_memory_utilization e /\
          e_max_model_len e2 = e_max_model_len e1) as (-> & -> & ->).
  { unfold e2. destruct (q_max_num_batched_tokens q); cbn; rewrite H1, H2; by rewrite ?Het. }
  split_and!; [done|done|by apply Heu|done| |unfold reserve; lia].
  assert (Qceiling (fmul kv (of_int (e_max_model_len e1))) <= budget - wpg - o - reserve + 1) as Hq.
  { apply quota_bound; [|done|lia|lia]. split; [done|]. destruct allocated as [|d ds]; [done|].
    apply Forall_cons in Hbf as [Hb1 _]. apply Forall_cons in Hd as [[_ Hd1] _]. unfold reserve, MIN_RESERVE_MIB in *. lia. }
  unfold estimate_total_mib. cbn. lia.
Qed.

Lemma memory_budget_ok m devices tp u w kvb : devices <> [] -> exists r, _memory_budget m devices tp u w kvb = Ok r.
Proof. intros Hd. destruct devices; [done|]. by eexists. Qed.

Lemma size_launch_ok bucket devices q attempt overhead top u blocked adj : slice_to (top_tp top) devices <> [] ->
  exists p, size_launch bucket devices q attempt overhead top u blocked adj = Ok p.
Proof.
  intros Hd. unfold size_launch.
  match goal with |- context [_memory_budget ?m ?d ?t ?u ?w ?k] => destruct (memory_budget_ok m d t u w k Hd) as [[[[[r b] f] wpg] kv] ->] end.
  cbn [rbind]. destruct (_fit_context _ _ _ _ _ _ _) as [[fits c] why]. destruct (apply_retries _ _ _ _). by eexists.
Qed.

(** Explicit values are never replaced, whether the plan fits or not. *)
Lemma size_launch_explicit bucket devices q attempt overhead top u blocked adj p :
  size_launch bucket devices q attempt overhead top u blocked adj = Ok p ->
  e_tensor_parallel_size (p_effective p) = top_tp top /\ p_model p = top_model top /\ p_model_selection p = top_selection top /\
  (forall len, q_max_model_len q = Some len -> e_max_model_len (p_effective p) = len) /\
  (forall b, q_max_num_batched_tokens q = Some b -> e_max_num_batched_tokens (p_effective p) = b) /\
  (is_some (q_gpu_memory_utilization q) = true -> e_gpu_memory_utilization (p_effective p) = u) /\
  (forall d, q_dtype q = Some d -> d <> "" -> e_dtype (p_effective p) = d).
Proof.
  unfold size_launch. set (applicable := List.filter _ _). set (steps := take _ applicable). set (e := if existsb _ _ then _ else _).
  intros H. apply rbind_Ok in H as ([[[[remaining budget] free] wpg] kv] & _ & H).
  destruct (_fit_context _ _ _ _ _ _ _) as [[fits c] why] eqn:Hc.
  pose proof (apply_retries_spec u steps (with_context c e) adj) as Hr.
  destruct (apply_retries u steps (with_context c e) adj) as [e1 adj1]. cbn in Hr. destruct Hr as (H1 & H2 & H3 & H4 & H5).
  injection H as <-. cbn [p_effective p_model p_model_selection].
  assert (e_tensor_parallel_size e = top_tp top) as Het by (unfold e; by destruct (existsb _ _)).
  split_and!; try done.
  - destruct (q_max_num_batched_tokens q); cbn; by rewrite H1, Het.
  - intros len Hl. assert (e_max_model_len e1 = len) as <-; [|by destruct (q_max_num_batched_tokens q)]. rewrite H5.
    + apply (f_equal (fun r => snd (fst r))) in Hc. rewrite fit_context_explicit in Hc by (by rewrite Hl). cbn [fst snd] in Hc. subst c.
      unfold e. rewrite Hl. by destruct (existsb _ _).
    + intros Hin%steps_automatic. cbn in Hin. by rewrite Hl in Hin.
  - intros b Hb. by rewrite Hb.
  - intros Hu. assert (e_gpu_memory_utilization e = u) as Heu.
    { unfold e. destruct (existsb is_utilization steps) eqn:Hs; [|done]. apply List.existsb_exists in Hs as (st & Hin%list_elem_of_In%steps_automatic & Hst).
      destruct st; try done. cbn in Hin. congruence. }
    destruct (q_max_num_batched_tokens q); cbn; by rewrite H2, Heu.
  - intros d Hd Hne. assert (e_dtype e = d) as Hed.
    { unfold e. rewrite Hd. assert (str_truthy d = true) as -> by (by destruct d). by destruct (existsb _ _). }
    destruct (q_max_num_batched_tokens q); cbn; by rewrite H3, Hed.
Qed.

(** The second pass as a fold: what each step does to the settings there. *)
Definition second_pass (e : VllmEffective) (st : Step) : VllmEffective := if is_utilization st then e else apply_step st e.

Lemma apply_retries_fold before steps e adj : fst (apply_retries before steps e adj) = foldl second_pass e steps.
Proof. revert e adj. induction steps as [|[] steps IH]; intros e adj; [done|..]; cbn [apply_retries foldl]; apply IH. Qed.

Lemma second_pass_utilization steps e :
  e_gpu_memory_utilization (foldl second_pass e steps) = e_gpu_memory_utilization e.
Proof. revert e. induction steps as [|[] steps IH]; intros e; [done|..]; cbn [foldl]; by rewrite IH. Qed.

(** The settings after the second pass when the batch is automatic. *)
Definition clamp_batch (e : VllmEffective) : VllmEffective := with_batch (Z.min (e_max_num_batched_tokens e) (e_max_model_len e)) e.

Lemma clamp_changes st e : is_utilization st = false ->
  same_reduction_key (clamp_batch e) (apply_step st (clamp_batch e)) = false ->
  same_reduction_key (clamp_batch e) (clamp_batch (second_pass e st)) = false.
Proof.
  intros Hst. unfold second_pass. rewrite Hst. unfold same_reduction_key.
  rewrite !andb_false_iff, !Z.eqb_neq.
  destruct st; [| |done]; unfold clamp_batch, with_batch, apply_step, _context_halved, _batch_reduced;
    cbn [e_max_model_len e_max_num_batched_tokens e_gpu_memory_utilization]; (intros [[H|H]|H]; [..|by right]); lia.
Qed.

(** The first [n] applicable steps, with one more. *)
Lemma applicable_next q n st : let applicable := List.filter (fun st => negb (is_explicit st q)) ADJUSTMENT_POLICY in
  applicable !! n = Some st -> (n < 3)%nat /\ take (S n) applicable = take n applicable ++ [st] /\
  (is_utilization st = true -> existsb is_utilization (take n applicable) = false).
Proof.
  intros applicable H. split_and!.
  - apply lookup_lt_Some in H. eapply Nat.lt_le_trans; [exact H|apply List.filter_length_le].
  - by apply take_S_r.
  - intros Hst. destruct st; try done. apply not_true_is_false. intros (st & Hin & Hst')%List.existsb_exists. destruct st; try done.
    apply list_elem_of_In, elem_of_take in Hin as (i & Hi & Hlt).
    assert (NoDup applicable) as Hnd.
    { apply NoDup_ListNoDup, List.NoDup_filter, NoDup_ListNoDup. repeat constructor; set_solver. }
    pose proof (NoDup_lookup _ _ _ _ Hnd Hi H). lia.
Qed.

Section retry.
Context (bucket : string) (devices : list VllmDeviceMemory) (q : VllmRequested) (overhead : option Z) (top : Topology) (u : float)
  (blocked : option Reason) (adj : list VllmAdjustment).
Hypothesis automatic_batch : q_max_num_batched_tokens q = None.
Let applicable := List.filter (fun st => negb (is_explicit st q)) ADJUSTMENT_POLICY.

(** The settings an attempt launches, and when it promises another. *)
Lemma size_launch_shape : exists base size_context, forall attempt p,
  let steps := take (Z.to_nat attempt) applicable in
  let e := if existsb is_utilization steps then _utilization_reduced base else base in
  size_launch bucket devices q attempt overhead top u blocked adj = Ok p ->
  p_effective p = clamp_batch (foldl second_pass (with_context (size_context e) e) steps) /\
  (retry_available p = true -> exists st, applicable !! Z.to_nat attempt = Some st /\
     same_reduction_key (p_effective p) (apply_step st (p_effective p)) = false).
Proof.
  set (m := top_profile top).
  set (dtype := match q_dtype q with Some d => if str_truthy d then d else _choose_dtype bucket m | None => _choose_dtype bucket m end).
  set (desired := Z.min (or_default (dget bucket PROFILE_DESIRED_CONTEXT) DEFAULT_DESIRED_CONTEXT) (max_position_embeddings m)).
  set (context := match q_max_model_len q with
                  | Some len => len | None => Z.max MIN_CONTEXT (largest_ladder_value desired CONTEXT_LADDER) end).
  set (o := match overhead with Some o => o | None => or_default (dget bucket PROFILE_RUNTIME_OVERHEAD_MIB) DEFAULT_RUNTIME_OVERHEAD_MIB end).
  exists (mkEffective (top_tp top) context (Z.max MIN_CONTEXT (largest_ladder_value context BATCH_LADDER)) u dtype (_choose_attention_backend bucket)).
  exists (fun e => match _memory_budget m (slice_to (top_tp top) devices) (top_tp top) (e_gpu_memory_utilization e)
                           (_effective_weights_mib m dtype) (_kv_bytes_per_token_for m dtype) with
                   | Ok (remaining, budget, _, wpg, kv) =>
                       let fraction := if approximate m then APPROXIMATE_RESERVE_FRACTION else RESERVE_FRACTION in
                       let reserve := Z.max MIN_RESERVE_MIB (rhe (fmul (of_int budget) fraction)) in
                       snd (fst (_fit_context m q desired (e_max_model_len e) (remaining - o - reserve) kv wpg))
                   | Err _ => 0
                   end).
  intros attempt p steps e. unfold size_launch. fold m dtype desired context o applicable. fold steps. rewrite automatic_batch. fold e.
  intros H. apply rbind_Ok in H as ([[[[remaining budget] free] wpg] kv] & Hb & H). rewrite Hb.
  destruct (_fit_context _ _ _ _ _ _ _) as [[fits c] why] eqn:Hc. cbn [fst snd].
  pose proof (apply_retries_fold u steps (with_context c e) adj) as Hr.
  destruct (apply_retries u steps (with_context c e) adj) as [e1 adj1]. cbn [fst] in Hr. subst e1.
  injection H as <-. split; [done|]. cbn [p_effective retry_available].
  destruct (applicable !! Z.to_nat attempt) as [st|]; [|done]. intros [_ Hs%negb_true_iff]%andb_true_iff. by exists st.
Qed.

(** A promised retry changes what is launched: every automatic step moves one
    of the three settings that the next attempt is built from. *)
Lemma size_launch_retry attempt p : 0 <= attempt ->
  size_launch bucket devices q attempt overhead top u blocked adj = Ok p -> retry_available p = true ->
  attempt < 3 /\ exists p', size_launch bucket devices q (attempt + 1) overhead top u blocked adj = Ok p' /\
    same_reduction_key (p_effective p) (p_effective p') = false.
Proof.
  intros Ha Hp Hr. destruct size_launch_shape as (base & ctx & Hs). destruct (Hs attempt p Hp) as [He Hr'].
  destruct (Hr' Hr) as (st & Hst & Hkey). destruct (applicable_next q _ _ Hst) as (Hlt & Htake & Hutil). split; [lia|].
  assert (slice_to (top_tp top) devices <> []) as Hne.
  { intros Hnil. unfold size_launch in Hp. rewrite Hnil in Hp. done. }
  destruct (size_launch_ok bucket devices q (attempt + 1) overhead top u blocked adj Hne) as [p' Hp']. exists p'. split; [done|].
  destruct (Hs (attempt + 1) p' Hp') as [He' _]. replace (Z.to_nat (attempt + 1)) with (S (Z.to_nat attempt)) in He' by lia.
  fold applicable in Htake, Hutil. rewrite Htake, existsb_app, foldl_app in He'. cbn [existsb foldl] in He'. rewrite orb_false_r in He'.
  destruct (is_utilization st) eqn:Eu.
  - rewrite (Hutil eq_refl) in He, He'. destruct st; try done. rewrite He in Hkey |- *. rewrite He'. unfold same_reduction_key in *.
    apply andb_false_iff in Hkey as [Hkey|Hkey]; [by rewrite !Z.eqb_refl in Hkey|]. apply andb_false_iff. right.
    cbn [apply_step _utilization_reduced clamp_batch with_batch e_gpu_memory_utilization] in Hkey |- *.
    unfold second_pass at 2. cbn [is_utilization]. rewrite !second_pass_utilization in *. done.
  - rewrite orb_false_r in He'. rewrite He in Hkey |- *. rewrite He'. by apply clamp_changes.
Qed.
End retry.

(** ** The plan *)

(** What the request model admits: sizes that are not negative. *)
Definition request_ok (q : VllmRequested) : Prop :=
  (forall t, q_tensor_parallel_size q = Some t -> 1 <= t) /\
  (forall len, q_max_model_len q = Some len -> 0 <= len <= 2 ^ 53).

Definition devices_ok (devices : list VllmDeviceMemory) : Prop :=
  Forall (fun d => 0 <= total_mib d /\ free_mib d < 2 ^ 53) devices.

Definition sizes_ok (snapshot : string -> option Snapshot) : Prop :=
  forall name sn, snapshot name = Some sn -> Forall (fun f => 0 <= snd f) (files sn).

Lemma plan_inv py_str snapshot bucket devices requested attempt overhead p :
  plan_vllm_launch py_str snapshot bucket devices requested attempt overhead = Ok p ->
  let q := or_default requested no_request in
  devices <> [] /\ 0 <= attempt /\ exists top u b adj, let init := initial_tp bucket q (Z.of_nat (length devices)) in
    resolve_topology py_str snapshot 2 bucket devices q (fst init) (snd init) None = Ok top /\
    choose_utilization q (slice_to (top_tp top) devices) (top_blocked top) = Some (u, b, adj) /\
    size_launch bucket devices q attempt overhead top u b (option_list (top_adjustment top) ++ adj) = Ok p.
Proof.
  unfold plan_vllm_launch. case_bool_decide as Hd; [done|]. destruct (attempt <? 0) eqn:Ha; [done|]. bool_to_prop.
  destruct (initial_tp _ _ _) as [tp blocked]. intros (top & Ht & H)%rbind_Ok.
  destruct (choose_utilization _ _ _) as [[[u b] adj]|] eqn:Hu; [|done]. cbn. split_and!; [done|lia|]. by exists top, u, b, adj.
Qed.

Lemma slice_to_spec {A} tp (l : list A) : 1 <= tp <= Z.of_nat (length l) ->
  slice_to tp l = take (Z.to_nat tp) l /\ slice_to tp l <> [].
Proof.
  intros H. unfold slice_to. rewrite (proj2 (Z.ltb_ge _ _)) by lia. split; [done|]. destruct l as [|a l]; [cbn in H; lia|].
  by destruct (Z.to_nat tp) eqn:E; [lia|].
Qed.

Lemma plan_topology py_str snapshot bucket devices q top : sizes_ok snapshot -> request_ok q -> devices <> [] ->
  let init := initial_tp bucket q (Z.of_nat (length devices)) in
  resolve_topology py_str snapshot 2 bucket devices q (fst init) (snd init) None = Ok top ->
  1 <= top_tp top <= Z.of_nat (length devices) /\ 0 <= weights_mib (top_profile top) /\
  model_profile_for py_str snapshot (top_model top) = Ok (top_profile top) /\
  (top_blocked top = None -> snd init = None /\ _tensor_parallel_valid (top_profile top) (top_tp top) = true) /\
  (is_some (q_tensor_parallel_size q) = true -> top_tp top = fst init).
Proof.
  intros Hs [Hq _] Hd init H. apply (topology_spec _ _ Hs) in H; [done|]. apply initial_tp_bounds; [|done].
  destruct devices; [done|]. cbn. lia.
Qed.

(** C8: A plan that fits stays within the memory of every card it allocates.
    It uses between one and all of the selected devices, a tensor-parallel size
    the model's heads can be divided by, and a utilization whose quota vLLM's
    startup check finds free on each allocated device, also after the retry
    step that lowers it.  Weights, KV cache, runtime overhead and a reserve of at
    least 256 MiB add up to no more than the budget of the fullest card, up to
    the last mebibyte that rounding can cost. *)
Theorem plan_fits_memory py_str snapshot bucket devices requested attempt overhead p :
  sizes_ok snapshot -> devices_ok devices -> request_ok (or_default requested no_request) ->
  (forall o, overhead = Some o -> 0 <= o) ->
  plan_vllm_launch py_str snapshot bucket devices requested attempt overhead = Ok p -> fitting p = true ->
  let e := p_effective p in
  let est := p_estimate p in
  let tp := e_tensor_parallel_size e in
  1 <= tp <= Z.of_nat (length devices) /\
  (exists m, model_profile_for py_str snapshot (p_model p) = Ok m /\ _tensor_parallel_valid m tp = true) /\
  Forall (fun d => Qceiling (fmul (of_int (total_mib d)) (e_gpu_memory_utilization e)) <= free_mib d /\
                   usable_budget_mib est <= free_mib d) (take (Z.to_nat tp) devices) /\
  256 <= reserve_mib est /\
  weights_per_gpu_mib est + kv_cache_mib est + runtime_overhead_mib est + reserve_mib est <= usable_budget_mib est + 1.
Proof.
  intros Hs Hd Hq Ho Hp Hf. apply plan_inv in Hp as (Hne & Ha & top & u & b & adj & Ht & Hu & Hp).
  apply plan_topology in Ht as (Htp & Hw & Hm & Hb & _); [|done..]. destruct (slice_to_spec _ _ Htp) as [Hsl Hsn].
  assert (Forall (fun d => 0 <= total_mib d /\ free_mib d < 2 ^ 53) (slice_to (top_tp top) devices)) as Hd' by (rewrite Hsl; by apply Forall_take).
  pose proof (size_launch_explicit _ _ _ _ _ _ _ _ _ _ Hp) as (_ & Hpm & _).
  destruct (choose_utilization_spec (or_default requested no_request) (slice_to (top_tp top) devices) (top_blocked top))
    as (u' & b' & adj' & Hu' & Hspec); [eapply Forall_impl; [exact Hd'|cbn; lia]|].
  rewrite Hu in Hu'. injection Hu' as <- <- <-.
  apply size_launch_fits in Hp as (Hbn & H1 & H2 & H3 & H4 & H5); [..|lia|done|by apply Hq|done| |done]; [|done|].
  - cbn. destruct (Hspec Hbn) as (Hbl & _). destruct (Hb Hbl) as [_ Hv]. rewrite H1, Hpm, <- Hsl. split_and!; [lia|lia|by exists (top_profile top)| |done|done].
    apply utilization_fits_iff in H2 as [_ H2]. by apply Forall_and.
  - intros Hbn. destruct (Hspec Hbn) as (_ & Hfit & Hk). split; [done|]. intros Hnone. by rewrite Hnone in Hk.
Qed.

Lemma topology_model py_str snapshot n bucket devices q tp blocked adj top name : q_model q = Some name -> name <> "" ->
  resolve_topology py_str snapshot n bucket devices q tp blocked adj = Ok top -> top_model top = name /\ top_selection top = explicit.
Proof.
  intros Hq Hn. assert (str_truthy name = true) as Ht by (by destruct name).
  assert (forall d t, _resolve_model bucket d q t = Ok (name, explicit)) as Hr by (intros; unfold _resolve_model; by rewrite Hq, Ht).
  revert tp adj. induction n as [|n IH]; intros tp adj; cbn [resolve_topology]; rewrite Hr; cbn [rbind];
    intros (m & _ & H)%rbind_Ok; repeat (case_match; [by injection H as <-|]); [by injection H as <-|by eapply IH].
Qed.

Lemma size_launch_fitting bucket devices q attempt overhead top u blocked adj p :
  size_launch bucket devices q attempt overhead top u blocked adj = Ok p -> fitting p = true -> blocked = None.
Proof.
  unfold size_launch. intros H. apply rbind_Ok in H as ([[[[remaining budget] free] wpg] kv] & _ & H).
  destruct (_fit_context _ _ _ _ _ _ _) as [[fits c] why]. destruct (apply_retries _ _ _ _). injection H as <-. cbn.
  intros [-> Hb]%andb_true_iff. by destruct blocked.
Qed.

Lemma choose_utilization_blocked q devices blocked u b adj :
  choose_utilization q devices blocked = Some (u, b, adj) -> b = None -> blocked = None.
Proof.
  unfold choose_utilization, or_else. destruct blocked; [|done]. destruct (q_gpu_memory_utilization q).
  - destruct (_utilization_fits devices f); by intros [= _ <- _].
  - destruct (_max_fitting_utilization devices) as [cap|]; [|done]. rewrite fmap_Some. intros (cap' & _ & H) ->. cbv beta zeta in H. revert H.
    generalize DEFAULT_GPU_MEMORY_UTILIZATION, MIN_GPU_MEMORY_UTILIZATION. intros y z. generalize (fmin y cap'). intros x.
    by destruct (fltb x y); [destruct (fltb x z)|].
Qed.

(** What the operator chose is what is launched, on the first attempt and on
    every retry: an explicit model, context length, batch size, utilization and
    data type are the plan's own, and so is an explicit tensor-parallel size
    whenever the plan fits; where it cannot be used the plan is refused, not
    changed. *)
Theorem explicit_kept py_str snapshot bucket devices q attempt overhead p :
  sizes_ok snapshot -> request_ok q ->
  plan_vllm_launch py_str snapshot bucket devices (Some q) attempt overhead = Ok p ->
  let e := p_effective p in
  (forall name, q_model q = Some name -> name <> "" -> p_model p = name /\ p_model_selection p = explicit) /\
  (forall len, q_max_model_len q = Some len -> e_max_model_len e = len) /\
  (forall b, q_max_num_batched_tokens q = Some b -> e_max_num_batched_tokens e = b) /\
  (forall u, q_gpu_memory_utilization q = Some u -> e_gpu_memory_utilization e = u) /\
  (forall d, q_dtype q = Some d -> d <> "" -> e_dtype e = d) /\
  (forall t, q_tensor_parallel_size q = Some t -> fitting p = true -> e_tensor_parallel_size e = t).
Proof.
  intros Hs Hq Hp. apply plan_inv in Hp as (Hne & Ha & top & u & b & adj & Ht & Hu & Hp). cbn [or_default from_option] in *.
  pose proof (plan_topology _ _ _ _ _ _ Hs Hq Hne Ht) as (_ & _ & _ & Hblk & Htp).
  pose proof (size_launch_explicit _ _ _ _ _ _ _ _ _ _ Hp) as (H1 & -> & -> & H4 & H5 & H6 & H7). cbn. split_and!; [|done..| |done|].
  - intros name Hn Hn'. by eapply topology_model.
  - intros v Hv. rewrite H6 by (by rewrite Hv). unfold choose_utilization in Hu. rewrite Hv in Hu. by injection Hu as <- _ _.
  - intros t Hqt Hfit. rewrite H1, Htp by (by rewrite Hqt). pose proof (size_launch_fitting _ _ _ _ _ _ _ _ _ _ Hp Hfit) as Hb.
    destruct (Hblk (choose_utilization_blocked _ _ _ _ _ _ Hu Hb)) as [Hi _].
    destruct Hq as [Hq _]. specialize (Hq t Hqt). unfold initial_tp in *. rewrite Hqt, (proj2 (Z.eqb_neq t 0)) in * by lia.
    by destruct (_ <? t).
Qed.

(** An automatic retry makes progress and there are finitely many of them.
    When a plan with an automatic batch size promises a retry, it is one of the
    first three attempts, and the next attempt is planned and launches with a
    different context, batch or utilization. *)
Theorem retry_progress py_str snapshot bucket devices requested attempt overhead p :
  q_max_num_batched_tokens (or_default requested no_request) = None ->
  plan_vllm_launch py_str snapshot bucket devices requested attempt overhead = Ok p -> retry_available p = true ->
  attempt < 3 /\ exists p', plan_vllm_launch py_str snapshot bucket devices requested (attempt + 1) overhead = Ok p' /\
    same_reduction_key (p_effective p) (p_effective p') = false.
Proof.
  intros Hq Hp Hr. apply plan_inv in Hp as (Hne & Ha & top & u & b & adj & Ht & Hu & Hp).
  apply size_launch_retry in Hp as [Hlt (p' & Hp' & Hkey)]; [|done..]. split; [done|]. exists p'. split; [|done].
  unfold plan_vllm_launch. rewrite bool_decide_false by done. rewrite (proj2 (Z.ltb_ge _ _)) by lia.
  destruct (initial_tp _ _ _) as [tp blocked]. cbn [fst snd] in Ht. by rewrite Ht; cbn [rbind]; rewrite Hu.
Qed.

(** The buckets a device can be put in. *)
Definition tested_buckets : list string :=
  ["hopper"; "ampere-a100"; "ampere-a30"; "ga102-dc"; "consumer-ampere"; "consumer-ada"; "turing"; "consumer-turing"].

Lemma bucket_tested cc total b : vllm_profile_bucket cc total = Ok b -> b ∈ tested_buckets.
Proof.
  unfold vllm_profile_bucket. destruct (partition _ _) as [[x y] z].
  repeat case_match; intros H'; try done; injection H' as <-; unfold tested_buckets; set_solver.
Qed.

Lemma select_model_known b gb : b ∈ tested_buckets -> exists name m, select_vllm_model b gb = Ok name /\ dget name _MODEL_CATALOG = Some m.
Proof.
  intros H. unfold tested_buckets in H.
  repeat (apply elem_of_cons in H as [->|H]; [unfold select_vllm_model; lazy -[Z.leb dget _MODEL_CATALOG];
    repeat (destruct (Z.leb _ _)); eexists _, _; split; reflexivity|]). by apply not_elem_of_nil in H.
Qed.

Lemma topology_ok py_str snapshot n bucket devices q tp blocked adj : 1 <= tp <= Z.of_nat (length devices) ->
  bucket ∈ tested_buckets -> q_model q = None ->
  exists top, resolve_topology py_str snapshot n bucket devices q tp blocked adj = Ok top /\ 1 <= top_tp top <= Z.of_nat (length devices).
Proof.
  intros Htp Hb Hq. revert tp adj Htp.
  assert (forall tp, 1 <= tp <= Z.of_nat (length devices) -> exists name m,
    _resolve_model bucket (slice_to tp devices) q tp = Ok (name, automatic) /\ model_profile_for py_str snapshot name = Ok m) as Hr.
  { intros tp Htp. destruct (slice_to_spec _ _ Htp) as [_ Hne]. unfold _resolve_model. rewrite Hq.
    destruct (slice_to tp devices) as [|d ds]; [done|]. cbn [List.map zmin rbind].
    set (gb := if bool_decide _ then _ else _). destruct (select_model_known bucket gb Hb) as (name & m & -> & Hm).
    exists name, m. split; [done|]. unfold model_profile_for. by rewrite Hm. }
  induction n as [|n IH]; intros tp adj Htp; cbn [resolve_topology]; destruct (Hr tp Htp) as (name & m & -> & Hm); cbn [rbind]; rewrite Hm; cbn [rbind];
    pose proof (proj2 (largest_valid_spec m (Z.of_nat (length devices)) ltac:(lia)));
    repeat (case_match; [by eexists|]); [by eexists|]. by apply IH.
Qed.

(** Planning an automatic launch always returns a plan.  For devices with a
    tested profile and no explicit model, no branch raises and the search for a
    utilization, the one loop without a counter, ends. *)
Theorem plan_returns py_str snapshot cc total bucket devices requested attempt overhead :
  let q := or_default requested no_request in
  vllm_profile_bucket cc total = Ok bucket -> devices <> [] -> Forall (fun d => 0 <= total_mib d) devices -> 0 <= attempt ->
  request_ok q -> q_model q = None ->
  exists p, plan_vllm_launch py_str snapshot bucket devices requested attempt overhead = Ok p /\ p_attempt p = attempt.
Proof.
  intros q Hb%bucket_tested Hne Hd Ha Hq Hm. unfold plan_vllm_launch. rewrite bool_decide_false by done. rewrite (proj2 (Z.ltb_ge _ _)) by lia. fold q.
  assert (1 <= Z.of_nat (length devices)) as Hlen by (destruct devices; [done|cbn; lia]).
  pose proof (initial_tp_bounds bucket q _ Hlen (proj1 Hq)) as Hi. destruct (initial_tp _ _ _) as [tp blocked]. cbn in Hi.
  destruct (topology_ok py_str snapshot 2 bucket devices q tp blocked None Hi Hb Hm) as (top & -> & Htp). cbn [rbind].
  destruct (slice_to_spec _ _ Htp) as [Hsl Hsn]. destruct (choose_utilization_spec q (slice_to (top_tp top) devices) (top_blocked top))
    as (u & b & adj & -> & _); [rewrite Hsl; by apply Forall_take|].
  destruct (size_launch_ok bucket devices q attempt overhead top u b (option_list (top_adjustment top) ++ adj) Hsn) as [p Hp].
  exists p. split; [done|]. revert Hp. unfold size_launch. intros ([[[[r bu] f] w] k] & _ & H)%rbind_Ok.
  destruct (_fit_context _ _ _ _ _ _ _) as [[fits c] why]. destruct (apply_retries _ _ _ _). by injection H as <-.
Qed.

(** With an explicit batch size a promised retry can repeat the attempt
    exactly.  At the context floor the trial step still lowers the batch to the
    context, so a retry is offered; the next attempt restores the explicit
    batch and launches the same settings again. *)
Theorem identical_retry : exists devices q p p',
  let plan attempt := plan_vllm_launch (fun _ => "") (fun _ => None) "consumer-ada" devices (Some q) attempt None in
  plan 0 = Ok p /\ retry_available p = true /\ plan 1 = Ok p' /\ p_effective p' = p_effective p.
Proof.
  exists [mkDevice 0 19730 19730 (Some "8.9")], (mkRequested None None None (Some 8192) None None None). eexists _, _.
  split_and!; vm_compute; reflexivity.
Qed.

(** ** Witnesses *)

(** Two cards of 80 GiB, one with 70000 MiB free, and the first retry. *)
Definition two_cards : list VllmDeviceMemory := [mkDevice 0 81559 81000 (Some "9.0"); mkDevice 1 81559 70000 (Some "9.0")].
Definition no_snapshot (_ : string) : option Snapshot := None.
Definition str_of (_ : json) : string := "".

Lemma no_snapshot_ok : sizes_ok no_snapshot.
Proof. by intros name sn H. Qed.

Lemma two_cards_ok : devices_ok two_cards.
Proof. repeat constructor; cbn; lia. Qed.

Lemma plan_fits_memory_witness : exists p,
  plan_vllm_launch str_of no_snapshot "hopper" two_cards None 1 None = Ok p /\
  weights_per_gpu_mib (p_estimate p) + kv_cache_mib (p_estimate p) + runtime_overhead_mib (p_estimate p) + reserve_mib (p_estimate p) <=
  usable_budget_mib (p_estimate p) + 1.
Proof.
  eexists. split; [vm_compute; reflexivity|].
  apply (plan_fits_memory str_of no_snapshot "hopper" two_cards None 1 None);
    [apply no_snapshot_ok|apply two_cards_ok|by split|done|vm_compute; reflexivity|reflexivity].
Defined.

Definition two_way : VllmRequested := mkRequested (Some "Qwen/Qwen2.5-7B-Instruct") (Some 2) (Some 4096) None None None None.

Lemma two_way_ok : request_ok two_way.
Proof. split; intros ? [= <-]; lia. Qed.

Lemma explicit_kept_witness : exists p, plan_vllm_launch str_of no_snapshot "hopper" two_cards (Some two_way) 2 None = Ok p /\
  e_tensor_parallel_size (p_effective p) = 2.
Proof.
  eexists. split; [vm_compute; reflexivity|].
  refine (proj2 (proj2 (proj2 (proj2 (proj2 (explicit_kept str_of no_snapshot "hopper" two_cards two_way 2 None _ _ _ _))))) 2 _ _);
    [apply no_snapshot_ok|apply two_way_ok|vm_compute; reflexivity|reflexivity|reflexivity].
Defined.

Lemma retry_progress_witness : exists p, plan_vllm_launch str_of no_snapshot "hopper" two_cards None 0 None = Ok p /\
  exists p', plan_vllm_launch str_of no_snapshot "hopper" two_cards None 1 None = Ok p' /\
    same_reduction_key (p_effective p) (p_effective p') = false.
Proof.
  eexists. split; [vm_compute; reflexivity|].
  refine (proj2 (retry_progress str_of no_snapshot "hopper" two_cards None 0 None _ _ _ _)); [reflexivity|vm_compute; reflexivity|reflexivity].
Defined.

Lemma plan_returns_witness : exists p, plan_vllm_launch str_of no_snapshot "hopper" two_cards (Some no_request) 7 (Some 4096) = Ok p /\ p_attempt p = 7.
Proof.
  apply (plan_returns str_of no_snapshot " 9.0" 81559 "hopper" two_cards (Some no_request) 7 (Some 4096));
    [vm_compute; reflexivity|done|repeat constructor; cbn; lia|lia|by split|reflexivity].
Defined.
