(* ===== verification/Catalog.v ===== *)
(** * The placement catalog ([inference_proxy/placement/catalog.py])

    Measured profiles, their validation, the built-in catalog, its resolution
    against the artifacts in the shared cache ([huggingface/artifacts.py] names
    them), and the launch request of a profile on a GPU class. *)

From S2P Require Import Prelude PyDict NodeModel.
From Stdlib Require Import Ascii QArith Btauto.
Local Open Scope Z_scope.

Definition CATALOG_VERSION : Z := 1.

(** ** Data *)

Record GGUFRef := mkRef { repo_id : string; ref_revision : string; filename : string; size_bytes : Z; sha256 : string }.

#[export] Instance GGUFRef_eq : EqDecision GGUFRef.
Proof. solve_decision. Defined.

(** [\w], [.] and [-], for ASCII *)
Definition is_word (a : ascii) : bool :=
  is_lower a || is_upper a || is_digit a || is_char "_"%char a || is_char "."%char a || is_char "-"%char a.

(** [[A-Za-z0-9][\w.-]*] *)
Definition is_repo_part (s : string) : bool :=
  match s with EmptyString => false | String a r => (is_lower a || is_upper a || is_digit a) && str_all is_word r end.

(** [^part/part$] *)
Definition is_repo_id (s : string) : bool :=
  let '(h, found, t) := partition "/"%char s in found && is_repo_part h && is_repo_part t.

Fixpoint ends_with (t s : string) : bool :=
  bool_decide (s = t) || match s with EmptyString => false | String _ s => ends_with t s end.

(** [^[\w.-]+\.gguf$] *)
Definition is_gguf_name (s : string) : bool :=
  str_all is_word s && ends_with ".gguf" s && negb (bool_decide (s = ".gguf")).

Definition GGUFRef_validate (r : GGUFRef) : bool :=
  is_repo_id (repo_id r) && is_hex 40 (ref_revision r) && is_gguf_name (filename r) && (1 <=? size_bytes r) &&
  is_hex 64 (sha256 r).

(** The identity of a discovered artifact. *)
Record GGUFArtifact := mkArtifact {
  artifact_id : string; a_repo_id : string; resolved_revision : string; files : list string; file_sizes : list (string * Z);
}.

Definition matches (r : GGUFRef) (a : GGUFArtifact) : bool :=
  bool_decide (a_repo_id a = repo_id r) && bool_decide (resolved_revision a = ref_revision r) &&
  bool_decide (files a = [filename r]) && bool_decide (dget (filename r) (file_sizes a) = Some (size_bytes r)).

Record GPUClass := mkGPU { gkey : string; quads_model_token : string; nvidia_smi_name : string; min_total_mib : Z }.

Definition GPUClass_validate (g : GPUClass) : bool :=
  negb (bool_decide (gkey g = "")) && str_all (fun a => is_lower a || is_digit a) (gkey g) &&
  len_between 2 64 (quads_model_token g) && len_between 2 128 (nvidia_smi_name g) && (1 <=? min_total_mib g).

Inductive ArtifactRole := TARGET | DRAFT.

Record ModelProfile := mkProfile {
  profile_id : string;
  version : Z;
  display_name : string;
  target : GGUFRef;
  draft : option GGUFRef;
  context : Z;
  cache_type : LlamaCppCacheType;
  ubatch : Z;
  speculative_type : LlamaCppSpeculativeType;
  speculative_draft_n_max : Z;
  draft_cache_type : option LlamaCppCacheType;
  sampling : LlamaCppSampling;
  measured_need_mib : Z;
  cuda_context_allowance_mib : Z;
  gpu_classes : list GPUClass;
  preferred_gpu_class : option string;
  qualified_gpus : list string;
}.

Definition ModelProfile_fields (p : ModelProfile) : bool :=
  is_profile_id (profile_id p) && (1 <=? version p) && GGUFRef_validate (target p) && opt_all GGUFRef_validate (draft p) &&
  (256 <=? context p) && (32 <=? ubatch p) && (ubatch p <=? 4096) &&
  (1 <=? speculative_draft_n_max p) && (speculative_draft_n_max p <=? 16) && LlamaCppSampling_fields (sampling p) &&
  (1 <=? measured_need_mib p) && (0 <=? cuda_context_allowance_mib p) &&
  negb (bool_decide (List.map gkey (gpu_classes p) = [])) && forallb GPUClass_validate (gpu_classes p).

Definition is_mtp (t : LlamaCppSpeculativeType) : bool := match t with DRAFT_MTP => true | _ => false end.

Definition validate_profile (p : ModelProfile) : result string ModelProfile :=
  let keys := List.map gkey (gpu_classes p) in
  raise_if (negb (bool_decide (NoDup keys))) "a profile lists each GPU class once" ;?
  raise_if (existsb (fun v => negb (bool_decide (v ∈ keys))) (option_list (preferred_gpu_class p)))
    "preferred_gpu_class must name one of the profile's GPU classes" ;?
  raise_if (existsb (fun v => negb (bool_decide (v ∈ keys))) (qualified_gpus p))
    "qualified_gpus must name one of the profile's GPU classes" ;?
  raise_if (negb (Bool.eqb (is_none (draft p)) (is_mtp (speculative_type p))))
    "in-file MTP profiles take no draft file; DFlash and MTP assistant profiles need one" ;?
  Ok p.

Definition ModelProfile_validate (p : ModelProfile) : result string ModelProfile :=
  raise_if (negb (ModelProfile_fields p)) "field constraint" ;? validate_profile p.

Definition required_free_mib (p : ModelProfile) : Z := measured_need_mib p + cuda_context_allowance_mib p.

Definition gpu_class (p : ModelProfile) (k : string) : option GPUClass :=
  List.find (fun g => bool_decide (gkey g = k)) (gpu_classes p).

(** [runtime_request]: both models are validated when they are built. *)
Definition runtime_request (p : ModelProfile) (reserve_mib : Z) (draft_artifact_id : option string) (k : string)
  : result string LlamaCppRuntimeRequest :=
  match gpu_class p k with
  | None => Err ("profile " +:+ profile_id p +:+ " does not run on GPU class")
  | Some gpu =>
      let? profile := LlamaCppProfileRuntime_validate
        {| pr_profile_id := profile_id p; pr_profile_version := version p; pr_ubatch := ubatch p;
           pr_required_free_mib := required_free_mib p; pr_gpu_name := nvidia_smi_name gpu;
           pr_gpu_min_total_mib := min_total_mib gpu; pr_speculative_type := speculative_type p;
           pr_speculative_draft_n_max := speculative_draft_n_max p; pr_draft_cache_type := draft_cache_type p;
           pr_draft_artifact_id := draft_artifact_id; pr_sampling := sampling p; pr_disable_cuda_graphs := false |} in
      LlamaCppRuntimeRequest_validate
        {| rq_sizing := SIZING_PROFILE; rq_fit_target_mib := reserve_mib; rq_context_per_slot := Some (context p);
           rq_slots := Some 1; rq_cache_type := Some (cache_type p); rq_allow_estimator_overrun := false;
           rq_profile := Some profile |}
  end.

(** ** The built-in catalog *)

Definition _L4 : GPUClass := mkGPU "l4" "AD104GL [L4]" "NVIDIA L4" 22900.
Definition _A30 : GPUClass := mkGPU "a30" "GA100GL [A30" "NVIDIA A30" 24000.

Definition qwen38 : ModelProfile :=
  mkProfile "qwen3.8-27b-24g" 1 "Qwen3.8-27B UD-Q4_K_S, 262K, q4_0 KV, MTP"
    (mkRef "unsloth/Qwen3.8-27B-GGUF" "4ca720788d1e01f1bff70c033e0d0028fd02e502" "Qwen3.8-27B-UD-Q4_K_S.gguf" 15358213024
       "75bc9c8adba2842e72f0ab5201aaa07133c5010b566305c09187fcbdcd364017")
    None 262144 Q4_0 256 DRAFT_MTP 2 (Some F16)
    {| sa_temperature := 1; sa_top_p := 95 # 100; sa_top_k := 20; sa_min_p := Some 0%Q; sa_presence_penalty := Some 0%Q |}
    21678 300 [_L4; _A30] (Some "a30") ["l4"; "a30"].

Definition qwen36 : ModelProfile :=
  mkProfile "qwen3.6-35b-a3b-24g" 1 "Qwen3.6-35B-A3B UD-Q3_K_XL, 262K, q8_0 KV, MTP"
    (mkRef "unsloth/Qwen3.6-35B-A3B-MTP-GGUF" "5bc3e238d916f48a861bac2f8a1990a0e9b7e98d" "Qwen3.6-35B-A3B-UD-Q3_K_XL.gguf" 17227569440
       "3fba9ab57290b34726837521335bf9268397174f3dd662880e2d0c5264d17b81")
    None 262144 Q8_0 256 DRAFT_MTP 2 (Some F16)
    {| sa_temperature := 6 # 10; sa_top_p := 95 # 100; sa_top_k := 20; sa_min_p := Some 0%Q; sa_presence_penalty := Some 0%Q |}
    20456 300 [_L4; _A30] None ["l4"; "a30"].

Definition muse : ModelProfile :=
  mkProfile "muse-glimmer-30b-24g" 1 "Muse Glimmer 30B UD-Q5_K_M, 131K, f16 KV, DFlash2"
    (mkRef "unsloth/Muse-Glimmer-30B-GGUF" "faa5b025c584459c13febfa5c59883516710ae39" "Muse-Glimmer-30B-UD-Q5_K_M.gguf" 19194274848
       "27c27bc0cc2591344a9ef977d57aa79a9d36ddebee59660bd2abbf738f940f5b")
    (Some (mkRef "z-lab/Muse-Glimmer-30B-DFlash2-GGUF" "880882627431093d99d3b2368efb4a6fcf12d4cb"
       "Muse-Glimmer-30B-DFlash2-Q4_K_M.gguf" 1645657280 "93dbfb6f88e4645dec1347cf93f9d6fc80b90d413038722385b2a8e53565c949"))
    131072 F16 256 DRAFT_DFLASH 7 None
    {| sa_temperature := 1; sa_top_p := 95 # 100; sa_top_k := 64; sa_min_p := None; sa_presence_penalty := None |}
    21218 300 [_L4; _A30] None ["l4"; "a30"].

Definition gemma : ModelProfile :=
  mkProfile "gemma-4-31b-24g" 1 "Gemma 4 31B IQ4_XS, 131K, q4_0 KV, MTP assistant"
    (mkRef "unsloth/gemma-4-31B-it-GGUF" "c1ac76e99d5513b141e8adde7288b85c3f9c32ec" "gemma-4-31B-it-IQ4_XS.gguf" 16372460480
       "e3d40b6e363954c993a6e28b160d881dfe5a243b62746bd4092b393d4f1d54e5")
    (Some (mkRef "unsloth/gemma-4-31B-it-GGUF" "c1ac76e99d5513b141e8adde7288b85c3f9c32ec" "mtp-gemma-4-31B-it.gguf" 514687104
       "5ae8b0117bed601e8924c6305bd5b0585de361d51f0e77091bcb4252cf1f27de"))
    131072 Q4_0 256 DRAFT_MTP_ASSISTANT 4 None
    {| sa_temperature := 1; sa_top_p := 95 # 100; sa_top_k := 64; sa_min_p := None; sa_presence_penalty := None |}
    21597 300 [_L4; _A30] None ["l4"].

Definition BUILTIN_PROFILES : list ModelProfile := [qwen38; qwen36; muse; gemma].

(** ** Resolution *)

Record MissingArtifact := mkMissing { m_profile_id : string; m_role : ArtifactRole; m_ref : GGUFRef }.
Record ResolvedProfile := mkResolved { profile : ModelProfile; r_artifact_id : string; r_draft_artifact_id : option string }.
Record CatalogResolution := mkResolution { resolved : list ResolvedProfile; missing : list MissingArtifact }.

Definition resolution_get (c : CatalogResolution) (id : string) : option ResolvedProfile :=
  List.find (fun r => bool_decide (profile_id (profile r) = id)) (resolved c).

Definition validate_catalog (ps : list ModelProfile) : result string unit :=
  raise_if (negb (bool_decide (NoDup (List.map profile_id ps)))) "catalog profile ids must be unique".

Definition find_artifact (artifacts : list GGUFArtifact) (r : GGUFRef) : option string :=
  artifact_id <$> List.find (matches r) artifacts.

(** One round of the loop of [resolve_catalog]. *)
Definition resolve_one (artifacts : list GGUFArtifact) (c : CatalogResolution) (p : ModelProfile) : CatalogResolution :=
  let target_id := find_artifact artifacts (target p) in
  let draft_id := match draft p with Some d => find_artifact artifacts d | None => None end in
  let missing1 := missing c ++ (if is_none target_id then [mkMissing (profile_id p) TARGET (target p)] else []) in
  let missing2 := missing1 ++ match draft p, draft_id with
                              | Some d, None => [mkMissing (profile_id p) DRAFT d]
                              | _, _ => []
                              end in
  let resolved1 := resolved c ++ match target_id with
                                 | Some t => if is_none (draft p) || is_some draft_id then [mkResolved p t draft_id] else []
                                 | None => []
                                 end in
  mkResolution resolved1 missing2.

Definition resolve_catalog (ps : list ModelProfile) (artifacts : list GGUFArtifact) : CatalogResolution :=
  fold_left (resolve_one artifacts) ps (mkResolution [] []).

(** ** Launch requests *)

Lemma raise_Ok {E A} (c : bool) (e : E) (k : result E A) : is_ok (raise_if c e ;? k) = negb c && is_ok k.
Proof. by destruct c. Qed.

Lemma speculation_ok r : is_ok (validate_speculation r) =
  Bool.eqb (is_some (pr_draft_artifact_id r)) (negb (is_mtp (pr_speculative_type r))) &&
  Bool.eqb (is_some (pr_draft_cache_type r)) (is_mtp (pr_speculative_type r)).
Proof.
  unfold validate_speculation. destruct (pr_speculative_type r); rewrite !raise_Ok; cbn;
    destruct (pr_draft_artifact_id r), (pr_draft_cache_type r); done.
Qed.

Lemma profile_runtime_id r r' : LlamaCppProfileRuntime_validate r = Ok r' -> r' = r.
Proof.
  unfold LlamaCppProfileRuntime_validate, validate_speculation. destruct (negb _); [done|]. cbn.
  destruct (pr_speculative_type r); destruct (pr_draft_artifact_id r), (pr_draft_cache_type r); cbn; congruence.
Qed.

Lemma bind_is_ok {E A B} (x : result E A) (k : A -> result E B) b : (forall a, x = Ok a -> is_ok (k a) = b) ->
  is_ok (rbind x k) = is_ok x && b.
Proof. destruct x as [a|e]; cbn; [|done]. intros H. by apply H. Qed.

(** A profile launch request with one slot. *)
Lemma profile_request_ok reserve ctx cache r : is_ok (LlamaCppRuntimeRequest_validate
    {| rq_sizing := SIZING_PROFILE; rq_fit_target_mib := reserve; rq_context_per_slot := Some ctx; rq_slots := Some 1;
       rq_cache_type := Some cache; rq_allow_estimator_overrun := false; rq_profile := Some r |}) =
  (1 <=? reserve) && (256 <=? ctx) && (ctx mod 256 =? 0) && negb (LLAMACPP_MAX_AGGREGATE_CONTEXT <? ctx).
Proof.
  unfold LlamaCppRuntimeRequest_validate, LlamaCppRuntimeRequest_fields, validate_sizing_policy. rewrite raise_Ok. cbn [rq_sizing
    rq_fit_target_mib rq_context_per_slot rq_slots rq_cache_type rq_allow_estimator_overrun rq_profile is_none is_some opt_all].
  rewrite Z.mul_1_r. unfold LLAMACPP_CONTEXT_ALIGNMENT. cbn [raise_if negb rbind]. change (1 =? 1) with true.
  change ((1 <=? 1) && (1 <=? LLAMACPP_MAX_SEQUENCES)) with true. cbn [raise_if negb rbind].
  destruct (1 <=? reserve), (256 <=? ctx), (ctx mod 256 =? 0), (LLAMACPP_MAX_AGGREGATE_CONTEXT <? ctx); done.
Qed.

Lemma request_id q q' : LlamaCppRuntimeRequest_validate q = Ok q' -> q' = q.
Proof.
  unfold LlamaCppRuntimeRequest_validate, validate_sizing_policy. destruct (negb _); [done|]. cbn.
  destruct (rq_sizing q); repeat case_match; cbn; try congruence; unfold raise_if; repeat case_match; cbn; congruence.
Qed.

Lemma profile_fields_ok p d g : ModelProfile_fields p = true -> g ∈ gpu_classes p ->
  LlamaCppProfileRuntime_fields
    {| pr_profile_id := profile_id p; pr_profile_version := version p; pr_ubatch := ubatch p;
       pr_required_free_mib := required_free_mib p; pr_gpu_name := nvidia_smi_name g;
       pr_gpu_min_total_mib := min_total_mib g; pr_speculative_type := speculative_type p;
       pr_speculative_draft_n_max := speculative_draft_n_max p; pr_draft_cache_type := draft_cache_type p;
       pr_draft_artifact_id := d; pr_sampling := sampling p; pr_disable_cuda_graphs := false |} =
  is_gpu_name (nvidia_smi_name g) && opt_all (is_hex 64) d.
Proof.
  intros Hp Hg. unfold ModelProfile_fields in Hp. rewrite !andb_true_iff in Hp. destruct_and?.
  assert (GPUClass_validate g = true) as Hgv.
  { match goal with H : forallb GPUClass_validate _ = true |- _ => rewrite forallb_forall in H; apply H end. by apply list_elem_of_In. }
  unfold GPUClass_validate in Hgv. rewrite !andb_true_iff in Hgv. destruct_and?.
  unfold LlamaCppProfileRuntime_fields. cbn.
  assert (1 <=? required_free_mib p = true) as -> by (apply Z.leb_le; unfold required_free_mib; bool_to_prop; lia).
  repeat match goal with H : _ = true |- _ => rewrite H; clear H end. cbn. by rewrite !andb_true_r.
Qed.

Lemma gpu_class_in p k g : gpu_class p k = Some g -> g ∈ gpu_classes p /\ gkey g = k.
Proof. unfold gpu_class. intros [Hin Hk]%find_some. split; [by apply list_elem_of_In|]. by apply bool_decide_eq_true in Hk. Qed.

(** The runtime description a request of [p] on [g] carries. *)
Definition runtime_of (p : ModelProfile) (d : option string) (g : GPUClass) : LlamaCppProfileRuntime :=
  {| pr_profile_id := profile_id p; pr_profile_version := version p; pr_ubatch := ubatch p;
     pr_required_free_mib := required_free_mib p; pr_gpu_name := nvidia_smi_name g;
     pr_gpu_min_total_mib := min_total_mib g; pr_speculative_type := speculative_type p;
     pr_speculative_draft_n_max := speculative_draft_n_max p; pr_draft_cache_type := draft_cache_type p;
     pr_draft_artifact_id := d; pr_sampling := sampling p; pr_disable_cuda_graphs := false |}.

Definition request_of (p : ModelProfile) (reserve : Z) (d : option string) (g : GPUClass) : LlamaCppRuntimeRequest :=
  {| rq_sizing := SIZING_PROFILE; rq_fit_target_mib := reserve; rq_context_per_slot := Some (context p);
     rq_slots := Some 1; rq_cache_type := Some (cache_type p); rq_allow_estimator_overrun := false;
     rq_profile := Some (runtime_of p d g) |}.

(** What a request needs beyond a valid profile. *)
Definition launchable (p : ModelProfile) (reserve : Z) (d : option string) (g : GPUClass) : bool :=
  is_gpu_name (nvidia_smi_name g) && opt_all (is_hex 64) d && (1 <=? reserve) &&
  (context p mod 256 =? 0) && negb (LLAMACPP_MAX_AGGREGATE_CONTEXT <? context p) &&
  Bool.eqb (is_some d) (negb (is_mtp (speculative_type p))) && Bool.eqb (is_some (draft_cache_type p)) (is_mtp (speculative_type p)).

Lemma runtime_request_ok p reserve d k g : ModelProfile_fields p = true -> gpu_class p k = Some g ->
  (if launchable p reserve d g then runtime_request p reserve d k = Ok (request_of p reserve d g)
   else is_ok (runtime_request p reserve d k) = false).
Proof.
  intros Hp Hg. destruct (gpu_class_in _ _ _ Hg) as [Hin _]. unfold runtime_request. rewrite Hg. fold (runtime_of p d g).
  assert (256 <=? context p = true) as Hctx.
  { unfold ModelProfile_fields in Hp. rewrite !andb_true_iff in Hp. by destruct_and?. }
  assert (is_ok (LlamaCppProfileRuntime_validate (runtime_of p d g)) = is_gpu_name (nvidia_smi_name g) && opt_all (is_hex 64) d &&
    (Bool.eqb (is_some d) (negb (is_mtp (speculative_type p))) && Bool.eqb (is_some (draft_cache_type p)) (is_mtp (speculative_type p)))) as Hr.
  { unfold LlamaCppProfileRuntime_validate. rewrite raise_Ok, speculation_ok, negb_involutive. unfold runtime_of at 1.
    rewrite profile_fields_ok by done. done. }
  assert (is_ok (rbind (LlamaCppProfileRuntime_validate (runtime_of p d g)) (fun r => LlamaCppRuntimeRequest_validate
    {| rq_sizing := SIZING_PROFILE; rq_fit_target_mib := reserve; rq_context_per_slot := Some (context p);
       rq_slots := Some 1; rq_cache_type := Some (cache_type p); rq_allow_estimator_overrun := false; rq_profile := Some r |})) =
    launchable p reserve d g) as Hok.
  { rewrite (bind_is_ok _ _ ((1 <=? reserve) && true && (context p mod 256 =? 0) && negb (LLAMACPP_MAX_AGGREGATE_CONTEXT <? context p))).
    - rewrite Hr. unfold launchable. btauto.
    - intros r _. rewrite profile_request_ok. by rewrite Hctx. }
  destruct (launchable p reserve d g); [|exact Hok].
  destruct (LlamaCppProfileRuntime_validate (runtime_of p d g)) as [r|] eqn:Hv; [|done]. apply profile_runtime_id in Hv as ->. cbn [rbind] in *.
  fold (request_of p reserve d g) in *. destruct (LlamaCppRuntimeRequest_validate _) as [q|] eqn:Hq; [|done]. by apply request_id in Hq as ->.
Qed.

(** ** Resolution facts *)

(** What one profile contributes. *)
Definition resolved_of (artifacts : list GGUFArtifact) (p : ModelProfile) : list ResolvedProfile := resolved (resolve_one artifacts (mkResolution [] []) p).
Definition missing_of (artifacts : list GGUFArtifact) (p : ModelProfile) : list MissingArtifact := missing (resolve_one artifacts (mkResolution [] []) p).

Lemma resolve_one_app artifacts c p :
  resolve_one artifacts c p = mkResolution (resolved c ++ resolved_of artifacts p) (missing c ++ missing_of artifacts p).
Proof. unfold resolved_of, missing_of, resolve_one. cbn. by rewrite <- app_assoc. Qed.

Lemma resolve_loop artifacts ps c : fold_left (resolve_one artifacts) ps c =
  mkResolution (resolved c ++ mjoin (resolved_of artifacts <$> ps)) (missing c ++ mjoin (missing_of artifacts <$> ps)).
Proof.
  revert c. induction ps as [|p ps IH]; intros c; [cbn; rewrite !app_nil_r; by destruct c|]. cbn [fold_left].
  rewrite IH, resolve_one_app. cbn [resolved missing fmap list_fmap mjoin list_join]. by rewrite !app_assoc.
Qed.

Lemma find_artifact_Some artifacts r t : find_artifact artifacts r = Some t ->
  exists a, a ∈ artifacts /\ matches r a = true /\ artifact_id a = t.
Proof.
  unfold find_artifact. destruct (List.find (matches r) artifacts) as [a|] eqn:Hf; [|done]. intros [= <-].
  apply find_some in Hf as [Hin Hm]. exists a. split; [by apply list_elem_of_In|done].
Qed.

Lemma find_artifact_None artifacts r : find_artifact artifacts r = None <-> forall a, a ∈ artifacts -> matches r a = false.
Proof.
  unfold find_artifact. destruct (List.find (matches r) artifacts) as [a|] eqn:Hf; cbn.
  - split; [done|]. apply find_some in Hf as [Hin Hm]. intros H. rewrite (H a) in Hm; [done|]. by apply list_elem_of_In.
  - split; [|done]. intros _ a Hin. by apply (find_none _ _ Hf), list_elem_of_In.
Qed.

Lemma resolved_of_spec artifacts p rp : rp ∈ resolved_of artifacts p <->
  profile rp = p /\ find_artifact artifacts (target p) = Some (r_artifact_id rp) /\
  match draft p with
  | None => r_draft_artifact_id rp = None
  | Some d => exists id, find_artifact artifacts d = Some id /\ r_draft_artifact_id rp = Some id
  end.
Proof.
  unfold resolved_of, resolve_one. cbn. destruct (find_artifact artifacts (target p)) as [t|].
  2: { split; [by intros ?%elem_of_nil|naive_solver]. }
  destruct (draft p) as [d|]; cbn; [destruct (find_artifact artifacts d) as [i|]; cbn|];
    rewrite ?list_elem_of_singleton, ?elem_of_nil; split; try naive_solver; destruct rp; cbn; naive_solver.
Qed.

(** The file is not in the cache. *)
Definition absent (artifacts : list GGUFArtifact) (r : GGUFRef) : Prop := forall a, a ∈ artifacts -> matches r a = false.

Lemma missing_of_spec artifacts p m : m ∈ missing_of artifacts p <->
  m_profile_id m = profile_id p /\
  (m_role m = TARGET /\ m_ref m = target p /\ absent artifacts (target p) \/
   m_role m = DRAFT /\ draft p = Some (m_ref m) /\ absent artifacts (m_ref m)).
Proof.
  unfold missing_of, resolve_one, absent. cbn. rewrite elem_of_app, <- find_artifact_None.
  destruct (find_artifact artifacts (target p)) as [t|] eqn:Ht; cbn; rewrite ?elem_of_nil, ?list_elem_of_singleton;
    (destruct (draft p) as [d|]; [destruct (find_artifact artifacts d) as [i|] eqn:Hd; cbn|]);
    rewrite ?elem_of_nil, ?list_elem_of_singleton;
    destruct m as [mp mr mf]; cbn; setoid_rewrite <- find_artifact_None; naive_solver.
Qed.

Lemma profile_accounted artifacts p :
  (exists rp, rp ∈ resolved_of artifacts p /\ profile rp = p) \/ (exists m, m ∈ missing_of artifacts p /\ m_profile_id m = profile_id p).
Proof.
  setoid_rewrite resolved_of_spec. setoid_rewrite missing_of_spec. unfold absent.
  destruct (find_artifact artifacts (target p)) as [t|] eqn:Ht.
  - destruct (draft p) as [d|] eqn:Hd; [destruct (find_artifact artifacts d) as [i|] eqn:Hi|].
    + left. exists (mkResolved p t (Some i)). cbn. eauto 6.
    + right. exists (mkMissing (profile_id p) DRAFT d). cbn. split; [|done]. split; [done|]. right. split_and!; [done|done|].
      exact (proj1 (find_artifact_None _ _) Hi).
    + left. exists (mkResolved p t None). done.
  - right. exists (mkMissing (profile_id p) TARGET (target p)). cbn. split; [|done]. split; [done|]. left. split_and!; [done|done|].
    exact (proj1 (find_artifact_None _ _) Ht).
Qed.

(** Resolving a catalog against the cache loses and invents nothing: the
    resolved profiles are, in catalog order, exactly those of whose every file
    the cache holds an artifact (of that repository, revision, name and size),
    with these artifacts' ids, and the report lists exactly the files that are
    in no artifact; the profiles of the report and the resolved ones together
    are the catalog. *)
Theorem resolution_exact ps artifacts :
  let c := resolve_catalog ps artifacts in
  (forall rp, rp ∈ resolved c <-> profile rp ∈ ps /\ find_artifact artifacts (target (profile rp)) = Some (r_artifact_id rp) /\
     match draft (profile rp) with
     | None => r_draft_artifact_id rp = None
     | Some d => exists id, find_artifact artifacts d = Some id /\ r_draft_artifact_id rp = Some id
     end) /\
  (forall m, m ∈ missing c <-> exists p, p ∈ ps /\ m_profile_id m = profile_id p /\
     (m_role m = TARGET /\ m_ref m = target p /\ absent artifacts (target p) \/
      m_role m = DRAFT /\ draft p = Some (m_ref m) /\ absent artifacts (m_ref m))) /\
  (List.map profile (resolved c)) `sublist_of` ps /\
  (forall p, p ∈ ps -> (exists rp, rp ∈ resolved c /\ profile rp = p) \/
     (exists m, m ∈ missing c /\ m_profile_id m = profile_id p)).
Proof.
  intros c. assert (c = mkResolution (mjoin (resolved_of artifacts <$> ps)) (mjoin (missing_of artifacts <$> ps))) as Hc
    by (unfold c, resolve_catalog; by rewrite resolve_loop).
  rewrite Hc. cbn [resolved missing]. split_and!.
  - intros rp. rewrite list_elem_of_join. setoid_rewrite list_elem_of_fmap. split.
    + intros (l & Hrp & p & -> & Hp). apply resolved_of_spec in Hrp as (<- & Ht & Hd). done.
    + intros (Hp & Ht & Hd). exists (resolved_of artifacts (profile rp)). split; [by apply resolved_of_spec|eauto].
  - intros m. rewrite list_elem_of_join. setoid_rewrite list_elem_of_fmap. split.
    + intros (l & Hm & p & -> & Hp). apply missing_of_spec in Hm. eauto.
    + intros (p & Hp & Hm). exists (missing_of artifacts p). split; [by apply missing_of_spec|eauto].
  - clear. induction ps as [|p ps IH]; [done|]. cbn [fmap list_fmap mjoin list_join]. rewrite List.map_app.
    unfold resolved_of, resolve_one. cbn. destruct (find_artifact artifacts (target p)); cbn; [|by apply sublist_cons].
    destruct (is_none (draft p) || _); cbn; [by apply sublist_skip|by apply sublist_cons].
  - intros p Hp. destruct (profile_accounted artifacts p) as [(rp & Hrp & Hpr)|(m & Hm & Hmp)]; [left; exists rp|right; exists m];
      (split; [|done]); apply list_elem_of_join; eexists; (split; [eassumption|apply list_elem_of_fmap; eauto]).
Qed.

(** The launch request of a valid profile is accepted exactly when the GPU
    class is one of its own with a proper product name, the reserve is at
    least one MiB, the context is a multiple of 256 within llama.cpp's limit,
    the draft artifact is given exactly to profiles with a draft file, and a
    draft cache type exactly to in-file MTP profiles; it then carries the
    profile's values unchanged.  Every other call raises. *)
Theorem launch_request_exact p reserve d k q : ModelProfile_validate p = Ok p ->
  runtime_request p reserve d k = Ok q <->
  exists g, gpu_class p k = Some g /\ launchable p reserve d g = true /\ q = request_of p reserve d g.
Proof.
  intros Hv. assert (ModelProfile_fields p = true) as Hp.
  { unfold ModelProfile_validate in Hv. by destruct (ModelProfile_fields p). }
  destruct (gpu_class p k) as [g|] eqn:Hg.
  - pose proof (runtime_request_ok p reserve d k g Hp Hg) as H. destruct (launchable p reserve d g) eqn:Hl.
    + rewrite H. split; [intros [= <-]; eauto|]. by intros (g' & [= <-] & _ & ->).
    + split; [intros Hq; by rewrite Hq in H|]. intros (g' & [= <-] & Hl' & _). congruence.
  - split; [unfold runtime_request; by rewrite Hg|]. by intros (g' & [=] & _).
Qed.

Lemma launch_request_exact_witness :
  runtime_request qwen38 512 None "l4" = Ok (request_of qwen38 512 None _L4).
Proof.
  apply (launch_request_exact qwen38 512 None "l4"); [vm_compute; reflexivity|].
  exists _L4. split; [reflexivity|]. split; [vm_compute; reflexivity|reflexivity].
Defined.

Lemma builtin_launchable p g reserve d : p ∈ BUILTIN_PROFILES -> g ∈ gpu_classes p -> 1 <= reserve ->
  opt_all (is_hex 64) d = true -> is_some d = is_some (draft p) -> launchable p reserve d g = true.
Proof.
  intros Hp Hg Hr Hd Hs. unfold launchable. rewrite Hd, Hs, (proj2 (Z.leb_le 1 reserve) Hr).
  unfold BUILTIN_PROFILES in Hp. rewrite !elem_of_cons, elem_of_nil in Hp. destruct_or!; subst p; try done;
    cbn in Hg; rewrite !elem_of_cons, elem_of_nil in Hg; destruct_or!; subst g; try done; vm_compute; reflexivity.
Qed.

Lemma builtin_gpu_class p g : p ∈ BUILTIN_PROFILES -> g ∈ gpu_classes p -> gpu_class p (gkey g) = Some g.
Proof.
  unfold BUILTIN_PROFILES. intros Hp. rewrite !elem_of_cons, elem_of_nil in Hp. destruct_or!; subst p; try done;
    intros Hg; cbn in Hg; rewrite !elem_of_cons, elem_of_nil in Hg; destruct_or!; subst g; try done; reflexivity.
Qed.

(** The built-in catalog is well formed, and whatever the cache holds, every
    profile that resolves against it yields a valid launch request on each of
    its GPU classes for every reserve of at least one MiB. *)
Theorem builtin_catalog_launches artifacts reserve rp g :
  Forall (fun a => is_hex 64 (artifact_id a) = true) artifacts -> 1 <= reserve ->
  rp ∈ resolved (resolve_catalog BUILTIN_PROFILES artifacts) -> g ∈ gpu_classes (profile rp) ->
  validate_catalog BUILTIN_PROFILES = Ok tt /\ Forall (fun p => ModelProfile_validate p = Ok p) BUILTIN_PROFILES /\
  exists q, runtime_request (profile rp) reserve (r_draft_artifact_id rp) (gkey g) = Ok q /\
    LlamaCppRuntimeRequest_validate q = Ok q /\ rq_sizing q = SIZING_PROFILE.
Proof.
  intros Ha Hr Hrp Hg. split; [vm_compute; reflexivity|]. split; [repeat constructor; vm_compute; reflexivity|].
  unfold resolve_catalog in Hrp. rewrite resolve_loop in Hrp. cbn [resolved app] in Hrp.
  apply list_elem_of_join in Hrp as (l & Hrp & (p & -> & Hp)%list_elem_of_fmap). apply resolved_of_spec in Hrp as (<- & _ & Hd).
  assert (is_some (r_draft_artifact_id rp) = is_some (draft (profile rp)) /\ opt_all (is_hex 64) (r_draft_artifact_id rp) = true) as [Hsd Hhex].
  { destruct (draft (profile rp)) as [d|]; [|by rewrite Hd]. destruct Hd as (i & (a & Hin & _ & <-)%find_artifact_Some & ->).
    split; [done|]. rewrite Forall_forall in Ha. by apply Ha. }
  assert (ModelProfile_fields (profile rp) = true) as Hf.
  { clear -Hp. unfold BUILTIN_PROFILES in Hp. rewrite !elem_of_cons, elem_of_nil in Hp.
    destruct_or!; try done; rewrite Hp; vm_compute; reflexivity. }
  pose proof (runtime_request_ok _ reserve (r_draft_artifact_id rp) _ g Hf (builtin_gpu_class _ _ Hp Hg)) as Hq.
  rewrite (builtin_launchable _ _ _ _ Hp Hg Hr Hhex Hsd) in Hq. exists (request_of (profile rp) reserve (r_draft_artifact_id rp) g).
  split_and!; [done| |done]. unfold runtime_request in Hq. rewrite (builtin_gpu_class _ _ Hp Hg) in Hq.
  apply rbind_Ok in Hq as (r & Hr' & Hq). by apply request_id in Hq as Hid; rewrite Hid at 1.
Qed.

(** An artifact of the first profile's file. *)
Definition ex_artifact : GGUFArtifact :=
  mkArtifact (sha256 (target qwen38)) (repo_id (target qwen38)) (ref_revision (target qwen38)) [filename (target qwen38)]
    [(filename (target qwen38), size_bytes (target qwen38))].

Lemma builtin_catalog_launches_witness :
  List.map profile (resolved (resolve_catalog BUILTIN_PROFILES [ex_artifact])) = [qwen38] /\
  exists q, runtime_request qwen38 1024 None "a30" = Ok q /\ LlamaCppRuntimeRequest_validate q = Ok q.
Proof.
  split; [vm_compute; reflexivity|].
  destruct (builtin_catalog_launches [ex_artifact] 1024 (mkResolved qwen38 (sha256 (target qwen38)) None) _A30) as (_ & _ & q & H1 & H2 & _).
  - constructor; [vm_compute; reflexivity|constructor].
  - lia.
  - assert (resolved (resolve_catalog BUILTIN_PROFILES [ex_artifact]) = [mkResolved qwen38 (sha256 (target qwen38)) None]) as ->
      by (vm_compute; reflexivity). left.
  - right. left.
  - exists q. split; assumption.
Defined.
