(* ===== verification/Claims.v ===== *)
(** * Placement claims and suspensions

    - [inference_proxy/placement/claims.py]: the claim record and [ClaimStore]
    - [inference_proxy/placement/suspensions.py]: [SuspensionStore]

    Both stores are clients of the etcd interface.  [encode] and [decode] are
    pydantic's JSON of a claim; [decode] answers [None] where validation
    raises.  Every call is one etcd request; what runs between the requests of
    one coroutine is the argument [others].  Times are integers. *)

From S2P Require Import Prelude PyDict Json NodeModel Quads Etcd.
From Stdlib Require Import Ascii.
Local Open Scope Z_scope.

(** ** Claims *)

Module Claim.
Inductive State := PROVISIONING | ACTIVE | FAILED | EXHAUSTED.

#[global] Instance State_eq : EqDecision State.
Proof. solve_decision. Defined.

Record t := mk {
  claim_id : string;
  hostname : string;
  profile_id : string;
  profile_version : Z;
  gpu_class : string;
  state : State;
  attempts : Z;
  holder : string;
  created_at : Z;
  updated_at : Z;
  heartbeat_at : Z;
  retry_at : option Z;
  last_error : string;
}.

#[global] Instance t_eq : EqDecision t.
Proof. solve_decision. Defined.

(** The [Field] constraints. *)
Definition fields (c : t) : bool :=
  is_hex 32 (claim_id c) && (1 <=? slen (hostname c)) && is_profile_id (profile_id c) &&
  (1 <=? profile_version c) &&
  (str_truthy (gpu_class c) && str_all (fun a => is_lower a || is_digit a) (gpu_class c)) &&
  (0 <=? attempts c) && is_hex 32 (holder c) && (slen (last_error c) <=? 2000).

Definition counts_toward_ratio (c : t) : bool := negb (bool_decide (state c = EXHAUSTED)).
End Claim.

Record StoredClaim := { claim : Claim.t; sc_mod_revision : Z }.

Definition CLAIM_PREFIX : string := "/placement/claims/".

(** [ClaimStore.key] *)
Definition claim_key (hostname : string) : string := CLAIM_PREFIX +:+ hostname.

Section claim_store.
Context {S : Type} `{!Etcd S}.
Context (encode : Claim.t -> blob) (decode : blob -> option Claim.t).

(** A record that parses and names its own key's host. *)
Definition parse_claim (host : string) (v : KV) : option StoredClaim :=
  match decode (kv_value v) with
  | Some c => if bool_decide (Claim.hostname c = host) then Some {| claim := c; sc_mod_revision := kv_mod v |} else None
  | None => None
  end.

Fixpoint sort_claims (records : list (string * KV)) : list StoredClaim * list string :=
  match records with
  | [] => ([], [])
  | (k, v) :: records =>
      let '(claims, unreadable) := sort_claims records in
      let host := removeprefix CLAIM_PREFIX k in
      match parse_claim host v with
      | Some c => (c :: claims, unreadable)
      | None => (claims, host :: unreadable)
      end
  end.

Definition list_claims (s : S) : S * option (list StoredClaim * list string) :=
  let '(s, snapshot) := read_prefix s CLAIM_PREFIX in (s, sort_claims <$> snapshot).

Definition get_claim (host : string) (s : S) : S * option (option StoredClaim) :=
  let '(s, record) := read_key s (claim_key host) in
  (s, match record with
      | None => None
      | Some None => Some None
      | Some (Some v) => Some (parse_claim host v)
      end).

Definition _write (c : Claim.t) (expected_mod_revision : Z) (s : S) : S * option (option Z) :=
  replace_if_revision (claim_key (Claim.hostname c)) (encode c) expected_mod_revision 0 s.

Definition create (c : Claim.t) (s : S) := _write c 0 s.

Definition update (stored : StoredClaim) (c : Claim.t) (s : S) := _write c (sc_mod_revision stored) s.

Definition delete_claim (stored : StoredClaim) (s : S) : S * option bool :=
  delete_if_revision (claim_key (Claim.hostname (claim stored))) (sc_mod_revision stored) s.
End claim_store.

(** ** Suspensions *)

Definition SUSPENSION_PREFIX : string := "/placement/suspensions/".

(** ['{"reason":"manual_teardown"}'] *)
Definition manual_teardown : blob := JsonText (JObj [("reason", JStr "manual_teardown")]).

Section suspensions.
Context {S : Type} `{!Etcd S}.
(** What other tasks and gateways do between two requests. *)
Context (others : S -> S).

Definition list_suspended (s : S) : S * option (list string) :=
  let '(s, snapshot) := read_prefix s SUSPENSION_PREFIX in
  (s, List.map (fun kv => removeprefix SUSPENSION_PREFIX (fst kv)) <$> snapshot).

(** [next((r for r in snapshot.records if r.key == key), None)] *)
Definition exact_record (k : string) (records : list (string * KV)) : option KV :=
  snd <$> List.find (fun kv => bool_decide (fst kv = k)) records.

(** [Ok] when the call returns, [Err] with the message of a raised [ValueError]
    or [""] for a failed request. *)
Definition suspend (host : string) (s : S) : S * result string unit :=
  let k := SUSPENSION_PREFIX +:+ canonical_hostname host in
  let '(s, snapshot) := read_prefix s k in
  match snapshot with
  | None => (s, Err "")
  | Some records =>
      let expected := match exact_record k records with Some v => kv_mod v | None => 0 end in
      let '(s, revision) := replace_if_revision k manual_teardown expected 0 (others s) in
      (s, match revision with
          | None => Err ""
          | Some None => Err "Suspension changed concurrently; retry teardown"
          | Some (Some _) => Ok tt
          end)
  end.

Definition resume (host : string) (s : S) : S * result string unit :=
  let k := SUSPENSION_PREFIX +:+ canonical_hostname host in
  let '(s, snapshot) := read_prefix s k in
  match snapshot with
  | None => (s, Err "")
  | Some records =>
      match exact_record k records with
      | None => (s, Ok tt)
      | Some v =>
          let '(s, removed) := delete_if_revision k (kv_mod v) (others s) in
          (s, match removed with
              | None => Err ""
              | Some false => Err "Suspension changed concurrently; refresh and retry"
              | Some true => Ok tt
              end)
      end
  end.
End suspensions.

(** ** What the stores guarantee *)

(** The compare-and-swap of a claim has one winner.  Once a write made
    from revision [e] of a host's claim has committed, no later write or delete
    made from that same revision can, whatever happens in between; it leaves
    the store as it is.  A claim created from nothing ([e = 0]) can only be
    created again after it was deleted. *)
Theorem claim_single_winner {S} `{!Etcd S, !EtcdLaws S} (encode : Claim.t -> blob)
  (c1 c2 : Claim.t) (e r : Z) (s s2 : S) :
  kv_ok s -> snd (_write encode c1 e s) = Some (Some r) -> evolves (fst (_write encode c1 e s)) s2 ->
  Claim.hostname c2 = Claim.hostname c1 ->
  (e = 0 -> is_Some (lookup_kv s2 (claim_key (Claim.hostname c1)))) ->
  lookup_kv (fst (_write encode c1 e s)) (claim_key (Claim.hostname c1)) = Some (mkKV (encode c1) r 0) /\
  (forall r', snd (_write encode c2 e s2) <> Some (Some r')) /\
  snd (delete_claim {| claim := c2; sc_mod_revision := e |} s2) <> Some true /\
  (forall k, lookup_kv (fst (_write encode c2 e s2)) k = lookup_kv s2 k) /\
  (forall k, lookup_kv (fst (delete_claim {| claim := c2; sc_mod_revision := e |} s2)) k = lookup_kv s2 k).
Proof.
  intros [Hpos Hok] Hw [Hrev Hev] Hh He. unfold _write, delete_claim in *. cbn [claim sc_mod_revision]. rewrite Hh.
  set (k := claim_key (Claim.hostname c1)) in *.
  destruct (replace_success _ _ _ _ _ _ Hw) as (Hm & Hl & Hr & Hlt & _).
  assert (e <= revision s) as Hle.
  { rewrite <- Hm. unfold mod_of. destruct (lookup_kv s k) as [v|] eqn:Hv; cbn.
    - specialize (Hok k v Hv). lia.
    - done. }
  assert (mod_of s2 k <> e) as Hne.
  { unfold mod_of. destruct (lookup_kv s2 k) as [v|] eqn:Hv; cbn.
    - destruct (Hev k v Hv) as [Hsame|Hnew]; [|lia]. rewrite Hl in Hsame. injection Hsame as <-. cbn. lia.
    - intros <-. by destruct (He eq_refl). }
  destruct (replace_stale k (encode c2) e 0 s2 Hne) as [Hn1 Hn2].
  destruct (delete_stale k e s2 Hne) as [Hd1 Hd2].
  split_and!; [done| | |done|done]; destruct Hn1, Hd1; congruence.
Qed.

Section suspension_facts.
Context {S : Type} `{!Etcd S, !EtcdLaws S}.
Context (others : S -> S) (host : string).

Definition suspension_key : string := SUSPENSION_PREFIX +:+ canonical_hostname host.

(** The exact record of a prefix range is the key's own. *)
Lemma exact_record_lookup (s : S) records :
  snd (read_prefix s suspension_key) = Some records ->
  exact_record suspension_key records = lookup_kv s suspension_key.
Proof.
  intros Hr. destruct (range_law s suspension_key) as (_ & _ & Hl). destruct (Hl _ Hr) as [_ Hin].
  unfold exact_record. destruct (List.find _ records) as [[k v]|] eqn:Hf; cbn.
  - apply find_some in Hf as [Hi%list_elem_of_In Hk%bool_decide_eq_true_1]. cbn in Hk. subst k.
    symmetry. by apply Hin.
  - destruct (lookup_kv s suspension_key) as [v|] eqn:Hv; [|done].
    assert ((suspension_key, v) ∈ records) as Hi%list_elem_of_In.
    { apply Hin. split; [|done]. apply prefix_refl. }
    pose proof (find_none _ _ Hf _ Hi) as Hc. cbn in Hc. by rewrite bool_decide_true in Hc.
Qed.

Lemma suspend_Ok (s : S) : snd (suspend others host s) = Ok tt ->
  exists r, lookup_kv (fst (suspend others host s)) suspension_key = Some (mkKV manual_teardown r 0).
Proof.
  unfold suspend. fold suspension_key. destruct (read_prefix s suspension_key) as [s0 [records|]]; [|done].
  match goal with |- context [replace_if_revision ?k ?v ?e ?l ?s1] =>
    destruct (replace_if_revision k v e l s1) as [s' [[r|]|]] eqn:Hr; try done;
    pose proof (replace_success k v e l s1 r) as Hs end.
  rewrite Hr in Hs. destruct (Hs eq_refl) as (_ & Hl & _). cbn [fst snd]. eauto.
Qed.

Lemma resume_Ok (s : S) : snd (resume others host s) = Ok tt ->
  lookup_kv (fst (resume others host s)) suspension_key = None.
Proof.
  unfold resume. fold suspension_key. destruct (range_law s suspension_key) as (Hsame & _).
  pose proof (exact_record_lookup s) as Hx.
  destruct (read_prefix s suspension_key) as [s0 [records|]]; [|done]. cbn [fst snd] in *.
  rewrite (Hx records eq_refl). destruct (lookup_kv s suspension_key) as [v|] eqn:Hv; cbn.
  - pose proof (delete_success suspension_key (kv_mod v) (others s0)) as Hd.
    destruct (delete_if_revision suspension_key (kv_mod v) (others s0)) as [s' [[]|]]; try done. intros _. by apply Hd.
  - intros _. by rewrite Hsame.
Qed.

Lemma resume_conflict (s : S) records v v' :
  snd (read_prefix s suspension_key) = Some records -> lookup_kv s suspension_key = Some v ->
  lookup_kv (others (fst (read_prefix s suspension_key))) suspension_key = Some v' -> kv_mod v' <> kv_mod v ->
  snd (resume others host s) <> Ok tt /\ lookup_kv (fst (resume others host s)) suspension_key = Some v'.
Proof.
  intros Hr Hv Hv' Hne. unfold resume. fold suspension_key. pose proof (exact_record_lookup s records Hr) as Hx.
  destruct (read_prefix s suspension_key) as [s0 o]. cbn [fst snd] in *. subst o. rewrite Hx, Hv.
  destruct (delete_stale suspension_key (kv_mod v) (others s0)) as [Hd1 Hd2].
  { unfold mod_of. by rewrite Hv'. }
  destruct (delete_if_revision suspension_key (kv_mod v) (others s0)) as [s' o]. cbn [fst snd] in *.
  rewrite Hd2. destruct Hd1 as [->| ->]; done.
Qed.
End suspension_facts.

(** An operator's suspension is durable intent.  A [suspend] that returns
    has stored the host's suspension, so the next readable listing blocks the
    host; a [resume] that returns has removed it; and a [resume] that raced
    with a newer suspension raises and leaves the newer one in place. *)
Theorem suspension_intent {S} `{!Etcd S, !EtcdLaws S} (others : S -> S) (host : string) (s : S) :
  let k := suspension_key host in
  (snd (suspend others host s) = Ok tt ->
     forall hosts, snd (list_suspended (fst (suspend others host s))) = Some hosts ->
     canonical_hostname host ∈ hosts) /\
  (snd (resume others host s) = Ok tt -> lookup_kv (fst (resume others host s)) k = None) /\
  (forall records v v', snd (read_prefix s k) = Some records -> lookup_kv s k = Some v ->
     lookup_kv (others (fst (read_prefix s k))) k = Some v' -> kv_mod v' <> kv_mod v ->
     snd (resume others host s) <> Ok tt /\ lookup_kv (fst (resume others host s)) k = Some v').
Proof.
  cbn zeta. split_and!; [|apply resume_Ok|apply resume_conflict].
  intros Hok hosts. destruct (suspend_Ok others host s Hok) as [r Hl].
  set (s' := fst (suspend others host s)) in *. unfold list_suspended.
  destruct (range_law s' SUSPENSION_PREFIX) as (_ & _ & Hin).
  destruct (read_prefix s' SUSPENSION_PREFIX) as [s2 [records|]]; [|done]. cbn [fst snd] in *.
  intros [= <-]. destruct (Hin records eq_refl) as [_ Hiff].
  apply list_elem_of_In, in_map_iff. eexists. split; [|apply list_elem_of_In, Hiff; split; [|exact Hl]].
  - cbn. apply removeprefix_app.
  - apply prefix_app.
Qed.

(** ** A concrete codec and concrete stores *)

Definition state_code (st : Claim.State) : Z :=
  match st with Claim.PROVISIONING => 0 | Claim.ACTIVE => 1 | Claim.FAILED => 2 | Claim.EXHAUSTED => 3 end.

Definition code_state (z : Z) : option Claim.State :=
  if z =? 0 then Some Claim.PROVISIONING else if z =? 1 then Some Claim.ACTIVE
  else if z =? 2 then Some Claim.FAILED else if z =? 3 then Some Claim.EXHAUSTED else None.

Definition ex_encode (c : Claim.t) : blob :=
  JsonText (JList
    [JStr (Claim.claim_id c); JStr (Claim.hostname c); JStr (Claim.profile_id c); JNum (Claim.profile_version c);
     JStr (Claim.gpu_class c); JNum (state_code (Claim.state c)); JNum (Claim.attempts c); JStr (Claim.holder c);
     JNum (Claim.created_at c); JNum (Claim.updated_at c); JNum (Claim.heartbeat_at c);
     match Claim.retry_at c with None => JNull | Some z => JNum z end; JStr (Claim.last_error c)]).

(** Validates like [PlacementClaim.model_validate_json]. *)
Definition ex_decode (b : blob) : option Claim.t :=
  match loads b with
  | Some (JList [JStr i; JStr h; JStr p; JNum v; JStr g; JNum st; JNum a; JStr hd; JNum cr; JNum up; JNum hb; r; JStr e]) =>
      match code_state st, match r with JNull => Some None | JNum z => Some (Some z) | _ => None end with
      | Some st, Some r =>
          let c := Claim.mk i h p v g st a hd cr up hb r e in if Claim.fields c then Some c else None
      | _, _ => None
      end
  | _ => None
  end.

Lemma ex_round_trip c : Claim.fields c = true -> ex_decode (ex_encode c) = Some c.
Proof.
  intros Hf. destruct c as [i h p v g st a hd cr up hb r e]. unfold ex_decode, ex_encode. cbn -[Claim.fields].
  destruct st, r; cbn -[Claim.fields]; by rewrite Hf.
Qed.

Definition ex_id : string := "0123456789abcdef0123456789abcdef".
Definition ex_gateway_id : string := "ffffffffffffffffffffffffffffffff".
Definition ex_claim (st : Claim.State) (attempts : Z) (holder : string) : Claim.t :=
  Claim.mk ex_id "h1" "p" 1 "l4" st attempts holder 0 0 0 None "".
Definition ex_claims (l : list (string * blob)) (lose : list bool) : MapStore :=
  mkStore (list_to_map (List.map (fun kv => (fst kv, mkKV (snd kv) 5 0)) l)) 9 lose.

Lemma ex_claims_ok l lose : kv_ok (ex_claims l lose).
Proof.
  split; [done|]. intros k v Hk. cbn in *.
  assert (kv_mod v = 5) as ->; [|lia]. revert Hk. induction l as [|[k' b] l IH]; cbn; [by rewrite lookup_empty|].
  destruct (decide (k = k')) as [->|]; [rewrite lookup_insert_eq; by intros [= <-]|by rewrite lookup_insert_ne].
Qed.

Lemma evolves_refl {S} `{!Etcd S} (s : S) : evolves s s.
Proof. split; [done|]. auto. Qed.

(** Two gateways create the claim of the same free host. *)
Lemma claim_single_winner_witness :
  let c1 := ex_claim Claim.PROVISIONING 1 ex_id in
  let c2 := ex_claim Claim.PROVISIONING 1 ex_gateway_id in
  let s1 := fst (_write ex_encode c1 0 (ex_claims [] [])) in
  lookup_kv s1 "/placement/claims/h1" = Some (mkKV (ex_encode c1) 10 0) /\
  (forall r', snd (_write ex_encode c2 0 s1) <> Some (Some r')).
Proof.
  intros c1 c2 s1.
  destruct (claim_single_winner ex_encode c1 c2 0 10 (ex_claims [] []) s1) as (H1 & H2 & _).
  - apply ex_claims_ok.
  - vm_compute. reflexivity.
  - apply evolves_refl.
  - reflexivity.
  - intros _. vm_compute. eauto.
  - split; [exact H1|exact H2].
Defined.

Lemma suspension_intent_witness :
  "h1" ∈ ["h1"] /\ snd (list_suspended (fst (suspend (fun s => s) " H1. " (ex_claims [] [])))) = Some ["h1"].
Proof.
  assert (snd (list_suspended (fst (suspend (fun s => s) " H1. " (ex_claims [] [])))) = Some ["h1"]) as Hl
    by (vm_compute; reflexivity).
  destruct (suspension_intent (fun s => s) " H1. " (ex_claims [] [])) as (H & _).
  split; [|exact Hl]. apply (H ltac:(vm_compute; reflexivity) _ Hl).
Defined.

