(* ===== verification/Reconciler.v ===== *)
(** * Ownership of hosts by automatic placement

    The part of [inference_proxy/placement/reconciler.py] that decides who may
    touch a host: settling a claim against reality ([_settle_claim]), starting
    a provision ([_launch]), keeping the claim alive ([_heartbeat_once]) and
    recording how it ended ([_finish]), with the helpers they call.

    A coroutine gives up control at every [await]; what the other tasks, the
    watch thread and other gateways do there is the argument [others].  Calls
    that reach QUADS, SSH, the BMC or the task scheduler are arguments that
    return what the call answered.  Times are microseconds. *)

From S2P Require Import Prelude PyDict Json NodeModel Registry Etcd Claims.
Local Open Scope Z_scope.

(** ** Settings and state *)

Record PlacementSettings := {
  max_attempts : Z;
  retry_backoff_seconds : Z;
  claim_stale_seconds : Z;
}.

(** [timedelta(seconds=n)] *)
Definition seconds (n : Z) : Z := n * 1000000.

Definition _LAUNCH_REFUSAL_RECHECK_SECONDS : Z := 60.

Definition _SERVING_NODE_STATUSES : list NodeStatus :=
  [HEALTHY; UNHEALTHY; DRAINING; RELAUNCHING; RELAUNCH_FAILED].
Definition _RETRYABLE_NODE_STATUSES : list NodeStatus := [FAILED; PROVISIONING; UNKNOWN].

Definition own_placement (n : Node) (c : Claim.t) : bool :=
  match placement n with
  | Some p => bool_decide (np_claim_id p = Claim.claim_id c)
  | None => false
  end.

Definition _is_own_failed_node (n : Node) (c : Claim.t) : bool :=
  own_placement n c && managed n && negb (self_setup n) && negb (str_truthy (owner n)) &&
  bool_decide (status n ∈ _RETRYABLE_NODE_STATUSES).

Definition _is_free_pool_node (n : Node) : bool :=
  bool_decide (status n = AVAILABLE) && negb (self_setup n) && negb (str_truthy (owner n)) &&
  is_none (placement n).

Definition _may_replace (node : option Node) (existing : option StoredClaim) : bool :=
  match node with
  | None => true
  | Some n =>
      _is_free_pool_node n ||
      match existing with Some e => _is_own_failed_node n (claim e) | None => false end
  end.

(** [claim.model_copy(update={...})]: [None] leaves a field alone. *)
Record Changes := {
  ch_state : option Claim.State;
  ch_attempts : option Z;
  ch_holder : option string;
  ch_retry_at : option (option Z);
  ch_last_error : option string;
}.

Definition model_copy (c : Claim.t) (ch : Changes) (now : Z) : Claim.t :=
  Claim.mk (Claim.claim_id c) (Claim.hostname c) (Claim.profile_id c) (Claim.profile_version c)
    (Claim.gpu_class c) (or_default (ch_state ch) (Claim.state c)) (or_default (ch_attempts ch) (Claim.attempts c))
    (or_default (ch_holder ch) (Claim.holder c)) (Claim.created_at c) now (Claim.heartbeat_at c)
    (or_default (ch_retry_at ch) (Claim.retry_at c)) (or_default (ch_last_error ch) (Claim.last_error c)).

(** [model_copy(update={"heartbeat_at": hb, "updated_at": up})] *)
Definition with_times (hb up : Z) (c : Claim.t) : Claim.t :=
  Claim.mk (Claim.claim_id c) (Claim.hostname c) (Claim.profile_id c) (Claim.profile_version c)
    (Claim.gpu_class c) (Claim.state c) (Claim.attempts c) (Claim.holder c) (Claim.created_at c) up hb
    (Claim.retry_at c) (Claim.last_error c).

(** [_OwnedClaim]; its lock serializes [_heartbeat_once] and [_finish]. *)
Record OwnedClaim := mkOwned { stored : StoredClaim; refreshed_at : Z; lost : bool; started : bool }.

Section owned.
Context {S : Type} `{!Etcd S}.
Context (encode : Claim.t -> blob) (decode : blob -> option Claim.t).
Context (settings : PlacementSettings).
Context (others : S -> S).

Definition _own_current (o : OwnedClaim) (written : Claim.t) (s : S) : S * option StoredClaim :=
  let '(s, current) := get_claim decode (Claim.hostname (claim (stored o))) s in
  (others s,
   match current with
   | None => None                                   (* the read raised *)
   | Some None => None
   | Some (Some current) =>
       if bool_decide (claim current = written) then Some current
       else if bool_decide (claim current =
                 with_times (Claim.heartbeat_at (claim current)) (Claim.updated_at (claim current))
                   (claim (stored o)))
       then Some current else None
   end).

Definition set_stored (st : StoredClaim) (o : OwnedClaim) : OwnedClaim :=
  mkOwned st (refreshed_at o) (lost o) (started o).
Definition set_lost (o : OwnedClaim) : OwnedClaim := mkOwned (stored o) (refreshed_at o) true (started o).

(** The returned flag tells whether the provision is fenced. *)
Definition _heartbeat_once (now : Z) (o : OwnedClaim) (s : S) : S * OwnedClaim * bool :=
  if lost o then (s, o, false)
  else
    let c := with_times now now (claim (stored o)) in
    let '(s, reply) := update encode (stored o) c s in
    let s := others s in
    let failure := is_none reply in
    let refreshed rev o := mkOwned {| claim := c; sc_mod_revision := rev |} now (lost o) (started o) in
    let abandon s o :=
      if failure && (now - refreshed_at o <? claim_stale_seconds settings * 500000) then (s, o, false)
      else (s, set_lost o, true) in
    match reply with
    | Some (Some rev) => (s, refreshed rev o, false)
    | _ =>
        let '(s, current) := _own_current o c s in
        match current with
        | Some current =>
            let o := set_stored current o in
            if bool_decide (claim current = c) then (s, refreshed (sc_mod_revision current) o, false)
            else if negb failure then (s, o, false)
            else abandon s o
        | None => abandon s o
        end
    end.

(** [error[:2000]] *)
Definition truncate (e : string) : string := String.substring 0 2000 e.

(** What [_finish] records: [error] is [None] after a success. *)
Definition finish_changes (now : Z) (error : option string) (count_attempt : bool) (c : Claim.t) : Changes :=
  let attempts := if count_attempt then Claim.attempts c else Z.max 0 (Claim.attempts c - 1) in
  match error with
  | None =>
      {| ch_state := Some Claim.ACTIVE; ch_attempts := Some 0; ch_holder := None;
         ch_retry_at := Some None; ch_last_error := Some "" |}
  | Some e =>
      if max_attempts settings <=? attempts
      then {| ch_state := Some Claim.EXHAUSTED; ch_attempts := Some attempts; ch_holder := None;
              ch_retry_at := Some None; ch_last_error := Some (truncate e) |}
      else {| ch_state := Some Claim.FAILED; ch_attempts := Some attempts; ch_holder := None;
              ch_retry_at := Some (Some (now + seconds (retry_backoff_seconds settings * 2 ^ Z.max 0 (attempts - 1))));
              ch_last_error := Some (truncate e) |}
  end.

Definition _finish (now : Z) (error : option string) (count_attempt : bool) (o : OwnedClaim) (s : S)
  : S * OwnedClaim :=
  let updated := model_copy (claim (stored o)) (finish_changes now error count_attempt (claim (stored o))) now in
  let '(s, reply) := update encode (stored o) updated s in
  let s := others s in
  let '(s, revision, write_failed) :=
    match reply with
    | Some (Some rev) => (s, Some rev, false)
    | _ =>
        let '(s, current) := _own_current o updated s in
        match current with
        | None => (s, None, is_none reply)
        | Some current =>
            if bool_decide (claim current = updated) then (s, Some (sc_mod_revision current), is_none reply)
            else let '(s, again) := update encode current updated s in
                 (others s, or_default again None, is_none reply || is_none again)
        end
    end in
  match revision with
  | Some rev => (s, set_stored {| claim := updated; sc_mod_revision := rev |} o)
  | None => if write_failed then (s, o) else (s, set_lost o)
  end.
End owned.

(** ** Claims against reality *)

Section reconciler.
Context {S E : Type} `{!Etcd S}.

(** [E] is what registry removal listeners act on. *)
Record RWorld := mkRW {
  rstore : S;
  rreg : NodeRegistry E;
  rext : E;
  busy : list string;                        (* hosts under a lifecycle lease *)
  _owned : gmap string OwnedClaim;
  _deferred : gmap string (Z * string);
  _refused : gmap string string;
}.

Implicit Types (w : RWorld).

Definition with_store (s : S) w : RWorld :=
  mkRW s (rreg w) (rext w) (busy w) (_owned w) (_deferred w) (_refused w).
Definition with_busy (b : list string) w : RWorld :=
  mkRW (rstore w) (rreg w) (rext w) b (_owned w) (_deferred w) (_refused w).
Definition with_owned (o : gmap string OwnedClaim) w : RWorld :=
  mkRW (rstore w) (rreg w) (rext w) (busy w) o (_deferred w) (_refused w).
Definition with_deferred (d : gmap string (Z * string)) w : RWorld :=
  mkRW (rstore w) (rreg w) (rext w) (busy w) (_owned w) d (_refused w).
Definition with_refused (r : gmap string string) w : RWorld :=
  mkRW (rstore w) (rreg w) (rext w) (busy w) (_owned w) (_deferred w) r.

Context (encode : Claim.t -> blob) (decode : blob -> option Claim.t).
Context (settings : PlacementSettings) (self_holder prefix : string).
Context (others : RWorld -> RWorld).

(** One awaited etcd request; others run before and after it reaches etcd. *)
Definition request {A} (f : S -> S * A) w : RWorld * A :=
  let w := others w in
  let '(s, a) := f (rstore w) in (others (with_store s w), a).

(** [None] is a raised exception in everything below. *)
Definition _drop (st : StoredClaim) w : RWorld * option (option StoredClaim) :=
  let '(w, gone) := request (delete_claim st) w in
  (w, match gone with
      | None => None
      | Some true => Some None
      | Some false => Some (Some st)
      end).

Definition _rewrite (st : StoredClaim) (now : Z) (ch : Changes) w : RWorld * option StoredClaim :=
  let c := model_copy (claim st) ch now in
  let '(w, reply) := request (update encode st c) w in
  (w, match reply with
      | None => None
      | Some None => Some st
      | Some (Some rev) => Some {| claim := c; sc_mod_revision := rev |}
      end).

(** [lifecycle.try_acquire]: a lease, unless someone holds or awaits one. *)
Definition try_reserve_host (host : string) w : option RWorld :=
  if bool_decide (host ∈ busy w) then None else Some (with_busy (host :: busy w) w).

Definition release_host (host : string) w : RWorld :=
  with_busy (List.filter (fun h => negb (bool_decide (h = host))) (busy w)) w.

(** [provisioner.cleanup_stale_node]: the node key in etcd, then the registry.
    The unconditional delete of the etcd client is a transaction without
    comparisons. *)
Definition cleanup_stale_node (host : string) w : RWorld * option unit :=
  let '(w, reply) := request (fun s => transaction s [] (DeleteKey (prefix +:+ host))) w in
  match reply with
  | None => (w, None)
  | Some _ =>
      let '(r, e) := remove host (rreg w) (rext w) in
      (mkRW (rstore w) r e (busy w) (_owned w) (_deferred w) (_refused w), Some tt)
  end.

(** Never raises. *)
Definition _clear_own_node (c : Claim.t) w : RWorld * bool :=
  let host := Claim.hostname c in
  match try_reserve_host host w with
  | None => (w, false)
  | Some w =>
      let w := others w in
      match get (rreg w) host with
      | None => (release_host host w, true)
      | Some n =>
          if negb (_is_own_failed_node n c) then (release_host host w, false)
          else let '(w, ok) := cleanup_stale_node host w in (release_host host w, is_some ok)
      end
  end.

Definition _release_failed_claim (st : StoredClaim) w : RWorld * option bool :=
  let keep :=
    match get (rreg w) (Claim.hostname (claim st)) with
    | Some n =>
        if _is_own_failed_node n (claim st)
        then let '(w, ok) := _clear_own_node (claim st) w in (w, negb ok)
        else (w, false)
    | None => (w, false)
    end in
  let '(w, blocked) := keep in
  if blocked then (w, Some false) else request (delete_claim st) w.

(** Somebody set the host up by hand. *)
Definition superseded (node : option Node) (c : Claim.t) : bool :=
  match node with
  | None => false
  | Some n =>
      negb (_is_free_pool_node n) &&
      (negb (own_placement n c) || str_truthy (owner n) || self_setup n || negb (managed n))
  end.

Definition serving (node : option Node) (c : Claim.t) : bool :=
  match node with
  | None => false
  | Some n => own_placement n c && bool_decide (status n ∈ _SERVING_NODE_STATUSES)
  end.

(** A PROVISIONING claim somebody may still be working on. *)
Definition in_flight (c : Claim.t) (now : Z) w : bool :=
  bool_decide (Claim.state c = Claim.PROVISIONING) &&
  (if bool_decide (Claim.holder c = self_holder)
   then is_some (_owned w !! Claim.hostname c)
   else now - Claim.heartbeat_at c <? seconds (claim_stale_seconds settings)).

Definition keep (x : RWorld * option StoredClaim) : RWorld * option (option StoredClaim) :=
  (fst x, Some <$> snd x).

(** [Some None]: the claim is gone. *)
Definition _settle_claim (st : StoredClaim) (available : list string) (now : Z) w
  : RWorld * option (option StoredClaim) :=
  let c := claim st in
  let node := get (rreg w) (Claim.hostname c) in
  if superseded node c then _drop st w
  else if in_flight c now w then (w, Some (Some st))
  else if serving node c && bool_decide (Claim.state c ∈ [Claim.PROVISIONING; Claim.FAILED]) then
    keep (_rewrite st now
      {| ch_state := Some Claim.ACTIVE; ch_attempts := Some 0; ch_holder := Some self_holder;
         ch_retry_at := Some None; ch_last_error := Some "" |} w)
  else if bool_decide (Claim.state c = Claim.PROVISIONING) then
    let spent := max_attempts settings <=? Claim.attempts c in
    keep (_rewrite st now
      {| ch_state := Some (if spent then Claim.EXHAUSTED else Claim.FAILED); ch_attempts := None;
         ch_holder := Some self_holder; ch_retry_at := Some (if spent then None else Some now);
         ch_last_error := Some "the provisioning gateway stopped refreshing this claim" |} w)
  else if negb (bool_decide (Claim.hostname c ∈ available)) then
    match node with
    | None => _drop st w
    | Some n =>
        if bool_decide (status n ∈ _RETRYABLE_NODE_STATUSES) then
          let '(w, cleared) := _clear_own_node c w in
          if negb cleared then (w, Some (Some st)) else _drop st w
        else (w, Some (Some st))
    end
  else
    let vanished retry err :=
      keep (_rewrite st now
        {| ch_state := Some Claim.FAILED; ch_attempts := Some 0; ch_holder := None;
           ch_retry_at := Some (Some (now + seconds retry)); ch_last_error := Some err |} w) in
    match node with
    | Some n =>
        if bool_decide (Claim.state c = Claim.ACTIVE) && bool_decide (status n = FAILED) &&
           _is_own_failed_node n c
        then vanished (retry_backoff_seconds settings) "the placed node failed"
        else (w, Some (Some st))
    | None =>
        if bool_decide (Claim.state c = Claim.ACTIVE)
        then vanished (claim_stale_seconds settings) "the node record disappeared"
        else (w, Some (Some st))
    end.

(** ** Launching *)

(** What the calls that leave the gateway answer; [Err] carries the text of
    the exception. *)
Context (clock : RWorld -> Z).
(** The poller's last successful synchronization, the configured limit, and
    the text for a stale inventory of a given age. *)
Context (last_sync : RWorld -> option Z) (quads_stale_after : Z) (stale_text : Z -> Z -> string).
Context (get_pending_moves : RWorld -> result string (list string)).
Context (remote_lifecycle_processes : string -> RWorld -> result string (list string)).
Context (power_state : string -> RWorld -> result string string).
Context (node_from_etcd : string -> blob -> option Node).

Definition _quads_stale_reason w : option string :=
  match last_sync w with
  | None => Some "QUADS inventory has not synchronized yet"
  | Some synced =>
      let age := clock w - synced in
      if quads_stale_after <? age then Some (stale_text age synced) else None
  end.

Definition _PENDING_MOVE_REASON : string := "QUADS has a pending move for the host".
Definition _MOVES_UNKNOWN_REASON : string := "QUADS pending moves could not be read at launch".

Definition _pending_move_blocker (host : string) w : RWorld * option string :=
  let reply := get_pending_moves w in
  (others w,
   match reply with
   | Err detail => Some (_MOVES_UNKNOWN_REASON +:+ ": " +:+ detail)
   | Ok pending => if bool_decide (host ∈ pending) then Some _PENDING_MOVE_REASON else None
   end).

Definition _host_is_powered_off (host : string) w : RWorld * bool :=
  (others w, match power_state host w with Ok st => bool_decide (st = "Off") | Err _ => false end).

Definition _remote_work_blocker (host : string) w : RWorld * option string :=
  let reply := remote_lifecycle_processes host w in
  let w := others w in
  match reply with
  | Err detail =>
      let '(w, off) := _host_is_powered_off host w in
      (w, if off then None
          else Some ("could not verify that no earlier provisioning is running: " +:+ detail))
  | Ok [] => (w, None)
  | Ok _ => (w, Some "an earlier provisioning command is still running on the host")
  end.

Definition _stored_node_blocker (host : string) (existing : option StoredClaim) w : RWorld * option string :=
  let '(w, record) := request (fun s => read_key s (prefix +:+ host)) w in
  (w, match record with
      | None => Some "could not read the host's node record from etcd"
      | Some None => None
      | Some (Some v) =>
          match node_from_etcd (prefix +:+ host) (kv_value v) with
          | None => Some "the host's node record in etcd cannot be parsed"
          | Some n => if _may_replace (Some n) existing then None
                      else Some ("etcd holds a " +:+ status_value (status n) +:+ " node record for the host")
          end
      end).

Definition _launch_blocker (host : string) (existing : option StoredClaim) w : RWorld * option string :=
  let '(w, blocker) := _remote_work_blocker host w in
  match blocker with
  | Some b => (w, Some b)
  | None => _stored_node_blocker host existing w
  end.

(** The checks of [_launch] under the lifecycle lease: [Some true] goes on,
    [Some false] is [return False]. *)
Definition launch_checks (host : string) (existing : option StoredClaim) w : RWorld * option bool :=
  let '(w, suspended) := request list_suspended w in
  match suspended with
  | None => (w, None)
  | Some suspended =>
      if bool_decide (host ∈ suspended) then (w, Some false)
      else if negb (_may_replace (get (rreg w) host) existing) then (w, Some false)
      else
        let spent := match existing with
                     | Some e => max_attempts settings <=? Claim.attempts (claim e)
                     | None => false end in
        match existing, spent with
        | Some e, true =>
            let err := Claim.last_error (claim e) in
            let '(w, r) := _rewrite e (clock w)
              {| ch_state := Some Claim.EXHAUSTED; ch_attempts := None; ch_holder := None;
                 ch_retry_at := Some None;
                 ch_last_error := Some (if str_truthy err then err else "the attempt limit was reached") |} w in
            (w, match r with Some _ => Some false | None => None end)
        | _, _ =>
            let '(w, refusal) :=
              match _quads_stale_reason w with
              | Some r => (w, Some r)
              | None => _pending_move_blocker host w
              end in
            match refusal with
            | Some r =>
                let w := with_refused (<[host := r]> (_refused w)) w in
                let w := match existing with
                         | None => with_deferred
                             (<[host := (clock w + seconds _LAUNCH_REFUSAL_RECHECK_SECONDS, r)]> (_deferred w)) w
                         | Some _ => w
                         end in
                (w, Some false)
            | None =>
                let '(w, blocker) := _launch_blocker host existing w in
                match blocker with
                | Some b =>
                    let wait := seconds (retry_backoff_seconds settings) in
                    match existing with
                    | Some e =>
                        let '(w, r) := _rewrite e (clock w)
                          {| ch_state := None; ch_attempts := None; ch_holder := None;
                             ch_retry_at := Some (Some (clock w + wait));
                             ch_last_error := Some ("blocked: " +:+ b) |} w in
                        (w, match r with Some _ => Some false | None => None end)
                    | None =>
                        (with_deferred (<[host := (clock w + wait, "blocked: " +:+ b)]> (_deferred w)) w, Some false)
                    end
                | None => (with_deferred (delete host (_deferred w)) w, Some true)
                end
            end
        end
  end.

(** The parts of a resolved profile the launch uses; [rp_request] is
    [profile.runtime_request] for a GPU class, [None] when it raises. *)
Record ResolvedProfile := {
  rp_profile_id : string; rp_version : Z; rp_request : string -> option LlamaCppRuntimeRequest;
}.

(** What [fire_background] does with the task. *)
Inductive Scheduling := Scheduled | CapacityReached | ScheduleError.

Context (fire_background : string -> Claim.t -> RWorld -> Scheduling).

Definition new_claim (resolved : ResolvedProfile) (host gpu fresh_id : string) (existing : option StoredClaim)
  (now : Z) : Claim.t :=
  Claim.mk (match existing with Some e => Claim.claim_id (claim e) | None => fresh_id end) host
    (rp_profile_id resolved) (rp_version resolved) gpu Claim.PROVISIONING
    (match existing with Some e => Claim.attempts (claim e) | None => 0 end + 1) self_holder
    (match existing with Some e => Claim.created_at (claim e) | None => now end) now now None "".

(** [await self._finish(owned, ...)] inside the world. *)
Definition finish_w (now : Z) (error : string) (o : OwnedClaim) w : RWorld :=
  let '(s, _) := _finish encode decode settings (fun s => rstore (others (with_store s w)))
                   now (Some error) false o (rstore w) in
  others (with_store s w).

(** The rest of [_launch]: claim the host, clear its own failure, start. *)
Definition launch_commit (resolved : ResolvedProfile) (host gpu fresh_id : string)
  (existing : option StoredClaim) w : RWorld * option bool :=
  let node := get (rreg w) host in
  if negb (_may_replace node existing) then (w, Some false)
  else
    let now := clock w in
    let c := new_claim resolved host gpu fresh_id existing now in
    if negb (Claim.fields c) then (w, None)
    else
    let '(w, reply) := request (match existing with Some e => update encode e c | None => create encode c end) w in
    match reply with
    | None => (w, None)
    | Some None => (w, Some false)
    | Some (Some rev) =>
        let o := mkOwned {| claim := c; sc_mod_revision := rev |} now false false in
        let '(w, cleaned) :=
          match node with
          | Some n => if _is_free_pool_node n then (w, Some tt) else cleanup_stale_node host w
          | None => (w, Some tt)
          end in
        match cleaned, rp_request resolved gpu with
        | None, _ | _, None => (w, None)
        | Some _, Some _ =>
            match fire_background host c w with
            | CapacityReached => (finish_w (clock w) "provisioning capacity reached" o w, Some false)
            | ScheduleError => (finish_w (clock w) "could not schedule provisioning" o w, None)
            | Scheduled => (with_owned (<[host := o]> (_owned w)) w, Some true)
            end
        end
    end.

Definition _launch (resolved : ResolvedProfile) (host gpu fresh_id : string)
  (existing : option StoredClaim) w : RWorld * option bool :=
  match try_reserve_host host w with
  | None => (w, Some false)
  | Some w =>
      let '(w, go) := launch_checks host existing (others w) in
      let '(w, r) := match go with
                     | Some true => launch_commit resolved host gpu fresh_id existing w
                     | Some false => (w, Some false)
                     | None => (w, None)
                     end in
      (match r with Some true => w | _ => release_host host w end, r)
  end.

(** ** Operator reset *)

Definition reset_claim (host : string) w : RWorld * result string bool :=
  let '(w, claims) := request (list_claims decode) w in
  match claims with
  | None => (w, Err "")
  | Some (claims, _) =>
      match List.find (fun st => bool_decide (Claim.hostname (claim st) = host)) claims with
      | None => (w, Ok false)
      | Some st =>
          if negb (bool_decide (Claim.state (claim st) ∈ [Claim.FAILED; Claim.EXHAUSTED]))
          then (w, Err "only a failed or exhausted claim can be reset")
          else let '(w, r) := _release_failed_claim st w in
               (w, match r with
                   | None => Err ""
                   | Some false => Err "the host is busy; try again when it is idle"
                   | Some true => Ok true
                   end)
      end
  end.
End reconciler.
Arguments RWorld S E : clear implicits.

(** ** A person's node is left alone *)

Section people.
Context {S E : Type} `{!Etcd S}.
Context (encode : Claim.t -> blob) (decode : blob -> option Claim.t).
Context (settings : PlacementSettings) (self_holder prefix : string).
Context (others : RWorld S E -> RWorld S E).
Context (h : string) (n : Node).

Definition registered (w : RWorld S E) : Prop := get (rreg w) h = Some n.

(** Nobody else removes or changes the registration meanwhile. *)
Context (others_keep : forall w, registered w -> registered (others w)).

Lemma request_keeps {A} (f : S -> S * A) w : registered w -> registered (fst (request others f w)).
Proof.
  intros Hw. unfold request. destruct (f (rstore (others w))) as [s a]. cbn [fst]. apply others_keep.
  unfold registered. cbn. by apply others_keep.
Qed.

Lemma drop_keeps st w : registered w -> registered (fst (_drop others st w)).
Proof.
  intros Hw. unfold _drop. pose proof (request_keeps (delete_claim st) w Hw).
  by destruct (request others (delete_claim st) w).
Qed.

Lemma rewrite_keeps st now ch w : registered w -> registered (fst (_rewrite encode others st now ch w)).
Proof.
  intros Hw. unfold _rewrite. pose proof (request_keeps (update encode st (model_copy (claim st) ch now)) w Hw).
  by destruct (request others _ w).
Qed.

Lemma cleanup_keeps host w : host <> h -> registered w -> registered (fst (cleanup_stale_node prefix others host w)).
Proof.
  intros Hh Hw. unfold cleanup_stale_node.
  pose proof (request_keeps (fun s => transaction s [] (DeleteKey (prefix +:+ host))) w Hw) as Hr.
  destruct (request others _ w) as [w1 [r|]]; [|done]. cbn [fst] in Hr.
  pose proof (get_remove host (rreg w1) (rext w1) h) as Hg. destruct (remove host (rreg w1) (rext w1)) as [r' e].
  unfold registered. cbn [fst rreg] in *. rewrite Hg, decide_False by done. done.
Qed.

(** Automation may clear [n] for claim [c]. *)
Definition clearable (c : Claim.t) : Prop := Claim.hostname c = h -> _is_own_failed_node n c = false.

Lemma clear_own_node_keeps c w : clearable c -> registered w -> registered (fst (_clear_own_node prefix others c w)).
Proof.
  intros Hc Hw. unfold _clear_own_node, try_reserve_host. case_match eqn:Hres; [|done].
  case_bool_decide; [done|]. injection Hres as <-.
  assert (registered (others (with_busy (Claim.hostname c :: busy w) w))) as Hw1 by by apply others_keep.
  set (w1 := others _) in *. destruct (get (rreg w1) (Claim.hostname c)) as [m|] eqn:Hm; [|done].
  destruct (_is_own_failed_node m c) eqn:Hf; cbn [negb]; [|done].
  assert (Claim.hostname c <> h) as Hne.
  { intros Hh. rewrite Hh in Hm. unfold registered in Hw1. rewrite Hm in Hw1. injection Hw1 as ->.
    by rewrite (Hc Hh) in Hf. }
  pose proof (cleanup_keeps (Claim.hostname c) w1 Hne Hw1) as Hk.
  by destruct (cleanup_stale_node prefix others (Claim.hostname c) w1).
Qed.

Lemma settle_keeps st available now w : clearable (claim st) -> registered w ->
  registered (fst (_settle_claim encode settings self_holder prefix others st available now w)).
Proof.
  intros Hc Hw. unfold _settle_claim, keep.
  repeat match goal with
  | |- registered (fst (if ?b then _ else _)) => destruct b
  | |- registered (fst (match ?x with Some _ => _ | None => _ end)) => destruct x
  | |- registered (fst (_drop _ _ _)) => by apply drop_keeps
  | |- registered (fst (fst (_rewrite _ _ _ _ _ _), _)) => by apply rewrite_keeps
  | |- registered (fst (?w0, _)) => done
  end.
  pose proof (clear_own_node_keeps (claim st) w Hc Hw) as Hk.
  destruct (_clear_own_node prefix others (claim st) w) as [w1 b]. destruct b; [by apply drop_keeps|done].
Qed.

Lemma release_failed_keeps st w : clearable (claim st) -> registered w ->
  registered (fst (_release_failed_claim prefix others st w)).
Proof.
  intros Hc Hw. unfold _release_failed_claim.
  pose proof (clear_own_node_keeps (claim st) w Hc Hw) as Hk.
  destruct (get (rreg w) (Claim.hostname (claim st))) as [m|]; [|by apply request_keeps].
  destruct (_is_own_failed_node m (claim st)); [|by apply request_keeps].
  destruct (_clear_own_node prefix others (claim st) w) as [w1 []]; [by apply request_keeps|done].
Qed.

Context (clock : RWorld S E -> Z) (last_sync : RWorld S E -> option Z).
Context (quads_stale_after : Z) (stale_text : Z -> Z -> string).
Context (get_pending_moves : RWorld S E -> result string (list string)).
Context (remote_lifecycle_processes : string -> RWorld S E -> result string (list string)).
Context (power_state : string -> RWorld S E -> result string string).
Context (node_from_etcd : string -> blob -> option Node).
Context (fire_background : string -> Claim.t -> RWorld S E -> Scheduling).

Notation checks := (launch_checks encode settings prefix others clock last_sync quads_stale_after stale_text get_pending_moves
  remote_lifecycle_processes power_state node_from_etcd).
Notation commit := (launch_commit encode decode settings self_holder prefix others clock fire_background).

Lemma launch_blocker_keeps host existing w : registered w ->
  registered (fst (_launch_blocker prefix others remote_lifecycle_processes power_state node_from_etcd host existing w)).
Proof.
  intros Hw. unfold _launch_blocker, _remote_work_blocker, _host_is_powered_off.
  pose proof (others_keep w Hw) as H1. pose proof (others_keep _ H1) as H2.
  assert (forall w, registered w -> registered (fst (_stored_node_blocker prefix others node_from_etcd host existing w))) as Hs.
  { intros w0 Hw0. unfold _stored_node_blocker.
    pose proof (request_keeps (fun s => read_key s (prefix +:+ host)) w0 Hw0) as Hr. by destruct (request others _ w0). }
  destruct (remote_lifecycle_processes host w) as [[|? ?]|d]; [by apply Hs|done|].
  destruct (power_state host (others w)); [case_bool_decide|]; cbn; [by apply Hs|done|done].
Qed.

Lemma checks_keep host existing w : registered w -> registered (fst (checks host existing w)).
Proof.
  intros Hw. unfold launch_checks. pose proof (request_keeps list_suspended w Hw) as H0.
  destruct (request others list_suspended w) as [w0 [hosts|]]; [|done]. cbn [fst] in H0.
  destruct (bool_decide (host ∈ hosts)); [done|]. destruct (_may_replace (get (rreg w0) host) existing); [|done]. cbn [negb].
  assert (forall e ch, registered (fst (let '(w, r) := _rewrite encode others e (clock w0) ch w0 in
    (w, match r with Some _ => Some false | None => None end)))) as Hre.
  { intros e ch. pose proof (rewrite_keeps e (clock w0) ch w0 H0). by destruct (_rewrite encode others e (clock w0) ch w0). }
  assert (registered (fst (let '(w, refusal) := match _quads_stale_reason clock last_sync quads_stale_after stale_text w0 with Some r => (w0, Some r)
    | None => _pending_move_blocker others get_pending_moves host w0 end in (w, refusal)))) as Hp.
  { destruct (_quads_stale_reason clock last_sync quads_stale_after stale_text w0); [done|]. cbn. by apply others_keep. }
  destruct existing as [e|]; [destruct (max_attempts settings <=? Claim.attempts (claim e)); [apply Hre|]|];
    destruct (match _quads_stale_reason clock last_sync quads_stale_after stale_text w0 with Some r => (w0, Some r) | None => _ end) as [w1 [r|]]; try done;
    cbn [fst] in Hp;
    match goal with |- context [_launch_blocker _ _ _ _ _ _ ?e _] =>
      pose proof (launch_blocker_keeps host e w1 Hp) as Hb; destruct (_launch_blocker _ _ _ _ _ _ e _) as [w2 [b|]] end;
    cbn [fst] in Hb; try done.
  match goal with |- context [_rewrite ?a ?b ?c ?d ?f w2] => pose proof (rewrite_keeps c d f w2 Hb); by destruct (_rewrite a b c d f w2) end.
Qed.

Lemma commit_refuses resolved gpu id existing w : registered w -> _may_replace (Some n) existing = false ->
  commit resolved h gpu id existing w = (w, Some false).
Proof. intros Hw Hm. unfold launch_commit. unfold registered in Hw. by rewrite Hw, Hm. Qed.

Lemma finish_w_keeps now e o w : registered w -> registered (finish_w encode decode settings others now e o w).
Proof.
  intros Hw. unfold finish_w. destruct (_finish _ _ _ _ _ _ _ _ _) as [s o']. by apply others_keep.
Qed.

Lemma commit_keeps resolved host gpu id existing w : host <> h -> registered w ->
  registered (fst (commit resolved host gpu id existing w)).
Proof.
  intros Hne Hw. unfold launch_commit. destruct (_may_replace (get (rreg w) host) existing); [|done]. cbn [negb].
  destruct (Claim.fields _); [|done]. cbn [negb].
  match goal with |- context [request others ?f w] => pose proof (request_keeps f w Hw) as H0;
    destruct (request others f w) as [w0 [[rev|]|]] end; try done. cbn [fst] in H0.
  assert (registered (fst (match get (rreg w) host with
    | Some n => if _is_free_pool_node n then (w0, Some tt) else cleanup_stale_node prefix others host w0
    | None => (w0, Some tt) end))) as H1.
  { destruct (get (rreg w) host) as [m|]; [|done]. destruct (_is_free_pool_node m); [done|]. by apply cleanup_keeps. }
  destruct (match get (rreg w) host with Some n => _ | None => _ end) as [w1 [[]|]]; [|done]. cbn [fst] in H1.
  destruct (rp_request resolved gpu); [|done].
  destruct (fire_background _ _ w1); cbn [fst]; [done|by apply finish_w_keeps..].
Qed.

Notation launch := (_launch encode decode settings self_holder prefix others clock last_sync quads_stale_after stale_text get_pending_moves
  remote_lifecycle_processes power_state node_from_etcd fire_background).

Lemma launch_keeps resolved host gpu id existing w : (host = h -> _may_replace (Some n) existing = false) ->
  registered w ->
  registered (fst (launch resolved host gpu id existing w)) /\
  (host = h -> snd (launch resolved host gpu id existing w) <> Some true).
Proof.
  intros Hm Hw. unfold _launch, try_reserve_host. case_bool_decide; [done|].
  pose proof (checks_keep host existing (others (with_busy (host :: busy w) w)) (others_keep (with_busy (host :: busy w) w) Hw)) as H0.
  destruct (checks host existing _) as [w0 [[]|]]; cbn [fst] in H0; [|done|done].
  destruct (decide (host = h)) as [->|Hne].
  - rewrite commit_refuses by auto. done.
  - pose proof (commit_keeps resolved host gpu id existing w0 Hne H0) as H1.
    destruct (commit resolved host gpu id existing w0) as [w1 [[]|]]; done.
Qed.

Lemma reset_keeps host w : (forall c, clearable c) -> registered w ->
  registered (fst (reset_claim decode prefix others host w)).
Proof.
  intros Hc Hw. unfold reset_claim. pose proof (request_keeps (list_claims decode) w Hw) as H0.
  destruct (request others (list_claims decode) w) as [w0 [[claims ?]|]]; [|done]. cbn [fst] in H0.
  destruct (List.find _ claims) as [st|]; [|done]. case_match; [done|].
  pose proof (release_failed_keeps st w0 (Hc _) H0). by destruct (_release_failed_claim prefix others st w0).
Qed.
End people.

(** Automation never touches what a person set up.  As long as nobody
    else changes node [n] of host [h], settling claims, launching on any host
    and resetting claims leave [n] registered; and a launch on [h] itself does
    not start unless [n] is an untouched pool host or the failed node of
    exactly that claim. *)
Theorem people_left_alone {S E} `{!Etcd S} (encode : Claim.t -> blob) (decode : blob -> option Claim.t)
  (settings : PlacementSettings) (self_holder prefix : string) (others : RWorld S E -> RWorld S E)
  clock last_sync quads_stale_after stale_text get_pending_moves remote_lifecycle_processes power_state node_from_etcd fire_background
  (h : string) (n : Node) :
  (forall w, get (rreg w) h = Some n -> get (rreg (others w)) h = Some n) ->
  forall w, get (rreg w) h = Some n ->
  (forall st available now,
     (Claim.hostname (claim st) = h -> _is_own_failed_node n (claim st) = false) ->
     get (rreg (fst (_settle_claim encode settings self_holder prefix others st available now w))) h = Some n) /\
  (forall resolved host gpu id existing,
     (host = h -> _may_replace (Some n) existing = false) ->
     let out := _launch encode decode settings self_holder prefix others clock last_sync quads_stale_after stale_text get_pending_moves
       remote_lifecycle_processes power_state node_from_etcd fire_background resolved host gpu id existing w in
     get (rreg (fst out)) h = Some n /\ (host = h -> snd out <> Some true)) /\
  ((forall c, Claim.hostname c = h -> _is_own_failed_node n c = false) ->
   forall host, get (rreg (fst (reset_claim decode prefix others host w))) h = Some n).
Proof.
  intros Ho w Hw. split_and!.
  - intros st available now Hc. by apply settle_keeps.
  - intros resolved host gpu id existing Hm. by apply launch_keeps.
  - intros Hc host. by apply reset_keeps.
Qed.

(** ** What a started launch has checked *)

Section launch_facts.
Context {S E : Type} `{!Etcd S, !EtcdLaws S}.
Context (encode : Claim.t -> blob) (decode : blob -> option Claim.t).
Context (settings : PlacementSettings) (self_holder prefix : string).
Context (others : RWorld S E -> RWorld S E).
Context (clock : RWorld S E -> Z) (last_sync : RWorld S E -> option Z).
Context (quads_stale_after : Z) (stale_text : Z -> Z -> string).
Context (get_pending_moves : RWorld S E -> result string (list string)).
Context (remote_lifecycle_processes : string -> RWorld S E -> result string (list string)).
Context (power_state : string -> RWorld S E -> result string string).
Context (node_from_etcd : string -> blob -> option Node).
Context (fire_background : string -> Claim.t -> RWorld S E -> Scheduling).
Context (host : string) (existing : option StoredClaim).

(** A fact about one key of etcd that the others do not change. *)
Context (k : string) (P : option KV -> Prop).
Definition standing : Prop := forall w, P (lookup_kv (rstore w) k) -> P (lookup_kv (rstore (others w)) k).
Context (others_P : standing).

Notation checks := (launch_checks encode settings prefix others clock last_sync quads_stale_after stale_text get_pending_moves
  remote_lifecycle_processes power_state node_from_etcd host existing).
Notation commit := (launch_commit encode decode settings self_holder prefix others clock fire_background).
Notation at_key s := (P (lookup_kv (s : S) k)).

(** A read: it meets the standing fact and keeps it. *)
Lemma request_read {A} (f : S -> S * A) w w' a :
  (forall s k, lookup_kv (fst (f s)) k = lookup_kv s k) ->
  at_key (rstore w) -> request others f w = (w', a) ->
  at_key (rstore w') /\ exists s, at_key s /\ snd (f s) = a.
Proof.
  intros Hf Hw. unfold request. pose proof (others_P w Hw) as H1.
  specialize (Hf (rstore (others w)) k). destruct (f (rstore (others w))) as [s a'] eqn:Heq. intros [= <- <-].
  split.
  - apply others_P. cbn in *. by rewrite Hf.
  - exists (rstore (others w)). by rewrite Heq.
Qed.

Definition moves_clear : Prop :=
  exists w moves, _quads_stale_reason clock last_sync quads_stale_after stale_text w = None /\ get_pending_moves w = Ok moves /\ host ∉ moves.

Definition no_remote_work : Prop :=
  exists w, remote_lifecycle_processes host w = Ok [] \/
    exists d w', remote_lifecycle_processes host w = Err d /\ power_state host w' = Ok "Off".

Definition record_replaceable (record : option KV) : Prop :=
  match record with
  | None => True
  | Some v => exists m, node_from_etcd (prefix +:+ host) (kv_value v) = Some m /\ _may_replace (Some m) existing = true
  end.

Lemma stored_node_clear w w' : at_key (rstore w) ->
  _stored_node_blocker prefix others node_from_etcd host existing w = (w', None) ->
  at_key (rstore w') /\ exists s, at_key s /\ record_replaceable (lookup_kv s (prefix +:+ host)).
Proof.
  intros Hw. unfold _stored_node_blocker.
  destruct (request others (fun s => read_key s (prefix +:+ host)) w) as [w1 r] eqn:Hr.
  destruct (request_read _ _ _ _ (fun s k => proj1 (read_law s (prefix +:+ host)) k) Hw Hr) as (Hw1 & s & Hs & Hsnd).
  intros Heq. destruct (read_law s (prefix +:+ host)) as (_ & _ & [Hn|Hn]); rewrite Hn in Hsnd; subst r; [congruence|].
  assert (w1 = w') as <- by congruence. split; [done|]. exists s. split; [done|].
  destruct (lookup_kv s (prefix +:+ host)) as [v|]; [|done]. cbn.
  destruct (node_from_etcd (prefix +:+ host) (kv_value v)) as [m|]; [|done].
  destruct (_may_replace (Some m) existing) eqn:Hm; [|done]. eauto.
Qed.

Lemma launch_blocker_clear w w' : at_key (rstore w) ->
  _launch_blocker prefix others remote_lifecycle_processes power_state node_from_etcd host existing w = (w', None) ->
  no_remote_work /\ at_key (rstore w') /\ exists s, at_key s /\ record_replaceable (lookup_kv s (prefix +:+ host)).
Proof.
  intros Hw. unfold _launch_blocker, _remote_work_blocker, _host_is_powered_off.
  pose proof (others_P w Hw) as H1. pose proof (others_P _ H1) as H2.
  destruct (remote_lifecycle_processes host w) as [[|? ?]|d] eqn:Hp; [|done|].
  - intros Hb%stored_node_clear; [|done]. split; [by exists w; left|done].
  - destruct (power_state host (others w)) as [st|] eqn:Hpw; [|done]. case_bool_decide; [|done].
    intros Hb%stored_node_clear; [|done]. split; [|done]. subst st. exists w. right. eauto.
Qed.

Lemma moves_clear_intro w w' : at_key (rstore w) ->
  match _quads_stale_reason clock last_sync quads_stale_after stale_text w with
  | Some r => (w, Some r)
  | None => _pending_move_blocker others get_pending_moves host w
  end = (w', None) -> moves_clear /\ at_key (rstore w').
Proof.
  intros Hw. destruct (_quads_stale_reason clock last_sync quads_stale_after stale_text w) eqn:Hst; [done|]. unfold _pending_move_blocker.
  destruct (get_pending_moves w) as [m|d] eqn:Hm; [|done]. case_bool_decide; [done|]. intros [= <-].
  split; [by exists w, m|]. by apply others_P.
Qed.

Definition not_suspended (s : S) : Prop := lookup_kv s (SUSPENSION_PREFIX +:+ host) = None.

Lemma list_suspended_spec s hosts : snd (list_suspended s) = Some hosts -> host ∉ hosts -> not_suspended s.
Proof.
  unfold list_suspended. destruct (range_law s SUSPENSION_PREFIX) as (_ & _ & Hl).
  destruct (read_prefix s SUSPENSION_PREFIX) as [s' [records|]]; [|done]. cbn [snd] in *.
  intros [= <-] Hh. destruct (Hl records eq_refl) as [_ Hin].
  unfold not_suspended. destruct (lookup_kv s (SUSPENSION_PREFIX +:+ host)) as [v|] eqn:Hv; [|done]. exfalso. apply Hh.
  apply list_elem_of_In, in_map_iff. exists (SUSPENSION_PREFIX +:+ host, v). split; [apply removeprefix_app|].
  apply list_elem_of_In, Hin. split; [apply prefix_app|done].
Qed.

Definition budget_left : Prop := forall e, existing = Some e -> Claim.attempts (claim e) < max_attempts settings.

Lemma checks_true w w' : at_key (rstore w) -> checks w = (w', Some true) ->
  budget_left /\ moves_clear /\ no_remote_work /\ at_key (rstore w') /\
  (exists s, at_key s /\ not_suspended s) /\
  (exists s, at_key s /\ record_replaceable (lookup_kv s (prefix +:+ host))).
Proof.
  intros Hw. unfold launch_checks. destruct (request others list_suspended w) as [w0 r] eqn:Hr.
  assert (forall (s : S) k, lookup_kv (fst (list_suspended s)) k = lookup_kv s k) as Hls.
  { intros s k0. unfold list_suspended. destruct (range_law s SUSPENSION_PREFIX) as [Hk _].
    by destruct (read_prefix s SUSPENSION_PREFIX). }
  destruct (request_read _ _ _ _ Hls Hw Hr) as (Hw0 & s & Hs & Hsnd). destruct r as [hosts|]; [|done].
  destruct (bool_decide (host ∈ hosts)) eqn:Hh; [done|]. apply bool_decide_eq_false_1 in Hh.
  pose proof (list_suspended_spec s hosts Hsnd Hh) as Hns.
  destruct (_may_replace (get (rreg w0) host) existing); [|done]. cbn [negb].
  pose proof (moves_clear_intro w0) as Hmv. pose proof launch_blocker_clear as Hlb. unfold budget_left. revert Hlb.
  destruct existing as [e|]; [destruct (Z.leb_spec (max_attempts settings) (Claim.attempts (claim e))) as [|Hlt];
    [by destruct (_rewrite _ _ _ _ _ _) as [? []]|]|];
    (destruct (match _quads_stale_reason clock last_sync quads_stale_after stale_text w0 with Some r => (w0, Some r) | None => _ end) as [w1 [r|]] eqn:Hq; [done|]);
    destruct (Hmv w1 Hw0 eq_refl) as [Hmc Hw1];
    (destruct (_launch_blocker _ _ _ _ _ _ _ w1) as [w2 [b|]] eqn:Hb; [|]);
    try (by destruct (_rewrite _ _ _ _ _ _) as [? []]); try done;
    intros Hlb [= <-]; destruct (Hlb w1 w2 Hw1 Hb) as (Hnr & Hw2 & Hrec);
    (split; [intros e' He'; congruence|]); eauto 10.
Qed.

Definition expected_revision : Z := match existing with Some e => sc_mod_revision e | None => 0 end.

Lemma commit_true resolved gpu id w w' : at_key (rstore w) ->
  commit resolved host gpu id existing w = (w', Some true) ->
  exists now rev s, let c := new_claim self_holder resolved host gpu id existing now in
    at_key s /\ snd (_write encode c expected_revision s) = Some (Some rev) /\ Claim.fields c = true /\
    _owned w' !! host = Some (mkOwned {| claim := c; sc_mod_revision := rev |} now false false).
Proof.
  intros Hw. unfold launch_commit. destruct (_may_replace (get (rreg w) host) existing) eqn:Hm; [|done]. cbn [negb].
  set (c := new_claim self_holder resolved host gpu id existing (clock w)).
  destruct (Claim.fields c) eqn:Hf; [|done]. cbn [negb]. unfold request.
  replace (match existing with Some e => update encode e c | None => create encode c end)
    with (_write encode c expected_revision) by (unfold expected_revision; by destruct existing).
  destruct (_write encode c expected_revision (rstore (others w))) as [s' [[rev|]|]] eqn:Hwr; [|done|done].
  destruct (match get (rreg w) host with Some n => _ | None => _ end) as [w1 [[]|]]; [|done].
  destruct (rp_request resolved gpu); [|done]. destruct (fire_background host c w1); [|done..].
  intros [= <-]. exists (clock w), rev, (rstore (others w)). cbn zeta.
  split_and!; [by apply others_P|exact (f_equal snd Hwr)|done|]. cbn. by rewrite lookup_insert_eq.
Qed.

Notation launch := (_launch encode decode settings self_holder prefix others clock last_sync quads_stale_after stale_text get_pending_moves
  remote_lifecycle_processes power_state node_from_etcd fire_background).

Lemma launch_true resolved gpu id w w' : at_key (rstore w) ->
  launch resolved host gpu id existing w = (w', Some true) ->
  host ∉ busy w /\ budget_left /\ moves_clear /\ no_remote_work /\
  (exists s, at_key s /\ not_suspended s) /\
  (exists s, at_key s /\ record_replaceable (lookup_kv s (prefix +:+ host))) /\
  exists now rev s, let c := new_claim self_holder resolved host gpu id existing now in
    at_key s /\ snd (_write encode c expected_revision s) = Some (Some rev) /\ Claim.fields c = true /\
    _owned w' !! host = Some (mkOwned {| claim := c; sc_mod_revision := rev |} now false false).
Proof.
  intros Hw. unfold _launch, try_reserve_host. case_bool_decide as Hb; [done|].
  destruct (checks (others (with_busy (host :: busy w) w))) as [w1 [[]|]] eqn:Hc; [|done|done].
  apply checks_true in Hc as (H1 & H2 & H3 & Hw1 & H4 & H5); [|by apply others_P].
  destruct (commit resolved host gpu id existing w1) as [w2 [[]|]] eqn:Hcm; [|done|done].
  apply commit_true in Hcm; [|done]. intros [= <-]. auto 10.
Qed.
End launch_facts.


(** A provision starts only behind every guard.  [_launch] answers [False]
    at once when the host's lifecycle lease is taken, and never starts when the
    attempt budget is spent, when the QUADS inventory is stale or its pending
    moves name the host or cannot be read, when earlier remote work runs or
    cannot be ruled out, or when, throughout the call, the host is suspended,
    etcd holds a node record that may not be replaced, or the claim is at
    another revision than the one the pass read.  When it starts, the recorded
    claim is PROVISIONING under this gateway's name, continues the existing
    claim's identity and counts one more attempt, within [max_attempts]. *)
Theorem launch_guarded {S E} `{!Etcd S, !EtcdLaws S} (encode : Claim.t -> blob) (decode : blob -> option Claim.t)
  (settings : PlacementSettings) (self_holder prefix : string) (others : RWorld S E -> RWorld S E)
  clock last_sync quads_stale_after stale_text get_pending_moves remote_lifecycle_processes power_state node_from_etcd fire_background
  resolved host gpu id existing (w : RWorld S E) :
  1 <= max_attempts settings ->
  let out := _launch encode decode settings self_holder prefix others clock last_sync quads_stale_after stale_text get_pending_moves
    remote_lifecycle_processes power_state node_from_etcd fire_background resolved host gpu id existing w in
  (host ∈ busy w -> out = (w, Some false)) /\
  (forall e, existing = Some e -> max_attempts settings <= Claim.attempts (claim e) -> snd out <> Some true) /\
  ((forall w, _quads_stale_reason clock last_sync quads_stale_after stale_text w = None ->
      match get_pending_moves w with Ok moves => host ∈ moves | Err _ => True end) -> snd out <> Some true) /\
  ((forall w, remote_lifecycle_processes host w <> Ok []) -> (forall w, power_state host w <> Ok "Off") ->
     snd out <> Some true) /\
  (standing others (SUSPENSION_PREFIX +:+ host) is_Some -> is_Some (lookup_kv (rstore w) (SUSPENSION_PREFIX +:+ host)) ->
     snd out <> Some true) /\
  (standing others (prefix +:+ host) (fun r => ~ record_replaceable prefix node_from_etcd host existing r) ->
     ~ record_replaceable prefix node_from_etcd host existing (lookup_kv (rstore w) (prefix +:+ host)) ->
     snd out <> Some true) /\
  (standing others (claim_key host) (fun r => default 0 (kv_mod <$> r) <> expected_revision existing) ->
     mod_of (rstore w) (claim_key host) <> expected_revision existing -> snd out <> Some true) /\
  (snd out = Some true -> exists o, _owned (fst out) !! host = Some o /\
     let c := claim (stored o) in
     Claim.hostname c = host /\ Claim.state c = Claim.PROVISIONING /\ Claim.holder c = self_holder /\
     Claim.attempts c = match existing with Some e => Claim.attempts (claim e) + 1 | None => 1 end /\
     Claim.attempts c <= max_attempts settings /\ Claim.fields c = true /\
     Claim.claim_id c = match existing with Some e => Claim.claim_id (claim e) | None => id end).
Proof.
  intros Hmax out.
  pose proof (fun k P HP w' => launch_true encode decode settings self_holder prefix others clock last_sync quads_stale_after stale_text get_pending_moves remote_lifecycle_processes power_state node_from_etcd fire_background host existing
    k P HP resolved gpu id w w') as Ht. fold out in Ht.
  destruct out as [w' r] eqn:Hout. cbn [fst snd].
  pose proof (Ht "" (fun _ => True) (fun _ _ => I)) as Ht0.
  split_and!.
  - intros Hb. rewrite <- Hout. unfold out, _launch, try_reserve_host. by rewrite bool_decide_eq_true_2.
  - intros e He Hle ->. destruct (Ht0 _ I eq_refl) as (_ & Hbud & _). specialize (Hbud e He). lia.
  - intros Hm ->. destruct (Ht0 _ I eq_refl) as (_ & _ & (w1 & moves & Hst & Hmv & Hin) & _).
    specialize (Hm w1 Hst). by rewrite Hmv in Hm.
  - intros Hr Hp ->. destruct (Ht0 _ I eq_refl) as (_ & _ & _ & (w1 & [H1|(d & w2 & _ & H2)]) & _);
      [by eapply Hr|by eapply Hp].
  - intros Hs Hw ->. destruct (Ht _ _ Hs _ Hw eq_refl) as (_ & _ & _ & _ & (s & [v Hv] & Hn) & _).
    unfold not_suspended in Hn. congruence.
  - intros Hs Hw ->. destruct (Ht _ _ Hs _ Hw eq_refl) as (_ & _ & _ & _ & _ & (s & Hv & Hn) & _). done.
  - intros Hs Hw ->. destruct (Ht _ _ Hs _ Hw eq_refl) as (_ & _ & _ & _ & _ & _ & (now & rev & s & Hv & Hwr & _)).
    apply Hv. by destruct (replace_success _ _ _ _ _ _ Hwr) as [Hm _].
  - intros ->. destruct (Ht0 _ I eq_refl) as (_ & Hbud & _ & _ & _ & _ & (now & rev & s & _ & _ & Hf & Ho)).
    eexists. split; [exact Ho|]. cbn [stored claim]. split_and!; try done; destruct existing as [e|]; try done; cbn.
    specialize (Hbud e eq_refl). lia.
Qed.

(** ** Heartbeats *)

Section heartbeat.
Context {S : Type} `{!Etcd S, !EtcdLaws S}.
Context (encode : Claim.t -> blob) (decode : blob -> option Claim.t).
Context (settings : PlacementSettings).
Context (others : S -> S).

(** The stored claim is ours: what we recorded last with only its timestamps
    moved on. *)
Definition ours (o : OwnedClaim) (c : Claim.t) : Prop := exists hb up, c = with_times hb up (claim (stored o)).

Lemma get_claim_spec host (s : S) : snd (get_claim decode host s) = None \/
  snd (get_claim decode host s) = Some (lookup_kv s (claim_key host) ≫= parse_claim decode host).
Proof.
  unfold get_claim. destruct (read_law s (claim_key host)) as (_ & _ & [H|H]);
    destruct (read_key s (claim_key host)) as [s' r]; cbn [snd] in *; subst r; [by left|right].
  by destruct (lookup_kv s (claim_key host)).
Qed.

Lemma get_claim_keeps host (s : S) k : lookup_kv (fst (get_claim decode host s)) k = lookup_kv s k.
Proof.
  unfold get_claim. destruct (read_law s (claim_key host)) as (H & _). by destruct (read_key s (claim_key host)).
Qed.

Context (others_keep : forall s k, lookup_kv (others s) k = lookup_kv s k).

Lemma own_current_keeps o written (s : S) k : lookup_kv (fst (_own_current decode others o written s)) k = lookup_kv s k.
Proof.
  unfold _own_current. pose proof (get_claim_keeps (Claim.hostname (claim (stored o))) s k) as H.
  destruct (get_claim decode _ s) as [s' r]. cbn [fst] in *. by rewrite others_keep.
Qed.

Definition own_key (o : OwnedClaim) : string := claim_key (Claim.hostname (claim (stored o))).

Lemma own_current_foreign o hb up (s : S) :
  (forall v c, lookup_kv s (own_key o) = Some v -> decode (kv_value v) = Some c -> ~ ours o c) ->
  snd (_own_current decode others o (with_times hb up (claim (stored o))) s) = None.
Proof.
  intros Hf. unfold _own_current, own_key in *. set (host := Claim.hostname (claim (stored o))) in *.
  destruct (get_claim_spec host s) as [H|H]; destruct (get_claim decode host s) as [s' r]; cbn [snd] in *; subst r; [done|].
  destruct (lookup_kv s (claim_key host)) as [v|] eqn:Hv; [|done]. cbn. unfold parse_claim.
  destruct (decode (kv_value v)) as [c|] eqn:Hd; [|done]. case_bool_decide; [|done].
  pose proof (Hf v c eq_refl Hd) as Hn. cbn.
  rewrite !bool_decide_eq_false_2; [done|..]; intros Heq; apply Hn; eexists _, _; exact Heq.
Qed.

Lemma own_current_ours o hb up (s : S) v c :
  lookup_kv s (own_key o) = Some v -> decode (kv_value v) = Some c -> ours o c ->
  is_Some (snd (get_claim decode (Claim.hostname (claim (stored o))) s)) ->
  snd (_own_current decode others o (with_times hb up (claim (stored o))) s) =
  Some {| claim := c; sc_mod_revision := kv_mod v |}.
Proof.
  intros Hv Hd Ho Hr. unfold _own_current, own_key in *. set (host := Claim.hostname (claim (stored o))) in *.
  destruct (get_claim_spec host s) as [H|H]; destruct (get_claim decode host s) as [s' r]; cbn [snd] in *; subst r;
    [by destruct Hr|].
  rewrite Hv. cbn. unfold parse_claim. rewrite Hd. destruct Ho as (hb' & up' & ->).
  rewrite bool_decide_eq_true_2 by done. cbn.
  case_bool_decide; [done|]. by rewrite bool_decide_eq_true_2.
Qed.

(** What this gateway recorded is what etcd holds. *)
Definition in_sync (o : OwnedClaim) (s : S) : Prop :=
  exists v, lookup_kv s (own_key o) = Some v /\ kv_mod v = sc_mod_revision (stored o) /\
    decode (kv_value v) = Some (claim (stored o)).

Notation beat := (_heartbeat_once encode decode settings others).

Lemma beat_foreign now o (s : S) : lost o = false ->
  mod_of s (own_key o) <> sc_mod_revision (stored o) ->
  (forall v c, lookup_kv s (own_key o) = Some v -> decode (kv_value v) = Some c -> ~ ours o c) ->
  let '(s', o', fenced) := beat now o s in
  (forall k, lookup_kv s' k = lookup_kv s k) /\
  (is_Some (snd (update encode (stored o) (with_times now now (claim (stored o))) s)) \/
   claim_stale_seconds settings * 500000 <= now - refreshed_at o -> lost o' = true /\ fenced = true).
Proof.
  intros Hl Hm Hf. unfold _heartbeat_once. rewrite Hl. set (c := with_times now now (claim (stored o))) in *.
  destruct (replace_stale (own_key o) (encode c) (sc_mod_revision (stored o)) 0 s Hm) as [Hr Hs].
  change (replace_if_revision (own_key o) (encode c) (sc_mod_revision (stored o)) 0 s) with (update encode (stored o) c s) in *.
  destruct (update encode (stored o) c s) as [s1 reply]. cbn [fst snd] in *.
  pose proof (own_current_keeps o c (others s1)) as Hk. pose proof (own_current_foreign o now now (others s1)) as Hn.
  fold c in Hn. destruct (_own_current decode others o c (others s1)) as [s2 cur]. cbn [fst snd] in *.
  rewrite Hn by (intros v0 c0; rewrite others_keep, Hs; apply Hf).
  assert (forall k, lookup_kv s2 k = lookup_kv s k) as Hall by (intros k; rewrite Hk, others_keep; apply Hs).
  destruct Hr as [->| ->]; cbn [is_none andb]; [|by split].
  destruct (Z.ltb_spec (now - refreshed_at o) (claim_stale_seconds settings * 500000)); [|by split].
  split; [done|]. intros [[? ?]|?]; [done|lia].
Qed.

Context (round_trip : forall c, Claim.fields c = true -> decode (encode c) = Some c).

Lemma beat_ours now o (s : S) v c : lost o = false -> Claim.fields (claim (stored o)) = true ->
  lookup_kv s (own_key o) = Some v -> decode (kv_value v) = Some c -> ours o c ->
  let write := update encode (stored o) (with_times now now (claim (stored o))) s in
  (is_Some (snd write) \/ now - refreshed_at o < claim_stale_seconds settings * 500000) ->
  is_Some (snd (get_claim decode (Claim.hostname (claim (stored o))) (others (fst write)))) ->
  let '(s', o', fenced) := beat now o s in lost o' = false /\ fenced = false /\ in_sync o' s'.
Proof.
  intros Hl Hf Hv Hd Ho. cbn zeta. unfold _heartbeat_once. rewrite Hl.
  set (c' := with_times now now (claim (stored o))) in *. intros Hwin Hread.
  assert (exists v1 c1, lookup_kv (fst (update encode (stored o) c' s)) (own_key o) = Some v1 /\
    decode (kv_value v1) = Some c1 /\ ours o c1 /\
    (forall rev, snd (update encode (stored o) c' s) = Some (Some rev) -> c1 = c' /\ kv_mod v1 = rev)) as
    (v1 & c1 & Hv1 & Hd1 & Ho1 & Hrev).
  { destruct (snd (update encode (stored o) c' s)) as [[rev|]|] eqn:Hr.
    - destruct (replace_success _ _ _ _ _ _ Hr) as (_ & Hk & _). exists (mkKV (encode c') rev 0), c'.
      split_and!; [exact Hk|apply round_trip; exact Hf|by eexists _, _|].
      intros ? [= <-]. done.
    - pose proof (replace_refused _ _ _ _ _ Hr (own_key o)) as Hk. exists v, c. by rewrite <- Hv.
    - destruct (replace_lost _ _ _ _ _ Hr) as [Hk|[Hk _]].
      + exists v, c. split; [|done]. etrans; [apply Hk|done].
      + eexists _, c'. split; [exact Hk|].
        split_and!; [apply round_trip; exact Hf|by eexists _, _|done]. }
  destruct (update encode (stored o) c' s) as [s1 reply]. cbn [fst snd] in *.
  pose proof (own_current_ours o now now (others s1) v1 c1) as Hoc. rewrite others_keep in Hoc.
  specialize (Hoc Hv1 Hd1 Ho1 Hread). fold c' in Hoc.
  pose proof (own_current_keeps o c' (others s1) (own_key o)) as Hk. rewrite others_keep in Hk.
  destruct (_own_current decode others o c' (others s1)) as [s2 cur]. cbn [fst snd] in *. subst cur.
  assert (forall st r, claim st = c1 -> sc_mod_revision st = kv_mod v1 -> forall l b,
    in_sync (mkOwned st r l b) s2) as Hsync.
  { intros st r H1 H2 l b. exists v1. unfold own_key in *. cbn [stored]. rewrite H1, H2. split_and!; [|done|done].
    destruct Ho1 as (hb & up & ->). cbn in *. by rewrite Hk. }
  destruct reply as [[rev|]|]; cbn [is_none negb andb sc_mod_revision claim].
  - destruct (Hrev rev eq_refl) as [-> Hm]. split_and!; [done|done|].
    exists v1. cbn. unfold own_key in *. cbn. by rewrite others_keep.
  - destruct (bool_decide (c1 = c')) eqn:Hc; bool_to_prop; (split_and!; [done|done|]); by apply Hsync.
  - destruct (bool_decide (c1 = c')) eqn:Hc; bool_to_prop; [split_and!; [done|done|]; by apply Hsync|].
    destruct Hwin as [[? ?]|Hlt]; [done|]. cbn [refreshed_at set_stored].
    rewrite (proj2 (Z.ltb_lt _ _) Hlt). split_and!; [done|done|]. by apply Hsync.
Qed.
End heartbeat.

(** Heartbeats decide ownership correctly.  While the key is not touched by
    others during the beat:

    - if the claim is at another revision and is not ours (another gateway took
      it over, or it is gone), the beat writes nothing, and it gives the claim
      up and stops the provision as soon as etcd answers the write, and in any
      case once half the stale period has passed without a refresh;
    - if etcd holds our claim, even written by a beat whose reply was lost, the
      beat does not give it up as long as etcd answers the write or half the
      stale period has not passed, and what this gateway records afterwards is
      exactly what etcd holds. *)
Theorem heartbeat_ownership {S} `{!Etcd S, !EtcdLaws S} (encode : Claim.t -> blob) (decode : blob -> option Claim.t)
  (settings : PlacementSettings) (others : S -> S) (now : Z) (o : OwnedClaim) (s : S) :
  (forall c, Claim.fields c = true -> decode (encode c) = Some c) ->
  (forall s k, lookup_kv (others s) k = lookup_kv s k) ->
  lost o = false -> Claim.fields (claim (stored o)) = true ->
  let write := update encode (stored o) (with_times now now (claim (stored o))) s in
  let s' := fst (fst (_heartbeat_once encode decode settings others now o s)) in
  let o' := snd (fst (_heartbeat_once encode decode settings others now o s)) in
  let fenced := snd (_heartbeat_once encode decode settings others now o s) in
  (mod_of s (own_key o) <> sc_mod_revision (stored o) ->
   (forall v c, lookup_kv s (own_key o) = Some v -> decode (kv_value v) = Some c -> ~ ours o c) ->
   (forall k, lookup_kv s' k = lookup_kv s k) /\
   (is_Some (snd write) \/ claim_stale_seconds settings * 500000 <= now - refreshed_at o ->
    lost o' = true /\ fenced = true)) /\
  (forall v c, lookup_kv s (own_key o) = Some v -> decode (kv_value v) = Some c -> ours o c ->
   is_Some (snd write) \/ now - refreshed_at o < claim_stale_seconds settings * 500000 ->
   is_Some (snd (get_claim decode (Claim.hostname (claim (stored o))) (others (fst write)))) ->
   lost o' = false /\ fenced = false /\ in_sync decode o' s').
Proof.
  intros Hrt Hk Hl Hf write. cbn zeta. split.
  - intros Hm Hn. pose proof (beat_foreign encode decode settings others Hk now o s Hl Hm Hn) as Hb.
    by destruct (_heartbeat_once _ _ _ _ _ _ _) as [[s' o'] fenced].
  - intros v c Hv Hd Ho Hwin Hr.
    pose proof (beat_ours encode decode settings others Hk Hrt now o s v c Hl Hf Hv Hd Ho Hwin Hr) as Hb.
    by destruct (_heartbeat_once _ _ _ _ _ _ _) as [[s' o'] fenced].
Qed.

(** ** Concrete gateways *)

Definition ex_settings : PlacementSettings :=
  {| max_attempts := 3; retry_backoff_seconds := 900; claim_stale_seconds := 300 |}.
Definition ex_request_for (gpu : string) : option LlamaCppRuntimeRequest :=
  if bool_decide (gpu = "l4")
  then Some {| rq_sizing := SIZING_AUTO; rq_fit_target_mib := 256; rq_context_per_slot := None; rq_slots := None;
               rq_cache_type := None; rq_allow_estimator_overrun := false; rq_profile := None |}
  else None.
Definition ex_resolved : ResolvedProfile := {| rp_profile_id := "p"; rp_version := 1; rp_request := ex_request_for |}.
Definition ex_rworld (s : MapStore) (nodes : list (string * Node)) : RWorld MapStore unit :=
  mkRW s (mkRegistry nodes []) tt [] ∅ ∅ ∅.

(** A launch on [h1] with a quiet QUADS; [probe] is what SSH answers. *)
Definition ex_launch (probe : result string (list string)) (existing : option StoredClaim)
  : RWorld MapStore unit -> RWorld MapStore unit * option bool :=
  _launch ex_encode ex_decode ex_settings ex_gateway_id "/nodes/" (fun w => w) (fun _ => seconds 100) (fun _ => Some (seconds 90)) (seconds 900)
    (fun _ _ => "stale") (fun _ => Ok []) (fun _ _ => probe) (fun _ _ => Ok "On") (fun _ _ => None) (fun _ _ _ => Scheduled)
    ex_resolved "h1" "l4" ex_id existing.

Lemma launch_guarded_witness :
  let out := ex_launch (Ok []) None (ex_rworld (ex_claims [] []) []) in
  snd out = Some true /\
  exists o, _owned (fst out) !! "h1" = Some o /\ Claim.attempts (claim (stored o)) = 1.
Proof.
  intros out. assert (snd out = Some true) as Hs by (vm_compute; reflexivity). split; [exact Hs|].
  destruct (launch_guarded ex_encode ex_decode ex_settings ex_gateway_id "/nodes/" (fun w => w) (fun _ => seconds 100)
    (fun _ => Some (seconds 90)) (seconds 900) (fun _ _ => "stale") (fun _ => Ok []) (fun _ _ => Ok []) (fun _ _ => Ok "On") (fun _ _ => None) (fun _ _ _ => Scheduled)
    ex_resolved "h1" "l4" ex_id None (ex_rworld (ex_claims [] []) [])) as (_ & _ & _ & _ & _ & _ & _ & H).
  - vm_compute. discriminate.
  - destruct (H Hs) as (o & Ho & _ & _ & _ & Ha & _). exists o. split; [exact Ho|exact Ha].
Defined.

(** An operator's own node, healthy and without a placement. *)
Definition ex_operator_node : Node := set_status HEALTHY (Node_default "h1" "http://h1:8000").

Lemma people_left_alone_witness :
  let out := ex_launch (Ok []) None (ex_rworld (ex_claims [] []) [("h1", ex_operator_node)]) in
  get (rreg (fst out)) "h1" = Some ex_operator_node /\ snd out <> Some true.
Proof.
  intros out.
  destruct (people_left_alone ex_encode ex_decode ex_settings ex_gateway_id "/nodes/" (fun w => w) (fun _ => seconds 100)
    (fun _ => Some (seconds 90)) (seconds 900) (fun _ _ => "stale") (fun _ => Ok []) (fun _ _ => Ok []) (fun _ _ => Ok "On") (fun _ _ => None) (fun _ _ _ => Scheduled)
    "h1" ex_operator_node (fun w H => H) (ex_rworld (ex_claims [] []) [("h1", ex_operator_node)])) as (_ & H & _).
  - reflexivity.
  - destruct (H ex_resolved "h1" "l4" ex_id None) as [H1 H2]; [reflexivity|]. split; [exact H1|exact (H2 eq_refl)].
Defined.

(** The reply of a committed heartbeat is lost; the beat re-reads its own write. *)
Definition ex_owned : OwnedClaim :=
  mkOwned {| claim := ex_claim Claim.PROVISIONING 1 ex_gateway_id; sc_mod_revision := 5 |} 0 false true.
Definition ex_beat_store : MapStore := ex_claims [("/placement/claims/h1", ex_encode (claim (stored ex_owned)))] [true; false].

Lemma heartbeat_ownership_witness :
  let out := _heartbeat_once ex_encode ex_decode ex_settings (fun s => s) (seconds 75) ex_owned ex_beat_store in
  lost (snd (fst out)) = false /\ in_sync ex_decode (snd (fst out)) (fst (fst out)) /\
  sc_mod_revision (stored (snd (fst out))) = 10.
Proof.
  intros out.
  destruct (heartbeat_ownership ex_encode ex_decode ex_settings (fun s => s) (seconds 75) ex_owned ex_beat_store)
    as [_ H].
  - exact ex_round_trip.
  - reflexivity.
  - reflexivity.
  - vm_compute. reflexivity.
  - destruct (H (mkKV (ex_encode (claim (stored ex_owned))) 5 0) (claim (stored ex_owned))) as (H1 & _ & H2).
    + vm_compute. reflexivity.
    + vm_compute. reflexivity.
    + exists 0, 0. reflexivity.
    + right. vm_compute. reflexivity.
    + vm_compute. eauto.
    + split; [exact H1|]. split; [exact H2|]. vm_compute. reflexivity.
Defined.

(** ** Blocked launches and unreadable claims *)

Fixpoint repeat_char (n : nat) (a : Ascii.ascii) : string :=
  match n with O => EmptyString | S n => String a (repeat_char n a) end.

Definition ex_failed : StoredClaim := {| claim := ex_claim Claim.FAILED 1 ex_gateway_id; sc_mod_revision := 5 |}.
Definition ex_failed_world : RWorld MapStore unit :=
  ex_rworld (ex_claims [("/placement/claims/h1", ex_encode (claim ex_failed))] []) [].

(** A blocked retry can make its own claim unreadable.  The blocker's text
    is stored without the 2000-character cut [_finish] applies, so a long
    enough exception text of the remote probe fails the claim's own
    validation: the claim becomes unreadable, keeps its host blocked, and
    [reset_claim] no longer finds it. *)
Theorem blocked_retry_corrupts_claim :
  let w := fst (ex_launch (Err (repeat_char 2000 (Ascii.ascii_of_nat 120))) (Some ex_failed) ex_failed_world) in
  snd (list_claims ex_decode (rstore ex_failed_world)) = Some ([ex_failed], []) /\
  snd (list_claims ex_decode (rstore w)) = Some ([], ["h1"]) /\
  snd (reset_claim ex_decode "/nodes/" (fun w => w) "h1" w) = Ok false.
Proof. cbn zeta. split_and!; vm_compute; reflexivity. Qed.

