(* ===== verification/PlacementPass.v ===== *)
(** * A placement pass ([PlacementReconciler._reconcile] and its helpers)

    - [config/settings.py]: [PlacementSettings] and its validators
    - [placement/reconciler.py]: the pass that reads the catalog, etcd and
      QUADS, settles the claims, plans, and launches

    The pass composes the catalog, the QUADS client and poller, the claim
    store, the planner and the launch protocol of [Reconciler].  What the QUADS
    server, the artifact cache and the clock answer are functions of the world,
    so every answer may differ from the one before. *)

From S2P Require Import Prelude PyDict Json NodeModel Registry Planner PlannerMatching Etcd Quads Catalog Claims Reconciler.
From stdpp Require Import pretty.
Local Open Scope Z_scope.

(** ** Settings *)

(** The fields the pass reads; [launch_settings] are the ones of the launch
    protocol. *)
Record PassSettings := mkPass {
  launch_settings : PlacementSettings;
  enabled : bool;
  ratios : list (string * Z);
  reserve_mib : Z;
  max_concurrent : Z;
  require_qualified_gpu : bool;
  exclude_hosts : list string;
  only_hosts : list string;
}.

Definition ratios_are_usable (value : list (string * Z)) : result string (list (string * Z)) :=
  let known := List.map Catalog.profile_id BUILTIN_PROFILES in
  raise_if (existsb (fun k => negb (bool_decide (k ∈ known))) (dkeys value)) "placement.ratios names unknown catalog profiles" ;?
  raise_if (existsb (fun w => w <? 0) (dvalues value)) "placement.ratios weights must not be negative" ;?
  raise_if (negb (existsb (fun w => 0 <? w) (dvalues value))) "placement.ratios needs at least one positive weight" ;?
  Ok value.

(** [sorted({host.strip().lower().rstrip(".") for host in value if host})] *)
Definition exclude_hosts_are_canonical (value : list string) : list string :=
  sort_by String.leb (remove_dups (List.map canonical_hostname (List.filter str_truthy value))).

Definition PlacementSettings_validate (s : PassSettings) : result string PassSettings :=
  let l := launch_settings s in
  raise_if (negb ((1 <=? reserve_mib s) && (1 <=? max_attempts l) && (max_attempts l <=? 20) &&
                  (30 <=? retry_backoff_seconds l) && (60 <=? claim_stale_seconds l) &&
                  (1 <=? max_concurrent s) && (max_concurrent s <=? 32))) "field constraint" ;?
  let? ratios := ratios_are_usable (ratios s) in
  Ok (mkPass l (enabled s) ratios (reserve_mib s) (max_concurrent s) (require_qualified_gpu s)
        (exclude_hosts_are_canonical (exclude_hosts s)) (exclude_hosts_are_canonical (only_hosts s))).

(** ** Status *)

Record SkippedHost := mkSkipped { sk_hostname : string; sk_reason : string }.

Record PlacementStatus := mkStatus {
  st_enabled : bool;
  st_holder : string;
  st_last_run_at : Z;
  st_error : string;
  st_targets : list (string * Z);
  st_held : list (string * Z);
  st_unfilled : list (string * Z);
  st_missing_artifacts : list MissingArtifact;
  st_claims : list Claim.t;
  st_unreadable_claims : list string;
  st_started : list string;
  st_skipped : list SkippedHost;
}.

(** [t in s] for strings *)
Fixpoint contains (t s : string) : bool :=
  String.prefix t s || match s with EmptyString => false | String _ s => contains t s end.

(** ** Policy *)

Section policy.
Context (cfg : PassSettings) (profiles : list ModelProfile).

Definition _gpu_class (host : QUADSHost) : option string :=
  gkey <$> List.find (fun gpu => contains (py_lower (quads_model_token gpu)) (py_lower (gpu_model host)))
             (flat_map Catalog.gpu_classes profiles).

Definition planned_classes (p : ModelProfile) : list string :=
  let classes := List.map gkey (Catalog.gpu_classes p) in
  if require_qualified_gpu cfg then List.filter (fun k => bool_decide (k ∈ qualified_gpus p)) classes else classes.

Definition _planned_profiles (resolution : CatalogResolution) : list PlannedProfile :=
  List.map (fun p =>
    {| Planner.profile_id := Catalog.profile_id p;
       weight := zget (ratios cfg) (Catalog.profile_id p);
       Planner.gpu_classes := planned_classes p;
       Planner.preferred_gpu_class := Catalog.preferred_gpu_class p;
       placeable := is_some (resolution_get resolution (Catalog.profile_id p)) &&
                    negb (bool_decide (planned_classes p = [])) |}) profiles.

(** [planned] restricted to what may go on a GPU class. *)
Definition usable_profiles (planned : list PlannedProfile) (actual : string) (id : option string) : list PlannedProfile :=
  List.filter (fun p => (0 <? weight p) && bool_decide (actual ∈ Planner.gpu_classes p) &&
    match id with None => true | Some k => bool_decide (Planner.profile_id p = k) end) planned.

Definition _policy_refusal (hostname : string) (host : option QUADSHost) (planned : list PlannedProfile)
  (profile_id : option string) (profile_version : option Z) (gpu_class : option string) : option string :=
  if bool_decide (hostname ∈ exclude_hosts cfg) then Some "excluded by placement.exclude_hosts"
  else if negb (bool_decide (only_hosts cfg = [])) && negb (bool_decide (hostname ∈ only_hosts cfg))
  then Some "not listed in placement.only_hosts"
  else
    match host with
    | None => Some "no longer in the QUADS GPU inventory"
    | Some host =>
        match _gpu_class host with
        | None => Some "its GPU product is not in the profile catalog"
        | Some actual =>
            if negb (gpu_count host =? 1)
            then Some (pretty (gpu_count host) +:+ " GPUs: catalog profiles support exactly one GPU per host")
            else if match gpu_class with Some k => negb (bool_decide (k = actual)) | None => false end
            then Some ("inventory now reports " +:+ actual +:+ ", not " +:+ or_default gpu_class "")
            else
              let usable := usable_profiles planned actual profile_id in
              match profile_id with
              | None => if existsb placeable usable then None
                        else Some ("no placeable profile is qualified for " +:+ actual)
              | Some id =>
                  match usable with
                  | [] => Some ("profile " +:+ id +:+ " is no longer weighted and qualified for " +:+ actual)
                  | _ =>
                      match List.find (fun p => bool_decide (Catalog.profile_id p = id)) profiles with
                      | Some current => if bool_decide (Some (version current) = profile_version) then None
                                        else Some ("profile " +:+ id +:+ " changed version")
                      | None => Some ("profile " +:+ id +:+ " changed version")
                      end
                  end
              end
        end
    end.
End policy.

(** The launch protocol's view of a resolved profile. *)
Definition launch_profile (reserve : Z) (r : Catalog.ResolvedProfile) : Reconciler.ResolvedProfile :=
  {| rp_profile_id := Catalog.profile_id (Catalog.profile r);
     rp_version := version (Catalog.profile r);
     rp_request := fun k => match runtime_request (Catalog.profile r) reserve (r_draft_artifact_id r) k with
                            | Ok q => Some q | Err _ => None end |}.

(** ** The pass *)

Section pass.
Context {S E : Type} `{!Etcd S}.
Context (encode : Claim.t -> blob) (decode : blob -> option Claim.t).
Context (cfg : PassSettings) (profiles : list ModelProfile) (self_holder prefix : string).
Context (others : RWorld S E -> RWorld S E).
Context (clock : RWorld S E -> Z) (poller : RWorld S E -> QUADSPoller).
Context (quads_stale_after : Z) (stale_text : Z -> Z -> string).
(** The answers of the QUADS server. *)
Context (available_answer moves_answer : RWorld S E -> option json).
(** The scan of the artifact cache. *)
Context (scan : RWorld S E -> result string (list GGUFArtifact)).
Context (remote_lifecycle_processes : string -> RWorld S E -> result string (list string)).
Context (power_state : string -> RWorld S E -> result string string).
Context (node_from_etcd : string -> blob -> option Node).
Context (fire_background : string -> Claim.t -> RWorld S E -> Scheduling).
(** [uuid.uuid4().hex] and the text of a failed etcd request. *)
Context (fresh_id : string -> RWorld S E -> string) (etcd_error : string).

Implicit Types (w : RWorld S E).

Notation settings := (launch_settings cfg).

Definition last_sync w : option Z := _last_sync (poller w).

Definition pending_moves w : result string (list string) :=
  let? s := Quads.get_pending_moves (moves_answer w) in Ok (elements s).

Definition stale_reason w : option string := _quads_stale_reason clock last_sync quads_stale_after stale_text w.

Definition launch (r : Catalog.ResolvedProfile) (host gpu : string) (existing : option StoredClaim) w
  : RWorld S E * option bool :=
  _launch encode decode settings self_holder prefix others clock last_sync quads_stale_after stale_text pending_moves
    remote_lifecycle_processes power_state node_from_etcd fire_background
    (launch_profile (reserve_mib cfg) r) host gpu (fresh_id host w) existing w.

(** *** What the pass observes first *)

Record Observed := mkObserved {
  ob_resolution : CatalogResolution;
  ob_suspended : list string;
  ob_claims : list StoredClaim;
  ob_unreadable : list string;
  ob_available : list string;
  ob_moves : list string;
}.

Definition failed (now : Z) (message : string) (missing : list MissingArtifact) (claims : list Claim.t) : PlacementStatus :=
  mkStatus (enabled cfg) self_holder now message [] [] [] missing claims [] [] [].

(** The guarded reads; [Err] is the status of a skipped pass. *)
Definition observe (now : Z) w : RWorld S E * result PlacementStatus Observed :=
  let scanned := scan w in
  let w := others w in
  match scanned with
  | Err e => (w, Err (failed now ("could not scan the GGUF cache: " +:+ e) [] []))
  | Ok artifacts =>
      let resolution := resolve_catalog profiles artifacts in
      let missing := Catalog.missing resolution in
      let unread := failed now ("could not read placement claims: " +:+ etcd_error) missing [] in
      let '(w, suspended) := request others list_suspended w in
      match suspended with
      | None => (w, Err unread)
      | Some suspended =>
          let '(w, listed) := request others (list_claims decode) w in
          match listed with
          | None => (w, Err unread)
          | Some (claims, unreadable) =>
              let known_claims := List.map claim claims in
              match stale_reason w with
              | Some stale => (w, Err (failed now stale missing known_claims))
              | None =>
                  let reply := Quads.get_available (available_answer w) in
                  let w := others w in
                  match reply with
                  | Err e => (w, Err (failed now ("QUADS availability is unknown: " +:+ e) missing known_claims))
                  | Ok available =>
                      let reply := pending_moves w in
                      let w := others w in
                      match reply with
                      | Err e => (w, Err (failed now ("QUADS pending moves are unknown: " +:+ e) missing known_claims))
                      | Ok moves =>
                          (w, Ok (mkObserved resolution suspended claims unreadable
                                    (List.map canonical_hostname available) moves))
                      end
                  end
              end
          end
      end
  end.

(** *** Settling *)

(** The loop over the claims; [None] is a raised exception. *)
Fixpoint settle_all (suspended available : list string) (now : Z) (claims : list StoredClaim) w
  : RWorld S E * option (list StoredClaim) :=
  match claims with
  | [] => (w, Some [])
  | st :: claims =>
      let host := Claim.hostname (claim st) in
      let '(w, kept) :=
        if bool_decide (host ∈ suspended)
        then if is_none (get (rreg w) host)
             then let '(w, r) := _drop others st w in (w, match r with Some _ => Some [] | None => None end)
             else (w, Some [])
        else let '(w, r) := _settle_claim encode settings self_holder prefix others st available now w in
             (w, option_list <$> r) in
      match kept with
      | None => (w, None)
      | Some kept =>
          let '(w, rest) := settle_all suspended available now claims w in
          (w, match rest with Some rest => Some (kept ++ rest) | None => None end)
      end
  end.

(** [d[k] = d.get(k, 0) + 1] for every claim that counts. *)
Definition count_claims (counts : Claim.t -> bool) (claims : list Claim.t) (d : list (string * Z)) : list (string * Z) :=
  fold_left (fun d c => if counts c then dset (Claim.profile_id c) (zget d (Claim.profile_id c) + 1) d else d) claims d.

(** *** Candidates *)

(** [host_operation_in_progress] *)
Definition in_progress (host : string) w : bool := bool_decide (host ∈ busy w).

(** The host has a node record automation may not use. *)
Definition taken (host : string) w : option string :=
  match get (rreg w) host with
  | Some n => if _is_free_pool_node n then None else Some ("already has a " +:+ status_value (status n) +:+ " node record")
  | None => None
  end.

(** Why a host the policy accepts is not a candidate now. *)
Definition not_now (available moves : list string) (now : Z) (host : string) w : option string :=
  if negb (bool_decide (host ∈ available)) then Some "not free for the whole QUADS scheduling window"
  else if bool_decide (host ∈ moves) then Some _PENDING_MOVE_REASON
  else match taken host w with
  | Some r => Some r
  | None =>
      if in_progress host w then Some "another lifecycle operation is in progress"
      else match _deferred w !! host with
           | Some (again, why) => if now <? again then Some why else None
           | None => None
           end
  end.

(** [del self._deferred[hostname]] once its time has passed: reached when
    nothing before it refused the host. *)
Definition undefer (host : string) w : RWorld S E := with_deferred (delete host (_deferred w)) w.

Fixpoint candidates_loop (available blocked : list string) (planned : list PlannedProfile) (now : Z) (moves : list string)
  (hosts : list QUADSHost) w : RWorld S E * (list Candidate * list SkippedHost) :=
  match hosts with
  | [] => (w, ([], []))
  | host :: hosts =>
      let hostname := canonical_hostname (Quads.hostname host) in
      match _gpu_class profiles host with
      | None => candidates_loop available blocked planned now moves hosts w
      | Some gpu =>
          if bool_decide (hostname ∈ blocked) then candidates_loop available blocked planned now moves hosts w
          else
            let reason := match _policy_refusal cfg profiles hostname (Some host) planned None None None with
                          | Some r => Some r
                          | None => not_now available moves now hostname w
                          end in
            match reason with
            | Some r =>
                let '(w, (cs, sk)) := candidates_loop available blocked planned now moves hosts w in
                (w, (cs, mkSkipped hostname r :: sk))
            | None =>
                let '(w, (cs, sk)) := candidates_loop available blocked planned now moves hosts (undefer hostname w) in
                (w, ({| Planner.hostname := hostname; Planner.gpu_class := gpu |} :: cs, sk))
            end
      end
  end.

Definition inventory w : list string := List.map (fun h => canonical_hostname (Quads.hostname h)) (_hosts (poller w)).

Definition _candidates (available blocked : list string) (planned : list PlannedProfile) (now : Z) (moves : list string) w
  : RWorld S E * (list Candidate * list SkippedHost) :=
  let hosts := sort_by (fun a b => String.leb (Quads.hostname a) (Quads.hostname b)) (_hosts (poller w)) in
  let known := inventory w in
  let w := with_deferred (filter (fun kv => kv.1 ∈ known) (_deferred w)) w in
  candidates_loop available blocked planned now moves hosts w.

(** One readiness check. *)
Definition check (c : Candidate) w : RWorld S E * option string :=
  let host := Planner.hostname c in
  if in_progress host w then (w, Some "host lifecycle operation in progress")
  else if negb (_may_replace (get (rreg w) host) None) then (w, Some "node changed before readiness check")
  else
    let '(w, blocker) := _launch_blocker prefix others remote_lifecycle_processes power_state node_from_etcd host None w in
    match blocker with
    | Some b =>
        let reason := "blocked: " +:+ b in
        (with_deferred (<[host := (clock w + seconds (retry_backoff_seconds settings), reason)]> (_deferred w)) w, Some reason)
    | None =>
        if negb (_may_replace (get (rreg w) host) None) then (w, Some "node changed during readiness check")
        else (w, None)
    end.

(** [asyncio.gather] over the checks: a check hands control to the others,
    the checks of other hosts among them, before and while it runs; the
    answers come back in the order of the candidates. *)
Fixpoint _ready_candidates (candidates : list Candidate) w : RWorld S E * (list Candidate * list SkippedHost) :=
  match candidates with
  | [] => (w, ([], []))
  | c :: candidates =>
      let '(w, reason) := check c (others w) in
      let '(w, (ready, skipped)) := _ready_candidates candidates w in
      (w, match reason with
          | None => (c :: ready, skipped)
          | Some r => (ready, mkSkipped (Planner.hostname c) r :: skipped)
          end)
  end.

(** *** Launching *)

Record Progress := mkProgress { pr_world : RWorld S E; pr_budget : Z; pr_started : list string; pr_skipped : list SkippedHost }.

Definition skip (host reason : string) (p : Progress) : Progress :=
  mkProgress (pr_world p) (pr_budget p) (pr_started p) (pr_skipped p ++ [mkSkipped host reason]).

(** The outcome of one launch: [fallback] is what the caller reports when the
    launch was not refused at its QUADS re-check. *)
Definition after_launch (host : string) (fallback : RWorld S E -> option string) (p : Progress)
  (r : RWorld S E * option bool) : Progress * bool :=
  let '(w, ok) := r in
  let p' := mkProgress w (pr_budget p) (pr_started p) (pr_skipped p) in
  match ok with
  | None => (p', false)
  | Some true => (mkProgress w (pr_budget p - 1) (pr_started p ++ [host]) (pr_skipped p), true)
  | Some false =>
      (match _refused w !! host with
       | Some why => skip host why p'
       | None => match fallback w with Some why => skip host why p' | None => p' end
       end, true)
  end.

Section launching.
Context (o : Observed) (now : Z) (planned : list PlannedProfile) (hosts : list (string * QUADSHost)).

Definition due (c : Claim.t) : bool :=
  bool_decide (Claim.state c = Claim.FAILED) &&
  negb (match Claim.retry_at c with Some t => now <? t | None => false end) &&
  bool_decide (Claim.hostname c ∈ ob_available o).

(** One round of the retry loop; [false] when it raised. *)
Definition retry (st : StoredClaim) (p : Progress) : Progress * bool :=
  let c := claim st in
  let host := Claim.hostname c in
  if negb (due c) then (p, true)
  else if bool_decide (host ∈ ob_moves o) then (skip host _PENDING_MOVE_REASON p, true)
  else
    match _policy_refusal cfg profiles host (dget host hosts) planned (Some (Claim.profile_id c))
            (Some (Claim.profile_version c)) (Some (Claim.gpu_class c)) with
    | Some refusal =>
        let '(w, released) := _release_failed_claim prefix others st (pr_world p) in
        let p' := mkProgress w (pr_budget p) (pr_started p) (pr_skipped p) in
        match released with
        | None => (p', false)
        | Some true => (skip host refusal p', true)
        | Some false => (p', true)
        end
    | None =>
        match resolution_get (ob_resolution o) (Claim.profile_id c) with
        | None => (p, true)
        | Some resolved =>
            after_launch host (fun _ => None) p (launch resolved host (Claim.gpu_class c) (Some st) (pr_world p))
        end
    end.

Definition place (classes : list (string * string)) (a : Assignment) (p : Progress) : Progress * bool :=
  let host := as_hostname a in
  match resolution_get (ob_resolution o) (as_profile_id a) with
  | None => (p, true)
  | Some resolved =>
      match dget host classes with
      | None => (p, false)                          (* KeyError *)
      | Some gpu =>
          after_launch host (fun w => snd <$> _deferred w !! host) p (launch resolved host gpu None (pr_world p))
      end
  end.

(** [for x in l: if budget <= 0: break; ...] *)
Fixpoint while_budget {A} (step : A -> Progress -> Progress * bool) (l : list A) (p : Progress) : Progress * bool :=
  match l with
  | [] => (p, true)
  | x :: l =>
      if pr_budget p <=? 0 then (p, true)
      else let '(p, ok) := step x p in if ok then while_budget step l p else (p, false)
  end.
End launching.

Definition in_flight_here (c : Claim.t) : bool :=
  bool_decide (Claim.state c = Claim.PROVISIONING) && bool_decide (Claim.holder c = self_holder).

(** The report: what is held now, and what the targets still miss. *)
Definition report (o : Observed) (now : Z) (plan : PlacementPlan) (final : list StoredClaim) (unreadable : list string)
  (p : Progress) : PlacementStatus :=
  let counts c := negb (bool_decide (Claim.hostname c ∈ ob_suspended o)) && Claim.counts_toward_ratio c in
  let held_now := count_claims counts (List.map claim final)
                    (fold_left (fun d p => dset (Catalog.profile_id p) 0 d) profiles []) in
  let unfilled_now := List.filter (fun kv => 0 <? snd kv)
                        (List.map (fun kv => (fst kv, snd kv - zget held_now (fst kv))) (targets plan)) in
  mkStatus (enabled cfg) self_holder now "" (targets plan) held_now unfilled_now
    (Catalog.missing (ob_resolution o)) (List.map claim final) unreadable (pr_started p) (pr_skipped p).

(** [{canonical_hostname(host.hostname): host for host in self._poller.hosts}] *)
Definition hosts_by_name w : list (string * QUADSHost) :=
  fold_left (fun d h => dset (canonical_hostname (Quads.hostname h)) h d) (_hosts (poller w)) [].

Definition suspended_text : string := "automatic placement suspended by an administrator".

(** What is left of a pass once its observations are in. *)
Definition act (now : Z) (o : Observed) w : RWorld S E * option PlacementStatus :=
  let '(w, settled) := settle_all (ob_suspended o) (ob_available o) now (ob_claims o) w in
  match settled with
  | None => (w, None)
  | Some settled =>
      let claims := List.map claim settled in
      let held := count_claims Claim.counts_toward_ratio claims [] in
      let planned := _planned_profiles cfg profiles (ob_resolution o) in
      let hosts := hosts_by_name w in
      let blocked := List.map Claim.hostname claims ++ ob_unreadable o in
      let '(w, (candidates, skipped)) :=
        _candidates (ob_available o) (blocked ++ ob_suspended o) planned now (ob_moves o) w in
      let skipped := skipped ++ List.map (fun h => mkSkipped h suspended_text) (sort_by String.leb (ob_suspended o)) in
      let budget := max_concurrent cfg - Z.of_nat (length (List.filter in_flight_here claims)) in
      let '(w, (candidates, unreachable)) :=
        if 0 <? budget then _ready_candidates candidates w else (w, (candidates, [])) in
      match plan_placements planned held candidates with
      | Err _ => (w, None)
      | Ok plan =>
          let classes := fold_left (fun d c => dset (Planner.hostname c) (Planner.gpu_class c) d) candidates [] in
          let '(p, ok) := while_budget (retry o now planned hosts) settled (mkProgress w budget [] (skipped ++ unreachable)) in
          if negb ok then (pr_world p, None)
          else
            let '(p, ok) := while_budget (place o classes) (assignments plan) p in
            if negb ok then (pr_world p, None)
            else
              let '(w, final) := request others (list_claims decode) (pr_world p) in
              (w, match final with
                  | None => None
                  | Some (final, unreadable) => Some (report o now plan final unreadable p)
                  end)
      end
  end.

Definition _reconcile w : RWorld S E * option PlacementStatus :=
  let now := clock w in
  let w := with_refused ∅ w in
  let '(w, seen) := observe now w in
  match seen with
  | Err status => (w, Some status)
  | Ok o => act now o w
  end.

(** [reconcile_once]: the pass lock is held throughout; a raised pass leaves
    the last status. *)
Definition reconcile_once (status : PlacementStatus) w : RWorld S E * PlacementStatus * bool :=
  let '(w, r) := _reconcile w in
  match r with Some st => (w, st, true) | None => (w, status, false) end.

Definition launch_blockers w : list (string * string) :=
  List.map (fun kv => (fst kv, snd (snd kv))) (map_to_list (_deferred w)).

Definition node_status (host : string) w : option string := (fun n => status_value (status n)) <$> get (rreg w) host.
End pass.

(** ** Which hosts a pass starts *)

Lemma fold_dset_get {A B} (f : A -> string) (g : A -> B) l d k v :
  dget k (fold_left (fun d x => dset (f x) (g x) d) l d) = Some v ->
  dget k d = Some v \/ exists x, x ∈ l /\ f x = k /\ g x = v.
Proof.
  revert d. induction l as [|x l IH]; intros d; cbn; [by left|].
  intros [H|(y & Hy & ?)]%IH; [|right; exists y; split; [by right|done]].
  rewrite dget_dset in H. case_decide; [|by left]. right. exists x. split; [by left|]. by simplify_eq.
Qed.

Lemma fold_dset_mem {A B} (f : A -> string) (g : A -> B) l d x :
  x ∈ l \/ is_Some (dget (f x) d) -> is_Some (dget (f x) (fold_left (fun d x => dset (f x) (g x) d) l d)).
Proof.
  revert d. induction l as [|y l IH]; intros d; cbn; [intros [?%not_elem_of_nil|?]; done|].
  intros H. apply IH. destruct H as [[->|H]%elem_of_cons|H]; [right; by rewrite dget_dset_eq|by left|].
  right. rewrite dget_dset. by case_decide.
Qed.

Lemma sort_claims_hosts decode l : NoDup (fst <$> l) -> (forall k v, (k, v) ∈ l -> startswith k CLAIM_PREFIX = true) ->
  NoDup (Claim.hostname ∘ claim <$> fst (sort_claims decode l)) /\
  forall st, st ∈ fst (sort_claims decode l) -> claim_key (Claim.hostname (claim st)) ∈ (fst <$> l).
Proof.
  induction l as [|[k v] l IH]; cbn [fmap list_fmap]; intros Hnd Hp; [by split; [constructor|intros ? ?%not_elem_of_nil]|].
  apply NoDup_cons in Hnd as [Hk Hnd]. destruct IH as [IH1 IH2]; [done|intros; eapply Hp; by right|].
  cbn [sort_claims fst]. destruct (sort_claims decode l) as [cs un]. cbn [fst] in *.
  destruct (parse_claim decode (removeprefix CLAIM_PREFIX k) v) as [c|] eqn:Hc; cbn [fst];
    [|split; [done|intros st Hst; right; by apply IH2]].
  assert (claim_key (Claim.hostname (claim c)) = k) as Hck.
  { unfold parse_claim in Hc. destruct (decode (kv_value v)) as [c0|]; [|done]. case_bool_decide as Hh; [|done].
    injection Hc as <-. cbn. rewrite Hh. unfold claim_key. apply removeprefix_prefix. eapply Hp. by left. }
  split.
  - cbn [fmap list_fmap]. constructor; [|done]. intros (st & Hh & Hst)%list_elem_of_fmap. apply Hk.
    rewrite <- Hck. cbn in Hh. rewrite Hh. by apply IH2.
  - intros st [->|Hst]%elem_of_cons; [rewrite Hck; by left|right; by apply IH2].
Qed.

Lemma fmap_sublist {A B} (f : A -> B) l k : l `sublist_of` k -> (f <$> l) `sublist_of` (f <$> k).
Proof. induction 1; cbn; by constructor. Qed.

Lemma omap_same {A B} (f g : A -> option B) (l : list A) : (forall x, x ∈ l -> f x = g x) -> omap f l = omap g l.
Proof. induction l as [|x l IH]; intros H; cbn; [done|]. rewrite (H x) by set_solver. rewrite IH; [done|set_solver]. Qed.

Lemma not_now_None {S E} available moves now h (w : RWorld S E) : not_now available moves now h w = None <->
  h ∈ available /\ h ∉ moves /\ taken h w = None /\ in_progress h w = false /\
  (forall again why, _deferred w !! h = Some (again, why) -> again <= now).
Proof.
  unfold not_now. case_bool_decide; cbn [negb]; [|naive_solver]. case_bool_decide; [naive_solver|].
  destruct (taken h w); [naive_solver|]. destruct (in_progress h w); [naive_solver|].
  destruct (_deferred w !! h) as [[again why]|]; [|naive_solver].
  destruct (Z.ltb_spec now again).
  - split; [done|]. intros (_ & _ & _ & _ & Hd). specialize (Hd _ _ eq_refl). lia.
  - split; [|done]. intros _. split_and!; try done. intros ? ? [= <- <-]. lia.
Qed.

Section pass_facts.
Context {S E : Type} `{!Etcd S}.
Context (encode : Claim.t -> blob) (decode : blob -> option Claim.t).
Context (cfg : PassSettings) (profiles : list ModelProfile) (self_holder prefix : string).
Context (others : RWorld S E -> RWorld S E).
Context (clock : RWorld S E -> Z) (poller : RWorld S E -> QUADSPoller).
Context (quads_stale_after : Z) (stale_text : Z -> Z -> string).
Context (moves_answer : RWorld S E -> option json).
Context (remote_lifecycle_processes : string -> RWorld S E -> result string (list string)).
Context (power_state : string -> RWorld S E -> result string string).
Context (node_from_etcd : string -> blob -> option Node).
Context (fire_background : string -> Claim.t -> RWorld S E -> Scheduling).
Context (fresh_id : string -> RWorld S E -> string).

Implicit Types (w : RWorld S E).
Notation settings := (launch_settings cfg).
Notation launch' := (launch encode decode cfg self_holder prefix others clock poller quads_stale_after stale_text moves_answer
  remote_lifecycle_processes power_state node_from_etcd fire_background fresh_id).
Notation retry' := (retry encode decode cfg profiles self_holder prefix others clock poller quads_stale_after stale_text moves_answer
  remote_lifecycle_processes power_state node_from_etcd fire_background fresh_id).
Notation place' := (place encode decode cfg self_holder prefix others clock poller quads_stale_after stale_text moves_answer
  remote_lifecycle_processes power_state node_from_etcd fire_background fresh_id).
Notation settle_all' := (settle_all encode cfg self_holder prefix others).

(** A settled claim keeps its host. *)
Lemma settle_claim_host st available now w w' st' :
  _settle_claim encode settings self_holder prefix others st available now w = (w', Some (Some st')) ->
  Claim.hostname (claim st') = Claim.hostname (claim st).
Proof.
  assert (forall st' w ch w', keep (_rewrite encode others st now ch w) = (w', Some (Some st')) ->
    Claim.hostname (claim st') = Claim.hostname (claim st)) as Hre.
  { unfold keep, _rewrite. intros st0 w0 ch w0'. destruct (request others _ w0) as [w1 [[rev|]|]]; intros H; simplify_eq/=; done. }
  assert (forall st' w w', _drop others st w = (w', Some (Some st')) -> Claim.hostname (claim st') = Claim.hostname (claim st)) as Hd.
  { unfold _drop. intros st0 w0 w0'. destruct (request others _ w0) as [w1 [[]|]]; congruence. }
  unfold _settle_claim. intros H. repeat (case_match; eauto; try congruence).
Qed.

(** Settling keeps a sublist of the hosts, and none that is suspended. *)
Lemma settle_all_hosts suspended available now claims w settled :
  snd (settle_all' suspended available now claims w) = Some settled ->
  (Claim.hostname ∘ claim <$> settled) `sublist_of` (Claim.hostname ∘ claim <$> claims) /\
  forall st, st ∈ settled -> Claim.hostname (claim st) ∉ suspended.
Proof.
  revert w settled. induction claims as [|st claims IH]; cbn [settle_all]; intros w settled.
  { intros [= <-]. split; [constructor|by intros ? ?%not_elem_of_nil]. }
  set (kept := if bool_decide _ then _ else _).
  assert (forall k, snd kept = Some k ->
    k = [] \/ exists st', k = [st'] /\ Claim.hostname (claim st') = Claim.hostname (claim st) /\ Claim.hostname (claim st) ∉ suspended) as Hk.
  { intros k. unfold kept. case_bool_decide as Hs.
    - case_match; [destruct (_drop others st w) as [? []]|]; cbn; intros; simplify_eq; by left.
    - destruct (_settle_claim _ _ _ _ _ st available now w) as [w1 [[st'|]|]] eqn:He; cbn; intros; simplify_eq; [|by left].
      right. exists st'. split; [done|]. split; [by eapply settle_claim_host|done]. }
  destruct kept as [w1 [k|]]; [|done]. cbn [snd] in Hk. specialize (Hk k eq_refl).
  specialize (IH w1). destruct (settle_all' suspended available now claims w1) as [w2 [rest|]]; [|done]. cbn [snd] in *.
  intros [= <-]. destruct (IH rest eq_refl) as [IH1 IH2]. destruct Hk as [->|(st' & -> & Hh & Hn)]; cbn.
  - split; [by apply sublist_cons|done].
  - rewrite Hh. split; [by apply sublist_skip|]. intros st0 [->|]%elem_of_cons; [by rewrite Hh|by apply IH2].
Qed.

(** A loop starts a sublist of its rounds, each within the budget. *)
Lemma while_budget_started {A} (step : A -> Progress (S := S) (E := E) -> Progress * bool) (f : A -> string) (P : A -> Prop) l p :
  (forall x p, x ∈ l -> let p' := fst (step x p) in
     (pr_started p' = pr_started p /\ pr_budget p' = pr_budget p) \/
     (P x /\ pr_started p' = pr_started p ++ [f x] /\ pr_budget p' = pr_budget p - 1)) ->
  exists xs, let p' := fst (while_budget step l p) in
    xs `sublist_of` l /\ Forall P xs /\ pr_started p' = pr_started p ++ (f <$> xs) /\
    pr_budget p' = pr_budget p - Z.of_nat (length xs) /\ (xs = [] \/ 0 <= pr_budget p').
Proof.
  revert p. induction l as [|x l IH]; intros p Hstep; cbn [while_budget].
  { exists []. cbn. rewrite app_nil_r, Z.sub_0_r. split_and!; [constructor|constructor|done..|by left]. }
  destruct (Z.leb_spec (pr_budget p) 0) as [|Hb].
  { exists []. cbn. rewrite app_nil_r, Z.sub_0_r. split_and!; [apply sublist_nil_l|constructor|done..|by left]. }
  pose proof (Hstep x p ltac:(by left)) as Hx. destruct (step x p) as [p1 ok]. cbn [fst] in Hx.
  assert (exists xs, let p' := fst (if ok then while_budget step l p1 else (p1, false)) in
    xs `sublist_of` l /\ Forall P xs /\ pr_started p' = pr_started p1 ++ (f <$> xs) /\
    pr_budget p' = pr_budget p1 - Z.of_nat (length xs) /\ (xs = [] \/ 0 <= pr_budget p')) as (xs & Hs & HP & Hst & Hbu & Hpos).
  { destruct ok; [apply IH; intros; apply Hstep; by right|].
    exists []. cbn. rewrite app_nil_r, Z.sub_0_r. split_and!; [apply sublist_nil_l|constructor|done..|by left]. }
  destruct Hx as [[H1 H2]|(HPx & H1 & H2)].
  - exists xs. cbn zeta. rewrite Hst, Hbu, H1, H2 in *. split_and!; [by apply sublist_cons|done..].
  - exists (x :: xs). cbn zeta. rewrite Hst, H1, <- app_assoc. cbn. split_and!; [by apply sublist_skip|by constructor|done|lia|].
    right. destruct Hpos as [->|]; [cbn in *; lia|done].
Qed.

Lemma after_launch_started host fallback p r :
  let p' := fst (after_launch (S := S) (E := E) host fallback p r) in
  (pr_started p' = pr_started p /\ pr_budget p' = pr_budget p) \/
  (pr_started p' = pr_started p ++ [host] /\ pr_budget p' = pr_budget p - 1).
Proof.
  destruct r as [w [[]|]]; cbn; [by right| |by left].
  destruct (_refused w !! host); cbn; [by left|]. destruct (fallback w); by left.
Qed.

(** What a retried claim satisfies. *)
Definition retriable (o : Observed) (now : Z) (planned : list PlannedProfile) (hosts : list (string * QUADSHost)) (st : StoredClaim) : Prop :=
  let c := claim st in
  due o now c = true /\ Claim.hostname c ∉ ob_moves o /\
  _policy_refusal cfg profiles (Claim.hostname c) (dget (Claim.hostname c) hosts) planned (Some (Claim.profile_id c))
    (Some (Claim.profile_version c)) (Some (Claim.gpu_class c)) = None /\
  is_Some (resolution_get (ob_resolution o) (Claim.profile_id c)).

Lemma retry_started o now planned hosts st p :
  let p' := fst (retry' o now planned hosts st p) in
  (pr_started p' = pr_started p /\ pr_budget p' = pr_budget p) \/
  (retriable o now planned hosts st /\ pr_started p' = pr_started p ++ [Claim.hostname (claim st)] /\ pr_budget p' = pr_budget p - 1).
Proof.
  cbn zeta. unfold retry. destruct (due o now (claim st)) eqn:Hd; cbn [negb]; [|by left].
  case_bool_decide as Hm; [by left|].
  destruct (_policy_refusal _ _ _ _ _ _ _ _) eqn:Hp.
  { destruct (_release_failed_claim _ _ _ _) as [w [[]|]]; by left. }
  destruct (resolution_get _ _) as [r|] eqn:Hr; [|by left].
  destruct (after_launch_started (Claim.hostname (claim st)) (fun _ => None) p (launch' r (Claim.hostname (claim st)) (Claim.gpu_class (claim st)) (Some st) (pr_world p)))
    as [?|[H1 H2]]; [by left|]. right. split; [|done]. split_and!; [done..|by rewrite Hr].
Qed.

Lemma place_started o classes a p :
  let p' := fst (place' o classes a p) in
  (pr_started p' = pr_started p /\ pr_budget p' = pr_budget p) \/
  (is_Some (resolution_get (ob_resolution o) (as_profile_id a)) /\ pr_started p' = pr_started p ++ [as_hostname a] /\ pr_budget p' = pr_budget p - 1).
Proof.
  cbn zeta. unfold place. destruct (resolution_get _ _) as [r|]; [|by left]. destruct (dget (as_hostname a) classes) as [gpu|]; [|by left].
  destruct (after_launch_started (as_hostname a) (fun w => snd <$> _deferred w !! as_hostname a) p (launch' r (as_hostname a) gpu None (pr_world p)))
    as [?|[H1 H2]]; [by left|right; eauto].
Qed.

(** *** Candidates *)

Section verdicts.
Context (available blocked : list string) (planned : list PlannedProfile) (now : Z) (moves : list string).

Definition name_of (h : QUADSHost) : string := canonical_hostname (Quads.hostname h).

(** What one inventory entry comes to in world [w]: nothing, a reason to skip
    it, or a GPU class to offer it with. *)
Definition verdict w (h : QUADSHost) : option (string + string) :=
  match _gpu_class profiles h with
  | None => None
  | Some gpu =>
      if bool_decide (name_of h ∈ blocked) then None
      else match _policy_refusal cfg profiles (name_of h) (Some h) planned None None None with
           | Some r => Some (inl r)
           | None => match not_now available moves now (name_of h) w with Some r => Some (inl r) | None => Some (inr gpu) end
           end
  end.

Definition offered w (h : QUADSHost) : option Candidate :=
  match verdict w h with
  | Some (inr gpu) => Some {| Planner.hostname := name_of h; Planner.gpu_class := gpu |}
  | _ => None
  end.

Definition refused w (h : QUADSHost) : option SkippedHost :=
  match verdict w h with Some (inl r) => Some (mkSkipped (name_of h) r) | _ => None end.

Lemma not_now_undefer h h' w : not_now available moves now h' w = None ->
  not_now available moves now h (undefer h' w) = not_now available moves now h w.
Proof.
  unfold not_now. change (taken h (undefer h' w)) with (taken h w). change (in_progress h (undefer h' w)) with (in_progress h w).
  change (_deferred (undefer h' w)) with (delete h' (_deferred w)). intros Hn.
  destruct (decide (h = h')) as [->|Hne]; [|by rewrite lookup_delete_ne].
  rewrite lookup_delete_eq. repeat case_match; congruence.
Qed.

Lemma verdict_undefer h h' w : not_now available moves now h' w = None -> verdict (undefer h' w) h = verdict w h.
Proof. intros Hn. unfold verdict. by rewrite not_now_undefer. Qed.

Lemma candidates_loop_spec hosts w :
  let out := candidates_loop cfg profiles available blocked planned now moves hosts w in
  snd out = (omap (offered w) hosts, omap (refused w) hosts) /\
  fst out = foldl (fun w c => undefer (Planner.hostname c) w) w (omap (offered w) hosts).
Proof.
  revert w. induction hosts as [|h hosts IH]; intros w; [done|]. cbn zeta. cbn [candidates_loop omap list_omap].
  change (canonical_hostname (Quads.hostname h)) with (name_of h).
  assert (offered w h = match verdict w h with Some (inr gpu) => Some {| Planner.hostname := name_of h; Planner.gpu_class := gpu |} | _ => None end) as -> by done.
  assert (refused w h = match verdict w h with Some (inl r) => Some (mkSkipped (name_of h) r) | _ => None end) as -> by done.
  unfold verdict at 1 2 3. destruct (_gpu_class profiles h) as [gpu|]; [|apply IH]. case_bool_decide; [apply IH|].
  destruct (_policy_refusal _ _ _ _ _ _ _ _).
  { destruct (IH w) as [H1 H2]. destruct (candidates_loop _ _ _ _ _ _ _ hosts w) as [w' [cs sk]]. cbn [fst snd] in *.
    injection H1 as -> ->. done. }
  destruct (not_now available moves now (name_of h) w) eqn:Hn.
  { destruct (IH w) as [H1 H2]. destruct (candidates_loop _ _ _ _ _ _ _ hosts w) as [w' [cs sk]]. cbn [fst snd] in *.
    injection H1 as -> ->. done. }
  assert (forall l : list QUADSHost, omap (offered (undefer (name_of h) w)) l = omap (offered w) l) as Ho.
  { intros l. apply omap_same. intros x _. unfold offered. by rewrite verdict_undefer. }
  assert (forall l : list QUADSHost, omap (refused (undefer (name_of h) w)) l = omap (refused w) l) as Hr.
  { intros l. apply omap_same. intros x _. unfold refused. by rewrite verdict_undefer. }
  destruct (IH (undefer (name_of h) w)) as [H1 H2]. rewrite Ho, Hr in *.
  destruct (candidates_loop _ _ _ _ _ _ _ hosts _) as [w' [cs sk]]. cbn [fst snd] in *. injection H1 as -> ->. done.
Qed.

Lemma offered_spec w h c : offered w h = Some c ->
  Planner.hostname c = name_of h /\ _gpu_class profiles h = Some (Planner.gpu_class c) /\ name_of h ∉ blocked /\
  _policy_refusal cfg profiles (name_of h) (Some h) planned None None None = None /\
  not_now available moves now (name_of h) w = None.
Proof.
  unfold offered, verdict. destruct (_gpu_class profiles h) as [gpu|]; [|done]. case_bool_decide; [done|].
  destruct (_policy_refusal _ _ _ _ _ _ _ _); [done|]. destruct (not_now _ _ _ _ _); [done|]. intros [= <-]. done.
Qed.
End verdicts.

Lemma ready_sublist candidates w :
  fst (snd (_ready_candidates cfg prefix others clock remote_lifecycle_processes power_state node_from_etcd candidates w)) `sublist_of` candidates.
Proof.
  revert w. induction candidates as [|c l IH]; intros w; cbn [_ready_candidates]; [constructor|].
  destruct (check _ _ _ _ _ _ _ _) as [w1 reason]. specialize (IH w1).
  destruct (_ready_candidates _ _ _ _ _ _ _ l w1) as [w2 [ready sk]]. cbn [fst snd] in *.
  destruct reason; cbn [fst]; [by apply sublist_cons|by apply sublist_skip].
Qed.

(** *** Policy *)

Lemma policy_None host h planned id ver gpu : _policy_refusal cfg profiles host h planned id ver gpu = None ->
  host ∉ exclude_hosts cfg /\ (only_hosts cfg = [] \/ host ∈ only_hosts cfg) /\
  exists q actual p, h = Some q /\ gpu_count q = 1 /\ _gpu_class profiles q = Some actual /\
    (forall k, gpu = Some k -> k = actual) /\ p ∈ planned /\ 0 < weight p /\ actual ∈ Planner.gpu_classes p /\
    (forall k, id = Some k -> Planner.profile_id p = k).
Proof.
  unfold _policy_refusal. case_bool_decide; [done|].
  destruct (negb (bool_decide (only_hosts cfg = [])) && _) eqn:Hon; [done|].
  assert (only_hosts cfg = [] \/ host ∈ only_hosts cfg) as Ho.
  { apply andb_false_iff in Hon as [Hon|Hon]; bool_to_prop; auto. }
  destruct h as [q|]; [|done]. destruct (_gpu_class profiles q) as [actual|] eqn:Ha; [|done].
  destruct (Z.eqb_spec (gpu_count q) 1); [|done]. cbn [negb].
  destruct (match gpu with Some k => _ | None => _ end) eqn:Hg; [done|].
  assert (forall k, gpu = Some k -> k = actual) as Hk by (intros k ->; by bool_to_prop).
  assert (forall p, p ∈ usable_profiles planned actual id -> p ∈ planned /\ 0 < weight p /\ actual ∈ Planner.gpu_classes p /\
    (forall k, id = Some k -> Planner.profile_id p = k)) as Hu.
  { intros p [Hp Hc]%elem_of_filter_bool. bool_to_prop. split_and!; [done..|]. intros k ->. by bool_to_prop. }
  intros Hn. split_and!; [done..|]. assert (exists p, p ∈ usable_profiles planned actual id) as [p Hp].
  { destruct id as [k|]; [destruct (usable_profiles planned actual (Some k)) as [|p l]; [done|exists p; by left]|].
    destruct (existsb placeable _) eqn:He; [|done]. apply existsb_elem in He as (p & Hp & _). eauto. }
  destruct (Hu p Hp) as (? & ? & ? & ?). exists q, actual, p. done.
Qed.

Lemma resolution_get_id c id r : resolution_get c id = Some r -> Catalog.profile_id (Catalog.profile r) = id.
Proof. unfold resolution_get. intros [_ H]%find_some. by bool_to_prop. Qed.

(** What makes a host one that automation may start on. *)
Definition may_start (o : Observed) (inv : list QUADSHost) (h : string) : Prop :=
  h ∉ exclude_hosts cfg /\ (only_hosts cfg = [] \/ h ∈ only_hosts cfg) /\
  h ∈ ob_available o /\ h ∉ ob_moves o /\ h ∉ ob_suspended o /\
  exists q gpu p, q ∈ inv /\ name_of q = h /\ gpu_count q = 1 /\ _gpu_class profiles q = Some gpu /\
    p ∈ profiles /\ 0 < zget (ratios cfg) (Catalog.profile_id p) /\ gpu ∈ planned_classes cfg p /\
    is_Some (resolution_get (ob_resolution o) (Catalog.profile_id p)).

Lemma planned_in c q : q ∈ _planned_profiles cfg profiles c -> exists p, p ∈ profiles /\
  Planner.profile_id q = Catalog.profile_id p /\ weight q = zget (ratios cfg) (Catalog.profile_id p) /\
  Planner.gpu_classes q = planned_classes cfg p.
Proof.
  unfold _planned_profiles. intros (p & <- & Hp)%list_elem_of_In%in_map_iff. exists p. split; [by apply list_elem_of_In|done].
Qed.

Lemma planned_ids c : ids (_planned_profiles cfg profiles c) = Catalog.profile_id <$> profiles.
Proof. unfold ids, _planned_profiles. generalize profiles as l. induction l as [|p l IH]; cbn; [done|]. f_equal. exact IH. Qed.

(** An assigned profile has a positive weight. *)
Lemma plan_weighted ps held candidates plan a p : NoDup (ids ps) -> plan_placements ps held candidates = Ok plan ->
  a ∈ assignments plan -> p ∈ ps -> Planner.profile_id p = as_profile_id a -> 0 < weight p.
Proof.
  intros Hids Hplan Ha Hp Heq. destruct (Z.lt_ge_cases 0 (weight p)) as [|Hw]; [done|]. exfalso.
  destruct (plan_placements_sound ps held candidates plan Hids Hplan) as (_ & _ & Hs). specialize (Hs p Hp) as [Hle _].
  destruct (plan_shape ps held candidates Hids (plan_consistent _ _ _ _ Hplan)) as (asg & plan' & He & Ht & _).
  rewrite Hplan in He. injection He as <-. rewrite Ht in Hle. unfold targets_of in Hle.
  destruct (apportion_spec (dsum (held_counts_of ps held) + Z.of_nat (length (ordered_of candidates))) ps Hids) as (_ & _ & H0 & _).
  rewrite H0 in Hle by done. assert (1 <= given (Planner.profile_id p) (assignments plan))%nat; [|lia].
  rewrite Heq. clear -Ha. unfold given. apply list_elem_of_lookup in Ha as [i Hi].
  assert (a ∈ List.filter (fun x => bool_decide (as_profile_id x = as_profile_id a)) (assignments plan)) as Hin.
  { apply elem_of_filter_bool. split; [by eapply list_elem_of_lookup_2|by apply bool_decide_eq_true]. }
  destruct (List.filter _ _); [by apply not_elem_of_nil in Hin|cbn; lia].
Qed.

(** *** The pass as a whole *)

Notation act' := (act encode decode cfg profiles self_holder prefix others clock poller quads_stale_after stale_text moves_answer
  remote_lifecycle_processes power_state node_from_etcd fire_background fresh_id).

(** A retried claim's host passes the policy as a fresh one would. *)
Lemma retriable_may_start o now w st : retriable o now (_planned_profiles cfg profiles (ob_resolution o)) (hosts_by_name poller w) st ->
  Claim.hostname (claim st) ∉ ob_suspended o -> may_start o (_hosts (poller w)) (Claim.hostname (claim st)).
Proof.
  intros (Hd & Hm & Hp & Hr) Hs. unfold due in Hd. bool_to_prop.
  apply policy_None in Hp as (Hex & Hon & q & gpu & p & Hq & Hone & Hgpu & _ & (p' & Hp' & Hid & Hw & Hcl)%planned_in & Hpos & Hin & Heq).
  unfold may_start. split_and!; try done.
  apply fold_dset_get in Hq as [Hq|(q' & Hq' & Hn & Hqq)]; [done|]. subst q'.
  exists q, gpu, p'. rewrite <- Hw, <- Hcl, <- Hid. split_and!; try done. by rewrite (Heq _ eq_refl).
Qed.

(** The stages of a pass that did not raise. *)
Lemma act_shape o now w w' st : act' now o w = (w', Some st) ->
  let planned := _planned_profiles cfg profiles (ob_resolution o) in
  exists w2 settled wc ready held plan xs ys, let blocked := List.map Claim.hostname (List.map claim settled) ++ ob_unreadable o in
    settle_all' (ob_suspended o) (ob_available o) now (ob_claims o) w = (w2, Some settled) /\
    ready `sublist_of` omap (offered (ob_available o) (blocked ++ ob_suspended o) planned now (ob_moves o) wc)
      (sort_by (fun a b => String.leb (Quads.hostname a) (Quads.hostname b)) (_hosts (poller w2))) /\
    plan_placements planned held ready = Ok plan /\
    xs `sublist_of` settled /\ Forall (retriable o now planned (hosts_by_name poller w2)) xs /\
    ys `sublist_of` assignments plan /\ Forall (fun a => is_Some (resolution_get (ob_resolution o) (as_profile_id a))) ys /\
    st_started st = (Claim.hostname ∘ claim <$> xs) ++ (as_hostname <$> ys) /\
    (st_started st = [] \/ Z.of_nat (length (st_started st)) +
       Z.of_nat (length (List.filter (in_flight_here self_holder) (List.map claim settled))) <= max_concurrent cfg).
Proof.
  intros H planned. revert H. unfold act.
  destruct (settle_all' _ _ now (ob_claims o) w) as [w2 [settled|]] eqn:Hset; [|done].
  fold planned. set (blocked := List.map Claim.hostname (List.map claim settled) ++ _). unfold _candidates.
  match goal with |- context [candidates_loop cfg profiles ?a ?b planned now ?m ?hs ?w0] =>
    pose proof (candidates_loop_spec a b planned now m hs w0) as [Hc _];
    destruct (candidates_loop cfg profiles a b planned now m hs w0) as [w3 [cands sk]]; set (wc := w0) in * end.
  cbn [snd] in Hc. injection Hc as Hc _.
  set (budget := max_concurrent cfg - _).
  assert (exists w4 ready un, (if 0 <? budget then _ready_candidates cfg prefix others clock remote_lifecycle_processes power_state node_from_etcd cands w3
    else (w3, (cands, []))) = (w4, (ready, un)) /\ ready `sublist_of` cands) as (w4 & ready & un & -> & Hready).
  { destruct (0 <? budget); [|by exists w3, cands, []]. pose proof (ready_sublist cands w3) as Hr.
    destruct (_ready_candidates _ _ _ _ _ _ _ cands w3) as [w4 [ready un]]. by exists w4, ready, un. }
  destruct (plan_placements planned _ ready) as [plan|] eqn:Hplan; [|done].
  set (classes := fold_left _ ready []). set (p0 := mkProgress w4 budget [] _).
  destruct (while_budget_started (retry' o now planned (hosts_by_name poller w2)) (Claim.hostname ∘ claim)
    (retriable o now planned (hosts_by_name poller w2)) settled p0) as (xs & Hx1 & Hx2 & Hx3 & Hx4 & Hx5).
  { intros x p _. apply retry_started. }
  destruct (while_budget (retry' o now planned (hosts_by_name poller w2)) settled p0) as [p1 ok1]. cbn [fst] in *.
  destruct ok1; [|done]. cbn [negb].
  destruct (while_budget_started (place' o classes) as_hostname (fun a => is_Some (resolution_get (ob_resolution o) (as_profile_id a)))
    (assignments plan) p1) as (ys & Hy1 & Hy2 & Hy3 & Hy4 & Hy5).
  { intros a p _. apply place_started. }
  destruct (while_budget (place' o classes) (assignments plan) p1) as [p2 ok2]. cbn [fst] in *.
  destruct ok2; [|done]. cbn [negb]. destruct (request others (list_claims decode) (pr_world p2)) as [w5 [[final unr]|]]; [|done].
  intros [= <- <-]. assert (pr_started p2 = (Claim.hostname ∘ claim <$> xs) ++ (as_hostname <$> ys)) as Hst by (by rewrite Hy3, Hx3).
  eexists w2, settled, wc, ready, _, plan, xs, ys. cbn [st_started report]. subst cands.
  split_and!; [done|exact Hready|exact Hplan|exact Hx1|exact Hx2|exact Hy1|exact Hy2|exact Hst|].
  rewrite Hst, length_app, !length_fmap. unfold budget in *. cbn [pr_budget p0] in *.
  destruct Hx5 as [->|]; destruct Hy5 as [->|]; [by left|right; cbn [length] in *; lia..].
Qed.

Lemma act_starts o now w w' st : NoDup (Catalog.profile_id <$> profiles) -> NoDup (Claim.hostname ∘ claim <$> ob_claims o) ->
  act' now o w = (w', Some st) ->
  exists w2 settled, settle_all' (ob_suspended o) (ob_available o) now (ob_claims o) w = (w2, Some settled) /\
    Forall (may_start o (_hosts (poller w2))) (st_started st) /\ NoDup (st_started st) /\
    (st_started st = [] \/
     Z.of_nat (length (st_started st)) + Z.of_nat (length (List.filter (in_flight_here self_holder) (List.map claim settled))) <= max_concurrent cfg).
Proof.
  intros Hids Hnd Hact.
  destruct (act_shape _ _ _ _ _ Hact) as (w2 & settled & wc & ready & held & plan & xs & ys & Hset & Hready & Hplan & Hx & HPx & Hy & HPy & -> & Hb).
  destruct (settle_all_hosts _ _ _ _ _ settled (f_equal snd Hset)) as [Hsub Hsus].
  assert (NoDup (ids (_planned_profiles cfg profiles (ob_resolution o)))) as Hpid by by rewrite planned_ids.
  destruct (plan_placements_sound _ _ _ _ Hpid Hplan) as (Hand & Hass & _).
  assert (forall a, a ∈ ys -> may_start o (_hosts (poller w2)) (as_hostname a) /\ as_hostname a ∉ List.map Claim.hostname (List.map claim settled)) as Hys.
  { intros a Ha. assert (a ∈ assignments plan) as Hap by by eapply elem_of_sublist.
    destruct (Hass a Hap) as (c & p & Hc & Hp & Hh & Hid & Hcl & Hpl).
    eapply elem_of_sublist in Hc; [|exact Hready]. apply list_elem_of_omap in Hc as (q & Hq & Hoff).
    rewrite sort_by_perm in Hq. apply offered_spec in Hoff as (Hname & Hgpu & Hbl & Hpol & Hnn).
    apply not_now_None in Hnn as (Hav & Hmv & _). apply policy_None in Hpol as (Hex & Hon & q' & actual & _ & Hqq & Hone & _).
    injection Hqq as <-. pose proof (plan_weighted _ _ _ _ a p Hpid Hplan Hap Hp Hid) as Hw.
    apply planned_in in Hp as (p' & Hp' & Hid' & Hw' & Hcl'). rewrite <- Hh, Hname in *. split; [|set_solver].
    unfold may_start. split_and!; try done; [set_solver|]. exists q, (Planner.gpu_class c), p'.
    rewrite <- Hcl', <- Hw', <- Hid', Hid. split_and!; try done. rewrite Forall_forall in HPy. by apply HPy. }
  exists w2, settled. split_and!; [done| | |done].
  - apply Forall_app. split; apply Forall_fmap, Forall_forall; [|intros a Ha; by apply Hys].
    intros st0 Hst0. rewrite Forall_forall in HPx. apply retriable_may_start with (now := now); [by apply HPx|].
    apply Hsus. by eapply elem_of_sublist.
  - apply NoDup_app. split_and!.
    + eapply sublist_NoDup; [exact Hnd|]. etrans; [by apply fmap_sublist|done].
    + intros h (st0 & -> & Hst0)%list_elem_of_fmap (a & Heq & Ha)%list_elem_of_fmap. apply (proj2 (Hys a Ha)). rewrite <- Heq.
      cbn. apply list_elem_of_In, in_map, in_map, list_elem_of_In. by eapply elem_of_sublist.
    + eapply sublist_NoDup; [exact Hand|]. by apply fmap_sublist.
Qed.

Context (available_answer : RWorld S E -> option json) (scan : RWorld S E -> result string (list GGUFArtifact)).
Context (etcd_error : string).
Notation observe' := (observe decode cfg profiles self_holder others clock poller quads_stale_after stale_text available_answer
  moves_answer scan etcd_error).

Lemma observe_claims `{!EtcdLaws S} now w w1 o : observe' now w = (w1, Ok o) -> NoDup (Claim.hostname ∘ claim <$> ob_claims o).
Proof.
  unfold observe. destruct (scan w) as [artifacts|]; [|done].
  destruct (request others list_suspended (others w)) as [w2 [suspended|]]; [|done].
  unfold request. set (s0 := rstore (others w2)). unfold list_claims.
  destruct (range_law s0 CLAIM_PREFIX) as (_ & _ & Hl). destruct (read_prefix s0 CLAIM_PREFIX) as [s1 [l|]]; [|done].
  cbn [fmap option_fmap option_map]. destruct (Hl l eq_refl) as [Hnd Hin].
  destruct (sort_claims_hosts decode l Hnd) as [Hs _]; [by intros k v [? _]%Hin|].
  destruct (sort_claims decode l) as [claims unreadable]. cbn [fst] in Hs.
  repeat case_match; intros; simplify_eq; done.
Qed.

Lemma observe_failed now w w1 st : observe' now w = (w1, Err st) ->
  st_started st = [] /\ st_targets st = [] /\ exists e m c, st = failed cfg self_holder now e m c.
Proof. unfold observe, request. intros H. repeat case_match; simplify_eq; eauto 10. Qed.
End pass_facts.

(** C5: what one placement pass starts.  Whatever other gateways and threads do
    meanwhile, a pass either ends with its first reads and starts nothing, or
    it starts distinct hosts only, no more of them than the concurrency limit
    leaves beside this gateway's provisions in flight, and each of them is
    allowed by the exclusion and inclusion lists, free for the whole QUADS
    window, without a pending move, not suspended, and an inventory host with
    exactly one GPU of a class for which a resolved profile has a positive
    ratio and, when required, a qualification.  This covers retries of failed
    claims as well as fresh placements. *)
Theorem pass_starts_safely {S E} `{!Etcd S, !EtcdLaws S} (encode : Claim.t -> blob) (decode : blob -> option Claim.t)
  (cfg : PassSettings) (profiles : list ModelProfile) (self_holder prefix : string) (others : RWorld S E -> RWorld S E)
  clock poller quads_stale_after stale_text available_answer moves_answer scan remote_lifecycle_processes power_state node_from_etcd
  fire_background fresh_id etcd_error (w w' : RWorld S E) st :
  NoDup (Catalog.profile_id <$> profiles) ->
  _reconcile encode decode cfg profiles self_holder prefix others clock poller quads_stale_after stale_text available_answer moves_answer scan
    remote_lifecycle_processes power_state node_from_etcd fire_background fresh_id etcd_error w = (w', Some st) ->
  let seen := observe decode cfg profiles self_holder others clock poller quads_stale_after stale_text available_answer
    moves_answer scan etcd_error (clock w) (with_refused ∅ w) in
  match snd seen with
  | Err st' => st = st' /\ st_started st = []
  | Ok o => exists w2 settled,
      settle_all encode cfg self_holder prefix others (ob_suspended o) (ob_available o) (clock w) (ob_claims o) (fst seen) = (w2, Some settled) /\
      Forall (may_start cfg profiles o (_hosts (poller w2))) (st_started st) /\ NoDup (st_started st) /\
      (st_started st = [] \/ Z.of_nat (length (st_started st)) +
         Z.of_nat (length (List.filter (in_flight_here self_holder) (List.map claim settled))) <= max_concurrent cfg)
  end.
Proof.
  intros Hids. unfold _reconcile. cbn zeta.
  destruct (observe _ _ _ _ _ _ _ _ _ _ _ _ _ (clock w) (with_refused ∅ w)) as [w1 [o|e]] eqn:Ho; cbn [fst snd].
  - intros Hact. apply act_starts in Hact; [exact Hact|done|by eapply observe_claims].
  - intros [= <- <-]. split; [done|]. by eapply observe_failed.
Qed.

(** ** A pass that cannot see starts nothing *)

Section outage.
Context {S E : Type} `{!Etcd S, !EtcdLaws S}.
Context (decode : blob -> option Claim.t).
Context (cfg : PassSettings) (profiles : list ModelProfile) (self_holder : string).
Context (others : RWorld S E -> RWorld S E).
Context (clock : RWorld S E -> Z) (poller : RWorld S E -> QUADSPoller).
Context (quads_stale_after : Z) (stale_text : Z -> Z -> string).
Context (available_answer moves_answer : RWorld S E -> option json).
Context (scan : RWorld S E -> result string (list GGUFArtifact)) (etcd_error : string).

(** Something the pass must read is unavailable or too old throughout. *)
Definition blind : Prop :=
  (forall w, is_ok (scan w) = false) \/
  (forall s : S, snd (list_suspended s) = None) \/ (forall s : S, snd (list_claims decode s) = None) \/
  (forall w, is_Some (stale_reason clock poller quads_stale_after stale_text w)) \/
  (forall w, is_ok (Quads.get_available (available_answer w)) = false) \/
  (forall w, is_ok (Quads.get_pending_moves (moves_answer w)) = false).

Notation observe' := (observe decode cfg profiles self_holder others clock poller quads_stale_after stale_text available_answer
  moves_answer scan etcd_error).

Lemma blind_fails now w : blind -> exists w1 st, observe' now w = (w1, Err st).
Proof.
  intros Hb. destruct (observe' now w) as [w1 [o|st]] eqn:Ho; [|eauto]. exfalso. revert Ho. unfold observe, request, pending_moves.
  destruct (scan w) as [a|] eqn:H1; [|done]. destruct (list_suspended (rstore (others (others w)))) as [s1 [sus|]] eqn:H2; [|done].
  set (w2 := others (with_store s1 _)). destruct (list_claims decode (rstore (others w2))) as [s2 [[cs un]|]] eqn:H3; [|done].
  set (w3 := others (with_store s2 _)). destruct (stale_reason _ _ _ _ w3) eqn:H4; [done|].
  destruct (Quads.get_available (available_answer w3)) as [av|] eqn:H5; [|done].
  destruct (Quads.get_pending_moves (moves_answer (others w3))) as [mv|] eqn:H6; [|done]. intros _.
  destruct Hb as [Hb|[Hb|[Hb|[Hb|[Hb|Hb]]]]].
  - specialize (Hb w). by rewrite H1 in Hb.
  - specialize (Hb (rstore (others (others w)))). by rewrite H2 in Hb.
  - specialize (Hb (rstore (others w2))). by rewrite H3 in Hb.
  - destruct (Hb w3) as [r Hr]. congruence.
  - specialize (Hb w3). by rewrite H5 in Hb.
  - specialize (Hb (others w3)). by rewrite H6 in Hb.
Qed.

(** Reading changes nothing the others leave alone. *)
Lemma observe_reads (I : RWorld S E -> Prop) now w :
  (forall w, I w -> I (others w)) -> (forall s w, (forall k, lookup_kv s k = lookup_kv (rstore w) k) -> I w -> I (with_store s w)) ->
  I w -> I (fst (observe' now w)).
Proof.
  intros Ho Hs Hw.
  assert (forall A (f : S -> S * A) w, (forall s k, lookup_kv (fst (f s)) k = lookup_kv s k) -> I w -> I (fst (request others f w))) as Hreq.
  { intros A f w0 Hf Hw0. unfold request. specialize (Hf (rstore (others w0))). destruct (f (rstore (others w0))) as [s a].
    cbn [fst] in *. by apply Ho, Hs, Ho. }
  assert (forall (s : S) k, lookup_kv (fst (list_suspended s)) k = lookup_kv s k) as Hls.
  { intros s k. unfold list_suspended. destruct (range_law s SUSPENSION_PREFIX) as [Hk _]. by destruct (read_prefix s SUSPENSION_PREFIX). }
  assert (forall (s : S) k, lookup_kv (fst (list_claims decode s)) k = lookup_kv s k) as Hlc.
  { intros s k. unfold list_claims. destruct (range_law s CLAIM_PREFIX) as [Hk _]. by destruct (read_prefix s CLAIM_PREFIX). }
  unfold observe. destruct (scan w) as [a|]; [|by apply Ho].
  pose proof (Hreq _ list_suspended (others w) Hls (Ho _ Hw)) as H1.
  destruct (request others list_suspended (others w)) as [w1 [sus|]]; [|done]. cbn [fst] in H1.
  pose proof (Hreq _ (list_claims decode) w1 Hlc H1) as H2.
  destruct (request others (list_claims decode) w1) as [w2 [[cs un]|]]; [|done]. cbn [fst] in H2.
  destruct (stale_reason _ _ _ _ w2); [done|]. destruct (Quads.get_available _); [|by apply Ho].
  destruct (pending_moves _ _); by apply Ho, Ho.
Qed.
End outage.

(** A pass fails closed.  When the artifact cache, the suspensions, the
    claims, the QUADS availability or the pending moves cannot be read, or the
    inventory is stale, the pass returns a status that carries the reason,
    starts nothing, and changes neither etcd nor the registry: whatever of
    them the others leave alone is as it was. *)
Theorem pass_fails_closed {S E} `{!Etcd S, !EtcdLaws S} (encode : Claim.t -> blob) (decode : blob -> option Claim.t)
  (cfg : PassSettings) (profiles : list ModelProfile) (self_holder prefix : string) (others : RWorld S E -> RWorld S E)
  clock poller quads_stale_after stale_text available_answer moves_answer scan remote_lifecycle_processes power_state node_from_etcd
  fire_background fresh_id etcd_error (w : RWorld S E) :
  blind decode clock poller quads_stale_after stale_text available_answer moves_answer scan ->
  let out := _reconcile encode decode cfg profiles self_holder prefix others clock poller quads_stale_after stale_text available_answer moves_answer scan
    remote_lifecycle_processes power_state node_from_etcd fire_background fresh_id etcd_error w in
  (exists e m c, snd out = Some (failed cfg self_holder (clock w) e m c)) /\
  (forall k P, standing others k P -> P (lookup_kv (rstore w) k) -> P (lookup_kv (rstore (fst out)) k)) /\
  (forall (P : NodeRegistry E -> Prop), (forall w, P (rreg w) -> P (rreg (others w))) -> P (rreg w) -> P (rreg (fst out))).
Proof.
  intros Hb. cbn zeta. unfold _reconcile.
  destruct (blind_fails decode cfg profiles self_holder others clock poller quads_stale_after stale_text available_answer moves_answer scan
    etcd_error (clock w) (with_refused ∅ w) Hb) as (w1 & st & Ho).
  pose proof (fun I => observe_reads decode cfg profiles self_holder others clock poller quads_stale_after stale_text available_answer moves_answer scan
    etcd_error I (clock w) (with_refused ∅ w)) as Hr.
  rewrite Ho in *. cbn [fst snd] in *. split_and!.
  - apply observe_failed in Ho as (_ & _ & e & m & c & ->). eauto.
  - intros k P HP Hk. apply (Hr (fun w => P (lookup_kv (rstore w) k))); [done| |done]. intros s w0 Hs. cbn. by rewrite Hs.
  - intros P HP Hk. apply (Hr (fun w => P (rreg w))); done.
Qed.

(** ** A person's node during a pass *)

Lemma while_budget_inv {S E A} (I : Progress (S := S) (E := E) -> Prop) (step : A -> Progress -> Progress * bool) l p :
  (forall x p, I p -> I (fst (step x p))) -> I p -> I (fst (while_budget step l p)).
Proof.
  intros Hs. revert p. induction l as [|x l IH]; intros p Hp; cbn [while_budget]; [done|].
  case_match; [done|]. pose proof (Hs x p Hp) as H1. destruct (step x p) as [p1 []]; [by apply IH|done].
Qed.

Section people.
Context {S E : Type} `{!Etcd S}.
Context (encode : Claim.t -> blob) (decode : blob -> option Claim.t).
Context (cfg : PassSettings) (profiles : list ModelProfile) (self_holder prefix : string).
Context (others : RWorld S E -> RWorld S E).
Context (clock : RWorld S E -> Z) (poller : RWorld S E -> QUADSPoller).
Context (quads_stale_after : Z) (stale_text : Z -> Z -> string).
Context (moves_answer : RWorld S E -> option json).
Context (remote_lifecycle_processes : string -> RWorld S E -> result string (list string)).
Context (power_state : string -> RWorld S E -> result string string).
Context (node_from_etcd : string -> blob -> option Node).
Context (fire_background : string -> Claim.t -> RWorld S E -> Scheduling).
Context (fresh_id : string -> RWorld S E -> string).
Context (h : string) (n : Node).
Context (others_keep : forall w : RWorld S E, registered h n w -> registered h n (others w)).
Context (Hown : forall c, clearable h n c) (Hfree : _is_free_pool_node n = false).

Implicit Types (w : RWorld S E).
Notation kept := (registered h n).
Notation launch' := (launch encode decode cfg self_holder prefix others clock poller quads_stale_after stale_text moves_answer
  remote_lifecycle_processes power_state node_from_etcd fire_background fresh_id).

(** The invariant of both launch loops. *)
Definition untouched (p : Progress (S := S) (E := E)) : Prop := kept (pr_world p) /\ h ∉ pr_started p.

Lemma launch_untouched r host gpu existing fallback p :
  (forall e, existing = Some e -> host = Claim.hostname (claim e)) -> untouched p ->
  untouched (fst (after_launch host fallback p (launch' r host gpu existing (pr_world p)))).
Proof.
  intros He [Hw Hs]. unfold launch.
  pose proof (launch_keeps encode decode (launch_settings cfg) self_holder prefix others h n others_keep clock (last_sync poller)
    quads_stale_after stale_text (pending_moves moves_answer) remote_lifecycle_processes power_state node_from_etcd fire_background
    (launch_profile (reserve_mib cfg) r) host gpu (fresh_id host (pr_world p)) existing (pr_world p)) as [H1 H2]; [|done|].
  { intros ->. cbn. rewrite Hfree. destruct existing as [e|]; [|done]. apply Hown. symmetry. by apply He. }
  destruct (_launch _ _ _ _ _ _ _ _ _ _ _ _ _ _ _ _ _ _ _ _ _) as [w1 [[]|]]; cbn [fst snd] in *; [| |done].
  - split; [done|]. cbn. apply not_elem_of_app. split; [done|]. intros ->%list_elem_of_singleton. by apply H2.
  - cbn. destruct (_refused w1 !! host); [done|]. destruct (fallback w1); done.
Qed.

Lemma settle_all_keeps suspended available now claims w : kept w ->
  kept (fst (settle_all encode cfg self_holder prefix others suspended available now claims w)).
Proof.
  revert w. induction claims as [|st claims IH]; intros w Hw; cbn [settle_all]; [done|].
  assert (kept (fst (if bool_decide (Claim.hostname (claim st) ∈ suspended)
    then if is_none (get (rreg w) (Claim.hostname (claim st)))
         then let '(w, r) := _drop others st w in (w, match r with Some _ => Some [] | None => None end)
         else (w, Some [])
    else let '(w, r) := _settle_claim encode (launch_settings cfg) self_holder prefix others st available now w in (w, option_list <$> r)))) as H1.
  { case_bool_decide.
    - destruct (is_none _); [|done]. pose proof (drop_keeps others h n others_keep st w Hw). by destruct (_drop others st w).
    - pose proof (settle_keeps encode (launch_settings cfg) self_holder prefix others h n others_keep st available now w (Hown _) Hw).
      by destruct (_settle_claim _ _ _ _ _ st available now w). }
  destruct (if bool_decide _ then _ else _) as [w1 [k|]]; [|done]. cbn [fst] in H1.
  specialize (IH w1 H1). by destruct (settle_all _ _ _ _ _ _ _ _ claims w1).
Qed.

Lemma candidates_keeps available blocked planned now moves w : kept w ->
  kept (fst (_candidates cfg profiles poller available blocked planned now moves w)).
Proof.
  intros Hw. unfold _candidates. set (hs := sort_by _ _). set (w0 := with_deferred _ w).
  assert (kept w0) as Hw0 by done. clearbody hs w0. revert w0 Hw0.
  induction hs as [|q hs IH]; intros w0 Hw0; cbn [candidates_loop]; [done|].
  destruct (_gpu_class profiles q); [|by apply IH]. case_bool_decide; [by apply IH|].
  destruct (match _policy_refusal _ _ _ _ _ _ _ _ with Some r => _ | None => _ end).
  - specialize (IH w0 Hw0). by destruct (candidates_loop _ _ _ _ _ _ _ hs w0) as [? []].
  - specialize (IH (undefer (canonical_hostname (Quads.hostname q)) w0) Hw0). by destruct (candidates_loop _ _ _ _ _ _ _ hs _) as [? []].
Qed.

Lemma ready_keeps candidates w : kept w ->
  kept (fst (_ready_candidates cfg prefix others clock remote_lifecycle_processes power_state node_from_etcd candidates w)).
Proof.
  revert w. induction candidates as [|c l IH]; intros w Hw; cbn [_ready_candidates]; [done|].
  assert (kept (fst (check cfg prefix others clock remote_lifecycle_processes power_state node_from_etcd c (others w)))) as H1.
  { unfold check. destruct (in_progress _ _); [by apply others_keep|]. destruct (negb _); [by apply others_keep|].
    pose proof (launch_blocker_keeps prefix others h n others_keep remote_lifecycle_processes power_state node_from_etcd
      (Planner.hostname c) None (others w) (others_keep w Hw)) as H1.
    destruct (_launch_blocker _ _ _ _ _ _ _ _) as [w1 [b|]]; [done|]. by destruct (negb _). }
  destruct (check _ _ _ _ _ _ _ c (others w)) as [w1 r]. specialize (IH w1 H1).
  by destruct (_ready_candidates _ _ _ _ _ _ _ l w1) as [w2 [? ?]].
Qed.

Lemma retry_untouched o now planned hosts st p : untouched p ->
  untouched (fst (retry encode decode cfg profiles self_holder prefix others clock poller quads_stale_after stale_text moves_answer
    remote_lifecycle_processes power_state node_from_etcd fire_background fresh_id o now planned hosts st p)).
Proof.
  intros Hp. unfold retry. destruct (negb _); [done|]. case_bool_decide; [done|].
  destruct (_policy_refusal _ _ _ _ _ _ _ _).
  - destruct Hp as [Hw Hs]. pose proof (release_failed_keeps prefix others h n others_keep st (pr_world p) (Hown _) Hw) as H1.
    destruct (_release_failed_claim prefix others st (pr_world p)) as [w1 [[]|]]; done.
  - destruct (resolution_get _ _); [|done]. apply launch_untouched; [|done]. by intros e [= <-].
Qed.

Lemma place_untouched o classes a p : untouched p ->
  untouched (fst (place encode decode cfg self_holder prefix others clock poller quads_stale_after stale_text moves_answer
    remote_lifecycle_processes power_state node_from_etcd fire_background fresh_id o classes a p)).
Proof.
  intros Hp. unfold place. destruct (resolution_get _ _); [|done]. destruct (dget _ _); [|done]. by apply launch_untouched.
Qed.

Lemma act_keeps now o w w' r : kept w ->
  act encode decode cfg profiles self_holder prefix others clock poller quads_stale_after stale_text moves_answer
    remote_lifecycle_processes power_state node_from_etcd fire_background fresh_id now o w = (w', r) ->
  kept w' /\ forall st, r = Some st -> h ∉ st_started st.
Proof.
  intros Hw. unfold act.
  pose proof (settle_all_keeps (ob_suspended o) (ob_available o) now (ob_claims o) w Hw) as H1.
  destruct (settle_all _ _ _ _ _ _ _ _ _ w) as [w1 [settled|]]; cbn [fst] in H1; [|by intros [= <- <-]].
  match goal with |- context [_candidates ?a ?b ?c ?d ?e ?f ?g ?i w1] => pose proof (candidates_keeps d e f g i w1 H1) as H2;
    destruct (_candidates a b c d e f g i w1) as [w2 [cands sk]] end. cbn [fst] in H2.
  assert (forall c, kept (fst (if (0 <? c) then _ready_candidates cfg prefix others clock remote_lifecycle_processes power_state node_from_etcd cands w2
    else (w2, (cands, []))))) as H3 by (intros c; destruct (0 <? c); [by apply ready_keeps|done]).
  match goal with |- context [if 0 <? ?c then _ else _] => specialize (H3 c); set (budget := c) in * end.
  destruct (if 0 <? budget then _ else _) as [w3 [ready un]]. cbn [fst] in H3.
  destruct (plan_placements _ _ ready); [|by intros [= <- <-]].
  match goal with |- context [while_budget ?st settled ?p0] =>
    pose proof (while_budget_inv untouched st settled p0) as H4; destruct (while_budget st settled p0) as [p1 ok1] end.
  cbn [fst] in H4. destruct H4 as [H4 H4']; [intros; by apply retry_untouched|split; [done|apply not_elem_of_nil]|].
  destruct ok1; [|by intros [= <- <-]]. cbn [negb].
  match goal with |- context [while_budget ?st (assignments ?pl) p1] =>
    pose proof (while_budget_inv untouched st (assignments pl) p1) as H5; destruct (while_budget st (assignments pl) p1) as [p2 ok2] end.
  cbn [fst] in H5. destruct H5 as [H5 H5']; [intros; by apply place_untouched|done|].
  destruct ok2; [|by intros [= <- <-]]. cbn [negb].
  pose proof (request_keeps others h n others_keep (list_claims decode) (pr_world p2) H5) as H6.
  destruct (request others (list_claims decode) (pr_world p2)) as [w6 [[final unr]|]]; intros [= <- <-]; [|done].
  split; [done|]. by intros st [= <-].
Qed.
End people.

(** A pass leaves a person's node alone.  If node [n] of host [h] is
    neither an untouched pool host nor the failed node of a claim, and nobody
    else changes its registration, then it is still registered when the pass
    ends, also when the pass ends in an exception, and the pass does not start
    a provision on [h]. *)
Theorem pass_leaves_people {S E} `{!Etcd S, !EtcdLaws S} (encode : Claim.t -> blob) (decode : blob -> option Claim.t)
  (cfg : PassSettings) (profiles : list ModelProfile) (self_holder prefix : string) (others : RWorld S E -> RWorld S E)
  clock poller quads_stale_after stale_text available_answer moves_answer scan remote_lifecycle_processes power_state node_from_etcd
  fire_background fresh_id etcd_error (h : string) (n : Node) (w : RWorld S E) :
  (forall w, get (rreg w) h = Some n -> get (rreg (others w)) h = Some n) ->
  (forall c, Claim.hostname c = h -> _is_own_failed_node n c = false) -> _is_free_pool_node n = false ->
  get (rreg w) h = Some n ->
  let out := _reconcile encode decode cfg profiles self_holder prefix others clock poller quads_stale_after stale_text available_answer moves_answer scan
    remote_lifecycle_processes power_state node_from_etcd fire_background fresh_id etcd_error w in
  get (rreg (fst out)) h = Some n /\ forall st, snd out = Some st -> h ∉ st_started st.
Proof.
  intros Ho Hown Hfree Hw. cbn zeta. unfold _reconcile.
  pose proof (observe_reads decode cfg profiles self_holder others clock poller quads_stale_after stale_text available_answer moves_answer scan
    etcd_error (registered h n) (clock w) (with_refused ∅ w) Ho (fun s w _ H => H) Hw) as H1.
  destruct (observe _ _ _ _ _ _ _ _ _ _ _ _ _ (clock w) (with_refused ∅ w)) as [w1 [o|st]] eqn:Hob; cbn [fst snd] in *.
  - destruct (act _ _ _ _ _ _ _ _ _ _ _ _ _ _ _ _ _ (clock w) o w1) as [w2 r] eqn:Hact.
    apply (act_keeps _ _ _ _ _ _ _ _ _ _ _ _ _ _ _ _ _ h n Ho Hown Hfree) in Hact; done.
  - split; [done|]. intros st0 [= <-]. apply observe_failed in Hob as (-> & _). apply not_elem_of_nil.
Qed.

Lemma foldl_undefer {S E} cands (w : RWorld S E) :
  let w' := foldl (fun w c => undefer (Planner.hostname c) w) w cands in
  rreg w' = rreg w /\ rstore w' = rstore w /\ busy w' = busy w /\
  forall h, _deferred w' !! h = if decide (h ∈ Planner.hostname <$> cands) then None else _deferred w !! h.
Proof.
  revert w. induction cands as [|c l IH]; intros w; cbn [foldl].
  { done. }
  destruct (IH (undefer (Planner.hostname c) w)) as (H1 & H2 & H3 & H4). split_and!; try done. intros h. rewrite H4. cbn.
  destruct (decide (h = Planner.hostname c)) as [->|]; [rewrite lookup_delete_eq|rewrite lookup_delete_ne by done];
    repeat case_decide; set_solver.
Qed.

(** The candidates of a pass.  Every inventory entry whose GPU the catalog
    knows and whose host is not already claimed, unreadable or suspended is
    either offered to the planner, exactly when the policy accepts it, it is
    free for the window, has no pending move, no foreign node record, no
    lifecycle operation and no refusal that is still running, or reported
    with the first reason that stands against it; in the order of the host
    names.  Refusals of offered hosts and of hosts that left the inventory are
    forgotten, all others are kept. *)
Theorem candidates_exact {S E} (cfg : PassSettings) (profiles : list ModelProfile) (poller : RWorld S E -> QUADSPoller)
  available blocked planned now moves (w : RWorld S E) :
  let hosts := sort_by (fun a b => String.leb (Quads.hostname a) (Quads.hostname b)) (_hosts (poller w)) in
  let '(w', (cands, skipped)) := _candidates cfg profiles poller available blocked planned now moves w in
  let judge := verdict cfg profiles available blocked planned now moves w in
  cands = omap (fun q => match judge q with Some (inr gpu) => Some {| Planner.hostname := name_of q; Planner.gpu_class := gpu |} | _ => None end) hosts /\
  skipped = omap (fun q => match judge q with Some (inl r) => Some (mkSkipped (name_of q) r) | _ => None end) hosts /\
  (forall q gpu, judge q = Some (inr gpu) <->
     _gpu_class profiles q = Some gpu /\ name_of q ∉ blocked /\
     _policy_refusal cfg profiles (name_of q) (Some q) planned None None None = None /\
     name_of q ∈ available /\ name_of q ∉ moves /\
     (forall n, get (rreg w) (name_of q) = Some n -> _is_free_pool_node n = true) /\ name_of q ∉ busy w /\
     (forall again why, _deferred w !! name_of q = Some (again, why) -> again <= now)) /\
  rreg w' = rreg w /\ rstore w' = rstore w /\ busy w' = busy w /\
  (forall h, _deferred w' !! h = if decide (h ∈ inventory poller w /\ h ∉ Planner.hostname <$> cands) then _deferred w !! h else None).
Proof.
  intros hosts. unfold _candidates. fold hosts. set (known := inventory poller w). set (wc := with_deferred _ w).
  destruct (candidates_loop_spec cfg profiles available blocked planned now moves hosts wc) as [H1 H2].
  destruct (candidates_loop _ _ _ _ _ _ _ hosts wc) as [w' [cands skipped]]. cbn [fst snd] in *. injection H1 as H1 H1'.
  assert (forall q, q ∈ hosts -> verdict cfg profiles available blocked planned now moves wc q = verdict cfg profiles available blocked planned now moves w q) as Hv.
  { intros q Hq. unfold verdict, not_now. change (taken (name_of q) wc) with (taken (name_of q) w).
    change (in_progress (name_of q) wc) with (in_progress (name_of q) w).
    assert (_deferred wc !! name_of q = _deferred w !! name_of q) as ->; [|done].
    unfold wc. cbn. rewrite map_lookup_filter. destruct (_deferred w !! name_of q); cbn; [|done]. rewrite option_guard_True; [done|].
    unfold known, inventory. unfold hosts in Hq. rewrite sort_by_perm in Hq. apply list_elem_of_In, in_map_iff. exists q.
    split; [done|by apply list_elem_of_In]. }
  cbn zeta. split_and!.
  - rewrite H1. apply omap_same. intros q Hq. unfold offered. by rewrite Hv.
  - rewrite H1'. apply omap_same. intros q Hq. unfold refused. by rewrite Hv.
  - intros q gpu. unfold verdict. pose proof (not_now_None available moves now (name_of q) w) as Hn.
    assert ((taken (name_of q) w = None <-> forall n, get (rreg w) (name_of q) = Some n -> _is_free_pool_node n = true) /\
      (in_progress (name_of q) w = false <-> name_of q ∉ busy w)) as [Ht Hi].
    { unfold taken, in_progress. split; [|apply bool_decide_eq_false]. destruct (get _ _) as [n|]; [|done].
      destruct (_is_free_pool_node n) eqn:Hf; split; try done.
      - by intros _ m [= <-].
      - intros Hall. specialize (Hall n eq_refl). congruence. }
    rewrite Ht, Hi in Hn. clear -Hn. destruct (_gpu_class profiles q) as [g|]; [|split; [done|by intros [? _]]].
    case_bool_decide; [split; [done|by intros (_ & ? & _)]|].
    destruct (_policy_refusal _ _ _ _ _ _ _ _); [split; [done|by intros (_ & _ & ? & _)]|].
    destruct (not_now _ _ _ _ _); (split; [|intros (Hg & _ & _ & Hall); apply Hn in Hall; congruence]); [done|].
    intros [= <-]. do 3 (split; [done|]). by apply Hn.
  - rewrite H2. by destruct (foldl_undefer (omap (offered cfg profiles available blocked planned now moves wc) hosts) wc) as (-> & _).
  - rewrite H2. by destruct (foldl_undefer (omap (offered cfg profiles available blocked planned now moves wc) hosts) wc) as (_ & -> & _).
  - rewrite H2. by destruct (foldl_undefer (omap (offered cfg profiles available blocked planned now moves wc) hosts) wc) as (_ & _ & -> & _).
  - intros h. rewrite H2. destruct (foldl_undefer (omap (offered cfg profiles available blocked planned now moves wc) hosts) wc) as (_ & _ & _ & ->).
    rewrite <- H1. unfold wc. cbn. rewrite map_lookup_filter. destruct (_deferred w !! h) as [v|]; cbn; [|by repeat case_decide].
    destruct (decide (h ∈ known)) as [Hk|Hk]; [rewrite option_guard_True by done|rewrite option_guard_False by done];
      clear -Hk; repeat case_decide; tauto.
Qed.

(** ** Concrete passes *)

Definition ex_cfg : PassSettings :=
  mkPass ex_settings true [("qwen3.8-27b-24g", 9); ("qwen3.6-35b-a3b-24g", 2)] 256 2 true ["h9"] [].
Definition ex_inventory : QUADSPoller :=
  mkPoller [mkHost "H1." "NVIDIA" "NVIDIA Corporation AD104GL [L4]" 1; mkHost "h2" "NVIDIA" "NVIDIA Corporation AD104GL [L4]" 4] [] (Some (seconds 90)) 0.

(** A pass over two hosts, one with four GPUs; [lose] tells which etcd replies
    are lost, [moves] what QUADS answers about pending moves. *)
Definition ex_pass (moves : option json) (lose : list bool) (nodes : list (string * Node))
  : RWorld MapStore unit * option PlacementStatus :=
  _reconcile ex_encode ex_decode ex_cfg BUILTIN_PROFILES ex_gateway_id "/nodes/" (fun w => w) (fun _ => seconds 100) (fun _ => ex_inventory)
    (seconds 900) (fun _ _ => "stale") (fun _ => Some (JList [JStr "h1"; JStr "h2"])) (fun _ => moves) (fun _ => Ok [ex_artifact])
    (fun _ _ => Ok []) (fun _ _ => Ok "On") (fun _ _ => None) (fun _ _ _ => Scheduled) (fun _ _ => ex_id) "etcd is down"
    (ex_rworld (ex_claims [] lose) nodes).

Definition started_of (out : RWorld MapStore unit * option PlacementStatus) : option (list string) := st_started <$> snd out.

(** [reconcile_once] promises never to raise for an expected outage, but
    only its first reads are guarded.  Here etcd loses its last reply: the
    pass has claimed [h1] and handed its provision to the background, and then
    raises, so the reported status is still the one from before the pass and
    says nothing of the provision it started. *)
Theorem late_outage_raises :
  let out := ex_pass (Some (JList [])) [false; false; false; false; false; false; true] [] in
  let before := failed ex_cfg ex_gateway_id 0 "QUADS inventory has not synchronized yet" [] [] in
  snd out = None /\
  (Claim.state ∘ claim ∘ stored <$> _owned (fst out) !! "h1") = Some Claim.PROVISIONING /\
  is_Some (lookup_kv (rstore (fst out)) (claim_key "h1")) /\
  reconcile_once ex_encode ex_decode ex_cfg BUILTIN_PROFILES ex_gateway_id "/nodes/" (fun w => w) (fun _ => seconds 100) (fun _ => ex_inventory)
    (seconds 900) (fun _ _ => "stale") (fun _ => Some (JList [JStr "h1"; JStr "h2"])) (fun _ => Some (JList [])) (fun _ => Ok [ex_artifact])
    (fun _ _ => Ok []) (fun _ _ => Ok "On") (fun _ _ => None) (fun _ _ _ => Scheduled) (fun _ _ => ex_id) "etcd is down"
    before (ex_rworld (ex_claims [] [false; false; false; false; false; false; true]) []) = (fst out, before, false).
Proof. cbn zeta. split_and!; [vm_compute; reflexivity|vm_compute; reflexivity|vm_compute; eauto|vm_compute; reflexivity]. Qed.

Lemma ex_profiles_distinct : NoDup (Catalog.profile_id <$> BUILTIN_PROFILES).
Proof. by apply (bool_decide_unpack _). Qed.

Lemma pass_starts_safely_witness :
  started_of (ex_pass (Some (JList [])) [] []) = Some ["h1"] /\ NoDup ["h1"] /\ "h1" ∉ exclude_hosts ex_cfg.
Proof.
  split; [vm_compute; reflexivity|].
  destruct (ex_pass (Some (JList [])) [] []) as [w' [st|]] eqn:Hrun; [|exfalso; by vm_compute in Hrun].
  assert (st_started st = ["h1"]) as Hst by (vm_compute in Hrun; injection Hrun as _ <-; reflexivity).
  pose proof (pass_starts_safely ex_encode ex_decode ex_cfg BUILTIN_PROFILES ex_gateway_id "/nodes/" (fun w => w) (fun _ => seconds 100) (fun _ => ex_inventory)
    (seconds 900) (fun _ _ => "stale") (fun _ => Some (JList [JStr "h1"; JStr "h2"])) (fun _ => Some (JList [])) (fun _ => Ok [ex_artifact])
    (fun _ _ => Ok []) (fun _ _ => Ok "On") (fun _ _ => None) (fun _ _ _ => Scheduled) (fun _ _ => ex_id) "etcd is down"
    (ex_rworld (ex_claims [] []) []) w' st ex_profiles_distinct Hrun) as H. cbn zeta in H.
  destruct (snd (observe _ _ _ _ _ _ _ _ _ _ _ _ _ _ _)) as [o|]; [|destruct H as [_ H]; congruence].
  destruct H as (w2 & settled & _ & Hf & Hnd & _). rewrite Hst in Hf, Hnd. split; [exact Hnd|].
  apply Forall_inv in Hf as [Hx _]. exact Hx.
Defined.

Lemma pass_fails_closed_witness : started_of (ex_pass (Some JNull) [] []) = Some [] /\
  exists e m c, snd (ex_pass (Some JNull) [] []) = Some (failed ex_cfg ex_gateway_id (seconds 100) e m c).
Proof.
  split; [vm_compute; reflexivity|].
  apply (pass_fails_closed ex_encode ex_decode ex_cfg BUILTIN_PROFILES ex_gateway_id "/nodes/" (fun w => w) (fun _ => seconds 100) (fun _ => ex_inventory)
    (seconds 900) (fun _ _ => "stale") (fun _ => Some (JList [JStr "h1"; JStr "h2"])) (fun _ => Some JNull) (fun _ => Ok [ex_artifact])
    (fun _ _ => Ok []) (fun _ _ => Ok "On") (fun _ _ => None) (fun _ _ _ => Scheduled) (fun _ _ => ex_id) "etcd is down"
    (ex_rworld (ex_claims [] []) [])).
  do 5 right. intros w. reflexivity.
Defined.

Lemma pass_leaves_people_witness :
  let out := ex_pass (Some (JList [])) [] [("h1", ex_operator_node)] in
  get (rreg (fst out)) "h1" = Some ex_operator_node /\ forall st, snd out = Some st -> "h1" ∉ st_started st.
Proof.
  intros out. apply (pass_leaves_people ex_encode ex_decode ex_cfg BUILTIN_PROFILES ex_gateway_id "/nodes/" (fun w => w) (fun _ => seconds 100) (fun _ => ex_inventory)
    (seconds 900) (fun _ _ => "stale") (fun _ => Some (JList [JStr "h1"; JStr "h2"])) (fun _ => Some (JList [])) (fun _ => Ok [ex_artifact])
    (fun _ _ => Ok []) (fun _ _ => Ok "On") (fun _ _ => None) (fun _ _ _ => Scheduled) (fun _ _ => ex_id) "etcd is down"
    "h1" ex_operator_node (ex_rworld (ex_claims [] []) [("h1", ex_operator_node)])).
  - intros w Hw. exact Hw.
  - intros c _. reflexivity.
  - reflexivity.
  - reflexivity.
Defined.
