(* ===== verification/Lifecycle.v ===== *)
(** * Host lifecycle coordinator ([inference_proxy/provisioning/host_lifecycle.py])

    [HostLifecycleCoordinator] serialises provisioning and teardown per host on
    one event loop.  Lock entries are heap objects ([_drop_user] compares them
    by identity), and every entry holds an [asyncio.Lock], whose waiters are
    futures: a release wakes the first waiter, which takes the lock only when
    its task runs.  A call of [acquire] or [try_acquire] has a number; a step is
    one uninterrupted run of a task. *)

From S2P Require Import Prelude.
From stdpp Require Import functions list.

(** ** [asyncio.Lock] *)

(** The future of a waiter: pending, resolved, resolved and then cancelled
    before its task ran, or cancelled while pending. *)
Inductive Fut := Pending | Woken | WokenCancelled | Cancelled.

(** [_HostLockEntry] with its lock. *)
Record Entry := mkEntry { locked : bool; waiters : list (nat * Fut); users : nat }.

(** [Lock._wake_up_first]: only a pending first waiter is resolved. *)
Definition wake_first (ws : list (nat * Fut)) : list (nat * Fut) :=
  match ws with
  | (c, Pending) :: ws => (c, Woken) :: ws
  | _ => ws
  end.

Definition is_cancelled (f : Fut) : bool := match f with Cancelled => true | _ => false end.

(** [Lock.acquire] up to its first suspension: [true] when the lock was taken. *)
Definition lock_acquire (c : nat) (e : Entry) : Entry * bool :=
  if negb (locked e) && forallb (fun w => is_cancelled (snd w)) (waiters e)
  then (mkEntry true (waiters e) (users e), true)
  else (mkEntry (locked e) (waiters e ++ [(c, Pending)]) (users e), false).

(** [Lock.release]; [None] is the [RuntimeError] of an unlocked lock. *)
Definition lock_release (e : Entry) : option Entry :=
  if locked e then Some (mkEntry false (wake_first (waiters e)) (users e)) else None.

Definition future (c : nat) (ws : list (nat * Fut)) : option Fut :=
  snd <$> List.find (fun w => bool_decide (fst w = c)) ws.

Definition remove_waiter (c : nat) (ws : list (nat * Fut)) : list (nat * Fut) :=
  List.filter (fun w => negb (bool_decide (fst w = c))) ws.

Definition cancel_fut (f : Fut) : Fut :=
  match f with Pending => Cancelled | Woken => WokenCancelled | f => f end.

Definition cancel_waiter (c : nat) (ws : list (nat * Fut)) : list (nat * Fut) :=
  List.map (fun w => if bool_decide (fst w = c) then (fst w, cancel_fut (snd w)) else w) ws.

(** ** The coordinator *)

(** What became of a call: it waits on an entry, it returned a
    [HostLifecycleLease], it returned [None], or it raised. *)
Inductive Call :=
| Waiting (hostname : string) (entry : nat)
| Lease (hostname : string) (entry : nat) (released : bool)
| Refused
| Raised.

Record Coordinator := mkCoord {
  objs : gmap nat Entry;
  fresh : nat;
  _entries : gmap string nat;
  calls : gmap nat Call;
  ncalls : nat;
}.

Definition empty_coordinator : Coordinator := mkCoord ∅ 0 ∅ ∅ 0.

Definition the_entry (s : Coordinator) (i : nat) : Entry := default (mkEntry false [] 0) (objs s !! i).

Definition set_entry (i : nat) (e : Entry) (s : Coordinator) : Coordinator :=
  mkCoord (<[i := e]> (objs s)) (fresh s) (_entries s) (calls s) (ncalls s).

Definition set_call (c : nat) (k : Call) (s : Coordinator) : Coordinator :=
  mkCoord (objs s) (fresh s) (_entries s) (<[c := k]> (calls s)) (ncalls s).

(** A new call number. *)
Definition new_call (s : Coordinator) : Coordinator :=
  mkCoord (objs s) (fresh s) (_entries s) (calls s) (S (ncalls s)).

(** A new entry object in the table. *)
Definition new_entry (h : string) (u : nat) (s : Coordinator) : Coordinator :=
  mkCoord (<[fresh s := mkEntry false [] u]> (objs s)) (S (fresh s)) (<[h := fresh s]> (_entries s)) (calls s) (ncalls s).

Definition add_user (e : Entry) : Entry := mkEntry (locked e) (waiters e) (S (users e)).

(** [await entry.lock.acquire()], up to the first suspension. *)
Definition take_or_wait (c : nat) (h : string) (i : nat) (s : Coordinator) : Coordinator :=
  let '(e, got) := lock_acquire c (the_entry s i) in
  set_call c (if got then Lease h i false else Waiting h i) (set_entry i e s).

Definition acquire (h : string) (s : Coordinator) : Coordinator :=
  let c := ncalls s in
  let s := new_call s in
  let '(s, i) := match _entries s !! h with
                 | Some i => (s, i)
                 | None => (new_entry h 0 s, fresh s)
                 end in
  take_or_wait c h i (set_entry i (add_user (the_entry s i)) s).

Definition try_acquire (h : string) (s : Coordinator) : Coordinator :=
  let c := ncalls s in
  let s := new_call s in
  match _entries s !! h with
  | Some _ => set_call c Refused s
  | None => take_or_wait c h (fresh s) (new_entry h 1 s)
  end.

Definition is_busy (h : string) (s : Coordinator) : bool := is_some (_entries s !! h).

(** [if current is not entry: return], the decrement, and the removal at zero. *)
Definition _drop_user (h : string) (i : nat) (s : Coordinator) : Coordinator :=
  if decide (_entries s !! h = Some i) then
    let e := the_entry s i in
    let s := set_entry i (mkEntry (locked e) (waiters e) (users e - 1)) s in
    if decide (users e - 1 = 0) then mkCoord (objs s) (fresh s) (delete h (_entries s)) (calls s) (ncalls s) else s
  else s.

(** [HostLifecycleCoordinator._release]; [false] when the lock raises. *)
Definition _release (h : string) (i : nat) (s : Coordinator) : Coordinator * bool :=
  match lock_release (the_entry s i) with
  | None => (s, false)
  | Some e => (_drop_user h i (set_entry i e s), true)
  end.

(** [HostLifecycleLease.release] of the lease call [c] returned. *)
Definition release (c : nat) (s : Coordinator) : Coordinator * bool :=
  match calls s !! c with
  | Some (Lease h i false) => _release h i (set_call c (Lease h i true) s)
  | _ => (s, true)
  end.

Definition belongs_to (c : nat) (h : string) (s : Coordinator) : bool :=
  match calls s !! c with
  | Some (Lease h' _ released) => negb released && bool_decide (h' = h)
  | _ => false
  end.

(** [task.cancel()] of a waiting call. *)
Definition cancel (c : nat) (s : Coordinator) : Coordinator :=
  match calls s !! c with
  | Some (Waiting h i) =>
      let e := the_entry s i in set_entry i (mkEntry (locked e) (cancel_waiter c (waiters e)) (users e)) s
  | _ => s
  end.

(** The task of a waiting call runs, when its future is done: it leaves the
    waiters, and takes the lock, or wakes the next one and drops its use. *)
Definition resume (c : nat) (s : Coordinator) : Coordinator :=
  match calls s !! c with
  | Some (Waiting h i) =>
      let e := the_entry s i in
      match future c (waiters e) with
      | Some Woken =>
          set_call c (Lease h i false) (set_entry i (mkEntry true (remove_waiter c (waiters e)) (users e)) s)
      | Some Cancelled | Some WokenCancelled =>
          let ws := remove_waiter c (waiters e) in
          let e := mkEntry (locked e) (if locked e then ws else wake_first ws) (users e) in
          _drop_user h i (set_call c Raised (set_entry i e s))
      | _ => s
      end
  | _ => s
  end.

Inductive Op := OAcquire (h : string) | OTry (h : string) | OCancel (c : nat) | OResume (c : nat) | ORelease (c : nat).

Definition step (s : Coordinator) (o : Op) : Coordinator :=
  match o with
  | OAcquire h => acquire h s
  | OTry h => try_acquire h s
  | OCancel c => cancel c s
  | OResume c => resume c s
  | ORelease c => fst (release c s)
  end.

Definition run (l : list Op) : Coordinator := fold_left step l empty_coordinator.

(** ** The specification: an owner and a queue per host *)

Record Queue := mkQ { owner : option nat; queue : list nat }.
Notation Queues := (string -> Queue).

(** Requests join the end of the queue, only its head becomes the owner, and
    only when there is none.  [n] is the number of the new call. *)
Inductive spec_step (A : Queues) (n : nat) : Op -> Queues -> Prop :=
| spec_grant h : A h = mkQ None [] -> spec_step A n (OAcquire h) (<[h := mkQ (Some n) []]> A)
| spec_enqueue h : spec_step A n (OAcquire h) (<[h := mkQ (owner (A h)) (queue (A h) ++ [n])]> A)
| spec_try h : A h = mkQ None [] -> spec_step A n (OTry h) (<[h := mkQ (Some n) []]> A)
| spec_try_busy h : spec_step A n (OTry h) A
| spec_cancel h c : c ∈ queue (A h) ->
    spec_step A n (OCancel c) (<[h := mkQ (owner (A h)) (filter (.≠ c) (queue (A h)))]> A)
| spec_cancel_none c : (forall h, c ∉ queue (A h)) -> spec_step A n (OCancel c) A
| spec_turn h c q : A h = mkQ None (c :: q) -> spec_step A n (OResume c) (<[h := mkQ (Some c) q]> A)
| spec_resume c : spec_step A n (OResume c) A
| spec_release h c : owner (A h) = Some c -> spec_step A n (ORelease c) (<[h := mkQ None (queue (A h))]> A)
| spec_release_none c : (forall h, owner (A h) <> Some c) -> spec_step A n (ORelease c) A.

(** ** The invariant, with the specification's state *)

(** The waiters that still want the lock. *)
Definition wants (f : Fut) : bool := match f with Pending | Woken => true | _ => false end.
Definition live (ws : list (nat * Fut)) : list nat := (List.filter (fun w => wants (snd w)) ws).*1.

(** A waiter that has not been resolved. *)
Definition idle (w : nat * Fut) : Prop := w.2 = Pending \/ w.2 = Cancelled.

(** Only the first waiter of a free lock has been woken, and it has. *)
Definition lock_ok (e : Entry) : Prop :=
  if locked e then Forall idle (waiters e)
  else match waiters e with [] => True | w :: ws => w.2 <> Pending /\ Forall idle ws end.

Definition occupancy (e : Entry) : nat := (length (waiters e) + if locked e then 1 else 0)%nat.

Record host_ok (cs : gmap nat Call) (h : string) (i : nat) (e : Entry) (q : Queue) : Prop := {
  h_users : users e = occupancy e;
  h_nodup : NoDup (waiters e).*1;
  h_wait : forall c, c ∈ (waiters e).*1 <-> cs !! c = Some (Waiting h i);
  h_owner : forall c, owner q = Some c <-> cs !! c = Some (Lease h i false);
  h_locked : locked e = is_some (owner q);
  h_queue : queue q = live (waiters e);
  h_lock : lock_ok e;
}.

Record inv (s : Coordinator) (A : Queues) : Prop := {
  i_table : forall h i, _entries s !! h = Some i ->
    exists e, objs s !! i = Some e /\ host_ok (calls s) h i e (A h) /\ (0 < users e)%nat;
  i_none : forall h, _entries s !! h = None -> A h = mkQ None [];
  i_inj : forall h1 h2 i, _entries s !! h1 = Some i -> _entries s !! h2 = Some i -> h1 = h2;
  i_fresh : forall h i, _entries s !! h = Some i -> (i < fresh s)%nat;
  i_live : forall c h i, calls s !! c = Some (Waiting h i) \/ calls s !! c = Some (Lease h i false) -> _entries s !! h = Some i;
  i_calls : forall c k, calls s !! c = Some k -> (c < ncalls s)%nat;
}.

(** The call is of this entry, or over. *)
Definition about (h : string) (i : nat) (k : option Call) : Prop :=
  match k with
  | Some (Waiting h' i') | Some (Lease h' i' false) => h' = h /\ i' = i
  | _ => True
  end.

Lemma host_ok_frame cs h i e q h' i' c k : host_ok cs h i e q -> about h' i' (cs !! c) -> about h' i' (Some k) -> i <> i' ->
  host_ok (<[c := k]> cs) h i e q.
Proof.
  intros [Hu Hn Hw Ho Hl Hq Hs] Ha Hk Hi. split; try done.
  - intros c'. rewrite Hw. destruct (decide (c' = c)) as [->|]; [rewrite lookup_insert_eq|by rewrite lookup_insert_ne].
    split; intros H; [rewrite H in Ha|injection H as ->]; cbn in *; naive_solver.
  - intros c'. rewrite Ho. destruct (decide (c' = c)) as [->|]; [rewrite lookup_insert_eq|by rewrite lookup_insert_ne].
    split; intros H; [rewrite H in Ha|injection H as ->]; cbn in *; naive_solver.
Qed.

(** One entry and one call of it change. *)
Lemma inv_update s A h i e q c k n : inv s A -> _entries s !! h = Some i ->
  about h i (calls s !! c) -> about h i (Some k) -> (c < n)%nat -> (ncalls s <= n)%nat ->
  host_ok (<[c := k]> (calls s)) h i e q -> (0 < users e)%nat ->
  inv (mkCoord (<[i := e]> (objs s)) (fresh s) (_entries s) (<[c := k]> (calls s)) n) (<[h := q]> A).
Proof.
  intros [Ht Hn Hj Hf Hl Hc] Hh Ha Hk Hcn Hle Hok Hu. split; cbn [objs fresh _entries calls ncalls].
  - intros h' i' Hh'. destruct (decide (h' = h)) as [->|Hne].
    + assert (i' = i) as -> by congruence. exists e. by rewrite lookup_insert_eq, fn_lookup_insert.
    + assert (i' <> i) as Hni by (intros ->; by apply Hne, (Hj _ _ i)).
      destruct (Ht h' i' Hh') as (e' & He' & Hok' & Hu'). exists e'. rewrite lookup_insert_ne, fn_lookup_insert_ne by done.
      split_and!; [done|by apply (host_ok_frame _ _ _ _ _ h i)|done].
  - intros h' Hh'. rewrite fn_lookup_insert_ne by congruence. by apply Hn.
  - done.
  - done.
  - intros c' h' i'. destruct (decide (c' = c)) as [->|]; [rewrite lookup_insert_eq|rewrite lookup_insert_ne by done; apply Hl].
    intros [[= ->]|[= ->]]; cbn in Hk; destruct Hk as [-> ->]; done.
  - intros c' k'. destruct (decide (c' = c)) as [->|]; [done|]. rewrite lookup_insert_ne by done. intros H%Hc. lia.
Qed.

Lemma inv_ext s A A' : (forall h, A h = A' h) -> inv s A -> inv s A'.
Proof. intros He [Ht Hn Hj Hf Hl Hc]. split; try done; intros h; rewrite <- He; [apply Ht|apply Hn]. Qed.

Lemma inv_same s A h : inv s (<[h := A h]> A) -> inv s A.
Proof.
  apply inv_ext. intros h'. destruct (decide (h' = h)) as [->|]; [by rewrite fn_lookup_insert|by rewrite fn_lookup_insert_ne].
Qed.

(** An entry nobody uses has no live calls. *)
Lemma host_ok_unused cs h i e q : host_ok cs h i e q -> occupancy e = 0%nat ->
  q = mkQ None [] /\ forall c, ~ (cs !! c = Some (Waiting h i) \/ cs !! c = Some (Lease h i false)).
Proof.
  intros [_ _ Hw Ho Hl Hq _] H0. assert (waiters e = [] /\ locked e = false) as [Hw0 Hl0].
  { unfold occupancy in H0. destruct (waiters e), (locked e); cbn in H0; try lia; done. }
  rewrite Hw0 in Hw, Hq. rewrite Hl0 in Hl. destruct q as [[o|] l]; [done|]. cbn in *. split; [by rewrite Hq|].
  intros c [Hc|Hc]; [apply Hw in Hc; by apply elem_of_nil in Hc|by apply Ho in Hc].
Qed.

(** One use ends, with a call of the entry. *)
Lemma inv_drop s A h i e q c k : inv s A -> _entries s !! h = Some i -> about h i (calls s !! c) ->
  about h i (Some k) -> (c < ncalls s)%nat -> users e = S (occupancy e) ->
  host_ok (<[c := k]> (calls s)) h i (mkEntry (locked e) (waiters e) (occupancy e)) q ->
  inv (_drop_user h i (set_call c k (set_entry i e s))) (<[h := q]> A).
Proof.
  intros Hi Hh Ha Hk Hc Hu Hok. unfold _drop_user, set_call, set_entry, the_entry.
  cbn [objs fresh _entries calls ncalls].
  rewrite decide_True by done. rewrite lookup_insert_eq. cbn [default from_option id]. rewrite insert_insert_eq, Hu.
  replace (S (occupancy e) - 1)%nat with (occupancy e) by lia.
  destruct (decide (occupancy e = 0%nat)) as [H0|H0]; [|apply inv_update; auto with lia; cbn; lia].
  destruct (host_ok_unused _ _ _ _ _ Hok) as [-> Hno]; [done|].
  destruct Hi as [Ht Hn Hj Hf Hlv Hcs]. split; cbn [objs fresh _entries calls ncalls].
  - intros h' i'. rewrite lookup_delete_Some. intros [Hne Hh']. destruct (Ht h' i' Hh') as (e' & He' & Hok' & Hu').
    assert (i' <> i) by (intros ->; by apply Hne, (Hj _ _ i)). exists e'.
    rewrite lookup_insert_ne, fn_lookup_insert_ne by done. split_and!; [done|by apply (host_ok_frame _ _ _ _ _ h i)|done].
  - intros h'. rewrite lookup_delete_None. intros [<-|Hh']; [by rewrite fn_lookup_insert|].
    rewrite fn_lookup_insert_ne by congruence. by apply Hn.
  - intros h1 h2 j. rewrite !lookup_delete_Some. intros [_ H1] [_ H2]. by apply (Hj _ _ j).
  - intros h' j [_ Hj']%lookup_delete_Some. by apply (Hf h').
  - intros c' h' i' Hc'. assert (_entries s !! h' = Some i') as Hh'.
    { destruct (decide (c' = c)) as [->|Hcc]; [|rewrite lookup_insert_ne in Hc' by done; by apply (Hlv c')].
      rewrite lookup_insert_eq in Hc'. destruct Hc' as [[= ->]|[= ->]]; cbn in Hk; by destruct Hk as [-> ->]. }
    rewrite lookup_delete_ne; [done|]. intros ->. assert (i' = i) as -> by congruence. by apply (Hno c').
  - intros c' k'. destruct (decide (c' = c)) as [->|]; [done|]. rewrite lookup_insert_ne by done. by apply Hcs.
Qed.

(** A private entry, taken at once. *)
Lemma inv_new s A h : inv s A -> _entries s !! h = None ->
  inv (mkCoord (<[fresh s := mkEntry true [] 1]> (objs s)) (S (fresh s)) (<[h := fresh s]> (_entries s))
        (<[ncalls s := Lease h (fresh s) false]> (calls s)) (S (ncalls s)))
      (<[h := mkQ (Some (ncalls s)) []]> A).
Proof.
  intros [Ht Hn Hj Hf Hl Hc] Hh. assert (calls s !! ncalls s = None) as Hnc.
  { destruct (calls s !! ncalls s) as [k|] eqn:Hk; [|done]. apply Hc in Hk. lia. }
  assert (forall c k, calls s !! c = Some k -> c <> ncalls s) as Hlt by (intros c k H%Hc; lia).
  split; cbn [objs fresh _entries calls ncalls].
  - intros h' i'. rewrite lookup_insert_Some. intros [[<- <-]|[Hne Hh']].
    + rewrite lookup_insert_eq, fn_lookup_insert. eexists. split; [done|]. split; [|cbn; lia]. split; cbn; try done.
      * constructor.
      * intros c. split; [by intros ?%elem_of_nil|]. rewrite lookup_insert_Some. intros [[_ [=]]|[_ H]].
        pose proof (Hl c h (fresh s) (or_introl H)). congruence.
      * intros c. split; [intros [= <-]; by rewrite lookup_insert_eq|]. rewrite lookup_insert_Some.
        intros [[-> _]|[_ H]]; [done|]. pose proof (Hl c h (fresh s) (or_intror H)). congruence.
    + destruct (Ht h' i' Hh') as (e & He & Hok & Hu). pose proof (Hf h' i' Hh').
      rewrite lookup_insert_ne, fn_lookup_insert_ne by (done || lia). exists e. split_and!; [done| |done].
      apply (host_ok_frame _ _ _ _ _ h (fresh s)); [done|by rewrite Hnc|done|lia].
  - intros h'. rewrite lookup_insert_None. intros [Hh' Hne]. rewrite fn_lookup_insert_ne by done. by apply Hn.
  - intros h1 h2 j. rewrite !lookup_insert_Some. intros [[<- <-]|[H1 H1']] [[<- H2]|[H2 H2']]; try done; subst;
      [apply Hf in H2'; lia|apply Hf in H1'; lia|by apply (Hj _ _ j)].
  - intros h' j. rewrite lookup_insert_Some. intros [[_ <-]|[_ H%Hf]]; lia.
  - intros c h' i'. rewrite !lookup_insert_Some. intros [[[_ [=]]|[_ H]]|[[_ [= <- <-]]|[_ H]]]; [|by left|];
      right; (split; [|by apply (Hl c); auto]); intros <-; assert (_entries s !! h = Some i') by (apply (Hl c); auto); congruence.
  - intros c k. rewrite lookup_insert_Some. intros [[<- _]|[_ H%Hc]]; lia.
Qed.

(** ** Waiter lists *)

Lemma live_waiters_app ws1 ws2 : live (ws1 ++ ws2) = live ws1 ++ live ws2.
Proof. unfold live. by rewrite List.filter_app, fmap_app. Qed.

Lemma live_wake ws : live (wake_first ws) = live ws.
Proof. by destruct ws as [|[c []] ws]. Qed.

Lemma wake_ids ws : (wake_first ws).*1 = ws.*1.
Proof. by destruct ws as [|[c []] ws]. Qed.

Lemma wake_length ws : length (wake_first ws) = length ws.
Proof. by destruct ws as [|[c []] ws]. Qed.

Lemma live_all_cancelled ws : forallb (fun w => is_cancelled (snd w)) ws = true -> live ws = [] /\ Forall idle ws.
Proof.
  induction ws as [|[c []] ws IH]; cbn; try done. intros [IH1 IH2]%IH. split; [done|]. constructor; [by right|done].
Qed.

Lemma live_ids c ws : c ∈ live ws -> c ∈ ws.*1.
Proof.
  unfold live. rewrite !list_elem_of_fmap. intros (w & -> & Hw). exists w. split; [done|].
  by eapply elem_of_sublist, filter_sublist_bool.
Qed.

Lemma future_cons c w ws : future c (w :: ws) = if decide (fst w = c) then Some (snd w) else future c ws.
Proof. unfold future. cbn. case_bool_decide; by case_decide. Qed.

Lemma remove_cons c w ws : remove_waiter c (w :: ws) = if decide (fst w = c) then remove_waiter c ws else w :: remove_waiter c ws.
Proof. unfold remove_waiter. cbn. case_bool_decide; by case_decide. Qed.

Lemma cancel_cons c w ws :
  cancel_waiter c (w :: ws) = (if decide (fst w = c) then (fst w, cancel_fut (snd w)) else w) :: cancel_waiter c ws.
Proof. unfold cancel_waiter. cbn. case_bool_decide; by case_decide. Qed.

Lemma future_in c ws : is_Some (future c ws) <-> c ∈ ws.*1.
Proof.
  induction ws as [|w ws IH]; [split; [by intros [? [=]]|by intros ?%elem_of_nil]|].
  rewrite future_cons, fmap_cons, elem_of_cons, <- IH. case_decide; naive_solver.
Qed.

Lemma remove_notin c ws : c ∉ ws.*1 -> remove_waiter c ws = ws.
Proof.
  induction ws as [|w ws IH]; [done|]. rewrite remove_cons, fmap_cons, not_elem_of_cons. intros [Hc Hws].
  rewrite decide_False by done. by rewrite IH.
Qed.

Lemma remove_ids c c' ws : c' ∈ (remove_waiter c ws).*1 <-> c' ∈ ws.*1 /\ c' <> c.
Proof.
  induction ws as [|w ws IH]; [split; [by intros ?%elem_of_nil|by intros [?%elem_of_nil ?]]|].
  rewrite remove_cons, (fmap_cons fst w ws), (elem_of_cons (ws.*1)).
  case_decide; [rewrite IH; naive_solver|]. rewrite fmap_cons, elem_of_cons, IH. naive_solver.
Qed.

Lemma remove_sublist c ws : remove_waiter c ws `sublist_of` ws.
Proof. apply filter_sublist_bool. Qed.

Lemma remove_length c ws f : NoDup ws.*1 -> future c ws = Some f -> length ws = S (length (remove_waiter c ws)).
Proof.
  induction ws as [|w ws IH]; [done|]. rewrite future_cons, remove_cons. intros [Hw Hnd]%NoDup_cons.
  case_decide as Hc; [subst; intros _; by rewrite remove_notin|]. intros Hf. cbn. by rewrite (IH Hnd Hf).
Qed.

Lemma live_remove c ws f : NoDup ws.*1 -> future c ws = Some f -> wants f = false -> live (remove_waiter c ws) = live ws.
Proof.
  induction ws as [|w ws IH]; [done|]. rewrite future_cons, remove_cons. intros [Hw Hnd]%NoDup_cons.
  case_decide as Hc.
  - subst. intros [= <-] Hf. rewrite remove_notin by done. unfold live. cbn. by rewrite Hf.
  - intros Hf Hwf. unfold live in *. cbn. destruct (wants (snd w)); cbn; by rewrite (IH Hnd Hf Hwf).
Qed.

Lemma cancel_ids c ws : (cancel_waiter c ws).*1 = ws.*1.
Proof. induction ws as [|w ws IH]; [done|]. rewrite cancel_cons, !fmap_cons, IH. by case_decide. Qed.

Lemma cancel_length c ws : length (cancel_waiter c ws) = length ws.
Proof. apply length_map. Qed.

Lemma live_cancel c ws : live (cancel_waiter c ws) = filter (.≠ c) (live ws).
Proof.
  induction ws as [|[c' f] ws IH]; [done|]. rewrite cancel_cons. cbn. unfold live in *. cbn.
  case_decide as Hc; cbn; destruct f; cbn; rewrite IH; rewrite ?filter_cons; cbn; repeat case_decide; naive_solver.
Qed.

Lemma idle_cancel c ws : Forall idle ws -> Forall idle (cancel_waiter c ws).
Proof.
  induction 1 as [|[c' f] ws Hw _ IH]; [constructor|]. rewrite cancel_cons. constructor; [|done]. cbn.
  case_decide; [|done]. destruct Hw as [Hw|Hw]; cbn in Hw; subst f; by right.
Qed.

Lemma idle_future c ws f : Forall idle ws -> future c ws = Some f -> f = Pending \/ f = Cancelled.
Proof.
  induction 1 as [|w ws Hw _ IH]; [done|]. rewrite future_cons. case_decide; [|done]. by intros [= <-].
Qed.

Lemma idle_remove c ws : Forall idle ws -> Forall idle (remove_waiter c ws).
Proof. rewrite !Forall_forall. intros H w Hw. by eapply H, elem_of_sublist, remove_sublist. Qed.

(** Waking the first waiter restores the lock's invariant. *)
Lemma wake_lock_ok ws n : Forall idle ws -> lock_ok (mkEntry false (wake_first ws) n).
Proof.
  intros H. unfold lock_ok. cbn. destruct H as [|[c f] ws Hw Hws]; [done|]. cbn. destruct f; cbn; try done;
    destruct Hw as [Hw|Hw]; cbn in Hw; done.
Qed.

(** ** Every step is a step of the specification *)

Definition simulates (s : Coordinator) (A : Queues) (o : Op) : Prop :=
  exists A', spec_step A (ncalls s) o A' /\ inv (step s o) A'.

Lemma fresh_call s A : inv s A -> calls s !! ncalls s = None.
Proof. intros Hi. destruct (calls s !! ncalls s) as [k|] eqn:Hk; [|done]. apply (i_calls _ _ Hi) in Hk. lia. Qed.

Lemma the_entry_eq s i e : objs s !! i = Some e -> the_entry s i = e.
Proof. unfold the_entry. by intros ->. Qed.

Lemma acquire_new s h : _entries s !! h = None ->
  acquire h s = mkCoord (<[fresh s := mkEntry true [] 1]> (objs s)) (S (fresh s)) (<[h := fresh s]> (_entries s))
    (<[ncalls s := Lease h (fresh s) false]> (calls s)) (S (ncalls s)).
Proof.
  intros Hh. unfold acquire, take_or_wait, the_entry. cbn. rewrite Hh. cbn. rewrite !lookup_insert_eq. cbn.
  unfold set_call, set_entry. cbn. by rewrite !insert_insert_eq.
Qed.

Lemma try_new s h : _entries s !! h = None -> try_acquire h s = acquire h s.
Proof.
  intros Hh. rewrite (acquire_new _ _ Hh). unfold try_acquire, take_or_wait, the_entry. cbn. rewrite Hh. cbn.
  rewrite !lookup_insert_eq. cbn. unfold set_call, set_entry. cbn. by rewrite !insert_insert_eq.
Qed.

Lemma acquire_old s h i e : _entries s !! h = Some i -> objs s !! i = Some e ->
  acquire h s =
  let '(e', got) := lock_acquire (ncalls s) (add_user e) in
  mkCoord (<[i := e']> (objs s)) (fresh s) (_entries s)
    (<[ncalls s := if got then Lease h i false else Waiting h i]> (calls s)) (S (ncalls s)).
Proof.
  intros Hh He. unfold acquire, take_or_wait, the_entry. cbn. rewrite Hh. cbn. rewrite He, lookup_insert_eq. cbn.
  destruct (lock_acquire _ _) as [e' got]. unfold set_call, set_entry. cbn. by rewrite insert_insert_eq.
Qed.

(** The request takes a lock nobody wants. *)
Lemma host_ok_take cs h i e q c : host_ok cs h i e q -> cs !! c = None -> locked e = false ->
  forallb (fun w => is_cancelled (snd w)) (waiters e) = true ->
  q = mkQ None [] /\
  host_ok (<[c := Lease h i false]> cs) h i (mkEntry true (waiters e) (S (users e))) (mkQ (Some c) []).
Proof.
  intros [Hu Hn Hw Ho Hl Hq Hs] Hc Hfree Hall. destruct (live_all_cancelled _ Hall) as [Hlive Hidle].
  destruct q as [o l]. cbn in *. rewrite Hfree in Hl. destruct o as [o|]; [done|]. subst l. rewrite Hlive. split; [done|].
  split; cbn; try done.
  - rewrite Hu. unfold occupancy. rewrite Hfree. cbn. lia.
  - intros c'. rewrite Hw, lookup_insert_Some. naive_solver.
  - intros c'. rewrite lookup_insert_Some. split; [intros [= ->]; by left|]. intros [[-> _]|[_ H]]; [done|].
    apply Ho in H. done.
Qed.

(** The request waits at the end of the queue. *)
Lemma host_ok_wait cs h i e q c : host_ok cs h i e q -> cs !! c = None ->
  negb (locked e) && forallb (fun w => is_cancelled (snd w)) (waiters e) = false ->
  host_ok (<[c := Waiting h i]> cs) h i (mkEntry (locked e) (waiters e ++ [(c, Pending)]) (S (users e)))
    (mkQ (owner q) (queue q ++ [c])).
Proof.
  intros [Hu Hn Hw Ho Hl Hq Hs] Hc Hbusy. split; cbn; try done.
  - rewrite Hu. unfold occupancy. cbn. rewrite length_app. cbn. lia.
  - rewrite fmap_app. apply NoDup_app. split_and!; [done| |apply NoDup_singleton].
    intros c' Hc' ->%list_elem_of_singleton. apply Hw in Hc'. cbn in Hc'. congruence.
  - intros c'. rewrite fmap_app, elem_of_app, Hw. cbn. rewrite list_elem_of_singleton, lookup_insert_Some. naive_solver.
  - intros c'. rewrite Ho, lookup_insert_Some. naive_solver.
  - change (queue q ++ [c] = live (waiters e ++ [(c, Pending)])). by rewrite live_waiters_app, Hq.
  - unfold lock_ok in *. cbn. destruct (locked e).
    + apply Forall_app. split; [done|]. repeat constructor.
    + destruct (waiters e) as [|w ws]; [done|]. cbn. destruct Hs as [Hw1 Hws]. split; [done|].
      apply Forall_app. split; [done|]. repeat constructor.
Qed.

Lemma sim_acquire s A h : inv s A -> simulates s A (OAcquire h).
Proof.
  intros Hi. pose proof (fresh_call _ _ Hi) as Hc. unfold simulates. cbn [step].
  destruct (_entries s !! h) as [i|] eqn:Hh.
  - destruct (i_table _ _ Hi h i Hh) as (e & He & Hok & Hu). rewrite (acquire_old _ _ _ _ Hh He). unfold lock_acquire. cbn.
    destruct (negb (locked e) && _) eqn:Hfree.
    + apply andb_prop in Hfree as [Hl%negb_true_iff Hall].
      destruct (host_ok_take _ _ _ _ _ (ncalls s) Hok Hc Hl Hall) as [Hq Hok'].
      eexists. split; [by apply spec_grant|]. apply inv_update; rewrite ?Hc; cbn; auto with lia.
    + eexists. split; [apply spec_enqueue|].
      apply inv_update; rewrite ?Hc; cbn; auto with lia. by apply host_ok_wait.
  - rewrite acquire_new by done. eexists. split; [apply spec_grant; by apply (i_none _ _ Hi)|by apply inv_new].
Qed.

Lemma sim_try s A h : inv s A -> simulates s A (OTry h).
Proof.
  intros Hi. unfold simulates. cbn [step]. destruct (_entries s !! h) as [i|] eqn:Hh.
  - exists A. split; [apply spec_try_busy|]. unfold try_acquire. cbn. rewrite Hh. unfold set_call. cbn.
    pose proof (fresh_call _ _ Hi) as Hc. destruct (i_table _ _ Hi h i Hh) as (e & He & Hok & Hu).
    apply (inv_same _ _ h).
    rewrite <- (insert_id (objs s) i e He) at 1. apply inv_update; rewrite ?Hc; cbn; auto with lia.
    destruct Hok as [H1 H2 H3 H4 H5 H6 H7]. split; try done; intros c; rewrite ?H3, ?H4, lookup_insert_Some; naive_solver.
  - rewrite try_new, acquire_new by done. eexists. split; [apply spec_try; by apply (i_none _ _ Hi)|by apply inv_new].
Qed.

Lemma filter_notin (c : nat) (q : list nat) : c ∉ q -> filter (.≠ c) q = q.
Proof.
  induction q as [|c' q IH]; [done|]. intros [Hc Hq]%not_elem_of_cons. rewrite filter_cons, decide_True by done. by rewrite IH.
Qed.

(** Where a queued or owning call is. *)
Lemma queued_waiting s A h c : inv s A -> c ∈ queue (A h) -> exists i, calls s !! c = Some (Waiting h i).
Proof.
  intros Hi Hc. destruct (_entries s !! h) as [i|] eqn:Hh.
  - destruct (i_table _ _ Hi h i Hh) as (e & He & Hok & Hu). exists i. apply (h_wait _ _ _ _ _ Hok), live_ids.
    by rewrite <- (h_queue _ _ _ _ _ Hok).
  - rewrite (i_none _ _ Hi h Hh) in Hc. by apply elem_of_nil in Hc.
Qed.

Lemma owner_lease s A h c : inv s A -> owner (A h) = Some c <-> exists i, calls s !! c = Some (Lease h i false).
Proof.
  intros Hi. destruct (_entries s !! h) as [i|] eqn:Hh.
  - destruct (i_table _ _ Hi h i Hh) as (e & He & Hok & Hu). rewrite (h_owner _ _ _ _ _ Hok). split; [eauto|].
    intros [i' Hc]. pose proof (i_live _ _ Hi c h i' (or_intror Hc)). congruence.
  - rewrite (i_none _ _ Hi h Hh). split; [done|]. intros [i Hc].
    pose proof (i_live _ _ Hi c h i (or_intror Hc)). congruence.
Qed.

(** The entry of a waiting call. *)
Lemma waiting_entry s A c h i : inv s A -> calls s !! c = Some (Waiting h i) ->
  exists e f, _entries s !! h = Some i /\ objs s !! i = Some e /\ host_ok (calls s) h i e (A h) /\ (0 < users e)%nat /\
    future c (waiters e) = Some f.
Proof.
  intros Hi Hc. pose proof (i_live _ _ Hi c h i (or_introl Hc)) as Hh. destruct (i_table _ _ Hi h i Hh) as (e & He & Hok & Hu).
  destruct (proj2 (future_in c (waiters e))) as [f Hf]; [by apply (h_wait _ _ _ _ _ Hok)|]. by exists e, f.
Qed.

Lemma cancel_waiter_lock_ok e c n : lock_ok e -> lock_ok (mkEntry (locked e) (cancel_waiter c (waiters e)) n).
Proof.
  unfold lock_ok. cbn. destruct (locked e); [apply idle_cancel|]. destruct (waiters e) as [|[c' f] ws]; [done|].
  rewrite cancel_cons. cbn. intros [Hf Hws]. split; [|by apply idle_cancel]. case_decide; [|done]. by destruct f.
Qed.

Lemma sim_cancel s A c : inv s A -> simulates s A (OCancel c).
Proof.
  intros Hi. unfold simulates. cbn [step]. unfold cancel.
  destruct (calls s !! c) as [[h i| | |]|] eqn:Hc; try by (exists A; split; [|done]; apply spec_cancel_none;
    intros h' H; destruct (queued_waiting _ _ _ _ Hi H) as [? ?]; congruence).
  destruct (waiting_entry _ _ _ _ _ Hi Hc) as (e & f & Hh & He & Hok & Hu & Hf). rewrite (the_entry_eq _ _ _ He).
  assert (inv (set_entry i (mkEntry (locked e) (cancel_waiter c (waiters e)) (users e)) s)
            (<[h := mkQ (owner (A h)) (filter (.≠ c) (queue (A h)))]> A)) as Hinv.
  { unfold set_entry. rewrite <- (insert_id _ _ _ Hc) at 1. pose proof (i_calls _ _ Hi c _ Hc).
    apply inv_update; auto with lia; rewrite ?Hc; try done. rewrite insert_id by done.
    destruct Hok as [H1 H2 H3 H4 H5 H6 H7]. split; cbn [locked waiters users owner queue]; rewrite ?cancel_ids; try done.
    - rewrite H1. unfold occupancy. cbn. by rewrite cancel_length.
    - by rewrite live_cancel, H6.
    - by apply cancel_waiter_lock_ok. }
  destruct (decide (c ∈ queue (A h))) as [Hq|Hq]; [eexists; split; [by apply (spec_cancel _ _ h)|done]|].
  exists A. split.
  - apply spec_cancel_none. intros h' H. destruct (queued_waiting _ _ _ _ Hi H) as [i' Hc']. congruence.
  - apply (inv_same _ _ h). eapply inv_ext; [|exact Hinv]. intros h'.
    replace (mkQ (owner (A h)) (filter (.≠ c) (queue (A h)))) with (A h); [done|].
    rewrite filter_notin by done. by destruct (A h).
Qed.

Lemma resume_woken s A c h i e : inv s A -> calls s !! c = Some (Waiting h i) -> objs s !! i = Some e ->
  future c (waiters e) = Some Woken -> host_ok (calls s) h i e (A h) ->
  exists ws, waiters e = (c, Woken) :: ws /\ c ∉ ws.*1 /\ locked e = false /\ A h = mkQ None (c :: live ws).
Proof.
  intros Hi Hc He Hf [H1 H2 H3 H4 H5 H6 H7]. unfold lock_ok in H7. destruct (locked e).
  { by destruct (idle_future _ _ _ H7 Hf). }
  destruct (waiters e) as [|[c' f] ws] eqn:Hws; [done|]. destruct H7 as [Hp Hi7]. rewrite future_cons in Hf. cbn in Hf.
  case_decide as Hcc; [|by destruct (idle_future _ _ _ Hi7 Hf)]. subst c'. injection Hf as ->. exists ws.
  apply NoDup_cons in H2 as [Hnin _]. split_and!; try done. destruct (A h) as [[o|] q]; [done|]. cbn in *. by rewrite H6.
Qed.

(** A cancelled waiter leaves; the lock passes its wake-up on. *)
Lemma leave_lock_ok e c n f : lock_ok e -> NoDup (waiters e).*1 -> future c (waiters e) = Some f -> wants f = false ->
  lock_ok (mkEntry (locked e) (if locked e then remove_waiter c (waiters e) else wake_first (remove_waiter c (waiters e))) n).
Proof.
  unfold lock_ok. cbn. destruct (locked e); [intros H _ _ _; by apply idle_remove|].
  destruct (waiters e) as [|[c' f'] ws]; [done|]. intros [Hp Hws] [Hnin Hnd]%NoDup_cons Hf Hwf. rewrite remove_cons. cbn.
  case_decide as Hcc.
  - subst c'. rewrite remove_notin by done. by apply (wake_lock_ok ws n).
  - cbn. destruct f'; cbn; try done; (split; [done|by apply idle_remove]).
Qed.

Lemma leave_inv s A c h i e f : inv s A -> calls s !! c = Some (Waiting h i) -> _entries s !! h = Some i ->
  objs s !! i = Some e -> host_ok (calls s) h i e (A h) -> future c (waiters e) = Some f -> wants f = false ->
  inv (_drop_user h i (set_call c Raised (set_entry i
    (mkEntry (locked e) (if locked e then remove_waiter c (waiters e) else wake_first (remove_waiter c (waiters e))) (users e)) s))) A.
Proof.
  intros Hi Hc Hh He [H1 H2 H3 H4 H5 H6 H7] Hf Hw. pose proof (i_calls _ _ Hi c _ Hc) as Hlt. apply (inv_same _ _ h).
  assert (length (if locked e then remove_waiter c (waiters e) else wake_first (remove_waiter c (waiters e))) =
    length (remove_waiter c (waiters e))) as Hlen by (destruct (locked e); [done|apply wake_length]).
  assert ((if locked e then remove_waiter c (waiters e) else wake_first (remove_waiter c (waiters e))).*1 =
    (remove_waiter c (waiters e)).*1) as Hids by (destruct (locked e); [done|apply wake_ids]).
  apply inv_drop; rewrite ?Hc; try done.
  - rewrite H1. unfold occupancy. cbn. rewrite Hlen, (remove_length c _ f) by done. done.
  - split; cbn [locked waiters users]; rewrite ?Hids; try done.
    + eapply sublist_NoDup; [exact H2|]. apply fmap_sublist, remove_sublist.
    + intros c'. rewrite remove_ids, H3, lookup_insert_Some. naive_solver.
    + intros c'. rewrite H4, lookup_insert_Some. naive_solver.
    + rewrite H6. destruct (locked e); rewrite ?live_wake; by rewrite (live_remove c _ f).
    + by apply (leave_lock_ok e c _ f).
Qed.

Lemma sim_resume s A c : inv s A -> simulates s A (OResume c).
Proof.
  intros Hi. unfold simulates. cbn [step]. unfold resume.
  destruct (calls s !! c) as [[h i| | |]|] eqn:Hc; try by (exists A; split; [apply spec_resume|done]).
  destruct (waiting_entry _ _ _ _ _ Hi Hc) as (e & f & Hh & He & Hok & Hu & Hf). rewrite (the_entry_eq _ _ _ He), Hf.
  pose proof (i_calls _ _ Hi c _ Hc) as Hlt.
  destruct f; try by (exists A; split; [apply spec_resume|done]).
  - destruct (resume_woken _ _ _ _ _ _ Hi Hc He Hf Hok) as (ws & Hws & Hnin & Hl & HA).
    eexists. split; [by apply (spec_turn _ _ h c (live ws))|]. unfold set_call, set_entry. cbn.
    apply inv_update; auto with lia; rewrite ?Hc; try done. rewrite Hws, remove_cons, decide_True, remove_notin by done.
    destruct Hok as [H1 H2 H3 H4 H5 H6 H7]. rewrite Hws in *. rewrite HA in *. cbn in *.
    apply NoDup_cons in H2 as [_ H2]. unfold lock_ok in H7. rewrite Hl, Hws in H7. split; cbn; try done.
    + rewrite H1. unfold occupancy. rewrite Hl, Hws. cbn. lia.
    + intros c'. rewrite lookup_insert_Some, <- H3, elem_of_cons. naive_solver.
    + intros c'. rewrite lookup_insert_Some, <- H4. naive_solver.
    + apply H7.
  - exists A. split; [apply spec_resume|]. by apply (leave_inv _ _ _ _ _ e WokenCancelled).
  - exists A. split; [apply spec_resume|]. by apply (leave_inv _ _ _ _ _ e Cancelled).
Qed.

Lemma release_inv s A c h i e : inv s A -> calls s !! c = Some (Lease h i false) -> _entries s !! h = Some i ->
  objs s !! i = Some e -> host_ok (calls s) h i e (A h) ->
  locked e = true /\ owner (A h) = Some c /\
  inv (_drop_user h i (set_call c (Lease h i true) (set_entry i (mkEntry false (wake_first (waiters e)) (users e)) s)))
    (<[h := mkQ None (queue (A h))]> A).
Proof.
  intros Hi Hc Hh He [H1 H2 H3 H4 H5 H6 H7]. pose proof (proj2 (H4 c) Hc) as Ho. rewrite Ho in H5. cbn in H5.
  split_and!; [done|done|]. unfold lock_ok in H7. rewrite H5 in H7.
  apply inv_drop; rewrite ?Hc; try done; [by apply (i_calls _ _ Hi c _ Hc)|rewrite H1; unfold occupancy; cbn; rewrite H5, wake_length; lia|].
  split; cbn [locked waiters users owner queue]; rewrite ?wake_ids, ?live_wake; try done.
  - intros c'. rewrite H3, lookup_insert_Some. naive_solver.
  - intros c'. split; [done|]. rewrite lookup_insert_Some. intros [[_ [=]]|[Hne H]]. apply H4 in H. congruence.
  - by apply wake_lock_ok.
Qed.

Lemma sim_release s A c : inv s A -> simulates s A (ORelease c) /\ snd (release c s) = true.
Proof.
  intros Hi. unfold simulates. cbn [step]. unfold release.
  destruct (calls s !! c) as [[|h i []| |]|] eqn:Hc; try by (split; [|done]; exists A; split; [|done];
    apply spec_release_none; intros h' H; apply (owner_lease _ _ _ _ Hi) in H as [? ?]; congruence).
  pose proof (i_live _ _ Hi c h i (or_intror Hc)) as Hh. destruct (i_table _ _ Hi h i Hh) as (e & He & Hok & Hu).
  destruct (release_inv _ _ _ _ _ _ Hi Hc Hh He Hok) as (Hl & Ho & Hinv). unfold _release.
  rewrite (the_entry_eq _ _ e) by done. unfold lock_release. rewrite Hl. cbn [fst snd]. split; [|done].
  eexists. split; [by apply (spec_release _ _ h)|done].
Qed.

Lemma inv_empty : inv empty_coordinator (fun _ => mkQ None []).
Proof. split; cbn; try done; intros *; rewrite ?lookup_empty; naive_solver. Qed.

Lemma inv_step s A o : inv s A -> simulates s A o.
Proof. destruct o; [apply sim_acquire|apply sim_try|apply sim_cancel|apply sim_resume|apply sim_release]. Qed.

(** ** What every run keeps *)

Definition new_calls (o : Op) : nat := match o with OAcquire _ | OTry _ => 1 | _ => 0 end.

Inductive spec_run : list Op -> nat -> Queues -> Prop :=
| spec_nil : spec_run [] 0 (fun _ => mkQ None [])
| spec_snoc l n A o A' : spec_run l n A -> spec_step A n o A' -> spec_run (l ++ [o]) (new_calls o + n) A'.

Lemma run_snoc l o : run (l ++ [o]) = step (run l) o.
Proof. unfold run. by rewrite fold_left_app. Qed.

Lemma drop_ncalls h i s : ncalls (_drop_user h i s) = ncalls s.
Proof. unfold _drop_user. cbn. repeat case_decide; done. Qed.

Lemma step_ncalls s o : ncalls (step s o) = (new_calls o + ncalls s)%nat.
Proof.
  destruct o; cbn.
  - unfold acquire, take_or_wait. cbn. destruct (_entries s !! h); cbn; by destruct (lock_acquire _ _).
  - unfold try_acquire, take_or_wait. cbn. destruct (_entries s !! h); cbn; [done|]. by destruct (lock_acquire _ _).
  - unfold cancel. repeat case_match; done.
  - unfold resume. repeat case_match; try done; cbn; by rewrite drop_ncalls.
  - unfold release, _release. repeat case_match; try done. cbn. by rewrite drop_ncalls.
Qed.

Lemma run_inv l : exists A, spec_run l (ncalls (run l)) A /\ inv (run l) A.
Proof.
  induction l as [|o l (A & Hr & Hi)] using rev_ind; [exists (fun _ => mkQ None []); split; [constructor|apply inv_empty]|].
  rewrite run_snoc. destruct (inv_step _ _ o Hi) as (A' & Hs & Hi'). exists A'. split; [|done].
  rewrite step_ncalls. by econstructor.
Qed.

Lemma busy_calls s A h : inv s A ->
  is_busy h s = true <-> exists c i, calls s !! c = Some (Waiting h i) \/ calls s !! c = Some (Lease h i false).
Proof.
  intros Hi. unfold is_busy. split.
  - destruct (_entries s !! h) as [i|] eqn:Hh; [|done]. intros _. destruct (i_table _ _ Hi h i Hh) as (e & He & [H1 H2 H3 H4 H5 H6 H7] & Hu).
    rewrite H1 in Hu. unfold occupancy in Hu. destruct (waiters e) as [|w ws] eqn:Hw.
    + destruct (locked e); cbn in Hu; [|lia]. destruct (owner (A h)) as [c|] eqn:Ho; [|done]. exists c, i. right. by apply H4.
    + exists (fst w), i. left. apply H3. by left.
  - intros (c & i & Hc). by rewrite (i_live _ _ Hi c h i Hc).
Qed.

Lemma belongs_owner s A h c : inv s A -> belongs_to c h s = true <-> owner (A h) = Some c.
Proof.
  intros Hi. rewrite (owner_lease _ _ _ _ Hi). unfold belongs_to. split.
  - destruct (calls s !! c) as [[|h' i []| |]|]; try done. cbn. intros ->%bool_decide_eq_true. eauto.
  - intros [i ->]. cbn. by apply bool_decide_eq_true.
Qed.

(** C33: every run of requests, cancellations, releases and task turns is a run of
    the queue specification: requests are served in the order they were made,
    cancelled ones apart.  The owner of a host in the specification is the one
    call whose lease [belongs_to] it, the host is free exactly when no lease
    and no waiting call is left, and [release] never raises. *)
Theorem lifecycle_refines_queue l : exists A,
  spec_run l (ncalls (run l)) A /\
  (forall h c, belongs_to c h (run l) = true <-> owner (A h) = Some c) /\
  (forall h c, c ∈ queue (A h) -> exists i, calls (run l) !! c = Some (Waiting h i)) /\
  (forall h, is_busy h (run l) = true <->
    exists c i, calls (run l) !! c = Some (Waiting h i) \/ calls (run l) !! c = Some (Lease h i false)) /\
  (forall c, snd (release c (run l)) = true).
Proof.
  destruct (run_inv l) as (A & Hr & Hi). exists A. split_and!; [done| | | |].
  - intros h c. by apply belongs_owner.
  - intros h c. by apply queued_waiting.
  - intros h. by eapply busy_calls.
  - intros c. by eapply sim_release.
Qed.

(** Mutual exclusion: two live leases of one host are the same lease, and
    [try_acquire] returns a lease exactly when the host is not busy. *)
Theorem lifecycle_exclusive l :
  (forall h c1 c2, belongs_to c1 h (run l) = true -> belongs_to c2 h (run l) = true -> c1 = c2) /\
  (forall h, belongs_to (ncalls (run l)) h (run (l ++ [OTry h])) = negb (is_busy h (run l))).
Proof.
  split.
  - destruct (run_inv l) as (A & _ & Hi). intros h c1 c2. rewrite !(belongs_owner _ _ _ _ Hi). congruence.
  - intros h. rewrite run_snoc. cbn [step]. unfold is_busy. destruct (_entries (run l) !! h) as [i|] eqn:Hh.
    + unfold try_acquire. cbn. rewrite Hh. cbn. unfold belongs_to. cbn. by rewrite lookup_insert_eq.
    + rewrite try_new, acquire_new by done. unfold belongs_to. cbn. rewrite lookup_insert_eq. by rewrite bool_decide_true.
Qed.

(** ** The next in line gets its turn *)

(** The calls whose task has to run until [c] has the free lock of [h]: the
    cancelled ones before it, and itself. *)
Definition ahead (s : Coordinator) (h : string) (c : nat) (p : list nat) : Prop :=
  exists i e f ws1 ws2, _entries s !! h = Some i /\ objs s !! i = Some e /\ locked e = false /\
    waiters e = ws1 ++ (c, f) :: ws2 /\ wants f = true /\ Forall (fun w => wants w.2 = false) ws1 /\ ws1.*1 = p.

Lemma drop_other h i s h' i' : h <> h' -> i <> i' ->
  _entries (_drop_user h' i' s) !! h = _entries s !! h /\ objs (_drop_user h' i' s) !! i = objs s !! i.
Proof.
  intros Hh Hi. unfold _drop_user. repeat case_decide; cbn; rewrite ?lookup_delete_ne, ?lookup_insert_ne by done; done.
Qed.

Lemma drop_same h i s e : objs s !! i = Some e ->
  exists n, objs (_drop_user h i s) !! i = Some (mkEntry (locked e) (waiters e) n).
Proof.
  intros He. unfold _drop_user. rewrite (the_entry_eq _ _ _ He).
  repeat case_decide; cbn; rewrite ?lookup_insert_eq; eauto. exists (users e). by destruct e.
Qed.

(** A turn of a call of another entry. *)
Lemma resume_other s A c h i : inv s A -> _entries s !! h = Some i -> calls s !! c <> Some (Waiting h i) ->
  _entries (resume c s) !! h = Some i /\ objs (resume c s) !! i = objs s !! i.
Proof.
  intros Hi Hh Hc. unfold resume. destruct (calls s !! c) as [[h' i'| | |]|] eqn:Hcc; try done.
  pose proof (i_live _ _ Hi c h' i' (or_introl Hcc)) as Hh'.
  assert (h <> h') as Hne by congruence. assert (i <> i') as Hni by (intros <-; by apply Hne, (i_inj _ _ Hi _ _ i)).
  destruct (future c (waiters (the_entry s i'))) as [[]|]; cbn; try done;
    try (by rewrite lookup_insert_ne by done);
    (match goal with |- context [_drop_user _ _ ?x] => destruct (drop_other h i x h' i' Hne Hni) as [-> ->] end;
     cbn; by rewrite lookup_insert_ne by done).
Qed.

Lemma future_app c ws1 ws2 : future c (ws1 ++ ws2) = match future c ws1 with Some f => Some f | None => future c ws2 end.
Proof. induction ws1 as [|w ws1 IH]; [done|]. cbn [app]. rewrite !future_cons. by case_decide. Qed.

Lemma remove_app c ws1 ws2 : remove_waiter c (ws1 ++ ws2) = remove_waiter c ws1 ++ remove_waiter c ws2.
Proof. apply List.filter_app. Qed.

Lemma future_wants c ws f : Forall (fun w => wants w.2 = false) ws -> future c ws = Some f -> wants f = false.
Proof. induction 1 as [|w ws Hw _ IH]; [done|]. rewrite future_cons. case_decide; [by intros [= <-]|done]. Qed.

Lemma remove_fst c ws : (remove_waiter c ws).*1 = filter (.≠ c) ws.*1.
Proof.
  induction ws as [|w ws IH]; [done|]. rewrite remove_cons, fmap_cons, filter_cons.
  repeat case_decide; try done. by rewrite fmap_cons, IH.
Qed.

(** Waking the first waiter keeps the shape of the queue before [c]. *)
Lemma wake_ahead ws1 c f ws2 : wants f = true -> Forall (fun w => wants w.2 = false) ws1 ->
  exists f', wants f' = true /\ wake_first (ws1 ++ (c, f) :: ws2) = ws1 ++ (c, f') :: ws2.
Proof.
  destruct ws1 as [|[c1 f1] ws]; cbn; intros Hf Hn; [destruct f; try done; by exists Woken|].
  apply Forall_cons in Hn as [Hw _]. destruct f1; try done; by exists f.
Qed.

#[global] Instance Call_eq_dec : EqDecision Call.
Proof. solve_decision. Defined.

(** A cancelled waiter other than [c] leaves. *)
Lemma leave_ahead s A h i e c r f g ws1 ws2 : inv (resume r s) A -> _entries s !! h = Some i ->
  objs s !! i = Some e -> locked e = false -> waiters e = ws1 ++ (c, f) :: ws2 -> wants f = true ->
  Forall (fun w => wants w.2 = false) ws1 -> r <> c -> calls s !! c = Some (Waiting h i) ->
  calls s !! r = Some (Waiting h i) -> future r (waiters e) = Some g -> wants g = false ->
  ahead (resume r s) h c (filter (.≠ r) ws1.*1).
Proof.
  intros Hi' Hh He Hl Hw Hf Hn Hr Hc Hrc Hg Hgw.
  assert (Forall (fun w => wants w.2 = false) (remove_waiter r ws1)) as Hn'.
  { rewrite Forall_forall in *. intros w Hin. by eapply Hn, elem_of_sublist, remove_sublist. }
  destruct (wake_ahead _ c f (remove_waiter r ws2) Hf Hn') as (f' & Hf' & Hwake).
  set (y := set_call r Raised (set_entry i (mkEntry false (remove_waiter r ws1 ++ (c, f') :: remove_waiter r ws2) (users e)) s)).
  assert (resume r s = _drop_user h i y) as Hy.
  { unfold resume. rewrite Hrc, (the_entry_eq _ _ _ He), Hg, Hl, Hw, remove_app, remove_cons. cbn [fst].
    rewrite decide_False, Hwake by (by intros ->). by destruct g. }
  rewrite Hy in *. destruct (drop_same h i y _ (lookup_insert_eq _ _ _)) as [n Hobj].
  eexists i, _, f', (remove_waiter r ws1), (remove_waiter r ws2).
  split_and!; [|exact Hobj|done|done|done|done|apply remove_fst].
  apply (i_live _ _ Hi' c h i). left.
  assert (calls (_drop_user h i y) = calls y) as -> by (unfold _drop_user; repeat case_decide; done).
  unfold y. cbn. by rewrite lookup_insert_ne.
Qed.

Lemma ahead_resume s A h c r p : inv s A -> ahead s h c p ->
  belongs_to c h (resume r s) = true \/ ahead (resume r s) h c (filter (.≠ r) p).
Proof.
  intros Hi (i & e & f & ws1 & ws2 & Hh & He & Hl & Hw & Hf & Hn & <-).
  destruct (i_table _ _ Hi h i Hh) as (e' & He' & Hok & Hu). assert (e' = e) as -> by congruence.
  destruct (sim_resume s A r Hi) as (A' & _ & Hi'). cbn [step] in Hi'.
  pose proof (h_nodup _ _ _ _ _ Hok) as Hnd. rewrite Hw, fmap_app, fmap_cons in Hnd.
  assert (c ∉ ws1.*1) as Hc1 by (apply NoDup_app in Hnd as (_ & H & _); intros Hin; apply (H c Hin); by left).
  assert (calls s !! c = Some (Waiting h i)) as Hc.
  { apply (h_wait _ _ _ _ _ Hok). rewrite Hw, fmap_app, elem_of_app. right. by left. }
  assert (r ∉ ws1.*1 -> resume r s = s -> ahead (resume r s) h c (filter (.≠ r) ws1.*1)) as Hsame.
  { intros Hr ->. rewrite filter_notin by done. exists i, e, f, ws1, ws2. by split_and!. }
  destruct (decide (calls s !! r = Some (Waiting h i))) as [Hr|Hr].
  - destruct (waiting_entry _ _ _ _ _ Hi Hr) as (e' & g & _ & He'' & _ & _ & Hg). assert (e' = e) as -> by congruence.
    destruct (decide (r = c)) as [->|Hrc].
    + assert (f = g) as <-.
      { rewrite Hw, future_app, future_cons in Hg. cbn in Hg. rewrite decide_True in Hg by done.
        destruct (future c ws1) eqn:Hf1; [|congruence]. destruct Hc1. apply future_in. eauto. }
      destruct f; try done.
      * right. apply Hsame; [done|]. unfold resume. by rewrite Hc, (the_entry_eq _ _ _ He), Hg.
      * left. unfold resume. rewrite Hc, (the_entry_eq _ _ _ He), Hg. unfold belongs_to. cbn. rewrite lookup_insert_eq.
        by apply bool_decide_eq_true.
    + right. destruct (wants g) eqn:Hgw.
      * assert (r ∉ ws1.*1) as Hr1.
        { intros [g' Hg']%future_in. rewrite Hw, future_app, Hg' in Hg. injection Hg as ->.
          by rewrite (future_wants _ _ _ Hn Hg') in Hgw. }
        destruct g; try done; [apply Hsame; [done|]; unfold resume; by rewrite Hr, (the_entry_eq _ _ _ He), Hg|].
        destruct (resume_woken _ _ _ _ _ _ Hi Hr He Hg Hok) as (ws & Hws & _). rewrite Hw in Hws.
        destruct ws1 as [|w ws1]; cbn in Hws; [congruence|]. injection Hws as -> _. by apply Forall_cons in Hn as [? _].
      * by apply (leave_ahead s A' h i e c r f g ws1 ws2).
  - right. destruct (resume_other _ _ _ _ _ Hi Hh Hr) as [Hh' Ho']. rewrite filter_notin.
    + exists i, e, f, ws1, ws2. rewrite Ho'. by split_and!.
    + intros Hin. apply Hr, (h_wait _ _ _ _ _ Hok). rewrite Hw, fmap_app, elem_of_app. by left.
Qed.

Lemma owned_resume s A h c r : inv s A -> belongs_to c h s = true -> belongs_to c h (resume r s) = true.
Proof.
  intros Hi Hb. apply (belongs_owner _ _ _ _ Hi) in Hb. destruct (sim_resume s A r Hi) as (A' & Hs & Hi').
  apply (belongs_owner _ _ _ _ Hi'). inversion Hs as [| | | | | |h' c' q HA| | |]; subst; [|done].
  destruct (decide (h = h')) as [<-|]; [by rewrite HA in Hb|]. by rewrite fn_lookup_insert_ne.
Qed.

(** The calls to run before [c] has the lock, in order. *)
Definition turns (s : Coordinator) (h : string) (c : nat) : list nat :=
  match _entries s !! h with
  | Some i => (fix upto ws := match ws with
                | [] => []
                | (c', _) :: ws => if decide (c' = c) then [c] else c' :: upto ws
                end) (waiters (the_entry s i))
  | None => []
  end.

Definition resumes (rs : list nat) (s : Coordinator) : Coordinator := fold_left (fun s r => resume r s) rs s.

Lemma resumes_owned rs s A h c : inv s A -> belongs_to c h s = true -> belongs_to c h (resumes rs s) = true.
Proof.
  revert s A. induction rs as [|r rs IH]; intros s A Hi Hb; [done|]. cbn. destruct (sim_resume s A r Hi) as (A' & _ & Hi').
  apply (IH _ A'); [done|]. by apply (owned_resume _ A).
Qed.

(** Nobody is before [c]: it has been woken. *)
Lemma ahead_first s A h c : inv s A -> ahead s h c [] -> belongs_to c h (resume c s) = true.
Proof.
  intros Hi (i & e & f & ws1 & ws2 & Hh & He & Hl & Hw & Hf & _ & Hp). destruct ws1; [|done].
  destruct (i_table _ _ Hi h i Hh) as (e' & He' & Hok & _). assert (e' = e) as -> by congruence.
  assert (calls s !! c = Some (Waiting h i)) as Hc by (apply (h_wait _ _ _ _ _ Hok); rewrite Hw; by left).
  pose proof (h_lock _ _ _ _ _ Hok) as Hlock. unfold lock_ok in Hlock. rewrite Hl, Hw in Hlock. destruct Hlock as [Hpend _].
  unfold resume. rewrite Hc, (the_entry_eq _ _ _ He), Hw. cbn [app]. rewrite future_cons. cbn [fst snd]. rewrite decide_True by done.
  destruct f; try done. unfold belongs_to. cbn. rewrite lookup_insert_eq. by apply bool_decide_eq_true.
Qed.

Lemma ahead_served rs s A h c p : inv s A -> ahead s h c p -> p ++ [c] `sublist_of` rs ->
  belongs_to c h (resumes rs s) = true.
Proof.
  revert s A p. induction rs as [|r rs IH]; intros s A p Hi Ha Hsub.
  { apply sublist_nil_r in Hsub. by destruct p. }
  cbn. destruct (sim_resume s A r Hi) as (A' & _ & Hi'). cbn [step] in Hi'.
  destruct (ahead_resume s A h c r p Hi Ha) as [Hb|Ha']; [by apply (resumes_owned _ _ A')|].
  apply (IH _ A' (filter (.≠ r) p)); [done|done|].
  apply sublist_cons_r in Hsub as [Hsub|(p' & Hp & Hsub)].
  - etrans; [|exact Hsub]. apply sublist_app; [apply sublist_filter|done].
  - destruct p as [|c' p]; cbn in Hp.
    + injection Hp as -> <-. exfalso. pose proof (ahead_first _ _ _ _ Hi Ha) as Hb.
      destruct Ha' as (i & e & f & ws1 & ws2 & Hh & He & Hl & _). apply (belongs_owner _ _ _ _ Hi') in Hb.
      destruct (i_table _ _ Hi' h i Hh) as (e' & He' & Hok & _). pose proof (h_locked _ _ _ _ _ Hok) as Hk.
      rewrite Hb in Hk. cbn in Hk. congruence.
    + injection Hp as -> <-. rewrite filter_cons, decide_False by (by intros []).
      etrans; [|exact Hsub]. apply sublist_app; [apply sublist_filter|done].
Qed.

(** The first request that was not cancelled, when nobody has the host. *)
Definition next_in_line (s : Coordinator) (h : string) : option nat :=
  i ← _entries s !! h;
  if locked (the_entry s i) then None else List.hd_error (live (waiters (the_entry s i))).

Lemma next_ahead s A h c : inv s A -> next_in_line s h = Some c ->
  exists p, ahead s h c p /\ turns s h c = p ++ [c].
Proof.
  intros Hi. unfold next_in_line, turns. destruct (_entries s !! h) as [i|] eqn:Hh; [|done]. cbn.
  destruct (i_table _ _ Hi h i Hh) as (e & He & Hok & _). rewrite (the_entry_eq _ _ _ He).
  destruct (locked e) eqn:Hl; [done|]. intros Hc.
  assert (exists f ws1 ws2, waiters e = ws1 ++ (c, f) :: ws2 /\ wants f = true /\ Forall (fun w => wants w.2 = false) ws1)
    as (f & ws1 & ws2 & Hw & Hf & Hn).
  { clear -Hc. induction (waiters e) as [|[c' f] ws IH]; [done|]. unfold live in Hc. cbn in Hc. destruct (wants f) eqn:Hf.
    - injection Hc as ->. by exists f, [], ws.
    - destruct (IH Hc) as (f' & ws1 & ws2 & -> & Hf' & Hn). exists f', ((c', f) :: ws1), ws2. by repeat constructor. }
  exists ws1.*1. split; [exists i, e, f, ws1, ws2; by split_and!|].
  pose proof (h_nodup _ _ _ _ _ Hok) as Hnd. rewrite Hw in *. clear -Hnd.
  induction ws1 as [|[c' f'] ws1 IH]; cbn; [by rewrite decide_True by done|].
  cbn in Hnd. apply NoDup_cons in Hnd as [Hni Hnd]. rewrite decide_False; [by rewrite (IH Hnd)|].
  intros ->. apply Hni. rewrite fmap_app, elem_of_app. right. by left.
Qed.

(** No request is stranded: when a host has no owner, every schedule of task
    turns that lets the tasks before the first uncancelled request, and then
    that request's own task, run in order ends with that request owning the
    host, whatever other tasks run in between. *)
Theorem lifecycle_next_served l h c rs : next_in_line (run l) h = Some c ->
  turns (run l) h c `sublist_of` rs -> belongs_to c h (resumes rs (run l)) = true.
Proof.
  intros Hn Hsub. destruct (run_inv l) as (A & _ & Hi). destruct (next_ahead _ _ _ _ Hi Hn) as (p & Ha & Ht).
  rewrite Ht in Hsub. by apply (ahead_served rs _ A _ _ p).
Qed.

(** Three requests for a host; the second is cancelled after it was woken. *)
Definition ex_ops : list Op := [OAcquire "h"; OAcquire "h"; OAcquire "h"; ORelease 0; OCancel 1].

Lemma lifecycle_next_served_witness :
  next_in_line (run ex_ops) "h" = Some 2%nat /\ turns (run ex_ops) "h" 2 = [1; 2]%nat /\
  belongs_to 2 "h" (resumes [2; 1; 0; 2]%nat (run ex_ops)) = true.
Proof.
  split; [vm_compute; reflexivity|]. split; [vm_compute; reflexivity|].
  apply lifecycle_next_served; [vm_compute; reflexivity|].
  change (turns (run ex_ops) "h" 2) with [1; 2]%nat. apply sublist_cons, sublist_skip, sublist_cons. reflexivity.
Defined.
