(* ===== verification/Enforcer.v ===== *)
(** * QUADS schedule enforcer ([inference_proxy/quads/schedule_enforcer.py])

    A background loop tears down managed nodes whose host QUADS needs within the
    lookahead window.  Every teardown owns the lifecycle lease of its host; what
    the enforcer needs of the coordinator is the class [LeaseService], which
    [Lifecycle] implements at the end of the file.

    Times are in nanoseconds of [monotonic()].  Between the [await] of the QUADS
    answer and the end of the pass nothing suspends, so [_prune_completed] and
    the loop over the registry are one step each. *)

From S2P Require Import Prelude PyDict NodeModel Lifecycle Quads.
Local Open Scope Z_scope.

(** ** State *)

Record Enforcer := mkEnf {
  _teardown_initiated : gset string;
  _retry_attempts : gmap string Z;
  _retry_after : gmap string Z;
  _retry_escalated : gset string;
}.

Definition new_enforcer : Enforcer := mkEnf ∅ ∅ ∅ ∅.

Definition _ACTIONABLE_STATUSES : list NodeStatus := [HEALTHY; UNHEALTHY; DRAINING; RELAUNCHING; RELAUNCH_FAILED].
Definition _MAX_RETRY_BACKOFF_SECONDS : Z := 3600.
Definition second : Z := 1000000000.

(** [min(max(1, interval) * 2 ** min(attempts - 1, 16), 3600)] *)
Definition retry_delay (interval attempts : Z) : Z :=
  Z.min (Z.max 1 interval * 2 ^ Z.min (attempts - 1) 16) _MAX_RETRY_BACKOFF_SECONDS.

Definition _record_teardown_failure (interval now : Z) (h : string) (e : Enforcer) : Enforcer :=
  let attempts := default 0 (_retry_attempts e !! h) + 1 in
  let delay := retry_delay interval attempts in
  mkEnf (_teardown_initiated e ∖ {[h]}) (<[h := attempts]> (_retry_attempts e))
    (<[h := now + delay * second]> (_retry_after e))
    (if (delay =? _MAX_RETRY_BACKOFF_SECONDS) && negb (bool_decide (h ∈ _retry_escalated e))
     then {[h]} ∪ _retry_escalated e else _retry_escalated e).

Definition _clear_teardown_retry (h : string) (e : Enforcer) : Enforcer :=
  mkEnf (_teardown_initiated e) (delete h (_retry_attempts e)) (delete h (_retry_after e)) (_retry_escalated e ∖ {[h]}).

Definition _prune_completed (registered : gset string) (e : Enforcer) : Enforcer :=
  let e := mkEnf (_teardown_initiated e ∩ registered) (_retry_attempts e) (_retry_after e) (_retry_escalated e) in
  fold_left (fun e h => _clear_teardown_retry h e) (elements (dom (_retry_attempts e) ∖ registered)) e.

(** ** What the coordinator promises *)

Class LeaseService (S : Type) := {
  try_reserve : string -> S -> S * option nat;      (* [try_reserve_host] *)
  release_lease : nat -> S -> S;
  good : S -> Prop;
  owns : nat -> string -> S -> Prop;
  free : string -> S -> Prop;
  (** a step of another user, who does not release these leases *)
  others : list nat -> S -> S -> Prop;
}.

Class LeaseLaws (S : Type) `{!LeaseService S} := {
  try_good : forall h s, good s -> good (fst (try_reserve h s));
  try_owned : forall h s c, good s -> snd (try_reserve h s) = Some c ->
    owns c h (fst (try_reserve h s)) /\ forall c', ~ owns c' h s;
  try_keeps : forall h s c' h', good s -> owns c' h' s -> owns c' h' (fst (try_reserve h s));
  try_free : forall h s, good s -> is_some (snd (try_reserve h s)) = true <-> free h s;
  try_other_free : forall h h' s, good s -> h <> h' -> free h (fst (try_reserve h' s)) <-> free h s;
  owns_host : forall c h h' s, good s -> owns c h s -> owns c h' s -> h = h';
  release_good : forall c s, good s -> good (release_lease c s);
  release_keeps : forall c s c' h', good s -> c' <> c -> owns c' h' s -> owns c' h' (release_lease c s);
  release_other_free : forall c h h' s, good s -> owns c h' s -> h <> h' -> free h (release_lease c s) <-> free h s;
  others_good : forall l s s', good s -> others l s s' -> good s';
  others_keep : forall l s s' c h, good s -> others l s s' -> c ∈ l -> owns c h s -> owns c h s';
}.

(** ** The system: the enforcer, the leases and its running teardowns *)

Section enforcer.
Context {S : Type} `{!LeaseService S}.
Context (interval : Z).

Record Sys := mkSys { enf : Enforcer; leases : S; tasks : list (string * nat) }.

(** The conditions of one round of the loop, up to the reservation. *)
Definition eligible (available : gset string) (now : Z) (e : Enforcer) (n : Node) : bool :=
  managed n && bool_decide (status n ∈ _ACTIONABLE_STATUSES) &&
  (negb (bool_decide (canonical_hostname (node_id n) ∈ available)) ||
   (bool_decide (status n = DRAINING) && is_some (_retry_attempts e !! node_id n))) &&
  negb (bool_decide (node_id n ∈ _teardown_initiated e)) &&
  match _retry_after e !! node_id n with None => true | Some t => t <=? now end.

(** [_schedule_teardown]: the task starts, or its failure is recorded and the
    lease goes back. *)
Definition _schedule_teardown (fires : bool) (now : Z) (h : string) (c : nat) (y : Sys) : Sys :=
  if fires then mkSys (enf y) (leases y) ((h, c) :: tasks y)
  else mkSys (_record_teardown_failure interval now h (enf y)) (release_lease c (leases y)) (tasks y).

(** One round of the loop of [_enforce_once], with its early [continue]s. *)
Definition enforce_node (available : gset string) (now : Z) (fires : string -> bool) (y : Sys) (n : Node) : Sys :=
  let e := enf y in
  let h := node_id n in
  if negb (managed n) then y
  else if negb (bool_decide (status n ∈ _ACTIONABLE_STATUSES)) then y
  else
    let retry_pending := is_some (_retry_attempts e !! h) in
    if bool_decide (canonical_hostname h ∈ available) && negb (bool_decide (status n = DRAINING) && retry_pending)
    then mkSys (_clear_teardown_retry h e) (leases y) (tasks y)
    else if bool_decide (h ∈ _teardown_initiated e) then y
    else
      let waiting := match _retry_after e !! h with Some t => now <? t | None => false end in
      if waiting then y
      else
        let e := mkEnf (_teardown_initiated e) (_retry_attempts e) (delete h (_retry_after e)) (_retry_escalated e) in
        let '(s, lease) := try_reserve h (leases y) in
        match lease with
        | None => mkSys e s (tasks y)
        | Some c =>
            let e := mkEnf ({[h]} ∪ _teardown_initiated e) (_retry_attempts e) (_retry_after e) (_retry_escalated e) in
            _schedule_teardown (fires h) now h c (mkSys e s (tasks y))
        end.

(** [available_set] *)
Definition available_set (available : list string) : gset string := list_to_set (List.map canonical_hostname available).

(** The loop of [_enforce_once] after the answer; the answer failed: [None]. *)
Definition enforce_pass (answer : option (list string)) (nodes : list Node) (now : Z) (fires : string -> bool) (y : Sys) : Sys :=
  match answer with
  | None => y
  | Some available => fold_left (enforce_node (available_set available) now fires) nodes y
  end.

Definition prune (nodes : list Node) (y : Sys) : Sys :=
  mkSys (_prune_completed (list_to_set (List.map node_id nodes)) (enf y)) (leases y) (tasks y).

(** [_teardown] returned, or raised or was cancelled, and its lease is released. *)
Definition teardown_done (h : string) (c : nat) (y : Sys) : Sys :=
  mkSys (_clear_teardown_retry h (enf y)) (release_lease c (leases y)) (List.filter (fun t => negb (bool_decide (t = (h, c)))) (tasks y)).
Definition teardown_failed (now : Z) (h : string) (c : nat) (y : Sys) : Sys :=
  mkSys (_record_teardown_failure interval now h (enf y)) (release_lease c (leases y))
    (List.filter (fun t => negb (bool_decide (t = (h, c)))) (tasks y)).

Inductive sys_step (y : Sys) : Sys -> Prop :=
| step_prune nodes : sys_step y (prune nodes y)
| step_pass answer nodes now fires : sys_step y (enforce_pass answer nodes now fires y)
| step_done h c : (h, c) ∈ tasks y -> sys_step y (teardown_done h c y)
| step_failed now h c : (h, c) ∈ tasks y -> sys_step y (teardown_failed now h c y)
| step_others s : others (tasks y).*2 (leases y) s -> sys_step y (mkSys (enf y) s (tasks y)).

Inductive reachable : Sys -> Prop :=
| reach_init s : good s -> reachable (mkSys new_enforcer s [])
| reach_step y y' : reachable y -> sys_step y y' -> reachable y'.
End enforcer.
Arguments Sys S : clear implicits.

(** ** Retry bookkeeping *)

Record enf_ok (e : Enforcer) : Prop := {
  e_after : dom (_retry_after e) ⊆ dom (_retry_attempts e);
  e_escalated : _retry_escalated e ⊆ dom (_retry_attempts e);
  e_disjoint : _teardown_initiated e ## dom (_retry_after e);
  e_attempts : forall h n, _retry_attempts e !! h = Some n -> 1 <= n;
}.

Lemma enf_ok_new : enf_ok new_enforcer.
Proof. split; cbn; set_solver. Qed.

Lemma enf_ok_clear h e : enf_ok e -> enf_ok (_clear_teardown_retry h e).
Proof.
  intros [H1 H2 H3 H4]. split; cbn; rewrite ?dom_delete_L; try set_solver.
  intros h' n [_ Hn]%lookup_delete_Some. by apply (H4 h').
Qed.

Lemma enf_ok_clears l e : enf_ok e -> enf_ok (fold_left (fun e h => _clear_teardown_retry h e) l e).
Proof. revert e. induction l as [|h l IH]; intros e He; [done|]. by apply IH, enf_ok_clear. Qed.

Lemma enf_ok_prune r e : enf_ok e -> enf_ok (_prune_completed r e).
Proof. intros [H1 H2 H3 H4]. apply enf_ok_clears. split; cbn; try done. set_solver. Qed.

Lemma enf_ok_record i now h e : enf_ok e -> enf_ok (_record_teardown_failure i now h e).
Proof.
  intros [H1 H2 H3 H4]. unfold _record_teardown_failure. split; cbn; rewrite ?dom_insert_L; try set_solver.
  - destruct (_ && _); set_solver.
  - intros h' n. rewrite lookup_insert_Some. intros [[_ <-]|[_ Hn]]; [|by apply (H4 h')].
    destruct (_retry_attempts e !! h) as [k|] eqn:Hk; cbn; [apply H4 in Hk; lia|lia].
Qed.

Lemma clears_initiated l e :
  _teardown_initiated (fold_left (fun e h => _clear_teardown_retry h e) l e) = _teardown_initiated e.
Proof. revert e. induction l as [|x l IH]; intros e; [done|]. cbn. by rewrite IH. Qed.

Section enforcer_facts.
Context {S : Type} `{!LeaseService S, !LeaseLaws S}.
Context (interval : Z).
Implicit Types (y : Sys S).

Record sys_ok y : Prop := {
  s_enf : enf_ok (enf y);
  s_good : good (leases y);
  s_hosts : NoDup (tasks y).*1;
  s_leases : NoDup (tasks y).*2;
  s_owns : forall h c, (h, c) ∈ tasks y -> owns c h (leases y);
}.

(** A bookkeeping change only. *)
Lemma sys_ok_enf y e : sys_ok y -> enf_ok e -> sys_ok (mkSys e (leases y) (tasks y)).
Proof. intros [H1 H2 H3 H4 H5] He. by split. Qed.

Lemma enf_ok_pop h e : enf_ok e ->
  enf_ok (mkEnf (_teardown_initiated e) (_retry_attempts e) (delete h (_retry_after e)) (_retry_escalated e)).
Proof. intros [H1 H2 H3 H4]. split; cbn; rewrite ?dom_delete_L; try done; set_solver. Qed.

Lemma enf_ok_add h e : enf_ok e -> _retry_after e !! h = None ->
  enf_ok (mkEnf ({[h]} ∪ _teardown_initiated e) (_retry_attempts e) (_retry_after e) (_retry_escalated e)).
Proof. intros [H1 H2 H3 H4] Hn%not_elem_of_dom. split; cbn; try done. set_solver. Qed.

Lemma task_lease y h c : sys_ok y -> (h, c) ∈ tasks y -> forall h', (h', c) ∈ tasks y -> h' = h.
Proof. intros Hy H1 h' H2. by eapply owns_host; [apply (s_good _ Hy)|eapply s_owns..]. Qed.

(** A task ends and returns its lease. *)
Lemma sys_ok_release y h c e : sys_ok y -> (h, c) ∈ tasks y -> enf_ok e ->
  sys_ok (mkSys e (release_lease c (leases y)) (List.filter (fun t => negb (bool_decide (t = (h, c)))) (tasks y))).
Proof.
  intros Hy Hin He. pose proof (task_lease y h c Hy Hin) as Hone. destruct Hy as [H1 H2 H3 H4 H5]. split; cbn; try done.
  - by apply release_good.
  - eapply sublist_NoDup; [exact H3|]. apply fmap_sublist, filter_sublist_bool.
  - eapply sublist_NoDup; [exact H4|]. apply fmap_sublist, filter_sublist_bool.
  - intros h' c' [Hin' Hne]%elem_of_filter_bool. apply release_keeps; [done| |by apply H5].
    intros ->. rewrite (Hone h' Hin') in Hne. by rewrite bool_decide_true in Hne.
Qed.

(** A granted reservation is of a host without a running teardown. *)
Lemma sys_ok_grant y h c e : sys_ok y -> snd (try_reserve h (leases y)) = Some c -> enf_ok e ->
  sys_ok (mkSys e (fst (try_reserve h (leases y))) ((h, c) :: tasks y)) /\ h ∉ (tasks y).*1.
Proof.
  intros [H1 H2 H3 H4 H5] Hc He. destruct (try_owned h (leases y) c H2 Hc) as [Hown Hnone].
  pose proof (try_good h (leases y) H2) as Hg.
  assert (h ∉ (tasks y).*1) as Hh.
  { intros ([h' c'] & -> & Hin)%list_elem_of_fmap. by apply (Hnone c'), H5. }
  split; [|done]. split; cbn; try done.
  - by constructor.
  - constructor; [|done]. intros ([h' c'] & Heq & Hin)%list_elem_of_fmap. cbn in Heq. subst c'.
    assert (h = h') as <- by (eapply owns_host; [exact Hg|exact Hown|by apply try_keeps; [|apply H5]]).
    apply Hh, list_elem_of_fmap. by exists (h, c).
  - intros h' c' [[= -> ->]|Hin]%elem_of_cons; [done|]. by apply try_keeps, H5.
Qed.

Lemma sys_ok_try y h e : sys_ok y -> enf_ok e -> sys_ok (mkSys e (fst (try_reserve h (leases y))) (tasks y)).
Proof.
  intros [H1 H2 H3 H4 H5] He. split; cbn; try done; [by apply try_good|]. intros h' c' Hin. by apply try_keeps, H5.
Qed.

(** A reservation given back at once. *)
Lemma sys_ok_return y h c e : sys_ok y -> snd (try_reserve h (leases y)) = Some c -> enf_ok e ->
  sys_ok (mkSys e (release_lease c (fst (try_reserve h (leases y)))) (tasks y)).
Proof.
  intros Hy Hc He. destruct (sys_ok_grant y h c e Hy Hc He) as [[H1 H2 H3 H4 H5] _]. cbn in *.
  apply NoDup_cons in H3 as [_ H3]. apply NoDup_cons in H4 as [Hn H4]. split; cbn; try done; [by apply release_good|].
  intros h' c' Hin. apply release_keeps; [done| |apply H5; by right]. intros ->. apply Hn, list_elem_of_fmap. by exists (h', c).
Qed.

(** The rounds that reach the reservation are the eligible ones. *)
Lemma enforce_node_eq available now fires y n :
  let e := enf y in let h := node_id n in
  let e1 := mkEnf (_teardown_initiated e) (_retry_attempts e) (delete h (_retry_after e)) (_retry_escalated e) in
  let e2 := mkEnf ({[h]} ∪ _teardown_initiated e) (_retry_attempts e) (delete h (_retry_after e)) (_retry_escalated e) in
  (eligible available now e n = true /\
   enforce_node interval available now fires y n =
     match snd (try_reserve h (leases y)) with
     | None => mkSys e1 (fst (try_reserve h (leases y))) (tasks y)
     | Some c => if fires h then mkSys e2 (fst (try_reserve h (leases y))) ((h, c) :: tasks y)
                 else mkSys (_record_teardown_failure interval now h e2) (release_lease c (fst (try_reserve h (leases y)))) (tasks y)
     end) \/
  (eligible available now e n = false /\
   (enforce_node interval available now fires y n = y \/
    enforce_node interval available now fires y n = mkSys (_clear_teardown_retry h e) (leases y) (tasks y))).
Proof.
  intros e h e1 e2. unfold eligible, enforce_node. fold h e. destruct (managed n); cbn [negb andb]; [|auto].
  destruct (bool_decide (status n ∈ _)); cbn [negb andb]; [|auto].
  destruct (bool_decide (canonical_hostname h ∈ available)); cbn [negb andb orb];
    [destruct (bool_decide (status n = DRAINING) && is_some (_retry_attempts e !! h)); cbn [negb andb]; [|auto]|].
  all: destruct (bool_decide (h ∈ _teardown_initiated e)); cbn [negb andb]; [auto|].
  all: destruct (_retry_after e !! h) as [t|]; [destruct (Z.ltb_spec now t); [right; split; [by apply Z.leb_gt|auto]|]|].
  all: left; split; [done || by apply Z.leb_le|]; destruct (try_reserve h (leases y)) as [s [c|]]; [|done]; cbn;
    unfold _schedule_teardown; by destruct (fires h).
Qed.

Lemma sys_ok_node available now fires y n : sys_ok y -> sys_ok (enforce_node interval available now fires y n).
Proof.
  intros Hy. pose proof (s_enf _ Hy) as He. pose proof (enf_ok_pop (node_id n) _ He) as Hpop.
  assert (enf_ok (mkEnf ({[node_id n]} ∪ _teardown_initiated (enf y)) (_retry_attempts (enf y))
    (delete (node_id n) (_retry_after (enf y))) (_retry_escalated (enf y)))) as Hadd.
  { by apply (enf_ok_add (node_id n) _ Hpop), lookup_delete_eq. }
  destruct (enforce_node_eq available now fires y n) as [[_ ->]|[_ [-> | ->]]].
  - destruct (snd (try_reserve (node_id n) (leases y))) as [c|] eqn:Hc; [|by apply sys_ok_try].
    destruct (fires (node_id n)); [by apply sys_ok_grant|]. by apply sys_ok_return, enf_ok_record.
  - done.
  - by apply sys_ok_enf, enf_ok_clear.
Qed.

Lemma sys_ok_nodes available now fires nodes y : sys_ok y -> sys_ok (fold_left (enforce_node interval available now fires) nodes y).
Proof. revert y. induction nodes as [|n nodes IH]; intros y Hy; [done|]. by apply IH, sys_ok_node. Qed.

Lemma sys_ok_step y y' : sys_ok y -> sys_step interval y y' -> sys_ok y'.
Proof.
  intros Hy [nodes|answer nodes now fires|h c Hin|now h c Hin|s Hs].
  - by apply sys_ok_enf, enf_ok_prune, Hy.
  - destruct answer; [by apply sys_ok_nodes|done].
  - by apply sys_ok_release, enf_ok_clear, Hy.
  - by apply sys_ok_release, enf_ok_record, Hy.
  - destruct Hy as [H1 H2 H3 H4 H5]. split; cbn; try done; [by eapply others_good|]. intros h c Hin.
    eapply others_keep; [done|done| |by apply H5]. apply list_elem_of_fmap. by exists (h, c).
Qed.

Lemma sys_ok_reachable y : reachable interval y -> sys_ok y.
Proof.
  induction 1 as [s Hs|y y' _ IH Hstep]; [|by eapply sys_ok_step].
  split; cbn; [apply enf_ok_new|done|constructor|constructor|].
  intros h c Hin. by apply elem_of_nil in Hin.
Qed.

(** ** One pass *)

(** What the enforcer knows of a host. *)
Definition view (h : string) (e : Enforcer) : bool * option Z * option Z :=
  (bool_decide (h ∈ _teardown_initiated e), _retry_attempts e !! h, _retry_after e !! h).

Lemma eligible_view available now e e' n : view (node_id n) e = view (node_id n) e' ->
  eligible available now e n = eligible available now e' n.
Proof. unfold view, eligible. by intros [= -> -> ->]. Qed.

Definition torn_down (h : string) y : Prop := exists c, (h, c) ∈ tasks y.

(** A round for another host. *)
Lemma node_other available now fires y n h : sys_ok y -> h <> node_id n ->
  let y' := enforce_node interval available now fires y n in
  view h (enf y') = view h (enf y) /\ (free h (leases y') <-> free h (leases y)) /\ (torn_down h y' <-> torn_down h y).
Proof.
  intros Hy Hne y'. unfold y', torn_down.
  assert (forall e : gset string, bool_decide (h ∈ {[node_id n]} ∪ e) = bool_decide (h ∈ e)) as Hset1
    by (intros e; apply bool_decide_ext; set_solver).
  assert (forall e : gset string, bool_decide (h ∈ e ∖ {[node_id n]}) = bool_decide (h ∈ e)) as Hset2
    by (intros e; apply bool_decide_ext; set_solver).
  destruct (enforce_node_eq available now fires y n) as [[_ ->]|[_ [-> | ->]]].
  - destruct (snd (try_reserve (node_id n) (leases y))) as [c|] eqn:Hc; [destruct (fires (node_id n))|];
      cbn; unfold view; cbn; rewrite ?Hset2, ?Hset1, ?lookup_delete_ne, ?lookup_insert_ne, ?lookup_delete_ne by done;
      (split; [done|split]); try done; try by apply try_other_free, Hne; apply Hy.
    + setoid_rewrite elem_of_cons. naive_solver.
    + rewrite <- (try_other_free h (node_id n) (leases y)) by (done || apply Hy).
      apply (release_other_free c h (node_id n)); [apply try_good, Hy|by apply try_owned, Hc; apply Hy|done].
  - done.
  - cbn. unfold view. cbn. by rewrite !lookup_delete_ne by done.
Qed.

Lemma nodes_other available now fires nodes y h : sys_ok y -> h ∉ List.map node_id nodes ->
  let y' := fold_left (enforce_node interval available now fires) nodes y in
  view h (enf y') = view h (enf y) /\ (free h (leases y') <-> free h (leases y)) /\ (torn_down h y' <-> torn_down h y).
Proof.
  cbn zeta. revert y. induction nodes as [|n nodes IH]; intros y Hy; [done|]. cbn [List.map fold_left].
  intros [Hn Hrest]%not_elem_of_cons. destruct (node_other available now fires y n h Hy Hn) as (V & F & T).
  destruct (IH _ (sys_ok_node available now fires y n Hy) Hrest) as (V' & F' & T').
  split_and!; [by rewrite V'|by rewrite F'|by rewrite T'].
Qed.

(** The round of the host itself. *)
Lemma node_same available now fires y n : sys_ok y ->
  torn_down (node_id n) (enforce_node interval available now fires y n) <->
  torn_down (node_id n) y \/
  (eligible available now (enf y) n = true /\ free (node_id n) (leases y) /\ fires (node_id n) = true).
Proof.
  intros Hy. unfold torn_down. pose proof (try_free (node_id n) (leases y) (s_good _ Hy)) as Hf.
  destruct (enforce_node_eq available now fires y n) as [[He ->]|[He Hcase]].
  - rewrite <- Hf. destruct (snd (try_reserve (node_id n) (leases y))) as [c|]; [destruct (fires (node_id n))|]; cbn.
    + setoid_rewrite elem_of_cons. naive_solver.
    + naive_solver.
    + naive_solver.
  - rewrite He. destruct Hcase as [-> | ->]; cbn; naive_solver.
Qed.

Lemma pass_exact available nodes now fires y n : sys_ok y -> NoDup (List.map node_id nodes) -> n ∈ nodes ->
  torn_down (node_id n) (enforce_pass interval (Some available) nodes now fires y) <->
  torn_down (node_id n) y \/
  (eligible (available_set available) now (enf y) n = true /\ free (node_id n) (leases y) /\ fires (node_id n) = true).
Proof.
  cbn. revert y. induction nodes as [|m nodes IH]; intros y Hy Hnd Hin; [by apply elem_of_nil in Hin|].
  cbn [List.map fold_left] in *. apply NoDup_cons in Hnd as [Hm Hnd].
  pose proof (sys_ok_node (available_set available) now fires y m Hy) as Hy'.
  apply elem_of_cons in Hin as [->|Hin].
  - destruct (nodes_other (available_set available) now fires nodes _ (node_id m) Hy' Hm) as (_ & _ & T).
    rewrite T. by apply node_same.
  - assert (node_id n <> node_id m) as Hne.
    { intros Heq. apply Hm. rewrite <- Heq. apply list_elem_of_fmap. eauto. }
    destruct (node_other (available_set available) now fires y m (node_id n) Hy Hne) as (V & F & T).
    rewrite (IH _ Hy' Hnd Hin), T, F. by rewrite (eligible_view _ _ _ _ _ V).
Qed.
End enforcer_facts.

Lemma eligible_spec available now e n : eligible (available_set available) now e n = true <->
  managed n = true /\ status n ∈ _ACTIONABLE_STATUSES /\
  (canonical_hostname (node_id n) ∉ List.map canonical_hostname available \/
   status n = DRAINING /\ is_Some (_retry_attempts e !! node_id n)) /\
  node_id n ∉ _teardown_initiated e /\ (forall t, _retry_after e !! node_id n = Some t -> t <= now).
Proof.
  unfold eligible, available_set. rewrite !andb_true_iff, orb_true_iff, !negb_true_iff, andb_true_iff, !bool_decide_eq_true, !bool_decide_eq_false.
  rewrite elem_of_list_to_set. unfold is_some, is_none.
  assert ((match _retry_after e !! node_id n with Some t => t <=? now | None => true end) = true <->
    forall t, _retry_after e !! node_id n = Some t -> t <= now) as Ha.
  { destruct (_retry_after e !! node_id n) as [t|]; [|naive_solver]. rewrite Z.leb_le. naive_solver. }
  rewrite Ha. assert (negb (match _retry_attempts e !! node_id n with Some _ => false | None => true end) = true <->
    is_Some (_retry_attempts e !! node_id n)) as Hb.
  { destruct (_retry_attempts e !! node_id n); cbn; split; done. }
  rewrite Hb. tauto.
Qed.

(** ** [Lifecycle] implements the lease service *)

#[global] Instance coordinator_service : LeaseService Coordinator := {
  try_reserve h s := let s' := try_acquire h s in (s', if belongs_to (ncalls s) h s' then Some (ncalls s) else None);
  release_lease c s := fst (release c s);
  good s := exists A, inv s A;
  owns c h s := belongs_to c h s = true;
  free h s := is_busy h s = false;
  others l s s' := exists o, s' = step s o /\ forall c, c ∈ l -> o <> ORelease c;
}.

(** Only its own release takes a lease away. *)
Lemma owner_kept s A o c h : inv s A -> o <> ORelease c -> belongs_to c h s = true ->
  belongs_to c h (step s o) = true /\ exists A', inv (step s o) A'.
Proof.
  intros Hi Ho Hb. apply (belongs_owner _ _ _ _ Hi) in Hb. destruct (inv_step s A o Hi) as (A' & Hs & Hi').
  split; [|by exists A']. apply (belongs_owner _ _ _ _ Hi').
  assert (forall h' q, (h' = h -> Lifecycle.owner q = Some c) -> Lifecycle.owner ((<[h' := q]> A : string -> Queue) h) = Some c) as Hins.
  { intros h' q Hq. destruct (decide (h' = h)) as [->|Hne]; [rewrite functions.fn_lookup_insert; by apply Hq|].
    by rewrite functions.fn_lookup_insert_ne. }
  inversion Hs as [h' HA|h'|h' HA|h'|h' c' Hc|c' Hc|h' c' q HA|c'|h' c' Hc|c' Hc]; subst; try done; apply Hins; intros ->; cbn;
    try done; try (by rewrite HA in Hb). congruence.
Qed.

Lemma try_state s h : is_busy h s = true ->
  try_acquire h s = set_call (ncalls s) Refused (new_call s).
Proof. unfold is_busy, try_acquire. cbn. by destruct (_entries s !! h). Qed.

Lemma try_grants s h : is_busy h s = false -> belongs_to (ncalls s) h (try_acquire h s) = true.
Proof.
  unfold is_busy. destruct (_entries s !! h) as [i|] eqn:Hh; [done|]. intros _. rewrite try_new, acquire_new by done.
  unfold belongs_to. cbn. rewrite lookup_insert_eq. by rewrite bool_decide_true.
Qed.

Lemma drop_entries h i s h' : h' <> h -> _entries (_drop_user h i s) !! h' = _entries s !! h'.
Proof. intros Hne. unfold _drop_user. repeat case_decide; cbn; rewrite ?lookup_delete_ne by done; done. Qed.

#[global] Instance coordinator_laws : LeaseLaws Coordinator.
Proof.
  split.
  - intros h s [A Hi]. destruct (sim_try s A h Hi) as (A' & _ & Hi'). by exists A'.
  - intros h s c [A Hi]. cbn. destruct (belongs_to (ncalls s) h (try_acquire h s)) eqn:Hb; [|done]. intros [= <-].
    split; [done|]. intros c' Hc'. destruct (is_busy h s) eqn:Hbusy.
    + rewrite try_state in Hb by done. unfold belongs_to in Hb. cbn in Hb. by rewrite lookup_insert_eq in Hb.
    + apply (belongs_owner _ _ _ _ Hi), (owner_lease _ _ _ _ Hi) in Hc' as [i Hc'].
      unfold is_busy in Hbusy. by rewrite (i_live _ _ Hi c' h i (or_intror Hc')) in Hbusy.
  - intros h s c' h' [A Hi] Hb. by apply (owner_kept s A (OTry h) c' h' Hi).
  - intros h s [A Hi]. cbn. destruct (is_busy h s) eqn:Hbusy.
    + rewrite try_state by done. unfold belongs_to. cbn. by rewrite lookup_insert_eq.
    + by rewrite try_grants.
  - intros h h' s _ Hne. cbn. unfold is_busy. destruct (_entries s !! h') as [i|] eqn:Hh'.
    + unfold try_acquire. cbn. by rewrite Hh'.
    + rewrite try_new, acquire_new by done. cbn. by rewrite lookup_insert_ne.
  - intros c h h' s _. cbn. unfold belongs_to. destruct (calls s !! c) as [[|h0 i []| |]|]; try done. cbn.
    rewrite !bool_decide_eq_true. congruence.
  - intros c s [A Hi]. destruct (sim_release s A c Hi) as ((A' & _ & Hi') & _). by exists A'.
  - intros c s c' h' [A Hi] Hne Hb. apply (owner_kept s A (ORelease c) c' h' Hi); [congruence|done].
  - intros c h h' s _ Hb Hne. cbn in *. unfold belongs_to, release, _release in *.
    destruct (calls s !! c) as [[|h0 i []| |]|]; try done. cbn in Hb. apply bool_decide_eq_true in Hb as ->.
    destruct (lock_release _); [|done]. unfold is_busy. cbn. by rewrite drop_entries.
  - intros l s s' [A Hi] (o & -> & _). destruct (inv_step s A o Hi) as (A' & _ & Hi'). by exists A'.
  - intros l s s' c h [A Hi] (o & -> & Ho) Hin Hb. by apply (owner_kept s A o c h Hi (Ho c Hin)).
Qed.

(** ** Theorems *)

(** Whatever the order of passes, prunings, teardown outcomes and other
    users' lifecycle operations: the enforcer never runs two teardowns of one
    host, every running teardown owns its host's lease, and the retry state
    stays consistent: a host with a retry time or an escalation has a positive
    attempt count, and no host is both in progress and waiting for a retry. *)
Theorem enforcer_exclusive {S} `{LeaseLaws S} interval (y : Sys S) : reachable interval y ->
  NoDup (tasks y).*1 /\ (forall h c, (h, c) ∈ tasks y -> owns c h (leases y)) /\
  (forall h, h ∈ dom (_retry_after (enf y)) \/ h ∈ _retry_escalated (enf y) ->
     exists n, _retry_attempts (enf y) !! h = Some n /\ 1 <= n) /\
  _teardown_initiated (enf y) ## dom (_retry_after (enf y)).
Proof.
  intros Hr. pose proof (sys_ok_reachable interval y Hr) as Hy. destruct (s_enf _ Hy) as [H1 H2 H3 H4].
  split_and!; [apply Hy|apply Hy| |done].
  intros h Hh. assert (h ∈ dom (_retry_attempts (enf y))) as [n Hn]%elem_of_dom by set_solver.
  exists n. split; [done|]. by apply (H4 h).
Qed.

(** A managed, healthy node. *)
Definition ex_node (id : string) : Node :=
  let n := set_status HEALTHY (Node_default id "http://10.0.0.1:8000") in
  mkNode (node_id n) (name n) (endpoint n) (status n) (model n) (engine n) (artifact_id n) (llamacpp_runtime n)
    (vllm_runtime n) (last_heartbeat n) (capabilities n) (active_connections n) true false false "" (gpus n) None.

Definition ex_start : Sys Coordinator := mkSys new_enforcer empty_coordinator [].
(** Two hosts, of which QUADS has only [b] available: a teardown of [a] starts. *)
Definition ex_pass (now : Z) (y : Sys Coordinator) : Sys Coordinator :=
  enforce_pass 300 (Some ["B.example.com."]) [ex_node "a.example.com"; ex_node "b.example.com"] now (fun _ => true) y.

Lemma ex_reachable : reachable 300 ex_start.
Proof. constructor. exists (fun _ => mkQ None []). apply inv_empty. Qed.

Lemma enforcer_exclusive_witness :
  tasks (ex_pass 0 ex_start) = [("a.example.com", 0%nat)] /\ belongs_to 0 "a.example.com" (leases (ex_pass 0 ex_start)) = true.
Proof.
  assert (tasks (ex_pass 0 ex_start) = [("a.example.com", 0%nat)]) as Ht by (vm_compute; reflexivity).
  split; [exact Ht|]. destruct (enforcer_exclusive 300 (ex_pass 0 ex_start)) as (_ & H & _).
  - eapply reach_step; [apply ex_reachable|constructor].
  - apply (H "a.example.com" 0%nat). rewrite Ht. left.
Defined.

(** C36: one pass over a registry starts exactly the teardowns it should: after
    it a teardown of the node's host runs if and only if one ran before, or
    the node is managed and in an actionable state, its host is unavailable
    in the window (or it is already draining for a failed teardown), no
    teardown was initiated, its retry time has come, its lifecycle lease is
    free and the task can be scheduled. *)
Theorem enforcer_pass_exact {S} `{LeaseLaws S} interval (y : Sys S) available nodes now fires n :
  reachable interval y -> NoDup (List.map node_id nodes) -> n ∈ nodes ->
  (exists c, (node_id n, c) ∈ tasks (enforce_pass interval (Some available) nodes now fires y)) <->
  (exists c, (node_id n, c) ∈ tasks y) \/
  (managed n = true /\ status n ∈ _ACTIONABLE_STATUSES /\
   (canonical_hostname (node_id n) ∉ List.map canonical_hostname available \/
    status n = DRAINING /\ is_Some (_retry_attempts (enf y) !! node_id n)) /\
   node_id n ∉ _teardown_initiated (enf y) /\
   (forall t, _retry_after (enf y) !! node_id n = Some t -> t <= now) /\
   free (node_id n) (leases y) /\ fires (node_id n) = true).
Proof.
  intros Hr Hnd Hn. rewrite (pass_exact interval available nodes now fires y n (sys_ok_reachable _ _ Hr) Hnd Hn).
  unfold torn_down. apply or_iff_compat_l. rewrite eligible_spec. tauto.
Qed.

Lemma enforcer_pass_exact_witness :
  exists c, ("a.example.com", c) ∈ tasks (ex_pass 0 ex_start).
Proof.
  apply (enforcer_pass_exact 300 ex_start ["B.example.com."] [ex_node "a.example.com"; ex_node "b.example.com"] 0 (fun _ => true)
    (ex_node "a.example.com")).
  - apply ex_reachable.
  - apply (bool_decide_unpack _). vm_compute. exact I.
  - left.
  - right. split; [reflexivity|]. split; [left|]. split; [left; apply (bool_decide_unpack _); vm_compute; exact I|].
    split; [apply (bool_decide_unpack _); vm_compute; exact I|]. split; [intros t Ht; discriminate Ht|]. split; reflexivity.
Defined.

Lemma retry_delay_bounds i n : 1 <= n -> 1 <= retry_delay i n <= _MAX_RETRY_BACKOFF_SECONDS.
Proof.
  intros Hn. unfold retry_delay, _MAX_RETRY_BACKOFF_SECONDS.
  assert (0 < 2 ^ Z.min (n - 1) 16) by (apply Z.pow_pos_nonneg; lia). nia.
Qed.

(** The retry delay is between one second and an hour, starts at the check
    interval, and doubles with every failure until it reaches the hour, where
    it stays. *)
Theorem retry_backoff interval n : 1 <= n ->
  1 <= retry_delay interval n <= 3600 /\
  retry_delay interval 1 = Z.min (Z.max 1 interval) 3600 /\
  retry_delay interval (n + 1) = Z.min (2 * retry_delay interval n) 3600.
Proof.
  intros Hn. split; [by apply retry_delay_bounds|]. unfold retry_delay, _MAX_RETRY_BACKOFF_SECONDS.
  split; [change (2 ^ Z.min (1 - 1) 16) with 1; lia|].
  destruct (Z_lt_ge_dec n 17) as [Hlt|Hge].
  - replace (Z.min (n + 1 - 1) 16) with (Z.succ (n - 1)) by lia. replace (Z.min (n - 1) 16) with (n - 1) by lia.
    rewrite Z.pow_succ_r by lia. lia.
  - replace (Z.min (n + 1 - 1) 16) with 16 by lia. replace (Z.min (n - 1) 16) with 16 by lia.
    change (2 ^ 16) with 65536. lia.
Qed.

Lemma retry_backoff_witness : retry_delay 300 4 = 2400 /\ retry_delay 300 (4 + 1) = Z.min (2 * retry_delay 300 4) 3600.
Proof. split; [reflexivity|]. apply (retry_backoff 300 4). lia. Defined.

(** A failed teardown is tried again within the hour: when it failed at
    [t], a pass at least an hour later over a registry where the node is still
    managed and actionable, and its host is unavailable or being drained,
    starts a new teardown if the lease is free. *)
Theorem failed_teardown_retried {S} `{LeaseLaws S} interval (y : Sys S) c t available nodes now fires n :
  reachable interval y -> (node_id n, c) ∈ tasks y -> NoDup (List.map node_id nodes) -> n ∈ nodes ->
  managed n = true -> status n ∈ _ACTIONABLE_STATUSES ->
  canonical_hostname (node_id n) ∉ List.map canonical_hostname available \/ status n = DRAINING ->
  t + 3600 * second <= now -> fires (node_id n) = true ->
  let y1 := teardown_failed interval t (node_id n) c y in
  free (node_id n) (leases y1) ->
  exists c', (node_id n, c') ∈ tasks (enforce_pass interval (Some available) nodes now fires y1).
Proof.
  intros Hr Hc Hnd Hn Hm Hs Hav Hnow Hf y1 Hfree.
  assert (sys_ok y1) as Hy1 by (eapply sys_ok_step; [by apply (sys_ok_reachable interval)|by apply step_failed]).
  apply (pass_exact interval available nodes now fires y1 n Hy1 Hnd Hn). right. split_and!; [|done|done].
  apply eligible_spec. cbn. rewrite !lookup_insert_eq. split_and!; [done|done| | |].
  - destruct Hav; [by left|right; eauto].
  - set_solver.
  - intros t' [= <-]. pose proof (e_attempts _ (s_enf _ (sys_ok_reachable interval y Hr)) (node_id n)) as Ha.
    assert (1 <= default 0 (_retry_attempts (enf y) !! node_id n) + 1) as H1.
    { destruct (_retry_attempts (enf y) !! node_id n) as [k|]; cbn; [specialize (Ha k eq_refl)|]; lia. }
    pose proof (retry_delay_bounds interval _ H1). unfold second, _MAX_RETRY_BACKOFF_SECONDS in *. lia.
Qed.

Lemma failed_teardown_retried_witness :
  let y1 := teardown_failed 300 5 "a.example.com" 0 (ex_pass 0 ex_start) in
  exists c', ("a.example.com", c') ∈ tasks (ex_pass (3601 * second) y1).
Proof.
  apply (failed_teardown_retried 300 (ex_pass 0 ex_start) 0 5 ["B.example.com."]
    [ex_node "a.example.com"; ex_node "b.example.com"] (3601 * second) (fun _ => true) (ex_node "a.example.com")).
  - eapply reach_step; [apply ex_reachable|constructor].
  - assert (tasks (ex_pass 0 ex_start) = [("a.example.com", 0%nat)]) as -> by (vm_compute; reflexivity). left.
  - apply (bool_decide_unpack _). vm_compute. exact I.
  - left.
  - reflexivity.
  - left.
  - left. apply (bool_decide_unpack _). vm_compute. exact I.
  - vm_compute. discriminate.
  - reflexivity.
  - vm_compute. reflexivity.
Defined.

(** A finished teardown keeps its host marked as in progress until a
    pruning finds it unregistered: when the host is registered again before
    that, no later pass tears it down, though QUADS wants it and nothing runs. *)
Theorem reregistered_host_not_enforced :
  let y1 := teardown_done "a.example.com" 0 (ex_pass 0 ex_start) in
  let y2 := prune [ex_node "a.example.com"] y1 in
  forall now, tasks (ex_pass now y2) = [] /\ is_busy "a.example.com" (leases y2) = false /\
    _teardown_initiated (enf (ex_pass now y2)) = {["a.example.com"]}.
Proof. intros y1 y2 now. split_and!; vm_compute; reflexivity. Qed.
