(* ===== verification/LogBuffer.v ===== *)
(** * Provisioning log buffers ([inference_proxy/provisioning/log_buffer.py])

    [ProvisioningLogBuffer] keeps, per host, the tail of the log of the current
    operation.  Consumers hold on to the log object of one generation, so logs
    are heap objects: [_hosts] maps a host to a handle.  Messages are sequences
    of code points and byte counts are those of their UTF-8 encoding.

    The persistent attempt store is an argument: its calls answer with the new
    store state, [None] when they raise. *)

From S2P Require Import Prelude PyDict.
Local Open Scope Z_scope.

(** ** UTF-8 *)

Definition text : Type := list Z.

(** [chr(c).encode("utf-8")] *)
Definition utf8_char (c : Z) : list Z :=
  if c <? 128 then [c]
  else if c <? 2048 then [192 + c / 64; 128 + c mod 64]
  else if c <? 65536 then [224 + c / 4096; 128 + c / 64 mod 64; 128 + c mod 64]
  else [240 + c / 262144; 128 + c / 4096 mod 64; 128 + c / 64 mod 64; 128 + c mod 64].

Definition utf8_encode (s : text) : list Z := concat (List.map utf8_char s).

(** [b.decode("utf-8", errors="ignore")] for a [b] cut out of an encoding: an
    incomplete last character is dropped. *)
Fixpoint utf8_decode_ignore (b : list Z) : text :=
  match b with
  | [] => []
  | x :: b =>
      if x <? 128 then x :: utf8_decode_ignore b
      else if x <? 224 then
        match b with y :: b => (x - 192) * 64 + (y - 128) :: utf8_decode_ignore b | _ => [] end
      else if x <? 240 then
        match b with
        | y :: z :: b => (x - 224) * 4096 + (y - 128) * 64 + (z - 128) :: utf8_decode_ignore b
        | _ => [] end
      else
        match b with
        | y :: z :: t :: b =>
            (x - 240) * 262144 + (y - 128) * 4096 + (z - 128) * 64 + (t - 128) :: utf8_decode_ignore b
        | _ => [] end
  end.

Definition blen (s : text) : Z := Z.of_nat (length (utf8_encode s)).

(** ** Data *)

Record LogEntry := { ts : Z; level : string; msg : text; stream : option string }.

Record StoredEntry := { position : Z; entry : LogEntry; entry_bytes : Z }.

(** [_HostLog]; its condition variable only wakes readers up. *)
Record HostLog := mkLog {
  entries : list StoredEntry;
  complete : bool;
  completed_sequence : option Z;
  message_bytes : Z;
  next_position : Z;
}.

Definition new_log : HostLog := mkLog [] false None 0 0.

Record Limits := {
  max_entries_per_host : Z; max_bytes_per_host : Z; max_entry_bytes : Z; max_completed_hosts : Z;
}.

(** [b" ... [truncated]"] *)
Definition _TRUNCATION_MARKER : text :=
  [32; 46; 46; 46; 32; 91; 116; 114; 117; 110; 99; 97; 116; 101; 100; 93].

(** The checks of [__init__]. *)
Definition check_limits (l : Limits) : result string unit :=
  raise_if (max_entries_per_host l <? 1) "max_entries_per_host must be at least 1" ;?
  raise_if (max_bytes_per_host l <? 1) "max_bytes_per_host must be at least 1" ;?
  raise_if ((max_entry_bytes l <? blen _TRUNCATION_MARKER) || (max_bytes_per_host l <? max_entry_bytes l))
    "max_entry_bytes must fit the truncation marker and not exceed max_bytes_per_host" ;?
  raise_if (max_completed_hosts l <? 1) "max_completed_hosts must be at least 1".

(** ** One host's log *)

Section host_log.
Context (lim : Limits).

Definition _truncate_message (m : text) : text :=
  if blen m <=? max_entry_bytes lim then m
  else
    let available := max_entry_bytes lim - blen _TRUNCATION_MARKER in
    utf8_decode_ignore (take (Z.to_nat available) (utf8_encode m)) ++ _TRUNCATION_MARKER.

(** The loop of [_trim]: entries leave at the front. *)
Fixpoint trim (l : list StoredEntry) (bytes : Z) : list StoredEntry * Z :=
  match l with
  | [] => ([], bytes)
  | e :: l' =>
      if (max_entries_per_host lim <? Z.of_nat (length l)) || (max_bytes_per_host lim <? bytes)
      then trim l' (bytes - entry_bytes e) else (l, bytes)
  end.

Definition _trim (h : HostLog) : HostLog :=
  let '(l, bytes) := trim (entries h) (message_bytes h) in
  mkLog l (complete h) (completed_sequence h) bytes (next_position h).

(** The in-memory half of [append]. *)
Definition append_log (now : Z) (lvl : string) (m : text) (st : option string) (h : HostLog) : HostLog :=
  let bounded := _truncate_message m in
  let bytes := blen bounded in
  let e := {| ts := now; level := lvl; msg := bounded; stream := st |} in
  _trim (mkLog (entries h ++ [{| position := next_position h; entry := e; entry_bytes := bytes |}])
    (complete h) (completed_sequence h) (message_bytes h + bytes) (next_position h + 1)).
End host_log.

(** ** Readers

    [iter_from] gives control away at every [yield] and while it waits.  A
    reader is at the top of its loop, between the gap notice and the entry that
    follows it (with the front position it had seen), or asleep. *)

Inductive Reader := AtTop (cursor : Z) | AfterGap (cursor first_position : Z) | Asleep (cursor : Z) | Finished.

Inductive Output := Gap (pos count : Z) | Entry (pos : Z) (e : LogEntry).

Definition front (h : HostLog) : option Z :=
  match entries h with e :: _ => Some (position e) | [] => None end.

(** [if host_log.complete: return], then the check under the condition's lock. *)
Definition reader_tail (h : HostLog) (cursor : Z) : Reader :=
  if complete h then Finished
  else
    let first_position := match front h with Some p => p | None => next_position h end in
    if (next_position h <=? cursor) && negb (cursor <? first_position) then Asleep cursor else AtTop cursor.

(** [offset = cursor - first_position] and the [yield] of the entry there. *)
Definition reader_entry (h : HostLog) (cursor first_position : Z) : Reader * option Output :=
  let offset := cursor - first_position in
  match (if 0 <=? offset then entries h !! Z.to_nat offset else None) with
  | Some e => (AtTop (position e + 1), Some (Entry (position e) (entry e)))
  | None => (reader_tail h cursor, None)
  end.

(** One step up to the next [yield] or wait. *)
Definition reader_step (h : HostLog) (r : Reader) : Reader * option Output :=
  match r with
  | AtTop cursor =>
      match front h with
      | Some first_position =>
          if cursor <? first_position
          then (AfterGap first_position first_position, Some (Gap (first_position - 1) (first_position - cursor)))
          else reader_entry h cursor first_position
      | None => (reader_tail h cursor, None)
      end
  | AfterGap cursor first_position => reader_entry h cursor first_position
  | Asleep cursor => (AtTop cursor, None)
  | Finished => (Finished, None)
  end.

(** [iter_from(hostname, pos)] begins at [max(0, pos)]. *)
Definition iter_from (pos : Z) : Reader := AtTop (Z.max 0 pos).

(** ** The buffer of all hosts *)

(** What the attempt store is told. *)
Inductive StoreCall :=
| SCreate (hostname : string)
| SAppend (attempt : string) (m : text) (level : string) (stream : option string)
| SInterrupted (attempt : string)
| SFinish (attempt : string).       (* [store.get], then [store.update] *)

Section buffer.
Context {X : Type}.
(** A store call: the new state and, for [SCreate], the attempt id; [None] when
    the call raises. *)
Context (call : StoreCall -> X -> X * option string).
Context (lim : Limits).

Record Buffer := mkBuf {
  logs : gmap nat HostLog;              (* every log object ever created *)
  fresh : nat;
  _hosts : list (string * nat);
  attempts : list (string * string);
  _completion_sequence : Z;
  store : option X;
}.

Implicit Types (b : Buffer).

Definition empty_buffer (st : option X) : Buffer := mkBuf ∅ 0 [] [] 0 st.

Definition with_log (i : nat) (h : HostLog) b : Buffer :=
  mkBuf (<[i := h]> (logs b)) (fresh b) (_hosts b) (attempts b) (_completion_sequence b) (store b).

Definition with_hosts (d : list (string * nat)) b : Buffer :=
  mkBuf (logs b) (fresh b) d (attempts b) (_completion_sequence b) (store b).

(** [self.store.call(self.attempts[hostname], ...)]: a missing attempt is a
    [KeyError]. *)
Definition store_call (host : string) (c : string -> StoreCall) b : Buffer * bool :=
  match store b with
  | None => (b, true)
  | Some x =>
      match dget host (attempts b) with
      | None => (b, false)
      | Some a =>
          let '(x, r) := call (c a) x in
          (mkBuf (logs b) (fresh b) (_hosts b) (attempts b) (_completion_sequence b) (Some x), is_some r)
      end
  end.

Definition _close (i : nat) b : Buffer :=
  match logs b !! i with
  | None => b
  | Some h =>
      if complete h then b
      else
        let seq := _completion_sequence b + 1 in
        mkBuf (<[i := mkLog (entries h) true (Some seq) (message_bytes h) (next_position h)]> (logs b))
          (fresh b) (_hosts b) (attempts b) seq (store b)
  end.

(** The flag of the operations below is [false] when they raise. *)

(** The first half of [create]: the previous generation leaves the table and is
    closed. *)
Definition displace (host : string) b : Buffer * bool :=
  let previous := dget host (_hosts b) in
  let b := with_hosts (dpop host (_hosts b)) b in
  match previous with
  | None => (b, true)
  | Some i =>
      let '(b, ok) := match logs b !! i with
                      | Some h => if complete h then (b, true) else store_call host SInterrupted b
                      | None => (b, true)
                      end in
      if ok then (_close i b, true) else (b, false)
  end.

Definition create (host : string) b : Buffer * bool :=
  let '(b, ok) := displace host b in
  if negb ok then (b, false)
  else
    let b := mkBuf (<[fresh b := new_log]> (logs b)) (S (fresh b)) (dset host (fresh b) (_hosts b))
               (attempts b) (_completion_sequence b) (store b) in
    match store b with
    | None => (b, true)
    | Some x =>
        let '(x, r) := call (SCreate host) x in
        match r with
        | None => (mkBuf (logs b) (fresh b) (_hosts b) (attempts b) (_completion_sequence b) (Some x), false)
        | Some a =>
            (mkBuf (logs b) (fresh b) (_hosts b) (dset host a (attempts b)) (_completion_sequence b) (Some x), true)
        end
    end.

Definition append (now : Z) (host level : string) (m : text) (stream : option string) (persist : bool) b
  : Buffer * bool :=
  match dget host (_hosts b) with
  | None => (b, true)
  | Some i =>
      let '(b, ok) := if persist then store_call host (fun a => SAppend a m level stream) b else (b, true) in
      if negb ok then (b, false)
      else match logs b !! i with
           | Some h => (with_log i (append_log lim now level m stream h) b, true)
           | None => (b, true)
           end
  end.

(** The hosts whose log is complete, oldest completion first. *)
Definition completed_hosts b : list (Z * string) :=
  sort_by (fun x y => fst x <=? fst y)
    (omap (fun kv => h ← logs b !! snd kv; s ← completed_sequence h; Some (s, fst kv)) (_hosts b)).

(** One round of the eviction loop. *)
Definition evict (b : Buffer) (host : string) : Buffer :=
  match dget host (_hosts b) with
  | None => b
  | Some i =>
      let b := _close i b in
      mkBuf (logs b) (fresh b) (dpop host (_hosts b)) (dpop host (attempts b)) (_completion_sequence b) (store b)
  end.

(** [completed[: -self._max_completed_hosts]] *)
Definition _evict_completed b : Buffer :=
  let completed := completed_hosts b in
  let n := (length completed - Z.to_nat (max_completed_hosts lim))%nat in
  fold_left evict (List.map snd (take n completed)) b.

Definition mark_complete (host : string) b : Buffer * bool :=
  match dget host (_hosts b) with
  | None => (b, true)
  | Some i =>
      let '(b, ok) := store_call host SFinish (_close i b) in
      if ok then (_evict_completed b, true) else (b, false)
  end.

Definition has (host : string) b : bool := dmem host (_hosts b).

Definition get_entries (host : string) b : list LogEntry :=
  match dget host (_hosts b) with
  | Some i => match logs b !! i with Some h => List.map entry (entries h) | None => [] end
  | None => []
  end.
End buffer.
Arguments Buffer X : clear implicits.

(** ** Truncation *)

(** A Unicode scalar value: surrogates have no encoding. *)
Definition scalar (c : Z) : Prop := 0 <= c < 1114112 /\ ~ 55296 <= c < 57344.

(** The longest prefix whose encoding fits. *)
Fixpoint fit (n : nat) (s : text) : text :=
  match s with
  | [] => []
  | c :: s => if decide (length (utf8_char c) <= n)%nat then c :: fit (n - length (utf8_char c)) s else []
  end.

Ltac utf8_cases c :=
  unfold utf8_char; destruct (Z.ltb_spec c 128); [|destruct (Z.ltb_spec c 2048); [|destruct (Z.ltb_spec c 65536)]].

Ltac utf8_branch :=
  repeat match goal with
  | |- context [?a <? ?b] => destruct (Z.ltb_spec a b); [try (exfalso; Z.to_euclidean_division_equations; lia)|
                                                         try (exfalso; Z.to_euclidean_division_equations; lia)]
  end.

Lemma decode_char c rest : scalar c -> utf8_decode_ignore (utf8_char c ++ rest) = c :: utf8_decode_ignore rest.
Proof.
  intros Hc. unfold scalar in Hc. utf8_cases c; cbn [app utf8_decode_ignore]; utf8_branch;
    f_equal; Z.to_euclidean_division_equations; lia.
Qed.

Lemma decode_partial c n : scalar c -> (n < length (utf8_char c))%nat ->
  utf8_decode_ignore (take n (utf8_char c)) = [].
Proof.
  intros Hc. unfold scalar in Hc. utf8_cases c; cbn [length]; intros Hn;
    (destruct n as [|[|[|[|n]]]]; [| | | |lia]); try lia; cbn [take utf8_decode_ignore]; utf8_branch; done.
Qed.

Lemma decode_take s n : Forall scalar s -> utf8_decode_ignore (take n (utf8_encode s)) = fit n s.
Proof.
  intros Hs. revert n. induction Hs as [|c s Hc Hs IH]; intros n; cbn; [by rewrite take_nil|].
  rewrite take_app. case_decide as Hn.
  - rewrite take_ge by done. rewrite decode_char by done. by rewrite <- IH.
  - rewrite (proj2 (Nat.sub_0_le n _)) by lia. rewrite take_0, app_nil_r. apply decode_partial; [done|lia].
Qed.

Lemma fit_prefix n s : exists rest, s = fit n s ++ rest /\ (length (utf8_encode (fit n s)) <= n)%nat.
Proof.
  revert n. induction s as [|c s IH]; intros n; cbn; [exists []; split; [done|lia]|].
  case_decide as Hn; [|exists (c :: s); split; [done|cbn; lia]].
  destruct (IH (n - length (utf8_char c))%nat) as (rest & Hr & Hlen). exists rest. cbn. split; [by f_equal|].
  unfold utf8_encode in *. rewrite length_app. lia.
Qed.

Lemma fit_all n s : (length (utf8_encode s) <= n)%nat -> fit n s = s.
Proof.
  revert n. induction s as [|c s IH]; intros n; cbn; [done|]. unfold utf8_encode in *. rewrite length_app. intros Hn.
  rewrite decide_True by lia. rewrite IH; [done|lia].
Qed.

Lemma blen_app a b : blen (a ++ b) = blen a + blen b.
Proof. unfold blen, utf8_encode. rewrite List.map_app, concat_app, length_app. lia. Qed.

Definition limits_ok (lim : Limits) : Prop :=
  1 <= max_entries_per_host lim /\ blen _TRUNCATION_MARKER <= max_entry_bytes lim <= max_bytes_per_host lim /\
  1 <= max_completed_hosts lim.

Lemma check_limits_spec lim : check_limits lim = Ok tt <-> limits_ok lim.
Proof.
  unfold check_limits, limits_ok, raise_if. change (blen _TRUNCATION_MARKER) with 16.
  repeat match goal with |- context [?a <? ?b] => destruct (Z.ltb_spec a b) end; cbn; split; try done; lia.
Qed.

Lemma truncate_bound lim m : limits_ok lim -> Forall scalar m -> blen (_truncate_message lim m) <= max_entry_bytes lim.
Proof.
  intros (_ & [Hm _] & _) Hs. unfold _truncate_message. destruct (Z.leb_spec (blen m) (max_entry_bytes lim)); [done|].
  rewrite blen_app, decode_take by done.
  destruct (fit_prefix (Z.to_nat (max_entry_bytes lim - blen _TRUNCATION_MARKER)) m) as (rest & _ & Hlen).
  unfold blen at 1. lia.
Qed.

(** ** The retained tail of the full log *)

Definition sum_bytes (l : list StoredEntry) : Z := foldr (fun e n => entry_bytes e + n) 0 l.

(** [h] retains the end of the unbounded log [full], within the limits. *)
Record tail_of (lim : Limits) (h : HostLog) (full : list LogEntry) : Prop := {
  t_next : next_position h = Z.of_nat (length full);
  t_split : exists dropped, full = dropped ++ List.map entry (entries h);
  t_pos : forall i e, entries h !! i = Some e ->
    position e = next_position h - Z.of_nat (length (entries h)) + Z.of_nat i;
  t_bytes : message_bytes h = sum_bytes (entries h);
  t_entry : Forall (fun e => entry_bytes e = blen (msg (entry e)) /\ entry_bytes e <= max_entry_bytes lim) (entries h);
  t_count : Z.of_nat (length (entries h)) <= max_entries_per_host lim;
  t_total : message_bytes h <= max_bytes_per_host lim;
  t_newest : full <> [] -> entries h <> [];
}.

Lemma sum_bytes_app l1 l2 : sum_bytes (l1 ++ l2) = sum_bytes l1 + sum_bytes l2.
Proof. unfold sum_bytes. induction l1 as [|e l IH]; cbn; [done|]. rewrite IH. lia. Qed.

(** Trimming drops a prefix, stops within the limits, and keeps the newest entry. *)
Lemma trim_spec lim l bytes : limits_ok lim -> bytes = sum_bytes l ->
  Forall (fun e => entry_bytes e <= max_entry_bytes lim) l ->
  exists k, trim lim l bytes = (drop k l, sum_bytes (drop k l)) /\
    Z.of_nat (length (drop k l)) <= max_entries_per_host lim /\ sum_bytes (drop k l) <= max_bytes_per_host lim /\
    (l <> [] -> drop k l <> []).
Proof.
  intros (H1 & [H0 H2] & _) Hb Hf. revert bytes Hb. change (blen _TRUNCATION_MARKER) with 16 in H0.
  induction Hf as [|e l He Hf IH]; intros bytes Hb; [by exists 0%nat; subst bytes; cbn; split_and!; [done|lia|lia|]|].
  cbn [trim]. destruct ((max_entries_per_host lim <? Z.of_nat (length (e :: l))) || (max_bytes_per_host lim <? bytes)) eqn:Hc.
  - destruct (IH (bytes - entry_bytes e)) as (k & Hk & Hn & Hs & Hne); [subst bytes; change (sum_bytes (e :: l)) with (entry_bytes e + sum_bytes l); lia|].
    exists (S k). cbn [drop]. split_and!; [done|done|done|]. intros _. apply Hne. intros ->.
    cbn in Hb. apply orb_true_iff in Hc as [Hc%Z.ltb_lt|Hc%Z.ltb_lt]; cbn in Hc; lia.
  - exists 0%nat. apply orb_false_iff in Hc as [Hc1%Z.ltb_ge Hc2%Z.ltb_ge]. cbn [drop]. subst bytes. by split_and!.
Qed.

Lemma tail_of_new lim : limits_ok lim -> tail_of lim new_log [].
Proof.
  intros (H1 & [H0 H2] & _). change (blen _TRUNCATION_MARKER) with 16 in H0.
  split; cbn; try done; [by exists []|lia|lia].
Qed.

(** The entry [append] stores. *)
Definition stored_entry (lim : Limits) (now : Z) (lvl : string) (m : text) (st : option string) : LogEntry :=
  {| ts := now; level := lvl; msg := _truncate_message lim m; stream := st |}.

Lemma tail_of_append lim h full now lvl m st : limits_ok lim -> Forall scalar m -> tail_of lim h full ->
  tail_of lim (append_log lim now lvl m st h) (full ++ [stored_entry lim now lvl m st]).
Proof.
  intros Hl Hm Hh. pose proof (truncate_bound lim m Hl Hm) as Hb. destruct Hh as [Hn [dr Hsp] Hp Hby He Hc Ht Hne].
  unfold append_log, _trim. cbn [entries message_bytes complete completed_sequence next_position].
  set (e := {| position := next_position h; entry := _; entry_bytes := _ |}).
  destruct (trim_spec lim (entries h ++ [e]) (message_bytes h + blen (_truncate_message lim m)) Hl) as (k & -> & H1 & H2 & H3).
  { rewrite sum_bytes_app, Hby. cbn. lia. }
  { apply Forall_app. split; [eapply Forall_impl; [exact He|]; by intros ? []|]. by apply Forall_singleton. }
  assert (k <= length (entries h))%nat as Hk.
  { assert (drop k (entries h ++ [e]) <> []) as Hd by (apply H3; by destruct (entries h)).
    destruct (decide (k <= length (entries h))%nat); [done|]. exfalso. apply Hd. apply drop_ge. rewrite length_app. cbn. lia. }
  split; cbn [entries message_bytes next_position]; try done.
  - rewrite length_app, Hn. cbn. lia.
  - exists (dr ++ List.map entry (take k (entries h ++ [e]))). rewrite <- app_assoc, <- List.map_app, take_drop, List.map_app, Hsp.
    by rewrite <- app_assoc.
  - intros i x. rewrite lookup_drop, length_drop, length_app. cbn [length]. intros Hx.
    apply lookup_app_Some in Hx as [Hx|[Hge Hx]].
    + specialize (Hp _ _ Hx). lia.
    + apply list_lookup_singleton_Some in Hx as [? <-]. cbn. lia.
  - apply Forall_drop, Forall_app. split; [done|]. by apply Forall_singleton.
  - intros _. apply H3. by destruct (entries h).
Qed.

Lemma tail_of_close lim h full seq : tail_of lim h full ->
  tail_of lim (mkLog (entries h) true seq (message_bytes h) (next_position h)) full.
Proof. by intros []. Qed.

(** The entry at an absolute position. *)
Lemma tail_lookup lim h full i e : tail_of lim h full -> entries h !! i = Some e ->
  0 <= position e < next_position h /\ full !! Z.to_nat (position e) = Some (entry e).
Proof.
  intros [Hn [dr Hsp] Hp _ _ _ _ _] He. pose proof (Hp i e He) as Hpos. pose proof (lookup_lt_Some _ _ _ He) as Hi.
  assert (length full = length dr + length (entries h))%nat as Hlen by (by rewrite Hsp, length_app, length_map).
  split; [lia|]. rewrite Hsp, lookup_app_r by lia.
  replace (Z.to_nat (position e) - length dr)%nat with i by lia. change (List.map entry) with (fmap (M := list) entry).
  by rewrite list_lookup_fmap, He.
Qed.

Lemma tail_front lim h full p : tail_of lim h full -> front h = Some p ->
  p = next_position h - Z.of_nat (length (entries h)) /\ entries h <> [].
Proof.
  intros Hh. unfold front. destruct (entries h) as [|e l] eqn:Hl; [done|]. intros [= <-].
  split; [|done]. pose proof (t_pos _ _ _ Hh 0%nat e) as Hp. rewrite Hl in Hp. specialize (Hp eq_refl). lia.
Qed.

Lemma tail_front_None lim h full : tail_of lim h full -> front h = None -> next_position h = 0 /\ entries h = [].
Proof.
  intros Hh. unfold front. destruct (entries h) as [|e l] eqn:Hl; [|done]. intros _. split; [|done].
  pose proof (t_newest _ _ _ Hh) as Hne. pose proof (t_next _ _ _ Hh) as Hn. rewrite Hl in Hne.
  destruct full; [done|]. by destruct Hne.
Qed.


(** ** A reader beside a writer *)

Inductive Act :=
| AAppend (now : Z) (lvl : string) (m : text) (st : option string)
| AClose (seq : Z)
| ARead.

(** [r_full] is everything ever appended, [r_calm] says that nothing was
    appended while the reader was between a gap notice and the next entry. *)
Record Run := mkRun {
  r_log : HostLog; r_full : list LogEntry; r_reader : Reader; r_out : list Output; r_calm : bool;
}.

Definition between (r : Reader) : bool := match r with AfterGap _ _ => true | _ => false end.

Definition exec (lim : Limits) (x : Run) (a : Act) : Run :=
  match a with
  | AAppend now lvl m st =>
      mkRun (append_log lim now lvl m st (r_log x)) (r_full x ++ [stored_entry lim now lvl m st])
        (r_reader x) (r_out x) (r_calm x && negb (between (r_reader x)))
  | AClose seq =>
      mkRun (mkLog (entries (r_log x)) true (Some seq) (message_bytes (r_log x)) (next_position (r_log x)))
        (r_full x) (r_reader x) (r_out x) (r_calm x)
  | ARead =>
      let '(r, o) := reader_step (r_log x) (r_reader x) in
      mkRun (r_log x) (r_full x) r (r_out x ++ option_list o) (r_calm x)
  end.

Definition run (lim : Limits) (pos : Z) (l : list Act) : Run :=
  fold_left (exec lim) l (mkRun new_log [] (iter_from pos) [] true).

(** Outputs that cover positions one after the other, from [c] on. *)
Fixpoint tiled (c : Z) (l : list Output) : option Z :=
  match l with
  | [] => Some c
  | Gap p n :: l => if (0 <? n) && (p =? c + n - 1) then tiled (p + 1) l else None
  | Entry p _ :: l => if p =? c then tiled (p + 1) l else None
  end.

Definition truthful (full : list LogEntry) (o : Output) : Prop :=
  match o with Gap _ n => 0 < n | Entry p e => 0 <= p /\ full !! Z.to_nat p = Some e end.

(** Entries come in the order of the log, each at most once, all below [c]. *)
Fixpoint increasing (c : Z) (l : list Output) : option Z :=
  match l with
  | [] => Some c
  | Gap _ _ :: l => increasing c l
  | Entry p _ :: l => if c <=? p then increasing (p + 1) l else None
  end.

Definition cursor_of (r : Reader) (c : Z) : Prop :=
  match r with AtTop x | AfterGap x _ | Asleep x => x = c | Finished => True end.

Lemma tiled_app c l1 l2 : tiled c (l1 ++ l2) = c' ← tiled c l1; tiled c' l2.
Proof.
  revert c. induction l1 as [|[p n|p e] l IH]; intros c; cbn; [done| |]; case_match; cbn; auto.
Qed.

Lemma increasing_app c l1 l2 : increasing c (l1 ++ l2) = c' ← increasing c l1; increasing c' l2.
Proof.
  revert c. induction l1 as [|[p n|p e] l IH]; intros c; cbn; [done|auto|]; case_match; cbn; auto.
Qed.

Definition action_ok (a : Act) : Prop := match a with AAppend _ _ m _ => Forall scalar m | _ => True end.

Record reader_inv (lim : Limits) (c0 : Z) (x : Run) : Prop := {
  i_tail : tail_of lim (r_log x) (r_full x);
  i_true : Forall (truthful (r_full x)) (r_out x);
  i_up : exists c, increasing c0 (r_out x) = Some c /\ forall y, cursor_of (r_reader x) y -> c <= y \/ r_reader x = Finished;
  i_tiled : r_calm x = true -> exists c, tiled c0 (r_out x) = Some c /\ cursor_of (r_reader x) c;
  i_nonneg : forall c, cursor_of (r_reader x) c -> 0 <= c \/ r_reader x = Finished;
  i_gap : forall c f, r_reader x = AfterGap c f -> c = f /\ entries (r_log x) <> [] /\
    (exists p, front (r_log x) = Some p /\ f <= p /\ (r_calm x = true -> p = f));
}.

Lemma append_length lim now lvl m st h :
  (length (entries (append_log lim now lvl m st h)) <= S (length (entries h)))%nat.
Proof.
  unfold append_log, _trim. cbn [entries message_bytes].
  assert (forall l b, (length (fst (trim lim l b)) <= length l)%nat) as Ht.
  { induction l as [|e l IH]; intros b; cbn [trim]; [done|]. case_match; cbn [fst length]; [|lia].
    specialize (IH (b - entry_bytes e)). lia. }
  match goal with |- context [trim lim ?l ?b] => specialize (Ht l b); destruct (trim lim l b) as [l' b'] end.
  cbn [fst entries] in *. rewrite length_app in Ht. cbn in Ht. lia.
Qed.

Lemma inv_append lim c0 x now lvl m st : limits_ok lim -> Forall scalar m -> reader_inv lim c0 x ->
  reader_inv lim c0 (exec lim x (AAppend now lvl m st)).
Proof.
  intros Hl Hm [Ht Htr Hup Hti Hnn Hg]. pose proof (tail_of_append lim _ _ now lvl m st Hl Hm Ht) as Ht'. split; cbn; try done.
  - eapply Forall_impl; [exact Htr|]. intros [p n|p e]; [done|]. intros [Hp He]. split; [done|].
    by apply lookup_app_l_Some.
  - intros [Hc _]%andb_true_iff. by apply Hti.
  - intros c f Hr. destruct (Hg c f Hr) as (-> & Hne & p & Hf & Hle & _). split; [done|].
    assert (entries (append_log lim now lvl m st (r_log x)) <> []) as Hne' by (apply (t_newest _ _ _ Ht'); by destruct (r_full x)).
    split; [done|]. destruct (front (append_log lim now lvl m st (r_log x))) as [p'|] eqn:Hf'.
    + exists p'. split; [done|]. destruct (tail_front _ _ _ _ Ht' Hf') as [-> _]. destruct (tail_front _ _ _ _ Ht Hf) as [-> _].
      pose proof (append_length lim now lvl m st (r_log x)). split; [|rewrite Hr; cbn; by rewrite andb_false_r].
      rewrite (t_next _ _ _ Ht'), length_app. rewrite (t_next _ _ _ Ht) in Hle. cbn. lia.
    + by destruct (tail_front_None _ _ _ Ht' Hf').
Qed.

Lemma inv_close lim c0 x seq : reader_inv lim c0 x -> reader_inv lim c0 (exec lim x (AClose seq)).
Proof. intros [Ht Htr Hup Hti Hnn Hg]. split; cbn; try done. by apply tail_of_close. Qed.

(** Emitting [o] and moving on to cursor [c']. *)
Lemma inv_emit lim c0 x r o c' : reader_inv lim c0 x -> truthful (r_full x) o ->
  (forall c, cursor_of (r_reader x) c -> r_reader x <> Finished ->
     match o with Gap p n => c < c' /\ (r_calm x = true -> p = c + n - 1 /\ c' = p + 1)
                | Entry p _ => c <= p /\ c' = p + 1 /\ (r_calm x = true -> p = c) end) ->
  r_reader x <> Finished -> (exists c, cursor_of (r_reader x) c) ->
  (forall y, cursor_of r y <-> y = c') -> r <> Finished ->
  (forall c f, r = AfterGap c f -> c = f /\ entries (r_log x) <> [] /\ front (r_log x) = Some f) ->
  reader_inv lim c0 (mkRun (r_log x) (r_full x) r (r_out x ++ [o]) (r_calm x)).
Proof.
  intros [Ht Htr [cu [Hu Hcu]] Hti Hnn Hg] Ho Hstep Hnf [c Hc] Hr Hrf Hgap. specialize (Hstep c Hc Hnf).
  assert (cu <= c) as Hle by (by destruct (Hcu c Hc)).
  assert (0 <= c) as Hc0 by (by destruct (Hnn c Hc)).
  split; cbn; try done.
  - apply Forall_app. split; [done|]. by apply Forall_singleton.
  - rewrite increasing_app, Hu. cbn. destruct o as [p n|p e]; cbn.
    + exists cu. split; [done|]. intros y ->%Hr. left. lia.
    + destruct Hstep as (Hp & -> & _). rewrite (proj2 (Z.leb_le _ _)) by lia. exists (p + 1). split; [done|].
      intros y ->%Hr. left. lia.
  - intros Hcalm. destruct (Hti Hcalm) as (ct & Htl & Hct).
    assert (ct = c) as -> by (destruct (r_reader x); cbn in *; congruence).
    rewrite tiled_app, Htl. cbn. destruct o as [p n|p e]; cbn in *.
    + destruct Hstep as [_ Hpc]. destruct (Hpc Hcalm) as [-> ->]. rewrite (proj2 (Z.ltb_lt _ _) Ho), Z.eqb_refl. cbn. eexists. split; [done|]. by apply Hr.
    + destruct Hstep as (_ & -> & Hpc). assert (p = c) as -> by auto. rewrite Z.eqb_refl. eexists. split; [done|]. by apply Hr.
  - intros y ->%Hr. left. destruct o; cbn in *; lia.
  - intros c1 f1 Heq. destruct (Hgap c1 f1 Heq) as (-> & H1 & H2). split; [done|]. split; [done|].
    exists f1. split; [done|]. split; [lia|done].
Qed.

(** Moving on without an output. *)
Lemma inv_move lim c0 x r : reader_inv lim c0 x -> between r = false -> r_reader x <> Finished ->
  (r = Finished \/ forall y, cursor_of r y <-> cursor_of (r_reader x) y) ->
  reader_inv lim c0 (mkRun (r_log x) (r_full x) r (r_out x ++ []) (r_calm x)).
Proof.
  intros [Ht Htr [cu [Hu Hcu]] Hti Hnn Hg] Hb Hnf Hr. rewrite app_nil_r. split; cbn; try done.
  - exists cu. split; [done|]. intros y Hy. destruct Hr as [->|Hr]; [by right|]. apply Hr in Hy.
    destruct (Hcu y Hy); [by left|done].
  - intros Hcalm. destruct (Hti Hcalm) as (c & H1 & H2). exists c. split; [done|]. destruct Hr as [->|Hr]; [done|].
    by apply Hr.
  - intros y Hy. destruct Hr as [->|Hr]; [by right|]. apply Hr in Hy. destruct (Hnn y Hy); [by left|done].
  - intros c f ->. done.
Qed.

Lemma tail_moves h c : between (reader_tail h c) = false /\
  (reader_tail h c = Finished \/ forall y, cursor_of (reader_tail h c) y <-> c = y).
Proof. unfold reader_tail. repeat case_match; cbn; auto. Qed.

Lemma inv_entry lim c0 x c f : reader_inv lim c0 x -> r_reader x = AtTop c \/ r_reader x = AfterGap c f ->
  front (r_log x) <> None -> (r_reader x = AtTop c -> front (r_log x) = Some f /\ f <= c) ->
  let '(r, o) := reader_entry (r_log x) c f in
  reader_inv lim c0 (mkRun (r_log x) (r_full x) r (r_out x ++ option_list o) (r_calm x)).
Proof.
  intros Hinv Hr Hfr Htop. unfold reader_entry.
  assert (r_reader x <> Finished) as Hnf by (destruct Hr as [->| ->]; done).
  assert (forall y, cursor_of (r_reader x) y <-> c = y) as Hcur by (intros y; destruct Hr as [->| ->]; done).
  destruct (if 0 <=? c - f then entries (r_log x) !! Z.to_nat (c - f) else None) as [e|] eqn:He.
  - destruct (Z.leb_spec 0 (c - f)); [|done].
    destruct (tail_lookup _ _ _ _ _ (i_tail _ _ _ Hinv) He) as [Hb Hl].
    pose proof (t_pos _ _ _ (i_tail _ _ _ Hinv) _ _ He) as Hpos.
    cbn [option_list]. apply (inv_emit lim c0 x _ _ (position e + 1)); try done; [split; [lia|done]| |by exists c; apply Hcur].
    intros c1 <-%Hcur _. destruct Hr as [Hr|Hr].
    + destruct (Htop Hr) as [Hf Hle]. destruct (tail_front _ _ _ _ (i_tail _ _ _ Hinv) Hf) as [Hfe _].
      split; [lia|]. split; [done|]. intros _. lia.
    + destruct (i_gap _ _ _ Hinv c f Hr) as (-> & _ & p & Hp & Hle & Hcalm).
      destruct (tail_front _ _ _ _ (i_tail _ _ _ Hinv) Hp) as [Hpe _].
      split; [lia|]. split; [done|]. intros Hc. specialize (Hcalm Hc). lia.
  - cbn [option_list]. destruct (tail_moves (r_log x) c) as [Hb Ht]. apply inv_move; [done|done|done|].
    destruct Ht as [->|Ht]; [by left|right]. intros y. rewrite Ht, Hcur. done.
Qed.

Lemma inv_read lim c0 x : reader_inv lim c0 x -> reader_inv lim c0 (exec lim x ARead).
Proof.
  intros Hinv. unfold exec. destruct (r_reader x) as [c|c f|c|] eqn:Hr; cbn [reader_step].
  - destruct (front (r_log x)) as [p|] eqn:Hf.
    + destruct (Z.ltb_spec c p) as [Hlt|Hge].
      * apply (inv_emit lim c0 x _ (Gap (p - 1) (p - c)) p); rewrite ?Hr; try done; [cbn; lia| |by exists c|].
        -- intros y <- _. split; [lia|]. intros _. lia.
        -- intros c1 f1 [= <- <-]. split; [done|]. by destruct (tail_front _ _ _ _ (i_tail _ _ _ Hinv) Hf).
      * pose proof (inv_entry lim c0 x c p Hinv) as He. destruct (reader_entry (r_log x) c p).
        apply He; [by left|by rewrite Hf|done].
    + destruct (tail_moves (r_log x) c) as [Hb Ht]. apply inv_move; rewrite ?Hr; done.
  - pose proof (inv_entry lim c0 x c f Hinv) as He. destruct (reader_entry (r_log x) c f).
    apply He; [by right| |by rewrite Hr]. destruct (i_gap _ _ _ Hinv c f Hr) as (_ & _ & p & -> & _). done.
  - apply inv_move; rewrite ?Hr; try done. by right.
  - cbn. rewrite app_nil_r, <- Hr. by destruct x.
Qed.

Lemma inv_run lim pos l : limits_ok lim -> Forall action_ok l -> reader_inv lim (Z.max 0 pos) (run lim pos l).
Proof.
  intros Hl. unfold run.
  assert (reader_inv lim (Z.max 0 pos) (mkRun new_log [] (iter_from pos) [] true)) as H0.
  { split; cbn; try done; [by apply tail_of_new| | |].
    - exists (Z.max 0 pos). split; [done|]. intros y <-. left. lia.
    - intros _. by exists (Z.max 0 pos).
    - intros c <-. left. lia. }
  revert H0. generalize (mkRun new_log [] (iter_from pos) [] true) as x.
  induction l as [|a l IH]; intros x Hx Hf; [done|]. inversion_clear Hf as [|?? Ha Hf']. cbn. apply IH; [|done].
  destruct a; [by apply inv_append|by apply inv_close|by apply inv_read].
Qed.

(** C34: the buffer refines an unbounded log.  After any interleaving of appends,
    a close and the steps of one reader: the buffer holds the end of the full
    log at its absolute positions, within the entry and byte limits, and never
    drops the newest entry; every entry the reader yielded is the full log's
    entry at that position, in increasing order; and if nothing is appended
    between a gap notice and the entry after it, the outputs account for every
    position from the requested one on, each gap notice with the exact count. *)
Theorem buffer_refines_log lim pos l : limits_ok lim -> Forall action_ok l ->
  let x := run lim pos l in
  tail_of lim (r_log x) (r_full x) /\
  Forall (truthful (r_full x)) (r_out x) /\
  is_Some (increasing (Z.max 0 pos) (r_out x)) /\
  (r_calm x = true -> is_Some (tiled (Z.max 0 pos) (r_out x))).
Proof.
  intros Hl Ha x. destruct (inv_run lim pos l Hl Ha) as [Ht Htr [cu [Hu _]] Hti _ _]. fold x in Ht, Htr, Hu, Hti.
  split_and!; [done|done|by exists cu|]. intros Hc. destruct (Hti Hc) as (c & Hc' & _). by exists c.
Qed.

Definition ex_limits : Limits :=
  {| max_entries_per_host := 2; max_bytes_per_host := 64; max_entry_bytes := 32; max_completed_hosts := 1 |}.
Definition ex_append (c : Z) : Act := AAppend c "info" [c] None.

Lemma ex_limits_ok : limits_ok ex_limits.
Proof. by apply check_limits_spec. Qed.

Lemma buffer_refines_log_witness :
  let x := run ex_limits 0 [ex_append 97; ex_append 98; ex_append 99; ARead; ARead; ARead] in
  r_calm x = true /\ r_out x = [Gap 0 1; Entry 1 (stored_entry ex_limits 98 "info" [98] None);
                                Entry 2 (stored_entry ex_limits 99 "info" [99] None)] /\
  is_Some (tiled 0 (r_out x)).
Proof.
  intros x. assert (r_calm x = true) as Hc by (vm_compute; reflexivity).
  destruct (buffer_refines_log ex_limits 0 [ex_append 97; ex_append 98; ex_append 99; ARead; ARead; ARead])
    as (_ & _ & _ & H).
  - apply ex_limits_ok.
  - repeat constructor; lia.
  - split; [exact Hc|]. split; [vm_compute; reflexivity|]. apply H, Hc.
Defined.

(** Entries evicted between a gap notice and the entry that follows it
    disappear without notice: the reader indexes the new buffer with the front
    position it had read before the notice. *)
Theorem gap_hides_entries :
  let x := run ex_limits 0
    [ex_append 97; ex_append 98; ex_append 99; ARead; ex_append 100; ex_append 101; ARead] in
  r_out x = [Gap 0 1; Entry 3 (stored_entry ex_limits 100 "info" [100] None)] /\
  tiled 0 (r_out x) = None.
Proof. split; vm_compute; reflexivity. Qed.

(** ** Readers of a closed log *)

Fixpoint read_n (n : nat) (h : HostLog) (r : Reader) : Reader * list Output :=
  match n with
  | O => (r, [])
  | S n =>
      let '(r, o) := reader_step h r in
      let '(r, l) := read_n n h r in (r, option_list o ++ l)
  end.

Lemma read_finished n h : read_n n h Finished = (Finished, []).
Proof. induction n as [|n IH]; cbn; [done|]. by rewrite IH. Qed.

(** The rest of a closed log from a cursor at or after its front. *)
Definition rest (h : HostLog) (c : Z) : list Output :=
  match front h with
  | Some p => List.map (fun e => Entry (position e) (entry e)) (drop (Z.to_nat (c - p)) (entries h))
  | None => []
  end.

Lemma drain_from lim h full c k : tail_of lim h full -> complete h = true -> front h = Some k -> k <= c ->
  forall n, (Z.to_nat (next_position h - c) < n)%nat -> read_n n h (AtTop c) = (Finished, rest h c).
Proof.
  intros Hh Hc Hf Hk n Hn. destruct (tail_front _ _ _ _ Hh Hf) as [Hke _].
  revert c Hk Hn. induction n as [|n IH]; intros c Hk Hn; [lia|]. cbn [read_n]. unfold reader_step. rewrite Hf.
  rewrite (proj2 (Z.ltb_ge _ _) Hk). unfold reader_entry, rest. rewrite Hf, (proj2 (Z.leb_le 0 (c - k))) by lia.
  destruct (entries h !! Z.to_nat (c - k)) as [e|] eqn:He.
  - pose proof (t_pos _ _ _ Hh _ _ He) as Hp. pose proof (lookup_lt_Some _ _ _ He) as Hlt.
    assert (position e = c) as Hpe by lia. rewrite IH by lia. cbn [option_list app]. f_equal.
    rewrite (drop_S _ _ _ He). cbn [List.map]. f_equal. unfold rest. rewrite Hf, Hpe. do 2 f_equal. lia.
  - unfold reader_tail. rewrite Hc, read_finished. cbn. f_equal.
    rewrite drop_ge; [done|]. by apply lookup_ge_None_1.
Qed.


Lemma after_front h k n : front h = Some k -> read_n (S n) h (AfterGap k k) = read_n (S n) h (AtTop k).
Proof. intros Hf. cbn [read_n]. unfold reader_step. by rewrite Hf, Z.ltb_irrefl. Qed.

Lemma read_n_step n h r : read_n (S n) h r =
  (fst (read_n n h (fst (reader_step h r))), option_list (snd (reader_step h r)) ++ snd (read_n n h (fst (reader_step h r)))).
Proof. cbn. destruct (reader_step h r) as [r' o]. cbn. by destruct (read_n n h r'). Qed.

(** What a reader at cursor [c] still gets from a closed log. *)
Definition remaining (h : HostLog) (c : Z) : list Output :=
  match front h with
  | Some p => if c <? p then Gap (p - 1) (p - c) :: rest h p else rest h c
  | None => []
  end.

Lemma closed_top lim h full c : tail_of lim h full -> complete h = true ->
  read_n (length (entries h) + 2) h (AtTop c) = (Finished, remaining h c).
Proof.
  intros Hh Hc. unfold remaining. destruct (front h) as [k|] eqn:Hf.
  - destruct (tail_front _ _ _ _ Hh Hf) as [Hke Hne]. destruct (Z.ltb_spec c k) as [Hlt|Hge].
    + rewrite Nat.add_succ_r, read_n_step. unfold reader_step. rewrite Hf, (proj2 (Z.ltb_lt _ _) Hlt). cbn [fst snd].
      rewrite Nat.add_1_r, after_front, (drain_from lim h full k k) by (done || lia). done.
    + apply (drain_from lim h full c k); try done. lia.
  - rewrite Nat.add_succ_r, read_n_step. unfold reader_step. rewrite Hf. unfold reader_tail. rewrite Hc. cbn [fst snd].
    by rewrite read_finished.
Qed.

(** Closing a log ends every reader.  On a closed log a reader in any state
    finishes within three steps more than there are retained entries, and from
    the top of its loop it yields exactly the gap notice it is owed and then
    every retained entry from its cursor on. *)
Theorem closed_log_ends_readers lim h full : tail_of lim h full -> complete h = true ->
  (forall r, fst (read_n (length (entries h) + 3) h r) = Finished) /\
  (forall c, snd (read_n (length (entries h) + 3) h (AtTop c)) = remaining h c).
Proof.
  intros Hh Hc.
  assert (forall c, read_n (length (entries h) + 3) h (AtTop c) = (Finished, remaining h c)) as Htop.
  { intros c. pose proof (closed_top lim h full c Hh Hc) as Ht. revert Ht.
    generalize (AtTop c) as r. generalize (remaining h c) as l. rewrite (Nat.add_succ_r _ 2).
    generalize (length (entries h) + 2)%nat as n. induction n as [|n IH]; intros l r Hr.
    - cbn in Hr. injection Hr as -> <-. done.
    - rewrite read_n_step in Hr. rewrite read_n_step. injection Hr as H1 <-.
      rewrite (IH (snd (read_n n h (fst (reader_step h r)))) (fst (reader_step h r))); [done|].
      rewrite <- H1. by destruct (read_n n h _). }
  split; [|intros c; by rewrite Htop]. intros [c|c f|c|].
  - by rewrite Htop.
  - rewrite Nat.add_succ_r, read_n_step. cbn [fst reader_step]. unfold reader_entry.
    destruct (if 0 <=? c - f then entries h !! Z.to_nat (c - f) else None); cbn [fst].
    + by rewrite (closed_top lim h full _ Hh Hc).
    + unfold reader_tail. by rewrite Hc, read_finished.
  - rewrite Nat.add_succ_r, read_n_step. cbn [fst reader_step]. by rewrite (closed_top lim h full _ Hh Hc).
  - by rewrite read_finished.
Qed.

Definition ex_closed : Run := run ex_limits 0 [ex_append 97; ex_append 98; ex_append 99; AClose 1].

Lemma closed_log_ends_readers_witness : fst (read_n 5 (r_log ex_closed) (Asleep 0)) = Finished.
Proof.
  destruct (closed_log_ends_readers ex_limits (r_log ex_closed) (r_full ex_closed)) as [H _].
  - destruct (inv_run ex_limits 0 [ex_append 97; ex_append 98; ex_append 99; AClose 1] ex_limits_ok) as [Ht _ _ _ _ _];
      [repeat constructor; lia|exact Ht].
  - reflexivity.
  - exact (H (Asleep 0)).
Defined.

(** ** Generations *)

Section generations.
Context {X : Type} (call : StoreCall -> X -> X * option string) (lim : Limits).
Context (Hlim : limits_ok lim).
Implicit Types (b : Buffer X).

Record buf_ok b : Prop := {
  b_wf : dwf (_hosts b);
  b_inj : forall h1 h2 i, dget h1 (_hosts b) = Some i -> dget h2 (_hosts b) = Some i -> h1 = h2;
  b_dom : forall i, is_Some (logs b !! i) <-> (i < fresh b)%nat;
  b_live : forall h i, dget h (_hosts b) = Some i -> (i < fresh b)%nat;
  b_open : forall i h, logs b !! i = Some h -> complete h = false -> exists host, dget host (_hosts b) = Some i;
  b_seq : forall i h, logs b !! i = Some h -> complete h = is_some (completed_sequence h);
  b_tail : forall i h, logs b !! i = Some h -> exists full, tail_of lim h full;
}.

Lemma buf_ok_empty st : buf_ok (empty_buffer st).
Proof. split; cbn; try done; [apply dwf_nil|]. intros i. rewrite lookup_empty. split; [by intros [? ?]|lia]. Qed.

(** Only the store and the attempts change. *)
Lemma buf_ok_store b att sq st : buf_ok b -> buf_ok (mkBuf (logs b) (fresh b) (_hosts b) att sq st).
Proof. by intros []. Qed.

Lemma store_call_same host c b : let b' := fst (store_call call host c b) in
  logs b' = logs b /\ fresh b' = fresh b /\ _hosts b' = _hosts b.
Proof. unfold store_call. repeat case_match; by destruct (call _ _) || done. Qed.

Lemma buf_ok_store_call host c b : buf_ok b -> buf_ok (fst (store_call call host c b)).
Proof.
  intros Hb. destruct (store_call_same host c b) as (H1 & H2 & H3). cbn zeta in *.
  destruct (fst (store_call call host c b)) as [l f h a s x]. cbn in *. subst. by apply buf_ok_store.
Qed.

(** Replacing a log by one that is no more open. *)
Lemma buf_ok_log b i h h' sq : buf_ok b -> logs b !! i = Some h ->
  (complete h' = false -> complete h = false) -> complete h' = is_some (completed_sequence h') ->
  (exists full, tail_of lim h' full) ->
  buf_ok (mkBuf (<[i := h']> (logs b)) (fresh b) (_hosts b) (attempts b) sq (store b)).
Proof.
  intros [Hw Hi Hd Hl Ho Hs Ht] Hh Hc Hsq Htl. split; cbn; try done.
  - intros j. rewrite <- Hd. destruct (decide (j = i)) as [->|]; [rewrite lookup_insert_eq, Hh; split; eauto|].
    by rewrite lookup_insert_ne.
  - intros j hj. destruct (decide (j = i)) as [->|]; [rewrite lookup_insert_eq; intros [= <-]; eauto|].
    rewrite lookup_insert_ne by done. apply Ho.
  - intros j hj. destruct (decide (j = i)) as [->|]; [rewrite lookup_insert_eq; intros [= <-]; done|].
    rewrite lookup_insert_ne by done. apply Hs.
  - intros j hj. destruct (decide (j = i)) as [->|]; [rewrite lookup_insert_eq; intros [= <-]; done|].
    rewrite lookup_insert_ne by done. apply Ht.
Qed.

Lemma buf_ok_close i b : buf_ok b -> buf_ok (_close i b).
Proof.
  intros Hb. unfold _close. destruct (logs b !! i) as [h|] eqn:Hh; [|done]. destruct (complete h) eqn:Hc; [done|].
  apply (buf_ok_log b i h); try done. destruct (b_tail _ Hb i h Hh) as [full Hf]. exists full. by apply tail_of_close.
Qed.

Lemma close_hosts i b : _hosts (_close i b) = _hosts b /\ fresh (_close i b) = fresh b.
Proof. unfold _close. repeat case_match; done. Qed.

Lemma close_complete i b h : logs (_close i b) !! i = Some h -> complete h = true.
Proof.
  unfold _close. destruct (logs b !! i) as [h0|] eqn:Hh; [|congruence]. destruct (complete h0) eqn:Hc; [congruence|].
  cbn. rewrite lookup_insert_eq. by intros [= <-].
Qed.

Lemma close_other i j b : j <> i -> logs (_close i b) !! j = logs b !! j.
Proof. intros Hj. unfold _close. repeat case_match; cbn; try done. by rewrite lookup_insert_ne. Qed.

(** A closed generation may leave the table. *)
Lemma buf_ok_pop b host i att : buf_ok b -> dget host (_hosts b) = Some i ->
  (forall h, logs b !! i = Some h -> complete h = true) ->
  buf_ok (mkBuf (logs b) (fresh b) (dpop host (_hosts b)) att (_completion_sequence b) (store b)).
Proof.
  intros [Hw Hi Hd Hl Ho Hs Ht] Hh Hc. split; cbn; try done.
  - by apply dwf_dpop.
  - intros h1 h2 j. rewrite !dget_dpop. repeat case_decide; try done. apply Hi.
  - intros h j. rewrite dget_dpop. case_decide; [done|]. apply Hl.
  - intros j h Hj Hcj. destruct (Ho j h Hj Hcj) as [h0 Hh0]. exists h0. rewrite dget_dpop, decide_False; [done|].
    intros ->. assert (j = i) as -> by congruence. specialize (Hc h Hj). congruence.
Qed.

(** Adding the new generation. *)
Lemma buf_ok_new b host : buf_ok b -> dget host (_hosts b) = None ->
  buf_ok (mkBuf (<[fresh b := new_log]> (logs b)) (S (fresh b)) (dset host (fresh b) (_hosts b))
    (attempts b) (_completion_sequence b) (store b)).
Proof.
  intros [Hw Hi Hd Hl Ho Hs Ht] Hn. split; cbn; try done.
  - by apply dwf_dset.
  - intros h1 h2 i. rewrite !dget_dset. repeat case_decide; subst; try done; [intros [= <-] Hl2|intros Hl2 [= <-]|apply Hi];
      apply Hl in Hl2; lia.
  - intros i. destruct (decide (i = fresh b)) as [->|]; [rewrite lookup_insert_eq; split; [lia|eauto]|].
    rewrite lookup_insert_ne, Hd by done. lia.
  - intros h i. rewrite dget_dset. case_decide; [intros [= <-]; lia|]. intros Hg%Hl. lia.
  - intros i h. destruct (decide (i = fresh b)) as [->|].
    + intros _ _. exists host. by rewrite dget_dset_eq.
    + rewrite lookup_insert_ne by done. intros Hh Hc. destruct (Ho i h Hh Hc) as [h0 Hh0]. exists h0.
      rewrite dget_dset_ne; [done|]. congruence.
  - intros i h. destruct (decide (i = fresh b)) as [->|]; [rewrite lookup_insert_eq; by intros [= <-]|].
    rewrite lookup_insert_ne by done. apply Hs.
  - intros i h. destruct (decide (i = fresh b)) as [->|]; [|rewrite lookup_insert_ne by done; apply Ht].
    rewrite lookup_insert_eq. intros [= <-]. exists []. by apply tail_of_new.
Qed.

Lemma close_with_hosts i d b : _close i (with_hosts d b) = with_hosts d (_close i b).
Proof. unfold _close. cbn. repeat case_match; done. Qed.

Lemma store_call_with_hosts host c d b : store_call call host c (with_hosts d b) =
  (with_hosts d (fst (store_call call host c b)), snd (store_call call host c b)).
Proof. unfold store_call. cbn. repeat case_match; try done; by destruct (call _ _). Qed.

Lemma dpop_id {V} (k : string) (d : list (string * V)) : dget k d = None -> dpop k d = d.
Proof. induction d as [|[k' v] d IH]; cbn; [done|]. case_decide; [done|]. intros Hd. by rewrite IH. Qed.

Lemma buf_ok_displace host b b' : buf_ok b -> displace call host b = (b', true) ->
  buf_ok b' /\ dget host (_hosts b') = None.
Proof.
  intros Hb. unfold displace. destruct (dget host (_hosts b)) as [i|] eqn:Hh.
  - assert (forall b1, buf_ok b1 -> _hosts b1 = _hosts b ->
      buf_ok (_close i (with_hosts (dpop host (_hosts b)) b1)) /\
      dget host (_hosts (_close i (with_hosts (dpop host (_hosts b)) b1))) = None) as Hc.
    { intros b1 Hb1 Hsame. rewrite close_with_hosts. cbn. split; [|apply dget_dpop_eq].
      destruct (close_hosts i b1) as [Hch _]. rewrite <- Hsame, <- Hch.
      apply (buf_ok_pop _ host i); [by apply buf_ok_close|by rewrite Hch, Hsame|apply close_complete]. }
    cbn [with_hosts logs]. destruct (logs b !! i) as [h|]; [destruct (complete h)|].
    + intros [= <-]. by apply Hc.
    + change (mkBuf _ _ _ _ _ _) with (with_hosts (dpop host (_hosts b)) b). rewrite store_call_with_hosts.
      destruct (store_call_same host SInterrupted b) as (_ & _ & Hs).
      destruct (snd (store_call call host SInterrupted b)); [|done]. intros [= <-].
      apply Hc; [by apply buf_ok_store_call|done].
    + intros [= <-]. by apply Hc.
  - intros [= <-]. split; [|cbn; apply dget_dpop_eq]. rewrite dpop_id by done. by destruct b.
Qed.

Lemma buf_ok_create host b : buf_ok b -> snd (create call host b) = true -> buf_ok (fst (create call host b)).
Proof.
  intros Hb. unfold create. destruct (displace call host b) as [b' ok] eqn:Hd. destruct ok; [|done]. cbn [negb].
  destruct (buf_ok_displace host b b' Hb Hd) as [Hb' Hn]. intros _. pose proof (buf_ok_new b' host Hb' Hn) as Hnew.
  destruct (store _) as [x|]; [|done]. destruct (call (SCreate host) x) as [x' [a|]]; by apply (buf_ok_store _ _ _ _ Hnew).
Qed.

Lemma buf_ok_append now host lvl m st persist b : Forall scalar m -> buf_ok b ->
  buf_ok (fst (append call lim now host lvl m st persist b)).
Proof.
  intros Hm Hb. unfold append. destruct (dget host (_hosts b)) as [i|]; [|done].
  assert (buf_ok (fst (if persist then store_call call host (fun a => SAppend a m lvl st) b else (b, true)))) as H1.
  { destruct persist; [by apply buf_ok_store_call|done]. }
  destruct (if persist then _ else _) as [b1 ok]. cbn [fst] in H1. destruct ok; [|done]. cbn [negb].
  destruct (logs b1 !! i) as [h|] eqn:Hh; [|done]. cbn [fst]. unfold with_log. apply (buf_ok_log b1 i h); try done.
  - unfold append_log, _trim. by destruct (trim _ _ _).
  - pose proof (b_seq _ H1 i h Hh) as Hs. unfold append_log, _trim. by destruct (trim _ _ _).
  - destruct (b_tail _ H1 i h Hh) as [full Hf]. eexists. by apply (tail_of_append lim h full now lvl m st).
Qed.

Lemma buf_ok_evict b host : buf_ok b -> buf_ok (evict b host).
Proof.
  intros Hb. unfold evict. destruct (dget host (_hosts b)) as [i|] eqn:Hh; [|done].
  destruct (close_hosts i b) as [Hch _]. apply (buf_ok_pop _ host i); [by apply buf_ok_close|by rewrite Hch|apply close_complete].
Qed.

Lemma buf_ok_evict_all l b : buf_ok b -> buf_ok (fold_left evict l b).
Proof. revert b. induction l as [|h l IH]; intros b Hb; [done|]. cbn. by apply IH, buf_ok_evict. Qed.

Lemma buf_ok_mark_complete host b : buf_ok b -> buf_ok (fst (mark_complete call lim host b)).
Proof.
  intros Hb. unfold mark_complete. destruct (dget host (_hosts b)) as [i|]; [|done].
  pose proof (buf_ok_store_call host SFinish _ (buf_ok_close i b Hb)) as H1.
  destruct (store_call call host SFinish (_close i b)) as [b1 []]; [|done]. by apply buf_ok_evict_all.
Qed.

Definition done_entry b (kv : string * nat) : option (Z * string) :=
  h ← logs b !! snd kv; s ← completed_sequence h; Some (s, fst kv).

(** The completed hosts in table order. *)
Definition done_list b : list (Z * string) := omap (done_entry b) (_hosts b).

Lemma done_list_perm b : completed_hosts b ≡ₚ done_list b.
Proof. apply sort_by_perm. Qed.

Lemma elem_of_done b host : buf_ok b ->
  host ∈ (done_list b).*2 <-> exists i s, dget host (_hosts b) = Some i /\ done_entry b (host, i) = Some (s, host).
Proof.
  intros Hb. unfold done_list. rewrite list_elem_of_fmap. setoid_rewrite list_elem_of_omap. split.
  - intros ([s h] & -> & [h' i] & Hin & Hd). exists i, s. cbn in *. unfold done_entry in *. cbn in *.
    destruct (logs b !! i) as [hl|] eqn:Hl; [|done]. cbn in *. destruct (completed_sequence hl) eqn:Hc; [|done]. cbn in *.
    injection Hd as -> ->. split; [|done]. by apply dwf_in_dget; [apply Hb|].
  - intros (i & s & Hg & Hd). exists (s, host). split; [done|]. exists (host, i). split; [by apply dget_Some_in|done].
Qed.

Lemma NoDup_done b : buf_ok b -> NoDup (done_list b).*2.
Proof.
  intros Hb. apply (sublist_NoDup _ (dkeys (_hosts b))); [apply Hb|]. unfold done_list, dkeys.
  induction (_hosts b) as [|[h i] d IH]; cbn; [constructor|]. unfold done_entry at 1. cbn.
  destruct (logs b !! i) as [hl|]; cbn; [|by constructor]. destruct (completed_sequence hl); cbn; by constructor.
Qed.

Lemma length_omap_dpop {B} (f : string * nat -> option B) k i x d : dwf d -> dget k d = Some i -> f (k, i) = Some x ->
  length (omap f d) = S (length (omap f (dpop k d))).
Proof.
  induction d as [|[k' i'] d IH]; [done|]. intros Hd.
  change (dwf ((k', i') :: d)) with (NoDup (k' :: dkeys d)) in Hd. apply NoDup_cons in Hd as [Hnin Hd].
  cbn [dget dpop]. case_decide as Hk.
  - intros [= ->] Hf. subst k'. cbn. rewrite Hf. cbn. rewrite dpop_id; [done|]. by apply dget_None_keys.
  - intros Hg Hf. cbn. destruct (f (k', i')); cbn; by rewrite (IH Hd Hg Hf).
Qed.

Lemma evict_done b host : buf_ok b -> host ∈ (done_list b).*2 ->
  length (done_list b) = S (length (done_list (evict b host))) /\
  (forall h', h' <> host -> h' ∈ (done_list b).*2 -> h' ∈ (done_list (evict b host)).*2).
Proof.
  intros Hb Hin. pose proof (buf_ok_evict b host Hb) as Hb'. apply elem_of_done in Hin as (i & s & Hg & Hd); [|done].
  assert (_close i b = b) as Hcl.
  { unfold _close. unfold done_entry in Hd. cbn in Hd. destruct (logs b !! i) as [h|] eqn:Hl; [|done]. cbn in Hd.
    pose proof (b_seq _ Hb i h Hl) as Hs. destruct (completed_sequence h); [|done]. by rewrite Hs. }
  assert (logs (evict b host) = logs b /\ _hosts (evict b host) = dpop host (_hosts b)) as [Hl Hh].
  { unfold evict. rewrite Hg, Hcl. done. }
  split.
  - unfold done_list. rewrite Hh. rewrite (length_omap_dpop (done_entry b) host i (s, host)); [|apply Hb|done|done].
    f_equal. unfold done_entry. by rewrite Hl.
  - intros h' Hne (j & s' & Hg' & Hd')%elem_of_done; [|done]. apply elem_of_done; [done|]. exists j, s'.
    rewrite Hh, dget_dpop, decide_False by done. split; [done|]. unfold done_entry in *. by rewrite Hl.
Qed.

Lemma evict_all_done l b : buf_ok b -> NoDup l -> (forall h, h ∈ l -> h ∈ (done_list b).*2) ->
  length (done_list b) = (length l + length (done_list (fold_left evict l b)))%nat.
Proof.
  revert b. induction l as [|h l IH]; intros b Hb Hnd Hin; [done|]. apply NoDup_cons in Hnd as [Hh Hnd]. cbn [fold_left length].
  destruct (evict_done b h Hb) as [H1 H2]; [apply Hin; by left|].
  rewrite H1, (IH (evict b h)); [done|by apply buf_ok_evict|done|].
  intros h' Hh'. apply H2; [by intros ->|]. apply Hin. by right.
Qed.

Lemma evict_completed_bound b : buf_ok b ->
  Z.of_nat (length (done_list (_evict_completed lim b))) <= max_completed_hosts lim.
Proof.
  intros Hb. unfold _evict_completed. set (n := (length (completed_hosts b) - Z.to_nat (max_completed_hosts lim))%nat).
  pose proof (done_list_perm b) as Hp. pose proof (Permutation_length Hp) as Hlen.
  assert (NoDup (completed_hosts b).*2) as Hnd by (rewrite Hp; by apply NoDup_done).
  pose proof (evict_all_done (List.map snd (take n (completed_hosts b))) b Hb) as He.
  rewrite length_map, length_take in He. change (List.map snd) with (fmap (M := list) (@snd Z string)) in *.
  rewrite fmap_take in *. rewrite He in Hlen; [|by eapply sublist_NoDup, sublist_take|].
  - assert (1 <= max_completed_hosts lim) as H1 by apply Hlim. lia.
  - intros h Hin. rewrite <- Hp. by apply (subseteq_take n).
Qed.
End generations.

(** ** Histories of the buffer *)

Inductive BufOp :=
| OCreate (host : string)
| OAppend (now : Z) (host level : string) (m : text) (st : option string) (persist : bool)
| OComplete (host : string).

Definition op_ok (o : BufOp) : Prop := match o with OAppend _ _ _ m _ _ => Forall scalar m | _ => True end.

Section histories.
Context {X : Type} (call : StoreCall -> X -> X * option string) (lim : Limits).

(** A call that raised leaves the buffer as it was at that point; the histories
    below end at a [create] that raised. *)
Definition apply_op (ob : option (Buffer X)) (o : BufOp) : option (Buffer X) :=
  b ← ob;
  match o with
  | OCreate h => let '(b, ok) := create call h b in if ok then Some b else None
  | OAppend now h l m st p => Some (fst (append call lim now h l m st p b))
  | OComplete h => Some (fst (mark_complete call lim h b))
  end.

Definition history (st : option X) (l : list BufOp) : option (Buffer X) := fold_left apply_op l (Some (empty_buffer st)).

Hypothesis Hlim : limits_ok lim.

Lemma buf_ok_apply o b b' : op_ok o -> buf_ok lim b -> apply_op (Some b) o = Some b' -> buf_ok lim b'.
Proof.
  intros Ho Hb. unfold apply_op. cbn. destruct o as [host|now host lvl m st p|host].
  - pose proof (buf_ok_create call lim Hlim host b Hb) as Hc. destruct (create call host b) as [b1 []]; [|done].
    intros [= <-]. by apply Hc.
  - intros [= <-]. by apply buf_ok_append.
  - intros [= <-]. by apply buf_ok_mark_complete.
Qed.

Lemma buf_ok_history st l b : Forall op_ok l -> history st l = Some b -> buf_ok lim b.
Proof.
  unfold history. generalize (buf_ok_empty (X := X) lim st). generalize (empty_buffer st). intros b0 Hb0 Hl. revert b0 Hb0.
  induction Hl as [|o l Ho _ IH]; intros b0 Hb0; [by intros [= <-]|]. cbn [fold_left].
  destruct (apply_op (Some b0) o) as [b1|] eqn:H1.
  - apply IH. by apply (buf_ok_apply o b0).
  - intros Hf. exfalso. clear -Hf. induction l as [|o' l IH]; [done|]. by apply IH.
Qed.
End histories.

(** For every history of operations that may raise, a raising [create]
    apart: every log object that left the table is complete, so its readers
    end; every log, current or not, keeps the end of what was appended to it
    within the limits; no two hosts share a log; and after a [mark_complete]
    that returned, at most [max_completed_hosts] completed logs are kept. *)
Theorem generations_closed {X} (call : StoreCall -> X -> X * option string) lim st l b :
  check_limits lim = Ok tt -> Forall op_ok l -> history call lim st l = Some b ->
  (forall i h, logs b !! i = Some h -> (forall host, dget host (_hosts b) <> Some i) -> complete h = true) /\
  (forall i h, logs b !! i = Some h -> exists full, tail_of lim h full) /\
  (forall h1 h2 i, dget h1 (_hosts b) = Some i -> dget h2 (_hosts b) = Some i -> h1 = h2) /\
  (forall host b', has host b = true -> mark_complete call lim host b = (b', true) ->
    Z.of_nat (length (completed_hosts b')) <= max_completed_hosts lim).
Proof.
  intros Hlim%check_limits_spec Hops Hh. pose proof (buf_ok_history call lim Hlim st l b Hops Hh) as Hb. split_and!.
  - intros i h Hi Hnone. destruct (complete h) eqn:Hc; [done|].
    destruct (b_open _ _ Hb i h Hi Hc) as [host Hhost]. by destruct (Hnone host).
  - intros i h Hi. by apply (b_tail _ _ Hb i).
  - apply (b_inj _ _ Hb).
  - intros host b'. unfold has, dmem, mark_complete. destruct (dget host (_hosts b)) as [i|]; [|done]. intros _.
    pose proof (buf_ok_store_call call lim host SFinish _ (buf_ok_close lim i b Hb)) as H1.
    destruct (store_call call host SFinish (_close i b)) as [b1 []]; [|done]. intros [= <-].
    rewrite (Permutation_length (done_list_perm _)). by apply evict_completed_bound.
Qed.

(** A store that accepts everything, and one that refuses updates. *)
Definition ok_store (c : StoreCall) (n : nat) : nat * option string := (S n, Some "attempt").
Definition failing_updates (c : StoreCall) (n : nat) : nat * option string :=
  (S n, match c with SInterrupted _ => None | _ => Some "attempt" end).

Definition ex_history : list BufOp :=
  [OCreate "a"; OAppend 1 "a" "info" [97] None true; OComplete "a"; OCreate "b"; OComplete "b"; OCreate "b"].

Lemma generations_closed_witness :
  exists b, history ok_store ex_limits (Some 0%nat) ex_history = Some b /\ dkeys (_hosts b) = ["b"] /\
    (forall i h, logs b !! i = Some h -> (forall host, dget host (_hosts b) <> Some i) -> complete h = true).
Proof.
  destruct (history ok_store ex_limits (Some 0%nat) ex_history) as [b|] eqn:Hb; [|vm_compute in Hb; discriminate].
  exists b. split; [reflexivity|]. split; [vm_compute in Hb; injection Hb as <-; reflexivity|].
  apply (generations_closed ok_store ex_limits (Some 0%nat) ex_history b); [reflexivity|repeat constructor; cbn; try lia; intros []; lia|exact Hb].
Defined.

(** A [create] whose update of the displaced attempt raises has already
    taken the previous generation off the table: no later operation reaches
    that log, and it stays open. *)
Theorem create_failure_strands_readers :
  exists b, history failing_updates ex_limits (Some 0%nat) [OCreate "a"] = Some b /\
  let '(b', ok) := create failing_updates "a" b in
  ok = false /\ has "a" b' = false /\ (complete <$> logs b' !! 0%nat) = Some false /\
  (complete <$> logs (fst (mark_complete failing_updates ex_limits "a" b')) !! 0%nat) = Some false.
Proof. eexists. split; [reflexivity|]. vm_compute. done. Qed.
