(* ===== verification/LogStore.v ===== *)
(** * Attempt log store
    ([inference_proxy/provisioning/log_store.py])

    The SQLite tables as lists of rows with their triggers, and every method as
    one transaction on them.  Metadata is the JSON object that is stored;
    instants that the code writes as ISO text or reads from the clock are
    numbers (microseconds in metadata), and text is ASCII where it is sliced by
    characters.  Rows with equal [created] come in insertion order. *)

From Stdlib Require Import Ascii.
From stdpp Require Import pretty.
From S2P Require Import Prelude PyDict Json PyFloat PyRegex.
Local Open Scope Z_scope.

Definition dict : Type := list (string * json).

(** [d.get(k)] and [d.get(k) or other] on JSON objects. *)
Definition get_or (k : string) (other : json) (d : dict) : json := default other (dget k d).
Definition str_or (k : string) (d : dict) : option string := match dget k d with Some (JStr s) => Some s | _ => None end.
Definition obj_of (j : json) : dict := match j with JObj d => d | _ => [] end.
Definition list_of (j : json) : list json := match j with JList l => l | _ => [] end.
(** [d.update(e)] *)
Definition dupdate (d e : dict) : dict := foldl (fun d '(k, v) => dset k v d) d e.
(** [s[:n]] and [l[-n:]] *)
Definition cut (n : nat) (s : string) : string := String.substring 0 n s.
Definition last_n {A} (n : nat) (l : list A) : list A := drop (length l - n) l.

(** ** Setup stages *)

Definition SETUP_STAGE_ORDER : list string :=
  ["check_install_capacity"; "system_prerequisites"; "runtime_prerequisites"; "nvidia_driver"; "cuda_toolkit"; "fabric_manager";
   "cuda_proof"; "llamacpp_toolchain"; "vllm_install"; "llamacpp_install"; "nfs_mount"; "firewall"; "llmfit_install";
   "generation_activate"; "vllm_unit"].

Definition SETUP_ENGINE_STAGES : list (string * list string) :=
  [("vllm", ["check_install_capacity"; "system_prerequisites"; "runtime_prerequisites"; "nvidia_driver"; "cuda_toolkit";
             "fabric_manager"; "cuda_proof"; "vllm_install"; "nfs_mount"; "firewall"; "llmfit_install"; "generation_activate";
             "vllm_unit"]);
   ("llama_cpp", ["check_install_capacity"; "system_prerequisites"; "runtime_prerequisites"; "nvidia_driver"; "fabric_manager";
                  "llamacpp_toolchain"; "cuda_toolkit"; "cuda_proof"; "llamacpp_install"; "nfs_mount"; "firewall";
                  "llmfit_install"; "generation_activate"])].

Definition NON_RESUMABLE_STAGES : list string := ["generation_activate"].
Definition _ALLOWED_CHECKPOINT_STAGES : list string := SETUP_STAGE_ORDER.
Definition _MAX_CHECKPOINTS : nat := 32.
Definition _SOURCE_RECORD_BUDGET : nat := 201.

Definition _stage_order (engine : option string) : list string :=
  match engine with
  | Some e => if str_truthy e then default SETUP_STAGE_ORDER (dget e SETUP_ENGINE_STAGES) else SETUP_STAGE_ORDER
  | None => SETUP_STAGE_ORDER
  end.

Record Progress := mkProgress {
  completed_stages : list string;
  completed_count : Z;
  stages_passed : Z;
  total_stages : Z;
  percent : float;
  failed_stages : list string;
}.

(** [str(status).lower()]; the statuses are strings or [None]. *)
Definition status_text (j : json) : string := match j with JStr s => py_lower s | JNull => "none" | _ => "" end.
Definition is_done (j : json) : bool := bool_decide (status_text j ∈ ["completed"; "skipped"]).

Fixpoint index_from (i : Z) (x : string) (l : list string) : option Z :=
  match l with [] => None | y :: l => if bool_decide (x = y) then Some i else index_from (i + 1) x l end.

(** [round(x, 1)] *)
Definition round1 (x : float) : float := rnd (rhe (x * 10) # 10).

Definition setup_progress (completed : dict) (engine : option string) : Progress :=
  let stages := _stage_order engine in
  let done := List.filter (fun s => is_done (get_or s (JStr "") completed)) stages in
  let passed := foldr Z.max 0 (List.map (fun s => default 0 (index_from 0 s stages) + 1) done) in
  let failed := sort_by String.leb
    (List.map fst (List.filter (fun '(s, j) => bool_decide (status_text j = "failed") && is_some (index_from 0 s stages)) completed)) in
  let total := Z.of_nat (length stages) in
  mkProgress done (Z.of_nat (length done)) passed total
    (if total =? 0 then 0%Q else round1 (int_div (100 * passed) total)) failed.

(** As it is stored; the percentage in tenths. *)
Definition progress_json (p : Progress) : json :=
  JObj [("completed_stages", JList (JStr <$> completed_stages p)); ("completed_count", JNum (completed_count p));
        ("stages_passed", JNum (stages_passed p)); ("total_stages", JNum (total_stages p));
        ("percent", JNum (rhe (percent p * 10))); ("failed_stages", JList (JStr <$> failed_stages p))].

(** ** [json.dumps(entry, ensure_ascii=False)] *)

Definition hex_digit (n : nat) : string := String (ascii_of_nat (if Nat.ltb n 10 then 48 + n else 87 + n)) "".

Definition quote_char : string := String (ascii_of_nat 34) "".

Definition escape (a : ascii) : string :=
  let n := nat_of_ascii a in
  if Nat.eqb n 34 then "\" +:+ quote_char
  else if Nat.eqb n 92 then "\\"
  else if Nat.eqb n 10 then "\n" else if Nat.eqb n 13 then "\r" else if Nat.eqb n 9 then "\t"
  else if Nat.eqb n 12 then "\f" else if Nat.eqb n 8 then "\b"
  else if Nat.ltb n 32 then "\u00" +:+ hex_digit (Nat.div n 16) +:+ hex_digit (Nat.modulo n 16)
  else String a "".

Definition quoted (s : string) : string := quote_char +:+ String.concat "" (List.map escape (String.list_ascii_of_string s)) +:+ quote_char.

Fixpoint render (j : json) : string :=
  match j with
  | JNull => "null"
  | JBool b => if b then "true" else "false"
  | JNum z => pretty z
  | JStr s => quoted s
  | JList l => "[" +:+ String.concat ", " (List.map render l) +:+ "]"
  | JObj d => "{" +:+ String.concat ", " (List.map (fun kv => quoted (fst kv) +:+ ": " +:+ render (snd kv)) d) +:+ "}"
  end.

Definition payload_size (entry : dict) : Z := Z.of_nat (String.length (render (JObj entry))).

(** [raw[:n].decode("utf-8", errors="ignore")]: an incomplete character at the
    end is left out. *)
Definition char_width (a : ascii) : nat :=
  let n := nat_of_ascii a in if Nat.ltb n 192 then 1 else if Nat.ltb n 224 then 2 else if Nat.ltb n 240 then 3 else 4.

Fixpoint whole_chars (fuel : nat) (n : nat) (l : list ascii) : list ascii :=
  match fuel, l with
  | S fuel, a :: _ => let w := char_width a in if Nat.leb w n then take w l ++ whole_chars fuel (n - w) (drop w l) else []
  | _, _ => []
  end.

Definition cut_bytes (n : nat) (s : string) : string :=
  String.string_of_list_ascii (whole_chars n n (String.list_ascii_of_string s)).

(** ** Facts about dictionaries *)

Lemma dget_dupdate k d e : dwf e -> dget k (dupdate d e) = match dget k e with Some v => Some v | None => dget k d end.
Proof.
  revert d. induction e as [|[k' v] e IH]; intros d He; [done|]. apply NoDup_cons in He as [Hk He]. fold (dkeys e) in Hk, He. cbn [dget]. unfold dupdate. cbn [foldl].
  fold (dupdate (dset k' v d) e). rewrite IH by done. destruct (decide (k = k')) as [->|Hne].
  - rewrite (proj2 (dget_None_keys k' e)) by done. apply dget_dset_eq.
  - destruct (dget k e); [done|]. by apply dget_dset_ne.
Qed.

Lemma dwf_dupdate d e : dwf d -> dwf (dupdate d e).
Proof. revert d. induction e as [|[k v] e IH]; intros d Hd; [done|]. apply (IH (dset k v d)). by apply dwf_dset. Qed.

(** ** Tables *)

Record attempt := mkAttempt {
  a_id : string;
  a_hostname : string;
  a_created : float;
  a_metadata : dict;
  a_next_seq : Z;
  a_remote_cursor : Z;
  a_dropped : Z;
  a_bytes : Z;
}.

Record row := mkRow { r_attempt : string; r_seq : Z; r_payload : dict; r_bytes : Z }.

Record DB := mkDB {
  attempts : list attempt;
  records : list row;
  retained_bytes : Z;
  evicted_attempts : Z;
  unattributed_evicted_attempts : Z;
  evicted_hosts : list (string * Z);       (* [evicted_attempts:<hostname>] *)
}.

Record Limits := mkLimits {
  max_bytes : Z;
  attempt_max_bytes : Z;
  max_attempts : nat;
  retention_days : float;
  max_record_bytes : nat;
}.

Inductive StoreError := KeyError (k : string) | IntegrityError.

Definition find_attempt (id : string) (db : DB) : option attempt := find (fun a => bool_decide (a_id a = id)) (attempts db).

Definition with_attempts (l : list attempt) (db : DB) : DB :=
  mkDB l (records db) (retained_bytes db) (evicted_attempts db) (unattributed_evicted_attempts db) (evicted_hosts db).

(** [UPDATE attempts SET ... WHERE id=?] *)
Definition set_attempt (id : string) (f : attempt -> attempt) (db : DB) : DB :=
  with_attempts (List.map (fun a => if bool_decide (a_id a = id) then f a else a) (attempts db)) db.

Definition with_metadata (m : dict) (a : attempt) : attempt :=
  mkAttempt (a_id a) (a_hostname a) (a_created a) m (a_next_seq a) (a_remote_cursor a) (a_dropped a) (a_bytes a).

Definition bytes_of (l : list row) : Z := foldr (fun r n => r_bytes r + n) 0 l.

Arguments bytes_of : simpl never.

(** Inserting and deleting records, with the triggers that keep
    [retained_bytes]. *)
Definition insert_record (r : row) (db : DB) : DB :=
  mkDB (attempts db) (records db ++ [r]) (retained_bytes db + r_bytes r) (evicted_attempts db) (unattributed_evicted_attempts db) (evicted_hosts db).
Definition delete_records (p : row -> bool) (db : DB) : DB :=
  mkDB (attempts db) (List.filter (fun r => negb (p r)) (records db))
    (retained_bytes db - bytes_of (List.filter p (records db))) (evicted_attempts db) (unattributed_evicted_attempts db) (evicted_hosts db).

(** Deleting attempts: their records go with them and the trigger counts the
    eviction for the host. *)
Definition count_host (hosts : list (string * Z)) (h : string) : list (string * Z) := dset h (default 0 (dget h hosts) + 1) hosts.
Definition delete_attempts (p : attempt -> bool) (db : DB) : DB :=
  let gone := List.filter p (attempts db) in
  let db := delete_records (fun r => bool_decide (r_attempt r ∈ List.map a_id gone)) db in
  mkDB (List.filter (fun a => negb (p a)) (attempts db)) (records db) (retained_bytes db) (evicted_attempts db)
    (unattributed_evicted_attempts db) (foldl count_host (evicted_hosts db) (List.map a_hostname gone)).

(** ** Orders *)

Definition older (a b : attempt) : bool := fleb (a_created a) (a_created b).
(** [ORDER BY created DESC, id DESC] *)
Definition newer (a b : attempt) : bool :=
  fltb (a_created b) (a_created a) || (feqb (a_created a) (a_created b) && String.leb (a_id b) (a_id a)).
Definition by_created (l : list attempt) : list attempt := sort_by older l.
Definition newest_first (l : list attempt) : list attempt := sort_by newer l.
Definition of_host (h : string) (db : DB) : list attempt := List.filter (fun a => bool_decide (a_hostname a = h)) (attempts db).
Definition by_seq (l : list row) : list row := sort_by (fun a b => r_seq a <=? r_seq b) l.
Definition records_of (id : string) (db : DB) : list row := List.filter (fun r => bool_decide (r_attempt r = id)) (records db).

(** [json_extract(metadata,'$.status') = s]; absent or null compares as null. *)
Definition has_status (s : string) (a : attempt) : bool := bool_decide (dget "status" (a_metadata a) = Some (JStr s)).
Definition has_other_status (s : string) (a : attempt) : bool :=
  match dget "status" (a_metadata a) with Some JNull | None => false | Some j => negb (bool_decide (j = JStr s)) end.

Section store.
Context (lim : Limits).

(** ** Retention *)

Definition cutoff (now : float) : float := fsub now (fmul (retention_days lim) (of_int 86400)).

(** The finished attempts beyond the newest [max_attempts]. *)
Definition excess (db : DB) : list string :=
  List.map a_id (drop (max_attempts lim) (newest_first (List.filter (has_other_status "running") (attempts db)))).
Definition prunable (now : float) (db : DB) (a : attempt) : bool :=
  has_other_status "running" a && (fltb (a_created a) (cutoff now) || bool_decide (a_id a ∈ excess db)).

Definition _prune (now : float) (db : DB) : DB :=
  let removed := Z.of_nat (length (List.filter (prunable now db) (attempts db))) in
  let db := delete_attempts (prunable now db) db in
  mkDB (attempts db) (records db) (retained_bytes db) (evicted_attempts db + removed) (unattributed_evicted_attempts db) (evicted_hosts db).

Definition prune (now : float) (db : DB) : DB :=
  let expired := existsb (fun a => has_other_status "running" a && fltb (a_created a) (cutoff now)) (attempts db) in
  if expired || negb (bool_decide (excess db = [])) then _prune now db else db.

(** ** Attempts *)

Definition metadata_of (attempt_id hostname engine : string) (model : json) (bundle_version operation : string) (started : Z)
  (plan_id : json) (setup_inputs : dict) : dict :=
  [("attempt_id", JStr attempt_id); ("hostname", JStr hostname); ("engine", JStr engine); ("model", model);
   ("bundle_version", JStr bundle_version); ("operation", JStr operation); ("started_at", JNum started); ("stage", JStr "pending");
   ("status", JStr "running"); ("failure_summary", JNull); ("sources", JObj []); ("issues", JList []); ("finished_at", JNull);
   ("plan_id", plan_id); ("setup_inputs", JObj setup_inputs); ("checkpoints", JObj []); ("progress", JNull);
   ("failure_class", JNull); ("next_action", JNull); ("transient_retries", JNum 0)].

(** Whether the attempt before this one was the same provision, unfinished. *)
Definition is_retry (previous : dict) (engine : string) (model : json) : bool :=
  bool_decide (dget "operation" previous = Some (JStr "provision")) && bool_decide (dget "engine" previous = Some (JStr engine)) &&
  bool_decide (get_or "requested_model" (get_or "model" JNull previous) previous = model) &&
  bool_decide (get_or "status" JNull previous ∈ [JStr "failed"; JStr "interrupted"; JStr "running"]) &&
  negb (bool_decide (dget "stage" previous = Some (JStr "cancelled"))).

Definition int_or_zero (j : json) : Z := match j with JNum z => z | JBool true => 1 | _ => 0 end.

(** What a provision records of the series of attempts it belongs to. *)
Definition series_fields (attempt_id hostname engine : string) (model : json) (started : Z) (db : DB) : dict :=
  let prior := head (newest_first (of_host hostname db)) in
  let previous := match prior with Some a => a_metadata a | None => [] end in
  let retry := is_retry previous engine model in
  let evicted := dmem hostname (evicted_hosts db) in
  [("requested_model", model);
   ("series_id", if retry then get_or "series_id" (JStr attempt_id) previous else JStr attempt_id);
   ("series_started_at", if retry then get_or "series_started_at" (get_or "started_at" JNull previous) previous else JNum started);
   ("attempt_number", JNum (if retry then int_or_zero (get_or "attempt_number" JNull previous) + 1 else 1));
   ("series_origin_known", JBool (if retry then truthy (get_or "series_origin_known" JNull previous)
                                  else is_some prior || negb (evicted || negb (unattributed_evicted_attempts db =? 0))))].

Definition create (hostname engine : string) (model : json) (bundle_version operation attempt_id : string) (plan_id : json)
  (setup_inputs : dict) (now : float) (started : Z) (db : DB) : result StoreError (DB * string) :=
  let metadata := metadata_of attempt_id hostname engine model bundle_version operation started plan_id setup_inputs in
  let metadata := if bool_decide (operation = "provision") then dupdate metadata (series_fields attempt_id hostname engine model started db)
                  else metadata in
  raise_if (is_some (find_attempt attempt_id db)) IntegrityError ;?
  let db := with_attempts (attempts db ++ [mkAttempt attempt_id hostname now metadata 0 0 0 0]) db in
  Ok (_prune now db, attempt_id).

(** ** Metadata *)

Definition add_issue (issues : list json) (message : string) : list json :=
  let m := JStr (cut 2048 message) in if bool_decide (m ∈ issues) then issues else issues ++ [m].
Definition text_of_json (j : json) : string := match j with JStr s => s | _ => "" end.

(** [_update] on the metadata it reads: issues are merged, the rest replaced. *)
Definition merge (fields metadata : dict) : dict :=
  let metadata :=
    match dget "issues" fields with
    | Some l =>
        dset "issues" (JList (last_n 32 (foldl (fun issues m => add_issue issues (text_of_json m))
                                           (list_of (get_or "issues" JNull metadata)) (list_of l)))) metadata
    | None => metadata
    end in
  dupdate metadata (dpop "issues" fields).

Definition _update (id : string) (fields : dict) (db : DB) : result StoreError DB :=
  match find_attempt id db with
  | None => Err (KeyError id)
  | Some a => Ok (set_attempt id (with_metadata (merge fields (a_metadata a))) db)
  end.

Definition update (id : string) (fields : dict) (db : DB) : result StoreError DB :=
  let fields := match dget "failure_summary" fields with
                | Some (JStr s) => dset "failure_summary" (JStr (cut 8192 s)) fields
                | _ => fields
                end in
  _update id fields db.

(** Read, change and write back one manifest. *)
Definition _mutate_metadata (id : string) (mutate : dict -> dict) (db : DB) : result StoreError (DB * dict) :=
  match find_attempt id db with
  | None => Err (KeyError id)
  | Some a => let m := mutate (a_metadata a) in let? db := _update id m db in Ok (db, m)
  end.

Definition or_json (a b : json) : json := if truthy a then a else b.

Definition checkpoint_of (stage status attempt_id : string) (evidence : option string) (now : Z) (metadata current : dict) : dict :=
  let terminal := bool_decide (status ∈ ["completed"; "skipped"; "failed"]) in
  let text := match evidence with
              | Some s => if str_truthy s then s else text_of_json (get_or "evidence" JNull current)
              | None => text_of_json (get_or "evidence" JNull current)
              end in
  let c := [("stage", JStr stage); ("status", JStr status); ("plan_id", get_or "plan_id" JNull metadata);
            ("attempt_id", JStr attempt_id); ("attempt_number", get_or "attempt_number" JNull metadata);
            ("started_at", or_json (get_or "started_at" JNull current) (JNum now));
            ("completed_at", or_json (get_or "completed_at" JNull current) (if terminal then JNum now else JNull));
            ("evidence", if str_truthy (cut 1024 text) then JStr (cut 1024 text) else JNull)] in
  if bool_decide (status ∈ ["running"; "failed"]) then dset "completed_at" (if bool_decide (status = "running") then JNull else JNum now) c else c.

Definition checkpoint_mutate (attempt_id stage status : string) (evidence : option string) (now : Z) (metadata : dict) : dict :=
  let checkpoints := obj_of (get_or "checkpoints" (JObj []) metadata) in
  let metadata := if dmem "checkpoints" metadata then metadata else dset "checkpoints" (JObj []) metadata in
  if negb (dmem stage checkpoints) && Nat.leb _MAX_CHECKPOINTS (length checkpoints) then metadata
  else
    let current := obj_of (get_or stage JNull checkpoints) in
    let checkpoints := dset stage (JObj (checkpoint_of stage status attempt_id evidence now metadata current)) checkpoints in
    let metadata := dset "checkpoints" (JObj checkpoints) metadata in
    let metadata := dset "current_stage" (JStr stage) metadata in
    let statuses := List.map (fun '(s, c) => (s, get_or "status" JNull (obj_of c))) checkpoints in
    let metadata := dset "progress" (progress_json (setup_progress statuses (str_or "engine" metadata))) metadata in
    if bool_decide (status = "running") then dset "next_action" JNull (dset "failure_class" JNull metadata) else metadata.

Definition record_checkpoint (attempt_id stage status : string) (evidence : option string) (now : Z) (db : DB) : result StoreError DB :=
  if negb (bool_decide (stage ∈ _ALLOWED_CHECKPOINT_STAGES)) then Ok db
  else let? (db, _) := _mutate_metadata attempt_id (checkpoint_mutate attempt_id stage status evidence now) db in Ok db.

Definition increment_transient_retry (id : string) (now : Z) (db : DB) : result StoreError (DB * Z) :=
  let? (db, m) := _mutate_metadata id (fun m =>
    dset "last_transient_retry_at" (JNum now) (dset "transient_retries" (JNum (int_or_zero (get_or "transient_retries" JNull m) + 1)) m)) db in
  Ok (db, int_or_zero (get_or "transient_retries" JNull m)).

Definition issue (id message : string) (source : option string) (db : DB) : result StoreError DB :=
  let message := cut 2048 message in
  match find_attempt id db with
  | None => Err (KeyError id)
  | Some a =>
      let m := a_metadata a in
      let issues := list_of (get_or "issues" JNull m) in
      let m := if bool_decide (JStr message ∈ issues) then m else dset "issues" (JList (last_n 32 (issues ++ [JStr message]))) m in
      let m := match source with
               | Some s => if str_truthy s then dset "sources" (JObj (dset s (JStr "unavailable") (obj_of (get_or "sources" JNull m)))) m else m
               | None => m
               end in
      _update id m db
  end.

(** The phase's entry after [changes]. *)
Definition phase_info (changes info : dict) (now : Z) : dict :=
  let status := dget "status" changes in
  let changes := if bool_decide (status = Some (JStr "launching") \/ status = Some (JStr "running")) && negb (dmem "started_at" info)
                 then (if dmem "started_at" changes then changes else dset "started_at" (JNum now) changes) else changes in
  let changes := if bool_decide (status = Some (JStr "complete")) && negb (dmem "finished_at" info) then
                   dset "duration_seconds"
                     (match get_or "started_at" JNull info with JNum s => if s =? 0 then JNull else JNum (Z.max 0 (now - s)) | _ => JNull end)
                     (dset "finished_at" (JNum now) changes)
                 else changes in
  dupdate info changes.

Definition update_phase (id phase : string) (changes : dict) (now : Z) (db : DB) : result StoreError DB :=
  match find_attempt id db with
  | None => Err (KeyError id)
  | Some a =>
      let phases := obj_of (get_or "phases" (JObj []) (a_metadata a)) in
      let info := phase_info changes (obj_of (get_or phase (JObj []) phases)) now in
      _update id (dset "phases" (JObj (dset phase (JObj info) phases)) (a_metadata a)) db
  end.

Definition _INTERRUPTED : string := "Gateway stopped before attempt completion; collect remote logs to recover evidence".

Definition interrupt (m : dict) : dict :=
  dset "issues" (JList (last_n 32 (list_of (get_or "issues" JNull m) ++ [JStr "Gateway collection interrupted"])))
    (dset "failure_summary" (JStr _INTERRUPTED) (dset "status" (JStr "interrupted") m)).

Fixpoint interrupt_all (l : list attempt) (db : DB) : result StoreError DB :=
  match l with
  | [] => Ok db
  | a :: l =>
      if has_status "running" a then let? db := _update (a_id a) (interrupt (a_metadata a)) db in interrupt_all l db
      else interrupt_all l db
  end.
Definition interrupt_running (db : DB) : result StoreError DB := interrupt_all (attempts db) db.

(** ** Records *)

Record LogRecord := mkLogRecord {
  lr_msg : string;
  lr_level : string;
  lr_source : string;
  lr_stage : option string;
  lr_ts : option Z;
  lr_remote_seq : option Z;
  lr_stream : option string;
  lr_journal_cursor : option string;
}.

Definition PROFILE_PATTERN : re := compile false false "\[PROFILE:select:([\w.-]+) \(([^\]\r\n]+)\)\]".

Definition note_profile (r : LogRecord) (m : dict) : dict :=
  if bool_decide (lr_source r ∈ ["setup.stdout"; "start.stdout"]) then
    match search PROFILE_PATTERN (lr_msg r) with
    | Some p => dset "runtime_profile" (JStr (cut 200 (default "" (group "1" p)))) m
    | None => m
    end
  else m.

Definition append_issue (text : string) (m : dict) : dict :=
  dset "issues" (JList (last_n 32 (list_of (get_or "issues" JNull m) ++ [JStr text]))) m.

Definition note_gap (cursor : Z) (remote_seq : option Z) (m : dict) : dict :=
  match remote_seq with
  | Some n =>
      if cursor <? n then
        append_issue ("Remote records " +:+ pretty cursor +:+ ".." +:+ pretty (n - 1) +:+ " unavailable (rotation or interrupted collection)") m
      else m
  | None => m
  end.

Definition _TRUNCATED : string := "Record truncated by byte limit".

Definition too_long (msg : string) : bool := Nat.ltb (max_record_bytes lim) (String.length msg).
Definition shortened (msg : string) : string := if too_long msg then cut_bytes (max_record_bytes lim - 16) msg +:+ " ... [truncated]" else msg.
Definition note_truncated (msg : string) (m : dict) : dict :=
  if too_long msg && negb (bool_decide (JStr _TRUNCATED ∈ list_of (get_or "issues" JNull m))) then append_issue _TRUNCATED m else m.

Definition opt_json (o : option string) : json := match o with Some s => JStr s | None => JNull end.

Definition entry_of (r : LogRecord) (attempt_id : string) (m : dict) (seq now : Z) : dict :=
  [("hostname", get_or "hostname" JNull m); ("attempt_id", JStr attempt_id); ("engine", get_or "engine" JNull m);
   ("model", get_or "model" JNull m); ("bundle_version", get_or "bundle_version" JNull m); ("seq", JNum seq);
   ("remote_seq", match lr_remote_seq r with Some n => JNum n | None => JNull end);
   ("ts", JNum (match lr_ts r with Some t => t | None => now end)); ("level", JStr (lr_level r)); ("msg", JStr (shortened (lr_msg r)));
   ("stream", opt_json (lr_stream r)); ("source", JStr (lr_source r));
   ("stage", match lr_stage r with Some s => if str_truthy s then JStr s else get_or "stage" JNull m | None => get_or "stage" JNull m end);
   ("truncated", JBool (too_long (lr_msg r)))].

(** A record that was already stored: below the remote cursor, or the journal
    position seen last. *)
Definition already_stored (a : attempt) (r : LogRecord) : bool :=
  match lr_remote_seq r with Some n => n <? a_remote_cursor a | None => false end ||
  match lr_journal_cursor r with
  | Some c => bool_decide (dget "journal_cursor" (note_profile r (a_metadata a)) = Some (JStr c))
  | None => false
  end.

(** The manifest and the entry of a new record. *)
Definition new_metadata (a : attempt) (r : LogRecord) : dict :=
  let m := note_profile r (a_metadata a) in
  let m := match lr_journal_cursor r with Some c => dset "journal_cursor" (JStr c) m | None => m end in
  note_truncated (lr_msg r) (note_gap (a_remote_cursor a) (lr_remote_seq r) m).

Definition _append (id : string) (r : LogRecord) (now : Z) (db : DB) : result StoreError (DB * option dict) :=
  match find_attempt id db with
  | None => Err (KeyError id)
  | Some a =>
      if already_stored a r then Ok (db, None)
      else
        let m := new_metadata a r in
        let seq := a_next_seq a in
        let entry := entry_of r id m seq now in
        let size := payload_size entry in
        let m := dset "sources" (JObj (dset (lr_source r) (JStr "collected") (obj_of (get_or "sources" JNull m)))) m in
        let db := insert_record (mkRow id seq entry size) db in
        let db := set_attempt id (fun a =>
          mkAttempt (a_id a) (a_hostname a) (a_created a) m (seq + 1)
            (match lr_remote_seq r with Some n => n + 1 | None => a_remote_cursor a end) (a_dropped a) (a_bytes a + size)) db in
        Ok (db, Some entry)
  end.

(** ** Budgets *)

(** The shortest prefix of the records whose removal brings [size] within the
    budget: its bytes, its length and its last sequence number. *)
Fixpoint rotate_scan (l : list row) (size budget removed count last : Z) : Z * Z * Z :=
  match l with
  | [] => (removed, count, last)
  | r :: l =>
      let removed := removed + r_bytes r in
      let count := count + 1 in
      if size - removed <=? budget then (removed, count, r_seq r) else rotate_scan l size budget removed count (r_seq r)
  end.

Definition _rotate (id : string) (budget : Z) (db : DB) : DB * Z :=
  match find_attempt id db with
  | None => (db, 0)
  | Some a =>
      if budget <? a_bytes a then
        let '(removed, count, last) := rotate_scan (by_seq (records_of id db)) (a_bytes a) budget 0 0 (-1) in
        let db := delete_records (fun r => bool_decide (r_attempt r = id) && (r_seq r <=? last)) db in
        (set_attempt id (fun a =>
           mkAttempt (a_id a) (a_hostname a) (a_created a) (a_metadata a) (a_next_seq a) (a_remote_cursor a)
             (a_dropped a + count) (a_bytes a - removed)) db, removed)
      else (db, 0)
  end.

(** The oldest attempts lose records until the store is within its budget. *)
Fixpoint shrink (candidates : list (string * Z)) (total : Z) (db : DB) : DB :=
  match candidates with
  | [] => db
  | (id, bytes) :: l =>
      if total <=? max_bytes lim then db
      else let '(db, removed) := _rotate id (Z.max 0 (bytes - (total - max_bytes lim))) db in shrink l (total - removed) db
  end.

Definition _apply_budgets (id : string) (db : DB) : DB :=
  let db := fst (_rotate id (attempt_max_bytes lim) db) in
  if retained_bytes db <=? max_bytes lim then db
  else shrink (List.map (fun a => (a_id a, a_bytes a)) (by_created (List.filter (fun a => 0 <? a_bytes a) (attempts db))))
         (retained_bytes db) db.

Fixpoint append_loop (id : string) (l : list (LogRecord * Z)) (db : DB) : result StoreError (DB * list dict) :=
  match l with
  | [] => Ok (db, [])
  | (r, now) :: l =>
      let? (db, e) := _append id r now db in
      let? (db, added) := append_loop id l db in
      Ok (db, match e with Some e => e :: added | None => added end)
  end.

(** Each record with the clock at its turn. *)
Definition append_many (id : string) (l : list (LogRecord * Z)) (db : DB) : result StoreError (DB * list dict) :=
  match l with
  | [] => Ok (db, [])
  | _ => let? (db, added) := append_loop id l db in Ok (_apply_budgets id db, added)
  end.

Definition append (id : string) (r : LogRecord) (now : Z) (db : DB) : result StoreError (DB * option dict) :=
  let? (db, added) := append_many id [(r, now)] db in Ok (db, head added).

(** ** Reading *)

Definition sources_of (m : dict) : list (string * json) := obj_of (get_or "sources" (JObj []) (obj_of (get_or "diagnostics" (JObj []) m))).

Definition age_source (dropped : Z) (s : dict) : dict :=
  let first := match dget "first_seq" s with Some (JNum n) => n | _ => dropped end in
  if first <? dropped then
    let s := dupdate s [("truncated", JBool true); ("reason", JStr "Diagnostic records evicted by retention")] in
    if bool_decide (dget "status" s = Some (JStr "collected")) then dset "status" (JStr "truncated") s else s
  else s.

(** The manifest with the row's counters; evicted diagnostics are marked. *)
Definition _manifest (a : attempt) : dict :=
  let m := dupdate (a_metadata a)
    [("next_seq", JNum (a_next_seq a)); ("remote_cursor", JNum (a_remote_cursor a)); ("dropped_records", JNum (a_dropped a));
     ("retained_bytes", JNum (a_bytes a))] in
  let sources := List.map (fun '(k, v) => (k, JObj (age_source (a_dropped a) (obj_of v)))) (sources_of m) in
  let m := match dget "diagnostics" m with
           | Some (JObj d) => if dmem "sources" d then dset "diagnostics" (JObj (dset "sources" (JObj sources) d)) m else m
           | _ => m
           end in
  dset "incomplete"
    (JBool (truthy (get_or "issues" JNull m) || negb (a_dropped a =? 0) ||
            existsb (fun '(_, v) => negb (bool_decide (dget "status" (obj_of v) = Some (JStr "collected"))) ||
                                    truthy (get_or "deferred" JNull (obj_of v))) sources)) m.

Definition get (id : string) (db : DB) : result StoreError dict :=
  match find_attempt id db with Some a => Ok (_manifest a) | None => Err (KeyError id) end.

Definition field_is (k : string) (v : string) (d : dict) : bool := bool_decide (dget k d = Some (JStr v)).

Fixpoint contains (m s : string) : bool := startswith s m || match s with EmptyString => false | String _ s => contains m s end.

Definition selects (query source : string) (d : dict) : bool :=
  contains (py_lower query) (py_lower (text_of_json (get_or "msg" JNull d))) &&
  (negb (str_truthy source) || field_is "source" source d).

Record Page := mkPage { page_attempt : dict; page_records : list dict; has_more : bool; next_offset : Z }.

Definition read (id : string) (after : Z) (query source : string) (limit : nat) (db : DB) : result StoreError Page :=
  match find_attempt id db with
  | None => Err (KeyError id)
  | Some a =>
      let rows := take (S limit) (List.filter (fun r => (after <=? r_seq r) && (r_seq r <? a_next_seq a) && selects query source (r_payload r))
                                    (by_seq (records_of id db))) in
      let more := Nat.ltb limit (length rows) in
      let page := take limit rows in
      Ok (mkPage (_manifest a) (List.map r_payload page) more
            (if more then match last page with Some r => r_seq r + 1 | None => 0 end else a_next_seq a))
  end.

Definition _source_records (id source : string) (first_seq : Z) (last_seq : option Z) (newest : bool) (db : DB) : list dict :=
  let rows := List.filter (fun r => field_is "source" source (r_payload r) && (first_seq <=? r_seq r) &&
                                    match last_seq with Some n => r_seq r <=? n | None => true end) (by_seq (records_of id db)) in
  List.map r_payload (take (S _SOURCE_RECORD_BUDGET) (if newest then rev rows else rows)).

Definition history (hostname : string) (limit offset : nat) (now : float) (db : DB) : DB * (list dict * Z * Z) :=
  let db := prune now db in
  (db, (List.map _manifest (take limit (drop offset (sort_by (fun a b => fleb (a_created b) (a_created a)) (of_host hostname db)))),
        Z.of_nat (length (of_host hostname db)), evicted_attempts db)).

Definition attempts_metadata_by_host (hostname : string) (db : DB) : list (string * dict) :=
  List.map (fun a => (a_id a, a_metadata a)) (sort_by (fun a b => fleb (a_created b) (a_created a)) (of_host hostname db)).

Definition latest_running (hostname : string) (exclude : option string) (db : DB) : option string :=
  a_id <$> head (sort_by (fun a b => fleb (a_created b) (a_created a))
    (List.filter (fun a => negb (bool_decide (a_id a = default "" exclude)) && has_status "running" a) (of_host hostname db))).

Definition newest (h : string) (db : DB) : option attempt := head (sort_by (fun a b => fleb (a_created b) (a_created a)) (of_host h db)).
Definition newest_time (h : string) (db : DB) : float := match newest h db with Some a => a_created a | None => 0%Q end.

Definition pending_hosts (db : DB) : list string :=
  let hosts := remove_dups (List.map a_hostname (attempts db)) in
  sort_by (fun h h' => fleb (newest_time h' db) (newest_time h db))
    (List.filter (fun h => match newest h db with
                           | Some a => has_status "running" a || has_status "interrupted" a || has_status "failed" a
                           | None => false
                           end) hosts).

Definition resumable_loop_stage (acc : list (string * dict) * list string) (kv : string * json) : list (string * dict) * list string :=
  let '(merged, decided) := acc in
  let '(stage, checkpoint) := kv in
  if bool_decide (stage ∈ NON_RESUMABLE_STAGES) || bool_decide (stage ∈ decided) then acc
  else (if bool_decide (dget "status" (obj_of checkpoint) = Some (JStr "completed") \/ dget "status" (obj_of checkpoint) = Some (JStr "skipped"))
        then dset stage (obj_of checkpoint) merged else merged, decided ++ [stage]).

Definition resumable_loop_attempt (plan_id : string) (acc : list (string * dict) * list string) (a : attempt) : list (string * dict) * list string :=
  if bool_decide (dget "plan_id" (a_metadata a) = Some (JStr plan_id)) then
    foldl resumable_loop_stage acc (obj_of (get_or "checkpoints" JNull (a_metadata a)))
  else acc.

Definition resumable_checkpoints (hostname plan_id : string) (db : DB) : list (string * dict) :=
  fst (foldl (resumable_loop_attempt plan_id) ([], []) (newest_first (of_host hostname db))).
End store.

(** ** The accounting invariant *)

(** An attempt's row agrees with its records: their sequence numbers are those
    from [dropped] to [next_seq], in order, and [bytes] is their size. *)
Record attempt_ok (l : list row) (a : attempt) : Prop := {
  ok_seqs : List.map r_seq (List.filter (fun r => bool_decide (r_attempt r = a_id a)) l) = seqZ (a_dropped a) (a_next_seq a - a_dropped a);
  ok_range : 0 <= a_dropped a <= a_next_seq a;
  ok_bytes : a_bytes a = bytes_of (List.filter (fun r => bool_decide (r_attempt r = a_id a)) l);
}.

Record wf (db : DB) : Prop := {
  wf_ids : NoDup (List.map a_id (attempts db));
  wf_attempts : Forall (attempt_ok (records db)) (attempts db);
  wf_owner : Forall (fun r => r_attempt r ∈ List.map a_id (attempts db)) (records db);
  wf_positive : Forall (fun r => 0 < r_bytes r) (records db);
  wf_total : retained_bytes db = bytes_of (records db);
}.

Lemma find_attempt_Some id db a : find_attempt id db = Some a -> a ∈ attempts db /\ a_id a = id.
Proof. intros [Ha Hid]%find_some. apply bool_decide_eq_true in Hid. by rewrite list_elem_of_In. Qed.

Lemma find_attempt_None id db : find_attempt id db = None <-> id ∉ List.map a_id (attempts db).
Proof.
  split.
  - intros H [a [Hid Ha]]%list_elem_of_In%in_map_iff. apply (find_none _ _ H) in Ha. by apply bool_decide_eq_false in Ha.
  - intros H. destruct (find_attempt id db) as [a|] eqn:Ha; [|done]. apply find_attempt_Some in Ha as [Ha Hid].
    exfalso. apply H. rewrite <- Hid, list_elem_of_In. by apply in_map, list_elem_of_In.
Qed.

(** Attempts are determined by their id. *)
Lemma attempts_inj db a b : NoDup (List.map a_id (attempts db)) -> a ∈ attempts db -> b ∈ attempts db -> a_id a = a_id b -> a = b.
Proof.
  intros Hn Ha Hb He. apply list_elem_of_lookup in Ha as [i Hi], Hb as [j Hj].
  assert (i = j) as ->; [|congruence]. apply (NoDup_lookup _ i j (a_id a) Hn).
  - change (List.map a_id (attempts db)) with (a_id <$> attempts db). by rewrite list_lookup_fmap, Hi.
  - change (List.map a_id (attempts db)) with (a_id <$> attempts db). by rewrite list_lookup_fmap, Hj, He.
Qed.

Lemma set_attempt_ids id f db : (forall a, a_id (f a) = a_id a) -> List.map a_id (attempts (set_attempt id f db)) = List.map a_id (attempts db).
Proof. intros Hf. cbn. rewrite map_map. apply map_ext. intros a. by destruct (bool_decide _). Qed.

Lemma bytes_of_app l k : bytes_of (l ++ k) = bytes_of l + bytes_of k.
Proof. unfold bytes_of. induction l as [|r l IH]; cbn; [lia|]. rewrite IH. lia. Qed.

Lemma bytes_of_split (p : row -> bool) l : bytes_of l = bytes_of (List.filter p l) + bytes_of (List.filter (fun r => negb (p r)) l).
Proof. unfold bytes_of. induction l as [|r l IH]; cbn; [lia|]. destruct (p r); cbn; lia. Qed.

Lemma bytes_of_nonneg l : Forall (fun r => 0 < r_bytes r) l -> 0 <= bytes_of l.
Proof. unfold bytes_of. induction 1; cbn; lia. Qed.

Lemma filter_filter_bool {A} (p q : A -> bool) l : List.filter p (List.filter q l) = List.filter (fun x => q x && p x) l.
Proof. induction l as [|x l IH]; cbn; [done|]. destruct (q x); cbn; [destruct (p x); by rewrite IH|done]. Qed.

Lemma filter_none {A} (p : A -> bool) l : Forall (fun x => p x = false) l -> List.filter p l = [].
Proof. induction 1 as [|x l Hx _ IH]; cbn; [done|]. by rewrite Hx. Qed.

(** Changing only metadata. *)
Lemma wf_set_metadata id m db : wf db -> wf (set_attempt id (with_metadata m) db).
Proof.
  intros [H1 H2 H3 H4 H5]. assert (List.map a_id (attempts (set_attempt id (with_metadata m) db)) = List.map a_id (attempts db)) as Hids by by apply set_attempt_ids.
  split; rewrite ?Hids; try done. cbn. apply Forall_map. eapply Forall_impl; [exact H2|]. intros a [A1 A2 A3]. by destruct (bool_decide (a_id a = id)).
Qed.

Lemma wf_update_row id fields db db' : wf db -> _update id fields db = Ok db' -> wf db'.
Proof. unfold _update. destruct (find_attempt id db) as [a|]; [|done]. intros H [= <-]. by apply wf_set_metadata. Qed.

(** Removing records of some attempts altogether leaves the others' alone. *)
Lemma wf_delete_attempts p db : wf db -> wf (delete_attempts p db).
Proof.
  intros [H1 H2 H3 H4 H5]. unfold delete_attempts. cbn. set (gone := List.map a_id (List.filter p (attempts db))).
  assert (forall a, a ∈ attempts db -> a_id a ∈ gone <-> p a = true) as Hgone.
  { intros a Ha. unfold gone. rewrite list_elem_of_In, in_map_iff. split.
    - intros (b & Hid & [Hb Hp]%filter_In). rewrite <- list_elem_of_In in Hb. by rewrite <- (attempts_inj db b a H1 Hb Ha Hid).
    - intros Hp. exists a. split; [done|]. apply filter_In. by rewrite <- list_elem_of_In. }
  assert (sublist (List.map a_id (List.filter (fun a => negb (p a)) (attempts db))) (List.map a_id (attempts db))) as Hsub.
  { change (sublist (a_id <$> List.filter (fun a => negb (p a)) (attempts db)) (a_id <$> attempts db)). apply fmap_sublist, filter_sublist_bool. }
  split; cbn.
  - by eapply sublist_NoDup.
  - apply Forall_forall. intros a [Ha Hp]%list_elem_of_In%filter_In. rewrite <- list_elem_of_In in Ha. apply negb_true_iff in Hp.
    rewrite Forall_forall in H2. destruct (H2 a Ha) as [A1 A2 A3].
    assert (List.filter (fun r => bool_decide (r_attempt r = a_id a)) (List.filter (fun r => negb (bool_decide (r_attempt r ∈ gone))) (records db)) =
            List.filter (fun r => bool_decide (r_attempt r = a_id a)) (records db)) as Hsame.
    { rewrite filter_filter_bool. apply filter_ext. intros r. destruct (bool_decide (r_attempt r = a_id a)) eqn:Hr; [|by rewrite andb_false_r].
      apply bool_decide_eq_true in Hr. rewrite Hr, bool_decide_eq_false_2; [done|]. rewrite (Hgone a Ha). congruence. }
    split; [by rewrite Hsame|done|by rewrite Hsame].
  - apply Forall_forall. intros r [Hr Hn]%list_elem_of_In%filter_In. rewrite <- list_elem_of_In in Hr. apply negb_true_iff, bool_decide_eq_false in Hn.
    rewrite Forall_forall in H3. specialize (H3 r Hr). apply list_elem_of_In, in_map_iff in H3 as (a & Hid & Ha). rewrite <- list_elem_of_In in Ha.
    rewrite <- Hid. apply list_elem_of_In, in_map, filter_In. rewrite <- list_elem_of_In. split; [done|]. apply negb_true_iff. destruct (p a) eqn:Hp; [|done].
    exfalso. apply Hn. rewrite <- Hid. by apply Hgone.
  - rewrite Forall_forall in *. intros r [Hr _]%list_elem_of_In%filter_In. apply H4. by rewrite list_elem_of_In.
  - rewrite H5, (bytes_of_split (fun r => bool_decide (r_attempt r ∈ gone)) (records db)). lia.
Qed.

Lemma wf_prune lim now db : wf db -> wf (_prune lim now db).
Proof. intros H. destruct (wf_delete_attempts (prunable lim now db) db H) as [H1 H2 H3 H4 H5]. by split. Qed.

Lemma wf_insert_attempt id h now m db : wf db -> find_attempt id db = None -> wf (with_attempts (attempts db ++ [mkAttempt id h now m 0 0 0 0]) db).
Proof.
  intros [H1 H2 H3 H4 H5] Hf. apply find_attempt_None in Hf.
  assert (List.filter (fun r => bool_decide (r_attempt r = id)) (records db) = []) as Hnone.
  { apply filter_none. apply Forall_forall. intros r Hr. apply bool_decide_eq_false. intros Hid. rewrite Forall_forall in H3. apply Hf. rewrite <- Hid. by apply H3. }
  split; cbn; rewrite ?map_app; cbn.
  - apply NoDup_app. split_and!; [done|set_solver|apply NoDup_singleton].
  - apply Forall_app. split; [done|]. constructor; [|done]. split; cbn; rewrite ?Hnone; done.
  - eapply Forall_impl; [exact H3|]. intros r Hr. apply elem_of_app. by left.
  - done.
  - done.
Qed.

Lemma payload_size_pos e : 0 < payload_size e.
Proof.
  unfold payload_size. assert (exists t, render (JObj e) = String "{" t) as [t ->] by (eexists; reflexivity). cbn [String.length]. lia.
Qed.

(** Changing the row of one attempt along with its records. *)
Lemma wf_change id a f l total db : wf db -> find_attempt id db = Some a -> (forall a, a_id (f a) = a_id a) ->
  attempt_ok l (f a) ->
  (forall i, i <> id -> List.filter (fun r => bool_decide (r_attempt r = i)) l = List.filter (fun r => bool_decide (r_attempt r = i)) (records db)) ->
  Forall (fun r => r_attempt r ∈ List.map a_id (attempts db)) l -> Forall (fun r => 0 < r_bytes r) l -> total = bytes_of l ->
  wf (set_attempt id f (mkDB (attempts db) l total (evicted_attempts db) (unattributed_evicted_attempts db) (evicted_hosts db))).
Proof.
  intros [H1 H2 _ _ _] Ha Hf Hok Hother Howner Hpos Htotal. apply find_attempt_Some in Ha as [Ha Hid].
  assert (forall db, List.map a_id (attempts (set_attempt id f db)) = List.map a_id (attempts db)) as Hids by (intros ?; by apply set_attempt_ids).
  split; rewrite ?Hids; try done. cbn. apply Forall_map. apply Forall_forall. intros b Hb. rewrite Forall_forall in H2. specialize (H2 b Hb).
  case_bool_decide as Hbid.
  - replace b with a; [done|]. apply (attempts_inj db); congruence.
  - destruct H2 as [A1 A2 A3]. split; [by rewrite Hother|done|by rewrite Hother].
Qed.

Lemma wf_append id r now lim db db' e : wf db -> _append lim id r now db = Ok (db', e) -> wf db'.
Proof.
  intros Hwf. unfold _append. destruct (find_attempt id db) as [a|] eqn:Ha; [|done]. destruct (already_stored a r); [by intros [= <- <-]|].
  intros [= <- _]. pose proof (find_attempt_Some _ _ _ Ha) as [Hin Hid]. pose proof Hwf as [H1 H2 H3 H4 H5]. rewrite Forall_forall in H2. destruct (H2 a Hin) as [A1 A2 A3].
  set (m := new_metadata lim a r). set (entry := entry_of lim r id m (a_next_seq a) now). pose proof (payload_size_pos entry) as Hpos.
  unfold insert_record. cbn [attempts records retained_bytes evicted_attempts unattributed_evicted_attempts evicted_hosts r_bytes].
  apply (wf_change id a); try done; cbn.
  - assert (List.filter (fun r => bool_decide (r_attempt r = a_id a)) (records db ++ [mkRow id (a_next_seq a) entry (payload_size entry)]) =
            List.filter (fun r => bool_decide (r_attempt r = a_id a)) (records db) ++ [mkRow id (a_next_seq a) entry (payload_size entry)]) as Hnew.
    { rewrite List.filter_app. cbn. by rewrite Hid, bool_decide_eq_true_2. }
    split; cbn; rewrite ?Hnew.
    + rewrite map_app, A1. cbn. replace (a_next_seq a + 1 - a_dropped a) with ((a_next_seq a - a_dropped a) + 1) by lia. rewrite seqZ_app by lia. cbn. f_equal. replace (a_dropped a + (a_next_seq a - a_dropped a)) with (a_next_seq a) by lia. rewrite seqZ_cons by lia. done.
    + lia.
    + rewrite bytes_of_app, <- A3. unfold bytes_of. cbn. lia.
  - intros i Hi. rewrite List.filter_app. cbn. rewrite bool_decide_eq_false_2 by congruence. by rewrite app_nil_r.
  - apply Forall_app. split; [done|]. constructor; [|done]. cbn. rewrite <- Hid. by apply list_elem_of_In, in_map, list_elem_of_In.
  - apply Forall_app. split; [done|]. constructor; done.
  - rewrite bytes_of_app, H5. unfold bytes_of. cbn. lia.
Qed.

(** ** Rotation *)

Lemma rotate_scan_spec l size budget removed count last0 :
  exists p q, l = p ++ q /\ (l <> [] -> p <> []) /\
    rotate_scan l size budget removed count last0 =
      (removed + bytes_of p, count + Z.of_nat (length p), match last p with Some r => r_seq r | None => last0 end) /\
    (size - (removed + bytes_of p) <= budget \/ q = []).
Proof.
  revert removed count last0. induction l as [|r l IH]; intros removed count last0; cbn [rotate_scan].
  - exists [], []. unfold bytes_of. cbn. split_and!; [done|done|do 2 f_equal; lia|by right].
  - destruct (Z.leb_spec (size - (removed + r_bytes r)) budget) as [Hle|Hgt].
    + exists [r], l. unfold bytes_of. cbn. split_and!; [done|done|repeat f_equal; lia|left; lia].
    + destruct (IH (removed + r_bytes r) (count + 1) (r_seq r)) as (p & q & -> & _ & -> & Hend). exists (r :: p), q.
      assert (bytes_of (r :: p) = r_bytes r + bytes_of p) as Hb by done. rewrite Hb. cbn [length app]. split_and!; [done|done| |destruct Hend; [left; lia|by right]].
      f_equal; [f_equal; lia|]. destruct p as [|r' p]; [done|]. rewrite last_cons_cons. destruct (last (r' :: p)) eqn:He; [done|]. by apply last_None in He.
Qed.

(** The records up to the last one of a prefix are that prefix. *)
Lemma prefix_by_seq d p q : List.map r_seq (p ++ q) = seqZ d (Z.of_nat (length (p ++ q))) -> forall r, last p = Some r ->
  List.filter (fun x => negb (r_seq x <=? r_seq r)) (p ++ q) = q /\ r_seq r = d + Z.of_nat (length p) - 1.
Proof.
  revert d. induction p as [|x p IH]; intros d Hs r Hl; [done|]. cbn [app List.map length] in Hs.
  rewrite Nat2Z.inj_succ, seqZ_cons in Hs by lia. injection Hs as Hx Hs. replace (Z.pred (Z.succ (Z.of_nat (length (p ++ q))))) with (Z.of_nat (length (p ++ q))) in Hs by lia.
  destruct p as [|y p].
  - cbn in Hl. injection Hl as ->. cbn [app List.filter] in *. rewrite Hx. replace (d <=? d) with true by (symmetry; apply Z.leb_refl). cbn. split; [|lia].
    clear IH Hx. assert (forall z, z ∈ List.map r_seq q -> d < z) as Hbig. { intros z Hz. rewrite Hs in Hz. apply elem_of_seqZ in Hz. lia. }
    clear Hs. induction q as [|z q IH]; [done|]. cbn. destruct (Z.leb_spec (r_seq z) d) as [Hle|]; [exfalso; specialize (Hbig (r_seq z)); cbn in Hbig; set_unfold; naive_solver lia|].
    f_equal. apply IH. intros z' Hz'. apply Hbig. cbn. by right.
  - rewrite last_cons_cons in Hl. destruct (IH (Z.succ d) Hs r Hl) as [Hf Hr]. cbn [app List.filter]. cbn [length] in *.
    destruct (Z.leb_spec (r_seq x) (r_seq r)) as [|Hgt]; [|lia]. cbn. split; [exact Hf|lia].
Qed.

Lemma seqs_suffix d p q : List.map r_seq (p ++ q) = seqZ d (Z.of_nat (length (p ++ q))) -> List.map r_seq q = seqZ (d + Z.of_nat (length p)) (Z.of_nat (length q)).
Proof.
  revert d. induction p as [|x p IH]; intros d Hs; [cbn in *; by rewrite Z.add_0_r|]. cbn [app List.map length] in *.
  rewrite Nat2Z.inj_succ, seqZ_cons in Hs by lia. injection Hs as _ Hs. rewrite Z.pred_succ in Hs. rewrite (IH _ Hs). f_equal. lia.
Qed.

Lemma sort_by_id {A} (le : A -> A -> bool) l : StronglySorted (fun a b => le a b = true) l -> sort_by le l = l.
Proof.
  induction 1 as [|x l Hs IH Hx]; [done|]. change (insert_by le x (sort_by le l) = x :: l). rewrite IH. destruct l as [|y l]; [done|]. cbn. inversion Hx as [|? ? Hy]; subst. by rewrite Hy.
Qed.

Lemma seqs_sorted l d n : List.map r_seq l = seqZ d n -> StronglySorted (fun a b => (r_seq a <=? r_seq b) = true) l.
Proof.
  revert d n. induction l as [|r l IH]; intros d n Hs; [constructor|]. cbn in Hs. destruct (decide (0 < n)) as [Hn|Hn]; [|rewrite seqZ_nil in Hs by lia; done].
  rewrite seqZ_cons in Hs by lia. injection Hs as Hr Hs. constructor; [by eapply IH|]. apply Forall_forall. intros x Hx. apply Z.leb_le.
  assert (r_seq x ∈ List.map r_seq l) as Hin by by apply list_elem_of_In, in_map, list_elem_of_In. rewrite Hs in Hin. apply elem_of_seqZ in Hin. lia.
Qed.

(** The records of an attempt are already in order. *)
Lemma by_seq_records id a db : wf db -> find_attempt id db = Some a -> by_seq (records_of id db) = records_of id db.
Proof.
  intros Hwf Ha. pose proof (find_attempt_Some _ _ _ Ha) as [Hin <-]. apply sort_by_id. destruct Hwf as [_ H2 _ _ _]. rewrite Forall_forall in H2.
  destruct (H2 a Hin) as [A1 _ _]. by eapply seqs_sorted.
Qed.

Lemma find_set_attempt id f db i : (forall a, a_id (f a) = a_id a) ->
  find_attempt i (set_attempt id f db) = (fun a => if bool_decide (a_id a = id) then f a else a) <$> find_attempt i db.
Proof.
  intros Hf. unfold find_attempt. cbn. induction (attempts db) as [|a l IH]; cbn; [done|].
  replace (a_id (if bool_decide (a_id a = id) then f a else a)) with (a_id a) by (destruct (bool_decide (a_id a = id)); [by rewrite Hf|done]).
  destruct (bool_decide (a_id a = i)); done.
Qed.

(** Storing new metadata for an attempt: what a field becomes. *)
Lemma dget_merge k f m : dwf f -> k <> "issues" -> dget k (merge f m) = match dget k f with Some v => Some v | None => dget k m end.
Proof.
  intros Hf Hk. unfold merge. rewrite dget_dupdate by by apply dwf_dpop. rewrite dget_dpop_ne by done. destruct (dget k f); [done|].
  destruct (dget "issues" f); [|done]. by apply dget_dset_ne.
Qed.

Lemma dwf_merge f m : dwf m -> dwf (merge f m).
Proof. intros Hm. unfold merge. apply dwf_dupdate. destruct (dget "issues" f); [by apply dwf_dset|done]. Qed.

Lemma update_spec id f d a : find_attempt id d = Some a -> exists d' a', _update id f d = Ok d' /\ find_attempt id d' = Some a' /\ a_metadata a' = merge f (a_metadata a).
Proof.
  intros Ha. unfold _update. rewrite Ha. eexists _, _. split; [done|]. rewrite find_set_attempt, Ha by done. cbn. pose proof (find_attempt_Some _ _ _ Ha) as [_ Hid].
  rewrite bool_decide_eq_true_2 by done. done.
Qed.

(** What rotation does to attempts: records leave from the front. *)
Record less (a a' : attempt) : Prop := {
  less_bytes : a_bytes a' <= a_bytes a;
  less_dropped : a_dropped a <= a_dropped a';
  less_same : mkAttempt (a_id a') (a_hostname a') (a_created a') (a_metadata a') (a_next_seq a') (a_remote_cursor a') 0 0 =
              mkAttempt (a_id a) (a_hostname a) (a_created a) (a_metadata a) (a_next_seq a) (a_remote_cursor a) 0 0;
}.

#[export] Instance less_preorder : PreOrder less.
Proof. split; [by split|]. intros a b c [H1 H2 H3] [H4 H5 H6]. split; [lia|lia|congruence]. Qed.

Definition shrunk (db db' : DB) : Prop := forall i, match find_attempt i db, find_attempt i db' with
  | Some a, Some a' => less a a' | None, None => True | _, _ => False end.

#[export] Instance shrunk_preorder : PreOrder shrunk.
Proof.
  split; [intros db i; by destruct (find_attempt i db)|]. intros x y z H1 H2 i. specialize (H1 i). specialize (H2 i).
  destruct (find_attempt i x), (find_attempt i y), (find_attempt i z); try done. by etrans.
Qed.

Lemma rotate_spec id budget db : wf db -> 0 <= budget ->
  let '(db', removed) := _rotate id budget db in
  wf db' /\ 0 <= removed /\ retained_bytes db' = retained_bytes db - removed /\ shrunk db db' /\
  (forall i, i <> id -> find_attempt i db' = find_attempt i db) /\
  (forall a a', find_attempt id db = Some a -> find_attempt id db' = Some a' -> a_bytes a' = a_bytes a - removed /\ a_bytes a' <= budget).
Proof.
  intros Hwf Hbudget. unfold _rotate. destruct (find_attempt id db) as [a|] eqn:Ha.
  2:{ split_and!; [done|lia|lia|done|done|by rewrite Ha]. }
  pose proof (find_attempt_Some _ _ _ Ha) as [Hin Hid]. pose proof Hwf as [H1 H2 H3 H4 H5]. rewrite Forall_forall in H2. destruct (H2 a Hin) as [A1 A2 A3].
  destruct (Z.ltb_spec budget (a_bytes a)) as [Hover|Hfits].
  2:{ split_and!; [done|lia|lia|done|done|]. intros ? a' [= <-] Ha'. rewrite Ha in Ha'. injection Ha' as <-. lia. }
  rewrite (by_seq_records id a) by done. fold (records_of (a_id a) db) in A1, A3. rewrite Hid in A1, A3.
  destruct (rotate_scan_spec (records_of id db) (a_bytes a) budget 0 0 (-1)) as (p & q & Hpq & Hne & -> & Hend).
  assert (p <> []) as Hp. { apply Hne. intros He. rewrite He in A3. unfold bytes_of in A3. cbn in A3. lia. }
  destruct (last p) as [r|] eqn:Hl; [|by apply last_None in Hl].
  assert (Z.of_nat (length (records_of id db)) = a_next_seq a - a_dropped a) as Hlen.
  { rewrite <- (length_map r_seq), A1, length_seqZ. lia. }
  rewrite <- Hlen, Hpq in A1. destruct (prefix_by_seq _ _ _ A1 r Hl) as [Hq Hr].
  assert (bytes_of (p ++ q) = bytes_of p + bytes_of q) as Hbytes by apply bytes_of_app. rewrite Hpq in A3.
  assert (Forall (fun r => 0 < r_bytes r) (p ++ q)) as Hpos. { rewrite <- Hpq. unfold records_of. rewrite Forall_forall in *. intros x [Hx _]%list_elem_of_In%filter_In. apply H4. by rewrite list_elem_of_In. }
  apply Forall_app in Hpos as [Hpp Hpq']. apply bytes_of_nonneg in Hpp, Hpq'.
  set (gone := fun r0 => bool_decide (r_attempt r0 = id) && (r_seq r0 <=? r_seq r)).
  assert (List.filter (fun r => bool_decide (r_attempt r = id)) (List.filter (fun r => negb (gone r)) (records db)) = q) as Hleft.
  { rewrite <- Hq, <- Hpq. unfold records_of. rewrite !filter_filter_bool. apply filter_ext. intros x. unfold gone. destruct (bool_decide (r_attempt x = id)), (r_seq x <=? r_seq r); done. }
  assert (bytes_of (List.filter gone (records db)) = bytes_of p) as Hgone.
  { assert (List.filter gone (records db) = List.filter (fun x => r_seq x <=? r_seq r) (p ++ q)) as ->.
    { rewrite <- Hpq. unfold records_of. rewrite filter_filter_bool. by apply filter_ext. }
    pose proof (bytes_of_split (fun x => r_seq x <=? r_seq r) (p ++ q)) as Hsplit. cbn beta in Hsplit. rewrite Hq in Hsplit. lia. }
  set (f := fun a0 => mkAttempt (a_id a0) (a_hostname a0) (a_created a0) (a_metadata a0) (a_next_seq a0) (a_remote_cursor a0)
                        (a_dropped a0 + (0 + Z.of_nat (length p))) (a_bytes a0 - (0 + bytes_of p))).
  assert (forall i, find_attempt i (set_attempt id f (delete_records gone db)) = (fun a => if bool_decide (a_id a = id) then f a else a) <$> find_attempt i db) as Hfind.
  { intros i. rewrite find_set_attempt by done. done. }
  split_and!; [|lia|cbn; rewrite Hgone; lia| | |].
  - unfold delete_records. apply (wf_change id a); try done; cbn.
    + split; cbn; rewrite ?Hid, ?Hleft; [|rewrite Hpq, length_app in Hlen; lia|lia].
      rewrite (seqs_suffix _ _ _ A1). rewrite Hpq, length_app in Hlen. f_equal; lia.
    + intros i Hi. rewrite filter_filter_bool. apply filter_ext. intros x. unfold gone. destruct (bool_decide (r_attempt x = i)) eqn:Hx; [|by rewrite andb_false_r].
      apply bool_decide_eq_true in Hx. rewrite bool_decide_eq_false_2 by congruence. done.
    + rewrite Forall_forall in *. intros x [Hx _]%list_elem_of_In%filter_In. apply H3. by rewrite list_elem_of_In.
    + rewrite Forall_forall in *. intros x [Hx _]%list_elem_of_In%filter_In. apply H4. by rewrite list_elem_of_In.
    + rewrite H5, (bytes_of_split gone (records db)). lia.
  - intros i. rewrite Hfind. destruct (find_attempt i db) as [b|]; cbn; [|done]. destruct (bool_decide (a_id b = id)); [|done]. split; cbn; [lia|lia|done].
  - intros i Hi. rewrite Hfind. destruct (find_attempt i db) as [b|] eqn:Hb; cbn; [|done]. apply find_attempt_Some in Hb as [_ Hb]. by rewrite bool_decide_eq_false_2 by congruence.
  - intros ? a' [= <-]. rewrite Hfind, Ha. cbn. rewrite bool_decide_eq_true_2 by done. intros [= <-]. cbn. split; [lia|]. destruct Hend as [| ->]; [lia|]. rewrite app_nil_r in A3. lia.
Qed.

Lemma find_attempt_in db a : wf db -> a ∈ attempts db -> find_attempt (a_id a) db = Some a.
Proof.
  intros [H1 _ _ _ _] Ha. destruct (find_attempt (a_id a) db) as [b|] eqn:Hb.
  - apply find_attempt_Some in Hb as [Hb Hbid]. f_equal. by apply (attempts_inj db).
  - apply find_attempt_None in Hb. exfalso. apply Hb. by apply list_elem_of_In, in_map, list_elem_of_In.
Qed.

(** Without bytes in any attempt there are no records. *)
Lemma no_bytes_no_records db : wf db -> (forall i a, find_attempt i db = Some a -> a_bytes a <= 0) -> retained_bytes db = 0.
Proof.
  intros Hwf Hz. pose proof Hwf as [H1 H2 H3 H4 H5]. rewrite H5. destruct (records db) as [|r l] eqn:Hr; [done|]. exfalso.
  apply Forall_cons in H3 as [Hin _]. apply list_elem_of_In, in_map_iff in Hin as (a & Hid & Ha). rewrite <- list_elem_of_In in Ha.
  rewrite Forall_forall in H2. destruct (H2 a Ha) as [_ _ A3]. cbn in A3. rewrite bool_decide_eq_true_2 in A3 by done.
  destruct (find_attempt (a_id a) db) as [b|] eqn:Hb.
  - pose proof (Hz _ _ Hb) as Hle. apply find_attempt_Some in Hb as [Hb Hbid]. rewrite (attempts_inj db b a H1 Hb Ha Hbid) in Hle.
    apply Forall_cons in H4 as [Hp H4]. assert (0 <= bytes_of (List.filter (fun r0 => bool_decide (r_attempt r0 = a_id a)) l)).
    { apply bytes_of_nonneg. rewrite Forall_forall in *. intros x [Hx _]%list_elem_of_In%filter_In. apply H4. by rewrite list_elem_of_In. }
    assert (forall x k, bytes_of (x :: k) = r_bytes x + bytes_of k) as Hcons by done. rewrite Hcons in A3. lia.
  - apply find_attempt_None in Hb. apply Hb. by apply list_elem_of_In, in_map, list_elem_of_In.
Qed.

Section budgets.
Context (lim : Limits).
Hypothesis max_nonneg : 0 <= max_bytes lim.
Hypothesis attempt_nonneg : 0 <= attempt_max_bytes lim.

Lemma shrink_done cands total db : total <= max_bytes lim -> shrink lim cands total db = db.
Proof. intros H. destruct cands as [|[id b] l]; cbn; [done|]. by rewrite (proj2 (Z.leb_le _ _)). Qed.

Lemma shrink_spec cands db : wf db -> NoDup (List.map fst cands) ->
  (forall id b, (id, b) ∈ cands -> exists a, find_attempt id db = Some a /\ a_bytes a = b) ->
  (forall id a, find_attempt id db = Some a -> 0 < a_bytes a -> id ∈ List.map fst cands) ->
  let db' := shrink lim cands (retained_bytes db) db in wf db' /\ retained_bytes db' <= max_bytes lim /\ shrunk db db'.
Proof.
  revert db. induction cands as [|[id b] l IH]; intros db Hwf Hn Hc Hall; cbn [shrink].
  - split_and!; [done| |done]. rewrite (no_bytes_no_records db); [lia|done|]. intros i a Ha. destruct (decide (0 < a_bytes a)) as [Hp|]; [|lia].
    exfalso. by eapply (not_elem_of_nil i), (Hall i a).
  - destruct (Z.leb_spec (retained_bytes db) (max_bytes lim)) as [|Hover]; [done|]. cbn in Hn. apply NoDup_cons in Hn as [Hid Hn].
    destruct (Hc id b ltac:(by left)) as (a & Ha & <-). set (budget := Z.max 0 (a_bytes a - (retained_bytes db - max_bytes lim))).
    pose proof (rotate_spec id budget db Hwf ltac:(lia)) as Hrot. destruct (_rotate id budget db) as [db1 removed].
    destruct Hrot as (Hwf1 & Hrem & Hret & Hsh & Hother & Hself). rewrite <- Hret.
    pose proof (Hsh id) as Hid1. rewrite Ha in Hid1. destruct (find_attempt id db1) as [a1|] eqn:Ha1; [|done].
    destruct (Hself a a1 Ha eq_refl) as [Hb1 Hle]. destruct (decide (retained_bytes db1 <= max_bytes lim)) as [Hdone|Hmore].
    { rewrite shrink_done by done. done. }
    assert (a_bytes a1 <= 0) as Hempty by (unfold budget in Hle; lia).
    destruct (IH db1 Hwf1 Hn) as (Hw & Hr & Hs).
    + intros i b' Hi. destruct (Hc i b' ltac:(by right)) as (a' & Ha' & <-). exists a'. rewrite Hother; [done|]. intros ->. apply Hid.
      apply list_elem_of_In. rewrite list_elem_of_In in Hi. by apply (in_map fst) in Hi.
    + intros i a' Ha' Hp. destruct (decide (i = id)) as [->|Hne]; [rewrite Ha1 in Ha'; injection Ha' as <-; lia|].
      rewrite Hother in Ha' by done. specialize (Hall i a' Ha' Hp). cbn in Hall. apply elem_of_cons in Hall as [|]; done.
    + split_and!; [done|done|by etrans].
Qed.

(** Within its budgets. *)
Definition bounded (db : DB) : Prop := retained_bytes db <= max_bytes lim /\ Forall (fun a => a_bytes a <= attempt_max_bytes lim) (attempts db).

Lemma bounded_intro db : wf db -> retained_bytes db <= max_bytes lim -> (forall i a, find_attempt i db = Some a -> a_bytes a <= attempt_max_bytes lim) -> bounded db.
Proof. intros Hwf Hr Ha. split; [done|]. apply Forall_forall. intros a Hin. by eapply Ha, find_attempt_in. Qed.

Lemma shrunk_bytes db db' i a' : shrunk db db' -> find_attempt i db' = Some a' -> exists a, find_attempt i db = Some a /\ less a a'.
Proof. intros Hs Ha'. specialize (Hs i). rewrite Ha' in Hs. destruct (find_attempt i db) as [a|]; [eauto|done]. Qed.

Lemma apply_budgets_spec id db : wf db -> (forall i a, i <> id -> find_attempt i db = Some a -> a_bytes a <= attempt_max_bytes lim) ->
  let db' := _apply_budgets lim id db in wf db' /\ bounded db' /\ shrunk db db'.
Proof.
  intros Hwf Hothers. unfold _apply_budgets. pose proof (rotate_spec id (attempt_max_bytes lim) db Hwf attempt_nonneg) as Hrot.
  destruct (_rotate id (attempt_max_bytes lim) db) as [db1 removed]. destruct Hrot as (Hwf1 & _ & _ & Hsh & Hother & Hself). cbn [fst].
  assert (forall i a, find_attempt i db1 = Some a -> a_bytes a <= attempt_max_bytes lim) as Hatt.
  { intros i a Ha. destruct (decide (i = id)) as [->|Hne]; [|rewrite Hother in Ha by done; by eapply Hothers].
    destruct (shrunk_bytes _ _ _ _ Hsh Ha) as (a0 & Ha0 & _). by destruct (Hself a0 a Ha0 Ha). }
  destruct (Z.leb_spec (retained_bytes db1) (max_bytes lim)) as [Hle|Hgt]; [split_and!; [done|by apply bounded_intro|done]|].
  set (cands := List.map (fun a => (a_id a, a_bytes a)) (by_created (List.filter (fun a => 0 <? a_bytes a) (attempts db1)))).
  pose proof Hwf1 as [N1 _ _ _ _].
  assert (List.map fst cands = List.map a_id (by_created (List.filter (fun a => 0 <? a_bytes a) (attempts db1)))) as Hids by (unfold cands; by rewrite map_map).
  assert (forall a, a ∈ by_created (List.filter (fun a => 0 <? a_bytes a) (attempts db1)) <-> a ∈ attempts db1 /\ 0 < a_bytes a) as Hin.
  { intros a. unfold by_created. rewrite sort_by_perm, list_elem_of_In, filter_In, <- list_elem_of_In, Z.ltb_lt. done. }
  destruct (shrink_spec cands db1 Hwf1) as (Hw & Hr & Hs).
  - rewrite Hids. unfold by_created. change (NoDup (a_id <$> sort_by older (List.filter (fun a => 0 <? a_bytes a) (attempts db1)))). rewrite sort_by_perm.
    eapply sublist_NoDup; [exact N1|]. apply fmap_sublist, filter_sublist_bool.
  - intros i b (a & [= <- <-] & Ha)%list_elem_of_In%in_map_iff. rewrite <- list_elem_of_In, Hin in Ha. exists a. split; [apply find_attempt_in; tauto|done].
  - intros i a Ha Hp. apply find_attempt_Some in Ha as [Ha <-]. rewrite Hids. apply list_elem_of_In, in_map. rewrite <- list_elem_of_In, Hin. done.
  - split_and!; [done| |by etrans]. apply bounded_intro; [done..|]. intros i a Ha. destruct (shrunk_bytes _ _ _ _ Hs Ha) as (a0 & Ha0 & [Hb _ _]). specialize (Hatt _ _ Ha0). lia.
Qed.

Lemma append_other id r now db db' e i : _append lim id r now db = Ok (db', e) -> i <> id -> find_attempt i db' = find_attempt i db.
Proof.
  unfold _append. destruct (find_attempt id db) as [a|]; [|done]. destruct (already_stored a r); [by intros [= <- <-]|]. intros [= <- _] Hi.
  rewrite find_set_attempt by done. unfold insert_record, find_attempt. cbn. destruct (find _ (attempts db)) as [b|] eqn:Hb; [|done]. cbn.
  apply find_some in Hb as [_ Hb%bool_decide_eq_true]. by rewrite bool_decide_eq_false_2 by congruence.
Qed.

Lemma append_loop_spec id l db db' added : wf db -> append_loop lim id l db = Ok (db', added) ->
  wf db' /\ forall i, i <> id -> find_attempt i db' = find_attempt i db.
Proof.
  revert db added. induction l as [|[r now] l IH]; intros db added Hwf; cbn [append_loop]; [by intros [= <- <-]|]. intros H. inv_ok.
  destruct a as [db1 e]. inv_ok. destruct a as [db2 es]. injection H as <- <-. destruct (IH db1 es) as [H1 H2]; [by eapply wf_append|done|].
  split; [done|]. intros i Hi. rewrite H2 by done. by eapply append_other.
Qed.

Lemma append_many_spec id l db db' added : wf db -> bounded db -> append_many lim id l db = Ok (db', added) -> wf db' /\ bounded db'.
Proof.
  intros Hwf Hb. unfold append_many. destruct l as [|x l]; [by intros [= <- <-]|]. intros H. inv_ok. destruct a as [db1 es]. injection H as <- <-.
  apply append_loop_spec in Ha as [Hwf1 Hother]; [|done]. destruct (apply_budgets_spec id db1 Hwf1) as (H1 & H2 & _); [|done].
  intros i a Hi Ha. rewrite Hother in Ha by done. apply find_attempt_Some in Ha as [Ha _]. destruct Hb as [_ Hb]. rewrite Forall_forall in Hb. by apply Hb.
Qed.

(** Metadata changes and deletions stay within the budgets. *)
Lemma bounded_update id fields db db' : bounded db -> _update id fields db = Ok db' -> bounded db'.
Proof.
  intros [H1 H2]. unfold _update. destruct (find_attempt id db); [|done]. intros [= <-]. split; [done|]. cbn. apply Forall_map.
  eapply Forall_impl; [exact H2|]. intros b Hb. by destruct (bool_decide _).
Qed.

Lemma bounded_prune now db : wf db -> bounded db -> bounded (_prune lim now db).
Proof.
  intros Hwf [H1 H2]. split; cbn.
  - enough (0 <= bytes_of (List.filter (fun r => bool_decide (r_attempt r ∈ List.map a_id (List.filter (prunable lim now db) (attempts db)))) (records db))) by lia.
    apply bytes_of_nonneg. destruct Hwf as [_ _ _ H4 _]. rewrite Forall_forall in *. intros x [Hx _]%list_elem_of_In%filter_In. apply H4. by rewrite list_elem_of_In.
  - rewrite Forall_forall in *. intros x [Hx _]%list_elem_of_In%filter_In. apply H2. by rewrite list_elem_of_In.
Qed.
End budgets.

(** ** Fields that logging leaves alone *)

(** Metadata with the same value of a field. *)
Record same_field (k : string) (m m' : dict) : Prop := {
  sf_get : dget k m' = dget k m;
  sf_wf : dwf m -> dwf m';
}.

Lemma same_refl k m : same_field k m m.
Proof. by split. Qed.

Lemma same_dset k m m' k' v : k <> k' -> same_field k m m' -> same_field k m (dset k' v m').
Proof. intros Hk [H1 H2]. split; [by rewrite dget_dset_ne|intros Hm; by apply dwf_dset, H2]. Qed.

(** The fields that appending a record writes. *)
Definition log_fields : list string := ["issues"; "sources"; "runtime_profile"; "journal_cursor"].

Lemma same_new_metadata lim k a r : k ∉ log_fields -> same_field k (a_metadata a) (new_metadata lim a r).
Proof.
  intros Hk. unfold log_fields in Hk. unfold new_metadata, note_truncated, note_gap, note_profile, append_issue.
  repeat match goal with |- context [match ?x with _ => _ end] => destruct x end; repeat (apply same_dset; [set_solver|]); apply same_refl.
Qed.

Section keeps.
Context (lim : Limits) (id k : string).
Hypothesis unlogged : k ∉ log_fields.

(** The step returns; the attempt is still there and keeps the field. *)
Definition keeps (a : attempt) (d' : DB) : Prop :=
  exists a', find_attempt id d' = Some a' /\ same_field k (a_metadata a) (a_metadata a').

Lemma keeps_rotate a i budget d : keeps a d -> keeps a (fst (_rotate i budget d)).
Proof.
  intros (a1 & Ha & Hs). unfold _rotate. destruct (find_attempt i d); [|by exists a1]. destruct (budget <? _); [|by exists a1].
  destruct (rotate_scan _ _ _ _ _ _) as [[? ?] ?]. cbn [fst]. unfold keeps. rewrite find_set_attempt by done.
  change (find_attempt id (delete_records ?p d)) with (find_attempt id d). rewrite Ha. cbn. eexists. split; [done|]. by destruct (bool_decide _).
Qed.

Lemma keeps_shrink a l total d : keeps a d -> keeps a (shrink lim l total d).
Proof.
  revert total d. induction l as [|[i b] l IH]; intros total d Hk; cbn [shrink]; [done|]. destruct (total <=? max_bytes lim); [done|].
  pose proof (keeps_rotate a i (Z.max 0 (b - (total - max_bytes lim))) d Hk) as H. destruct (_rotate _ _ d) as [d' removed]. by apply IH.
Qed.

Lemma append_keeps r now d a : find_attempt id d = Some a -> exists d' e, append lim id r now d = Ok (d', e) /\ keeps a d'.
Proof.
  intros Ha. unfold append, append_many. cbn [append_loop].
  assert (exists d1 e, _append lim id r now d = Ok (d1, e) /\ keeps a d1) as (d1 & e & -> & H1).
  { unfold _append. rewrite Ha. destruct (already_stored a r); [eexists _, _; split; [done|]; exists a; split; [done|apply same_refl]|].
    eexists _, _. split; [done|]. unfold keeps. rewrite find_set_attempt by done. change (find_attempt id (insert_record ?x d)) with (find_attempt id d).
    rewrite Ha. cbn. rewrite bool_decide_eq_true_2 by (by apply find_attempt_Some in Ha as [_ ?]). eexists. split; [done|]. cbn [a_metadata].
    apply same_dset; [unfold log_fields in unlogged; set_solver|]. by apply same_new_metadata. }
  cbn. eexists _, _. split; [done|]. unfold _apply_budgets. destruct (_ <=? _); [by apply keeps_rotate|by apply keeps_shrink, keeps_rotate].
Qed.

Lemma append_many_keeps l d d' added a : find_attempt id d = Some a -> append_many lim id l d = Ok (d', added) -> keeps a d'.
Proof.
  assert (forall r now d d1 e b, keeps b d -> _append lim id r now d = Ok (d1, e) -> keeps b d1) as Hone.
  { intros r now d0 d1 e b (a1 & Ha1 & Hs). unfold _append. rewrite Ha1. destruct (already_stored a1 r); [intros [= <- _]; by exists a1|]. intros [= <- _].
    unfold keeps. rewrite find_set_attempt by done. change (find_attempt id (insert_record ?x d0)) with (find_attempt id d0). rewrite Ha1. cbn.
    rewrite bool_decide_eq_true_2 by (by apply find_attempt_Some in Ha1 as [_ ?]). eexists. split; [done|]. cbn [a_metadata].
    apply same_dset; [unfold log_fields in unlogged; set_solver|]. destruct (same_new_metadata lim k a1 r unlogged), Hs. split; [congruence|auto]. }
  assert (forall l d d1 es b, keeps b d -> append_loop lim id l d = Ok (d1, es) -> keeps b d1) as Hloop.
  { induction l0 as [|[r now] l0 IH]; intros d0 d1 es b Hk; cbn [append_loop]; [by intros [= <- _]|]. intros H. inv_ok. destruct a0 as [d2 e]. inv_ok. destruct a0 as [d3 es'].
    injection H as <- _. eauto. }
  intros Ha. assert (keeps a d) as Hk by (exists a; split; [done|apply same_refl]). unfold append_many. destruct l as [|x l]; [by intros [= <- _]|]. intros H. inv_ok.
  destruct a0 as [d1 es]. injection H as <- _. assert (keeps a d1) as Hk1 by eauto. unfold _apply_budgets. destruct (_ <=? _); [by apply keeps_rotate|by apply keeps_shrink, keeps_rotate].
Qed.

Lemma update_keeps f d a : find_attempt id d = Some a -> k <> "issues" -> dwf f -> dget k f = None -> exists d', _update id f d = Ok d' /\ keeps a d'.
Proof.
  intros Ha Hk Hf Hc. destruct (update_spec id f d a Ha) as (d' & a' & -> & Ha' & Hm). exists d'. split; [done|]. exists a'. split; [done|].
  split; rewrite Hm; [by rewrite dget_merge, Hc|by apply dwf_merge].
Qed.

Lemma issue_keeps msg src d a : find_attempt id d = Some a -> dwf (a_metadata a) -> exists d', issue id msg src d = Ok d' /\ keeps a d'.
Proof.
  intros Ha Hw. unfold issue. rewrite Ha. match goal with |- context [_update id ?f d] => set (m := f) end.
  assert (same_field k (a_metadata a) m) as [S1 S2].
  { unfold m, log_fields in *. destruct src as [s|]; [destruct (str_truthy s)|]; destruct (bool_decide _); repeat (apply same_dset; [set_solver|]); apply same_refl. }
  destruct (update_spec id m d a Ha) as (d' & a' & -> & Ha' & Hm). exists d'. split; [done|]. exists a'. split; [done|].
  split; rewrite Hm; [rewrite dget_merge, S1; [by destruct (dget k (a_metadata a))|by apply S2|unfold log_fields in *; set_solver]|by apply dwf_merge].
Qed.
End keeps.

(** ** Histories of the store *)

(** Every method that writes; a transaction that raises changes nothing. *)
Inductive op :=
| OpCreate (hostname engine : string) (model : json) (bundle_version operation attempt_id : string) (plan_id : json) (setup_inputs : dict) (now : float) (started : Z)
| OpUpdate (id : string) (fields : dict)
| OpCheckpoint (id stage status : string) (evidence : option string) (now : Z)
| OpRetry (id : string) (now : Z)
| OpIssue (id message : string) (source : option string)
| OpPhase (id phase : string) (changes : dict) (now : Z)
| OpAppend (id : string) (l : list (LogRecord * Z))
| OpPrune (now : float)
| OpInterrupt.

Definition commit {A} (db : DB) (r : result StoreError A) (f : A -> DB) : DB := match r with Ok a => f a | Err _ => db end.

Definition exec (lim : Limits) (db : DB) (o : op) : DB :=
  match o with
  | OpCreate h e m b op id plan inputs now started => commit db (create lim h e m b op id plan inputs now started db) fst
  | OpUpdate id fields => commit db (update id fields db) (fun d => d)
  | OpCheckpoint id stage status evidence now => commit db (record_checkpoint id stage status evidence now db) (fun d => d)
  | OpRetry id now => commit db (increment_transient_retry id now db) fst
  | OpIssue id message source => commit db (issue id message source db) (fun d => d)
  | OpPhase id phase changes now => commit db (update_phase id phase changes now db) (fun d => d)
  | OpAppend id l => commit db (append_many lim id l db) fst
  | OpPrune now => prune lim now db
  | OpInterrupt => commit db (interrupt_running db) (fun d => d)
  end.

Definition empty_store : DB := mkDB [] [] 0 0 0 [].
Definition run_store (lim : Limits) (ops : list op) : DB := foldl (exec lim) empty_store ops.

(** ** Theorems *)

Section histories.
Context (lim : Limits).
Hypothesis max_nonneg : 0 <= max_bytes lim.
Hypothesis attempt_nonneg : 0 <= attempt_max_bytes lim.

Definition good (db : DB) : Prop := wf db /\ bounded lim db.

Lemma good_update id fields db db' : good db -> _update id fields db = Ok db' -> good db'.
Proof. intros [H1 H2] Hu. split; [by eapply wf_update_row|by eapply bounded_update]. Qed.

Lemma good_mutate id f db db' m : good db -> _mutate_metadata id f db = Ok (db', m) -> good db'.
Proof.
  intros Hg. unfold _mutate_metadata. destruct (find_attempt id db); [|done]. intros H. inv_ok. simplify_eq. by eapply good_update.
Qed.

Lemma good_interrupt l db db' : good db -> interrupt_all l db = Ok db' -> good db'.
Proof.
  revert db. induction l as [|a l IH]; intros db Hg; cbn; [by intros [= <-]|]. destruct (has_status "running" a); [|by apply IH].
  intros H. inv_ok. eapply IH; [|exact H]. by eapply good_update.
Qed.

Lemma good_create h e m b op id plan inputs now started db db' id' : good db ->
  create lim h e m b op id plan inputs now started db = Ok (db', id') -> good db'.
Proof.
  intros [H1 H2]. unfold create. destruct (find_attempt id db) eqn:Hf; [done|]. cbn. intros [= <- _].
  pose proof (wf_insert_attempt id h now (if bool_decide (op = "provision") then dupdate (metadata_of id h e m b op started plan inputs) (series_fields id h e m started db)
    else metadata_of id h e m b op started plan inputs) db H1 Hf) as H3. split; [by apply wf_prune|]. apply bounded_prune; [done|].
  destruct H2 as [H2 H4]. split; [done|]. cbn. apply Forall_app. split; [done|]. by constructor.
Qed.

Lemma good_exec o db : good db -> good (exec lim db o).
Proof.
  intros Hg. destruct o as [h e m b op id plan inputs now started|id fields|id stage st ev now|id now|id msg src|id phase ch now|id l|now|]; cbn [exec]; unfold commit.
  - destruct (create _ _ _ _ _ _ _ _ _ _ _ db) as [[db' i]|] eqn:H; [|done]. by eapply good_create.
  - destruct (update id fields db) as [db'|] eqn:H; [|done]. by eapply good_update.
  - destruct (record_checkpoint id stage st ev now db) as [db'|] eqn:H; [|done]. unfold record_checkpoint in H. destruct (negb _); [by injection H as <-|].
    inv_ok. destruct a as [d m]. injection H as <-. by eapply good_mutate.
  - destruct (increment_transient_retry id now db) as [[db' n]|] eqn:H; [|done]. unfold increment_transient_retry in H. inv_ok. destruct a as [d m]. injection H as <- _. by eapply good_mutate.
  - destruct (issue id msg src db) as [db'|] eqn:H; [|done]. unfold issue in H. destruct (find_attempt id db); [|done]. by eapply good_update.
  - destruct (update_phase id phase ch now db) as [db'|] eqn:H; [|done]. unfold update_phase in H. destruct (find_attempt id db); [|done]. by eapply good_update.
  - destruct (append_many lim id l db) as [[db' added]|] eqn:H; [|done]. destruct Hg. by eapply append_many_spec.
  - unfold prune. destruct (_ || _); [|done]. destruct Hg. split; [by apply wf_prune|by apply bounded_prune].
  - destruct (interrupt_running db) as [db'|] eqn:H; [|done]. by eapply good_interrupt.
Qed.

Lemma good_run ops : good (run_store lim ops).
Proof.
  unfold run_store. assert (good empty_store) as H0.
  { by split; split; cbn; try constructor. }
  revert H0. generalize empty_store. induction ops as [|o ops IH]; intros db Hg; [done|]. cbn. by apply IH, good_exec.
Qed.
End histories.

(** C9: The store's accounting is exact and its budgets hold, whatever sequence of
    operations it has seen, failed ones included: retained bytes are the bytes
    of the rows, in total and per attempt, and never exceed the limits; each
    attempt's records are numbered from its dropped count to its next number
    without gaps, so a rotation never resets or reuses a sequence number. *)
Theorem store_accounting lim ops (Hmax : 0 <= max_bytes lim) (Hattempt : 0 <= attempt_max_bytes lim) :
  let db := run_store lim ops in
  retained_bytes db = bytes_of (records db) /\ bytes_of (records db) <= max_bytes lim /\
  NoDup (List.map a_id (attempts db)) /\
  Forall (fun r => r_attempt r ∈ List.map a_id (attempts db)) (records db) /\
  forall a, a ∈ attempts db ->
    a_bytes a = bytes_of (records_of (a_id a) db) /\ a_bytes a <= attempt_max_bytes lim /\
    List.map r_seq (records_of (a_id a) db) = seqZ (a_dropped a) (a_next_seq a - a_dropped a) /\ 0 <= a_dropped a <= a_next_seq a.
Proof.
  cbn zeta. destruct (good_run lim Hmax Hattempt ops) as [[H1 H2 H3 H4 H5] [H6 H7]]. split_and!; [done|by rewrite <- H5|done|done|].
  intros a Ha. rewrite Forall_forall in H2, H7. destruct (H2 a Ha) as [A1 A2 A3]. specialize (H7 a Ha). done.
Qed.

Definition ex_limits : Limits := mkLimits 400 400 10 30%Q 64.
Definition ex_record (n : Z) : LogRecord := mkLogRecord "hello" "info" "setup.stdout" None (Some 0) (Some n) None None.
Definition ex_ops : list op :=
  [OpCreate "h" "vllm" JNull "v" "provision" "a" (JStr "p") [] 5%Q 0; OpAppend "a" [(ex_record 0, 1); (ex_record 1, 2); (ex_record 2, 3)]].

Lemma store_accounting_witness : let db := run_store ex_limits ex_ops in
  bytes_of (records db) <= 400 /\ List.map r_seq (records db) = [2] /\ List.map a_dropped (attempts db) = [2].
Proof.
  cbn zeta. split; [|split; vm_compute; reflexivity]. apply (store_accounting ex_limits ex_ops); cbn; lia.
Defined.

(** ** Replaying remote pages *)

Section replay.
Context (lim : Limits) (id : string).
Hypothesis max_nonneg : 0 <= max_bytes lim.
Hypothesis attempt_nonneg : 0 <= attempt_max_bytes lim.

(** A record collected from the node's own log. *)
Definition remote (r : LogRecord) : Prop := is_Some (lr_remote_seq r) /\ lr_journal_cursor r = None.
Definition below (c : Z) (r : LogRecord) : Prop := match lr_remote_seq r with Some n => n < c | None => False end.

Lemma below_stored a r : remote r -> below (a_remote_cursor a) r -> already_stored a r = true.
Proof.
  intros [[n Hn] Hj]. unfold below, already_stored. rewrite Hn, Hj. intros Hlt. by rewrite (proj2 (Z.ltb_lt _ _) Hlt).
Qed.

Lemma append_cursor r now db db' e a : remote r -> find_attempt id db = Some a -> _append lim id r now db = Ok (db', e) ->
  exists a', find_attempt id db' = Some a' /\ a_remote_cursor a <= a_remote_cursor a' /\ below (a_remote_cursor a') r.
Proof.
  intros [[n Hn] Hj] Ha. unfold _append. rewrite Ha. destruct (already_stored a r) eqn:Hs.
  - intros [= <- _]. exists a. split_and!; [done|lia|]. unfold already_stored in Hs. rewrite Hn, Hj, orb_false_r in Hs. unfold below. rewrite Hn. by apply Z.ltb_lt.
  - intros [= <- _]. rewrite find_set_attempt by done. unfold insert_record, find_attempt. cbn. fold (find_attempt id db). rewrite Ha. cbn.
    apply find_attempt_Some in Ha as [_ Hid]. rewrite bool_decide_eq_true_2 by done. eexists. split; [done|]. cbn. rewrite Hn. unfold below. rewrite Hn.
    unfold already_stored in Hs. rewrite Hn, Hj, orb_false_r in Hs. apply Z.ltb_ge in Hs. lia.
Qed.

Lemma append_loop_cursor l db db' added a : Forall (fun x => remote (fst x)) l -> find_attempt id db = Some a -> append_loop lim id l db = Ok (db', added) ->
  exists a', find_attempt id db' = Some a' /\ a_remote_cursor a <= a_remote_cursor a' /\ Forall (fun x => below (a_remote_cursor a') (fst x)) l.
Proof.
  revert db added a. induction l as [|[r now] l IH]; intros db added a Hl Ha; cbn [append_loop]; [intros [= <- _]; exists a; split_and!; [done|lia|done]|].
  apply Forall_cons in Hl as [Hr Hl]. cbn in Hr. intros H. inv_ok. destruct a0 as [db1 e]. inv_ok. destruct a0 as [db2 es]. injection H as <- _.
  match goal with Hone : _append _ _ _ _ _ = Ok _, Hrest : append_loop _ _ _ _ = Ok _ |- _ =>
    destruct (append_cursor _ _ _ _ _ _ Hr Ha Hone) as (a1 & Ha1' & Hle & Hb); destruct (IH db1 es a1 Hl Ha1' Hrest) as (a2 & Ha2' & Hle2 & Hall) end.
  exists a2. split_and!; [done|lia|]. constructor; [|done]. cbn. unfold below in *. destruct (lr_remote_seq r); [lia|done].
Qed.

Lemma append_loop_noop l db a : Forall (fun x => remote (fst x)) l -> find_attempt id db = Some a -> Forall (fun x => below (a_remote_cursor a) (fst x)) l ->
  append_loop lim id l db = Ok (db, []).
Proof.
  intros Hl Ha Hb. induction l as [|[r now] l IH]; [done|]. apply Forall_cons in Hl as [Hr Hl], Hb as [Hbr Hb]. cbn [append_loop].
  unfold _append. rewrite Ha, (below_stored a r Hr Hbr). cbn. by rewrite IH.
Qed.

Lemma apply_budgets_noop db : wf db -> bounded lim db -> _apply_budgets lim id db = db.
Proof.
  intros Hwf [H1 H2]. unfold _apply_budgets. assert (fst (_rotate id (attempt_max_bytes lim) db) = db) as ->.
  { unfold _rotate. destruct (find_attempt id db) as [a|] eqn:Ha; [|done]. apply find_attempt_Some in Ha as [Ha _]. rewrite Forall_forall in H2. specialize (H2 a Ha).
    by rewrite (proj2 (Z.ltb_ge _ _)). }
  by rewrite (proj2 (Z.leb_le _ _)).
Qed.
End replay.

(** Collecting the same page of a node's log again changes nothing: after a
    batch of remote records has been committed, also when rotation has already
    removed some of them, committing it again stores no record and leaves every
    table as it is. *)
Theorem replay_idempotent lim ops id l db1 added (Hmax : 0 <= max_bytes lim) (Hattempt : 0 <= attempt_max_bytes lim) :
  Forall (fun x => remote (fst x)) l -> append_many lim id l (run_store lim ops) = Ok (db1, added) -> append_many lim id l db1 = Ok (db1, []).
Proof.
  intros Hl H. destruct (good_run lim Hmax Hattempt ops) as [Hwf Hb]. destruct (append_many_spec lim Hmax Hattempt _ _ _ _ _ Hwf Hb H) as [Hwf1 Hb1].
  unfold append_many in *. destruct l as [|x l]; [by injection H as <- <-|]. inv_ok. destruct a as [db2 es]. injection H as Hdb1 _.
  destruct (find_attempt id (run_store lim ops)) as [a|] eqn:Ha'.
  2:{ destruct x. cbn [append_loop] in Ha. unfold _append in Ha. by rewrite Ha' in Ha. }
  destruct (append_loop_cursor lim id _ _ _ _ _ Hl Ha' Ha) as (a2 & Ha2 & _ & Hbelow).
  pose proof (append_loop_spec lim id _ _ _ _ Hwf Ha) as [Hwf2 Hother].
  destruct (apply_budgets_spec lim Hmax Hattempt id db2 Hwf2) as (_ & _ & Hsh).
  { intros i b Hi Hb'. rewrite Hother in Hb' by done. apply find_attempt_Some in Hb' as [Hb' _]. destruct Hb as [_ Hb]. rewrite Forall_forall in Hb. by apply Hb. }
  rewrite Hdb1 in Hsh. specialize (Hsh id). rewrite Ha2 in Hsh. destruct (find_attempt id db1) as [a3|] eqn:Ha3; [|done].
  destruct Hsh as [_ _ Hsame]. injection Hsame as _ _ _ _ _ Hcursor.
  rewrite (append_loop_noop lim id _ db1 a3 Hl Ha3); [|by rewrite Hcursor]. cbn. by rewrite apply_budgets_noop.
Qed.

Lemma replay_idempotent_witness : exists db1 added, length added = 2%nat /\
  append_many ex_limits "a" [(ex_record 3, 4); (ex_record 4, 5)] (run_store ex_limits ex_ops) = Ok (db1, added) /\
  append_many ex_limits "a" [(ex_record 3, 4); (ex_record 4, 5)] db1 = Ok (db1, []).
Proof.
  eexists _, _. split; [|split; [vm_compute; reflexivity|]]; [reflexivity|].
  eapply (replay_idempotent ex_limits ex_ops "a"); [cbn; lia|cbn; lia| |vm_compute; reflexivity].
  repeat constructor; eexists; reflexivity.
Defined.

(** ** Paging *)

(** A client that follows [next_offset] while there is more. *)
Fixpoint read_pages (fuel : nat) (id : string) (after : Z) (query source : string) (limit : nat) (db : DB) : list dict :=
  match fuel with
  | O => []
  | S fuel =>
      match read id after query source limit db with
      | Ok p => page_records p ++ (if has_more p then read_pages fuel id (next_offset p) query source limit db else [])
      | Err _ => []
      end
  end.

Definition seq_lt (a b : row) : Prop := r_seq a < r_seq b.

Lemma seqs_strict l d n : List.map r_seq l = seqZ d n -> StronglySorted seq_lt l.
Proof.
  revert d n. induction l as [|r l IH]; intros d n Hs; [constructor|]. cbn in Hs. destruct (decide (0 < n)) as [Hn|Hn]; [|rewrite seqZ_nil in Hs by lia; done].
  rewrite seqZ_cons in Hs by lia. injection Hs as Hr Hs. constructor; [by eapply IH|]. apply Forall_forall. intros x Hx. unfold seq_lt.
  assert (r_seq x ∈ List.map r_seq l) as Hin by by apply list_elem_of_In, in_map, list_elem_of_In. rewrite Hs in Hin. apply elem_of_seqZ in Hin. lia.
Qed.

Lemma strict_filter (p : row -> bool) l : StronglySorted seq_lt l -> StronglySorted seq_lt (List.filter p l).
Proof.
  induction 1 as [|x l Hs IH Hx]; cbn; [constructor|]. destruct (p x); [|done]. constructor; [done|]. rewrite Forall_forall in *.
  intros y [Hy _]%list_elem_of_In%filter_In. apply Hx. by rewrite list_elem_of_In.
Qed.

(** After the last row of a page come exactly the rows that follow it. *)
Lemma strict_after p q r : StronglySorted seq_lt (p ++ q) -> last p = Some r -> List.filter (fun x => r_seq r + 1 <=? r_seq x) (p ++ q) = q.
Proof.
  induction p as [|x p IH]; intros Hs Hl; [done|]. cbn [app] in *. inversion Hs as [|? ? Hs' Hx]; subst. destruct p as [|y p].
  - cbn in Hl. injection Hl as ->. cbn. destruct (Z.leb_spec (r_seq r + 1) (r_seq r)); [lia|]. rewrite Forall_forall in Hx. clear -Hx.
    induction q as [|z q IH]; [done|]. cbn. destruct (Z.leb_spec (r_seq r + 1) (r_seq z)) as [|Hz]; [|specialize (Hx z ltac:(by left)); unfold seq_lt in Hx; lia].
    f_equal. apply IH. intros w Hw. apply Hx. by right.
  - rewrite last_cons_cons in Hl. cbn [List.filter]. destruct (Z.leb_spec (r_seq r + 1) (r_seq x)) as [Hle|]; [|by apply IH]. exfalso.
    assert (r ∈ (y :: p) ++ q) as Hin. { apply elem_of_app. left. apply last_Some in Hl as [l' ->]. set_solver. }
    rewrite Forall_forall in Hx. specialize (Hx r Hin). unfold seq_lt in Hx. lia.
Qed.

(** The retained records from [after] on that the query selects. *)
Definition wanted (query source : string) (after : Z) (l : list row) : list row :=
  List.filter (fun r => (after <=? r_seq r) && selects query source (r_payload r)) l.

Lemma wanted_later query source after after' l : after <= after' ->
  wanted query source after' l = List.filter (fun x => after' <=? r_seq x) (wanted query source after l).
Proof.
  intros Hle. unfold wanted. rewrite filter_filter_bool. apply filter_ext. intros x. destruct (Z.leb_spec after' (r_seq x)); cbn.
  - rewrite (proj2 (Z.leb_le _ _)) by lia. by rewrite andb_true_r.
  - by rewrite andb_false_r.
Qed.

Lemma read_wanted id after query source limit db a : wf db -> find_attempt id db = Some a ->
  let rows := wanted query source after (records_of id db) in
  StronglySorted seq_lt rows /\
  exists p, read id after query source limit db = Ok p /\ page_records p = List.map r_payload (take limit rows) /\
    has_more p = Nat.ltb limit (length rows) /\
    (has_more p = true -> match last (take limit rows) with Some r => next_offset p = r_seq r + 1 | None => True end).
Proof.
  intros Hwf Ha. cbn zeta. set (rows := wanted query source after (records_of id db)). pose proof (find_attempt_Some _ _ _ Ha) as [Hin Hid].
  pose proof Hwf as [_ H2 _ _ _]. rewrite Forall_forall in H2. destruct (H2 a Hin) as [A1 A2 _]. fold (records_of (a_id a) db) in A1. rewrite Hid in A1.
  split; [by eapply strict_filter, seqs_strict|]. unfold read. rewrite Ha, (by_seq_records id a) by done.
  assert (List.filter (fun r => (after <=? r_seq r) && (r_seq r <? a_next_seq a) && selects query source (r_payload r)) (records_of id db) = rows) as ->.
  { unfold rows, wanted. apply filter_ext_in. intros r Hr. rewrite <- list_elem_of_In in Hr.
    assert (r_seq r ∈ List.map r_seq (records_of id db)) as Hseq by by apply list_elem_of_In, in_map, list_elem_of_In.
    rewrite A1 in Hseq. apply elem_of_seqZ in Hseq. rewrite (proj2 (Z.ltb_lt (r_seq r) (a_next_seq a))) by lia. by rewrite andb_true_r. }
  eexists. split; [done|]. cbn [page_records has_more next_offset]. rewrite take_take, Nat.min_l by lia. split_and!; [done| |].
  - rewrite length_take. destruct (Nat.ltb_spec limit (length rows)); [apply Nat.ltb_lt; lia|apply Nat.ltb_ge; lia].
  - intros ->. destruct (last (take limit rows)); done.
Qed.

(** Reading page by page gives what reading everything would: following
    [next_offset] from any position returns each retained record that the query
    and the source select exactly once and in order, for every page size. *)
Theorem paging_complete lim ops id a after query source limit fuel (Hmax : 0 <= max_bytes lim) (Hattempt : 0 <= attempt_max_bytes lim) :
  let db := run_store lim ops in find_attempt id db = Some a -> (0 < limit)%nat -> (length (records_of id db) < fuel)%nat ->
  read_pages fuel id after query source limit db =
    List.map r_payload (List.filter (fun r => (after <=? r_seq r) && selects query source (r_payload r)) (records_of id db)).
Proof.
  cbn zeta. destruct (good_run lim Hmax Hattempt ops) as [Hwf _]. generalize dependent (run_store lim ops). intros db Hwf Ha Hlimit Hfuel.
  fold (wanted query source after (records_of id db)).
  assert (length (wanted query source after (records_of id db)) < fuel)%nat as Hlen.
  { eapply Nat.le_lt_trans; [|exact Hfuel]. apply sublist_length, filter_sublist_bool. }
  clear Hfuel. revert after Hlen. induction fuel as [|fuel IH]; intros after Hlen; [lia|]. cbn [read_pages].
  destruct (read_wanted id after query source limit db a Hwf Ha) as (Hs & p & -> & -> & Hm & Hn). set (rows := wanted query source after (records_of id db)) in *.
  rewrite Hm. destruct (Nat.ltb_spec limit (length rows)) as [Hmore|Hall]; [|by rewrite take_ge, app_nil_r by lia].
  rewrite Hm in Hn. specialize (Hn eq_refl). destruct (last (take limit rows)) as [r|] eqn:Hl.
  2:{ apply last_None in Hl. apply (f_equal length) in Hl. rewrite length_take in Hl. cbn in Hl. lia. }
  assert (r ∈ rows) as Hr. { apply last_Some in Hl as [l' Hl']. rewrite <- (take_drop limit rows), Hl'. set_solver. }
  assert (after <= r_seq r) as Hge. { unfold rows, wanted in Hr. apply list_elem_of_In, filter_In in Hr as [_ [Hr _]%andb_true_iff]. by apply Z.leb_le. }
  assert (wanted query source (next_offset p) (records_of id db) = drop limit rows) as Hrest.
  { rewrite Hn, (wanted_later query source after) by lia. fold rows. rewrite <- (take_drop limit rows) at 1. apply strict_after; [by rewrite take_drop|done]. }
  rewrite IH; [by rewrite Hrest, <- List.map_app, take_drop|]. rewrite Hrest, length_drop. lia.
Qed.

Lemma paging_complete_witness : exists a, find_attempt "a" (run_store (mkLimits 4000 4000 10 30%Q 64) ex_ops) = Some a /\
  length (read_pages 9 "a" 0 "HELL" "" 1 (run_store (mkLimits 4000 4000 10 30%Q 64) ex_ops)) = 3%nat.
Proof.
  eexists. split; [vm_compute; reflexivity|]. erewrite (paging_complete (mkLimits 4000 4000 10 30%Q 64) ex_ops "a" _ 0 "HELL" "" 1 9); [vm_compute; reflexivity|cbn; lia|cbn; lia|vm_compute; reflexivity|lia|].
  vm_compute. lia.
Defined.

(** ** Resuming verified stages *)

Definition checkpoints_of (a : attempt) : dict := obj_of (get_or "checkpoints" JNull (a_metadata a)).
Definition same_plan (plan_id : string) (a : attempt) : bool := bool_decide (dget "plan_id" (a_metadata a) = Some (JStr plan_id)).
Definition verified (c : json) : bool :=
  bool_decide (dget "status" (obj_of c) = Some (JStr "completed") \/ dget "status" (obj_of c) = Some (JStr "skipped")).

(** What one attempt's checkpoints decide about a stage that is not decided. *)
Lemma resumable_stages kvs merged decided s : dwf kvs -> (s ∉ decided -> dget s merged = None) ->
  let '(merged', decided') := foldl resumable_loop_stage (merged, decided) kvs in
  (s ∈ decided' <-> s ∈ decided \/ (s ∉ NON_RESUMABLE_STAGES /\ s ∈ dkeys kvs)) /\
  dget s merged' =
    if bool_decide (s ∈ NON_RESUMABLE_STAGES) || bool_decide (s ∈ decided) then dget s merged
    else match dget s kvs with Some c => if verified c then Some (obj_of c) else None | None => None end.
Proof.
  revert merged decided. induction kvs as [|[k c] kvs IH]; intros merged decided Hd Hm; cbn [foldl].
  - split; [set_solver|]. cbn. destruct (bool_decide (s ∈ NON_RESUMABLE_STAGES)); [done|]. case_bool_decide; [done|]. by apply Hm.
  - apply NoDup_cons in Hd as [Hk Hd]. fold (dkeys kvs) in Hk, Hd. cbn [resumable_loop_stage].
    destruct (bool_decide (k ∈ NON_RESUMABLE_STAGES) || bool_decide (k ∈ decided)) eqn:Hskip.
    + specialize (IH merged decided Hd Hm). destruct (foldl resumable_loop_stage (merged, decided) kvs) as [m' d']. destruct IH as [IH1 IH2].
      apply orb_true_iff in Hskip. rewrite !bool_decide_eq_true in Hskip. split.
      * rewrite IH1. cbn. rewrite elem_of_cons. destruct Hskip; split; naive_solver.
      * rewrite IH2. cbn [dget]. destruct (bool_decide (s ∈ NON_RESUMABLE_STAGES) || bool_decide (s ∈ decided)) eqn:Hs; [done|]. destruct (decide (s = k)) as [He|]; [|done]. subst.
        apply orb_false_iff in Hs. rewrite !bool_decide_eq_false in Hs. naive_solver.
    + apply orb_false_iff in Hskip. rewrite !bool_decide_eq_false in Hskip. destruct Hskip as [Hn Hdec].
      set (merged1 := if bool_decide _ then dset k (obj_of c) merged else merged).
      assert (forall t, t <> k -> dget t merged1 = dget t merged) as Hother. { intros t Ht. unfold merged1. match goal with |- context [bool_decide ?P] => destruct (bool_decide P) end; [apply dget_dset_ne; done|done]. }
      specialize (IH merged1 (decided ++ [k]) Hd). destruct (foldl resumable_loop_stage (merged1, decided ++ [k]) kvs) as [m' d'].
      destruct IH as [IH1 IH2]. { intros Hs. rewrite elem_of_app, elem_of_cons in Hs. rewrite Hother; [apply Hm|]; naive_solver. }
      split.
      * rewrite IH1. cbn. rewrite elem_of_app, !elem_of_cons. pose proof (not_elem_of_nil s). split; [naive_solver|]. intros [|[? [|]]]; naive_solver.
      * rewrite IH2. cbn [dget]. destruct (decide (s = k)) as [->|Hne].
        -- rewrite (bool_decide_eq_false_2 (k ∈ NON_RESUMABLE_STAGES)), (bool_decide_eq_false_2 (k ∈ decided)) by done. cbn.
           rewrite bool_decide_eq_true_2 by set_solver. unfold merged1, verified. match goal with |- context [bool_decide ?P] => destruct (bool_decide P) end; [apply dget_dset_eq|by apply Hm].
        -- rewrite Hother by done. replace (bool_decide (s ∈ decided ++ [k])) with (bool_decide (s ∈ decided)); [done|]. apply bool_decide_ext. set_solver.
Qed.

Lemma resumable_attempts plan l merged decided s : Forall (fun a => dwf (checkpoints_of a)) l -> (s ∉ decided -> dget s merged = None) ->
  dget s (fst (foldl (resumable_loop_attempt plan) (merged, decided) l)) =
    if bool_decide (s ∈ NON_RESUMABLE_STAGES) || bool_decide (s ∈ decided) then dget s merged
    else match find (fun a => same_plan plan a && dmem s (checkpoints_of a)) l with
         | Some a => match dget s (checkpoints_of a) with Some c => if verified c then Some (obj_of c) else None | None => None end
         | None => None
         end.
Proof.
  revert merged decided. induction l as [|a l IH]; intros merged decided Hl Hm; cbn [foldl find].
  - cbn. destruct (bool_decide (s ∈ NON_RESUMABLE_STAGES)); [done|]. case_bool_decide; [done|]. by apply Hm.
  - apply Forall_cons in Hl as [Ha Hl]. unfold resumable_loop_attempt at 2. fold (same_plan plan a). destruct (same_plan plan a) eqn:Hp; [|by apply IH].
    fold (checkpoints_of a). pose proof (resumable_stages (checkpoints_of a) merged decided s Ha Hm) as Hs.
    destruct (foldl resumable_loop_stage (merged, decided) (checkpoints_of a)) as [m1 d1]. destruct Hs as [Hd1 Hm1]. cbn [andb].
    destruct (bool_decide (s ∈ NON_RESUMABLE_STAGES)) eqn:Hn; cbn [orb] in *.
    { rewrite IH; [done|done|]. intros Hs. rewrite Hm1. apply Hm. intros Hin. apply Hs. apply Hd1. by left. }
    apply bool_decide_eq_false in Hn. destruct (bool_decide (s ∈ decided)) eqn:Hdec.
    { apply bool_decide_eq_true in Hdec. rewrite IH; [|done|]; [rewrite (bool_decide_eq_true_2 (s ∈ d1)) by tauto; exact Hm1|]. intros Hs. exfalso. apply Hs. tauto. }
    apply bool_decide_eq_false in Hdec. unfold dmem. destruct (dget s (checkpoints_of a)) as [c|] eqn:Hc; cbn.
    + assert (s ∈ d1) as Hin. { apply Hd1. right. split; [done|]. apply elem_of_dkeys. by rewrite Hc. }
      rewrite IH; [|done|done]. rewrite (bool_decide_eq_true_2 (s ∈ d1)) by done. by rewrite Hc.
    + assert (s ∉ d1) as Hin. { rewrite Hd1, elem_of_dkeys, Hc. intros [|[_ []%is_Some_None]]; done. }
      rewrite IH; [|done|done]. rewrite (bool_decide_eq_false_2 (s ∈ d1)) by done. done.
Qed.

(** C12: A setup resumes exactly the stages whose latest evidence verifies them.
    For every stage, the newest attempt of the host with the same plan that has
    a checkpoint for it decides: the stage is resumed when that checkpoint is
    completed or skipped, and an older completion never counts; stages of other
    plans and the activation stage are never resumed. *)
Theorem resumable_exact hostname plan_id stage db :
  (forall a, a ∈ attempts db -> dwf (checkpoints_of a)) ->
  dget stage (resumable_checkpoints hostname plan_id db) =
    if bool_decide (stage = "generation_activate") then None
    else match find (fun a => same_plan plan_id a && dmem stage (checkpoints_of a)) (newest_first (of_host hostname db)) with
         | Some a => match dget stage (checkpoints_of a) with Some c => if verified c then Some (obj_of c) else None | None => None end
         | None => None
         end.
Proof.
  intros Hwf. unfold resumable_checkpoints. rewrite resumable_attempts; [|apply Forall_forall; intros a Ha; unfold newest_first in Ha; rewrite sort_by_perm in Ha|done].
  - rewrite (bool_decide_eq_false_2 (stage ∈ [])) by set_solver. rewrite orb_false_r.
    replace (bool_decide (stage ∈ NON_RESUMABLE_STAGES)) with (bool_decide (stage = "generation_activate")); [by case_bool_decide|]. apply bool_decide_ext. unfold NON_RESUMABLE_STAGES. set_solver.
  - apply Hwf. apply list_elem_of_In, filter_In in Ha as [Ha _]. by rewrite list_elem_of_In.
Qed.

Definition ex_resume : DB := run_store (mkLimits 4000 4000 10 30%Q 64)
  [OpCreate "h" "vllm" JNull "v" "provision" "a" (JStr "p") [] 5%Q 0;
   OpCheckpoint "a" "firewall" "completed" None 1; OpCheckpoint "a" "nfs_mount" "completed" None 2;
   OpCreate "h" "vllm" JNull "v" "provision" "b" (JStr "p") [] 6%Q 3; OpCheckpoint "b" "nfs_mount" "failed" None 4].

Lemma resumable_exact_witness : List.map fst (resumable_checkpoints "h" "p" ex_resume) = ["firewall"] /\
  dget "nfs_mount" (resumable_checkpoints "h" "p" ex_resume) = None.
Proof.
  split; [vm_compute; reflexivity|]. rewrite (resumable_exact "h" "p" "nfs_mount" ex_resume); [vm_compute; reflexivity|].
  intros a Ha. assert (Forall (fun a => NoDup (dkeys (checkpoints_of a))) (attempts ex_resume)) as H; [|rewrite Forall_forall in H; by apply H].
  apply (bool_decide_unpack _). vm_compute. exact I.
Defined.

(** ** Retention *)

Definition finished (a : attempt) : bool := has_other_status "running" a.

(** Pruning keeps what it promises: no running attempt is ever removed,
    afterwards at most the configured number of finished attempts is left and
    none is older than the retention period, what is removed is counted, and no
    record of a remaining attempt is lost. *)
Theorem retention_exact lim ops now (Hmax : 0 <= max_bytes lim) (Hattempt : 0 <= attempt_max_bytes lim) :
  let db := run_store lim ops in let db' := _prune lim now db in
  (forall a, a ∈ attempts db -> finished a = false -> a ∈ attempts db') /\
  (length (List.filter finished (attempts db')) <= max_attempts lim)%nat /\
  (forall a, a ∈ attempts db' -> finished a = true -> fltb (a_created a) (cutoff lim now) = false) /\
  evicted_attempts db' = evicted_attempts db + Z.of_nat (length (attempts db)) - Z.of_nat (length (attempts db')) /\
  (forall a, a ∈ attempts db' -> records_of (a_id a) db' = records_of (a_id a) db).
Proof.
  cbn zeta. destruct (good_run lim Hmax Hattempt ops) as [Hwf _]. generalize dependent (run_store lim ops). intros db Hwf. pose proof Hwf as [H1 _ _ _ _].
  assert (forall a, a ∈ attempts (_prune lim now db) <-> a ∈ attempts db /\ prunable lim now db a = false) as Hin.
  { intros a. cbn. rewrite list_elem_of_In, filter_In, negb_true_iff, <- list_elem_of_In. done. }
  split_and!.
  - intros a Ha Hf. apply Hin. split; [done|]. unfold prunable. fold (finished a). by rewrite Hf.
  - set (kept := take (max_attempts lim) (newest_first (List.filter finished (attempts db)))).
    assert (length kept <= max_attempts lim)%nat as Hk by (unfold kept; rewrite length_take; lia).
    rewrite <- (length_map a_id). etrans; [|exact Hk]. rewrite <- (length_map a_id kept).
    apply submseteq_length, NoDup_submseteq.
    + change (NoDup (a_id <$> List.filter finished (attempts (_prune lim now db)))). eapply sublist_NoDup; [exact H1|]. cbn.
      change (a_id <$> List.filter finished (List.filter (fun a => negb (prunable lim now db a)) (attempts db)) `sublist_of` a_id <$> attempts db).
      apply fmap_sublist. etrans; apply filter_sublist_bool.
    + intros i (a & <- & [Ha Hf]%filter_In)%list_elem_of_In%in_map_iff. rewrite <- list_elem_of_In in Ha. apply Hin in Ha as [Ha Hp].
      unfold prunable in Hp. fold (finished a) in Hp. rewrite Hf in Hp. cbn in Hp. apply orb_false_iff in Hp as [_ Hp%bool_decide_eq_false].
      assert (a ∈ newest_first (List.filter finished (attempts db))) as Hn. { unfold newest_first. rewrite sort_by_perm, list_elem_of_In, filter_In, <- list_elem_of_In. done. }
      rewrite <- (take_drop (max_attempts lim)) in Hn. apply elem_of_app in Hn as [Hn|Hn]; [by apply list_elem_of_In, in_map, list_elem_of_In|].
      exfalso. apply Hp. unfold excess. by apply list_elem_of_In, in_map, list_elem_of_In.
  - intros a [Ha Hp]%Hin Hf. unfold prunable in Hp. fold (finished a) in Hp. rewrite Hf in Hp. cbn in Hp. by apply orb_false_iff in Hp as [? _].
  - cbn. assert (forall (p : attempt -> bool) l, length l = (length (List.filter p l) + length (List.filter (fun a => negb (p a)) l))%nat) as Hsplit.
    { intros p l. induction l as [|x l IH]; cbn; [done|]. destruct (p x); cbn; lia. }
    pose proof (Hsplit (prunable lim now db) (attempts db)). lia.
  - intros a [Ha Hp]%Hin. unfold records_of. cbn. rewrite filter_filter_bool. apply filter_ext. intros r. destruct (bool_decide (r_attempt r = a_id a)) eqn:Hr; [|by rewrite andb_false_r].
    apply bool_decide_eq_true in Hr. rewrite Hr, bool_decide_eq_false_2; [done|]. intros (b & Hid & [Hb Hpb]%filter_In)%list_elem_of_In%in_map_iff.
    rewrite <- list_elem_of_In in Hb. rewrite (attempts_inj db b a H1 Hb Ha Hid) in Hpb. congruence.
Qed.

Lemma retention_exact_witness : let db := _prune ex_limits 7%Q (run_store ex_limits ex_ops) in
  (length (List.filter finished (attempts db)) <= 10)%nat /\ length (attempts db) = 1%nat.
Proof. split; [|vm_compute; reflexivity]. apply (retention_exact ex_limits ex_ops 7%Q); cbn; lia. Defined.
