(* ===== verification/Recorder.v ===== *)
(** * Node recorder ([common/provision-logs.py])

    The process that runs on a provisioned host: it cuts the output of a command
    into records, answers the gateway's requests from its own attempt log store
    and reports whether remote work is still alive.  Bytes are numbers; which
    process groups are dead is what the kernel answers to [killpg(pgid, 0)], and
    of its files it keeps the descriptors of the host lock and the [flock] they
    carry.  Every call of the store is one transaction. *)

From stdpp Require Import pretty gmap.
From S2P Require Import Prelude PyDict Json PyFloat LogStore.
Local Open Scope Z_scope.

(** ** Cutting output into records *)

(** Why [bytes.decode("utf-8")] fails: the data ends inside a character, or a
    byte cannot stand where it does. *)
Inductive Reason := EndOfData | InvalidByte.

Definition char_length (b : Z) : option nat :=
  if b <? 128 then Some 1%nat else if b <? 194 then None else if b <? 224 then Some 2%nat
  else if b <? 240 then Some 3%nat else if b <? 245 then Some 4%nat else None.

(** The range of the byte after the first one. *)
Definition second_range (b : Z) : Z * Z :=
  if b =? 224 then (160, 191) else if b =? 237 then (128, 159) else if b =? 240 then (144, 191) else if b =? 244 then (128, 143) else (128, 191).

Fixpoint continuation_error (need : nat) (range : Z * Z) (l : list Z) : option Reason :=
  match need, l with
  | O, _ => None
  | S _, [] => Some EndOfData
  | S need, b :: l => if (fst range <=? b) && (b <=? snd range) then continuation_error need (128, 191) l else Some InvalidByte
  end.

(** The position and the reason of the first error; [skip] bytes belong to a
    character that was found complete. *)
Fixpoint decode_error (l : list Z) (skip pos : nat) : option (nat * Reason) :=
  match l with
  | [] => None
  | b :: l =>
      match skip with
      | S skip => decode_error l skip (S pos)
      | O => match char_length b with
             | None => Some (pos, InvalidByte)
             | Some w => match continuation_error (w - 1) (second_range b) l with
                         | Some r => Some (pos, r)
                         | None => decode_error l (w - 1) (S pos)
                         end
             end
      end
  end.

Definition _record_cut (pending : list Z) (limit : nat) : nat :=
  let stop := Nat.min limit (length pending) in
  match decode_error (take stop pending) 0 0 with
  | Some (S start, EndOfData) => S start
  | _ => stop
  end.

(** [pending.find(b"\n")] *)
Fixpoint find_newline (l : list Z) : option nat :=
  match l with [] => None | b :: l => if b =? 10 then Some O else S <$> find_newline l end.

(** A record and whether the newline after it was consumed with it. *)
Definition frame : Type := list Z * bool.

(** The [while] loop that empties the buffer; every turn removes a byte, so as
    many turns as bytes suffice. *)
Fixpoint frames (limit fuel : nat) (pending : list Z) : list frame * list Z :=
  match fuel with
  | O => ([], pending)
  | S fuel =>
      let newline := find_newline pending in
      if is_some newline || Nat.leb limit (length pending) then
        let length := _record_cut pending (match newline with Some n => if Nat.leb n limit then n else limit | None => limit end) in
        let ends_line := bool_decide (newline = Some length) in
        let '(l, rest) := frames limit fuel (drop (length + (if ends_line then 1 else 0)) pending) in
        ((take length pending, ends_line) :: l, rest)
      else ([], pending)
  end.

Definition on_chunk (limit : nat) (chunk pending : list Z) : list frame * list Z :=
  let pending := pending ++ chunk in frames limit (S (length pending)) pending.

(** The reads of one pipe until its end; what is left then is a last record. *)
Fixpoint feed (limit : nat) (chunks : list (list Z)) (pending : list Z) : list frame :=
  match chunks with
  | [] => if bool_decide (pending = []) then [] else [(pending, false)]
  | c :: cs => let '(l, rest) := on_chunk limit c pending in l ++ feed limit cs rest
  end.

Definition bytes_back (l : list frame) : list Z := concat (List.map (fun f : frame => fst f ++ (if snd f then [10] else [])) l).

(** A whole character is never cut; a line that ends inside one is. *)
Example cut_examples :
  feed 4 [[97; 98; 99; 195; 169; 10]] [] = [([97; 98; 99], false); ([195; 169], true)] /\
  feed 9 [[97; 195; 10; 98]; [10]] [] = [([97], false); ([195], true); ([98], true)] /\
  feed 2 [[97; 98]; [10]] [] = [([97; 98], false); ([], true)].
Proof. by vm_compute. Qed.

(** *** Facts *)

Lemma find_newline_Some l n : find_newline l = Some n -> (n < length l)%nat /\ l !! n = Some 10 /\ 10 ∉ take n l.
Proof.
  revert n. induction l as [|b l IH]; intros n; cbn; [done|]. destruct (Z.eqb_spec b 10) as [->|Hb].
  - intros [= <-]. split_and!; [lia|done|apply not_elem_of_nil].
  - destruct (find_newline l) as [m|]; [|done]. cbn. intros [= <-]. destruct (IH m eq_refl) as (H1 & H2 & H3). split_and!; [lia|done|]. cbn. set_solver.
Qed.

Lemma find_newline_None l : find_newline l = None -> 10 ∉ l.
Proof.
  induction l as [|b l IH]; cbn; [by intros _ ?%not_elem_of_nil|]. destruct (Z.eqb_spec b 10); [done|]. destruct (find_newline l); [done|]. set_solver.
Qed.

Lemma decode_error_range l skip pos p r : decode_error l skip pos = Some (p, r) -> (pos <= p < pos + length l)%nat.
Proof.
  revert skip pos. induction l as [|b l IH]; intros skip pos; cbn [decode_error length]; [done|].
  destruct skip as [|skip]; [|intros H%IH; lia]. destruct (char_length b) as [w|]; [|intros [= <- _]; lia].
  destruct (continuation_error _ _ _); [intros [= <- _]; lia|]. intros H%IH. lia.
Qed.

(** The cut is within the data, and empty only for an empty line. *)
Lemma record_cut_bounds pending limit : (_record_cut pending limit <= Nat.min limit (length pending))%nat /\
  ((0 < limit)%nat -> (0 < length pending)%nat -> (0 < _record_cut pending limit)%nat).
Proof.
  unfold _record_cut. destruct (decode_error _ 0 0) as [[[|p] []]|] eqn:H; try (split; lia). apply decode_error_range in H. rewrite length_take in H. split; lia.
Qed.

(** One turn of the loop removes a byte, and nothing else than what it emits. *)
Lemma turn_spec limit pending : (0 < limit)%nat -> is_some (find_newline pending) || Nat.leb limit (length pending) = true ->
  let n := _record_cut pending (match find_newline pending with Some n => if Nat.leb n limit then n else limit | None => limit end) in
  let ends := bool_decide (find_newline pending = Some n) in
  (n <= limit)%nat /\ 10 ∉ take n pending /\ (0 < n + (if ends then 1 else 0) <= length pending)%nat /\
  take n pending ++ (if ends then [10] else []) ++ drop (n + (if ends then 1 else 0)) pending = pending.
Proof.
  intros Hl Hgo. cbn zeta. set (m := match find_newline pending with Some n => if Nat.leb n limit then n else limit | None => limit end).
  destruct (record_cut_bounds pending m) as [H1 H2]. generalize dependent (_record_cut pending m). intros n H1 H2.
  assert (m <= limit)%nat as Hm by (unfold m; destruct (find_newline pending) as [k|]; [destruct (Nat.leb_spec k limit)|]; lia).
  destruct (find_newline pending) as [k|] eqn:Hk.
  - apply find_newline_Some in Hk as (K1 & K2 & K3). assert (m <= k)%nat as Hmk by (unfold m; destruct (Nat.leb_spec k limit); lia).
    assert (10 ∉ take n pending) as Hnot. { replace (take n pending) with (take n (take k pending)) by (rewrite take_take; f_equal; lia).
      intros Hin. apply K3. rewrite <- (take_drop n (take k pending)). set_solver. }
    destruct (decide (Some k = Some n)) as [Heq|Hne].
    + injection Heq as ->. rewrite bool_decide_eq_true_2 by done. split_and!; [lia|done|lia|lia|]. rewrite <- (take_drop n pending) at 3. f_equal.
      rewrite (drop_S pending 10 n) by done. cbn. f_equal. f_equal. lia.
    + rewrite bool_decide_eq_false_2 by done. split_and!; [lia|done| |lia|].
      * destruct (decide (0 < m)%nat) as [|Hm0]; [lia|]. exfalso. apply Hne. f_equal. unfold m in Hm0. destruct (Nat.leb_spec k limit); lia.
      * rewrite Nat.add_0_r. cbn. apply take_drop.
  - cbn in Hgo. apply Nat.leb_le in Hgo. rewrite bool_decide_eq_false_2 by done. split_and!; [lia| |unfold m in *; lia|lia|].
    + intros Hin. apply (find_newline_None _ Hk). rewrite <- (take_drop n pending). set_solver.
    + rewrite Nat.add_0_r. cbn. apply take_drop.
Qed.

Lemma bytes_back_app l k : bytes_back (l ++ k) = bytes_back l ++ bytes_back k.
Proof. unfold bytes_back. by rewrite List.map_app, concat_app. Qed.

(** A record of at most [limit] bytes from one line. *)
Definition within (limit : nat) (f : frame) : Prop := (length (fst f) <= limit)%nat /\ 10 ∉ fst f.

Lemma frames_spec limit fuel pending l rest : (0 < limit)%nat -> (length pending < fuel)%nat -> frames limit fuel pending = (l, rest) ->
  bytes_back l ++ rest = pending /\ Forall (within limit) l /\ 10 ∉ rest /\ (length rest < limit)%nat.
Proof.
  intros Hl. revert pending l. induction fuel as [|fuel IH]; intros pending l Hf; [lia|]. cbn [frames].
  destruct (is_some (find_newline pending) || Nat.leb limit (length pending)) eqn:Hgo.
  - destruct (turn_spec limit pending Hl Hgo) as (T1 & T2 & T3 & T4). cbn zeta in *.
    set (n := _record_cut pending _) in *. set (ends := bool_decide (find_newline pending = Some n)) in *.
    destruct (frames limit fuel (drop _ pending)) as [l' rest'] eqn:Hrec. intros [= <- <-].
    apply IH in Hrec as (R1 & R2 & R3 & R4); [|rewrite length_drop; lia]. split_and!; [|constructor; [split; [cbn; rewrite length_take; lia|done]|done]|done|done].
    rewrite <- T4 at 2. rewrite <- R1. unfold bytes_back. cbn. by rewrite <- !app_assoc.
  - intros [= <- <-]. apply orb_false_iff in Hgo as [Hn Hlen]. apply Nat.leb_gt in Hlen. split_and!; [done|constructor| |done].
    apply find_newline_None. by destruct (find_newline pending).
Qed.

Lemma feed_spec limit chunks pending : (0 < limit)%nat -> 10 ∉ pending -> (length pending < limit)%nat ->
  bytes_back (feed limit chunks pending) = pending ++ concat chunks /\ Forall (within limit) (feed limit chunks pending).
Proof.
  intros Hl. revert pending. induction chunks as [|c cs IH]; intros pending Hn Hp; cbn [feed concat].
  - rewrite app_nil_r. case_bool_decide as He; [by subst|]. split; [by cbn; rewrite !app_nil_r|]. constructor; [|constructor]. split; [cbn; lia|done].
  - unfold on_chunk. destruct (frames limit _ (pending ++ c)) as [l rest] eqn:Hf. apply frames_spec in Hf as (R1 & R2 & R3 & R4); [|done|lia].
    destruct (IH rest R3 R4) as [I1 I2]. split; [|by apply Forall_app]. rewrite bytes_back_app, I1, app_assoc, R1. by rewrite app_assoc.
Qed.

(** ** The host lock *)

(** The processes of a worker: its supervisor, the shell that runs its command,
    and what that shell starts. *)
Inductive Proc := Supervisor (w : Z) | Shell (w : Z) | Descendant (w k : Z).

#[export] Instance Proc_eq : EqDecision Proc.
Proof. solve_decision. Defined.

(** What the kernel keeps of [host.lock]: which process has which open file
    description of it in its descriptor table, and the description that carries
    the [flock].  A worker opens the file once, so its number names the
    description. *)
Record Kernel := mkKernel { descriptors : list (Proc * Z); flocked : option Z }.

(** An [flock] ends with the last descriptor of its description. *)
Definition settle (k : Kernel) : Kernel :=
  match flocked k with
  | Some o => if existsb (fun d => snd d =? o) (descriptors k) then k else mkKernel (descriptors k) None
  | None => k
  end.

Definition sys_open (p : Proc) (o : Z) (k : Kernel) : Kernel := mkKernel ((p, o) :: descriptors k) (flocked k).
Definition sys_close (p : Proc) (o : Z) (k : Kernel) : Kernel :=
  settle (mkKernel (List.filter (fun d => negb (bool_decide (d = (p, o)))) (descriptors k)) (flocked k)).
Definition sys_exit (p : Proc) (k : Kernel) : Kernel :=
  settle (mkKernel (List.filter (fun d => negb (bool_decide (fst d = p))) (descriptors k)) (flocked k)).
(** The child gets the descriptors [fds] of its parent. *)
Definition sys_spawn (p : Proc) (fds : list Z) (child : Proc) (k : Kernel) : Kernel :=
  mkKernel (List.map (fun o => (child, o)) (List.filter (fun o => bool_decide ((p, o) ∈ descriptors k)) fds) ++ descriptors k) (flocked k).
(** [LOCK_EX | LOCK_NB]: [None] is [EWOULDBLOCK]. *)
Definition sys_flock (o : Z) (k : Kernel) : option Kernel :=
  match flocked k with
  | Some o' => if o' =? o then Some k else None
  | None => Some (mkKernel (descriptors k) (Some o))
  end.

(** [_acquire_host_lock]: the locked descriptor, and whether locking is
    available; the lock file may be unusable and [flock] may fail otherwise. *)
Definition _acquire_host_lock (usable broken : bool) (w : Z) (k : Kernel) : Kernel * (option Z * bool) :=
  if negb usable then (k, (None, false))
  else
    let opened := sys_open (Supervisor w) w k in
    if broken then (sys_close (Supervisor w) w opened, (None, false))
    else match sys_flock w opened with
         | None => (sys_close (Supervisor w) w opened, (None, true))
         | Some k => (k, (Some w, true))
         end.

(** The supervisor closes its copy; it does not unlock. *)
Definition _release_host_lock (fd : option Z) (w : Z) (k : Kernel) : Kernel :=
  match fd with None => k | Some o => sys_close (Supervisor w) o k end.

(** [pass_fds=[lock_fd] if lock_fd is not None else []] *)
Definition pass_fds (fd : option Z) : list Z := match fd with Some o => [o] | None => [] end.

(** A worker: the descriptor it locked, whether it can no longer start its
    command, whether the shell of the command runs, and whether that shell has
    closed the descriptor at the hand-over to the serving process. *)
Record Worker := mkWorker { lock_fd : option Z; over : bool; shell : option bool; handed_over : bool }.

Record Host := mkHost { kernel : Kernel; workers : gmap Z Worker }.

(** What happens on a node: a worker asks for the lock and gives up when it is
    taken; it starts its command; its supervisor closes its copy, when it is
    done, or dies; the shell starts other processes, closes its descriptor or
    exits, and so do its descendants. *)
Inductive Event :=
| Ask (w : Z) (usable broken : bool) | Start (w : Z) | Release (w : Z) | Die (w : Z)
| Fork (w i : Z) | HandOver (w : Z) | ShellExit (w : Z) | DescendantExit (w i : Z).

Definition ended (x : Worker) : Worker := mkWorker (lock_fd x) true (shell x) (handed_over x).

Definition on_worker (w : Z) (f : Worker -> Kernel -> Worker * Kernel) (h : Host) : Host :=
  match workers h !! w with
  | None => h
  | Some x => let '(x, k) := f x (kernel h) in mkHost k (<[w := x]> (workers h))
  end.

Definition on_event (h : Host) (e : Event) : Host :=
  match e with
  | Ask w usable broken =>
      match workers h !! w with
      | Some _ => h
      | None => let '(k, (fd, available)) := _acquire_host_lock usable broken w (kernel h) in
                mkHost k (<[w := mkWorker fd (available && is_none fd) None false]> (workers h))
      end
  | Start w => on_worker w (fun x k =>
      match over x, shell x with
      | false, None => (mkWorker (lock_fd x) false (Some true) false, sys_spawn (Supervisor w) (pass_fds (lock_fd x)) (Shell w) k)
      | _, _ => (x, k)
      end) h
  | Release w => on_worker w (fun x k => (ended x, _release_host_lock (lock_fd x) w k)) h
  | Die w => on_worker w (fun x k => (ended x, sys_exit (Supervisor w) k)) h
  | Fork w i => on_worker w (fun x k =>
      (x, if bool_decide (shell x = Some true) then sys_spawn (Shell w) (pass_fds (lock_fd x)) (Descendant w i) k else k)) h
  | HandOver w => on_worker w (fun x k =>
      match shell x, lock_fd x with
      | Some true, Some o => (mkWorker (lock_fd x) (over x) (shell x) true, sys_close (Shell w) o k)
      | _, _ => (x, k)
      end) h
  | ShellExit w => on_worker w (fun x k =>
      match shell x with
      | Some true => (mkWorker (lock_fd x) (over x) (Some false) (handed_over x), sys_exit (Shell w) k)
      | _ => (x, k)
      end) h
  | DescendantExit w i => mkHost (sys_exit (Descendant w i) (kernel h)) (workers h)
  end.

Definition run_events (l : list Event) : Host := foldl on_event (mkHost (mkKernel [] None) ∅) l.

(** A command that was started under the lock and has not handed over. *)
Definition fenced (x : Worker) : bool := is_some (lock_fd x) && bool_decide (shell x = Some true) && negb (handed_over x).

(** ** Requests *)

Record Config := mkConfig {
  attempt_id : string;
  hostname : string;
  engine : string;
  model : json;
  bundle_version : string;
  phase : string;
  stage : string;
  engine_log : bool;
  after : Z;
}.

(** *** The probe for live work *)

Record Live := mkLive { holder : string; live_phase : string; live_status : json; live_pid : option Z }.

Definition LIVE_STATUSES : list json := [JStr "running"; JStr "launching"; JStr "survivor"].
Definition CLOSED : dict := [("status", JStr "complete"); ("exit_status", JNum 137); ("recording", JBool false)].

Definition pid_of (k : string) (info : dict) : option Z := match dget k info with Some (JNum p) => if p =? 0 then None else Some p | _ => None end.

(** What the probe finds out about one phase. *)
Inductive Verdict := Settled | Orphan | Starting | Working (pid : Z).

Section probe.
(** Whether no process remains in a group ([_group_dead]), and the clock. *)
Context (group_dead : Z -> bool) (now : Z).

Definition verdict (info : dict) : Verdict :=
  if negb (bool_decide (get_or "status" JNull info ∈ LIVE_STATUSES)) then Settled
  else match pid_of "pid" info with
       | Some p => if group_dead p then Orphan else Working p
       | None => match pid_of "launcher_pid" info with
                 | Some l => if group_dead l then Orphan else Starting
                 | None => Orphan
                 end
       end.

Definition note_live (id ph : string) (info : dict) (live : option Live) : option Live :=
  let status := get_or "status" JNull info in
  match verdict info with
  | Starting => Some (mkLive id ph status None)
  | Working p => match live with Some l => Some l | None => Some (mkLive id ph status (Some p)) end
  | _ => live
  end.

Fixpoint active_phases (id : string) (l : list (string * json)) (live : option Live) (d : DB) : result StoreError (DB * option Live) :=
  match l with
  | [] => Ok (d, live)
  | (ph, info) :: l =>
      let? d := match verdict (obj_of info) with Orphan => update_phase id ph CLOSED now d | _ => Ok d end in
      active_phases id l (note_live id ph (obj_of info) live) d
  end.

Definition phases_in (metadata : dict) : list (string * json) := obj_of (get_or "phases" JNull metadata).

Fixpoint active_attempts (l : list (string * dict)) (live : option Live) (d : DB) : result StoreError (DB * option Live) :=
  match l with
  | [] => Ok (d, live)
  | (id, metadata) :: l => let? (d, live) := active_phases id (phases_in metadata) live d in active_attempts l live d
  end.

Definition probe_host (host : string) (d : DB) : result StoreError (DB * option Live) :=
  active_attempts (attempts_metadata_by_host host d) None d.
End probe.

(** Opening the store prunes it; every action but [worker] and [engine] begins so. *)
Definition open_store (lim : Limits) (t : float) (d : DB) : DB := _prune lim t d.

(** The [active] action. *)
Definition active (lim : Limits) (t : float) (group_dead : Z -> bool) (now : Z) (host : string) (d : DB) : result StoreError (DB * option Live) :=
  probe_host group_dead now host (open_store lim t d).

(** *** Launching, finishing and reading *)

(** A node: its log store, and the workers started on it, latest first. *)
Record NodeDisk := mkNode { ndb : DB; spawned : list (string * string) }.

Inductive Reply := RPage (p : Page) | RUnavailable.

Section requests.
Context (lim : Limits).

Definition on_db {A} (r : result StoreError A) (f : A -> DB) (n : NodeDisk) : result StoreError NodeDisk :=
  let? a := r in Ok (mkNode (f a) (spawned n)).

(** A launch first makes sure of the attempt's row; [prune_raw_logs] before the
    row is created only notes evicted files and is left out. *)
Definition launch_open (c : Config) (created : float) (started : Z) (n : NodeDisk) : result StoreError NodeDisk :=
  match find_attempt (attempt_id c) (ndb n) with
  | Some _ => Ok n
  | None => on_db (create lim (hostname c) (engine c) (model c) (bundle_version c) "provision" (attempt_id c) JNull [] created started (ndb n)) fst n
  end.

(** [phase not in metadata.get("phases", {})] *)
Definition launch_needed (c : Config) (n : NodeDisk) : result StoreError bool :=
  let? m := get (attempt_id c) (ndb n) in Ok (negb (dmem (phase c) (phases_in m))).

(** The intent is recorded, the worker is started and its pid noted. *)
Definition launch_start (c : Config) (pid now : Z) (n : NodeDisk) : result StoreError NodeDisk :=
  let? d := update (attempt_id c) [("status", JStr "running"); ("stop_collection", JBool false); ("cancel_command", JBool false)] (ndb n) in
  let? d := update_phase (attempt_id c) (phase c)
    ([("status", JStr "launching"); ("stage", JStr (stage c)); ("recording", JBool true)] ++
     (if engine_log c then [("engine_recording", JBool true)] else [])) now d in
  let n := mkNode d ((attempt_id c, phase c) :: spawned n) in
  let? d := update_phase (attempt_id c) (phase c) [("launcher_pid", JNum pid)] now (ndb n) in
  Ok (mkNode d (spawned n)).

Definition answer (c : Config) (n : NodeDisk) : Reply :=
  match read (attempt_id c) (after c) "" "" 128 (ndb n) with Ok p => RPage p | Err _ => RUnavailable end.

Definition launch (c : Config) (created : float) (started pid now : Z) (n : NodeDisk) : result StoreError (NodeDisk * Reply) :=
  let n := mkNode (open_store lim created (ndb n)) (spawned n) in
  let? n := launch_open c created started n in
  let? needed := launch_needed c n in
  let? n := if needed then launch_start c pid now n else Ok n in
  Ok (n, answer c n).

(** [finish] and [cancel]: the request, then, when the recorders have stopped or
    after five seconds, what is missing is noted. *)
Definition finish_begin (c : Config) (cancel : bool) (opened : float) (now : Z) (n : NodeDisk) : result StoreError NodeDisk :=
  let n := mkNode (open_store lim opened (ndb n)) (spawned n) in
  on_db (update (attempt_id c) [("stop_collection", JBool true); ("cancel_command", JBool cancel); ("status", JStr "complete"); ("finished_at", JNum now)] (ndb n))
    (fun d => d) n.

Definition finish_end (c : Config) (n : NodeDisk) : result StoreError (NodeDisk * Reply) :=
  let? m := get (attempt_id c) (ndb n) in
  let infos := List.map (fun kv => obj_of (snd kv)) (phases_in m) in
  let? n := if existsb (fun i => truthy (get_or "engine_recording" JNull i)) infos then
              on_db (issue (attempt_id c) "Engine log flush acknowledgement unavailable" (Some "engine") (ndb n)) (fun d => d) n
            else if existsb (dmem "engine_recording") infos && negb (dmem "engine" (obj_of (get_or "sources" JNull m))) then
              on_db (issue (attempt_id c) "Engine startup log unavailable" (Some "engine") (ndb n)) (fun d => d) n
            else Ok n in
  Ok (n, answer c n).
End requests.

(** ** Facts about phases *)

(** The manifest of an attempt on the node. *)
Definition phases_ok (a : attempt) : Prop := dwf (a_metadata a) /\ dwf (phases_in (a_metadata a)).

#[export] Instance phases_ok_dec a : Decision (phases_ok a).
Proof. unfold phases_ok, dwf. apply _. Defined.

Lemma dset_middle {A} (k : string) (v x : A) pre l : k ∉ dkeys pre -> dset k v (pre ++ (k, x) :: l) = pre ++ (k, v) :: l.
Proof.
  induction pre as [|[k' y] pre IH]; cbn; [by rewrite decide_True|]. intros Hk. rewrite decide_False by set_solver. f_equal. apply IH. set_solver.
Qed.

Lemma dget_middle {A} (k : string) (x : A) pre l : k ∉ dkeys pre -> dget k (pre ++ (k, x) :: l) = Some x.
Proof.
  induction pre as [|[k' y] pre IH]; cbn; [by rewrite decide_True|]. intros Hk. rewrite decide_False by set_solver. apply IH. set_solver.
Qed.

(** One phase changes; every other attempt and its host stay. *)
Lemma update_phase_spec id ph changes now d a : find_attempt id d = Some a -> dwf (a_metadata a) ->
  exists d' a', update_phase id ph changes now d = Ok d' /\ find_attempt id d' = Some a' /\ dwf (a_metadata a') /\
    phases_in (a_metadata a') = dset ph (JObj (phase_info changes (obj_of (get_or ph (JObj []) (phases_in (a_metadata a)))) now)) (phases_in (a_metadata a)) /\
    (forall i, i <> id -> find_attempt i d' = find_attempt i d).
Proof.
  intros Ha Hwf. unfold update_phase. rewrite Ha. assert (obj_of (get_or "phases" (JObj []) (a_metadata a)) = phases_in (a_metadata a)) as ->.
  { unfold phases_in, get_or. by destruct (dget "phases" (a_metadata a)). }
  set (fields := dset "phases" _ (a_metadata a)). assert (dwf fields) as Hf by by apply dwf_dset.
  destruct (update_spec id fields d a Ha) as (d' & a' & Hu & Ha' & Hm). exists d', a'. split_and!; [done|done| | |].
  - rewrite Hm. by apply dwf_merge.
  - unfold phases_in at 1, get_or. rewrite Hm, dget_merge by done. unfold fields. by rewrite dget_dset_eq.
  - intros i Hi. unfold _update in Hu. rewrite Ha in Hu. injection Hu as <-. rewrite find_set_attempt by done.
    destruct (find_attempt i d) as [b|] eqn:Hb; [|done]. cbn. apply find_attempt_Some in Hb as [_ Hid]. by rewrite bool_decide_eq_false_2 by congruence.
Qed.

Section probe_facts.
Context (group_dead : Z -> bool) (now : Z).
Local Notation verdict := (verdict group_dead).

(** A phase that is recorded as open, and one whose processes still live: its
    process group, or the launcher while there is no group yet. *)
Definition is_open (info : dict) : bool := bool_decide (get_or "status" JNull info ∈ LIVE_STATUSES).
Definition is_live (info : dict) : bool :=
  is_open info && match pid_of "pid" info, pid_of "launcher_pid" info with
                  | Some p, _ => negb (group_dead p)
                  | None, Some l => negb (group_dead l)
                  | None, None => false
                  end.

(** A phase after the probe: an open one without living processes is closed. *)
Definition closed (kv : string * json) : string * json :=
  let info := obj_of (snd kv) in
  if is_open info && negb (is_live info) then (fst kv, JObj (phase_info CLOSED info now)) else kv.

Lemma verdict_live info : is_live info = match verdict info with Starting | Working _ => true | _ => false end.
Proof.
  unfold is_live, is_open, verdict. case_bool_decide; [|done]. cbn. destruct (pid_of "pid" info) as [p|]; [by destruct (group_dead p)|].
  destruct (pid_of "launcher_pid" info) as [l|]; [by destruct (group_dead l)|done].
Qed.

Lemma verdict_closed kv : closed kv = match verdict (obj_of (snd kv)) with Orphan => (fst kv, JObj (phase_info CLOSED (obj_of (snd kv)) now)) | _ => kv end.
Proof.
  unfold closed. rewrite verdict_live. unfold is_open, verdict. case_bool_decide; [|done]. cbn. destruct (pid_of "pid" (obj_of (snd kv))) as [p|]; [by destruct (group_dead p)|].
  destruct (pid_of "launcher_pid" (obj_of (snd kv))) as [l|]; [by destruct (group_dead l)|done].
Qed.

Lemma closed_keys l : dkeys (List.map closed l) = dkeys l.
Proof. induction l as [|[k v] l IH]; [done|]. unfold dkeys in *. cbn [List.map fmap list_fmap fst]. rewrite IH. f_equal. unfold closed. by destruct (_ && _). Qed.

(** The answer names a live phase of [l]; without one it is [before]. *)
Definition answers (l : list (string * string * dict)) (before live : option Live) : Prop :=
  match live with
  | Some v => before = live \/ exists info, (holder v, live_phase v, info) ∈ l /\ is_live info = true /\ live_status v = get_or "status" JNull info
  | None => before = None /\ Forall (fun x => is_live (snd x) = false) l
  end.

Definition facts_of (id : string) (phases : list (string * json)) : list (string * string * dict) :=
  List.map (fun kv => (id, fst kv, obj_of (snd kv))) phases.

Lemma answers_app l k b m r : answers l b m -> answers k m r -> answers (l ++ k) b r.
Proof.
  unfold answers. destruct r as [v|].
  - intros Hl [->|(info & H1 & H2 & H3)]; [destruct Hl as [->|(info & H1 & H2 & H3)]; [by left|]|]; right; exists info; set_solver.
  - intros Hl [-> Hk]. destruct Hl as [-> Hl]. split; [done|]. by apply Forall_app.
Qed.

Lemma active_phases_spec id pre l live d a : find_attempt id d = Some a -> dwf (a_metadata a) -> dwf (pre ++ l) ->
  phases_in (a_metadata a) = List.map closed pre ++ l ->
  exists d' live' a', active_phases group_dead now id l live d = Ok (d', live') /\ find_attempt id d' = Some a' /\ dwf (a_metadata a') /\
    phases_in (a_metadata a') = List.map closed (pre ++ l) /\ (forall i, i <> id -> find_attempt i d' = find_attempt i d) /\
    answers (facts_of id l) live live'.
Proof.
  revert pre live d a. induction l as [|[ph info] l IH]; intros pre live d a Ha Hw Hk Hp; cbn [active_phases].
  - exists d, live, a. rewrite app_nil_r in *. split_and!; try done. destruct live; [by left|done].
  - assert (ph ∉ dkeys pre) as Hfresh. { unfold dwf, dkeys in Hk. rewrite fmap_app in Hk. apply NoDup_app in Hk as (_ & Hk & _). intros Hin. apply (Hk ph); [done|]. cbn. set_solver. }
    assert (ph ∉ dkeys (List.map closed pre)) as Hfresh' by by rewrite closed_keys.
    assert (exists d1 a1, match verdict (obj_of info) with Orphan => update_phase id ph CLOSED now d | _ => Ok d end = Ok d1 /\ find_attempt id d1 = Some a1 /\
      dwf (a_metadata a1) /\ phases_in (a_metadata a1) = List.map closed (pre ++ [(ph, info)]) ++ l /\ (forall i, i <> id -> find_attempt i d1 = find_attempt i d))
      as (d1 & a1 & -> & Ha1 & Hw1 & Hp1 & Ho1).
    { rewrite List.map_app, <- app_assoc. cbn [List.map app]. rewrite (verdict_closed (ph, info)). cbn [fst snd]. destruct (verdict (obj_of info)) eqn:Hv; try (exists d, a; split_and!; done).
      destruct (update_phase_spec id ph CLOSED now d a Ha Hw) as (d1 & a1 & H1 & H2 & H3 & H4 & H5). exists d1, a1. split_and!; try done.
      rewrite H4, Hp. unfold get_or. rewrite dget_middle by done. cbn [default]. by rewrite dset_middle. }
    cbn [rbind]. destruct (IH (pre ++ [(ph, info)]) (note_live group_dead id ph (obj_of info) live) d1 a1 Ha1 Hw1) as (d' & live' & a' & R1 & R2 & R3 & R4 & R5 & R6);
      [by rewrite <- app_assoc|done|]. exists d', live', a'. rewrite <- app_assoc in R4. split_and!; try done; [intros i Hi; by rewrite R5, Ho1|].
    change (facts_of id ((ph, info) :: l)) with ([(id, ph, obj_of info)] ++ facts_of id l). eapply answers_app; [|exact R6].
    unfold answers, note_live. destruct (verdict (obj_of info)) eqn:Hv; destruct live as [v|]; cbn;
      try (by left); try (right; exists (obj_of info); rewrite verdict_live, Hv; set_solver); split; try done; constructor; try constructor; cbn; by rewrite verdict_live, Hv.
Qed.
End probe_facts.

Section probe_all.
Context (group_dead : Z -> bool) (now : Z).

Lemma active_attempts_spec l live d : NoDup l.*1 ->
  Forall (fun x => exists a, find_attempt (fst x) d = Some a /\ a_metadata a = snd x /\ phases_ok a) l ->
  exists d' live', active_attempts group_dead now l live d = Ok (d', live') /\
    (forall x, x ∈ l -> exists a', find_attempt (fst x) d' = Some a' /\ phases_in (a_metadata a') = List.map (closed group_dead now) (phases_in (snd x))) /\
    (forall i, i ∉ l.*1 -> find_attempt i d' = find_attempt i d) /\
    answers group_dead (concat (List.map (fun x => facts_of (fst x) (phases_in (snd x))) l)) live live'.
Proof.
  revert live d. induction l as [|[id m] l IH]; intros live d Hnd Hall; cbn [active_attempts].
  { exists d, live. split_and!; [done|by intros x ?%not_elem_of_nil|done|]. destruct live; [by left|by split]. }
  apply NoDup_cons in Hnd as [Hid Hnd]. apply Forall_cons in Hall as [(a & Ha & Hm & Hw & Hp) Hall]. cbn in Ha, Hm, Hid. subst m.
  destruct (active_phases_spec group_dead now id [] (phases_in (a_metadata a)) live d a Ha Hw Hp eq_refl) as (d1 & live1 & a1 & H1 & H2 & H3 & H4 & H5 & H6).
  rewrite H1. cbn [rbind]. destruct (IH live1 d1 Hnd) as (d' & live' & R1 & R2 & R3 & R4).
  { rewrite Forall_forall in Hall |- *. intros [i m] Hx. rewrite H5; [by apply Hall|]. cbn. intros ->. apply Hid. apply list_elem_of_fmap. by exists (id, m). }
  exists d', live'. split_and!; [done| | |].
  - intros x [->|Hx]%elem_of_cons; [|by apply R2]. cbn. rewrite R3 by done. by exists a1.
  - intros i Hi. cbn in Hi. rewrite R3, H5; [done|set_solver|set_solver].
  - cbn. by eapply answers_app.
Qed.

End probe_all.

Lemma of_host_perm host d : attempts_metadata_by_host host d ≡ₚ List.map (fun a => (a_id a, a_metadata a)) (of_host host d).
Proof. unfold attempts_metadata_by_host. by rewrite sort_by_perm. Qed.

Lemma of_host_in host d a : a ∈ of_host host d -> a ∈ attempts d /\ a_hostname a = host.
Proof. unfold of_host. rewrite list_elem_of_In. intros [Ha Hh]%filter_In. split; [by apply list_elem_of_In|by apply bool_decide_eq_true in Hh]. Qed.

Lemma by_host_in host d id m : (id, m) ∈ attempts_metadata_by_host host d <-> exists a, a ∈ of_host host d /\ a_id a = id /\ a_metadata a = m.
Proof. rewrite of_host_perm. rewrite (list_elem_of_In (List.map _ _)), in_map_iff. setoid_rewrite list_elem_of_In. naive_solver. Qed.

(** The phases the probe looks at. *)
Lemma facts_in host d x : x ∈ concat (List.map (fun x => facts_of (fst x) (phases_in (snd x))) (attempts_metadata_by_host host d)) <->
  exists a kv, a ∈ of_host host d /\ kv ∈ phases_in (a_metadata a) /\ x = (a_id a, fst kv, obj_of (snd kv)).
Proof.
  rewrite list_elem_of_In, in_concat. setoid_rewrite in_map_iff. split.
  - intros (l & ([id m] & <- & Hy) & Hx). apply list_elem_of_In, by_host_in in Hy as (a & Ha & <- & <-). unfold facts_of in Hx. apply in_map_iff in Hx as (kv & <- & Hkv).
    exists a, kv. split_and!; [done|by apply list_elem_of_In|done].
  - intros (a & kv & Ha & Hkv & ->). exists (facts_of (a_id a) (phases_in (a_metadata a))). split.
    + exists (a_id a, a_metadata a). split; [done|]. apply list_elem_of_In, by_host_in. eauto.
    + apply in_map_iff. exists kv. by rewrite <- list_elem_of_In.
Qed.

Lemma probe_spec group_dead now host d : NoDup (List.map a_id (attempts d)) -> Forall phases_ok (of_host host d) ->
  exists d' live, probe_host group_dead now host d = Ok (d', live) /\
    (live = None <-> forall a ph info, a ∈ of_host host d -> (ph, info) ∈ phases_in (a_metadata a) -> is_live group_dead (obj_of info) = false) /\
    (forall v, live = Some v -> exists a info, a ∈ of_host host d /\ a_id a = holder v /\ (live_phase v, info) ∈ phases_in (a_metadata a) /\
       is_live group_dead (obj_of info) = true /\ live_status v = get_or "status" JNull (obj_of info)) /\
    (forall a, a ∈ of_host host d -> exists a', find_attempt (a_id a) d' = Some a' /\
       phases_in (a_metadata a') = List.map (closed group_dead now) (phases_in (a_metadata a))) /\
    (forall a, a ∈ attempts d -> a_hostname a <> host -> find_attempt (a_id a) d' = find_attempt (a_id a) d) /\
    (forall i, find_attempt i d = None -> find_attempt i d' = find_attempt i d).
Proof.
  intros Hnd Hok. pose proof (of_host_perm host d) as Hperm. set (L := attempts_metadata_by_host host d) in *.
  assert (forall a, a ∈ attempts d -> find_attempt (a_id a) d = Some a) as Hfind.
  { intros a Ha. destruct (find_attempt (a_id a) d) as [b|] eqn:Hb; [|apply find_attempt_None in Hb; exfalso; apply Hb; by apply list_elem_of_In, in_map, list_elem_of_In].
    apply find_attempt_Some in Hb as [Hb Hid]. f_equal. by eapply attempts_inj. }
  assert (L.*1 ≡ₚ List.map a_id (of_host host d)) as Hids. { rewrite Hperm. by rewrite <- list_fmap_compose. }
  assert (NoDup L.*1) as HL. { rewrite Hids. eapply sublist_NoDup; [exact Hnd|]. apply (fmap_sublist a_id), filter_sublist_bool. }
  destruct (active_attempts_spec group_dead now L None d HL) as (d' & live & R1 & R2 & R3 & R4).
  { apply Forall_forall. intros [id m] (a & Ha & <- & <-)%by_host_in. exists a. split; [by apply Hfind; apply of_host_in in Ha as [? _]|]. split; [done|]. rewrite Forall_forall in Hok. by apply Hok. }
  exists d', live. split_and!; [done| | | | |].
  - destruct live as [v|]; cbn in R4.
    + split; [done|]. intros H. destruct R4 as [|(info & Hin & Hl & _)]; [done|]. apply facts_in in Hin as (a & [ph i] & Ha & Hkv & [= _ _ ->]). cbn in Hl. by rewrite (H a ph i Ha Hkv) in Hl.
    + split; [|done]. intros _ a ph info Ha Hkv. destruct R4 as [_ R4]. rewrite Forall_forall in R4. apply (R4 (a_id a, ph, obj_of info)), facts_in. by exists a, (ph, info).
  - intros v ->. cbn in R4. destruct R4 as [|(info & Hin & Hl & Hs)]; [done|]. apply facts_in in Hin as (a & [ph i] & Ha & Hkv & [= E1 E2 ->]). exists a, i. cbn in *. by rewrite E2.
  - intros a Ha. destruct (R2 (a_id a, a_metadata a)) as (a' & H1 & H2); [apply by_host_in; eauto|]. by exists a'.
  - intros a Ha Hh. apply R3. rewrite Hids. intros Hin. apply list_elem_of_In, in_map_iff in Hin as (b & Hid & Hb). apply list_elem_of_In, of_host_in in Hb as [Hb Hbh].
    assert (a = b) as -> by (by eapply attempts_inj). done.
  - intros i Hi. apply R3. rewrite Hids. intros Hin. apply list_elem_of_In, in_map_iff in Hin as (b & Hid & Hb). apply list_elem_of_In, of_host_in in Hb as [Hb _].
    apply Hfind in Hb. congruence.
Qed.

(** What opening the store leaves. *)
Lemma open_in lim t d a : a ∈ attempts (open_store lim t d) <-> a ∈ attempts d /\ prunable lim t d a = false.
Proof. cbn. rewrite !list_elem_of_In, filter_In, negb_true_iff. done. Qed.

Lemma open_host lim t host d a : a ∈ of_host host (open_store lim t d) <-> a ∈ of_host host d /\ prunable lim t d a = false.
Proof. unfold of_host. rewrite !list_elem_of_In, !filter_In, <- !list_elem_of_In, open_in. tauto. Qed.

Lemma open_ids lim t d : NoDup (List.map a_id (attempts d)) -> NoDup (List.map a_id (attempts (open_store lim t d))).
Proof. intros H. eapply sublist_NoDup; [exact H|]. apply (fmap_sublist a_id), filter_sublist_bool. Qed.

Lemma find_in d a : NoDup (List.map a_id (attempts d)) -> a ∈ attempts d -> find_attempt (a_id a) d = Some a.
Proof.
  intros Hnd Ha. destruct (find_attempt (a_id a) d) as [b|] eqn:Hb; [|apply find_attempt_None in Hb; exfalso; apply Hb; by apply list_elem_of_In, in_map, list_elem_of_In].
  apply find_attempt_Some in Hb as [Hb Hid]. f_equal. by eapply attempts_inj.
Qed.

Lemma find_opened lim t d a : NoDup (List.map a_id (attempts d)) -> a ∈ attempts d ->
  find_attempt (a_id a) (open_store lim t d) = if prunable lim t d a then None else Some a.
Proof.
  intros Hnd Ha. destruct (prunable lim t d a) eqn:Hp; [|apply find_in; [by apply open_ids|by apply open_in]].
  apply find_attempt_None. intros (b & Hid & Hb)%list_elem_of_In%in_map_iff. apply list_elem_of_In, open_in in Hb as [Hb Hpb].
  rewrite (attempts_inj d b a Hnd Hb Ha Hid) in Hpb. congruence.
Qed.

Lemma active_spec lim t group_dead now host d : NoDup (List.map a_id (attempts d)) -> Forall phases_ok (of_host host d) ->
  exists d' live, active lim t group_dead now host d = Ok (d', live) /\
    (live = None <-> forall a ph info, a ∈ of_host host d -> prunable lim t d a = false -> (ph, info) ∈ phases_in (a_metadata a) ->
       is_live group_dead (obj_of info) = false) /\
    (forall v, live = Some v -> exists a info, a ∈ of_host host d /\ prunable lim t d a = false /\ a_id a = holder v /\
       (live_phase v, info) ∈ phases_in (a_metadata a) /\ is_live group_dead (obj_of info) = true /\ live_status v = get_or "status" JNull (obj_of info)) /\
    (forall a, a ∈ of_host host d -> prunable lim t d a = false -> exists a', find_attempt (a_id a) d' = Some a' /\
       phases_in (a_metadata a') = List.map (closed group_dead now) (phases_in (a_metadata a))) /\
    (forall a, a ∈ attempts d -> prunable lim t d a = true -> find_attempt (a_id a) d' = None) /\
    (forall a, a ∈ attempts d -> prunable lim t d a = false -> a_hostname a <> host -> find_attempt (a_id a) d' = Some a).
Proof.
  intros Hnd Hok. destruct (probe_spec group_dead now host (open_store lim t d)) as (d' & live & H1 & H2 & H3 & H4 & H5 & H6).
  - by apply open_ids.
  - rewrite Forall_forall in Hok |- *. intros a [Ha _]%open_host. by apply Hok.
  - exists d', live. split_and!; [exact H1| | | | |].
    + rewrite H2. setoid_rewrite open_host. naive_solver.
    + intros v Hv. destruct (H3 v Hv) as (a & info & [Ha Hp]%open_host & H). exists a, info. tauto.
    + intros a Ha Hp. by apply H4, open_host.
    + intros a Ha Hp. rewrite H6; [by rewrite find_opened, Hp|]. rewrite find_opened, Hp by done. done.
    + intros a Ha Hp Hh. rewrite H5; [|by apply open_in|done]. by rewrite find_opened, Hp.
Qed.

(** *** The lock *)

(** The lock is on a description that is open somewhere, each worker locked its
    own one, and it carries the lock while the worker may still start its
    command or while the shell of its command is fenced, which have it open. *)
Record lock_ok (h : Host) : Prop := {
  lo_open : forall o, flocked (kernel h) = Some o -> exists p, (p, o) ∈ descriptors (kernel h);
  lo_own : forall w x o, workers h !! w = Some x -> lock_fd x = Some o -> o = w;
  lo_ready : forall w x, workers h !! w = Some x -> is_some (lock_fd x) = true -> over x = false -> shell x = None ->
    flocked (kernel h) = Some w /\ (Supervisor w, w) ∈ descriptors (kernel h);
  lo_fenced : forall w x, workers h !! w = Some x -> fenced x = true -> flocked (kernel h) = Some w /\ (Shell w, w) ∈ descriptors (kernel h);
}.

(** A system call that leaves the descriptors [keep] alone does not free a lock
    that one of them carries. *)
Definition spares (keep : Proc * Z -> Prop) (k k' : Kernel) : Prop :=
  (forall o, flocked k' = Some o -> exists p, (p, o) ∈ descriptors k') /\
  forall p o, flocked k = Some o -> (p, o) ∈ descriptors k -> keep (p, o) -> flocked k' = Some o /\ (p, o) ∈ descriptors k'.

Lemma settle_open_lock k o : flocked (settle k) = Some o -> exists p, (p, o) ∈ descriptors (settle k).
Proof.
  unfold settle. destruct (flocked k) as [o'|] eqn:Hf; [|congruence]. destruct (existsb _ _) eqn:He; [|done]. rewrite Hf. intros [= <-].
  apply existsb_exists in He as ([p q] & Hin & Hq%Z.eqb_eq). cbn in Hq. subst. exists p. by apply list_elem_of_In.
Qed.

Lemma settle_keeps_lock k p o : flocked k = Some o -> (p, o) ∈ descriptors k -> flocked (settle k) = Some o /\ (p, o) ∈ descriptors (settle k).
Proof.
  intros Hf Hin. unfold settle. rewrite Hf. assert (existsb (fun d => snd d =? o) (descriptors k) = true) as ->; [|done].
  apply existsb_exists. exists (p, o). split; [by apply list_elem_of_In|apply Z.eqb_refl].
Qed.

Lemma close_spares p o k : spares (fun d => d <> (p, o)) k (sys_close p o k).
Proof.
  split; [intros ?; apply settle_open_lock|]. intros p' o' Hf Hin Hne. apply settle_keeps_lock; [done|]. cbn. apply list_elem_of_In, filter_In.
  split; [by apply list_elem_of_In|]. by rewrite bool_decide_eq_false_2.
Qed.

Lemma exit_spares p k : spares (fun d => fst d <> p) k (sys_exit p k).
Proof.
  split; [intros ?; apply settle_open_lock|]. intros p' o' Hf Hin Hne. apply settle_keeps_lock; [done|]. cbn. apply list_elem_of_In, filter_In.
  split; [by apply list_elem_of_In|]. by rewrite bool_decide_eq_false_2.
Qed.

Lemma spawn_spares p fds c k : (forall o, flocked k = Some o -> exists p, (p, o) ∈ descriptors k) -> spares (fun _ => True) k (sys_spawn p fds c k).
Proof.
  intros H. split; cbn.
  - intros o Hf. destruct (H o Hf) as [q Hq]. exists q. apply elem_of_app. by right.
  - intros p' o' Hf Hin _. split; [done|]. apply elem_of_app. by right.
Qed.

Lemma same_spares k : (forall o, flocked k = Some o -> exists p, (p, o) ∈ descriptors k) -> spares (fun _ => True) k k.
Proof. by split. Qed.

Lemma spawned_copy p o c k : (p, o) ∈ descriptors k -> (c, o) ∈ descriptors (sys_spawn p [o] c k).
Proof. intros H. cbn. rewrite bool_decide_eq_true_2 by done. by left. Qed.

Lemma spares_trans keep1 keep2 k1 k2 k3 : spares keep1 k1 k2 -> spares keep2 k2 k3 -> spares (fun d => keep1 d /\ keep2 d) k1 k3.
Proof. intros [_ H1] [H2 H3]. split; [done|]. intros p o Hf Hin [K1 K2]. destruct (H1 p o Hf Hin K1). by apply H3. Qed.

(** Replacing one worker: the others keep what they need. *)
Lemma lock_replace h w x k keep : lock_ok h -> spares keep (kernel h) k ->
  (forall w' p, w' <> w -> p = Supervisor w' \/ p = Shell w' -> keep (p, w')) ->
  (forall o, lock_fd x = Some o -> o = w) ->
  (is_some (lock_fd x) = true -> over x = false -> shell x = None -> flocked k = Some w /\ (Supervisor w, w) ∈ descriptors k) ->
  (fenced x = true -> flocked k = Some w /\ (Shell w, w) ∈ descriptors k) ->
  lock_ok (mkHost k (<[w := x]> (workers h))).
Proof.
  intros [L1 L2 L3 L4] [S1 S2] Hkeep Hown Hready Hfence. split; cbn; [done| | |].
  - intros w' y o Hy. destruct (decide (w' = w)) as [->|N]; [rewrite lookup_insert_eq in Hy; injection Hy as <-; apply Hown|rewrite lookup_insert_ne in Hy by done; by eapply L2].
  - intros w' y Hy. destruct (decide (w' = w)) as [->|N]; [rewrite lookup_insert_eq in Hy; injection Hy as <-; apply Hready|]. rewrite lookup_insert_ne in Hy by done.
    intros H1 H2 H3. destruct (L3 w' y Hy H1 H2 H3). apply S2; [done|done|]. apply Hkeep; [done|by left].
  - intros w' y Hy. destruct (decide (w' = w)) as [->|N]; [rewrite lookup_insert_eq in Hy; injection Hy as <-; apply Hfence|]. rewrite lookup_insert_ne in Hy by done.
    intros H1. destruct (L4 w' y Hy H1). apply S2; [done|done|]. apply Hkeep; [done|by right].
Qed.

Lemma lock_ask h w usable broken : lock_ok h -> workers h !! w = None -> lock_ok (on_event h (Ask w usable broken)).
Proof.
  intros Hl Hw. pose proof (lo_open _ Hl) as L1. cbn [on_event]. rewrite Hw. unfold _acquire_host_lock.
  assert (spares (fun _ => True) (kernel h) (sys_open (Supervisor w) w (kernel h))) as Ho.
  { split; cbn; [intros o Hf; destruct (L1 o Hf) as [q Hq]; exists q; by right|]. intros p o Hf Hin _. split; [done|by right]. }
  assert (forall b, lock_ok (mkHost (sys_close (Supervisor w) w (sys_open (Supervisor w) w (kernel h))) (<[w := mkWorker None b None false]> (workers h)))) as Hclosed.
  { intros b. eapply lock_replace; [done|eapply spares_trans; [exact Ho|apply close_spares]| |done|done|done].
    intros w' p N [->| ->]; (split; [done|]); congruence. }
  destruct usable; cbn [negb]; [|eapply lock_replace; [done|by apply same_spares|done|done|done|done]].
  destruct broken; [apply Hclosed|]. destruct (sys_flock w (sys_open (Supervisor w) w (kernel h))) as [k|] eqn:Hk; [|apply Hclosed].
  unfold sys_flock in Hk. destruct (flocked (sys_open (Supervisor w) w (kernel h))) as [o|] eqn:Hf.
  - destruct (Z.eqb_spec o w) as [->|]; [|done]. injection Hk as <-. eapply lock_replace; [done|exact Ho|done|by intros o [= <-]| |done].
    intros _ _ _. split; [done|by left].
  - injection Hk as <-. cbn in Hf. apply (lock_replace h w _ _ (fun _ => True)); [done| |done|by intros o [= <-]| |done].
    + split; [|by rewrite Hf]. intros o [= <-]. exists (Supervisor w). by left.
    + intros _ _ _. split; [done|by left].
Qed.

Lemma lock_event h e : lock_ok h -> lock_ok (on_event h e).
Proof.
  intros Hl. pose proof (lo_open _ Hl) as L1. pose proof (lo_own _ Hl) as L2. pose proof (lo_ready _ Hl) as L3. pose proof (lo_fenced _ Hl) as L4.
  assert (forall w x, workers h !! w = Some x -> lock_ok (mkHost (kernel h) (<[w := x]> (workers h)))) as Hsame.
  { intros w x Hx. rewrite insert_id by done. by destruct h. }
  destruct e as [w usable broken|w|w|w|w i|w|w|w i].
  { destruct (workers h !! w) eqn:Hw; [cbn; by rewrite Hw|by apply lock_ask]. }
  all: cbn [on_event]; unfold on_worker; try (destruct (workers h !! w) as [x|] eqn:Hw; [|done]).
  - destruct (over x) eqn:Hover; [by apply Hsame|]. destruct (shell x) eqn:Hshell; [by apply Hsame|].
    eapply lock_replace; [done|by apply spawn_spares|done|intros o' Ho'; exact (L2 w x o' Hw Ho')|done|]. intros Hf. unfold fenced in Hf. cbn in Hf. rewrite !andb_true_r in Hf.
    destruct (L3 w x Hw Hf Hover Hshell) as [H1 H2]. split; [done|]. destruct (lock_fd x) as [o|] eqn:Ho; [|done]. rewrite (L2 w x o Hw Ho). by apply spawned_copy.
  - unfold _release_host_lock. destruct (lock_fd x) as [o|] eqn:Ho.
    + eapply lock_replace; [done|apply close_spares| |intros o' Ho'; exact (L2 w x o' Hw Ho')|done|]; [by intros w' p N [->| ->]; congruence|]. intros Hf. destruct (L4 w x Hw Hf).
      by apply (close_spares (Supervisor w) o (kernel h)).
    + eapply lock_replace; [done|by apply same_spares|done|intros o' Ho'; exact (L2 w x o' Hw Ho')|done|]. exact (L4 w x Hw).
  - eapply lock_replace; [done|apply exit_spares| |intros o' Ho'; exact (L2 w x o' Hw Ho')|done|]; [by intros w' p N [->| ->]; cbn; congruence|]. intros Hf. destruct (L4 w x Hw Hf).
    by apply (exit_spares (Supervisor w) (kernel h)).
  - case_bool_decide; [|by apply Hsame]. eapply lock_replace; [done|by apply spawn_spares|done|intros o' Ho'; exact (L2 w x o' Hw Ho')|by intros; congruence|].
    intros Hf. destruct (L4 w x Hw Hf). by apply (spawn_spares (Shell w) (pass_fds (lock_fd x)) (Descendant w i) (kernel h) L1).
  - destruct (shell x) as [[]|] eqn:Hshell; [|by apply Hsame..]. destruct (lock_fd x) as [o|] eqn:Ho; [|by apply Hsame].
    eapply lock_replace; [done|apply close_spares| |intros o' [= <-]; exact (L2 w x o Hw Ho)|done|]; [by intros w' p N [->| ->]; congruence|].
    unfold fenced. cbn. by rewrite andb_false_r.
  - destruct (shell x) as [[]|] eqn:Hshell; [|by apply Hsame..].
    eapply lock_replace; [done|apply exit_spares| |intros o' Ho'; exact (L2 w x o' Hw Ho')|done|]; [by intros w' p N [->| ->]; cbn; congruence|].
    unfold fenced. cbn. by rewrite andb_false_r.
  - destruct (exit_spares (Descendant w i) (kernel h)) as [S1 S2]. split; cbn; [done|done| |].
    + intros w' x Hx H1 H2 H3. destruct (L3 w' x Hx H1 H2 H3). by apply S2.
    + intros w' x Hx H1. destruct (L4 w' x Hx H1). by apply S2.
Qed.

(** ** Theorems *)

(** Framing loses nothing.  However a pipe's output is cut into reads, the
    records put back together, with the newlines that ended them, are the bytes
    that were read; no record is longer than the limit and none spans two
    lines. *)
Theorem framing_lossless limit chunks : (0 < limit)%nat ->
  bytes_back (feed limit chunks []) = concat chunks /\ Forall (within limit) (feed limit chunks []).
Proof. intros Hl. by destruct (feed_spec limit chunks [] Hl (not_elem_of_nil 10) Hl). Qed.

Lemma framing_lossless_witness : bytes_back (feed 4 [[97; 98; 99; 195]; [169; 10; 100]] []) = [97; 98; 99; 195; 169; 10; 100].
Proof. apply (framing_lossless 4 [[97; 98; 99; 195]; [169; 10; 100]]). lia. Defined.

(** C29: Commands exclude each other, and a dead worker does not wedge the host.
    Whatever workers come, go or die on a node, two commands that were both
    started under the host lock and have not handed over to their serving
    processes never run at the same time, also when a supervisor has died or
    closed its own copy while its command was still running; and the lock is
    only held while some process still has the lock file open. *)
Theorem host_exclusive l :
  (forall w1 w2 x1 x2, workers (run_events l) !! w1 = Some x1 -> workers (run_events l) !! w2 = Some x2 ->
     fenced x1 = true -> fenced x2 = true -> w1 = w2) /\
  (forall o, flocked (kernel (run_events l)) = Some o -> exists p, (p, o) ∈ descriptors (kernel (run_events l))).
Proof.
  assert (lock_ok (run_events l)) as [L1 _ _ L4].
  { unfold run_events. assert (lock_ok (mkHost (mkKernel [] None) ∅)) as H0 by (split; cbn; try done; intros *; by rewrite lookup_empty).
    revert H0. generalize (mkHost (mkKernel [] None) ∅). induction l as [|e l IH]; intros h Hl; cbn [foldl]; [done|]. by apply IH, lock_event. }
  split; [|done]. intros w1 w2 x1 x2 H1 H2 F1 F2. destruct (L4 w1 x1 H1 F1), (L4 w2 x2 H2 F2). congruence.
Qed.

(** The host passes from worker 1, whose command keeps it after the supervisor
    died, to worker 4. *)
Definition ex_handover : list Event := [Ask 1 true false; Start 1; Ask 2 true false; Die 1; Ask 3 true false; Start 3; ShellExit 1; Ask 4 true false; Start 4].

Example handover_run : (fenced <$> workers (run_events ex_handover) !! 4) = Some true /\ (over <$> workers (run_events ex_handover) !! 2) = Some true /\
  (shell <$> workers (run_events ex_handover) !! 3) = Some None /\ flocked (kernel (run_events ex_handover)) = Some 4.
Proof. by vm_compute. Qed.

Lemma host_exclusive_witness : map_Forall (fun w y => fenced y = true -> w = 4) (workers (run_events ex_handover)).
Proof.
  intros w y Hy Hf. destruct (workers (run_events ex_handover) !! 4) as [x|] eqn:H4; [|vm_compute in H4; discriminate H4].
  apply (proj1 (host_exclusive ex_handover) w 4 y x Hy H4 Hf). vm_compute in H4. injection H4 as <-. reflexivity.
Defined.

(** C30: The probe is exact about what retention leaves.  Opening the store
    removes the attempts that are due by age or number; of the rest, the node
    answers that nothing is active exactly when no phase of an attempt of the
    host is recorded as running, launching or surviving with a process group
    that is still alive, or, while no group is recorded, a launcher that is (a
    living launcher beside a dead group does not count); an answer that
    something is active names such a phase; every open phase without is closed
    with exit status 137, every other phase and every attempt of another host
    is left as it was, and an attempt that was due is gone, open phases
    included. *)
Theorem probe_exact lim t group_dead now host d : NoDup (List.map a_id (attempts d)) -> Forall phases_ok (of_host host d) ->
  exists d' live, active lim t group_dead now host d = Ok (d', live) /\
    (live = None <-> forall a ph info, a ∈ of_host host d -> prunable lim t d a = false -> (ph, info) ∈ phases_in (a_metadata a) ->
       is_live group_dead (obj_of info) = false) /\
    (forall v, live = Some v -> exists a info, a ∈ of_host host d /\ prunable lim t d a = false /\ a_id a = holder v /\
       (live_phase v, info) ∈ phases_in (a_metadata a) /\ is_live group_dead (obj_of info) = true /\ live_status v = get_or "status" JNull (obj_of info)) /\
    (forall a, a ∈ of_host host d -> prunable lim t d a = false -> exists a', find_attempt (a_id a) d' = Some a' /\
       phases_in (a_metadata a') = List.map (closed group_dead now) (phases_in (a_metadata a))) /\
    (forall a, a ∈ attempts d -> prunable lim t d a = true -> find_attempt (a_id a) d' = None) /\
    (forall a, a ∈ attempts d -> prunable lim t d a = false -> a_hostname a <> host -> find_attempt (a_id a) d' = Some a).
Proof. apply active_spec. Qed.

Definition ex_config (id ph : string) : Config := mkConfig id "h" "vllm" JNull "v" ph "setup" false 0.
(** Two launches: the worker of the first one still lives, that of the second
    died before it recorded its command. *)
Definition ex_node : DB :=
  match launch ex_limits (ex_config "a" "p1") 5%Q 0 41 1 (mkNode empty_store []) with
  | Ok (n, _) => match launch ex_limits (ex_config "b" "p2") 6%Q 0 42 2 n with Ok (n, _) => ndb n | Err _ => empty_store end
  | Err _ => empty_store
  end.

Lemma probe_exact_witness : exists d' live, active ex_limits 7%Q (fun p => p =? 42) 9 "h" ex_node = Ok (d', live) /\ holder <$> live = Some "a" /\
  (forall v, live = Some v -> exists a, a ∈ of_host "h" ex_node /\ a_id a = holder v) /\
  exists b, find_attempt "b" d' = Some b /\ get_or "status" JNull (obj_of (get_or "p2" JNull (phases_in (a_metadata b)))) = JStr "complete".
Proof.
  destruct (probe_exact ex_limits 7%Q (fun p => p =? 42) 9 "h" ex_node) as (d' & live & H1 & H2 & H3 & H4 & _); [apply (bool_decide_unpack _); vm_compute; exact I..|].
  exists d', live. split; [done|]. assert (active ex_limits 7%Q (fun p => p =? 42) 9 "h" ex_node = active ex_limits 7%Q (fun p => p =? 42) 9 "h" ex_node) as E by done. rewrite H1 in E at 1.
  vm_compute in E. injection E as -> ->. split_and!; [vm_compute; reflexivity| |eexists; split; vm_compute; reflexivity].
  intros v Hv. destruct (H3 v Hv) as (a & _ & Ha & _ & Hid & _). exists a. split; [exact Ha|exact Hid].
Defined.

(** The launch action is not idempotent for overlapping requests.  A request
    that is sent again while the first one is still being handled passes the
    check before the first one has recorded its intent, and the worker of one
    phase is started twice. *)
Theorem overlapping_launch_starts_twice :
  let c := ex_config "a" "p" in
  exists n0 n1 n2, launch_open ex_limits c 5%Q 0 (mkNode empty_store []) = Ok n0 /\
    launch_needed c n0 = Ok true /\ launch_needed c n0 = Ok true /\
    launch_start c 41 1 n0 = Ok n1 /\ launch_start c 42 2 n1 = Ok n2 /\ spawned n2 = [("a", "p"); ("a", "p")].
Proof. cbn zeta. eexists _, _, _. split_and!; [vm_compute; reflexivity..|]. reflexivity. Qed.

(** A cancelled command that survived: what its worker left behind. *)
Definition ex_survivor : DB :=
  match (let? (n, _) := launch ex_limits (ex_config "a" "p1") 5%Q 0 41 1 (mkNode empty_store []) in
         let? d := update_phase "a" "p1" [("status", JStr "running"); ("pid", JNum 43)] 2 (ndb n) in
         let? d := update_phase "a" "p1" [("status", JStr "survivor"); ("exit_status", JNum 130); ("recording", JBool false)] 3 d in
         update "a" [("status", JStr "recorded")] d) with
  | Ok d => d
  | Err _ => empty_store
  end.

(** Retention forgets a survivor.  The worker of a command that survived its
    cancellation marks the attempt as recorded, so the attempt is due once the
    retention period is over; the next probe removes it before it looks, and
    answers that nothing is active although the process group still lives. *)
Theorem pruned_survivor_unreported : exists a info d',
  a ∈ of_host "h" ex_survivor /\ ("p1", info) ∈ phases_in (a_metadata a) /\ is_live (fun _ => false) (obj_of info) = true /\
  (holder <$> match active ex_limits 7%Q (fun _ => false) 9 "h" ex_survivor with Ok (_, live) => live | Err _ => None end) = Some "a" /\
  active ex_limits 3000000%Q (fun _ => false) 9 "h" ex_survivor = Ok (d', None).
Proof.
  destruct (of_host "h" ex_survivor) as [|a l] eqn:Ha; [vm_compute in Ha; discriminate Ha|]. vm_compute in Ha. injection Ha as <- _.
  eexists _, _, _. split_and!; [by left|apply list_elem_of_In; left; reflexivity|vm_compute; reflexivity..].
Qed.
