(* ===== verification/RemoteLogs.v ===== *)
(** * Collecting a node's log
    ([inference_proxy/provisioning/remote_logs.py], and [_reconcile_host],
    [_recover_pending_evidence] of [provisioning/provisioner.py])

    The gateway mirrors the node's attempt log page by page into its own log
    store, and asks the node for live work before it changes the host.  The node
    answers through SSH: a page, or a failure of the connection.  The store's
    operations are the transactions of [LogStore]; what was written before a
    failure stays. *)

From stdpp Require Import pretty.
From S2P Require Import Prelude PyDict Json PyFloat LogStore Recorder.
Local Open Scope Z_scope.

(** ** Computations over the store *)

(** A store error, a page that lacks a field, or a failed request. *)
Inductive CollectError := StoreFailed (e : StoreError) | Malformed | Transport (text : string).

Definition M (A : Type) : Type := DB -> DB * result CollectError A.
Definition ret {A} (x : A) : M A := fun d => (d, Ok x).
Definition fail {A} (e : CollectError) : M A := fun d => (d, Err e).
Definition bind {A B} (m : M A) (f : A -> M B) : M B := fun d => match m d with (d, Ok x) => f x d | (d, Err e) => (d, Err e) end.
Notation "'let!' x ':=' c 'in' k" := (bind c (fun x => k)) (at level 200, x pattern, right associativity).
Notation "c ';!!' k" := (bind c (fun _ => k)) (at level 199, right associativity).

(** A transaction, a read, and a value that must be there. *)
Definition write {A} (f : DB -> result StoreError (DB * A)) : M A := fun d => match f d with Ok (d, x) => (d, Ok x) | Err e => (d, Err (StoreFailed e)) end.
Definition write_ (f : DB -> result StoreError DB) : M unit := write (fun d => let? d := f d in Ok (d, tt)).
Definition query {A} (f : DB -> result StoreError A) : M A := fun d => match f d with Ok x => (d, Ok x) | Err e => (d, Err (StoreFailed e)) end.
Definition need {A} (o : option A) : M A := match o with Some x => ret x | None => fail Malformed end.

Definition num_in (k : string) (m : dict) : option Z := match dget k m with Some (JNum n) => Some n | _ => None end.

Section collector.
(** The limits of the gateway's store and the attempt. *)
Context (lim : Limits) (id : string).

(** ** A page *)

Definition optional_text (j : json) : option (option string) := match j with JStr s => Some (Some s) | JNull => Some None | _ => None end.

(** The keyword arguments of [append] from a record of the page. *)
Definition record_of (r : dict) : option LogRecord :=
  match dget "msg" r, dget "level" r, dget "source" r, dget "stage" r ≫= optional_text, num_in "ts" r, num_in "seq" r, dget "stream" r ≫= optional_text with
  | Some (JStr msg), Some (JStr level), Some (JStr source), Some stage, Some ts, Some seq, Some stream =>
      Some (mkLogRecord msg level source stage (Some ts) (Some seq) stream None)
  | _, _, _, _, _, _, _ => None
  end.

(** The timing of a phase, as far as it is known. *)
Definition timing (phase : dict) : dict :=
  omap (fun k => (fun v => (k, v)) <$> dget k phase) ["started_at"; "finished_at"; "duration_seconds"; "exit_status"].

Definition nonempty (j : option json) : option dict := match j with Some (JObj (kv :: d)) => Some (kv :: d) | _ => None end.

(** A recorded failure learns the timing of its command. *)
Definition failure_fields (current remote : dict) : dict :=
  match nonempty (dget "failure" current) with
  | Some failure =>
      match nonempty (dget "command" failure) with
      | Some command =>
          let phase := match dget "phase_id" command with Some (JStr p) => obj_of (get_or p JNull (phases_in remote)) | _ => [] end in
          [("failure", JObj (dset "command" (JObj (dupdate command (timing phase))) failure))]
      | None => []
      end
  | None => []
  end.

(** The local numbers of a diagnostic source's records. *)
Definition local_seqs (name : string) (first last : Z) (added : list dict) (old : dict) : list Z :=
  omap (fun e => if field_is "source" ("diagnostics." +:+ name) e && match num_in "remote_seq" e with Some n => (first <=? n) && (n <=? last) | None => false end
                 then num_in "seq" e else None) added ++
  (if bool_decide (num_in "remote_first_seq" old = Some first)
   then match num_in "first_seq" old, num_in "last_seq" old with Some f, Some l => [f; l] | _, _ => [] end else []).

Definition minimum (l : list Z) : Z := match l with x :: l => foldl Z.min x l | [] => 0 end.
Definition maximum (l : list Z) : Z := match l with x :: l => foldl Z.max x l | [] => 0 end.

Definition source_detail (added : list dict) (previous : dict) (cursor dropped : Z) (name : string) (source : dict) : option dict :=
  let detail := dpop "last_seq" (dpop "first_seq" source) in
  match dget "first_seq" source with
  | None | Some JNull => Some detail
  | Some (JNum first) =>
      match num_in "last_seq" source with
      | None => None
      | Some last =>
          let detail := dupdate detail [("remote_first_seq", JNum first); ("remote_last_seq", JNum last)] in
          let local := local_seqs name first last added (obj_of (get_or name JNull previous)) in
          let detail := match local with [] => detail | _ => dupdate detail [("first_seq", JNum (minimum local)); ("last_seq", JNum (maximum local))] end in
          Some (if cursor <=? last then
                  dupdate detail [("status", JStr "unavailable"); ("deferred", JBool true); ("reason", JStr "Snapshot recorded on node; retrieval pending")]
                else if first <? dropped then
                  dupdate detail [("status", JStr "truncated"); ("truncated", JBool true); ("reason", JStr "Diagnostic records evicted by node retention")]
                else detail)
      end
  | Some _ => None
  end.

Definition diagnostic_fields (added : list dict) (current remote : dict) (cursor dropped : Z) : option dict :=
  match dget "diagnostics" remote with
  | None => Some []
  | Some (JObj diagnostics) =>
      (fun sources => [("diagnostics", JObj (dset "sources" (JObj sources) diagnostics))]) <$>
      mapM (fun kv => (fun s => (fst kv, JObj s)) <$> source_detail added (sources_of current) cursor dropped (fst kv) (obj_of (snd kv)))
        (obj_of (get_or "sources" JNull diagnostics))
  | Some _ => None
  end.

Definition node_issues (issues : list json) (dropped : Z) : list json :=
  let add l m := if bool_decide (JStr m ∈ l) then l else l ++ [JStr (cut 2048 m)] in
  let l := foldl (fun l i => add l ("Node: " +:+ text_of_json i)) [] issues in
  last_n 32 (if dropped =? 0 then l else add l "Node retention evicted records; consult remote_dropped_records").

Definition collector_record (seq : Z) : LogRecord :=
  mkLogRecord "Remote collection reached an unavailable suffix" "warning" "collector" None None (Some seq) None None.

Definition _ingest_page (page : Page) (now : Z) : M (list dict) :=
  let! records := need (mapM record_of (page_records page)) in
  let! added := write (append_many lim id (List.map (fun r => (r, now)) records)) in
  let remote := page_attempt page in
  let! current := query (get id) in
  let! cursor := need (num_in "remote_cursor" current) in
  let! dropped := need (num_in "dropped_records" remote) in
  let! diagnostics := need (diagnostic_fields added current remote cursor dropped) in
  let! status := need (dget "status" remote) in
  let! sources := need (dget "sources" remote) in
  let! issues := need (dget "issues" remote) in
  let! next_seq := need (num_in "next_seq" remote) in
  write_ (update id ([("remote_status", status); ("remote_phases", get_or "phases" (JObj []) remote); ("remote_sources", sources);
                      ("remote_dropped_records", JNum dropped)] ++
                     match dget "selected_generation" remote with Some g => [("selected_generation", g)] | None => [] end ++
                     [("issues", JList (node_issues (list_of issues) dropped))] ++ failure_fields current remote ++ diagnostics)) ;!!
  let! current := query (get id) in
  let! cursor := need (num_in "remote_cursor" current) in
  (if negb (has_more page) && (cursor <? next_seq) then
     write (append lim id (collector_record (next_seq - 1)) now) ;!!
     write_ (issue id "Remote collection has an unavailable suffix" None)
   else ret tt) ;!!
  ret added.

(** ** A collection *)

(** What the node's recorder answers to request [k]: a page, or a failed or
    refused request with its text. *)
Inductive Answer := APage (p : Page) | ARefused (text : string).
Context (ask : nat -> string -> Z -> Answer) (clock : nat -> Z).

Definition _request (k : nat) (action : string) : M Page :=
  let! config := query (get id) in
  let! after := need (num_in "remote_cursor" config) in
  match ask k action after with APage p => ret p | ARefused t => fail (Transport t) end.

Fixpoint collect_loop (pages k : nat) (action : string) (added : list dict) : M (list dict) :=
  match pages with
  | O => write_ (issue id "Remote collection page limit reached; collect again" None) ;!! ret added
  | S pages =>
      let! page := _request k action in
      let! new := _ingest_page page (clock k) in
      if has_more page then collect_loop pages (S k) "read" (added ++ new) else ret (added ++ new)
  end.

(** A failed request is noted, and raised. *)
Definition collect (finish cancel : bool) : M (list dict) :=
  fun d => match collect_loop 128 0 (if cancel then "cancel" else if finish then "finish" else "read") [] d with
           | (d, Err (Transport t)) => (write_ (issue id ("Remote logs unavailable: " +:+ t) (Some "remote")) ;!! fail (Transport t)) d
           | r => r
           end.
End collector.

(** ** Facts *)

Lemma dget_manifest k a : k <> "incomplete" -> k <> "diagnostics" ->
  dget k (_manifest a) = dget k (dupdate (a_metadata a) [("next_seq", JNum (a_next_seq a)); ("remote_cursor", JNum (a_remote_cursor a));
                                                        ("dropped_records", JNum (a_dropped a)); ("retained_bytes", JNum (a_bytes a))]).
Proof.
  intros H1 H2. unfold _manifest. rewrite dget_dset_ne by done. set (m := dupdate _ _). destruct (dget "diagnostics" m) as [[]|]; try done.
  destruct (dmem "sources" d); [by rewrite dget_dset_ne|done].
Qed.

Lemma manifest_counter k v a : (k, v) ∈ [("next_seq", JNum (a_next_seq a)); ("remote_cursor", JNum (a_remote_cursor a)); ("dropped_records", JNum (a_dropped a))] ->
  dget k (_manifest a) = Some v.
Proof.
  intros Hin. rewrite dget_manifest by (intros ->; set_solver). rewrite dget_dupdate by (apply (bool_decide_unpack _); vm_compute; exact I).
  repeat (apply elem_of_cons in Hin as [[= -> ->]|Hin]; [done|]). by apply not_elem_of_nil in Hin.
Qed.

Lemma manifest_cursor a : dget "remote_cursor" (_manifest a) = Some (JNum (a_remote_cursor a)).
Proof. apply manifest_counter. set_solver. Qed.

Lemma cut_bytes_length n s : (String.length (cut_bytes n s) <= n)%nat.
Proof.
  unfold cut_bytes. assert (forall fuel k l, length (whole_chars fuel k l) <= k)%nat as H.
  { induction fuel as [|fuel IH]; intros k l; cbn; [lia|]. destruct l as [|a l]; [cbn; lia|]. destruct (Nat.leb_spec (char_width a) k); [|cbn; lia].
    rewrite length_app, length_take. specialize (IH (k - char_width a)%nat (drop (char_width a) (a :: l))). lia. }
  specialize (H n n (String.list_ascii_of_string s)). revert H. generalize (whole_chars n n (String.list_ascii_of_string s)). intros l Hl.
  assert (String.length (String.string_of_list_ascii l) = length l) as ->; [|done]. clear. induction l; cbn; congruence.
Qed.

Lemma shortened_length lim s : (16 <= max_record_bytes lim)%nat -> (String.length (shortened lim s) <= max_record_bytes lim)%nat.
Proof.
  intros H. unfold shortened, too_long. destruct (Nat.ltb_spec (max_record_bytes lim) (String.length s)); [|lia].
  rewrite string_length_app. pose proof (cut_bytes_length (max_record_bytes lim - 16) s). cbn. lia.
Qed.

(** *** The node's rows *)

(** A row as the recorder writes it, up to the stage. *)
Record row_typed (limit : nat) (r : row) : Prop := {
  rt_seq : dget "seq" (r_payload r) = Some (JNum (r_seq r));
  rt_msg : exists s, dget "msg" (r_payload r) = Some (JStr s) /\ (String.length s <= limit)%nat;
  rt_level : exists s, dget "level" (r_payload r) = Some (JStr s);
  rt_source : exists s, dget "source" (r_payload r) = Some (JStr s);
  rt_ts : exists n, dget "ts" (r_payload r) = Some (JNum n);
  rt_stream : exists o, dget "stream" (r_payload r) = Some (opt_json o);
}.

Section rows.
Context (lim : Limits).
Hypothesis limit_ok : (16 <= max_record_bytes lim)%nat.
Local Notation typed := (row_typed (max_record_bytes lim)).

Lemma typed_entry r id m seq now b : typed (mkRow id seq (entry_of lim r id m seq now) b).
Proof. split; cbn; try (by eexists); try done. eexists. split; [done|]. by apply shortened_length. Qed.

Lemma typed_filter p d : Forall typed (records d) -> Forall typed (records (delete_records p d)).
Proof. cbn. rewrite !Forall_forall. intros H r Hr. apply H. apply list_elem_of_In, filter_In in Hr as [Hr _]. by apply list_elem_of_In. Qed.

Lemma typed_append id l d d' added : Forall typed (records d) -> append_loop lim id l d = Ok (d', added) -> Forall typed (records d').
Proof.
  revert d added. induction l as [|[r now] l IH]; intros d added Hd; cbn [append_loop]; [by intros [= <- _]|]. intros H. inv_ok. destruct a as [d1 e]. inv_ok. destruct a as [d2 es].
  injection H as <- _. match goal with H : append_loop _ _ _ _ = Ok _ |- _ => eapply IH; [|exact H] end.
  match goal with H : _append _ _ _ _ _ = Ok _ |- _ => revert H end. unfold _append. destruct (find_attempt id d); [|done]. destruct (already_stored a r); [by intros [= <- _]|].
  intros [= <- _]. cbn. apply Forall_app. split; [done|]. constructor; [apply typed_entry|constructor].
Qed.

Lemma typed_rotate id b d : Forall typed (records d) -> Forall typed (records (fst (_rotate id b d))).
Proof.
  intros Hd. unfold _rotate. destruct (find_attempt id d); [|done]. destruct (b <? _); [|done]. destruct (rotate_scan _ _ _ _ _ _) as [[? ?] ?]. cbn [fst]. by apply typed_filter.
Qed.

Lemma typed_shrink l total d : Forall typed (records d) -> Forall typed (records (shrink lim l total d)).
Proof.
  revert total d. induction l as [|[i b] l IH]; intros total d Hd; cbn [shrink]; [done|]. destruct (total <=? _); [done|].
  pose proof (typed_rotate i (Z.max 0 (b - (total - max_bytes lim))) d Hd) as H. destruct (_rotate _ _ d). by apply IH.
Qed.

Lemma typed_append_many id l d d' added : Forall typed (records d) -> append_many lim id l d = Ok (d', added) -> Forall typed (records d').
Proof.
  intros Hd. unfold append_many. destruct l as [|x l]; [by intros [= <- _]|]. intros H. inv_ok. destruct a as [d1 es]. injection H as <- _.
  apply typed_append in Ha; [|done]. unfold _apply_budgets. destruct (_ <=? _); [by apply typed_rotate|by apply typed_shrink, typed_rotate].
Qed.

Lemma update_records id f d d' : _update id f d = Ok d' -> records d' = records d.
Proof. unfold _update. destruct (find_attempt id d); [|done]. by intros [= <-]. Qed.

Lemma mutate_records id f d d' m : _mutate_metadata id f d = Ok (d', m) -> records d' = records d.
Proof.
  unfold _mutate_metadata. destruct (find_attempt id d) as [a|]; [|done]. destruct (_update id (f (a_metadata a)) d) as [d1|] eqn:Hu; [|done].
  intros [= <- _]. by eapply update_records.
Qed.

Lemma interrupt_records l d d' : interrupt_all l d = Ok d' -> records d' = records d.
Proof.
  revert d. induction l as [|a l IH]; intros d; cbn; [by intros [= <-]|]. destruct (has_status "running" a); [|by apply IH].
  intros H. inv_ok. rewrite (IH _ H). by eapply update_records.
Qed.

Lemma typed_prune now d : Forall typed (records d) -> Forall typed (records (_prune lim now d)).
Proof. intros Hd. cbn. by apply typed_filter. Qed.

Lemma typed_exec o d : Forall typed (records d) -> Forall typed (records (exec lim d o)).
Proof.
  intros Hd. destruct o; cbn [exec]; unfold commit.
  - destruct (create _ _ _ _ _ _ _ _ _ _ _ d) as [[d' i]|] eqn:H; [|done]. unfold create in H. destruct (find_attempt attempt_id d); [done|]. cbn in H.
    injection H as <- _. by apply typed_prune.
  - destruct (update id fields d) as [d'|] eqn:H; [|done]. by rewrite (update_records _ _ _ _ H).
  - destruct (record_checkpoint id stage status evidence now d) as [d'|] eqn:H; [|done]. unfold record_checkpoint in H. destruct (negb _); [by injection H as <-|].
    inv_ok. destruct a as [d1 m]. injection H as <-. by rewrite (mutate_records _ _ _ _ _ Ha).
  - destruct (increment_transient_retry id now d) as [[d' n]|] eqn:H; [|done]. unfold increment_transient_retry in H. inv_ok. destruct a as [d1 m]. injection H as <- _.
    cbn [fst]. by rewrite (mutate_records _ _ _ _ _ Ha).
  - destruct (issue id message source d) as [d'|] eqn:H; [|done]. unfold issue in H. destruct (find_attempt id d); [|done]. by rewrite (update_records _ _ _ _ H).
  - destruct (update_phase id phase changes now d) as [d'|] eqn:H; [|done]. unfold update_phase in H. destruct (find_attempt id d); [|done]. by rewrite (update_records _ _ _ _ H).
  - destruct (append_many lim id l d) as [[d' added]|] eqn:H; [|done]. by eapply typed_append_many.
  - unfold prune. destruct (_ || _); [by apply typed_prune|done].
  - destruct (interrupt_running d) as [d'|] eqn:H; [|done]. by rewrite (interrupt_records _ _ _ H).
Qed.

Lemma typed_run ops : Forall typed (records (run_store lim ops)).
Proof.
  unfold run_store. assert (Forall typed (records empty_store)) as H by constructor. revert H. generalize empty_store.
  induction ops as [|o ops IH]; intros d Hd; [done|]. cbn. by apply IH, typed_exec.
Qed.
End rows.

(** *** The remote cursor *)

Section cursor.
Context (lim : Limits) (id : string).

Definition at_cursor (c : Z) (d : DB) : Prop := exists a, find_attempt id d = Some a /\ a_remote_cursor a = c.

Lemma at_cursor_set c f i d : (forall a, a_id (f a) = a_id a) -> (forall a, a_remote_cursor (f a) = a_remote_cursor a) -> at_cursor c d -> at_cursor c (set_attempt i f d).
Proof.
  intros H1 H2 (a & Ha & Hc). unfold at_cursor. rewrite find_set_attempt by done. rewrite Ha. cbn. eexists. split; [done|]. destruct (bool_decide _); [by rewrite H2|done].
Qed.

Lemma at_cursor_update c f i d d' : at_cursor c d -> _update i f d = Ok d' -> at_cursor c d'.
Proof. intros Hc. unfold _update. destruct (find_attempt i d); [|done]. intros [= <-]. by apply at_cursor_set. Qed.

Lemma at_cursor_rotate c i b d : at_cursor c d -> at_cursor c (fst (_rotate i b d)).
Proof.
  intros Hc. unfold _rotate. destruct (find_attempt i d); [|done]. destruct (b <? _); [|done]. destruct (rotate_scan _ _ _ _ _ _) as [[? ?] ?]. cbn [fst].
  by apply at_cursor_set.
Qed.

Lemma at_cursor_budgets c i d : at_cursor c d -> at_cursor c (_apply_budgets lim i d).
Proof.
  assert (forall l total d, at_cursor c d -> at_cursor c (shrink lim l total d)) as Hs.
  { induction l as [|[j b] l IH]; intros total d' Hc; cbn [shrink]; [done|]. destruct (total <=? _); [done|].
    pose proof (at_cursor_rotate c j (Z.max 0 (b - (total - max_bytes lim))) d' Hc) as H. destruct (_rotate _ _ d'). by apply IH. }
  intros Hc. unfold _apply_budgets. destruct (_ <=? _); [by apply at_cursor_rotate|by apply Hs, at_cursor_rotate].
Qed.

(** What the gateway stores of a remote record. *)
Definition mirrors (e : dict) (r : LogRecord) : Prop :=
  num_in "remote_seq" e = lr_remote_seq r /\ dget "msg" e = Some (JStr (shortened lim (lr_msg r))) /\ dget "level" e = Some (JStr (lr_level r)) /\
  dget "source" e = Some (JStr (lr_source r)) /\ dget "stream" e = Some (opt_json (lr_stream r)) /\ (forall t, lr_ts r = Some t -> dget "ts" e = Some (JNum t)) /\
  (forall s, lr_stage r = Some s -> str_truthy s = true -> dget "stage" e = Some (JStr s)).

Lemma append_new r now d c n : at_cursor c d -> lr_remote_seq r = Some n -> lr_journal_cursor r = None -> c <= n ->
  exists d' e, _append lim id r now d = Ok (d', Some e) /\ mirrors e r /\ at_cursor (n + 1) d'.
Proof.
  intros (a & Ha & Hc) Hn Hj Hle. unfold _append. rewrite Ha. assert (already_stored a r = false) as ->.
  { unfold already_stored. rewrite Hn, Hj, orb_false_r. apply Z.ltb_ge. lia. }
  eexists _, _. split; [done|]. split.
  - split_and!; try done; [unfold num_in; cbn; by rewrite Hn|by cbn; intros t ->|]. cbn. intros s -> Hs. by rewrite Hs.
  - unfold at_cursor. rewrite find_set_attempt by done. change (find_attempt id (insert_record ?x d)) with (find_attempt id d). rewrite Ha. cbn.
    apply find_attempt_Some in Ha as [_ Hid]. rewrite bool_decide_eq_true_2 by done. eexists. split; [done|]. cbn. by rewrite Hn.
Qed.

(** Records numbered upwards from the cursor, gaps allowed. *)
Fixpoint upwards (c : Z) (l : list LogRecord) : Prop :=
  match l with
  | [] => True
  | r :: l => exists n, lr_remote_seq r = Some n /\ lr_journal_cursor r = None /\ c <= n /\ upwards (n + 1) l
  end.
Definition cursor_after (c : Z) (l : list LogRecord) : Z := foldl (fun c r => match lr_remote_seq r with Some n => n + 1 | None => c end) c l.

Lemma append_all l now d c : at_cursor c d -> upwards c l ->
  exists d' added, append_many lim id (List.map (fun r => (r, now)) l) d = Ok (d', added) /\ Forall2 mirrors added l /\ at_cursor (cursor_after c l) d'.
Proof.
  intros Hc Hl. assert (forall d c l, at_cursor c d -> upwards c l -> exists d' added,
    append_loop lim id (List.map (fun r => (r, now)) l) d = Ok (d', added) /\ Forall2 mirrors added l /\ at_cursor (cursor_after c l) d') as Hloop.
  { clear. intros d c l. revert d c. induction l as [|r l IH]; intros d c Hc; cbn [upwards List.map append_loop]; [by eexists _, _|].
    intros (n & Hn & Hj & Hle & Hl). destruct (append_new r now d c n Hc Hn Hj Hle) as (d1 & e & -> & He & Hc1). cbn [rbind].
    destruct (IH d1 (n + 1) Hc1 Hl) as (d' & added & -> & Hf & Hc'). eexists _, _. split; [done|]. split; [by constructor|].
    unfold cursor_after. cbn. by rewrite Hn. }
  unfold append_many. destruct l as [|r l]; [by eexists _, _|]. destruct (Hloop d c (r :: l) Hc Hl) as (d' & added & Hd & Hf & Hc'). cbn [List.map] in *.
  rewrite Hd. eexists _, _. split; [done|]. split; [done|]. by apply at_cursor_budgets.
Qed.

Lemma at_cursor_get c d : at_cursor c d -> exists m, get id d = Ok m /\ num_in "remote_cursor" m = Some c.
Proof.
  intros (a & Ha & Hc). unfold get. rewrite Ha. eexists. split; [done|]. unfold num_in. rewrite (manifest_counter "remote_cursor" (JNum (a_remote_cursor a))) by set_solver. by rewrite Hc.
Qed.

Lemma at_cursor_present c d f : at_cursor c d -> exists d', _update id f d = Ok d' /\ at_cursor c d'.
Proof.
  intros Hc. pose proof Hc as (a & Ha & _). unfold _update. rewrite Ha. eexists. split; [done|]. by apply at_cursor_set.
Qed.

Lemma at_cursor_issue c d msg src : at_cursor c d -> exists d', issue id msg src d = Ok d' /\ at_cursor c d'.
Proof. intros Hc. pose proof Hc as (a & Ha & _). unfold issue. rewrite Ha. by apply at_cursor_present. Qed.
End cursor.

(** *** What the store holds *)

Lemma sublist_records_of id l k : l `sublist_of` k ->
  List.filter (fun r => bool_decide (r_attempt r = id)) l `sublist_of` List.filter (fun r => bool_decide (r_attempt r = id)) k.
Proof. induction 1; cbn; [done| |]; destruct (bool_decide _); by try constructor. Qed.

Lemma sublist_whole {A} (l' l : list A) : l' `sublist_of` l -> (length l <= length l')%nat -> l' = l.
Proof. induction 1 as [|x l' l Hs IH|x l' l Hs IH]; cbn; intros H; [done|f_equal; apply IH; lia|]. apply sublist_length in Hs. lia. Qed.

(** Of a numbered list, a part that goes to its end is what is left from its
    first number on. *)
Lemma sublist_numbered l' l d n d' n' : l' `sublist_of` l -> List.map r_seq l = seqZ d n -> List.map r_seq l' = seqZ d' n' -> d <= d' -> d' + n' = d + n ->
  0 <= n' -> l' = List.filter (fun r => d' <=? r_seq r) l.
Proof.
  assert (forall l d n, List.map r_seq l = seqZ d n -> 0 <= n -> Z.of_nat (length l) = n) as Hlen.
  { intros k e m H Hm. rewrite <- (length_map r_seq), H, length_seqZ. lia. }
  intros Hs. revert d n. induction Hs as [|x l' l Hs IH|x l' l Hs IH]; intros d n Hl Hl' Hd He Hn.
  - done.
  - pose proof (Hlen _ _ _ Hl ltac:(lia)) as L1. pose proof (Hlen _ _ _ Hl' Hn) as L2. cbn [length] in L1, L2. pose proof (sublist_length _ _ Hs).
    assert (d' = d) as ->. { cbn [List.map] in Hl, Hl'. rewrite seqZ_cons in Hl, Hl' by lia. congruence. }
    assert (l' = l) as -> by (apply sublist_whole; [done|lia]). symmetry. apply forallb_filter_id, forallb_forall.
    intros r Hr. apply Z.leb_le. apply (in_map r_seq) in Hr. rewrite Hl in Hr. apply list_elem_of_In, elem_of_seqZ in Hr. lia.
  - pose proof (Hlen _ _ _ Hl ltac:(lia)) as L1. pose proof (Hlen _ _ _ Hl' Hn) as L2. cbn [length] in L1. pose proof (sublist_length _ _ Hs).
    cbn [List.map] in Hl. rewrite seqZ_cons in Hl by lia. injection Hl as Hx Hl. cbn [List.filter]. rewrite (proj2 (Z.leb_gt _ _)) by lia. eapply (IH _ _ Hl); [done|lia|lia|done].
Qed.

Lemma rotate_sublist i b d : records (fst (_rotate i b d)) `sublist_of` records d.
Proof.
  unfold _rotate. destruct (find_attempt i d); [|done]. destruct (b <? _); [|done]. destruct (rotate_scan _ _ _ _ _ _) as [[? ?] ?]. cbn. apply filter_sublist_bool.
Qed.

Lemma budgets_sublist lim i d : records (_apply_budgets lim i d) `sublist_of` records d.
Proof.
  assert (forall l total d, records (shrink lim l total d) `sublist_of` records d) as Hs.
  { induction l as [|[j b] l IH]; intros total d'; cbn [shrink]; [done|]. destruct (total <=? _); [done|].
    pose proof (rotate_sublist j (Z.max 0 (b - (total - max_bytes lim))) d') as H. destruct (_rotate _ _ d') as [d1 ?]. cbn in H. by rewrite IH. }
  unfold _apply_budgets. destruct (_ <=? _); [apply rotate_sublist|]. rewrite Hs. apply rotate_sublist.
Qed.

Section logged.
Context (lim : Limits) (id : string) (first : DB) (start : attempt).
Hypothesis max_nonneg : 0 <= max_bytes lim.
Hypothesis attempt_nonneg : 0 <= attempt_max_bytes lim.
Hypothesis first_good : good lim first.
Local Notation old := (records_of id first).

(** The rows [new] fit into the budgets beside what was there. *)
Definition fits (new : list row) : Prop := bytes_of (old ++ new) <= attempt_max_bytes lim /\ retained_bytes first + bytes_of new <= max_bytes lim.

(** [new] was logged since the store was [first]: it is numbered on, and the
    store holds what is left of the log from the dropped count on, which is all
    of it while it fits. *)
Record logged (new : list row) (d : DB) : Prop := {
  lg_good : good lim d;
  lg_seqs : List.map r_seq new = seqZ (a_next_seq start) (Z.of_nat (length new));
  lg_bytes : Forall (fun r => 0 < r_bytes r) new;
  lg_held : exists a, find_attempt id d = Some a /\ a_next_seq a = a_next_seq start + Z.of_nat (length new) /\
    records_of id d = List.filter (fun r => a_dropped a <=? r_seq r) (old ++ new) /\
    (fits new -> a_dropped a = a_dropped start /\ retained_bytes d = retained_bytes first + bytes_of new);
}.

Lemma logged_start : find_attempt id first = Some start -> logged [] first.
Proof.
  intros Ha. pose proof first_good as Hg. split; [done|by cbn; rewrite seqZ_nil by lia|constructor|]. exists start. rewrite app_nil_r. split_and!; [done|cbn; lia| |unfold bytes_of; cbn; split; [done|lia]].
  symmetry. apply forallb_filter_id, forallb_forall. intros r Hr. apply Z.leb_le. destruct Hg as [[_ H2 _ _ _] _]. pose proof (find_attempt_Some _ _ _ Ha) as [Hin Hid].
  rewrite Forall_forall in H2. destruct (H2 start Hin) as [A1 A2 _]. rewrite Hid in A1. fold (records_of id first) in A1.
  apply (in_map r_seq) in Hr. rewrite A1 in Hr. apply list_elem_of_In, elem_of_seqZ in Hr. lia.
Qed.

Lemma fits_app new more : Forall (fun r => 0 < r_bytes r) more -> fits (new ++ more) -> fits new.
Proof. intros Hp%bytes_of_nonneg [H1 H2]. rewrite app_assoc, bytes_of_app in H1. rewrite bytes_of_app in H2. split; lia. Qed.

Lemma logged_update new f d d' : logged new d -> _update id f d = Ok d' -> logged new d'.
Proof.
  intros [H1 H2 H3 (a & Ha & Hn & Hr & Hf)] Hu. split; [by eapply good_update|done|done|]. unfold _update in Hu. rewrite Ha in Hu. injection Hu as <-.
  exists (with_metadata (merge f (a_metadata a)) a). split_and!; [|done|done|done]. rewrite find_set_attempt, Ha by done. cbn. apply find_attempt_Some in Ha as [_ Hid]. by rewrite bool_decide_eq_true_2.
Qed.

(** The loop of [append_many], before the budgets are applied. *)
Definition raw_logged (new : list row) (d : DB) : Prop :=
  wf d /\ (forall i a, i <> id -> find_attempt i d = Some a -> a_bytes a <= attempt_max_bytes lim) /\
  List.map r_seq new = seqZ (a_next_seq start) (Z.of_nat (length new)) /\ Forall (fun r => 0 < r_bytes r) new /\
  exists a, find_attempt id d = Some a /\ a_next_seq a = a_next_seq start + Z.of_nat (length new) /\
    records_of id d = List.filter (fun r => a_dropped a <=? r_seq r) (old ++ new) /\
    (fits new -> a_dropped a = a_dropped start /\ retained_bytes d = retained_bytes first + bytes_of new).

Lemma raw_append new r now d d' e : raw_logged new d -> _append lim id r now d = Ok (d', e) ->
  exists rows, List.map r_payload rows = (match e with Some e => [e] | None => [] end) /\ raw_logged (new ++ rows) d'.
Proof.
  intros (Hwf & Ho & Hs & Hb & a & Ha & Hn & Hr & Hf) H. pose proof (wf_append _ _ _ _ _ _ _ Hwf H) as Hwf'.
  assert (forall i x, i <> id -> find_attempt i d' = Some x -> a_bytes x <= attempt_max_bytes lim) as Ho'.
  { intros i x Hi Hx. rewrite (append_other lim _ _ _ _ _ _ i H Hi) in Hx. by eapply Ho. }
  unfold _append in H. rewrite Ha in H. destruct (already_stored a r).
  { injection H as <- <-. exists []. rewrite app_nil_r. split; [done|]. split_and!; [done..|]. by exists a. }
  injection H as <- <-. set (entry := entry_of _ _ _ _ _ _) in *. set (x := mkRow id (a_next_seq a) entry (payload_size entry)) in *. exists [x]. split; [done|].
  split_and!; [done|done| | |].
  - rewrite List.map_app, Hs, length_app. cbn. rewrite Nat2Z.inj_add, seqZ_app by lia. f_equal. cbn. rewrite seqZ_cons by lia. cbn. f_equal. lia.
  - apply Forall_app. split; [done|]. constructor; [apply payload_size_pos|constructor].
  - rewrite find_set_attempt by done. change (find_attempt id (insert_record x d)) with (find_attempt id d). rewrite Ha. cbn [fmap option_fmap option_map].
    pose proof (find_attempt_Some _ _ _ Ha) as [Hin Hid]. rewrite bool_decide_eq_true_2 by done. eexists. split; [done|]. cbn [a_next_seq a_dropped].
    assert (a_dropped a <= a_next_seq a) as Hle. { destruct Hwf as [_ H2 _ _ _]. rewrite Forall_forall in H2. by destruct (H2 a Hin) as [_ [? ?] _]. }
    split_and!; [rewrite length_app; cbn; lia| |].
    + change (records_of id (set_attempt id ?f (insert_record x d))) with (records_of id (insert_record x d)). unfold records_of at 1. cbn [records insert_record].
      rewrite List.filter_app. fold (records_of id d). rewrite Hr, !List.filter_app, app_assoc. f_equal. cbn [List.filter]. change (r_attempt x) with id. change (r_seq x) with (a_next_seq a).
      rewrite bool_decide_eq_true_2 by done. by rewrite (proj2 (Z.leb_le _ _)).
    + intros Hfit. destruct Hf as [F1 F2]; [eapply fits_app; [|exact Hfit]; constructor; [apply payload_size_pos|constructor]|]. split; [done|]. cbn [retained_bytes set_attempt insert_record].
      change (retained_bytes d + r_bytes x = retained_bytes first + bytes_of (new ++ [x])). rewrite F2, bytes_of_app. unfold bytes_of at 3. cbn. lia.
Qed.

Lemma raw_loop new l d d' added : raw_logged new d -> append_loop lim id l d = Ok (d', added) ->
  exists rows, List.map r_payload rows = added /\ raw_logged (new ++ rows) d'.
Proof.
  revert new d added. induction l as [|[r now] l IH]; intros new d added Hd; cbn [append_loop].
  { intros [= <- <-]. exists []. by rewrite app_nil_r. }
  intros H. inv_ok. destruct a as [d1 e]. inv_ok. destruct a as [d2 es]. injection H as <- <-.
  match goal with H : _append _ _ _ _ _ = _ |- _ => apply (raw_append new) in H as (r1 & R1 & R2); [|done] end.
  match goal with H : append_loop _ _ _ _ = _ |- _ => apply (IH _ _ _ R2) in H as (r2 & R3 & R4) end.
  exists (r1 ++ r2). rewrite List.map_app, R1, R3, app_assoc. split; [by destruct e|done].
Qed.

(** Applying the budgets: what fits stays, the rest leaves from the front. *)
Lemma raw_budgets new d : raw_logged new d -> logged new (_apply_budgets lim id d).
Proof.
  intros (Hwf & Ho & Hs & Hb & a & Ha & Hn & Hr & Hf). destruct (apply_budgets_spec lim max_nonneg attempt_nonneg id d Hwf Ho) as (B1 & B2 & B3).
  split; [done|done|done|]. pose proof (B3 id) as Hid. rewrite Ha in Hid. destruct (find_attempt id (_apply_budgets lim id d)) as [b|] eqn:Hbf; [|done].
  destruct Hid as [_ Hdrop Hsame]. injection Hsame as Hi _ _ _ Hnext _. exists b. split_and!; [done|congruence| |].
  - pose proof (find_attempt_Some _ _ _ Ha) as [Hain Haid]. pose proof (find_attempt_Some _ _ _ Hbf) as [Hbin Hbid].
    pose proof Hwf as [_ W2 _ _ _]. pose proof B1 as [_ V2 _ _ _]. rewrite Forall_forall in W2, V2. destruct (W2 a Hain) as [A1 A2 _], (V2 b Hbin) as [C1 C2 _].
    rewrite Haid in A1. rewrite Hbid in C1. fold (records_of id d) in A1. fold (records_of id (_apply_budgets lim id d)) in C1.
    rewrite (sublist_numbered (records_of id (_apply_budgets lim id d)) (records_of id d) _ _ _ _ (sublist_records_of id _ _ (budgets_sublist lim id d)) A1 C1) by lia.
    rewrite Hr, filter_filter_bool.
    apply filter_ext. intros r. destruct (Z.leb_spec (a_dropped b) (r_seq r)); [|by rewrite andb_false_r]. rewrite (proj2 (Z.leb_le _ _)) by lia. done.
  - intros Hfit. destruct (Hf Hfit) as [F1 F2]. destruct Hfit as [L1 L2]. assert (_apply_budgets lim id d = d) as E.
    { unfold _apply_budgets. assert (fst (_rotate id (attempt_max_bytes lim) d) = d) as ->; [|by rewrite (proj2 (Z.leb_le _ _)) by lia].
      unfold _rotate. rewrite Ha, (proj2 (Z.ltb_ge _ _)); [done|]. pose proof (find_attempt_Some _ _ _ Ha) as [Hain Haid]. destruct Hwf as [_ W2 _ W4 _]. rewrite Forall_forall in W2.
      destruct (W2 a Hain) as [_ _ ->]. rewrite Haid. fold (records_of id d). etrans; [|exact L1]. rewrite Hr, (bytes_of_split (fun r => a_dropped a <=? r_seq r) (old ++ new)).
      assert (Forall (fun r => 0 < r_bytes r) (old ++ new)) as Hpos.
      { apply Forall_app. split; [|done]. apply Forall_forall. intros r Hrin. destruct first_good as [[_ _ _ G4 _] _]. rewrite Forall_forall in G4. apply G4.
        unfold records_of in Hrin. rewrite list_elem_of_In in Hrin |- *. by apply filter_In in Hrin as [? _]. }
      assert (0 <= bytes_of (List.filter (fun r => negb (a_dropped a <=? r_seq r)) (old ++ new))); [|lia].
      apply bytes_of_nonneg. rewrite Forall_forall in *. intros r [Hin _]%list_elem_of_In%filter_In. apply Hpos. by apply list_elem_of_In. }
    rewrite E in Hbf |- *. rewrite Ha in Hbf. injection Hbf as <-. done.
Qed.

Lemma logged_many new l d d' added : logged new d -> append_many lim id l d = Ok (d', added) ->
  exists rows, List.map r_payload rows = added /\ logged (new ++ rows) d'.
Proof.
  intros Hd. unfold append_many. destruct l as [|x l]; [intros [= <- <-]; exists []; by rewrite app_nil_r|]. intros H. inv_ok. destruct a as [d1 es]. injection H as <- <-.
  destruct Hd as [[Hwf [_ Hbd]] Hs Hb Hh]. match goal with H : append_loop _ _ _ _ = _ |- _ => apply (raw_loop new) in H as (rows & R1 & R2) end.
  - exists rows. split; [done|]. by apply raw_budgets.
  - split_and!; [done| |done|done|done]. intros i b _ [Hin _]%find_attempt_Some. rewrite Forall_forall in Hbd. by apply Hbd.
Qed.

Lemma logged_issue new msg src d d' : logged new d -> issue id msg src d = Ok d' -> logged new d'.
Proof. intros Hd. unfold issue. destruct (find_attempt id d); [|done]. by apply logged_update. Qed.
End logged.

(** *** Ingesting a page *)

Definition source_typed (s : dict) : Prop :=
  match dget "first_seq" s with None | Some JNull => True | Some (JNum _) => is_Some (num_in "last_seq" s) | Some _ => False end.
Definition diagnostics_typed (m : dict) : Prop :=
  match dget "diagnostics" m with
  | None => True
  | Some (JObj d) => Forall (fun kv => source_typed (obj_of (snd kv))) (obj_of (get_or "sources" JNull d))
  | Some _ => False
  end.
(** The manifest of a page has the fields the gateway reads. *)
Record manifest_typed (m : dict) : Prop := {
  mt_status : is_Some (dget "status" m);
  mt_sources : is_Some (dget "sources" m);
  mt_issues : is_Some (dget "issues" m);
  mt_diagnostics : diagnostics_typed m;
}.

Lemma diagnostic_fields_typed added current remote cursor dropped : diagnostics_typed remote -> is_Some (diagnostic_fields added current remote cursor dropped).
Proof.
  unfold diagnostics_typed, diagnostic_fields. destruct (dget "diagnostics" remote) as [[]|]; try done. intros H. apply fmap_is_Some, mapM_is_Some.
  eapply Forall_impl; [exact H|]. cbn. intros [k v] Hs. apply fmap_is_Some. unfold source_detail, source_typed in *. cbn [fst snd] in *.
  destruct (dget "first_seq" (obj_of v)) as [[]|]; try done; try by eexists. destruct Hs as [l ->]. by eexists.
Qed.

Lemma bind_ok {A B} (m : M A) (f : A -> M B) d d1 x : m d = (d1, Ok x) -> bind m f d = f x d1.
Proof. intros H. unfold bind. by rewrite H. Qed.

Ltac next_step H := rewrite (bind_ok _ _ _ _ _ H); cbv beta.

Section ingest.
Context (lim : Limits) (id : string) (first : DB) (start : attempt).
Hypothesis max_nonneg : 0 <= max_bytes lim.
Hypothesis attempt_nonneg : 0 <= attempt_max_bytes lim.
Hypothesis first_good : good lim first.
Local Notation at_cursor := (at_cursor id).
Local Notation logged := (logged lim id first start).

(** Where the cursor is after a page. *)
Definition page_cursor (page : Page) (next c : Z) : Z := if has_more page then c else Z.max c next.

(** The warning that stands for a suffix the node does not have. *)
Definition is_warning (next : Z) (r : row) : Prop :=
  num_in "remote_seq" (r_payload r) = Some (next - 1) /\ dget "source" (r_payload r) = Some (JStr "collector") /\ dget "level" (r_payload r) = Some (JStr "warning").
Definition warned (missing : bool) (next : Z) (warning : list row) : Prop :=
  if missing then exists r, warning = [r] /\ is_warning next r else warning = [].

Lemma ingest_suffix page next c now d : at_cursor c d ->
  exists d', (if negb (has_more page) && (c <? next) then
     write (append lim id (collector_record (next - 1)) now) ;!! write_ (issue id "Remote collection has an unavailable suffix" None)
   else ret tt) d = (d', Ok tt) /\ at_cursor (page_cursor page next c) d' /\
   forall new, logged new d -> exists warning, logged (new ++ warning) d' /\ warned (negb (has_more page) && (c <? next)) next warning.
Proof.
  intros Hc. unfold page_cursor. destruct (negb (has_more page) && (c <? next)) eqn:Hb.
  2: { exists d. split; [done|]. split; [|intros new Hn; exists []; by rewrite app_nil_r]. destruct (has_more page); [done|]. cbn in Hb. apply Z.ltb_ge in Hb. by rewrite Z.max_l. }
  apply andb_true_iff in Hb as [Hm Hlt%Z.ltb_lt]. destruct (has_more page); [done|].
  destruct (append_all lim id [collector_record (next - 1)] now d c Hc) as (d1 & added & H1 & Hmir & H2); [by exists (next - 1); split_and!; [..|lia|]|].
  cbn [List.map] in H1. destruct (at_cursor_issue id (next - 1 + 1) d1 "Remote collection has an unavailable suffix" None) as (d2 & H3 & H4); [exact H2|].
  exists d2. split_and!; [|by replace (Z.max c next) with (next - 1 + 1) by lia|].
  - unfold bind, write, write_, append. rewrite H1. cbn. unfold write. by rewrite H3.
  - intros new Hn. destruct (logged_many lim id first start max_nonneg attempt_nonneg first_good new _ _ _ _ Hn H1) as (rows & R1 & R2). exists rows.
    split; [by eapply logged_issue|]. apply Forall2_cons_inv_r in Hmir as (e & es & He & Hes & ->). apply Forall2_nil_inv_r in Hes as ->.
    destruct rows as [|r [|]]; try done. injection R1 as R1. exists r. split; [done|]. rewrite <- R1 in He. by destruct He as (M1 & _ & M3 & M4 & _).
Qed.

Lemma ingest_spec page now d c l next dropped : at_cursor c d -> mapM record_of (page_records page) = Some l -> upwards c l ->
  manifest_typed (page_attempt page) -> num_in "next_seq" (page_attempt page) = Some next -> num_in "dropped_records" (page_attempt page) = Some dropped ->
  exists d' added, _ingest_page lim id page now d = (d', Ok added) /\ Forall2 (mirrors lim) added l /\ at_cursor (page_cursor page next (cursor_after c l)) d' /\
    forall new, logged new d -> exists rows warning, List.map r_payload rows = added /\ logged (new ++ rows ++ warning) d' /\
      warned (negb (has_more page) && (cursor_after c l <? next)) next warning.
Proof.
  intros Hc Hl Hup [[st Hst] [so Hso] [iss His] Hd] Hnext Hdrop. destruct (append_all lim id l now d c Hc Hup) as (d1 & added & H1 & H2 & H3).
  destruct (at_cursor_get id _ d1 H3) as (m1 & G1 & G2). destruct (diagnostic_fields_typed added m1 (page_attempt page) (cursor_after c l) dropped Hd) as [df Hdf].
  assert (forall A (x : A) d, need (Some x) d = (d, Ok x)) as Hneed by done. unfold _ingest_page. rewrite Hl, Hnext, Hdrop, Hst, Hso, His.
  next_step (Hneed _ l d). assert (write (append_many lim id (List.map (fun r => (r, now)) l)) d = (d1, Ok added)) as W1 by (unfold write; by rewrite H1).
  next_step W1. cbv zeta. assert (query (get id) d1 = (d1, Ok m1)) as W2 by (unfold query; by rewrite G1). next_step W2. rewrite G2. next_step (Hneed _ (cursor_after c l) d1).
  next_step (Hneed _ dropped d1). rewrite Hdf. next_step (Hneed _ df d1). next_step (Hneed _ st d1). next_step (Hneed _ so d1). next_step (Hneed _ iss d1). next_step (Hneed _ next d1).
  match goal with |- context [update id ?f] => set (fields := f) end.
  assert (exists f d2, _update id f d1 = Ok d2 /\ update id fields d1 = Ok d2 /\ at_cursor (cursor_after c l) d2) as (f & d2 & U0 & U1 & U2)
    by (unfold update; eexists; match goal with |- context [_update id ?f d1] => destruct (at_cursor_present id _ d1 f H3) as (d2 & E1 & E2) end; by exists d2).
  assert (write_ (update id fields) d1 = (d2, Ok tt)) as W3 by (unfold write_, write; by rewrite U1). next_step W3.
  destruct (at_cursor_get id _ d2 U2) as (m2 & V1 & V2). assert (query (get id) d2 = (d2, Ok m2)) as W4 by (unfold query; by rewrite V1). next_step W4. rewrite V2.
  next_step (Hneed _ (cursor_after c l) d2). destruct (ingest_suffix page next (cursor_after c l) now d2 U2) as (d3 & W5 & W6 & W7). next_step W5. exists d3, added. split_and!; [done..|].
  intros new Hn. destruct (logged_many lim id first start max_nonneg attempt_nonneg first_good new _ _ _ _ Hn H1) as (rows & R1 & R2).
  destruct (W7 (new ++ rows)) as (warning & Q1 & Q2); [by eapply logged_update|]. exists rows, warning. by rewrite app_assoc.
Qed.
End ingest.

(** ** Collecting from a node *)

(** The node, as it is at request [k], answers with its own [read]. *)
Definition ask_node (id : string) (nodes : nat -> NodeDisk) (k : nat) (_ : string) (cursor : Z) : Answer :=
  match answer (mkConfig id "" "" JNull "" "" "" false cursor) (nodes k) with
  | RPage p => APage p
  | RUnavailable => ARefused "Remote attempt evicted or unavailable"
  end.

(** A stored record that carries what the node recorded. *)
Definition copied (e : dict) (r : row) : Prop :=
  num_in "remote_seq" e = Some (r_seq r) /\ (forall k, k ∈ ["msg"; "level"; "source"; "stream"; "ts"] -> dget k e = dget k (r_payload r)) /\
  (forall s, dget "stage" (r_payload r) = Some (JStr s) -> str_truthy s = true -> dget "stage" e = Some (JStr s)).

Definition stage_typed (r : row) : Prop := is_Some (dget "stage" (r_payload r) ≫= optional_text).

Section copies.
Context (lim : Limits) (limit : nat).
Hypothesis room : (limit <= max_record_bytes lim)%nat.

Lemma row_record r : row_typed limit r -> stage_typed r -> exists lr, record_of (r_payload r) = Some lr /\ lr_remote_seq lr = Some (r_seq r) /\
  lr_journal_cursor lr = None /\ forall e, mirrors lim e lr -> copied e r.
Proof.
  intros [H1 (msg & H2 & Hlen) [lv H3] [src H4] [ts H5] [sm H6]] [stg Hst]. unfold record_of, num_in. rewrite H1, H2, H3, H4, Hst, H5, H6.
  assert (optional_text (opt_json sm) = Some sm) as E by by destruct sm. cbn [mbind option_bind]. rewrite E. eexists. split_and!; [done..|].
  intros e (M1 & M2 & M3 & M4 & M5 & M6 & M7). split; [done|]. cbn in *. unfold shortened, too_long in M2. rewrite (proj2 (Nat.ltb_ge _ _)) in M2 by lia.
  split; [|intros s Hs; rewrite Hs in Hst; injection Hst as <-; by apply M7]. intros k Hk. repeat (apply elem_of_cons in Hk as [->|Hk]; [try congruence|]); [|by apply not_elem_of_nil in Hk]. rewrite H5. by apply M6.
Qed.

(** The records of a run of rows, and where they leave the cursor. *)
Lemma rows_records rows c : StronglySorted seq_lt rows -> Forall (fun r => c <= r_seq r) rows -> Forall (row_typed limit) rows -> Forall stage_typed rows ->
  exists l, mapM record_of (List.map r_payload rows) = Some l /\ upwards c l /\ cursor_after c l = match last rows with Some r => r_seq r + 1 | None => c end /\
    forall added, Forall2 (mirrors lim) added l -> Forall2 copied added rows.
Proof.
  revert c. induction rows as [|r rows IH]; intros c Hs Hc Ht Hst.
  { exists []. split_and!; try done. intros added H. apply Forall2_nil_inv_r in H as ->. constructor. }
  inversion Hs as [|? ? Hs' Hlt]; subst. apply Forall_cons in Hc as [Hc _], Ht as [Ht Ht'], Hst as [Hst Hst'].
  destruct (row_record r Ht Hst) as (lr & R1 & R2 & R3 & R4). destruct (IH (r_seq r + 1) Hs') as (l & L1 & L2 & L3 & L4); [|done|done|].
  { eapply Forall_impl; [exact Hlt|]. unfold seq_lt. cbn. lia. }
  exists (lr :: l). split_and!.
  - cbn [List.map mapM]. rewrite R1. cbn. by rewrite L1.
  - exists (r_seq r). by split_and!.
  - unfold cursor_after. cbn. rewrite R2. fold (cursor_after (r_seq r + 1) l). rewrite L3. destruct rows as [|x rows]; [done|]. rewrite last_cons_cons.
    destruct (last (x :: rows)) eqn:E; [done|by apply last_None in E].
  - intros added H. apply Forall2_cons_inv_r in H as (e & es & He & Hes & ->). constructor; auto.
Qed.
End copies.

Lemma selects_all d : selects "" "" d = true.
Proof. unfold selects. cbn. by destruct (py_lower _). Qed.

(** The node's retained records from a position on. *)
Definition from (c : Z) (log : list row) : list row := List.filter (fun r => c <=? r_seq r) log.

Lemma wanted_from id d c : wanted "" "" c (records_of id d) = from c (records_of id d).
Proof. unfold wanted, from. apply filter_ext. intros r. by rewrite selects_all, andb_true_r. Qed.

Lemma from_last id d a c r : wf d -> find_attempt id d = Some a -> last (from c (records_of id d)) = Some r -> r_seq r + 1 = a_next_seq a.
Proof.
  intros Hwf Ha Hr. pose proof (find_attempt_Some _ _ _ Ha) as [Hin Hid]. destruct Hwf as [_ H2 _ _ _]. rewrite Forall_forall in H2. destruct (H2 a Hin) as [A1 A2 _].
  rewrite Hid in A1. fold (records_of id d) in A1. assert (r ∈ from c (records_of id d)) as Hrin by (apply last_Some in Hr as [l' ->]; set_solver).
  unfold from in Hrin. apply list_elem_of_In, filter_In in Hrin as [Hrin Hcr]. apply list_elem_of_In in Hrin. bool_to_prop.
  destruct (last (records_of id d)) as [z|] eqn:Hz; [|apply last_None in Hz; rewrite Hz in Hrin; by apply not_elem_of_nil in Hrin].
  apply last_Some in Hz as [l Hz]. rewrite Hz, List.map_app in A1. cbn in A1.
  assert (r_seq z = a_next_seq a - 1) as Hzs.
  { assert (last (List.map r_seq l ++ [r_seq z]) = last (seqZ (a_dropped a) (a_next_seq a - a_dropped a))) as E by by rewrite A1. rewrite last_snoc in E.
    destruct (decide (a_next_seq a - a_dropped a <= 0)); [rewrite seqZ_nil in E by lia; done|].
    replace (a_next_seq a - a_dropped a) with (Z.of_nat (S (Z.to_nat (a_next_seq a - a_dropped a - 1)))) in E by lia. rewrite seqZ_S, last_snoc in E. injection E as ->. lia. }
  assert (r = z) as ->; [|lia]. assert (last (from c (records_of id d)) = Some z) as Hl; [|congruence]. unfold from. rewrite Hz, List.filter_app. cbn [List.filter].
  assert (r_seq r <= r_seq z) as Hle. { assert (r_seq r ∈ List.map r_seq l ++ [r_seq z]) as E. { change [r_seq z] with (List.map r_seq [z]). rewrite <- List.map_app, <- Hz. by apply list_elem_of_In, in_map, list_elem_of_In. }
    rewrite A1 in E. apply elem_of_seqZ in E. lia. }
  rewrite (proj2 (Z.leb_le _ _)) by lia. by rewrite last_snoc.
Qed.

Section collecting.
Context (lim nlim : Limits) (id : string) (first : DB) (start : attempt).
Hypothesis max_nonneg : 0 <= max_bytes lim.
Hypothesis attempt_nonneg : 0 <= attempt_max_bytes lim.
Hypothesis first_good : good lim first.
Local Notation at_cursor := (at_cursor id).
Local Notation logged := (logged lim id first start).

(** The node at each request: its row of the attempt, and the log that does not
    change meanwhile. *)
Context (nodes : nat -> NodeDisk) (row_at : nat -> attempt) (log : list row) (next : Z) (clock : nat -> Z).
Hypothesis node_ok : forall k, wf (ndb (nodes k)).
Hypothesis node_attempt : forall k, find_attempt id (ndb (nodes k)) = Some (row_at k).
Hypothesis node_manifest : forall k, manifest_typed (_manifest (row_at k)).
Hypothesis node_rows : Forall (row_typed (max_record_bytes nlim)) log.
Hypothesis node_stages : Forall stage_typed log.
Hypothesis node_log : forall k, records_of id (ndb (nodes k)) = log.
Hypothesis node_next : forall k, a_next_seq (row_at k) = next.
Hypothesis room : (max_record_bytes nlim <= max_record_bytes lim)%nat.
Local Notation from c := (from c log).

Lemma from_in c r : r ∈ from c -> r ∈ log /\ c <= r_seq r.
Proof. unfold RemoteLogs.from. rewrite list_elem_of_In. intros [Hr Hc]%filter_In. apply Z.leb_le in Hc. split; [by apply list_elem_of_In|done]. Qed.

Lemma from_sorted c : StronglySorted seq_lt (from c).
Proof. destruct (read_wanted id c "" "" 128 (ndb (nodes 0)) (row_at 0) (node_ok 0) (node_attempt 0)) as (Hs & _). by rewrite wanted_from, node_log in Hs. Qed.

Lemma from_end c r : last (from c) = Some r -> r_seq r + 1 = next.
Proof. intros Hr. rewrite <- (node_next 0). eapply (from_last id (ndb (nodes 0)) _ c); [done|done|]. by rewrite node_log. Qed.

(** One page: its records are the next ones, and the cursor follows. *)
Lemma one_page k action c d now : at_cursor c d ->
  let c' := match last (take 128 (from c)) with Some r => r_seq r + 1 | None => c end in
  exists page d' added, ask_node id nodes k action c = APage page /\ has_more page = Nat.ltb 128 (length (from c)) /\
    _ingest_page lim id page now d = (d', Ok added) /\ at_cursor (page_cursor page next c') d' /\
    forall new, logged new d -> exists rows warning, Forall2 (fun r n => copied (r_payload r) n) rows (take 128 (from c)) /\ logged (new ++ rows ++ warning) d' /\
      warned (negb (has_more page) && (c' <? next)) next warning.
Proof.
  intros Hc. cbn zeta. destruct (read_wanted id c "" "" 128 (ndb (nodes k)) (row_at k) (node_ok k) (node_attempt k)) as (Hs & p & Hp & Hrec & Hmore & _).
  rewrite wanted_from, node_log in *.
  assert (page_attempt p = _manifest (row_at k)) as Hm by (unfold read in Hp; rewrite node_attempt in Hp; by injection Hp as <-).
  set (rows := take 128 (from c)) in *.
  assert (forall r, r ∈ rows -> r ∈ from c) as Hsub by (intros r Hr; rewrite <- (take_drop 128 (from c)); set_solver).
  destruct (rows_records lim (max_record_bytes nlim) room rows c) as (l & L1 & L2 & L3 & L4).
  - unfold rows. rewrite <- (take_drop 128 (from c)) in Hs. by apply StronglySorted_app_1_l in Hs.
  - apply Forall_forall. intros r Hr. by apply Hsub, from_in in Hr as (_ & ?).
  - apply Forall_forall. intros r Hr. apply Hsub, from_in in Hr as (Hr & _). rewrite Forall_forall in node_rows. by apply node_rows.
  - apply Forall_forall. intros r Hr. apply Hsub, from_in in Hr as (Hr & _). rewrite Forall_forall in node_stages. by apply node_stages.
  - rewrite <- Hrec in L1.
    destruct (ingest_spec lim id first start max_nonneg attempt_nonneg first_good p now d c l next (a_dropped (row_at k)) Hc L1 L2) as (d' & added & I1 & I2 & I3 & I4).
    + by rewrite Hm.
    + unfold num_in. rewrite Hm, (manifest_counter "next_seq" (JNum (a_next_seq (row_at k)))) by set_solver. by rewrite node_next.
    + unfold num_in. rewrite Hm, (manifest_counter "dropped_records" (JNum (a_dropped (row_at k)))) by set_solver. done.
    + exists p, d', added. split_and!; [|done|done|by rewrite <- L3|].
      * unfold ask_node, answer. cbn [Recorder.attempt_id Recorder.after]. by rewrite Hp.
      * intros new Hn. destruct (I4 new Hn) as (rs & warning & Q1 & Q2 & Q3). exists rs, warning. rewrite <- L3. split_and!; [|done|done].
        specialize (L4 added I2). rewrite <- Q1 in L4. exact (proj1 (Forall2_fmap_l r_payload copied rs (take 128 (from c))) L4).
Qed.

(** The next page begins where this one ended. *)
Lemma from_rest c r : last (take 128 (from c)) = Some r -> from (r_seq r + 1) = drop 128 (from c).
Proof.
  pose proof (from_sorted c) as Hs. intros Hr. rewrite <- (node_log 0), <- !wanted_from in *. assert (c <= r_seq r) as Hc.
  { apply last_Some in Hr as [l' Hl']. assert (r ∈ from c) as Hin by (rewrite <- (node_log 0), <- wanted_from, <- (take_drop 128 (wanted _ _ _ _)), Hl'; set_solver). by apply from_in in Hin as (_ & ?). }
  rewrite (wanted_later "" "" c) by lia. rewrite <- (take_drop 128 (wanted "" "" c _)) at 1. apply strict_after; [by rewrite take_drop|done].
Qed.

(** The node retains nothing from the position on, but has numbered beyond. *)
Definition missing (c : Z) : bool := match from c with [] => c <? next | _ => false end.

Lemma collect_loop_spec pages k acc c d : at_cursor c d -> c <= next -> (length (from c) <= 128 * pages)%nat -> (0 < pages)%nat ->
  exists d' added, collect_loop lim id (ask_node id nodes) clock pages k "read" acc d = (d', Ok added) /\ at_cursor next d' /\
    forall new, logged new d -> exists rows warning, Forall2 (fun r n => copied (r_payload r) n) rows (from c) /\ logged (new ++ rows ++ warning) d' /\
      warned (missing c) next warning.
Proof.
  revert k acc c d. induction pages as [|pages IH]; intros k acc c d Hc Hle Hlen Hpos; [lia|]. cbn [collect_loop].
  destruct (one_page k "read" c d (clock k) Hc) as (page & d1 & added & P1 & P2 & P3 & P5 & P6).
  assert (_request id (ask_node id nodes) k "read" d = (d, Ok page)) as Hreq.
  { destruct (at_cursor_get id c d Hc) as (m & G1 & G2). unfold _request. assert (query (get id) d = (d, Ok m)) as W by (unfold query; by rewrite G1). next_step W. rewrite G2. next_step (eq_refl : need (Some c) d = (d, Ok c)). by rewrite P1. }
  next_step Hreq. next_step P3. unfold page_cursor in P5. rewrite P2 in *. destruct (Nat.ltb_spec 128 (length (from c))) as [Hmore|Hall].
  - destruct (last (take 128 (from c))) as [r|] eqn:Hr; [|apply last_None, (f_equal length) in Hr; rewrite length_take in Hr; cbn [length] in Hr; lia].
    pose proof (from_rest c r Hr) as Hrest. assert (from (r_seq r + 1) <> []) as Hne by (rewrite Hrest; intros E%(f_equal length); rewrite length_drop in E; cbn [length] in E; lia).
    assert (r_seq r + 1 <= next) as Hnext.
    { destruct (last (from (r_seq r + 1))) as [z|] eqn:Hz; [|by apply last_None in Hz].
      pose proof (from_end _ _ Hz). apply last_Some in Hz as [l' Hz]. assert (z ∈ from (r_seq r + 1)) as Hin by (rewrite Hz; set_solver). apply from_in in Hin as (_ & ?). lia. }
    destruct (IH (S k) (acc ++ added) (r_seq r + 1) d1 P5 Hnext) as (d' & added' & R1 & R2 & R3); [rewrite Hrest, length_drop; lia|lia|].
    exists d', added'. split_and!; [done|done|]. intros new Hn. destruct (P6 new Hn) as (rows & w & Q1 & Q2 & Q3). cbn in Q3. subst w. rewrite app_nil_r in Q2.
    destruct (R3 _ Q2) as (rows' & w & S1 & S2 & S3). exists (rows ++ rows'), w. split_and!.
    + rewrite <- (take_drop 128 (from c)). apply Forall2_app; [done|]. by rewrite <- Hrest.
    + by rewrite <- !app_assoc in *.
    + unfold missing in *. destruct (from c); [cbn in Hmore; lia|]. by destruct (from (r_seq r + 1)).
  - exists d1, (acc ++ added). split; [done|]. rewrite take_ge in P5, P6 by lia. split.
    + destruct (last (from c)) as [r|] eqn:Hr; [by rewrite (from_end c r Hr), Z.max_id in P5|by rewrite Z.max_r in P5 by lia].
    + intros new Hn. destruct (P6 new Hn) as (rows & w & Q1 & Q2 & Q3). exists rows, w. split_and!; [done|done|]. cbn [negb andb] in Q3. unfold missing.
      destruct (last (from c)) as [r|] eqn:Hr.
      * rewrite (from_end c r Hr), Z.ltb_irrefl in Q3. by destruct (from c).
      * apply last_None in Hr. by rewrite Hr.
Qed.
End collecting.

(** ** Reconciling a host *)

(** What [history] gives for a host, and the newest attempt of it. *)
Definition attempts_of (lim : Limits) (hostname : string) (limit : nat) (now : float) : M (list dict) :=
  fun d => let '(d, (l, _, _)) := history lim hostname limit 0 now d in (d, Ok l).

(** The answer to the probe: the node was not reached, or what it reported. *)
Inductive Probe := Unreachable (error : string) | Reported (live : option Live).

Definition RUNNING : string := "Remote operation is still running on the node; wait for it to finish or tear the host down before retrying".
Definition SURVIVED : string := "Remote process survived cancellation; it must be torn down before retrying this host".

Definition id_in (m : dict) : string := text_of_json (get_or "attempt_id" JNull m).

(** [a in b] for text *)
Definition mentions (b a : string) : bool := contains a b.

Section reconcile.
(** Whether the gateway keeps a log store and reaches node recorders, its
    limits, the probe's answer, what collecting an attempt does and what
    [collect_logs] does, and the clock.
    The upload of a compatible recorder before the probe may fail and does not
    touch the store. *)
Context (recording : bool) (lim : Limits) (probe : Probe) (collect_attempt collect_logs : string -> M unit) (now : float).

Definition holder_match (hostname : string) (live : Live) : M (option dict) :=
  let! l := attempts_of lim hostname 100 now in
  ret (find (fun a => bool_decide (dget "attempt_id" a = Some (JStr (holder live)))) l).

(** The phase of the holder that was probed, as the gateway now knows it. *)
Definition probed (live : Live) (phases : dict) : option dict :=
  match dget (live_phase live) phases with
  | Some info => Some (obj_of info)
  | None => (fun kv => obj_of (snd kv)) <$> last phases
  end.
Definition probed_phase (live : Live) (m : dict) : option dict := probed live (obj_of (get_or "remote_phases" JNull m)).

(** The evidence of the holder is mirrored first; whether that worked. *)
Definition collected (how : string -> M unit) (id : string) : M bool :=
  fun d => match how id d with (d, Ok _) => (d, Ok true) | (d, Err _) => (d, Ok false) end.

Definition mark_blocked (m : dict) (live : Live) : M unit :=
  let reason := if bool_decide (live_status live ∈ [JStr "running"; JStr "launching"]) then RUNNING else SURVIVED in
  let existing := text_of_json (get_or "failure_summary" JNull m) in
  let summary := if mentions existing reason then existing
                 else if str_truthy existing then existing +:+ " (reconcile: " +:+ reason +:+ ")" else reason in
  write_ (update (id_in m) [("status", JStr "interrupted"); ("survivor", JBool (bool_decide (live_status live = JStr "survivor"))); ("failure_summary", JStr summary)]) ;!!
  write_ (issue (id_in m) (reason +:+ "; conflicting retries blocked") None).

(** Every recent attempt without terminal evidence is collected. *)
Fixpoint recover (l : list dict) : M unit :=
  match l with
  | [] => ret tt
  | a :: l =>
      (if bool_decide (get_or "status" JNull a ∈ [JStr "running"; JStr "interrupted"; JStr "failed"])
       then let! _ := collected collect_logs (id_in a) in ret tt else ret tt) ;!! recover l
  end.

Definition _recover_pending_evidence (hostname : string) : M unit := let! l := attempts_of lim hostname 5 now in recover l.

Definition _reconcile_host (hostname : string) (block : bool) : M bool :=
  if negb recording then ret false else
  match probe with
  | Unreachable error =>
      let! l := attempts_of lim hostname 1 now in
      match l with
      | a :: _ => write_ (issue (id_in a) ("Host unreachable during reconcile: " +:+ error) None) ;!! ret block
      | [] => ret block
      end
  | Reported None => _recover_pending_evidence hostname ;!! ret false
  | Reported (Some live) =>
      let! found := holder_match hostname live in
      match found with
      | Some m =>
          let! ok := collected collect_attempt (id_in m) in
          let! current := query (get (id_in m)) in
          if ok && match probed_phase live current with Some info => bool_decide (dget "status" info = Some (JStr "complete")) | None => false end then ret false
          else mark_blocked m live ;!! ret true
      | None =>
          let! l := attempts_of lim hostname 1 now in
          match l with
          | m :: _ => mark_blocked m live ;!! ret true
          | [] => ret true
          end
      end
  end.
End reconcile.

(** *** What the gateway knows of a node's phases after a collection *)

Section known.
Context (lim : Limits) (id : string).

Definition tracked (d : DB) : Prop := exists a, find_attempt id d = Some a /\ dwf (a_metadata a).
Definition phases_known (v : json) (d : DB) : Prop := exists a, find_attempt id d = Some a /\ dwf (a_metadata a) /\ dget "remote_phases" (a_metadata a) = Some v.

Lemma phases_unlogged : "remote_phases" ∉ log_fields.
Proof. apply (bool_decide_unpack _). vm_compute. exact I. Qed.

Lemma known_keeps v a d d' : find_attempt id d = Some a -> phases_known v d -> keeps id "remote_phases" a d' -> phases_known v d'.
Proof. intros Ha (a0 & Ha0 & Hw & Hv) (a' & Ha' & S1 & S2). rewrite Ha in Ha0. injection Ha0 as ->. exists a'. split_and!; [done|auto|congruence]. Qed.

Lemma known_tracked v d : phases_known v d -> tracked d.
Proof. intros (a & H1 & H2 & _). by exists a. Qed.

Lemma tracked_append l d d' added : tracked d -> append_many lim id l d = Ok (d', added) -> tracked d'.
Proof.
  intros (a & Ha & Hw) H. destruct (append_many_keeps lim id "remote_phases" phases_unlogged l d d' added a Ha H) as (a' & Ha' & _ & S2). exists a'. auto.
Qed.

Lemma bind_inv {A B} (m : M A) (f : A -> M B) d d' (y : B) : bind m f d = (d', Ok y) -> exists d1 x, m d = (d1, Ok x) /\ f x d1 = (d', Ok y).
Proof. unfold bind. destruct (m d) as [d1 [x|e]]; [|done]. by exists d1, x. Qed.

Lemma need_inv {A} (o : option A) d d' x : need o d = (d', Ok x) -> d' = d /\ o = Some x.
Proof. destruct o; [|done]. by intros [= <- <-]. Qed.

Lemma write_inv {A} f d d' (x : A) : write f d = (d', Ok x) -> f d = Ok (d', x).
Proof. unfold write. destruct (f d) as [[d1 y]|]; [|done]. by intros [= <- <-]. Qed.

Lemma write_inv_ f d d' : write_ f d = (d', Ok tt) -> f d = Ok d'.
Proof. unfold write_. intros H%write_inv. destruct (f d) as [d1|]; [|done]. by injection H as <-. Qed.

Lemma query_inv {A} (f : DB -> result StoreError A) d d' x : query f d = (d', Ok x) -> d' = d /\ f d = Ok x.
Proof. unfold query. destruct (f d); [|done]. by intros [= <- <-]. Qed.
End known.

Ltac unbind :=
  repeat match goal with
  | H : bind _ _ _ = (_, Ok _) |- _ => apply bind_inv in H as (? & ? & ? & ?)
  | H : need _ _ = (_, Ok _) |- _ => apply need_inv in H as [-> ?]
  | H : query _ _ = (_, Ok _) |- _ => apply query_inv in H as [-> ?]
  | H : write _ _ = (_, Ok _) |- _ => apply write_inv in H
  | H : write_ _ _ = (_, Ok ?x) |- _ => destruct x; apply write_inv_ in H
  | H : ret _ _ = (_, Ok _) |- _ => injection H as <- <-
  | H : ret tt _ = (_, Ok _) |- _ => injection H as <-
  end.

Section known_pages.
Context (lim : Limits) (id : string).

Lemma ingest_phases page now d d' new : tracked id d -> _ingest_page lim id page now d = (d', Ok new) ->
  phases_known id (get_or "phases" (JObj []) (page_attempt page)) d'.
Proof.
  intros Ht H. unfold _ingest_page in H. unbind.
  match goal with H : append_many _ _ _ _ = Ok _ |- _ => apply (tracked_append lim id _ _ _ _ Ht) in H as (a & Ha & Hw) end.
  match goal with H : update id ?f _ = Ok ?d |- _ => set (fields := f) in H; rename H into Hu; rename d into d2 end.
  match goal with H : diagnostic_fields _ _ _ _ _ = Some ?df |- _ => rename H into Hdf; rename df into df0 end.
  assert (dwf fields /\ dget "remote_phases" fields = Some (get_or "phases" (JObj []) (page_attempt page)) /\ dget "failure_summary" fields = None) as (F1 & F2 & F3).
  { assert (df0 = [] \/ exists j, df0 = [("diagnostics", j)]) as Hc. { unfold diagnostic_fields in Hdf. destruct (dget "diagnostics" (page_attempt page)) as [[]|]; try done; [|left; congruence].
      apply fmap_Some in Hdf as (s & _ & ->). right. by eexists. }
    unfold fields, failure_fields. split_and!; destruct (dget "selected_generation" _) as [sg|]; destruct Hc as [->|[jd ->]]; destruct (nonempty (dget "failure" _)) as [f0|]; try destruct (nonempty (dget "command" f0));
      try reflexivity; apply (bool_decide_unpack _); vm_compute; exact I. }
  assert (phases_known id (get_or "phases" (JObj []) (page_attempt page)) d2) as Hk.
  { unfold update in Hu. rewrite F3 in Hu. destruct (update_spec id fields _ a Ha) as (d3 & a3 & U1 & U2 & U3). rewrite U1 in Hu. injection Hu as ->.
    exists a3. rewrite U3, dget_merge, F2 by done. split_and!; [done|by apply dwf_merge|done]. }
  match goal with H : (if ?b then _ else _) _ = _ |- _ => destruct b; [|by unbind] end. unbind.
  pose proof Hk as (b & Hb & _).
  match goal with H : append _ _ ?r _ _ = Ok _ |- _ => destruct (append_keeps lim id "remote_phases" phases_unlogged r now d2 b Hb) as (d4 & e & A1 & A2); rewrite A1 in H; injection H as <- <- end.
  pose proof (known_keeps id _ b d2 d4 Hb Hk A2) as Hk4. pose proof Hk4 as (b4 & Hb4 & Hw4 & _).
  match goal with H : issue _ ?m ?src _ = Ok _ |- _ => destruct (issue_keeps id "remote_phases" phases_unlogged m src d4 b4 Hb4 Hw4) as (d5 & I1 & I2); rewrite I1 in H; injection H as <- end.
  by eapply known_keeps.
Qed.

(** After a collection the gateway knows the phases of a page that was sent. *)
Context (ask : nat -> string -> Z -> Answer) (clock : nat -> Z).
Definition seen (d : DB) : Prop :=
  exists k action c p, ask k action c = APage p /\ phases_known id (get_or "phases" (JObj []) (page_attempt p)) d.

Lemma loop_phases pages k action acc d d' added : (tracked id d /\ (0 < pages)%nat) \/ seen d -> collect_loop lim id ask clock pages k action acc d = (d', Ok added) -> seen d'.
Proof.
  revert k action acc d. induction pages as [|pages IH]; intros k action acc d Hd; cbn [collect_loop]; intros H; unbind.
  - destruct Hd as [[_ ?]|(k0 & act & c & p & Hp & Hk)]; [lia|]. exists k0, act, c, p. split; [done|]. pose proof Hk as (b & Hb & Hw & _).
    match goal with H : issue _ ?m ?src _ = Ok _ |- _ => destruct (issue_keeps id "remote_phases" phases_unlogged m src d b Hb Hw) as (d5 & I1 & I2); rewrite I1 in H; injection H as <- end.
    by eapply known_keeps.
  - match goal with H : _request _ _ _ _ _ = _ |- _ => unfold _request in H; rename H into Hr end. unbind.
    match goal with H : match ask k action ?c with _ => _ end _ = _ |- _ => destruct (ask k action c) as [p|] eqn:Hask; [|done] end. unbind.
    match goal with H : _ingest_page _ _ _ _ _ = _ |- _ => apply ingest_phases in H as Hk; [|by destruct Hd as [[? _]|(? & ? & ? & ? & _ & ?%known_tracked)]] end.
    match goal with H : (if ?b then _ else _) _ = _ |- _ => destruct b; [|unbind; by eexists _, _, _, _] end. eapply IH; [|done]. right. by eexists _, _, _, _.
Qed.

Lemma collect_phases finish cancel d d' added : tracked id d -> collect lim id ask clock finish cancel d = (d', Ok added) -> seen d'.
Proof.
  intros Ht. unfold collect. destruct (collect_loop lim id ask clock 128 0 _ [] d) as [d1 [l|[]]] eqn:Hc; try done.
  - intros [= <- _]. eapply (loop_phases 128 0); [left; split; [done|lia]|exact Hc].
  - intros H. unbind. done.
Qed.
End known_pages.

(** ** Theorems *)

(** C28: A collection stores the node's log.  Whatever both stores have been
    through: when the node answers, its log of the attempt does not change
    meanwhile, the gateway takes records of the node's size and at most 128
    pages of 128 records are due, then the collection appends to the gateway's
    log of the attempt precisely the records that the node retains from the
    gateway's cursor on, each once, in order, numbered on, with the node's
    text, level, source, stream and time, and its stage where it has one
    (where the node has numbered beyond the cursor but retains nothing, one
    warning instead); of the old and the new records the gateway's store then
    holds exactly those from its dropped count on, and drops none that fit its
    budgets; and the cursor stands at the node's next number. *)
Theorem collect_exact lim nlim ops nops id row_at log next a clock :
  let g := run_store lim ops in let node k := mkNode (run_store nlim (nops k)) [] in
  0 <= max_bytes lim -> 0 <= attempt_max_bytes lim -> 0 <= max_bytes nlim -> 0 <= attempt_max_bytes nlim ->
  (16 <= max_record_bytes nlim <= max_record_bytes lim)%nat ->
  (forall k, find_attempt id (ndb (node k)) = Some (row_at k) /\ manifest_typed (_manifest (row_at k)) /\ a_next_seq (row_at k) = next /\ records_of id (ndb (node k)) = log) ->
  Forall stage_typed log -> find_attempt id g = Some a -> a_remote_cursor a <= next -> (length (from (a_remote_cursor a) log) <= 128 * 128)%nat ->
  exists g' added a' new warning, collect lim id (ask_node id node) clock false false g = (g', Ok added) /\
    find_attempt id g' = Some a' /\ a_remote_cursor a' = next /\
    Forall2 (fun r n => copied (r_payload r) n) new (from (a_remote_cursor a) log) /\ warned (missing log next (a_remote_cursor a)) next warning /\
    List.map r_seq (new ++ warning) = seqZ (a_next_seq a) (Z.of_nat (length (new ++ warning))) /\
    records_of id g' = List.filter (fun r => a_dropped a' <=? r_seq r) (records_of id g ++ new ++ warning) /\
    (bytes_of (records_of id g ++ new ++ warning) <= attempt_max_bytes lim -> retained_bytes g + bytes_of (new ++ warning) <= max_bytes lim ->
       records_of id g' = records_of id g ++ new ++ warning).
Proof.
  cbn zeta. intros H1 H2 H3 H4 [H5 H6] Hnode Hst Ha Hc Hlen. pose proof (good_run lim H1 H2 ops) as Hg.
  pose proof (fun k => proj1 (good_run nlim H3 H4 (nops k))) as Hwf.
  assert (Forall (row_typed (max_record_bytes nlim)) log) as Hrows.
  { destruct (Hnode 0%nat) as (_ & _ & _ & <-). apply Forall_forall. intros r Hr. unfold records_of in Hr. rewrite list_elem_of_In in Hr. apply filter_In in Hr as [Hr _].
    pose proof (typed_run nlim H5 (nops 0%nat)) as Ht. rewrite Forall_forall in Ht. by apply Ht, list_elem_of_In. }
  destruct (collect_loop_spec lim nlim id (run_store lim ops) a H1 H2 Hg (fun k => mkNode (run_store nlim (nops k)) []) row_at log next clock Hwf
    (fun k => proj1 (Hnode k)) (fun k => proj1 (proj2 (Hnode k))) Hrows Hst (fun k => proj2 (proj2 (proj2 (Hnode k)))) (fun k => proj1 (proj2 (proj2 (Hnode k)))) H6
    128 0 [] (a_remote_cursor a) (run_store lim ops)) as (g' & added & L1 & (a' & L3 & L4) & L5); [by exists a|done|exact Hlen|lia|].
  destruct (L5 [] (logged_start lim id (run_store lim ops) a Hg Ha)) as (new & warning & Q1 & Q2 & Q3). destruct Q2 as [[G1 _] G2 _ (b & G3 & _ & G4 & G5)].
  rewrite L3 in G3. injection G3 as <-. exists g', added, a', new, warning. split_and!; [unfold collect; by rewrite L1|done|done|done|done|done|exact G4|].
  intros F1 F2. destruct (G5 (conj F1 F2)) as [E _]. pose proof (logged_start lim id (run_store lim ops) a Hg Ha) as [_ _ _ (a0 & E0 & _ & E1 & _)].
  rewrite E0 in Ha. injection Ha as ->. change ([] ++ new ++ warning) with (new ++ warning) in *. rewrite app_nil_r in E1.
  rewrite G4, E, List.filter_app, <- E1. f_equal. apply forallb_filter_id, forallb_forall. intros r Hr. apply Z.leb_le. apply (in_map r_seq) in Hr. rewrite G2 in Hr.
  apply list_elem_of_In, elem_of_seqZ in Hr. pose proof (find_attempt_Some _ _ _ E0) as [Hin _]. destruct Hg as [[_ W2 _ _ _] _]. rewrite Forall_forall in W2. destruct (W2 a Hin) as [_ [_ ?] _]. lia.
Qed.

Definition ex_room : Limits := mkLimits 9000 9000 10 30%Q 64.
Definition ex_node_ops : list op :=
  [OpCreate "h" "vllm" JNull "v" "provision" "a" JNull [] 5%Q 0;
   OpAppend "a" [(mkLogRecord "one" "info" "setup.stdout" None None None (Some "stdout") None, 1);
                 (mkLogRecord "two" "warning" "setup.stderr" (Some "setup") None None (Some "stderr") None, 2)]].
Definition ex_gateway_ops : list op := [OpCreate "h" "vllm" JNull "v" "provision" "a" (JStr "p") [] 5%Q 0].
Definition ex_gateway : DB := run_store ex_room ex_gateway_ops.

Lemma collect_exact_witness : exists g' added, collect ex_room "a" (ask_node "a" (fun _ => mkNode (run_store ex_room ex_node_ops) [])) (fun _ => 7) false false ex_gateway = (g', Ok added) /\
  length (records_of "a" g') = 2%nat /\ num_in "remote_cursor" (match get "a" g' with Ok m => m | Err _ => [] end) = Some 2.
Proof.
  destruct (find_attempt "a" (run_store ex_room ex_node_ops)) as [na|] eqn:Hna; [|vm_compute in Hna; discriminate Hna].
  destruct (find_attempt "a" ex_gateway) as [a|] eqn:Ha; [|vm_compute in Ha; discriminate Ha].
  assert (Some na = find_attempt "a" (run_store ex_room ex_node_ops)) as E1 by done. vm_compute in E1. injection E1 as ->.
  assert (Some a = find_attempt "a" ex_gateway) as E2 by done. vm_compute in E2. injection E2 as ->.
  match type of Hna with _ = Some ?x => match type of Ha with _ = Some ?y =>
    destruct (collect_exact ex_room ex_room ex_gateway_ops (fun _ => ex_node_ops) "a" (fun _ => x) (records_of "a" (run_store ex_room ex_node_ops)) 2 y (fun _ => 7))
      as (g' & added & a' & new & warning & R1 & R2 & R3 & R4 & R5 & R6 & R7 & R8) end end;
    [cbn; lia|cbn; lia|cbn; lia|cbn; lia|cbn; lia| | |exact Ha|cbn; lia|vm_compute; lia|].
  - intros k. split_and!; [exact Hna| |reflexivity|reflexivity]. split; vm_compute; try (eexists; reflexivity); exact I.
  - repeat constructor; vm_compute; eexists; reflexivity.
  - exists g', added. split; [exact R1|]. split.
    + assert (collect ex_room "a" (ask_node "a" (fun _ => mkNode (run_store ex_room ex_node_ops) [])) (fun _ => 7) false false ex_gateway = (g', Ok added)) as E by exact R1.
      vm_compute in E. injection E as <- _. reflexivity.
    + unfold get. rewrite R2. unfold num_in. rewrite manifest_cursor, R3. reflexivity.
Defined.

(** *** Fencing *)

Lemma prune_attempts lim now d a : a ∈ attempts (prune lim now d) -> a ∈ attempts d.
Proof. unfold prune. destruct (_ || _); [|done]. cbn. rewrite !list_elem_of_In. by intros [? _]%filter_In. Qed.

Lemma dget_manifest_other k a : k ∉ ["incomplete"; "diagnostics"; "next_seq"; "remote_cursor"; "dropped_records"; "retained_bytes"] -> dget k (_manifest a) = dget k (a_metadata a).
Proof.
  intros Hk. rewrite dget_manifest by set_solver. rewrite dget_dupdate by (apply (bool_decide_unpack _); vm_compute; exact I). cbn. by repeat rewrite decide_False by set_solver.
Qed.

(** A collection that returns found the attempt. *)
Lemma collect_tracked lim id ask clock now g d' added : Forall (fun a => dwf (a_metadata a)) (attempts g) ->
  collect lim id ask clock false false (prune lim now g) = (d', Ok added) -> tracked id (prune lim now g).
Proof.
  intros Hg H. destruct (find_attempt id (prune lim now g)) as [a|] eqn:Ha.
  - exists a. split; [done|]. apply find_attempt_Some in Ha as [Ha _]. rewrite Forall_forall in Hg. by apply Hg, (prune_attempts lim now).
  - exfalso. revert H. unfold collect. cbn [collect_loop]. unfold bind at 1, _request, bind at 1, query, get. by rewrite Ha.
Qed.

(** A host that is let through although the probe named a live phase: the node
    has sent a page since on which that phase is complete. *)
Lemma let_through lim ask clock collect_logs now host block v g g' : Forall (fun a => dwf (a_metadata a)) (attempts g) ->
  _reconcile_host true lim (Reported (Some v)) (fun id => collect lim id (ask id) clock false false ;!! ret tt) collect_logs now host block g = (g', Ok false) ->
  exists k action c page info, ask (holder v) k action c = APage page /\ probed v (phases_in (page_attempt page)) = Some info /\
    dget "status" info = Some (JStr "complete").
Proof.
  intros Hg. unfold _reconcile_host. cbn [negb]. intros H. unbind.
  match goal with H : holder_match _ _ _ _ _ = (?d1, Ok ?f) |- _ => rename H into Hm; rename f into found; rename d1 into g1 end.
  destruct found as [m|]; unbind.
  2: { match goal with H : match ?l with [] => _ | _ => _ end _ = _ |- _ => destruct l; [done|apply bind_inv in H as (? & ? & _ & H); done] end. }
  unfold holder_match in Hm. unbind. match goal with H : attempts_of _ _ _ _ _ = _ |- _ => unfold attempts_of, history in H; injection H as <- <- end.
  match goal with H : ret (find _ _) _ = _ |- _ => injection H as <- Hfind end.
  assert (id_in m = holder v) as Hid. { apply find_some in Hfind as [_ Hf%bool_decide_eq_true]. unfold id_in, get_or. by rewrite Hf. }
  rewrite Hid in *. match goal with H : collected _ _ _ = _ |- _ => unfold collected in H; rename H into Hcol end.
  match goal with H : (if ?b then _ else _) _ = _ |- _ => destruct b eqn:Hb; [|apply bind_inv in H as (? & ? & _ & H); done] end. apply andb_true_iff in Hb as [Hx Hb].
  destruct ((collect lim (holder v) _ clock false false ;!! ret tt) (prune lim now g)) as [g2 [[]|e]] eqn:Hc; [|injection Hcol as <- <-; done].
  injection Hcol as <- _. unbind. match goal with H : collect _ _ _ _ _ _ _ = _ |- _ => rename H into Hcollect end.
  match goal with H : get (holder v) _ = Ok ?x |- _ => rename H into Hget; rename x into current end.
  assert (tracked (holder v) (prune lim now g)) as Htr by by eapply collect_tracked.
  apply collect_phases in Hcollect as (k & action & c & page & Hpage & b & Hbf & _ & Hbp); [|done].
  unfold get in Hget. rewrite Hbf in Hget. injection Hget as <-. revert Hb. unfold probed_phase.
  assert (obj_of (get_or "remote_phases" JNull (_manifest b)) = phases_in (page_attempt page)) as ->.
  { unfold get_or at 1. rewrite dget_manifest_other, Hbp by (apply (bool_decide_unpack _); vm_compute; exact I). cbn [default]. unfold phases_in, get_or.
    by destruct (dget "phases" (page_attempt page)). }
  destruct (probed v (phases_in (page_attempt page))) as [info|] eqn:Hpr; [|done]. intros Hs%bool_decide_eq_true. by exists k, action, c, page, info.
Qed.

(** C26: What the fence rests on.  Whatever the node does between the probe and
    the collection and after it, and whatever the gateway's history holds, a
    gateway that records lets a new operation through only when the probe found
    no live phase in any attempt that the node retains (a launcher beside a
    dead group does not count), or when the node has since sent a page of the
    named attempt on which the phase that the probe named (the last one, when
    it is not listed) is complete; a host that cannot be reached is let through
    exactly when the caller does not ask for a block.  Without recording every
    host is let through. *)
Theorem reconcile_fences nlim t group_dead pnow recording lim ask clock collect_logs now host block d d' live g g' :
  NoDup (List.map a_id (attempts d)) -> Forall phases_ok (of_host host d) -> Forall (fun a => dwf (a_metadata a)) (attempts g) ->
  active nlim t group_dead pnow host d = Ok (d', live) ->
  let reconcile probe := _reconcile_host recording lim probe (fun id => collect lim id (ask id) clock false false ;!! ret tt) collect_logs now host block g in
  (reconcile (Reported live) = (g', Ok false) ->
     recording = false \/
     (forall a ph info, a ∈ of_host host d -> prunable nlim t d a = false -> (ph, info) ∈ phases_in (a_metadata a) -> is_live group_dead (obj_of info) = false) \/
     exists v k action c page info, live = Some v /\ ask (holder v) k action c = APage page /\
       probed v (phases_in (page_attempt page)) = Some info /\ dget "status" info = Some (JStr "complete")) /\
  (forall e b, reconcile (Unreachable e) = (g', Ok b) -> b = recording && block).
Proof.
  intros Hnd Hok Hg Hact. cbn zeta. destruct recording; [|split; [by left|by intros e b [= _ <-]]]. split.
  - intros H. right. destruct live as [v|].
    + right. apply let_through in H as (k & action & c & page & info & H); [|done]. by exists v, k, action, c, page, info.
    + left. destruct (active_spec nlim t group_dead pnow host d Hnd Hok) as (d1 & live1 & H1 & [H2 _] & _). rewrite H1 in Hact. injection Hact as -> ->. by apply H2.
  - intros e b H. unfold _reconcile_host in H. cbn [negb] in H. apply bind_inv in H as (d1 & l & _ & H).
    destruct l; [by injection H as _ <-|]. apply bind_inv in H as (d2 & ? & _ & H). by injection H as _ <-.
Qed.

(** The node and the gateway of two attempts: while both are starting the probe
    names the phase of [a]. *)
Definition ex_answers (d : DB) (id : string) (k : nat) (action : string) (c : Z) : Answer :=
  match answer (mkConfig id "" "" JNull "" "" "" false c) (mkNode d []) with RPage p => APage p | RUnavailable => ARefused "Remote attempt evicted or unavailable" end.
Definition ex_both : DB := run_store ex_room [OpCreate "h" "vllm" JNull "v" "provision" "a" (JStr "p") [] 5%Q 0; OpCreate "h" "vllm" JNull "v" "provision" "b" (JStr "p") [] 6%Q 0].

Lemma reconcile_fences_witness : exists d' live, active ex_limits 7%Q (fun p => p =? 42) 9 "h" ex_node = Ok (d', live) /\
  forall g', _reconcile_host true ex_room (Reported live) (fun id => collect ex_room id (ex_answers d' id) (fun _ => 7) false false ;!! ret tt) (fun _ => ret tt) 9%Q "h" true ex_both = (g', Ok false) ->
    exists v k action c page info, live = Some v /\ ex_answers d' (holder v) k action c = APage page /\
      probed v (phases_in (page_attempt page)) = Some info /\ dget "status" info = Some (JStr "complete").
Proof.
  destruct (active ex_limits 7%Q (fun p => p =? 42) 9 "h" ex_node) as [[d' live]|] eqn:Hact; [|vm_compute in Hact; discriminate Hact].
  exists d', live. split; [reflexivity|]. intros g' H.
  destruct (reconcile_fences ex_limits 7%Q (fun p => p =? 42) 9 true ex_room (ex_answers d') (fun _ => 7) (fun _ => ret tt) 9%Q "h" true ex_node d' live ex_both g') as [R _].
  - apply (bool_decide_unpack _). vm_compute. exact I.
  - apply (bool_decide_unpack _). vm_compute. exact I.
  - apply (bool_decide_unpack _). vm_compute. exact I.
  - exact Hact.
  - destruct (R H) as [|[Hnone|Hsome]]; [discriminate| |exact Hsome]. exfalso.
    destruct (of_host "h" ex_node) as [|a l] eqn:Ha; [vm_compute in Ha; discriminate Ha|]. vm_compute in Ha. injection Ha as <- <-.
    eassert (is_live (fun p => p =? 42) _ = false) as Hl by (eapply Hnone; [by left|vm_compute; reflexivity|by left]).
    vm_compute in Hl. discriminate Hl.
Defined.

(** Another live phase is not looked for again.  Two phases live when the host is
    probed; the one that the probe names completes before the collection, and
    the host is let through while the other one, which the node records as
    open, still lives. *)
Theorem second_phase_let_through : exists d' v d2 g' a info,
  active ex_limits 7%Q (fun _ => false) 9 "h" ex_node = Ok (d', Some v) /\
  update_phase (holder v) (live_phase v) [("status", JStr "complete"); ("exit_status", JNum 0)] 10 d' = Ok d2 /\
  _reconcile_host true ex_room (Reported (Some v)) (fun id => collect ex_room id (ex_answers d2 id) (fun _ => 7) false false ;!! ret tt) (fun _ => ret tt) 9%Q "h" true ex_both = (g', Ok false) /\
  a ∈ of_host "h" d2 /\ a_id a <> holder v /\ ("p2", info) ∈ phases_in (a_metadata a) /\ is_live (fun _ => false) (obj_of info) = true.
Proof.
  do 4 eexists. destruct (of_host "h" (match update_phase "a" "p1" [("status", JStr "complete"); ("exit_status", JNum 0)] 10
    (match active ex_limits 7%Q (fun _ => false) 9 "h" ex_node with Ok (d, _) => d | Err _ => empty_store end) with Ok d => d | Err _ => empty_store end)) as [|x [|a l]] eqn:Ha;
    [vm_compute in Ha; discriminate Ha..|].
  exists a. vm_compute in Ha. injection Ha as _ <- _. eexists. split_and!; [vm_compute; reflexivity..|right; by left|vm_compute; discriminate|by left|vm_compute; reflexivity].
Qed.
