(* ===== verification/Recovery.v ===== *)
(** * Failure classification and bounded retries
    ([inference_proxy/provisioning/recovery.py])

    The symptom patterns as they are written, the decision list over them, the
    back-off policy on binary64 numbers, and [setup_plan_id].  An exception is
    its text, the classes of its chain of causes and whether it marks a
    maintenance boundary. *)

From Stdlib Require Import Ascii.
From S2P Require Import Prelude PyDict Json PyFloat PyRegex LogStore.
Local Open Scope Z_scope.

Inductive FailureClass := TRANSIENT | CONFIGURATION | UNSUPPORTED_HARDWARE | MAINTENANCE | TERMINAL.

#[export] Instance FailureClass_eq : EqDecision FailureClass.
Proof. solve_decision. Defined.

Definition class_value (c : FailureClass) : string :=
  match c with
  | TRANSIENT => "transient" | CONFIGURATION => "configuration" | UNSUPPORTED_HARDWARE => "unsupported_hardware"
  | MAINTENANCE => "maintenance" | TERMINAL => "terminal"
  end.

Definition NEXT_ACTIONS (c : FailureClass) : string :=
  match c with
  | TRANSIENT => "Retry setup; verified stages resume automatically"
  | CONFIGURATION => "Correct the setup configuration before retrying"
  | UNSUPPORTED_HARDWARE => "Select supported hardware or remove the host from managed setup"
  | MAINTENANCE => "Complete the required maintenance, then retry setup"
  | TERMINAL => "Inspect the retained logs and diagnostics before retrying setup"
  end.

Definition _TRANSPORT_ERROR_NAMES : list string := ["SSHConnectionError"; "SSHCommandTimeoutError"; "ConnectionError"].

Definition _MAINTENANCE_PATTERNS : list string :=
  ["reboot_required"; "maintenance_required"; "driver maintenance is waiting"; "then retry setup"].

Definition _UNSUPPORTED_PATTERNS : list string :=
  ["unsupported_hardware"; "unsupported (?:gpu|hardware|architecture|arch)"; "no nvidia gpu pci device";
   "compute capability .*not supported"; "requires compute capability"; "no cuda-capable device"].

Definition _TRANSIENT_PATTERNS : list string :=
  ["could not resolve host"; "temporary failure in name resolution"; "name or service not known"; "network is unreachable";
   "no route to host"; "connection (?:refused|reset|timed out|closed|aborted)"; "closed by remote host";
   "ssh_exchange_identification"; "kex_exchange_identification"; "broken pipe"; "connection attempt failed";
   "failed to connect"; "unable to access"; "operation timed out"; "\btimeout\b"; "\btimed out\b"; "failed to download";
   "download failed"; "cannot download"; "error: failed to download metadata"; "wget: .*(?:unable|failed|error|timed out)";
   "curl: \((?:6|7|28|35|52|56)\)"; "resource temporarily unavailable"; "temporarily unavailable";
   "mirror .* (?:failed|unavailable)"; "dnf.*(?:timeout|connection|mirror|repodata|metadata)"; "status code: 5\d\d\b";
   "returned error: 5\d\d\b"; "\berror:? 5\d\d\b"; "\b5\d\d\b.{0,40}https?://";
   "\b5\d\d\b.*(?:service unavailable|bad gateway|gateway time|internal server error)"; "tls handshake timeout"; "i/o error";
   "input/output error"; "git (?:clone|fetch).*(?:failed|timed out|unable)"; "named pipe.*unavailable"].

Definition _PERMANENT_NETWORK_PATTERNS : list string :=
  ["401 unauthorized"; "403 forbidden"; "status code: 40[13]\b"; "returned error: 40[13]\b"; "\berror:? 40[13]\b";
   "\b40[13]\b.{0,40}https?://"; "https?://\S*.*\b40[13]\b"; "\b40[134]\b.*(?:not found|no such|unauthorized|forbidden)";
   "(?:not found|no such).*\b40[34]\b"; "permission denied \(publickey"; "authentication failed"; "invalid user";
   "access denied"; "no such user"; "certificate (?:verify|verification) (?:failed|error)"; "ssl certificate problem";
   "certificate has expired"; "peer certificate cannot be authenticated"; "unable to get local issuer certificate";
   "self.signed certificate"; "ssl: certificate_verify_failed"; "host key verification failed";
   "remote host identification has changed"; "curl: \((?:1|2|3|5|60|77|90)\)"].

Definition _CONFIGURATION_PATTERNS : list string :=
  ["invalid configuration"; "configuration (?:error|invalid)"; "missing required"; "is required for node provisioning";
   "unknown model"; "artifact .*not found"; "not found in (?:the )?artifact"; "401 unauthorized"; "403 forbidden";
   "invalid (?:token|credential|sha256|configuration|selection)"; "sha-?256 verification failed"; "refusing to";
   "not permitted"; "does not support"; "unsupported option"].

(** [re.compile("|".join(patterns), re.IGNORECASE)] *)
Definition any_of (patterns : list string) : re := compile true false (String.concat "|" patterns).
Definition _UNSUPPORTED_RE : re := any_of _UNSUPPORTED_PATTERNS.
Definition _MAINTENANCE_RE : re := any_of _MAINTENANCE_PATTERNS.
Definition _PERMANENT_RE : re := any_of _PERMANENT_NETWORK_PATTERNS.
Definition _TRANSIENT_RE : re := any_of _TRANSIENT_PATTERNS.
Definition _CONFIGURATION_RE : re := any_of _CONFIGURATION_PATTERNS.

(** An exception of the chain of causes: the name of its class and whether that
    is a [TimeoutError]. *)
Record Cause := mkCause { class_name : string; is_timeout : bool }.

(** [chain] starts with the exception itself. *)
Record Failure := mkFailure { text : string; chain : list Cause; at_boundary : bool }.

Definition is_transport (c : Cause) : bool := is_timeout c || bool_decide (class_name c ∈ _TRANSPORT_ERROR_NAMES).

Definition nl : string := String newline "".

Definition classify_failure (error : Failure) (output : string) : FailureClass :=
  if at_boundary error then MAINTENANCE
  else
    let t := text error +:+ nl +:+ output in
    if found _MAINTENANCE_RE t then MAINTENANCE
    else if found _PERMANENT_RE t then CONFIGURATION
    else if found _UNSUPPORTED_RE t then UNSUPPORTED_HARDWARE
    else if existsb is_transport (chain error) then TRANSIENT
    else if found _TRANSIENT_RE t then TRANSIENT
    else if found _CONFIGURATION_RE t then CONFIGURATION
    else TERMINAL.

Definition is_retryable (error : Failure) (output : string) : bool := bool_decide (classify_failure error output = TRANSIENT).

Definition next_action (error : option Failure) (output : string) : string :=
  match error with None => NEXT_ACTIONS TERMINAL | Some e => NEXT_ACTIONS (classify_failure e output) end.

(** ** Retry policy *)

Record RetryPolicy := mkPolicy {
  max_attempts : Z;
  base_delay_seconds : float;
  max_delay_seconds : float;
  jitter : float;
}.

(** [__post_init__] *)
Definition policy_validate (p : RetryPolicy) : result string RetryPolicy :=
  raise_if (max_attempts p <? 1) "max_attempts must be at least 1" ;?
  raise_if (fleb (base_delay_seconds p) 0%Q) "base_delay_seconds must be greater than zero" ;?
  raise_if (fltb (max_delay_seconds p) (base_delay_seconds p)) "max_delay_seconds must be >= base_delay_seconds" ;?
  raise_if (negb (fleb 0%Q (jitter p) && fltb (jitter p) 1%Q)) "jitter must be in [0, 1)" ;?
  Ok p.

Definition max_retries (p : RetryPolicy) : Z := max_attempts p - 1.

(** [min(a, b)] and [max(a, b)] keep the first of equal arguments. *)
Definition py_min (a b : float) : float := if fltb b a then b else a.
Definition py_max (a b : float) : float := if fltb a b then b else a.

Definition ceiling (p : RetryPolicy) (retry_number : Z) : float :=
  py_min (max_delay_seconds p) (fmul (base_delay_seconds p) (pow2 (retry_number - 1))).

(** [rand] is what [random.random()] returned. *)
Definition delay (p : RetryPolicy) (retry_number : Z) (rand : float) : result string float :=
  raise_if (retry_number <? 1) "retry_number is 1-based" ;?
  let c := ceiling p retry_number in
  Ok (if feqb (jitter p) 0%Q then c
      else let spread := fmul c (jitter p) in
           py_max 0%Q (py_min (max_delay_seconds p) (fadd (fsub c spread) (fmul (fmul rand 2%Q) spread)))).

Example classify_examples :
  classify_failure (mkFailure "Permission denied (publickey)" [mkCause "SSHConnectionError" false] false) "" = CONFIGURATION /\
  classify_failure (mkFailure "lost" [mkCause "ProvisioningError" false; mkCause "SSHConnectionError" false] false) "" = TRANSIENT /\
  classify_failure (mkFailure "curl: (28) Timeout was reached" [] false) "" = TRANSIENT /\
  classify_failure (mkFailure "curl: (60) SSL certificate problem" [] false) "" = CONFIGURATION /\
  classify_failure (mkFailure "Status code: 503 for https://mirror/x" [] false) "" = TRANSIENT /\
  classify_failure (mkFailure "setup exceeded its 3600s stage deadline" [mkCause "SetupDeadlineError" false] false) "" = TERMINAL.
Proof. by vm_compute. Qed.

(** ** Plan identity *)

Section plan.
(** [hashlib.sha256(...).hexdigest()] *)
Context (sha256 : string -> string).

(** [json.dumps(j, sort_keys=True, separators=(",", ":"))] *)
Fixpoint canonical (j : json) : string :=
  match j with
  | JList l => "[" +:+ String.concat "," (List.map canonical l) +:+ "]"
  | JObj d =>
      let members := sort_by (fun a b => String.leb (fst a) (fst b)) (List.map (fun kv => (fst kv, canonical (snd kv))) d) in
      "{" +:+ String.concat "," (List.map (fun kv => quoted (fst kv) +:+ ":" +:+ snd kv) members) +:+ "}"
  | _ => render j
  end.

Definition setup_plan_id (inputs : list (string * json)) : string := "sha256:" +:+ sha256 (canonical (JObj inputs)).
End plan.

(** ** Theorems *)

(** The permanent symptoms that are plain phrases. *)
Definition permanent_phrases : list string :=
  ["401 unauthorized"; "403 forbidden"; "permission denied (publickey"; "authentication failed"; "invalid user"; "access denied";
   "no such user"; "ssl certificate problem"; "certificate has expired"; "peer certificate cannot be authenticated";
   "unable to get local issuer certificate"; "ssl: certificate_verify_failed"; "host key verification failed";
   "remote host identification has changed"].

Lemma permanent_split : _PERMANENT_RE = alternatives (List.map (compile true false) _PERMANENT_NETWORK_PATTERNS).
Proof. reflexivity. Qed.

Lemma phrase_pattern phrase : phrase ∈ permanent_phrases ->
  exists p, p ∈ _PERMANENT_NETWORK_PATTERNS /\ compile true false p = literal (String.list_ascii_of_string phrase).
Proof.
  intros H. destruct (decide (phrase = "permission denied (publickey")) as [->|Hne]; [exists "permission denied \(publickey"; split; [apply (bool_decide_unpack _); vm_compute; exact I|reflexivity]|].
  exists phrase. unfold permanent_phrases in H. repeat (apply elem_of_cons in H as [->|H]; [first [done | split; [apply (bool_decide_unpack _); vm_compute; exact I|reflexivity]]|]).
  by apply not_elem_of_nil in H.
Qed.

(** C11: A credential, authorization or trust failure is never retried: whatever
    the exception's class and causes, when its text or the captured output
    mentions one of the permanent phrases, in any spelling and anywhere, the
    failure is not transient. *)
Theorem permanent_never_retried error output phrase u w v :
  phrase ∈ permanent_phrases -> text error +:+ nl +:+ output = u +:+ w +:+ v -> py_lower w = phrase ->
  is_retryable error output = false.
Proof.
  intros Hp Ht Hw. destruct (phrase_pattern phrase Hp) as (p & Hin & Hlit). unfold is_retryable. apply bool_decide_eq_false. unfold classify_failure.
  assert (found _PERMANENT_RE (text error +:+ nl +:+ output) = true) as Hfound.
  { rewrite permanent_split, Ht. eapply found_literal; [|exact Hlit|exact Hw]. by apply list_elem_of_In, in_map, list_elem_of_In. }
  destruct (at_boundary error); [done|]. cbn zeta. rewrite Hfound. by destruct (found _MAINTENANCE_RE _).
Qed.

Lemma permanent_never_retried_witness :
  is_retryable (mkFailure "ssh: Permission DENIED (publickey,password)." [mkCause "SSHConnectionError" true] false) "" = false.
Proof.
  apply (permanent_never_retried _ "" "permission denied (publickey" "ssh: " "Permission DENIED (publickey" (",password)." +:+ nl));
    [apply (bool_decide_unpack _); vm_compute; exact I|reflexivity|reflexivity].
Defined.

Lemma py_min_bounds a b : (py_min a b <= a)%Q /\ ((0 <= a)%Q -> (0 <= b)%Q -> (0 <= py_min a b)%Q).
Proof.
  unfold py_min. destruct (fltb b a) eqn:H; split; try done; [apply Qlt_le_weak; by apply fltb_true|apply Qle_refl].
Qed.
Lemma py_max_bounds b m : (0 <= m)%Q -> (b <= m)%Q -> (0 <= py_max 0 b)%Q /\ (py_max 0 b <= m)%Q.
Proof.
  unfold py_max. intros Hm Hb. destruct (fltb 0%Q b) eqn:H; split; try done. apply Qlt_le_weak; by apply fltb_true.
Qed.

(** The wait before a retry is never negative and never exceeds the policy's
    maximum, for every accepted policy, retry number and random draw. *)
Lemma delay_bounds p n rand : policy_validate p = Ok p -> 1 <= n ->
  exists d, delay p n rand = Ok d /\ (0 <= d)%Q /\ (d <= max_delay_seconds p)%Q.
Proof.
  intros Hv Hn. unfold policy_validate in Hv. inv_ok. unfold delay. rewrite (proj2 (Z.ltb_ge _ _)) by lia. cbn. eexists. split; [done|].
  repeat match goal with
  | H : fleb (base_delay_seconds p) _ = false |- _ => apply fleb_false in H
  | H : fltb (max_delay_seconds p) _ = false |- _ => apply fltb_false in H
  end.
  assert (0 <= max_delay_seconds p)%Q as Hmax by (eapply Qle_trans; [apply Qlt_le_weak|]; eassumption).
  assert (0 <= fmul (base_delay_seconds p) (pow2 (n - 1)))%Q as Hstep.
  { apply rnd_nonneg, Qmult_le_0_compat; [by apply Qlt_le_weak|apply Qlt_le_weak, pow2_pos]. }
  destruct (feqb (jitter p) 0%Q).
  - unfold ceiling. destruct (py_min_bounds (max_delay_seconds p) (fmul (base_delay_seconds p) (pow2 (n - 1)))) as [H1 H2]. auto.
  - apply py_max_bounds; [done|]. apply py_min_bounds.
Qed.

(** The plan identity depends on the inputs and not on the order in which they
    were collected. *)
Theorem plan_id_order_independent sha inputs inputs' : inputs ≡ₚ inputs' -> NoDup (List.map fst inputs) ->
  setup_plan_id sha inputs = setup_plan_id sha inputs'.
Proof.
  intros Hp Hn. unfold setup_plan_id. cbn [canonical]. do 6 f_equal. apply (sort_by_key_perm fst).
  - by apply Permutation_map.
  - change (NoDup (List.map fst (List.map (fun kv => (kv.1, canonical kv.2)) inputs))). by rewrite map_map.
Qed.

Lemma plan_id_order_independent_witness : setup_plan_id (fun s => s) [("b", JNum 1); ("a", JStr "x")] = setup_plan_id (fun s => s) [("a", JStr "x"); ("b", JNum 1)].
Proof. apply plan_id_order_independent; [apply Permutation_swap|repeat constructor; set_solver]. Defined.
