(* ===== verification/Setup.v ===== *)
(** * Running setup on a host
    ([inference_proxy/provisioning/provisioner.py]: [_run_setup],
    [_run_setup_once], [_run_setup_with_retries], [_record_step_checkpoint],
    [_setup_resume_env], [_record_generation], [_log],
    [_record_failure_classification])

    [setup.sh] prints lines; its markers become checkpoints of the attempt in
    the log store, and its failures are classified and retried.  What the script
    prints and how a run ends, what the node answers and the clocks are given by
    the run. *)

From Stdlib Require Import Ascii.
From stdpp Require Import pretty.
From S2P Require Import Prelude PyDict Json PyFloat PyRegex LogStore RelaunchRecovery Recovery.
Local Open Scope Z_scope.

Definition STEP_PATTERN : re := compile false false "\[STEP:(\w+):(START|OK|SKIP|FAIL|WARN)\]".
Definition RESUME_PATTERN : re := compile false false "\[RESUME:(maintenance_required|reboot_required):([^\]\r\n]+)\]".

(** [ProvisioningStep(name)]; [None] is the [ValueError]. *)
Definition all_steps : list ProvisioningStep :=
  [PENDING; POWERING_ON; PREFLIGHT; UPLOADING_SCRIPTS; SYSTEM_UPDATE; SYSTEM_PREREQUISITES; NVIDIA_DRIVER; CUDA_TOOLKIT; VLLM_INSTALL;
   LLAMACPP_INSTALL; GENERATION_ACTIVATE; NFS_MOUNT; FIREWALL; LLMFIT_INSTALL; STARTING_VLLM; STARTING_LLAMACPP; HEALTH_POLL;
   REGISTERING; RELAUNCH_VALIDATING; STEP_DRAINING; STOPPING_VLLM; STOPPING_LLAMACPP; DEREGISTERING; ROLLING_BACK; TEARDOWN_COMPLETE;
   COMPLETE; STEP_FAILED].
Definition step_of_name (name : string) : option ProvisioningStep := find (fun s => bool_decide (step_value s = name)) all_steps.

(** What a run of [setup.sh] changes: the history, the step that failures are
    attributed to, and the steps announced in etcd, latest first. *)
Record State := mkState { db : DB; step_name : string; announced : list ProvisioningStep }.

(** [SetupResumeRequiredError(state, reason)] *)
Definition resume_error (reason : string) (cause : option Failure) : Failure :=
  mkFailure reason (mkCause "SetupResumeRequiredError" false :: match cause with Some f => chain f | None => [] end) true.
Definition key_error (id : string) : Failure := mkFailure ("'" +:+ id +:+ "'") [mkCause "KeyError" false] false.

Section setup.
(** The limits of the log store; whether the node records its own output;
    [json.loads]; the attempt of this operation, [None] without a log store. *)
Context (lim : Limits) (remote_logs : bool) (json_loads : string -> option json) (attempt : option string) (hostname : string).

(** A step that may raise, with the state it leaves behind. *)
Definition Out : Type := State * option Failure.
Definition andthen (x : Out) (f : State -> Out) : Out := match x with (st, None) => f st | (st, Some e) => (st, Some e) end.
Definition in_store (r : result Failure DB) (st : State) : Out :=
  match r with Ok d => (mkState d (step_name st) (announced st), None) | Err e => (st, Some e) end.
Definition or_key_error (id : string) (r : result StoreError DB) : result Failure DB :=
  match r with Ok d => Ok d | Err _ => Err (key_error id) end.

Definition _log (level msg : string) (stream : option string) (now : Z) (d : DB) : result Failure DB :=
  if remote_logs && is_some stream then Ok d
  else match attempt with
       | None => Ok d
       | Some id => or_key_error id (let? (d, _) := append lim id (mkLogRecord msg level "gateway" None None None stream None) now d in Ok d)
       end.

Definition starts_with (p s : string) : bool := bool_decide (String.substring 0 (String.length p) s = p).
Definition ends_with (p s : string) : bool := bool_decide (String.substring (String.length s - String.length p) (String.length p) s = p).

(** The document of a generation marker; [None]: no marker, or an invalid one. *)
Definition generation_of (line : string) : option json :=
  if starts_with "[GENERATION:" line && ends_with "]" line then
    match json_loads (String.substring 12 (String.length line - 13) line) with
    | Some (JObj sel) => match dget "runtime_path" sel with Some (JStr _) => Some (JObj sel) | _ => None end
    | _ => None
    end
  else None.

Definition _record_generation (line : string) (d : DB) : result Failure DB :=
  match generation_of line, attempt with
  | Some selected, Some id => or_key_error id (update id [("selected_generation", selected)] d)
  | _, _ => Ok d
  end.

(** The resume environment of [setup.sh]. *)
Definition _setup_resume_env (plan_id : option string) (d : DB) : list (string * string) :=
  match plan_id with
  | Some p => if str_truthy p then
                [("QIIP_PLAN_ID", p);
                 ("QIIP_RESUME_STAGES", String.concat "," (sort_by String.leb (List.map fst (resumable_checkpoints hostname p d))))]
              else []
  | None => []
  end.

Definition checkpoint_status (status : string) : option string :=
  dget status [("START", "running"); ("OK", "completed"); ("SKIP", "skipped"); ("FAIL", "failed")].

Definition _record_step_checkpoint (step status line : string) (now : Z) (d : DB) : DB :=
  match attempt, checkpoint_status status with
  | Some id, Some value =>
      match record_checkpoint id step value (Some (cut 512 line)) now d with Ok d => d | Err _ => d end
  | _, _ => d
  end.

(** [_update_state] for a step: the history row, then etcd. *)
Definition announce (s : ProvisioningStep) (st : State) : Out :=
  andthen (in_store (match attempt with
                     | Some id => or_key_error id (update id [("stage", JStr (step_value s))] (db st))
                     | None => Ok (db st)
                     end) st)
    (fun st => (mkState (db st) (step_name st) (s :: announced st), None)).

Definition marker_level (status : string) : string :=
  if bool_decide (status = "FAIL") then "error" else if bool_decide (status = "WARN") then "warning" else "info".

(** A step marker on standard output. *)
Definition on_marker (step status line : string) (now : Z) (st : State) : Out :=
  let st := mkState (_record_step_checkpoint step status line now (db st)) step (announced st) in
  andthen (if bool_decide (status ∈ ["START"; "WARN"]) then
             match step_of_name step with Some s => announce s st | None => (st, None) end
           else (st, None))
    (fun st => in_store (_log (marker_level status) ("[STEP:" +:+ step +:+ ":" +:+ status +:+ "]") None now (db st)) st).

Definition marker (line : string) : option (string * string) :=
  match search STEP_PATTERN line with
  | Some m => match group "1" m, group "2" m with Some step, Some status => Some (step, status) | _, _ => None end
  | None => None
  end.

Definition resume_of (line : string) : option string := match search RESUME_PATTERN line with Some m => group "2" m | None => None end.

(** One line of output, with the clock at it. *)
Definition on_line (stream line : string) (now : Z) (st : State) : Out :=
  if bool_decide (stream = "stdout") then
    andthen (in_store (_record_generation line (db st)) st) (fun st =>
    match marker line with
    | Some (step, status) => on_marker step status line now st
    | None => in_store (_log "debug" line (Some "stdout") now (db st)) st
    end)
  else in_store (_log "warning" line (Some "stderr") now (db st)) st.

(** The lines in order; the last resume marker is kept whatever happens. *)
Fixpoint on_lines (l : list (string * string * Z)) (resume : option string) (st : State) : State * option string * option Failure :=
  match l with
  | [] => (st, resume, None)
  | (stream, line, now) :: l =>
      let resume := match resume_of line with Some r => Some r | None => resume end in
      match on_line stream line now st with
      | (st, None) => on_lines l resume st
      | (st, Some e) => (st, resume, Some e)
      end
  end.

(** How a run ends: normally, with an exception, or because the deadline of the
    whole run cancelled it. *)
Inductive Ending := Finished | Failed (e : Failure) | DeadlineCancelled.

(** One run of the script; [expired]: the deadline had passed when it ended. *)
Record Run := mkRun { lines : list (string * string * Z); ending : Ending; expired : bool }.

(** What [_run_setup] raises; a cancellation passes its handler by, so that a
    resume marker does not replace it. *)
Inductive Outcome := Done | Raises (e : Failure) | CancelledHere.

Definition _run_setup (r : Run) (st : State) : State * Outcome :=
  let '(st, resume, raised) := on_lines (lines r) None st in
  (st, match raised, ending r with
       | None, DeadlineCancelled => CancelledHere
       | _, _ =>
           let raised := match raised, ending r with Some e, _ => Some e | None, Failed e => Some e | None, _ => None end in
           match resume, raised with
           | Some reason, e => Raises (resume_error reason e)
           | None, Some e => Raises e
           | None, None => Done
           end
       end).

Definition deadline_error (seconds : string) : Failure :=
  mkFailure ("setup exceeded its " +:+ seconds +:+ "s stage deadline") [mkCause "SetupDeadlineError" false] false.

(** [asyncio.timeout] turns the cancellation of an expired deadline into a
    [TimeoutError]; a [TimeoutError] is replaced when the deadline has passed. *)
Definition _run_setup_once (seconds : string) (r : Run) (st : State) : State * result Failure unit :=
  let '(st, res) := _run_setup r st in
  (st, match res with
       | Done => Ok tt
       | CancelledHere => Err (deadline_error seconds)
       | Raises e => if match chain e with c :: _ => is_timeout c | [] => false end && expired r then Err (deadline_error seconds) else Err e
       end).

Definition _record_failure_classification (e : Failure) (d : DB) : DB :=
  match attempt with
  | Some id =>
      match update id [("failure_class", JStr (class_value (classify_failure e ""))); ("next_action", JStr (next_action (Some e) ""))] d with
      | Ok d => d | Err _ => d end
  | None => d
  end.

Definition store_do {A} (f : string -> DB -> result StoreError A) (g : A -> DB) (d : DB) : DB :=
  match attempt with Some id => match f id d with Ok a => g a | Err _ => d end | None => d end.

(** A recovered failure is not a failure. *)
Definition clear_failure (d : DB) : DB :=
  store_do (fun id => update id [("failure", JNull); ("failure_summary", JNull); ("diagnostics", JObj [("sources", JObj [])]);
                                 ("failure_class", JNull); ("next_action", JNull)]) (fun d => d) d.

(** What surrounds a retry: what [_reconcile_host] did and answered, what
    [_capture_failure] did, the random draw, the clock and the rendering of the
    delay. *)
Record Between := mkBetween {
  reconcile : DB -> DB * result Failure bool;
  capture : string -> Failure -> DB -> DB;
  draw : float;
  retry_clock : Z;
  shown : string;
}.

Definition note_retry (g : Between) (e : Failure) (d : DB) : DB :=
  match attempt with
  | Some id =>
      match increment_transient_retry id (retry_clock g) d with
      | Ok (d, retries) =>
          match issue id ("Transient setup failure (transient); automatic retry " +:+ pretty retries +:+ " in " +:+ shown g +:+ "s: " +:+ text e)
                  (Some "gateway") d with
          | Ok d => d | Err _ => d end
      | Err _ => d
      end
  | None => d
  end.

(** The loop: [n] is the attempt, [runs] and [gaps] give what happens in each. *)
Fixpoint retry_loop (policy : RetryPolicy) (seconds : string) (fuel : nat) (n : Z) (runs : Z -> Run) (gaps : Z -> Between) (captured : bool)
  (delays : list float) (st : State) : State * list float * result Failure unit :=
  match fuel with
  | O => (st, delays, Ok tt)
  | S fuel =>
      let '(st, res) := _run_setup_once seconds (runs n) st in
      match res with
      | Ok _ => (mkState (if captured then clear_failure (db st) else db st) (step_name st) (announced st), delays, Ok tt)
      | Err e =>
          if negb (bool_decide (classify_failure e "" = TRANSIENT)) || (max_attempts policy <=? n) then
            (mkState (_record_failure_classification e (db st)) (step_name st) (announced st), delays, Err e)
          else
            match delay policy n (draw (gaps n)) with
            | Err t => (st, delays, Err (mkFailure t [mkCause "ValueError" false] false))
            | Ok wait =>
                let g := gaps n in
                let '(d, blocked) := reconcile g (db st) in
                match blocked with
                | Err e' => (mkState d (step_name st) (announced st), delays, Err e')
                | Ok true => (mkState d (step_name st) (announced st), delays, Err e)
                | Ok false =>
                    let d := if captured then d else capture g (step_name st) e d in
                    let d := _record_failure_classification e d in
                    let d := note_retry g e d in
                    let message := "Transient setup failure; retry " +:+ pretty n +:+ "/" +:+ pretty (max_retries policy) +:+ " in " +:+ shown g +:+ "s" in
                    match _log "warning" message None (retry_clock g) d with
                    | Err e' => (mkState d (step_name st) (announced st), delays, Err e')
                    | Ok d => retry_loop policy seconds fuel (n + 1) runs gaps true (delays ++ [wait]) (mkState d (step_name st) (announced st))
                    end
                end
            end
      end
  end.

Definition _run_setup_with_retries (policy : RetryPolicy) (seconds : string) (runs : Z -> Run) (gaps : Z -> Between) (st : State)
  : State * list float * result Failure unit :=
  match policy_validate policy with
  | Err t => (st, [], Err (mkFailure t [mkCause "ValueError" false] false))
  | Ok _ => retry_loop policy seconds (Z.to_nat (max_attempts policy)) 1 runs gaps false [] (mkState (db st) "setup" (announced st))
  end.
End setup.

(** ** Retries *)

(** Logging raises only for an attempt that is gone. *)
Lemma log_raises lim remote_logs attempt level msg stream now d e :
  _log lim remote_logs attempt level msg stream now d = Err e -> exists id, attempt = Some id /\ e = key_error id.
Proof.
  unfold _log, or_key_error. destruct (remote_logs && is_some stream); [done|]. destruct attempt as [id|]; [|done].
  match goal with |- match ?x with _ => _ end = _ -> _ => destruct x; [done|] end. intros [= <-]. by exists id.
Qed.

Section retries.
Context (lim : Limits) (remote_logs : bool) (json_loads : string -> option json) (attempt : option string) (policy : RetryPolicy) (seconds : string) (runs : Z -> Run) (gaps : Z -> Between).
Hypothesis valid : policy_validate policy = Ok policy.

(** Run [k] failed in some state, transiently, and the node was free. *)
Definition retried (k : Z) : Prop :=
  exists st e, snd (_run_setup_once lim remote_logs json_loads attempt seconds (runs k) st) = Err e /\ classify_failure e "" = TRANSIENT /\
    exists d, snd (reconcile (gaps k) d) = Ok false.

Definition acceptable (d : float) : Prop := (0 <= d)%Q /\ (d <= max_delay_seconds policy)%Q.

Lemma retry_loop_spec fuel n captured delays st st' delays' r : 1 <= n -> Z.of_nat fuel = max_attempts policy - n + 1 -> (0 < fuel)%nat ->
  Forall acceptable delays -> Z.of_nat (length delays) = n - 1 ->
  retry_loop lim remote_logs json_loads attempt policy seconds fuel n runs gaps captured delays st = (st', delays', r) ->
  let last := Z.of_nat (length delays') + 1 in
  Forall acceptable delays' /\ n <= last <= max_attempts policy /\ (forall k, n <= k < last -> retried k) /\
  exists s, match r with
            | Ok _ => snd (_run_setup_once lim remote_logs json_loads attempt seconds (runs last) s) = Ok tt
            | Err e => exists e0, snd (_run_setup_once lim remote_logs json_loads attempt seconds (runs last) s) = Err e0 /\
                (e = e0 \/ (classify_failure e0 "" = TRANSIENT /\ last < max_attempts policy /\
                  ((exists d, snd (reconcile (gaps last) d) = Err e) \/ exists id, attempt = Some id /\ e = key_error id)))
            end.
Proof.
  revert n captured delays st. induction fuel as [|fuel IH]; intros n captured delays st Hn Hfuel Hpos Hdelays Hlen; [lia|]. cbn [retry_loop].
  destruct (_run_setup_once lim remote_logs json_loads attempt seconds (runs n) st) as [st1 res] eqn:Hrun.
  assert (snd (_run_setup_once lim remote_logs json_loads attempt seconds (runs n) st) = res) as Hsnd by by rewrite Hrun.
  assert (Z.of_nat (length delays) + 1 = n) as Hlast by lia.
  destruct res as [[]|e].
  { intros [= <- <- <-]. cbn zeta. rewrite Hlast. split_and!; [done|lia|lia|intros k Hk; lia|]. by exists st. }
  destruct (negb (bool_decide (classify_failure e "" = TRANSIENT)) || (max_attempts policy <=? n)) eqn:Hstop.
  { intros [= <- <- <-]. cbn zeta. rewrite Hlast. split_and!; [done|lia|lia|intros k Hk; lia|]. exists st, e. auto. }
  apply orb_false_iff in Hstop as [Htr Hmore]. apply negb_false_iff, bool_decide_eq_true in Htr. apply Z.leb_gt in Hmore.
  destruct (delay_bounds policy n (draw (gaps n)) valid Hn) as (wait & -> & Hw). destruct (reconcile (gaps n) (db st1)) as [d blocked] eqn:Hrec.
  assert (snd (reconcile (gaps n) (db st1)) = blocked) as Hblocked by by rewrite Hrec.
  destruct blocked as [[]|e'].
  - intros [= <- <- <-]. cbn zeta. rewrite Hlast. split_and!; [done|lia|lia|intros k Hk; lia|]. exists st, e. auto.
  - match goal with |- match ?x with _ => _ end = _ -> _ => destruct x as [d'|e'] eqn:Hlog end.
    2: { intros [= <- <- <-]. cbn zeta. rewrite Hlast. split_and!; [done|lia|lia|intros k Hk; lia|]. exists st, e. split; [done|]. right.
         split_and!; [done|lia|]. right. by eapply log_raises. }
    intros H. apply IH in H; [|lia|lia|lia|apply Forall_app; auto|rewrite length_app; cbn; lia]. cbn zeta in *. destruct H as (H1 & H2 & H3 & H4).
    split_and!; [done|lia|lia| |done]. intros k Hk. destruct (decide (k = n)) as [->|Hne]; [|apply H3; lia]. exists st, e. split_and!; [done|done|]. by exists (db st1).
  - intros [= <- <- <-]. cbn zeta. rewrite Hlast. split_and!; [done|lia|lia|intros k Hk; lia|]. exists st, e. split; [done|]. right. split_and!; [done|lia|]. left. by exists (db st1).
Qed.
End retries.

(** ** Theorems *)

(** C10: Automatic setup retries are bounded, justified and conclusive.  With an
    accepted policy the script runs at least once and at most [max_attempts]
    times; every run but the last failed with a failure classified as transient
    after which the node reported no live remote work; every wait is within the
    policy's maximum; the operation returns exactly when its last run
    succeeded, and otherwise raises what the last run, or the check of the node
    before another one, raised, or the missing history row. *)
Theorem setup_retries_justified lim remote_logs json_loads attempt policy seconds runs gaps st st' delays r :
  policy_validate policy = Ok policy -> _run_setup_with_retries lim remote_logs json_loads attempt policy seconds runs gaps st = (st', delays, r) ->
  let last := Z.of_nat (length delays) + 1 in
  1 <= last <= max_attempts policy /\ Forall (fun d => (0 <= d)%Q /\ (d <= max_delay_seconds policy)%Q) delays /\
  (forall k, 1 <= k < last -> retried lim remote_logs json_loads attempt seconds runs gaps k) /\
  exists s, match r with
            | Ok _ => snd (_run_setup_once lim remote_logs json_loads attempt seconds (runs last) s) = Ok tt
            | Err e => exists e0, snd (_run_setup_once lim remote_logs json_loads attempt seconds (runs last) s) = Err e0 /\
                (e = e0 \/ (classify_failure e0 "" = TRANSIENT /\ last < max_attempts policy /\
                  ((exists d, snd (reconcile (gaps last) d) = Err e) \/ exists id, attempt = Some id /\ e = key_error id)))
            end.
Proof.
  intros Hv. unfold _run_setup_with_retries. rewrite Hv. intros H. assert (1 <= max_attempts policy) as Hmax.
  { unfold policy_validate in Hv. inv_ok. match goal with H : (max_attempts policy <? 1) = false |- _ => apply Z.ltb_ge in H; lia end. }
  apply (retry_loop_spec lim remote_logs json_loads attempt policy seconds runs gaps Hv) in H; [|lia|lia|lia|constructor|done]. cbn zeta in *. naive_solver.
Qed.

Definition ex_gap : Between := mkBetween (fun d => (d, Ok false)) (fun _ _ d => d) (1 # 2) 0 "5".
Definition ex_runs (n : Z) : Run :=
  if n =? 1 then mkRun [] (Failed (mkFailure "Connection reset by peer" [] false)) false else mkRun [("stdout", "[STEP:firewall:OK]", 1)] Finished false.

Lemma setup_retries_justified_witness : exists st' delays,
  _run_setup_with_retries ex_limits false (fun _ => None) None (mkPolicy 3 5%Q 120%Q (1 # 4)) "60" ex_runs (fun _ => ex_gap) (mkState empty_store "" []) = (st', delays, Ok tt) /\
  length delays = 1%nat /\ Forall (fun d => (0 <= d)%Q /\ (d <= 120)%Q) delays.
Proof.
  eexists _, _. split; [vm_compute; reflexivity|]. split; [reflexivity|].
  eapply (setup_retries_justified ex_limits false (fun _ => None) None (mkPolicy 3 5%Q 120%Q (1 # 4)) "60" ex_runs (fun _ => ex_gap) (mkState empty_store "" []) _ _ (Ok tt)); [vm_compute; reflexivity|vm_compute; reflexivity].
Defined.

(** ** Markers become checkpoints *)

(** The manifest can hold checkpoints: one per stage of the pipeline. *)
Record manifest_ok (a : LogStore.attempt) : Prop := {
  mo_keys : dwf (a_metadata a);
  mo_present : exists cps, dget "checkpoints" (a_metadata a) = Some (JObj cps);
  mo_unique : dwf (checkpoints_of a);
  mo_stages : forall s, s ∈ dkeys (checkpoints_of a) -> s ∈ _ALLOWED_CHECKPOINT_STAGES;
}.

Definition stage_status (a : LogStore.attempt) (s : string) : option json := dget s (checkpoints_of a) ≫= fun c => dget "status" (obj_of c).

(** A change of other fields keeps the checkpoints. *)
Lemma manifest_ok_other f a a' : manifest_ok a -> dwf f -> dget "checkpoints" f = None -> a_metadata a' = merge f (a_metadata a) ->
  manifest_ok a' /\ checkpoints_of a' = checkpoints_of a.
Proof.
  intros [H1 [cps H2] H3 H4] Hf Hc Ha. assert (dget "checkpoints" (a_metadata a') = dget "checkpoints" (a_metadata a)) as Hsame by by rewrite Ha, dget_merge, Hc.
  assert (checkpoints_of a' = checkpoints_of a) as Hcp by (unfold checkpoints_of, get_or; by rewrite Hsame). split; [|done]. split; rewrite ?Hcp; try done.
  - rewrite Ha. by apply dwf_merge.
  - rewrite Hsame. eauto.
Qed.

Lemma checkpoint_of_status stage value id ev now m current : dget "status" (checkpoint_of stage value id ev now m current) = Some (JStr value).
Proof. unfold checkpoint_of. destruct (bool_decide (value ∈ ["running"; "failed"])); [rewrite dget_dset_ne by done|]; reflexivity. Qed.

(** The manifest after a checkpoint. *)
Lemma checkpoint_mutate_spec id stage value ev now m cps : dwf m -> dget "checkpoints" m = Some (JObj cps) -> dwf cps ->
  (forall s, s ∈ dkeys cps -> s ∈ _ALLOWED_CHECKPOINT_STAGES) ->
  exists c, dget "status" c = Some (JStr value) /\ let m' := checkpoint_mutate id stage value ev now m in
    dwf m' /\ dget "checkpoints" m' = Some (JObj (dset stage (JObj c) cps)).
Proof.
  intros Hm Hc Hw Hs. unfold checkpoint_mutate. rewrite (proj2 (bool_decide_spec (dmem "checkpoints" m = true)) _) || idtac.
  assert (obj_of (get_or "checkpoints" (JObj []) m) = cps) as -> by (unfold get_or; by rewrite Hc).
  assert (dmem "checkpoints" m = true) as -> by (unfold dmem; by rewrite Hc).
  assert (Nat.leb _MAX_CHECKPOINTS (length cps) = false) as Hroom.
  { apply Nat.leb_gt. assert (length cps <= length _ALLOWED_CHECKPOINT_STAGES)%nat as Hle; [|cbn in Hle; unfold _MAX_CHECKPOINTS; lia].
    rewrite <- (length_fmap fst cps). apply submseteq_length, NoDup_submseteq; [exact Hw|exact Hs]. }
  rewrite Hroom, andb_false_r. cbv zeta.
  set (c := checkpoint_of stage value id ev now m (obj_of (get_or stage JNull cps))). exists c. split; [apply checkpoint_of_status|].
  destruct (bool_decide (value = "running")); (split; [repeat apply dwf_dset; done|]); rewrite !dget_dset_ne by done; apply dget_dset_eq.
Qed.

Lemma record_checkpoint_spec id stage value ev now d a : find_attempt id d = Some a -> manifest_ok a -> stage ∈ _ALLOWED_CHECKPOINT_STAGES ->
  exists d' a', record_checkpoint id stage value ev now d = Ok d' /\ find_attempt id d' = Some a' /\ manifest_ok a' /\
    forall s, stage_status a' s = if decide (s = stage) then Some (JStr value) else stage_status a s.
Proof.
  intros Ha [H1 [cps H2] H3 H4] Hst. unfold checkpoints_of in H3, H4. unfold get_or in H3, H4. rewrite H2 in H3, H4. cbn in H3, H4.
  destruct (checkpoint_mutate_spec id stage value ev now (a_metadata a) cps H1 H2 H3 H4) as (c & Hc & Hw & Hm).
  set (m := checkpoint_mutate id stage value ev now (a_metadata a)) in *. destruct (update_spec id m d a Ha) as (d' & a' & Hu & Ha' & Hmeta).
  exists d', a'. assert (dget "checkpoints" (a_metadata a') = Some (JObj (dset stage (JObj c) cps))) as Hget by by rewrite Hmeta, dget_merge, Hm.
  assert (checkpoints_of a' = dset stage (JObj c) cps) as Hcp by (unfold checkpoints_of, get_or; by rewrite Hget).
  assert (checkpoints_of a = cps) as Hcp0 by (unfold checkpoints_of, get_or; by rewrite H2).
  split_and!; [|done| |].
  - unfold record_checkpoint. rewrite bool_decide_eq_true_2 by done. cbn. unfold _mutate_metadata. rewrite Ha. fold m. by rewrite Hu.
  - split; rewrite ?Hcp; [rewrite Hmeta; by apply dwf_merge|eauto|by apply dwf_dset|]. intros s Hs. apply elem_of_dkeys in Hs as [v Hs].
    destruct (decide (s = stage)) as [->|Hne]; [done|]. rewrite dget_dset_ne in Hs by done. apply H4, elem_of_dkeys. by exists v.
  - intros s. unfold stage_status. rewrite Hcp, Hcp0. case_decide as Hs; [subst; by rewrite dget_dset_eq|]. by rewrite dget_dset_ne.
Qed.

(** The status a line of output gives to a stage, and that of the last marker. *)
Definition line_status (stage : string) (x : string * string * Z) : option string :=
  let '(stream, line, _) := x in
  if bool_decide (stream = "stdout") then
    match marker line with Some (step, status) => if bool_decide (step = stage) then checkpoint_status status else None | None => None end
  else None.
Definition last_status (stage : string) (l : list (string * string * Z)) : option string :=
  foldl (fun acc x => match line_status stage x with Some v => Some v | None => acc end) None l.

Lemma manifest_ok_same a a' : same_field "checkpoints" (a_metadata a) (a_metadata a') -> manifest_ok a -> manifest_ok a' /\ checkpoints_of a' = checkpoints_of a.
Proof.
  intros [S1 S2] [H1 [cps H2] H3 H4]. assert (checkpoints_of a' = checkpoints_of a) as Hcp by (unfold checkpoints_of, get_or; by rewrite S1).
  split; [|done]. split; rewrite ?Hcp, ?S1; eauto.
Qed.

Section markers.
Context (lim : Limits) (remote_logs : bool) (json_loads : string -> option json) (id : string).

(** A step over the state that keeps the checkpoints. *)
Definition keeps_out (a : LogStore.attempt) (o : Out) : Prop := exists st', o = (st', None) /\ keeps id "checkpoints" a (db st').

Lemma keeps_log level msg stream now st a : find_attempt id (db st) = Some a ->
  keeps_out a (in_store (_log lim remote_logs (Some id) level msg stream now (db st)) st).
Proof.
  intros Ha. unfold _log. destruct (remote_logs && is_some stream); [eexists; split; [done|]; exists a; split; [done|apply same_refl]|].
  destruct (append_keeps lim id "checkpoints" ltac:(set_solver) (mkLogRecord msg level "gateway" None None None stream None) now (db st) a Ha) as (d' & e & -> & Hk). by eexists.
Qed.

Lemma keeps_generation line st a : find_attempt id (db st) = Some a -> keeps_out a (in_store (_record_generation json_loads (Some id) line (db st)) st).
Proof.
  intros Ha. unfold _record_generation. destruct (generation_of json_loads line) as [g|]; [|eexists; split; [done|]; exists a; split; [done|apply same_refl]].
  change (update id [("selected_generation", g)] (db st)) with (_update id [("selected_generation", g)] (db st)).
  destruct (update_keeps id "checkpoints" [("selected_generation", g)] (db st) a) as (d' & -> & Hk); [done|done|by apply NoDup_singleton|done|]. by eexists.
Qed.

Lemma keeps_announce s st a : find_attempt id (db st) = Some a -> keeps_out a (announce (Some id) s st).
Proof.
  intros Ha. unfold announce. change (update id [("stage", JStr (step_value s))] (db st)) with (_update id [("stage", JStr (step_value s))] (db st)).
  destruct (update_keeps id "checkpoints" [("stage", JStr (step_value s))] (db st) a) as (d' & -> & Hk); [done|done|by apply NoDup_singleton|done|]. by eexists.
Qed.

Lemma keeps_then a o f : keeps_out a o -> (forall st' a', find_attempt id (db st') = Some a' -> keeps_out a' (f st')) -> keeps_out a (andthen o f).
Proof.
  intros (st' & -> & a' & Ha' & S1 & S2) Hf. cbn. destruct (Hf st' a' Ha') as (st2 & -> & a2 & Ha2 & S3 & S4). exists st2. split; [done|]. exists a2. split; [done|].
  split; [by rewrite S3|auto].
Qed.

Lemma keeps_manifest a o : manifest_ok a -> keeps_out a o ->
  exists st' a', o = (st', None) /\ find_attempt id (db st') = Some a' /\ manifest_ok a' /\ checkpoints_of a' = checkpoints_of a.
Proof. intros Hok (st' & -> & a' & Ha' & Hs). exists st', a'. pose proof (manifest_ok_same a a' Hs Hok). naive_solver. Qed.

Lemma on_marker_spec step status line now st a : find_attempt id (db st) = Some a -> manifest_ok a ->
  exists st' a', on_marker lim remote_logs (Some id) step status line now st = (st', None) /\ find_attempt id (db st') = Some a' /\ manifest_ok a' /\
    forall s, s ∈ _ALLOWED_CHECKPOINT_STAGES ->
      stage_status a' s = if decide (s = step) then match checkpoint_status status with Some v => Some (JStr v) | None => stage_status a s end else stage_status a s.
Proof.
  intros Ha Hok.
  assert (exists a1, find_attempt id (_record_step_checkpoint (Some id) step status line now (db st)) = Some a1 /\ manifest_ok a1 /\
    forall s, s ∈ _ALLOWED_CHECKPOINT_STAGES ->
      stage_status a1 s = if decide (s = step) then match checkpoint_status status with Some v => Some (JStr v) | None => stage_status a s end else stage_status a s)
    as (a1 & Ha1 & Hok1 & Hst1).
  { unfold _record_step_checkpoint. destruct (checkpoint_status status) as [v|]; [|exists a; split_and!; [done|done|]; intros s _; by case_decide].
    destruct (decide (step ∈ _ALLOWED_CHECKPOINT_STAGES)) as [Hin|Hout].
    - destruct (record_checkpoint_spec id step v (Some (cut 512 line)) now (db st) a Ha Hok Hin) as (d' & a' & -> & Ha' & Hok' & Hs). exists a'. split_and!; [done|done|]. intros s _. apply Hs.
    - unfold record_checkpoint. rewrite bool_decide_eq_false_2 by done. cbn. exists a. split_and!; [done|done|]. intros s Hs. by rewrite decide_False by congruence. }
  unfold on_marker. set (st1 := mkState _ step _).
  edestruct (keeps_manifest a1) as (st' & a' & H1 & H2 & H3 & H4); [done| |exists st', a'; split_and!; [exact H1|done|done|]].
  - apply keeps_then; [|by intros; apply keeps_log]. destruct (bool_decide (status ∈ _)); [destruct (step_of_name step)|]; [by apply keeps_announce|..].
    all: exists st1; split; [done|]; exists a1; split; [done|apply same_refl].
  - intros s' Hs'. unfold stage_status in *. rewrite H4. by apply Hst1.
Qed.

Definition status_or (v : option string) (other : option json) : option json := match v with Some v => Some (JStr v) | None => other end.

Lemma last_status_cons stage x l : last_status stage (x :: l) = match last_status stage l with Some v => Some v | None => line_status stage x end.
Proof.
  unfold last_status. cbn [foldl]. generalize (line_status stage x). intros o.
  assert (forall acc, foldl (fun acc x => match line_status stage x with Some v => Some v | None => acc end) acc l =
    match foldl (fun acc x => match line_status stage x with Some v => Some v | None => acc end) None l with Some v => Some v | None => acc end) as H.
  { induction l as [|y l IH]; intros acc; cbn [foldl]; [done|]. rewrite IH, (IH (match line_status stage y with Some v => Some v | None => None end)).
    by destruct (foldl _ None l), (line_status stage y). }
  rewrite H. by destruct o.
Qed.

Lemma on_line_spec stream line now st a : find_attempt id (db st) = Some a -> manifest_ok a ->
  exists st' a', on_line lim remote_logs json_loads (Some id) stream line now st = (st', None) /\ find_attempt id (db st') = Some a' /\ manifest_ok a' /\
    forall s, s ∈ _ALLOWED_CHECKPOINT_STAGES -> stage_status a' s = status_or (line_status s (stream, line, now)) (stage_status a s).
Proof.
  intros Ha Hok. unfold on_line, line_status. destruct (bool_decide (stream = "stdout")).
  2: { destruct (keeps_manifest a _ Hok (keeps_log "warning" line (Some "stderr") now st a Ha)) as (st' & a' & H1 & H2 & H3 & H4). exists st', a'.
       split_and!; [done..|]. intros s _. unfold stage_status. by rewrite H4. }
  destruct (keeps_manifest a _ Hok (keeps_generation line st a Ha)) as (st1 & a1 & -> & H2 & H3 & H4). cbn [andthen].
  destruct (marker line) as [[step status]|].
  2: { destruct (keeps_manifest a1 _ H3 (keeps_log "debug" line (Some "stdout") now st1 a1 H2)) as (st' & a' & G1 & G2 & G3 & G4). exists st', a'.
       split_and!; [done..|]. intros s _. unfold stage_status. by rewrite G4, H4. }
  destruct (on_marker_spec step status line now st1 a1 H2 H3) as (st' & a' & G1 & G2 & G3 & G4). exists st', a'. split_and!; [done..|].
  intros s Hs. rewrite G4 by done. unfold stage_status. rewrite H4.
  destruct (decide (s = step)) as [->|Hne]; [by rewrite bool_decide_eq_true_2|by rewrite bool_decide_eq_false_2 by congruence].
Qed.
End markers.

(** C23: The history records exactly what the script reported.  After the output of
    a run, for every stage of the pipeline, the attempt's checkpoint has the
    status of the last marker that standard output printed for the stage, and a
    stage without a marker keeps the status it had; nothing in the output makes
    the processing raise. *)
Theorem markers_recorded lim remote_logs json_loads id l resume st a : find_attempt id (db st) = Some a -> manifest_ok a ->
  exists st' resume' a', on_lines lim remote_logs json_loads (Some id) l resume st = (st', resume', None) /\ find_attempt id (db st') = Some a' /\ manifest_ok a' /\
    forall stage, stage ∈ _ALLOWED_CHECKPOINT_STAGES ->
      stage_status a' stage = match last_status stage l with Some v => Some (JStr v) | None => stage_status a stage end.
Proof.
  revert resume st a. induction l as [|[[stream line] now] l IH]; intros resume st a Ha Hok; cbn [on_lines]; [by exists st, resume, a|].
  destruct (on_line_spec lim remote_logs json_loads id stream line now st a Ha Hok) as (st1 & a1 & -> & Ha1 & Hok1 & H1).
  destruct (IH (match resume_of line with Some r => Some r | None => resume end) st1 a1 Ha1 Hok1) as (st' & r' & a' & Hl & Ha' & Hok' & H2).
  exists st', r', a'. split_and!; [done..|]. intros s Hs. rewrite H2, last_status_cons, H1 by done. by destruct (last_status s l).
Qed.

Definition ex_db : DB := run_store (mkLimits 4000 4000 10 30%Q 64) [OpCreate "h" "vllm" JNull "v" "provision" "a" (JStr "p") [] 5%Q 0].
Definition ex_output : list (string * string * Z) :=
  [("stdout", "[STEP:firewall:START]", 1); ("stderr", "[STEP:firewall:FAIL]", 2); ("stdout", "x [STEP:firewall:OK] y", 3); ("stdout", "[STEP:nfs_mount:START]", 4)].

Lemma markers_recorded_witness : exists st' resume' a', on_lines ex_limits false (fun _ => None) (Some "a") ex_output None (mkState ex_db "" []) = (st', resume', None) /\
  find_attempt "a" (db st') = Some a' /\ stage_status a' "firewall" = Some (JStr "completed") /\ stage_status a' "nfs_mount" = Some (JStr "running").
Proof.
  destruct (find_attempt "a" ex_db) as [a|] eqn:Ha; [|vm_compute in Ha; discriminate Ha].
  assert (manifest_ok a) as Hok.
  { assert (Some a = find_attempt "a" ex_db) as E by done. vm_compute in E. injection E as ->. split; [apply (bool_decide_unpack _); vm_compute; exact I|by eexists|apply (bool_decide_unpack _); vm_compute; exact I|].
    intros s Hs. by apply not_elem_of_nil in Hs. }
  destruct (markers_recorded ex_limits false (fun _ => None) "a" ex_output None (mkState ex_db "" []) a Ha Hok) as (st' & r' & a' & H1 & H2 & _ & H3). exists st', r', a'. split_and!; [done|done| |].
  - rewrite H3 by (apply (bool_decide_unpack _); vm_compute; exact I). reflexivity.
  - rewrite H3 by (apply (bool_decide_unpack _); vm_compute; exact I). reflexivity.
Defined.
