(* ===== verification/Scripts.v ===== *)
(** * Commands and environments of the provisioning scripts
    ([inference_proxy/provisioning/provisioner.py]: [_setup_plan_inputs],
    [_setup_script_env], [_start_script_env], [_profile_script_env],
    [_script_command], [_remote_script_command])

    The gateway drives [setup.sh] and the start scripts through one line of
    shell: assignments of environment variables, then the command.  The line is
    text, built with [shlex.quote]; a reader for the lines a POSIX shell takes
    literally says what the node makes of it. *)

From Stdlib Require Import Ascii Qabs.
From stdpp Require Import pretty.
From S2P Require Import Prelude PyDict Json PyFloat NodeModel VllmFit Catalog.
Local Open Scope Z_scope.

(** ** Quoting *)

Definition chars : string -> list ascii := String.list_ascii_of_string.
Definition text : list ascii -> string := String.string_of_list_ascii.

Definition quote1 : ascii := "'"%char.
Definition quote2 : ascii := ascii_of_nat 34.

(** What [shlex] leaves bare: [\w] and [@%+=:,./-], in ASCII. *)
Definition is_word (a : ascii) : bool := is_digit a || is_lower a || is_upper a || is_char "_" a.
Definition is_safe (a : ascii) : bool := is_word a || existsb (is_char a) ["@"; "%"; "+"; "="; ":"; ","; "."; "/"; "-"]%char.

Definition escape_quote (a : ascii) : list ascii := if is_char quote1 a then [quote1; quote2; quote1; quote2; quote1] else [a].

(** [shlex.quote] *)
Definition quote (s : string) : string :=
  match chars s with
  | [] => text [quote1; quote1]
  | l => if forallb is_safe l then s else text (quote1 :: flat_map escape_quote l ++ [quote1])
  end.

(** [shlex.join] *)
Definition join (args : list string) : string := String.concat " " (List.map quote args).

(** ** Reading a line as a shell does *)

(** A character of a word, and whether it was quoted. *)
Definition marked : Type := list (ascii * bool).
Inductive Quoting := Bare | Single | Double.

(** The words of a line.  [None]: the line is not one simple command of literal
    words, because a quotation does not end, or a character that can mean
    something to the shell stands outside quotes. *)
Fixpoint words (l : list ascii) (q : Quoting) (word : option marked) : option (list marked) :=
  match l with
  | [] => match q with Bare => Some (match word with Some w => [w] | None => [] end) | _ => None end
  | a :: l =>
      let w := default [] word in
      match q with
      | Bare =>
          if is_char " " a then match word with Some w => cons w <$> words l Bare None | None => words l Bare None end
          else if is_char quote1 a then words l Single (Some w)
          else if is_char quote2 a then words l Double (Some w)
          else if is_safe a then words l Bare (Some (w ++ [(a, false)]))
          else None
      | Single => if is_char quote1 a then words l Bare (Some w) else words l Single (Some (w ++ [(a, true)]))
      | Double => if is_char quote2 a then words l Bare (Some w)
                  else if existsb (is_char a) ["$"; "`"; "\"]%char then None
                  else words l Double (Some (w ++ [(a, true)]))
      end
  end.

Definition word_text (w : marked) : string := text (List.map fst w).

(** A name of a variable. *)
Definition is_name (l : list ascii) : bool := match l with [] => false | a :: l => negb (is_digit a) && is_word a && forallb is_word l end.

(** The part before the first [=] that was not quoted, and what follows it. *)
Fixpoint split_name (w : marked) : option (list ascii * marked) :=
  match w with
  | [] => None
  | (a, quoted) :: w =>
      if quoted then None
      else if is_char "=" a then Some ([], w)
      else match split_name w with Some (n, v) => Some (a :: n, v) | None => None end
  end.

(** [NAME=value]: the name and the sign are not quoted. *)
Definition assignment (w : marked) : option (string * string) :=
  match split_name w with Some (n, v) => if is_name n then Some (text n, word_text v) else None | None => None end.

(** The assignments in front of a command, and the command's arguments. *)
Fixpoint simple_command (ws : list marked) : list (string * string) * list string :=
  match ws with
  | [] => ([], [])
  | w :: ws => match assignment w with
               | Some kv => let '(env, argv) := simple_command ws in (kv :: env, argv)
               | None => ([], List.map word_text (w :: ws))
               end
  end.

Definition shell_reads (line : string) : option (list (string * string) * list string) := simple_command <$> words (chars line) Bare None.

Example reads_examples :
  quote "it's $HOME" = text (chars "'it'" ++ [quote2; quote1; quote2] ++ chars "'s $HOME'") /\
  shell_reads ("A=1 B=" +:+ quote "x y" +:+ " bash " +:+ quote "it's") = Some ([("A", "1"); ("B", "x y")], ["bash"; "it's"]) /\
  shell_reads "A=1; rm x" = None /\ shell_reads "bash A=$HOME" = None.
Proof. by vm_compute. Qed.

(** ** Paths *)

Fixpoint split_on (c : ascii) (l : list ascii) (part : list ascii) : list (list ascii) :=
  match l with
  | [] => [part]
  | a :: l => if is_char c a then part :: split_on c l [] else split_on c l (part ++ [a])
  end.

(** [str(PurePosixPath(p))] *)
Definition posix_path (p : string) : string :=
  let l := chars p in
  let root := match l with
              | "/"%char :: "/"%char :: "/"%char :: _ => "/"
              | "/"%char :: "/"%char :: _ => "//"
              | "/"%char :: _ => "/"
              | _ => ""
              end in
  let parts := List.filter (fun x => negb (bool_decide (x = [])) && negb (bool_decide (x = ["."%char]))) (split_on "/" l []) in
  let s := root +:+ String.concat "/" (List.map text parts) in
  if bool_decide (s = "") then "." else s.

(** [str(PurePosixPath(a, b))] *)
Definition path_join (a b : string) : string := if startswith b "/" then posix_path b else posix_path (a +:+ "/" +:+ b).

Example path_examples :
  path_join "/opt/qiip" "vllm" = "/opt/qiip/vllm" /\ path_join "b//x/./auto-vllm" "setup.sh" = "b/x/auto-vllm/setup.sh" /\ path_join "a" "/etc/x" = "/etc/x".
Proof. by vm_compute. Qed.

(** ** Settings and selections *)

(** The settings the scripts depend on; [llamacpp_source_download_url] is the URL
    rendered for the version. *)
Record Settings := mkSettings {
  generation_root : string;
  scripts_dir_name : string;
  nfs_export : option string;
  nfs_mount_point : string;
  nvidia_driver_version : string;
  nvidia_driver_sha256 : string;
  vllm_port : Z;
  min_disk_gb : Z;
  llmfit_version : string;
  llmfit_sha256 : string;
  llamacpp_version : string;
  llamacpp_sha256 : string;
  llamacpp_source_download_url : string;
  llamacpp_artifact_catalog_url : string;
  llamacpp_artifact_catalog_sha256 : string;
  llamacpp_allow_source_build : bool;
  llamacpp_build_jobs : Z;
  llamacpp_fit_target_mib : Z;
  hf_token : option string;
}.

(** [ResolvedGGUFArtifact] *)
Record Artifact := mkArtifact { art_id : string; model_alias : string; node_relative_entrypoint : string }.

Definition engine_value (e : InferenceEngine) : string := match e with VLLM => "vllm" | LLAMA_CPP => "llama_cpp" end.
Definition sizing_value (m : LlamaCppSizingMode) : string := match m with SIZING_AUTO => "auto" | SIZING_CUSTOM => "custom" | SIZING_PROFILE => "profile" end.
Definition cache_value (c : LlamaCppCacheType) : string := match c with F16 => "f16" | Q8_0 => "q8_0" | Q4_0 => "q4_0" end.
Definition speculative_value (t : LlamaCppSpeculativeType) : string :=
  match t with DRAFT_MTP => "draft-mtp" | DRAFT_DFLASH => "draft-dflash" | DRAFT_MTP_ASSISTANT => "draft-mtp-assistant" end.

(** ** Numbers as text *)

(** The digits of a number below 10000, with leading zeros. *)
Definition four_digits (z : Z) : string :=
  let digit n := String (ascii_of_nat (48 + Z.to_nat (n mod 10))) "" in digit (z / 1000) +:+ digit (z / 100) +:+ digit (z / 10) +:+ digit z.

Fixpoint rstrip_zeros (l : list ascii) : list ascii :=
  match l with [] => [] | a :: l => match rstrip_zeros l with [] => if is_char "0" a then [] else [a] | l => a :: l end end.

(** [f"{value:.4f}"] *)
Definition fixed4 (x : Q) : string :=
  let z := rhe (Qabs x * inject_Z 10000) in
  (if Qle_bool 0%Q x then "" else "-") +:+ pretty (z / 10000) +:+ "." +:+ four_digits (z mod 10000).

Definition _plain_decimal (x : Q) : string :=
  let t := text (rstrip_zeros (chars (fixed4 x))) in if bool_decide (last (chars t) = Some "."%char) then t +:+ "0" else t.

Example decimal_examples : _plain_decimal (7 # 10) = "0.7" /\ _plain_decimal 1%Q = "1.0" /\ _plain_decimal (-(3 # 2)) = "-1.5" /\ _plain_decimal (1 # 20000) = "0.0".
Proof. by vm_compute. Qed.

(** ** Environments *)

Definition env : Type := list (string * string).
Definition flag (b : bool) : string := if b then "1" else "0".
Definition when {A} (o : option A) (f : A -> env) : env := match o with Some x => f x | None => [] end.
Definition given {A} (o : option A) (f : A -> string) : string := match o with Some x => f x | None => "" end.

Inductive ScriptError := ProvisioningError (message : string).

Section environments.
(** The settings, the digest of an engine's scripts, and [str] of a float. *)
Context (s : Settings) (bundle_version : InferenceEngine -> string) (float_text : Q -> string).

Definition _required_nfs_export : result ScriptError string :=
  match nfs_export s with
  | Some e => Ok e
  | None => Err (ProvisioningError ("Node provisioning requires INFERENCE_PROXY_HUGGINGFACE__NFS_EXPORT; " +:+
                                    "proxy-only deployments may leave it unset"))
  end.

Definition opt_str (o : option string) : json := match o with Some t => JStr t | None => JNull end.

(** The inputs of the plan identity; [request] and [params] are the dumps of the
    llama.cpp request and the vLLM parameters. *)
Definition _setup_plan_inputs (engine : InferenceEngine) (artifact : option Artifact) (request params : option json) : result ScriptError (list (string * json)) :=
  let? nfs := _required_nfs_export in
  Ok ([("engine", JStr (engine_value engine)); ("bundle_version", JStr (bundle_version engine)); ("api_port", JNum (vllm_port s)); ("nfs_export", JStr nfs);
       ("nfs_mount_point", JStr (nfs_mount_point s)); ("nvidia_driver_version", JStr (nvidia_driver_version s));
       ("nvidia_driver_sha256", JStr (nvidia_driver_sha256 s)); ("llmfit_version", JStr (llmfit_version s)); ("llmfit_sha256", JStr (llmfit_sha256 s));
       ("min_disk_gb", JNum (min_disk_gb s)); ("generation_root", JStr (path_join (generation_root s) (engine_value engine)))] ++
      match engine with
      | LLAMA_CPP =>
          [("llamacpp_version", JStr (llamacpp_version s)); ("llamacpp_sha256", JStr (llamacpp_sha256 s));
           ("llamacpp_source_url", JStr (llamacpp_source_download_url s)); ("llamacpp_artifact_catalog_url", JStr (llamacpp_artifact_catalog_url s));
           ("llamacpp_artifact_catalog_sha256", JStr (llamacpp_artifact_catalog_sha256 s));
           ("llamacpp_allow_source_build", JBool (llamacpp_allow_source_build s)); ("llamacpp_build_jobs", JNum (llamacpp_build_jobs s));
           ("artifact_id", opt_str (art_id <$> artifact)); ("runtime_request", default JNull request)]
      | VLLM => [("model", opt_str (model_alias <$> artifact)); ("vllm_params", default JNull params)]
      end).

Definition _setup_script_env (engine : InferenceEngine) : result ScriptError env :=
  let? nfs := _required_nfs_export in
  Ok ([("QIIP_GENERATION_ROOT", path_join (generation_root s) (engine_value engine)); ("AUTOVLLM_NFS_EXPORT", nfs);
       ("AUTOVLLM_NFS_MOUNT_POINT", nfs_mount_point s); ("AUTOVLLM_NVIDIA_DRIVER_VERSION", nvidia_driver_version s);
       ("AUTOVLLM_NVIDIA_DRIVER_SHA256", nvidia_driver_sha256 s); ("AUTOVLLM_API_PORT", pretty (vllm_port s));
       ("AUTOVLLM_MIN_FREE_GB", pretty (min_disk_gb s)); ("AUTOVLLM_LLMFIT_VERSION", llmfit_version s); ("AUTOVLLM_LLMFIT_SHA256", llmfit_sha256 s)] ++
      match engine with
      | LLAMA_CPP =>
          [("AUTOLLAMACPP_VERSION", llamacpp_version s); ("AUTOLLAMACPP_SHA256", llamacpp_sha256 s);
           ("AUTOLLAMACPP_SOURCE_URL", llamacpp_source_download_url s); ("AUTOLLAMACPP_ARTIFACT_CATALOG_URL", llamacpp_artifact_catalog_url s);
           ("AUTOLLAMACPP_ARTIFACT_CATALOG_SHA256", llamacpp_artifact_catalog_sha256 s);
           ("AUTOLLAMACPP_ALLOW_SOURCE_BUILD", flag (llamacpp_allow_source_build s))] ++
          (if llamacpp_build_jobs s =? 0 then [] else [("AUTOLLAMACPP_BUILD_JOBS", pretty (llamacpp_build_jobs s))])
      | VLLM => []
      end).

(** The typed inputs of a profile, nothing for planner sizing. *)
Definition _profile_script_env (request : LlamaCppRuntimeRequest) (draft : option Artifact) : result ScriptError env :=
  match rq_profile request with
  | None => if is_some draft then Err (ProvisioningError "a draft artifact is only valid with a llama.cpp profile") else Ok []
  | Some p =>
      if negb (bool_decide (pr_draft_artifact_id p = art_id <$> draft)) then
        Err (ProvisioningError "the resolved draft artifact differs from the llama.cpp profile")
      else
        let sampling := pr_sampling p in
        Ok ([("AUTOLLAMACPP_PROFILE_ID", pr_profile_id p); ("AUTOLLAMACPP_PROFILE_VERSION", pretty (pr_profile_version p));
             ("AUTOLLAMACPP_PROFILE_UBATCH", pretty (pr_ubatch p)); ("AUTOLLAMACPP_PROFILE_REQUIRED_FREE_MIB", pretty (pr_required_free_mib p));
             ("AUTOLLAMACPP_PROFILE_GPU_NAME", pr_gpu_name p); ("AUTOLLAMACPP_PROFILE_GPU_MIN_TOTAL_MIB", pretty (pr_gpu_min_total_mib p));
             ("AUTOLLAMACPP_PROFILE_SPEC_TYPE", speculative_value (pr_speculative_type p));
             ("AUTOLLAMACPP_PROFILE_SPEC_DRAFT_N_MAX", pretty (pr_speculative_draft_n_max p));
             ("AUTOLLAMACPP_PROFILE_TEMPERATURE", _plain_decimal (sa_temperature sampling)); ("AUTOLLAMACPP_PROFILE_TOP_P", _plain_decimal (sa_top_p sampling));
             ("AUTOLLAMACPP_PROFILE_TOP_K", pretty (sa_top_k sampling)); ("AUTOLLAMACPP_PROFILE_DISABLE_CUDA_GRAPHS", flag (pr_disable_cuda_graphs p))] ++
            when (pr_draft_cache_type p) (fun c => [("AUTOLLAMACPP_PROFILE_DRAFT_CACHE_TYPE", cache_value c)]) ++
            when draft (fun d => [("AUTOLLAMACPP_PROFILE_DRAFT_GGUF_PATH", node_relative_entrypoint d)]) ++
            when (sa_min_p sampling) (fun x => [("AUTOLLAMACPP_PROFILE_MIN_P", _plain_decimal x)]) ++
            when (sa_presence_penalty sampling) (fun x => [("AUTOLLAMACPP_PROFILE_PRESENCE_PENALTY", _plain_decimal x)]))
  end.

Definition _default_llamacpp_runtime_request : LlamaCppRuntimeRequest :=
  {| rq_sizing := SIZING_AUTO; rq_fit_target_mib := llamacpp_fit_target_mib s; rq_context_per_slot := None; rq_slots := None; rq_cache_type := None;
     rq_allow_estimator_overrun := false; rq_profile := None |}.

Definition params_env (p : VllmParams) : env :=
  when (vp_tensor_parallel_size p) (fun n => [("AUTOVLLM_TENSOR_PARALLEL", pretty n)]) ++
  when (vp_max_model_len p) (fun n => [("AUTOVLLM_MAX_MODEL_LEN", pretty n)]) ++
  when (vp_gpu_memory_utilization p) (fun x => [("AUTOVLLM_GPU_MEM_UTIL", float_text x)]) ++
  when (vp_max_num_batched_tokens p) (fun n => [("AUTOVLLM_MAX_BATCHED_TOKENS", pretty n)]) ++
  when (vp_tool_call_parser p) (fun t => [("AUTOVLLM_TOOL_CALL_PARSER", t)]) ++
  when (vp_reasoning_parser p) (fun t => [("AUTOVLLM_REASONING_PARSER", t)]) ++
  when (vp_dtype p) (fun t => [("AUTOVLLM_DTYPE", t)]) ++
  when (vp_gpu_devices p) (fun l => [("AUTOVLLM_GPU_DEVICES", String.concat "," (List.map pretty l))]).

Definition plan_env (p : VllmFitPlan) : env :=
  when (e_attention_backend (p_effective p)) (fun t => [("AUTOVLLM_ATTENTION_BACKEND", t)]) ++
  [("AUTOVLLM_FIT_BUDGET_MIB", pretty (usable_budget_mib (p_estimate p))); ("AUTOVLLM_FIT_RESERVE_MIB", pretty (reserve_mib (p_estimate p)));
   ("AUTOVLLM_FIT_OVERHEAD_MIB", pretty (runtime_overhead_mib (p_estimate p)))].

Definition token_env : env := match hf_token s with Some t => if str_truthy t then [("HF_TOKEN", t)] else [] | None => [] end.

Definition _start_script_env (model : option string) (engine : InferenceEngine) (artifact : option Artifact) (request : option LlamaCppRuntimeRequest)
  (params : option VllmParams) (draft : option Artifact) (plan : option VllmFitPlan) : result ScriptError env :=
  match engine with
  | LLAMA_CPP =>
      let request := default _default_llamacpp_runtime_request request in
      match artifact with
      | None => Err (ProvisioningError "llama_cpp start requires a GGUF artifact")
      | Some a =>
          let? profile := _profile_script_env request draft in
          Ok ([("AUTOLLAMACPP_NFS_MOUNT_POINT", nfs_mount_point s); ("AUTOLLAMACPP_PORT", pretty (vllm_port s)); ("AUTOLLAMACPP_REQUIRE_CUDA", "1");
               ("AUTOLLAMACPP_MANAGED", "1"); ("AUTOLLAMACPP_FIT_TARGET_MIB", pretty (rq_fit_target_mib request));
               ("AUTOLLAMACPP_MANAGED_SIZING", sizing_value (rq_sizing request));
               ("AUTOLLAMACPP_MANAGED_CONTEXT_PER_SLOT", given (rq_context_per_slot request) pretty); ("AUTOLLAMACPP_MANAGED_PARALLEL", given (rq_slots request) pretty);
               ("AUTOLLAMACPP_MANAGED_CACHE_TYPE", given (rq_cache_type request) cache_value);
               ("AUTOLLAMACPP_MANAGED_ALLOW_ESTIMATOR_OVERRUN", flag (rq_allow_estimator_overrun request));
               ("AUTOLLAMACPP_GGUF_PATH", node_relative_entrypoint a); ("AUTOLLAMACPP_MODEL_ALIAS", model_alias a)] ++
              when (nfs_export s) (fun e => [("AUTOVLLM_NFS_EXPORT", e)]) ++ profile ++ token_env)
      end
  | VLLM =>
      raise_if (is_some request) (ProvisioningError "llama.cpp sizing policy is only valid for llama_cpp starts") ;?
      Ok ([("AUTOVLLM_NFS_MOUNT_POINT", nfs_mount_point s); ("AUTOVLLM_API_PORT", pretty (vllm_port s)); ("AUTOVLLM_MIN_FREE_GB", pretty (min_disk_gb s))] ++
          when (nfs_export s) (fun e => [("AUTOVLLM_NFS_EXPORT", e)]) ++ when model (fun m => [("AUTOVLLM_MODEL", m)]) ++
          when params params_env ++ when plan plan_env ++ token_env)
  end.

(** ** Commands *)

Definition assignments (e : env) : string := String.concat " " (List.map (fun '(name, value) => name +:+ "=" +:+ quote value) e).
Definition prefixed (e : env) (command : string) : string := match e with [] => command | _ => assignments e +:+ " " +:+ command end.

Definition script_argv (dir script : string) (args : list string) : list string := "bash" :: path_join dir script :: args.

Definition _script_command (script : string) (e : env) (args : list string) (scripts_dir : option string) : string :=
  let dir := match scripts_dir with Some d => if str_truthy d then d else scripts_dir_name s | None => scripts_dir_name s end in
  prefixed e (join (script_argv dir script args)).

Definition _engine_scripts_dir (engine : InferenceEngine) : string := match engine with VLLM => scripts_dir_name s | LLAMA_CPP => "auto-llamacpp" end.

(** [bundle] is the staged bundle of this host and engine. *)
Definition _remote_script_command (bundle : option string) (engine : InferenceEngine) (script : string) (e : env) (args : list string) : string :=
  let directory := _engine_scripts_dir engine in
  match bundle with
  | None => _script_command script e args (Some directory)
  | Some b =>
      if bool_decide (script = "setup.sh") then _script_command script e args (Some (b +:+ "/" +:+ directory))
      else prefixed e (join (["python3"; b +:+ "/common/generations.py"; "exec"; path_join (generation_root s) (engine_value engine); b +:+ "/" +:+ directory; script] ++ args))
  end.
End environments.

(** ** What the shell reads *)

Lemma chars_app a b : chars (a +:+ b) = chars a ++ chars b.
Proof. unfold chars. induction a as [|c a IH]; [done|]. change (String c a +:+ b) with (String c (a +:+ b)). cbn. by rewrite IH. Qed.

Lemma chars_text l : chars (text l) = l.
Proof. apply String.list_ascii_of_string_of_list_ascii. Qed.

Lemma text_chars s : text (chars s) = s.
Proof. apply String.string_of_list_ascii_of_string. Qed.

(** A quoted value as a word: its characters, all marked alike. *)
Definition mark (v : string) : marked := List.map (fun a => (a, negb (forallb is_safe (chars v)))) (chars v).
Definition bare (l : list ascii) : marked := List.map (fun a => (a, false)) l.

Lemma safe_not a : is_safe a = true -> is_char " " a = false /\ is_char quote1 a = false /\ is_char quote2 a = false.
Proof. destruct a as [[] [] [] [] [] [] [] []]; vm_compute; done. Qed.

Lemma words_bare l rest w : forallb is_safe l = true -> l <> [] \/ is_Some w ->
  words (l ++ rest) Bare w = words rest Bare (Some (default [] w ++ bare l)).
Proof.
  revert w. induction l as [|a l IH]; intros w Hl Hw; cbn [app].
  - destruct Hw as [|[x ->]]; [done|]. cbn. by rewrite app_nil_r.
  - cbn in Hl. apply andb_true_iff in Hl as [Ha Hl]. destruct (safe_not a Ha) as (H1 & H2 & H3). cbn [words]. rewrite H1, H2, H3, Ha, IH by eauto. cbn. by rewrite <- app_assoc.
Qed.

Lemma words_single l rest w : words (flat_map escape_quote l ++ rest) Single (Some w) = words rest Single (Some (w ++ List.map (fun a => (a, true)) l)).
Proof.
  revert w. induction l as [|a l IH]; intros w; cbn [flat_map app]; [by rewrite app_nil_r|]. rewrite <- app_assoc. unfold escape_quote at 1.
  destruct (is_char quote1 a) eqn:Ha.
  - apply Ascii.eqb_eq in Ha as <-. transitivity (words (flat_map escape_quote l ++ rest) Single (Some (w ++ [(quote1, true)]))); [reflexivity|].
    by rewrite IH, <- app_assoc.
  - cbn [app words]. rewrite Ha. cbn [default]. rewrite IH. cbn. by rewrite <- app_assoc.
Qed.

Lemma words_quote v rest w : words (chars (quote v) ++ rest) Bare w = words rest Bare (Some (default [] w ++ mark v)).
Proof.
  unfold quote, mark. destruct (chars v) as [|a l] eqn:Hv; [rewrite chars_text; cbn; by rewrite app_nil_r|].
  destruct (forallb is_safe (a :: l)) eqn:Hs.
  - rewrite Hv, words_bare by (done || by left). done.
  - rewrite chars_text. cbn [app words]. replace (is_char " " quote1) with false by reflexivity. replace (is_char quote1 quote1) with true by reflexivity.
    rewrite <- app_assoc, words_single. cbn [app words]. replace (is_char quote1 quote1) with true by reflexivity. done.
Qed.

(** A text that reads as one word, whatever follows. *)
Definition reads_as (t : string) (w : marked) : Prop := forall rest, words (chars t ++ rest) Bare None = words rest Bare (Some w).

Lemma reads_line l ws : Forall2 reads_as l ws -> words (chars (String.concat " " l)) Bare None = Some ws.
Proof.
  induction 1 as [|t w l ws Ht Hl IH]; [done|]. destruct Hl as [|t' w' l' ws' Ht' Hl'].
  - cbn. specialize (Ht []). by rewrite app_nil_r in Ht.
  - change (String.concat " " (t :: t' :: l')) with (t +:+ " " +:+ String.concat " " (t' :: l')). rewrite !chars_app, Ht. cbn [chars app words String.list_ascii_of_string].
    replace (is_char " " " ") with true by reflexivity. fold chars. by rewrite IH.
Qed.

Lemma reads_quote v : reads_as (quote v) (mark v).
Proof. intros rest. by rewrite words_quote. Qed.

Definition valid_name (n : string) : bool := is_name (chars n).

Lemma is_word_safe a : is_word a = true -> is_safe a = true /\ is_char "=" a = false.
Proof. destruct a as [[] [] [] [] [] [] [] []]; vm_compute; done. Qed.

Lemma name_words n : valid_name n = true -> forallb is_word (chars n) = true /\ chars n <> [].
Proof. unfold valid_name, is_name. destruct (chars n) as [|a l]; [done|]. intros [[_ Ha]%andb_true_iff Hl]%andb_true_iff. cbn. by rewrite Ha, Hl. Qed.

Lemma reads_assignment n v : valid_name n = true -> reads_as (n +:+ "=" +:+ quote v) (bare (chars n ++ ["="%char]) ++ mark v).
Proof.
  intros [Hn Hne]%name_words rest. rewrite !chars_app, <- !app_assoc. rewrite (app_assoc (chars n)). rewrite words_bare; [by rewrite words_quote| |].
  - rewrite forallb_app. apply andb_true_iff. split; [|done]. apply List.forallb_forall. intros a Ha. rewrite List.forallb_forall in Hn. by apply is_word_safe, Hn.
  - left. by destruct (chars n).
Qed.

Lemma assignment_mark n v : valid_name n = true -> assignment (bare (chars n ++ ["="%char]) ++ mark v) = Some (n, v).
Proof.
  intros Hn. unfold assignment. assert (forall l w, forallb is_word l = true -> split_name (bare (l ++ ["="%char]) ++ w) = Some (l, w)) as H.
  { unfold bare. induction l as [|a l IH]; intros w; [done|]. intros [Ha Hl]%andb_true_iff. cbn [List.map app split_name]. destruct (is_word_safe a Ha) as [_ ->]. by rewrite IH. }
  rewrite H by by apply name_words. unfold valid_name in Hn. rewrite Hn, text_chars. unfold word_text, mark. rewrite List.map_map. cbn. by rewrite List.map_id, text_chars.
Qed.

Lemma word_text_mark v : word_text (mark v) = v.
Proof. unfold word_text, mark. rewrite List.map_map. cbn. by rewrite List.map_id, text_chars. Qed.

Lemma assignment_none v : forallb (fun a => negb (is_char "=" a)) (chars v) = true -> assignment (mark v) = None.
Proof.
  intros Hv. unfold assignment, mark. generalize (negb (forallb is_safe (chars v))). intros b. assert (split_name (List.map (fun a => (a, b)) (chars v)) = None) as ->; [|done].
  revert Hv. induction (chars v) as [|a l IH]; [done|]. intros [Ha Hl]%andb_true_iff. cbn [List.map split_name]. destruct b; [done|]. apply negb_true_iff in Ha. by rewrite Ha, IH.
Qed.

Lemma string_concat_app l k : l <> [] -> k <> [] -> String.concat " " (l ++ k) = String.concat " " l +:+ " " +:+ String.concat " " k.
Proof.
  intros Hl Hk. induction l as [|x l IH]; [done|]. destruct l as [|y l]; [by destruct k|].
  change (x +:+ " " +:+ String.concat " " ((y :: l) ++ k) = (x +:+ " " +:+ String.concat " " (y :: l)) +:+ " " +:+ String.concat " " k).
  rewrite IH by done. by rewrite !append_assoc.
Qed.

(** The line built for an environment and a command reads as both. *)
Lemma shell_reads_prefixed e c args : Forall (fun kv => valid_name (fst kv) = true) e -> forallb (fun a => negb (is_char "=" a)) (chars c) = true ->
  shell_reads (prefixed e (join (c :: args))) = Some (e, c :: args).
Proof.
  intros He Hc. assert (prefixed e (join (c :: args)) = String.concat " " (List.map (fun '(n, v) => n +:+ "=" +:+ quote v) e ++ List.map quote (c :: args))) as ->.
  { unfold prefixed, assignments, join. destruct e as [|kv e]; [done|]. symmetry. by apply string_concat_app. }
  unfold shell_reads. rewrite (reads_line _ (List.map (fun '(n, v) => bare (chars n ++ ["="%char]) ++ mark v) e ++ List.map mark (c :: args))).
  - cbn. f_equal. induction He as [|[n v] e Hn He IH]; cbn [List.map app simple_command].
    + rewrite assignment_none by done. f_equal. cbn. rewrite word_text_mark. f_equal. rewrite List.map_map. rewrite <- (List.map_id args) at 2. apply List.map_ext, word_text_mark.
    + rewrite assignment_mark by done. cbn [List.map app] in IH. by rewrite IH.
  - apply Forall2_app.
    + induction He as [|[n v] e Hn He IH]; cbn; constructor; [by apply reads_assignment|done].
    + generalize (c :: args). induction l; cbn; constructor; [apply reads_quote|done].
Qed.

(** ** Names *)

Definition names_valid (e : env) : Prop := Forall (fun kv => valid_name (fst kv) = true) e.

Lemma names_app a b : names_valid a -> names_valid b -> names_valid (a ++ b).
Proof. apply Forall_app_2. Qed.

Lemma names_when {A} (o : option A) f : (forall x, names_valid (f x)) -> names_valid (when o f).
Proof. intros H. destruct o; [apply H|constructor]. Qed.

Ltac names := unfold params_env, plan_env;
  repeat first [apply names_app | apply names_when; intros ? | by constructor | (apply Forall_cons; split; [reflexivity|])].

Lemma ok_inj {E A} (a b : A) : @Ok E A a = Ok b -> a = b.
Proof. congruence. Qed.

Lemma setup_names s engine e : _setup_script_env s engine = Ok e -> names_valid e.
Proof.
  unfold _setup_script_env. destruct (_required_nfs_export s) as [nfs|]; [|done]. cbn [rbind]. intros <-%ok_inj. apply names_app; [names|]. destruct engine; [constructor|]. apply names_app; [names|]. destruct (_ =? 0); names.
Qed.

Lemma profile_names q d e : _profile_script_env q d = Ok e -> names_valid e.
Proof.
  unfold _profile_script_env. destruct (rq_profile q) as [p|]; [|destruct (is_some d); [done|intros [= <-]; constructor]].
  destruct (negb _); [done|]. intros <-%ok_inj. names.
Qed.

Lemma token_names s : names_valid (token_env s).
Proof. unfold token_env. destruct (hf_token s) as [t|]; [destruct (str_truthy t)|]; names. Qed.

Lemma start_names s ft model engine artifact request params draft plan e :
  _start_script_env s ft model engine artifact request params draft plan = Ok e -> names_valid e.
Proof.
  unfold _start_script_env. destruct engine.
  - destruct (is_some request); [done|]. cbn [raise_if rbind]. intros <-%ok_inj. do 5 (apply names_app; [names|]). apply token_names.
  - destruct artifact as [a|]; [|done]. destruct (_profile_script_env _ draft) as [pe|] eqn:Hp; [|done]. cbn [rbind]. intros <-%ok_inj. do 2 (apply names_app; [names|]). apply names_app; [by eapply profile_names|apply token_names].
Qed.

(** ** Theorems *)

(** What the command line of a script is meant to run. *)
Definition intended_argv (s : Settings) (bundle : option string) (engine : InferenceEngine) (script : string) (args : list string) : list string :=
  let directory := _engine_scripts_dir s engine in
  match bundle with
  | Some b =>
      if bool_decide (script = "setup.sh") then script_argv (b +:+ "/" +:+ directory) script args
      else ["python3"; b +:+ "/common/generations.py"; "exec"; path_join (generation_root s) (engine_value engine); b +:+ "/" +:+ directory; script] ++ args
  | None => script_argv (if str_truthy directory then directory else scripts_dir_name s) script args
  end.

(** C27: A script's command line means what was put into it.  For every setting,
    model name, parser, path, token and argument, whatever characters they
    contain, a shell that reads the line sets exactly the variables of the
    environment to exactly their values and runs exactly the intended program
    with exactly the given arguments: nothing is expanded, split, dropped or
    run besides.  The environment is that of [setup.sh], with the resume
    variables added, or that of a start script. *)
Theorem script_command_exact s ft bundle engine script args e extra :
  (_setup_script_env s engine = Ok e \/ exists model artifact request params draft plan, _start_script_env s ft model engine artifact request params draft plan = Ok e) ->
  Forall (fun kv => fst kv ∈ ["QIIP_PLAN_ID"; "QIIP_RESUME_STAGES"]) extra ->
  shell_reads (_remote_script_command s bundle engine script (e ++ extra) args) = Some (e ++ extra, intended_argv s bundle engine script args).
Proof.
  intros He Hx. assert (names_valid (e ++ extra)) as Hn.
  { apply names_app; [destruct He as [He|(m & a & q & p & d & pl & He)]; [by eapply setup_names|by eapply start_names]|].
    eapply Forall_impl; [exact Hx|]. cbn. intros kv Hk. repeat (apply elem_of_cons in Hk as [->|Hk]; [reflexivity|]). by apply not_elem_of_nil in Hk. }
  unfold _remote_script_command, intended_argv, _script_command. destruct bundle as [b|]; [destruct (bool_decide (script = "setup.sh"))|].
  - replace (str_truthy (b +:+ "/" +:+ _engine_scripts_dir s engine)) with true by by destruct b. unfold script_argv. by apply shell_reads_prefixed.
  - by apply shell_reads_prefixed.
  - unfold script_argv. by apply shell_reads_prefixed.
Qed.

Definition ex_settings : Settings :=
  mkSettings "/opt/qiip" "auto-vllm" (Some "nas:/models and more") "/mnt/it's" "550; reboot" "ab" 8000 20 "v1" "cd" "b1" "ef" "https://x/b1?a=1&b=2" "" "" true 4 512 (Some "hf_$(id)").

Lemma script_command_exact_witness : exists e, _start_script_env ex_settings (fun _ => "0.9") (Some "org/model`x`") VLLM None None None None None = Ok e /\
  shell_reads (_remote_script_command ex_settings (Some "bundles/x y") VLLM "start.sh" (e ++ []) ["--now"; ""]) =
    Some (e ++ [], ["python3"; "bundles/x y/common/generations.py"; "exec"; "/opt/qiip/vllm"; "bundles/x y/auto-vllm"; "start.sh"; "--now"; ""]).
Proof.
  eexists. split; [reflexivity|]. apply (script_command_exact ex_settings (fun _ => "0.9") (Some "bundles/x y") VLLM "start.sh" ["--now"; ""]); [|constructor].
  right. by exists (Some "org/model`x`"), None, None, None, None, None.
Defined.

(** The plan identity covers the setup environment.  When two configurations
    give the same plan inputs, whatever artifacts and requests they are for,
    they are for the same engine and [setup.sh] gets the same environment: a
    change of anything that is passed to the script changes the inputs of the
    identity, so that completed stages are not reused for it. *)
Theorem plan_covers_setup s s' bundle bundle' engine engine' artifact artifact' request request' params params' i :
  _setup_plan_inputs s bundle engine artifact request params = Ok i -> _setup_plan_inputs s' bundle' engine' artifact' request' params' = Ok i ->
  engine = engine' /\ _setup_script_env s engine = _setup_script_env s' engine' /\ is_ok (_setup_script_env s engine) = true.
Proof.
  unfold _setup_plan_inputs, _setup_script_env. destruct (_required_nfs_export s) as [n|]; [|done]. destruct (_required_nfs_export s') as [n'|]; [|done].
  cbn [rbind]. intros <-%ok_inj H%ok_inj. set (p := path_join (generation_root s) (engine_value engine)) in *. set (p' := path_join (generation_root s') (engine_value engine')) in *.
  clearbody p p'. destruct engine, engine'; try (vm_compute in H; discriminate H); (split; [done|]); (split; [|done]); cbn in H; injection H; intros;
    repeat match goal with E : _ s' = _ s |- _ => rewrite E; clear E end; congruence.
Qed.

Definition ex_settings' : Settings :=
  mkSettings "/opt//qiip/" "auto-vllm" (Some "nas:/models and more") "/mnt/it's" "550; reboot" "ab" 8000 20 "v1" "cd" "b1" "ef" "https://x/b1?a=1&b=2" "" "" true 4 1024 None.

Lemma plan_covers_setup_witness : _setup_script_env ex_settings LLAMA_CPP = _setup_script_env ex_settings' LLAMA_CPP.
Proof.
  edestruct (plan_covers_setup ex_settings ex_settings' (fun _ => "sha256:1") (fun _ => "sha256:1") LLAMA_CPP LLAMA_CPP None None None None None (Some JNull)) as (_ & H & _);
    [vm_compute; reflexivity|vm_compute; reflexivity|exact H].
Defined.
