(* ===== verification/FileSystem.v ===== *)
(** * Files on a node, and programs that change them one call at a time

    The node-side tools keep their state in directories, files and symbolic
    links, and rely on the atomicity of single calls ([rename], [symlink]) to
    survive an interruption between two of them.  A program is therefore a
    tree: it asks questions about the current state, performs one changing call
    after another, and goes on with what the calls answered.  [run] executes a
    program under any schedule of failing calls and lists every state it goes
    through, which are the states an interruption can leave behind; [wp] is the
    program logic for statements about all of them.

    Paths are absolute lists of components.  Calls that change something act on
    the path they are given, whose ancestors are real directories; questions
    follow symbolic links the way Python does. *)

From Stdlib Require Import Ascii.
From S2P Require Import Prelude PyDict Json.

(** ** State *)

Notation path := (list string) (only parsing).

(** Where a link points: an absolute path, or one relative to its directory. *)
Inductive target := Abs (p : path) | Rel (p : path).
#[global] Instance target_eq_dec : EqDecision target.
Proof. solve_decision. Defined.

#[global] Instance blob_eq_dec : EqDecision blob.
Proof.
  intros [a|a] [b|b]; try (right; congruence).
  - destruct (json_eqb a b) eqn:E; [left; f_equal; by apply json_eqb_eq|right]. intros [= ->].
    assert (json_eqb b b = true) by by apply json_eqb_eq. congruence.
  - destruct (decide (a = b)) as [->|]; [by left|right; congruence].
Defined.

Inductive entry := File (content : blob) (executable : bool) | Link (to : target) | Dir.
#[global] Instance entry_eq_dec : EqDecision entry.
Proof. solve_decision. Defined.

Notation fs := (@gmap (list string) (@list_eq_dec string String.eq_dec) (@list_countable string String.eq_dec String.countable) entry).

Definition look (f : fs) (p : path) : option entry := match p with [] => Some Dir | _ => f !! p end.

(** [q] is strictly below [p]; [rglob] lists what is. *)
Definition below (p q : path) : bool := bool_decide (p `prefix_of` q) && negb (bool_decide (p = q)).
Definition scan (f : fs) (p : path) : list (path * entry) := map_to_list (filter (fun kv => below p (fst kv) = true) f).

(** The exceptions the tools distinguish. *)
Inductive error := OSError | ValueError (message : string) | KeyError | TypeError | AttributeError | CalledProcessError | SyntaxError.

(** ** Questions *)

Inductive reader (A : Type) : Type :=
| RRet (a : A)
| RRaise (e : error)
| RLook (p : path) (k : option entry -> reader A)
| RScan (p : path) (k : list (path * entry) -> reader A).
Arguments RRet {A} a.
Arguments RRaise {A} e.
Arguments RLook {A} p k.
Arguments RScan {A} p k.

Fixpoint read {A} (r : reader A) (f : fs) : result error A :=
  match r with
  | RRet a => Ok a
  | RRaise e => Err e
  | RLook p k => read (k (look f p)) f
  | RScan p k => read (k (scan f p)) f
  end.

Fixpoint reader_bind_ {A B} (k : A -> reader B) (r : reader A) : reader B :=
  match r with
  | RRet a => k a
  | RRaise e => RRaise e
  | RLook p g => RLook p (fun e => reader_bind_ k (g e))
  | RScan p g => RScan p (fun l => reader_bind_ k (g l))
  end.

(** [try: .. except: ..] around questions. *)
Fixpoint rtry {A} (r : reader A) (h : error -> reader A) : reader A :=
  match r with
  | RRet a => RRet a
  | RRaise e => h e
  | RLook p g => RLook p (fun e => rtry (g e) h)
  | RScan p g => RScan p (fun l => rtry (g l) h)
  end.

#[global] Instance reader_ret : MRet reader := @RRet.
#[global] Instance reader_bind : MBind reader := fun A B k r => reader_bind_ k r.

Definition rlook (p : path) : reader (option entry) := RLook p RRet.
Definition rscan (p : path) : reader (list (path * entry)) := RScan p RRet.
Definition rguard (c : bool) (e : error) : reader unit := if c then RRaise e else RRet tt.

Fixpoint rmap {A B} (f : A -> reader B) (l : list A) : reader (list B) :=
  match l with
  | [] => RRet []
  | x :: l => y ← f x; ys ← rmap f l; RRet (y :: ys)
  end.

Definition reach {A} (f : A -> reader unit) (l : list A) : reader unit := _ ← rmap f l; RRet tt.

(** *** Paths as Python writes them *)

Definition components (s : string) : path := List.filter (fun c => negb (bool_decide (c = "" \/ c = "."))) (py_split "/" s "").
Definition absolute (s : string) : bool := startswith s "/".
Definition path_of (s : string) : option path := if absolute s then Some (components s) else None.
Definition str_of (p : path) : string := match p with [] => "/" | _ => String.concat "" (List.map (fun c => "/" +:+ c) p) end.
(** [p / name] *)
Definition join (p : path) (name : string) : path := if absolute name then components name else p ++ components name.
Definition parent (p : path) : path := removelast p.
Definition name (p : path) : string := List.last p "".
(** [as_posix()] of a path relative to one of its ancestors. *)
Definition posix (p : path) : string := String.concat "/" p.
Definition str_of_target (t : target) : string := match t with Abs p => str_of p | Rel p => posix p end.

(** *** Following links *)

(** The kernel's limit on the links of one lookup. *)
Definition MAX_LINKS : nat := 40.

Section walk.
Context (strict : bool).

Fixpoint walk (links : nat) : path -> list string -> reader path :=
  fix go (cwd : path) (todo : list string) {struct todo} : reader path :=
    match todo with
    | [] => RRet cwd
    | c :: rest =>
        if bool_decide (c = "..") then go (parent cwd) rest
        else RLook (cwd ++ [c]) (fun e =>
          match e with
          | Some (Link t) =>
              match links with
              | O => RRaise OSError
              | S links => match t with Abs p => walk links [] (p ++ rest) | Rel p => walk links cwd (p ++ rest) end
              end
          | Some _ => go (cwd ++ [c]) rest
          | None => if strict then RRaise OSError else go (cwd ++ [c]) rest
          end)
    end.
End walk.

Definition resolve (strict : bool) (p : path) : reader path := walk strict MAX_LINKS [] p.

(** The entry a path leads to. *)
Definition stat (p : path) : reader (option entry) := rtry (q ← resolve true p; rlook q) (fun _ => RRet None).
Definition exists_ (p : path) : reader bool := e ← stat p; RRet (is_some e).
Definition is_file (p : path) : reader bool := e ← stat p; RRet match e with Some (File _ _) => true | _ => false end.
Definition is_dir (p : path) : reader bool := e ← stat p; RRet match e with Some Dir => true | _ => false end.
Definition access_x (p : path) : reader bool := e ← stat p; RRet match e with Some (File _ x) => x | Some Dir => true | _ => false end.
Definition is_symlink (p : path) : reader bool := e ← rlook p; RRet match e with Some (Link _) => true | _ => false end.
Definition readlink (p : path) : reader string := e ← rlook p; match e with Some (Link t) => RRet (str_of_target t) | _ => RRaise OSError end.
Definition read_bytes (p : path) : reader blob :=
  q ← resolve true p; e ← rlook q; match e with Some (File c _) => RRet c | _ => RRaise OSError end.
(** [json.loads(path.read_text())] *)
Definition read_json (p : path) : reader json :=
  c ← read_bytes p; match loads c with Some j => RRet j | None => RRaise (ValueError "JSON") end.

(** ** Changes *)

(** One call that changes the state; [Sync] is [fsync] of a file or directory,
    which changes nothing that a reader sees but can fail. *)
Inductive op :=
| Write (p : path) (content : blob)
| Chmod (p : path) (executable : bool)
| Mkdir (p : path)
| Symlink (p : path) (to : target)
| Rename (p q : path)
| Unlink (p : path)
| Rmdir (p : path)
| Sync (p : path).

Definition is_empty (f : fs) (p : path) : bool := bool_decide (scan f p = []).

(** The part of the tree at and below [p], moved to [q]. *)
Definition at_or_below (p q : path) : bool := bool_decide (p `prefix_of` q).
Definition cut (p : path) (f : fs) : fs := filter (fun kv => at_or_below p (fst kv) = false) f.
Definition graft (q : path) (l : list (path * entry)) (n : nat) (f : fs) : fs := foldr (fun x f => <[ q ++ drop n (fst x) := snd x ]> f) f l.
Definition move (p q : path) (f : fs) : fs :=
  graft q (map_to_list (filter (fun kv => at_or_below p (fst kv) = true) f)) (length p) (cut q (cut p f)).

(** [None] is an [OSError]. *)
Definition apply (o : op) (f : fs) : option fs :=
  match o with
  | Write p c => match look f p with
                 | None => Some (<[ p := File c false ]> f)
                 | Some (File _ x) => Some (<[ p := File c x ]> f)
                 | _ => None
                 end
  | Chmod p x => match look f p with Some (File c _) => Some (<[ p := File c x ]> f) | _ => None end
  | Mkdir p => match look f p with None => Some (<[ p := Dir ]> f) | _ => None end
  | Symlink p t => match look f p with None => Some (<[ p := Link t ]> f) | _ => None end
  | Rename p q => match look f p with
                  | None => None
                  | Some Dir => match look f q with
                                | None => Some (move p q f)
                                | Some Dir => if is_empty f q then Some (move p q f) else None
                                | _ => None
                                end
                  | Some e => match look f q with Some Dir => None | _ => Some (<[ q := e ]> (base.delete p f)) end
                  end
  | Unlink p => match look f p with None | Some Dir => None | _ => Some (base.delete p f) end
  | Rmdir p => match look f p with Some Dir => if is_empty f p then Some (base.delete p f) else None | _ => None end
  | Sync _ => Some f
  end.

(** ** Programs *)

Inductive prog (A : Type) : Type :=
| Ret (a : A)
| Raise (e : error)
| Ask {B : Type} (r : reader B) (k : result error B -> prog A)
| Do (o : op) (k : bool -> prog A)
| Say (line : json) (k : prog A).
Arguments Ret {A} a.
Arguments Raise {A} e.
Arguments Ask {A B} r k.
Arguments Do {A} o k.
Arguments Say {A} line k.

Fixpoint prog_bind_ {A B} (k : A -> prog B) (m : prog A) : prog B :=
  match m with
  | Ret a => k a
  | Raise e => Raise e
  | Ask r g => Ask r (fun x => prog_bind_ k (g x))
  | Do o g => Do o (fun b => prog_bind_ k (g b))
  | Say l g => Say l (prog_bind_ k g)
  end.

(** [try: m; except e: h e; else: k] *)
Fixpoint try {A B} (m : prog A) (k : A -> prog B) (h : error -> prog B) : prog B :=
  match m with
  | Ret a => k a
  | Raise e => h e
  | Ask r g => Ask r (fun x => try (g x) k h)
  | Do o g => Do o (fun b => try (g b) k h)
  | Say l g => Say l (try g k h)
  end.

#[global] Instance prog_ret : MRet prog := @Ret.
#[global] Instance prog_bind : MBind prog := fun A B k m => prog_bind_ k m.

Definition ask {A} (r : reader A) : prog A := Ask r (fun x => match x with Ok a => Ret a | Err e => Raise e end).
Definition act (o : op) : prog unit := Do o (fun ok => if ok then Ret tt else Raise OSError).
Definition say (line : json) : prog unit := Say line (Ret tt).

Fixpoint each {A} (f : A -> prog unit) (l : list A) : prog unit :=
  match l with [] => Ret tt | x :: l => f x ;; each f l end.

(** What a run did: every state after a changing call, the last state, what was
    printed, the number of calls so far, and the result. *)
Record outcome (A : Type) := mkOutcome { states : list fs; now : fs; said : list json; used : nat; res : result error A }.
Arguments mkOutcome {A} _ _ _ _ _.
Arguments states {A} _.
Arguments now {A} _.
Arguments said {A} _.
Arguments used {A} _.
Arguments res {A} _.

(** [faults n] makes the call number [n] fail without effect. *)
Fixpoint run {A} (faults : nat -> bool) (n : nat) (m : prog A) (f : fs) : outcome A :=
  match m with
  | Ret a => mkOutcome [] f [] n (Ok a)
  | Raise e => mkOutcome [] f [] n (Err e)
  | Ask r k => run faults n (k (read r f)) f
  | Do o k => match (if faults n then None else apply o f) with
              | Some f' => let x := run faults (S n) (k true) f' in mkOutcome (f' :: states x) (now x) (said x) (used x) (res x)
              | None => run faults (S n) (k false) f
              end
  | Say l k => let x := run faults n k f in mkOutcome (states x) (now x) (l :: said x) (used x) (res x)
  end.

Definition no_faults (_ : nat) : bool := false.

(** *** Shared programs *)

(** [path.unlink(missing_ok=True)] *)
Definition unlink_missing_ok (p : path) : prog unit :=
  e ← ask (rlook p); match e with None => Ret tt | Some _ => act (Unlink p) end.

(** [path.mkdir(parents=True, exist_ok=True)] *)
Fixpoint mkdirs (base : path) (todo : list string) : prog unit :=
  match todo with
  | [] => Ret tt
  | c :: todo =>
      e ← ask (stat (base ++ [c]));
      match e with
      | Some Dir => Ret tt
      | Some _ => Raise OSError
      | None => act (Mkdir (base ++ [c]))
      end ;; mkdirs (base ++ [c]) todo
  end.
Definition mkdir_p (p : path) : prog unit := mkdirs [] p.

(** [shutil.rmtree]: the entries one by one, the deepest first. *)
Definition deeper (a b : path * entry) : bool := Nat.leb (length (fst b)) (length (fst a)).
Definition remove_entry (kv : path * entry) : prog unit := match snd kv with Dir => act (Rmdir (fst kv)) | _ => act (Unlink (fst kv)) end.
Definition rmtree (p : path) : prog unit :=
  l ← ask (rscan p); each remove_entry (sort_by deeper l) ;; act (Rmdir p).

(** ** The program logic *)

(** [wp fz m I Q E f]: from [f], every state that [m] goes through satisfies
    [I]; when it returns, [Q] holds of the result and the state, when it raises
    [E] does.  With [fz], each changing call may also fail without effect. *)
Fixpoint wp {A} (fz : bool) (m : prog A) (I : fs -> Prop) (Q : A -> fs -> Prop) (E : error -> fs -> Prop) (f : fs) : Prop :=
  match m with
  | Ret a => Q a f
  | Raise e => E e f
  | Ask r k => wp fz (k (read r f)) I Q E f
  | Do o k => match apply o f with
              | Some f' => I f' /\ wp fz (k true) I Q E f' /\ (fz = true -> wp fz (k false) I Q E f)
              | None => wp fz (k false) I Q E f
              end
  | Say _ k => wp fz k I Q E f
  end.

Lemma wp_sound {A} (fz : bool) (m : prog A) I Q E f faults n : (fz = false -> forall i, faults i = false) -> wp fz m I Q E f ->
  Forall I (states (run faults n m f)) /\
  match res (run faults n m f) with Ok a => Q a (now (run faults n m f)) | Err e => E e (now (run faults n m f)) end.
Proof.
  intros Hfz. revert n f. induction m as [a|e|B r k IH|o k IH|l k IH]; intros n f H; cbn in *; try (by split); [by apply IH| |by apply IH].
  destruct (apply o f) as [f'|] eqn:Ha.
  - destruct H as (HI & Ht & Hf). destruct (faults n) eqn:Hn.
    + destruct fz; [|by rewrite Hfz in Hn]. by apply IH, Hf.
    + cbn. destruct (IH true (S n) f' Ht) as [H1 H2]. split; [by constructor|done].
  - destruct (faults n); by apply IH.
Qed.

Lemma wp_bind {A B} (fz : bool) (m : prog A) (k : A -> prog B) I Q E f :
  wp fz m I (fun a => wp fz (k a) I Q E) E f -> wp fz (m ≫= k) I Q E f.
Proof.
  revert f. unfold mbind, prog_bind. induction m as [a|e|C r g IH|o g IH|l g IH]; intros f; cbn; try done; try apply IH.
  destruct (apply o f) as [f'|]; [|apply IH]. intros (H1 & H2 & H3). split; [done|]. split; [by apply IH|]. intros Hz. by apply IH, H3.
Qed.

Lemma wp_bind_inv {A B} (fz : bool) (m : prog A) (k : A -> prog B) I Q E f :
  wp fz (m ≫= k) I Q E f -> wp fz m I (fun a => wp fz (k a) I Q E) E f.
Proof.
  revert f. unfold mbind, prog_bind. induction m as [a|e|C r g IH|o g IH|l g IH]; intros f; cbn; try done; try apply IH.
  destruct (apply o f) as [f'|]; [|apply IH]. intros (H1 & H2 & H3). split; [done|]. split; [by apply IH|]. intros Hz. by apply IH, H3.
Qed.

Lemma wp_assoc {A B C} (fz : bool) (m : prog A) (k : A -> prog B) (l : B -> prog C) I Q E f :
  wp fz ((m ≫= k) ≫= l) I Q E f -> wp fz (m ≫= fun a => k a ≫= l) I Q E f.
Proof.
  revert f. unfold mbind, prog_bind. induction m as [a|e|D r g IH|o g IH|x g IH]; intros f; cbn; try done; try apply IH.
  destruct (apply o f) as [f'|]; [|apply IH]. intros (H1 & H2 & H3). split; [done|]. split; [by apply IH|]. intros Hz. by apply IH, H3.
Qed.

Lemma wp_try {A B} (fz : bool) (m : prog A) (k : A -> prog B) (h : error -> prog B) I Q E f :
  wp fz m I (fun a => wp fz (k a) I Q E) (fun e => wp fz (h e) I Q E) f -> wp fz (try m k h) I Q E f.
Proof.
  revert f. induction m as [a|e|C r g IH|o g IH|l g IH]; intros f; cbn; try done; try apply IH.
  destruct (apply o f) as [f'|]; [|apply IH]. intros (H1 & H2 & H3). split; [done|]. split; [by apply IH|]. intros Hz. by apply IH, H3.
Qed.

Lemma wp_weaken {A} (fz : bool) (m : prog A) (I I' : fs -> Prop) (Q Q' : A -> fs -> Prop) (E E' : error -> fs -> Prop) f :
  (forall g, I g -> I' g) -> (forall a g, Q a g -> Q' a g) -> (forall e g, E e g -> E' e g) -> wp fz m I Q E f -> wp fz m I' Q' E' f.
Proof.
  intros HI HQ HE. revert f. induction m as [a|e|C r g IH|o g IH|l g IH]; intros f; cbn; try done; try apply IH; [apply HQ|apply HE|].
  destruct (apply o f) as [f'|]; [|apply IH]. intros (H1 & H2 & H3). split; [by apply HI|]. split; [by apply IH|]. intros Hz. by apply IH, H3.
Qed.

Lemma wp_act  (fz : bool) o I (Q : unit -> fs -> Prop) (E : error -> fs -> Prop) f :
  match apply o f with Some f' => I f' /\ Q tt f' /\ (fz = true -> E OSError f) | None => E OSError f end -> wp fz (act o) I Q E f.
Proof. unfold act. cbn. by destruct (apply o f). Qed.

Lemma wp_ask {A} (fz : bool) (r : reader A) I (Q : A -> fs -> Prop) (E : error -> fs -> Prop) f :
  match read r f with Ok a => Q a f | Err e => E e f end -> wp fz (ask r) I Q E f.
Proof. unfold ask. cbn. by destruct (read r f). Qed.

(** A program of synchronizations changes nothing. *)
Lemma wp_each {A} (fz : bool) (c : A -> prog unit) l (I : fs -> Prop) (E : error -> fs -> Prop) f :
  (forall x g, I g -> wp fz (c x) I (fun _ => I) E g) -> I f -> wp fz (each c l) I (fun _ => I) E f.
Proof.
  intros Hc. revert f. induction l as [|x l IH]; intros f Hf; cbn [each]; [done|].
  apply wp_bind. eapply wp_weaken; [done| |done|by apply Hc]. intros [] g Hg. by apply IH.
Qed.

(** ** What a question depends on *)

Inductive place := At (p : path) | Below (p : path).

Fixpoint touched {A} (r : reader A) (f : fs) : list place :=
  match r with
  | RRet _ | RRaise _ => []
  | RLook p k => At p :: touched (k (look f p)) f
  | RScan p k => Below p :: touched (k (scan f p)) f
  end.

Definition same_at (f g : fs) (x : place) : Prop :=
  match x with At p => look f p = look g p | Below p => forall q, below p q = true -> f !! q = g !! q end.

Lemma scan_same f g p : (forall q, below p q = true -> f !! q = g !! q) -> scan f p = scan g p.
Proof.
  intros H. unfold scan. f_equal. apply map_eq. intros q. apply option_eq. intros e. rewrite !map_lookup_filter_Some. cbn.
  split; intros [H1 H2]; (split; [|done]); [by rewrite <- H|by rewrite H].
Qed.

(** The frame property: a question is answered the same way in states that
    agree on the places it looks at. *)
Lemma read_frame {A} (r : reader A) f g : Forall (same_at f g) (touched r f) -> read r g = read r f.
Proof.
  induction r as [a|e|p k IH|p k IH]; cbn; try done.
  - intros [H1 H2]%Forall_cons. cbn in H1. rewrite <- H1. by apply IH.
  - intros [H1 H2]%Forall_cons. cbn in H1. rewrite <- (scan_same f g p H1). by apply IH.
Qed.

Lemma touched_frame {A} (r : reader A) f g : Forall (same_at f g) (touched r f) -> touched r g = touched r f.
Proof.
  induction r as [a|e|p k IH|p k IH]; cbn; try done.
  - intros [H1 H2]%Forall_cons. cbn in H1. rewrite <- H1. f_equal. by apply IH.
  - intros [H1 H2]%Forall_cons. cbn in H1. rewrite <- (scan_same f g p H1). f_equal. by apply IH.
Qed.

Lemma read_bind {A B} (r : reader A) (k : A -> reader B) f : read (r ≫= k) f = match read r f with Ok a => read (k a) f | Err e => Err e end.
Proof. unfold mbind, reader_bind. induction r as [a|e|p g IH|p g IH]; cbn; done. Qed.

Lemma touched_bind {A B} (r : reader A) (k : A -> reader B) f :
  touched (r ≫= k) f = touched r f ++ match read r f with Ok a => touched (k a) f | Err _ => [] end.
Proof. unfold mbind, reader_bind. induction r as [a|e|p g IH|p g IH]; cbn; try done; by rewrite IH. Qed.

(** *** Places apart from what changes *)

(** A place outside some paths, and outside a tree. *)
Definition avoids (l : list path) (x : place) : bool :=
  match x with At p => negb (bool_decide (p ∈ l)) | Below p => forallb (fun q => negb (below p q)) l end.
Definition avoids_tree (t : path) (x : place) : bool :=
  match x with At p => negb (at_or_below t p) | Below p => negb (at_or_below t p) && negb (at_or_below p t) end.

Lemma avoids_same l f g x : avoids l x = true -> (forall q, q ∉ l -> f !! q = g !! q) -> same_at f g x.
Proof.
  destruct x as [p|p]; cbn; intros Ha H.
  - apply negb_true_iff, bool_decide_eq_false in Ha. destruct p; cbn; [done|by apply H].
  - intros q Hq. apply H. intros Hin. rewrite forallb_forall in Ha. by rewrite (Ha q (proj1 (list_elem_of_In _ _) Hin)) in Hq || (apply list_elem_of_In, Ha in Hin; by rewrite Hq in Hin).
Qed.

(** ** Real directories *)

(** Every prefix of [p] is a directory. *)
Definition realb (f : fs) (p : path) : bool :=
  forallb (fun n => bool_decide (f !! take n p = Some Dir)) (seq 1 (length p)) && forallb (fun c => negb (bool_decide (c = ".."))) p.

Lemma realb_spec f p : realb f p = true <-> (forall q, q `prefix_of` p -> q <> [] -> f !! q = Some Dir) /\ Forall (fun c => c <> "..") p.
Proof.
  unfold realb. rewrite andb_true_iff, !forallb_forall, Forall_forall. split.
  - intros [H1 H2]. split.
    + intros q [r ->] Hq. specialize (H1 (length q)). rewrite bool_decide_eq_true, take_app_length in H1. apply H1, in_seq.
      destruct q; [done|]. rewrite length_app. cbn. lia.
    + intros c Hc. apply list_elem_of_In, H2, negb_true_iff, bool_decide_eq_false in Hc. done.
  - intros [H1 H2]. split.
    + intros n Hn%in_seq. apply bool_decide_eq_true, H1; [apply prefix_take|]. destruct p; cbn in *; [lia|]. destruct n; [lia|done].
    + intros c Hc. apply list_elem_of_In, H2 in Hc. by apply negb_true_iff, bool_decide_eq_false.
Qed.

Lemma realb_prefix f p q : realb f p = true -> q `prefix_of` p -> realb f q = true.
Proof. rewrite !realb_spec. intros [H1 H2] Hq. split; [intros r Hr; apply H1; by etrans|]. destruct Hq as [r ->]. by apply Forall_app in H2 as [? _]. Qed.

Lemma realb_frame f g p : realb f p = true -> (forall q, f !! q = Some Dir -> g !! q = f !! q) -> realb g p = true.
Proof. rewrite !realb_spec. intros [H1 H2] H. split; [|done]. intros q Hq Hn. rewrite H; by apply H1. Qed.

Lemma look_snoc f p c : look f (p ++ [c]) = f !! (p ++ [c]).
Proof. by destruct p. Qed.

#[local] Arguments look : simpl never.

(** A lookup does not turn on real directories. *)
Lemma read_walk_real strict links f cwd todo rest : realb f (cwd ++ todo) = true ->
  read (walk strict links cwd (todo ++ rest)) f = read (walk strict links (cwd ++ todo) rest) f.
Proof.
  revert cwd. induction todo as [|c todo IH]; intros cwd Hr; [by rewrite app_nil_r|].
  assert (read (walk strict links cwd ((c :: todo) ++ rest)) f = read (walk strict links (cwd ++ [c]) (todo ++ rest)) f) as ->.
  { pose proof (proj1 (realb_spec _ _) Hr) as [H1 H2]. apply Forall_app in H2 as [_ [Hc _]%Forall_cons].
    assert (f !! (cwd ++ [c]) = Some Dir) as Hd. { apply H1; [exists todo; by rewrite <- app_assoc|by destruct cwd]. }
    destruct links; cbn; rewrite bool_decide_eq_false_2 by done; cbn; by rewrite look_snoc, Hd. }
  rewrite IH; rewrite <- app_assoc; done.
Qed.

Lemma walk_nil strict links cwd : walk strict links cwd [] = RRet cwd.
Proof. by destruct links. Qed.

Lemma resolve_real strict f p : realb f p = true -> read (resolve strict p) f = Ok p.
Proof. intros H. unfold resolve. rewrite <- (app_nil_r p) at 1. rewrite read_walk_real by done. by rewrite walk_nil. Qed.

(** The last step of a lookup. *)
Lemma read_walk_last strict links f p c : realb f p = true -> c <> ".." ->
  read (walk strict (S links) [] (p ++ [c])) f =
  match f !! (p ++ [c]) with
  | Some (Link (Abs t)) => read (walk strict links [] t) f
  | Some (Link (Rel t)) => read (walk strict links p t) f
  | Some _ => Ok (p ++ [c])
  | None => if strict then Err OSError else Ok (p ++ [c])
  end.
Proof.
  intros Hr Hc. rewrite read_walk_real by done. cbn. rewrite bool_decide_eq_false_2 by done. cbn. rewrite look_snoc.
  destruct (f !! (p ++ [c])) as [[|[t|t]|]|] eqn:E; try done; rewrite ?app_nil_r; try done. by destruct strict.
Qed.

Lemma resolve_last strict f p c : realb f p = true -> c <> ".." ->
  read (resolve strict (p ++ [c])) f =
  match f !! (p ++ [c]) with
  | Some (Link (Abs t)) => read (walk strict 39 [] t) f
  | Some (Link (Rel t)) => read (walk strict 39 p t) f
  | Some _ => Ok (p ++ [c])
  | None => if strict then Err OSError else Ok (p ++ [c])
  end.
Proof. unfold resolve, MAX_LINKS. apply read_walk_last. Qed.

(** A link to a real directory. *)
Lemma resolve_link strict f p c t : realb f p = true -> c <> ".." -> f !! (p ++ [c]) = Some (Link (Abs t)) -> realb f t = true ->
  read (resolve strict (p ++ [c])) f = Ok t.
Proof.
  intros Hr Hc Hl Ht. rewrite resolve_last, Hl by done. rewrite <- (app_nil_r t) at 1. rewrite read_walk_real by done. by rewrite walk_nil.
Qed.

Lemma read_rtry {A} (r : reader A) h f : read (rtry r h) f = match read r f with Ok a => Ok a | Err e => read (h e) f end.
Proof. induction r as [a|e|p g IH|p g IH]; cbn; done. Qed.

Lemma read_stat p f : read (stat p) f = Ok match read (resolve true p) f with Ok q => look f q | Err _ => None end.
Proof. unfold stat. rewrite read_rtry, read_bind. by destruct (read (resolve true p) f). Qed.

Lemma read_exists p f : read (exists_ p) f = Ok match read (resolve true p) f with Ok q => is_some (look f q) | Err _ => false end.
Proof. unfold exists_. rewrite read_bind, read_stat. by destruct (read (resolve true p) f). Qed.

Lemma look_real f p : realb f p = true -> look f p = Some Dir.
Proof. intros H. destruct p as [|c p]; [done|]. apply realb_spec in H as [H _]. by apply H. Qed.

Lemma exists_last f p c : realb f p = true -> c <> ".." -> f !! (p ++ [c]) = None -> read (exists_ (p ++ [c])) f = Ok false.
Proof. intros. by rewrite read_exists, resolve_last, H1. Qed.

Lemma exists_file f p c b x : realb f p = true -> c <> ".." -> f !! (p ++ [c]) = Some (File b x) -> read (exists_ (p ++ [c])) f = Ok true.
Proof. intros H Hc Hf. by rewrite read_exists, resolve_last, Hf, look_snoc, Hf. Qed.

Lemma read_bytes_file f p c b x : realb f p = true -> c <> ".." -> f !! (p ++ [c]) = Some (File b x) -> read (read_bytes (p ++ [c])) f = Ok b.
Proof. intros H Hc Hf. unfold read_bytes. rewrite read_bind, resolve_last, Hf by done. cbn. by rewrite look_snoc, Hf. Qed.

(** ** Paths and text *)

Definition plain_char (c : ascii) : bool := negb (bool_decide (c = "/"%char)).
(** A component that a path keeps as it is. *)
Definition plain_name (c : string) : bool := forallb plain_char (String.list_ascii_of_string c) && negb (bool_decide (c = "" \/ c = "." \/ c = "..")).

Lemma split_plain c s cur : forallb plain_char (String.list_ascii_of_string c) = true -> py_split "/" (c +:+ s) cur = py_split "/" s (cur +:+ c).
Proof.
  revert cur. induction c as [|a c IH]; intros cur H; [by rewrite append_nil_r|].
  cbn in H. apply andb_prop in H as [Ha Hc]. unfold plain_char in Ha. apply negb_true_iff, bool_decide_eq_false in Ha.
  change (String a c +:+ s) with (String a (c +:+ s)). cbn [py_split]. rewrite bool_decide_eq_false_2 by done. rewrite IH by done.
  f_equal. by rewrite append_assoc.
Qed.

Lemma concat_slash c p : String.concat "" (List.map (fun c => "/" +:+ c) (c :: p)) = "/" +:+ (c +:+ String.concat "" (List.map (fun c => "/" +:+ c) p)).
Proof. destruct p as [|d p]; cbn [List.map String.concat]; [by rewrite append_nil_r|]. by rewrite append_assoc. Qed.

Lemma split_str_of p cur : Forall (fun c => plain_name c = true) p ->
  py_split "/" (String.concat "" (List.map (fun c => "/" +:+ c) p)) cur = cur :: p.
Proof.
  intros H. revert cur. induction p as [|c p IH]; intros cur; [done|]. apply Forall_cons in H as [Hc Hp].
  rewrite concat_slash. change ("/" +:+ ?x) with (String "/" x). cbn [py_split]. rewrite bool_decide_eq_true_2 by done.
  apply andb_prop in Hc as [Hc _]. rewrite split_plain by done. rewrite IH by done. done.
Qed.

Lemma filter_plain p : Forall (fun c => plain_name c = true) p -> List.filter (fun c => negb (bool_decide (c = "" \/ c = "."))) p = p.
Proof.
  intros H. induction H as [|c p Hc Hp IH]; [done|]. cbn. rewrite IH. apply andb_prop in Hc as [_ Hc]. apply negb_true_iff, bool_decide_eq_false in Hc.
  rewrite bool_decide_eq_false_2; [done|]. naive_solver.
Qed.

(** Writing a path and reading it back. *)
Lemma path_of_str_of p : Forall (fun c => plain_name c = true) p -> path_of (str_of p) = Some p.
Proof.
  intros H. destruct p as [|c p]; [done|]. unfold path_of, absolute. cbn [str_of].
  assert (startswith (String.concat "" (List.map (fun c => "/" +:+ c) (c :: p))) "/" = true) as ->.
  { rewrite concat_slash. apply prefix_app. }
  f_equal. unfold components. rewrite split_str_of by done. cbn [List.filter]. rewrite bool_decide_eq_true_2 by (by left). cbn [negb]. by apply (filter_plain (c :: p)).
Qed.

Lemma join_plain p c : plain_name c = true -> join p c = p ++ [c].
Proof.
  intros H. pose proof H as [Hc _]%andb_prop. unfold join. assert (absolute c = false) as ->.
  { unfold absolute, startswith. destruct c as [|a c]; [done|]. cbn in Hc. apply andb_prop in Hc as [Ha _]. unfold plain_char in Ha.
    apply negb_true_iff, bool_decide_eq_false in Ha. cbn [String.prefix]. destruct (Ascii.ascii_dec "/"%char a); congruence. }
  f_equal. unfold components. rewrite <- (append_nil_r c) at 1. rewrite split_plain by done. cbn [py_split].
  change ("" +:+ c) with c. apply (filter_plain [c]). by constructor.
Qed.

(** ** Moved trees *)

Lemma graft_other q l n f r : at_or_below q r = false -> graft q l n f !! r = f !! r.
Proof.
  intros H. induction l as [|[k e] l IH]; [done|]. unfold graft. cbn [foldr]. fold (graft q l n f). rewrite lookup_insert_ne; [exact IH|]. intros <-.
  apply bool_decide_eq_false in H. apply H. by apply prefix_app_r.
Qed.

Lemma cut_other p f r : at_or_below p r = false -> cut p f !! r = f !! r.
Proof.
  intros H. unfold cut. apply option_eq. intros e. rewrite map_lookup_filter_Some. cbn. naive_solver.
Qed.

(** Renaming a directory leaves everything outside both trees. *)
Lemma move_other p q f r : at_or_below p r = false -> at_or_below q r = false -> move p q f !! r = f !! r.
Proof. intros Hp Hq. unfold move. by rewrite graft_other, !cut_other. Qed.

Lemma graft_In q l n f k e : NoDup l.*1 -> Forall (fun x => exists s, fst x = take n k ++ s /\ length (take n k) = n) l -> (k, e) ∈ l -> graft q l n f !! (q ++ drop n k) = Some e.
Proof.
  intros Hnd Hl Hin. induction l as [|[k' e'] l IH]; [by apply not_elem_of_nil in Hin|]. cbn in *. apply NoDup_cons in Hnd as [Hk Hnd].
  apply Forall_cons in Hl as [(s & Hs & Hlen) Hl]. apply elem_of_cons in Hin as [[= -> ->]|Hin]; [by rewrite lookup_insert_eq|].
  rewrite lookup_insert_ne; [by apply IH|]. intros E. apply app_inv_head in E. apply Hk. cbn in Hs. subst k'.
  rewrite drop_app_length' in E by done. subst s. rewrite take_drop. apply list_elem_of_fmap. by exists (k, e).
Qed.

(** A renamed directory has the entries it had before. *)
Lemma move_moved p q f s e : f !! (p ++ s) = Some e -> move p q f !! (q ++ s) = Some e.
Proof.
  intros H. unfold move. set (l := map_to_list _). assert (s = drop (length p) (p ++ s)) as Hs by (by rewrite drop_app_length).
  rewrite Hs. apply graft_In.
  - apply NoDup_fst_map_to_list.
  - apply Forall_forall. intros [k e'] Hk%elem_of_map_to_list. apply map_lookup_filter_Some in Hk as [_ Hk]. apply bool_decide_eq_true in Hk as [u Hk]. cbn in *.
    exists u. rewrite take_app_length. done.
  - apply elem_of_map_to_list, map_lookup_filter_Some. split; [done|]. apply bool_decide_eq_true. by exists s.
Qed.

(** ** Calls are local *)

Definition op_paths (o : op) : list path :=
  match o with Write p _ | Chmod p _ | Mkdir p | Symlink p _ | Unlink p | Rmdir p => [p] | Rename p q => [p; q] | Sync _ => [] end.

(** A call changes nothing but the trees at the paths it names. *)
Lemma apply_local o f f' q : apply o f = Some f' -> Forall (fun p => at_or_below p q = false) (op_paths o) -> f' !! q = f !! q.
Proof.
  assert (forall p, at_or_below p q = false -> p <> q) as Hne. { intros p H ->. apply bool_decide_eq_false in H. by apply H. }
  intros Ha Hp. destruct o as [p c|p x|p|p t|p r|p|p|p]; cbn in Ha, Hp; try (apply Forall_cons in Hp as [Hp Hr]; pose proof (Hne p Hp));
    try (repeat (case_match; simplify_eq); by rewrite ?lookup_insert_ne, ?lookup_delete_ne by done).
  2: by simplify_eq.
  apply Forall_cons in Hr as [Hr _]. pose proof (Hne r Hr).
  repeat (case_match; simplify_eq); try (by apply move_other); by rewrite ?lookup_insert_ne, ?lookup_delete_ne by done.
Qed.

Lemma mkdirs_real fz (I : fs -> Prop) (Q : unit -> fs -> Prop) (E : error -> fs -> Prop) base todo f :
  realb f (base ++ todo) = true -> Q tt f -> wp fz (mkdirs base todo) I Q E f.
Proof.
  revert base. induction todo as [|c todo IH]; intros base Hr HQ; [done|]. cbn [mkdirs]. rewrite (cons_middle c base todo), app_assoc in Hr.
  assert (realb f (base ++ [c]) = true) as Hc by (eapply realb_prefix; [exact Hr|by exists todo]).
  apply wp_bind, wp_ask. rewrite read_stat, resolve_real, look_real by done. apply wp_bind. cbn [wp]. by apply IH.
Qed.

Lemma graft_None q l n f r : Forall (fun x => drop n (fst x) <> r) l -> graft q l n f !! (q ++ r) = f !! (q ++ r).
Proof.
  intros H. induction H as [|[k e] l Hx _ IH]; [done|]. unfold graft. cbn [foldr]. fold (graft q l n f). rewrite lookup_insert_ne; [exact IH|].
  intros E. apply app_inv_head in E. done.
Qed.

Lemma cut_below p f r : cut p f !! (p ++ r) = None.
Proof. unfold cut. apply map_lookup_filter_None. right. intros e _. cbn. unfold at_or_below. rewrite bool_decide_eq_true_2 by (by exists r). done. Qed.

(** A renamed tree is exactly the one it was. *)
Lemma move_exact p q f r : at_or_below p q = false -> at_or_below q p = false -> move p q f !! (q ++ r) = f !! (p ++ r).
Proof.
  intros Hpq Hqp. destruct (f !! (p ++ r)) as [e|] eqn:He; [by apply move_moved|]. unfold move. rewrite graft_None; [by apply cut_below|].
  apply Forall_forall. intros [k e] Hk%elem_of_map_to_list. apply map_lookup_filter_Some in Hk as [Hk Hb]. apply bool_decide_eq_true in Hb as [u Hu]. cbn in *. subst k.
  rewrite drop_app_length. intros ->. congruence.
Qed.

(** ** Directories next to each other *)

Section siblings.
Context (dir : path).

Lemma at_or_below_sibling x y r : at_or_below (dir ++ [x]) (dir ++ y :: r) = bool_decide (x = y).
Proof.
  unfold at_or_below. apply bool_decide_ext. split; [|intros ->; exists r; by rewrite <- app_assoc].
  intros [u Hu]. rewrite <- app_assoc in Hu. apply app_inv_head in Hu. by injection Hu.
Qed.

(** A call inside some of the siblings leaves the others, and the directory. *)
Lemma apply_siblings o f f' (X : list string) : apply o f = Some f' -> Forall (fun p => exists x r, x ∈ X /\ p = dir ++ x :: r) (op_paths o) ->
  (forall y r, y ∉ X -> f' !! (dir ++ y :: r) = f !! (dir ++ y :: r)) /\ (realb f dir = true -> realb f' dir = true).
Proof.
  intros Ha Ho. split.
  - intros y r Hy. apply (apply_local o f f' _ Ha). eapply Forall_impl; [exact Ho|]. cbn. intros p (x & r' & Hx & ->).
    apply bool_decide_eq_false. intros [u Hu]. rewrite <- app_assoc in Hu. apply app_inv_head in Hu. injection Hu as <- _. done.
  - rewrite !realb_spec. intros [H1 H2]. split; [|done]. intros q Hq Hn. rewrite <- (H1 q Hq Hn). apply (apply_local o f f' _ Ha).
    eapply Forall_impl; [exact Ho|]. cbn. intros p (x & r' & _ & ->). apply bool_decide_eq_false. intros Hb. assert (dir ++ x :: r' `prefix_of` dir) as [u Hu] by (by etrans).
    apply (f_equal length) in Hu. rewrite !length_app in Hu. cbn in Hu. lia.
Qed.
End siblings.

Lemma scan_below f p q e : (q, e) ∈ scan f p -> exists n r, q = p ++ n :: r.
Proof.
  intros H. apply elem_of_map_to_list, map_lookup_filter_Some in H as [_ H]. cbn in H. apply andb_prop in H as [H1 H2].
  apply bool_decide_eq_true in H1 as [[|n r] ->]; [|by eexists _, _]. rewrite app_nil_r in H2. by rewrite bool_decide_eq_true_2 in H2.
Qed.

Lemma is_empty_below f p x r : is_empty f p = true -> f !! (p ++ x :: r) = None.
Proof.
  intros H. apply bool_decide_eq_true in H. destruct (f !! (p ++ x :: r)) as [e|] eqn:E; [|done]. assert ((p ++ x :: r, e) ∈ scan f p) as Hin.
  { apply elem_of_map_to_list, map_lookup_filter_Some. split; [done|]. cbn. unfold below. rewrite bool_decide_eq_true_2 by (by exists (x :: r)).
    rewrite bool_decide_eq_false_2; [done|]. intros Ep. apply (f_equal length) in Ep. rewrite length_app in Ep. cbn in Ep. lia. }
  rewrite H in Hin. by apply not_elem_of_nil in Hin.
Qed.
