(* ===== verification/Generations.v ===== *)
(** * Engine generations on a node ([common/generations.py])

    A node keeps sealed setup bundles and engine runtimes, joins one of each
    into a generation, and selects a generation with the symbolic link
    [current]; [previous] keeps the selection before it, and [ROLLBACK.json] is
    the journal of a rollback.  The file models every function of the tool over
    the file system of [FileSystem] and shows what an interruption between any
    two calls, or any failing call, can leave behind.

    The hash and the syntax checks of [bash -n] and [compile] are arguments.
    The random part of a temporary name is an argument as well.  [flock] makes
    the locked sections of publishers exclude each other, so that one of them
    runs at a time; readers take no lock and may see any state in between. *)

From Stdlib Require Import Ascii.
From stdpp Require Import pretty.
From S2P Require Import Prelude PyDict Json FileSystem.

(** ** Documents *)

Definition key_le {A} (a b : string * A) : bool := String.leb (fst a) (fst b).

(** [json.dumps(value, sort_keys=True)] orders the keys of every object. *)
Fixpoint sort_keys (j : json) : json :=
  match j with
  | JList l => JList (List.map sort_keys l)
  | JObj d => JObj (sort_by key_le (List.map (fun kv => (fst kv, sort_keys (snd kv))) d))
  | _ => j
  end.

(** Python compares dictionaries without regard to order. *)
Definition py_eq (a b : json) : bool := json_eqb (sort_keys a) (sort_keys b).

(** [value[key]], [mapping.items()], [mapping.get(key, {})] and a string where
    one is needed. *)
Definition item (k : string) (j : json) : reader json :=
  match j with JObj d => match dget k d with Some v => RRet v | None => RRaise KeyError end | _ => RRaise TypeError end.
Definition items (j : json) : reader (list (string * json)) := match j with JObj d => RRet d | _ => RRaise AttributeError end.
Definition get_items (k : string) (j : json) : reader (list (string * json)) :=
  match j with JObj d => match dget k d with Some v => items v | None => RRet [] end | _ => RRaise AttributeError end.
Definition text_item (k : string) (j : json) : reader string :=
  v ← item k j; match v with JStr s => RRet s | _ => RRaise TypeError end.
(** A recorded path; the tool records resolved ones only. *)
Definition path_item (k : string) (j : json) : reader path :=
  s ← text_item k j; match path_of s with Some p => RRet p | None => RRaise OSError end.

Definition lift {A} (r : result error A) : reader A := match r with Ok a => RRet a | Err e => RRaise e end.

(** ** The service unit *)

Definition newline : string := String (ascii_of_nat 10) "".
Definition dquote : string := String (ascii_of_nat 34) "".

Definition unit_char (c : ascii) : string :=
  if bool_decide (c = "\"%char) then "\\"
  else if bool_decide (c = ascii_of_nat 34) then "\" +:+ dquote
  else if bool_decide (c = "%"%char) then "%%"
  else if bool_decide (c = "$"%char) then "$$"
  else String c "".
Definition quote (p : path) : string := dquote +:+ String.concat "" (List.map unit_char (String.list_ascii_of_string (str_of p))) +:+ dquote.

Definition unit_text (root bundle : path) (engine_dir : string) : string :=
  let command := "/usr/bin/python3 " +:+ quote (join bundle "common/generations.py") +:+ " exec-service " +:+ quote root +:+ " " +:+ quote (join bundle engine_dir) in
  String.concat newline
    ["[Unit]"; "Description=vLLM inference server"; "After=network-online.target nvidia-fabricmanager.service";
     "Wants=network-online.target"; ""; "[Service]"; "Type=exec";
     "ExecStartPre=" +:+ command +:+ " wait-fabric.sh"; "ExecStartPre=" +:+ command +:+ " preflight.sh --check-only";
     "ExecStart=" +:+ command +:+ " start-vllm.sh"; "Restart=on-failure"; "RestartSec=10"; ""; "[Install]"; "WantedBy=multi-user.target"; ""].
Definition service_unit (root bundle : path) (engine_dir : string) : reader string :=
  r ← resolve false root; RRet (unit_text r bundle engine_dir).

Section tool.
Context (sha256 : blob -> string) (bash_ok python_ok : blob -> bool).

(** ** Digests and manifests *)

Definition digest (v : json) : string := sha256 (dumps (sort_keys v)).
Definition file_digest (p : path) : reader string := c ← read_bytes p; RRet (sha256 c).

Definition write_json (p : path) (v : json) : prog unit :=
  let temporary := parent p ++ ["." +:+ name p +:+ ".pending"] in
  act (Write temporary (OtherBytes "")) ;;
  act (Write temporary (dumps (sort_keys v))) ;;
  act (Sync temporary) ;;
  act (Rename temporary p) ;;
  act (Sync (parent p)).

(** The files of a bundle with their digests; the order does not matter because
    manifests are compared and hashed as dictionaries. *)
Fixpoint bundle_files (root : path) (l : list (path * entry)) : result error (list (string * json)) :=
  match l with
  | [] => Ok []
  | (p, Link _) :: l => Err (ValueError "Bundle contains a symlink")
  | (p, Dir) :: l => bundle_files root l
  | (p, File c _) :: l =>
      let? files := bundle_files root l in
      Ok (if bool_decide (name p = "BUNDLE.json") then files else (posix (drop (length root) p), JStr (sha256 c)) :: files)
  end.
Definition bundle_manifest (root : path) : reader json :=
  l ← rscan root; files ← lift (bundle_files root l); RRet (JObj [("schema", JNum 1); ("files", JObj files)]).

Definition check_syntax (root : path) (n : string) : reader unit :=
  if endswith n ".sh" then c ← read_bytes (join root n); rguard (negb (bash_ok c)) CalledProcessError
  else if endswith n ".py" then c ← read_bytes (join root n); rguard (negb (python_ok c)) SyntaxError
  else RRet tt.

(** [expected] is [JNull] where the code passes none. *)
Definition verify_bundle (root : path) (expected : json) : reader json :=
  manifest ← read_json (root ++ ["BUNDLE.json"]);
  actual ← bundle_manifest root;
  rguard (negb (py_eq manifest actual) || (truthy expected && negb (json_eqb (JStr (digest manifest)) expected))) (ValueError "Incomplete or corrupt setup bundle") ;;
  files ← item "files" manifest;
  files ← items files;
  reach (check_syntax root) (dkeys files) ;;
  RRet manifest.

(** ** Publication *)

Definition sync_file (kv : path * entry) : prog unit := f ← ask (is_file (fst kv)); if (f : bool) then act (Sync (fst kv)) else Ret tt.
(** A publication also flushes directories behind links. *)
Definition sync_dir (follow : bool) (kv : path * entry) : prog unit :=
  d ← ask (if follow then is_dir (fst kv) else RRet (bool_decide (snd kv = Dir))); if (d : bool) then act (Sync (fst kv)) else Ret tt.
Definition sync_tree (follow : bool) (root : path) : prog unit :=
  l ← ask (rscan root); each sync_file l ;; each (sync_dir follow) (sort_by deeper l) ;; act (Sync root).

(** [lock_path.open("a")] creates the file that is locked. *)
Definition open_lock (p : path) : prog unit :=
  e ← ask (rlook p); match e with None => act (Write p (OtherBytes "")) | Some Dir => Raise OSError | Some _ => Ret tt end.

Definition quarantined (e : error) : bool := match e with OSError | ValueError _ | KeyError | TypeError | CalledProcessError => true | _ => false end.

Definition check_destination (verify : path -> reader json) (final : path) : prog unit :=
  l ← ask (is_symlink final);
  (if (l : bool) then Raise (ValueError "Publication destination is a symlink") else Ret tt) ;;
  ask (verify final) ;; Ret tt.

Definition publish_locked (staged final : path) (verify : path -> reader json) (tag : string) : prog unit :=
  present ← ask (exists_ final);
  linked ← ask (is_symlink final);
  (if (present : bool) || (linked : bool) then
     try (check_destination verify final) (fun _ => rmtree staged)
       (fun e => if quarantined e then
                   let quarantine := parent final ++ [".corrupt-" +:+ name final +:+ "-" +:+ tag] in
                   act (Mkdir quarantine) ;; act (Rename final (quarantine ++ ["contents"])) ;; act (Sync (parent final))
                 else Raise e)
   else Ret tt) ;;
  there ← ask (exists_ staged);
  (if (there : bool) then act (Rename staged final) else Ret tt) ;;
  act (Sync (parent final)).

Definition publish_directory (staged final : path) (verify : path -> reader json) (lock_path : path) (tag : string) : prog unit :=
  ask (verify staged) ;;
  sync_tree true staged ;;
  open_lock lock_path ;;
  publish_locked staged final verify tag.

Definition publish_bundle (staged final : path) (expected tag : string) : prog unit :=
  publish_directory staged final (fun p => verify_bundle p (JStr expected)) (parent final ++ [".publication.lock"]) tag.

(** *** The snapshot of a checkout *)

Definition children (p : path) (l : list (path * entry)) : list path := List.filter (fun q => Nat.eqb (length q) (S (length p))) l.*1.

Definition copy_file (destination p : path) : prog unit :=
  f ← ask (is_file p);
  if (f : bool) then
    c ← ask (read_bytes p); x ← ask (access_x p);
    let q := destination ++ [name p] in
    act (Write q (OtherBytes "")) ;; act (Write q c) ;; act (Chmod q x)
  else Ret tt.

Definition copy_source (staged source : path) : prog unit :=
  let destination := staged ++ [name source] in
  act (Mkdir destination) ;;
  real ← ask (resolve true source);
  d ← ask (is_dir real);
  (if (d : bool) then Ret tt else Raise OSError) ;;
  l ← ask (rscan real);
  each (copy_file destination) (children real l).

Definition setup_bundle (root engine : path) (tag tag2 : string) : prog path :=
  let checkout := parent engine in
  sealed ← ask (is_file (checkout ++ ["BUNDLE.json"]));
  if (sealed : bool) then ask (verify_bundle checkout JNull) ;; ask (resolve false checkout)
  else
    let bundles := root ++ ["bundles"] in
    mkdir_p bundles ;;
    let staged := bundles ++ [".incomplete-" +:+ tag] in
    act (Mkdir staged) ;;
    each (copy_source staged) [engine; checkout ++ ["common"]] ;;
    manifest ← ask (bundle_manifest staged);
    write_json (staged ++ ["BUNDLE.json"]) manifest ;;
    let final := bundles ++ [digest manifest] in
    publish_bundle staged final (digest manifest) tag2 ;;
    ask (resolve false final).

(** ** Runtimes *)

(** A required executable: its digest, or the target of a link that leaves the
    runtime. *)
Definition seal_binary (root : path) (n : string) : reader (bool * (string * json)) :=
  let p := root ++ ["bin"; n] in
  f ← is_file p; x ← access_x p;
  rguard (negb (f : bool) || negb (x : bool)) (ValueError "Required executable is missing") ;;
  l ← is_symlink p;
  r ← resolve false root; q ← resolve false p;
  if (l : bool) && negb (below r q) then t ← readlink p; RRet (true, ("bin/" +:+ n, JStr t))
  else d ← file_digest p; RRet (false, ("bin/" +:+ n, JStr d)).

Definition seal_data (root : path) (n : string) : reader (string * json) := d ← file_digest (join root n); RRet (n, JStr d).

(** A dictionary filled entry by entry. *)
Definition filled {A} (l : list (string * A)) : list (string * A) := foldl (fun d kv => dset (fst kv) (snd kv) d) [] l.

Definition seal_runtime (root : path) (identity : string) (binaries data_files : list string) : prog unit :=
  entries ← ask (rmap (seal_binary root) binaries);
  let pick b := filled (List.map snd (List.filter (fun x => Bool.eqb (fst x) b) entries)) in
  sync_tree false root ;;
  data ← ask (rmap (seal_data root) data_files);
  write_json (root ++ ["RUNTIME.json"])
    (JObj [("identity", JStr identity); ("files", JObj (pick false)); ("external_links", JObj (pick true)); ("data_files", JObj (filled data))]).

Definition check_executable (root : path) (kv : string * json) : reader unit :=
  x ← access_x (join root (fst kv));
  rguard (negb (x : bool)) (ValueError "Required executable is corrupt") ;;
  d ← file_digest (join root (fst kv));
  rguard (negb (json_eqb (JStr d) (snd kv))) (ValueError "Required executable is corrupt").
Definition check_link (root : path) (kv : string * json) : reader unit :=
  let corrupt := ValueError "Required external executable link is corrupt" in
  l ← is_symlink (join root (fst kv));
  rguard (negb (l : bool)) corrupt ;;
  t ← readlink (join root (fst kv));
  rguard (negb (json_eqb (JStr t) (snd kv))) corrupt ;;
  x ← access_x (join root (fst kv));
  rguard (negb (x : bool)) corrupt.
Definition check_data (message : string) (root : path) (kv : string * json) : reader unit :=
  d ← file_digest (join root (fst kv)); rguard (negb (json_eqb (JStr d) (snd kv))) (ValueError message).

Definition verify_runtime (root : path) (identity : json) : reader json :=
  manifest ← read_json (root ++ ["RUNTIME.json"]);
  match identity with
  | JNull => RRet tt
  | _ => i ← item "identity" manifest; rguard (negb (json_eqb i identity)) (ValueError "Runtime dependency/profile identity mismatch")
  end ;;
  files ← item "files" manifest; files ← items files;
  reach (check_executable root) files ;;
  links ← get_items "external_links" manifest;
  reach (check_link root) links ;;
  data ← get_items "data_files" manifest;
  reach (check_data "Required runtime data is corrupt" root) data ;;
  RRet manifest.

(** ** Generations *)

Definition atomic_link (to link : path) : prog unit :=
  let temporary := parent link ++ [name link +:+ ".pending"] in
  unlink_missing_ok temporary ;;
  act (Symlink temporary (Abs to)) ;;
  act (Rename temporary link) ;;
  act (Sync (parent link)).

Definition check_generation_link (generation : path) (runtime_integrity : bool) (ne : string * option path) : reader unit :=
  p ← resolve (runtime_integrity || negb (bool_decide (fst ne = "runtime"))) (join generation (fst ne));
  rguard (negb (bool_decide (Some p = snd ne))) (ValueError "Generation link is corrupt").

Definition evidence (generation : path) (runtime_integrity : bool) : reader json :=
  value ← read_json (generation ++ ["GENERATION.json"]);
  rguard (negb (bool_decide (name generation = digest value))) (ValueError "Generation manifest identity mismatch") ;;
  engine_dir ← text_item "engine_dir" value;
  bundle_path ← text_item "bundle_path" value;
  runtime_path ← text_item "runtime_path" value;
  reach (check_generation_link generation runtime_integrity)
    [(engine_dir, (fun b => join b engine_dir) <$> path_of bundle_path); ("common", (fun b => b ++ ["common"]) <$> path_of bundle_path); ("runtime", path_of runtime_path)] ;;
  bundle_id ← item "bundle_id" value;
  verify_bundle (components bundle_path) bundle_id ;;
  (if runtime_integrity then
     runtime_id ← item "runtime_id" value;
     runtime ← verify_runtime (components runtime_path) runtime_id;
     manifest_id ← item "runtime_manifest_id" value;
     rguard (negb (json_eqb (JStr (digest runtime)) manifest_id)) (ValueError "Runtime manifest identity mismatch")
   else RRet tt) ;;
  files ← item "files" value; files ← items files;
  reach (check_data "Generation configuration is corrupt" generation) files ;;
  fields ← items value;
  RRet (JObj (foldl (fun d kv => dset (fst kv) (snd kv) d) [("generation_id", JStr (name generation))] fields)).

Definition CURRENT (root : path) : path := root ++ ["current"].
Definition PREVIOUS (root : path) : path := root ++ ["previous"].
Definition JOURNAL (root : path) : path := root ++ ["ROLLBACK.json"].
Definition LOCK (root : path) : path := root ++ ["activation.lock"].
Definition GENERATIONS (root : path) : path := root ++ ["generations"].

Definition finish_rollback (root : path) : prog json :=
  change ← ask (read_json (JOURNAL root));
  to ← ask (path_item "target" change);
  selected ← ask (evidence to true);
  previous ← ask (path_item "previous" change);
  atomic_link previous (PREVIOUS root) ;;
  atomic_link to (CURRENT root) ;;
  act (Unlink (JOURNAL root)) ;;
  act (Sync root) ;;
  Ret selected.

Definition journal_rollback (root : path) : prog unit :=
  to ← ask (resolve true (PREVIOUS root));
  ask (evidence to true) ;;
  current ← ask (resolve true (CURRENT root));
  write_json (JOURNAL root) (JObj [("target", JStr (str_of to)); ("previous", JStr (str_of current))]).

Definition rollback (root : path) : prog json :=
  open_lock (LOCK root) ;;
  pending ← ask (exists_ (JOURNAL root));
  (if (pending : bool) then Ret tt else journal_rollback root) ;;
  finish_rollback root.

(** The manifest of a generation, and its service unit. *)
Definition generation_value (root bundle : path) (engine_dir : string) (runtime : path) (config : list (string * json)) : reader (path * path * option string * json) :=
  bundle ← resolve false bundle;
  runtime ← resolve false runtime;
  manifest ← verify_bundle bundle JNull;
  runtime_manifest ← verify_runtime runtime JNull;
  engine ← item "QIIP_ENGINE" (JObj config);
  service ← (if json_eqb engine (JStr "vllm") then u ← service_unit root bundle engine_dir; RRet (Some u) else RRet None);
  identity ← item "identity" runtime_manifest;
  RRet (bundle, runtime, service,
        JObj [("schema", JNum 1); ("bundle_id", JStr (digest manifest)); ("bundle_path", JStr (str_of bundle)); ("engine_dir", JStr engine_dir);
              ("runtime_id", identity); ("runtime_manifest_id", JStr (digest runtime_manifest)); ("runtime_path", JStr (str_of runtime));
              ("config", JObj config);
              ("files", JObj match service with Some u => [("vllm.service", JStr (sha256 (OtherBytes u)))] | None => [] end)]).

(** A new generation is filled in a staging directory and appears at once. *)
Definition create_generation (root : path) (tag : string) (bundle : path) (engine_dir : string) (runtime : path) (service : option string) (value : json) (generation : path) : prog unit :=
  let staged := GENERATIONS root ++ [".incomplete-" +:+ tag] in
  act (Mkdir staged) ;;
  act (Symlink (join staged engine_dir) (Abs (join bundle engine_dir))) ;;
  act (Symlink (staged ++ ["common"]) (Abs (bundle ++ ["common"]))) ;;
  act (Symlink (staged ++ ["runtime"]) (Abs runtime)) ;;
  match service with
  | Some u => let p := staged ++ ["vllm.service"] in act (Write p (OtherBytes "")) ;; act (Write p (OtherBytes u)) ;; act (Sync p)
  | None => Ret tt
  end ;;
  write_json (staged ++ ["GENERATION.json"]) value ;;
  act (Rename staged generation) ;;
  act (Sync (GENERATIONS root)).

Definition emit (value : json) : prog unit := say value.

(** The switch: first the rollback pointer, then the selection. *)
Definition select_generation (root generation : path) : prog unit :=
  present ← ask (exists_ (CURRENT root));
  (if (present : bool) then
     old ← ask (resolve false (CURRENT root));
     new ← ask (resolve false generation);
     if bool_decide (old = new) then Ret tt else old ← ask (resolve false (CURRENT root)); atomic_link old (PREVIOUS root)
   else Ret tt) ;;
  new ← ask (resolve false generation);
  atomic_link new (CURRENT root).

(** A call that failed may follow one that succeeded: what is selected now is
    reported before the failure is. *)
Definition report_selected (root : path) : prog unit :=
  l ← ask (is_symlink (CURRENT root));
  if (l : bool) then g ← ask (resolve true (CURRENT root)); v ← ask (evidence g true); emit v else Ret tt.

Definition activate_locked (root : path) (tag : string) (bundle : path) (engine_dir : string) (runtime : path) (service : option string) (value : json) : prog json :=
  pending ← ask (exists_ (JOURNAL root));
  (if (pending : bool) then finish_rollback root ;; Ret tt else Ret tt) ;;
  let generation := GENERATIONS root ++ [digest value] in
  there ← ask (exists_ generation);
  (if (there : bool) then Ret tt else create_generation root tag bundle engine_dir runtime service value generation) ;;
  selected ← ask (evidence generation true);
  match service with
  | Some _ => unlink_missing_ok (generation ++ ["vllm.env"]) ;; act (Sync generation)
  | None => Ret tt
  end ;;
  try (select_generation root generation) (fun _ => Ret tt)
    (fun e => match e with OSError => report_selected root ;; Raise OSError | _ => Raise e end) ;;
  Ret selected.

Definition activate (root : path) (tag : string) (bundle : path) (engine_dir : string) (runtime : path) (config : list (string * json)) : prog json :=
  '(bundle, runtime, service, value) ← ask (generation_value root bundle engine_dir runtime config);
  mkdir_p (GENERATIONS root) ;;
  open_lock (LOCK root) ;;
  activate_locked root tag bundle engine_dir runtime service value.

(** [selected]: the identity of the selection, without verification of its
    parts. *)
Definition selected (root : path) : prog unit :=
  l ← ask (is_symlink (CURRENT root));
  if (l : bool) then
    generation ← ask (resolve true (CURRENT root));
    value ← ask (read_json (generation ++ ["GENERATION.json"]));
    (if bool_decide (name generation = digest value) then Ret tt else Raise (ValueError "Generation manifest identity mismatch")) ;;
    fields ← ask (items value);
    emit (JObj (foldl (fun d kv => dset (fst kv) (snd kv) d) [("generation_id", JStr (name generation))] fields))
  else Ret tt.

(** ** Launching through the selection *)

Definition saved_settings (text : string) : list (string * json) :=
  filled (omap (fun line => let '(k, found, v) := partition "="%char line in if (found : bool) then Some (k, JStr v) else None) (splitlines text "")).

(** [{**a, **b}] *)
Definition merged (a b : list (string * json)) : list (string * json) := foldl (fun d kv => dset (fst kv) (snd kv) d) a b.

(** The process image that replaces the tool. *)
Record Exec := mkExec { argv : list string; environment : list (string * json) }.

Definition STOP_SCRIPTS : list string := ["stop-vllm.sh"; "stop-llamacpp.sh"].

Section launch.
(** The text of a document, and the environment of the tool. *)
Context (json_text : json -> string) (environ : list (string * json)).
Definition text_of (c : blob) : string := match c with OtherBytes s => s | JsonText j => json_text j end.

(** The settings of the last launch, which only the service restores. *)
Definition restored (generation : path) (service : bool) (env : list (string * json)) : prog (list (string * json)) :=
  let saved := generation ++ ["vllm.env"] in
  f ← (if service then ask (is_file saved) else Ret false);
  if (f : bool) then c ← ask (read_bytes saved); Ret (merged (saved_settings (text_of c)) env) else Ret env.

Definition engine_environment (generation runtime : path) (vllm service : bool) (env : list (string * json)) : prog (list (string * json)) :=
  let at_ p := JStr (str_of p) in
  if vllm then
    env ← restored generation service env;
    Ret (merged env [("AUTOVLLM_BIN", at_ (join runtime "bin/vllm")); ("AUTOVLLM_PYTHON", at_ (join runtime "bin/python"));
                     ("AUTOVLLM_RUNTIME_ROOT", at_ (parent runtime)); ("AUTOVLLM_ENV_FILE", at_ (generation ++ ["vllm.env"]))])
  else Ret (merged env [("AUTOLLAMACPP_BIN", at_ (join runtime "bin/llama-server")); ("AUTOLLAMACPP_FIT_BIN", at_ (join runtime "bin/llama-fit-params"));
                        ("AUTOLLAMACPP_INSTALL_ROOT", at_ (parent runtime))]).

Definition launch (root fallback : path) (script : string) (args : list string) (service : bool) : prog Exec :=
  l ← ask (is_symlink (CURRENT root));
  '(directory, env) ←
    (if (l : bool) then
       generation ← ask (resolve true (CURRENT root));
       value ← ask (evidence generation (negb (bool_decide (script ∈ STOP_SCRIPTS))));
       bundle_path ← ask (text_item "bundle_path" value); engine_dir ← ask (text_item "engine_dir" value);
       runtime_path ← ask (text_item "runtime_path" value);
       config ← ask (item "config" value); config ← ask (items config);
       engine ← ask (item "QIIP_ENGINE" (JObj config));
       env ← engine_environment generation (components runtime_path) (json_eqb engine (JStr "vllm")) service (merged environ config);
       emit value ;;
       Ret (join (components bundle_path) engine_dir, env)
     else Ret (fallback, environ));
  let env := dpop "AUTOLLAMACPP_SCRIPT_DIR" (dpop "AUTOVLLM_SCRIPT_DIR" env) in
  Ret (mkExec ("bash" :: str_of (join directory script) :: args) (dset "QIIP_GENERATION_PINNED" (JStr "1") env)).
End launch.
End tool.

(** * Facts *)

(** ** The paths that a switch changes *)

Definition SWITCH_NAMES : list string :=
  ["current"; "current.pending"; "previous"; "previous.pending"; "ROLLBACK.json"; ".ROLLBACK.json.pending"; "activation.lock"].
Definition SWITCH (root : path) : list path := List.map (fun n => root ++ [n]) SWITCH_NAMES.

(** The selection, the rollback pointer and the journal. *)
Definition view (root : path) (s : fs) : option entry * option entry * option entry := (s !! CURRENT root, s !! PREVIOUS root, s !! JOURNAL root).
(** What these paths can hold: no directory, and only a file where the journal is
    prepared. *)
Definition fits (n : string) (e : option entry) : bool :=
  match e with Some Dir => false | Some (Link _) => negb (bool_decide (n = ".ROLLBACK.json.pending")) | _ => true end.
Definition soft (root : path) (s : fs) : bool := forallb (fun n => fits n (s !! (root ++ [n]))) SWITCH_NAMES.
Definition apart (root : path) (f s : fs) : Prop := forall q, q ∉ SWITCH root -> s !! q = f !! q.

Definition put (q : path) (e : option entry) (s : fs) : fs := partial_alter (fun _ => e) q s.
Lemma lookup_put q e s r : put q e s !! r = if decide (q = r) then e else s !! r.
Proof. unfold put. case_decide as H; [subst; by rewrite lookup_partial_alter_eq|by rewrite lookup_partial_alter_ne]. Qed.

Lemma snoc_inj {A} (p : list A) a b : p ++ [a] = p ++ [b] <-> a = b.
Proof. split; [intros E; by apply app_inj_2 in E as [_ [= ->]]|by intros ->]. Qed.

Lemma parent_snoc (p : path) n : parent (p ++ [n]) = p.
Proof. apply removelast_last. Qed.
Lemma name_snoc (p : path) n : name (p ++ [n]) = n.
Proof. apply List.last_last. Qed.

Definition switched (n : string) (e : option entry) (v : option entry * option entry * option entry) : option entry * option entry * option entry :=
  let '(c, p, j) := v in (if decide (n = "current") then e else c, if decide (n = "previous") then e else p, if decide (n = "ROLLBACK.json") then e else j).

Lemma elem_of_SWITCH root n : root ++ [n] ∈ SWITCH root <-> n ∈ SWITCH_NAMES.
Proof.
  unfold SWITCH. rewrite list_elem_of_In, in_map_iff, list_elem_of_In. split; [|by eauto]. intros (m & E & Hm). apply snoc_inj in E. congruence.
Qed.

Section switch.
Context (root : path) (f : fs).

(** A state on the way of a switch that started in [f]. *)
Definition stage (s : fs) (v : option entry * option entry * option entry) : Prop := apart root f s /\ soft root s = true /\ view root s = v.

Lemma soft_at s n : soft root s = true -> n ∈ SWITCH_NAMES -> fits n (s !! (root ++ [n])) = true.
Proof. unfold soft. rewrite forallb_forall. intros H Hn. by apply H, list_elem_of_In. Qed.

Lemma soft_dir s q : soft root s = true -> q ∈ SWITCH root -> s !! q <> Some Dir.
Proof.
  intros Hs Hq. unfold SWITCH in Hq. apply list_elem_of_In, in_map_iff in Hq as (n & <- & Hn). apply list_elem_of_In, (soft_at s) in Hn; [|done]. by intros E; rewrite E in Hn.
Qed.

Lemma stage_put s v n e : stage s v -> n ∈ SWITCH_NAMES -> fits n e = true -> stage (put (root ++ [n]) e s) (switched n e v).
Proof.
  intros (Ha & Hs & <-) Hn He. apply (elem_of_SWITCH root) in Hn as Hq. split_and!.
  - intros q Hq'. rewrite lookup_put. rewrite decide_False by congruence. by apply Ha.
  - unfold soft. apply forallb_forall. intros m Hm%list_elem_of_In. rewrite lookup_put. case_decide as E; [apply snoc_inj in E; by subst|by apply soft_at].
  - unfold view, switched, CURRENT, PREVIOUS, JOURNAL. rewrite !lookup_put.
    repeat match goal with |- context [decide (root ++ [?a] = root ++ [?b])] => rewrite (decide_ext (root ++ [a] = root ++ [b]) (a = b)) by apply snoc_inj end. done.
Qed.

Lemma stage_same s v n e : stage s v -> n ∈ SWITCH_NAMES -> n ∉ ["current"; "previous"; "ROLLBACK.json"] -> fits n e = true -> stage (put (root ++ [n]) e s) v.
Proof.
  intros Hs Hn Hx He. pose proof (stage_put s v n e Hs Hn He) as H. destruct v as [[c p] j]. cbn in H. by rewrite !decide_False in H by set_solver.
Qed.

Lemma stage_real s v p : soft root f = true -> stage s v -> realb f p = true -> realb s p = true.
Proof. intros Hf (Ha & _ & _) Hp. apply (realb_frame f s p Hp). intros q Hq. apply Ha. intros Hin. by apply (soft_dir f q Hf Hin). Qed.

(** A question that looks at none of these paths. *)
Lemma stage_read {A} (r : reader A) s v : forallb (avoids (SWITCH root)) (touched r f) = true -> stage s v -> read r s = read r f.
Proof.
  intros Hr (Ha & _ & _). apply read_frame, Forall_forall. intros x Hx. rewrite forallb_forall in Hr. eapply avoids_same; [by apply Hr, list_elem_of_In|].
  intros q Hq. symmetry. by apply Ha.
Qed.
End switch.

(** ** The steps of a switch *)

Section steps.
Context (fz : bool) (I : fs -> Prop) (Q : unit -> fs -> Prop) (E : error -> fs -> Prop).
Hypothesis HE : fz = true -> forall g, I g -> E OSError g.

Lemma wp_atomic_link to p n s :
  let pending := p ++ [n +:+ ".pending"] in
  s !! pending <> Some Dir -> s !! (p ++ [n]) <> Some Dir -> I s -> I (put pending None s) -> I (put pending (Some (Link (Abs to))) s) ->
  let s' := put (p ++ [n]) (Some (Link (Abs to))) (put pending None s) in
  I s' -> Q tt s' -> wp fz (atomic_link to (p ++ [n])) I Q E s.
Proof.
  intros pending Hp Hl I0 I1 I2 s' I3 HQ. unfold atomic_link. rewrite parent_snoc, name_snoc. fold pending.
  assert (forall g, look g pending = g !! pending) as Hlook by (intros; apply look_snoc).
  assert (pending <> p ++ [n]) as Hne. { unfold pending. intros Eq%snoc_inj. apply (f_equal String.length) in Eq. rewrite string_length_app in Eq. cbn in Eq. lia. }
  assert (wp fz (act (Symlink pending (Abs to)) ;; act (Rename pending (p ++ [n])) ;; act (Sync p)) I Q E (put pending None s)) as Hrest.
  { apply wp_bind, wp_act. cbn [apply]. rewrite Hlook, lookup_put, decide_True by done.
    assert (<[pending := Link (Abs to)]> (put pending None s) = put pending (Some (Link (Abs to))) s) as ->.
    { apply map_eq. intros r. rewrite lookup_insert, !lookup_put. by case_decide. }
    split; [done|]. split; [|by eauto]. apply wp_bind, wp_act. cbn [apply]. rewrite Hlook, look_snoc, !lookup_put, decide_True, decide_False by done.
    assert (<[p ++ [n] := Link (Abs to)]> (base.delete pending (put pending (Some (Link (Abs to))) s)) = s') as ->.
    { unfold s'. apply map_eq. intros r. rewrite lookup_insert, lookup_delete, !lookup_put. by repeat case_decide. }
    assert (match s !! (p ++ [n]) with Some Dir => None | _ => Some s' end = Some s') as ->; [by destruct (s !! (p ++ [n])) as [[]|]|].
    split; [done|]. split; [|by eauto]. apply wp_act. cbn. eauto. }
  apply wp_bind. unfold unlink_missing_ok. apply wp_bind, wp_ask. cbn [rlook read]. rewrite Hlook.
  destruct (s !! pending) as [e|] eqn:He.
  - apply wp_act. cbn [apply]. rewrite Hlook, He. destruct e; try done; (split; [done|]; split; [exact Hrest|by eauto]).
  - assert (put pending None s = s) as <-; [|exact Hrest]. apply map_eq. intros r. rewrite lookup_put. case_decide; [by subst|done].
Qed.

Lemma wp_write_json p n v s :
  let pending := p ++ ["." +:+ n +:+ ".pending"] in
  match s !! pending with Some (File _ _) | None => True | _ => False end -> s !! (p ++ [n]) <> Some Dir ->
  I s -> (forall c x, I (put pending (Some (File c x)) s)) ->
  (forall x, let s' := put (p ++ [n]) (Some (File (dumps (sort_keys v)) x)) (put pending None s) in I s' /\ Q tt s') ->
  wp fz (write_json (p ++ [n]) v) I Q E s.
Proof.
  intros pending Hp Hl I0 I1 HQ. unfold write_json. rewrite parent_snoc, name_snoc. fold pending.
  assert (forall g, look g pending = g !! pending) as Hlook by (intros; apply look_snoc).
  assert (pending <> p ++ [n]) as Hne. { unfold pending. intros Eq%snoc_inj. apply (f_equal String.length) in Eq. change (S (String.length (n +:+ ".pending")) = String.length n) in Eq. rewrite string_length_app in Eq. lia. }
  assert (exists x, forall c, apply (Write pending c) s = Some (put pending (Some (File c x)) s)) as [x Hw].
  { cbn [apply]. rewrite Hlook. destruct (s !! pending) as [[c x| |]|]; try done; [by exists x|by exists false]. }
  apply wp_bind, wp_act. rewrite Hw. split; [done|]. split; [|by eauto].
  apply wp_bind, wp_act. cbn [apply]. rewrite Hlook, lookup_put, decide_True by done.
  assert (<[pending := File (dumps (sort_keys v)) x]> (put pending (Some (File (OtherBytes "") x)) s) = put pending (Some (File (dumps (sort_keys v)) x)) s) as ->.
  { apply map_eq. intros r. rewrite lookup_insert, !lookup_put. by case_decide. }
  split; [done|]. split; [|by eauto]. apply wp_bind, wp_act. cbn [apply]. split; [done|]. split; [|by eauto].
  apply wp_bind, wp_act. cbn [apply]. rewrite Hlook, look_snoc, !lookup_put, decide_True, decide_False by done.
  destruct (HQ x) as [I2 HQ']. set (s' := put (p ++ [n]) _ _) in *.
  assert (<[p ++ [n] := File (dumps (sort_keys v)) x]> (base.delete pending (put pending (Some (File (dumps (sort_keys v)) x)) s)) = s') as ->.
  { unfold s'. apply map_eq. intros r. rewrite lookup_insert, lookup_delete, !lookup_put. by repeat case_decide. }
  assert (match s !! (p ++ [n]) with Some Dir => None | _ => Some s' end = Some s') as ->; [by destruct (s !! (p ++ [n])) as [[]|]|].
  split; [done|]. split; [|by eauto]. apply wp_act. cbn. eauto.
Qed.

Lemma wp_open_lock p n s : s !! (p ++ [n]) <> Some Dir -> I s -> Q tt s ->
  (s !! (p ++ [n]) = None -> let s' := put (p ++ [n]) (Some (File (OtherBytes "") false)) s in I s' /\ Q tt s') -> wp fz (open_lock (p ++ [n])) I Q E s.
Proof.
  intros Hd I0 Q0 Hn. unfold open_lock. apply wp_bind, wp_ask. cbn [rlook read]. rewrite look_snoc. destruct (s !! (p ++ [n])) as [[]|] eqn:He; try done.
  apply wp_act. cbn [apply]. rewrite look_snoc, He. destruct (Hn eq_refl). split; [done|]. split; [done|]. by eauto.
Qed.
End steps.

(** ** Rollback *)

Section rollback_facts.
Context (sha256 : blob -> string) (bash_ok python_ok : blob -> bool).
Local Notation evidence := (evidence sha256 bash_ok python_ok).
Context (root : path) (f : fs) (g0 g1 : path) (v : json).

Definition linked (g : path) : option entry := Some (Link (Abs g)).

(** The engine [root] has selected [g0] and would go back to [g1]: both are real
    directories, [g1] verifies, and its verification reads none of the paths
    that a switch changes. *)
Record rollback_ready := {
  ready_root : realb f root = true;
  ready_soft : soft root f = true;
  ready_view : view root f = (linked g0, linked g1, None);
  ready_g0 : realb f g0 = true;
  ready_g1 : realb f g1 = true;
  ready_names : Forall (fun c => plain_name c = true) (g0 ++ g1);
  ready_verified : read (evidence g1 true) f = Ok v;
  ready_apart : forallb (avoids (SWITCH root)) (touched (evidence g1 true) f) = true;
}.

Definition journal (x : bool) : option entry := Some (File (dumps (JObj [("previous", JStr (str_of g0)); ("target", JStr (str_of g1))])) x).

(** The states between the start and the end of the rollback. *)
Definition under_way (s : fs) : Prop :=
  exists x, exists c p, stage root f s (c, p, journal x) /\ ((c, p) = (linked g0, linked g1) \/ (c, p) = (linked g0, linked g0) \/ (c, p) = (linked g1, linked g0)).
Definition not_begun (s : fs) : Prop := stage root f s (linked g0, linked g1, None).
Definition rolled_back (s : fs) : Prop := stage root f s (linked g1, linked g0, None).
Definition rolling (s : fs) : Prop := not_begun s \/ under_way s \/ rolled_back s.

Context (Hready : rollback_ready).

Lemma stage_fits s w n : stage root f s w -> n ∈ SWITCH_NAMES -> s !! (root ++ [n]) <> Some Dir.
Proof. intros (_ & Hs & _) Hn E. apply (soft_at root s) in Hn; [|done]. by rewrite E in Hn. Qed.

Ltac in_names := apply (bool_decide_unpack _); vm_compute; exact I.

(** Relinking in a stage. *)
Lemma wp_relink fz I (Q : unit -> fs -> Prop) (E : error -> fs -> Prop) to n s w :
  n = "current" \/ n = "previous" -> stage root f s w -> (fz = true -> forall g, I g -> E OSError g) ->
  (forall s', stage root f s' w -> I s') ->
  (forall s', stage root f s' (switched n (linked to) w) -> I s' /\ Q tt s') -> wp fz (atomic_link to (root ++ [n])) I Q E s.
Proof.
  intros Hn Hs HE HI HQ.
  assert (n ∈ SWITCH_NAMES /\ (n +:+ ".pending") ∈ SWITCH_NAMES /\ (n +:+ ".pending") ∉ ["current"; "previous"; "ROLLBACK.json"] /\ fits (n +:+ ".pending") (linked to) = true) as (N1 & N2 & N3 & N4)
    by (destruct Hn as [-> | ->]; split_and!; in_names || done).
  assert (stage root f (put (root ++ [n]) (linked to) (put (root ++ [n +:+ ".pending"]) None s)) (switched n (linked to) w)) as Hend.
  { apply stage_put; [by apply stage_same|done|]. by destruct Hn as [-> | ->]. }
  destruct (HQ _ Hend) as [I3 Q3]. apply wp_atomic_link; try done; try (by eapply stage_fits); try (by apply HI; try apply stage_same).
Qed.

Lemma read_journal s c p x : stage root f s (c, p, journal x) ->
  read (read_json (JOURNAL root)) s = Ok (JObj [("previous", JStr (str_of g0)); ("target", JStr (str_of g1))]).
Proof.
  intros Hs. unfold read_json, JOURNAL. rewrite read_bind.
  assert (s !! (root ++ ["ROLLBACK.json"]) = journal x) as Hj by (destruct Hs as (_ & _ & Hv); by injection Hv).
  rewrite (read_bytes_file s root "ROLLBACK.json" (dumps (JObj [("previous", JStr (str_of g0)); ("target", JStr (str_of g1))])) x); [done| |done|exact Hj]. destruct Hready. by eapply stage_real.
Qed.

Lemma read_path k g s (d : list (string * json)) : dget k d = Some (JStr (str_of g)) -> Forall (fun c => plain_name c = true) g -> read (path_item k (JObj d)) s = Ok g.
Proof. intros Hd Hg. unfold path_item, text_item. rewrite !read_bind. cbn. rewrite Hd. cbn. by rewrite path_of_str_of. Qed.

Lemma wp_finish_rollback fz s : under_way s ->
  wp fz (finish_rollback sha256 bash_ok python_ok root) rolling (fun r s' => r = v /\ rolled_back s') (fun _ s' => fz = true /\ rolling s') s.
Proof.
  intros (x & c & p & Hs & Hcp). pose proof (ready_names Hready) as [Hn0 Hn1]%Forall_app.
  unfold finish_rollback. apply wp_bind, wp_ask. rewrite (read_journal s c p x Hs). apply wp_bind, wp_ask. rewrite (read_path "target" g1) by done.
  apply wp_bind, wp_ask. rewrite (stage_read root f _ s _ (ready_apart Hready) Hs), (ready_verified Hready).
  apply wp_bind, wp_ask. rewrite (read_path "previous" g0) by done.
  assert (forall s', stage root f s' (c, p, journal x) -> rolling s') as HI by (intros s' H; right; left; by exists x, c, p).
  apply wp_bind. eapply wp_relink; [by right|exact Hs|done|exact HI|]. intros s1 H1. change (stage root f s1 (c, linked g0, journal x)) in H1.
  assert (c = linked g0 \/ c = linked g1) as Hc by naive_solver.
  assert (forall s', stage root f s' (c, linked g0, journal x) -> rolling s') as HI1.
  { intros s' H. right. left. exists x, c, (linked g0). split; [done|]. destruct Hc as [-> | ->]; auto. }
  split; [by apply HI1|]. apply wp_bind. eapply wp_relink; [by left|exact H1|done|exact HI1|]. intros s2 H2. change (stage root f s2 (linked g1, linked g0, journal x)) in H2.
  assert (rolling s2) as I2 by (right; left; exists x, (linked g1), (linked g0); auto). split; [done|].
  apply wp_bind, wp_act. cbn [apply]. unfold JOURNAL. rewrite look_snoc. assert (s2 !! (root ++ ["ROLLBACK.json"]) = journal x) as -> by (destruct H2 as (_ & _ & Hv); by injection Hv).
  cbn [journal]. assert (rolled_back (base.delete (root ++ ["ROLLBACK.json"]) s2)) as H3. { apply (stage_put root f s2 _ "ROLLBACK.json" None H2); [in_names|done]. }
  split; [by right; right|]. split; [|done]. apply wp_bind, wp_act. cbn [apply]. split; [by right; right|]. split; [|by split; [done|right; right]]. done.
Qed.

Lemma stage_link s w n g : stage root f s w -> s !! (root ++ [n]) = linked g -> n <> ".." -> realb f g = true -> read (resolve true (root ++ [n])) s = Ok g.
Proof. intros Hs Hl Hn Hg. destruct Hready. apply resolve_link; try done; by eapply stage_real. Qed.

Lemma wp_journal_rollback fz s : not_begun s ->
  wp fz (journal_rollback sha256 bash_ok python_ok root) rolling (fun _ => under_way) (fun _ s' => fz = true /\ rolling s') s.
Proof.
  intros Hs. pose proof Hs as (Ha & Hso & [= Hc Hp Hj]). unfold journal_rollback.
  apply wp_bind, wp_ask. unfold PREVIOUS. rewrite (stage_link s _ "previous" g1 Hs) by (done || apply Hready).
  apply wp_bind, wp_ask. rewrite (stage_read root f _ s _ (ready_apart Hready) Hs), (ready_verified Hready).
  apply wp_bind, wp_ask. unfold CURRENT. rewrite (stage_link s _ "current" g0 Hs) by (done || apply Hready).
  apply wp_write_json; [done| |by eapply stage_fits; [exact Hs|in_names]|by left| |].
  - assert (".ROLLBACK.json.pending" ∈ SWITCH_NAMES) as Hn by in_names. apply (soft_at root s) in Hn; [|done]. change ("." +:+ "ROLLBACK.json" +:+ ".pending") with ".ROLLBACK.json.pending".
    by destruct (s !! (root ++ [".ROLLBACK.json.pending"])) as [[]|].
  - intros c x. left. by apply stage_same; [..|in_names|in_names|].
  - intros x s'. assert (under_way s') as Hu; [|by split; [right; left|]]. exists x, (linked g0), (linked g1). split; [|by left].
    apply (stage_put root f (put (root ++ [".ROLLBACK.json.pending"]) None s) (linked g0, linked g1, None) "ROLLBACK.json" (journal x)); [|in_names|done]. by apply stage_same; [..|in_names|in_names|].
Qed.

Lemma wp_rollback fz s : not_begun s \/ under_way s ->
  wp fz (rollback sha256 bash_ok python_ok root) rolling (fun r s' => r = v /\ rolled_back s') (fun _ s' => fz = true /\ rolling s') s.
Proof.
  intros Hs. unfold rollback. apply wp_bind.
  assert (forall w e, stage root f s w -> e <> Some Dir -> stage root f (put (LOCK root) e s) w) as Hlock.
  { intros w e Hw He. apply stage_same; [done|in_names|in_names|]. by destruct e as [[]|]. }
  assert (forall e, e <> Some Dir -> not_begun (put (LOCK root) e s) \/ under_way (put (LOCK root) e s)) as Hlock'.
  { intros e He. destruct Hs as [Hs|(x & c & p & Hs & Hcp)]; [left; by apply Hlock|right]. exists x, c, p. split; [by apply Hlock|done]. }
  assert (forall s, not_begun s \/ under_way s -> rolling s) as Hr by (intros s' [?|?]; unfold rolling; auto).
  assert (forall s, not_begun s \/ under_way s -> wp fz (pending ← ask (exists_ (JOURNAL root)); (if (pending : bool) then Ret tt else journal_rollback sha256 bash_ok python_ok root) ;;
    finish_rollback sha256 bash_ok python_ok root) rolling (fun r s' => r = v /\ rolled_back s') (fun _ s' => fz = true /\ rolling s') s) as Hrest.
  { clear s Hs Hlock Hlock'. intros s [Hs|Hs]; apply wp_bind, wp_ask; unfold JOURNAL.
    - pose proof Hs as (_ & _ & [= _ _ Hj]). rewrite exists_last; [|destruct Hready; by eapply stage_real|done|done].
      apply wp_bind. eapply wp_weaken; [| | |by apply wp_journal_rollback]; [done| |done]. intros [] s' Hu. by apply wp_finish_rollback.
    - pose proof Hs as (x & c & p & Hst & _). pose proof Hst as (_ & _ & [= _ _ Hj]).
      rewrite (exists_file s root "ROLLBACK.json" (dumps (JObj [("previous", JStr (str_of g0)); ("target", JStr (str_of g1))])) x); [|destruct Hready; by eapply stage_real|done|done].
      apply wp_bind. cbn [wp]. by apply wp_finish_rollback. }
  apply wp_open_lock; [done| |by apply Hr|by apply Hrest|].
  - destruct Hs as [Hs|(x & c & p & Hs & _)]; eapply stage_fits; try exact Hs; in_names.
  - intros _ s'. split; [apply Hr|apply Hrest]; by apply Hlock'.
Qed.
End rollback_facts.

(** ** Interrupted rollbacks *)

(** C21: An interrupted rollback is completed by the next one.  From an engine that
    has selected [g0] and can go back to [g1], whichever calls of a rollback
    fail and wherever it stops: every state it goes through differs from the
    first one only in the links, their temporary names, the journal and the
    lock, selects [g0] or the verified [g1], and is either completely rolled
    back or one from which a rollback without failures returns the evidence of
    [g1] with [g1] selected, [g0] as the way back and no journal.  A rollback
    raises only when a call failed. *)
Theorem rollback_resumes sha256 bash_ok python_ok root f g0 g1 v : rollback_ready sha256 bash_ok python_ok root f g0 g1 v ->
  let tool := rollback sha256 bash_ok python_ok root in
  let done_ s := view root s = (linked g1, linked g0, None) in
  (forall faults s, s ∈ f :: states (run faults 0 tool f) ->
     apart root f s /\ read (evidence sha256 bash_ok python_ok g1 true) s = Ok v /\
     (s !! CURRENT root = linked g0 \/ s !! CURRENT root = linked g1) /\
     (done_ s \/ let o := run no_faults 0 tool s in res o = Ok v /\ done_ (now o) /\ apart root f (now o))) /\
  (forall faults, let o := run faults 0 tool f in
     match res o with Ok r => r = v /\ done_ (now o) | Err _ => ~ forall n, faults n = false end).
Proof.
  intros Hr tool done_. assert (not_begun root f g0 g1 f) as Hf. { destruct Hr. split; [by intros q|]. by split. }
  pose proof (wp_rollback sha256 bash_ok python_ok root f g0 g1 v Hr) as Hwp. split.
  - intros faults s Hs. assert (rolling root f g0 g1 s) as Hroll.
    { apply elem_of_cons in Hs as [->|Hs]; [by left|]. destruct (wp_sound true _ _ _ _ f faults 0 ltac:(done) (Hwp true f (or_introl Hf))) as [Hall _].
      rewrite Forall_forall in Hall. by apply Hall. }
    assert (exists w, stage root f s w) as [w Hw] by (destruct Hroll as [?|[(x & c & p & ? & _)|?]]; eauto).
    split; [by destruct Hw|]. split; [destruct Hr; by erewrite stage_read|]. split.
    { destruct Hroll as [(_ & _ & [= -> _ _])|[(x & c & p & (_ & _ & [= -> _ _]) & Hc)|(_ & _ & [= -> _ _])]]; [by left| |by right]. naive_solver. }
    destruct Hroll as [Hs'|[Hs'|(_ & _ & ?)]]; [right|right|by left];
      destruct (wp_sound false _ _ _ _ s no_faults 0 ltac:(done) (Hwp false s ltac:(auto))) as [_ Hend]; fold tool in Hend; cbv zeta;
      (destruct (res (run no_faults 0 tool s)); [destruct Hend as (-> & Ha & _ & ?); by split_and!|by destruct Hend]).
  - intros faults o. destruct (wp_sound true _ _ _ _ f faults 0 ltac:(done) (Hwp true f (or_introl Hf))) as [_ Hend]. fold tool in Hend. fold o in Hend.
    destruct (res o) eqn:Ho; [destruct Hend as (-> & _ & _ & ?); by split|]. intros Hno.
    destruct (wp_sound false _ _ _ _ f faults 0 ltac:(done) (Hwp false f (or_introl Hf))) as [_ Hend']. fold tool in Hend'. fold o in Hend'. rewrite Ho in Hend'. by destruct Hend'.
Qed.

(** ** A node *)

Fixpoint hash_text (s : string) (h : N) : N :=
  match s with EmptyString => h | String c s => hash_text s ((h * 33 + N_of_ascii c) mod 4294967291)%N end.
Fixpoint hash_json (j : json) (h : N) : N :=
  match j with
  | JNull => (h + 1)%N
  | JBool b => (h * 3 + if b then 2 else 1)%N
  | JNum z => hash_text "n" (h + Z.to_N z)%N
  | JStr s => hash_text s (h * 7)%N
  | JList l => foldl (fun h j => hash_json j h) (h * 11)%N l
  | JObj d => foldl (fun h kv => hash_json (snd kv) (hash_text (fst kv) h)) (h * 13)%N d
  end.
Definition ex_sha (b : blob) : string := pretty match b with JsonText j => hash_json j 1 | OtherBytes s => hash_text s 2 end.
Definition ex_ok (_ : blob) : bool := true.

Definition ex_script (text : string) : entry := File (OtherBytes text) true.
Definition ex_bundle : path := ["home"; "u"; "bundle"].
Definition ex_root : path := ["opt"; "qiip"; "vllm"].
Definition ex_runtime (n : string) : path := ["opt"; "runtimes"; n].

(** A checkout and two runtimes before they are sealed. *)
Definition ex_disk : fs :=
  list_to_map
    ([(["home"], Dir); (["home"; "u"], Dir); (ex_bundle, Dir); (ex_bundle ++ ["auto-vllm"], Dir); (ex_bundle ++ ["common"], Dir);
      (ex_bundle ++ ["auto-vllm"; "start-vllm.sh"], ex_script "serve"); (ex_bundle ++ ["common"; "generations.py"], ex_script "tool");
      (["opt"], Dir); (["opt"; "qiip"], Dir); (ex_root, Dir); (["opt"; "runtimes"], Dir)] ++
     concat (List.map (fun n => [(ex_runtime n, Dir); (ex_runtime n ++ ["bin"], Dir); (ex_runtime n ++ ["bin"; "vllm"], ex_script n)]) ["r1"; "r2"])).

Definition ex_sealed : fs :=
  now (run no_faults 0
    (m ← ask (bundle_manifest ex_sha ex_bundle);
     write_json (ex_bundle ++ ["BUNDLE.json"]) m ;;
     seal_runtime ex_sha (ex_runtime "r1") "one" ["vllm"] [] ;;
     seal_runtime ex_sha (ex_runtime "r2") "two" ["vllm"] []) ex_disk).

Definition ex_activate (n : string) : prog json :=
  activate ex_sha ex_ok ex_ok ex_root n ex_bundle "auto-vllm" (ex_runtime n) [("QIIP_ENGINE", JStr "vllm")].
Definition ex_active : fs := now (run no_faults 0 (ex_activate "r1" ;; ex_activate "r2") ex_sealed).

(** ** Activation *)

Definition rel (root p : path) : option path := if at_or_below root p then Some (drop (length root) p) else None.

(** What an activation of the generation [gen] may change: the links, the journal
    and the lock, the staging directories, the saved settings of the generation,
    and the generation itself when it is new. *)
Definition area (root : path) (gen : string) (fresh : bool) (p : path) : bool :=
  match rel root p with
  | Some [n] => bool_decide (n ∈ SWITCH_NAMES)
  | Some (d :: n :: rest) =>
      bool_decide (d = "generations") && (startswith n ".incomplete-" || bool_decide (n = gen) && (fresh || bool_decide (rest = ["vllm.env"])))
  | _ => false
  end.
Definition quiet (root : path) (gen : string) (fresh : bool) (x : place) : bool :=
  match x with
  | At p => negb (area root gen fresh p)
  | Below p => negb (at_or_below p root) &&
               match rel root p with Some (n :: _) => negb (bool_decide (n ∈ "generations" :: SWITCH_NAMES)) | Some [] => false | None => true end
  end.

Lemma rel_app root r : rel root (root ++ r) = Some r.
Proof. unfold rel, at_or_below. rewrite bool_decide_eq_true_2 by (by exists r). by rewrite drop_app_length. Qed.
Lemma rel_Some root p r : rel root p = Some r -> p = root ++ r.
Proof. unfold rel, at_or_below. case_bool_decide as H; [|done]. destruct H as [r' ->]. rewrite drop_app_length. by intros [= ->]. Qed.

Lemma quiet_same root gen fresh f g x : quiet root gen fresh x = true -> (forall q, area root gen fresh q = false -> f !! q = g !! q) -> same_at f g x.
Proof.
  intros Hx H. destruct x as [p|p]; cbn in *.
  - apply negb_true_iff in Hx. destruct p; [done|by apply H].
  - apply andb_prop in Hx as [H1 H2]. apply negb_true_iff, bool_decide_eq_false in H1. intros q Hq. apply andb_prop in Hq as [[t ->]%bool_decide_eq_true _].
    apply H. unfold area. destruct (rel root (p ++ t)) as [r|] eqn:Hr; [|done]. apply rel_Some in Hr.
    destruct (prefix_weak_total root p (p ++ t)) as [[u ->]|Hp]; [by exists r|by exists t| |done]. rewrite rel_app in H2. destruct u as [|n u]; [done|].
    rewrite <- app_assoc in Hr. apply app_inv_head in Hr. subst r. apply negb_true_iff, bool_decide_eq_false in H2. apply not_elem_of_cons in H2 as [Hd Hn].
    cbn. destruct (u ++ t); [by apply bool_decide_eq_false|]. by rewrite bool_decide_eq_false_2.
Qed.

Section activation_facts.
Context (sha256 : blob -> string) (bash_ok python_ok : blob -> bool).
Local Notation evidence := (evidence sha256 bash_ok python_ok).
Context (root : path) (f : fs) (g0 : path) (v0 : json).
Context (bundle : path) (engine_dir : string) (runtime : path) (config : list (string * json)).
Context (bundle' runtime' : path) (service : option string) (value : json).
Local Notation the_value := (generation_value sha256 bash_ok python_ok root bundle engine_dir runtime config).
Let gen_name := digest sha256 value.
Let gen := GENERATIONS root ++ [gen_name].
Let fresh := is_none (f !! gen).
Local Notation area := (area root gen_name fresh).
Local Notation quiet := (quiet root gen_name fresh).

(** The engine has selected [g0], which verifies, no rollback is under way, and
    the new generation is known; neither question looks at what changes. *)
Record activation_ready := {
  act_dirs : realb f (GENERATIONS root) = true;
  act_soft : soft root f = true;
  act_current : f !! CURRENT root = linked g0;
  act_journal : f !! JOURNAL root = None;
  act_g0 : realb f g0 && forallb (fun n => negb (area (take n g0))) (seq 1 (length g0)) = true;
  act_verified : read (evidence g0 true) f = Ok v0;
  act_value : read the_value f = Ok (bundle', runtime', service, value);
  act_quiet : forallb quiet (touched (evidence g0 true) f ++ touched the_value f) = true;
  act_gen : f !! gen = None \/ f !! gen = Some Dir;
  act_name : negb (startswith gen_name ".incomplete-") && negb (bool_decide (gen_name = "..")) = true;
  act_engine : plain_name engine_dir = true;
}.

(** The rollback pointer after the switch. *)
Definition way_back : option entry := if decide (g0 = gen) then f !! PREVIOUS root else linked g0.

(** The generation verified in a state that differs only in the links and in its
    saved settings. *)
Definition verified (s : fs) : Prop :=
  exists s' v, read (evidence gen true) s' = Ok v /\ forall q, q ∉ SWITCH root -> q <> gen ++ ["vllm.env"] -> s !! q = s' !! q.

Definition core (s : fs) : Prop :=
  (forall q, area q = false -> s !! q = f !! q) /\ soft root s = true /\ s !! JOURNAL root = None /\ (s !! gen = f !! gen \/ s !! gen = Some Dir).
Definition before (s : fs) : Prop := s !! CURRENT root = linked g0 /\ (s !! PREVIOUS root = f !! PREVIOUS root \/ s !! PREVIOUS root = way_back).
Definition after (s : fs) : Prop := s !! CURRENT root = linked gen /\ s !! PREVIOUS root = way_back /\ s !! gen = Some Dir /\ verified s.
Definition switching (s : fs) : Prop := core s /\ (before s \/ after s).

Context (Hready : activation_ready).

Ltac in_names := apply (bool_decide_unpack _); vm_compute; exact I.

Lemma area_switch n : n ∈ SWITCH_NAMES -> area (root ++ [n]) = true.
Proof. intros Hn. unfold Generations.area. rewrite rel_app. by apply bool_decide_eq_true. Qed.

Lemma gen_rel : rel root gen = Some ["generations"; gen_name].
Proof. unfold gen, GENERATIONS. rewrite <- app_assoc. apply rel_app. Qed.

Lemma gen_not_switch n : root ++ [n] <> gen.
Proof. intros E. pose proof gen_rel as H. rewrite <- E, rel_app in H. done. Qed.

Lemma core_put s n e : core s -> n ∈ SWITCH_NAMES -> n <> "ROLLBACK.json" -> fits n e = true -> core (put (root ++ [n]) e s).
Proof.
  intros (H1 & H2 & H3 & H4) Hn Hj He. split_and!.
  - intros q Hq. rewrite lookup_put, decide_False; [by apply H1|]. intros <-. by rewrite area_switch in Hq.
  - unfold soft. apply forallb_forall. intros m Hm%list_elem_of_In. rewrite lookup_put. case_decide as E; [apply snoc_inj in E; by subst|by apply soft_at].
  - unfold JOURNAL. rewrite lookup_put, decide_False; [done|]. by intros ?%snoc_inj.
  - rewrite !lookup_put, decide_False by apply gen_not_switch. done.
Qed.

Lemma verified_put s n e : verified s -> n ∈ SWITCH_NAMES -> verified (put (root ++ [n]) e s).
Proof.
  intros (s' & v & Hv & Hs) Hn. exists s', v. split; [done|]. intros q Hq Hq'. rewrite lookup_put, decide_False; [by apply Hs|].
  intros <-. by apply Hq, elem_of_SWITCH.
Qed.

Lemma put_other s n m e : n <> m -> put (root ++ [n]) e s !! (root ++ [m]) = s !! (root ++ [m]).
Proof. intros H. rewrite lookup_put, decide_False; [done|]. by intros ?%snoc_inj. Qed.

(** Temporary links and the lock do not matter. *)
Lemma switching_put s n e : switching s -> n ∈ SWITCH_NAMES -> n ∉ ["current"; "previous"; "ROLLBACK.json"] -> fits n e = true ->
  switching (put (root ++ [n]) e s) /\ put (root ++ [n]) e s !! gen = s !! gen /\ (verified s -> verified (put (root ++ [n]) e s)) /\
  put (root ++ [n]) e s !! CURRENT root = s !! CURRENT root /\ put (root ++ [n]) e s !! PREVIOUS root = s !! PREVIOUS root.
Proof.
  intros [Hc Hs] Hn Hx He.
  assert (put (root ++ [n]) e s !! gen = s !! gen) as Hg by (rewrite lookup_put, decide_False by apply gen_not_switch; done).
  assert (put (root ++ [n]) e s !! CURRENT root = s !! CURRENT root) as H1 by (apply put_other; set_solver).
  assert (put (root ++ [n]) e s !! PREVIOUS root = s !! PREVIOUS root) as H2 by (apply put_other; set_solver).
  split_and!; try done; [|intros Hv; by apply verified_put]. split; [apply core_put; try done; set_solver|]. unfold before, after. rewrite H1, H2, Hg.
  destruct Hs as [Hs|(? & ? & ? & Hv)]; [by left|right]. split_and!; try done. by apply verified_put.
Qed.

Lemma core_fits s n : core s -> n ∈ SWITCH_NAMES -> s !! (root ++ [n]) <> Some Dir.
Proof. intros (_ & Hs & _) Hn E. apply (soft_at root s) in Hn; [|done]. by rewrite E in Hn. Qed.

(** *** Directories that stay *)

Lemma area_dirs q : q `prefix_of` GENERATIONS root -> area q = false.
Proof.
  intros [r Hr]. unfold Generations.area. destruct (rel root q) as [u|] eqn:Hu; [|done]. apply rel_Some in Hu. subst q. unfold GENERATIONS in Hr.
  rewrite <- app_assoc in Hr. apply app_inv_head in Hr. destruct u as [|a [|b u]]; [done| |done]. injection Hr as <- _. by vm_compute.
Qed.

Lemma core_dirs s : core s -> realb s (GENERATIONS root) = true /\ realb s root = true /\ realb s g0 = true.
Proof.
  intros (H1 & _). pose proof (act_g0 Hready) as [Hg Hq]%andb_prop.
  assert (realb s (GENERATIONS root) = true) as Hd.
  { destruct (proj1 (realb_spec _ _) (act_dirs Hready)) as [D1 D2]. apply realb_spec. split; [|done]. intros q Hq' Hn. rewrite H1; [by apply D1|]. by apply area_dirs. }
  split; [done|]. split; [eapply realb_prefix; [exact Hd|by exists ["generations"]]|].
  apply realb_spec in Hg as [D1 D2]. apply realb_spec. split; [|done]. intros q [r Hr] Hn. rewrite H1; [apply D1; [by exists r|done]|].
  rewrite forallb_forall in Hq. specialize (Hq (length q)). rewrite Hr, take_app_length in Hq. apply negb_true_iff, Hq, in_seq.
  destruct q; [done|]. rewrite length_app. cbn. lia.
Qed.

Lemma core_read {A} (r : reader A) s : core s -> forallb quiet (touched r f) = true -> read r s = read r f.
Proof.
  intros (H1 & _) Hq. apply read_frame, Forall_forall. intros x Hx. rewrite forallb_forall in Hq. eapply quiet_same; [by apply Hq, list_elem_of_In|].
  intros q Ha. symmetry. by apply H1.
Qed.

Lemma quiet_both : forallb quiet (touched (evidence g0 true) f) = true /\ forallb quiet (touched the_value f) = true.
Proof. pose proof (act_quiet Hready) as H. rewrite forallb_app in H. by apply andb_prop in H. Qed.

Lemma core_gen_real s : core s -> s !! gen = Some Dir -> realb s gen = true.
Proof.
  intros Hc Hg. destruct (core_dirs s Hc) as [Hd _]. apply realb_spec in Hd as [D1 D2]. apply realb_spec. split.
  - intros q [r Hr] Hn. unfold gen in Hr. destruct r as [|x r _] using rev_ind.
    + rewrite app_nil_r in Hr. fold gen in Hr. by rewrite <- Hr.
    + rewrite app_assoc in Hr. apply app_inj_2 in Hr as [Hr _]; [|done]. apply D1; [by exists r|done].
  - apply Forall_app. split; [done|]. constructor; [|done]. pose proof (act_name Hready) as [_ H]%andb_prop. by apply negb_true_iff, bool_decide_eq_false in H.
Qed.

(** *** A new generation *)

Section create.
Context (tag : string) (fz : bool) (s0 : fs) (H0 : switching s0) (Hnew : s0 !! gen = None).
Let staged := GENERATIONS root ++ [".incomplete-" +:+ tag].

Lemma staged_area q : at_or_below staged q = true -> area q = true.
Proof.
  intros [r ->]%bool_decide_eq_true. unfold staged, GENERATIONS. rewrite <- !app_assoc. unfold Generations.area. rewrite rel_app. cbn [app].
  unfold startswith. rewrite prefix_app, orb_true_l. by rewrite bool_decide_eq_true_2.
Qed.

Lemma staged_apart q : q = gen \/ q ∈ SWITCH root -> at_or_below staged q = false.
Proof.
  intros Hq. apply bool_decide_eq_false. intros [r Hr]. unfold staged, GENERATIONS in Hr. rewrite <- !app_assoc in Hr. destruct Hq as [->|Hq].
  - unfold gen, GENERATIONS in Hr. rewrite <- app_assoc in Hr. apply app_inv_head in Hr. injection Hr as E _. pose proof (act_name Hready) as [H _]%andb_prop.
    rewrite E in H. unfold startswith in H. by rewrite prefix_app in H.
  - unfold SWITCH in Hq. apply list_elem_of_In, in_map_iff in Hq as (n & <- & _). by apply app_inv_head in Hr.
Qed.

(** States that only differ from [s0] in the staging directory. *)
Definition staging (s : fs) : Prop := forall q, at_or_below staged q = false -> s !! q = s0 !! q.

Lemma staging_switching s : staging s -> switching s.
Proof.
  intros Hs. assert (forall q, q ∈ SWITCH root -> s !! q = s0 !! q) as Hsw by (intros q Hq; apply Hs, staged_apart; by right).
  destruct H0 as [(C1 & C2 & C3 & C4) Hb]. split.
  - split_and!.
    + intros q Hq. rewrite Hs; [by apply C1|]. destruct (at_or_below staged q) eqn:E; [|done]. by rewrite staged_area in Hq.
    + unfold soft in *. rewrite forallb_forall in C2 |- *. intros n Hn. rewrite Hsw; [by apply C2|]. apply elem_of_SWITCH. by apply list_elem_of_In.
    + rewrite Hsw; [done|]. apply elem_of_SWITCH. in_names.
    + rewrite Hs by (apply staged_apart; by left). done.
  - destruct Hb as [Hb|(_ & _ & Hg & _)]; [left|congruence]. unfold before. rewrite !Hsw; [done|apply elem_of_SWITCH; in_names..].
Qed.

Lemma staging_local s s' o : staging s -> apply o s = Some s' -> Forall (fun p => at_or_below staged p = true) (op_paths o) -> staging s'.
Proof.
  intros Hs Ha Ho q Hq. rewrite (apply_local o s s' q Ha); [by apply Hs|]. eapply Forall_impl; [exact Ho|]. cbn. intros p Hp.
  apply bool_decide_eq_false. intros Hpq. apply bool_decide_eq_true in Hp. apply bool_decide_eq_false in Hq. apply Hq. by etrans.
Qed.

Lemma wp_staging o (Q : unit -> fs -> Prop) s : staging s -> Forall (fun p => exists n r, p = staged ++ n :: r) (op_paths o) ->
  (forall s', staging s' -> s' !! staged = s !! staged -> Q tt s') -> wp fz (act o) switching Q (fun _ => switching) s.
Proof.
  intros Hs Ho HQ. apply wp_act. destruct (apply o s) as [s'|] eqn:Ha; [|by apply staging_switching].
  assert (staging s') as Hs'. { eapply staging_local; [exact Hs|exact Ha|]. eapply Forall_impl; [exact Ho|]. cbn. intros p (n & r & ->). apply bool_decide_eq_true. by exists (n :: r). }
  split; [by apply staging_switching|]. split; [|intros _; by apply staging_switching]. apply HQ; [done|]. eapply apply_local; [exact Ha|].
  eapply Forall_impl; [exact Ho|]. cbn. intros p (n & r & ->). apply bool_decide_eq_false. intros [u Hu]. apply (f_equal length) in Hu. rewrite !length_app in Hu. cbn in Hu. lia.
Qed.

Ltac stage_step s Hs Hd := apply wp_bind; apply wp_staging; [exact Hs|repeat constructor; by eexists _, _|]; clear Hs; intros s Hs Hd'; rewrite Hd in Hd'; clear Hd; rename Hd' into Hd.

Lemma gen_fresh : fresh = true.
Proof. destruct H0 as [(_ & _ & _ & [H|H]) _]; [|congruence]. unfold fresh. by rewrite <- H, Hnew. Qed.

Lemma gen_area q : at_or_below gen q = true -> area q = true.
Proof.
  intros [r ->]%bool_decide_eq_true. unfold gen, GENERATIONS. rewrite <- !app_assoc. unfold Generations.area. rewrite rel_app, gen_fresh. cbn [app].
  rewrite !bool_decide_eq_true_2 by done. apply orb_true_r.
Qed.

Lemma gen_apart q : q ∈ SWITCH root -> at_or_below gen q = false.
Proof.
  intros Hq. apply bool_decide_eq_false. intros [r Hr]. unfold gen, GENERATIONS in Hr. rewrite <- !app_assoc in Hr.
  unfold SWITCH in Hq. apply list_elem_of_In, in_map_iff in Hq as (n & <- & _). by apply app_inv_head in Hr.
Qed.

(** The directory appears at once. *)
Lemma staging_published s : staging s -> s !! staged = Some Dir -> switching (move staged gen s) /\ move staged gen s !! gen = Some Dir.
Proof.
  intros Hs Hd. assert (move staged gen s !! gen = Some Dir) as Hg. { pose proof (move_moved staged gen s [] Dir) as H. rewrite !app_nil_r in H. by apply H. }
  split; [|done]. assert (forall q, q ∈ SWITCH root -> move staged gen s !! q = s0 !! q) as Hsw.
  { intros q Hq. rewrite move_other; [apply Hs, staged_apart; by right|apply staged_apart; by right|by apply gen_apart]. }
  destruct H0 as [(C1 & C2 & C3 & C4) Hb]. split.
  - split_and!; [| | |by right].
    + intros q Hq. assert (at_or_below staged q = false) as Hq1 by (destruct (at_or_below staged q) eqn:E; [by rewrite staged_area in Hq|done]).
      assert (at_or_below gen q = false) as Hq2 by (destruct (at_or_below gen q) eqn:E; [by rewrite gen_area in Hq|done]).
      rewrite move_other by done. rewrite Hs by done. by apply C1.
    + unfold soft in *. rewrite forallb_forall in C2 |- *. intros n Hn. rewrite Hsw; [by apply C2|]. apply elem_of_SWITCH. by apply list_elem_of_In.
    + rewrite Hsw; [done|]. apply elem_of_SWITCH. in_names.
  - destruct Hb as [Hb|(_ & _ & Hg' & _)]; [left|congruence]. unfold before. rewrite !Hsw; [done|apply elem_of_SWITCH; in_names..].
Qed.

Lemma wp_create (Q : unit -> fs -> Prop) : (forall s, switching s -> s !! gen = Some Dir -> Q tt s) ->
  wp fz (create_generation root tag bundle' engine_dir runtime' service value gen) switching Q (fun _ => switching) s0.
Proof.
  intros HQ. unfold create_generation. fold staged. apply wp_bind, wp_act. cbn [apply]. unfold staged at 1. rewrite look_snoc. fold staged.
  destruct (s0 !! staged) as [e|] eqn:E0; [exact H0|]. set (s := <[ staged := Dir ]> s0).
  assert (staging s) as Hs. { intros q Hq. unfold s. rewrite lookup_insert_ne; [done|]. intros <-. by apply bool_decide_eq_false in Hq. }
  assert (s !! staged = Some Dir) as Hd by apply lookup_insert_eq. split; [by apply staging_switching|]. split; [|done]. clearbody s.
  rewrite (join_plain staged) by apply Hready. stage_step s1 Hs Hd. stage_step s2 Hs Hd. stage_step s3 Hs Hd.
  apply wp_bind. assert (forall s, staging s -> s !! staged = Some Dir ->
    wp fz (write_json (staged ++ ["GENERATION.json"]) value ;; act (Rename staged gen) ;; act (Sync (GENERATIONS root))) switching Q (fun _ => switching) s) as Hrest.
  { clear s Hs s1 s2 s3 Hd. intros s Hs Hd. apply wp_bind. unfold write_json. rewrite parent_snoc, name_snoc.
    stage_step s1 Hs Hd. stage_step s2 Hs Hd. stage_step s3 Hs Hd. stage_step s4 Hs Hd. apply wp_staging; [exact Hs|constructor|]. clear Hs. intros s5 Hs Hd'. rewrite Hd in Hd'.
    destruct (staging_published s5 Hs Hd') as [Hp Hg].
    assert (look s5 staged = Some Dir) as L1 by (rewrite <- Hd'; apply look_snoc).
    assert (look s5 gen = None) as L2 by (rewrite <- Hnew, <- (Hs gen) by (apply staged_apart; by left); apply look_snoc).
    apply wp_bind, wp_act. cbn [apply]. rewrite L1, L2.
    split; [done|]. split; [|intros _; by apply staging_switching]. apply wp_act. cbn [apply]. split; [done|]. split; [by apply HQ|done]. }
  destruct service as [u|]; [|by apply Hrest]. stage_step s4 Hs Hd. stage_step s5 Hs Hd. apply wp_staging; [exact Hs|constructor|]. intros s6 Hs6 Hd6. apply Hrest; [done|congruence].
Qed.
End create.

(** *** The switch *)

Definition prepared (s : fs) : Prop := switching s /\ s !! gen = Some Dir /\ verified s.

Lemma wp_relink_gen fz n to (Q : unit -> fs -> Prop) s : n = "current" \/ n = "previous" -> prepared s ->
  (forall s', core s' -> verified s' -> s' !! gen = Some Dir -> s' !! (root ++ [n]) = linked to ->
     (forall m, m <> n -> m ∈ ["current"; "previous"] -> s' !! (root ++ [m]) = s !! (root ++ [m])) -> switching s' /\ Q tt s') ->
  wp fz (atomic_link to (root ++ [n])) switching Q (fun _ => switching) s.
Proof.
  intros Hn (Hs & Hg & Hv) HQ.
  assert (n ∈ SWITCH_NAMES /\ (n +:+ ".pending") ∈ SWITCH_NAMES /\ (n +:+ ".pending") ∉ ["current"; "previous"; "ROLLBACK.json"] /\
    fits (n +:+ ".pending") (linked to) = true /\ fits n (linked to) = true /\ n <> "ROLLBACK.json") as (N1 & N2 & N3 & N4 & N5 & N6)
    by (destruct Hn as [-> | ->]; split_and!; in_names || done).
  destruct (switching_put s _ None Hs N2 N3 eq_refl) as (P1 & P2 & P3 & P4 & P5). set (s1 := put (root ++ [n +:+ ".pending"]) None s) in *.
  destruct (HQ (put (root ++ [n]) (linked to) s1)) as [Q1 Q2].
  - apply core_put; try done. apply P1.
  - by apply verified_put, N1; apply P3.
  - rewrite lookup_put, decide_False by apply gen_not_switch. congruence.
  - by rewrite lookup_put, decide_True.
  - intros m Hm Hin. rewrite put_other by done. apply elem_of_cons in Hin as [->|Hin]; [exact P4|]. apply list_elem_of_singleton in Hin as ->. exact P5.
  - apply wp_atomic_link; try done; try (by apply core_fits; [apply Hs|done]). by apply (switching_put s _ (linked to) Hs N2 N3 N4).
Qed.

Lemma wp_select fz s : prepared s ->
  wp fz (select_generation root gen) switching (fun _ s' => switching s' /\ after s') (fun _ => switching) s.
Proof.
  intros Hp. pose proof Hp as (Hs & Hg & Hv). pose proof Hs as [Hc Hba]. destruct (core_dirs s Hc) as (_ & Hr & Hg0).
  pose proof (core_gen_real s Hc Hg) as Hgr. assert (exists c, s !! CURRENT root = linked c /\ realb s c = true /\ (c = gen -> s !! PREVIOUS root = way_back) /\ (c <> gen -> c = g0)) as (c & Hcur & Hcr & Hsame & Hother).
  { destruct Hba as [[H1 H2]|(H1 & H2 & _)]; [exists g0|exists gen]; split_and!; try done. intros E. unfold way_back in *. rewrite decide_True in * by done. naive_solver. }
  assert (forall strict, read (resolve strict (CURRENT root)) s = Ok c) as Hres by (intros; by apply resolve_link).
  assert (forall s', prepared s' -> s' !! PREVIOUS root = way_back -> wp fz (new ← ask (resolve false gen); atomic_link new (CURRENT root)) switching (fun _ s' => switching s' /\ after s') (fun _ => switching) s') as Hlast.
  { intros s' Hp' Hback. pose proof Hp' as ([Hc' _] & Hg' & _). apply wp_bind, wp_ask. rewrite resolve_real by (by apply core_gen_real). apply wp_relink_gen; [by left|done|].
    intros s2 C2 V2 G2 L2 O2. assert (after s2) as Ha; [|by split; [split; [done|by right]|split; [split; [done|by right]|]]]. split; [done|]. split; [|done].
    rewrite <- Hback. apply O2; [done|in_names]. }
  unfold select_generation. apply wp_bind, wp_ask. rewrite read_exists, Hres, look_real by done. cbn [is_some is_none negb].
  apply wp_bind. apply wp_bind, wp_ask. rewrite Hres. apply wp_bind, wp_ask. rewrite resolve_real by done. case_bool_decide as Heq.
  - subst c. cbn [wp]. apply Hlast; [done|by apply Hsame].
  - pose proof (Hother Heq) as ->. apply wp_bind, wp_ask. rewrite Hres. apply wp_relink_gen; [by right|done|]. intros s2 C2 V2 G2 L2 O2.
    assert (linked g0 = way_back) as Hb by (unfold way_back; by rewrite decide_False). assert (switching s2) as S2.
    { split; [done|left]. split; [|right; by rewrite <- Hb]. rewrite <- Hcur. apply O2; [done|in_names]. }
    split; [done|]. apply Hlast; [by split|by rewrite <- Hb].
Qed.

Lemma wp_report fz s : switching s -> wp fz (report_selected sha256 bash_ok python_ok root ;; (Raise OSError : prog unit)) switching (fun _ s' => switching s' /\ after s') (fun _ => switching) s.
Proof.
  intros Hs. apply wp_bind. unfold report_selected. apply wp_bind, wp_ask. cbn [is_symlink read mbind reader_bind reader_bind_ rlook].
  destruct (look s (CURRENT root)) as [[]|]; try done. apply wp_bind, wp_ask. destruct (read _ s) as [g|]; [|done]. apply wp_bind, wp_ask. by destruct (read _ s).
Qed.

(** Saved settings are removed from the generation. *)
Lemma prepared_unlink s : switching s -> s !! gen = Some Dir -> verified s -> prepared (base.delete (gen ++ ["vllm.env"]) s).
Proof.
  intros [(C1 & C2 & C3 & C4) Hba] Hg Hv. set (q0 := gen ++ ["vllm.env"]).
  assert (area q0 = true) as Hq0.
  { unfold q0, gen, GENERATIONS. rewrite <- !app_assoc. unfold Generations.area. rewrite rel_app. cbn [app]. rewrite !bool_decide_eq_true_2 by done. rewrite !orb_true_r. done. }
  assert (forall n, q0 <> root ++ [n]) as Hn. { intros n E. unfold q0, gen, GENERATIONS in E. rewrite <- !app_assoc in E. by apply app_inv_head in E. }
  assert (q0 <> gen) as Hqg. { unfold q0. intros E. apply (f_equal length) in E. rewrite length_app in E. cbn in E. lia. }
  assert (forall n, base.delete q0 s !! (root ++ [n]) = s !! (root ++ [n])) as Hsw by (intros n; by rewrite lookup_delete_ne).
  assert (base.delete q0 s !! gen = s !! gen) as Hg' by (by rewrite lookup_delete_ne).
  assert (verified (base.delete q0 s)) as Hv'.
  { destruct Hv as (s' & v & Hr & Hs). exists s', v. split; [done|]. intros q Hq Hne. rewrite lookup_delete_ne by done. by apply Hs. }
  split; [|by rewrite Hg']. split.
  - split_and!; [| |by unfold JOURNAL; rewrite Hsw|by rewrite Hg'].
    + intros q Hq. rewrite lookup_delete_ne; [by apply C1|]. intros <-. congruence.
    + unfold soft in *. rewrite forallb_forall in C2 |- *. intros n Hin. rewrite Hsw. by apply C2.
  - unfold before, after, CURRENT, PREVIOUS in *. rewrite !Hsw, Hg'. destruct Hba as [Hb|(? & ? & ? & ?)]; [by left|by right].
Qed.

Lemma wp_after_evidence fz s : prepared s ->
  wp fz (match service with Some _ => unlink_missing_ok (gen ++ ["vllm.env"]) ;; act (Sync gen) | None => Ret tt end ;;
         try (select_generation root gen) (fun _ => Ret tt) (fun e => match e with OSError => report_selected sha256 bash_ok python_ok root ;; Raise OSError | _ => Raise e end))
    switching (fun _ s' => switching s' /\ after s') (fun _ => switching) s.
Proof.
  intros Hp. assert (forall s, prepared s -> wp fz (try (select_generation root gen) (fun _ => Ret tt)
    (fun e => match e with OSError => report_selected sha256 bash_ok python_ok root ;; Raise OSError | _ => Raise e end)) switching (fun _ s' => switching s' /\ after s') (fun _ => switching) s) as Hsel.
  { clear s Hp. intros s Hp. apply wp_try. eapply wp_weaken; [| | |by apply wp_select]; [done|done|]. intros [] g Hg; try done. by apply wp_report. }
  apply wp_bind. destruct service as [u|]; [|by apply Hsel]. apply wp_bind. unfold unlink_missing_ok. apply wp_bind, wp_ask. cbn [rlook read]. rewrite look_snoc.
  pose proof Hp as (Hs & Hg & Hv). destruct (s !! (gen ++ ["vllm.env"])) as [e|] eqn:He.
  - apply wp_act. cbn [apply]. rewrite look_snoc, He. pose proof (prepared_unlink s Hs Hg Hv) as Hu.
    destruct e; [| |done]; (split; [apply Hu|]; split; [|done]; apply wp_act; cbn [apply]; split; [apply Hu|]; split; [by apply Hsel|intros _; apply Hu]).
  - apply wp_act. cbn [apply]. split; [done|]. split; [by apply Hsel|done].
Qed.

Lemma wp_activate fz tag s : switching s ->
  wp fz (activate sha256 bash_ok python_ok root tag bundle engine_dir runtime config) switching
     (fun r s' => switching s' /\ after s' /\ exists s1, read (evidence gen true) s1 = Ok r) (fun _ => switching) s.
Proof.
  intros Hs. assert (forall s, switching s -> wp fz (activate_locked sha256 bash_ok python_ok root tag bundle' engine_dir runtime' service value) switching
     (fun r s' => switching s' /\ after s' /\ exists s1, read (evidence gen true) s1 = Ok r) (fun _ => switching) s) as Hrest.
  { clear s Hs. intros s Hs. destruct (core_dirs s (proj1 Hs)) as (Hd & Hr & _). unfold activate_locked. fold gen_name. fold gen. apply wp_bind, wp_ask.
    unfold JOURNAL. rewrite exists_last by (done || apply Hs). apply wp_bind. cbn [wp]. apply wp_bind, wp_ask.
    assert (gen_name <> "..") as Hdot by (pose proof (act_name Hready) as [_ H]%andb_prop; by apply negb_true_iff, bool_decide_eq_false in H).
    assert (forall s, switching s -> s !! gen = Some Dir -> wp fz (selected ← ask (evidence gen true);
      match service with Some _ => unlink_missing_ok (gen ++ ["vllm.env"]) ;; act (Sync gen) | None => Ret tt end ;;
      try (select_generation root gen) (fun _ => Ret tt) (fun e => match e with OSError => report_selected sha256 bash_ok python_ok root ;; Raise OSError | _ => Raise e end) ;; Ret selected)
      switching (fun r s' => switching s' /\ after s' /\ exists s1, read (evidence gen true) s1 = Ok r) (fun _ => switching) s) as Hend.
    { clear s Hs Hd Hr. intros s Hs Hg. apply wp_bind, wp_ask. destruct (read (evidence gen true) s) as [v|] eqn:Hv; [|done].
      assert (prepared s) as Hp by (split_and!; [done|done|exists s, v; by split]). pose proof (wp_after_evidence fz s Hp) as Hw.
      eapply wp_assoc, wp_bind, wp_weaken; [| | |exact Hw]; [done| |done]. intros [] s' [H1 H2]. cbn [wp]. eauto. }
    destruct (proj1 Hs) as (_ & _ & _ & Hgen). assert (s !! gen = None \/ s !! gen = Some Dir) as [Hg|Hg] by (destruct Hgen as [->|?]; [apply Hready|by right]).
    - assert (read (exists_ gen) s = Ok false) as -> by (by apply exists_last). apply wp_bind. by apply wp_create.
    - assert (read (exists_ gen) s = Ok true) as ->. { rewrite read_exists, resolve_real by (by apply core_gen_real; [apply Hs|]). by rewrite look_real by (by apply core_gen_real; [apply Hs|]). }
      apply wp_bind. cbn [wp]. by apply Hend. }
  unfold activate. apply wp_bind, wp_ask. rewrite (core_read _ s (proj1 Hs) (proj2 quiet_both)), (act_value Hready).
  apply wp_bind, mkdirs_real; [apply core_dirs, Hs|]. apply wp_bind. unfold LOCK. apply wp_open_lock; [done|apply core_fits; [apply Hs|in_names]|done|by apply Hrest|].
  intros _ s'. destruct (switching_put s "activation.lock" (Some (File (OtherBytes "") false)) Hs) as (H1 & _); [in_names|in_names|done|]. split; [done|by apply Hrest].
Qed.
End activation_facts.

(** ** Interrupted activations *)

(** C20: An interrupted activation leaves a whole generation selected, and a retry
    completes the switch.  From an engine that has selected the verified [g0],
    whichever calls of an activation fail and wherever it stops, every state it
    goes through either still selects [g0], which verifies there with the same
    evidence, or selects the new generation, which verified in a state that
    differs only in the links and in its saved settings, with [g0] as the way
    back (the old way back when the generation was already selected).  From each
    of these states another activation that returns, again under any failures,
    ends with the new generation selected and the same way back. *)
Theorem activation_whole sha256 bash_ok python_ok root f g0 v0 bundle engine_dir runtime config bundle' runtime' service value :
  activation_ready sha256 bash_ok python_ok root f g0 v0 bundle engine_dir runtime config bundle' runtime' service value ->
  let gen := GENERATIONS root ++ [digest sha256 value] in
  let tool tag := activate sha256 bash_ok python_ok root tag bundle engine_dir runtime config in
  let switched_in s := s !! CURRENT root = linked gen /\ s !! PREVIOUS root = way_back sha256 root f g0 value /\ verified sha256 bash_ok python_ok root value s in
  forall faults tag s, s ∈ f :: states (run faults 0 (tool tag) f) ->
    (s !! CURRENT root = linked g0 /\ read (evidence sha256 bash_ok python_ok g0 true) s = Ok v0 \/ switched_in s) /\
    forall faults' tag' r, res (run faults' 0 (tool tag') s) = Ok r -> switched_in (now (run faults' 0 (tool tag') s)).
Proof.
  intros Hr gen tool switched_in faults tag s Hs. pose proof (wp_activate _ _ _ _ _ _ _ _ _ _ _ _ _ _ _ Hr) as Hwp. fold tool in Hwp.
  assert (switching sha256 bash_ok python_ok root f g0 value f) as Hf.
  { destruct Hr. split; [split_and!; try done; by left|left; split; [done|by left]]. }
  assert (switching sha256 bash_ok python_ok root f g0 value s) as Hsw.
  { apply elem_of_cons in Hs as [->|Hs]; [done|]. destruct (wp_sound true _ _ _ _ f faults 0 ltac:(done) (Hwp true tag f Hf)) as [Hall _]. rewrite Forall_forall in Hall. by apply Hall. }
  split.
  - destruct Hsw as [Hc [[Hb _]|(? & ? & _ & ?)]]; [left|by right]. split; [done|]. rewrite (core_read _ _ _ _ _ s Hc); [by apply Hr|]. by eapply quiet_both.
  - intros faults' tag' r Hres. destruct (wp_sound true _ _ _ _ s faults' 0 ltac:(done) (Hwp true tag' s Hsw)) as [_ Hend]. fold (tool tag') in Hend. rewrite Hres in Hend.
    destruct Hend as (_ & (? & ? & _ & ?) & _). by split_and!.
Qed.

(** *** On the node *)

Definition the_link (e : option entry) : path := match e with Some (Link (Abs p)) => p | _ => [] end.
Definition ex_json (r : result error json) : json := match r with Ok j => j | Err _ => JNull end.

Definition ex_g2 : path := the_link (ex_active !! CURRENT ex_root).
Definition ex_g1 : path := the_link (ex_active !! PREVIOUS ex_root).

(** From its fifth call on every call fails. *)
Definition ex_stop (n : nat) : bool := Nat.leb 5 n.

Lemma rollback_resumes_witness :
  Forall (fun s => s !! CURRENT ex_root = linked ex_g2 \/ s !! CURRENT ex_root = linked ex_g1)
    (ex_active :: states (run ex_stop 0 (rollback ex_sha ex_ok ex_ok ex_root) ex_active)).
Proof.
  destruct (rollback_resumes ex_sha ex_ok ex_ok ex_root ex_active ex_g2 ex_g1 (ex_json (read (evidence ex_sha ex_ok ex_ok ex_g1 true) ex_active))) as [H _].
  - split; try (vm_compute; reflexivity). apply (bool_decide_unpack _). vm_compute. exact I.
  - apply Forall_forall. intros s Hs. apply (H ex_stop s Hs).
Defined.

Definition ex_first : fs := now (run no_faults 0 (ex_activate "r1") ex_sealed).
Definition ex_value : path * path * option string * json :=
  match read (generation_value ex_sha ex_ok ex_ok ex_root ex_bundle "auto-vllm" (ex_runtime "r2") [("QIIP_ENGINE", JStr "vllm")]) ex_first with Ok x => x | Err _ => ([], [], None, JNull) end.

Lemma activation_whole_witness :
  Forall (fun s => s !! CURRENT ex_root = linked ex_g1 \/ s !! CURRENT ex_root = linked ex_g2)
    (ex_first :: states (run ex_stop 0 (ex_activate "r2") ex_first)).
Proof.
  apply Forall_forall. intros s Hs.
  destruct (activation_whole ex_sha ex_ok ex_ok ex_root ex_first ex_g1 (ex_json (read (evidence ex_sha ex_ok ex_ok ex_g1 true) ex_first))
    ex_bundle "auto-vllm" (ex_runtime "r2") [("QIIP_ENGINE", JStr "vllm")] ex_bundle (ex_runtime "r2") (snd (fst ex_value)) (snd ex_value)) with (faults := ex_stop) (tag := "r2") (s := s) as [H _].
  - split; try (vm_compute; reflexivity). left. vm_compute. reflexivity.
  - exact Hs.
  - destruct H as [[H _]|(H & _)]; [left; exact H|right; rewrite H; vm_compute; reflexivity].
Defined.

(** ** Publication *)

Lemma wp_sync_tree fz follow root s (I : fs -> Prop) (Q : unit -> fs -> Prop) (E : error -> fs -> Prop) : I s -> Q tt s -> E OSError s -> wp fz (sync_tree follow root) I Q E s.
Proof.
  intros HI HQ HE. apply (wp_weaken fz _ (fun g => g = s) I (fun _ g => g = s) Q (fun e g => e = OSError /\ g = s) E); [by intros g ->|by intros [] g ->|by intros e g [-> ->]|].
  assert (forall p, wp fz (act (Sync p)) (fun g => g = s) (fun _ g => g = s) (fun e g => e = OSError /\ g = s) s) as Hsync by (intros p; by apply wp_act).
  assert (forall (b : bool) p, wp fz (if b then act (Sync p) else Ret tt) (fun g => g = s) (fun _ g => g = s) (fun e g => e = OSError /\ g = s) s) as Hif by (intros [] p; [apply Hsync|done]).
  unfold sync_tree. apply wp_bind, wp_ask. cbn [rscan read]. apply wp_bind. eapply wp_weaken; [| | |apply (wp_each _ _ _ (fun g => g = s) (fun e g => e = OSError /\ g = s))]; [done| |done| |done].
  - intros [] g ->. apply wp_bind. eapply wp_weaken; [| | |apply (wp_each _ _ _ (fun g => g = s) (fun e g => e = OSError /\ g = s))]; [done| |done| |done]; [by intros [] g ->|].
    intros [p e] g ->. unfold sync_dir. apply wp_bind, wp_ask. destruct follow; [unfold is_dir; rewrite read_bind, read_stat|]; cbn [fst read]; apply Hif.
  - intros [p e] g ->. unfold sync_file. apply wp_bind, wp_ask. unfold is_file. rewrite read_bind, read_stat. cbn [fst read]. apply Hif.
Qed.

Section publish_facts.
Context (dir : path) (n m k tag : string) (verify : path -> reader json) (f : fs) (v : json).
Let final := dir ++ [n].
Let staged := dir ++ [m].
Let aside := ".corrupt-" +:+ n +:+ "-" +:+ tag.

(** The staged directory, the destination and the lock are siblings in a real
    directory; a destination that is no directory has nothing below it, and the
    name for damaged content is free. *)
Record publish_ready := {
  pub_dir : realb f dir = true;
  pub_names : NoDup [n; m; k; aside] /\ n <> ".." /\ m <> "..";
  pub_staged : f !! staged = Some Dir;
  pub_verified : read (verify staged) f = Ok v;
  pub_lock : f !! (dir ++ [k]) <> Some Dir;
  pub_leaf : bool_decide (f !! final = Some Dir) || is_empty f final = true;
  pub_aside : bool_decide (f !! (dir ++ [aside]) = None) && is_empty f (dir ++ [aside]) = true;
}.

(** The destination as it was, absent with the damaged content kept, or the
    whole staged directory. *)
Definition kept (s : fs) : Prop := forall r, s !! (dir ++ n :: r) = f !! (dir ++ n :: r).
Definition aside_kept (s : fs) : Prop := (forall r, s !! (dir ++ n :: r) = None) /\ forall r, s !! (dir ++ aside :: "contents" :: r) = f !! (dir ++ n :: r).
Definition published (s : fs) : Prop := forall r, s !! (dir ++ n :: r) = f !! (dir ++ m :: r).
Definition whole (s : fs) : Prop := kept s \/ aside_kept s \/ published s.

(** The destination was found good, or is the verified upload. *)
Definition settled (s : fs) : Prop :=
  kept s /\ (exists s' w, kept s' /\ read (verify final) s' = Ok w) \/ published s.

Definition upload_there (s : fs) : Prop := realb s dir = true /\ forall r, s !! (dir ++ m :: r) = f !! (dir ++ m :: r).
Definition untouched (s : fs) : Prop := upload_there s /\ kept s /\ forall r, s !! (dir ++ aside :: r) = None.

Context (Hready : publish_ready).

Lemma names_differ : n <> m /\ n <> aside /\ m <> aside /\ k <> n /\ k <> m /\ k <> aside.
Proof.
  destruct (pub_names Hready) as [H _]. apply NoDup_cons in H as [Hn H]. apply NoDup_cons in H as [Hm H]. apply NoDup_cons in H as [Hk _]. set_solver.
Qed.

Lemma no_leaves : f !! final <> Some Dir -> forall x r, f !! (dir ++ n :: x :: r) = None.
Proof.
  intros Hf x r. pose proof (pub_leaf Hready) as H. rewrite bool_decide_eq_false_2 in H by done. pose proof (is_empty_below f final x r H) as E. unfold final in E. by rewrite <- app_assoc in E.
Qed.

Lemma aside_free r : f !! (dir ++ aside :: r) = None.
Proof.
  pose proof (pub_aside Hready) as [H1 H2]%andb_prop. apply bool_decide_eq_true in H1. destruct r as [|x r]; [done|].
  pose proof (is_empty_below f (dir ++ [aside]) x r H2) as E. by rewrite <- app_assoc in E.
Qed.

(** The upload takes the free place. *)
Lemma wp_take_place fz s : upload_there s -> s !! final = None -> whole s ->
  wp fz (there ← ask (exists_ staged); (if (there : bool) then act (Rename staged final) else Ret tt) ;; act (Sync (parent final))) whole (fun _ => settled) (fun _ => whole) s.
Proof.
  intros [Hd Hm] Hf Hw. destruct names_differ as (N1 & _). destruct (pub_names Hready) as (_ & Hn & Hmm).
  assert (s !! staged = Some Dir) as Hst by (rewrite <- (pub_staged Hready); apply Hm).
  assert (read (exists_ staged) s = Ok true) as He. { unfold staged in *. rewrite read_exists, resolve_last, Hst by done. by rewrite look_snoc, Hst. }
  assert (look s staged = Some Dir) as L1 by (rewrite <- Hst; apply look_snoc). assert (look s final = None) as L2 by (rewrite <- Hf; apply look_snoc).
  assert (published (move staged final s)) as Hp.
  { intros r. rewrite <- Hm. pose proof (move_exact staged final s r) as H. unfold staged, final in H. rewrite <- !app_assoc in H. apply H; rewrite at_or_below_sibling; by apply bool_decide_eq_false. }
  apply wp_bind, wp_ask. rewrite He. apply wp_bind, wp_act. cbn [apply]. rewrite L1, L2. split; [by right; right|]. split; [|done].
  apply wp_act. cbn [apply]. split; [by right; right|]. split; [by right|by right; right].
Qed.

(** The upload is not needed. *)
Lemma wp_discard fz s w : untouched s -> read (verify final) s = Ok w ->
  wp fz (rmtree staged ;; there ← ask (exists_ staged); (if (there : bool) then act (Rename staged final) else Ret tt) ;; act (Sync (parent final))) whole (fun _ => settled) (fun _ => whole) s.
Proof.
  intros Hs Hv. destruct names_differ as (N1 & _). destruct (pub_names Hready) as (_ & Hn & Hmm). set (J := fun g => realb g dir = true /\ kept g).
  assert (J s) as HJ by (destruct Hs as ((? & _) & ? & _); done).
  assert (forall o g, J g -> Forall (fun p => exists r, p = dir ++ m :: r) (op_paths o) -> match apply o g with Some g' => J g' | None => True end) as Hop.
  { intros o g [G1 G2] Ho. destruct (apply o g) as [g'|] eqn:Ha; [|done]. destruct (apply_siblings dir o g g' [m] Ha) as [S1 S2].
    { eapply Forall_impl; [exact Ho|]. cbn. intros p (r & ->). exists m, r. set_solver. }
    split; [by apply S2|]. intros r. rewrite S1; [apply G2|set_solver]. }
  assert (forall g, J g -> whole g) as HJw by (intros g [_ ?]; by left).
  apply wp_bind. unfold rmtree. apply wp_bind, wp_ask. cbn [rscan read]. apply wp_bind.
  assert (forall l g, J g -> Forall (fun x => exists r, fst x = dir ++ m :: r) l -> wp fz (each remove_entry l) whole (fun _ => J) (fun _ => whole) g) as Heach.
  { induction l as [|[p e] l IH]; intros g Hg Hl; [done|]. apply Forall_cons in Hl as [Hp Hl]. cbn [each]. apply wp_bind.
    assert (exists o, op_paths o = [p] /\ remove_entry (p, e) = act o) as (o & Ho & ->) by (destruct e; eexists; split; try reflexivity; done).
    apply wp_act. pose proof (Hop o g Hg) as H. rewrite Ho in H. specialize (H ltac:(by constructor)). destruct (apply o g) as [g'|]; [|by apply HJw].
    split; [by apply HJw|]. split; [by apply IH|intros _; by apply HJw]. }
  eapply wp_weaken; [| | |apply (Heach _ s HJ)]; [done| |done|].
  - intros [] g Hg. apply wp_act. cbn [apply]. assert (look g staged = g !! staged) as Hl by apply look_snoc. rewrite Hl. destruct (g !! staged) as [[]|] eqn:Hst; try (by apply HJw).
    destruct (is_empty g staged) eqn:Hempty; [|by apply HJw]. pose proof (Hop (Rmdir staged) g Hg ltac:(by repeat econstructor)) as H. 
    assert (apply (Rmdir staged) g = Some (base.delete staged g)) as Hrm by (cbn [apply]; by rewrite Hl, Hempty). rewrite Hrm in H. destruct H as [D K].
    split; [by left|]. split; [|intros _; by apply HJw]. apply wp_bind, wp_ask. assert (read (exists_ staged) (base.delete staged g) = Ok false) as ->.
    { unfold staged. apply exists_last; [done|done|apply lookup_delete_eq]. }
    apply wp_bind. cbn [wp]. apply wp_act. cbn [apply]. split; [by left|]. split; [left; split; [done|]|by left]. exists s, w. split; [apply Hs|done].
  - rewrite sort_by_perm. apply Forall_forall. intros [q e] (x & r & ->)%scan_below. cbn. exists (x :: r). unfold staged. by rewrite <- app_assoc.
Qed.

(** Damaged content moves aside. *)
Lemma wp_quarantine fz s : untouched s -> f !! final <> None ->
  wp fz (let quarantine := parent final ++ [".corrupt-" +:+ name final +:+ "-" +:+ tag] in
         (act (Mkdir quarantine) ;; act (Rename final (quarantine ++ ["contents"])) ;; act (Sync (parent final))) ;;
         there ← ask (exists_ staged); (if (there : bool) then act (Rename staged final) else Ret tt) ;; act (Sync (parent final))) whole (fun _ => settled) (fun _ => whole) s.
Proof.
  intros ((Hd & Hm) & Hk & Ha) Hf. destruct names_differ as (N1 & N2 & N3 & _). assert (parent final = dir /\ name final = n) as [-> ->] by (split; [apply parent_snoc|apply name_snoc]).
  fold aside. cbv zeta. set (q := dir ++ [aside]). assert (whole s) as Hw by (by left). assert (look s q = None) as Lq by (unfold q; rewrite look_snoc; apply (Ha [])).
  apply wp_bind, wp_bind, wp_act. cbn [apply]. rewrite Lq. set (s1 := <[ q := Dir ]> s).
  assert (apply (Mkdir q) s = Some s1) as A1 by (cbn [apply]; by rewrite Lq).
  destruct (apply_siblings dir _ _ _ [aside] A1) as [S1 S2]. { cbn. constructor; [|done]. exists aside, []. set_solver. }
  assert (kept s1) as K1 by (intros r; rewrite S1 by set_solver; apply Hk). split; [by left|]. split; [|done].
  assert (forall r, s1 !! (dir ++ aside :: "contents" :: r) = None) as C1.
  { intros r. unfold s1. rewrite lookup_insert_ne; [apply Ha|]. unfold q. intros E. by apply app_inv_head in E. }
  set (c := q ++ ["contents"]). assert (c = dir ++ [aside; "contents"]) as Hc by (unfold c, q; by rewrite <- app_assoc).
  assert (look s1 c = None) as Lc by (unfold c; rewrite look_snoc; fold c; rewrite Hc; apply (C1 [])).
  assert (look s1 final = f !! final) as Lf by (unfold final; rewrite look_snoc; apply (K1 [])).
  assert (exists s2, apply (Rename final c) s1 = Some s2 /\ aside_kept s2) as (s2 & A2 & H2).
  { cbn [apply]. rewrite Lf, Lc. destruct (f !! final) as [e|] eqn:Ef; [|done]. destruct (decide (e = Dir)) as [->|He].
    - eexists. split; [reflexivity|]. assert (forall y z, at_or_below (dir ++ [y]) z = true -> forall u w, z = dir ++ u :: w -> y = u) as Hb.
      { intros y z Hz u w ->. rewrite at_or_below_sibling in Hz. by apply bool_decide_eq_true in Hz. }
      assert (at_or_below final c = false) as B1. { rewrite Hc. unfold final. rewrite at_or_below_sibling. by apply bool_decide_eq_false. }
      assert (at_or_below c final = false) as B2. { apply bool_decide_eq_false. rewrite Hc. intros [u Hu]. unfold final in Hu. rewrite <- app_assoc in Hu. by apply app_inv_head in Hu. }
      split; intros r.
      + unfold move. rewrite graft_other, cut_other.
        * replace (dir ++ n :: r) with (final ++ r) by (unfold final; by rewrite <- app_assoc). apply cut_below.
        * rewrite Hc. apply bool_decide_eq_false. intros [u Hu]. rewrite <- app_assoc in Hu. apply app_inv_head in Hu. injection Hu; congruence.
        * rewrite Hc. apply bool_decide_eq_false. intros [u Hu]. rewrite <- app_assoc in Hu. apply app_inv_head in Hu. injection Hu; congruence.
      + replace (dir ++ aside :: "contents" :: r) with (c ++ r) by (rewrite Hc; by rewrite <- app_assoc). rewrite (move_exact final c s1 r B1 B2). unfold final. rewrite <- app_assoc. apply K1.
    - assert (match e with Dir => Some (move final c s1) | _ => Some (<[ c := e ]> (base.delete final s1)) end = Some (<[ c := e ]> (base.delete final s1))) as -> by (by destruct e).
      eexists. split; [reflexivity|]. assert (c <> final) as Hcf. { rewrite Hc. unfold final. intros E. apply app_inv_head in E. injection E; congruence. }
      assert (forall x r, f !! (dir ++ n :: x :: r) = None) as Hleaf by (apply no_leaves; congruence). split; intros r.
      + rewrite lookup_insert_ne by (rewrite Hc; intros E; apply app_inv_head in E; injection E; congruence). destruct r as [|x r]; [apply lookup_delete_eq|].
        rewrite lookup_delete_ne by (unfold final; intros E; by apply app_inv_head in E). rewrite K1. apply Hleaf.
      + destruct r as [|x r]; [rewrite <- Hc, lookup_insert_eq; by rewrite <- Ef|]. rewrite lookup_insert_ne by (rewrite Hc; intros E; by apply app_inv_head in E).
        rewrite lookup_delete_ne by (unfold final; intros E; apply app_inv_head in E; injection E; congruence). rewrite C1. symmetry. apply Hleaf. }
  destruct (apply_siblings dir _ _ _ [n; aside] A2) as [S3 S4]. { cbn. constructor; [exists n, []; set_solver|]. constructor; [|done]. exists aside, ["contents"]. rewrite Hc. set_solver. }
  assert (whole s2) as W2 by (by right; left). apply wp_bind, wp_act. fold c. rewrite A2. split; [done|]. split; [|intros _; by left].
  apply wp_act. cbn [apply]. split; [done|]. split; [|done]. replace dir with (parent final) by apply parent_snoc. apply wp_take_place; [|apply H2|done].
  split; [by apply S4, S2|]. intros r. rewrite S3 by set_solver. rewrite S1 by set_solver. apply Hm.
Qed.

Lemma wp_publish_locked fz s : untouched s -> wp fz (publish_locked staged final verify tag) whole (fun _ => settled) (fun _ => whole) s.
Proof.
  intros Hs. pose proof Hs as ([Hd Hm] & Hk & Ha). destruct (pub_names Hready) as (_ & Hn & _). assert (whole s) as Hw by (by left).
  assert (s !! final = f !! final) as Ef by apply (Hk []). unfold publish_locked. apply wp_bind, wp_ask. rewrite read_exists. apply wp_bind, wp_ask.
  assert (read (is_symlink final) s = Ok match s !! final with Some (Link _) => true | _ => false end) as ->.
  { unfold is_symlink. rewrite read_bind. cbn [rlook read]. unfold final. by rewrite look_snoc. }
  destruct (s !! final) as [e|] eqn:He.
  - assert (forall e', wp fz (if quarantined e' then let quarantine := parent final ++ [".corrupt-" +:+ name final +:+ "-" +:+ tag] in
        act (Mkdir quarantine) ;; act (Rename final (quarantine ++ ["contents"])) ;; act (Sync (parent final)) else Raise e') whole
        (fun _ => wp fz (there ← ask (exists_ staged); (if (there : bool) then act (Rename staged final) else Ret tt) ;; act (Sync (parent final))) whole (fun _ => settled) (fun _ => whole))
        (fun _ => whole) s) as Hq.
    { intros e'. destruct (quarantined e'); [|done]. cbv zeta. apply (wp_bind_inv fz (act (Mkdir _) ;; act (Rename final _) ;; act (Sync (parent final)))). apply wp_quarantine; [done|congruence]. }
    assert ((match read (resolve true final) s with Ok q => is_some (look s q) | Err _ => false end || match Some e with Some (Link _) => true | _ => false end) = true) as ->.
    { destruct e; try apply orb_true_r; unfold final in *; rewrite resolve_last, He by done; by rewrite look_snoc, He. }
    apply wp_bind, wp_try. unfold check_destination. apply wp_bind, wp_ask.
    assert (read (is_symlink final) s = Ok match e with Link _ => true | _ => false end) as ->.
    { unfold is_symlink. rewrite read_bind. cbn [rlook read]. unfold final. rewrite look_snoc. fold final. by rewrite He. }
    assert (wp fz (ask (verify final) ;; Ret tt) whole (fun _ => wp fz (rmtree staged) whole
      (fun _ => wp fz (there ← ask (exists_ staged); (if (there : bool) then act (Rename staged final) else Ret tt) ;; act (Sync (parent final))) whole (fun _ => settled) (fun _ => whole)) (fun _ => whole))
      (fun e' => wp fz (if quarantined e' then let quarantine := parent final ++ [".corrupt-" +:+ name final +:+ "-" +:+ tag] in
        act (Mkdir quarantine) ;; act (Rename final (quarantine ++ ["contents"])) ;; act (Sync (parent final)) else Raise e') whole
        (fun _ => wp fz (there ← ask (exists_ staged); (if (there : bool) then act (Rename staged final) else Ret tt) ;; act (Sync (parent final))) whole (fun _ => settled) (fun _ => whole))
        (fun _ => whole)) s) as Hver.
    { apply wp_bind, wp_ask. destruct (read (verify final) s) as [w|e'] eqn:Hv; [|apply Hq]. cbn [wp]. apply wp_bind_inv. by eapply wp_discard. }
    apply wp_bind. destruct e; [exact Hver|apply Hq|exact Hver].
  - assert ((match read (resolve true final) s with Ok q => is_some (look s q) | Err _ => false end || match @None entry with Some (Link _) => true | _ => false end) = false) as ->.
    { unfold final in *. by rewrite resolve_last, He by done. }
    apply wp_bind. cbn [wp]. by apply wp_take_place.
Qed.

Lemma wp_publish fz : wp fz (publish_directory staged final verify (dir ++ [k]) tag) whole (fun _ => settled) (fun _ => whole) f.
Proof.
  assert (untouched f) as Hf. { split; [split; [apply Hready|done]|]. split; [done|apply aside_free]. }
  assert (whole f) as Hw by (by left). destruct names_differ as (_ & _ & _ & N4 & N5 & N6). unfold publish_directory.
  apply wp_bind, wp_ask. rewrite (pub_verified Hready). apply wp_bind, wp_sync_tree; [done| |done].
  apply wp_bind, wp_open_lock; [done|apply Hready|done|by apply wp_publish_locked|]. intros Hnone s'.
  assert (apply (Write (dir ++ [k]) (OtherBytes "")) f = Some s') as Hap by (cbn [apply]; by rewrite look_snoc, Hnone).
  destruct (apply_siblings dir _ _ _ [k] Hap) as [S1 S2]. { cbn. constructor; [|done]. exists k, []. set_solver. }
  assert (untouched s') as Hs'. { split; [split; [apply S2, Hready|intros r; apply S1; set_solver]|]. split; [intros r; apply S1; set_solver|]. intros r. rewrite S1 by set_solver. apply aside_free. }
  split; [left; apply Hs'|by apply wp_publish_locked].
Qed.
End publish_facts.

(** C22: Publication is all or nothing.  Whichever calls of a publication fail and
    wherever it stops, in every state the destination is the tree it was before,
    or the whole verified upload, or it is absent and the damaged content is kept
    aside unchanged; a publication that returns leaves a destination that passed
    the verification as it stands, or the verified upload. *)
Theorem publish_whole dir n m k tag verify f v : publish_ready dir n m k tag verify f v ->
  forall faults, let o := run faults 0 (publish_directory (dir ++ [m]) (dir ++ [n]) verify (dir ++ [k]) tag) f in
    Forall (whole dir n m tag f) (states o) /\
    match res o with Ok _ => settled dir n m verify f (now o) | Err _ => whole dir n m tag f (now o) end.
Proof. intros Hr faults. exact (wp_sound true _ _ _ _ f faults 0 ltac:(done) (wp_publish dir n m k tag verify f v Hr true)). Qed.

(** A damaged bundle is replaced by an upload next to it. *)
Definition ex_upload : fs := <[ ["home"; "u"; "b1"] := Dir ]> (<[ ["home"; "u"; "b1"; "BUNDLE.json"] := File (OtherBytes "torn") false ]> ex_sealed).
Definition ex_verify (p : path) : reader json := verify_bundle ex_sha ex_ok ex_ok p JNull.

Lemma publish_whole_witness :
  res (run no_faults 0 (publish_directory ex_bundle ["home"; "u"; "b1"] ex_verify ["home"; "u"; ".lock"] "x") ex_upload) = Ok tt /\
  settled ["home"; "u"] "b1" "bundle" ex_verify ex_upload (now (run no_faults 0 (publish_directory ex_bundle ["home"; "u"; "b1"] ex_verify ["home"; "u"; ".lock"] "x") ex_upload)).
Proof.
  destruct (publish_whole ["home"; "u"] "b1" "bundle" ".lock" "x" ex_verify ex_upload (ex_json (read (ex_verify ex_bundle) ex_upload))) with (faults := no_faults) as [_ H].
  - split; try (vm_compute; reflexivity); [|vm_compute; discriminate]. split; [apply (bool_decide_unpack _); vm_compute; exact I|split; discriminate].
  - assert (res (run no_faults 0 (publish_directory ex_bundle ["home"; "u"; "b1"] ex_verify ["home"; "u"; ".lock"] "x") ex_upload) = Ok tt) as E by (vm_compute; reflexivity).
    split; [exact E|]. change (["home"; "u"] ++ ["bundle"]) with ex_bundle in H. cbn [app] in H. rewrite E in H. exact H.
Defined.

(** A rollback whose very last call, the [fsync] of the directory, fails reports a
    failure although the switch is complete and the journal gone; the retry that
    should complete it starts a new rollback and selects the abandoned generation
    again. *)
Theorem late_failure_swaps_back :
  let tool := rollback ex_sha ex_ok ex_ok ex_root in
  let o := run (fun i => Nat.eqb i 12) 0 tool ex_active in
  res o = Err OSError /\ view ex_root (now o) = (linked ex_g1, linked ex_g2, None) /\
  is_ok (res (run no_faults 0 tool (now o))) = true /\ now (run no_faults 0 tool (now o)) !! CURRENT ex_root = linked ex_g2.
Proof. split_and!; vm_compute; reflexivity. Qed.
