(* ===== verification/LlamaFit.v ===== *)
(** * llama.cpp launch verification ([provisioning/llamacpp_profile.py], and the
    log and telemetry checks of [provisioning/provisioner.py])

    A llama.cpp launch counts as healthy only when its start-up log proves what
    was planned: the patterns run on the text of the log with the regular
    expressions of [PyRegex], and every number of the verified state comes from
    what they matched.  Errors are the texts of the exceptions. *)

From Stdlib Require Import Ascii.
From S2P Require Import Prelude PyRegex NodeModel Scripts.
Local Open Scope Z_scope.

(** ** Matches *)

Definition tail_of_text (s : zip) : string := String.string_of_list_ascii (snd s).
Definition head_of_text (s : zip) : string := String.string_of_list_ascii (rev (fst s)).

(** A named group of a match, and [int] of one that matched digits. *)
Definition grp (x : string) (m : re_match) : string := default "" (group x m).
Definition int_of (s : string) : Z := default 0 (py_int s).
Definition num (x : string) (m : re_match) : Z := int_of (grp x m).

(** [pattern.search(text, pos)] *)
Definition search_at (r : re) (s : zip) : option re_match := search_from r (fst s) (snd s).

(** ** Profile evidence ([llamacpp_profile.py]) *)

Definition PROFILE_PLAN_PATTERN : re := compile false true
  ("^qiip_profile_plan: profile_id=(?P<profile_id>[a-z0-9][a-z0-9._-]{0,63}) " +:+
   "profile_version=(?P<profile_version>[1-9]\d{0,8}) " +:+
   "ubatch=(?P<ubatch>\d+) " +:+
   "spec_type=(?P<spec_type>draft-mtp-assistant|draft-mtp|draft-dflash) " +:+
   "spec_draft_n_max=(?P<spec_draft_n_max>\d+) " +:+
   "draft_cache_type=(?P<draft_cache_type>default|f16|q8_0|q4_0) " +:+
   "draft_gguf=(?P<draft_gguf>\S+) " +:+
   "required_free_mib=(?P<required_free_mib>\d+) " +:+
   "gpu_free_mib=(?P<gpu_free_mib>\d+) " +:+
   "gpu_uuid=(?P<gpu_uuid>GPU-[0-9a-fA-F-]{8,64}) " +:+
   "cuda_graphs=(?P<cuda_graphs>on|off)$").
Definition _FIT_PLAN_LINE : re := compile false true "^qiip_fit_plan: ".
Definition _DRAFT_MARKER : re := compile false false
  ("common_speculative_init_result: (?:" +:+
   "creating MTP draft context against the target model '(?P<mtp>[^']+)'" +:+
   "|loading draft model '(?P<draft>[^']+)'" +:+
   ")").
Definition _DRAFT_READY : re := compile false false "load_model: speculative decoding context initialized".
Definition _SPEC_IMPLEMENTATION : re := compile false false "adding speculative implementation '(?P<type>[^']+)'".
Definition _SPEC_N_MAX : re := compile false false ": - n_max=(?P<n_max>\d+), n_min=".
Definition _OFFLOAD : re := compile false false "offloaded (?P<loaded>\d+)/(?P<total>\d+) layers to GPU".
Definition _CONTEXT : re := compile false false "llama_context:\s+n_ctx\s*=\s*(?P<context>\d+)".
Definition _UBATCH : re := compile false false "llama_context:\s+n_ubatch\s*=\s*(?P<ubatch>\d+)".
Definition _KV_CACHE : re := compile false false
  ("llama_kv_cache[^:]*:\s+size\s*=.*?" +:+ "K \((?P<cache_type_k>[a-z0-9_]+)\):.*?" +:+ "V \((?P<cache_type_v>[a-z0-9_]+)\):").
Definition _KV_SHARED_LAYER : re := compile false false "llama_kv_cache: layer\s+\d+: sharing with layer\s+\d+".
Definition _KV_LAYER_COUNT : re := compile false false "llama_kv_cache[^:]*:\s+size\s*=.*?,\s*(?P<layers>\d+) layers,".
Definition _KV_BUFFER : re := compile false false "llama_kv_cache[^:]*:\s+\S+ KV buffer size\s*=".
Definition _DEFAULT_DRAFT_CACHE_TYPE : string := "f16".
Definition _ASSISTANT_SPEC_TYPE : string := "draft-mtp-assistant".
(** [_SERVER_SPEC_TYPE.get(t, t)] *)
Definition server_spec_type (t : string) : string := if bool_decide (t = _ASSISTANT_SPEC_TYPE) then "draft-mtp" else t.

Record ProfileSections := mkSections { s_target : string; s_draft : string; draft_model_path : string; draft_is_target_file : bool }.

Record ProfileEvidence := mkEvidence {
  pe_profile_id : string;
  pe_profile_version : Z;
  pe_ubatch : Z;
  pe_spec_type : string;
  pe_spec_draft_n_max : Z;
  pe_draft_cache_type : option string;
  pe_draft_gguf : option string;
  pe_required_free_mib : Z;
  pe_gpu_free_mib : Z;
  pe_gpu_uuid : string;
  pe_cuda_graphs_disabled : bool;
  pe_target_gpu_layers : Z;
  pe_target_total_layers : Z;
  pe_target_context : Z;
  pe_target_cache_types : list (string * string);
  pe_draft_gpu_layers : option Z;
  pe_draft_total_layers : option Z;
  pe_draft_cache_type_k : option string;
  pe_draft_cache_type_v : option string;
  pe_draft_shares_target_cache : bool;
}.

Definition latest_launch (log_text : string) : result string string :=
  match List.rev (finditer _FIT_PLAN_LINE log_text) with
  | [] => Err "llama.cpp startup log has no QIIP VRAM plan"
  | m :: _ => Ok (tail_of_text (m_start m))
  end.

Definition split_profile_sections (launch_text : string) : result string ProfileSections :=
  match finditer _DRAFT_MARKER launch_text with
  | [marker] =>
      match search_at _DRAFT_READY (m_end marker) with
      | None => Err "llama.cpp did not report an initialized speculative decoding context"
      | Some ready =>
          let mtp_path := group "mtp" marker in
          Ok (mkSections (head_of_text (m_start marker)) (between (m_end marker) (m_start ready))
                (match mtp_path with Some p => if str_truthy p then p else grp "draft" marker | None => grp "draft" marker end) (is_some mtp_path))
      end
  | _ => Err "llama.cpp startup log must show exactly one speculative draft initialization"
  end.

Definition _single (pattern : re) (text what : string) : result string re_match :=
  match finditer pattern text with [m] => Ok m | _ => Err ("llama.cpp startup log must contain exactly one " +:+ what) end.

Definition _cache_types (section what : string) : result string (list (string * string)) :=
  match List.map (fun m => (grp "cache_type_k" m, grp "cache_type_v" m)) (finditer _KV_CACHE section) with
  | [] => Err ("llama.cpp startup log has no " +:+ what +:+ " KV cache type record")
  | records => Ok records
  end.

Definition _require_shared_draft_cache (draft_section planned_cache_type : string) : result string unit :=
  raise_if (negb (bool_decide (planned_cache_type = "default"))) "an MTP assistant profile plan must not set a draft cache type" ;?
  let layers := foldr Z.add 0 (List.map (num "layers") (finditer _KV_LAYER_COUNT draft_section)) in
  let shared := Z.of_nat (length (finditer _KV_SHARED_LAYER draft_section)) in
  raise_if ((layers <? 1) || negb (shared =? layers)) "llama.cpp MTP assistant does not share every KV layer with the target" ;?
  raise_if (is_some (search _KV_BUFFER draft_section)) "llama.cpp allocated a KV cache for an MTP assistant".

(** The cache type of the draft, [None] when it reads the target's. *)
Definition draft_cache (plan : re_match) (draft_section : string) : result string (option string) :=
  if bool_decide (grp "spec_type" plan = _ASSISTANT_SPEC_TYPE) then
    _require_shared_draft_cache draft_section (grp "draft_cache_type" plan) ;? Ok None
  else
    let? records := _cache_types draft_section "draft" in
    let first := List.hd ("", "") records in
    raise_if (negb (forallb (fun r => bool_decide (r = first)) records) || negb (bool_decide (fst first = snd first))) "llama.cpp draft KV cache types are not uniform" ;?
    let expected := if bool_decide (grp "draft_cache_type" plan = "default") then _DEFAULT_DRAFT_CACHE_TYPE else grp "draft_cache_type" plan in
    raise_if (negb (bool_decide (fst first = expected))) "llama.cpp draft KV cache type differs from the profile plan" ;?
    Ok (Some (fst first)).

(** The layers of a separate draft model, [None] for a head in the target file. *)
Definition draft_layers (plan : re_match) (sections : ProfileSections) : result string (option (Z * Z)) :=
  let offloads := finditer _OFFLOAD (s_draft sections) in
  let draft_gguf := grp "draft_gguf" plan in
  if bool_decide (grp "spec_type" plan = "draft-mtp") then
    raise_if (negb (draft_is_target_file sections) || negb (bool_decide (length offloads = 0%nat))) "llama.cpp MTP draft did not reuse the target model" ;?
    raise_if (negb (bool_decide (draft_gguf = "none"))) "an MTP profile plan must not name a draft" ;?
    Ok None
  else
    match draft_is_target_file sections, offloads with
    | false, [offload] =>
        raise_if (bool_decide (draft_gguf = "none") || negb (endswith (draft_model_path sections) ("/" +:+ draft_gguf))) "llama.cpp loaded a draft model other than the planned artifact" ;?
        raise_if ((num "total" offload <? 1) || negb (num "loaded" offload =? num "total" offload)) "llama.cpp did not fully offload the draft model to GPU" ;?
        Ok (Some (num "loaded" offload, num "total" offload))
    | _, _ => Err "llama.cpp did not load exactly one separate draft model"
    end.

Definition check_speculation (plan : re_match) (launch : string) : result string unit :=
  let? implementation := _single _SPEC_IMPLEMENTATION launch "speculative implementation record" in
  raise_if (negb (bool_decide (grp "type" implementation = server_spec_type (grp "spec_type" plan)))) "llama.cpp speculative implementation differs from the profile plan" ;?
  match search_at _SPEC_N_MAX (m_end implementation) with
  | Some n_max => raise_if (negb (num "n_max" n_max =? num "spec_draft_n_max" plan)) "llama.cpp speculative draft length differs from the profile plan"
  | None => Err "llama.cpp speculative draft length differs from the profile plan"
  end.

Definition optional (none s : string) : option string := if bool_decide (s = none) then None else Some s.

Definition parse_profile_evidence (log_text : string) : result string ProfileEvidence :=
  let? launch := latest_launch log_text in
  let? plan := _single PROFILE_PLAN_PATTERN launch "QIIP profile plan" in
  let? sections := split_profile_sections launch in
  let? target_offload := _single _OFFLOAD (s_target sections) "target GPU offload record" in
  let? target_context := _single _CONTEXT (s_target sections) "target context record" in
  let? target_ubatch := _single _UBATCH (s_target sections) "target micro-batch record" in
  let? target_cache := _cache_types (s_target sections) "target" in
  raise_if (negb (num "ubatch" target_ubatch =? num "ubatch" plan)) "llama.cpp target micro-batch differs from the profile plan" ;?
  let? draft_context := _single _CONTEXT (s_draft sections) "draft context record" in
  raise_if (negb (bool_decide (grp "context" draft_context = grp "context" target_context))) "llama.cpp draft context differs from the target context" ;?
  let? cache := draft_cache plan (s_draft sections) in
  let? layers := draft_layers plan sections in
  check_speculation plan launch ;?
  Ok (mkEvidence (grp "profile_id" plan) (num "profile_version" plan) (num "ubatch" plan) (grp "spec_type" plan) (num "spec_draft_n_max" plan)
        (optional "default" (grp "draft_cache_type" plan)) (optional "none" (grp "draft_gguf" plan)) (num "required_free_mib" plan)
        (num "gpu_free_mib" plan) (grp "gpu_uuid" plan) (bool_decide (grp "cuda_graphs" plan = "off"))
        (num "loaded" target_offload) (num "total" target_offload) (num "context" target_context) target_cache
        (fst <$> layers) (snd <$> layers) cache cache (bool_decide (grp "spec_type" plan = _ASSISTANT_SPEC_TYPE))).

(** ** The fit of a launch ([_parse_llamacpp_runtime_fit]) *)

Definition LLAMACPP_CONTEXT_PATTERN : re := compile false false
  ("initializing, n_slots = (?P<slots>\d+), " +:+ "n_ctx_slot = (?P<context>\d+), " +:+ "kv_unified = '(?P<unified>true|false)'").
Definition LLAMACPP_AGGREGATE_CONTEXT_PATTERN : re := compile false false "llama_context:\s+n_ctx\s*=\s*(?P<context>\d+)".
Definition LLAMACPP_PLAN_PATTERN : re := compile false false
  ("qiip_fit_plan: sizing=(?P<sizing>auto|custom|profile) " +:+ "train_context=(?P<train_context>\d+) " +:+
   "context_per_slot=(?P<context>\d+) " +:+ "slots=(?P<slots>\d+) " +:+ "aggregate_context=(?P<aggregate>\d+) " +:+
   "fit_target_mib=(?P<target>\d+) " +:+ "cache_type_k=(?P<cache_type_k>f16|q8_0|q4_0) " +:+
   "cache_type_v=(?P<cache_type_v>f16|q8_0|q4_0) " +:+ "flash_attn=(?P<flash_attn>auto|on) " +:+
   "estimator_overrun_used=(?P<estimator_overrun_used>true|false)").
Definition LLAMACPP_KV_CACHE_PATTERN : re := compile false false
  ("llama_kv_cache[^:]*:\s+size\s*=.*?" +:+ "K \((?P<cache_type_k>[a-z0-9_]+)\):.*?" +:+ "V \((?P<cache_type_v>[a-z0-9_]+)\):").
Definition LLAMACPP_OFFLOAD_PATTERN : re := compile false false "offloaded (?P<loaded>\d+)/(?P<total>\d+) layers to GPU".
Definition LLAMACPP_CONTEXT_OVERFLOW_PATTERN : re := compile false false
  ("n_ctx_seq \((?P<context>\d+)\) > n_ctx_train \((?P<train>\d+)\) " +:+ "-- possible training context overflow").
Definition LLAMACPP_SLOT_CAP_PATTERN : re := compile false false
  ("the slot context \((?P<context>\d+)\) exceeds the training context " +:+ "of the model \((?P<train>\d+)\) - capping").
Definition LLAMACPP_FIT_FAILURE_PATTERN : re := compile false false "failed to fit params to free device memory".

Record LlamaCppRuntimeFit := mkFit {
  f_sizing : string;
  f_train_context : Z;
  f_context_per_slot : Z;
  f_slot_context_limit : Z;
  f_slots : Z;
  f_aggregate_context : Z;
  f_fit_target_mib : Z;
  f_cache_type_k : string;
  f_cache_type_v : string;
  f_flash_attn : string;
  f_kv_unified : bool;
  f_gpu_layers : Z;
  f_total_layers : Z;
  f_estimator_overrun_used : bool;
  f_profile : option ProfileEvidence;
}.

(** The last match of a pattern; [None] when there is none. *)
Definition last_match (r : re) (text : string) : option re_match := last (finditer r text).
Definition need (o : option re_match) (e : string) : result string re_match := match o with Some m => Ok m | None => Err e end.

(** The profile evidence, the text with the target's records, and the text with
    the slot record. *)
Definition fit_texts (plan : re_match) (log_text : string) : result string (option ProfileEvidence * string * string) :=
  if bool_decide (grp "sizing" plan = sizing_value SIZING_PROFILE) then
    let? profile := parse_profile_evidence log_text in
    let? launch_text := latest_launch log_text in
    let? sections := split_profile_sections launch_text in
    Ok (Some profile, s_target sections, launch_text)
  else Ok (None, log_text, log_text).

Definition fit_of (plan context offload : re_match) (profile : option ProfileEvidence) : LlamaCppRuntimeFit :=
  mkFit (grp "sizing" plan) (num "train_context" plan) (num "context" plan) (num "context" context) (num "slots" plan) (num "aggregate" plan)
    (num "target" plan) (grp "cache_type_k" plan) (grp "cache_type_v" plan) (grp "flash_attn" plan) (bool_decide (grp "unified" context = "true"))
    (num "loaded" offload) (num "total" offload) (bool_decide (grp "estimator_overrun_used" plan = "true")) profile.

Definition check_cache_plan (fit : LlamaCppRuntimeFit) : result string unit :=
  match f_profile fit with
  | None => raise_if (bool_decide (cache_value Q4_0 ∈ [f_cache_type_k fit; f_cache_type_v fit])) "llama.cpp planner sizing does not support a q4_0 KV cache"
  | Some profile =>
      raise_if (existsb (fun record => negb (bool_decide (record = (f_cache_type_k fit, f_cache_type_v fit)))) (pe_target_cache_types profile))
        "llama.cpp runtime KV cache types differ from its VRAM plan"
  end.

Definition check_contexts (fit : LlamaCppRuntimeFit) (runtime_slots runtime_aggregate : Z) : result string unit :=
  raise_if ((f_train_context fit <? 1) || (f_context_per_slot fit <? 1) || (f_train_context fit <? f_context_per_slot fit) ||
            negb (f_slot_context_limit fit =? Z.min (f_train_context fit) (f_aggregate_context fit)) ||
            (f_aggregate_context fit <? f_slot_context_limit fit) || (f_slots fit <? 1) || (f_fit_target_mib fit <? 1))
    "llama.cpp reported an invalid effective context" ;?
  raise_if (negb (runtime_slots =? f_slots fit)) "llama.cpp runtime slot count differs from its VRAM plan" ;?
  let requested_context := f_context_per_slot fit * f_slots fit in
  raise_if (negb ((requested_context <=? f_aggregate_context fit) && (f_aggregate_context fit <? requested_context + 256)))
    "llama.cpp VRAM plan has invalid aggregate context" ;?
  raise_if (negb (runtime_aggregate =? f_aggregate_context fit)) "llama.cpp runtime aggregate context differs from its VRAM plan".

Definition check_caches (fit : LlamaCppRuntimeFit) (cache_record : re_match) : result string unit :=
  raise_if (negb (bool_decide (f_cache_type_k fit = f_cache_type_v fit))) "llama.cpp managed startup requires matching K/V types" ;?
  let expected := if bool_decide (f_cache_type_k fit = "f16") && is_none (f_profile fit) then "auto" else "on" in
  raise_if (negb (bool_decide (f_flash_attn fit = expected))) "llama.cpp managed cache type has an invalid Flash Attention policy" ;?
  raise_if (negb (bool_decide (grp "cache_type_k" cache_record = f_cache_type_k fit /\ grp "cache_type_v" cache_record = f_cache_type_v fit)))
    "llama.cpp runtime KV cache types differ from its VRAM plan".

(** The warnings that unified slots share one context. *)
Definition check_sharing (fit : LlamaCppRuntimeFit) (log_text : string) : result string unit :=
  let overflows := last_match LLAMACPP_CONTEXT_OVERFLOW_PATTERN log_text in
  let caps := last_match LLAMACPP_SLOT_CAP_PATTERN log_text in
  if f_slot_context_limit fit <? f_aggregate_context fit then
    match overflows, caps with
    | Some overflow, Some cap =>
        let differs m := negb (bool_decide (grp "context" m = py_str (Z.to_N (f_aggregate_context fit)) /\ grp "train" m = py_str (Z.to_N (f_slot_context_limit fit)))) in
        raise_if (differs overflow || differs cap) "llama.cpp unified-KV context-sharing warnings differ from runtime"
    | _, _ => Err "llama.cpp startup log is missing expected unified-KV context-sharing warnings"
    end
  else raise_if (is_some overflows || is_some caps) "llama.cpp reported unexpected unified-KV context-sharing warnings".

Definition _parse_llamacpp_runtime_fit (log_text : string) : result string LlamaCppRuntimeFit :=
  raise_if (found LLAMACPP_FIT_FAILURE_PATTERN log_text) "llama.cpp reported a runtime fitting failure" ;?
  let? plan := need (last_match LLAMACPP_PLAN_PATTERN log_text) "llama.cpp startup log has no QIIP VRAM plan" in
  let? (profile, text, slot_text) := fit_texts plan log_text in
  let? context := need (last_match LLAMACPP_CONTEXT_PATTERN slot_text) "llama.cpp startup log has no effective context record" in
  let? aggregate := need (last_match LLAMACPP_AGGREGATE_CONTEXT_PATTERN text) "llama.cpp startup log has no aggregate context record" in
  let? offload := need (last_match LLAMACPP_OFFLOAD_PATTERN text) "llama.cpp startup log has no GPU offload record" in
  let? cache_record := need (last_match LLAMACPP_KV_CACHE_PATTERN text) "llama.cpp startup log has no KV cache type record" in
  let fit := fit_of plan context offload profile in
  check_cache_plan fit ;?
  check_contexts fit (num "slots" context) (num "context" aggregate) ;?
  check_caches fit cache_record ;?
  check_sharing fit text ;?
  raise_if (negb (f_kv_unified fit)) "llama.cpp managed startup requires unified KV cache" ;?
  raise_if ((f_total_layers fit <? 1) || negb (f_gpu_layers fit =? f_total_layers fit)) "llama.cpp did not fully offload the model to GPU" ;?
  Ok fit.

(** ** Memory telemetry *)

Definition gpu_row (line : string) : option GPUState :=
  match py_split ","%char line "" with
  | [index; total; used; free] =>
      match py_int index, py_int total, py_int used, py_int free with
      | Some index, Some total, Some used, Some free =>
          let g := {| gs_index := index; gs_total_mib := total; gs_used_mib := used; gs_free_mib := free |} in
          if GPUState_fields g then Some g else None
      | _, _, _, _ => None
      end
  | _ => None
  end.

Fixpoint gpu_rows (lines : list string) : option (list GPUState) :=
  match lines with
  | [] => Some []
  | line :: lines =>
      if str_truthy (py_strip line) then match gpu_row line, gpu_rows lines with Some g, Some l => Some (g :: l) | _, _ => None end
      else gpu_rows lines
  end.

(** ** The verified runtime *)

Definition cache_of (s : string) : option LlamaCppCacheType := List.find (fun c => bool_decide (cache_value c = s)) [F16; Q8_0; Q4_0].
Definition flash_value (a : LlamaCppFlashAttention) : string := match a with FLASH_AUTO => "auto" | FLASH_ON => "on" end.
Definition flash_of (s : string) : option LlamaCppFlashAttention := List.find (fun a => bool_decide (flash_value a = s)) [FLASH_AUTO; FLASH_ON].
Definition speculative_of (s : string) : option LlamaCppSpeculativeType :=
  List.find (fun t => bool_decide (speculative_value t = s)) [DRAFT_MTP; DRAFT_DFLASH; DRAFT_MTP_ASSISTANT].

Definition enum {A} (o : option A) : result string A := match o with Some a => Ok a | None => Err "ValueError" end.
Definition enum_opt {A} (f : string -> option A) (o : option string) : result string (option A) :=
  match o with None => Ok None | Some s => let? a := enum (f s) in Ok (Some a) end.

Definition differs_from_profile (evidence : ProfileEvidence) (profile : LlamaCppProfileRuntime) (draft_artifact : option Artifact) : bool :=
  negb (bool_decide (pe_profile_id evidence = pr_profile_id profile)) ||
  negb (pe_profile_version evidence =? pr_profile_version profile) ||
  negb (pe_ubatch evidence =? pr_ubatch profile) ||
  negb (bool_decide (pe_spec_type evidence = speculative_value (pr_speculative_type profile))) ||
  negb (pe_spec_draft_n_max evidence =? pr_speculative_draft_n_max profile) ||
  negb (bool_decide (pe_draft_cache_type evidence = cache_value <$> pr_draft_cache_type profile)) ||
  negb (bool_decide (pe_draft_gguf evidence = node_relative_entrypoint <$> draft_artifact)) ||
  negb (pe_required_free_mib evidence =? pr_required_free_mib profile) ||
  negb (Bool.eqb (pe_cuda_graphs_disabled evidence) (pr_disable_cuda_graphs profile)).

Definition _verify_profile_evidence (fit : LlamaCppRuntimeFit) (request : LlamaCppRuntimeRequest) (draft_artifact : option Artifact)
  (gpus : list NodeGPU) (rows : list GPUState) : result string (option LlamaCppSpeculativeEffective) :=
  match rq_profile request, f_profile fit with
  | None, None => Ok None
  | None, Some _ => Err "llama.cpp launched a catalog profile that was not requested"
  | Some _, None => Err "llama.cpp startup log has no catalog profile evidence"
  | Some profile, Some evidence =>
      raise_if (differs_from_profile evidence profile draft_artifact) "llama.cpp runtime differs from its requested catalog profile" ;?
      raise_if (negb (Bool.eqb (is_none (pr_draft_artifact_id profile)) (is_none draft_artifact))) "the verified draft artifact differs from the catalog profile" ;?
      raise_if (pe_gpu_free_mib evidence <? pr_required_free_mib profile + f_fit_target_mib fit) "llama.cpp launched with less free VRAM than the profile requires" ;?
      match rows, gpus with
      | [row], [gpu] =>
          raise_if (negb (bool_decide (ng_name gpu = pr_gpu_name profile)) || (ng_total_mib gpu <? pr_gpu_min_total_mib profile) ||
                    (gs_total_mib row <? pr_gpu_min_total_mib profile)) "llama.cpp launched on a GPU other than the profile's product" ;?
          raise_if (negb (bool_decide (pe_gpu_uuid evidence = ng_uuid gpu))) "llama.cpp launched on a GPU other than the inventoried one" ;?
          let shares_cache := bool_decide (pr_speculative_type profile = DRAFT_MTP_ASSISTANT) in
          raise_if (negb (Bool.eqb (pe_draft_shares_target_cache evidence) shares_cache)) "llama.cpp draft cache sharing differs from the catalog profile" ;?
          let? t := enum (speculative_of (pe_spec_type evidence)) in
          let? k := enum_opt cache_of (pe_draft_cache_type_k evidence) in
          let? v := enum_opt cache_of (pe_draft_cache_type_v evidence) in
          Ok (Some {| se_type := t; se_draft_n_max := pe_spec_draft_n_max evidence; se_draft_gpu_layers := pe_draft_gpu_layers evidence;
                      se_draft_total_layers := pe_draft_total_layers evidence; se_draft_cache_type_k := k; se_draft_cache_type_v := v;
                      se_draft_shares_target_cache := shares_cache |})
      | _, _ => Err "catalog profiles support exactly one GPU per host"
      end
  end.

Definition row_le (a b : GPUState) : bool := gs_index a <=? gs_index b.

(** The checks of the request against the fit. *)
Definition check_request (fit : LlamaCppRuntimeFit) (request : LlamaCppRuntimeRequest) : result string unit :=
  match rq_sizing request with
  | SIZING_AUTO => Ok tt
  | _ =>
      match rq_cache_type request with
      | None => Err "AssertionError"
      | Some c =>
          raise_if (negb (bool_decide (Some (f_context_per_slot fit) = rq_context_per_slot request)) || negb (bool_decide (Some (f_slots fit) = rq_slots request)) ||
                    negb (bool_decide (f_cache_type_k fit = cache_value c)) || negb (bool_decide (f_cache_type_v fit = cache_value c)))
            "llama.cpp runtime differs from its requested sizing"
      end
  end.

Definition effective (fit : LlamaCppRuntimeFit) (speculative : option LlamaCppSpeculativeEffective) : result string LlamaCppRuntimeEffective :=
  let? k := enum (cache_of (f_cache_type_k fit)) in
  let? v := enum (cache_of (f_cache_type_v fit)) in
  let? a := enum (flash_of (f_flash_attn fit)) in
  Ok {| le_train_context := f_train_context fit; le_context_per_slot := f_context_per_slot fit; le_slot_context_limit := f_slot_context_limit fit;
        le_slots := f_slots fit; le_aggregate_context := f_aggregate_context fit; le_cache_type_k := k; le_cache_type_v := v; le_flash_attn := a;
        le_kv_unified := f_kv_unified fit; le_gpu_layers := f_gpu_layers fit; le_total_layers := f_total_layers fit;
        le_estimator_overrun_used := f_estimator_overrun_used fit; le_ubatch := pe_ubatch <$> f_profile fit; le_speculative := speculative |}.

(** What ends a remote command or a statement of the gateway: an [Exception]
    with its text, or a cancellation, which only [BaseException] covers. *)
Inductive Raise := Exception (text : string) | CancelledError.

Definition raised {X} (r : result string X) : result Raise X := match r with Ok x => Ok x | Err t => Err (Exception t) end.

(** The commands sent to the host. *)
Inductive Command := ReadLog | ReadMemory | StopServer.

Section verify.
(** What the commands return or raise, whether the two log lines of the gateway
    can be recorded, and the clock. *)
Context (read_log read_memory stop : result Raise string) (log_fitted log_warning : result string unit) (now : Z).

(** The checks on the evidence of a launch and on the memory table. *)
Definition verified_state (fit : LlamaCppRuntimeFit) (memory_text : string) (request : LlamaCppRuntimeRequest) (draft_artifact : option Artifact) (gpus : list NodeGPU)
  : result string LlamaCppRuntimeState :=
  let? rows := match gpu_rows (splitlines memory_text "") with Some l => Ok l | None => Err "could not parse post-load NVIDIA memory telemetry" end in
  raise_if (match rows with [] => true | _ => false end) "post-load NVIDIA memory telemetry returned no GPUs" ;?
  raise_if (negb (bool_decide (NoDup (List.map gs_index rows)))) "post-load NVIDIA memory telemetry returned duplicate GPU indices" ;?
  raise_if (negb (bool_decide (f_sizing fit = sizing_value (rq_sizing request)))) "llama.cpp runtime sizing mode differs from its requested value" ;?
  raise_if (negb (f_fit_target_mib fit =? rq_fit_target_mib request)) "llama.cpp runtime fit target differs from its requested value" ;?
  let? speculative := _verify_profile_evidence fit request draft_artifact gpus rows in
  check_request fit request ;?
  raise_if (f_estimator_overrun_used fit && negb (rq_allow_estimator_overrun request)) "llama.cpp used an estimator overrun without request permission" ;?
  raise_if (existsb (fun row => gs_free_mib row <? f_fit_target_mib fit) rows) "llama.cpp post-load free VRAM is below the requested fit target" ;?
  let? e := effective fit speculative in
  LlamaCppRuntimeState_validate {| ls_requested := request; ls_effective := e; ls_gpus := sort_by row_le rows; ls_observed_at := Aware now |}.

(** The [try] block: the commands it sent, and how it ends. *)
Definition verify_body (request : LlamaCppRuntimeRequest) (draft_artifact : option Artifact) (gpus : list NodeGPU) : list Command * result Raise LlamaCppRuntimeState :=
  match (let? log_text := read_log in raised (_parse_llamacpp_runtime_fit log_text)) with
  | Err e => ([ReadLog], Err e)
  | Ok fit =>
      ([ReadLog; ReadMemory],
       let? memory_text := read_memory in
       let? st := raised (verified_state fit memory_text request draft_artifact gpus) in
       let? _ := raised log_fitted in
       Ok st)
  end.

(** The stop script, best effort: its failure is only logged. *)
Definition _stop_failed_llamacpp_start : result Raise unit :=
  match stop with
  | Ok _ => Ok tt
  | Err (Exception _) => raised log_warning
  | Err CancelledError => Err CancelledError
  end.

(** [except Exception]: the stop script is sent, then the error is raised again. *)
Definition _verify_llamacpp_runtime (request : LlamaCppRuntimeRequest) (draft_artifact : option Artifact) (gpus : list NodeGPU) : list Command * result Raise LlamaCppRuntimeState :=
  match verify_body request draft_artifact gpus with
  | (sent, Err (Exception t)) => (sent ++ [StopServer], let? _ := _stop_failed_llamacpp_start in Err (Exception t))
  | (sent, r) => (sent, r)
  end.
End verify.

(** * Facts *)

(** ** The newest launch *)

Definition PLAN_LINE : list ascii := String.list_ascii_of_string "qiip_fit_plan: ".

Definition prefixb (w l : list ascii) : bool := bool_decide (w `prefix_of` l).

(** A pattern that is an anchor and a literal text. *)
Definition anchored (p : zip -> bool) (w : list ascii) : re := seq_of (rev (At p :: List.map (fun a => Chr (fold_case false (Ascii.eqb a))) w)).

Lemma fit_plan_anchored : _FIT_PLAN_LINE = anchored (bol true) PLAN_LINE.
Proof. reflexivity. Qed.

Lemma fold_plain a x : fold_case false (Ascii.eqb a) x = Ascii.eqb a x.
Proof. unfold fold_case. by rewrite orb_false_r. Qed.

Lemma prefixb_snoc w a l : prefixb (w ++ [a]) l = prefixb w l && match drop (length w) l with x :: _ => Ascii.eqb a x | [] => false end.
Proof.
  revert l. induction w as [|c w IH]; intros l.
  - destruct l as [|x l]; cbn; [done|]. unfold prefixb. rewrite (bool_decide_eq_true_2 ([] `prefix_of` x :: l)) by apply prefix_nil. cbn.
    apply bool_iff with (a = x); [|apply Ascii.eqb_eq]. rewrite bool_decide_eq_true. split; [apply prefix_cons_inv_1|intros ->; by exists l].
  - destruct l as [|x l]; [unfold prefixb; rewrite bool_decide_eq_false_2; [done|by intros ?%prefix_nil_not]|].
    cbn [app length drop]. assert (forall u, prefixb (c :: u) (x :: l) = bool_decide (c = x) && prefixb u l) as Hcons.
    { intros u. unfold prefixb. apply bool_iff with (c :: u `prefix_of` x :: l); [apply bool_decide_eq_true|]. rewrite andb_true_iff, !bool_decide_eq_true.
      split; [intros [-> H]; by apply prefix_cons|]. intros H. split; [by apply prefix_cons_inv_1 in H|by apply prefix_cons_inv_2 in H]. }
    by rewrite !Hcons, IH, andb_assoc.
Qed.

Lemma run_anchored {R} p w s c (k : zip -> caps -> option R) :
  PyRegex.run (anchored p w) s c k = if p s && prefixb w (snd s) then k (rev w ++ fst s, drop (length w) (snd s)) c else None.
Proof.
  revert c k. induction w as [|a w IH] using rev_ind; intros c k.
  - unfold anchored. cbn. unfold prefixb. rewrite bool_decide_eq_true_2 by apply prefix_nil. rewrite andb_true_r. by destruct s.
  - assert (anchored p (w ++ [a]) = Cat (anchored p w) (Chr (fold_case false (Ascii.eqb a)))) as ->.
    { unfold anchored. rewrite List.map_app. cbn [List.map]. rewrite app_comm_cons, rev_app_distr. cbn [rev app]. by destruct (rev (List.map _ w) ++ [At p]) eqn:E; [destruct (rev (List.map _ w))|]. }
    cbn [PyRegex.run]. rewrite IH. cbn [fst snd]. rewrite prefixb_snoc, andb_assoc. destruct (p s && prefixb w (snd s)); [|done]. cbn [andb].
    rewrite length_app, Nat.add_1_r. destruct (drop (length w) (snd s)) as [|x l] eqn:Hd; [done|]. rewrite fold_plain. destruct (Ascii.eqb a x) eqn:Ha; [|done].
    apply Ascii.eqb_eq in Ha as ->. f_equal. f_equal; [by rewrite rev_app_distr|]. rewrite <- Nat.add_1_r, <- drop_drop, Hd. done.
Qed.

Definition starts_plan (s : zip) : bool := bol true s && prefixb PLAN_LINE (snd s).

Lemma match_plan s : match_at _FIT_PLAN_LINE s = if starts_plan s then Some (mkMatch s (rev PLAN_LINE ++ fst s, drop (length PLAN_LINE) (snd s)) []) else None.
Proof. unfold match_at. rewrite fit_plan_anchored. apply run_anchored. Qed.

(** The text from the last plan line on. *)
Fixpoint last_plan (b l : list ascii) : option (list ascii) :=
  match l with
  | [] => None
  | a :: l' => match last_plan (a :: b) l' with Some x => Some x | None => if starts_plan (b, l) then Some l else None end
  end.

Lemma search_plan b l :
  match search_from _FIT_PLAN_LINE b l with
  | None => last_plan b l = None
  | Some m => starts_plan (m_start m) = true /\ m_end m = (rev PLAN_LINE ++ fst (m_start m), drop (length PLAN_LINE) (snd (m_start m))) /\
              last_plan b l = last_plan (fst (m_start m)) (snd (m_start m)) /\ (length (snd (m_start m)) <= length l)%nat
  end.
Proof.
  revert b. induction l as [|a l IH]; intros b; cbn [search_from]; rewrite match_plan.
  - assert (starts_plan (b, []) = false) as ->; [|done]. unfold starts_plan, prefixb. rewrite bool_decide_eq_false_2; [by rewrite andb_false_r|]. cbn. by intros ?%prefix_nil_not.
  - destruct (starts_plan (b, a :: l)) eqn:Hs; [by cbn|]. specialize (IH (a :: b)). destruct (search_from _FIT_PLAN_LINE (a :: b) l) as [m|]; cbn [last_plan]; rewrite Hs.
    + destruct IH as (H1 & H2 & H3 & H4). split_and!; [done|done| |cbn; lia]. rewrite H3. by destruct (last_plan (fst (m_start m)) (snd (m_start m))).
    + by rewrite IH.
Qed.

(** No plan line starts inside a line. *)
Lemma last_plan_inside b w r : head b <> None -> head b <> Some newline -> Forall (fun a => a <> newline) w ->
  last_plan b (w ++ r) = match last_plan (rev w ++ b) r with Some x => Some x | None => None end.
Proof.
  revert b. induction w as [|a w IH]; intros b Hb Hn Hw; cbn [rev app]; [by destruct (last_plan b r)|]. apply Forall_cons in Hw as [Ha Hw].
  cbn [last_plan]. rewrite IH; [|done|cbn; congruence|done]. rewrite <- app_assoc. cbn [app].
  assert (starts_plan (b, a :: w ++ r) = false) as ->; [|by destruct (last_plan _ r)]. unfold starts_plan, bol. cbn. destruct b as [|x b]; [done|]. cbn in Hn.
  destruct (Ascii.eqb x newline) eqn:E; [|done]. apply Ascii.eqb_eq in E. congruence.
Qed.

Lemma last_plan_step s : starts_plan s = true ->
  last_plan (fst s) (snd s) = match last_plan (rev PLAN_LINE ++ fst s) (drop (length PLAN_LINE) (snd s)) with Some x => Some x | None => Some (snd s) end.
Proof.
  intros Hs. pose proof Hs as [_ [r Hr]%bool_decide_eq_true]%andb_prop. destruct s as [b l]. cbn [fst snd] in *. subst l. rewrite drop_app_length.
  change PLAN_LINE with ("q"%char :: List.tail PLAN_LINE) at 1. cbn [app last_plan]. rewrite last_plan_inside; [|done|done|by repeat constructor].
  change (rev (List.tail PLAN_LINE) ++ "q"%char :: b) with (rev PLAN_LINE ++ b).
  change ("q"%char :: List.tail PLAN_LINE ++ r) with (PLAN_LINE ++ r). rewrite Hs. by destruct (last_plan (rev PLAN_LINE ++ b) r).
Qed.

Lemma iter_plan fuel s : (length (snd s) < fuel)%nat -> (fun m => snd (m_start m)) <$> last (iter_from fuel _FIT_PLAN_LINE s) = last_plan (fst s) (snd s).
Proof.
  revert s. induction fuel as [|fuel IH]; intros s Hf; [lia|]. cbn [iter_from]. pose proof (search_plan (fst s) (snd s)) as H.
  destruct (search_from _FIT_PLAN_LINE (fst s) (snd s)) as [m|]; [|by rewrite H]. destruct H as (H1 & H2 & H3 & H4).
  assert (length (snd (m_end m)) < length (snd (m_start m)))%nat as Hlt.
  { rewrite H2. cbn [snd]. rewrite length_drop. apply andb_prop in H1 as [_ [r Hr]%bool_decide_eq_true]. rewrite Hr, length_app. change (length PLAN_LINE) with 15%nat. lia. }
  apply Nat.ltb_lt in Hlt as Hb. rewrite Hb, H3, (last_plan_step _ H1). specialize (IH (m_end m) ltac:(lia)). rewrite H2 in IH at 2 3. cbn [fst snd] in IH. rewrite <- IH.
  rewrite last_cons. by destruct (last (iter_from fuel _FIT_PLAN_LINE (m_end m))).
Qed.

Lemma latest_launch_spec t :
  latest_launch t = match last_plan [] (String.list_ascii_of_string t) with
                    | Some l => Ok (String.string_of_list_ascii l)
                    | None => Err "llama.cpp startup log has no QIIP VRAM plan"
                    end.
Proof.
  unfold latest_launch, finditer. change (last_plan [] (String.list_ascii_of_string t)) with (last_plan (fst (text_of t)) (snd (text_of t))).
  rewrite <- (iter_plan (S (String.length t)) (text_of t)).
  - destruct (iter_from (S (String.length t)) _FIT_PLAN_LINE (text_of t)) as [|m l _] using rev_ind; [done|]. rewrite rev_app_distr, last_snoc. done.
  - cbn. clear. induction t as [|a t IH]; cbn; lia.
Qed.

(** Only the character before matters. *)
Lemma last_plan_context b b' l : (forall r, bol true (b, r) = bol true (b', r)) -> last_plan b l = last_plan b' l.
Proof.
  revert b b'. induction l as [|a l IH]; intros b b' H; [done|]. cbn [last_plan]. rewrite (IH (a :: b) (a :: b')) by done. unfold starts_plan. by rewrite H.
Qed.

Lemma last_plan_app b o n x : last_plan (rev o ++ b) n = Some x -> last_plan b (o ++ n) = Some x.
Proof.
  revert b. induction o as [|a o IH]; intros b H; [done|]. cbn [app last_plan]. rewrite (IH (a :: b)); [done|]. cbn [rev] in H. by rewrite <- app_assoc in H.
Qed.

(** C25: Evidence comes from the newest launch only.  Whatever an earlier launch
    wrote, as long as its last line is complete: when the newer text has a plan
    line of its own, the evidence read from the whole log is the evidence read
    from the newer text. *)
Theorem newest_launch_only old new : old = "" \/ (exists o, old = o +:+ String newline "") -> is_ok (latest_launch new) = true ->
  parse_profile_evidence (old +:+ new) = parse_profile_evidence new.
Proof.
  intros Hold Hnew. assert (latest_launch (old +:+ new) = latest_launch new) as E; [|unfold parse_profile_evidence; by rewrite E].
  rewrite !latest_launch_spec in *. rewrite list_ascii_app. destruct (last_plan [] (String.list_ascii_of_string new)) as [x|] eqn:Hx; [|done].
  rewrite (last_plan_app [] (String.list_ascii_of_string old) _ x); [done|]. rewrite <- Hx, app_nil_r. apply last_plan_context. intros r.
  destruct Hold as [->|[o ->]]; [done|]. by rewrite list_ascii_app, rev_app_distr.
Qed.

(** ** What a verified runtime guarantees *)

Ltac ok_steps H :=
  repeat (first [apply raise_bind in H as [? H] | apply rbind_Ok in H as (? & ? & H)]).

(** The sizes of an accepted fit. *)
Definition sized (fit : LlamaCppRuntimeFit) : Prop :=
  1 <= f_total_layers fit /\ f_gpu_layers fit = f_total_layers fit /\ f_kv_unified fit = true /\
  1 <= f_context_per_slot fit <= f_train_context fit /\ f_slot_context_limit fit = Z.min (f_train_context fit) (f_aggregate_context fit) /\
  1 <= f_slots fit /\ f_context_per_slot fit * f_slots fit <= f_aggregate_context fit < f_context_per_slot fit * f_slots fit + 256 /\
  f_cache_type_k fit = f_cache_type_v fit.

Lemma check_contexts_Ok fit s a u : check_contexts fit s a = Ok u ->
  1 <= f_context_per_slot fit <= f_train_context fit /\ f_slot_context_limit fit = Z.min (f_train_context fit) (f_aggregate_context fit) /\
  1 <= f_slots fit /\ f_context_per_slot fit * f_slots fit <= f_aggregate_context fit < f_context_per_slot fit * f_slots fit + 256.
Proof. unfold check_contexts. intros H. ok_steps H. apply raise_if_Ok in H. bool_to_prop. lia. Qed.

Lemma fit_sized log fit : _parse_llamacpp_runtime_fit log = Ok fit -> sized fit.
Proof.
  unfold _parse_llamacpp_runtime_fit. intros H. ok_steps H. repeat case_match; try done. ok_steps H. injection H as <-.
  match goal with Hc : check_contexts _ _ _ = Ok _ |- _ => apply check_contexts_Ok in Hc as (? & ? & ? & ?) end.
  match goal with Hc : check_caches _ _ = Ok _ |- _ => unfold check_caches in Hc; apply raise_bind in Hc as [Hkv _] end.
  bool_to_prop. unfold sized. split_and!; try done; lia.
Qed.

Lemma cache_of_value s c : cache_of s = Some c -> cache_value c = s.
Proof. unfold cache_of. intros [_ H]%find_some. by apply bool_decide_eq_true in H. Qed.
Lemma cache_value_inj c d : cache_value c = cache_value d -> c = d.
Proof. by destruct c, d. Qed.
Lemma speculative_of_value t : speculative_of (speculative_value t) = Some t.
Proof. by destruct t. Qed.

(** A profile launch on the GPU and with the draft that the profile fixes. *)
Definition on_profile (p : LlamaCppProfileRuntime) (gpus : list NodeGPU) (ubatch : option Z) (speculative : option LlamaCppSpeculativeEffective) : Prop :=
  exists gpu s, gpus = [gpu] /\ speculative = Some s /\ ng_name gpu = pr_gpu_name p /\ pr_gpu_min_total_mib p <= ng_total_mib gpu /\
    ubatch = Some (pr_ubatch p) /\ se_type s = pr_speculative_type p /\ se_draft_n_max s = pr_speculative_draft_n_max p.

Lemma profile_verified fit request draft gpus rows sp : _verify_profile_evidence fit request draft gpus rows = Ok sp ->
  match rq_profile request with None => sp = None | Some p => on_profile p gpus (pe_ubatch <$> f_profile fit) sp end.
Proof.
  unfold _verify_profile_evidence. destruct (rq_profile request) as [p|], (f_profile fit) as [e|]; intros H; try done; [|by injection H].
  apply raise_bind in H as [Hd H]. apply raise_bind in H as [_ H]. apply raise_bind in H as [_ H]. destruct rows as [|row []], gpus as [|gpu []]; try done.
  apply raise_bind in H as [Hg H]. apply raise_bind in H as [_ H]. apply raise_bind in H as [_ H]. apply rbind_Ok in H as (t & Ht & H).
  apply rbind_Ok in H as (k & _ & H). apply rbind_Ok in H as (v & _ & H). injection H as <-. unfold differs_from_profile in Hd. bool_to_prop.
  repeat match goal with Hx : bool_decide _ = true |- _ => apply bool_decide_eq_true in Hx | Hx : (_ =? _) = true |- _ => apply Z.eqb_eq in Hx end.
  exists gpu. eexists. split_and!; try done; cbn; try congruence.
  match goal with Hs : pe_spec_type e = _ |- _ => rewrite Hs, speculative_of_value in Ht end. by injection Ht.
Qed.

Lemma request_verified fit request u : check_request fit request = Ok u -> rq_sizing request <> SIZING_AUTO ->
  rq_context_per_slot request = Some (f_context_per_slot fit) /\ rq_slots request = Some (f_slots fit) /\ cache_value <$> rq_cache_type request = Some (f_cache_type_k fit).
Proof.
  unfold check_request. intros H Hs. destruct (rq_sizing request); [done|..]; (destruct (rq_cache_type request) as [c|]; [|done]); apply raise_if_Ok in H; bool_to_prop;
    repeat match goal with Hx : bool_decide _ = true |- _ => apply bool_decide_eq_true in Hx end; split_and!; cbn; congruence.
Qed.

(** A state that proves its plan: every layer on the GPU, one unified cache with
    equal types, contexts that fit, what the request fixes, an estimator
    overrun only with permission, distinct GPUs in order with the requested
    memory free, and what a catalog profile names. *)
Definition proves_plan (request : LlamaCppRuntimeRequest) (gpus : list NodeGPU) (st : LlamaCppRuntimeState) : Prop :=
  let e := ls_effective st in
  ls_requested st = request /\
  1 <= le_total_layers e /\ le_gpu_layers e = le_total_layers e /\ le_kv_unified e = true /\ le_cache_type_k e = le_cache_type_v e /\
  1 <= le_context_per_slot e <= le_train_context e /\ le_slot_context_limit e = Z.min (le_train_context e) (le_aggregate_context e) /\
  1 <= le_slots e /\ le_context_per_slot e * le_slots e <= le_aggregate_context e < le_context_per_slot e * le_slots e + 256 /\
  (rq_sizing request <> SIZING_AUTO ->
     rq_context_per_slot request = Some (le_context_per_slot e) /\ rq_slots request = Some (le_slots e) /\ rq_cache_type request = Some (le_cache_type_k e)) /\
  (le_estimator_overrun_used e = true -> rq_allow_estimator_overrun request = true) /\
  (ls_gpus st <> [] /\ NoDup (List.map gs_index (ls_gpus st)) /\ StronglySorted (fun g g' => row_le g g' = true) (ls_gpus st) /\
   Forall (fun g => rq_fit_target_mib request <= gs_free_mib g) (ls_gpus st)) /\
  match rq_profile request with None => le_speculative e = None | Some p => on_profile p gpus (le_ubatch e) (le_speculative e) end.

(** What the checks on the evidence establish. *)
Lemma state_verified log fit memory now request draft gpus st : _parse_llamacpp_runtime_fit log = Ok fit ->
  verified_state now fit memory request draft gpus = Ok st ->
  proves_plan request gpus st.
Proof.
  intros Hfit H. unfold proves_plan, verified_state in *.
  apply rbind_Ok in H as (rows & _ & H). apply raise_bind in H as [Hrows H]. apply raise_bind in H as [Hdup H]. apply raise_bind in H as [_ H]. apply raise_bind in H as [Htarget H].
  apply rbind_Ok in H as (sp & Hsp & H). apply rbind_Ok in H as (u & Hreq & H). apply raise_bind in H as [Hover H]. apply raise_bind in H as [Hfree H].
  apply rbind_Ok in H as (e & He & H). assert (st = {| ls_requested := request; ls_effective := e; ls_gpus := sort_by row_le rows; ls_observed_at := Aware now |}) as ->.
  { unfold LlamaCppRuntimeState_validate in H. apply rbind_Ok in H as (? & _ & H). apply raise_bind in H as [_ H]. by inv_ok. }
  unfold effective in He. apply rbind_Ok in He as (k & Hk & He). apply rbind_Ok in He as (v & Hv & He). apply rbind_Ok in He as (a & _ & He). injection He as <-. cbn.
  destruct (fit_sized log fit Hfit) as (F1 & F2 & F3 & F4 & F5 & F6 & F7 & F8). apply negb_false_iff, Z.eqb_eq in Htarget.
  unfold enum in Hk, Hv. destruct (cache_of (f_cache_type_k fit)) as [k'|] eqn:Hk'; [|done]. destruct (cache_of (f_cache_type_v fit)) as [v'|] eqn:Hv'; [|done]. injection Hk as <-. injection Hv as <-.
  split_and!; try done; try lia.
  - congruence.
  - intros Hs. destruct (request_verified fit request u Hreq Hs) as (R1 & R2 & R3). split_and!; [done|done|]. destruct (rq_cache_type request) as [c|]; [|done]. f_equal.
    apply cache_value_inj. rewrite (cache_of_value _ _ Hk'). by injection R3.
  - intros Ho. rewrite Ho in Hover. by apply negb_false_iff.
  - intros E. pose proof (sort_by_perm row_le rows) as Hp. rewrite E in Hp. apply Permutation_nil in Hp. by rewrite Hp in Hrows.
  - rewrite (sort_by_perm row_le rows). by apply negb_false_iff, bool_decide_eq_true in Hdup.
  - apply sort_by_sorted; [intros x y|intros x y z]; unfold row_le; rewrite ?Z.leb_le; lia.
  - rewrite (sort_by_perm row_le rows). apply Forall_forall. intros g Hg. apply Z.nlt_ge. intros Hlt. rewrite <- not_true_iff_false in Hfree. apply Hfree.
    apply existsb_exists. exists g. split; [by apply list_elem_of_In|]. apply Z.ltb_lt. lia.
  - exact (profile_verified fit request draft gpus rows sp Hsp).
Qed.

(** How the [try] block ends. *)
Lemma body_ends read_log read_memory log_fitted now request draft gpus :
  match verify_body read_log read_memory log_fitted now request draft gpus with
  | (sent, Ok st) => sent = [ReadLog; ReadMemory] /\ exists log memory fit, _parse_llamacpp_runtime_fit log = Ok fit /\ verified_state now fit memory request draft gpus = Ok st
  | (sent, Err (Exception _)) => StopServer ∉ sent /\ True
  | (sent, Err CancelledError) => StopServer ∉ sent /\ (read_log = Err CancelledError \/ read_memory = Err CancelledError)
  end.
Proof.
  assert (StopServer ∉ [ReadLog] /\ StopServer ∉ [ReadLog; ReadMemory]) as [H1 H2] by (rewrite !list_elem_of_In; cbn; naive_solver).
  unfold verify_body. destruct read_log as [log|[t|]]; cbn; [|by split|by eauto].
  destruct (_parse_llamacpp_runtime_fit log) as [fit|] eqn:Hfit; cbn; [|by split].
  destruct read_memory as [memory|[t|]]; cbn; [|by split|by eauto].
  destruct (verified_state now fit memory request draft gpus) as [st|] eqn:Hst; cbn; [|by split].
  destruct log_fitted as [[]|]; cbn; [|by split]. eauto 10.
Qed.

(** C24: A llama.cpp server is accepted only when its log proves its plan, and a
    server that fails the check is told to stop.  When the verification
    returns, its state has every layer of the model on the GPU, one unified
    cache with equal types, a context within the training context and an
    aggregate context for all slots, the values the request fixes, an estimator
    overrun only with permission, distinct GPUs in order, each with the
    requested memory free, and for a catalog profile the GPU product,
    micro-batch and draft it names (and no draft without one), and no stop was
    sent.  When it raises, either the stop script was sent as its last command,
    whose own failure is only logged, so that the error is the one found unless
    the stop was cancelled or the warning could not be recorded; or one of the
    two reads was cancelled, and then nothing was sent to stop the server. *)
Theorem launch_verified read_log read_memory stop log_fitted log_warning now request draft gpus :
  match _verify_llamacpp_runtime read_log read_memory stop log_fitted log_warning now request draft gpus with
  | (sent, Err e) =>
      (exists before found, sent = before ++ [StopServer] /\ StopServer ∉ before /\
         verify_body read_log read_memory log_fitted now request draft gpus = (before, Err (Exception found)) /\
         match stop, log_warning with
         | Err CancelledError, _ => e = CancelledError
         | Err (Exception _), Err text => e = Exception text
         | _, _ => e = Exception found
         end) \/
      (e = CancelledError /\ StopServer ∉ sent /\ (read_log = Err CancelledError \/ read_memory = Err CancelledError))
  | (sent, Ok st) =>
      sent = [ReadLog; ReadMemory] /\ proves_plan request gpus st
  end.
Proof.
  pose proof (body_ends read_log read_memory log_fitted now request draft gpus) as Hb. unfold _verify_llamacpp_runtime.
  destruct (verify_body read_log read_memory log_fitted now request draft gpus) as [sent [st|[found|]]]; cbn beta iota zeta.
  - destruct Hb as (-> & log & memory & fit & Hfit & Hst). split; [done|]. by eapply state_verified.
  - destruct Hb as [Hn _]. unfold _stop_failed_llamacpp_start. by destruct stop as [out|[t|]], log_warning as [[]|w]; left; exists sent, found.
  - right. by destruct Hb as [Hn Hc].
Qed.

(** ** A log *)

Definition lines (l : list string) : string := String.concat "" (List.map (fun s => s +:+ String newline "") l).

(** The records of a profile launch whose draft head lives in the target file. *)
Definition ex_log (layers : string) : string := lines
  ["qiip_fit_plan: sizing=profile train_context=262144 context_per_slot=262144 slots=1 aggregate_context=262144 fit_target_mib=512 cache_type_k=q4_0 cache_type_v=q4_0 flash_attn=on estimator_overrun_used=false";
   "qiip_profile_plan: profile_id=qwen3.8-27b-24g profile_version=1 ubatch=256 spec_type=draft-mtp spec_draft_n_max=2 draft_cache_type=f16 draft_gguf=none required_free_mib=22000 gpu_free_mib=97203 gpu_uuid=GPU-17c2f9f6-51c5-83cb-7ad6-71d9ec81806e cuda_graphs=on";
   "0.06.902.220 I load_tensors: offloaded " +:+ layers +:+ " layers to GPU";
   "0.07.989.020 I llama_context: n_ctx                 = 262144";
   "0.07.989.021 I llama_context: n_ubatch              = 256";
   "0.07.994.274 I llama_kv_cache: size = 4608.00 MiB (262144 cells,  16 layers,  1/1 seqs), K (q4_0): 2304.00 MiB, V (q4_0): 2304.00 MiB";
   "0.08.077.740 I common_speculative_init_result: creating MTP draft context against the target model '/srv/m.gguf'";
   "0.08.077.763 I llama_context: n_ctx                 = 262144";
   "0.08.081.534 I llama_kv_cache: size = 1024.00 MiB (262144 cells,   1 layers,  1/1 seqs), K (f16):  512.00 MiB, V (f16):  512.00 MiB";
   "0.08.114.412 I srv    load_model: initializing, n_slots = 1, n_ctx_slot = 262144, kv_unified = 'true'";
   "0.08.114.423 I spec common_specu: adding speculative implementation 'draft-mtp'";
   "0.08.114.426 I spec common_specu: - n_max=2, n_min=0, p_min=0.00, n_embd=5120, backend_sampling=1";
   "0.08.167.640 I srv    load_model: speculative decoding context initialized"].

Example fit_of_log : (f_gpu_layers <$> match _parse_llamacpp_runtime_fit (ex_log "66/66") with Ok f => Some f | Err _ => None end) = Some 66 /\
  is_ok (_parse_llamacpp_runtime_fit (ex_log "60/66")) = false.
Proof. by vm_compute. Qed.

Lemma newest_launch_only_witness :
  parse_profile_evidence (lines ["load_tensors: offloaded 1/2 layers to GPU"] +:+ ex_log "66/66") = parse_profile_evidence (ex_log "66/66").
Proof.
  apply (newest_launch_only (lines ["load_tensors: offloaded 1/2 layers to GPU"]) (ex_log "66/66")); [|vm_compute; reflexivity].
  right. exists "load_tensors: offloaded 1/2 layers to GPU". reflexivity.
Defined.

(** The evidence of a profile alone does not say that the target is on the GPU:
    a log with some of its layers there is accepted by [parse_profile_evidence];
    only its caller compares the two numbers. *)
Theorem partial_target_accepted : is_ok (parse_profile_evidence (ex_log "60/66")) = true.
Proof. vm_compute. reflexivity. Qed.
