(* ===== verification/Sessions.v ===== *)
(** * Browser sessions and viewer roles

    - [Session]: [inference_proxy/auth/session.py], the signed cookie
    - [Viewer]: the identity checks of [inference_proxy/config/dependencies.py]

    A session is the JSON object in the cookie, [None] when the middleware is
    not installed.  Reading an identity may clear an expired one, so a read also
    returns the session.  The clock is in microseconds; every call of
    [time.time()] is an argument of its own, because the code reads the clock
    several times per request.  Texts are their UTF-8 bytes. *)

From Stdlib Require Import Ascii.
From S2P Require Import Prelude PyDict Json NodeModel Etcd EtcdWire Auth AuthStore.
Local Open Scope Z_scope.

(** ** The session cookie *)

Module Session.

Definition session : Type := list (string * json).

Definition second : Z := Allowlist.second.

Definition _SESSION_USER_KEY : string := "qiip_user_id".
Definition _SESSION_LOCAL_ADMIN_KEY : string := "qiip_local_admin".
Definition _SESSION_EXPIRY_KEY : string := "qiip_exp".

(** [x] when [isinstance(x, int)]; Python's booleans are integers. *)
Definition py_int_value (v : option json) : option Z :=
  match v with
  | Some (JNum z) => Some z
  | Some (JBool b) => Some (Z.b2z b)
  | _ => None
  end.

Definition clear_session_user (s : session) : session :=
  dpop _SESSION_EXPIRY_KEY (dpop _SESSION_USER_KEY s).

Definition clear_local_admin_session (s : session) : session :=
  dpop _SESSION_EXPIRY_KEY (dpop _SESSION_LOCAL_ADMIN_KEY s).

Definition set_session_user (user_id ttl_seconds now : Z) (s : session) : session :=
  dset _SESSION_EXPIRY_KEY (JNum (now / second + ttl_seconds))
    (dset _SESSION_USER_KEY (JNum user_id) (clear_local_admin_session s)).

Definition set_local_admin_session (ttl_seconds now : Z) (s : session) : session :=
  dset _SESSION_EXPIRY_KEY (JNum (now / second + ttl_seconds))
    (dset _SESSION_LOCAL_ADMIN_KEY (JBool true) (clear_session_user s)).

Definition _session_state (key : string) (s : option session) : option (option json * option json) :=
  match s with
  | None => None
  | Some s => Some (dget key s, dget _SESSION_EXPIRY_KEY s)
  end.

Definition get_local_admin_session (now : Z) (s : option session) : option session * bool :=
  match _session_state _SESSION_LOCAL_ADMIN_KEY s with
  | None => (s, false)
  | Some (marker, expiry) =>
      match marker with
      | Some (JBool true) =>
          match py_int_value expiry with
          | None => (clear_local_admin_session <$> s, false)
          | Some e => if e * second <? now then (clear_local_admin_session <$> s, false) else (s, true)
          end
      | _ => (s, false)
      end
  end.

Definition get_session_user_id (now : Z) (s : option session) : option session * option Z :=
  match _session_state _SESSION_USER_KEY s with
  | None => (s, None)
  | Some (user_id, expiry) =>
      match py_int_value user_id, py_int_value expiry with
      | Some u, Some e => if e * second <? now then (clear_session_user <$> s, None) else (s, Some u)
      | _, _ => (s, None)
      end
  end.

(** ** The identity a session stands for *)

Inductive Who := GoogleUser (user_id : Z) | LocalAdmin.

(** What happens to one browser's session.  [Write] is a key of the OAuth
    client library or of the login route. *)
Inductive Event :=
| SignIn (w : Who) (ttl now : Z)
| SignOut
| ReadUser (now : Z)
| ReadAdmin (now : Z)
| Write (key : string) (v : json).

Definition apply_event (e : Event) (s : session) : session :=
  match e with
  | SignIn (GoogleUser u) ttl now => set_session_user u ttl now s
  | SignIn LocalAdmin ttl now => set_local_admin_session ttl now s
  | SignOut => clear_local_admin_session (clear_session_user s)
  | ReadUser now => default s (fst (get_session_user_id now (Some s)))
  | ReadAdmin now => default s (fst (get_local_admin_session now (Some s)))
  | Write key v => dset key v s
  end.

Definition own_key (k : string) : bool :=
  bool_decide (k ∈ [_SESSION_USER_KEY; _SESSION_LOCAL_ADMIN_KEY; _SESSION_EXPIRY_KEY]).

Definition event_ok (e : Event) : Prop :=
  match e with Write key _ => own_key key = false | _ => True end.

(** The specification: at most one identity, with the second it lapses. *)
Definition Identity : Type := option (Who * Z).

Definition lapsed (now : Z) (a : Identity) : bool :=
  match a with Some (_, e) => e * second <? now | None => true end.

Definition spec_event (e : Event) (a : Identity) : Identity :=
  match e with
  | SignIn w ttl now => Some (w, now / second + ttl)
  | SignOut => None
  | ReadUser now => match a with Some (GoogleUser _, _) => if lapsed now a then None else a | _ => a end
  | ReadAdmin now => match a with Some (LocalAdmin, _) => if lapsed now a then None else a | _ => a end
  | Write _ _ => a
  end.

Definition spec_user (now : Z) (a : Identity) : option Z :=
  match a with Some (GoogleUser u, _) => if lapsed now a then None else Some u | _ => None end.
Definition spec_admin (now : Z) (a : Identity) : bool :=
  match a with Some (LocalAdmin, _) => negb (lapsed now a) | _ => false end.

(** The cookie holds exactly the identity. *)
Definition holds (a : Identity) (s : session) : Prop :=
  match a with
  | None => dget _SESSION_USER_KEY s = None /\ dget _SESSION_LOCAL_ADMIN_KEY s = None
  | Some (GoogleUser u, e) =>
      dget _SESSION_USER_KEY s = Some (JNum u) /\ dget _SESSION_LOCAL_ADMIN_KEY s = None /\
      dget _SESSION_EXPIRY_KEY s = Some (JNum e)
  | Some (LocalAdmin, e) =>
      dget _SESSION_USER_KEY s = None /\ dget _SESSION_LOCAL_ADMIN_KEY s = Some (JBool true) /\
      dget _SESSION_EXPIRY_KEY s = Some (JNum e)
  end.

Definition run_events (es : list Event) (s : session) : session := fold_left (fun s e => apply_event e s) es s.
Definition spec_events (es : list Event) : Identity := fold_left (fun a e => spec_event e a) es None.

(** Keys of the cookie after an update. *)
Ltac keys := rewrite ?dget_dset, ?dget_dpop; repeat case_decide; try done.

Lemma holds_set_user u ttl now a s : holds a s -> holds (Some (GoogleUser u, now / second + ttl)) (set_session_user u ttl now s).
Proof.
  intros H. cbn. unfold set_session_user, clear_local_admin_session.
  destruct a as [[[v|] e]|]; cbn in H; destruct_and?; split_and!; keys.
Qed.

Lemma holds_set_admin ttl now a s : holds a s -> holds (Some (LocalAdmin, now / second + ttl)) (set_local_admin_session ttl now s).
Proof.
  intros H. cbn. unfold set_local_admin_session, clear_session_user.
  destruct a as [[[v|] e]|]; cbn in H; destruct_and?; split_and!; keys.
Qed.

Lemma holds_read_user now a s : holds a s ->
  get_session_user_id now (Some s) = (Some (apply_event (ReadUser now) s), spec_user now a) /\
  holds (spec_event (ReadUser now) a) (apply_event (ReadUser now) s).
Proof.
  intros H. unfold apply_event, get_session_user_id, _session_state.
  destruct a as [[[v|] e]|]; cbn in H; destruct_and?; rewrite ?H, ?H0, ?H1, ?H2; cbn; try done.
  destruct (e * second <? now); cbn; [|done]. split; [done|]. unfold clear_session_user. split; keys.
Qed.

Lemma holds_read_admin now a s : holds a s ->
  get_local_admin_session now (Some s) = (Some (apply_event (ReadAdmin now) s), spec_admin now a) /\
  holds (spec_event (ReadAdmin now) a) (apply_event (ReadAdmin now) s).
Proof.
  intros H. unfold apply_event, get_local_admin_session, _session_state.
  destruct a as [[[v|] e]|]; cbn in H; destruct_and?; rewrite ?H, ?H0, ?H1, ?H2; cbn; try done.
  destruct (e * second <? now); cbn; [|done]. split; [done|]. unfold clear_local_admin_session. split; keys.
Qed.

Lemma holds_write k v a s : own_key k = false -> holds a s -> holds a (dset k v s).
Proof.
  unfold own_key. intros Hk%bool_decide_eq_false. intros H.
  destruct a as [[[u|] e]|]; cbn in H |- *; destruct_and?; split_and!; rewrite dget_dset; case_decide; set_solver.
Qed.

Lemma holds_step e a s : event_ok e -> holds a s -> holds (spec_event e a) (apply_event e s).
Proof.
  destruct e as [[u|] ttl now| |now|now|k v]; intros Hok H.
  - by eapply holds_set_user.
  - by eapply holds_set_admin.
  - cbn. unfold clear_local_admin_session, clear_session_user. split; keys;
      destruct a as [[[u|] e]|]; cbn in H; destruct_and?; done.
  - by apply holds_read_user.
  - by apply holds_read_admin.
  - by apply holds_write.
Qed.

Lemma holds_run es : Forall event_ok es -> forall a s, holds a s ->
  holds (fold_left (fun a e => spec_event e a) es a) (run_events es s).
Proof.
  induction es as [|e es IH]; intros Hok a s H; [done|]. inversion Hok; subst. cbn. apply IH; [done|]. by apply holds_step.
Qed.
End Session.
Import Session.

(** The cookie implements a single identity that lapses.  Whatever a browser
    does (signing in as a user or as the local admin, signing out, expired or
    live reads, writes of other keys), what the session readers return is the
    identity of the last sign-in, until its second of expiry has passed or it
    was signed out, and never two identities at once. *)
Theorem session_refines_identity (es : list Event) (now : Z) :
  Forall event_ok es ->
  let s := run_events es [] in
  let a := spec_events es in
  snd (get_session_user_id now (Some s)) = spec_user now a /\
  snd (get_local_admin_session now (Some s)) = spec_admin now a.
Proof.
  intros Hok s a. pose proof (holds_run es Hok None []) as H. specialize (H (conj eq_refl eq_refl)).
  fold s in H. change (holds a s) in H.
  destruct (holds_read_user now a s H) as [-> _]. destruct (holds_read_admin now a s H) as [-> _]. done.
Qed.

(** ** Viewer roles *)

(** Text and bytes: a text is its UTF-8 encoding. *)
Definition bytes_of (s : string) : bytes := List.map (fun a => Z.of_N (Ascii.N_of_ascii a)) (String.list_ascii_of_string s).
Definition string_of_bytes (b : bytes) : string :=
  String.string_of_list_ascii (List.map (fun z => Ascii.ascii_of_N (Z.to_N z)) b).

(** Whether [b.decode("utf-8")] succeeds: shortest forms only, no surrogates,
    at most U+10FFFF. *)
Fixpoint utf8_valid (b : bytes) : bool :=
  let cont y := (128 <=? y) && (y <=? 191) in
  match b with
  | [] => true
  | x :: b =>
      if x <? 128 then utf8_valid b
      else if (194 <=? x) && (x <=? 223) then
        match b with y :: b => cont y && utf8_valid b | _ => false end
      else if (224 <=? x) && (x <=? 239) then
        match b with
        | y :: z :: b =>
            cont y && cont z && (negb (x =? 224) || (160 <=? y)) && (negb (x =? 237) || (y <=? 159)) && utf8_valid b
        | _ => false
        end
      else if (240 <=? x) && (x <=? 244) then
        match b with
        | y :: z :: t :: b =>
            cont y && cont z && cont t && (negb (x =? 240) || (144 <=? y)) && (negb (x =? 244) || (y <=? 143)) &&
            utf8_valid b
        | _ => false
        end
      else false
  end.

Definition decode_utf8 (b : bytes) : option string := if utf8_valid b then Some (string_of_bytes b) else None.

Module Viewer.

Inductive Role := admin | user.

#[export] Instance Role_eq : EqDecision Role.
Proof. solve_decision. Defined.

(** The parts of the request and of the settings the checks read. *)
Record Request := mkRequest {
  method : string;
  authorization : string;
  content_type : string;
  rq_session : option session;
}.

Record AdminSettings := mkAdmin { username : string; password : string }.

Inductive HTTPException := Status (code : Z).

Definition _JSON_ADMIN_METHODS : list string := ["POST"; "PUT"; "PATCH"].

Definition _credentials_match (name pass : string) (s : AdminSettings) : bool :=
  bool_decide (name = username s) && bool_decide (pass = password s).

Definition _basic_credentials_match (header : string) (s : AdminSettings) : bool :=
  let '(scheme, _, encoded) := partition " "%char header in
  if negb (bool_decide (py_lower scheme = "basic")) || negb (str_truthy (py_strip encoded)) then false
  else
    match b64decode (py_strip encoded) ≫= decode_utf8 with
    | None => false
    | Some decoded =>
        let '(name, separator, pass) := partition ":"%char decoded in
        if separator then _credentials_match name pass s else false
    end.

(** [store] is [app.state.auth_store]; [t] the clock of the session read. *)
Definition _viewer_from_session (t : Z) (store : option DB) (s : option session) : option session * option Role :=
  let '(s, uid) := get_session_user_id t s in
  (s, match uid, store with
      | Some uid, Some d =>
          match get_user uid d with Some u => Some (if is_admin u then admin else user) | None => None end
      | _, _ => None
      end).

Definition session_user_has_full_access (t : Z) (store : option DB) (settings : AuthSettings) (s : option session)
  : option session * bool :=
  let '(s, uid) := get_session_user_id t s in
  (s, match uid, store with
      | Some uid, Some d =>
          match get_user uid d with Some u => Scopes.is_full_access (email u) (issuer u) settings | None => false end
      | _, _ => false
      end).

Definition viewer_role (t1 t2 : Z) (store : option DB) (header : string) (a : AdminSettings) (s : option session)
  : option session * option Role :=
  let '(s, uid) := get_session_user_id t1 s in
  match uid with
  | Some _ => _viewer_from_session t2 store s
  | None =>
      if _basic_credentials_match header a then (s, Some admin)
      else let '(s, local) := get_local_admin_session t2 s in (s, if local then Some admin else None)
  end.

Definition require_fleet_viewer (t1 t2 : Z) (store : option DB) (header : string) (a : AdminSettings)
  (s : option session) : option session * result HTTPException Role :=
  let '(s, role) := viewer_role t1 t2 store header a s in
  (s, match role with Some r => Ok r | None => Err (Status 401) end).

(** [later] is the store when the user row is read again, after the role. *)
Definition require_fleet_viewer_email (t1 t2 t3 : Z) (store later : option DB) (header : string) (a : AdminSettings)
  (s : option session) : option session * result HTTPException (option string) :=
  let '(s, role) := require_fleet_viewer t1 t2 store header a s in
  match role with
  | Err e => (s, Err e)
  | Ok _ =>
      let '(s, uid) := get_session_user_id t3 s in
      match uid, later with
      | Some uid, Some d =>
          match get_user uid d with
          | None => (s, Err (Status 401))
          | Some u => (s, Ok (Some (py_lower (email u))))
          end
      | _, _ => (s, Ok None)
      end
  end.

Definition require_admin_auth (t1 t2 : Z) (store : option DB) (a : AdminSettings) (rq : Request)
  : option session * result HTTPException unit :=
  let '(s, role) := viewer_role t1 t2 store (authorization rq) a (rq_session rq) in
  (s, if negb (bool_decide (role = Some admin)) then Err (Status 401)
      else if bool_decide (method rq ∈ _JSON_ADMIN_METHODS) &&
              negb (bool_decide (py_lower (fst (fst (partition ";"%char (content_type rq)))) = "application/json"))
      then Err (Status 415)
      else Ok tt).
End Viewer.
Import Viewer.

(** ** Basic credentials *)

Lemma string_of_bytes_of s : string_of_bytes (bytes_of s) = s.
Proof.
  unfold string_of_bytes, bytes_of. rewrite List.map_map.
  rewrite <- (String.string_of_list_ascii_of_string s) at 2. f_equal. rewrite <- List.map_id.
  apply List.map_ext. intros a. by rewrite N2Z.id, Ascii.ascii_N_embedding.
Qed.

Lemma bytes_of_bytes s : all_bytes (bytes_of s).
Proof.
  unfold all_bytes, bytes_of. apply Forall_map, Forall_forall. intros a _. cbn.
  pose proof (Ascii.N_ascii_bounded a). lia.
Qed.

Lemma partition_app c s t : has_char c s = false -> partition c (s +:+ String c t) = (s, true, t).
Proof.
  induction s as [|a s IH].
  - intros _. change ("" +:+ String c t) with (String c t). cbn. by rewrite bool_decide_true.
  - change (String a s +:+ String c t) with (String a (s +:+ String c t)). cbn [has_char partition].
    intros [Ha Hs]%orb_false_elim. by rewrite Ha, IH.
Qed.

Fixpoint no_space (s : string) : bool :=
  match s with EmptyString => true | String a s => negb (is_space a) && no_space s end.

Lemma strip_no_space s : no_space s = true -> py_strip s = s.
Proof.
  intros H. unfold py_strip. assert (lstrip s = s) as ->.
  { destruct s as [|a s]; cbn in *; [done|]. by destruct (is_space a). }
  induction s as [|a s IH]; cbn in *; [done|]. bool_to_prop. rewrite (IH H0). destruct s; [|done]. by rewrite H.
Qed.

Definition enc6_spaceless (n : nat) : bool := forallb (fun v => negb (is_space (enc6 (Z.of_nat v)))) (seq 0 n).

Lemma enc6_no_space v : is_space (enc6 v) = false.
Proof.
  unfold enc6. destruct (String.get (Z.to_nat v) alphabet) as [a|] eqn:H; [|done]. cbn.
  assert (Hn : (Z.to_nat v < 64)%nat).
  { destruct (decide (Z.to_nat v < 64)%nat); [done|]. exfalso.
    assert (exists k, Z.to_nat v = 64 + k)%nat as [k Hk] by (exists (Z.to_nat v - 64)%nat; lia). rewrite Hk in H. done. }
  assert (enc6_spaceless 64 = true) as Hall by (vm_compute; reflexivity). unfold enc6_spaceless in Hall.
  rewrite List.forallb_forall in Hall. specialize (Hall (Z.to_nat v)). rewrite List.in_seq in Hall.
  specialize (Hall ltac:(lia)). unfold enc6 in Hall. rewrite Nat2Z.id, H in Hall. by apply negb_true_iff in Hall.
Qed.

Lemma encode_no_space n b : (length b <= n)%nat -> no_space (_encode b) = true.
Proof.
  revert b. induction n as [|n IH]; intros b Hn; destruct b as [|x [|y [|z b]]]; cbn [length] in Hn; try lia; try done;
    cbn [_encode no_space]; rewrite ?enc6_no_space; try done. cbn [negb andb]. apply IH. lia.
Qed.

Lemma encode_nonempty x b : _encode (x :: b) <> "".
Proof. by destruct b as [|y [|z b]]. Qed.

Definition basic_header (name pass : string) : string :=
  "Basic " +:+ _encode (bytes_of (name +:+ String ":"%char pass)).

(** HTTP Basic authentication reads back exactly what a client writes: for a
    name without a colon, the header of [name] and [pass] is accepted if and
    only if both are the configured admin's, whatever bytes the password has,
    colons included. *)
Theorem basic_roundtrip (name pass : string) (s : AdminSettings) :
  has_char ":"%char name = false ->
  utf8_valid (bytes_of (name +:+ String ":"%char pass)) = true ->
  _basic_credentials_match (basic_header name pass) s = true <-> name = username s /\ pass = password s.
Proof.
  intros Hname Hutf. unfold _basic_credentials_match, basic_header.
  change ("Basic " +:+ ?x) with ("Basic" +:+ String " "%char x). rewrite partition_app by done.
  rewrite bool_decide_eq_true_2 by done. cbn [negb orb].
  rewrite (strip_no_space (_encode _)) by (eapply encode_no_space; done).
  rewrite b64_roundtrip by apply bytes_of_bytes.
  destruct (bytes_of (name +:+ String ":"%char pass)) as [|x b] eqn:Hb.
  { by destruct name. }
  unfold str_truthy. rewrite bool_decide_eq_false_2 by apply encode_nonempty.
  cbn [negb mbind option_bind]. unfold decode_utf8. rewrite Hutf, <- Hb, string_of_bytes_of, partition_app by done.
  unfold _credentials_match. rewrite andb_true_iff, !bool_decide_eq_true. done.
Qed.

(** ** Who passes the gates *)

(** The identity behind a request's session. *)
Definition session_identity (a : Identity) (s : option session) : Prop :=
  match s with None => a = None | Some s => holds a s end.

Lemma read_user_identity t a s : session_identity a s ->
  exists s', get_session_user_id t s = (s', spec_user t a) /\ session_identity (spec_event (ReadUser t) a) s'.
Proof.
  destruct s as [s|]; cbn [session_identity]; [|intros ->; by exists None].
  intros H. destruct (holds_read_user t a s H) as [-> H']. by eexists.
Qed.

Lemma read_admin_identity t a s : session_identity a s ->
  exists s', get_local_admin_session t s = (s', spec_admin t a) /\ session_identity (spec_event (ReadAdmin t) a) s'.
Proof.
  destruct s as [s|]; cbn [session_identity]; [|intros ->; by exists None].
  intros H. destruct (holds_read_admin t a s H) as [-> H']. by eexists.
Qed.

(** The role of a viewer, from the identity, the store and the header. *)
Definition role_of (t1 t2 : Z) (store : option DB) (header : string) (adm : AdminSettings) (a : Identity) : option Role :=
  match spec_user t1 a with
  | Some _ =>
      match spec_user t2 a ≫= fun uid => store ≫= get_user uid with
      | Some u => Some (if is_admin u then admin else user)
      | None => None
      end
  | None => if _basic_credentials_match header adm || spec_admin t2 a then Some admin else None
  end.

Lemma spec_user_live t a u : spec_user t a = Some u -> spec_event (ReadUser t) a = a.
Proof. destruct a as [[[v|] e]|]; cbn; try done. by destruct (_ <? _). Qed.

Lemma spec_user_dead t t' a : spec_user t a = None ->
  spec_user t' (spec_event (ReadUser t) a) = None /\ spec_admin t' (spec_event (ReadUser t) a) = spec_admin t' a.
Proof. destruct a as [[[v|] e]|]; cbn; try done. by destruct (_ <? _). Qed.

Lemma read_user_or t a : spec_event (ReadUser t) a = a \/ spec_event (ReadUser t) a = None /\ spec_user t a = None.
Proof. destruct a as [[[v|] e]|]; cbn; auto. destruct (e * second <? t); auto. Qed.

Lemma read_admin_or t t' a :
  spec_event (ReadAdmin t) a = a \/ spec_event (ReadAdmin t) a = None /\ spec_user t' a = None.
Proof. destruct a as [[[v|] e]|]; cbn; auto. destruct (e * second <? t); auto. Qed.

Lemma viewer_role_eq t1 t2 store header adm a s : session_identity a s -> exists s' a',
  viewer_role t1 t2 store header adm s = (s', role_of t1 t2 store header adm a) /\ session_identity a' s' /\
  (a' = a \/ a' = None /\ (spec_user t1 a = None \/ spec_user t2 a = None)).
Proof.
  intros H. unfold viewer_role, role_of. destruct (read_user_identity t1 a s H) as (s1 & -> & H1).
  destruct (spec_user t1 a) as [uid|] eqn:Hu.
  - rewrite (spec_user_live _ _ _ Hu) in H1. unfold _viewer_from_session.
    destruct (read_user_identity t2 a s1 H1) as (s2 & -> & H2). exists s2, (spec_event (ReadUser t2) a). split_and!; [|done|].
    + destruct (spec_user t2 a); cbn; [|done]. destruct store; cbn; [|done]. by destruct (get_user _ _).
    + destruct (read_user_or t2 a); naive_solver.
  - destruct (spec_user_dead t1 t2 a Hu) as [_ Ha]. set (a1 := spec_event (ReadUser t1) a) in *.
    assert (a1 = a \/ a1 = None) as Ha1 by (unfold a1; destruct (read_user_or t1 a); naive_solver).
    destruct (_basic_credentials_match header adm); cbn [orb].
    + exists s1, a1. naive_solver.
    + destruct (read_admin_identity t2 a1 s1 H1) as (s2 & -> & H2). rewrite Ha. eexists _, _. split_and!; [done|done|].
      destruct Ha1 as [->| ->]; [|naive_solver]. destruct (read_admin_or t2 t1 a); naive_solver.
Qed.

Definition admin_viewer (t1 t2 : Z) (store : option DB) (header : string) (adm : AdminSettings) (a : Identity) : Prop :=
  match spec_user t1 a with
  | Some uid => spec_user t2 a = Some uid /\ exists d u, store = Some d /\ get_user uid d = Some u /\ is_admin u = true
  | None => _basic_credentials_match header adm = true \/ spec_admin t2 a = true
  end.

Definition json_only (rq : Request) : Prop :=
  method rq ∈ _JSON_ADMIN_METHODS ->
  py_lower (fst (fst (partition ";"%char (content_type rq)))) = "application/json".

Lemma spec_user_same t1 t2 a u v : spec_user t1 a = Some u -> spec_user t2 a = Some v -> u = v.
Proof. destruct a as [[[w|] e]|]; cbn; try done. repeat case_match; congruence. Qed.

Lemma role_of_admin t1 t2 store header adm a :
  role_of t1 t2 store header adm a = Some admin <-> admin_viewer t1 t2 store header adm a.
Proof.
  unfold role_of, admin_viewer. destruct (spec_user t1 a) as [uid|] eqn:H1.
  - destruct (spec_user t2 a) as [v|] eqn:H2; cbn; [|naive_solver].
    rewrite (spec_user_same _ _ _ _ _ H2 H1) in *. destruct store as [d|]; cbn; [|naive_solver].
    destruct (get_user uid d) as [u|] eqn:Hu; cbn; [|naive_solver].
    assert (Some (if is_admin u then admin else user) = Some admin <-> is_admin u = true) as -> by by destruct (is_admin u).
    naive_solver.
  - rewrite <- orb_true_iff. by destruct (_ || _).
Qed.

(** C15: The admin gate admits exactly the admins.  A signed-in session decides
    alone: its user must exist in the store with the admin role when it is read,
    and Basic credentials or a local-admin marker in the same request add
    nothing.  Without one, valid Basic credentials or a live local-admin session
    are needed.  State-changing methods must carry JSON.  Refusals are 401
    before 415, and the gate never gives the session an identity it did not
    have. *)
Theorem admin_gate_exact (t1 t2 : Z) (store : option DB) (adm : AdminSettings) (rq : Request) (a : Identity) :
  session_identity a (rq_session rq) ->
  let '(s', r) := require_admin_auth t1 t2 store adm rq in
  (r = Ok tt <-> admin_viewer t1 t2 store (authorization rq) adm a /\ json_only rq) /\
  (r = Err (Status 401) <-> ~ admin_viewer t1 t2 store (authorization rq) adm a) /\
  (spec_user t1 a <> None -> forall header, admin_viewer t1 t2 store header adm a <->
     admin_viewer t1 t2 store (authorization rq) adm a) /\
  (session_identity a s' \/ session_identity None s').
Proof.
  intros H. unfold require_admin_auth.
  destruct (viewer_role_eq t1 t2 store (authorization rq) adm a _ H) as (s' & a' & -> & Ha' & Hor).
  rewrite <- role_of_admin. unfold json_only. split_and!.
  - destruct (bool_decide_reflect (role_of t1 t2 store (authorization rq) adm a = Some admin)) as [Hr|]; cbn; [|naive_solver].
    repeat case_bool_decide; cbn; naive_solver.
  - destruct (bool_decide_reflect (role_of t1 t2 store (authorization rq) adm a = Some admin)) as [Hr|]; cbn; [|naive_solver].
    repeat case_bool_decide; cbn; naive_solver.
  - intros Hu header. unfold role_of, admin_viewer. by destruct (spec_user t1 a).
  - destruct Hor as [->|[-> _]]; auto.
Qed.

Lemma spec_user_mono t t' a : t <= t' -> spec_user t a = None -> spec_user t' a = None.
Proof. intros Ht. destruct a as [[[v|] e]|]; cbn; try done. repeat case_match; bool_to_prop; done || lia. Qed.

(** The e-mail address the fleet filter uses.  With a store, a live session
    gets the lower-case address of its user, who must exist both when the role
    and when the address is read; the filter is dropped ([Ok None]) only for the
    local admin without a session, or when the session lapses after the role was
    read and before the address is. *)
Theorem fleet_email_exact (t1 t2 t3 : Z) (d d' : DB) (header : string) (adm : AdminSettings) (s : option session)
  (a : Identity) :
  t1 <= t2 -> t2 <= t3 -> session_identity a s ->
  let r := snd (require_fleet_viewer_email t1 t2 t3 (Some d) (Some d') header adm s) in
  (forall m, r = Ok (Some m) <->
     exists uid u u', spec_user t3 a = Some uid /\ get_user uid d = Some u /\ get_user uid d' = Some u' /\
       m = py_lower (email u')) /\
  (r = Ok None <->
     (spec_user t1 a = None /\ (_basic_credentials_match header adm = true \/ spec_admin t2 a = true)) \/
     (exists uid u, spec_user t2 a = Some uid /\ get_user uid d = Some u /\ spec_user t3 a = None)).
Proof.
  intros H12 H23 H. unfold require_fleet_viewer_email, require_fleet_viewer.
  destruct (viewer_role_eq t1 t2 (Some d) header adm a s H) as (s' & a' & -> & Ha' & Hor).
  destruct (read_user_identity t3 a' s' Ha') as (s3 & Hs3 & _).
  assert (spec_user t3 a' = spec_user t3 a) as E.
  { destruct Hor as [->|[-> [Hn|Hn]]]; [done|..]; symmetry; eapply spec_user_mono; [|exact Hn| |exact Hn]; lia. }
  rewrite E in Hs3.
  pose proof (spec_user_mono t1 t2 a H12) as M12. pose proof (spec_user_mono t2 t3 a H23) as M23. unfold role_of.
  destruct (spec_user t1 a) as [u1|] eqn:H1; destruct (spec_user t2 a) as [u2|] eqn:H2; cbn [mbind option_bind].
  - pose proof (spec_user_same _ _ _ _ _ H2 H1). subst.
    destruct (spec_user t3 a) as [u3|] eqn:H3; [pose proof (spec_user_same _ _ _ _ _ H3 H1); subst|].
    + destruct (get_user u1 d) as [u|] eqn:Hu; cbn; [rewrite Hs3|]; cbn; [|naive_solver].
      destruct (get_user u1 d') eqn:Hu'; cbn; naive_solver.
    + destruct (get_user u1 d) as [u|] eqn:Hu; cbn; [rewrite Hs3|]; cbn; naive_solver.
  - rewrite M23 by done. cbn. naive_solver.
  - specialize (M12 eq_refl). done.
  - assert (spec_user t3 a = None) as E3 by auto. rewrite E3 in *. rewrite <- orb_true_iff.
    destruct (_ || _); cbn; [rewrite Hs3|]; cbn; naive_solver.
Qed.

(** ** Concrete runs *)

Definition ex_boss : User :=
  {| user_pk := 2; google_sub := "s2"; issuer := GOOGLE_ISSUER; email := "Boss@example.com"; user_name := "Boss";
     picture := ""; is_admin := true; user_created_at := 0; user_updated_at := 0 |}.
Definition ex_db : DB := mkDB [ex_user; ex_boss] [] [] [] 3 1.
Definition ex_admin : AdminSettings := mkAdmin "root" "pa:ss".

Definition ex_events : list Event :=
  [SignIn LocalAdmin 60 (5 * second); Write "auth_provider" (JStr "google"); SignIn (GoogleUser 2) 60 (10 * second + 7);
   ReadUser (70 * second)].

Lemma session_refines_identity_witness :
  Forall event_ok ex_events /\
  snd (get_session_user_id (70 * second) (Some (run_events ex_events []))) = Some 2 /\
  snd (get_session_user_id (70 * second + 1) (Some (run_events ex_events []))) = None /\
  snd (get_local_admin_session (70 * second) (Some (run_events ex_events []))) = false.
Proof.
  assert (H : Forall event_ok ex_events) by (repeat constructor).
  destruct (session_refines_identity ex_events (70 * second) H) as [H1 H2].
  destruct (session_refines_identity ex_events (70 * second + 1) H) as [H3 _].
  split_and!; [exact H|rewrite H1|rewrite H3|rewrite H2]; vm_compute; reflexivity.
Defined.

Lemma basic_roundtrip_witness :
  _basic_credentials_match (basic_header "root" "pa:ss") ex_admin = true /\
  _basic_credentials_match (basic_header "root" "pass") ex_admin = false.
Proof.
  split.
  - apply (basic_roundtrip "root" "pa:ss" ex_admin); vm_compute; auto.
  - apply not_true_iff_false. intros H. apply (basic_roundtrip "root" "pass" ex_admin) in H; [|vm_compute; reflexivity..].
    by destruct H.
Defined.

(** The boss's session, with a Basic header that would not be accepted. *)
Definition ex_session : session := set_session_user 2 60 0 [].
Definition ex_request : Request := mkRequest "POST" "Basic x" "Application/JSON; charset=utf-8" (Some ex_session).

Lemma admin_gate_exact_witness : snd (require_admin_auth 1 2 (Some ex_db) ex_admin ex_request) = Ok tt.
Proof.
  pose proof (admin_gate_exact 1 2 (Some ex_db) ex_admin ex_request (Some (GoogleUser 2, 60))) as H.
  destruct (require_admin_auth 1 2 (Some ex_db) ex_admin ex_request) as [s' r]. apply H.
  - vm_compute. auto.
  - split; [|intros _; vm_compute; reflexivity]. vm_compute. eauto 10.
Defined.

Lemma fleet_email_exact_witness :
  snd (require_fleet_viewer_email 1 2 (60 * second) (Some ex_db) (Some ex_db) "" ex_admin (Some ex_session)) =
    Ok (Some "boss@example.com") /\
  snd (require_fleet_viewer_email 1 2 (60 * second + 1) (Some ex_db) (Some ex_db) "" ex_admin (Some ex_session)) = Ok None.
Proof.
  assert (H : session_identity (Some (GoogleUser 2, 60)) (Some ex_session)) by (vm_compute; auto). split.
  - destruct (fleet_email_exact 1 2 (60 * second) ex_db ex_db "" ex_admin (Some ex_session) _ ltac:(lia) ltac:(done) H) as [H1 _].
    apply H1. exists 2, ex_boss, ex_boss. repeat split; vm_compute; reflexivity.
  - destruct (fleet_email_exact 1 2 (60 * second + 1) ex_db ex_db "" ex_admin (Some ex_session) _ ltac:(lia) ltac:(done) H) as [_ H1].
    apply H1. right. exists 2, ex_boss. repeat split; vm_compute; reflexivity.
Defined.
