(* ===== verification/Login.v ===== *)
(** * Signing in and managing tokens

    - [Plugins]: the identity providers [plugins/builtin/auth/google.py] and
      [plugins/builtin/auth/internal_oidc.py], and the choice between them in
      [auth/dependencies.py]
    - [Login]: [api/auth.py]
    - [Profile]: the token endpoints of [api/profile.py] and
      [api/admin_tokens.py]

    The handlers work on the identity store of [AuthStore] and the session of
    [Sessions].  The OAuth round trip is authlib's: what it returns is the
    argument [userinfo], [None] when it raised [OAuthError].  [gate] is the
    answer of [enforce_allowlist] for an e-mail address, [seen] the store when
    the account is looked up ([upsert_google_user]).  [py_str] is Python's
    [str] on decoded JSON, which is the identity on texts. *)

From Stdlib Require Import Ascii.
From S2P Require Import Prelude PyDict Json NodeModel Registry Auth AuthStore Sessions.
Import Session Viewer.
Local Open Scope Z_scope.

(** ** Identity providers *)

Module Plugins.

Record AuthIdentity := mkIdentity {
  sub : string;
  i_email : string;
  email_verified : bool;
  i_issuer : string;
  i_name : string;
  i_picture : string;
}.

(** [x] when [isinstance(x, str) and x] *)
Definition nonempty_str (v : option json) : option string :=
  match v with Some (JStr s) => if str_truthy s then Some s else None | _ => None end.

(** [x if isinstance(x, str) else ""] *)
Definition text_or_empty (v : option json) : string := match v with Some (JStr s) => s | _ => "" end.

Definition is_true (v : option json) : bool := match v with Some (JBool true) => true | _ => false end.

Definition google_complete_login (userinfo : option (list (string * json))) : result string AuthIdentity :=
  match userinfo with
  | None => Err "login_failed"
  | Some u =>
      match nonempty_str (dget "sub" u), nonempty_str (dget "email" u) with
      | Some sub, Some mail =>
          Ok (mkIdentity sub mail (is_true (dget "email_verified" u)) GOOGLE_ISSUER
                (text_or_empty (dget "name" u)) (text_or_empty (dget "picture" u)))
      | _, _ => Err "no_profile"
      end
  end.

Section oidc.
Context (py_str : json -> string).

Definition oidc_complete_login (client_id : string) (userinfo : option (list (string * json)))
  : result string AuthIdentity :=
  match userinfo with
  | None => Err "login_failed"
  | Some u =>
      match nonempty_str (dget "sub" u), nonempty_str (dget "email" u), nonempty_str (dget "iss" u) with
      | Some sub, Some mail, Some iss =>
          let audiences := match dget "aud" u with Some (JList l) => l | Some j => [j] | None => [JNull] end in
          if negb (bool_decide (client_id ∈ List.map py_str audiences)) then Err "login_failed"
          else Ok (mkIdentity sub mail (is_true (dget "email_verified" u)) iss
                     (text_or_empty (dget "name" u)) (text_or_empty (dget "picture" u)))
      | _, _, _ => Err "no_profile"
      end
  end.
End oidc.

(** The plugin with a local user list.  [users_file]: [None] when not
    configured, [Some None] when unreadable, else its lines. *)
Record LocalPlugin := mkLocal {
  users_file : option (option (list string));
  domain : option string;
  discovery_issuer : option string;
  server_metadata_url : string;
}.

Definition _DEFAULT_DOMAIN : string := "localdomain".
Definition _METADATA_SUFFIX : string := "/.well-known/openid-configuration".

Definition opt_text (o : option string) (d : string) : string :=
  match o with Some s => if str_truthy s then s else d | None => d end.

Definition _email_domain (p : LocalPlugin) : string := opt_text (domain p) _DEFAULT_DOMAIN.

(** [s.removesuffix(t)] *)
Fixpoint removesuffix (t s : string) : string :=
  if bool_decide (s = t) then EmptyString
  else match s with EmptyString => EmptyString | String a s => String a (removesuffix t s) end.

Definition plugin_issuer (p : LocalPlugin) : string :=
  opt_text (discovery_issuer p) (removesuffix _METADATA_SUFFIX (server_metadata_url p)).

(** One line of the users file. *)
Definition add_line (admin_username : string) (users : list (string * string)) (line : string) : list (string * string) :=
  let '(name, _, secret) := partition ":"%char line in
  let name := py_lower (py_strip name) in
  if negb (str_truthy name) || startswith name "#" || negb (str_truthy secret) then users
  else if bool_decide (name = py_lower (py_strip admin_username)) then users
  else dset name secret users.

Definition verify_local_credentials (p : LocalPlugin) (username password admin_username : string) : option string :=
  match users_file p with
  | Some (Some lines) =>
      let users := fold_left (add_line admin_username) lines [] in
      let name := py_lower (py_strip username) in
      match dget name users with
      | None => None
      | Some stored =>
          if negb (bool_decide (stored = password)) then None
          else Some (if has_char "@"%char name then name else name +:+ "@" +:+ _email_domain p)
      end
  | _ => None
  end.

(** A loaded provider: its name and whether it is configured. *)
Definition AUTH_PROVIDER_SESSION_KEY : string := "auth_provider".

Definition get_auth_plugin (plugins : list (string * bool)) (provider : option string) (s : session)
  : result HTTPException string :=
  let configured := List.map fst (List.filter snd plugins) in
  match configured with
  | [] => Err (Status 404)
  | first :: _ =>
      match provider with
      | Some name => if bool_decide (name ∈ configured) then Ok name else Err (Status 404)
      | None =>
          match dget AUTH_PROVIDER_SESSION_KEY s with
          | Some (JStr name) => if bool_decide (name ∈ configured) then Ok name else Ok first
          | _ => Ok first
          end
      end
  end.
End Plugins.
Import Plugins.

(** ** The sign-in routes *)

Module Login.

Inductive Response := Redirect (url : string) | Refused (code : Z).

Definition _PROFILE_HOME : string := "/profile".
Definition _DASHBOARD_HOME : string := "/dashboard".
Definition USER_HOME : string := "/start".

Definition _error_redirect (error : string) : Response := Redirect (_PROFILE_HOME +:+ "?error=" +:+ error).

Definition code_text (c : Signin.code) : string :=
  match c with
  | Signin.unverified_email => "unverified_email" | Signin.domain_not_allowed => "domain_not_allowed"
  | Signin.allowlist_unavailable => "allowlist_unavailable" | Signin.not_whitelisted => "not_whitelisted"
  end.

(** The settings the routes read. *)
Record Settings := mkSettings {
  auth : AuthSettings;
  session_secret : option string;
  session_ttl_seconds : Z;
  admin_account : AdminSettings;
}.

Section routes.
Context (settings : Settings) (gate : string -> result Allowlist.AllowlistUnavailableError bool).

(** After the identity is known: upsert the account and sign the session.
    [now] is the store's clock and [t] the session's. *)
Definition sign_in (seen : DB) (sub iss mail nm pic : string) (now t : Z) (conflict : Response) (d : DB) (s : session)
  : DB * session * Response :=
  match upsert_google_user seen sub iss mail nm pic now d with
  | (d', Ok u) =>
      (d', set_session_user (user_pk u) (session_ttl_seconds settings) t s,
       Redirect (if is_admin u then _PROFILE_HOME else USER_HOME))
  | (d', Err (AccountConflictError _)) => (d', s, conflict)
  | (d', Err _) => (d', s, Refused 500)
  end.

Definition oauth_callback (seen : DB) (identity : result string AuthIdentity) (now t : Z) (d : DB) (s : session)
  : DB * session * Response :=
  match identity with
  | Err code => (d, s, _error_redirect code)
  | Ok i =>
      if negb (str_truthy (i_email i)) || negb (str_truthy (sub i)) then (d, s, _error_redirect "no_profile")
      else
        match Signin.check_signin_policy (i_email i) (i_issuer i) (email_verified i) (auth settings) (gate (i_email i)) with
        | Some code => (d, s, _error_redirect (code_text code))
        | None =>
            sign_in seen (sub i) (i_issuer i) (i_email i) (i_name i) (i_picture i) now t (_error_redirect "account_conflict") d s
        end
  end.

Definition _local_login_identity (plugin : option LocalPlugin) (username password : string) : option (string * string) :=
  match plugin with
  | None => None
  | Some p =>
      match verify_local_credentials p username password (Viewer.username (admin_account settings)) with
      | None => None
      | Some mail =>
          if negb (str_truthy mail) || negb (str_truthy (plugin_issuer p)) then None else Some (mail, plugin_issuer p)
      end
  end.

(** [payload] is [None] when the body is not JSON. *)
Definition local_admin_login (seen : DB) (content_type : string) (payload : option json) (plugin : option LocalPlugin) (now t : Z)
  (d : DB) (s : session) : DB * session * Response :=
  if is_none (session_secret settings) then (d, s, Refused 503)
  else if negb (bool_decide (py_lower (fst (fst (partition ";"%char content_type))) = "application/json"))
  then (d, s, Refused 415)
  else
    match payload with
    | Some (JObj body) =>
        match dget "username" body, dget "password" body with
        | Some (JStr username), Some (JStr password) =>
            let username := py_strip username in
            if _credentials_match username password (admin_account settings)
            then (d, set_local_admin_session (session_ttl_seconds settings) t s, Redirect _DASHBOARD_HOME)
            else
              match _local_login_identity plugin username password with
              | None => (d, s, Refused 401)
              | Some (mail, iss) =>
                  match Signin.check_signin_policy mail iss true (auth settings) (gate mail) with
                  | Some _ => (d, s, Refused 403)
                  | None => sign_in seen mail iss mail username "" now t (Refused 409) d s
                  end
              end
        | _, _ => (d, s, Refused 422)
        end
    | _ => (d, s, Refused 422)
    end.

Definition oauth_logout (s : option session) : option session :=
  if is_none (session_secret settings) then s
  else (fun s => clear_local_admin_session (clear_session_user s)) <$> s.

(** [/auth/login]: [inl] is the redirect of someone already signed in, [inr]
    the hand-over to the provider's authorization page. *)
Definition oauth_login (t0 t1 t2 : Z) (store : option DB) (header : string) (provider_name : string)
  (redirect_uri : option string) (s : session) : option session * (Response + string) :=
  match get_session_user_id t0 (Some s) with
  | (s, Some _) =>
      let '(s, role) := viewer_role t1 t2 store header (admin_account settings) s in
      (s, inl (Redirect (if bool_decide (role = Some admin) then _PROFILE_HOME else USER_HOME)))
  | (s, None) =>
      match redirect_uri with
      | None => (s, inl (Refused 503))
      | Some uri => (dset AUTH_PROVIDER_SESSION_KEY (JStr provider_name) <$> s, inr uri)
      end
  end.
End routes.
End Login.
Import Login.

(** ** Token management *)

Module Profile.

Section routes.
Context (hash : string -> string) (mac : string -> string -> string) (others : nat -> DB -> DB).
Context (settings : Settings) (gate : string -> result Allowlist.AllowlistUnavailableError bool).

(** [require_profile_user] *)
Definition require_profile_user (t : Z) (d : DB) (s : option session) : option session * result HTTPException User :=
  if is_none (session_secret settings) then (s, Err (Status 503))
  else
    let '(s, uid) := get_session_user_id t s in
    (s, match uid ≫= fun uid => get_user uid d with Some u => Ok u | None => Err (Status 401) end).

Definition enforce_mint_allowlist (u : User) : result HTTPException unit :=
  if negb (enforce_sso_whitelist (auth settings)) || Scopes.is_full_access (email u) (issuer u) (auth settings) then Ok tt
  else match gate (email u) with
       | Err _ => Err (Status 503)
       | Ok allowed => if allowed then Ok tt else Err (Status 403)
       end.

(** The checks of the pinned endpoints, in order. *)
Fixpoint check_pins {E} (registry : NodeRegistry E) (admin : bool) (mail : string) (pins : list string)
  : result HTTPException unit :=
  match pins with
  | [] => Ok tt
  | h :: pins =>
      match Registry.get registry h with
      | None => Err (Status 400)
      | Some n =>
          if negb admin && admin_only n then Err (Status 403)
          else if negb admin && str_truthy (owner n) && negb (bool_decide (py_lower (owner n) = mail)) then Err (Status 403)
          else check_pins registry admin mail pins
      end
  end.

(** [POST /profile/tokens] for the signed-in user [u]; [raw] is the token the
    store draws. *)
Definition create_token {E} (name : string) (endpoints : option (list string)) (u : User) (registry : NodeRegistry E)
  (fuel : nat) (raw : string) (now : Z) (d : DB) : DB * result HTTPException (option (result StoreError CreatedToken)) :=
  let admin := Scopes.has_admin_access (email u) (issuer u) (auth settings) (is_admin u) in
  let config := bool_decide (name = "agent-config") in
  match (if negb admin then Err (Status 403)
         else enforce_mint_allowlist u ;?
              raise_if (config && is_some endpoints) (Status 400) ;?
              match endpoints with
              | Some pins => check_pins registry admin (py_lower (email u)) pins
              | None => Ok tt
              end ;?
              raise_if (config && is_none (session_secret settings)) (Status 503)) with
  | Err e => (d, Err e)
  | Ok _ =>
      if config then
        let '(d, r) := get_or_create_config_token hash mac others fuel (user_pk u) (or_default (session_secret settings) "") now d
        in (d, Ok r)
      else let '(d, r) := AuthStore.create_token hash (user_pk u) name endpoints raw now d in (d, Ok (Some r))
  end.

Definition revoke_token (u : User) (token_id : Z) (d : DB) : DB * result HTTPException unit :=
  let '(d, revoked) := AuthStore.revoke_token (user_pk u) token_id d in
  (d, if revoked then Ok tt else Err (Status 404)).

Definition list_pickable_endpoints {E} (u : User) (registry : NodeRegistry E) : list (string * string) :=
  let nodes := Registry.get_all registry in
  let by_id := fold_left (fun d n => dset (node_id n) n d) nodes [] in
  omap (fun id => (fun n => (id, model n)) <$> dget id by_id)
    (Scopes.pickable_endpoints (email u) (issuer u) (auth settings) nodes (is_admin u)).
End routes.

(** The administrators' endpoints, behind [require_admin_auth]. *)
Definition revoke_any_token (token_id : Z) (d : DB) : DB * result HTTPException unit :=
  let '(d, revoked) := AuthStore.revoke_any_token token_id d in
  (d, if revoked then Ok tt else Err (Status 404)).

Definition grant_admin_role (user_id now : Z) (d : DB) : DB * result HTTPException unit :=
  let '(d, updated) := set_user_admin user_id true now d in
  (d, if updated then Ok tt else Err (Status 404)).

(** The flag says that the caller revoked their own role. *)
Definition revoke_admin_role (user_id now t : Z) (s : option session) (d : DB)
  : DB * option session * result HTTPException bool :=
  let '(d, updated) := set_user_admin user_id false now d in
  if updated
  then let '(s, uid) := get_session_user_id t s in (d, s, Ok (bool_decide (uid = Some user_id)))
  else (d, s, Err (Status 404)).
End Profile.

(** ** Signing in *)

(** What a finished sign-in leaves behind: an account for the subject and a
    session that speaks for it, and for nobody else, until it lapses. *)
Definition signed_in (settings : Settings) (sub iss mail : string) (t : Z) (d' : DB) (s' : session) : Prop :=
  exists u, store_ok d' /\ u ∈ users d' /\ subject_of u = (iss, sub) /\ email u = mail /\
    holds (Some (GoogleUser (user_pk u), t / second + session_ttl_seconds settings)) s' /\
    forall t1 t2 header,
      t1 <= (t / second + session_ttl_seconds settings) * second ->
      t2 <= (t / second + session_ttl_seconds settings) * second ->
      snd (viewer_role t1 t2 (Some d') header (admin_account settings) (Some s')) =
        Some (if is_admin u then admin else user).

Lemma live_user t u e : t <= e * second -> spec_user t (Some (GoogleUser u, e)) = Some u.
Proof. intros H. cbn. destruct (e * second <? t) eqn:E; [bool_to_prop; lia|done]. Qed.

Lemma sign_in_outcome settings seen sub iss mail nm pic now t conflict d s a : lookup_current sub iss seen d -> store_ok d -> holds a s ->
  let '(d', s', resp) := sign_in settings seen sub iss mail nm pic now t conflict d s in
  (~ account_conflict sub iss mail d /\ signed_in settings sub iss mail t d' s' /\ (resp = Redirect _PROFILE_HOME \/ resp = Redirect USER_HOME)) \/
  (account_conflict sub iss mail d /\ d' = d /\ s' = s /\ resp = conflict).
Proof.
  intros Hseen Hd Hs. unfold sign_in. pose proof (upsert_cases seen sub iss mail nm pic now d Hseen Hd) as H.
  destruct (upsert_google_user seen sub iss mail nm pic now d) as [d' [u|e]]; cbn in H.
  - destruct H as (Hok & Hu & Hsub & Hmail & _ & Hnc). left. split; [done|]. split; [|destruct (is_admin u); auto].
    pose proof (holds_set_user (user_pk u) (session_ttl_seconds settings) t a s Hs) as Hh.
    exists u. split_and!; try done. intros t1 t2 header H1 H2.
    destruct (viewer_role_eq t1 t2 (Some d') header (admin_account settings) _ (Some _) Hh) as (s2 & a2 & -> & _).
    cbn [snd]. unfold role_of. rewrite !live_user by done. cbn [mbind option_bind].
    by rewrite (proj2 (get_user_iff d' (user_pk u) u Hok)).
  - destruct H as (-> & -> & Hc). right. done.
Qed.

(** Who the callback lets in: an identity with an address and a subject that the
    policy accepts and whose address no other account holds against it. *)
Definition admitted (settings : Settings) (gate : string -> result Allowlist.AllowlistUnavailableError bool) (d : DB) (i : AuthIdentity) : Prop :=
  i_email i <> "" /\ sub i <> "" /\
  Signin.check_signin_policy (i_email i) (i_issuer i) (email_verified i) (auth settings) (gate (i_email i)) = None /\
  ~ account_conflict (sub i) (i_issuer i) (i_email i) d.

(** C17: The OAuth callback signs in exactly the identities that the policy
    accepts and that no account conflict stops.  When the provider returned such
    an identity, its account exists afterwards, the session speaks for that
    account until it lapses, and the browser goes to its start page; in every
    other case nothing is persisted, neither account nor session, and the
    browser is sent back with an error code.  (No other worker may change the
    account of the same subject between its look-up and the write.) *)
Theorem callback_spec (settings : Settings) (gate : string -> result Allowlist.AllowlistUnavailableError bool)
  (identity : result string AuthIdentity) (now t : Z) (seen d : DB) (s : session) (a : Identity) :
  store_ok d -> holds a s -> (forall i, identity = Ok i -> lookup_current (sub i) (i_issuer i) seen d) ->
  let '(d', s', resp) := oauth_callback settings gate seen identity now t d s in
  (forall i, identity = Ok i -> admitted settings gate d i ->
     signed_in settings (sub i) (i_issuer i) (i_email i) t d' s' /\
     (resp = Redirect _PROFILE_HOME \/ resp = Redirect USER_HOME)) /\
  ((forall i, identity = Ok i -> ~ admitted settings gate d i) ->
     d' = d /\ s' = s /\ exists code, resp = _error_redirect code).
Proof.
  intros Hd Hs Hseen. unfold oauth_callback. destruct identity as [i|code]; [|split; [done|eauto]].
  destruct (negb (str_truthy (i_email i)) || negb (str_truthy (sub i))) eqn:Hne.
  { split; [|eauto]. intros j [= <-] (H1 & H2 & _). unfold str_truthy in Hne. rewrite !bool_decide_eq_false_2 in Hne by done. done. }
  unfold str_truthy in Hne. rewrite !negb_involutive in Hne. bool_to_prop.
  destruct (Signin.check_signin_policy _ _ _ _ _) eqn:Hp; [split; [|eauto]; intros j [= <-] (_ & _ & H1 & _); congruence|].
  pose proof (sign_in_outcome settings seen (sub i) (i_issuer i) (i_email i) (i_name i) (i_picture i) now t
    (_error_redirect "account_conflict") d s a (Hseen i eq_refl) Hd Hs) as H1.
  destruct (sign_in _ _ _ _ _ _ _ _ _ _ _ _) as [[d' s'] resp]. destruct H1 as [(Hc & H1 & H2)|(Hc & -> & -> & ->)].
  - split; [by intros j [= <-] _|]. intros Hno. exfalso. apply (Hno i eq_refl). by split_and!.
  - split; [|eauto]. intros j [= <-] (_ & _ & _ & Hn). done.
Qed.

(** The administrator's name never names a local account. *)
Lemma add_lines_admin adm lines users : dget (py_lower (py_strip adm)) users = None ->
  dget (py_lower (py_strip adm)) (fold_left (add_line adm) lines users) = None.
Proof.
  revert users. induction lines as [|l lines IH]; intros users H; [done|]. cbn. apply IH. unfold add_line.
  destruct (partition ":"%char l) as [[name b] secret]. case_match; [done|]. case_bool_decide as Hn; [done|].
  rewrite dget_dset_ne; [done|congruence].
Qed.

Lemma admin_never_local p username password adm mail :
  verify_local_credentials p username password adm = Some mail -> py_lower (py_strip username) <> py_lower (py_strip adm).
Proof.
  unfold verify_local_credentials. destruct (users_file p) as [[lines|]|]; try done. intros H Heq. rewrite Heq in H.
  by rewrite add_lines_admin in H.
Qed.

(** The local sign-in form.  It makes an administrator only of who gives the
    configured name and password; it signs in anyone else only with the
    credentials of a local account, never one of the administrator's name, that
    passes the sign-in policy; any other answer changes neither the store nor
    the session. *)
Theorem local_login_spec (settings : Settings) (gate : string -> result Allowlist.AllowlistUnavailableError bool)
  (content_type : string) (payload : option json) (plugin : option LocalPlugin) (now t : Z) (d : DB) (s : session)
  (a : Identity) :
  store_ok d -> holds a s ->
  let '(d', s', resp) := local_admin_login settings gate d content_type payload plugin now t d s in
  (exists body name, payload = Some (JObj body) /\ dget "username" body = Some (JStr name) /\
     py_strip name = username (admin_account settings) /\
     dget "password" body = Some (JStr (password (admin_account settings))) /\
     d' = d /\ holds (Some (LocalAdmin, t / second + session_ttl_seconds settings)) s' /\
     resp = Redirect _DASHBOARD_HOME) \/
  (exists body name pass p mail, payload = Some (JObj body) /\ dget "username" body = Some (JStr name) /\
     dget "password" body = Some (JStr pass) /\ plugin = Some p /\
     verify_local_credentials p (py_strip name) pass (username (admin_account settings)) = Some mail /\
     py_lower (py_strip (py_strip name)) <> py_lower (py_strip (username (admin_account settings))) /\
     Signin.check_signin_policy mail (plugin_issuer p) true (auth settings) (gate mail) = None /\
     signed_in settings mail (plugin_issuer p) mail t d' s' /\
     (resp = Redirect _PROFILE_HOME \/ resp = Redirect USER_HOME)) \/
  (d' = d /\ s' = s /\ exists code, resp = Refused code).
Proof.
  intros Hd Hs. unfold local_admin_login.
  destruct (is_none (session_secret settings)); [naive_solver|].
  destruct (negb (bool_decide (py_lower _ = _))); [naive_solver|].
  destruct payload as [[| | | | |body]|]; try naive_solver.
  destruct (dget "username" body) as [[| | |name| |]|] eqn:Hn; try naive_solver.
  destruct (dget "password" body) as [[| | |pass| |]|] eqn:Hp; try naive_solver.
  destruct (_credentials_match (py_strip name) pass (admin_account settings)) eqn:Hc.
  { left. unfold _credentials_match in Hc. bool_to_prop. subst pass. exists body, name. split_and!; try done.
    exact (holds_set_admin _ _ a s Hs). }
  unfold _local_login_identity. destruct plugin as [p|]; [|naive_solver].
  destruct (verify_local_credentials p (py_strip name) pass _) as [mail|] eqn:Hv; [|naive_solver].
  destruct (negb (str_truthy mail) || _); [naive_solver|].
  destruct (Signin.check_signin_policy _ _ _ _ _) eqn:Hpol; [naive_solver|].
  pose proof (sign_in_outcome settings d mail (plugin_issuer p) mail (py_strip name) "" now t (Refused 409) d s a eq_refl Hd Hs) as H1.
  destruct (sign_in _ _ _ _ _ _ _ _ _ _ _ _) as [[d' s'] resp]. destruct H1 as [(_ & H1 & H2)|(_ & -> & -> & ->)]; [right; left|naive_solver].
  exists body, name, pass, p, mail. split_and!; try done. by eapply admin_never_local.
Qed.

(** ** Tokens and roles *)

Lemma check_pins_ok {E} (registry : NodeRegistry E) mail pins :
  Profile.check_pins registry true mail pins = Ok tt <-> Forall (fun h => is_Some (Registry.get registry h)) pins.
Proof.
  induction pins as [|h pins IH]; [done|]. rewrite Forall_cons. cbn.
  destruct (Registry.get registry h) as [n|]; cbn; [rewrite IH|]; split; naive_solver.
Qed.

Lemma mint_allowlist_ok settings gate u : Profile.enforce_mint_allowlist settings gate u = Ok tt <->
  enforce_sso_whitelist (auth settings) = false \/ Scopes.is_full_access (email u) (issuer u) (auth settings) = true \/
  gate (email u) = Ok true.
Proof.
  unfold Profile.enforce_mint_allowlist. destruct (enforce_sso_whitelist _); cbn; [|naive_solver].
  destruct (Scopes.is_full_access _ _ _); cbn; [naive_solver|]. destruct (gate (email u)) as [[]|]; naive_solver.
Qed.

(** Minting a token.  The endpoint changes the store only for a user with
    admin access who passes the allowlist and pins nothing but registered nodes
    (and does not pin the agent-config key); the token it then returns resolves
    to that user with exactly the requested pins, and every token that resolved
    before still does.  A refusal changes nothing. *)
Theorem mint_gate {E} (hash : string -> string) (mac : string -> string -> string) (others : nat -> DB -> DB)
  (settings : Settings) (gate : string -> result Allowlist.AllowlistUnavailableError bool) (name : string)
  (endpoints : option (list string)) (u : User) (registry : NodeRegistry E) (fuel : nat) (raw : string) (now : Z) (d : DB) :
  store_ok d -> startswith raw TOKEN_PREFIX = true ->
  let may_mint :=
    Scopes.has_admin_access (email u) (issuer u) (auth settings) (is_admin u) = true /\
    (enforce_sso_whitelist (auth settings) = false \/
     Scopes.is_full_access (email u) (issuer u) (auth settings) = true \/ gate (email u) = Ok true) /\
    (name = "agent-config" -> endpoints = None /\ session_secret settings <> None) /\
    (forall pins, endpoints = Some pins -> Forall (fun h => is_Some (Registry.get registry h)) pins) in
  let '(d', r) := Profile.create_token hash mac others settings gate name endpoints u registry fuel raw now d in
  ((exists x, r = Ok x) <-> may_mint) /\
  (forall e, r = Err e -> d' = d) /\
  (name <> "agent-config" -> forall c, r = Ok (Some (Ok c)) ->
     raw_token c = raw /\ endpoint_scope (created c) = endpoints /\
     (exists row, get_user (user_pk u) d = Some row /\ resolve_token hash d' raw = Some {| Auth.user := row; Auth.token := created c |}) /\
     (forall raw' b, resolve_token hash d raw' = Some b -> resolve_token hash d' raw' = Some b)).
Proof.
  intros Hd Hraw may_mint. unfold Profile.create_token.
  set (checks := if negb _ then _ else _).
  assert ((exists x, checks = Ok x) <-> may_mint) as Hc.
  { subst checks may_mint. destruct (Scopes.has_admin_access _ _ _ _); cbn [negb]; [|naive_solver].
    rewrite <- mint_allowlist_ok. destruct (Profile.enforce_mint_allowlist settings gate u) as [[]|]; cbn; [|naive_solver].
    destruct (bool_decide_reflect (name = "agent-config")) as [Hn|Hn]; cbn.
    - destruct endpoints as [pins|]; cbn; [split; [naive_solver|]; intros (_ & _ & H & _); by destruct (H Hn)|].
      destruct (session_secret settings); cbn; naive_solver.
    - destruct endpoints as [pins|]; cbn; [|naive_solver]. setoid_rewrite <- (check_pins_ok registry (py_lower (email u))).
      destruct (Profile.check_pins _ _ _ _) as [[]|e] eqn:Hp; cbn; [naive_solver|].
      split; [naive_solver|]. intros (_ & _ & _ & H). by specialize (H pins eq_refl); rewrite Hp in H. }
  destruct checks as [[]|e] eqn:Hchk.
  2:{ split_and!; [naive_solver|done|naive_solver]. }
  assert may_mint as Hmay by (apply Hc; eauto). clear Hc Hchk checks.
  case_bool_decide as Hn.
  - destruct (get_or_create_config_token _ _ _ _ _ _ _ _) as [d' r]. split_and!; [naive_solver|done|naive_solver].
  - pose proof (create_token_spec hash (user_pk u) name endpoints raw now d Hd Hraw) as Hs.
    destruct (AuthStore.create_token hash (user_pk u) name endpoints raw now d) as [d' r].
    split_and!; [naive_solver|done|]. intros _ c [= ->]. naive_solver.
Qed.

Lemma demoted_later hash mac roles ops d d' id now u : store_ok d -> set_user_admin id false now d = (d', true) ->
  Forall (op_ok roles) ops -> ~ roles id -> get_user id (run_all hash mac ops d') = Some u -> is_admin u = false.
Proof.
  intros Hd Hset Hops Hr Hu. pose proof (set_admin_forward id false now d Hd) as [Hok _].
  assert (d' = fst (set_user_admin id false now d)) as E by by rewrite Hset. rewrite <- E in Hok.
  destruct (run_all_forward hash mac roles ops d' Hops Hok) as [Hok' Hl].
  apply get_user_iff in Hu as [Hu Hid]; [|done].
  unfold set_user_admin in Hset. injection Hset as Hd' Hex. apply existsb_elem in Hex as (u0 & Hu0 & Hpk). bool_to_prop.
  assert (set_admin false now u0 ∈ users d') as Hin.
  { rewrite <- Hd'. cbn. apply update_where_in. exists u0. by rewrite (proj2 (Z.eqb_eq _ _) Hpk). }
  destruct (later_user roles d' _ _ Hl Hin) as (u' & Hu' & Hpk' & _ & _ & [Hro|Had]); cbn in *; [congruence|].
  by rewrite (pk_inj _ u u' Hok' Hu Hu' ltac:(congruence)).
Qed.

(** Losing the admin role takes effect at once.  After an administrator's
    role is revoked, whatever the gateway does that does not grant it again, the
    admin gate refuses every request of that person's session, cached Basic
    credentials included. *)
Theorem demotion_immediate (hash : string -> string) (mac : string -> string -> string) (roles : Z -> Prop) (ops : list Op)
  (id now t t1 t2 e : Z) (s0 : option session) (d : DB) (adm : AdminSettings) (rq : Request) (flag : bool) :
  store_ok d -> Forall (op_ok roles) ops -> ~ roles id ->
  snd (Profile.revoke_admin_role id now t s0 d) = Ok flag ->
  session_identity (Some (GoogleUser id, e)) (rq_session rq) -> t1 <= e * second ->
  let d' := run_all hash mac ops (fst (fst (Profile.revoke_admin_role id now t s0 d))) in
  snd (require_admin_auth t1 t2 (Some d') adm rq) = Err (Status 401).
Proof.
  intros Hd Hops Hr Hrev Hs Ht d'. unfold Profile.revoke_admin_role in *.
  destruct (set_user_admin id false now d) as [d1 upd] eqn:Hset. destruct upd; [|done].
  assert (d' = run_all hash mac ops d1) as -> by (subst d'; by destruct (get_session_user_id t s0)). clear Hrev.
  unfold require_admin_auth.
  destruct (viewer_role_eq t1 t2 (Some (run_all hash mac ops d1)) (authorization rq) adm _ _ Hs) as (s' & a' & -> & _).
  cbn [snd]. rewrite bool_decide_eq_false_2; [done|]. rewrite role_of_admin. unfold admin_viewer. rewrite live_user by done.
  intros (_ & d2 & u & [= <-] & Hu & Ha). by rewrite (demoted_later hash mac roles ops d d1 id now u Hd Hset Hops Hr Hu) in Ha.
Qed.

(** ** Concrete runs *)

Lemma ex_db_ok : store_ok ex_db.
Proof.
  split; [reflexivity|reflexivity| | |constructor]; (split; [apply (bool_decide_eq_true_1 _); reflexivity|]).
  - repeat constructor.
  - constructor.
Qed.

Definition ex_auth_settings : AuthSettings :=
  {| admin_only_tokens_full_access := []; admin_only_tokens_full_access_by_issuer := []; require_email_verification := true;
     enforce_sso_whitelist := true; enforce_api_tokens := true; allowed_domains := ["Example.com"] |}.
Definition ex_web : Settings := mkSettings ex_auth_settings (Some "secret") 60 ex_admin.
Definition ex_gate (mail : string) : result Allowlist.AllowlistUnavailableError bool := Ok (bool_decide (mail = "new@example.com")).
Definition ex_userinfo : list (string * json) :=
  [("sub", JStr "s9"); ("email", JStr "new@example.com"); ("email_verified", JBool true); ("name", JStr "New")].

Lemma callback_spec_witness : exists d' s',
  oauth_callback ex_web ex_gate ex_db (google_complete_login (Some ex_userinfo)) 5 0 ex_db [] = (d', s', Redirect USER_HOME) /\
  signed_in ex_web "s9" GOOGLE_ISSUER "new@example.com" 0 d' s'.
Proof.
  pose proof (callback_spec ex_web ex_gate (google_complete_login (Some ex_userinfo)) 5 0 ex_db ex_db [] None ex_db_ok
    ltac:(split; reflexivity) ltac:(intros i _; reflexivity)) as H.
  destruct (oauth_callback ex_web ex_gate ex_db (google_complete_login (Some ex_userinfo)) 5 0 ex_db []) as [[d' s'] resp] eqn:E.
  assert (resp = Redirect USER_HOME) as -> by (vm_compute in E; injection E as _ _ <-; reflexivity).
  exists d', s'. split; [reflexivity|]. destruct H as [H _].
  destruct (H (mkIdentity "s9" "new@example.com" true GOOGLE_ISSUER "New" "")) as [H1 _].
  - vm_compute. reflexivity.
  - split_and!; [discriminate|discriminate|vm_compute; reflexivity|].
    intros (u0 & Hu & Hm & _). apply list_elem_of_In in Hu. vm_compute in Hu. repeat destruct Hu as [<-|Hu]; try discriminate Hm. exact Hu.
  - exact H1.
Defined.

Definition ex_plugin : LocalPlugin :=
  mkLocal (Some (Some ["# people"; "ROOT:x"; "new@example.com:pw:1"])) None None "http://idp/.well-known/openid-configuration".
Definition ex_form (name pass : string) : option json := Some (JObj [("username", JStr name); ("password", JStr pass)]).
Definition ex_login (name pass : string) : DB * session * Response :=
  local_admin_login ex_web ex_gate ex_db "application/json" (ex_form name pass) (Some ex_plugin) 5 0 ex_db [].

Lemma local_login_spec_witness :
  snd (ex_login " root" "pa:ss") = Redirect _DASHBOARD_HOME /\
  snd (ex_login "root" "x") = Refused 401 /\
  signed_in ex_web "new@example.com" "http://idp" "new@example.com" 0
    (fst (fst (ex_login "New@example.com" "pw:1"))) (snd (fst (ex_login "New@example.com" "pw:1"))).
Proof.
  split; [vm_compute; reflexivity|]. split; [vm_compute; reflexivity|].
  pose proof (local_login_spec ex_web ex_gate "application/json" (ex_form "New@example.com" "pw:1") (Some ex_plugin) 5 0 ex_db []
    None ex_db_ok ltac:(split; reflexivity)) as H. unfold ex_login.
  destruct (local_admin_login ex_web ex_gate ex_db "application/json" (ex_form "New@example.com" "pw:1") (Some ex_plugin) 5 0 ex_db [])
    as [[d' s'] resp] eqn:E.
  assert (resp = Redirect USER_HOME) as -> by (vm_compute in E; injection E as _ _ <-; reflexivity).
  destruct H as [(b & n & _ & _ & _ & _ & _ & _ & Hr)|[(b & n & pw & p & m & Hb & Hn & Hpw & Hp & Hv & _ & _ & Hs & _)|(_ & _ & c & Hc)]].
  - vm_compute in Hr. discriminate Hr.
  - injection Hp as <-. injection Hb as <-. vm_compute in Hn. injection Hn as <-. vm_compute in Hpw. injection Hpw as <-.
    vm_compute in Hv. injection Hv as <-. exact Hs.
  - discriminate Hc.
Defined.

Definition ex_open : Settings := mkSettings ex_settings (Some "secret") 60 ex_admin.

Lemma mint_gate_witness :
  let '(d', r) := Profile.create_token ex_hash ex_mac (fun _ d => d) ex_open (fun _ => Ok true) "ci" (Some ["mine"]) ex_boss ex_fleet 3
                    "qiip_abc" 9 ex_db in
  (exists x, r = Ok x) /\
  (forall c, r = Ok (Some (Ok c)) -> endpoint_scope (created c) = Some ["mine"] /\ resolve_token ex_hash d' "qiip_abc" <> None).
Proof.
  pose proof (mint_gate ex_hash ex_mac (fun _ d => d) ex_open (fun _ => Ok true) "ci" (Some ["mine"]) ex_boss ex_fleet 3 "qiip_abc" 9 ex_db
    ex_db_ok eq_refl) as H. cbv zeta in H.
  destruct (Profile.create_token ex_hash ex_mac (fun _ d => d) ex_open (fun _ => Ok true) "ci" (Some ["mine"]) ex_boss ex_fleet 3
    "qiip_abc" 9 ex_db) as [d' r]. destruct H as (H1 & _ & H3). split.
  - apply H1. split_and!; [reflexivity|right; right; reflexivity|discriminate|]. intros pins [= <-].
    constructor; [eexists; vm_compute; reflexivity|constructor].
  - intros c Hc. destruct (H3 ltac:(discriminate) c Hc) as (_ & Hs & (row & _ & Hres) & _). split; [exact Hs|].
    rewrite Hres. discriminate.
Defined.

Lemma demotion_immediate_witness :
  snd (require_admin_auth 1 2 (Some ex_db) ex_admin ex_request) = Ok tt /\
  snd (require_admin_auth 1 2 (Some (fst (fst (Profile.revoke_admin_role 2 9 1 (Some ex_session) ex_db)))) ex_admin ex_request) =
    Err (Status 401).
Proof.
  split; [vm_compute; reflexivity|].
  apply (demotion_immediate ex_hash ex_mac (fun _ => False) [] 2 9 1 1 2 60 (Some ex_session) ex_db ex_admin ex_request true).
  - exact ex_db_ok.
  - constructor.
  - intros [].
  - vm_compute. reflexivity.
  - vm_compute. auto.
  - vm_compute. discriminate.
Defined.
