(* ===== verification/Fleet.v ===== *)
(** * The unified node list and the fleet view

    - [inference_proxy/services/unified_nodes.py]: the merge of the registry
      with the QUADS inventory, and what each viewer gets of it
    - [inference_proxy/api/fleet.py] and the node list of
      [inference_proxy/api/admin.py]: the endpoints that serve it
    - [AdminNodeResponse] and [TaskStatusResponse] of
      [inference_proxy/models/admin.py]; [provisioning/state.py]

    Connection counts, breaker states and the poller are read one at a time
    while other threads run, so they are arguments: functions of the node id,
    and one poller state per read.  [redact] stands for [redact_secrets], a
    regular-expression substitution on free text about which nothing is
    assumed; [parse_task] for pydantic's reading of a stored task. *)

From S2P Require Import Prelude PyDict Json NodeModel Registry Auth AuthStore Breaker Quads Sessions.
Import Session Viewer.
Local Open Scope Z_scope.

(** ** Provisioning tasks *)

Inductive ProvisioningResumeState := MAINTENANCE_REQUIRED | REBOOT_REQUIRED.

Definition TEARDOWN_STEPS : list string := ["draining"; "stopping_vllm"; "stopping_llamacpp"; "deregistering"].
Definition TEARDOWN_FAILED_STEP : string := "teardown".

Record TaskStatusResponse := mkTask {
  k_hostname : string;
  k_attempt_id : option string;
  k_engine : option InferenceEngine;
  k_current_step : string;
  k_started_at : Z;
  k_updated_at : Z;
  k_failed_step : option string;
  k_error : option string;
  k_resume_state : option ProvisioningResumeState;
  k_attempt_number : option Z;
  k_retry_count : Z;
  k_progress : option (list (string * json));
  k_failure_class : option string;
  k_next_action : option string;
}.

(** The fields of a node row that come from its task. *)
Record TaskFields := mkFields {
  f_failed_step : option string;
  f_error : option string;
  f_resume_state : option ProvisioningResumeState;
  f_attempt_number : option Z;
  f_retry_count : Z;
  f_progress : option (list (string * json));
  f_failure_class : option string;
  f_next_action : option string;
}.

Definition task_fields (task : option TaskStatusResponse) : TaskFields :=
  match task with
  | Some t => mkFields (k_failed_step t) (k_error t) (k_resume_state t) (k_attempt_number t) (k_retry_count t)
                (k_progress t) (k_failure_class t) (k_next_action t)
  | None => mkFields None None None None 0 None None None
  end.

Record AdminNodeResponse := mkRow {
  r_node_id : string;
  r_name : string;
  r_endpoint : string;
  r_model : string;
  r_status : string;
  r_active_connections : Z;
  r_circuit_breaker_state : CircuitBreakerState;
  r_engine : option InferenceEngine;
  r_artifact_id : option string;
  r_llamacpp_runtime : option LlamaCppRuntimeState;
  r_vllm_runtime : option VllmRuntimeState;
  r_state : string;
  r_actions : list string;
  r_gpu_vendor : option string;
  r_gpu_model : option string;
  r_gpu_count : option Z;
  r_managed : bool;
  r_self_setup : bool;
  r_admin_only : bool;
  r_owner : string;
  r_placement_blocker : option string;
  r_task : TaskFields;
}.

(** [model_copy(update=...)] *)
Definition with_blocker (b : string) (r : AdminNodeResponse) : AdminNodeResponse :=
  mkRow (r_node_id r) (r_name r) (r_endpoint r) (r_model r) (r_status r) (r_active_connections r)
    (r_circuit_breaker_state r) (r_engine r) (r_artifact_id r) (r_llamacpp_runtime r) (r_vllm_runtime r) (r_state r)
    (r_actions r) (r_gpu_vendor r) (r_gpu_model r) (r_gpu_count r) (r_managed r) (r_self_setup r) (r_admin_only r)
    (r_owner r) (Some b) (r_task r).
Definition without_private (r : AdminNodeResponse) : AdminNodeResponse :=
  mkRow (r_node_id r) (r_name r) (r_endpoint r) (r_model r) (r_status r) (r_active_connections r)
    (r_circuit_breaker_state r) (r_engine r) (r_artifact_id r) (r_llamacpp_runtime r) (r_vllm_runtime r) (r_state r)
    [] (r_gpu_vendor r) (r_gpu_model r) (r_gpu_count r) (r_managed r) (r_self_setup r) (r_admin_only r)
    "" (r_placement_blocker r) (r_task r).
Definition with_error (e : string) (r : AdminNodeResponse) : AdminNodeResponse :=
  let f := r_task r in
  mkRow (r_node_id r) (r_name r) (r_endpoint r) (r_model r) (r_status r) (r_active_connections r)
    (r_circuit_breaker_state r) (r_engine r) (r_artifact_id r) (r_llamacpp_runtime r) (r_vllm_runtime r) (r_state r)
    (r_actions r) (r_gpu_vendor r) (r_gpu_model r) (r_gpu_count r) (r_managed r) (r_self_setup r) (r_admin_only r)
    (r_owner r) (r_placement_blocker r)
    (mkFields (f_failed_step f) (Some e) (f_resume_state f) (f_attempt_number f) (f_retry_count f) (f_progress f)
       (f_failure_class f) (f_next_action f)).

(** The truth value of an optional text. *)
Definition opt_truthy (o : option string) : bool := match o with Some s => str_truthy s | None => false end.

(** ** The merge *)

Definition _STATE_ACTIONS : list (string * list string) :=
  [("available", ["setup"]); ("healthy", ["teardown"]); ("unhealthy", ["teardown"]); ("provisioning", ["cancel"]);
   ("failed", ["setup"; "teardown"]); ("draining", ["force_teardown"]); ("relaunching", []);
   ("relaunch_failed", ["teardown"])].

Definition state_actions (s : string) : list string := default [] (dget s _STATE_ACTIONS).

Section service.
Context (connections : string -> Z) (breaker : string -> option CircuitBreakerState).
Context (task_map : list (string * TaskStatusResponse)) (placement_blockers : list (string * string)).

Definition _from_etcd (n : Node) (host : option QUADSHost) : AdminNodeResponse :=
  let state := status_value (NodeModel.status n) in
  let task := dget (node_id n) task_map in
  let actions :=
    if self_setup n then ["remove"]
    else if match task with Some t => bool_decide (k_failed_step t = Some TEARDOWN_FAILED_STEP) | None => false end
    then ["teardown"]
    else if bool_decide (state = "available") && negb (managed n) then state_actions state ++ ["remove"]
    else state_actions state in
  mkRow (node_id n) (name n) (endpoint n) (model n) state (connections (node_id n)) (or_default (breaker (node_id n)) CLOSED)
    (Some (engine n)) (artifact_id n) (llamacpp_runtime n) (vllm_runtime n) state actions (gpu_vendor <$> host)
    (gpu_model <$> host) (gpu_count <$> host) (managed n) (self_setup n) (admin_only n) (owner n) None (task_fields task).

Definition _from_available (host : QUADSHost) : AdminNodeResponse :=
  let task := dget (hostname host) task_map in
  let '(state, actions) :=
    match task with
    | None => ("available", state_actions "available")
    | Some t =>
        if bool_decide (k_current_step t = "failed") || opt_truthy (k_failed_step t) then
          ("failed", if bool_decide (k_failed_step t = Some TEARDOWN_FAILED_STEP) then ["teardown"] else state_actions "failed")
        else if bool_decide (k_current_step t ∈ TEARDOWN_STEPS) then ("draining", state_actions "draining")
        else if negb (bool_decide (k_current_step t ∈ ["complete"; "teardown_complete"])) then
          ("provisioning", state_actions "provisioning")
        else ("available", state_actions "available")
    end in
  mkRow (hostname host) "" "" "" "" 0 CLOSED None None None None state actions (Some (gpu_vendor host)) (Some (gpu_model host))
    (Some (gpu_count host)) true false false "" None (task_fields task).

(** The dictionaries by canonical id and by host name. *)
Definition etcd_dict (nodes : list Node) : list (string * Node) :=
  fold_left (fun d n => dset (canonical_hostname (node_id n)) n d) nodes [].
Definition quads_dict (hosts : list QUADSHost) : list (string * QUADSHost) :=
  fold_left (fun d h => dset (hostname h) h d) hosts [].

(** The loop over the QUADS hosts: the rows, and the nodes not yet listed. *)
Fixpoint merge_hosts (hosts : list (string * QUADSHost)) (available : list string) (viewer_admin : bool)
  (etcd_map : list (string * Node)) : list AdminNodeResponse * list (string * Node) :=
  match hosts with
  | [] => ([], etcd_map)
  | (h, host) :: hosts =>
      let '(rows, rest) := merge_hosts hosts available viewer_admin (dpop h etcd_map) in
      match dget h etcd_map with
      | Some n => (_from_etcd n (Some host) :: rows, rest)
      | None =>
          if bool_decide (h ∈ available) && viewer_admin then (_from_available host :: rows, rest) else (rows, rest)
      end
  end.

Definition add_blocker (r : AdminNodeResponse) : AdminNodeResponse :=
  match dget (r_node_id r) placement_blockers with
  | Some b => if bool_decide (r_state r = "available") then with_blocker b r else r
  | None => r
  end.

Definition row_le (a b : AdminNodeResponse) : bool := String.leb (r_node_id a) (r_node_id b).

Definition row_visible (viewer_email : option string) (r : AdminNodeResponse) : bool :=
  negb (r_admin_only r) &&
  negb match viewer_email with
       | Some m => str_truthy m && str_truthy (r_owner r) && negb (bool_decide (py_lower (r_owner r) = m))
       | None => false
       end.

Definition _finalize (result : list AdminNodeResponse) (viewer_admin : bool) (viewer_email : option string)
  : list AdminNodeResponse :=
  if viewer_admin then sort_by row_le result
  else sort_by row_le (List.map without_private (List.filter (row_visible viewer_email) result)).

(** [poller] holds the answers of [poller.hosts] and [poller.available_hostnames],
    [None] when QUADS is not configured. *)
Definition get_unified_nodes (nodes : list Node) (poller : option (list QUADSHost * list string)) (viewer_admin : bool)
  (viewer_email : option string) : list AdminNodeResponse :=
  let etcd_map := etcd_dict nodes in
  match poller with
  | None => _finalize (List.map (fun n => _from_etcd n None) (dvalues etcd_map)) viewer_admin viewer_email
  | Some (hosts, available) =>
      let '(rows, rest) := merge_hosts (quads_dict hosts) available viewer_admin etcd_map in
      let result := rows ++ List.map (fun n => _from_etcd n None) (dvalues rest) in
      _finalize (List.map add_blocker result) viewer_admin viewer_email
  end.
End service.

(** ** Endpoints *)

Section endpoints.
Context (redact : string -> string) (parse_task : list (string * json) -> option TaskStatusResponse).
Context (connections : string -> Z) (breaker : string -> option CircuitBreakerState) (placement_blockers : list (string * string)).

Definition _redact_node (r : AdminNodeResponse) : AdminNodeResponse :=
  match f_error (r_task r) with
  | Some e => if str_truthy e then with_error (redact e) r else r
  | None => r
  end.

Definition redact_task (t : TaskStatusResponse) : TaskStatusResponse :=
  match k_error t with
  | Some e =>
      if str_truthy e
      then mkTask (k_hostname t) (k_attempt_id t) (k_engine t) (k_current_step t) (k_started_at t) (k_updated_at t)
             (k_failed_step t) (Some (redact e)) (k_resume_state t) (k_attempt_number t) (k_retry_count t) (k_progress t)
             (k_failure_class t) (k_next_action t)
      else t
  | None => t
  end.

(** The fleet list, which never carries task data. *)
Definition fleet_list (nodes : list Node) (poller : option (list QUADSHost * list string)) (viewer_email : option string)
  : list AdminNodeResponse :=
  get_unified_nodes connections breaker [] placement_blockers nodes poller false viewer_email.

Definition _visible_node (nodes : list Node) (poller : option (list QUADSHost * list string)) (id : string)
  (viewer_email : option string) : result HTTPException AdminNodeResponse :=
  match List.find (fun r => bool_decide (r_node_id r = id)) (fleet_list nodes poller viewer_email) with
  | Some r => Ok r
  | None => Err (Status 404)
  end.

Definition fleet_nodes (nodes : list Node) (poller : option (list QUADSHost * list string)) (viewer_email : option string)
  : list AdminNodeResponse :=
  List.map _redact_node (fleet_list nodes poller viewer_email).

Definition fleet_node_detail (nodes : list Node) (poller : option (list QUADSHost * list string)) (id : string)
  (viewer_email : option string) : result HTTPException AdminNodeResponse :=
  let? r := _visible_node nodes poller id viewer_email in Ok (_redact_node r).

(** Reading one stored task: [TypeError] when the document is not an object,
    which neither endpoint catches; anything else malformed is skipped. *)
Inductive TaskRead := Parsed (t : TaskStatusResponse) | Skipped | TypeError.

Definition read_task (value : blob) : TaskRead :=
  match loads value with
  | None => Skipped
  | Some (JObj d) => match parse_task d with Some t => Parsed t | None => Skipped end
  | Some _ => TypeError
  end.

(** The tasks of the stored values; [None] when the loop raises. *)
Fixpoint read_tasks (values : list blob) : option (list TaskStatusResponse) :=
  match values with
  | [] => Some []
  | v :: values =>
      match read_task v with
      | TypeError => None
      | Skipped => read_tasks values
      | Parsed t => cons t <$> read_tasks values
      end
  end.

Definition fleet_node_tasks (nodes : list Node) (poller : option (list QUADSHost * list string)) (id : string)
  (viewer_email : option string) (values : list blob) : result HTTPException (list TaskStatusResponse) :=
  _visible_node nodes poller id viewer_email ;?
  match read_tasks values with
  | None => Err (Status 500)
  | Some ts => Ok (List.map redact_task (List.filter (fun t => bool_decide (k_hostname t = id)) ts))
  end.

(** The log endpoint up to the stream it opens: the buffer must have the node. *)
Definition fleet_node_logs (nodes : list Node) (poller : option (list QUADSHost * list string)) (id : string)
  (viewer_email : option string) (has_buffer : string -> bool) : result HTTPException string :=
  _visible_node nodes poller id viewer_email ;?
  if has_buffer id then Ok id else Err (Status 404).

(** The admin list; [values] is [None] when the tasks cannot be listed, which
    only marks the answer as degraded (the second component). *)
Definition list_nodes (nodes : list Node) (poller : option (list QUADSHost * list string)) (values : option (list blob))
  : result HTTPException (list AdminNodeResponse * bool) :=
  match read_tasks (or_default values []) with
  | None => Err (Status 500)
  | Some ts =>
      let task_map := fold_left (fun d t => dset (k_hostname t) t d) ts [] in
      Ok (get_unified_nodes connections breaker task_map placement_blockers nodes poller true None, is_none values)
  end.

(** [GET /fleet/nodes] with its dependencies: the router's own gate, then the
    viewer's address, then the list. *)
Definition get_fleet (times : Z * Z * Z * Z * Z) (gate_store store later : option DB) (header : string) (a : AdminSettings)
  (s : option session) (nodes : list Node) (poller : option (list QUADSHost * list string))
  : option session * result HTTPException (list AdminNodeResponse) :=
  let '(t1, t2, t3, t4, t5) := times in
  let '(s, gate) := require_fleet_viewer t1 t2 gate_store header a s in
  match gate with
  | Err e => (s, Err e)
  | Ok _ =>
      let '(s, mail) := require_fleet_viewer_email t3 t4 t5 store later header a s in
      (s, let? m := mail in Ok (fleet_nodes nodes poller m))
  end.
End endpoints.

(** ** The merge as a set of rows *)

Lemma fold_dset_app {A} (key : A -> string) (l : list A) d :
  NoDup (key <$> l) -> (forall x, x ∈ l -> key x ∉ dkeys d) ->
  fold_left (fun d x => dset (key x) x d) l d = d ++ ((fun x => (key x, x)) <$> l).
Proof.
  revert d. induction l as [|x l IH]; intros d Hnd Hd; [by rewrite app_nil_r|].
  rewrite fmap_cons in Hnd. apply NoDup_cons in Hnd as [Hx Hnd]. cbn [fold_left].
  assert (dset (key x) x d = d ++ [(key x, x)]) as E.
  { assert (key x ∉ dkeys d) as Hk by (apply Hd; left). clear -Hk. induction d as [|[k v] d IH]; cbn in *; [done|].
    fold (dkeys d) in Hk. rewrite decide_False by set_solver. f_equal. apply IH. set_solver. }
  rewrite E, IH; [by rewrite <- app_assoc|done|]. intros y Hy. unfold dkeys. rewrite fmap_app, elem_of_app. intros [H|H].
  - apply (Hd y); [by right|done].
  - cbn in H. apply list_elem_of_singleton in H. apply Hx. rewrite <- H. by apply list_elem_of_fmap_2.
Qed.

Lemma dpop_none {V} k (d : list (string * V)) : dget k d = None -> dpop k d = d.
Proof. induction d as [|[k' v] d IH]; cbn; [done|]. case_decide; [done|]. intros. by rewrite IH. Qed.

Lemma dpop_perm {V} k v (d : list (string * V)) : dwf d -> dget k d = Some v -> d ≡ₚ (k, v) :: dpop k d.
Proof.
  unfold dwf. induction d as [|[k' v'] d IH]; cbn; [done|]. intros [Hk Hd]%NoDup_cons H. case_decide; simplify_eq.
  - rewrite dpop_none; [done|]. by apply dget_None_keys.
  - rewrite (IH Hd H) at 1. apply Permutation_swap.
Qed.

Lemma dwf_fold_dset {A} (key : A -> string) (l : list A) d : dwf d -> dwf (fold_left (fun d x => dset (key x) x d) l d).
Proof. revert d. induction l as [|x l IH]; intros d H; [done|]. apply IH. by apply dwf_dset. Qed.

Section rows.
Context (connections : string -> Z) (breaker : string -> option CircuitBreakerState).
Context (task_map : list (string * TaskStatusResponse)) (placement_blockers : list (string * string)).
Notation from_etcd := (_from_etcd connections breaker task_map).
Notation from_available := (_from_available task_map).

(** The rows of registered nodes and of free hosts. *)
Definition node_rows (Q : list (string * QUADSHost)) (E : list (string * Node)) : list AdminNodeResponse :=
  (fun kn => from_etcd (snd kn) (dget (fst kn) Q)) <$> E.
Definition free_rows (available : list string) (viewer_admin : bool) (E : list (string * Node)) (Q : list (string * QUADSHost))
  : list AdminNodeResponse :=
  (fun hq => from_available (snd hq)) <$>
    List.filter (fun hq => is_none (dget (fst hq) E) && (bool_decide (fst hq ∈ available) && viewer_admin)) Q.

Lemma node_rows_ext Q Q' E : (forall k, k ∈ dkeys E -> dget k Q = dget k Q') -> node_rows Q E = node_rows Q' E.
Proof.
  intros H. unfold node_rows. apply list_fmap_ext. intros i [k n] Hi. cbn. f_equal. apply H.
  unfold dkeys. apply list_elem_of_fmap. exists (k, n). split; [done|]. by eapply list_elem_of_lookup_2.
Qed.

Lemma free_rows_ext available va E E' Q : (forall k, k ∈ dkeys Q -> dget k E = dget k E') ->
  free_rows available va E Q = free_rows available va E' Q.
Proof.
  intros H. unfold free_rows. f_equal. induction Q as [|[k q] Q IH]; [done|]. cbn in *. rewrite (H k) by left.
  rewrite IH; [done|]. intros k' Hk. apply H. by right.
Qed.

Lemma merge_hosts_perm Q available va E rows rest : dwf Q -> dwf E ->
  merge_hosts connections breaker task_map Q available va E = (rows, rest) ->
  rows ++ List.map (fun n => from_etcd n None) (dvalues rest) ≡ₚ node_rows Q E ++ free_rows available va E Q.
Proof.
  revert E rows rest. induction Q as [|[h host] Q IH]; intros E rows rest HQ HE H.
  { injection H as <- <-. unfold free_rows, node_rows, dvalues. cbn. rewrite app_nil_r.
    change (List.map ?f ?l) with (f <$> l). by rewrite <- list_fmap_compose. }
  apply NoDup_cons in HQ as [Hh HQ]. fold (dkeys Q) in Hh. cbn in H.
  destruct (merge_hosts connections breaker task_map Q available va (dpop h E)) as [rows' rest'] eqn:Hm.
  specialize (IH (dpop h E) rows' rest' HQ (dwf_dpop h E HE) Hm).
  rewrite (node_rows_ext Q ((h, host) :: Q) (dpop h E)) in IH.
  2:{ intros k Hk. cbn. apply elem_of_dkeys_dpop in Hk as [_ Hk]. by rewrite decide_False. }
  rewrite (free_rows_ext available va (dpop h E) E Q) in IH.
  2:{ intros k Hk. rewrite dget_dpop, decide_False; [done|]. set_solver. }
  unfold free_rows at 1. cbn [List.filter fst].
  destruct (dget h E) as [n|] eqn:Hn; cbn [is_none andb].
  - injection H as <- <-. assert (node_rows ((h, host) :: Q) E ≡ₚ
      from_etcd n (Some host) :: node_rows ((h, host) :: Q) (dpop h E)) as ->.
    { unfold node_rows. rewrite (dpop_perm h n E HE Hn) at 1. rewrite fmap_cons. cbn. by rewrite decide_True. }
    cbn. constructor. exact IH.
  - rewrite (dpop_none h E Hn) in IH. destruct (bool_decide (h ∈ available) && va); injection H as <- <-; [|exact IH].
    rewrite fmap_cons, <- app_comm_cons, IH. cbn. apply Permutation_middle.
Qed.

(** What is listed before the viewer's filter. *)
Definition listed_node (poller : option (list QUADSHost * list string)) (n : Node) : AdminNodeResponse :=
  match poller with
  | None => from_etcd n None
  | Some (hosts, _) =>
      add_blocker placement_blockers (from_etcd n (dget (canonical_hostname (node_id n)) (quads_dict hosts)))
  end.

Definition registered (nodes : list Node) (h : string) : bool :=
  existsb (fun n => bool_decide (canonical_hostname (node_id n) = h)) nodes.

Definition listed_hosts (poller : option (list QUADSHost * list string)) (nodes : list Node) : list AdminNodeResponse :=
  match poller with
  | None => []
  | Some (hosts, available) =>
      (fun hq => add_blocker placement_blockers (from_available (snd hq))) <$>
        List.filter (fun hq => negb (registered nodes (fst hq)) && bool_decide (fst hq ∈ available)) (quads_dict hosts)
  end.

Definition distinct_ids (nodes : list Node) : Prop := NoDup ((fun n => canonical_hostname (node_id n)) <$> nodes).

Lemma etcd_dict_eq nodes : distinct_ids nodes ->
  etcd_dict nodes = (fun n => (canonical_hostname (node_id n), n)) <$> nodes.
Proof. intros H. unfold etcd_dict. by rewrite fold_dset_app by (done || set_solver). Qed.

Lemma registered_dget nodes h :
  is_none (dget h ((fun n => (canonical_hostname (node_id n), n)) <$> nodes)) = negb (registered nodes h).
Proof.
  induction nodes as [|n nodes IH]; [done|]. cbn. case_decide as H; case_bool_decide as H'; try congruence; done.
Qed.

Lemma unified_listed nodes poller va ve : distinct_ids nodes -> exists l,
  get_unified_nodes connections breaker task_map placement_blockers nodes poller va ve = _finalize l va ve /\
  l ≡ₚ (listed_node poller <$> nodes) ++ (if va then listed_hosts poller nodes else []).
Proof.
  intros Hd. unfold get_unified_nodes. rewrite (etcd_dict_eq nodes Hd). destruct poller as [[hosts available]|].
  - set (E := (fun n => (canonical_hostname (node_id n), n)) <$> nodes).
    destruct (merge_hosts _ _ _ _ _ _ _) as [rows rest] eqn:Hm. eexists. split; [done|].
    apply merge_hosts_perm in Hm.
    + rewrite (Permutation_map _ Hm), List.map_app. apply Permutation_app.
      * unfold node_rows, E, listed_node. change (List.map ?f ?l) with (f <$> l). by rewrite <- !list_fmap_compose.
      * unfold free_rows, listed_hosts. change (List.map ?f ?l) with (f <$> l).
        rewrite (List.filter_ext _ (fun hq => negb (registered nodes (fst hq)) && (bool_decide (fst hq ∈ available) && va)))
          by (intros [h q]; unfold E; by rewrite registered_dget).
        rewrite <- list_fmap_compose. destruct va.
        -- rewrite (List.filter_ext _ (fun hq => negb (registered nodes (fst hq)) && bool_decide (fst hq ∈ available))); [done|].
           intros. by rewrite andb_true_r.
        -- rewrite (List.filter_ext _ (fun _ => false)); [|intros; by rewrite !andb_false_r].
           clear Hm. induction (quads_dict hosts) as [|q l IH]; [done|exact IH].
    + apply dwf_fold_dset, dwf_nil.
    + unfold dwf, dkeys, E. by rewrite <- list_fmap_compose.
  - eexists. split; [done|]. unfold dvalues, listed_node. change (List.map ?f ?l) with (f <$> l).
    rewrite <- !list_fmap_compose. destruct va; by rewrite app_nil_r.
Qed.

(** Whether a signed-in viewer may see a node. *)
Definition node_visible (viewer_email : option string) (n : Node) : bool :=
  negb (admin_only n) &&
  negb match viewer_email with
       | Some m => str_truthy m && str_truthy (owner n) && negb (bool_decide (py_lower (owner n) = m))
       | None => false
       end.

Lemma listed_node_id poller n : r_node_id (listed_node poller n) = node_id n.
Proof. unfold listed_node, add_blocker. by repeat case_match. Qed.

Lemma listed_node_visible poller ve n : row_visible ve (listed_node poller n) = node_visible ve n.
Proof. unfold listed_node, add_blocker. by repeat case_match. Qed.

Lemma fleet_listed nodes poller ve : distinct_ids nodes -> exists l,
  get_unified_nodes connections breaker task_map placement_blockers nodes poller false ve = sort_by row_le l /\
  l ≡ₚ (fun n => without_private (listed_node poller n)) <$> List.filter (node_visible ve) nodes.
Proof.
  intros Hd. destruct (unified_listed nodes poller false ve Hd) as (l & -> & Hl). rewrite app_nil_r in Hl.
  eexists. split; [done|]. change (List.map ?f ?l) with (f <$> l). rewrite Hl. clear.
  induction nodes as [|n nodes IH]; [done|]. cbn. rewrite listed_node_visible. destruct (node_visible ve n); cbn; by rewrite IH.
Qed.
End rows.

Lemma distinct_node_ids nodes : distinct_ids nodes -> NoDup (node_id <$> nodes).
Proof. intros H. apply (NoDup_fmap_1 canonical_hostname). by rewrite <- list_fmap_compose. Qed.

Lemma filter_fmap_NoDup {A B} (f : A -> B) (p : A -> bool) l : NoDup (f <$> l) -> NoDup (f <$> List.filter p l).
Proof.
  induction l as [|x l IH]; [done|]. rewrite fmap_cons. intros [Hx Hl]%NoDup_cons. cbn. destruct (p x); [|auto].
  rewrite fmap_cons. apply NoDup_cons. split; [|auto]. intros (y & E & Hy)%list_elem_of_fmap.
  apply Hx. rewrite E. apply list_elem_of_fmap_2. apply elem_of_filter_bool in Hy. tauto.
Qed.

(** The operators' list is complete.  When no two registered ids name the
    same host, it consists of one row for each registered node, enriched by the
    QUADS host of that name, and one for each available QUADS host that is not
    registered, in the order of the ids. *)
Theorem unified_exact (connections : string -> Z) (breaker : string -> option CircuitBreakerState)
  (task_map : list (string * TaskStatusResponse)) (blockers : list (string * string)) (nodes : list Node)
  (poller : option (list QUADSHost * list string)) :
  distinct_ids nodes ->
  let rows := get_unified_nodes connections breaker task_map blockers nodes poller true None in
  StronglySorted (fun a b => row_le a b = true) rows /\
  rows ≡ₚ (listed_node connections breaker task_map blockers poller <$> nodes) ++ listed_hosts task_map blockers poller nodes.
Proof.
  intros Hd rows. destruct (unified_listed connections breaker task_map blockers nodes poller true None Hd) as (l & Hr & Hl).
  subst rows. rewrite Hr. split.
  - apply sort_by_sorted; unfold row_le; [intros x y; apply string_leb_total|intros x y z; apply string_leb_trans].
  - unfold _finalize. by rewrite sort_by_perm.
Qed.

(** ** What a viewer learns *)

Section viewer.
Context (redact : string -> string) (parse_task : list (string * json) -> option TaskStatusResponse).
Context (connections : string -> Z) (breaker : string -> option CircuitBreakerState) (blockers : list (string * string)).
Notation fleet_list := (fleet_list connections breaker blockers).
Notation fleet_nodes := (fleet_nodes redact connections breaker blockers).

Lemma fleet_list_perm nodes nodes' poller ve : distinct_ids nodes -> distinct_ids nodes' ->
  List.filter (node_visible ve) nodes ≡ₚ List.filter (node_visible ve) nodes' ->
  fleet_list nodes poller ve = fleet_list nodes' poller ve.
Proof.
  intros Hd Hd' Hp. unfold Fleet.fleet_list.
  destruct (fleet_listed connections breaker [] blockers nodes poller ve Hd) as (l & -> & Hl).
  destruct (fleet_listed connections breaker [] blockers nodes' poller ve Hd') as (l' & -> & Hl').
  apply sort_by_key_perm; [by rewrite Hl, Hl', Hp|]. rewrite Hl, <- list_fmap_compose.
  rewrite (list_fmap_ext _ node_id) by (intros i n _; apply listed_node_id).
  apply filter_fmap_NoDup. by apply distinct_node_ids.
Qed.

Lemma fleet_nodes_elem nodes poller ve r : distinct_ids nodes -> r ∈ fleet_nodes nodes poller ve -> exists n,
  n ∈ nodes /\ node_visible ve n = true /\ r_node_id r = node_id n /\ r_actions r = [] /\ r_owner r = "" /\
  r_admin_only r = false.
Proof.
  intros Hd. unfold Fleet.fleet_nodes, Fleet.fleet_list. change (List.map ?f ?l) with (f <$> l).
  intros (r0 & -> & Hr)%list_elem_of_fmap.
  destruct (fleet_listed connections breaker [] blockers nodes poller ve Hd) as (l & El & Hl). rewrite El, sort_by_perm, Hl in Hr.
  apply list_elem_of_fmap in Hr as (n & -> & [Hn Hv]%elem_of_filter_bool). exists n.
  pose proof (listed_node_id connections breaker [] blockers poller n) as Hid.
  pose proof (listed_node_visible connections breaker [] blockers poller ve n) as Hrow. rewrite Hv in Hrow.
  unfold row_visible in Hrow. apply andb_prop in Hrow as [Hadm%negb_true_iff _].
  unfold _redact_node. split_and!; [done|done|..]; repeat case_match; done.
Qed.

Lemma fleet_ids nodes poller ve : distinct_ids nodes ->
  r_node_id <$> fleet_nodes nodes poller ve = sort_by String.leb (node_id <$> List.filter (node_visible ve) nodes).
Proof.
  intros Hd. unfold Fleet.fleet_nodes, Fleet.fleet_list. change (List.map ?f ?l) with (f <$> l).
  destruct (fleet_listed connections breaker [] blockers nodes poller ve Hd) as (l & -> & Hl).
  rewrite <- list_fmap_compose, (list_fmap_ext _ r_node_id).
  2:{ intros i r _. unfold compose, _redact_node. by repeat case_match. }
  eapply (sorted_perm_unique (fun a b => String.leb a b = true)).
  - pose proof (sort_by_sorted row_le) as Hs. unfold row_le in Hs at 1 2 3 4 5.
    specialize (Hs ltac:(intros x y; apply string_leb_total) ltac:(intros x y z; apply string_leb_trans) l).
    induction Hs as [|r m _ IH Hm]; [constructor|]. rewrite fmap_cons. constructor; [done|].
    apply Forall_map. exact Hm.
  - apply sort_by_sorted; [apply string_leb_total|apply string_leb_trans].
  - rewrite !sort_by_perm, Hl, <- list_fmap_compose.
    by rewrite (list_fmap_ext _ node_id) by (intros i n _; apply listed_node_id).
  - intros x y _ _. apply String.leb_antisym.
Qed.

(** C16: The fleet endpoints keep other people's nodes secret.  Two registries that
    agree on the nodes the viewer may see (not admin-only, unowned or the
    viewer's own) give the same list, the same details, tasks and logs for every
    id, so a hidden node cannot be told from an absent one; and no row carries
    actions or an owner. *)
Theorem fleet_private (nodes nodes' : list Node) (poller : option (list QUADSHost * list string)) (m : string) :
  m <> "" -> distinct_ids nodes -> distinct_ids nodes' ->
  List.filter (node_visible (Some m)) nodes ≡ₚ List.filter (node_visible (Some m)) nodes' ->
  fleet_nodes nodes poller (Some m) = fleet_nodes nodes' poller (Some m) /\
  (forall id values has_buffer,
     fleet_node_detail redact connections breaker blockers nodes poller id (Some m) =
       fleet_node_detail redact connections breaker blockers nodes' poller id (Some m) /\
     fleet_node_tasks redact parse_task connections breaker blockers nodes poller id (Some m) values =
       fleet_node_tasks redact parse_task connections breaker blockers nodes' poller id (Some m) values /\
     fleet_node_logs connections breaker blockers nodes poller id (Some m) has_buffer =
       fleet_node_logs connections breaker blockers nodes' poller id (Some m) has_buffer) /\
  (forall r, r ∈ fleet_nodes nodes poller (Some m) -> r_actions r = [] /\ r_owner r = "" /\ exists n,
     n ∈ nodes /\ r_node_id r = node_id n /\ admin_only n = false /\ (owner n = "" \/ py_lower (owner n) = m)).
Proof.
  intros Hm Hd Hd' Hp. pose proof (fleet_list_perm nodes nodes' poller (Some m) Hd Hd' Hp) as E. split_and!.
  - unfold Fleet.fleet_nodes. by rewrite E.
  - intros. unfold fleet_node_detail, fleet_node_tasks, fleet_node_logs, _visible_node. by rewrite E.
  - intros r Hr. destruct (fleet_nodes_elem nodes poller (Some m) r Hd Hr) as (n & Hn & Hv & Hid & Ha & Ho & _).
    split_and!; [done|done|]. exists n. unfold node_visible in Hv. apply andb_prop in Hv as [Hv1%negb_true_iff Hv2%negb_true_iff].
    split_and!; [done|done|done|]. unfold str_truthy in Hv2. rewrite (bool_decide_eq_false_2 (m = "")) in Hv2 by done.
    destruct (decide (owner n = "")); [by left|]. rewrite (bool_decide_eq_false_2 (owner n = "")) in Hv2 by done.
    right. cbn in Hv2. by apply negb_false_iff, bool_decide_eq_true in Hv2.
Qed.

(** The fleet lists exactly the nodes the endpoint picker offers the same
    person, in the same order, for everyone who has no admin access. *)
Theorem fleet_matches_picker (u : User) (s : AuthSettings) (nodes : list Node)
  (poller : option (list QUADSHost * list string)) :
  email u <> "" -> Scopes.has_admin_access (email u) (issuer u) s (is_admin u) = false -> distinct_ids nodes ->
  r_node_id <$> fleet_nodes nodes poller (Some (py_lower (email u))) =
  Scopes.pickable_endpoints (email u) (issuer u) s nodes (is_admin u).
Proof.
  intros Hm Ha Hd. rewrite fleet_ids by done. unfold Scopes.pickable_endpoints. rewrite Ha. do 2 f_equal.
  apply List.filter_ext. intros n. unfold node_visible, Scopes.pickable. cbn [negb andb orb].
  assert (str_truthy (py_lower (email u)) = true) as ->.
  { unfold str_truthy. apply negb_true_iff, bool_decide_eq_false. by destruct (email u). }
  destruct (admin_only n); [done|]. destruct (str_truthy (owner n)); cbn; [|done]. by rewrite negb_involutive.
Qed.
End viewer.

(** ** Concrete runs *)

Definition ex_hidden : Node := with_owner "bob@example.com" (Node_default "gpu02" "http://gpu02:1").
Definition ex_shared : Node := set_status HEALTHY (Node_default "gpu01" "http://gpu01:1").
Definition ex_poller : option (list QUADSHost * list string) :=
  Some ([mkHost "gpu01" "NVIDIA" "H100" 8; mkHost "gpu02" "NVIDIA" "A100" 4; mkHost "gpu03" "AMD" "MI300" 8], ["gpu03"]).
Definition ex_none : string -> option CircuitBreakerState := fun _ => None.
Definition ex_tasks : list (string * json) -> option TaskStatusResponse := fun _ => None.

Lemma unified_exact_witness :
  r_node_id <$> get_unified_nodes (fun _ => 0) ex_none [] [] [ex_hidden; ex_shared] ex_poller true None =
    ["gpu01"; "gpu02"; "gpu03"] /\
  get_unified_nodes (fun _ => 0) ex_none [] [] [ex_hidden; ex_shared] ex_poller true None ≡ₚ
    (listed_node (fun _ => 0) ex_none [] [] ex_poller <$> [ex_hidden; ex_shared]) ++
    listed_hosts [] [] ex_poller [ex_hidden; ex_shared].
Proof.
  split; [vm_compute; reflexivity|]. apply (unified_exact (fun _ => 0) ex_none [] [] [ex_hidden; ex_shared] ex_poller).
  apply (bool_decide_eq_true_1 _). vm_compute. reflexivity.
Defined.

Lemma fleet_private_witness :
  fleet_nodes id (fun _ => 0) ex_none [] [ex_hidden; ex_shared] ex_poller (Some "alice@example.com") =
  fleet_nodes id (fun _ => 0) ex_none [] [ex_shared] ex_poller (Some "alice@example.com") /\
  fleet_node_detail id (fun _ => 0) ex_none [] [ex_hidden; ex_shared] ex_poller "gpu02" (Some "alice@example.com") =
    Err (Status 404).
Proof.
  destruct (fleet_private id ex_tasks (fun _ => 0) ex_none [] [ex_hidden; ex_shared] [ex_shared] ex_poller "alice@example.com")
    as (H1 & H2 & _).
  - done.
  - apply (bool_decide_eq_true_1 _). vm_compute. reflexivity.
  - apply (bool_decide_eq_true_1 _). vm_compute. reflexivity.
  - vm_compute. done.
  - split; [exact H1|]. destruct (H2 "gpu02" [] (fun _ => true)) as [-> _]. vm_compute. reflexivity.
Defined.

Lemma fleet_matches_picker_witness :
  r_node_id <$> fleet_nodes id (fun _ => 0) ex_none [] [ex_hidden; ex_shared] ex_poller (Some (py_lower (email ex_user))) =
    ["gpu01"] /\
  Scopes.pickable_endpoints (email ex_user) (issuer ex_user) ex_settings [ex_hidden; ex_shared] (is_admin ex_user) = ["gpu01"].
Proof.
  rewrite <- (fleet_matches_picker id (fun _ => 0) ex_none [] ex_user ex_settings [ex_hidden; ex_shared] ex_poller).
  - split; vm_compute; reflexivity.
  - done.
  - vm_compute. reflexivity.
  - apply (bool_decide_eq_true_1 _). vm_compute. reflexivity.
Defined.

(** A session that lapses while its own request is served loses the ownership
    filter.  Alice's session is live when both gates read it and has lapsed when
    her address is read, so the address is [None] and she is shown Bob's node,
    which a microsecond earlier is hidden from her. *)
Theorem expiring_session_unfiltered :
  let s := Some (set_session_user 1 60 0 []) in
  let t := 60 * second in
  let view t5 := snd (get_fleet id (fun _ => 0) ex_none [] (t - 3, t - 2, t - 1, t, t5) (Some ex_db) (Some ex_db) (Some ex_db)
                        "" ex_admin s [ex_hidden; ex_shared] ex_poller) in
  (exists rows, view t = Ok rows /\ r_node_id <$> rows = ["gpu01"]) /\
  (exists rows, view (t + 1) = Ok rows /\ r_node_id <$> rows = ["gpu01"; "gpu02"]).
Proof. split; eexists; split; vm_compute; reflexivity. Qed.

(** C1: Two registered nodes whose ids differ only in case, or in a trailing dot,
    share one place of the list: the one registered first is not listed. *)
Theorem colliding_ids_hide_node :
  let nodes := [Node_default "GPU01" "http://a:1"; Node_default "gpu01." "http://b:1"] in
  NoDup (node_id <$> nodes) /\
  r_node_id <$> get_unified_nodes (fun _ => 0) ex_none [] [] nodes None true None = ["gpu01."].
Proof. split; [apply (bool_decide_eq_true_1 _)|]; vm_compute; reflexivity. Qed.

(** C1: One stored task that is valid JSON but not an object takes the whole node
    list down, whatever else is stored: the loop that skips malformed tasks does
    not catch the [TypeError]. *)
Theorem nonobject_task_fails_list (parse_task : list (string * json) -> option TaskStatusResponse)
  (connections : string -> Z) (breaker : string -> option CircuitBreakerState) (blockers : list (string * string))
  (nodes : list Node) (poller : option (list QUADSHost * list string)) (before after : list blob) (l : list json) :
  list_nodes parse_task connections breaker blockers nodes poller (Some (before ++ JsonText (JList l) :: after)) =
  Err (Status 500).
Proof.
  unfold list_nodes. cbn [or_default]. assert (read_tasks parse_task (before ++ JsonText (JList l) :: after) = None) as ->; [|done].
  induction before as [|v before IH]; cbn; [done|]. destruct (read_task parse_task v); [by rewrite IH|done|done].
Qed.
